(* ===== verification/_CoqProject ===== *)
-Q . S2P
Prelude.v
Text.v
DirBody.v
DirAlloc.v
DirInv.v
DirRead.v
DirCheck.v
DirOps.v
DirSpec.v
Fid.v
Acl.v
Vv.v
Lock.v
Pack.v
PdbArray.v
PdbPack.v
PdbDb.v
Pdb.v
PdbCps.v
PdbOps.v
PdbUsers.v
PdbGroups.v
PdbSpec.v
RwcdbFile.v
Rwcdb.v
RwcdbFormat.v
RwcdbFind.v
RwcdbMem.v
RwcdbOps.v
RwcdbNext.v
RwcdbDump.v
RwcdbTable.v
RwcdbSync.v
RwcdbSpec.v
PdbStore.v
RdsMem.v
Rds.v
RdsHeap.v
RdsLists.v
RdsMerge.v
RdsCoalesce.v
RdsAlloc.v
RdsApi.v
RdsInit.v
RdsIntent.v
RdsClient.v
RdsSpec.v
RvmOffset.v
RvmTree.v
RvmAvl.v
RvmIter.v
RvmLoops.v
RvmTrans.v
RvmCells.v
RvmTx.v
RvmSet.v
RvmMerge.v
RvmCoalesce.v
RvmCoSet.v
RvmSession.v
RvmSpec.v
SftpMask.v
SftpEntry.v
SftpCode.v
SftpFile.v
SftpSink.v
SftpArrive.v
SftpSource.v
SftpRead.v
SftpSend.v
SftpAck.v
SftpDeliver.v
SftpSystem.v
