(* ===== verification/Prelude.v ===== *)
(** * A verification library for the Coda file system

    Coda is a replicated file system.  Clients (venus) cache files and
    directories; servers (vice) keep replicas of volumes and decide, with version
    vectors, which replicas are current; access is checked with access lists
    against the groups that the protection database records for a user.  Clients
    and servers talk RPC2 and are built on lightweight threads (LWP) and on
    recoverable memory (RVM).  This library models the parts of the C and C++ code
    that carry this logic as functions on explicit state and proves what the rest
    of the system relies on.

    ** Files

    - [Prelude]: outcomes of C code ([res]: a value, a failed assertion, undefined
      behaviour, no end), machine integers, loops with their proof rules, byte
      strings and arrays.  [Text]: numbers in text, byte order.
    - Directories, src/coda-src/dir/dirbody.c.  [DirBody] is the code: a directory
      is the byte string of its pages, with a bitmap allocator of blobs and 128
      hash chains.  [DirAlloc] (allocator), [DirInv] (invariant), [DirRead]
      (lookup, enumeration), [DirCheck] (DIR_DirOK), [DirOps] (create, delete) and
      [DirSpec], where the directory refines a finite map from names to fids.
    - File identifiers, src/coda-src/dir/fid.c: [Fid].
    - Access lists, src/coda-src/al/alprocs.c: [Acl].
    - Version vectors, src/coda-src/vv/inconsist.cc and nettohost.cc: [Vv].
    - Locks, src/subprojects/lwp/src/lock.c: [Lock], as steps of threads that
      give up the processor where the code waits.
    - RPC2 marshalling, src/subprojects/rpc2/rpc2-src/pack_helper.c: [Pack].
    - Protection database, src/coda-src/al/pdb*.c, in layers: [PdbArray]
      (pdbarray.c, sorted id arrays), [PdbPack] (pdbpack.c, records), [PdbDb]
      (pdbdb.c and the record functions of pdbprofile.c, over the interface
      [RWCDB] of the key-value store), [Pdb] (pdb.c and
      PDB_updateCps).  [PdbCps] proves the recursive update of the CPS, [PdbOps],
      [PdbUsers] and [PdbGroups] the operations, and [PdbSpec] states the
      specification: a view of names, owners and membership, and its commands.
      These proofs are on an ideal store ([RWCDBLaws]); [PdbStore] makes the code
      of rwcdb.c an instance of [RWCDB] and carries the results over to it.
    - Key-value store, src/lib-src/rwcdb: [RwcdbFile] (rwcdb_file.c, a file with a
      read cache or a write buffer), [Rwcdb] (rwcdb.c, all of it).  [RwcdbFormat]
      is the file format, [RwcdbFind] the probe loop, [RwcdbMem] the pending
      updates, [RwcdbOps] lookup and update, [RwcdbNext] and [RwcdbDump] the scan
      and the writing of records, [RwcdbTable] the hash tables, [RwcdbSync] the
      commit, and [RwcdbSpec] the store as a finite map with commands.
    - Recoverable heap, src/subprojects/rvm/rds: [RdsMem] (the mapped segment, the
      interface [RVM] with its laws, the allocator's state monad and its rules),
      [Rds] (the code of all its files but the mapping of segments and tracing).
      [RdsHeap] describes a heap by its tiles and free lists, [RdsLists] proves
      rds_util.c, [RdsMerge] and [RdsCoalesce] rds_coalesce.c, [RdsAlloc]
      rds_split.c and get_block, [RdsApi] rds_malloc and rds_free, [RdsInit]
      rds_init_heap and rds_start_heap, [RdsIntent] the deferred frees, [RdsClient]
      transactions of a client, and [RdsSpec] has the theorems, with an undo log
      that satisfies the laws of [RVM].
    - Recoverable memory, src/subprojects/rvm/rvm.  [RvmOffset] (offsets of two
      words), [RvmTree] (the balanced trees of rvm_utils.c and their iterators, with
      the traversal vector), [RvmAvl], [RvmIter] and [RvmLoops] (insertion and
      deletion, successors, the loop macros).  [RvmTrans] is the code of
      transactions (rvm_trans.c up to the commit, find_whole_range of rvm_map.c);
      [RvmCells] (copies), [RvmTx] (abort), [RvmSet] (ranges without coalescing),
      [RvmMerge], [RvmCoalesce] and [RvmCoSet] (search for overlaps, merging),
      [RvmSession] (sessions of a client) and [RvmSpec] with the theorems.
    - File transfer of RPC2, src/subprojects/rpc2/rpc2-src/sftp3.c and sftp5.c:
      [SftpMask] (bit masks of packets), [SftpEntry] (packets, the entry of a
      connection, the file), [SftpCode] (the routines of source and sink).  At the sink
      [SftpFile] proves the writing of runs of packets, [SftpSink] acks and writes,
      [SftpArrive] an arriving packet, [SftpDeliver] what a sequence of events delivers.
      [SftpSource] cuts a file into packets, [SftpRead] proves sftp_ReadStrategy,
      [SftpSend] sftp_SendStrategy, [SftpAck] sftp_AckArrived.  [SftpSystem] puts both
      ends together with a network.

    ** How code is represented

    An object in memory is a list of bytes or of cells, a pointer into it an
    offset, NULL is [None].  An access outside the object, a signed overflow (of ids and
    counters; the hash of a name in DIR_Hash, which overflows for long names, wraps as
    the compiled code does) or a dereferenced NULL is [Stop CUndef]; a failed assertion
    or exit is [Stop CAbort].  32-bit integers are [Z] with the wrap-around written out ([uwrap],
    [swrap]).  A function that changes its arguments returns their new values.
    [malloc] is a parameter ([Alloc], or a field of the environment of DirBody);
    [write] and [rename] may fail ([Disk], [Rename]); the directory with the
    database file is part of the state of rwcdb.  [qsort] is any function that sorts,
    with equal elements in any order ([QSort]); the store under the protection database and, for the access lists, the protection
    database are type classes of operations with laws.  Multi-byte
    loads and stores of the directory and record formats are in network order, as
    the code converts with htonl and ntohl.  The recoverable heap is a map from
    addresses to cells, each as wide as the code's accesses to it; the record of a
    transaction is live or freed, and a call with a freed one is undefined.  RVM may
    fail at any call; its laws say that an abort brings the announced ranges back.
    In the model of RVM itself descriptors are in maps from addresses, a tree is an
    inductive tree whose nodes carry their addresses, the path that the traversal
    vector holds is a zipper, and a store past the vector is undefined; the answers of
    malloc are a list in the state.

    ** Fuel

    Loops over a counter need none.  A walk along a hash chain of a directory has
    fuel for the 8192 blobs there can be: under the invariant chains end before
    that, and check_chain_cycle shows that on damaged chains the code itself does
    not end.  The merge loop of AL_CheckRights has the sum of both lengths.
    PDB_updateCps recurses from a group to its members; in a database without
    cycles any fuel above the number of principals is enough, and the theorems say
    so (size of the database below the fuel).  rwcdb_next and dump_records have
    more rounds than the file has bytes, which bounds its records; the search for a
    free slot has one round per slot and one more.  Loops over the blocks and lists
    of the heap have one round per cell of the segment and one more.  The iterators
    of a tree have four rounds more than the vector has entries, the loop macros one
    round per node and one more.

    ** What the theorems show

    - Directories: any history of creates and deletes behaves as a finite map and
      keeps the format valid; each operation refines the map operation, errors
      included (EEXIST, ENOENT, EFBIG, and what happens without memory).
    - Protection database: on the store of rwcdb.c, any history of fewer than 2^20
      allowed commands from an empty directory runs without a failed assertion and
      every stored CPS is exactly the set of ids that membership leads to, as long as
      the maps on the way are below the size limit of the file and have no key with
      the hash 0; deleting a group that is in another group aborts.  Profiles
      survive the packed form, id arrays are sets, lookups by name and by id are
      inverse.
    - Key-value store: any history of lookups, insertions, deletions and syncs from
      an empty directory has the answers of a finite map; what is synced is found
      after reopening; a scan visits each binding once; a failed rename loses
      nothing, but a sync after a full disk writes a wrong file, and a key with the
      hash 0 is lost.  The maps are limited to a file below 2^31 bytes.
    - Recoverable heap: whatever a client does in a transaction, an abort restores
      the memory, and otherwise the heap is well-formed and the client's blocks
      hold what it wrote; rds_malloc gives disjoint blocks that are large enough and
      finds one whenever there is room; frees give back exactly their block, deferred
      ones all or none; a second free is detected.  rds_free can abort its
      transaction twice, sizes wrap in rds_malloc, rds_maxblock promises too much,
      and rds_init_heap fails its assertion exactly when the rounded-up first block
      leaves too little room (for most lengths).  The theorems ask for
      fewer than 2^30 chunks and lists, which the code's int variables need, for at
      least as many chunks as lists, and for a readable word behind the heap, which
      merging reads before it compares the address with the end.
    - Recoverable memory: after a client has announced ranges, modified bytes and
      stored to announced addresses in a transaction, rvm_abort_transaction brings back
      the memory and the tables; with coalescing the ranges stay disjoint and ordered,
      and cover exactly what was announced.  The trees are balanced and implement
      ordered sets; the loop macros visit each node once.  These theorems ask for a
      malloc that does not fail and for at most 2582 actions, which a tree of 15 levels
      holds: tree_delete spoils max_depth, and then a larger tree overruns the traversal
      vector.  A failed malloc in merge_range is not seen.
    - Version vectors: the comparison is the site-wise order, VV_Check finds exactly
      the dominant vectors on both of its paths, GetMaxVV is an
      upper bound, the least without negative sites.
    - Access lists: AL_CheckRights is right for ascending lists; a list without
      denials survives the text form, sorted by id; AL_Internalize can
      turn a denial into a grant, sorts past the end of the list, and orders the
      denials so that AL_CheckRights misses them; AL_Externalize can overrun.
    - Locks: readers and writers exclude each other in every reachable state, wake-ups
      are not lost, releases do not fail; the shared lock does not exclude, and
      reading under one's own write lock aborts.
    - Marshalling: on any packet unpacking stays inside it; packing returns and writes
      nothing outside the buffer for strings below 4 GiB (longer ones can overrun it);
      structures survive the round trip.
    - File transfer: whatever order the packets of a file arrive in, duplicated or
      lost, the sink writes a beginning of the file, it completes only with all of it
      and always does when every packet has arrived, and it acknowledges only what
      has arrived.  Over a network that loses, duplicates and reorders packets and acks
      the source completes only after the sink has; no handler fails an assertion; a
      transfer fails only for an error of a file, or for an old ack, which
      sftp_AckArrived means to ignore but takes for an error.
    - Identifiers: the order is total, the text form is injective.

    ** Not modelled

    Printing and conversion functions of dirbody.c, directory handles and inodes
    (codadir.c, dhcache.c, dirinode.c); PDB_bugfixes, PDB_printProfile and
    PDB_db_nextkey; the name of the rwcdb file and failures of fstat; the interactive tools; threads, sockets and the RPC2 protocol
    (of a file transfer: the listener, the choice of timeouts, the exchange of
    parameters, piggybacked files, multicast, encryption and the progress callback);
    the commit of RVM, its log, truncation and recovery, the mapping of regions and of
    heap segments; the locks of RVM and of the heap: calls do not overlap; the client
    and server proper, resolution and volumes. *)

From Stdlib Require Import ZArith Lia.
From stdpp Require Import base list numbers gmap.
Open Scope Z_scope.

(** ** Outcomes of C code

    A C function that can fail an assertion, read outside an object or loop for
    ever is a function into [res].  An error code returned by the source is an
    ordinary value, not a [Stop]. *)
Inductive stop : Set :=
| CAbort     (* abort(), a failed assert() or CODA_ASSERT() *)
| CUndef     (* undefined behaviour: access outside the object, NULL pointer *)
| CDiverge.  (* the fuel of a loop ran out *)

Inductive res (A : Type) : Type :=
| Ret (a : A)
| Stop (s : stop).
Arguments Ret {A} a.
Arguments Stop {A} s.

Definition rbind {A B} (m : res A) (f : A -> res B) : res B :=
  match m with Ret a => f a | Stop s => Stop s end.

Declare Scope c_scope.
Delimit Scope c_scope with C.
Notation "'let*' x ':=' m 'in' k" := (rbind m (fun x => k))
  (at level 10, x pattern, m at level 100, k at level 200) : c_scope.
Notation "m1 ';;;' m2" := (rbind m1 (fun _ => m2))
  (at level 199, right associativity) : c_scope.
Open Scope c_scope.

(** [CODA_ASSERT(b)]. *)
Definition cassert (b : bool) : res unit := if b then Ret tt else Stop CAbort.

Lemma bind_ret {A B} (a : A) (f : A -> res B) : rbind (Ret a) f = f a.
Proof. reflexivity. Qed.

Lemma bind_Ret_inv {A B} (m : res A) (f : A -> res B) b :
  rbind m f = Ret b -> exists a, m = Ret a /\ f a = Ret b.
Proof. destruct m; cbn; intros; [eauto | discriminate]. Qed.

Create Rewrite HintDb cstep.
#[export] Hint Rewrite @bind_ret : cstep.

(** ** Machine integers: [w]-bit values as [Z] with the wrap-around written out *)
Definition uwrap (w v : Z) : Z := v mod 2 ^ w.
Definition swrap (w v : Z) : Z := (v + 2 ^ (w - 1)) mod 2 ^ w - 2 ^ (w - 1).
Abbreviation u8 := (uwrap 8).
Abbreviation u16 := (uwrap 16).
Abbreviation u32 := (uwrap 32).
Abbreviation s8 := (swrap 8).
Abbreviation s16 := (swrap 16).
Abbreviation s32 := (swrap 32).

Lemma uwrap_bound w v : 0 <= w -> 0 <= uwrap w v < 2 ^ w.
Proof. intros. apply Z.mod_pos_bound. lia. Qed.

Lemma uwrap_small w v : 0 <= v < 2 ^ w -> uwrap w v = v.
Proof. intros. apply Z.mod_small; lia. Qed.

Lemma swrap_bound w v : 0 < w -> - 2 ^ (w - 1) <= swrap w v < 2 ^ (w - 1).
Proof.
  intros. unfold swrap.
  assert (2 ^ w = 2 * 2 ^ (w - 1)) as E.
  { rewrite <- Z.pow_succ_r by lia. f_equal. lia. }
  pose proof (Z.mod_pos_bound (v + 2 ^ (w - 1)) (2 ^ w) ltac:(lia)). lia.
Qed.

Lemma swrap_small w v : 0 < w -> - 2 ^ (w - 1) <= v < 2 ^ (w - 1) -> swrap w v = v.
Proof.
  intros. unfold swrap.
  assert (2 ^ w = 2 * 2 ^ (w - 1)) as E.
  { rewrite <- Z.pow_succ_r by lia. f_equal. lia. }
  rewrite Z.mod_small by lia. lia.
Qed.

(** A signed value and the unsigned value of the same bits. *)
Lemma uwrap_swrap w v : 0 < w -> uwrap w (swrap w v) = uwrap w v.
Proof.
  intros. unfold uwrap, swrap.
  rewrite Zminus_mod, Z.mod_mod by lia.
  rewrite <- Zminus_mod. f_equal. lia.
Qed.

Lemma testbit_uwrap w v k : 0 <= k < w -> Z.testbit (uwrap w v) k = Z.testbit v k.
Proof. intros. unfold uwrap. apply Z.mod_pow2_bits_low. lia. Qed.

Lemma testbit_uwrap_high w v k : 0 <= w <= k -> Z.testbit (uwrap w v) k = false.
Proof. intros. unfold uwrap. apply Z.mod_pow2_bits_high. lia. Qed.

Lemma testbit_swrap w v k : 0 <= k < w -> Z.testbit (swrap w v) k = Z.testbit v k.
Proof.
  intros. rewrite <- (testbit_uwrap w (swrap w v)) by lia.
  rewrite uwrap_swrap by lia. apply testbit_uwrap. lia.
Qed.

(** Two [w]-bit values with the same bits are equal. *)
Lemma bits_ext w a b :
  0 <= w -> 0 <= a < 2 ^ w -> 0 <= b < 2 ^ w ->
  (forall k, 0 <= k < w -> Z.testbit a k = Z.testbit b k) -> a = b.
Proof.
  intros Hw Ha Hb H. apply Z.bits_inj'. intros n Hn.
  destruct (Z.lt_ge_cases n w); [auto|].
  rewrite <- (uwrap_small w a), <- (uwrap_small w b) by lia.
  now rewrite !testbit_uwrap_high by lia.
Qed.

(** [(x >> k) & 1], the C idiom that reads bit [k]. *)
Lemma land_shiftr_1 x k : 0 <= k -> Z.land (Z.shiftr x k) 1 = Z.b2z (Z.testbit x k).
Proof.
  intros. change 1 with (Z.ones 1).
  rewrite Z.land_ones, Z.shiftr_div_pow2, <- Z.testbit_spec' by lia. reflexivity.
Qed.

(** [x | (1 << k)] and [x & ~(1 << k)] on a byte. *)
Lemma testbit_setbit_u8 x k n :
  0 <= k < 8 -> 0 <= n < 8 ->
  Z.testbit (u8 (Z.lor x (Z.shiftl 1 k))) n = Z.testbit x n || (k =? n).
Proof.
  intros. rewrite testbit_uwrap by lia.
  rewrite Z.lor_spec, Z.shiftl_1_l, Z.pow2_bits_eqb by lia. reflexivity.
Qed.

Lemma testbit_clearbit_u8 x k n :
  0 <= k < 8 -> 0 <= n < 8 ->
  Z.testbit (u8 (Z.land x (Z.lnot (Z.shiftl 1 k)))) n = Z.testbit x n && negb (k =? n).
Proof.
  intros. rewrite testbit_uwrap by lia.
  rewrite Z.land_spec, Z.lnot_spec, Z.shiftl_1_l, Z.pow2_bits_eqb by lia. reflexivity.
Qed.

(** ** Loops

    [loop n i body s] is [for (k = i; k < i + n; k++) s = body(k, s)]; a body
    that returns [inr r] leaves the loop (break, return or goto) with [r]. *)
Fixpoint loop {St R} (n : nat) (i : Z) (body : Z -> St -> res (St + R)) (s : St)
  : res (St + R) :=
  match n with
  | O => Ret (inl s)
  | S n' =>
      let* r := body i s in
      match r with
      | inl s' => loop n' (i + 1) body s'
      | inr r => Ret (inr r)
      end
  end.

(** [for (i = lo; i < hi; i++)]. *)
Definition for_range {St R} (lo hi : Z) (body : Z -> St -> res (St + R)) (s : St)
  : res (St + R) := loop (Z.to_nat (hi - lo)) lo body s.

(** A counted loop whose body never leaves early. *)
Definition forZ {St} (lo hi : Z) (body : Z -> St -> res St) (s : St) : res St :=
  let* r := for_range (R := Empty_set) lo hi
              (fun i s => let* s' := body i s in Ret (inl s')) s in
  match r with inl s' => Ret s' | inr e => match (e : Empty_set) with end end.

(** [while (1)] with fuel; [inr] leaves the loop. *)
Fixpoint while_loop {St R} (fuel : nat) (body : St -> res (St + R)) (s : St) : res R :=
  match fuel with
  | O => Stop CDiverge
  | S f =>
      let* r := body s in
      match r with
      | inl s' => while_loop f body s'
      | inr r => Ret r
      end
  end.

(** Rule for a counted loop with invariant [P] and exit condition [Q]. *)
Lemma for_range_rule {St R} (P : Z -> St -> Prop) (Q : Z -> R -> Prop) lo hi body (s : St) :
  lo <= hi ->
  P lo s ->
  (forall k s, lo <= k < hi -> P k s ->
     (exists s', body k s = Ret (inl s') /\ P (k + 1) s') \/
     (exists r, body k s = Ret (inr r) /\ Q k r)) ->
  (exists s', for_range lo hi body s = Ret (inl s') /\ P hi s') \/
  (exists k r, lo <= k < hi /\ for_range lo hi body s = Ret (inr r) /\ Q k r).
Proof.
  intros Hle HP Hb. unfold for_range.
  assert (exists n, hi = lo + Z.of_nat n) as [n ->] by (exists (Z.to_nat (hi - lo)); lia).
  replace (Z.to_nat (lo + Z.of_nat n - lo)) with n by lia. clear Hle.
  revert lo s HP Hb. induction n as [|n IH]; intros lo s HP Hb.
  - left. exists s. split; [reflexivity|]. now replace (lo + Z.of_nat 0) with lo by lia.
  - destruct (Hb lo s ltac:(lia) HP) as [(s' & E & HP')|(r & E & HQ)]; cbn [loop]; rewrite E.
    + cbn. destruct (IH (lo + 1) s' HP') as [(t & Et & Ht)|(k & r & Hk & Et & Ht)].
      * intros k t Hk. apply Hb. lia.
      * left. exists t. split; [exact Et|].
        now replace (lo + Z.of_nat (S n)) with (lo + 1 + Z.of_nat n) by lia.
      * right. exists k, r. split; [lia|]. eauto.
    + right. exists lo, r. split; [lia|]. cbn. eauto.
Qed.

(** A counted loop whose iteration [k] stops the program, after iterations that keep [P]. *)
Lemma for_range_stop {St R} (P : Z -> St -> Prop) lo hi k e (body : Z -> St -> res (St + R)) s :
  lo <= k < hi -> P lo s ->
  (forall i s, lo <= i < k -> P i s -> exists s', body i s = Ret (inl s') /\ P (i + 1) s') ->
  (forall s, P k s -> body k s = Stop e) -> for_range lo hi body s = Stop e.
Proof.
  intros Hk HP Hb Hs. unfold for_range.
  assert (exists n, k = lo + Z.of_nat n) as [n ->] by (exists (Z.to_nat (k - lo)); lia).
  assert (exists r, Z.to_nat (hi - lo) = (n + S r)%nat) as [r ->].
  { exists (Z.to_nat (hi - lo) - S n)%nat. lia. }
  clear Hk. revert lo s HP Hb Hs. induction n as [|n IH]; intros lo s HP Hb Hs; cbn [Nat.add loop].
  - replace (lo + Z.of_nat 0) with lo in Hs by lia. rewrite Hs by done. reflexivity.
  - destruct (Hb lo s ltac:(lia) HP) as (s' & -> & HP'). cbn. apply IH; [done| |].
    + intros i t Hi. apply Hb. lia.
    + replace (lo + 1 + Z.of_nat n) with (lo + Z.of_nat (S n)) by lia. exact Hs.
Qed.

(** The rule for a loop that never leaves early. *)
Lemma for_range_total {St R} (P : Z -> St -> Prop) lo hi body (s : St) :
  lo <= hi ->
  P lo s ->
  (forall k s, lo <= k < hi -> P k s ->
     exists s', body k s = Ret (@inl St R s') /\ P (k + 1) s') ->
  exists s', for_range lo hi body s = Ret (inl s') /\ P hi s'.
Proof.
  intros Hle HP Hb.
  destruct (for_range_rule (R := R) P (fun _ _ => False) lo hi body s Hle HP)
    as [H|(k & r & _ & _ & [])]; eauto.
Qed.

Lemma forZ_total {St} (P : Z -> St -> Prop) lo hi body (s : St) :
  lo <= hi ->
  P lo s ->
  (forall k s, lo <= k < hi -> P k s -> exists s', body k s = Ret s' /\ P (k + 1) s') ->
  exists s', forZ lo hi body s = Ret s' /\ P hi s'.
Proof.
  intros Hle HP Hb. unfold forZ.
  destruct (for_range_total (R := Empty_set) P lo hi
              (fun i s => let* s' := body i s in Ret (inl s')) s Hle HP) as (s' & -> & HP').
  - intros k t Hk Ht. destruct (Hb k t Hk Ht) as (t' & -> & Ht'). exists t'. done.
  - exists s'. done.
Qed.

(** The rule for [while (1)]: the invariant [P] comes with a bound on the rounds left. *)
Lemma while_rule {St R} (P : nat -> St -> Prop) (Q : R -> Prop) (body : St -> res (St + R)) fuel m s :
  P m s -> (m < fuel)%nat ->
  (forall m s, P m s -> (exists r, body s = Ret (inr r) /\ Q r) \/
                       (exists s' m', body s = Ret (inl s') /\ (m' < m)%nat /\ P m' s')) ->
  exists r, while_loop fuel body s = Ret r /\ Q r.
Proof.
  intros HP Hm Hb. revert m s HP Hm. induction fuel as [|fuel IH]; intros m s HP Hm; [lia|]. cbn [while_loop].
  destruct (Hb m s HP) as [(r & -> & HQ)|(s' & m' & -> & Hlt & HP')]; cbn; [by exists r|]. apply (IH m'); [done|lia].
Qed.

(** ** Byte-addressed memory: an object is the list of its bytes *)
Definition getb (d : list Z) (o : Z) : Z := default 0 (d !! Z.to_nat o).

Definition putbs (d : list Z) (o : Z) (bs : list Z) : list Z :=
  take (Z.to_nat o) d ++ bs ++ drop (Z.to_nat o + length bs)%nat d.

Definition zlen {A} (d : list A) : Z := Z.of_nat (length d).

Definition inbb (d : list Z) (o n : Z) : bool := (0 <=? o) && (o + n <=? zlen d).

(** Loads and stores; multi-byte ones in network byte order, i.e. the value
    after [ntohs]/[ntohl] of the stored field and before [htons]/[htonl]. *)
Definition ld8 (d : list Z) (o : Z) : res Z :=
  if inbb d o 1 then Ret (getb d o) else Stop CUndef.
Definition ld8s (d : list Z) (o : Z) : res Z := let* v := ld8 d o in Ret (s8 v).
Definition ld16 (d : list Z) (o : Z) : res Z :=
  if inbb d o 2 then Ret (256 * getb d o + getb d (o + 1)) else Stop CUndef.
Definition ld32 (d : list Z) (o : Z) : res Z :=
  if inbb d o 4
  then Ret (2 ^ 24 * getb d o + 2 ^ 16 * getb d (o + 1) + 256 * getb d (o + 2) + getb d (o + 3))
  else Stop CUndef.
Definition stbytes (d : list Z) (o : Z) (bs : list Z) : res (list Z) :=
  if inbb d o (zlen bs) then Ret (putbs d o bs) else Stop CUndef.
Definition be16 (v : Z) : list Z := [u8 (v / 256); u8 v].
Definition be32 (v : Z) : list Z := [u8 (v / 2 ^ 24); u8 (v / 2 ^ 16); u8 (v / 256); u8 v].
Definition st8 (d : list Z) (o v : Z) : res (list Z) := stbytes d o [u8 v].
Definition st16 (d : list Z) (o v : Z) : res (list Z) := stbytes d o (be16 v).
Definition st32 (d : list Z) (o v : Z) : res (list Z) := stbytes d o (be32 v).

(** The NUL-terminated string at offset [o] ([strlen], [strcmp], [strcpy] read it). *)
Fixpoint cstr_of (l : list Z) : option (list Z) :=
  match l with
  | [] => None
  | b :: l' => if b =? 0 then Some [] else (cons b) <$> cstr_of l'
  end.
Definition cstr (d : list Z) (o : Z) : res (list Z) :=
  if 0 <=? o then
    match cstr_of (drop (Z.to_nat o) d) with
    | Some s => Ret s
    | None => Stop CUndef
    end
  else Stop CUndef.
(** [strcpy(d + o, s)]. *)
Definition ststr (d : list Z) (o : Z) (s : list Z) : res (list Z) := stbytes d o (s ++ [0]).

Definition is_byte (b : Z) : Prop := 0 <= b < 256.
Definition is_bytes (d : list Z) : Prop := Forall is_byte d.
(** A C string's bytes: no NUL among them. *)
Definition is_cstring (s : list Z) : Prop := Forall (fun b => 0 < b < 256) s.

Lemma is_cstring_bytes s : is_cstring s -> is_bytes (s ++ [0]).
Proof.
  intros H. apply Forall_app. split; [|repeat constructor; cbn; lia].
  unfold is_cstring in H. eapply Forall_impl; [exact H|]. intros x Hx. cbv beta in Hx. unfold is_byte. lia.
Qed.

Lemma zlen_nonneg {A} (d : list A) : 0 <= zlen d.
Proof. unfold zlen. lia. Qed.
Lemma zlen_app {A} (a b : list A) : zlen (a ++ b) = zlen a + zlen b.
Proof. unfold zlen. rewrite length_app. lia. Qed.
Lemma zlen_cons {A} (x : A) l : zlen (x :: l) = 1 + zlen l.
Proof. unfold zlen. cbn [length]. lia. Qed.
Lemma zlen_nil {A} : zlen (@nil A) = 0.
Proof. reflexivity. Qed.
#[export] Hint Rewrite @zlen_app @zlen_cons @zlen_nil : cstep.

Lemma inbb_true d o n : 0 <= o -> o + n <= zlen d -> inbb d o n = true.
Proof. unfold inbb. lia. Qed.

Lemma is_byte_getb d o : is_bytes d -> is_byte (getb d o).
Proof.
  intros H. unfold getb. destruct (d !! Z.to_nat o) eqn:E; cbn; [|unfold is_byte; lia].
  unfold is_bytes in H. rewrite Forall_lookup in H. eauto.
Qed.

Lemma ld8_ok d o : 0 <= o < zlen d -> ld8 d o = Ret (getb d o).
Proof. intros. unfold ld8. rewrite inbb_true by lia. reflexivity. Qed.
Lemma ld8s_ok d o : 0 <= o < zlen d -> ld8s d o = Ret (s8 (getb d o)).
Proof. intros. unfold ld8s. now rewrite ld8_ok by lia. Qed.

Definition get16 (d : list Z) (o : Z) : Z := 256 * getb d o + getb d (o + 1).
Definition get32 (d : list Z) (o : Z) : Z :=
  2 ^ 24 * getb d o + 2 ^ 16 * getb d (o + 1) + 256 * getb d (o + 2) + getb d (o + 3).

Lemma ld16_ok d o : 0 <= o -> o + 2 <= zlen d -> ld16 d o = Ret (get16 d o).
Proof. intros. unfold ld16. rewrite inbb_true by lia. reflexivity. Qed.
Lemma ld32_ok d o : 0 <= o -> o + 4 <= zlen d -> ld32 d o = Ret (get32 d o).
Proof. intros. unfold ld32. rewrite inbb_true by lia. reflexivity. Qed.

Lemma zlen_putbs d o bs : 0 <= o -> o + zlen bs <= zlen d -> zlen (putbs d o bs) = zlen d.
Proof.
  unfold zlen, putbs. intros. rewrite !length_app, length_take, length_drop. lia.
Qed.

Lemma stbytes_ok d o bs :
  0 <= o -> o + zlen bs <= zlen d -> stbytes d o bs = Ret (putbs d o bs).
Proof. intros. unfold stbytes. rewrite inbb_true by lia. reflexivity. Qed.
Lemma st8_ok d o v : 0 <= o < zlen d -> st8 d o v = Ret (putbs d o [u8 v]).
Proof. intros. apply stbytes_ok; cbn; unfold zlen in *; cbn; lia. Qed.
Lemma st16_ok d o v : 0 <= o -> o + 2 <= zlen d -> st16 d o v = Ret (putbs d o (be16 v)).
Proof. intros. apply stbytes_ok; cbn; unfold zlen in *; cbn; lia. Qed.
Lemma st32_ok d o v : 0 <= o -> o + 4 <= zlen d -> st32 d o v = Ret (putbs d o (be32 v)).
Proof. intros. apply stbytes_ok; cbn; unfold zlen in *; cbn; lia. Qed.

(** Reading back: inside the stored range the new bytes, outside it the old ones. *)
Lemma getb_putbs_new d o bs p :
  0 <= o -> o + zlen bs <= zlen d -> o <= p < o + zlen bs ->
  getb (putbs d o bs) p = getb bs (p - o).
Proof.
  unfold getb, putbs, zlen. intros. f_equal.
  rewrite lookup_app_r; rewrite length_take; [|lia].
  rewrite lookup_app_l by lia. f_equal. lia.
Qed.

Lemma getb_putbs_old d o bs p :
  0 <= o -> o + zlen bs <= zlen d -> 0 <= p -> (p < o \/ o + zlen bs <= p) ->
  getb (putbs d o bs) p = getb d p.
Proof.
  unfold getb, putbs, zlen. intros Ho Hn Hp [H|H]; f_equal.
  - rewrite lookup_app_l by (rewrite length_take; lia).
    apply lookup_take_lt. lia.
  - rewrite lookup_app_r by (rewrite length_take; lia). rewrite length_take.
    rewrite lookup_app_r by lia. rewrite lookup_drop. f_equal. lia.
Qed.

(** Two adjacent stores are one. *)
Lemma putbs_putbs_app d o a b :
  0 <= o -> o + zlen a + zlen b <= zlen d ->
  putbs (putbs d o a) (o + zlen a) b = putbs d o (a ++ b).
Proof.
  intros Ho Hl. unfold putbs at 1 3. unfold zlen in *.
  assert (Z.to_nat (o + Z.of_nat (length a)) = Z.to_nat o + length a)%nat as -> by lia.
  assert (length (take (Z.to_nat o) d) = Z.to_nat o) as Ht by (rewrite length_take; lia).
  unfold putbs. rewrite <- Ht at 1 4. rewrite <- Nat.add_assoc, take_app_add, drop_app_add.
  rewrite take_app_length, drop_app_add, drop_drop, <- !app_assoc, length_app. do 4 f_equal. lia.
Qed.

Lemma is_bytes_putbs d o bs : is_bytes d -> is_bytes bs -> is_bytes (putbs d o bs).
Proof.
  intros Hd Hb. unfold putbs, is_bytes in *.
  rewrite !Forall_app. repeat split; [now apply Forall_take|done|now apply Forall_drop].
Qed.

Lemma is_byte_u8 v : is_byte (u8 v).
Proof. pose proof (uwrap_bound 8 v ltac:(lia)). unfold is_byte. lia. Qed.
Lemma is_bytes_be16 v : is_bytes (be16 v).
Proof. repeat constructor; apply is_byte_u8. Qed.
Lemma is_bytes_be32 v : is_bytes (be32 v).
Proof. repeat constructor; apply is_byte_u8. Qed.
Lemma is_bytes_u8 v : is_bytes [u8 v].
Proof. repeat constructor; apply is_byte_u8. Qed.

Lemma be16_value v : 0 <= v < 2 ^ 16 -> 256 * u8 (v / 256) + u8 v = v.
Proof.
  intros. unfold uwrap. change (2 ^ 8) with 256.
  rewrite (Z.mod_small (v / 256)) by (split; [apply Z.div_pos|apply Z.div_lt_upper_bound]; lia).
  pose proof (Z.div_mod v 256 ltac:(lia)). lia.
Qed.
Lemma be32_value v :
  0 <= v < 2 ^ 32 ->
  2 ^ 24 * u8 (v / 2 ^ 24) + 2 ^ 16 * u8 (v / 2 ^ 16) + 256 * u8 (v / 256) + u8 v = v.
Proof.
  intros. unfold uwrap. change (2 ^ 8) with 256. change (2 ^ 24) with 16777216.
  change (2 ^ 16) with 65536 in *. change (2 ^ 32) with 4294967296 in *.
  Z.div_mod_to_equations. lia.
Qed.

Lemma getb_single v : getb [v] 0 = v.
Proof. reflexivity. Qed.

(** Frame reasoning: two objects that agree on a range of offsets. *)
Definition agree (d d' : list Z) (lo hi : Z) : Prop :=
  forall o, lo <= o < hi -> getb d o = getb d' o.

Lemma agree_refl d lo hi : agree d d lo hi.
Proof. intros o _. reflexivity. Qed.
Lemma agree_sym d d' lo hi : agree d d' lo hi -> agree d' d lo hi.
Proof. intros H o Ho. symmetry. auto. Qed.
Lemma agree_trans d d' d'' lo hi : agree d d' lo hi -> agree d' d'' lo hi -> agree d d'' lo hi.
Proof. intros H H' o Ho. rewrite H by done. auto. Qed.
Lemma agree_sub d d' lo hi lo' hi' : agree d d' lo hi -> lo <= lo' -> hi' <= hi -> agree d d' lo' hi'.
Proof. intros H ?? o Ho. apply H. lia. Qed.
Lemma agree_putbs d o bs lo hi :
  0 <= o -> o + zlen bs <= zlen d -> 0 <= lo -> (hi <= o \/ o + zlen bs <= lo) ->
  agree (putbs d o bs) d lo hi.
Proof. intros ???? p Hp. apply getb_putbs_old; lia. Qed.
Lemma agree_get16 d d' lo hi o : agree d d' lo hi -> lo <= o -> o + 2 <= hi -> get16 d o = get16 d' o.
Proof. intros H ??. unfold get16. rewrite !H by lia. reflexivity. Qed.
Lemma agree_get32 d d' lo hi o : agree d d' lo hi -> lo <= o -> o + 4 <= hi -> get32 d o = get32 d' o.
Proof. intros H ??. unfold get32. rewrite !H by lia. reflexivity. Qed.
#[export] Hint Resolve agree_refl agree_sym : core.

Lemma get16_putbs d o v :
  0 <= o -> o + 2 <= zlen d -> 0 <= v < 2 ^ 16 -> get16 (putbs d o (be16 v)) o = v.
Proof.
  intros. unfold get16. rewrite !getb_putbs_new by (unfold zlen in *; cbn; lia).
  rewrite Z.sub_diag. replace (o + 1 - o) with 1 by lia. now apply be16_value.
Qed.
Lemma get32_putbs d o v :
  0 <= o -> o + 4 <= zlen d -> 0 <= v < 2 ^ 32 -> get32 (putbs d o (be32 v)) o = v.
Proof.
  intros. unfold get32. rewrite !getb_putbs_new by (unfold zlen in *; cbn; lia).
  rewrite Z.sub_diag. replace (o + 1 - o) with 1 by lia. replace (o + 2 - o) with 2 by lia.
  replace (o + 3 - o) with 3 by lia. now apply be32_value.
Qed.
Lemma get16_bound d o : is_bytes d -> 0 <= get16 d o < 2 ^ 16.
Proof.
  intros H. unfold get16.
  pose proof (is_byte_getb d o H). pose proof (is_byte_getb d (o + 1) H).
  unfold is_byte in *. lia.
Qed.

(** The bytes [bs] are stored at offset [o]. *)
Definition mem_at (d : list Z) (o : Z) (bs : list Z) : Prop :=
  0 <= o /\ o + zlen bs <= zlen d /\
  forall k, 0 <= k < zlen bs -> getb d (o + k) = getb bs k.

Lemma mem_at_putbs d o bs : 0 <= o -> o + zlen bs <= zlen d -> mem_at (putbs d o bs) o bs.
Proof.
  intros. split; [lia|]. rewrite zlen_putbs by lia. split; [lia|].
  intros k Hk. rewrite getb_putbs_new by lia. f_equal. lia.
Qed.
Lemma mem_at_agree d d' o bs :
  mem_at d o bs -> zlen d <= zlen d' -> agree d' d o (o + zlen bs) -> mem_at d' o bs.
Proof.
  intros (Ho & Hl & H) Hz Ha. split; [lia|]. split; [lia|].
  intros k Hk. rewrite Ha by lia. auto.
Qed.
Lemma mem_at_app d o a b : mem_at d o (a ++ b) <-> mem_at d o a /\ mem_at d (o + zlen a) b.
Proof.
  unfold mem_at. rewrite zlen_app. pose proof (zlen_nonneg a). pose proof (zlen_nonneg b).
  assert (forall k, 0 <= k < zlen a -> getb (a ++ b) k = getb a k) as Ha.
  { intros k Hk. unfold getb. rewrite lookup_app_l; [done|]. unfold zlen in *. lia. }
  assert (forall k, 0 <= k < zlen b -> getb (a ++ b) (zlen a + k) = getb b k) as Hb.
  { intros k Hk. unfold getb, zlen in *. rewrite lookup_app_r by lia. do 2 f_equal. lia. }
  split.
  - intros (H1 & H2 & H3). repeat split; try lia.
    + intros k Hk. rewrite <- Ha by done. apply H3. lia.
    + intros k Hk. rewrite <- Hb by done. rewrite <- H3 by lia. f_equal. lia.
  - intros [(H1 & H2 & H3) (H4 & H5 & H6)]. repeat split; try lia.
    intros k Hk. destruct (Z.lt_ge_cases k (zlen a)).
    + rewrite Ha by lia. apply H3. lia.
    + replace k with (zlen a + (k - zlen a)) by lia. rewrite Hb by lia.
      rewrite <- H6 by lia. f_equal. lia.
Qed.

Lemma cstr_of_app s l : is_cstring s -> cstr_of (s ++ 0 :: l) = Some s.
Proof.
  induction 1 as [|b s Hb Hs IH]; cbn; [done|].
  destruct (Z.eqb_spec b 0); [lia|]. now rewrite IH.
Qed.

Lemma mem_at_take_drop d o bs : mem_at d o bs -> exists l, drop (Z.to_nat o) d = bs ++ l.
Proof.
  intros (Ho & Hl & H). exists (drop (length bs) (drop (Z.to_nat o) d)).
  rewrite <- (take_drop (length bs) (drop (Z.to_nat o) d)) at 1. f_equal.
  apply list_eq. intros i. destruct (decide (i < length bs)%nat) as [Hi|Hi].
  - rewrite lookup_take_lt by done. rewrite lookup_drop.
    specialize (H (Z.of_nat i) ltac:(unfold zlen in *; lia)). unfold getb in H.
    replace (Z.to_nat (o + Z.of_nat i)) with (Z.to_nat o + i)%nat in H by lia.
    rewrite Nat2Z.id in H.
    destruct (lookup_lt_is_Some_2 bs i Hi) as [x Hx].
    destruct (lookup_lt_is_Some_2 d (Z.to_nat o + i)) as [y Hy]; [unfold zlen in *; lia|].
    rewrite Hx, Hy in *. cbn in H. congruence.
  - rewrite (lookup_ge_None_2 bs) by lia. apply lookup_take_ge. lia.
Qed.

(** Reading back a C string. *)
Lemma cstr_ok d o s : is_cstring s -> mem_at d o (s ++ [0]) -> cstr d o = Ret s.
Proof.
  intros Hs Hm. destruct (mem_at_take_drop _ _ _ Hm) as [l Hl].
  destruct Hm as (Ho & _). unfold cstr. destruct (Z.leb_spec 0 o); [|lia].
  rewrite Hl, <- app_assoc. cbn. now rewrite cstr_of_app.
Qed.

(** Goals about division and remainder by constants. *)
Ltac zdm := Z.div_mod_to_equations; lia.

(** ** Arrays *)

(** Array accesses: outside the array they are undefined. *)
Definition aget {A} (l : list A) (i : Z) : res A :=
  if (0 <=? i) then match l !! Z.to_nat i with Some x => Ret x | None => Stop CUndef end else Stop CUndef.
Definition aset {A} (l : list A) (i : Z) (x : A) : res (list A) :=
  if (0 <=? i) && (i <? zlen l) then Ret (<[Z.to_nat i := x]> l) else Stop CUndef.

Lemma aget_ok {A} (l : list A) i x : 0 <= i -> l !! Z.to_nat i = Some x -> aget l i = Ret x.
Proof. intros Hi E. unfold aget. destruct (Z.leb_spec 0 i); [|lia]. now rewrite E. Qed.

Lemma aset_ok {A} (l : list A) i x : 0 <= i < zlen l -> aset l i x = Ret (<[Z.to_nat i := x]> l).
Proof. intros Hi. unfold aset. destruct (Z.leb_spec 0 i), (Z.ltb_spec i (zlen l)); done || lia. Qed.

(** The elements [a] to [b-1] of an array. *)
Definition slice {A} (l : list A) (a b : Z) : list A := drop (Z.to_nat a) (take (Z.to_nat b) l).

Lemma slice_nil {A} (l : list A) a b : b <= a -> slice l a b = [].
Proof. intros. apply drop_ge. rewrite length_take. lia. Qed.

Lemma slice_cons {A} (l : list A) a b : 0 <= a < b -> b <= zlen l ->
  exists x, l !! Z.to_nat a = Some x /\ slice l a b = x :: slice l (a + 1) b.
Proof.
  intros Ha Hb. destruct (lookup_lt_is_Some_2 l (Z.to_nat a)) as [x Hx]; [unfold zlen in Hb; lia|].
  exists x. split; [done|]. unfold slice. rewrite (drop_S _ x).
  - do 2 f_equal. lia.
  - rewrite lookup_take_lt by lia. done.
Qed.

Lemma aget_total {A} (l : list A) i : 0 <= i < zlen l ->
  exists x, l !! Z.to_nat i = Some x /\ aget l i = Ret x.
Proof.
  intros Hi. destruct (lookup_lt_is_Some_2 l (Z.to_nat i)) as [x Hx]; [unfold zlen in Hi; lia|].
  exists x. split; [done|]. apply aget_ok; [lia|done].
Qed.

Lemma aget_out {A} (l : list A) i : ~ 0 <= i < zlen l -> aget l i = Stop CUndef.
Proof.
  intros Hi. unfold aget. destruct (Z.leb_spec 0 i); [|done].
  rewrite lookup_ge_None_2; [done|]. unfold zlen in Hi. lia.
Qed.

Lemma zlen_insert {A} (l : list A) i x : zlen (<[i := x]> l) = zlen l.
Proof. unfold zlen. now rewrite length_insert. Qed.

(** A loop that replaces each of the first [n] elements by its image. *)
Lemma map_loop {A} (f : A -> A) n (l : list A) : 0 <= n <= zlen l ->
  forZ 0 n (fun i l => let* e := aget l i in aset l i (f e)) l =
  Ret ((f <$> take (Z.to_nat n) l) ++ drop (Z.to_nat n) l).
Proof.
  intros Hn. destruct (forZ_total (fun k l' => l' = (f <$> take (Z.to_nat k) l) ++ drop (Z.to_nat k) l)
    0 n (fun i l => let* e := aget l i in aset l i (f e)) l) as (l' & E & ->); [lia|done| |done].
  intros k l' Hk ->. destruct (aget_total l k ltac:(lia)) as (x & Hx & _).
  set (l1 := f <$> take (Z.to_nat k) l).
  assert (length l1 = Z.to_nat k) as Hl1 by (unfold l1; rewrite length_fmap, length_take; unfold zlen in Hn; lia).
  assert (drop (Z.to_nat k) l = x :: drop (Z.to_nat (k + 1)) l) as Hd.
  { rewrite (drop_S _ x) by done. do 2 f_equal. lia. }
  rewrite Hd. rewrite (aget_ok _ k x); [|lia|]. 2:{ rewrite lookup_app_r by lia. now rewrite Hl1, Nat.sub_diag. }
  cbn [rbind]. rewrite aset_ok.
  2:{ unfold zlen in *. rewrite length_app, Hl1. cbn [length]. rewrite length_drop. lia. }
  eexists. split; [reflexivity|]. rewrite <- Hl1, insert_app_r_alt, Nat.sub_diag by lia. cbn.
  replace (Z.to_nat (k + 1)) with (S (Z.to_nat k)) by lia.
  rewrite (take_S_r _ _ x) by done. rewrite fmap_app, <- app_assoc. done.
Qed.

(** The bytes an object has at an offset are a slice of it. *)
Lemma mem_at_slice d o bs : mem_at d o bs -> slice d o (o + zlen bs) = bs.
Proof.
  intros Hm. destruct (mem_at_take_drop _ _ _ Hm) as [l Hl]. destruct Hm as (Ho & _). unfold slice, zlen.
  replace (Z.to_nat (o + Z.of_nat (length bs))) with (Z.to_nat o + length bs)%nat by lia.
  by rewrite <- take_drop_commute, Hl, take_app_length.
Qed.
