(* ===== verification/Text.v ===== *)
(** * Formatted text

    The part of [printf] and [scanf] the sources use: ["%x"] and ["%d"] on 32-bit
    numbers, and the ["%d"], ["%s"] and white-space directives of [sscanf].  A C string
    is the list of its characters without the terminator. *)

From Stdlib Require Import ZArith Lia.
From stdpp Require Import base list numbers.
From S2P Require Import Prelude.
Open Scope Z_scope.

(** ** Printing *)
Definition digit_char (v : Z) : Z := if v <? 10 then 48 + v else 87 + v.
Fixpoint digits (b : Z) (fuel : nat) (n : Z) (acc : list Z) : list Z :=
  match fuel with
  | O => acc
  | S f => let acc := digit_char (n mod b) :: acc in
           if n / b =? 0 then acc else digits b f (n / b) acc
  end.

(** ["%x"] of an [unsigned], ["%d"] of an [int]: at most 8 and 10 digits. *)
Definition fmt_x (n : Z) : list Z := digits 16 8 n [].
Definition fmt_d (n : Z) : list Z := if n <? 0 then 45 :: digits 10 10 (- n) [] else digits 10 10 n [].

(** ** Scanning *)
Definition is_space (c : Z) : bool := (c =? 32) || ((9 <=? c) && (c <=? 13)).
Definition is_digit (c : Z) : bool := (48 <=? c) && (c <=? 57).

Fixpoint skip_space (s : list Z) : list Z :=
  match s with
  | c :: s' => if is_space c then skip_space s' else s
  | [] => []
  end.

(** The longest prefix whose characters satisfy [p], and the rest. *)
Fixpoint span (p : Z -> bool) (s : list Z) : list Z * list Z :=
  match s with
  | c :: s' => if p c then let (a, b) := span p s' in (c :: a, b) else ([], s)
  | [] => ([], [])
  end.

Definition read_digits (s : list Z) : Z := fold_left (fun a c => a * 10 + (c - 48)) s 0.

(** ["%d"]: [None] when the input does not match; a number that does not fit an [int]
    is undefined. *)
Definition scan_d (s : list Z) : res (option (Z * list Z)) :=
  let s := skip_space s in
  let (neg, s) := match s with
                  | 45 :: s' => (true, s')
                  | 43 :: s' => (false, s')
                  | _ => (false, s)
                  end in
  let (ds, rest) := span is_digit s in
  match ds with
  | [] => Ret None
  | _ => let v := if (neg : bool) then - read_digits ds else read_digits ds in
         if (- 2 ^ 31 <=? v) && (v <? 2 ^ 31) then Ret (Some (v, rest)) else Stop CUndef
  end.

(** ["%s"]: the characters up to the next white space. *)
Definition scan_s (s : list Z) : option (list Z * list Z) :=
  let (w, rest) := span (fun c => negb (is_space c)) (skip_space s) in
  match w with [] => None | _ => Some (w, rest) end.

(** What follows the next newline; [None] when there is none. *)
Fixpoint after_newline (s : list Z) : option (list Z) :=
  match s with
  | [] => None
  | c :: s' => if c =? 10 then Some s' else after_newline s'
  end.

(** ** Lemmas *)
Lemma digit_char_range v : 0 <= v < 16 -> 48 <= digit_char v < 58 \/ 97 <= digit_char v < 103.
Proof. unfold digit_char. intros. destruct (Z.ltb_spec v 10); lia. Qed.

Lemma digits_length b f n acc : (length (digits b f n acc) <= f + length acc)%nat.
Proof.
  revert n acc. induction f as [|f IH]; intros n acc; cbn; [lia|].
  destruct (n / b =? 0); cbn; [lia|]. etransitivity; [apply IH|]. cbn. lia.
Qed.

Lemma digits_nonempty b f n acc : (0 < f)%nat -> digits b f n acc <> [].
Proof.
  revert n acc. induction f as [|f IH]; intros n acc Hf; [lia|]. cbn.
  destruct (n / b =? 0); [done|]. destruct f; [done|]. apply IH. lia.
Qed.

Lemma digits_forall b f n acc (P : Z -> Prop) : 0 < b ->
  (forall v, 0 <= v < b -> P (digit_char v)) -> Forall P acc -> Forall P (digits b f n acc).
Proof.
  intros Hb HP. revert n acc. induction f as [|f IH]; intros n acc Ha; cbn; [done|].
  assert (Forall P (digit_char (n mod b) :: acc)) as Ha'.
  { constructor; [|done]. apply HP, Z.mod_pos_bound. done. }
  destruct (n / b =? 0); auto.
Qed.

(** Reading the digits back with a function that inverts [digit_char]. *)
Lemma digits_read b (val : Z -> Z) f n acc :
  1 < b -> (forall v, 0 <= v < b -> val (digit_char v) = v) ->
  (0 < f)%nat -> 0 <= n < b ^ Z.of_nat f ->
  fold_left (fun a c => a * b + val c) (digits b f n acc) 0 = fold_left (fun a c => a * b + val c) acc n.
Proof.
  intros Hb Hv. revert n acc. induction f as [|f IH]; intros n acc Hf Hn; [lia|]. cbn [digits].
  pose proof (Z.mod_pos_bound n b ltac:(lia)). pose proof (Z.div_mod n b ltac:(lia)) as Hdm.
  assert (n / b * b + val (digit_char (n mod b)) = n) as Hstep by (rewrite Hv by lia; lia).
  destruct (Z.eqb_spec (n / b) 0) as [E|E].
  - cbn [fold_left]. rewrite <- E, Hstep. done.
  - rewrite IH.
    + cbn [fold_left]. rewrite Hstep. done.
    + destruct f; [|lia]. rewrite Z.pow_1_r in Hn. rewrite Z.div_small in E; lia.
    + replace (Z.of_nat (S f)) with (1 + Z.of_nat f) in Hn by lia. rewrite Z.pow_add_r, Z.pow_1_r in Hn by lia.
      split; [apply Z.div_pos; lia|]. apply Z.div_lt_upper_bound; lia.
Qed.

(** Reading a hexadecimal number back. *)
Definition hexval (c : Z) : Z := if c <? 58 then c - 48 else c - 87.
Definition hexread (s : list Z) : Z := fold_left (fun a c => a * 16 + hexval c) s 0.

Lemma hexread_fmt n : 0 <= n < 2 ^ 32 -> hexread (fmt_x n) = n.
Proof.
  intros Hn. unfold hexread, fmt_x. rewrite (digits_read 16 hexval); [done|lia| |lia|cbn; lia].
  intros v Hv. unfold hexval, digit_char. destruct (Z.ltb_spec v 10).
  - destruct (Z.ltb_spec (48 + v) 58); lia.
  - destruct (Z.ltb_spec (87 + v) 58); lia.
Qed.

Lemma fmt_x_length n : (length (fmt_x n) <= 8)%nat.
Proof. pose proof (digits_length 16 8 n []). cbn [length] in *. unfold fmt_x. lia. Qed.

Lemma fmt_x_no_dot n : 46 ∉ fmt_x n.
Proof.
  assert (Forall (fun c => c <> 46) (fmt_x n)) as H.
  { apply digits_forall; [lia| |constructor]. intros v Hv. pose proof (digit_char_range v Hv). lia. }
  intros H46. rewrite Forall_forall in H. apply list_elem_of_In in H46. exact (H _ H46 eq_refl).
Qed.

(** *** ["%d"] reads what ["%d"] prints *)
Lemma span_app p a b : Forall (fun c => p c = true) a ->
  match b with [] => True | c :: _ => p c = false end -> span p (a ++ b) = (a, b).
Proof.
  intros Ha Hb. induction Ha as [|c a Hc _ IH]; cbn.
  - destruct b as [|c b]; [done|]. cbn. rewrite Hb. done.
  - rewrite Hc, IH. done.
Qed.

Lemma dec_digits_ok n : Forall (fun c => is_digit c = true) (digits 10 10 n []).
Proof.
  apply digits_forall; [lia| |constructor]. intros v Hv. unfold is_digit, digit_char.
  destruct (Z.ltb_spec v 10); lia.
Qed.

Lemma dec_digits_read n : 0 <= n <= 2 ^ 31 -> read_digits (digits 10 10 n []) = n.
Proof.
  intros Hn. unfold read_digits. rewrite (digits_read 10 (fun c => c - 48)); [done|lia| |lia|cbn; lia].
  intros v Hv. unfold digit_char. destruct (Z.ltb_spec v 10); lia.
Qed.

Definition int32 (n : Z) : Prop := - 2 ^ 31 <= n < 2 ^ 31.

Lemma digit_head n : exists c s, digits 10 10 n [] = c :: s /\ 48 <= c <= 57.
Proof.
  pose proof (dec_digits_ok n) as H. destruct (digits 10 10 n []) as [|c s] eqn:E.
  - exfalso. apply (digits_nonempty 10 10 n []); [lia|done].
  - exists c, s. split; [done|]. inversion H. subst. unfold is_digit in *. lia.
Qed.

Lemma scan_fmt_d n rest : int32 n -> match rest with [] => True | c :: _ => is_digit c = false end ->
  scan_d (fmt_d n ++ rest) = Ret (Some (n, rest)).
Proof.
  intros Hn Hr. unfold int32 in Hn. unfold scan_d, fmt_d. destruct (Z.ltb_spec n 0) as [Hneg|Hpos].
  - cbn [app skip_space]. change (is_space 45) with false. cbn iota.
    rewrite (span_app is_digit _ rest (dec_digits_ok (- n)) Hr).
    destruct (digit_head (- n)) as (c & s & E & _). rewrite E. cbn iota. rewrite <- E.
    rewrite dec_digits_read by lia. rewrite Z.opp_involutive.
    destruct (Z.leb_spec (- 2 ^ 31) n); [|lia]. destruct (Z.ltb_spec n (2 ^ 31)); [|lia]. done.
  - destruct (digit_head n) as (c & s & E & Hc). pose proof (dec_digits_ok n) as Hd. rewrite E in Hd.
    pose proof (dec_digits_read n ltac:(lia)) as Hrd. rewrite E in Hrd. rewrite E.
    assert (skip_space ((c :: s) ++ rest) = (c :: s) ++ rest) as ->.
    { cbn. unfold is_space. destruct (Z.eqb_spec c 32), (Z.leb_spec 9 c), (Z.leb_spec c 13); cbn; done || lia. }
    assert (match (c :: s) ++ rest with
            | 45 :: s' => (true, s') | 43 :: s' => (false, s') | _ => (false, (c :: s) ++ rest) end
            = (false, (c :: s) ++ rest)) as ->.
    { cbn. assert (c = 48 \/ c = 49 \/ c = 50 \/ c = 51 \/ c = 52 \/ c = 53 \/ c = 54 \/ c = 55 \/ c = 56 \/ c = 57) as Hcs by lia.
      repeat destruct Hcs as [-> | Hcs]; try subst c; done. }
    rewrite (span_app is_digit _ rest Hd Hr). cbn iota. rewrite Hrd.
    destruct (Z.leb_spec (- 2 ^ 31) n); [|lia]. destruct (Z.ltb_spec n (2 ^ 31)); [|lia]. done.
Qed.

Lemma fmt_d_length n : (1 <= length (fmt_d n) <= 11)%nat.
Proof.
  unfold fmt_d. destruct (Z.ltb_spec n 0); cbn [length].
  - pose proof (digits_length 10 10 (- n) []). cbn [length] in *. lia.
  - pose proof (digits_length 10 10 n []). pose proof (digits_nonempty 10 10 n [] ltac:(lia)).
    destruct (digits 10 10 n []); cbn [length] in *; [done|lia].
Qed.

Lemma fmt_d_chars n : Forall (fun c => is_digit c = true \/ c = 45) (fmt_d n).
Proof.
  pose proof (dec_digits_ok n) as H1. pose proof (dec_digits_ok (- n)) as H2.
  unfold fmt_d. destruct (n <? 0); [constructor; [by right|]|]; eapply Forall_impl; try done; cbn; tauto.
Qed.

(** ** Byte order *)

(** [htonl] and [ntohl] of an [int] on a little-endian host. *)
Definition bswap32 (v : Z) : Z :=
  let u := u32 v in
  s32 (u mod 256 * 2 ^ 24 + u / 256 mod 256 * 2 ^ 16 + u / 65536 mod 256 * 2 ^ 8 + u / 16777216 mod 256).

Lemma bswap32_invol v : int32 v -> bswap32 (bswap32 v) = v.
Proof.
  intros Hv. unfold int32 in Hv. unfold bswap32.
  set (u := u32 v). assert (0 <= u < 2 ^ 32) as Hu by apply (uwrap_bound 32 v ltac:(lia)).
  set (w := u mod 256 * 2 ^ 24 + u / 256 mod 256 * 2 ^ 16 + u / 65536 mod 256 * 2 ^ 8 + u / 16777216 mod 256).
  assert (0 <= w < 2 ^ 32) as Hw by (unfold w; zdm).
  rewrite uwrap_swrap, (uwrap_small 32 w) by lia.
  assert (w mod 256 = u / 16777216 /\ w / 256 mod 256 = u / 65536 mod 256 /\
          w / 65536 mod 256 = u / 256 mod 256 /\ w / 16777216 mod 256 = u mod 256) as (-> & -> & -> & ->).
  { unfold w. zdm. }
  replace (u / 16777216 * 2 ^ 24 + u / 65536 mod 256 * 2 ^ 16 + u / 256 mod 256 * 2 ^ 8 + u mod 256) with u by zdm.
  unfold u, uwrap, swrap. change (2 ^ (32 - 1)) with 2147483648. zdm.
Qed.

Lemma bswap32_int32 v : int32 (bswap32 v).
Proof. unfold bswap32, int32. apply (swrap_bound 32). lia. Qed.
