(* ===== verification/DirBody.v ===== *)
(** * The directory package: [coda-src/dir/dirbody.c] and [dirbody.h]

    A Coda directory is one object of 2 KiB pages.  Page 0 starts with a
    [DirHeader] (page header, allocation map, hash table: blobs 0 to 12), every
    other page with a [PageHeader] (blob 0); the remaining 32-byte blobs hold
    directory entries, one or more consecutive blobs each.  The object is modelled
    as the list of its bytes at the offsets of the C structures, with the fields
    the source keeps in network order read and written in that order; a pointer
    into the object is an offset, NULL is [None]. *)

From Stdlib Require Import ZArith Lia.
From stdpp Require Import base list numbers.
From S2P Require Import Prelude.
Open Scope Z_scope.

(** ** Constants of [dirbody.h] and [codadir.h] *)
Definition DIR_PAGESIZE : Z := 2048.
Definition DIR_MAXPAGES : Z := 128.
Definition LOGPS : Z := 11.
Definition NHASH : Z := 128.
Definition EPP : Z := 64.
Definition LEPP : Z := 6.
Definition ESZ : Z := 32.
Definition LESZ : Z := 5.
Definition DHE : Z := 12.
Definition FFIRST : Z := 1.
Definition CODA_MAXNAMLEN : Z := 255.
Definition CLU_CASE_SENSITIVE : Z := 1.
Definition CLU_CASE_INSENSITIVE : Z := 2.

(** errno values the package returns (Linux numbering). *)
Definition ENOENT : Z := 2.
Definition EIO : Z := 5.
Definition ENOMEM : Z := 12.
Definition EEXIST : Z := 17.
Definition EINVAL : Z := 22.
Definition EFBIG : Z := 27.
Definition ENAMETOOLONG : Z := 36.

(** ** Layout: offsets of the fields of [struct PageHeader], [struct DirHeader]
    and [struct DirEntry] *)
Definition PH_TAG : Z := 0.
Definition PH_FREECOUNT : Z := 4.
Definition PH_FREEBITMAP : Z := 5.
Definition DH_ALLOMAP : Z := 32.
Definition DH_HASHTABLE : Z := 160.
Definition DE_FLAG : Z := 0.
Definition DE_NEXT : Z := 2.
Definition DE_VNODE : Z := 4.
Definition DE_UNIQUE : Z := 8.
Definition DE_NAME : Z := 12.

(** A file identifier in host order ([DirFid], two unsigned 32-bit fields). *)
Record DirFid : Set := mkDirFid { df_vnode : Z; df_unique : Z }.

(** The process state the package reads: [dir_data_in_rvm], whether an RVM
    transaction is open, and which [malloc]/[rvmlib_rec_malloc] sizes succeed. *)
Record DirEnv : Type := mkDirEnv {
  dir_data_in_rvm : bool;
  in_transaction : bool;
  alloc_ok : Z -> bool }.

Definition DIR_check_trans (env : DirEnv) : res unit :=
  if dir_data_in_rvm env && negb (in_transaction env) then Stop CAbort else Ret tt.

(** Number of blobs an entry with this name takes. *)
Definition dir_NameBlobs (name : list Z) : Z :=
  let i := zlen name + 1 in 1 + Z.shiftr (i + 15) LESZ.

(** Directory size in bytes, from the allocation map. *)
Definition DIR_Length (dir : option (list Z)) : res Z :=
  match dir with
  | None => Ret 0
  | Some d =>
      let* ctr := forZ 0 DIR_MAXPAGES
        (fun i ctr => let* a := ld8s d (DH_ALLOMAP + i) in
                      Ret (if a =? EPP then ctr else ctr + 1)) 0 in
      Ret (ctr * DIR_PAGESIZE)
  end.

Definition DIR_Page (page : Z) : res Z :=
  cassert (0 <=? page) ;;; Ret (page * DIR_PAGESIZE).

(** Extend a directory by one zeroed page; [None] is the NULL result. *)
Definition dir_Extend (env : DirEnv) (olddir : list Z) : res (option (list Z)) :=
  let* oldsize := DIR_Length (Some olddir) in
  let newsize := oldsize + DIR_PAGESIZE in
  if DIR_MAXPAGES <? Z.shiftr newsize LOGPS then Ret None
  else if negb (alloc_ok env newsize) then Ret None
  else if inbb olddir 0 oldsize
  then Ret (Some (take (Z.to_nat oldsize) olddir
                  ++ replicate (Z.to_nat (newsize - oldsize)) 0))
  else Stop CUndef.

(** Add a page: the code and the directory [*dh] afterwards. *)
Definition dir_AddPage (env : DirEnv) (dh : list Z) : res (Z * list Z) :=
  let* r := dir_Extend env dh in
  match r with
  | None => Ret (ENOMEM, dh)
  | Some dirh =>
      let* len := DIR_Length (Some dirh) in
      let page := Z.shiftr len LOGPS in
      let* ph := DIR_Page page in
      let* d := st8 dirh (DH_ALLOMAP + page) (EPP - 1) in
      let* d := st32 d (ph + PH_TAG) 1234 in
      let* d := st8 d (ph + PH_FREECOUNT) (EPP - 1) in
      let* d := st8 d (ph + PH_FREEBITMAP) 1 in
      let* d := forZ 1 (EPP / 8) (fun i d => st8 d (ph + PH_FREEBITMAP + i) 0) d in
      Ret (0, d)
  end.

(** The innermost loop of [dir_FindBlobs]: is a blob of [j .. j+nblobs-1] in use? *)
Definition run_failed (d : list Z) (pp j nblobs : Z) : res bool :=
  let* r := for_range 0 nblobs
    (fun k (_ : unit) =>
       let* b := ld8s d (pp + PH_FREEBITMAP + Z.shiftr (j + k) 3) in
       if Z.land (Z.shiftr b (Z.land (j + k) 7)) 1 =? 0
       then Ret (inl tt) else Ret (inr tt)) tt in
  Ret (match r with inl _ => false | inr _ => true end).

(** The search in one page: the final value of [failed] and the index [j]. *)
Definition find_run (d : list Z) (pp nblobs : Z) (failed : bool) : res (bool * Z) :=
  let* r := for_range 0 (EPP - nblobs + 1)
    (fun j (_ : bool) =>
       let* f := run_failed d pp j nblobs in
       if f then Ret (inl true) else Ret (inr j)) failed in
  Ret (match r with inl f => (f, 0) | inr j => (false, j) end).

(** [pp->freebitmap[..] |= ..] for the blobs of the run. *)
Definition mark_run (d : list Z) (pp j nblobs : Z) : res (list Z) :=
  forZ 0 nblobs
    (fun k d =>
       let o := pp + PH_FREEBITMAP + Z.shiftr (j + k) 3 in
       let* b := ld8s d o in
       st8 d o (Z.lor b (Z.shiftl 1 ((j + k) mod 8)))) d.

(** The part of the page loop that takes the run found at index [j] of page [i]. *)
Definition take_run (d : list Z) (i pp j nblobs : Z) : res (Z * list Z) :=
  let* a := ld8s d (DH_ALLOMAP + i) in
  let* d := st8 d (DH_ALLOMAP + i) (a - nblobs) in
  let* f := ld8s d (pp + PH_FREECOUNT) in
  let* d := st8 d (pp + PH_FREECOUNT) (f - nblobs) in
  let* d := mark_run d pp j nblobs in
  cassert (DHE <? j + i * EPP) ;;;
  Ret (j + i * EPP, d).

(** Find [nblobs] free blobs in a row: the blob number (or -1) and [*dh]. *)
Definition dir_FindBlobs (env : DirEnv) (dh : list Z) (nblobs : Z) : res (Z * list Z) :=
  cassert (0 <? nblobs) ;;;
  let* r := for_range 0 DIR_MAXPAGES
    (fun i '(d, failed) =>
       let* a := ld8s d (DH_ALLOMAP + i) in
       if a <? nblobs then Ret (inl (d, failed)) else
       let* d := (if a =? EPP then
                    let* (_, d') := dir_AddPage env d in
                    st8 d' (DH_ALLOMAP + i) (EPP - 1)
                  else Ret d) in
       let* pp := DIR_Page i in
       let* (failed, j) := find_run d pp nblobs failed in
       if failed then Ret (inl (d, failed)) else
       let* r := take_run d i pp j nblobs in Ret (inr r)) (dh, false) in
  Ret (match r with inl (d, _) => (-1, d) | inr res => res end).

(** Free the blobs of an entry, within one page. *)
Definition dir_FreeBlobs (dhp : list Z) (firstblob nblobs : Z) : res (list Z) :=
  let page := Z.shiftr firstblob LEPP in
  let firstblob := firstblob - EPP * page in
  cassert (firstblob + nblobs <=? EPP) ;;;
  let* a := ld8s dhp (DH_ALLOMAP + page) in
  let* d := st8 dhp (DH_ALLOMAP + page) (a + nblobs) in
  let* pp := DIR_Page page in
  let* f := ld8s d (pp + PH_FREECOUNT) in
  let* d := st8 d (pp + PH_FREECOUNT) (f + nblobs) in
  forZ 0 nblobs
    (fun i d =>
       let o := pp + PH_FREEBITMAP + Z.shiftr (firstblob + i) 3 in
       let* b := ld8s d o in
       st8 d o (Z.land b (Z.lnot (Z.shiftl 1 (Z.land (firstblob + i) 7))))) d.

(** Offset of an entry, given its number. *)
Definition dir_GetBlob (dir : option (list Z)) (blobno : Z) : option Z :=
  match dir with
  | None => None
  | Some _ =>
      if (blobno <=? 0) || (EPP * DIR_MAXPAGES <? blobno) then None
      else Some (blobno * ESZ)
  end.

(** Hash a string to a number between 0 and NHASH; [hval] is a 32-bit [int]. *)
Definition DIR_Hash (s : list Z) : Z :=
  let hval := fold_left (fun hval tc => s32 (s32 (hval * 173) + s8 tc)) s 0 in
  let tval := Z.land hval (NHASH - 1) in
  if tval =? 0 then tval
  else if hval <? 0 then NHASH - tval else tval.

(** Fields of the entry at offset [ep]. *)
Definition ep_name (d : list Z) (ep : Z) : res (list Z) := cstr d (ep + DE_NAME).
Definition ep_next (d : list Z) (ep : Z) : res Z := ld16 d (ep + DE_NEXT).

Definition fid_FidEqNFid (d : list Z) (fid : DirFid) (ep : Z) : res bool :=
  let* v := ld32 d (ep + DE_VNODE) in
  if v =? df_vnode fid then
    let* u := ld32 d (ep + DE_UNIQUE) in Ret (u =? df_unique fid)
  else Ret false.

Definition fid_Fid2NFid (d : list Z) (fid : DirFid) (ep : Z) : res (list Z) :=
  let* d := st32 d (ep + DE_VNODE) (df_vnode fid) in
  st32 d (ep + DE_UNIQUE) (df_unique fid).

Definition fid_NFid2Fid (d : list Z) (ep : Z) : res DirFid :=
  let* v := ld32 d (ep + DE_VNODE) in
  let* u := ld32 d (ep + DE_UNIQUE) in Ret (mkDirFid v u).

(** Every blob has a number up to [EPP * DIR_MAXPAGES]; a walk that takes more
    steps than there are numbers has come back to a blob it visited before and
    never ends, so this fuel loses no terminating run. *)
Definition CHAIN_FUEL : nat := Z.to_nat (EPP * DIR_MAXPAGES + 2).

(** [DIR_EnumerateDir]: call [hookproc] on every entry of every chain; a nonzero
    code stops the walk and is returned with the hook's state. *)
Definition enum_chain {St} (d : list Z) (hookproc : Z -> St -> res (St * Z))
  (num : Z) (s : St) : res (St + St * Z) :=
  while_loop CHAIN_FUEL
    (fun '(num, s) =>
       if num =? 0 then Ret (inr (inl s)) else
       match dir_GetBlob (Some d) num with
       | None => Ret (inr (inl s))
       | Some ep =>
           let* num := ep_next d ep in
           let* (s, rc) := hookproc ep s in
           if rc =? 0 then Ret (inl (num, s)) else Ret (inr (inr (s, rc)))
       end) (num, s).

Definition DIR_EnumerateDir {St} (dhp : option (list Z))
  (hookproc : Z -> St -> res (St * Z)) (hook : St) : res (St * Z) :=
  match dhp with
  | None => Ret (hook, ENOENT)
  | Some d =>
      let* r := for_range 0 NHASH
        (fun i s =>
           let* num := ld16 d (DH_HASHTABLE + 2 * i) in
           enum_chain d hookproc num s) hook in
      Ret (match r with inl s => (s, 0) | inr sr => sr end)
  end.

(** [DIR_LookupByFid]: code and, on success, the name. *)
Definition DIR_LookupByFid (dhp : option (list Z)) (fid : DirFid)
  : res (Z * option (list Z)) :=
  match dhp with
  | None => Ret (ENOENT, None)
  | Some d =>
      let* r := for_range 0 NHASH
        (fun i (_ : unit) =>
           let* num := ld16 d (DH_HASHTABLE + 2 * i) in
           while_loop CHAIN_FUEL
             (fun num =>
                if num =? 0 then Ret (inr (inl tt)) else
                match dir_GetBlob (Some d) num with
                | None => Ret (inr (inl tt))
                | Some ep =>
                    let* e := fid_FidEqNFid d fid ep in
                    if (e : bool) then
                      let* nm := ep_name d ep in Ret (inr (inr nm))
                    else let* n := ep_next d ep in Ret (inl n)
                end) num) tt in
      Ret (match r with inl _ => (ENOENT, None) | inr nm => (0, Some nm) end)
  end.

(** ASCII case folding, as [strcasecmp] compares. *)
Definition tolower (c : Z) : Z := if (65 <=? c) && (c <=? 90) then c + 32 else c.
Definition strcasecmp_eq (a b : list Z) : bool :=
  bool_decide (map tolower a = map tolower b).
Definition strcmp_eq (a b : list Z) : bool := bool_decide (a = b).

(** State of [struct DirFind]: the match and the entry before it. *)
Definition dir_FindCaseInsensitive (d : list Z) (ename : list Z) (ep : Z)
  (find : option Z * option Z) : res ((option Z * option Z) * Z) :=
  let* nm := ep_name d ep in
  if strcasecmp_eq ename nm then Ret ((Some ep, find.2), 1)
  else Ret ((find.1, Some ep), 0).

(** Result of [dir_FindItem]: the entry, the entry before it in the chain and the
    blob number stored through [index]. *)
Record FindRes : Set := mkFind { fr_tp : Z; fr_lp : option Z; fr_index : Z }.

Definition dir_FindItem (dir : option (list Z)) (ename : list Z) (flags : Z)
  : res (option FindRes) :=
  if flags =? CLU_CASE_INSENSITIVE then
    match dir with
    | None => Ret None
    | Some d =>
        let* (find, rc) :=
          DIR_EnumerateDir (Some d) (dir_FindCaseInsensitive d ename) (None, None) in
        if rc =? 0 then Ret None
        else match find.1 with
             | Some tp => Ret (Some (mkFind tp find.2 0))
             | None => Ret None
             end
    end
  else if flags =? CLU_CASE_SENSITIVE then
    match dir with
    | None => Ret None
    | Some d =>
        let i := DIR_Hash ename in
        let* h := ld16 d (DH_HASHTABLE + 2 * i) in
        let blobno := s16 h in
        if blobno =? 0 then Ret None else
        while_loop CHAIN_FUEL
          (fun '(tp, lp, blobno) =>
             match tp with
             | None => Stop CUndef      (* tp->name through a NULL pointer *)
             | Some ep =>
                 let* nm := ep_name d ep in
                 if strcmp_eq ename nm then Ret (inr (Some (mkFind ep lp blobno)))
                 else
                   let* n := ep_next d ep in
                   let blobno := s16 n in
                   if blobno =? 0 then Ret (inr None) else
                   match dir_GetBlob (Some d) blobno with
                   | None => Ret (inr None)
                   | Some tp' => Ret (inl (Some tp', Some ep, blobno))
                   end
             end) (dir_GetBlob (Some d) blobno, None, blobno)
    end
  else Stop CAbort.

(** ** [DIR_DirOK], the consistency check *)

Definition bit_drop (k mask fcount : Z) : Z :=
  if Z.land k mask =? 0 then fcount else fcount - 1.

(** Free blobs of a page according to its bitmap. *)
Definition bitmap_free (d : list Z) (ph : Z) : res Z :=
  forZ 0 (EPP / 8)
    (fun j fcount =>
       let* k := ld8s d (ph + PH_FREEBITMAP + j) in
       Ret (bit_drop k 1 (bit_drop k 2 (bit_drop k 4 (bit_drop k 8
              (bit_drop k 16 (bit_drop k 32 (bit_drop k 64 (bit_drop k 128 fcount))))))))
    ) EPP.

(** A pass over pages [lo .. hi-1] that returns 0 from [DIR_DirOK] when the test
    fails on one of them. *)
Definition all_pages (lo hi : Z) (test : Z -> res bool) : res bool :=
  let* r := for_range lo hi
    (fun i (_ : unit) => let* t := test i in
       if (t : bool) then Ret (inl tt) else Ret (inr tt)) tt in
  Ret (match r with inl _ => true | inr _ => false end).

(** The initial entry allocation map. *)
Definition eaMap_init (pages : Z) : res (list Z) :=
  let eaMap := replicate (Z.to_nat (EPP * DIR_MAXPAGES)) 0 in
  let* m := st8 eaMap 0 255 in
  let* m := st8 m 1 31 in
  forZ 1 pages (fun i m => st8 m (i * (EPP / 8)) 1) m.

Definition eaMap_mark (m : list Z) (entryno k : Z) : res (list Z) :=
  forZ 0 k
    (fun j m =>
       let o := Z.shiftr (entryno + j) 3 in
       let* b := ld8s m o in
       st8 m o (Z.lor b (Z.shiftl 1 (Z.land (entryno + j) 7)))) m.

(** One entry of hash chain [i]: the next entry number and the map, or the end of
    the chain; [None] when a check fails. *)
Definition check_entry (d : list Z) (pages i : Z) (s : Z * list Z)
  : res (Z * list Z + option (list Z)) :=
  let '(entryno, m) := s in
  if entryno =? 0 then Ret (inr (Some m)) else
  if (entryno <? 0) || (pages * EPP <? entryno) then Ret (inr None) else
  match dir_GetBlob (Some d) entryno with
  | None => Ret (inr None)
  | Some ep =>
      let* flag := ld8s d (ep + DE_FLAG) in
      if negb (flag =? FFIRST) then Ret (inr None) else
      let* nm := ep_name d ep in
      let j := zlen nm in
      if CODA_MAXNAMLEN <? j then Ret (inr None) else
      if j =? 0 then Ret (inr None) else
      let* m := eaMap_mark m entryno (dir_NameBlobs nm) in
      if negb (DIR_Hash nm =? i) then Ret (inr None) else
      let* n := ep_next d ep in
      Ret (inl (s16 n, m))
  end.

(** One hash chain. *)
Definition check_chain (d : list Z) (pages i : Z) (eaMap : list Z)
  : res (option (list Z)) :=
  let* h := ld16 d (DH_HASHTABLE + 2 * i) in
  while_loop CHAIN_FUEL (check_entry d pages i) (s16 h, eaMap).

Definition check_chains (d : list Z) (pages : Z) (eaMap : list Z) : res (option (list Z)) :=
  let* r := for_range 0 NHASH
    (fun i m => let* c := check_chain d pages i m in
                match c with Some m' => Ret (inl m') | None => Ret (inr tt) end) eaMap in
  Ret (match r with inl m => Some m | inr _ => None end).

Definition DIR_DirOK (pdh : option (list Z)) : res Z :=
  match pdh with
  | None => Ret 0
  | Some d =>
      let* tag := ld32 d PH_TAG in
      if negb (tag =? 1234) then Ret 0 else
      let* j := ld8s d DH_ALLOMAP in
      if (j <? 0) || (EPP - DHE - 1 <? j) then Ret 0 else
      let* len := DIR_Length (Some d) in
      let pages := Z.quot len DIR_PAGESIZE in
      let* t1 := all_pages 1 pages (fun i =>
        let* j := ld8s d (DH_ALLOMAP + i) in
        Ret (negb ((j <? 0) || (EPP - 1 <? j)))) in
      if negb t1 then Ret 0 else
      let* t2 := all_pages pages DIR_MAXPAGES (fun i =>
        let* j := ld8s d (DH_ALLOMAP + i) in Ret (j =? EPP)) in
      if negb t2 then Ret 0 else
      let* t3 := all_pages 1 pages (fun i =>
        let* ph := DIR_Page i in
        let* t := ld32 d (ph + PH_TAG) in Ret (t =? 1234)) in
      if negb t3 then Ret 0 else
      let* t4 := all_pages 1 pages (fun i =>
        let* ph := DIR_Page i in
        let* fcount := bitmap_free d ph in
        let* a := ld8s d (DH_ALLOMAP + i) in Ret (fcount =? a)) in
      if negb t4 then Ret 0 else
      let* m := eaMap_init pages in
      let* c := check_chains d pages m in
      match c with
      | None => Ret 0
      | Some m =>
          let* t5 := all_pages 0 pages (fun i =>
            let* ph := DIR_Page i in
            all_pages 0 (EPP / 8) (fun j =>
              let* e := ld8s m (i * (EPP / 8) + j) in
              let* b := ld8s d (ph + PH_FREEBITMAP + j) in Ret (e =? b))) in
          if negb t5 then Ret 0 else Ret 1
      end
  end.

(** ** The operations that change a directory *)

(** [DIR_Create]: code and [*dh] afterwards.  What [DIR_Print] writes to stdout
    when the final check fails is not part of the model; the check itself is. *)
Definition DIR_Create (env : DirEnv) (dh : option (list Z)) (entry : option (list Z))
  (fid : option DirFid) : res (Z * option (list Z)) :=
  match dh, entry, fid with
  | Some dir, Some entry, Some fid =>
      (if dir_data_in_rvm env then DIR_check_trans env else Ret tt) ;;;
      if CODA_MAXNAMLEN <? zlen entry then Ret (ENAMETOOLONG, dh) else
      if zlen entry =? 0 then Ret (EINVAL, dh) else
      let* ep := dir_FindItem (Some dir) entry CLU_CASE_SENSITIVE in
      match ep with
      | Some _ => Ret (EEXIST, dh)
      | None =>
          let blobs := dir_NameBlobs entry in
          let* (firstblob, dir) := dir_FindBlobs env dir blobs in
          if firstblob <? 0 then Ret (EFBIG, Some dir) else
          match dir_GetBlob (Some dir) firstblob with
          | None => Ret (EIO, Some dir)
          | Some ep =>
              let* dir := st8 dir (ep + DE_FLAG) FFIRST in
              let* dir := fid_Fid2NFid dir fid ep in
              let* dir := ststr dir (ep + DE_NAME) entry in
              let i := DIR_Hash entry in
              let* h := ld16 dir (DH_HASHTABLE + 2 * i) in
              let* dir := st16 dir (ep + DE_NEXT) h in
              let* dir := st16 dir (DH_HASHTABLE + 2 * i) firstblob in
              let* _ := DIR_DirOK (Some dir) in
              Ret (0, Some dir)
          end
      end
  | _, _, _ => Ret (EIO, dh)
  end.

Definition DIR_Delete (env : DirEnv) (dir : option (list Z)) (entry : option (list Z))
  : res (Z * option (list Z)) :=
  match dir, entry with
  | Some d, Some entry =>
      (if dir_data_in_rvm env then DIR_check_trans env else Ret tt) ;;;
      let* r := dir_FindItem (Some d) entry CLU_CASE_SENSITIVE in
      match r with
      | None => Ret (ENOENT, dir)
      | Some fr =>
          let* n := ep_next d (fr_tp fr) in
          let* d := (match fr_lp fr with
                     | Some lp => st16 d (lp + DE_NEXT) n
                     | None => st16 d (DH_HASHTABLE + 2 * DIR_Hash entry) n
                     end) in
          let* nm := ep_name d (fr_tp fr) in
          let nitems := dir_NameBlobs nm in
          let* d := dir_FreeBlobs d (fr_index fr) nitems in
          let* _ := DIR_DirOK (Some d) in
          Ret (0, Some d)
      end
  | _, _ => Stop CAbort
  end.

Definition DIR_Setpages (dirh : list Z) (pages : Z) : res (list Z) :=
  cassert (1 <=? pages) ;;;
  forZ pages DIR_MAXPAGES (fun i d => st8 d (DH_ALLOMAP + i) EPP) dirh.

(** Allocate a one page directory; its contents are indeterminate until the
    [memset] of [DIR_MakeDir], which the model performs at once. *)
Definition dir_New (env : DirEnv) : option (list Z) :=
  if alloc_ok env DIR_PAGESIZE then Some (replicate (Z.to_nat DIR_PAGESIZE) 0) else None.

(** The names "." and "..". *)
Definition name_dot : list Z := [46].
Definition name_dotdot : list Z := [46; 46].

(** [DIR_MakeDir]: code and [*dir] afterwards (unchanged, here [None], on ENOMEM). *)
Definition DIR_MakeDir (env : DirEnv) (me parent : DirFid) : res (Z * option (list Z)) :=
  match dir_New env with
  | None => Ret (ENOMEM, None)
  | Some dhp =>
      let* d := st32 dhp PH_TAG 1234 in
      let* d := st8 d PH_FREECOUNT (EPP - DHE - 1) in
      let* d := st8 d PH_FREEBITMAP 255 in
      let* d := st8 d (PH_FREEBITMAP + 1) 31 in
      let* d := forZ 2 (EPP / 8) (fun i d => st8 d (PH_FREEBITMAP + i) 0) d in
      let* d := st8 d DH_ALLOMAP (EPP - DHE - 1) in
      let* d := DIR_Setpages d 1 in
      let* d := forZ 0 NHASH (fun i d => st16 d (DH_HASHTABLE + 2 * i) 0) d in
      let* (_, dir) := DIR_Create env (Some d) (Some name_dot) (Some me) in
      let* (_, dir) := DIR_Create env dir (Some name_dotdot) (Some parent) in
      let* _ := DIR_DirOK dir in
      Ret (0, dir)
  end.

(** ** The operations that read a directory *)

(** [DIR_Lookup]: code and, when it is 0, the fid. *)
Definition DIR_Lookup (dir : option (list Z)) (entry : list Z) (flags : Z)
  : res (Z * option DirFid) :=
  match dir with
  | None => Ret (ENOENT, None)
  | Some d =>
      let* de := dir_FindItem (Some d) entry flags in
      match de with
      | None => Ret (ENOENT, None)
      | Some fr => let* fid := fid_NFid2Fid d (fr_tp fr) in Ret (0, Some fid)
      end
  end.

(** [dir_HkCompare]: the hook runs on the entries of [d]; [dh] is the other
    directory. *)
Definition dir_HkCompare (d : list Z) (dh : option (list Z)) (ep : Z) (s : unit)
  : res (unit * Z) :=
  let* nm := ep_name d ep in
  let* (rc, dfid) := DIR_Lookup dh nm CLU_CASE_SENSITIVE in
  match dfid with
  | Some fid =>
      if negb (rc =? 0) then Ret (s, rc) else
      let* e := fid_FidEqNFid d fid ep in
      Ret (s, if (e : bool) then 0 else 1)
  | None => Ret (s, rc)
  end.

Definition enum_compare (d1 d2 : option (list Z)) : res Z :=
  match d1 with
  | None => Ret ENOENT
  | Some d => let* (_, rc) := DIR_EnumerateDir d1 (dir_HkCompare d d2) tt in Ret rc
  end.

Definition DIR_Compare (d1 d2 : option (list Z)) : res Z :=
  let* rc := enum_compare d1 d2 in
  if negb (rc =? 0) then Ret rc else
  let* rc := enum_compare d2 d1 in
  if negb (rc =? 0) then Ret (- rc) else Ret 0.

(** [dir_Copy]: in RVM the allocation is checked, in VM a failed [malloc] is copied to. *)
Definition dir_Copy (env : DirEnv) (old : list Z) (to_rvm : bool) : res (list Z) :=
  let* size := DIR_Length (Some old) in
  if negb (alloc_ok env size) then Stop (if to_rvm then CAbort else CUndef) else
  if inbb old 0 size then Ret (take (Z.to_nat size) old) else Stop CUndef.

Definition DIR_IsEmpty (dhp : option (list Z)) : res Z :=
  match dhp with
  | None => Ret 0
  | Some d =>
      let* r := for_range 0 NHASH
        (fun i (_ : unit) =>
           let* num := ld16 d (DH_HASHTABLE + 2 * i) in
           while_loop CHAIN_FUEL
             (fun num =>
                if num =? 0 then Ret (inr (inl tt)) else
                match dir_GetBlob (Some d) num with
                | None => Ret (inr (inl tt))
                | Some ep =>
                    let* nm := ep_name d ep in
                    if negb (strcmp_eq nm name_dotdot) && negb (strcmp_eq nm name_dot)
                    then Ret (inr (inr tt))
                    else let* n := ep_next d ep in Ret (inl n)
                end) num) tt in
      Ret (match r with inl _ => 1 | inr _ => 0 end)
  end.
