(* ===== verification/DirAlloc.v ===== *)
(** * Blob allocation in a directory

    The allocation half of the directory invariant: page headers, free counts,
    allocation map and blob bitmaps agree, and the set of blobs in use is a given
    predicate.  [dir_FindBlobs], [dir_AddPage] and [dir_FreeBlobs] are shown to
    move between such states and to leave every byte outside the page headers and
    the allocation map alone. *)

From Stdlib Require Import ZArith Lia.
From stdpp Require Import base list numbers.
From S2P Require Import Prelude DirBody.
Open Scope Z_scope.

Ltac dirconst :=
  unfold DIR_PAGESIZE, DIR_MAXPAGES, LOGPS, NHASH, EPP, LEPP, ESZ, LESZ, DHE,
    PH_TAG, PH_FREECOUNT, PH_FREEBITMAP, DH_ALLOMAP, DH_HASHTABLE,
    DE_FLAG, DE_NEXT, DE_VNODE, DE_UNIQUE, DE_NAME in *.

(** ** Counting free blobs *)
Fixpoint cnt_free (f : Z -> bool) (n : nat) : Z :=
  match n with
  | O => 0
  | S n' => cnt_free f n' + (if f (Z.of_nat n') then 0 else 1)
  end.

Lemma cnt_free_ext f g n :
  (forall k, 0 <= k < Z.of_nat n -> f k = g k) -> cnt_free f n = cnt_free g n.
Proof.
  induction n as [|n IH]; intros H; cbn; [done|].
  rewrite IH by (intros; apply H; lia). rewrite H by lia. done.
Qed.

Lemma cnt_free_bound f n : 0 <= cnt_free f n <= Z.of_nat n.
Proof. induction n; cbn [cnt_free]; [lia|]. destruct (f _); lia. Qed.

(** Taking a free run out, or putting a used run back. *)
Lemma cnt_free_run f g (j m : Z) n :
  0 <= j -> 0 <= m ->
  (forall k, j <= k < j + m -> f k = false /\ g k = true) ->
  (forall k, 0 <= k < Z.of_nat n -> ~ (j <= k < j + m) -> g k = f k) ->
  cnt_free g n = cnt_free f n - Z.max 0 (Z.min (Z.of_nat n) (j + m) - Z.min (Z.of_nat n) j).
Proof.
  intros Hj Hm Hrun. induction n as [|n IH]; intros Hout; [cbn; lia|].
  cbn [cnt_free]. rewrite IH by (intros; apply Hout; lia).
  destruct (decide (j <= Z.of_nat n < j + m)) as [Hi|Hi].
  - destruct (Hrun _ Hi) as [-> ->]. lia.
  - rewrite Hout by lia. destruct (f _); lia.
Qed.

(** A used header of [h] blobs leaves at most [n - h] free ones. *)
Lemma cnt_free_header f n (h : Z) :
  0 <= h <= Z.of_nat n -> (forall k, 0 <= k < h -> f k = true) -> cnt_free f n <= Z.of_nat n - h.
Proof.
  intros Hh Hf. induction n as [|n IH]; cbn [cnt_free]; [lia|].
  destruct (decide (Z.of_nat n < h)) as [Hi|Hi].
  - rewrite (Hf (Z.of_nat n)) by lia.
    assert (cnt_free f n <= 0); [|lia].
    clear IH. assert (forall k, 0 <= k < Z.of_nat n -> f k = true) as Hf' by (intros; apply Hf; lia).
    clear Hf Hh Hi. induction n as [|n IH]; cbn; [lia|]. rewrite (Hf' (Z.of_nat n)) by lia.
    pose proof (IH ltac:(intros; apply Hf'; lia)). lia.
  - pose proof (IH ltac:(lia)). destruct (f _); lia.
Qed.

Lemma cnt_free_zero f n : (forall k, 0 <= k < Z.of_nat n -> f k = false) -> cnt_free f n = Z.of_nat n.
Proof.
  induction n as [|n IH]; intros H; cbn [cnt_free]; [done|].
  rewrite IH by (intros; apply H; lia). rewrite H by lia. lia.
Qed.

(** ** The allocation invariant *)

(** Bit of the bitmap that says whether blob [b] is in use. *)
Definition used (d : list Z) (b : Z) : bool :=
  Z.testbit (getb d (2048 * (b / 64) + 5 + (b mod 64) / 8)) (b mod 8).

Definition page_free (d : list Z) (p : Z) : Z := cnt_free (fun k => used d (64 * p + k)) 64.

(** Blobs taken by the header of page [p], and header blobs. *)
Definition hdr (p : Z) : Z := if p =? 0 then 13 else 1.
Definition hdrblob (b : Z) : Prop := b mod 64 < hdr (b / 64).

(** Offsets the allocator owns: page headers and the allocation map. *)
Definition alloc_area (o : Z) : Prop := 32 <= o < 160 \/ o mod 2048 < 13.

Record alloc_inv (d : list Z) (pg : Z) (U : Z -> Prop) : Prop := {
  ai_bytes : is_bytes d;
  ai_pg : 1 <= pg <= 128;
  ai_len : zlen d = 2048 * pg;
  ai_tag : forall p, 0 <= p < pg -> get32 d (2048 * p) = 1234;
  ai_count : forall p, 0 <= p < pg -> getb d (2048 * p + 4) = page_free d p;
  ai_allo : forall p, 0 <= p < pg -> getb d (32 + p) = page_free d p;
  ai_unalloc : forall p, pg <= p < 128 -> getb d (32 + p) = 64;
  ai_used : forall b, 0 <= b < 64 * pg -> used d b = true <-> U b;
  ai_hdr : forall b, 0 <= b < 64 * pg -> hdrblob b -> U b }.

(** [d'] differs from [d] only where the allocator may write. *)
Definition only_alloc (d d' : list Z) : Prop :=
  forall o, 0 <= o < zlen d -> ~ alloc_area o -> getb d' o = getb d o.

Lemma only_alloc_refl d : only_alloc d d.
Proof. intros o _ _. done. Qed.

Lemma only_alloc_trans d d' d'' :
  zlen d <= zlen d' -> only_alloc d d' -> only_alloc d' d'' -> only_alloc d d''.
Proof. intros Hl H H' o Ho Ha. rewrite H' by (auto; lia). auto. Qed.

Lemma only_alloc_putbs d o bs :
  0 <= o -> o + zlen bs <= zlen d ->
  (forall p, o <= p < o + zlen bs -> alloc_area p) -> only_alloc d (putbs d o bs).
Proof.
  intros ?? Ha p Hp Hn. apply getb_putbs_old; [lia..|].
  destruct (decide (p < o)); [lia|]. right.
  destruct (decide (o + zlen bs <= p)); [done|]. destruct Hn. apply Ha. lia.
Qed.

Lemma used_ext d d' p b :
  agree d' d (2048 * p + 5) (2048 * p + 13) -> 64 * p <= b < 64 * p + 64 -> used d' b = used d b.
Proof.
  intros Ha Hb. unfold used. f_equal. apply Ha.
  assert (b / 64 = p) as -> by zdm. zdm.
Qed.

Lemma page_free_ext d d' p :
  agree d' d (2048 * p + 5) (2048 * p + 13) -> page_free d' p = page_free d p.
Proof. intros Ha. apply cnt_free_ext. intros k Hk. apply (used_ext d d' p); [done|lia]. Qed.

Lemma page_free_bound d p : 0 <= page_free d p <= 64.
Proof. apply (cnt_free_bound _ 64). Qed.

(** The allocation invariant reads only the allocator's bytes. *)
Lemma alloc_inv_frame d d' pg U :
  alloc_inv d pg U -> is_bytes d' -> zlen d' = zlen d ->
  (forall o, 0 <= o < zlen d -> alloc_area o -> getb d' o = getb d o) -> alloc_inv d' pg U.
Proof.
  intros [Hb Hpg Hl Ht Hc Ha Hu Hus Hh] Hb' Hl' Hag.
  assert (forall p, 0 <= p < pg -> agree d' d (2048 * p) (2048 * p + 13)) as HA.
  { intros p Hp o Ho. apply Hag; [lia|]. right. zdm. }
  assert (forall p, 0 <= p < pg -> agree d' d (2048 * p + 5) (2048 * p + 13)) as HA5.
  { intros p Hp. eapply agree_sub; [apply HA; done|lia|lia]. }
  assert (forall o, 32 <= o < 160 -> getb d' o = getb d o) as HA2.
  { intros o Ho. apply Hag; [lia|]. left. lia. }
  split; try done; try lia.
  - intros p Hp. rewrite <- (Ht p Hp). apply (agree_get32 _ _ _ _ _ (HA p Hp)); lia.
  - intros p Hp. rewrite (HA p Hp) by lia. rewrite (page_free_ext d d') by auto. auto.
  - intros p Hp. rewrite HA2 by lia. rewrite (page_free_ext d d') by auto. auto.
  - intros p Hp. rewrite HA2 by lia. auto.
  - intros b Hb0. rewrite (used_ext d d' (b / 64)); [auto| |zdm].
    apply HA5. zdm.
Qed.

Lemma alloc_inv_equiv d pg U V :
  alloc_inv d pg U -> (forall b, 0 <= b < 64 * pg -> U b <-> V b) -> alloc_inv d pg V.
Proof.
  intros [Hb Hpg Hl Ht Hc Ha Hu Hus Hh] HUV. split; try done.
  - intros b Hb0. rewrite <- HUV by done. auto.
  - intros b Hb0 Hh0. apply HUV; [done|]. auto.
Qed.

(** Every page has fewer than [EPP] free blobs once allocated: the headers are. *)
Lemma ai_free_hdr d pg U p : alloc_inv d pg U -> 0 <= p < pg -> page_free d p <= 64 - hdr p.
Proof.
  intros H Hp. apply (cnt_free_header _ 64 (hdr p)).
  - unfold hdr. destruct (p =? 0); lia.
  - intros k Hk. apply (ai_used _ _ _ H); [unfold hdr in Hk; destruct (p =? 0); lia|].
    assert (k < 64) by (unfold hdr in Hk; destruct (p =? 0); lia).
    apply (ai_hdr _ _ _ H); [lia|]. unfold hdrblob.
    assert ((64 * p + k) / 64 = p) as -> by zdm.
    assert ((64 * p + k) mod 64 = k) as -> by zdm. lia.
Qed.

(** ** Reading the allocation map *)
Lemma s8_small v : 0 <= v < 128 -> s8 v = v.
Proof. intros. apply swrap_small; lia. Qed.

Lemma DIR_Length_spec d pg :
  0 <= pg <= 128 -> 160 <= zlen d ->
  (forall p, 0 <= p < pg -> 0 <= getb d (32 + p) < 64) ->
  (forall p, pg <= p < 128 -> getb d (32 + p) = 64) ->
  DIR_Length (Some d) = Ret (2048 * pg).
Proof.
  intros Hpg Hl Ha Hu. unfold DIR_Length. dirconst.
  destruct (forZ_total (fun i ctr => ctr = Z.min i pg) 0 128
    (fun i ctr => let* a := ld8s d (32 + i) in Ret (if a =? 64 then ctr else ctr + 1)) 0)
    as (ctr & -> & ->); [lia..| |cbn; f_equal; lia].
  intros k ctr Hk ->. rewrite ld8s_ok by lia. cbn. eexists. split; [done|].
  destruct (decide (k < pg)).
  - specialize (Ha k ltac:(lia)). rewrite s8_small by lia. destruct (Z.eqb_spec (getb d (32 + k)) 64); lia.
  - rewrite Hu by lia. rewrite s8_small by lia. cbn. lia.
Qed.

Lemma ai_DIR_Length d pg U : alloc_inv d pg U -> DIR_Length (Some d) = Ret (2048 * pg).
Proof.
  intros H. pose proof (ai_pg _ _ _ H). pose proof (ai_len _ _ _ H).
  apply DIR_Length_spec; [lia..| |apply (ai_unalloc _ _ _ H)].
  intros p Hp. rewrite (ai_allo _ _ _ H) by done.
  pose proof (ai_free_hdr _ _ _ p H Hp). pose proof (page_free_bound d p).
  unfold hdr in *. destruct (p =? 0); lia.
Qed.

(** ** Changing one bit of a bitmap *)

(** Offset and bit of blob [x] of page [p], as the source computes them. *)
Lemma bit_off p x : 0 <= x < 64 -> 0 <= p ->
  2048 * ((64 * p + x) / 64) + 5 + ((64 * p + x) mod 64) / 8 = p * 2048 + 5 + Z.shiftr x 3 /\
  (64 * p + x) mod 8 = Z.land x 7 /\ Z.land x 7 = x mod 8 /\ 0 <= Z.shiftr x 3 < 8.
Proof.
  intros. rewrite Z.shiftr_div_pow2 by lia. change (2 ^ 3) with 8.
  change 7 with (Z.ones 3). rewrite Z.land_ones by lia. change (2 ^ 3) with 8.
  repeat split; zdm.
Qed.

Lemma used_bit d p x : 0 <= x < 64 -> 0 <= p ->
  used d (64 * p + x) = Z.testbit (getb d (p * 2048 + 5 + Z.shiftr x 3)) (x mod 8).
Proof.
  intros Hx Hp. destruct (bit_off p x Hx Hp) as (E1 & E2 & E3 & _).
  unfold used. rewrite E1, E2, E3. done.
Qed.

(** Bit [x] of the bit array that starts at offset [o]. *)
Definition bitat (d : list Z) (o x : Z) : bool := Z.testbit (getb d (o + x / 8)) (x mod 8).

(** Writing a byte that differs in one bit changes exactly that bit. *)
Lemma bitat_putbs d o x v c :
  0 <= x -> 0 <= o -> o + x / 8 < zlen d ->
  (forall n, 0 <= n < 8 -> Z.testbit (u8 v) n =
     if n =? x mod 8 then c else Z.testbit (getb d (o + x / 8)) n) ->
  forall y, 0 <= y ->
    bitat (putbs d (o + x / 8) [u8 v]) o y = if y =? x then c else bitat d o y.
Proof.
  intros Hx Ho Hl Hv y Hy. assert (zlen [u8 v] = 1) as L1 by reflexivity.
  unfold bitat. destruct (decide (y / 8 = x / 8)) as [E|E].
  - rewrite E. rewrite getb_putbs_new by (rewrite ?L1; zdm). rewrite Z.sub_diag, getb_single, Hv by zdm.
    destruct (Z.eqb_spec (y mod 8) (x mod 8)), (Z.eqb_spec y x); done || zdm.
  - rewrite getb_putbs_old by (rewrite ?L1; zdm).
    destruct (Z.eqb_spec y x) as [->|]; done.
Qed.

(** A loop over a run of bits that sets (or clears) them. *)
Lemma bits_loop d o N j n (c : bool) (op : Z -> Z -> Z) :
  is_bytes d -> 0 <= o -> o + N <= zlen d -> 0 <= j -> 0 <= n -> j + n <= 8 * N ->
  (forall x b, 0 <= x -> is_byte b -> forall m, 0 <= m < 8 ->
     Z.testbit (u8 (op (s8 b) x)) m = if m =? x mod 8 then c else Z.testbit b m) ->
  exists d',
    forZ 0 n (fun k d =>
       let* b := ld8s d (o + Z.shiftr (j + k) 3) in
       st8 d (o + Z.shiftr (j + k) 3) (op b (j + k))) d = Ret d' /\
    is_bytes d' /\ zlen d' = zlen d /\
    (forall q, 0 <= q -> ~ (o <= q < o + N) -> getb d' q = getb d q) /\
    (forall x, 0 <= x -> bitat d' o x = if (j <=? x) && (x <? j + n) then c else bitat d o x).
Proof.
  intros Hb Ho Hl Hj Hn Hjn Hop.
  match goal with |- context [forZ 0 n ?f d] => set (body := f) end.
  destruct (forZ_total (fun k d' =>
    is_bytes d' /\ zlen d' = zlen d /\
    (forall q, 0 <= q -> ~ (o <= q < o + N) -> getb d' q = getb d q) /\
    (forall x, 0 <= x -> bitat d' o x = if (j <=? x) && (x <? j + k) then c else bitat d o x)) 0 n
    body d) as (d' & E & H); [lia| | |exists d'; tauto].
  - repeat split; try done. intros x Hx. destruct (Z.leb_spec j x), (Z.ltb_spec x (j + 0)); done || lia.
  - intros k t Hk (Hbt & Hlt & Hf & Hu). unfold body.
    rewrite Z.shiftr_div_pow2 by lia. change (2 ^ 3) with 8.
    assert (0 <= (j + k) / 8 < N) by zdm. assert (forall v : Z, zlen [u8 v] = 1) as L1 by reflexivity.
    rewrite ld8s_ok by lia. cbn [rbind]. rewrite st8_ok by lia. eexists. split; [done|].
    split; [apply is_bytes_putbs; [done|apply is_bytes_u8]|].
    split; [rewrite zlen_putbs; rewrite ?L1; lia|]. split.
    + intros q Hq Hna. rewrite getb_putbs_old by (rewrite ?L1; lia). auto.
    + intros x Hx. rewrite (bitat_putbs t o (j + k) _ c); [|lia|lia|lia| |lia].
      2: { intros m Hm. apply Hop; [lia| |done]. apply is_byte_getb. done. }
      rewrite Hu by done.
      destruct (Z.eqb_spec x (j + k)), (Z.leb_spec j x), (Z.ltb_spec x (j + k)),
        (Z.ltb_spec x (j + (k + 1))); cbn; done || lia.
Qed.

(** The bytes of the bitmap of page [p]. *)
Definition bitmap_area (p o : Z) : Prop := 2048 * p + 5 <= o < 2048 * p + 13.

Lemma used_bitat d p x : 0 <= x < 64 -> used d (64 * p + x) = bitat d (p * 2048 + 5) x.
Proof. intros Hx. unfold used, bitat. f_equal; [f_equal|]; zdm. Qed.

Lemma run_loop d p j n (c : bool) (op : Z -> Z -> Z) :
  is_bytes d -> 0 <= p -> 2048 * p + 13 <= zlen d ->
  0 <= j -> 0 <= n -> j + n <= 64 ->
  (forall x b, 0 <= x -> is_byte b -> forall m, 0 <= m < 8 ->
     Z.testbit (u8 (op (s8 b) x)) m = if m =? x mod 8 then c else Z.testbit b m) ->
  exists d',
    forZ 0 n (fun k d =>
       let* b := ld8s d (p * 2048 + 5 + Z.shiftr (j + k) 3) in
       st8 d (p * 2048 + 5 + Z.shiftr (j + k) 3) (op b (j + k))) d = Ret d' /\
    is_bytes d' /\ zlen d' = zlen d /\
    (forall o, 0 <= o -> ~ bitmap_area p o -> getb d' o = getb d o) /\
    (forall b, 0 <= b -> used d' b =
       if (64 * p + j <=? b) && (b <? 64 * p + j + n) then c else used d b).
Proof.
  intros Hb Hp Hl Hj Hn Hjn Hop.
  destruct (bits_loop d (p * 2048 + 5) 8 j n c op) as (d' & E & Hb' & Hl' & Hf & Hu); try done; try lia.
  exists d'. split; [exact E|]. split; [done|]. split; [done|].
  assert (forall o, 0 <= o -> ~ bitmap_area p o -> getb d' o = getb d o) as Hf'.
  { intros o Ho Hna. apply Hf; unfold bitmap_area in Hna; lia. }
  split; [done|]. intros b Hb0. destruct (decide (64 * p <= b < 64 * p + 64)) as [Hin|Hout].
  - replace b with (64 * p + (b - 64 * p)) by lia. rewrite !used_bitat by lia. rewrite Hu by lia.
    destruct (Z.leb_spec j (b - 64 * p)), (Z.ltb_spec (b - 64 * p) (j + n)),
      (Z.leb_spec (64 * p + j) (64 * p + (b - 64 * p))),
      (Z.ltb_spec (64 * p + (b - 64 * p)) (64 * p + j + n)); cbn; done || lia.
  - destruct (Z.leb_spec (64 * p + j) b), (Z.ltb_spec b (64 * p + j + n)); cbn; try lia;
      unfold used; f_equal; apply Hf'; unfold bitmap_area; zdm.
Qed.

Definition in_run (b n x : Z) : Prop := b <= x < b + n.

(** Bits of run [j, j+n) of page [p] become [c]; the counters follow. *)
Lemma alloc_inv_run d d' pg U p j n (c : bool) :
  alloc_inv d pg U -> 0 <= p < pg -> hdr p <= j -> 0 <= n -> j + n <= 64 ->
  is_bytes d' -> zlen d' = zlen d ->
  getb d' (32 + p) = page_free d' p -> getb d' (2048 * p + 4) = page_free d' p ->
  (forall o, 0 <= o -> ~ bitmap_area p o -> o <> 32 + p -> o <> 2048 * p + 4 ->
     getb d' o = getb d o) ->
  (forall b, 0 <= b -> used d' b =
     if (64 * p + j <=? b) && (b <? 64 * p + j + n) then c else used d b) ->
  alloc_inv d' pg (fun b => if decide (in_run (64 * p + j) n b) then c = true else U b).
Proof.
  intros H Hp Hj Hn Hjn Hb' Hl' Ha' Hc' Hf Hu.
  pose proof (ai_pg _ _ _ H) as Hpg. pose proof (ai_len _ _ _ H) as Hl.
  assert (1 <= hdr p) by (unfold hdr; destruct (p =? 0); lia).
  assert (forall q, 0 <= q < pg -> q <> p -> agree d' d (2048 * q + 5) (2048 * q + 13)) as Hag.
  { intros q Hq Hne o Ho. apply Hf; unfold bitmap_area; zdm. }
  split; try done; try lia.
  - intros q Hq. rewrite <- (ai_tag _ _ _ H q Hq). unfold get32.
    rewrite !Hf; [done|unfold bitmap_area; zdm..].
  - intros q Hq. destruct (decide (q = p)) as [->|Hne]; [done|].
    rewrite (page_free_ext d d') by auto. rewrite Hf; [apply (ai_count _ _ _ H); done|unfold bitmap_area; zdm..].
  - intros q Hq. destruct (decide (q = p)) as [->|Hne]; [done|].
    rewrite (page_free_ext d d') by auto. rewrite Hf; [apply (ai_allo _ _ _ H); done|unfold bitmap_area; zdm..].
  - intros q Hq. rewrite Hf; [apply (ai_unalloc _ _ _ H); done|unfold bitmap_area; zdm..].
  - intros b Hb0. rewrite Hu by lia. unfold in_run. case_decide.
    + destruct (Z.leb_spec (64 * p + j) b), (Z.ltb_spec b (64 * p + j + n)); cbn; done || lia.
    + destruct (Z.leb_spec (64 * p + j) b), (Z.ltb_spec b (64 * p + j + n)); cbn; try lia;
        apply (ai_used _ _ _ H); lia.
  - intros b Hb0 Hh. unfold in_run. case_decide as Hd; [|apply (ai_hdr _ _ _ H); done].
    exfalso. unfold hdrblob in Hh.
    assert (b / 64 = p) as E by zdm. rewrite E in Hh. zdm.
Qed.

Lemma page_free_run d d' p j n (c : bool) :
  0 <= p -> 0 <= j -> 0 <= n -> j + n <= 64 ->
  (forall x, j <= x < j + n -> used d (64 * p + x) = negb c) ->
  (forall b, 0 <= b -> used d' b =
     if (64 * p + j <=? b) && (b <? 64 * p + j + n) then c else used d b) ->
  page_free d' p = page_free d p + (if c then - n else n).
Proof.
  intros Hp Hj Hn Hjn Hd Hu. unfold page_free.
  assert (forall k, j <= k < j + n -> used d' (64 * p + k) = c) as Hin.
  { intros k Hk. rewrite Hu by lia.
    destruct (Z.leb_spec (64 * p + j) (64 * p + k)), (Z.ltb_spec (64 * p + k) (64 * p + j + n)); cbn; done || lia. }
  assert (forall k, 0 <= k < 64 -> ~ (j <= k < j + n) -> used d' (64 * p + k) = used d (64 * p + k)) as Hout.
  { intros k Hk Hne. rewrite Hu by lia.
    destruct (Z.leb_spec (64 * p + j) (64 * p + k)), (Z.ltb_spec (64 * p + k) (64 * p + j + n)); cbn; done || lia. }
  destruct c.
  - rewrite (cnt_free_run (fun k => used d (64 * p + k)) (fun k => used d' (64 * p + k)) j n 64); [lia|lia|lia| |].
    + intros k Hk. split; [now apply Hd|now apply Hin].
    + intros k Hk Hne. apply Hout; lia.
  - rewrite (cnt_free_run (fun k => used d' (64 * p + k)) (fun k => used d (64 * p + k)) j n 64); [lia|lia|lia| |].
    + intros k Hk. split; [now apply Hin|now apply Hd].
    + intros k Hk Hne. symmetry. apply Hout; lia.
Qed.

Lemma alloc_area_page p o : 0 <= p -> 2048 * p <= o < 2048 * p + 13 -> alloc_area o.
Proof. intros. right. zdm. Qed.

(** The counters and bits of a page move together: common to allocation and release. *)
Lemma alloc_update d pg U p j n (c : bool) (op : Z -> Z -> Z) :
  alloc_inv d pg U -> 0 <= p < pg -> hdr p <= j -> 0 <= n -> j + n <= 64 ->
  (forall x, j <= x < j + n -> used d (64 * p + x) = negb c) ->
  (forall x b, 0 <= x -> is_byte b -> forall m, 0 <= m < 8 ->
     Z.testbit (u8 (op (s8 b) x)) m = if m =? x mod 8 then c else Z.testbit b m) ->
  let delta := if c then - n else n in
  exists d', 
    (let* a := ld8s d (32 + p) in
     let* d := st8 d (32 + p) (a + delta) in
     let* f := ld8s d (p * 2048 + 4) in
     let* d := st8 d (p * 2048 + 4) (f + delta) in
     forZ 0 n (fun k d =>
       let* b := ld8s d (p * 2048 + 5 + Z.shiftr (j + k) 3) in
       st8 d (p * 2048 + 5 + Z.shiftr (j + k) 3) (op b (j + k))) d) = Ret d' /\
    alloc_inv d' pg (fun b => if decide (in_run (64 * p + j) n b) then c = true else U b) /\
    zlen d' = zlen d /\ only_alloc d d'.
Proof.
  intros H Hp Hj Hn Hjn Hd Hop delta.
  pose proof (ai_pg _ _ _ H) as Hpg. pose proof (ai_len _ _ _ H) as Hl.
  assert (1 <= hdr p) by (unfold hdr; destruct (p =? 0); lia).
  pose proof (page_free_bound d p) as Hpf.
  assert (forall v : Z, zlen [u8 v] = 1) as L1 by reflexivity.
  rewrite ld8s_ok by lia. cbn [rbind]. rewrite (ai_allo _ _ _ H) by done.
  rewrite s8_small by lia. rewrite st8_ok by lia. cbn [rbind].
  set (d1 := putbs d (32 + p) [u8 (page_free d p + delta)]).
  assert (zlen d1 = zlen d) as Hl1 by (unfold d1; rewrite zlen_putbs; rewrite ?L1; lia).
  rewrite ld8s_ok by lia. cbn [rbind].
  assert (getb d1 (p * 2048 + 4) = page_free d p) as ->.
  { unfold d1. rewrite getb_putbs_old; rewrite ?L1; try lia.
    rewrite <- (ai_count _ _ _ H p Hp). f_equal. lia. }
  rewrite s8_small by lia. rewrite st8_ok by lia. cbn [rbind].
  set (d2 := putbs d1 (p * 2048 + 4) [u8 (page_free d p + delta)]).
  assert (zlen d2 = zlen d) as Hl2 by (unfold d2; rewrite zlen_putbs; rewrite ?L1; lia).
  assert (is_bytes d2) as Hb2.
  { unfold d2, d1. repeat apply is_bytes_putbs; try apply is_bytes_u8. apply (ai_bytes _ _ _ H). }
  assert (forall o, 0 <= o -> o <> 32 + p -> o <> 2048 * p + 4 -> getb d2 o = getb d o) as Hf2.
  { intros o Ho H1 H2. unfold d2, d1. rewrite !getb_putbs_old; rewrite ?L1; fold d1; lia || done. }
  destruct (run_loop d2 p j n c op) as (d' & E & Hb' & Hl' & Hf' & Hu'); [done|lia|lia|lia|lia|lia|done|].
  assert (forall b, 0 <= b -> used d2 b = used d b) as Hu2.
  { intros b Hb0. unfold used. f_equal. apply Hf2; zdm. }
  assert (forall b, 0 <= b -> used d' b =
     if (64 * p + j <=? b) && (b <? 64 * p + j + n) then c else used d b) as Hu.
  { intros b Hb0. rewrite Hu' by done. rewrite Hu2 by done. done. }
  assert (page_free d' p = page_free d p + delta) as Hpf'.
  { apply (page_free_run d d' p j n c); done || lia. }
  pose proof (page_free_bound d' p) as Hpfb.
  exists d'. split; [exact E|]. split; [|split; [lia|]].
  - apply (alloc_inv_run d d' pg U p j n c); try done; try lia.
    + rewrite Hf' by (unfold bitmap_area; zdm). unfold d2. rewrite getb_putbs_old; rewrite ?L1; try zdm.
      unfold d1. rewrite getb_putbs_new by (rewrite ?L1; lia). rewrite Z.sub_diag, getb_single.
      rewrite uwrap_small by lia. lia.
    + rewrite Hf' by (unfold bitmap_area; zdm). unfold d2.
      rewrite getb_putbs_new by (rewrite ?L1; lia).
      replace (2048 * p + 4 - (p * 2048 + 4)) with 0 by lia. rewrite getb_single, uwrap_small by lia. lia.
    + intros o Ho Hna H1 H2. rewrite Hf' by done. apply Hf2; done.
  - intros o Ho Hna. rewrite Hf'; [apply Hf2|..]; try lia.
    + intros ->. apply Hna. left. lia.
    + intros ->. apply Hna. eapply (alloc_area_page p); lia.
    + intros Hba. apply Hna. unfold bitmap_area in Hba. eapply (alloc_area_page p); lia.
Qed.

(** ** [dir_FreeBlobs] *)
Lemma land_7 x : Z.land x 7 = x mod 8.
Proof. change 7 with (Z.ones 3). now rewrite Z.land_ones by lia. Qed.

Lemma op_clear x b : 0 <= x -> is_byte b -> forall m, 0 <= m < 8 ->
  Z.testbit (u8 (Z.land (s8 b) (Z.lnot (Z.shiftl 1 (Z.land x 7))))) m =
  if m =? x mod 8 then false else Z.testbit b m.
Proof.
  intros Hx Hb m Hm. rewrite land_7.
  rewrite testbit_clearbit_u8 by zdm. rewrite testbit_swrap by lia.
  destruct (Z.eqb_spec m (x mod 8)), (Z.eqb_spec (x mod 8) m); destruct (Z.testbit b m); done || lia.
Qed.

Lemma op_set x b : 0 <= x -> is_byte b -> forall m, 0 <= m < 8 ->
  Z.testbit (u8 (Z.lor (s8 b) (Z.shiftl 1 (x mod 8)))) m =
  if m =? x mod 8 then true else Z.testbit b m.
Proof.
  intros Hx Hb m Hm. rewrite testbit_setbit_u8 by zdm. rewrite testbit_swrap by lia.
  destruct (Z.eqb_spec m (x mod 8)), (Z.eqb_spec (x mod 8) m); destruct (Z.testbit b m); done || lia.
Qed.

Lemma dir_FreeBlobs_spec d pg U b n :
  alloc_inv d pg U -> 0 <= b -> b / 64 < pg -> hdr (b / 64) <= b mod 64 -> 0 <= n ->
  b mod 64 + n <= 64 -> (forall x, in_run b n x -> U x) ->
  exists d', dir_FreeBlobs d b n = Ret d' /\
    alloc_inv d' pg (fun x => U x /\ ~ in_run b n x) /\
    zlen d' = zlen d /\ only_alloc d d'.
Proof.
  intros H Hb Hp Hh Hn Hbn HU. unfold dir_FreeBlobs. dirconst.
  rewrite Z.shiftr_div_pow2 by lia. change (2 ^ 6) with 64. set (p := b / 64).
  assert (b - 64 * p = b mod 64) as -> by (unfold p; zdm). set (j := b mod 64) in *.
  assert (b = 64 * p + j) as Eb by (unfold p, j; zdm).
  assert (0 <= p) by (unfold p; zdm).
  unfold cassert. destruct (Z.leb_spec (j + n) 64); [|lia]. cbn [rbind].
  destruct (alloc_update d pg U p j n false
    (fun b x => Z.land b (Z.lnot (Z.shiftl 1 (Z.land x 7))))) as (d' & E & HI & Hl & Ho); try done; try lia.
  { intros x Hx. cbn. apply (ai_used _ _ _ H); [|apply HU; unfold in_run]; lia. }
  { apply op_clear. }
  exists d'. split; [|split; [|done]].
  - rewrite <- E. unfold DIR_Page, cassert. destruct (Z.leb_spec 0 p); [|lia]. reflexivity.
  - eapply alloc_inv_equiv; [exact HI|]. intros x Hx. rewrite Eb. case_decide; split; [discriminate|tauto..].
Qed.

(** ** [dir_AddPage] *)
Lemma getb_app_l a b o : 0 <= o < zlen a -> getb (a ++ b) o = getb a o.
Proof. intros. unfold getb, zlen in *. rewrite lookup_app_l by lia. done. Qed.
Lemma getb_app_r a b o : zlen a <= o -> getb (a ++ b) o = getb b (o - zlen a).
Proof. intros. unfold getb, zlen in *. rewrite lookup_app_r by lia. do 2 f_equal. lia. Qed.
Lemma getb_replicate n v o : 0 <= o < Z.of_nat n -> getb (replicate n v) o = v.
Proof. intros. unfold getb. rewrite lookup_replicate_2 by lia. done. Qed.

Lemma zlen_replicate n (v : Z) : zlen (replicate n v) = Z.of_nat n.
Proof. unfold zlen. rewrite length_replicate. done. Qed.

Lemma dir_Extend_spec env d pg U :
  alloc_inv d pg U -> pg < 128 -> alloc_ok env (2048 * (pg + 1)) = true ->
  dir_Extend env d = Ret (Some (d ++ replicate 2048 0)).
Proof.
  intros H Hpg Hal. unfold dir_Extend. rewrite (ai_DIR_Length _ _ _ H). cbn [rbind].
  dirconst. pose proof (ai_len _ _ _ H). pose proof (ai_pg _ _ _ H).
  replace (2048 * pg + 2048) with (2048 * (pg + 1)) by lia.
  rewrite Z.shiftr_div_pow2 by lia. change (2 ^ 11) with 2048.
  replace (2048 * (pg + 1) / 2048) with (pg + 1) by zdm.
  destruct (Z.ltb_spec 128 (pg + 1)); [lia|]. rewrite Hal. cbn [negb].
  rewrite inbb_true by lia.
  replace (Z.to_nat (2048 * pg)) with (length d) by (unfold zlen in *; lia).
  rewrite take_ge by lia. repeat f_equal. lia.
Qed.

(** In a zeroed bitmap, storing 1 in the first byte marks the first blob alone. *)
Lemma fresh_page d p :
  0 <= p -> zlen d = 2048 * (p + 1) ->
  (forall o, 2048 * p + 5 <= o < 2048 * p + 13 -> getb d o = 0) ->
  forall b, 64 * p <= b < 64 * p + 64 -> used (putbs d (p * 2048 + 5) [u8 1]) b = (b =? 64 * p).
Proof.
  intros Hp Hl Hz b Hb. replace b with (64 * p + (b - 64 * p)) by lia. rewrite used_bitat by lia.
  replace (p * 2048 + 5) with (p * 2048 + 5 + 0 / 8) at 1 by (change (0 / 8) with 0; lia).
  rewrite (bitat_putbs d _ 0 1 true); [|lia|lia|change (0 / 8) with 0; lia| |lia].
  - destruct (Z.eqb_spec (b - 64 * p) 0), (Z.eqb_spec (64 * p + (b - 64 * p)) (64 * p)); try done; try lia.
    unfold bitat. rewrite Hz by zdm. apply Z.testbit_0_l.
  - intros n Hn. change (0 / 8) with 0. change (0 mod 8) with 0. rewrite Hz by lia. rewrite Z.testbit_0_l.
    change (u8 1) with (2 ^ 0). rewrite Z.pow2_bits_eqb by lia.
    destruct (Z.eqb_spec 0 n), (Z.eqb_spec n 0); done || lia.
Qed.

(** What [dir_AddPage] leaves in memory: the old bytes but for one entry of the
    allocation map, and a fresh page whose first blob alone is in use. *)
Definition new_page (d d' : list Z) (pg : Z) : Prop :=
  is_bytes d' /\ zlen d' = 2048 * (pg + 1) /\
  (forall o, 0 <= o < 2048 * pg -> o <> 32 + pg -> getb d' o = getb d o) /\
  getb d' (32 + pg) = 63 /\ getb d' (2048 * pg + 4) = 63 /\ get32 d' (2048 * pg) = 1234 /\
  (forall b, 64 * pg <= b < 64 * pg + 64 -> used d' b = (b =? 64 * pg)).

(** The stores of [dir_AddPage] into the extended object [d0]. *)
Lemma new_page_stores d0 pg :
  is_bytes d0 -> 1 <= pg < 128 -> zlen d0 = 2048 * (pg + 1) ->
  (forall o, 2048 * pg <= o < 2048 * pg + 2048 -> getb d0 o = 0) ->
  exists d',
    (let* d := st8 d0 (32 + pg) 63 in
     let* d := st32 d (pg * 2048 + 0) 1234 in
     let* d := st8 d (pg * 2048 + 4) 63 in
     let* d := st8 d (pg * 2048 + 5) 1 in
     forZ 1 8 (fun i d => st8 d (pg * 2048 + 5 + i) 0) d) = Ret d' /\ new_page d0 d' pg.
Proof.
  intros Hb0 Hpg Hl0 Hhi.
  assert (forall v : Z, zlen [u8 v] = 1) as L1 by reflexivity.
  assert (forall v : Z, zlen (be32 v) = 4) as L4 by reflexivity.
  rewrite st8_ok by lia. cbn [rbind]. set (d1 := putbs d0 (32 + pg) [u8 63]).
  assert (zlen d1 = zlen d0) as Hl1 by (unfold d1; rewrite zlen_putbs; rewrite ?L1; lia).
  rewrite st32_ok by lia. cbn [rbind]. set (d2 := putbs d1 (pg * 2048 + 0) (be32 1234)).
  assert (zlen d2 = zlen d0) as Hl2 by (unfold d2; rewrite zlen_putbs; rewrite ?L4; lia).
  rewrite st8_ok by lia. cbn [rbind]. set (d3 := putbs d2 (pg * 2048 + 4) [u8 63]).
  assert (zlen d3 = zlen d0) as Hl3 by (unfold d3; rewrite zlen_putbs; rewrite ?L1; lia).
  rewrite st8_ok by lia. cbn [rbind]. set (d4 := putbs d3 (pg * 2048 + 5) [u8 1]).
  assert (zlen d4 = zlen d0) as Hl4 by (unfold d4; rewrite zlen_putbs; rewrite ?L1; lia).
  assert (forall o, 0 <= o -> o <> 32 + pg -> ~ (pg * 2048 <= o < pg * 2048 + 6) ->
            getb d4 o = getb d0 o) as Hf4.
  { intros o Ho H1 H2. unfold d4, d3, d2, d1.
    rewrite !getb_putbs_old; rewrite ?L1, ?L4; fold d1; fold d2; fold d3; lia || done. }
  (* the loop clears bytes that are zero already *)
  destruct (forZ_total (fun k d' => is_bytes d' /\ zlen d' = zlen d0 /\
              forall o, 0 <= o -> getb d' o = getb d4 o) 1 8
    (fun i d => st8 d (pg * 2048 + 5 + i) 0) d4) as (d' & E & Hb' & Hl' & Hf'); [lia| | |].
  { split; [|done]. unfold d4, d3, d2, d1.
    repeat apply is_bytes_putbs; try apply is_bytes_u8; try apply is_bytes_be32. done. }
  { intros k t Hk (Hbt & Hlt & Hft). rewrite st8_ok by lia. eexists. split; [done|].
    split; [apply is_bytes_putbs; [done|apply is_bytes_u8]|].
    split; [rewrite zlen_putbs; rewrite ?L1; lia|].
    intros o Ho. destruct (decide (o = pg * 2048 + 5 + k)) as [->|Hne].
    - rewrite getb_putbs_new by (rewrite ?L1; lia). rewrite Z.sub_diag, getb_single.
      rewrite Hf4 by lia. rewrite Hhi by lia. done.
    - rewrite getb_putbs_old by (rewrite ?L1; lia). auto. }
  exists d'. split; [exact E|]. unfold new_page. split; [done|]. split; [lia|]. repeat split.
  - intros o Ho Hne. rewrite Hf', Hf4 by lia. done.
  - rewrite Hf' by lia. unfold d4, d3, d2. rewrite !getb_putbs_old; rewrite ?L1, ?L4; fold d2; fold d3; try lia.
    unfold d1. rewrite getb_putbs_new by (rewrite ?L1; lia). now rewrite Z.sub_diag, getb_single.
  - rewrite Hf' by lia. unfold d4. rewrite getb_putbs_old; rewrite ?L1; try lia.
    unfold d3. rewrite getb_putbs_new by (rewrite ?L1; lia).
    now replace (2048 * pg + 4 - (pg * 2048 + 4)) with 0 by lia.
  - transitivity (get32 d2 (pg * 2048 + 0)); [|unfold d2; apply get32_putbs; lia].
    replace (2048 * pg) with (pg * 2048 + 0) by lia. unfold get32. rewrite !Hf' by lia.
    unfold d4, d3. rewrite !getb_putbs_old; rewrite ?L1; fold d3; done || lia.
  - intros b Hb. transitivity (used d4 b); [unfold used; f_equal; apply Hf'; zdm|].
    apply (fresh_page d3 pg); [lia|lia| |lia]. intros o Ho. unfold d3, d2, d1.
    rewrite !getb_putbs_old; rewrite ?L1, ?L4; fold d1; fold d2; try lia. apply Hhi. lia.
Qed.

Lemma alloc_inv_new_page d d' pg U :
  alloc_inv d pg U -> pg < 128 -> new_page d d' pg ->
  alloc_inv d' (pg + 1) (fun b => if decide (b < 64 * pg) then U b else b = 64 * pg).
Proof.
  intros H Hpg (Hb' & Hl' & Hold & Hm & Hc & Ht & Hun). pose proof (ai_pg _ _ _ H).
  assert (page_free d' pg = 63) as Hpf.
  { unfold page_free.
    rewrite (cnt_free_run (fun _ => false) (fun k => used d' (64 * pg + k)) 0 1 64); [|lia|lia| |].
    - rewrite cnt_free_zero by done. lia.
    - intros k Hk. split; [done|]. rewrite Hun by lia. apply Z.eqb_eq. lia.
    - intros k Hk Hne. rewrite Hun by lia. apply Z.eqb_neq. lia. }
  assert (forall p, 0 <= p < pg -> agree d' d (2048 * p + 5) (2048 * p + 13)) as Hag.
  { intros p Hp o Ho. apply Hold; zdm. }
  split; try done; try lia.
  - intros p Hp. destruct (decide (p = pg)) as [->|]; [done|].
    rewrite <- (ai_tag _ _ _ H p) by lia. unfold get32. rewrite !Hold by zdm. done.
  - intros p Hp. destruct (decide (p = pg)) as [->|]; [lia|].
    rewrite Hold by zdm. rewrite (page_free_ext d d') by (apply Hag; lia). apply (ai_count _ _ _ H). lia.
  - intros p Hp. destruct (decide (p = pg)) as [->|]; [lia|].
    rewrite Hold by zdm. rewrite (page_free_ext d d') by (apply Hag; lia). apply (ai_allo _ _ _ H). lia.
  - intros p Hp. rewrite Hold by lia. apply (ai_unalloc _ _ _ H). lia.
  - intros b Hb. case_decide as Hd.
    + rewrite (used_ext d d' (b / 64)); [|apply Hag; zdm|zdm]. apply (ai_used _ _ _ H). lia.
    + rewrite Hun by lia. apply Z.eqb_eq.
  - intros b Hb Hh. case_decide as Hd; [apply (ai_hdr _ _ _ H); [lia|done]|].
    unfold hdrblob, hdr in Hh. destruct (Z.eqb_spec (b / 64) 0); zdm.
Qed.

Lemma dir_AddPage_spec env d pg U :
  alloc_inv d pg U -> pg < 128 -> alloc_ok env (2048 * (pg + 1)) = true ->
  exists d', dir_AddPage env d = Ret (0, d') /\
    alloc_inv d' (pg + 1) (fun b => if decide (b < 64 * pg) then U b else b = 64 * pg) /\
    getb d' (32 + pg) = 63 /\ zlen d' = zlen d + 2048 /\ only_alloc d d'.
Proof.
  intros H Hpg Hal. pose proof (ai_len _ _ _ H) as Hl. pose proof (ai_pg _ _ _ H) as Hpg1.
  unfold dir_AddPage. rewrite (dir_Extend_spec env d pg U) by done. cbn [rbind].
  set (d0 := d ++ replicate 2048 0).
  assert (zlen d0 = 2048 * (pg + 1)) as Hl0 by (unfold d0; rewrite zlen_app, zlen_replicate; lia).
  assert (forall o, 0 <= o < 2048 * pg -> getb d0 o = getb d o) as Hlo
    by (intros; apply getb_app_l; lia).
  rewrite (DIR_Length_spec d0 pg); [|lia|lia| |].
  2: { intros p Hp. rewrite Hlo by lia. rewrite (ai_allo _ _ _ H) by done.
       pose proof (ai_free_hdr _ _ _ p H Hp). pose proof (page_free_bound d p).
       unfold hdr in *; destruct (p =? 0); lia. }
  2: { intros p Hp. rewrite Hlo by lia. apply (ai_unalloc _ _ _ H). done. }
  cbn [rbind]. dirconst. rewrite Z.shiftr_div_pow2 by lia. change (2 ^ 11) with 2048.
  replace (2048 * pg / 2048) with pg by zdm.
  unfold DIR_Page, cassert. destruct (Z.leb_spec 0 pg); [|lia]. cbn [rbind].
  destruct (new_page_stores d0 pg) as (d' & E & HN); [|lia|done| |].
  { apply Forall_app. split; [apply (ai_bytes _ _ _ H)|]. apply Forall_replicate.
    unfold is_byte; lia. }
  { intros o Ho. unfold d0. rewrite getb_app_r by lia. apply getb_replicate. lia. }
  assert (new_page d d' pg) as HN'.
  { destruct HN as (? & ? & Hold & ?). split; [done|]. split; [done|].
    split; [|done]. intros o Ho Hne. rewrite Hold by done. auto. }
  exists d'. split; [|split; [|split; [|split]]].
  - apply (f_equal (fun r => let* d := r in Ret (0, d))) in E. cbn [rbind] in E.
    rewrite <- E. unfold DIR_PAGESIZE. change (64 - 1) with 63. change (64 / 8) with 8.
    destruct (st8 d0 _ _); [cbn [rbind]|done]. destruct (st32 _ _ _); [cbn [rbind]|done].
    destruct (st8 _ _ _); [cbn [rbind]|done]. destruct (st8 _ _ _); done.
  - eapply alloc_inv_new_page; done.
  - apply HN'.
  - destruct HN' as (_ & -> & _). lia.
  - intros o Ho Hna. destruct HN' as (_ & _ & Hold & _). apply Hold; [lia|].
    intros ->. apply Hna. left. lia.
Qed.

(** ** [dir_FindBlobs] *)

(** A run of [n] free blobs starts at blob [j] of page [p]. *)
Definition free_run (d : list Z) (p j n : Z) : Prop :=
  forall x, j <= x < j + n -> used d (64 * p + x) = false.
Definition page_has_run (d : list Z) (p n : Z) : Prop :=
  exists j, 0 <= j <= 64 - n /\ free_run d p j n.

Lemma run_failed_spec d p j n :
  0 <= p -> 2048 * p + 13 <= zlen d -> 0 <= j -> 0 <= n -> j + n <= 64 ->
  (run_failed d (p * 2048) j n = Ret false /\ free_run d p j n) \/
  (run_failed d (p * 2048) j n = Ret true /\ ~ free_run d p j n).
Proof.
  intros Hp Hl Hj Hn Hjn. unfold run_failed. dirconst.
  match goal with |- context [for_range 0 n ?b tt] => set (body := b) end.
  destruct (for_range_rule (fun k (_ : unit) => forall x, j <= x < j + k -> used d (64 * p + x) = false)
    (fun k (_ : unit) => used d (64 * p + (j + k)) = true) 0 n body tt)
    as [([] & -> & H)|(k & [] & Hk & -> & H)].
  - lia.
  - intros x Hx. lia.
  - intros k [] Hk IH. unfold body.
    destruct (bit_off p (j + k) ltac:(lia) Hp) as (_ & _ & E3 & Hs).
    rewrite ld8s_ok by lia. cbn [rbind]. rewrite land_shiftr_1 by (rewrite E3; zdm).
    rewrite testbit_swrap by (rewrite E3; zdm).
    pose proof (used_bit d p (j + k) ltac:(lia) Hp) as Eu. rewrite <- E3 in Eu. rewrite <- Eu.
    destruct (used d (64 * p + (j + k))) eqn:Eu'; cbn.
    + right. exists tt. done.
    + left. exists tt. split; [done|]. intros x Hx.
      destruct (decide (x = j + k)) as [->|]; [done|]. apply IH. lia.
  - left. split; [done|]. exact H.
  - right. split; [done|]. intros Hf. rewrite (Hf (j + k)) in H by lia. done.
Qed.

Lemma find_run_spec d p n failed :
  0 <= p -> 2048 * p + 13 <= zlen d -> 1 <= n <= 64 ->
  (find_run d (p * 2048) n failed = Ret (true, 0) /\ ~ page_has_run d p n) \/
  (exists j, find_run d (p * 2048) n failed = Ret (false, j) /\ 0 <= j <= 64 - n /\ free_run d p j n).
Proof.
  intros Hp Hl Hn. unfold find_run. dirconst.
  match goal with |- context [for_range 0 (64 - n + 1) ?b failed] => set (body := b) end.
  destruct (for_range_rule (fun k (f : bool) => (k <> 0 -> f = true) /\ forall j, 0 <= j < k -> ~ free_run d p j n)
    (fun k j => j = k /\ free_run d p j n) 0 (64 - n + 1) body failed)
    as [(f & -> & Hf & H)|(k & j & Hk & -> & -> & H)].
  - lia.
  - split; [lia|]. intros j Hj. lia.
  - intros k f Hk [Hf IH]. unfold body.
    destruct (run_failed_spec d p k n) as [[-> Hr]|[-> Hr]]; [lia..| |]; cbn [rbind].
    + right. exists k. done.
    + left. exists true. split; [done|]. split; [done|]. intros j Hj.
      destruct (decide (j = k)) as [->|]; [done|]. apply IH. lia.
  - left. rewrite Hf by lia. split; [done|]. intros (j & Hj & Hr). apply (H j); [lia|done].
  - right. exists k. split; [done|]. split; [lia|done].
Qed.

(** A page with fewer than [n] free blobs has no run of [n]. *)
Lemma page_has_run_count d p n :
  0 <= n -> page_has_run d p n -> n <= page_free d p.
Proof.
  intros Hn (j & Hj & Hr). unfold page_free.
  pose proof (cnt_free_run (fun k => used d (64 * p + k))
    (fun k => if decide (j <= k < j + n) then true else used d (64 * p + k)) j n 64
    ltac:(lia) Hn) as E.
  rewrite Z.min_r, Z.min_r in E by lia.
  pose proof (cnt_free_bound (fun k => if decide (j <= k < j + n) then true else used d (64 * p + k)) 64).
  assert (forall k, j <= k < j + n -> used d (64 * p + k) = false /\
    (if decide (j <= k < j + n) then true else used d (64 * p + k)) = true) as H1.
  { intros k Hk. split; [apply Hr; done|]. now rewrite decide_True by done. }
  specialize (E H1). rewrite E in H; [lia|].
  intros k Hk Hne. now rewrite decide_False by done.
Qed.

(** Outcome of a successful search: [n] blobs starting at [b], reserved in [d']. *)
Record reserved (d d' : list Z) (pg pg' : Z) (U : Z -> Prop) (b n : Z) : Prop := {
  rs_inv : alloc_inv d' pg' (fun x => U x \/ in_run b n x);
  rs_free : forall x, in_run b n x -> ~ U x;
  rs_page : 0 <= b /\ b / 64 < pg' /\ hdr (b / 64) <= b mod 64 /\ b mod 64 + n <= 64;
  rs_grow : (pg' = pg /\ page_has_run d (b / 64) n) \/ (pg' = pg + 1 /\ pg < 128 /\
     forall p, 0 <= p < pg -> ~ page_has_run d p n);
  rs_only : only_alloc d d';
  rs_len : zlen d <= zlen d' }.

Lemma set_stores d p j n :
  (let* a := ld8s d (32 + p) in
   let* d := st8 d (32 + p) (a - n) in
   let* f := ld8s d (p * 2048 + 4) in
   let* d := st8 d (p * 2048 + 4) (f - n) in
   mark_run d (p * 2048) j n) =
  (let* a := ld8s d (32 + p) in
   let* d := st8 d (32 + p) (a + - n) in
   let* f := ld8s d (p * 2048 + 4) in
   let* d := st8 d (p * 2048 + 4) (f + - n) in
   forZ 0 n (fun k d =>
       let* b := ld8s d (p * 2048 + 5 + Z.shiftr (j + k) 3) in
       st8 d (p * 2048 + 5 + Z.shiftr (j + k) 3)
         ((fun b x => Z.lor b (Z.shiftl 1 (x mod 8))) b (j + k))) d).
Proof. reflexivity. Qed.

(** Reserving a free run of page [p]. *)
Lemma reserve_run d pg U p j n :
  alloc_inv d pg U -> 0 <= p < pg -> 1 <= n -> 0 <= j <= 64 - n -> free_run d p j n ->
  exists d',
    (let* a := ld8s d (32 + p) in
     let* d := st8 d (32 + p) (a - n) in
     let* f := ld8s d (p * 2048 + 4) in
     let* d := st8 d (p * 2048 + 4) (f - n) in
     mark_run d (p * 2048) j n) = Ret d' /\
    alloc_inv d' pg (fun x => U x \/ in_run (64 * p + j) n x) /\
    (forall x, in_run (64 * p + j) n x -> ~ U x) /\ hdr p <= j /\
    zlen d' = zlen d /\ only_alloc d d'.
Proof.
  intros H Hp Hn Hj Hr. pose proof (ai_pg _ _ _ H).
  assert (hdr p <= j) as Hh.
  { destruct (decide (hdr p <= j)); [done|]. exfalso.
    assert (used d (64 * p + j) = true); [|rewrite Hr in *; [done|lia]].
    apply (ai_used _ _ _ H); [lia|]. apply (ai_hdr _ _ _ H); [lia|]. unfold hdrblob.
    assert ((64 * p + j) / 64 = p) as -> by zdm. assert ((64 * p + j) mod 64 = j) as -> by zdm. lia. }
  rewrite set_stores.
  destruct (alloc_update d pg U p j n true (fun b x => Z.lor b (Z.shiftl 1 (x mod 8))))
    as (d' & E & HI & Hl & Ho); try done; try lia.
  { apply op_set. }
  exists d'. split; [exact E|]. split; [|split; [|done]].
  - eapply alloc_inv_equiv; [exact HI|]. intros x Hx. cbv beta. case_decide; tauto.
  - intros x Hx HU. assert (used d x = true) as Hu by (apply (ai_used _ _ _ H); [unfold in_run in Hx; lia|done]).
    unfold in_run in Hx. replace x with (64 * p + (x - 64 * p)) in Hu by lia. rewrite Hr in Hu by lia. done.
Qed.

Lemma rs_blob p j n pg : 0 <= p < pg -> hdr p <= j -> 1 <= n -> 0 <= j <= 64 - n ->
  0 <= 64 * p + j /\ (64 * p + j) / 64 < pg /\ hdr ((64 * p + j) / 64) <= (64 * p + j) mod 64 /\
  (64 * p + j) mod 64 + n <= 64 /\ 12 < 64 * p + j.
Proof.
  intros Hp Hh Hn Hj. assert ((64 * p + j) / 64 = p) as -> by zdm.
  assert ((64 * p + j) mod 64 = j) as -> by zdm.
  repeat split; try lia. unfold hdr in Hh. destruct (Z.eqb_spec p 0); lia.
Qed.

Section FindBlobs.
Context (env : DirEnv) (d : list Z) (pg : Z) (U : Z -> Prop) (n : Z).
Context (HI : alloc_inv d pg U) (Hn : 1 <= n <= 63).
(* where a page is needed [malloc] gives it, and beyond the last page only headers count *)
Context (Hal : pg < 128 -> (forall p, 0 <= p < pg -> ~ page_has_run d p n) ->
               alloc_ok env (2048 * (pg + 1)) = true).
Context (HU : forall b, 64 * pg <= b -> U b <-> hdrblob b).

Lemma take_run_spec d0 pg0 V p j :
  alloc_inv d0 pg0 V -> 0 <= p < pg0 -> 0 <= j <= 64 - n -> free_run d0 p j n ->
  exists d', take_run d0 p (p * 2048) j n = Ret (64 * p + j, d') /\
    alloc_inv d' pg0 (fun x => V x \/ in_run (64 * p + j) n x) /\
    (forall x, in_run (64 * p + j) n x -> ~ V x) /\ hdr p <= j /\
    zlen d' = zlen d0 /\ only_alloc d0 d'.
Proof using Hn.
  intros H Hp Hj Hr.
  destruct (reserve_run d0 pg0 V p j n H Hp ltac:(lia) Hj Hr) as (d' & E & HI' & Hf & Hh & Hl & Ho).
  exists d'. split; [|done]. destruct (rs_blob p j n pg0 Hp Hh ltac:(lia) Hj) as (_ & _ & _ & _ & Hb).
  apply (f_equal (fun r => let* d := r in
    cassert (DHE <? j + p * EPP) ;;; Ret (j + p * EPP, d))) in E. cbn [rbind] in E.
  replace (64 * p + j) with (j + p * EPP) in * by (dirconst; lia).
  assert ((DHE <? j + p * EPP) = true) as Hc by (dirconst; lia).
  rewrite Hc in E. cbn [rbind cassert] in E. rewrite <- E. unfold take_run. rewrite Hc.
  dirconst.
  destruct (ld8s _ _); [cbn [rbind]|done]. destruct (st8 _ _ _); [cbn [rbind]|done].
  destruct (ld8s _ _); [cbn [rbind]|done]. destruct (st8 _ _ _); [cbn [rbind]|done].
  destruct (mark_run _ _ _ _); done.
Qed.

(** The last page of the directory after [dir_AddPage] always has room. *)
Lemma new_page_room d1 V :
  alloc_inv d1 (pg + 1) V -> (forall b, 64 * pg <= b -> V b <-> b = 64 * pg) ->
  page_has_run d1 pg n.
Proof using HI Hn.
  intros H HV. pose proof (ai_pg _ _ _ HI). exists 1. split; [lia|]. intros x Hx.
  destruct (used d1 (64 * pg + x)) eqn:E; [|done].
  apply (ai_used _ _ _ H) in E; [|lia]. apply HV in E; lia.
Qed.

Lemma hdrblob_new b : 64 * pg <= b < 64 * (pg + 1) -> hdrblob b <-> b = 64 * pg.
Proof using HI.
  intros Hb. pose proof (ai_pg _ _ _ HI). unfold hdrblob, hdr.
  destruct (Z.eqb_spec (b / 64) 0); zdm.
Qed.

(** The loop body at the first unallocated page. *)
Lemma grow_page failed :
  pg < 128 -> (forall p, 0 <= p < pg -> ~ page_has_run d p n) -> exists d' b,
  (let* d1 := (let* (_, d') := dir_AddPage env d in st8 d' (DH_ALLOMAP + pg) (EPP - 1)) in
   let* (failed, j) := find_run d1 (pg * 2048) n failed in
   if failed then Ret (inl (d1, failed)) else
   let* r := take_run d1 pg (pg * 2048) j n in Ret (inr r)) = Ret (inr (b, d')) /\
  alloc_inv d' (pg + 1) (fun x => U x \/ in_run b n x) /\
  (forall x, in_run b n x -> ~ U x) /\
  (0 <= b /\ b / 64 < pg + 1 /\ hdr (b / 64) <= b mod 64 /\ b mod 64 + n <= 64) /\
  only_alloc d d' /\ zlen d' = zlen d + 2048.
Proof using HI Hn Hal HU.
  intros Hpg Hfull. pose proof (ai_pg _ _ _ HI). pose proof (ai_len _ _ _ HI) as Hl.
  destruct (dir_AddPage_spec env d pg U HI Hpg (Hal Hpg Hfull)) as (d1 & -> & HI1 & Hm & Hl1 & Ho1).
  dirconst. cbn [rbind]. rewrite st8_ok by lia. change (64 - 1) with 63. cbn [rbind].
  set (d2 := putbs d1 (32 + pg) [u8 63]).
  assert (zlen [u8 63] = 1) as L1 by reflexivity.
  assert (zlen d2 = zlen d1) as Hl2 by (unfold d2; rewrite zlen_putbs; rewrite ?L1; lia).
  assert (forall o, 0 <= o -> getb d2 o = getb d1 o) as Hg.
  { intros o Ho. unfold d2. destruct (decide (o = 32 + pg)) as [->|].
    - rewrite getb_putbs_new by (rewrite ?L1; lia). now rewrite Z.sub_diag, getb_single, Hm.
    - rewrite getb_putbs_old by (rewrite ?L1; lia). done. }
  assert (alloc_inv d2 (pg + 1) (fun b => if decide (b < 64 * pg) then U b else b = 64 * pg)) as HI2.
  { eapply alloc_inv_frame; [exact HI1| |done|intros o Ho _; apply Hg; lia].
    apply is_bytes_putbs; [apply (ai_bytes _ _ _ HI1)|apply is_bytes_u8]. }
  pose proof (ai_len _ _ _ HI2) as Hl2'.
  destruct (find_run_spec d2 pg n failed) as [[_ Hno]|(j & -> & Hj & Hr)]; [lia..| |].
  { destruct Hno. eapply new_page_room; [exact HI2|]. intros b Hb. cbv beta. now rewrite decide_False by lia. }
  cbn [rbind]. destruct (take_run_spec d2 (pg + 1) _ pg j HI2 ltac:(lia) Hj Hr)
    as (d' & -> & HI' & Hf & Hh & Hl' & Ho').
  exists d', (64 * pg + j). split; [done|].
  destruct (rs_blob pg j n (pg + 1) ltac:(lia) Hh ltac:(lia) Hj) as (B1 & B2 & B3 & B4 & _).
  split; [|split; [|split; [done|split; [|lia]]]].
  - eapply alloc_inv_equiv; [exact HI'|]. intros b Hb. cbv beta.
    case_decide; [done|]. rewrite (HU b) by lia. rewrite hdrblob_new by lia. done.
  - intros x Hx HUx. apply (Hf x Hx). unfold in_run in Hx. rewrite decide_False by lia.
    apply hdrblob_new; [lia|]. apply HU; [lia|done].
  - apply (only_alloc_trans d d1 d'); [lia|done|]. intros o Ho Hna. rewrite Ho' by (auto; lia). apply Hg. lia.
Qed.

Lemma dir_FindBlobs_spec :
  (dir_FindBlobs env d n = Ret (-1, d) /\ pg = 128 /\
     forall p, 0 <= p < pg -> ~ page_has_run d p n) \/
  (exists b d' pg', dir_FindBlobs env d n = Ret (b, d') /\ reserved d d' pg pg' U b n).
Proof using HI Hn Hal HU.
  pose proof (ai_pg _ _ _ HI) as Hpg. pose proof (ai_len _ _ _ HI) as Hl.
  unfold dir_FindBlobs. unfold cassert at 1. destruct (Z.ltb_spec 0 n); [|lia]. cbn [rbind].
  match goal with |- context [for_range 0 DIR_MAXPAGES ?b (d, false)] => set (body := b) end.
  destruct (for_range_rule
    (fun i '(d', _) => d' = d /\ i <= pg /\ forall p, 0 <= p < i -> ~ page_has_run d p n)
    (fun i '(b, d') => exists pg', reserved d d' pg pg' U b n)
    0 DIR_MAXPAGES body (d, false)) as [([d' f] & -> & -> & H1 & H2)|(k & [b d'] & Hk & -> & pg' & H1)].
  - dirconst. lia.
  - split; [done|]. split; [lia|]. intros p Hp. lia.
  - intros i [d' f] Hi (-> & Hip & Hno). unfold body. dirconst.
    rewrite ld8s_ok by lia. cbn [rbind].
    unfold DIR_Page, cassert. destruct (Z.leb_spec 0 i); [|lia]. unfold DIR_PAGESIZE. cbn [rbind].
    destruct (decide (i = pg)) as [->|Hne].
    + (* first unallocated page *)
      rewrite (ai_unalloc _ _ _ HI) by lia. rewrite s8_small by lia.
      destruct (Z.ltb_spec 64 n); [lia|]. change (64 =? 64) with true. cbn iota.
      destruct (grow_page f ltac:(lia) Hno) as (d' & b & E & R1 & R2 & R3 & R4 & R5).
      right. exists (b, d'). split; [exact E|].
      exists (pg + 1). split; try done; [|lia]. right. split; [done|]. split; [lia|done].
    + rewrite (ai_allo _ _ _ HI) by lia. pose proof (page_free_bound d i).
      pose proof (ai_free_hdr _ _ _ i HI ltac:(lia)).
      assert (1 <= hdr i) by (unfold hdr; destruct (i =? 0); lia).
      rewrite s8_small by lia. destruct (Z.ltb_spec (page_free d i) n).
      * left. exists (d, f). split; [done|]. split; [done|]. split; [lia|]. intros p Hp.
        destruct (decide (p = i)) as [->|]; [|apply Hno; lia].
        intros Hr. apply page_has_run_count in Hr; lia.
      * destruct (Z.eqb_spec (page_free d i) 64); [lia|]. cbn [rbind].
        destruct (find_run_spec d i n f) as [[-> Hr]|(j & -> & Hj & Hr)]; [lia..| |]; cbn [rbind].
        -- left. exists (d, true). split; [done|]. split; [done|]. split; [lia|]. intros p Hp.
           destruct (decide (p = i)) as [->|]; [done|]. apply Hno; lia.
        -- destruct (take_run_spec d pg U i j HI ltac:(lia) Hj Hr) as (d' & E & R1 & R2 & R3 & R4 & R5).
           right. exists (64 * i + j, d'). split; [rewrite E; done|].
           destruct (rs_blob i j n pg ltac:(lia) R3 ltac:(lia) Hj) as (B1 & B2 & B3 & B4 & _).
           exists pg. split; try done; [|lia]. left. split; [done|].
           assert ((64 * i + j) / 64 = i) as -> by zdm. exists j. done.
  - left. dirconst. split; [done|]. split; [lia|]. intros p Hp. apply H2. lia.
  - right. exists b, d', pg'. done.
Qed.
End FindBlobs.

(** When the page cannot be allocated, [dir_FindBlobs] ignores the [ENOMEM] of
    [dir_AddPage] and reads a bitmap past the end of the object. *)
Lemma dir_FindBlobs_nomem env d pg U n :
  alloc_inv d pg U -> 1 <= n <= 63 -> pg < 128 -> alloc_ok env (2048 * (pg + 1)) = false ->
  (forall p, 0 <= p < pg -> ~ page_has_run d p n) -> dir_FindBlobs env d n = Stop CUndef.
Proof.
  intros HI Hn Hpg Hal Hno. pose proof (ai_pg _ _ _ HI). pose proof (ai_len _ _ _ HI) as Hl.
  unfold dir_FindBlobs. unfold cassert at 1. destruct (Z.ltb_spec 0 n); [|lia]. cbn [rbind].
  rewrite (for_range_stop (fun _ '(d', _) => d' = d) 0 DIR_MAXPAGES pg CUndef); [done|dirconst; lia|done| |].
  - intros i [d' f] Hi ->. dirconst. rewrite ld8s_ok by lia. cbn [rbind].
    rewrite (ai_allo _ _ _ HI) by lia. pose proof (page_free_bound d i).
    pose proof (ai_free_hdr _ _ _ i HI ltac:(lia)).
    assert (1 <= hdr i) by (unfold hdr; destruct (i =? 0); lia).
    rewrite s8_small by lia. destruct (Z.ltb_spec (page_free d i) n); [exists (d, f); done|].
    destruct (Z.eqb_spec (page_free d i) 64); [lia|]. cbn [rbind].
    unfold DIR_Page, cassert. destruct (Z.leb_spec 0 i); [|lia]. unfold DIR_PAGESIZE. cbn [rbind].
    destruct (find_run_spec d i n f) as [[-> Hr]|(j & -> & Hj & Hr)]; [lia..| |]; cbn [rbind].
    + exists (d, true). done.
    + destruct (Hno i ltac:(lia)). exists j. done.
  - intros [d' f] ->. dirconst. rewrite ld8s_ok by lia. cbn [rbind].
    rewrite (ai_unalloc _ _ _ HI) by lia. rewrite s8_small by lia.
    destruct (Z.ltb_spec 64 n); [lia|]. change (64 =? 64) with true. cbn iota.
    assert (dir_Extend env d = Ret None) as He.
    { unfold dir_Extend. rewrite (ai_DIR_Length _ _ _ HI). cbn [rbind]. dirconst.
      replace (2048 * pg + 2048) with (2048 * (pg + 1)) by lia. rewrite Hal.
      destruct (_ <? _); done. }
    unfold dir_AddPage. rewrite He. cbn [rbind]. rewrite st8_ok by lia. cbn [rbind].
    unfold DIR_Page, cassert. destruct (Z.leb_spec 0 pg); [|lia]. unfold DIR_PAGESIZE. cbn [rbind].
    set (d1 := putbs d (32 + pg) [u8 (64 - 1)]).
    assert (zlen d1 = zlen d) as Hl1 by (unfold d1; apply zlen_putbs; [lia|]; change (zlen [u8 (64 - 1)]) with 1; lia).
    unfold find_run. rewrite (for_range_stop (fun _ _ => True) 0 (EPP - n + 1) 0 CUndef); [done|dirconst; lia|done|lia|].
    intros b _. unfold run_failed.
    rewrite (for_range_stop (fun _ _ => True) 0 n 0 CUndef); [done|lia|done|lia|].
    intros [] _. dirconst. unfold ld8s, ld8. change (Z.shiftr (0 + 0) 3) with 0.
    unfold inbb. destruct (Z.leb_spec (pg * 2048 + 5 + 0 + 1) (zlen d1)); [lia|]. now rewrite andb_false_r.
Qed.
