(* ===== verification/DirInv.v ===== *)
(** * The directory invariant

    A well-formed directory is the allocation invariant of [DirAlloc] together with
    128 linked hash chains of entries whose blobs are exactly the blobs in use.
    This file defines it and shows that walking a chain as the source does visits
    the entries of the chain in order and stops. *)

From Stdlib Require Import ZArith Lia.
From stdpp Require Import base list numbers.
From S2P Require Import Prelude DirBody DirAlloc.
Open Scope Z_scope.

(** A directory entry: its first blob, its name and the fid it names. *)
Record ent : Set := mkEnt { e_blob : Z; e_name : list Z; e_fid : DirFid }.

Global Instance DirFid_eq_dec : EqDecision DirFid.
Proof. solve_decision. Defined.
Global Instance ent_eq_dec : EqDecision ent.
Proof. solve_decision. Defined.

(** Blobs of an entry. *)
Definition e_nb (e : ent) : Z := dir_NameBlobs (e_name e).
Definition ext (e : ent) : Z -> Prop := in_run (e_blob e) (e_nb e).

(** Names [DIR_Create] accepts. *)
Definition valid_name (s : list Z) : Prop := is_cstring s /\ 1 <= zlen s <= 255.
Definition valid_fid (f : DirFid) : Prop :=
  0 <= df_vnode f < 2 ^ 32 /\ 0 <= df_unique f < 2 ^ 32.

(** The entry lies in one page, after the page's header. *)
Record ent_ok (pg : Z) (e : ent) : Prop := {
  eo_name : valid_name (e_name e);
  eo_fid : valid_fid (e_fid e);
  eo_blob : 0 <= e_blob e;
  eo_page : e_blob e / 64 < pg;
  eo_hdr : hdr (e_blob e / 64) <= e_blob e mod 64;
  eo_fits : e_blob e mod 64 + e_nb e <= 64 }.

(** The bytes of the entry, but for its [next] field. *)
Record ent_at (d : list Z) (e : ent) : Prop := {
  ea_flag : getb d (32 * e_blob e) = 1;
  ea_vnode : get32 d (32 * e_blob e + 4) = df_vnode (e_fid e);
  ea_unique : get32 d (32 * e_blob e + 8) = df_unique (e_fid e);
  ea_name : mem_at d (32 * e_blob e + 12) (e_name e ++ [0]) }.

Definition nxt (d : list Z) (b : Z) : Z := get16 d (32 * b + 2).

(** The chain that starts with blob number [h] consists of the entries [l]. *)
Fixpoint linked (d : list Z) (h : Z) (l : list ent) : Prop :=
  match l with
  | [] => h = 0
  | e :: l' => h = e_blob e /\ linked d (nxt d (e_blob e)) l'
  end.

Definition all_ents (ch : Z -> list ent) (e : ent) : Prop :=
  exists i, 0 <= i < 128 /\ e ∈ ch i.

Definition owned (ch : Z -> list ent) (b : Z) : Prop :=
  hdrblob b \/ exists e, all_ents ch e /\ ext e b.

Record chain_inv (d : list Z) (pg : Z) (ch : Z -> list ent) : Prop := {
  ci_linked : forall i, 0 <= i < 128 -> linked d (get16 d (160 + 2 * i)) (ch i);
  ci_ok : forall e, all_ents ch e -> ent_ok pg e;
  ci_at : forall e, all_ents ch e -> ent_at d e;
  ci_hash : forall i e, 0 <= i < 128 -> e ∈ ch i -> DIR_Hash (e_name e) = i;
  ci_disj : forall e e' b, all_ents ch e -> all_ents ch e' -> ext e b -> ext e' b -> e = e';
  ci_nodup : forall i, 0 <= i < 128 -> NoDup (ch i);
  ci_names : forall e e', all_ents ch e -> all_ents ch e' -> e_name e = e_name e' -> e = e' }.

(** Well-formed directory of [pg] pages with chains [ch]. *)
Record dir_inv (d : list Z) (pg : Z) (ch : Z -> list ent) : Prop := {
  di_alloc : alloc_inv d pg (owned ch);
  di_chain : chain_inv d pg ch }.

(** ** Facts about names and hashes *)

(** An entry's name and its terminator fit in the blobs [dir_NameBlobs] computes. *)
Lemma NameBlobs_fits s : DE_NAME + zlen s + 1 <= ESZ * dir_NameBlobs s.
Proof.
  unfold dir_NameBlobs. dirconst. rewrite Z.shiftr_div_pow2 by lia. change (2 ^ 5) with 32.
  pose proof (zlen_nonneg s). zdm.
Qed.

Lemma NameBlobs_bound s : zlen s <= 255 -> 1 <= dir_NameBlobs s <= 9.
Proof.
  unfold dir_NameBlobs. dirconst. rewrite Z.shiftr_div_pow2 by lia. change (2 ^ 5) with 32.
  pose proof (zlen_nonneg s). intros. zdm.
Qed.

Lemma DIR_Hash_range s : 0 <= DIR_Hash s < NHASH.
Proof.
  unfold DIR_Hash. set (h := fold_left _ _ _). unfold NHASH.
  change (128 - 1) with (Z.ones 7). rewrite Z.land_ones by lia. change (2 ^ 7) with 128.
  pose proof (Z.mod_pos_bound h 128 ltac:(lia)).
  destruct (Z.eqb_spec (h mod 128) 0); [lia|]. destruct (h <? 0); lia.
Qed.

(** ** Geometry of an entry *)
Section Entry.
Context (pg : Z) (e : ent) (Hok : ent_ok pg e).

Lemma ent_geometry :
  1 <= e_nb e <= 9 /\ 1 <= e_blob e < 64 * pg /\ e_blob e + e_nb e <= 64 * pg /\
  416 <= 32 * e_blob e /\ 12 + zlen (e_name e) + 1 <= 32 * e_nb e.
Proof using Hok.
  destruct Hok as [[Hn Hl] _ Hb Hp Hh Hf].
  pose proof (NameBlobs_bound (e_name e) ltac:(lia)). fold (e_nb e) in *.
  pose proof (NameBlobs_fits (e_name e)) as Hfit. dirconst. fold (e_nb e) in Hfit.
  unfold hdr in Hh. destruct (Z.eqb_spec (e_blob e / 64) 0); repeat split; zdm.
Qed.

(** The entry's bytes are outside the allocator's area and the hash table. *)
Lemma ent_not_alloc o : 32 * e_blob e <= o < 32 * (e_blob e + e_nb e) -> ~ alloc_area o /\ 416 <= o.
Proof using Hok.
  intros Ho. pose proof ent_geometry as (? & ? & ? & ? & ?). split; [|lia].
  destruct Hok as [_ _ Hb Hp Hh Hf]. unfold alloc_area.
  assert (1 <= hdr (e_blob e / 64)) by (unfold hdr; destruct (_ =? 0); lia).
  set (p := e_blob e / 64) in *. set (j := e_blob e mod 64) in *.
  assert (e_blob e = 64 * p + j) by (unfold p, j; zdm).
  assert (o mod 2048 = o - 2048 * p) as ->.
  { symmetry. apply (Z.mod_unique_pos o 2048 p); [|lia]. lia. }
  lia.
Qed.

Lemma ext_blob : ext e (e_blob e).
Proof using Hok. pose proof ent_geometry. unfold ext, in_run. lia. Qed.
End Entry.

Lemma ent_at_agree pg d d' e :
  ent_ok pg e -> ent_at d e -> zlen d <= zlen d' ->
  getb d' (32 * e_blob e) = getb d (32 * e_blob e) ->
  agree d' d (32 * e_blob e + 4) (32 * (e_blob e + e_nb e)) -> ent_at d' e.
Proof.
  intros Hok [Hf Hv Hu Hn] Hl H0 Ha.
  pose proof (ent_geometry pg e Hok) as (? & ? & ? & ? & ?). split.
  - rewrite H0. done.
  - rewrite <- Hv. apply (agree_get32 _ _ _ _ _ Ha); lia.
  - rewrite <- Hu. apply (agree_get32 _ _ _ _ _ Ha); lia.
  - eapply mem_at_agree; [exact Hn|done|]. eapply agree_sub; [exact Ha|lia|].
    rewrite zlen_app. change (zlen [0]) with 1. lia.
Qed.

Lemma linked_ext d d' h l :
  (forall e, e ∈ l -> nxt d' (e_blob e) = nxt d (e_blob e)) -> linked d h l -> linked d' h l.
Proof.
  revert h. induction l as [|e l IH]; intros h Hn; cbn; [done|].
  intros [-> Hl]. split; [done|]. rewrite Hn by left. apply IH; [|done].
  intros e' He'. apply Hn. by right.
Qed.

(** Allocator writes do not touch the chains. *)
Lemma chain_inv_only_alloc d d' pg pg' ch :
  chain_inv d pg ch -> pg <= pg' -> zlen d = 2048 * pg -> zlen d <= zlen d' -> 1 <= pg ->
  only_alloc d d' -> chain_inv d' pg' ch.
Proof.
  intros [Hl Hok Hat Hh Hd Hnd Hnm] Hpg Hz Hz' H1 Ho.
  assert (forall o, 0 <= o < zlen d -> ~ alloc_area o -> getb d' o = getb d o) as Ho' by exact Ho.
  assert (forall e, all_ents ch e ->
    agree d' d (32 * e_blob e) (32 * (e_blob e + e_nb e))) as Hag.
  { intros e He o Hoo. pose proof (ent_geometry pg e (Hok e He)).
    apply Ho'; [lia|]. apply (ent_not_alloc pg e (Hok e He) o Hoo). }
  split; try done.
  - intros i Hi. replace (get16 d' (160 + 2 * i)) with (get16 d (160 + 2 * i)).
    + apply (linked_ext d); [|auto]. intros e He. unfold nxt. eapply agree_get16;
        [apply (Hag e); exists i; done|lia|].
      pose proof (ent_geometry pg e (Hok e ltac:(exists i; done))). lia.
    + unfold get16. rewrite !Ho'; try done; try lia; unfold alloc_area; rewrite Z.mod_small by lia; lia.
  - intros e He. destruct (Hok e He) as [??????]. split; try done. lia.
  - intros e He. apply (ent_at_agree pg d); auto.
    + apply (Hag e He). pose proof (ent_geometry pg e (Hok e He)). lia.
    + eapply agree_sub; [apply (Hag e He)|lia|lia].
Qed.

(** ** Walking a chain *)

Lemma chain_length d pg ch i :
  chain_inv d pg ch -> pg <= 128 -> 0 <= i < 128 -> (length (ch i) < CHAIN_FUEL)%nat.
Proof.
  intros H Hpg Hi.
  assert (NoDup (e_blob <$> ch i)) as Hnd.
  { apply NoDup_fmap_2_strong; [|apply (ci_nodup _ _ _ H); done].
    intros e e' He He' Eb.
    assert (all_ents ch e) as Ha by (exists i; done). assert (all_ents ch e') as Ha' by (exists i; done).
    pose proof (ext_blob pg e (ci_ok _ _ _ H e Ha)) as Hx.
    pose proof (ext_blob pg e' (ci_ok _ _ _ H e' Ha')) as Hx'. rewrite <- Eb in Hx'.
    eapply (ci_disj _ _ _ H); eauto. }
  assert ((e_blob <$> ch i) ⊆+ seqZ 0 (EPP * DIR_MAXPAGES)) as Hs.
  { apply NoDup_submseteq; [done|]. intros b Hb. apply list_elem_of_fmap in Hb as (e & -> & He).
    pose proof (ent_geometry pg e (ci_ok _ _ _ H e ltac:(exists i; done))).
    apply elem_of_seqZ. dirconst. lia. }
  apply submseteq_length in Hs. rewrite length_fmap, length_seqZ in Hs.
  unfold CHAIN_FUEL. dirconst. lia.
Qed.

(** A [while] loop that follows [next] pointers and folds [step] over the entries. *)
Fixpoint chain_fold {St R} (step : ent -> St -> St + R) (fin : St -> R) (l : list ent) (s : St) : R :=
  match l with
  | [] => fin s
  | e :: l' => match step e s with inl s' => chain_fold step fin l' s' | inr r => r end
  end.

Lemma while_chain {X St R} d (inj : Z -> St -> X) (body : X -> res (X + R))
  (step : ent -> St -> St + R) (fin : St -> R) l :
  (forall s, body (inj 0 s) = Ret (inr (fin s))) ->
  (forall e s, e ∈ l -> body (inj (e_blob e) s) =
     Ret (match step e s with inl s' => inl (inj (nxt d (e_blob e)) s') | inr r => inr r end)) ->
  forall fuel h s, (length l < fuel)%nat -> linked d h l ->
  while_loop fuel body (inj h s) = Ret (chain_fold step fin l s).
Proof.
  intros H0. induction l as [|e l IH]; intros Hs [|fuel] h s Hf Hl; cbn in Hl, Hf; try lia; cbn.
  - subst h. rewrite H0. done.
  - destruct Hl as [-> Hl]. rewrite Hs by left. cbn. destruct (step e s); [|done].
    apply IH; [|lia|done]. intros e' s' He'. apply Hs. by right.
Qed.

(** Running [st] over entries until it stops with [inr]. *)
Definition stop_step {St R} (st : ent -> St -> St + R) (e : ent) (s : St) : St + (St + R) :=
  match st e s with inl s' => inl s' | inr r => inr (inr r) end.
Definition walk {St R} (st : ent -> St -> St + R) (l : list ent) (s : St) : St + R :=
  chain_fold (stop_step st) inl l s.

Lemma walk_cons {St R} (st : ent -> St -> St + R) e l s :
  walk st (e :: l) s = match st e s with inl s' => walk st l s' | inr r => inr r end.
Proof. unfold walk. cbn. unfold stop_step at 1. now destruct (st e s). Qed.

Lemma walk_app {St R} (st : ent -> St -> St + R) l1 l2 s :
  walk st (l1 ++ l2) s = match walk st l1 s with inl s' => walk st l2 s' | inr r => inr r end.
Proof.
  revert s. induction l1 as [|e l1 IH]; intros s; [done|].
  cbn [app]. rewrite !walk_cons. destruct (st e s); [apply IH|done].
Qed.

(** A walk whose state never changes stops at the first entry that stops it. *)
Lemma walk_unit {R} (st : ent -> unit -> unit + R) l :
  (walk st l tt = inl tt /\ forall e, e ∈ l -> st e tt = inl tt) \/
  (exists l1 e l2 r, l = l1 ++ e :: l2 /\ st e tt = inr r /\ walk st l tt = inr r /\
     forall e', e' ∈ l1 -> st e' tt = inl tt).
Proof.
  induction l as [|e l IH]; [left; split; [done|]; intros e He; inversion He|].
  rewrite walk_cons. destruct (st e tt) as [[]|r] eqn:E.
  - destruct IH as [[-> H]|(l1 & e' & l2 & r & -> & E' & -> & H)].
    + left. split; [done|]. intros e' [->|]%elem_of_cons; auto.
    + right. exists (e :: l1), e', l2, r. split; [done|]. split; [done|]. split; [done|].
      intros x [->|]%elem_of_cons; auto.
  - right. exists [], e, l, r. repeat split; try done. intros e' He'. inversion He'.
Qed.

(** Loads of the fields of an entry. *)
Section Loads.
Context (d : list Z) (pg : Z) (ch : Z -> list ent) (e : ent).
Context (HI : dir_inv d pg ch) (He : all_ents ch e).

Lemma ent_bounds : 1 <= pg <= 128 /\ zlen d = 2048 * pg /\ ent_ok pg e /\ ent_at d e /\
  1 <= e_nb e <= 9 /\ 1 <= e_blob e < 64 * pg /\ e_blob e + e_nb e <= 64 * pg /\
  416 <= 32 * e_blob e /\ 12 + zlen (e_name e) + 1 <= 32 * e_nb e.
Proof using HI He.
  destruct HI as [Ha Hc]. pose proof (ai_pg _ _ _ Ha). pose proof (ai_len _ _ _ Ha).
  pose proof (ci_ok _ _ _ Hc e He) as Hok. pose proof (ci_at _ _ _ Hc e He).
  pose proof (ent_geometry pg e Hok). tauto.
Qed.

Lemma GetBlob_ent : dir_GetBlob (Some d) (e_blob e) = Some (32 * e_blob e).
Proof using HI He.
  pose proof ent_bounds as (? & ? & _ & _ & ? & ? & ? & _). unfold dir_GetBlob. dirconst.
  destruct (Z.leb_spec (e_blob e) 0); [lia|]. destruct (Z.ltb_spec (64 * 128) (e_blob e)); [lia|].
  cbn. f_equal. lia.
Qed.

Lemma ep_name_ent : ep_name d (32 * e_blob e) = Ret (e_name e).
Proof using HI He.
  pose proof ent_bounds as (_ & _ & Hok & Hat & _). apply cstr_ok; [apply Hok|apply Hat].
Qed.

Lemma ep_next_ent : ep_next d (32 * e_blob e) = Ret (nxt d (e_blob e)).
Proof using HI He.
  pose proof ent_bounds as (? & ? & _ & _ & ? & ? & ? & _).
  unfold ep_next. dirconst. now rewrite ld16_ok by lia.
Qed.

Lemma NFid2Fid_ent : fid_NFid2Fid d (32 * e_blob e) = Ret (e_fid e).
Proof using HI He.
  pose proof ent_bounds as (? & ? & Hok & Hat & ? & ? & ? & _). unfold fid_NFid2Fid. dirconst.
  rewrite ld32_ok by lia. cbn. rewrite ld32_ok by lia. cbn.
  rewrite (ea_vnode _ _ Hat), (ea_unique _ _ Hat). now destruct (e_fid e).
Qed.

Lemma FidEqNFid_ent f : fid_FidEqNFid d f (32 * e_blob e) = Ret (bool_decide (f = e_fid e)).
Proof using HI He.
  pose proof ent_bounds as (? & ? & Hok & Hat & ? & ? & ? & _). unfold fid_FidEqNFid. dirconst.
  rewrite ld32_ok by lia. cbn. rewrite (ea_vnode _ _ Hat).
  destruct f as [v u], (e_fid e) as [v' u'] eqn:Ef; cbn.
  destruct (Z.eqb_spec v' v) as [->|]; [|rewrite bool_decide_false; congruence].
  rewrite ld32_ok by lia. cbn. rewrite (ea_unique _ _ Hat), Ef. cbn. f_equal.
  destruct (Z.eqb_spec u' u) as [->|]; [rewrite bool_decide_true; done|rewrite bool_decide_false; congruence].
Qed.
End Loads.

Lemma nxt_bound d pg ch b : dir_inv d pg ch -> 0 <= nxt d b < 2 ^ 16.
Proof. intros H. apply get16_bound, (ai_bytes _ _ _ (di_alloc _ _ _ H)). Qed.

(** Blob numbers in chains are positive 16-bit numbers, so the [short] the source
    keeps them in loses nothing. *)
Lemma s16_blob d pg ch h l :
  dir_inv d pg ch -> linked d h l -> (forall e, e ∈ l -> all_ents ch e) -> s16 h = h /\ 0 <= h < 8192.
Proof.
  intros H Hl He. assert (0 <= h < 8192) as Hh.
  { destruct l as [|e l]; cbn in Hl; [lia|]. destruct Hl as [-> _].
    pose proof (ent_bounds d pg ch e H (He e ltac:(by left))). lia. }
  split; [|done]. apply swrap_small; lia.
Qed.
