(* ===== verification/DirRead.v ===== *)
(** * Reading a well-formed directory

    On a directory that satisfies [dir_inv], every function of [dirbody.c] that only
    reads terminates and computes what the chains say: [dir_FindItem],
    [DIR_EnumerateDir], [DIR_LookupByFid], [DIR_IsEmpty] and the consistency check
    [DIR_DirOK]. *)

From Stdlib Require Import ZArith Lia.
From stdpp Require Import base list numbers.
From S2P Require Import Prelude DirBody DirAlloc DirInv.
Open Scope Z_scope.

(** ** [dir_FindItem] *)
Fixpoint find_pure (name : list Z) (l : list ent) (lp : option Z) : option FindRes :=
  match l with
  | [] => None
  | e :: l' =>
      if decide (name = e_name e) then Some (mkFind (32 * e_blob e) lp (e_blob e))
      else find_pure name l' (Some (32 * e_blob e))
  end.

Section Read.
Context (d : list Z) (pg : Z) (ch : Z -> list ent) (HI : dir_inv d pg ch).

Lemma in_chain i e : 0 <= i < 128 -> e ∈ ch i -> all_ents ch e.
Proof. intros. exists i. done. Qed.

Lemma load_head i : 0 <= i < 128 -> ld16 d (160 + 2 * i) = Ret (get16 d (160 + 2 * i)).
Proof using HI.
  intros Hi. pose proof (ai_pg _ _ _ (di_alloc _ _ _ HI)). pose proof (ai_len _ _ _ (di_alloc _ _ _ HI)).
  now rewrite ld16_ok by lia.
Qed.

Lemma hash_range s : 0 <= DIR_Hash s < 128.
Proof. apply DIR_Hash_range. Qed.

Lemma FindItem_loop name l fuel lp e :
  (forall e', e' ∈ e :: l -> all_ents ch e') -> (length l < fuel)%nat ->
  linked d (nxt d (e_blob e)) l ->
  while_loop fuel
    (fun '(tp, lp, blobno) =>
       match tp with
       | None => Stop CUndef
       | Some ep =>
           let* nm := ep_name d ep in
           if strcmp_eq name nm then Ret (inr (Some (mkFind ep lp blobno)))
           else
             let* n := ep_next d ep in
             let blobno := s16 n in
             if blobno =? 0 then Ret (inr None) else
             match dir_GetBlob (Some d) blobno with
             | None => Ret (inr None)
             | Some tp' => Ret (inl (Some tp', Some ep, blobno))
             end
       end) (Some (32 * e_blob e), lp, e_blob e)
  = Ret (find_pure name (e :: l) lp).
Proof using HI.
  revert fuel lp e. induction l as [|e' l IH]; intros [|fuel] lp e Hin Hf Hl; cbn in Hf; try lia;
    cbn [while_loop find_pure]; rewrite (ep_name_ent d pg ch e HI) by (apply Hin; left);
    cbn [rbind]; unfold strcmp_eq; case_decide as Hd;
    [now rewrite bool_decide_true by done| |now rewrite bool_decide_true by done|].
  - rewrite bool_decide_false by done. rewrite (ep_next_ent d pg ch e HI) by (apply Hin; left).
    cbn in Hl. rewrite Hl. cbn. done.
  - rewrite bool_decide_false by done. rewrite (ep_next_ent d pg ch e HI) by (apply Hin; left).
    cbn [rbind].
    destruct (s16_blob d pg ch _ _ HI Hl) as [-> Hb]; [intros; apply Hin; by right|].
    destruct Hl as [E Hl]. rewrite E.
    pose proof (ent_bounds d pg ch e' HI (Hin e' ltac:(right; left))).
    destruct (Z.eqb_spec (e_blob e') 0); [lia|].
    rewrite (GetBlob_ent d pg ch e' HI) by (apply Hin; right; left). cbn [rbind].
    apply (IH fuel (Some (32 * e_blob e)) e'); [|lia|done]. intros x Hx. apply Hin. by right.
Qed.

Lemma FindItem_spec name :
  dir_FindItem (Some d) name CLU_CASE_SENSITIVE = Ret (find_pure name (ch (DIR_Hash name)) None).
Proof using HI.
  pose proof (hash_range name) as Hh. unfold dir_FindItem. cbn [Z.eqb CLU_CASE_SENSITIVE CLU_CASE_INSENSITIVE].
  dirconst. change (1 =? 2) with false. change (1 =? 1) with true. cbn iota.
  rewrite load_head by done. cbn [rbind].
  pose proof (ci_linked _ _ _ (di_chain _ _ _ HI) _ Hh) as Hl.
  destruct (s16_blob d pg ch _ _ HI Hl) as [-> Hb].
  { intros e He. eapply in_chain; done. }
  pose proof (chain_length d pg ch (DIR_Hash name) (di_chain _ _ _ HI)) as Hlen.
  assert (forall e, e ∈ ch (DIR_Hash name) -> all_ents ch e) as Hin by (intros; eapply in_chain; done).
  pose proof (ai_pg _ _ _ (di_alloc _ _ _ HI)).
  destruct (ch (DIR_Hash name)) as [|e l]; cbn in Hl.
  - rewrite Hl. done.
  - destruct Hl as [-> Hl]. pose proof (ent_bounds d pg ch e HI (Hin e ltac:(left))).
    destruct (Z.eqb_spec (e_blob e) 0); [lia|].
    rewrite (GetBlob_ent d pg ch e HI) by (apply Hin; left).
    apply FindItem_loop; [done| |done]. specialize (Hlen ltac:(lia) Hh). cbn in Hlen. lia.
Qed.

(** ** Walking all chains *)

(** The entries in the order of the walk: chain 0 first. *)
Definition dir_entries : list ent := flat_map ch (seqZ 0 128).

Lemma elem_dir_entries e : e ∈ dir_entries <-> all_ents ch e.
Proof.
  unfold dir_entries, all_ents. rewrite list_elem_of_In, in_flat_map. split.
  - intros (i & Hi & He). apply list_elem_of_In, elem_of_seqZ in Hi. exists i.
    split; [lia|]. by apply list_elem_of_In.
  - intros (i & Hi & He). exists i. split; [apply list_elem_of_In, elem_of_seqZ; lia|].
    by apply list_elem_of_In.
Qed.

Lemma for_chains {St R} (body : Z -> St -> res (St + R)) st s :
  (forall i s, 0 <= i < 128 -> body i s = Ret (walk st (ch i) s)) ->
  for_range 0 NHASH body s = Ret (walk st dir_entries s).
Proof.
  intros Hb. unfold for_range, dir_entries, NHASH. change (Z.to_nat (128 - 0)) with 128%nat.
  replace (seqZ 0 128) with ((fun k => 0 + Z.of_nat k) <$> seq 0 128) by done.
  assert (forall n i s, 0 <= i -> i + Z.of_nat n <= 128 -> loop n i body s
    = Ret (walk st (flat_map ch ((fun k => i + Z.of_nat k) <$> seq 0 n)) s)) as Hloop.
  { clear s. induction n as [|n IH]; intros i s Hi Hn; [done|].
    cbn [loop]. rewrite Hb by lia. cbn [rbind].
    cbn [seq fmap list_fmap flat_map]. rewrite walk_app.
    replace (i + Z.of_nat 0) with i by lia.
    destruct (walk st (ch i) s); [|done]. rewrite IH by lia. do 3 f_equal.
    rewrite <- fmap_S_seq, <- list_fmap_compose. apply list_fmap_ext. intros. cbn. lia. }
  apply Hloop; lia.
Qed.

(** One chain, walked by a loop whose body reads the entry [num] stands for. *)
Lemma one_chain {X St R} (inj : Z -> St -> X) (body : X -> res (X + (St + R))) st i s :
  0 <= i < 128 ->
  (forall s, body (inj 0 s) = Ret (inr (inl s))) ->
  (forall e s, e ∈ ch i -> all_ents ch e -> body (inj (e_blob e) s) =
     Ret (match st e s with inl s' => inl (inj (nxt d (e_blob e)) s') | inr r => inr (inr r) end)) ->
  while_loop CHAIN_FUEL body (inj (get16 d (160 + 2 * i)) s) = Ret (walk st (ch i) s).
Proof using HI.
  intros Hi H0 Hs. pose proof (ai_pg _ _ _ (di_alloc _ _ _ HI)).
  apply (while_chain d inj); [done| | |apply (ci_linked _ _ _ (di_chain _ _ _ HI)); done].
  - intros e t He. rewrite Hs; [|done|eapply in_chain; done].
    unfold stop_step. now destruct (st e t).
  - eapply chain_length; [apply HI|lia|done].
Qed.

(** Reading an entry number [num] of a chain. *)
Lemma blob_entry e : all_ents ch e ->
  (e_blob e =? 0) = false /\ dir_GetBlob (Some d) (e_blob e) = Some (32 * e_blob e).
Proof using HI.
  intros He. pose proof (ent_bounds d pg ch e HI He). split; [|eapply GetBlob_ent; done].
  apply Z.eqb_neq. lia.
Qed.

(** ** [DIR_EnumerateDir] *)
Section Enumerate.
Context {St : Type} (hookproc : Z -> St -> res (St * Z)) (hk : ent -> St -> St * Z).
Context (Hhk : forall e s, all_ents ch e -> hookproc (32 * e_blob e) s = Ret (hk e s)).

Definition hook_step (e : ent) (s : St) : St + St * Z :=
  let (s', rc) := hk e s in if rc =? 0 then inl s' else inr (s', rc).

Lemma EnumerateDir_spec s :
  DIR_EnumerateDir (Some d) hookproc s =
  Ret (match walk hook_step dir_entries s with inl s' => (s', 0) | inr sr => sr end).
Proof using HI Hhk.
  unfold DIR_EnumerateDir. rewrite (for_chains _ hook_step); [done|].
  intros i t Hi. dirconst. rewrite load_head by done. cbn [rbind]. unfold enum_chain.
  apply (one_chain (fun n s => (n, s))); [done|done|].
  intros e u _ He. destruct (blob_entry e He) as [-> ->].
  rewrite (ep_next_ent d pg ch e HI He). cbn [rbind].
  rewrite Hhk by done. cbn [rbind]. unfold hook_step. destruct (hk e u) as [u' rc].
  now destruct (rc =? 0).
Qed.
End Enumerate.

(** ** [DIR_LookupByFid] and [DIR_IsEmpty] *)
Definition fid_step (fid : DirFid) (e : ent) (_ : unit) : unit + list Z :=
  if decide (fid = e_fid e) then inr (e_name e) else inl tt.

Lemma LookupByFid_walk fid :
  DIR_LookupByFid (Some d) fid =
  Ret (match walk (fid_step fid) dir_entries tt with
       | inl _ => (ENOENT, None) | inr nm => (0, Some nm) end).
Proof using HI.
  unfold DIR_LookupByFid. rewrite (for_chains _ (fid_step fid)); [done|].
  intros i [] Hi. dirconst. rewrite load_head by done. cbn [rbind].
  apply (one_chain (fun n (_ : unit) => n)); [done|intros []; done|].
  intros e [] _ He. destruct (blob_entry e He) as [-> ->].
  rewrite (FidEqNFid_ent d pg ch e HI He). cbn [rbind]. unfold fid_step.
  case_decide as Hd.
  - rewrite bool_decide_true by done. now rewrite (ep_name_ent d pg ch e HI He).
  - rewrite bool_decide_false by done. now rewrite (ep_next_ent d pg ch e HI He).
Qed.

Definition empty_step (e : ent) (_ : unit) : unit + unit :=
  if decide (e_name e = name_dotdot \/ e_name e = name_dot) then inl tt else inr tt.

Lemma IsEmpty_walk :
  DIR_IsEmpty (Some d) =
  Ret (match walk empty_step dir_entries tt with inl _ => 1 | inr _ => 0 end).
Proof using HI.
  unfold DIR_IsEmpty. rewrite (for_chains _ empty_step); [done|].
  intros i [] Hi. dirconst. rewrite load_head by done. cbn [rbind].
  apply (one_chain (fun n (_ : unit) => n)); [done|intros []; done|].
  intros e [] _ He. destruct (blob_entry e He) as [-> ->].
  rewrite (ep_name_ent d pg ch e HI He). cbn [rbind]. unfold empty_step, strcmp_eq.
  destruct (decide (e_name e = name_dotdot)) as [E1|E1].
  { rewrite bool_decide_true, decide_True by tauto. cbn [negb andb].
    now rewrite (ep_next_ent d pg ch e HI He). }
  rewrite (bool_decide_false (e_name e = name_dotdot)) by done. cbn [negb andb].
  destruct (decide (e_name e = name_dot)) as [E2|E2].
  - rewrite bool_decide_true, decide_True by tauto. cbn [negb].
    now rewrite (ep_next_ent d pg ch e HI He).
  - rewrite bool_decide_false, decide_False by tauto. done.
Qed.
End Read.
