(* ===== verification/DirCheck.v ===== *)
(** * [DIR_DirOK] accepts every well-formed directory

    The consistency check recomputes the blob usage from the hash chains and
    compares it with the bitmaps; on a directory that satisfies [dir_inv] it
    terminates and returns 1. *)

From Stdlib Require Import ZArith Lia.
From stdpp Require Import base list numbers.
From S2P Require Import Prelude DirBody DirAlloc DirInv DirRead.
Open Scope Z_scope.

Lemma while_chain_inv {X St R} d (inj : Z -> St -> X) (body : X -> res (X + R))
  (P : list ent -> St -> Prop) (fin : St -> R) l :
  (forall s, body (inj 0 s) = Ret (inr (fin s))) ->
  (forall e s pre, e ∈ l -> P pre s -> exists s',
     body (inj (e_blob e) s) = Ret (inl (inj (nxt d (e_blob e)) s')) /\ P (pre ++ [e]) s') ->
  forall fuel h s pre, (length l < fuel)%nat -> linked d h l -> P pre s ->
  exists s', while_loop fuel body (inj h s) = Ret (fin s') /\ P (pre ++ l) s'.
Proof.
  intros H0. induction l as [|e l IH]; intros Hs [|fuel] h s pre Hf Hl HP; cbn in Hl, Hf; try lia; cbn.
  - subst h. rewrite H0. exists s. now rewrite app_nil_r.
  - destruct Hl as [-> Hl]. destruct (Hs e s pre) as (s' & -> & HP'); [by left|done|]. cbn.
    destruct (IH ltac:(intros e' t q He'; apply Hs; by right) fuel _ s' (pre ++ [e]) ltac:(lia) Hl HP')
      as (t & -> & Ht). exists t. split; [done|]. now rewrite <- app_assoc in Ht.
Qed.

Lemma all_pages_true lo hi test :
  lo <= hi -> (forall i, lo <= i < hi -> test i = Ret true) -> all_pages lo hi test = Ret true.
Proof.
  intros Hle Ht. unfold all_pages.
  match goal with |- context [for_range lo hi ?b tt] => set (body := b) end.
  destruct (for_range_total (R := unit) (fun _ (_ : unit) => True) lo hi body tt Hle I) as ([] & -> & _); [|done].
  intros k [] Hk _. unfold body. rewrite Ht by done. exists tt. done.
Qed.

(** ** Counting the bits of a page *)
Lemma bit_drop_spec k m fc : 0 <= m -> bit_drop k (2 ^ m) fc = fc - Z.b2z (Z.testbit k m).
Proof.
  intros Hm. unfold bit_drop.
  assert (Z.land k (2 ^ m) = if Z.testbit k m then 2 ^ m else 0) as ->.
  { apply Z.bits_inj'. intros n Hn. rewrite Z.land_spec, Z.pow2_bits_eqb by lia.
    destruct (Z.testbit k m) eqn:E.
    - rewrite Z.pow2_bits_eqb by lia. destruct (Z.eqb_spec m n) as [->|]; [now rewrite E|apply andb_false_r].
    - rewrite Z.bits_0. destruct (Z.eqb_spec m n) as [->|]; [now rewrite E|apply andb_false_r]. }
  pose proof (Z.pow_pos_nonneg 2 m ltac:(lia) Hm).
  destruct (Z.testbit k m); [destruct (Z.eqb_spec (2 ^ m) 0); [lia|done]|]. cbn. lia.
Qed.

Lemma cnt_free_8 f m : cnt_free f (8 + m) =
  cnt_free f m + 8 - Z.b2z (f (Z.of_nat m)) - Z.b2z (f (Z.of_nat m + 1)) - Z.b2z (f (Z.of_nat m + 2))
  - Z.b2z (f (Z.of_nat m + 3)) - Z.b2z (f (Z.of_nat m + 4)) - Z.b2z (f (Z.of_nat m + 5))
  - Z.b2z (f (Z.of_nat m + 6)) - Z.b2z (f (Z.of_nat m + 7)).
Proof.
  cbn [Nat.add cnt_free].
  replace (Z.of_nat (S m)) with (Z.of_nat m + 1) by lia.
  replace (Z.of_nat (S (S m))) with (Z.of_nat m + 2) by lia.
  replace (Z.of_nat (S (S (S m)))) with (Z.of_nat m + 3) by lia.
  replace (Z.of_nat (S (S (S (S m))))) with (Z.of_nat m + 4) by lia.
  replace (Z.of_nat (S (S (S (S (S m)))))) with (Z.of_nat m + 5) by lia.
  replace (Z.of_nat (S (S (S (S (S (S m))))))) with (Z.of_nat m + 6) by lia.
  replace (Z.of_nat (S (S (S (S (S (S (S m)))))))) with (Z.of_nat m + 7) by lia.
  repeat match goal with |- context [f ?x] => destruct (f x) end; cbn; lia.
Qed.

Lemma byte_drop k fc :
  bit_drop k 1 (bit_drop k 2 (bit_drop k 4 (bit_drop k 8
    (bit_drop k 16 (bit_drop k 32 (bit_drop k 64 (bit_drop k 128 fc))))))) =
  fc - Z.b2z (Z.testbit k 0) - Z.b2z (Z.testbit k 1) - Z.b2z (Z.testbit k 2) - Z.b2z (Z.testbit k 3)
     - Z.b2z (Z.testbit k 4) - Z.b2z (Z.testbit k 5) - Z.b2z (Z.testbit k 6) - Z.b2z (Z.testbit k 7).
Proof.
  assert (forall m, 0 <= m -> forall fc, bit_drop k (2 ^ m) fc = fc - Z.b2z (Z.testbit k m)) as H
    by (intros; now apply bit_drop_spec).
  pose proof (H 0 ltac:(lia)) as H0. pose proof (H 1 ltac:(lia)) as H1. pose proof (H 2 ltac:(lia)) as H2.
  pose proof (H 3 ltac:(lia)) as H3. pose proof (H 4 ltac:(lia)) as H4. pose proof (H 5 ltac:(lia)) as H5.
  pose proof (H 6 ltac:(lia)) as H6. pose proof (H 7 ltac:(lia)) as H7.
  change (2 ^ 0) with 1 in H0. change (2 ^ 1) with 2 in H1. change (2 ^ 2) with 4 in H2.
  change (2 ^ 3) with 8 in H3. change (2 ^ 4) with 16 in H4. change (2 ^ 5) with 32 in H5.
  change (2 ^ 6) with 64 in H6. change (2 ^ 7) with 128 in H7.
  rewrite H0, H1, H2, H3, H4, H5, H6, H7. lia.
Qed.

Lemma bitmap_free_spec d p :
  0 <= p -> 2048 * p + 13 <= zlen d -> bitmap_free d (p * 2048) = Ret (page_free d p).
Proof.
  intros Hp Hl. unfold bitmap_free. dirconst. change (64 / 8) with 8.
  set (f := fun k => used d (64 * p + k)).
  match goal with |- forZ 0 8 ?b 64 = _ => set (body := b) end.
  destruct (forZ_total (fun j fc => fc = 64 - 8 * j + cnt_free f (Z.to_nat (8 * j))) 0 8 body 64)
    as (fc & -> & ->); [lia|done| |].
  2: { change (Z.to_nat (8 * 8)) with 64%nat. unfold page_free. fold f. f_equal; lia. }
  intros j fc Hj ->. unfold body. rewrite ld8s_ok by lia. cbn [rbind]. eexists. split; [done|].
  set (b := getb d (p * 2048 + 5 + j)).
  assert (forall n, 0 <= n < 8 -> Z.testbit (s8 b) n = f (8 * j + n)) as Hb.
  { intros n Hn. rewrite testbit_swrap by lia. unfold f. rewrite used_bitat by lia. unfold bitat, b.
    f_equal; [f_equal|]; zdm. }
  rewrite byte_drop. replace (Z.to_nat (8 * (j + 1))) with (8 + Z.to_nat (8 * j))%nat by lia.
  rewrite cnt_free_8. replace (Z.of_nat (Z.to_nat (8 * j))) with (8 * j) by lia.
  rewrite !Hb by lia. replace (8 * j + 0) with (8 * j) by lia. lia.
Qed.

(** ** The entry allocation map *)
Definition hdrbit (x : Z) : bool := x mod 64 <? hdr (x / 64).

Lemma hdrbit_spec x : hdrbit x = true <-> hdrblob x.
Proof. unfold hdrbit, hdrblob. apply Z.ltb_lt. Qed.

(** [m] is an entry map of the right size whose bits are those of [f]. *)
Record eamap (m : list Z) (pg : Z) (f : Z -> Prop) : Prop := {
  em_bytes : is_bytes m;
  em_len : zlen m = 8192;
  em_bits : forall x, 0 <= x < 64 * pg -> bitat m 0 x = true <-> f x }.

Lemma testbit_const v n (f : Z -> bool) :
  Forall (fun k => Z.testbit v k = f k) (seqZ 0 8) -> 0 <= n < 8 -> Z.testbit v n = f n.
Proof. intros H Hn. rewrite Forall_forall in H. apply H. apply list_elem_of_In, elem_of_seqZ. lia. Qed.

(** Byte [o] of the map once the headers of pages below [k] are marked. *)
Definition ea_byte (k o : Z) : Z :=
  if o =? 0 then 255 else if o =? 1 then 31
  else if (o mod 8 =? 0) && (o <? 8 * k) then 1 else 0.

Lemma ea_byte_bit pg x :
  0 <= x < 64 * pg -> Z.testbit (ea_byte pg (x / 8)) (x mod 8) = hdrbit x.
Proof.
  intros Hx.
  assert (exists p q r, x = 64 * p + 8 * q + r /\ 0 <= q < 8 /\ 0 <= r < 8 /\ 0 <= p) as (p & q & r & E & Hq & Hr & Hp).
  { exists (x / 64), ((x mod 64) / 8), (x mod 8). repeat split; zdm. }
  assert (x / 8 = 8 * p + q) as E1 by (symmetry; apply (Z.div_unique_pos x 8 _ r); lia).
  assert (x mod 8 = r) as E2 by (symmetry; apply (Z.mod_unique_pos x 8 (8 * p + q)); lia).
  assert (x / 64 = p) as E3 by (symmetry; apply (Z.div_unique_pos x 64 _ (8 * q + r)); lia).
  assert (x mod 64 = 8 * q + r) as E4 by (symmetry; apply (Z.mod_unique_pos x 64 p); lia).
  assert ((8 * p + q) mod 8 = q) as E5 by (symmetry; apply (Z.mod_unique_pos _ 8 p); lia).
  unfold ea_byte, hdrbit, hdr. rewrite E1, E2, E3, E4, E5.
  assert (p < pg) by lia. clear E E1 E2 E3 E4 E5 Hx.
  destruct (Z.eqb_spec (8 * p + q) 0).
  { rewrite (testbit_const 255 r (fun _ => true)); [|cbn; repeat constructor|lia].
    destruct (Z.eqb_spec p 0); lia. }
  destruct (Z.eqb_spec (8 * p + q) 1).
  { rewrite (testbit_const 31 r (fun n => n <? 5)); [|cbn; repeat constructor|lia].
    destruct (Z.eqb_spec p 0); lia. }
  destruct (Z.eqb_spec q 0) as [->|]; cbn [andb].
  - destruct (Z.ltb_spec (8 * p + 0) (8 * pg)); [|lia].
    rewrite (testbit_const 1 r (fun n => n =? 0)); [|cbn; repeat constructor|lia].
    destruct (Z.eqb_spec p 0); lia.
  - rewrite Z.testbit_0_l. destruct (Z.eqb_spec p 0); lia.
Qed.

Lemma ea_byte_step k o : 1 <= k -> 0 <= o -> o <> k * 8 -> ea_byte (k + 1) o = ea_byte k o.
Proof.
  intros. unfold ea_byte. destruct (o =? 0), (o =? 1); try done.
  destruct (Z.eqb_spec (o mod 8) 0), (Z.ltb_spec o (8 * k)), (Z.ltb_spec o (8 * (k + 1))); cbn; try done; zdm.
Qed.

Lemma eaMap_init_spec pg :
  1 <= pg <= 128 -> exists m, eaMap_init pg = Ret m /\ eamap m pg hdrblob.
Proof.
  intros Hpg. unfold eaMap_init. dirconst. change (64 / 8) with 8.
  set (z := replicate _ 0). assert (zlen z = 8192) as Hz by (unfold z; rewrite zlen_replicate; done).
  assert (forall v : Z, zlen [u8 v] = 1) as L1 by reflexivity.
  rewrite st8_ok by lia. cbn [rbind]. set (m1 := putbs z 0 [u8 255]).
  assert (zlen m1 = 8192) as Hm1 by (unfold m1; rewrite zlen_putbs; rewrite ?L1; lia).
  rewrite st8_ok by lia. cbn [rbind]. set (m2 := putbs m1 1 [u8 31]).
  assert (zlen m2 = 8192) as Hm2 by (unfold m2; rewrite zlen_putbs; rewrite ?L1; lia).
  assert (is_bytes z) as Hbz by (apply Forall_replicate; unfold is_byte; lia).
  destruct (forZ_total (fun k m => is_bytes m /\ zlen m = 8192 /\
      forall o, 0 <= o < 8192 -> getb m o = ea_byte k o) 1 pg
    (fun i m => st8 m (i * 8) 1) m2) as (m & -> & Hb & Hl & Hv); [lia| | |].
  - split; [unfold m2, m1; repeat apply is_bytes_putbs; try apply is_bytes_u8; done|].
    split; [done|]. intros o Ho. unfold m2, ea_byte.
    destruct (Z.eqb_spec o 1) as [->|H1]; [rewrite getb_putbs_new by (rewrite ?L1; lia); done|].
    rewrite getb_putbs_old by (rewrite ?L1; lia). unfold m1.
    destruct (Z.eqb_spec o 0) as [->|H0]; [rewrite getb_putbs_new by (rewrite ?L1; lia); done|].
    rewrite getb_putbs_old by (rewrite ?L1; lia). unfold z. rewrite getb_replicate by lia.
    destruct (Z.eqb_spec (o mod 8) 0) as [Ez|]; [|done].
    destruct (Z.ltb_spec o (8 * 1)) as [Hlt|]; [|done]. clear -Ez Hlt Ho H0. zdm.
  - intros k m Hk (Hb & Hl & Hv). rewrite st8_ok by lia. eexists. split; [done|].
    split; [apply is_bytes_putbs; [done|apply is_bytes_u8]|].
    split; [rewrite zlen_putbs; rewrite ?L1; lia|]. intros o Ho.
    destruct (decide (o = k * 8)) as [->|Hne].
    + rewrite getb_putbs_new by (rewrite ?L1; lia). rewrite Z.sub_diag, getb_single. unfold ea_byte.
      destruct (Z.eqb_spec (k * 8) 0); [lia|]. destruct (Z.eqb_spec (k * 8) 1); [lia|].
      rewrite Z.mod_mul by lia. destruct (Z.ltb_spec (k * 8) (8 * (k + 1))); [done|lia].
    + rewrite getb_putbs_old by (rewrite ?L1; lia). rewrite Hv by done. rewrite ea_byte_step by lia. done.
  - exists m. split; [done|]. split; [done|done|]. intros x Hx. rewrite <- hdrbit_spec. unfold bitat.
    replace (0 + x / 8) with (x / 8) by lia. rewrite Hv by (clear -Hx Hpg; zdm).
    now rewrite (ea_byte_bit pg x Hx).
Qed.

Lemma eaMap_mark_spec m pg f e :
  pg <= 128 -> eamap m pg f -> ent_ok pg e ->
  exists m', eaMap_mark m (e_blob e) (e_nb e) = Ret m' /\ eamap m' pg (fun x => f x \/ ext e x).
Proof.
  intros Hpg [Hb Hl Hf] Hok. pose proof (ent_geometry pg e Hok) as (? & ? & ? & _).
  destruct (bits_loop m 0 8192 (e_blob e) (e_nb e) true
    (fun b x => Z.lor b (Z.shiftl 1 (Z.land x 7)))) as (m' & E & Hb' & Hl' & _ & Hx); try done; try lia.
  { intros x b Hx0 Hbb n Hn. cbv beta. rewrite land_7. now apply op_set. }
  exists m'. split; [exact E|]. split; [done|lia|]. intros x Hx0. rewrite Hx by lia.
  unfold ext, in_run. rewrite <- (Hf x Hx0).
  destruct (Z.leb_spec (e_blob e) x), (Z.ltb_spec x (e_blob e + e_nb e)); cbn; intuition (done || lia).
Qed.

(** ** The check as a whole *)

Lemma owned_chains ch x :
  hdrblob x \/ (exists j e, 0 <= j < NHASH /\ e ∈ ch j /\ ext e x) <-> owned ch x.
Proof.
  unfold owned, all_ents, NHASH. split.
  - intros [?|(j & e & Hj & He & Hx)]; [by left|]. right. exists e. split; [exists j|]; done.
  - intros [?|(e & (j & Hj & He) & Hx)]; [by left|]. right. exists j, e. done.
Qed.

(** Blobs of the headers and of the entries in [l]. *)
Definition marked (l : list ent) (x : Z) : Prop := hdrblob x \/ exists e, e ∈ l /\ ext e x.

Lemma marked_snoc l e x : marked l x \/ ext e x <-> marked (l ++ [e]) x.
Proof.
  unfold marked. setoid_rewrite elem_of_app. setoid_rewrite list_elem_of_singleton. naive_solver.
Qed.

(** Marking chain by chain. *)
Lemma marked_chains ch k x :
  marked (flat_map ch (seqZ 0 k)) x <->
  hdrblob x \/ exists j e, 0 <= j < k /\ e ∈ ch j /\ ext e x.
Proof.
  unfold marked. setoid_rewrite list_elem_of_In. setoid_rewrite in_flat_map.
  setoid_rewrite <- list_elem_of_In. setoid_rewrite elem_of_seqZ. naive_solver.
Qed.

Lemma marked_chains_next ch k x :
  0 <= k -> marked (flat_map ch (seqZ 0 k) ++ ch k) x <-> marked (flat_map ch (seqZ 0 (k + 1))) x.
Proof.
  intros Hk. unfold marked. rewrite (seqZ_app 0 k 1) by lia.
  rewrite flat_map_app. replace (seqZ (0 + k) 1) with [k]; [cbn [flat_map]; now rewrite app_nil_r|].
  rewrite seqZ_cons, seqZ_nil by lia. done.
Qed.

(** One step of the check, on the bytes of an entry. *)
Lemma check_entry_ent d pg i e m f :
  1 <= pg <= 128 -> zlen d = 2048 * pg -> ent_ok pg e -> ent_at d e -> DIR_Hash (e_name e) = i ->
  eamap m pg f ->
  exists m', check_entry d pg i (e_blob e, m) = Ret (inl (s16 (nxt d (e_blob e)), m')) /\
    eamap m' pg (fun x => f x \/ ext e x).
Proof.
  intros Hpg Hlen Hok Hat Hh Hm. pose proof (ent_geometry pg e Hok) as (Hnb & Hb & Hb2 & _ & Hn).
  unfold check_entry, dir_GetBlob. dirconst. destruct (Z.eqb_spec (e_blob e) 0); [lia|].
  destruct (Z.ltb_spec (e_blob e) 0); [lia|]. destruct (Z.ltb_spec (pg * 64) (e_blob e)); [lia|].
  destruct (Z.leb_spec (e_blob e) 0); [lia|]. destruct (Z.ltb_spec (64 * 128) (e_blob e)); [lia|].
  cbn [orb]. rewrite ld8s_ok by lia. cbn [rbind]. replace (e_blob e * 32 + 0) with (32 * e_blob e) by lia.
  rewrite (ea_flag _ _ Hat). change (s8 1 =? FFIRST) with true. cbn [negb].
  replace (e_blob e * 32) with (32 * e_blob e) by lia.
  assert (ep_name d (32 * e_blob e) = Ret (e_name e)) as -> by (apply cstr_ok; [apply Hok|apply Hat]).
  cbn [rbind]. destruct (eo_name _ _ Hok) as [_ Hz]. unfold CODA_MAXNAMLEN.
  destruct (Z.ltb_spec 255 (zlen (e_name e))); [lia|]. destruct (Z.eqb_spec (zlen (e_name e)) 0); [lia|].
  destruct (eaMap_mark_spec m pg _ e ltac:(lia) Hm Hok) as (m2 & E & Hm2).
  unfold e_nb in E. rewrite E. cbn [rbind]. rewrite Hh, Z.eqb_refl. cbn [negb].
  unfold ep_next. dirconst. rewrite ld16_ok by lia. cbn [rbind]. exists m2. done.
Qed.

Section Check.
Context (d : list Z) (pg : Z) (ch : Z -> list ent) (HI : dir_inv d pg ch).

Lemma eamap_equiv m f g : eamap m pg f -> (forall x, f x <-> g x) -> eamap m pg g.
Proof. intros [Hb Hl Hf] H. split; [done|done|]. intros x Hx. rewrite <- H. auto. Qed.

Lemma check_chain_spec i m pre :
  0 <= i < 128 -> eamap m pg (marked pre) ->
  exists m', check_chain d pg i m = Ret (Some m') /\ eamap m' pg (marked (pre ++ ch i)).
Proof using HI.
  intros Hi Hm. unfold check_chain. dirconst. rewrite (load_head d pg ch HI) by done. cbn [rbind].
  pose proof (ai_pg _ _ _ (di_alloc _ _ _ HI)) as Hpg.
  apply (while_chain_inv d (fun n m => (s16 n, m)) _ (fun l m => eamap m pg (marked l)) Some); try done.
  - intros e m1 pre1 He Hm1. assert (all_ents ch e) as Ha by (exists i; done).
    pose proof (ent_bounds d pg ch e HI Ha) as (_ & Hlen & Hok & Hat & Hnb & Hb & Hb2 & _ & Hn).
    rewrite (swrap_small 16 (e_blob e)) by lia.
    destruct (check_entry_ent d pg i e m1 (marked pre1)) as (m2 & E & Hm2); try done.
    { apply (ci_hash _ _ _ (di_chain _ _ _ HI)); done. }
    exists m2. split; [exact E|]. eapply eamap_equiv; [exact Hm2|]. intros x. apply marked_snoc.
  - eapply chain_length; [apply HI|lia|done].
  - apply (ci_linked _ _ _ (di_chain _ _ _ HI)). done.
Qed.

Lemma check_chains_spec m :
  eamap m pg hdrblob -> exists m', check_chains d pg m = Ret (Some m') /\ eamap m' pg (owned ch).
Proof using HI.
  intros Hm. unfold check_chains.
  match goal with |- context [for_range 0 NHASH ?b m] => set (body := b) end.
  destruct (for_range_total (R := unit) (fun i m' => eamap m' pg
    (marked (flat_map ch (seqZ 0 i)))) 0 NHASH body m) as (m' & -> & Hm').
  - dirconst. lia.
  - eapply eamap_equiv; [exact Hm|]. intros x. rewrite marked_chains. split; [tauto|].
    intros [?|(j & e & ? & _)]; [done|lia].
  - intros k m1 Hk Hm1. unfold body. dirconst.
    destruct (check_chain_spec k m1 (flat_map ch (seqZ 0 k)) Hk Hm1) as (m2 & -> & Hm2).
    cbn [rbind]. exists m2. split; [done|]. eapply eamap_equiv; [exact Hm2|]. intros x.
    apply marked_chains_next. lia.
  - exists m'. split; [done|]. eapply eamap_equiv; [exact Hm'|]. intros x. rewrite marked_chains.
    apply owned_chains.
Qed.

Lemma map_matches m i j :
  eamap m pg (owned ch) -> 0 <= i < pg -> 0 <= j < 8 -> getb m (i * 8 + j) = getb d (i * 2048 + 5 + j).
Proof using HI.
  intros Hm Hi Hj. pose proof (is_byte_getb m (i * 8 + j) (em_bytes _ _ _ Hm)) as B1.
  pose proof (is_byte_getb d (i * 2048 + 5 + j) (ai_bytes _ _ _ (di_alloc _ _ _ HI))) as B2.
  unfold is_byte in *. apply (bits_ext 8); [lia..|]. intros k Hk.
  pose proof (em_bits _ _ _ Hm (64 * i + (8 * j + k)) ltac:(lia)) as H1.
  pose proof (ai_used _ _ _ (di_alloc _ _ _ HI) (64 * i + (8 * j + k)) ltac:(lia)) as H2.
  rewrite used_bitat in H2 by lia. unfold bitat in H1, H2.
  replace (0 + (64 * i + (8 * j + k)) / 8) with (i * 8 + j) in H1 by zdm.
  replace ((64 * i + (8 * j + k)) mod 8) with k in H1 by zdm.
  replace (i * 2048 + 5 + (8 * j + k) / 8) with (i * 2048 + 5 + j) in H2 by zdm.
  replace ((8 * j + k) mod 8) with k in H2 by zdm.
  destruct (Z.testbit (getb m _) k), (Z.testbit (getb d _) k); intuition.
Qed.

Lemma DirOK_spec : DIR_DirOK (Some d) = Ret 1.
Proof using HI.
  pose proof (di_alloc _ _ _ HI) as Ha. pose proof (ai_pg _ _ _ Ha) as Hpg. pose proof (ai_len _ _ _ Ha) as Hl.
  assert (forall p, 0 <= p < pg -> 0 <= getb d (32 + p) <= 64 - hdr p) as Hallo.
  { intros p Hp. rewrite (ai_allo _ _ _ Ha) by done. pose proof (ai_free_hdr _ _ _ p Ha Hp).
    pose proof (page_free_bound d p). lia. }
  unfold DIR_DirOK. dirconst. rewrite ld32_ok by lia. cbn [rbind].
  pose proof (ai_tag _ _ _ Ha 0 ltac:(lia)) as Ht. change (2048 * 0) with 0 in Ht. rewrite Ht. change (1234 =? 1234) with true. cbn [negb].
  rewrite ld8s_ok by lia. cbn [rbind]. pose proof (Hallo 0 ltac:(lia)) as H0.
  change (32 + 0) with 32 in H0. change (64 - hdr 0) with 51 in H0.
  rewrite s8_small by lia. destruct (Z.ltb_spec (getb d 32) 0); [lia|].
  destruct (Z.ltb_spec (64 - 12 - 1) (getb d 32)); [lia|]. cbn [orb].
  rewrite (ai_DIR_Length _ _ _ Ha). cbn [rbind].
  replace (Z.quot (2048 * pg) 2048) with pg by (rewrite Z.mul_comm, Z.quot_mul; lia).
  assert (forall i, 0 <= i -> DIR_Page i = Ret (i * 2048)) as HP.
  { intros i Hi. unfold DIR_Page, cassert. destruct (Z.leb_spec 0 i); [done|lia]. }
  rewrite all_pages_true; [cbn [rbind negb]|lia|].
  2: { intros i Hi. rewrite ld8s_ok by lia. cbn [rbind]. pose proof (Hallo i ltac:(lia)) as Hx.
       unfold hdr in Hx. destruct (Z.eqb_spec i 0); [lia|]. rewrite s8_small by lia.
       destruct (Z.ltb_spec (getb d (32 + i)) 0), (Z.ltb_spec (64 - 1) (getb d (32 + i))); done || lia. }
  rewrite all_pages_true; [cbn [rbind negb]|lia|].
  2: { intros i Hi. rewrite ld8s_ok by lia. cbn [rbind]. now rewrite (ai_unalloc _ _ _ Ha) by lia. }
  rewrite all_pages_true; [cbn [rbind negb]|lia|].
  2: { intros i Hi. rewrite HP by lia. cbn [rbind]. rewrite ld32_ok by lia. cbn [rbind].
       replace (i * 2048 + 0) with (2048 * i) by lia. now rewrite (ai_tag _ _ _ Ha) by lia. }
  rewrite all_pages_true; [cbn [rbind negb]|lia|].
  2: { intros i Hi. rewrite HP by lia. cbn [rbind]. rewrite bitmap_free_spec by lia. cbn [rbind].
       rewrite ld8s_ok by lia. cbn [rbind]. rewrite (ai_allo _ _ _ Ha) by lia.
       pose proof (page_free_bound d i). rewrite s8_small by lia. now rewrite Z.eqb_refl. }
  destruct (eaMap_init_spec pg Hpg) as (m & -> & Hm). cbn [rbind].
  destruct (check_chains_spec m Hm) as (m' & -> & Hm'). cbn [rbind].
  rewrite all_pages_true; [done|lia|]. intros i Hi. rewrite HP by lia. cbn [rbind].
  apply all_pages_true; [change (64 / 8) with 8; lia|]. change (64 / 8) with 8. intros j Hj.
  pose proof (em_len _ _ _ Hm'). rewrite ld8s_ok by lia. cbn [rbind]. rewrite ld8s_ok by lia. cbn [rbind].
  rewrite (map_matches m' i j) by done. now rewrite Z.eqb_refl.
Qed.
End Check.
