(* ===== verification/DirOps.v ===== *)
(** * Changing a directory

    [DIR_Create], [DIR_Delete] and [DIR_MakeDir] keep [dir_inv] and change the
    chains as their names say. *)

From Stdlib Require Import ZArith Lia.
From stdpp Require Import base list numbers.
From S2P Require Import Prelude DirBody DirAlloc DirInv DirRead DirCheck.
Open Scope Z_scope.

Definition upd (ch : Z -> list ent) (i : Z) (l : list ent) : Z -> list ent :=
  fun j => if decide (j = i) then l else ch j.

Lemma upd_eq ch i l : upd ch i l i = l.
Proof. unfold upd. now rewrite decide_True. Qed.
Lemma upd_ne ch i l j : j <> i -> upd ch i l j = ch j.
Proof. intros. unfold upd. now rewrite decide_False. Qed.

Lemma all_ents_cons ch i e : 0 <= i < 128 ->
  forall x, all_ents (upd ch i (e :: ch i)) x <-> x = e \/ all_ents ch x.
Proof.
  intros Hi x. split.
  - intros (j & Hj & Hx). unfold upd in Hx. case_decide as E; [subst j|right; exists j; done].
    apply elem_of_cons in Hx as [->|Hx]; [by left|]. right. exists i. done.
  - intros [->|(j & Hj & Hx)].
    + exists i. split; [done|]. rewrite upd_eq. left.
    + exists j. split; [done|]. unfold upd. case_decide as E; [subst j; by right|done].
Qed.

Lemma owned_cons ch i e b : 0 <= i < 128 ->
  owned (upd ch i (e :: ch i)) b <-> owned ch b \/ ext e b.
Proof.
  intros Hi. unfold owned. setoid_rewrite all_ents_cons; [|done]. split.
  - intros [?|(x & [->|Hx] & Hb)]; [tauto..|]. left. right. exists x. done.
  - intros [[?|(x & Hx & Hb)]|?]; [tauto| |]; right; [exists x|exists e]; tauto.
Qed.

(** ** Storing an entry *)

(** Offsets a new entry in blobs [b, b+n) of chain [i] may change. *)
Definition entry_area (b n i o : Z) : Prop :=
  32 * b <= o < 32 * (b + n) \/ 160 + 2 * i <= o < 162 + 2 * i.

Definition entry_stores (dir : list Z) (ep : Z) (entry : list Z) (fid : DirFid) (firstblob : Z)
  : res (list Z) :=
  let* dir := st8 dir (ep + DE_FLAG) FFIRST in
  let* dir := fid_Fid2NFid dir fid ep in
  let* dir := ststr dir (ep + DE_NAME) entry in
  let i := DIR_Hash entry in
  let* h := ld16 dir (DH_HASHTABLE + 2 * i) in
  let* dir := st16 dir (ep + DE_NEXT) h in
  st16 dir (DH_HASHTABLE + 2 * i) firstblob.

Lemma entry_stores_spec d pg e :
  is_bytes d -> 1 <= pg <= 128 -> zlen d = 2048 * pg -> ent_ok pg e ->
  let i := DIR_Hash (e_name e) in
  exists d', entry_stores d (32 * e_blob e) (e_name e) (e_fid e) (e_blob e) = Ret d' /\
    is_bytes d' /\ zlen d' = zlen d /\
    (forall o, 0 <= o -> ~ entry_area (e_blob e) (e_nb e) i o -> getb d' o = getb d o) /\
    ent_at d' e /\ nxt d' (e_blob e) = get16 d (160 + 2 * i) /\ get16 d' (160 + 2 * i) = e_blob e.
Proof.
  intros Hb Hpg Hl Hok i. pose proof (DIR_Hash_range (e_name e)) as Hi. fold i in Hi.
  pose proof (ent_geometry pg e Hok) as (Hnb & Hblob & Hbn & H416 & Hfit).
  pose proof (eo_fid _ _ Hok) as [Hfv Hfu]. pose proof (eo_name _ _ Hok) as [Hcs Hz].
  unfold entry_stores, fid_Fid2NFid, ststr. fold i. dirconst.
  set (b := e_blob e) in *. set (nm := e_name e ++ [0]).
  assert (zlen nm = zlen (e_name e) + 1) as Lnm by (unfold nm; rewrite zlen_app; done).
  assert (forall v : Z, zlen [u8 v] = 1) as L1 by reflexivity.
  assert (forall v : Z, zlen (be16 v) = 2) as L2 by reflexivity.
  assert (forall v : Z, zlen (be32 v) = 4) as L4 by reflexivity.
  rewrite st8_ok by lia. cbn [rbind]. set (d1 := putbs d (32 * b + 0) [u8 FFIRST]).
  assert (zlen d1 = zlen d) as Hl1 by (unfold d1; rewrite zlen_putbs; rewrite ?L1; lia).
  rewrite st32_ok by lia. cbn [rbind]. set (d2 := putbs d1 (32 * b + 4) (be32 (df_vnode (e_fid e)))).
  assert (zlen d2 = zlen d) as Hl2 by (unfold d2; rewrite zlen_putbs; rewrite ?L4; lia).
  rewrite st32_ok by lia. cbn [rbind]. set (d3 := putbs d2 (32 * b + 8) (be32 (df_unique (e_fid e)))).
  assert (zlen d3 = zlen d) as Hl3 by (unfold d3; rewrite zlen_putbs; rewrite ?L4; lia).
  rewrite stbytes_ok by lia. cbn [rbind]. set (d4 := putbs d3 (32 * b + 12) nm).
  assert (zlen d4 = zlen d) as Hl4 by (unfold d4; rewrite zlen_putbs; lia).
  rewrite ld16_ok by lia. cbn [rbind]. rewrite st16_ok by lia. cbn [rbind].
  set (d5 := putbs d4 (32 * b + 2) (be16 (get16 d4 (160 + 2 * i)))).
  assert (zlen d5 = zlen d) as Hl5 by (unfold d5; rewrite zlen_putbs; rewrite ?L2; lia).
  rewrite st16_ok by lia. eexists. split; [reflexivity|]. set (d6 := putbs d5 (160 + 2 * i) (be16 b)).
  assert (zlen d6 = zlen d) as Hl6 by (unfold d6; rewrite zlen_putbs; rewrite ?L2; lia).
  assert (agree d6 d5 416 (zlen d)) as A6 by (apply agree_putbs; rewrite ?L2; lia).
  assert (agree d5 d4 (32 * b + 4) (zlen d)) as A5 by (apply agree_putbs; rewrite ?L2; lia).
  assert (agree d5 d4 0 (32 * b + 2)) as A5' by (apply agree_putbs; rewrite ?L2; lia).
  assert (agree d4 d3 0 (32 * b + 12)) as A4 by (apply agree_putbs; lia).
  assert (agree d3 d2 0 (32 * b + 8)) as A3 by (apply agree_putbs; rewrite ?L4; lia).
  assert (agree d2 d1 0 (32 * b + 4)) as A2 by (apply agree_putbs; rewrite ?L4; lia).
  assert (agree d1 d 0 (32 * b)) as A1 by (apply agree_putbs; rewrite ?L1; lia).
  assert (is_bytes d4) as Hb4.
  { unfold d4, d3, d2, d1. repeat apply is_bytes_putbs;
      try apply is_bytes_u8; try apply is_bytes_be32; try done.
    now apply is_cstring_bytes. }
  split; [apply is_bytes_putbs; [apply is_bytes_putbs; [done|]|]; apply is_bytes_be16|].
  split; [done|]. split; [|split; [split|split]].
  - intros o Ho Hna. unfold entry_area in Hna. unfold d6, d5, d4, d3, d2, d1.
    rewrite !getb_putbs_old; rewrite ?L1, ?L2, ?L4; fold d1; fold d2; fold d3; fold d4; fold d5; lia || done.
  - fold b. rewrite A6, A5', A4, A3, A2 by lia. unfold d1.
    rewrite getb_putbs_new by (rewrite ?L1; lia). now replace (32 * b - (32 * b + 0)) with 0 by lia.
  - fold b. rewrite (agree_get32 _ _ _ _ _ A6), (agree_get32 _ _ _ _ _ A5), (agree_get32 _ _ _ _ _ A4),
      (agree_get32 _ _ _ _ _ A3) by lia. unfold d2. apply get32_putbs; lia.
  - fold b. rewrite (agree_get32 _ _ _ _ _ A6), (agree_get32 _ _ _ _ _ A5), (agree_get32 _ _ _ _ _ A4) by lia.
    unfold d3. apply get32_putbs; lia.
  - fold b. fold nm. apply (mem_at_agree d4); [apply mem_at_putbs; lia|lia|].
    intros o Ho. rewrite A6, A5 by lia. done.
  - unfold nxt. fold b. rewrite (agree_get16 _ _ _ _ _ A6) by lia. unfold d5.
    rewrite get16_putbs; [|lia|lia|apply get16_bound; done].
    rewrite (agree_get16 _ _ _ _ _ A4), (agree_get16 _ _ _ _ _ A3), (agree_get16 _ _ _ _ _ A2),
      (agree_get16 _ _ _ _ _ A1) by lia. done.
  - unfold d6. apply get16_putbs; lia.
Qed.

(** ** Adding an entry to the chains *)
Section Insert.
Context (d d' : list Z) (pg : Z) (ch : Z -> list ent) (e : ent).
Let i := DIR_Hash (e_name e).
Context (Hpg : 1 <= pg) (HC : chain_inv d pg ch) (Hok : ent_ok pg e) (Hat : ent_at d' e) (Hl : zlen d' = zlen d).
Context (Hdisj : forall x, ext e x -> ~ owned ch x).
Context (Hname : forall e', all_ents ch e' -> e_name e' <> e_name e).
Context (Hout : forall o, 0 <= o -> ~ entry_area (e_blob e) (e_nb e) i o -> getb d' o = getb d o).
Context (Hnxt : nxt d' (e_blob e) = get16 d (160 + 2 * i)) (Hhead : get16 d' (160 + 2 * i) = e_blob e).

(** The blobs of the other entries are not written. *)
Lemma other_entry e' o : all_ents ch e' ->
  32 * e_blob e' <= o < 32 * (e_blob e' + e_nb e') -> getb d' o = getb d o.
Proof using All.
  intros He' Ho. pose proof (DIR_Hash_range (e_name e)) as Hi. fold i in Hi. dirconst.
  pose proof (ent_not_alloc pg e' (ci_ok _ _ _ HC e' He') o Ho) as [_ Ho416].
  apply Hout; [lia|]. unfold entry_area. intros [Hx|Hx]; [|lia].
  apply (Hdisj (o / 32)); [unfold ext, in_run; zdm|]. right. exists e'. split; [done|]. unfold ext, in_run. zdm.
Qed.

Lemma insert_new x : all_ents ch x -> x <> e.
Proof using All. intros Hx ->. exact (Hname _ Hx eq_refl). Qed.

Lemma chain_insert : chain_inv d' pg (upd ch i (e :: ch i)).
Proof using All.
  pose proof (DIR_Hash_range (e_name e)) as Hi. fold i in Hi. dirconst.
  assert (forall e', all_ents ch e' -> nxt d' (e_blob e') = nxt d (e_blob e')) as Hn.
  { intros e' He'. pose proof (ent_geometry pg e' (ci_ok _ _ _ HC e' He')). unfold nxt, get16.
    rewrite !(other_entry e') by (done || lia). done. }
  assert (forall h j, 0 <= j < 128 -> linked d h (ch j) -> linked d' h (ch j)) as Hlk.
  { intros h j Hj. apply linked_ext. intros e' He'. apply Hn. exists j. done. }
  pose proof (ent_geometry pg e Hok) as Hge.
  split.
  - intros j Hj. destruct (decide (j = i)) as [->|Hne].
    + rewrite upd_eq, Hhead. cbn. split; [done|]. rewrite Hnxt. apply Hlk; [done|].
      apply (ci_linked _ _ _ HC). done.
    + rewrite upd_ne by done. replace (get16 d' (160 + 2 * j)) with (get16 d (160 + 2 * j)).
      * apply Hlk; [done|]. apply (ci_linked _ _ _ HC). done.
      * unfold get16. rewrite !Hout by (unfold entry_area; lia). done.
  - intros x Hx. apply all_ents_cons in Hx as [->|Hx]; [done| |done]. apply (ci_ok _ _ _ HC). done.
  - intros x Hx. apply all_ents_cons in Hx as [->|Hx]; [done| |done].
    apply (ent_at_agree pg d); [apply (ci_ok _ _ _ HC); done|apply (ci_at _ _ _ HC); done|lia| |].
    + apply (other_entry x); [done|]. pose proof (ent_geometry pg x (ci_ok _ _ _ HC x Hx)). lia.
    + intros o Ho. apply (other_entry x); [done|lia].
  - intros j x Hj. unfold upd. case_decide as E; [subst j|apply (ci_hash _ _ _ HC); done].
    intros [->|Hx]%elem_of_cons; [done|apply (ci_hash _ _ _ HC); done].
  - intros x x' b Hx Hx' Hb Hb'. apply all_ents_cons in Hx, Hx'; [|done..].
    destruct Hx as [->|Hx], Hx' as [->|Hx']; [done| | |].
    + destruct (Hdisj b Hb). right. exists x'. done.
    + destruct (Hdisj b Hb'). right. exists x. done.
    + eapply (ci_disj _ _ _ HC); done.
  - intros j Hj. unfold upd. case_decide as E; [subst j|apply (ci_nodup _ _ _ HC); done].
    constructor; [|apply (ci_nodup _ _ _ HC); done]. intros Hx. eapply (insert_new e); [exists i; done|done].
  - intros x x' Hx Hx' En. apply all_ents_cons in Hx, Hx'; [|done..].
    destruct Hx as [->|Hx], Hx' as [->|Hx']; [done| | |].
    + destruct (Hname x' Hx'). done.
    + destruct (Hname x Hx). done.
    + eapply (ci_names _ _ _ HC); done.
Qed.
End Insert.

(** ** Where an entry is found *)
Fixpoint last_ptr (l : list ent) (lp : option Z) : option Z :=
  match l with [] => lp | x :: l' => last_ptr l' (Some (32 * e_blob x)) end.

Lemma find_pure_none name l lp :
  find_pure name l lp = None <-> forall e, e ∈ l -> e_name e <> name.
Proof.
  revert lp. induction l as [|e l IH]; intros lp; cbn.
  - split; [intros _ e He; inversion He|done].
  - case_decide as Hd.
    + split; [done|]. intros H. destruct (H e ltac:(left)). done.
    + rewrite IH. split; intros H x; [intros [->|Hx]%elem_of_cons; [congruence|auto]|].
      intros Hx. apply H. by right.
Qed.

Lemma find_pure_some name l lp r :
  find_pure name l lp = Some r ->
  exists l1 e l2, l = l1 ++ e :: l2 /\ e_name e = name /\
    r = mkFind (32 * e_blob e) (last_ptr l1 lp) (e_blob e).
Proof.
  revert lp. induction l as [|e l IH]; intros lp; cbn; [done|]. case_decide as Hd.
  - intros [= <-]. exists [], e, l. done.
  - intros H. destruct (IH _ H) as (l1 & x & l2 & -> & Hx & ->). exists (e :: l1), x, l2.
    done.
Qed.

(** ** [DIR_Create] *)
Definition trans_ok (env : DirEnv) : Prop := dir_data_in_rvm env = true -> in_transaction env = true.

Lemma check_trans_ok env : trans_ok env ->
  (if dir_data_in_rvm env then DIR_check_trans env else Ret tt) = Ret tt.
Proof.
  unfold trans_ok, DIR_check_trans. destruct (dir_data_in_rvm env); [|done]. intros ->; done.
Qed.

Lemma owned_beyond d pg ch b :
  dir_inv d pg ch -> 64 * pg <= b -> owned ch b <-> hdrblob b.
Proof.
  intros HI Hb. unfold owned. split; [|tauto]. intros [?|(e & He & Hx)]; [done|].
  pose proof (ent_bounds d pg ch e HI He). unfold ext, in_run in Hx. lia.
Qed.

(** The blobs the allocator reserved and the stores of the entry give the directory
    with one more entry. *)
Lemma create_stores d d1 pg pg' ch e :
  dir_inv d pg ch -> valid_name (e_name e) -> valid_fid (e_fid e) ->
  (forall e', all_ents ch e' -> e_name e' <> e_name e) ->
  reserved d d1 pg pg' (owned ch) (e_blob e) (e_nb e) ->
  exists d', entry_stores d1 (32 * e_blob e) (e_name e) (e_fid e) (e_blob e) = Ret d' /\
    dir_inv d' pg' (upd ch (DIR_Hash (e_name e)) (e :: ch (DIR_Hash (e_name e)))).
Proof.
  intros HI Hn Hf Hnew [Ha Hfree (Hb0 & Hbp & Hbh & Hbf) Hgrow Honly Hlen].
  pose proof (ai_pg _ _ _ (di_alloc _ _ _ HI)) as Hpg. pose proof (ai_len _ _ _ (di_alloc _ _ _ HI)) as Hzd.
  pose proof (ai_pg _ _ _ Ha) as Hpg'. pose proof (ai_len _ _ _ Ha) as Hzd1.
  pose proof (DIR_Hash_range (e_name e)) as Hi. set (i := DIR_Hash (e_name e)) in *.
  assert (ent_ok pg' e) as Hok by (split; done).
  assert (chain_inv d1 pg' ch) as HC by (eapply chain_inv_only_alloc; [apply HI|..]; try done; lia).
  destruct (entry_stores_spec d1 pg' e (ai_bytes _ _ _ Ha) Hpg' Hzd1 Hok) as (d' & E & Hby & Hz & Hout & Hat & Hnx & Hhd).
  fold i in Hout, Hnx, Hhd. exists d'. split; [done|]. dirconst. split.
  - eapply alloc_inv_equiv; [|intros b _; symmetry; apply owned_cons; done].
    apply (alloc_inv_frame d1); [done..|]. intros o Ho Hal. apply Hout; [lia|].
    unfold entry_area. intros [Hx|Hx]; [|unfold alloc_area in Hal; rewrite Z.mod_small in Hal; lia].
    destruct (ent_not_alloc pg' e Hok o Hx). tauto.
  - apply (chain_insert d1); try done; lia.
Qed.

Section Create.
Context (env : DirEnv) (d : list Z) (pg : Z) (ch : Z -> list ent) (name : list Z) (fid : DirFid).
Context (HI : dir_inv d pg ch) (Hn : valid_name name) (Hf : valid_fid fid) (Ht : trans_ok env).
Context (Hal : pg < 128 -> (forall p, 0 <= p < pg -> ~ page_has_run d p (dir_NameBlobs name)) ->
               alloc_ok env (2048 * (pg + 1)) = true).
Let i := DIR_Hash name.

Lemma Create_exists e : all_ents ch e -> e_name e = name ->
  DIR_Create env (Some d) (Some name) (Some fid) = Ret (EEXIST, Some d).
Proof using HI Hn Ht.
  intros (j & Hj & He) En. unfold DIR_Create. rewrite check_trans_ok by done. cbn [rbind].
  destruct Hn as [_ Hz]. unfold CODA_MAXNAMLEN. destruct (Z.ltb_spec 255 (zlen name)); [lia|].
  destruct (Z.eqb_spec (zlen name) 0); [lia|]. rewrite (FindItem_spec d pg ch HI). cbn [rbind].
  pose proof (ci_hash _ _ _ (di_chain _ _ _ HI) j e Hj He) as Hh. rewrite En in Hh. rewrite Hh.
  destruct (find_pure name (ch j) None) eqn:E; [done|].
  rewrite find_pure_none in E. destruct (E e He En).
Qed.

Lemma Create_new : (forall e, all_ents ch e -> e_name e <> name) ->
  (DIR_Create env (Some d) (Some name) (Some fid) = Ret (EFBIG, Some d) /\ pg = 128 /\
     forall p, 0 <= p < pg -> ~ page_has_run d p (dir_NameBlobs name)) \/
  (exists b d' pg', DIR_Create env (Some d) (Some name) (Some fid) = Ret (0, Some d') /\
     dir_inv d' pg' (upd ch i (mkEnt b name fid :: ch i)) /\
     (pg' = pg /\ page_has_run d (b / 64) (dir_NameBlobs name) \/ pg' = pg + 1 /\ pg < 128 /\
       forall p, 0 <= p < pg -> ~ page_has_run d p (dir_NameBlobs name))).
Proof using HI Hn Hf Ht Hal.
  intros Hnew. pose proof Hn as [_ Hz]. pose proof (DIR_Hash_range name) as Hi. unfold NHASH in Hi.
  assert (DIR_Create env (Some d) (Some name) (Some fid) =
    let* (firstblob, dir) := dir_FindBlobs env d (dir_NameBlobs name) in
    if firstblob <? 0 then Ret (EFBIG, Some dir) else
    match dir_GetBlob (Some dir) firstblob with
    | None => Ret (EIO, Some dir)
    | Some ep => let* dir := entry_stores dir ep name fid firstblob in
        let* _ := DIR_DirOK (Some dir) in Ret (0, Some dir)
    end) as ->.
  { unfold DIR_Create. rewrite check_trans_ok by done. cbn [rbind].
    unfold CODA_MAXNAMLEN. destruct (Z.ltb_spec 255 (zlen name)); [lia|].
    destruct (Z.eqb_spec (zlen name) 0); [lia|]. rewrite (FindItem_spec d pg ch HI). cbn [rbind].
    replace (find_pure name (ch (DIR_Hash name)) None) with (@None FindRes).
    2:{ symmetry. apply find_pure_none. intros e He. apply Hnew. exists (DIR_Hash name). done. }
    cbn [rbind]. destruct (dir_FindBlobs _ _ _) as [[b d1]|]; [|done]. cbn [rbind].
    destruct (b <? 0); [done|]. destruct (dir_GetBlob _ _) as [ep|]; [|done]. unfold entry_stores.
    destruct (st8 _ _ _); [cbn [rbind]|done]. destruct (fid_Fid2NFid _ _ _); [cbn [rbind]|done].
    destruct (ststr _ _ _); [cbn [rbind]|done]. destruct (ld16 _ _); [cbn [rbind]|done].
    destruct (st16 _ _ _); done. }
  destruct (dir_FindBlobs_spec env d pg (owned ch) (dir_NameBlobs name)) as [(-> & H128 & Hno)|(b & d1 & pg' & -> & Hr)].
  - apply HI.
  - pose proof (NameBlobs_bound name). lia.
  - done.
  - intros b Hb. eapply owned_beyond; done.
  - left. cbn. done.
  - right. exists b. set (e := mkEnt b name fid) in *.
    destruct (create_stores d d1 pg pg' ch e HI Hn Hf Hnew Hr) as (d' & E & HI').
    exists d', pg'. cbn [rbind e_blob e_name e_fid e] in *. destruct Hr as [Ha _ (? & ? & ? & ?) Hg _ _].
    pose proof (ai_pg _ _ _ Ha).
    destruct (Z.ltb_spec b 0); [lia|].
    assert (1 <= b <= 8191) as Hbr by (unfold hdr in *; destruct (Z.eqb_spec (b / 64) 0); zdm).
    unfold dir_GetBlob. dirconst. destruct (Z.leb_spec b 0); [lia|]. destruct (Z.ltb_spec (64 * 128) b); [lia|].
    cbn [orb]. replace (b * 32) with (32 * b) by lia. rewrite E. cbn [rbind].
    rewrite (DirOK_spec d' pg' _ HI'). cbn [rbind]. done.
Qed.
End Create.

(** ** Taking an entry out of its chain *)

(** [linked] up to a given blob. *)
Fixpoint path (d : list Z) (h : Z) (l : list ent) (fin : Z) : Prop :=
  match l with
  | [] => h = fin
  | e :: l' => h = e_blob e /\ path d (nxt d (e_blob e)) l' fin
  end.

Lemma linked_app d h l1 l2 : linked d h (l1 ++ l2) <-> exists m, path d h l1 m /\ linked d m l2.
Proof.
  revert h. induction l1 as [|e l1 IH]; intros h; cbn.
  - split; [eauto|]. intros (m & -> & ?). done.
  - rewrite IH. split; [intros (-> & m & ? & ?); eauto|]. intros (m & (-> & ?) & ?). eauto.
Qed.

Lemma last_ptr_snoc l x lp : last_ptr (l ++ [x]) lp = Some (32 * e_blob x).
Proof. revert lp. induction l as [|y l IH]; intros lp; cbn; [done|apply IH]. Qed.

(** Offset of the link [DIR_Delete] overwrites. *)
Definition link_slot (i : Z) (lp : option Z) : Z :=
  match lp with Some o => o + 2 | None => 160 + 2 * i end.

Lemma upd_app_ents ch i l1 e l2 x : 0 <= i < 128 -> ch i = l1 ++ e :: l2 ->
  all_ents ch x <-> x = e \/ all_ents (upd ch i (l1 ++ l2)) x.
Proof.
  intros Hi Hch. split.
  - intros (j & Hj & Hx). destruct (decide (j = i)) as [->|Hne].
    + rewrite Hch in Hx. apply elem_of_app in Hx as [Hx|[->|Hx]%elem_of_cons]; [right|by left|right];
        (exists i; split; [done|]; rewrite upd_eq; apply elem_of_app; tauto).
    + right. exists j. rewrite upd_ne; done.
  - intros [->|(j & Hj & Hx)].
    + exists i. split; [done|]. rewrite Hch. apply elem_of_app. right. left.
    + exists j. split; [done|]. unfold upd in Hx. case_decide as E; [subst j|done].
      rewrite Hch. apply elem_of_app in Hx. apply elem_of_app. rewrite elem_of_cons. tauto.
Qed.

Lemma path_unlink d d1 l x h m n :
  (forall y, y ∈ l -> nxt d1 (e_blob y) = nxt d (e_blob y)) -> nxt d1 (e_blob x) = n ->
  path d h (l ++ [x]) m -> path d1 h (l ++ [x]) n.
Proof.
  revert h. induction l as [|y l IH]; intros h Hn Hx; cbn.
  - intros [-> _]. done.
  - intros [-> Hp]. split; [done|]. rewrite Hn by left. apply IH; [|done..]. intros z Hz. apply Hn. by right.
Qed.

Section Unlink.
Context (d : list Z) (pg : Z) (ch : Z -> list ent) (HI : dir_inv d pg ch).
Context (i : Z) (l1 l2 : list ent) (e : ent) (Hi : 0 <= i < 128) (Hch : ch i = l1 ++ e :: l2).
Let slot := link_slot i (last_ptr l1 None).
Let d1 := putbs d slot (be16 (nxt d (e_blob e))).
Let ch' := upd ch i (l1 ++ l2).

Lemma unlink_sub x : all_ents ch' x -> all_ents ch x.
Proof using All. intros Hx. eapply upd_app_ents; [done..|]. by right. Qed.

Lemma unlink_mem x : x ∈ l1 \/ x = e \/ x ∈ l2 -> all_ents ch x.
Proof using All.
  intros Hx. exists i. split; [done|]. rewrite Hch. apply elem_of_app. rewrite elem_of_cons. tauto.
Qed.

Lemma unlink_gone : ~ all_ents ch' e.
Proof using All.
  intros (j & Hj & Hx). pose proof (ci_nodup _ _ _ (di_chain _ _ _ HI) i Hi) as Hnd.
  rewrite Hch in Hnd. apply list.NoDup_app in Hnd as (_ & Hd & Hnd). apply list.NoDup_cons in Hnd as [Hne _].
  unfold ch', upd in Hx. case_decide as Ej.
  - apply elem_of_app in Hx as [Hx|Hx]; [|done]. apply (Hd e Hx). left.
  - apply Ej. rewrite <- (ci_hash _ _ _ (di_chain _ _ _ HI) j e Hj Hx).
    apply (ci_hash _ _ _ (di_chain _ _ _ HI)); [done|]. rewrite Hch. apply elem_of_app. right. left.
Qed.

(** The slot is the head of chain [i] or the [next] field of the entry before. *)
Lemma slot_cases :
  (l1 = [] /\ slot = 160 + 2 * i) \/
  (exists l0 x, l1 = l0 ++ [x] /\ all_ents ch x /\ slot = 32 * e_blob x + 2).
Proof using All.
  destruct l1 as [|x l0 _] eqn:E using rev_ind; [left; done|]. right. exists l0, x.
  split; [done|]. split.
  - exists i. split; [done|]. rewrite Hch. apply elem_of_app. left. apply elem_of_app. right. left.
  - unfold slot. rewrite last_ptr_snoc. done.
Qed.

Lemma slot_range : 160 <= slot /\ slot + 2 <= zlen d.
Proof using All.
  pose proof (ai_pg _ _ _ (di_alloc _ _ _ HI)). pose proof (ai_len _ _ _ (di_alloc _ _ _ HI)).
  destruct slot_cases as [[_ ->]|(l0 & x & _ & Hx & ->)]; [lia|].
  pose proof (ent_bounds d pg ch x HI Hx). lia.
Qed.

Lemma unlink_old o : 0 <= o -> ~ slot <= o < slot + 2 -> getb d1 o = getb d o.
Proof using All.
  intros Ho Hs. pose proof slot_range. unfold d1. apply getb_putbs_old; [lia| |done|];
    change (zlen (be16 (nxt d (e_blob e)))) with 2; lia.
Qed.

Lemma unlink_len : zlen d1 = zlen d.
Proof using All.
  pose proof slot_range. unfold d1. apply zlen_putbs; change (zlen (be16 (nxt d (e_blob e)))) with 2; lia.
Qed.

Lemma unlink_slot : get16 d1 slot = nxt d (e_blob e).
Proof using All.
  pose proof slot_range. unfold d1. apply get16_putbs; [lia..|]. eapply nxt_bound; done.
Qed.

(** Two entries that share a byte are the same. *)
Lemma same_entry x y o : all_ents ch x -> all_ents ch y ->
  32 * e_blob x <= o < 32 * (e_blob x + e_nb x) -> 32 * e_blob y <= o < 32 * (e_blob y + e_nb y) -> x = y.
Proof using All.
  intros Hx Hy Hox Hoy. apply (ci_disj _ _ _ (di_chain _ _ _ HI) x y (o / 32)); try done;
    unfold ext, in_run; zdm.
Qed.

Lemma unlink_nxt y : all_ents ch y -> slot <> 32 * e_blob y + 2 -> nxt d1 (e_blob y) = nxt d (e_blob y).
Proof using All.
  intros Hy Hs. pose proof (ent_bounds d pg ch y HI Hy) as Hby. unfold nxt, get16.
  destruct slot_cases as [[_ Es]|(l0 & x & _ & Hx & Es)].
  - rewrite !unlink_old by lia. done.
  - rewrite !unlink_old by lia. done.
Qed.

(** Nothing of an entry but its [next] field is written. *)
Lemma unlink_at y : all_ents ch y -> ent_at d1 y.
Proof using All.
  intros Hy. pose proof (ent_bounds d pg ch y HI Hy) as (_ & _ & Hok & Hat & Hby).
  assert (forall o, 32 * e_blob y <= o < 32 * (e_blob y + e_nb y) ->
    o <> 32 * e_blob y + 2 -> o <> 32 * e_blob y + 3 -> getb d1 o = getb d o) as Ho.
  { intros o Ho H2 H3. apply unlink_old; [lia|]. intros Hs.
    destruct slot_cases as [[_ Es]|(l0 & x & _ & Hx & Es)]; [lia|].
    pose proof (ent_bounds d pg ch x HI Hx) as (_ & _ & _ & _ & Hbx).
    assert (x = y) as -> by (apply (same_entry x y o); done || lia). lia. }
  apply (ent_at_agree pg d); [done|done| | |].
  - rewrite unlink_len. lia.
  - apply Ho; lia.
  - intros o Hoo. apply Ho; lia.
Qed.

Lemma unlink_linked : linked d1 (get16 d1 (160 + 2 * i)) (l1 ++ l2).
Proof using All.
  pose proof (ci_linked _ _ _ (di_chain _ _ _ HI) i Hi) as HL. rewrite Hch in HL.
  pose proof (ci_nodup _ _ _ (di_chain _ _ _ HI) i Hi) as Hnd. rewrite Hch in Hnd.
  assert (forall y, y ∈ l1 \/ y ∈ l2 -> all_ents ch y) as Hin by (intros; apply unlink_mem; tauto).
  pose proof (unlink_slot) as Hslot.
  assert (forall y, y ∈ l2 -> nxt d1 (e_blob y) = nxt d (e_blob y)) as H2.
  { intros y Hy. apply unlink_nxt; [auto|].
    destruct slot_cases as [[_ Es]|(l0 & x & El & Hx & Es)].
    - pose proof (ent_bounds d pg ch y HI ltac:(auto)). lia.
    - rewrite Es. intros Eb. apply list.NoDup_app in Hnd as (_ & Hd & _).
      assert (x = y) as ->.
      { apply (same_entry x y (32 * e_blob x)); try done; [auto|..];
          pose proof (ent_bounds d pg ch x HI Hx); pose proof (ent_bounds d pg ch y HI ltac:(auto)); lia. }
      apply (Hd y); [rewrite El; apply elem_of_app; right; left|by right]. }
  apply linked_app in HL as (m & Hp & -> & HL).
  destruct slot_cases as [[E1 Es]|(l0 & x & El & Hx & Es)].
  - rewrite E1 in Hp |- *. cbn [app]. rewrite <- Es, Hslot. apply (linked_ext d); done.
  - apply linked_app. exists (nxt d (e_blob e)). split; [|apply (linked_ext d); done].
    replace (get16 d1 (160 + 2 * i)) with (get16 d (160 + 2 * i)).
    + rewrite Es in Hslot. revert Hp. rewrite El. apply (path_unlink d d1); [|exact Hslot].
      intros y Hy. apply unlink_nxt; [apply Hin; left; rewrite El; apply elem_of_app; tauto|].
      intros Eb. rewrite El in Hnd. apply list.NoDup_app in Hnd as (Hnd & _).
      apply list.NoDup_app in Hnd as (_ & Hd & _). apply (Hd y Hy).
      assert (all_ents ch y) by (apply Hin; left; rewrite El; apply elem_of_app; tauto).
      assert (x = y) as ->; [|left].
      apply (same_entry x y (32 * e_blob x)); try done;
          pose proof (ent_bounds d pg ch x HI Hx); pose proof (ent_bounds d pg ch y HI ltac:(done)); lia.
    + pose proof (ent_bounds d pg ch x HI Hx). unfold get16. rewrite !unlink_old by lia. done.
Qed.

Lemma unlink_chain : chain_inv d1 pg ch'.
Proof using All.
  destruct HI as [_ HC]. split.
  - intros j Hj. destruct (decide (j = i)) as [->|Hne].
    + unfold ch'. rewrite upd_eq. apply unlink_linked.
    + unfold ch'. rewrite upd_ne by done.
      replace (get16 d1 (160 + 2 * j)) with (get16 d (160 + 2 * j)).
      * apply (linked_ext d); [|apply (ci_linked _ _ _ HC); done].
        intros y Hy. assert (all_ents ch y) as Hay by (exists j; done).
        apply unlink_nxt; [done|]. pose proof (ent_bounds d pg ch y HI Hay).
        destruct slot_cases as [[_ Es]|(l0 & x & El & Hx & Es)]; [lia|]. rewrite Es. intros Eb.
        pose proof (ent_bounds d pg ch x HI Hx).
        assert (x = y) as -> by (apply (same_entry x y (32 * e_blob x)); done || lia).
        apply Hne. rewrite <- (ci_hash _ _ _ HC j y Hj Hy). apply (ci_hash _ _ _ HC); [done|].
        rewrite Hch, El. apply elem_of_app. left. apply elem_of_app. right. left.
      * destruct slot_cases as [[_ Es]|(l0 & x & El & Hx & Es)];
          [|pose proof (ent_bounds d pg ch x HI Hx)]; unfold get16; rewrite !unlink_old by lia; done.
  - intros x Hx. apply (ci_ok _ _ _ HC), unlink_sub, Hx.
  - intros x Hx. apply unlink_at, unlink_sub, Hx.
  - intros j x Hj Hx. unfold ch', upd in Hx. case_decide as E; [subst j|apply (ci_hash _ _ _ HC); done].
    apply (ci_hash _ _ _ HC); [done|]. rewrite Hch. apply elem_of_app in Hx. apply elem_of_app.
    rewrite elem_of_cons. tauto.
  - intros x x' b Hx Hx'. apply (ci_disj _ _ _ HC); apply unlink_sub; done.
  - intros j Hj. unfold ch', upd. case_decide as E; [|apply (ci_nodup _ _ _ HC); done].
    pose proof (ci_nodup _ _ _ HC i Hi) as Hnd. rewrite Hch in Hnd.
    eapply sublist_NoDup; [exact Hnd|]. apply sublist_app; [done|]. by constructor.
  - intros x x' Hx Hx'. apply (ci_names _ _ _ HC); apply unlink_sub; done.
Qed.
End Unlink.

(** ** [DIR_Delete] *)

Lemma ent_not_hdr pg e b : ent_ok pg e -> ext e b -> ~ hdrblob b.
Proof.
  intros [_ _ Hb Hp Hh Hf] Hx. unfold ext, in_run in Hx. unfold hdrblob.
  assert (b / 64 = e_blob e / 64) as -> by zdm. zdm.
Qed.

Lemma owned_unlink d pg ch i l1 e l2 b :
  dir_inv d pg ch -> 0 <= i < 128 -> ch i = l1 ++ e :: l2 ->
  owned (upd ch i (l1 ++ l2)) b <-> owned ch b /\ ~ in_run (e_blob e) (e_nb e) b.
Proof.
  intros HI Hi Hch. pose proof (di_chain _ _ _ HI) as HC.
  assert (all_ents ch e) as He by (apply (unlink_mem d pg ch HI i l1 l2 e Hi Hch); tauto).
  unfold owned. split.
  - intros [Hh|(x & Hx & Hb)].
    + split; [by left|]. intros Hr. exact (ent_not_hdr pg e b (ci_ok _ _ _ HC e He) Hr Hh).
    + assert (all_ents ch x) as Hxc by (apply (unlink_sub d pg ch HI i l1 l2 e Hi Hch); done).
      split; [right; exists x; done|]. intros Hr.
      assert (x = e) as -> by (eapply (ci_disj _ _ _ HC); done). by apply (unlink_gone d pg ch HI i l1 l2 e Hi Hch).
  - intros [[Hh|(x & Hx & Hb)] Hr]; [by left|]. right. exists x. split; [|done].
    apply (upd_app_ents ch i l1 e l2 x Hi Hch) in Hx as [->|Hx]; done.
Qed.

Section Delete.
Context (env : DirEnv) (d : list Z) (pg : Z) (ch : Z -> list ent) (name : list Z).
Context (HI : dir_inv d pg ch) (Ht : trans_ok env).

Lemma Delete_missing : (forall e, all_ents ch e -> e_name e <> name) ->
  DIR_Delete env (Some d) (Some name) = Ret (ENOENT, Some d).
Proof using HI Ht.
  intros Hno. unfold DIR_Delete. rewrite check_trans_ok by done. cbn [rbind].
  rewrite (FindItem_spec d pg ch HI). cbn [rbind].
  replace (find_pure name (ch (DIR_Hash name)) None) with (@None FindRes); [done|].
  symmetry. apply find_pure_none. intros e He. apply Hno. exists (DIR_Hash name).
  split; [apply DIR_Hash_range|done].
Qed.

(** Freeing the blobs of an unlinked entry gives the directory without it. *)
Lemma delete_stores i l1 e l2 : 0 <= i < 128 -> ch i = l1 ++ e :: l2 ->
  let slot := link_slot i (last_ptr l1 None) in
  exists d1 d2, st16 d slot (nxt d (e_blob e)) = Ret d1 /\
    ep_name d1 (32 * e_blob e) = Ret (e_name e) /\
    dir_FreeBlobs d1 (e_blob e) (e_nb e) = Ret d2 /\ dir_inv d2 pg (upd ch i (l1 ++ l2)).
Proof using HI.
  intros Hi Hch slot. pose proof (slot_range d pg ch HI i l1 l2 e Hi Hch) as Hs. fold slot in Hs.
  assert (all_ents ch e) as He by (apply (unlink_mem d pg ch HI i l1 l2 e Hi Hch); tauto).
  pose proof (unlink_at d pg ch HI i l1 l2 e Hi Hch e He) as Hat1.
  pose proof (unlink_chain d pg ch HI i l1 l2 e Hi Hch) as HC1.
  pose proof (unlink_len d pg ch HI i l1 l2 e Hi Hch) as Hl1.
  pose proof (unlink_old d pg ch HI i l1 l2 e Hi Hch) as Hold. fold slot in Hat1, HC1, Hl1, Hold.
  rewrite st16_ok by lia. set (d1 := putbs d slot _) in *. exists d1.
  destruct HI as [Ha HC]. pose proof (ci_ok _ _ _ HC e He) as Hok.
  pose proof (ai_pg _ _ _ Ha) as Hpg. pose proof (ai_len _ _ _ Ha) as Hlen.
  pose proof (ent_geometry pg e Hok) as Hg.
  assert (alloc_inv d1 pg (owned ch)) as Ha1.
  { apply (alloc_inv_frame d); [done| |done|].
    - apply is_bytes_putbs; [apply Ha|apply is_bytes_be16].
    - intros o Ho Hal. apply Hold; [lia|]. intros Hx. unfold slot in Hx.
      destruct (slot_cases d pg ch HI i l1 l2 e Hi Hch) as [[_ Es]|(l0 & x & _ & Hxx & Es)]; rewrite Es in Hx.
      + unfold alloc_area in Hal. rewrite Z.mod_small in Hal; lia.
      + pose proof (ent_geometry pg x (ci_ok _ _ _ HC x Hxx)).
        destruct (ent_not_alloc pg x (ci_ok _ _ _ HC x Hxx) o); [lia|done]. }
  destruct (dir_FreeBlobs_spec d1 pg (owned ch) (e_blob e) (e_nb e)) as (d2 & E & Ha2 & Hl2 & Ho2);
    try apply Hok; try done; try lia.
  { intros x Hx. right. exists e. done. }
  exists d2. split; [done|]. split; [apply cstr_ok; [apply Hok|apply Hat1]|]. split; [done|]. split.
  - eapply alloc_inv_equiv; [exact Ha2|]. intros b _. symmetry. eapply owned_unlink; done.
  - eapply chain_inv_only_alloc; [exact HC1|..]; try done; lia.
Qed.

Lemma Delete_found e0 : all_ents ch e0 -> e_name e0 = name ->
  exists l1 l2 d', ch (DIR_Hash name) = l1 ++ e0 :: l2 /\
    DIR_Delete env (Some d) (Some name) = Ret (0, Some d') /\
    dir_inv d' pg (upd ch (DIR_Hash name) (l1 ++ l2)).
Proof using HI Ht.
  intros He0 En. pose proof (DIR_Hash_range name) as Hi. unfold NHASH in Hi.
  unfold DIR_Delete. rewrite check_trans_ok by done. cbn [rbind].
  rewrite (FindItem_spec d pg ch HI). cbn [rbind].
  destruct (find_pure name (ch (DIR_Hash name)) None) as [r|] eqn:E.
  2:{ rewrite find_pure_none in E. destruct He0 as (j & Hj & He0).
      pose proof (ci_hash _ _ _ (di_chain _ _ _ HI) j e0 Hj He0) as Hh. rewrite En in Hh.
      subst j. destruct (E e0 He0 En). }
  apply find_pure_some in E as (l1 & e & l2 & Hch & En' & ->). cbn [fr_tp fr_lp fr_index].
  assert (all_ents ch e) as He by (apply (unlink_mem d pg ch HI (DIR_Hash name) l1 l2 e Hi Hch); tauto).
  assert (e0 = e) as <- by (apply (ci_names _ _ _ (di_chain _ _ _ HI)); congruence).
  exists l1, l2. rewrite (ep_next_ent d pg ch e0 HI He). cbn [rbind].
  destruct (delete_stores _ l1 e0 l2 Hi Hch) as (d1 & d2 & E1 & E2 & E3 & HI2). exists d2.
  split; [done|]. split; [|done]. dirconst.
  replace (match last_ptr l1 None with Some lp => _ | None => _ end) with (Ret d1).
  2:{ rewrite <- E1. unfold link_slot. destruct (last_ptr l1 None); done. }
  cbn [rbind]. rewrite E2. cbn [rbind]. fold (e_nb e0). rewrite E3. cbn [rbind].
  rewrite (DirOK_spec d2 pg _ HI2). done.
Qed.
End Delete.

(** ** [DIR_MakeDir] *)

(** The page [DIR_MakeDir] prepares before it enters "." and "..". *)
Definition empty_page : list Z :=
  match (let* d := st32 (replicate (Z.to_nat DIR_PAGESIZE) 0) PH_TAG 1234 in
      let* d := st8 d PH_FREECOUNT (EPP - DHE - 1) in
      let* d := st8 d PH_FREEBITMAP 255 in
      let* d := st8 d (PH_FREEBITMAP + 1) 31 in
      let* d := forZ 2 (EPP / 8) (fun i d => st8 d (PH_FREEBITMAP + i) 0) d in
      let* d := st8 d DH_ALLOMAP (EPP - DHE - 1) in
      let* d := DIR_Setpages d 1 in
      forZ 0 NHASH (fun i d => st16 d (DH_HASHTABLE + 2 * i) 0) d) with
  | Ret d => d | Stop _ => [] end.

Lemma forall_range (f : Z -> bool) lo n :
  forallb f (seqZ lo n) = true -> forall i, lo <= i < lo + n -> f i = true.
Proof.
  intros H i Hi. rewrite forallb_forall in H. apply H, list_elem_of_In, elem_of_seqZ. lia.
Qed.

Lemma empty_page_inv : dir_inv empty_page 1 (fun _ => []).
Proof.
  assert (forall e, ~ all_ents (fun _ => []) e) as Hno by (intros e (i & _ & He); inversion He).
  split.
  - split.
    + apply Forall_forall. intros b Hb.
      assert (forallb (fun b => (0 <=? b) && (b <? 256)) empty_page = true) as Hall by (vm_compute; reflexivity).
      rewrite forallb_forall in Hall. specialize (Hall b Hb). unfold is_byte. lia.
    + lia.
    + vm_compute. reflexivity.
    + intros p Hp. replace p with 0 by lia. vm_compute. reflexivity.
    + intros p Hp. replace p with 0 by lia. vm_compute. reflexivity.
    + intros p Hp. replace p with 0 by lia. vm_compute. reflexivity.
    + intros p Hp. apply Z.eqb_eq.
      apply (forall_range (fun p => getb empty_page (32 + p) =? 64) 1 127); [|lia]. vm_compute. reflexivity.
    + intros b Hb.
      assert (used empty_page b = (b mod 64 <? hdr (b / 64))) as ->.
      { apply Bool.eqb_prop.
        apply (forall_range (fun b => Bool.eqb (used empty_page b) (b mod 64 <? hdr (b / 64))) 0 64); [|lia].
        vm_compute. reflexivity. }
      rewrite Z.ltb_lt. unfold owned. split; [by left|]. intros [?|(e & He & _)]; [done|]. destruct (Hno e He).
    + intros b _ Hb. by left.
  - split; try (intros; by destruct (Hno e)); try (intros i e _ He; inversion He); try (intros; constructor).
    intros i Hi. cbn. apply Z.eqb_eq.
    apply (forall_range (fun i => get16 empty_page (160 + 2 * i) =? 0) 0 128); [|lia]. vm_compute. reflexivity.
Qed.

(** A page with an unused blob has room for an entry of one blob. *)
Lemma one_blob_run d pg ch p j : dir_inv d pg ch -> 0 <= p < pg -> 0 <= j < 64 ->
  ~ owned ch (64 * p + j) -> page_has_run d p 1.
Proof.
  intros HI Hp Hj Hno. exists j. split; [lia|]. intros k Hk. replace k with j by lia.
  destruct (used d (64 * p + j)) eqn:E; [|done].
  apply (ai_used _ _ _ (di_alloc _ _ _ HI)) in E; [done|lia].
Qed.

Definition no_ents : Z -> list ent := fun _ => [].
Definition dot_ents (b : Z) (me : DirFid) : Z -> list ent :=
  upd no_ents (DIR_Hash name_dot) [mkEnt b name_dot me].

(** The chains of a fresh directory. *)
Definition fresh_ents (b b' : Z) (me parent : DirFid) : Z -> list ent :=
  upd (dot_ents b me) (DIR_Hash name_dotdot) [mkEnt b' name_dotdot parent].

Lemma no_ents_none e : ~ all_ents no_ents e.
Proof. intros (i & _ & He). inversion He. Qed.

Lemma dot_ents_only b me e : all_ents (dot_ents b me) e <-> e = mkEnt b name_dot me.
Proof.
  pose proof (DIR_Hash_range name_dot) as Hi. unfold NHASH in Hi. unfold dot_ents.
  rewrite (all_ents_cons no_ents _ _ Hi). pose proof (no_ents_none e). tauto.
Qed.

Lemma fresh_ents_only b b' me parent e :
  all_ents (fresh_ents b b' me parent) e <-> e = mkEnt b' name_dotdot parent \/ e = mkEnt b name_dot me.
Proof.
  pose proof (DIR_Hash_range name_dotdot) as Hi. unfold NHASH in Hi.
  pose proof (all_ents_cons (dot_ents b me) _ (mkEnt b' name_dotdot parent) Hi e) as H.
  rewrite dot_ents_only in H. exact H.
Qed.

Lemma valid_name_dot : valid_name name_dot.
Proof. split; [repeat constructor; lia|unfold zlen; cbn; lia]. Qed.
Lemma valid_name_dotdot : valid_name name_dotdot.
Proof. split; [repeat constructor; lia|unfold zlen; cbn; lia]. Qed.

Lemma MakeDir_spec env me parent :
  alloc_ok env DIR_PAGESIZE = true -> trans_ok env -> valid_fid me -> valid_fid parent ->
  exists d b b', DIR_MakeDir env me parent = Ret (0, Some d) /\ dir_inv d 1 (fresh_ents b b' me parent).
Proof.
  intros Hm Ht Hf Hf'. unfold DIR_MakeDir, dir_New. rewrite Hm.
  assert (forall k : list Z -> res (Z * option (list Z)),
    (let* d := st32 (replicate (Z.to_nat DIR_PAGESIZE) 0) PH_TAG 1234 in
      let* d := st8 d PH_FREECOUNT (EPP - DHE - 1) in
      let* d := st8 d PH_FREEBITMAP 255 in
      let* d := st8 d (PH_FREEBITMAP + 1) 31 in
      let* d := forZ 2 (EPP / 8) (fun i d => st8 d (PH_FREEBITMAP + i) 0) d in
      let* d := st8 d DH_ALLOMAP (EPP - DHE - 1) in
      let* d := DIR_Setpages d 1 in
      let* d := forZ 0 NHASH (fun i d => st16 d (DH_HASHTABLE + 2 * i) 0) d in k d) = k empty_page) as ->
    by (intros k; vm_compute; reflexivity).
  assert (~ owned no_ents 13) as Hfree.
  { unfold owned, hdrblob. change (13 mod 64) with 13. change (hdr (13 / 64)) with 13.
    intros [?|(e & He & _)]; [lia|]. exact (no_ents_none e He). }
  assert (page_has_run empty_page 0 1) as Hr by (apply (one_blob_run _ 1 no_ents 0 13 empty_page_inv); done || lia).
  destruct (Create_new env empty_page 1 no_ents name_dot me empty_page_inv valid_name_dot Hf Ht)
    as [(_ & ? & _)|(b & d1 & pg1 & E1 & HI1 & Hg)]; [|intros e He; destruct (no_ents_none e He)|lia|].
  { intros _ Hno. destruct (Hno 0 ltac:(lia) Hr). }
  rewrite E1. cbn [rbind]. clear E1. change (upd no_ents _ _) with (dot_ents b me) in HI1.
  destruct Hg as [[-> _]|(_ & _ & Hno)]; [|destruct (Hno 0 ltac:(lia) Hr)].
  assert (page_has_run d1 0 1) as Hr1.
  { apply (one_blob_run _ 1 (dot_ents b me) 0 (if decide (b = 13) then 14 else 13) HI1); [lia|case_decide; lia|].
    intros [Hh|(e & He & Hx)].
    - unfold hdrblob, hdr in Hh. case_decide; vm_compute in Hh; discriminate.
    - apply dot_ents_only in He as ->. unfold ext, in_run, e_nb in Hx. change (dir_NameBlobs _) with 1 in Hx. cbn [e_blob] in Hx. case_decide; lia. }
  destruct (Create_new env d1 1 (dot_ents b me) name_dotdot parent HI1 valid_name_dotdot Hf' Ht)
    as [(_ & ? & _)|(b' & d2 & pg2 & E2 & HI2 & Hg)]; [|intros e ->%dot_ents_only; done|lia|].
  { intros _ Hno. destruct (Hno 0 ltac:(lia) Hr1). }
  destruct Hg as [[-> _]|(_ & _ & Hno)]; [|destruct (Hno 0 ltac:(lia) Hr1)].
  rewrite E2. cbn [rbind]. exists d2, b, b'. 
  assert (dir_inv d2 1 (fresh_ents b b' me parent)) as HI3 by exact HI2.
  rewrite (DirOK_spec d2 1 _ HI3). done.
Qed.
