(* ===== verification/DirSpec.v ===== *)
(** * The directory package against its specification

    To its clients a directory is a finite map from names to fids.  [dir_rep d m]
    says that the bytes [d] represent the map [m]; each operation of [dirbody.c]
    returns what the same operation on [m] would and leaves bytes that represent the
    map afterwards.  The last part are properties the package does not have. *)

From Stdlib Require Import ZArith Lia.
From stdpp Require Import base list numbers gmap relations.
From S2P Require Import Prelude DirBody DirAlloc DirInv DirRead DirCheck DirOps.
Open Scope Z_scope.

(** The abstract directory. *)
Abbreviation dirmap := (gmap (list Z) DirFid).

(** Chains [ch] hold the bindings of [m]. *)
Definition ents_map (ch : Z -> list ent) (m : dirmap) : Prop :=
  forall nm f, m !! nm = Some f <-> exists e, all_ents ch e /\ e_name e = nm /\ e_fid e = f.

Definition dir_rep (d : list Z) (m : dirmap) : Prop :=
  exists pg ch, dir_inv d pg ch /\ ents_map ch m.

Lemma ents_map_none ch m nm : ents_map ch m ->
  m !! nm = None <-> forall e, all_ents ch e -> e_name e <> nm.
Proof.
  intros H. split.
  - intros Hn e He <-. assert (m !! e_name e = Some (e_fid e)) by (apply H; eauto). congruence.
  - intros Hn. destruct (m !! nm) as [f|] eqn:E; [|done]. apply H in E as (e & He & En & _).
    destruct (Hn e He En).
Qed.

Lemma ents_map_insert d pg ch m e : dir_inv d pg ch -> ents_map ch m -> m !! e_name e = None ->
  ents_map (upd ch (DIR_Hash (e_name e)) (e :: ch (DIR_Hash (e_name e)))) (<[e_name e := e_fid e]> m).
Proof.
  intros HI Hm Hn nm f. pose proof (DIR_Hash_range (e_name e)) as Hi. unfold NHASH in Hi.
  setoid_rewrite (all_ents_cons ch _ e Hi). destruct (decide (e_name e = nm)) as [<-|Hne].
  - rewrite lookup_insert_eq. split.
    + intros [= <-]. exists e. tauto.
    + intros (x & [->|Hx] & En & <-); [done|]. rewrite (ents_map_none ch m _ Hm) in Hn.
      destruct (Hn x Hx En).
  - rewrite lookup_insert_ne by done. rewrite (Hm nm f). split.
    + intros (x & Hx & En & Ef). exists x. tauto.
    + intros (x & [->|Hx] & En & Ef); [done|]. exists x. done.
Qed.

Lemma ents_map_delete d pg ch m i l1 e l2 : dir_inv d pg ch -> ents_map ch m -> 0 <= i < 128 ->
  ch i = l1 ++ e :: l2 -> ents_map (upd ch i (l1 ++ l2)) (delete (e_name e) m).
Proof.
  intros HI Hm Hi Hch nm f.
  assert (all_ents ch e) as He by (apply (unlink_mem d pg ch HI i l1 l2 e Hi Hch); tauto).
  pose proof (fun x => upd_app_ents ch i l1 e l2 x Hi Hch) as Hin.
  destruct (decide (e_name e = nm)) as [<-|Hne].
  - rewrite lookup_delete_eq. split; [done|]. intros (x & Hx & En & Ef).
    assert (x = e) as -> by (apply (ci_names _ _ _ (di_chain _ _ _ HI)); [apply Hin; tauto|done|done]).
    destruct (unlink_gone d pg ch HI i l1 l2 e Hi Hch Hx).
  - rewrite lookup_delete_ne by done. rewrite (Hm nm f). split; intros (x & Hx & En & Ef); exists x.
    + apply Hin in Hx as [->|Hx]; done.
    + split; [apply Hin; tauto|done].
Qed.

(** What the map says of [dir_FindItem]. *)
Lemma FindItem_rep d pg ch m nm : dir_inv d pg ch -> ents_map ch m ->
  exists r, dir_FindItem (Some d) nm CLU_CASE_SENSITIVE = Ret r /\
  match r with
  | None => m !! nm = None
  | Some fr => exists e, all_ents ch e /\ e_name e = nm /\ fr_tp fr = 32 * e_blob e /\ m !! nm = Some (e_fid e)
  end.
Proof.
  intros HI Hm. pose proof (DIR_Hash_range nm) as Hi. unfold NHASH in Hi.
  exists (find_pure nm (ch (DIR_Hash nm)) None). split; [apply (FindItem_spec d pg); done|].
  destruct (find_pure _ _ _) as [fr|] eqn:E.
  - apply find_pure_some in E as (l1 & e & l2 & Hch & En & ->). exists e.
    assert (all_ents ch e) as He by (apply (unlink_mem d pg ch HI _ l1 l2 e Hi Hch); tauto).
    repeat split; try done. apply Hm. eauto.
  - apply (ents_map_none ch m nm Hm). intros e (i & Hj & He) En. rewrite find_pure_none in E.
    pose proof (ci_hash _ _ _ (di_chain _ _ _ HI) i e Hj He) as Hh. rewrite En in Hh. subst i.
    exact (E e He En).
Qed.

Lemma Lookup_rep d m nm : dir_rep d m ->
  DIR_Lookup (Some d) nm CLU_CASE_SENSITIVE =
  Ret (match m !! nm with Some f => (0, Some f) | None => (ENOENT, None) end).
Proof.
  intros (pg & ch & HI & Hm). unfold DIR_Lookup.
  destruct (FindItem_rep d pg ch m nm HI Hm) as ([fr|] & -> & H); cbn [rbind].
  - destruct H as (e & He & _ & -> & ->). rewrite (NFid2Fid_ent d pg ch e HI He). done.
  - rewrite H. done.
Qed.

(** ** Creating and deleting *)

(** No page has room for [n] blobs and no page can be added. *)
Definition full (d : list Z) (n : Z) : Prop :=
  zlen d = DIR_PAGESIZE * DIR_MAXPAGES /\ forall p, 0 <= p < DIR_MAXPAGES -> ~ page_has_run d p n.

(** What [DIR_Create] promises of a directory that represents [m]. *)
Definition create_post (d : list Z) (m : dirmap) (nm : list Z) (fid : DirFid) (code : Z) (d' : list Z) : Prop :=
  match m !! nm with
  | Some _ => code = EEXIST /\ d' = d
  | None => (full d (dir_NameBlobs nm) /\ code = EFBIG /\ d' = d) \/
            (~ full d (dir_NameBlobs nm) /\ code = 0 /\ dir_rep d' (<[nm := fid]> m))
  end.

Definition mem_ok (env : DirEnv) : Prop := forall n, alloc_ok env n = true.

Lemma Create_rep env d m nm fid :
  dir_rep d m -> valid_name nm -> valid_fid fid -> trans_ok env -> mem_ok env ->
  exists code d', DIR_Create env (Some d) (Some nm) (Some fid) = Ret (code, Some d') /\
    create_post d m nm fid code d'.
Proof.
  intros (pg & ch & HI & Hm) Hn Hf Ht Ha. unfold create_post.
  pose proof (ai_len _ _ _ (di_alloc _ _ _ HI)) as Hl. pose proof (ai_pg _ _ _ (di_alloc _ _ _ HI)) as Hpg.
  unfold full. dirconst. destruct (m !! nm) as [f|] eqn:E.
  - apply Hm in E as (e & He & En & _). exists EEXIST, d. split; [|done].
    apply (Create_exists env d pg ch nm fid HI Hn Ht e He En).
  - pose proof E as Hnew. rewrite (ents_map_none ch m nm Hm) in Hnew.
    destruct (Create_new env d pg ch nm fid HI Hn Hf Ht) as [(Ec & -> & Hno)|(b & d' & pg' & Ec & HI' & Hg)].
    + intros _ _. apply Ha.
    + done.
    + exists EFBIG, d. split; [done|]. left. split; [|done]. split; [lia|done].
    + exists 0, d'. split; [done|]. right. split; [|split; [done|]].
      * intros [Hz Hno]. assert (pg = 128) as -> by lia. destruct Hg as [[-> Hr]|Hg]; [|lia].
        refine (Hno (b / 64) _ Hr).
        assert (all_ents (upd ch (DIR_Hash nm) (mkEnt b nm fid :: ch (DIR_Hash nm))) (mkEnt b nm fid)) as Hin.
        { exists (DIR_Hash nm). split; [apply DIR_Hash_range|]. rewrite upd_eq. left. }
        pose proof (ent_bounds _ _ _ _ HI' Hin) as (_ & _ & _ & _ & _ & Hb & _). cbn [e_blob] in Hb. zdm.
      * exists pg', (upd ch (DIR_Hash nm) (mkEnt b nm fid :: ch (DIR_Hash nm))). split; [done|].
        apply (ents_map_insert d pg ch m (mkEnt b nm fid)); done.
Qed.

(** Names the length checks reject. *)
Lemma Create_bad_name env d nm fid : trans_ok env ->
  (CODA_MAXNAMLEN < zlen nm ->
   DIR_Create env (Some d) (Some nm) (Some fid) = Ret (ENAMETOOLONG, Some d)) /\
  (zlen nm = 0 -> DIR_Create env (Some d) (Some nm) (Some fid) = Ret (EINVAL, Some d)).
Proof.
  intros Ht. unfold DIR_Create. rewrite check_trans_ok by done. cbn [rbind]. unfold CODA_MAXNAMLEN.
  split; intros Hz; [destruct (Z.ltb_spec 255 (zlen nm)); [done|lia]|]. rewrite Hz. done.
Qed.

Definition delete_post (d : list Z) (m : dirmap) (nm : list Z) (code : Z) (d' : list Z) : Prop :=
  match m !! nm with
  | Some _ => code = 0 /\ dir_rep d' (delete nm m) /\ zlen d' = zlen d
  | None => code = ENOENT /\ d' = d
  end.

Lemma Delete_rep env d m nm : dir_rep d m -> trans_ok env ->
  exists code d', DIR_Delete env (Some d) (Some nm) = Ret (code, Some d') /\ delete_post d m nm code d'.
Proof.
  intros (pg & ch & HI & Hm) Ht. unfold delete_post. destruct (m !! nm) as [f|] eqn:E.
  - apply Hm in E as (e & He & <- & _).
    destruct (Delete_found env d pg ch (e_name e) HI Ht e He eq_refl) as (l1 & l2 & d' & Hch & Ed & HI').
    exists 0, d'. split; [done|]. split; [done|]. split.
    + exists pg, (upd ch (DIR_Hash (e_name e)) (l1 ++ l2)). split; [done|].
      apply (ents_map_delete d pg ch m _ l1 e l2 HI Hm); [apply DIR_Hash_range|done].
    + rewrite (ai_len _ _ _ (di_alloc _ _ _ HI')), (ai_len _ _ _ (di_alloc _ _ _ HI)). done.
  - exists ENOENT, d. split; [|done]. apply (Delete_missing env d pg ch nm HI Ht).
    apply (ents_map_none ch m nm Hm). done.
Qed.

(** The map of a fresh directory. *)
Definition fresh_map (me parent : DirFid) : dirmap :=
  <[name_dotdot := parent]> {[ name_dot := me ]}.

Lemma MakeDir_rep env me parent :
  alloc_ok env DIR_PAGESIZE = true -> trans_ok env -> valid_fid me -> valid_fid parent ->
  exists d, DIR_MakeDir env me parent = Ret (0, Some d) /\ dir_rep d (fresh_map me parent) /\ zlen d = DIR_PAGESIZE.
Proof.
  intros Ha Ht Hf Hf'. destruct (MakeDir_spec env me parent Ha Ht Hf Hf') as (d & b & b' & E & HI).
  exists d. split; [done|]. split; [|exact (ai_len _ _ _ (di_alloc _ _ _ HI))].
  exists 1, (fresh_ents b b' me parent). split; [done|]. intros nm f.
  setoid_rewrite fresh_ents_only. unfold fresh_map.
  rewrite lookup_insert_Some, lookup_singleton_Some. split.
  - intros [[<- <-]|(_ & <- & <-)]; eexists; split; [by left|done|by right|done].
  - intros (e & [->| ->] & <- & <-); [by left|by right].
Qed.

(** ** Histories *)

Inductive dirop : Type :=
  | OpCreate (nm : list Z) (fid : DirFid)
  | OpDelete (nm : list Z).

(** Arguments the C types allow: terminated strings and 32-bit fids. *)
Definition op_ok (o : dirop) : Prop :=
  match o with
  | OpCreate nm fid => is_cstring nm /\ valid_fid fid
  | OpDelete nm => is_cstring nm
  end.

Definition run_op (env : DirEnv) (d : option (list Z)) (o : dirop) : res (Z * option (list Z)) :=
  match o with
  | OpCreate nm fid => DIR_Create env d (Some nm) (Some fid)
  | OpDelete nm => DIR_Delete env d (Some nm)
  end.

Fixpoint run_ops (env : DirEnv) (d : option (list Z)) (os : list dirop) : res (list Z * option (list Z)) :=
  match os with
  | [] => Ret ([], d)
  | o :: os => let* (c, d) := run_op env d o in
               let* (cs, d) := run_ops env d os in Ret (c :: cs, d)
  end.

(** The abstract machine: codes and maps. *)
Inductive astep : dirmap -> dirop -> Z -> dirmap -> Prop :=
  | as_toolong m nm fid : CODA_MAXNAMLEN < zlen nm -> astep m (OpCreate nm fid) ENAMETOOLONG m
  | as_empty m nm fid : nm = [] -> astep m (OpCreate nm fid) EINVAL m
  | as_exists m nm fid f : valid_name nm -> m !! nm = Some f -> astep m (OpCreate nm fid) EEXIST m
  | as_full m nm fid : valid_name nm -> m !! nm = None -> astep m (OpCreate nm fid) EFBIG m
  | as_create m nm fid : valid_name nm -> m !! nm = None -> astep m (OpCreate nm fid) 0 (<[nm := fid]> m)
  | as_missing m nm : m !! nm = None -> astep m (OpDelete nm) ENOENT m
  | as_delete m nm f : m !! nm = Some f -> astep m (OpDelete nm) 0 (delete nm m).

Inductive atrace : dirmap -> list dirop -> list Z -> dirmap -> Prop :=
  | at_nil m : atrace m [] [] m
  | at_cons m o c m' os cs m'' : astep m o c m' -> atrace m' os cs m'' -> atrace m (o :: os) (c :: cs) m''.

Lemma run_op_sim env d m o : dir_rep d m -> op_ok o -> trans_ok env -> mem_ok env ->
  exists c d' m', run_op env (Some d) o = Ret (c, Some d') /\ astep m o c m' /\ dir_rep d' m'.
Proof.
  intros Hr Ho Ht Ha. destruct o as [nm fid|nm]; cbn [op_ok run_op] in Ho |- *.
  - destruct Ho as [Hc Hf]. destruct (Create_bad_name env d nm fid Ht) as [Hlong Hemp].
    destruct (decide (CODA_MAXNAMLEN < zlen nm)) as [Hl|Hl].
    { rewrite Hlong by done. eexists _, d, m. split; [done|]. split; [by constructor|done]. }
    destruct (decide (nm = [])) as [->|Hne].
    { rewrite Hemp by done. eexists _, d, m. split; [done|]. split; [by constructor|done]. }
    assert (valid_name nm) as Hv.
    { split; [done|]. unfold CODA_MAXNAMLEN in Hl. destruct nm; [done|]. unfold zlen in *. cbn in *. lia. }
    destruct (Create_rep env d m nm fid Hr Hv Hf Ht Ha) as (c & d' & -> & Hp). unfold create_post in Hp.
    destruct (m !! nm) eqn:E.
    + destruct Hp as [-> ->]. eexists _, d, m. split; [done|]. split; [by econstructor|done].
    + destruct Hp as [(_ & -> & ->)|(_ & -> & Hr')]; eexists _, _, _; (split; [done|]; split; [|done]); by constructor.
  - destruct (Delete_rep env d m nm Hr Ht) as (c & d' & -> & Hp). unfold delete_post in Hp.
    destruct (m !! nm) eqn:E.
    + destruct Hp as (-> & Hr' & _). eexists _, _, _. split; [done|]. split; [|done]. by econstructor.
    + destruct Hp as [-> ->]. eexists _, d, m. split; [done|]. split; [by constructor|done].
Qed.

Lemma run_ops_sim env os d m : dir_rep d m -> Forall op_ok os -> trans_ok env -> mem_ok env ->
  exists cs d' m', run_ops env (Some d) os = Ret (cs, Some d') /\ atrace m os cs m' /\ dir_rep d' m'.
Proof.
  intros Hr Ho Ht Ha. revert d m Hr. induction Ho as [|o os Ho _ IH]; intros d m Hr; cbn.
  - exists [], d, m. split; [done|]. split; [constructor|done].
  - destruct (run_op_sim env d m o Hr Ho Ht Ha) as (c & d1 & m1 & -> & Hs & Hr1). cbn.
    destruct (IH d1 m1 Hr1) as (cs & d' & m' & -> & Htr & Hr'). cbn. eexists _, _, _.
    split; [done|]. split; [|done]. by econstructor.
Qed.

(** ** Reading *)

Lemma NoDup_flat_map {A B} (f : A -> list B) (l : list A) :
  NoDup l -> (forall x, x ∈ l -> NoDup (f x)) ->
  (forall x y b, x ∈ l -> y ∈ l -> b ∈ f x -> b ∈ f y -> x = y) -> NoDup (flat_map f l).
Proof.
  intros Hnd. induction Hnd as [|x l Hx Hnd IH]; intros Hf Hd; cbn; [constructor|].
  apply list.NoDup_app. split; [apply Hf; left|]. split.
  - intros b Hb Hb'. apply list_elem_of_In, in_flat_map in Hb' as (y & Hy & Hby).
    apply list_elem_of_In in Hy, Hby. assert (x = y) as -> by (apply (Hd x y b); try done; [left|by right]). done.
  - apply IH; [intros; apply Hf; by right|]. intros y z b Hy Hz. apply Hd; by right.
Qed.

Definition binding (e : ent) : list Z * DirFid := (e_name e, e_fid e).

Section ReadRep.
Context (d : list Z) (pg : Z) (ch : Z -> list ent) (m : dirmap) (HI : dir_inv d pg ch) (Hm : ents_map ch m).

Lemma dir_entries_nodup : NoDup (dir_entries ch).
Proof using HI.
  apply NoDup_flat_map; [apply NoDup_seqZ| |].
  - intros i Hi%elem_of_seqZ. apply (ci_nodup _ _ _ (di_chain _ _ _ HI)). lia.
  - intros i j e Hi%elem_of_seqZ Hj%elem_of_seqZ He He'.
    rewrite <- (ci_hash _ _ _ (di_chain _ _ _ HI) i e); [|lia|done].
    apply (ci_hash _ _ _ (di_chain _ _ _ HI)); [lia|done].
Qed.

Lemma binding_elem e : all_ents ch e -> m !! e_name e = Some (e_fid e).
Proof using Hm. intros He. apply Hm. eauto. Qed.

Lemma dir_entries_map : binding <$> dir_entries ch ≡ₚ map_to_list m.
Proof using HI Hm.
  apply NoDup_Permutation; [|apply NoDup_map_to_list|].
  - apply NoDup_fmap_2_strong; [|apply dir_entries_nodup]. intros e e' He He' [= En _].
    apply elem_dir_entries in He, He'. apply (ci_names _ _ _ (di_chain _ _ _ HI)); done.
  - intros [nm f]. rewrite elem_of_map_to_list, list_elem_of_fmap, (Hm nm f). split.
    + intros (e & [= -> ->] & He%elem_dir_entries). eauto.
    + intros (e & He & <- & <-). exists e. split; [done|]. by apply elem_dir_entries.
Qed.

(** A walk with no state stops iff some binding stops it. *)
Lemma walk_bindings {R} (st : ent -> unit -> unit + R) :
  (walk st (dir_entries ch) tt = inl tt /\ forall e, all_ents ch e -> st e tt = inl tt) \/
  (exists e r, all_ents ch e /\ st e tt = inr r /\ walk st (dir_entries ch) tt = inr r).
Proof using HI.
  destruct (walk_unit st (dir_entries ch)) as [[E H]|(l1 & e & l2 & r & El & Es & E & _)].
  - left. split; [done|]. intros e He. apply H. by apply elem_dir_entries.
  - right. exists e, r. split; [|done]. apply elem_dir_entries. rewrite El. apply elem_of_app. right. left.
Qed.
End ReadRep.

(** A hook that sees the name and the fid of each entry. *)
Definition name_hook {St} (d : list Z) (hk : list Z -> DirFid -> St -> St * Z) (ep : Z) (s : St) : res (St * Z) :=
  let* nm := ep_name d ep in
  let* f := fid_NFid2Fid d ep in Ret (hk nm f s).

(** Calling it on a list of bindings until it returns a nonzero code. *)
Fixpoint enum_list {St} (hk : list Z -> DirFid -> St -> St * Z) (l : list (list Z * DirFid)) (s : St) : St * Z :=
  match l with
  | [] => (s, 0)
  | (nm, f) :: l => let (s', rc) := hk nm f s in if rc =? 0 then enum_list hk l s' else (s', rc)
  end.

Lemma Enumerate_rep d m : dir_rep d m ->
  exists l, l ≡ₚ map_to_list m /\
  forall (St : Type) (hk : list Z -> DirFid -> St -> St * Z) s,
    DIR_EnumerateDir (Some d) (name_hook d hk) s = Ret (enum_list hk l s).
Proof.
  intros (pg & ch & HI & Hm). exists (binding <$> dir_entries ch).
  split; [apply (dir_entries_map d pg); done|]. intros St hk s.
  rewrite (EnumerateDir_spec d pg ch HI (name_hook d hk) (fun e s => hk (e_name e) (e_fid e) s)).
  2:{ intros e t He. unfold name_hook. rewrite (ep_name_ent d pg ch e HI He). cbn [rbind].
      rewrite (NFid2Fid_ent d pg ch e HI He). done. }
  f_equal. generalize (dir_entries ch). intros l. revert s. induction l as [|e l IH]; intros s; [done|].
  rewrite walk_cons. cbn. unfold hook_step at 1. destruct (hk (e_name e) (e_fid e) s) as [s' rc].
  destruct (rc =? 0); [apply IH|done].
Qed.

Lemma LookupByFid_rep d m fid : dir_rep d m ->
  (exists nm, m !! nm = Some fid /\ DIR_LookupByFid (Some d) fid = Ret (0, Some nm)) \/
  ((forall nm, m !! nm <> Some fid) /\ DIR_LookupByFid (Some d) fid = Ret (ENOENT, None)).
Proof.
  intros (pg & ch & HI & Hm). rewrite (LookupByFid_walk d pg ch HI).
  destruct (walk_bindings d pg ch HI (fid_step fid)) as [[-> Hno]|(e & nm & He & Es & ->)].
  - right. split; [|done]. intros nm (e & He & <- & Ef)%Hm. specialize (Hno e He).
    unfold fid_step in Hno. rewrite decide_True in Hno by done. done.
  - left. unfold fid_step in Es. case_decide as Ef; [|done]. injection Es as <-.
    exists (e_name e). split; [|done]. rewrite Ef. apply Hm. eauto.
Qed.

Lemma IsEmpty_rep d m : dir_rep d m ->
  exists r, DIR_IsEmpty (Some d) = Ret r /\
  (r = 1 \/ r = 0) /\ (r = 1 <-> forall nm, is_Some (m !! nm) -> nm = name_dot \/ nm = name_dotdot).
Proof.
  intros (pg & ch & HI & Hm). rewrite (IsEmpty_walk d pg ch HI). eexists. split; [done|].
  destruct (walk_bindings d pg ch HI empty_step) as [[-> Hno]|(e & r & He & Es & ->)].
  - split; [by left|]. split; [|done]. intros _ nm [f (e & He & <- & _)%Hm].
    specialize (Hno e He). unfold empty_step in Hno. case_decide; [tauto|done].
  - split; [by right|]. split; [done|]. intros Hall. unfold empty_step in Es. case_decide as Hn; [done|].
    destruct Hn. destruct (Hall (e_name e)); [|tauto..]. exists (e_fid e). apply Hm. eauto.
Qed.

(** *** [DIR_Compare] *)
Definition cmp_step (m2 : dirmap) (e : ent) (s : unit) : unit * Z :=
  (s, match m2 !! e_name e with
      | Some f => if decide (f = e_fid e) then 0 else 1
      | None => ENOENT end).

Lemma HkCompare_ent d pg ch m2 d2 e s : dir_inv d pg ch -> dir_rep d2 m2 -> all_ents ch e ->
  dir_HkCompare d (Some d2) (32 * e_blob e) s = Ret (cmp_step m2 e s).
Proof.
  intros HI H2 He. unfold dir_HkCompare, cmp_step. rewrite (ep_name_ent d pg ch e HI He). cbn [rbind].
  rewrite (Lookup_rep d2 m2) by done. destruct (m2 !! e_name e) as [f|]; [|done]. cbn [rbind negb Z.eqb].
  rewrite (FidEqNFid_ent d pg ch e HI He). cbn [rbind].
  case_decide; [rewrite bool_decide_true by done|rewrite bool_decide_false by done]; done.
Qed.

Lemma enum_compare_rep d1 m1 d2 m2 : dir_rep d1 m1 -> dir_rep d2 m2 ->
  exists rc, enum_compare (Some d1) (Some d2) = Ret rc /\
  ((rc = 0 /\ m1 ⊆ m2) \/
   (exists nm f, m1 !! nm = Some f /\
      ((rc = ENOENT /\ m2 !! nm = None) \/ (rc = 1 /\ exists f', m2 !! nm = Some f' /\ f' <> f)))).
Proof.
  intros (pg & ch & HI & Hm) H2. unfold enum_compare.
  rewrite (EnumerateDir_spec d1 pg ch HI (dir_HkCompare d1 (Some d2)) (cmp_step m2)).
  2:{ intros e s He. eapply HkCompare_ent; done. }
  cbn [rbind]. destruct (walk_bindings d1 pg ch HI (hook_step (cmp_step m2))) as [[-> Hno]|(e & r & He & Es & ->)].
  - exists 0. split; [done|]. left. split; [done|]. apply map_subseteq_spec.
    intros nm f (e & He & <- & <-)%Hm. specialize (Hno e He). unfold hook_step, cmp_step in Hno.
    destruct (m2 !! e_name e) as [f'|]; [|done]. case_decide; [by subst|done].
  - destruct r as [[] rc]. exists rc. split; [done|]. right. exists (e_name e), (e_fid e).
    split; [apply Hm; eauto|]. unfold hook_step, cmp_step in Es.
    destruct (m2 !! e_name e) as [f'|].
    + right. case_decide; [done|]. injection Es as <-. split; [done|]. exists f'. done.
    + left. injection Es as <-. done.
Qed.

Lemma Compare_rep d1 m1 d2 m2 : dir_rep d1 m1 -> dir_rep d2 m2 ->
  exists rc, DIR_Compare (Some d1) (Some d2) = Ret rc /\
  (rc = 0 <-> m1 = m2) /\ (0 < rc <-> ~ m1 ⊆ m2) /\ (rc < 0 <-> m1 ⊂ m2).
Proof.
  intros H1 H2. unfold DIR_Compare.
  destruct (enum_compare_rep d1 m1 d2 m2 H1 H2) as (rc & -> & [[-> Hs]|(nm & f & Hf & Hr)]); cbn [rbind Z.eqb negb].
  - destruct (enum_compare_rep d2 m2 d1 m1 H2 H1) as (rc' & -> & [[-> Hs']|(nm & f & Hf & Hr)]); cbn [rbind].
    + exists 0. assert (m1 = m2) as -> by (apply (anti_symm (⊆)); done).
      split; [done|]. split; [done|]. split; [split; [lia|done]|]. split; [lia|intros []; done].
    + assert (~ m2 ⊆ m1) as Hn.
      { intros Hs'. pose proof (lookup_weaken _ _ _ _ Hf Hs'). destruct Hr as [[_ ?]|[_ (f' & ? & ?)]]; congruence. }
      assert (rc' = ENOENT \/ rc' = 1) as Hrc by (destruct Hr as [[? _]|[? _]]; tauto).
      exists (- rc'). destruct Hrc as [-> | ->]; unfold ENOENT; cbn; (split; [done|]);
        (split; [split; [lia|intros ->; done]|]); (split; [split; [lia|done]|]); (split; [by split|lia]).
  - assert (~ m1 ⊆ m2) as Hn.
    { intros Hs'. pose proof (lookup_weaken _ _ _ _ Hf Hs'). destruct Hr as [[_ ?]|[_ (f' & ? & ?)]]; congruence. }
    assert (rc = ENOENT \/ rc = 1) as Hrc by (destruct Hr as [[? _]|[? _]]; tauto).
    exists rc. destruct Hrc as [-> | ->]; unfold ENOENT; cbn; (split; [done|]);
      (split; [split; [lia|intros ->; done]|]); (split; [done|]); (split; [lia|intros []; done]).
Qed.

(** *** Lookup without regard to case *)
Definition nocase_step (ename : list Z) (e : ent) (s : option Z * option Z) : (option Z * option Z) * Z :=
  if strcasecmp_eq ename (e_name e) then ((Some (32 * e_blob e), s.2), 1) else ((s.1, Some (32 * e_blob e)), 0).

Lemma nocase_walk ename l s :
  (exists s', walk (hook_step (nocase_step ename)) l s = inl s' /\
     forall e, e ∈ l -> strcasecmp_eq ename (e_name e) = false) \/
  (exists e lp, e ∈ l /\ strcasecmp_eq ename (e_name e) = true /\
     walk (hook_step (nocase_step ename)) l s = inr ((Some (32 * e_blob e), lp), 1)).
Proof.
  revert s. induction l as [|e l IH]; intros s.
  { left. exists s. split; [done|]. intros e He. inversion He. }
  rewrite walk_cons. unfold hook_step at 1 3, nocase_step at 1 3.
  destruct (strcasecmp_eq ename (e_name e)) eqn:E; cbn.
  - right. exists e, s.2. split; [left|done].
  - destruct (IH (s.1, Some (32 * e_blob e))) as [(s' & Ew & Hno)|(x & lp & Hx & Ex & Ew)].
    + left. exists s'. split; [done|]. intros x [->|Hx]%elem_of_cons; auto.
    + right. exists x, lp. split; [by right|done].
Qed.

Lemma LookupNoCase_rep d m nm : dir_rep d m ->
  (exists nm' f, strcasecmp_eq nm nm' = true /\ m !! nm' = Some f /\
     DIR_Lookup (Some d) nm CLU_CASE_INSENSITIVE = Ret (0, Some f)) \/
  ((forall nm', strcasecmp_eq nm nm' = true -> m !! nm' = None) /\
     DIR_Lookup (Some d) nm CLU_CASE_INSENSITIVE = Ret (ENOENT, None)).
Proof.
  intros (pg & ch & HI & Hm). unfold DIR_Lookup, dir_FindItem. change (CLU_CASE_INSENSITIVE =? CLU_CASE_INSENSITIVE) with true. cbn iota.
  rewrite (EnumerateDir_spec d pg ch HI (dir_FindCaseInsensitive d nm) (nocase_step nm)).
  2:{ intros e s He. unfold dir_FindCaseInsensitive, nocase_step. rewrite (ep_name_ent d pg ch e HI He). cbn [rbind].
      destruct (strcasecmp_eq _ _); done. }
  cbn [rbind].
  destruct (nocase_walk nm (dir_entries ch) (None, None)) as [(s' & -> & Hno)|(e & lp & He & Es & ->)]; cbn.
  - right. split; [|done]. intros nm' Hnm. apply (ents_map_none ch m _ Hm). intros e He En.
    rewrite <- En, Hno in Hnm; [done|]. by apply elem_dir_entries.
  - left. apply elem_dir_entries in He. exists (e_name e), (e_fid e). split; [done|]. split; [apply Hm; eauto|].
    rewrite (NFid2Fid_ent d pg ch e HI He). done.
Qed.

(** A full directory that cannot grow for lack of memory. *)
Lemma Create_nomem env d pg ch m nm fid :
  dir_inv d pg ch -> ents_map ch m -> m !! nm = None -> valid_name nm -> trans_ok env -> pg < 128 ->
  (forall p, 0 <= p < pg -> ~ page_has_run d p (dir_NameBlobs nm)) ->
  alloc_ok env (2048 * (pg + 1)) = false ->
  DIR_Create env (Some d) (Some nm) (Some fid) = Stop CUndef.
Proof.
  intros HI Hm Hn [Hc Hz] Ht Hpg Hno Hal. unfold DIR_Create. rewrite check_trans_ok by done. cbn [rbind].
  unfold CODA_MAXNAMLEN. destruct (Z.ltb_spec 255 (zlen nm)); [lia|]. destruct (Z.eqb_spec (zlen nm) 0); [lia|].
  destruct (FindItem_rep d pg ch m nm HI Hm) as ([fr|] & -> & H1); cbn [rbind].
  { destruct H1 as (e & _ & _ & _ & ?). congruence. }
  rewrite (dir_FindBlobs_nomem env d pg (owned ch)); [done|apply HI| |done..].
  pose proof (NameBlobs_bound nm). lia.
Qed.

(** ** Concrete directories for the examples *)
Definition env0 : DirEnv := mkDirEnv false false (fun _ => true).
Definition me0 : DirFid := mkDirFid 3 7.
Definition up0 : DirFid := mkDirFid 1 1.
Definition file0 : DirFid := mkDirFid 10 11.
Definition name_a : list Z := [97].

Definition the_dir (r : res (Z * option (list Z))) : list Z :=
  match r with Ret (_, Some d) => d | _ => [] end.
Definition dir0 : list Z := the_dir (DIR_MakeDir env0 me0 up0).
Definition dir1 : list Z := the_dir (DIR_Create env0 (Some dir0) (Some name_a) (Some file0)).

Lemma trans_ok0 : trans_ok env0.
Proof. discriminate. Qed.
Lemma mem_ok0 : mem_ok env0.
Proof. intros n. reflexivity. Qed.
Lemma valid_me0 : valid_fid me0.
Proof. split; cbn; lia. Qed.
Lemma valid_up0 : valid_fid up0.
Proof. split; cbn; lia. Qed.
Lemma valid_file0 : valid_fid file0.
Proof. split; cbn; lia. Qed.
Lemma valid_a : valid_name name_a.
Proof. split; [repeat constructor; lia|unfold zlen; cbn; lia]. Qed.

Lemma dir0_rep : dir_rep dir0 (fresh_map me0 up0).
Proof.
  destruct (MakeDir_rep env0 me0 up0 eq_refl trans_ok0 valid_me0 valid_up0) as (d & E & Hr & _).
  unfold dir0. rewrite E. exact Hr.
Qed.

Lemma dir1_rep : dir_rep dir1 (<[name_a := file0]> (fresh_map me0 up0)).
Proof.
  destruct (Create_rep env0 dir0 _ name_a file0 dir0_rep valid_a valid_file0 trans_ok0 mem_ok0) as (c & d & E & Hp).
  unfold dir1. rewrite E. unfold create_post in Hp.
  replace (fresh_map me0 up0 !! name_a) with (@None DirFid) in Hp by (vm_compute; reflexivity).
  destruct Hp as [(_ & Ec & _)|(_ & _ & Hr)]; [|exact Hr].
  assert (match DIR_Create env0 (Some dir0) (Some name_a) (Some file0) with Ret (c, _) => c | _ => 1 end = 0) as E0
    by (vm_compute; reflexivity).
  rewrite E, Ec in E0. discriminate.
Qed.

(** ** The theorems *)

(** C1 Refinement: every sequence of [DIR_Create] and [DIR_Delete] calls on a
    directory made by [DIR_MakeDir] returns (no abort, no access outside the
    object, no endless loop), its return codes are those the abstract machine on
    finite maps allows, the resulting bytes represent the resulting map, and the
    package's own consistency check [DIR_DirOK] accepts them. *)
Theorem DIR_history env me parent os :
  trans_ok env -> mem_ok env -> valid_fid me -> valid_fid parent -> Forall op_ok os ->
  exists d0 codes d m,
    DIR_MakeDir env me parent = Ret (0, Some d0) /\
    run_ops env (Some d0) os = Ret (codes, Some d) /\
    atrace (fresh_map me parent) os codes m /\ dir_rep d m /\ DIR_DirOK (Some d) = Ret 1.
Proof.
  intros Ht Ha Hf Hf' Ho. destruct (MakeDir_rep env me parent (Ha _) Ht Hf Hf') as (d0 & E0 & Hr0 & _).
  destruct (run_ops_sim env os d0 _ Hr0 Ho Ht Ha) as (cs & d & m & E & Htr & Hr).
  exists d0, cs, d, m. repeat split; try done. destruct Hr as (pg & ch & HI & _). exact (DirOK_spec d pg ch HI).
Qed.

Lemma DIR_history_witness : exists d0 codes d m,
    DIR_MakeDir env0 me0 up0 = Ret (0, Some d0) /\
    run_ops env0 (Some d0) [OpCreate name_a file0; OpDelete name_dot] = Ret (codes, Some d) /\
    atrace (fresh_map me0 up0) [OpCreate name_a file0; OpDelete name_dot] codes m /\
    dir_rep d m /\ DIR_DirOK (Some d) = Ret 1.
Proof.
  apply (DIR_history env0 me0 up0 [OpCreate name_a file0; OpDelete name_dot]
    trans_ok0 mem_ok0 valid_me0 valid_up0).
  repeat constructor; cbn; lia.
Defined.

(** [DIR_Lookup] on a directory that represents [m] returns the fid [m] binds the
    name to, and [ENOENT] when it binds none. *)
Theorem DIR_Lookup_refines d m nm : dir_rep d m ->
  DIR_Lookup (Some d) nm CLU_CASE_SENSITIVE =
  Ret (match m !! nm with Some f => (0, Some f) | None => (ENOENT, None) end).
Proof. apply Lookup_rep. Qed.

Lemma DIR_Lookup_refines_witness :
  DIR_Lookup (Some dir0) name_dot CLU_CASE_SENSITIVE = Ret (0, Some me0).
Proof. exact (DIR_Lookup_refines dir0 _ name_dot dir0_rep). Defined.

(** C12 [DIR_Create] with a valid name: [EEXIST] and no change when the name is bound;
    [EFBIG] and no change when no page has a run of free blobs long enough and the
    directory has its 128 pages; otherwise 0, and the bytes represent the map with the
    new binding (a page is added when needed). *)
Theorem DIR_Create_refines env d m nm fid :
  dir_rep d m -> valid_name nm -> valid_fid fid -> trans_ok env -> mem_ok env ->
  exists code d', DIR_Create env (Some d) (Some nm) (Some fid) = Ret (code, Some d') /\
    create_post d m nm fid code d'.
Proof. apply Create_rep. Qed.

Lemma DIR_Create_refines_witness :
  exists code d', DIR_Create env0 (Some dir0) (Some name_a) (Some file0) = Ret (code, Some d') /\
    create_post dir0 (fresh_map me0 up0) name_a file0 code d'.
Proof. exact (DIR_Create_refines env0 dir0 _ name_a file0 dir0_rep valid_a valid_file0 trans_ok0 mem_ok0). Defined.

(** C19 [DIR_Delete]: [ENOENT] and no change when the name is not bound, otherwise 0
    and the bytes, in as many pages, represent the map without the binding. *)
Theorem DIR_Delete_refines env d m nm : dir_rep d m -> trans_ok env ->
  exists code d', DIR_Delete env (Some d) (Some nm) = Ret (code, Some d') /\ delete_post d m nm code d'.
Proof. apply Delete_rep. Qed.

Lemma DIR_Delete_refines_witness :
  exists code d', DIR_Delete env0 (Some dir1) (Some name_a) = Ret (code, Some d') /\
    delete_post dir1 (<[name_a := file0]> (fresh_map me0 up0)) name_a code d'.
Proof. exact (DIR_Delete_refines env0 dir1 _ name_a dir1_rep trans_ok0). Defined.

(** [DIR_MakeDir]: when the page can be allocated, a directory of one page that
    binds "." and ".." and nothing else. *)
Theorem DIR_MakeDir_fresh env me parent :
  alloc_ok env DIR_PAGESIZE = true -> trans_ok env -> valid_fid me -> valid_fid parent ->
  exists d, DIR_MakeDir env me parent = Ret (0, Some d) /\ dir_rep d (fresh_map me parent) /\ zlen d = DIR_PAGESIZE.
Proof. apply MakeDir_rep. Qed.

Lemma DIR_MakeDir_fresh_witness :
  exists d, DIR_MakeDir env0 me0 up0 = Ret (0, Some d) /\ dir_rep d (fresh_map me0 up0) /\ zlen d = DIR_PAGESIZE.
Proof. exact (DIR_MakeDir_fresh env0 me0 up0 eq_refl trans_ok0 valid_me0 valid_up0). Defined.

(** [DIR_EnumerateDir] calls the hook once for every binding of the map, in an order
    that depends on the directory only, passing the hook's state along, and stops at
    the first nonzero return code, which it returns. *)
Theorem DIR_EnumerateDir_visits d m : dir_rep d m ->
  exists l, l ≡ₚ map_to_list m /\
  forall (St : Type) (hk : list Z -> DirFid -> St -> St * Z) s,
    DIR_EnumerateDir (Some d) (name_hook d hk) s = Ret (enum_list hk l s).
Proof. apply Enumerate_rep. Qed.

Lemma DIR_EnumerateDir_visits_witness :
  exists l, l ≡ₚ map_to_list (<[name_a := file0]> (fresh_map me0 up0)) /\
  forall (St : Type) (hk : list Z -> DirFid -> St -> St * Z) s,
    DIR_EnumerateDir (Some dir1) (name_hook dir1 hk) s = Ret (enum_list hk l s).
Proof. exact (DIR_EnumerateDir_visits dir1 _ dir1_rep). Defined.

(** [DIR_LookupByFid] returns a name the map binds to the fid, or [ENOENT] when no
    name is bound to it. *)
Theorem DIR_LookupByFid_finds d m fid : dir_rep d m ->
  (exists nm, m !! nm = Some fid /\ DIR_LookupByFid (Some d) fid = Ret (0, Some nm)) \/
  ((forall nm, m !! nm <> Some fid) /\ DIR_LookupByFid (Some d) fid = Ret (ENOENT, None)).
Proof. apply LookupByFid_rep. Qed.

Lemma DIR_LookupByFid_finds_witness :
  (exists nm, fresh_map me0 up0 !! nm = Some up0 /\ DIR_LookupByFid (Some dir0) up0 = Ret (0, Some nm)) \/
  ((forall nm, fresh_map me0 up0 !! nm <> Some up0) /\ DIR_LookupByFid (Some dir0) up0 = Ret (ENOENT, None)).
Proof. exact (DIR_LookupByFid_finds dir0 _ up0 dir0_rep). Defined.

(** [DIR_IsEmpty] answers 1 exactly when only "." and ".." can be bound. *)
Theorem DIR_IsEmpty_decides d m : dir_rep d m ->
  exists r, DIR_IsEmpty (Some d) = Ret r /\
  (r = 1 \/ r = 0) /\ (r = 1 <-> forall nm, is_Some (m !! nm) -> nm = name_dot \/ nm = name_dotdot).
Proof. apply IsEmpty_rep. Qed.

Lemma DIR_IsEmpty_decides_witness :
  exists r, DIR_IsEmpty (Some dir1) = Ret r /\
  (r = 1 \/ r = 0) /\ (r = 1 <-> forall nm, is_Some ((<[name_a := file0]> (fresh_map me0 up0)) !! nm) ->
     nm = name_dot \/ nm = name_dotdot).
Proof. exact (DIR_IsEmpty_decides dir1 _ dir1_rep). Defined.

(** [DIR_Compare] returns 0 exactly when the two directories hold the same bindings,
    a positive code exactly when the second lacks or rebinds a name of the first, and a
    negative code exactly when the first is a proper part of the second. *)
Theorem DIR_Compare_decides d1 m1 d2 m2 : dir_rep d1 m1 -> dir_rep d2 m2 ->
  exists rc, DIR_Compare (Some d1) (Some d2) = Ret rc /\
  (rc = 0 <-> m1 = m2) /\ (0 < rc <-> ~ m1 ⊆ m2) /\ (rc < 0 <-> m1 ⊂ m2).
Proof. apply Compare_rep. Qed.

Lemma DIR_Compare_decides_witness :
  exists rc, DIR_Compare (Some dir0) (Some dir1) = Ret rc /\
  (rc = 0 <-> fresh_map me0 up0 = <[name_a := file0]> (fresh_map me0 up0)) /\
  (0 < rc <-> ~ fresh_map me0 up0 ⊆ <[name_a := file0]> (fresh_map me0 up0)) /\
  (rc < 0 <-> fresh_map me0 up0 ⊂ <[name_a := file0]> (fresh_map me0 up0)).
Proof. exact (DIR_Compare_decides dir0 _ dir1 _ dir0_rep dir1_rep). Defined.

(** A case-insensitive [DIR_Lookup] finds a binding whose name equals the argument up
    to ASCII case, and returns [ENOENT] when there is none. *)
Theorem DIR_Lookup_nocase d m nm : dir_rep d m ->
  (exists nm' f, strcasecmp_eq nm nm' = true /\ m !! nm' = Some f /\
     DIR_Lookup (Some d) nm CLU_CASE_INSENSITIVE = Ret (0, Some f)) \/
  ((forall nm', strcasecmp_eq nm nm' = true -> m !! nm' = None) /\
     DIR_Lookup (Some d) nm CLU_CASE_INSENSITIVE = Ret (ENOENT, None)).
Proof. apply LookupNoCase_rep. Qed.

Lemma DIR_Lookup_nocase_witness :
  (exists nm' f, strcasecmp_eq [65] nm' = true /\ (<[name_a := file0]> (fresh_map me0 up0)) !! nm' = Some f /\
     DIR_Lookup (Some dir1) [65] CLU_CASE_INSENSITIVE = Ret (0, Some f)) \/
  ((forall nm', strcasecmp_eq [65] nm' = true -> (<[name_a := file0]> (fresh_map me0 up0)) !! nm' = None) /\
     DIR_Lookup (Some dir1) [65] CLU_CASE_INSENSITIVE = Ret (ENOENT, None)).
Proof. exact (DIR_Lookup_nocase dir1 _ [65] dir1_rep). Defined.

(** ** Where the package fails *)

(** When the directory has fewer than 128 pages, no page has room for the name and
    the larger object cannot be allocated, [DIR_Create] does not fail with an error:
    [dir_FindBlobs] drops the [ENOMEM] of [dir_AddPage] and reads a page past the end
    of the object. *)
Theorem DIR_Create_nomem_undefined env d m nm fid :
  dir_rep d m -> m !! nm = None -> valid_name nm -> trans_ok env ->
  zlen d < DIR_PAGESIZE * DIR_MAXPAGES ->
  (forall p, 0 <= p < zlen d / DIR_PAGESIZE -> ~ page_has_run d p (dir_NameBlobs nm)) ->
  alloc_ok env (zlen d + DIR_PAGESIZE) = false ->
  DIR_Create env (Some d) (Some nm) (Some fid) = Stop CUndef.
Proof.
  intros (pg & ch & HI & Hm) Hn Hv Ht Hl Hno Hal. pose proof (ai_len _ _ _ (di_alloc _ _ _ HI)) as Hz.
  rewrite Hz in Hl, Hno, Hal. revert Hl Hno Hal. dirconst. intros Hl Hno Hal.
  replace (2048 * pg / 2048) with pg in Hno by zdm. replace (2048 * pg + 2048) with (2048 * (pg + 1)) in Hal by lia.
  apply (Create_nomem env d pg ch m); try done. lia.
Qed.

(** Five names of nine blobs fill the first page up to four blobs. *)
Definition long_name (c : Z) : list Z := c :: replicate 250 98.
Definition page_filler : list dirop := (fun c => OpCreate (long_name c) file0) <$> [97; 98; 99; 100; 101].
Definition last_dir (r : res (list Z * option (list Z))) : list Z :=
  match r with Ret (_, Some d) => d | _ => [] end.
Definition dir_full : list Z := last_dir (run_ops env0 (Some dir0) page_filler).
Definition env_nomem : DirEnv := mkDirEnv false false (fun n => n <=? DIR_PAGESIZE).

Lemma long_name_ok c : 0 < c < 256 -> valid_name (long_name c).
Proof.
  intros Hc. split; [|unfold zlen; cbn; lia]. constructor; [done|]. apply Forall_replicate. lia.
Qed.

Lemma dir_full_rep : exists m, dir_rep dir_full m.
Proof.
  destruct (run_ops_sim env0 page_filler dir0 _ dir0_rep) as (cs & d & m & E & _ & Hr).
  - unfold page_filler. repeat (constructor; [split; [apply long_name_ok; lia|apply valid_file0]|]). constructor.
  - apply trans_ok0.
  - apply mem_ok0.
  - exists m. unfold dir_full. rewrite E. exact Hr.
Qed.

Lemma dir_full_missing :
  DIR_Lookup (Some dir_full) (long_name 102) CLU_CASE_SENSITIVE = Ret (ENOENT, None).
Proof. vm_compute. reflexivity. Qed.
Lemma dir_full_zlen : zlen dir_full = 2048.
Proof. vm_compute. reflexivity. Qed.
Lemma long_name_blobs : dir_NameBlobs (long_name 102) = 9.
Proof. vm_compute. reflexivity. Qed.
Lemma dir_full_no_run : find_run dir_full 0 9 false = Ret (true, 0).
Proof. vm_compute. reflexivity. Qed.

Lemma DIR_Create_nomem_undefined_witness :
  DIR_Create env_nomem (Some dir_full) (Some (long_name 102)) (Some file0) = Stop CUndef.
Proof.
  destruct dir_full_rep as (m & Hr).
  apply (DIR_Create_nomem_undefined env_nomem dir_full m (long_name 102) file0 Hr).
  - pose proof (eq_trans (eq_sym dir_full_missing) (Lookup_rep dir_full m (long_name 102) Hr)) as Hl.
    destruct (m !! long_name 102); [discriminate Hl|reflexivity].
  - apply long_name_ok. lia.
  - intros E. discriminate E.
  - rewrite dir_full_zlen. reflexivity.
  - rewrite dir_full_zlen, long_name_blobs. intros p Hp. change (2048 / DIR_PAGESIZE) with 1 in Hp.
    replace p with 0 by lia. destruct (find_run_spec dir_full 0 9 false) as [[_ H]|(j & E & _)];
      [lia|rewrite dir_full_zlen; lia|lia|exact H|].
    discriminate (eq_trans (eq_sym dir_full_no_run) E).
  - rewrite dir_full_zlen. reflexivity.
Defined.

(** Blob 8192 is one past the last blob of 128 pages, yet [dir_GetBlob] accepts it. *)
Lemma GetBlob_past_end d : dir_GetBlob (Some d) (EPP * DIR_MAXPAGES) = Some (DIR_PAGESIZE * DIR_MAXPAGES).
Proof. reflexivity. Qed.

(** A loop that keeps [P] and never leaves runs for ever, whatever the fuel. *)
Lemma while_never {St R} (P : St -> Prop) (body : St -> res (St + R)) n s :
  P s -> (forall s, P s -> exists s', body s = Ret (inl s') /\ P s') -> while_loop n body s = Stop CDiverge.
Proof.
  intros Hs Hb. revert s Hs. induction n as [|n IH]; intros s Hs; [done|]. cbn [while_loop].
  destruct (Hb s Hs) as (s' & -> & Hs'). cbn. auto.
Qed.

(** C37 The consistency check does not detect cycles: from an intact entry that is linked to
    itself, the loop of [DIR_DirOK] over the chain never ends, whatever the fuel. *)
Theorem check_chain_cycle d pg i e m f n :
  1 <= pg <= 128 -> zlen d = DIR_PAGESIZE * pg -> ent_ok pg e -> ent_at d e ->
  DIR_Hash (e_name e) = i -> nxt d (e_blob e) = e_blob e -> eamap m pg f ->
  while_loop n (check_entry d pg i) (e_blob e, m) = Stop CDiverge.
Proof.
  intros Hpg Hl Hok Hat Hh Hn Hm.
  apply (while_never (fun '(b, m) => b = e_blob e /\ exists g, eamap m pg g)); [eauto|].
  intros [b m1] (-> & g & Hg). destruct (check_entry_ent d pg i e m1 g) as (m2 & E & Hm2); try done.
  rewrite E, Hn. eexists. split; [reflexivity|]. split; [|eauto].
  pose proof (ent_geometry pg e Hok). apply swrap_small; lia.
Qed.

(** The directory [dir1] with its entry "a" linked to itself. *)
Definition dir_cyclic : list Z := putbs dir1 (15 * ESZ + DE_NEXT) (be16 15).

Lemma check_chain_cycle_witness :
  exists m, eaMap_init 1 = Ret m /\
    while_loop 1000 (check_entry dir_cyclic 1 97) (15, m) = Stop CDiverge.
Proof.
  destruct (eaMap_init_spec 1 ltac:(lia)) as (m & E & Hm). exists m. split; [exact E|].
  apply (check_chain_cycle dir_cyclic 1 97 (mkEnt 15 name_a file0) m hdrblob 1000); [lia| | | | | |exact Hm].
  - vm_compute. reflexivity.
  - split; [apply valid_a|apply valid_file0|vm_compute; congruence..].
  - split; [vm_compute; reflexivity..|].
    split; [vm_compute; congruence|]. split; [vm_compute; congruence|]. cbn [e_name]. intros k Hk.
    assert (k = 0 \/ k = 1) as [-> | ->] by (change (zlen (name_a ++ [0])) with 2 in Hk; lia);
      vm_compute; reflexivity.
  - vm_compute. reflexivity.
  - vm_compute. reflexivity.
Defined.
