(* ===== verification/Fid.v ===== *)
(** * File identifiers: [coda-src/dir/fid.c]

    A [ViceFid] names a file by volume, vnode and uniquifier, each an unsigned 32-bit
    number.  [FID_Cmp] orders them, a family of constructors and tests reserves vnode
    and volume numbers for objects made while disconnected or during repair, and [FID_]
    prints one into a ring of four static buffers. *)

From Stdlib Require Import ZArith Lia.
From stdpp Require Import base list numbers.
From S2P Require Import Prelude DirBody Text.
Open Scope Z_scope.

Record ViceFid : Set := mkViceFid { Volume : Z; Vnode : Z; Unique : Z }.

Global Instance ViceFid_eq_dec : EqDecision ViceFid.
Proof. solve_decision. Defined.

(** Values the C type can hold. *)
Definition fid32 (f : ViceFid) : Prop :=
  0 <= Volume f < 2 ^ 32 /\ 0 <= Vnode f < 2 ^ 32 /\ 0 <= Unique f < 2 ^ 32.

(** ** Conversions *)
Definition FID_CpyVol (target source : ViceFid) : ViceFid :=
  mkViceFid (Volume source) (Vnode target) (Unique target).
Definition FID_Int2DFid (vnode unique : Z) : DirFid := mkDirFid (u32 vnode) (u32 unique).
Definition FID_NFid2Int (d : list Z) (nfid : Z) : res (Z * Z) :=
  let* vnode := ld32 d nfid in
  let* unique := ld32 d (nfid + 4) in Ret (vnode, unique).
Definition FID_VFid2DFid (vf : ViceFid) : DirFid := mkDirFid (Vnode vf) (Unique vf).
Definition FID_DFid2VFid (df : DirFid) (vf : ViceFid) : ViceFid :=
  mkViceFid (Volume vf) (df_vnode df) (df_unique df).

(** ** Comparison *)
Definition FID_Cmp (fa fb : ViceFid) : Z :=
  if Volume fa <? Volume fb then -1 else
  if Volume fb <? Volume fa then 1 else
  if Vnode fa <? Vnode fb then -1 else
  if Vnode fb <? Vnode fa then 1 else
  if Unique fa <? Unique fb then -1 else
  if Unique fb <? Unique fa then 1 else 0.

Definition FID_EQ (fa fb : ViceFid) : bool :=
  if negb (Volume fa =? Volume fb) then false else
  if negb (Vnode fa =? Vnode fb) then false else
  if negb (Unique fa =? Unique fb) then false else true.

Definition FID_VolEQ (fa fb : ViceFid) : bool :=
  if negb (Volume fa =? Volume fb) then false else true.

(** ** Reserved numbers *)
Definition LocalFakeVid : Z := 0xffffffff.
Definition LocalFileVnode : Z := 0xfffffffe.
Definition LocalDirVnode : Z := 0xffffffff.
Definition FakeVnode : Z := 0xfffffffc.
Definition ROOT_VNODE : Z := 1.
Definition ROOT_UNIQUE : Z := 1.

Definition FID_IsDisco (x : ViceFid) : bool :=
  (Vnode x =? LocalFileVnode) || (Vnode x =? LocalDirVnode).
Definition FID_IsLocalDir (fid : ViceFid) : bool := Vnode fid =? LocalDirVnode.
Definition FID_IsLocalFile (fid : ViceFid) : bool := Vnode fid =? LocalFileVnode.
Definition FID_MakeDiscoFile (vid unique : Z) : ViceFid := mkViceFid vid LocalFileVnode unique.
Definition FID_MakeDiscoDir (vid unique : Z) : ViceFid := mkViceFid vid LocalDirVnode unique.
Definition FID_MakeSubtreeRoot (vid unique : Z) : ViceFid := mkViceFid vid FakeVnode unique.
Definition FID_MakeLocalDir (unique : Z) : ViceFid := mkViceFid LocalFakeVid LocalDirVnode unique.
Definition FID_MakeLocalFile (unique : Z) : ViceFid := mkViceFid LocalFakeVid LocalFileVnode unique.
Definition FID_IsFakeRoot (fid : ViceFid) : bool := Vnode fid =? FakeVnode.
Definition FID_MakeLocalSubtreeRoot (unique : Z) : ViceFid := mkViceFid LocalFakeVid FakeVnode unique.
Definition FID_MakeRoot (fid : ViceFid) : ViceFid := mkViceFid (Volume fid) ROOT_VNODE ROOT_UNIQUE.
Definition FID_IsVolRoot (fid : ViceFid) : bool :=
  (Vnode fid =? ROOT_VNODE) && (Unique fid =? ROOT_UNIQUE).

(** ** Printing *)

(** ["%x.%x.%x"]; 46 is the dot. *)
Definition fid_text (fid : ViceFid) : list Z :=
  fmt_x (Volume fid) ++ 46 :: fmt_x (Vnode fid) ++ 46 :: fmt_x (Unique fid).

(** The static variables of [FID_]: four buffers of 28 bytes and the index of the
    last one used. *)
Record FidBufs : Set := mkFidBufs { fb_buf : list (list Z); fb_i : Z }.

(** [FID_]: the index of the buffer whose address is returned, and the state;
    writing more than the buffer holds is undefined. *)
Definition FID_ (s : FidBufs) (fid : ViceFid) : res (Z * FidBufs) :=
  let i := fb_i s + 1 in
  let i := if 4 <=? i then 0 else i in
  if zlen (fid_text fid) + 1 <=? 28
  then Ret (i, mkFidBufs (<[Z.to_nat i := fid_text fid]> (fb_buf s)) i)
  else Stop CUndef.

(** ** Lemmas *)

(** Lexicographic comparison of the three fields. *)
Definition fid_lt (a b : ViceFid) : Prop :=
  Volume a < Volume b \/ Volume a = Volume b /\
  (Vnode a < Vnode b \/ Vnode a = Vnode b /\ Unique a < Unique b).

Lemma FID_Cmp_spec a b :
  (FID_Cmp a b = -1 /\ fid_lt a b) \/ (FID_Cmp a b = 1 /\ fid_lt b a) \/ (FID_Cmp a b = 0 /\ a = b).
Proof.
  unfold FID_Cmp, fid_lt. destruct a as [v n u], b as [v' n' u']; cbn.
  destruct (Z.ltb_spec v v'); [lia|]. destruct (Z.ltb_spec v' v); [lia|].
  destruct (Z.ltb_spec n n'); [lia|]. destruct (Z.ltb_spec n' n); [lia|].
  destruct (Z.ltb_spec u u'); [lia|]. destruct (Z.ltb_spec u' u); [lia|].
  right. right. split; [done|]. f_equal; lia.
Qed.

Lemma fid_lt_irrefl a : ~ fid_lt a a.
Proof. unfold fid_lt. lia. Qed.
Lemma fid_lt_trans a b c : fid_lt a b -> fid_lt b c -> fid_lt a c.
Proof. unfold fid_lt. lia. Qed.

Lemma fid_text_length fid : zlen (fid_text fid) <= 26.
Proof.
  unfold fid_text, zlen. repeat (rewrite length_app; cbn [length]).
  pose proof (fmt_x_length (Volume fid)). pose proof (fmt_x_length (Vnode fid)).
  pose proof (fmt_x_length (Unique fid)). lia.
Qed.

Lemma split_dot (a a' b b' : list Z) : 46 ∉ a -> 46 ∉ a' ->
  a ++ 46 :: b = a' ++ 46 :: b' -> a = a' /\ b = b'.
Proof.
  revert a'. induction a as [|x a IH]; intros [|x' a'] Ha Ha' E; cbn in E.
  - injection E as ->. done.
  - injection E as <- _. destruct Ha'. left.
  - injection E as -> _. destruct Ha. left.
  - injection E as -> E. apply not_elem_of_cons in Ha as [_ Ha], Ha' as [_ Ha'].
    destruct (IH a' Ha Ha' E) as [-> ->]. done.
Qed.

(** ** The theorems *)

(** [FID_Cmp] is a total order on fids: it returns -1, 0 or 1, 0 exactly for equal
    fids (where [FID_EQ] holds), swapping the arguments negates it, and it is
    transitive. *)
Theorem FID_Cmp_total_order a b c :
  (FID_Cmp a b = 0 <-> a = b) /\ (FID_EQ a b = true <-> a = b) /\
  FID_Cmp b a = - FID_Cmp a b /\ (FID_Cmp a b = -1 \/ FID_Cmp a b = 0 \/ FID_Cmp a b = 1) /\
  (FID_Cmp a b < 0 -> FID_Cmp b c < 0 -> FID_Cmp a c < 0).
Proof.
  pose proof (fid_lt_irrefl a) as Ia. pose proof (fid_lt_irrefl b) as Ib. pose proof (fid_lt_irrefl c) as Ic.
  pose proof (fid_lt_trans a b a) as Ta. pose proof (fid_lt_trans a b c) as Tb. pose proof (fid_lt_trans a c a) as Tc.
  split; [|split; [|split; [|split]]].
  - destruct (FID_Cmp_spec a b) as [[-> H]|[[-> H]|[-> ->]]]; split; try done; intros ->; done.
  - unfold FID_EQ. destruct a as [v n u], b as [v' n' u']; cbn.
    destruct (Z.eqb_spec v v'), (Z.eqb_spec n n'), (Z.eqb_spec u u'); cbn; split; try done; congruence.
  - destruct (FID_Cmp_spec a b) as [[-> H]|[[-> H]|[-> ->]]].
    + destruct (FID_Cmp_spec b a) as [[-> H']|[[-> H']|[-> ->]]]; tauto || lia.
    + destruct (FID_Cmp_spec b a) as [[-> H']|[[-> H']|[-> ->]]]; tauto || lia.
    + destruct (FID_Cmp_spec b b) as [[-> H']|[[-> H']|[-> _]]]; tauto || lia.
  - destruct (FID_Cmp_spec a b) as [[-> _]|[[-> _]|[-> _]]]; tauto.
  - destruct (FID_Cmp_spec a b) as [[-> H]|[[-> H]|[-> _]]]; try lia.
    destruct (FID_Cmp_spec b c) as [[-> H']|[[-> H']|[-> _]]]; try lia.
    destruct (FID_Cmp_spec a c) as [[-> _]|[[-> H3]|[-> ->]]]; [lia|tauto|]. tauto.
Qed.

(** The buffers of [FID_] are four and the index is one of theirs. *)
Definition bufs_ok (s : FidBufs) : Prop := length (fb_buf s) = 4%nat /\ 0 <= fb_i s < 4.

Lemma FID_ok s fid : bufs_ok s ->
  let i := (fb_i s + 1) mod 4 in
  FID_ s fid = Ret (i, mkFidBufs (<[Z.to_nat i := fid_text fid]> (fb_buf s)) i) /\
  bufs_ok (mkFidBufs (<[Z.to_nat i := fid_text fid]> (fb_buf s)) i).
Proof.
  intros [Hl Hi] i. unfold FID_.
  assert ((if 4 <=? fb_i s + 1 then 0 else fb_i s + 1) = i) as ->.
  { unfold i. destruct (Z.leb_spec 4 (fb_i s + 1)).
    - assert (fb_i s = 3) as -> by lia. done.
    - rewrite Z.mod_small; lia. }
  pose proof (fid_text_length fid). destruct (Z.leb_spec (zlen (fid_text fid) + 1) 28); [|lia].
  split; [done|]. unfold bufs_ok. cbn. rewrite length_insert. split; [done|]. apply Z.mod_pos_bound. lia.
Qed.

(** Calling [FID_] on each fid of a list, as the arguments of one log message do. *)
Fixpoint FID_all (s : FidBufs) (fs : list ViceFid) : res (list Z * FidBufs) :=
  match fs with
  | [] => Ret ([], s)
  | f :: fs => let* (i, s) := FID_ s f in
               let* (js, s) := FID_all s fs in Ret (i :: js, s)
  end.

(** Up to four fids can be printed before the first text is used: the calls return
    distinct buffers, each holds its own fid's text after the last call, and no call
    writes past the 28 bytes of its buffer. *)
Theorem FID_ring_of_four s f1 f2 f3 f4 : bufs_ok s ->
  exists i1 i2 i3 i4 s',
    FID_all s [f1; f2; f3; f4] = Ret ([i1; i2; i3; i4], s') /\ bufs_ok s' /\
    fb_buf s' !! Z.to_nat i1 = Some (fid_text f1) /\ fb_buf s' !! Z.to_nat i2 = Some (fid_text f2) /\
    fb_buf s' !! Z.to_nat i3 = Some (fid_text f3) /\ fb_buf s' !! Z.to_nat i4 = Some (fid_text f4).
Proof.
  intros Hs. cbn [FID_all]. destruct s as [b i]. destruct Hs as [Hl Hi]; cbn in Hl, Hi.
  destruct (FID_ok (mkFidBufs b i) f1 (conj Hl Hi)) as [-> H1]. cbn [rbind].
  destruct (FID_ok _ f2 H1) as [-> H2]. cbn [rbind].
  destruct (FID_ok _ f3 H2) as [-> H3]. cbn [rbind].
  destruct (FID_ok _ f4 H3) as [-> H4]. cbn [rbind].
  eexists _, _, _, _, _. split; [reflexivity|]. split; [exact H4|]. cbn.
  destruct b as [|b0 [|b1 [|b2 [|b3 [|]]]]]; try discriminate.
  assert (i = 0 \/ i = 1 \/ i = 2 \/ i = 3) as [-> | [-> | [-> | ->]]] by lia; cbn; done.
Qed.

Lemma FID_ring_of_four_witness :
  exists i1 i2 i3 i4 s',
    FID_all (mkFidBufs [[]; []; []; []] 2) [mkViceFid 1 2 3; mkViceFid 4 5 6; mkViceFid 7 8 9; mkViceFid 10 11 12]
      = Ret ([i1; i2; i3; i4], s') /\ bufs_ok s' /\
    fb_buf s' !! Z.to_nat i1 = Some (fid_text (mkViceFid 1 2 3)) /\
    fb_buf s' !! Z.to_nat i2 = Some (fid_text (mkViceFid 4 5 6)) /\
    fb_buf s' !! Z.to_nat i3 = Some (fid_text (mkViceFid 7 8 9)) /\
    fb_buf s' !! Z.to_nat i4 = Some (fid_text (mkViceFid 10 11 12)).
Proof.
  apply (FID_ring_of_four (mkFidBufs [[]; []; []; []] 2) (mkViceFid 1 2 3) (mkViceFid 4 5 6)
    (mkViceFid 7 8 9) (mkViceFid 10 11 12)).
  split; [reflexivity|cbn; lia].
Defined.

(** The text of a fid identifies it: two fids with the same text are equal, and the
    three numbers can be read back from it. *)
Theorem fid_text_injective a b : fid32 a -> fid32 b -> fid_text a = fid_text b -> a = b.
Proof.
  intros (Ha1 & Ha2 & Ha3) (Hb1 & Hb2 & Hb3) E. unfold fid_text in E.
  apply split_dot in E as [E1 E]; [|apply fmt_x_no_dot..].
  apply split_dot in E as [E2 E3]; [|apply fmt_x_no_dot..].
  destruct a as [v n u], b as [v' n' u']; cbn [Volume Vnode Unique] in *.
  apply (f_equal hexread) in E1, E2, E3. rewrite !hexread_fmt in E1, E2, E3 by done. congruence.
Qed.

Lemma fid_text_injective_witness :
  fid_text (mkViceFid 0x7f000001 3 7) = fid_text (mkViceFid 0x7f000001 3 7) /\
  mkViceFid 0x7f000001 3 7 = mkViceFid 0x7f000001 3 7.
Proof.
  split; [reflexivity|]. apply fid_text_injective; [split; cbn; lia..|reflexivity].
Defined.

(** The reserved numbers keep the kinds apart: a fid is at most one of a local
    directory, a local file, a fake subtree root and a volume root; the fids made for
    disconnected operation are recognised as such, the others are not. *)
Theorem FID_kinds_disjoint fid vid unique :
  (FID_IsLocalDir fid = true -> FID_IsLocalFile fid = false /\ FID_IsFakeRoot fid = false /\ FID_IsVolRoot fid = false) /\
  (FID_IsLocalFile fid = true -> FID_IsFakeRoot fid = false /\ FID_IsVolRoot fid = false) /\
  (FID_IsFakeRoot fid = true -> FID_IsVolRoot fid = false /\ FID_IsDisco fid = false) /\
  (FID_IsDisco fid = true <-> FID_IsLocalDir fid = true \/ FID_IsLocalFile fid = true) /\
  FID_IsLocalFile (FID_MakeDiscoFile vid unique) = true /\ FID_IsLocalDir (FID_MakeDiscoDir vid unique) = true /\
  FID_IsLocalFile (FID_MakeLocalFile unique) = true /\ FID_IsLocalDir (FID_MakeLocalDir unique) = true /\
  FID_IsFakeRoot (FID_MakeSubtreeRoot vid unique) = true /\ FID_IsFakeRoot (FID_MakeLocalSubtreeRoot unique) = true /\
  FID_IsVolRoot (FID_MakeRoot fid) = true /\ FID_VolEQ (FID_MakeRoot fid) fid = true.
Proof.
  unfold FID_IsLocalDir, FID_IsLocalFile, FID_IsFakeRoot, FID_IsVolRoot, FID_IsDisco, FID_VolEQ. cbn.
  rewrite Z.eqb_refl. unfold LocalDirVnode, LocalFileVnode, FakeVnode, ROOT_VNODE, ROOT_UNIQUE.
  rewrite orb_true_iff, !Z.eqb_eq, !Z.eqb_neq, !andb_false_iff, orb_false_iff, !Z.eqb_neq.
  repeat split; try done; try tauto; intros; lia.
Qed.
