(* ===== verification/Acl.v ===== *)
(** * Access lists: [coda-src/al/alprocs.c]

    An access list holds positive entries followed by negative ones, each an id and a
    mask of rights; a CPS (current protection subdomain) is the sorted list of the ids a
    user acts for.  [AL_CheckRights] merges the two; [AL_Externalize] and
    [AL_Internalize] convert lists to and from text, with the protection database
    ([pdb.c]) translating ids and names. *)

From Stdlib Require Import ZArith Lia Sorting.Sorted.
From stdpp Require Import base list numbers.
From stdpp Require sorting.
From S2P Require Import Prelude Text.
Open Scope Z_scope.

Record AL_AccessEntry : Set := mkEntry { Id : Z; Rights : Z }.

(** [ActualEntries] is the array of [TotalNoOfEntries] slots. *)
Record AL_AccessList : Set := mkAlist {
  MySize : Z; Version : Z; TotalNoOfEntries : Z;
  PlusEntriesInUse : Z; MinusEntriesInUse : Z;
  ActualEntries : list AL_AccessEntry }.

Record PRS_InternalCPS : Set := mkCPS { InclEntries : Z; ExclEntries : Z; IdList : list Z }.

Definition AL_ALISTVERSION : Z := 1.
Definition AL_MAXEXTENTRIES : Z := 20.
Definition PRS_MAXNAMELEN : Z := 100.
Definition E2BIG : Z := 7.
Definition ENOENT : Z := 2.
Definition EINVAL : Z := 22.

(** What the protection database promises: a name's id (0 when unknown) and an id's name. *)
Class PDB : Type := {
  PDB_lookupByName : list Z -> Z;
  PDB_lookupById : Z -> option (list Z) }.

(** ** Creating lists *)

(** The size in bytes of a list with [n] slots (the header is 20 bytes, an entry 8). *)
Definition alist_size (n : Z) : Z := 28 + (n - 1) * 8.

(** [AL_NewAlist]: a negative size fails in [malloc] and aborts, a size below that of
    the header makes the stores to its fields overrun the block.  The slots are
    indeterminate until written; the model fills them with zeros. *)
Definition AL_NewAlist (malloc_ok : Z -> bool) (MinNoOfEntries : Z) : res AL_AccessList :=
  let t := alist_size MinNoOfEntries in
  if (t <? 0) || negb (malloc_ok t) then Stop CAbort else
  if t <? 20 then Stop CUndef else
  Ret (mkAlist t AL_ALISTVERSION MinNoOfEntries 0 0 (replicate (Z.to_nat MinNoOfEntries) (mkEntry 0 0))).

(** [AL_NewCPS] with room for [n] ids. *)
Definition AL_NewCPS (malloc_ok : Z -> bool) (MinNoOfEntries : Z) : res PRS_InternalCPS :=
  let t := 12 + (MinNoOfEntries - 1) * 4 in
  if (t <? 0) || negb (malloc_ok t) then Stop CAbort else
  if t <? 8 then Stop CUndef else
  Ret (mkCPS 0 0 (replicate (Z.to_nat MinNoOfEntries) 0)).

(** ** Byte order *)

Definition swap_entry (e : AL_AccessEntry) : AL_AccessEntry := mkEntry (bswap32 (Id e)) (bswap32 (Rights e)).

Definition swap_entries (n : Z) (l : list AL_AccessEntry) : res (list AL_AccessEntry) :=
  forZ 0 n (fun i l => let* e := aget l i in aset l i (swap_entry e)) l.

Definition AL_htonAlist (bigendian : bool) (Al : AL_AccessList) : res AL_AccessList :=
  if bigendian then Ret Al else
  let* es := swap_entries (PlusEntriesInUse Al + MinusEntriesInUse Al) (ActualEntries Al) in
  Ret (mkAlist (bswap32 (MySize Al)) (bswap32 (Version Al)) (bswap32 (TotalNoOfEntries Al))
         (bswap32 (PlusEntriesInUse Al)) (bswap32 (MinusEntriesInUse Al)) es).

Definition AL_ntohAlist (bigendian : bool) (Al : AL_AccessList) : res AL_AccessList :=
  if bigendian then Ret Al else
  let Al := mkAlist (bswap32 (MySize Al)) (bswap32 (Version Al)) (bswap32 (TotalNoOfEntries Al))
         (bswap32 (PlusEntriesInUse Al)) (bswap32 (MinusEntriesInUse Al)) (ActualEntries Al) in
  let* es := swap_entries (PlusEntriesInUse Al + MinusEntriesInUse Al) (ActualEntries Al) in
  Ret (mkAlist (MySize Al) (Version Al) (TotalNoOfEntries Al) (PlusEntriesInUse Al) (MinusEntriesInUse Al) es).

Definition swap_ids (n : Z) (l : list Z) : res (list Z) :=
  forZ 0 n (fun i l => let* e := aget l i in aset l i (bswap32 e)) l.

Definition AL_htonCPS (bigendian : bool) (C : PRS_InternalCPS) : res PRS_InternalCPS :=
  if bigendian then Ret C else
  let* ids := swap_ids (InclEntries C + ExclEntries C) (IdList C) in
  Ret (mkCPS (bswap32 (InclEntries C)) (bswap32 (ExclEntries C)) ids).

Definition AL_ntohCPS (bigendian : bool) (C : PRS_InternalCPS) : res PRS_InternalCPS :=
  if bigendian then Ret C else
  let C := mkCPS (bswap32 (InclEntries C)) (bswap32 (ExclEntries C)) (IdList C) in
  let* ids := swap_ids (InclEntries C + ExclEntries C) (IdList C) in
  Ret (mkCPS (InclEntries C) (ExclEntries C) ids).

(** ** Names *)
Definition AL_NameToId `{PDB} (Name : list Z) : Z * Z :=
  let id := PDB_lookupByName Name in (if id =? 0 then -1 else 0, id).

(** [AL_IdToName]: [None] for the result -1. *)
Definition AL_IdToName `{PDB} (id : Z) : option (list Z) :=
  if id =? 0 then None else PDB_lookupById id.

(** ** To text *)

(** Bytes [AL_NewExternalAlist] allocates. *)
Definition ext_size (n : Z) : Z := 20 + n * (PRS_MAXNAMELEN + 2).

Definition entry_name `{PDB} (e : AL_AccessEntry) : list Z :=
  match AL_IdToName (Id e) with Some nm => nm | None => fmt_d (Id e) end.
Definition entry_text `{PDB} (e : AL_AccessEntry) : list Z :=
  entry_name e ++ 9 :: fmt_d (Rights e) ++ [10].

(** Appending to the text in a buffer of [size] bytes, as [sprintf] and [strcpy] do. *)
Definition emit (size : Z) (buf s : list Z) : res (list Z) :=
  if zlen buf + zlen s + 1 <=? size then Ret (buf ++ s) else Stop CUndef.

Definition AL_Externalize `{PDB} (malloc_ok : Z -> bool) (Alist : AL_AccessList) : res (Z * option (list Z)) :=
  let n := PlusEntriesInUse Alist + MinusEntriesInUse Alist in
  if AL_MAXEXTENTRIES <? n then Ret (-1, None) else
  let size := ext_size n in
  if (size <? 0) || negb (malloc_ok size) then Stop CAbort else
  let* buf := emit size [] [48; 10; 48; 10] in
  let* buf := emit size [] (fmt_d (PlusEntriesInUse Alist) ++ 10 :: fmt_d (MinusEntriesInUse Alist) ++ [10]) in
  let* buf := forZ 0 n
    (fun i buf =>
       let* e := aget (ActualEntries Alist) i in
       let* buf := emit size buf (entry_name e) in
       emit size buf (9 :: fmt_d (Rights e) ++ [10])) buf in
  Ret (0, Some buf).

(** ** Comparison and sorting *)
Definition CmpPlus (a b : AL_AccessEntry) : Z :=
  if Id a <? Id b then -1 else if Id a =? Id b then 0 else 1.
Definition CmpMinus (a b : AL_AccessEntry) : Z :=
  if Id b <? Id a then -1 else if Id a =? Id b then 0 else 1.
Definition CmpInt (x y : Z) : Z := if x <? y then -1 else if x =? y then 0 else 1.

(** What C promises of [qsort] with a comparison that orders the elements: the elements
    are permuted into ascending order; where elements that compare equal end up is not
    specified, so the sorting function is a parameter. *)
Definition compares (cmp : AL_AccessEntry -> AL_AccessEntry -> Z) : Prop :=
  (forall x y, cmp x y <= 0 \/ cmp y x <= 0) /\
  (forall x y z, cmp x y <= 0 -> cmp y z <= 0 -> cmp x z <= 0).

Class QSort : Type := {
  sort_by : (AL_AccessEntry -> AL_AccessEntry -> Z) -> list AL_AccessEntry -> list AL_AccessEntry;
  sort_by_perm : forall cmp l, Permutation (sort_by cmp l) l;
  sort_by_ordered : forall cmp l, compares cmp -> StronglySorted (fun x y => cmp x y <= 0) (sort_by cmp l) }.

(** [qsort(&l[base], n, ...)]: fewer than two elements are not accessed. *)
Definition qsort `{QSort} (l : list AL_AccessEntry) (base n : Z) (cmp : AL_AccessEntry -> AL_AccessEntry -> Z)
  : res (list AL_AccessEntry) :=
  if (0 <=? n) && (n <=? 1) then Ret l else
  if (0 <=? n) && (0 <=? base) && (base + n <=? zlen l)
  then Ret (take (Z.to_nat base) l ++ sort_by cmp (take (Z.to_nat n) (drop (Z.to_nat base) l))
            ++ drop (Z.to_nat (base + n)) l)
  else Stop CUndef.

(** ** From text *)

(** [nextc], a pointer into the text, is the rest of the text from there, [None] once
    it has left the string. *)
Definition deref (nextc : option (list Z)) : res (list Z) :=
  match nextc with Some s => Ret s | None => Stop CUndef end.

(** [sscanf(Elist, "%d\n%d\n", &p, &m)] when it returns 2. *)
Definition scan_header (s : list Z) : res (option (Z * Z)) :=
  let* r := scan_d s in
  match r with
  | None => Ret None
  | Some (p, s) =>
      let* r := scan_d (skip_space s) in
      Ret (match r with None => None | Some (m, _) => Some (p, m) end)
  end.

(** [sscanf(nextc, "%s\t%d\n", tbuf, &rights)] when it returns 2; [tbuf] has
    [PRS_MAXNAMELEN + 1] bytes and ["%s"] has no bound. *)
Definition scan_entry (s : list Z) : res (option (list Z * Z)) :=
  match scan_s s with
  | None => Ret None
  | Some (tbuf, s) =>
      if PRS_MAXNAMELEN <? zlen tbuf then Stop CUndef else
      let* r := scan_d (skip_space s) in
      Ret (match r with None => None | Some (rights, _) => Some (tbuf, rights) end)
  end.

(** One entry of the loop: the error code, or the entry and the next position. *)
Definition read_entry `{PDB} (nextc : option (list Z)) : res (Z + AL_AccessEntry * option (list Z)) :=
  let* s := deref nextc in
  let* r := scan_entry s in
  match r with
  | None => Ret (inl EINVAL)
  | Some (tbuf, rights) =>
      let (rc, id) := AL_NameToId tbuf in
      if rc <? 0 then Ret (inl ENOENT) else Ret (inr (mkEntry id rights, after_newline s))
  end.

Definition AL_Internalize `{PDB} `{QSort} (malloc_ok : Z -> bool) (Elist : list Z) : res (Z * option AL_AccessList) :=
  let* h := scan_header Elist in
  match h with
  | None => Ret (EINVAL, None)
  | Some (p, m) =>
      if AL_MAXEXTENTRIES <? p + m then Ret (E2BIG, None) else
      let* Al := AL_NewAlist malloc_ok (p + m) in
      let nextc := after_newline Elist in
      let* s := deref nextc in
      let nextc := after_newline s in
      let* r := for_range 0 (TotalNoOfEntries Al)
        (fun i '(nextc, es) =>
           let* r := read_entry nextc in
           match r with
           | inl code => Ret (inr code)
           | inr (e, nextc) => let* es := aset es i e in Ret (inl (nextc, es))
           end) (nextc, ActualEntries Al) in
      match r with
      | inr code => Ret (code, None)
      | inl (_, es) =>
          let* es := qsort es 0 p CmpPlus in
          let* es := qsort es m m CmpMinus in
          Ret (0, Some (mkAlist (MySize Al) (Version Al) (TotalNoOfEntries Al) p m es))
      end
  end.

(** ** Checking rights *)

(** One iteration of the merge loops: [a] runs over the entries below [amax], [c] over
    the CPS. *)
Definition match_step (Alist : AL_AccessList) (CPS : PRS_InternalCPS) (amax : Z) (s : Z * Z * Z)
  : res (Z * Z * Z + Z) :=
  let '(a, c, rights) := s in
  if (a <? amax) && (c <? InclEntries CPS) then
    let* e := aget (ActualEntries Alist) a in
    let* id := aget (IdList CPS) c in
    let k := CmpInt (Id e) id in
    if k =? -1 then Ret (inl (a + 1, c, rights)) else
    if k =? 0 then Ret (inl (a + 1, c, Z.lor rights (Rights e))) else
    if k =? 1 then Ret (inl (a, c + 1, rights)) else Stop CAbort
  else Ret (inr rights).

(** Each iteration moves one index of an array. *)
Definition match_fuel (Alist : AL_AccessList) (CPS : PRS_InternalCPS) : nat :=
  S (length (ActualEntries Alist) + length (IdList CPS)).

Definition AL_CheckRights (Alist : AL_AccessList) (CPS : PRS_InternalCPS) : res Z :=
  if (PlusEntriesInUse Alist <=? 0) || (InclEntries CPS <=? 0) then Ret 0 else
  let* plusrights := while_loop (match_fuel Alist CPS)
    (match_step Alist CPS (PlusEntriesInUse Alist)) (0, 0, 0) in
  let* minusrights := while_loop (match_fuel Alist CPS)
    (match_step Alist CPS (TotalNoOfEntries Alist)) (PlusEntriesInUse Alist, 0, 0) in
  Ret (Z.land plusrights (Z.lnot minusrights)).

Definition AL_IsAMember (id : Z) (CPS : PRS_InternalCPS) : res Z :=
  let* r := for_range 0 (InclEntries CPS)
    (fun i (_ : unit) => let* x := aget (IdList CPS) i in
       if x =? id then Ret (inr tt) else Ret (inl tt)) tt in
  Ret (match r with inr _ => 1 | inl _ => 0 end).

(** ** Lemmas *)

(** Rights of the entries whose id is in [k]. *)
Definition rights_of (l : list AL_AccessEntry) (k : list Z) : Z :=
  foldr (fun e r => if decide (Id e ∈ k) then Z.lor (Rights e) r else r) 0 l.

Definition id_sorted (l : list AL_AccessEntry) : Prop := StronglySorted (fun x y => Id x <= Id y) l.

Lemma rights_of_cons e l k :
  rights_of (e :: l) k = if decide (Id e ∈ k) then Z.lor (Rights e) (rights_of l k) else rights_of l k.
Proof. done. Qed.

Lemma rights_of_nil_ids l : rights_of l [] = 0.
Proof.
  induction l as [|e l IH]; [done|]. rewrite rights_of_cons, decide_False; [done|]. intros H. inversion H.
Qed.

Lemma rights_of_skip_id l i k : (forall e, e ∈ l -> Id e <> i) -> rights_of l (i :: k) = rights_of l k.
Proof.
  induction l as [|e l IH]; intros Hl; [done|]. rewrite !rights_of_cons, IH by (intros; apply Hl; by right).
  apply decide_ext. rewrite elem_of_cons. specialize (Hl e ltac:(left)). tauto.
Qed.

Lemma sorted_head_le (l : list Z) i k : StronglySorted Z.le (i :: k) -> forall x, x ∈ i :: k -> i <= x.
Proof.
  intros H x [->|Hx]%elem_of_cons; [lia|]. apply StronglySorted_inv in H as [_ H].
  rewrite Forall_forall in H. apply H. by apply list_elem_of_In.
Qed.

Lemma id_sorted_head e l : id_sorted (e :: l) -> forall x, x ∈ e :: l -> Id e <= Id x.
Proof.
  intros H x [->|Hx]%elem_of_cons; [lia|]. apply StronglySorted_inv in H as [_ H].
  rewrite Forall_forall in H. apply H. by apply list_elem_of_In.
Qed.

Section Match.
Context (Al : AL_AccessList) (C : PRS_InternalCPS) (amax : Z).
Context (Ha : amax <= zlen (ActualEntries Al)) (Hc : InclEntries C <= zlen (IdList C)).

Lemma match_loop n a c r :
  0 <= a -> 0 <= c -> Z.max 0 (amax - a) + Z.max 0 (InclEntries C - c) < Z.of_nat n ->
  id_sorted (slice (ActualEntries Al) a amax) -> StronglySorted Z.le (slice (IdList C) c (InclEntries C)) ->
  while_loop n (match_step Al C amax) (a, c, r) =
  Ret (Z.lor r (rights_of (slice (ActualEntries Al) a amax) (slice (IdList C) c (InclEntries C)))).
Proof using Ha Hc.
  revert a c r. induction n as [|n IH]; intros a c r H0a H0c Hn Hsa Hsc; [lia|].
  cbn [while_loop]. unfold match_step at 1.
  destruct (Z.ltb_spec a amax) as [Hlt|Hge]; cbn [andb].
  2:{ cbn [rbind]. rewrite (slice_nil _ a amax) by lia. cbn. now rewrite Z.lor_0_r. }
  destruct (Z.ltb_spec c (InclEntries C)) as [Hltc|Hgec].
  2:{ cbn [rbind]. rewrite (slice_nil (IdList C) c) by lia. now rewrite rights_of_nil_ids, Z.lor_0_r. }
  destruct (slice_cons (ActualEntries Al) a amax ltac:(lia) Ha) as (e & Ee & Es).
  destruct (slice_cons (IdList C) c (InclEntries C) ltac:(lia) Hc) as (i & Ei & Esi).
  rewrite (aget_ok _ _ e) by done. cbn [rbind]. rewrite (aget_ok _ _ i) by done. cbn [rbind].
  rewrite Es, Esi. rewrite Es in Hsa. rewrite Esi in Hsc.
  pose proof (id_sorted_head _ _ Hsa) as Hle. pose proof (sorted_head_le [] _ _ Hsc) as Hlec.
  unfold CmpInt. destruct (Z.ltb_spec (Id e) i) as [Hei|Hei]; [|destruct (Z.eqb_spec (Id e) i) as [Hi|Hi]]; cbn [rbind Z.eqb Pos.eqb].
  - rewrite IH; try lia.
    + rewrite <- Esi, rights_of_cons, decide_False; [done|]. rewrite Esi. intros Hin. specialize (Hlec _ Hin). lia.
    + apply StronglySorted_inv in Hsa as [Hsa _]. done.
    + rewrite Esi. done.
  - rewrite IH; try lia.
    + rewrite <- Esi, rights_of_cons, decide_True; [|rewrite Esi, Hi; left]. now rewrite Z.lor_assoc.
    + apply StronglySorted_inv in Hsa as [Hsa _]. done.
    + rewrite Esi. done.
  - rewrite IH; try lia.
    + rewrite rights_of_skip_id; [now rewrite <- Es|]. intros x Hx Hxi. specialize (Hle x Hx). lia.
    + rewrite Es. done.
    + apply StronglySorted_inv in Hsc as [Hsc _]. done.
Qed.
End Match.

(** A list as [AL_Internalize] makes them: every slot is in use. *)
Record alist_wf (Al : AL_AccessList) : Prop := {
  aw_plus : 0 <= PlusEntriesInUse Al;
  aw_minus : 0 <= MinusEntriesInUse Al;
  aw_total : TotalNoOfEntries Al = PlusEntriesInUse Al + MinusEntriesInUse Al;
  aw_slots : zlen (ActualEntries Al) = TotalNoOfEntries Al }.

Definition plus_entries (Al : AL_AccessList) : list AL_AccessEntry := slice (ActualEntries Al) 0 (PlusEntriesInUse Al).
Definition minus_entries (Al : AL_AccessList) : list AL_AccessEntry :=
  slice (ActualEntries Al) (PlusEntriesInUse Al) (TotalNoOfEntries Al).
Definition cps_ids (C : PRS_InternalCPS) : list Z := slice (IdList C) 0 (InclEntries C).

(** C25 [AL_CheckRights] grants exactly the rights of the positive entries for ids of the
    CPS less those of the negative entries for ids of the CPS, when positive entries,
    negative entries and CPS are in ascending order of id. *)
Theorem AL_CheckRights_correct Al C :
  alist_wf Al -> InclEntries C <= zlen (IdList C) ->
  id_sorted (plus_entries Al) -> id_sorted (minus_entries Al) -> StronglySorted Z.le (cps_ids C) ->
  AL_CheckRights Al C =
  Ret (Z.land (rights_of (plus_entries Al) (cps_ids C)) (Z.lnot (rights_of (minus_entries Al) (cps_ids C)))).
Proof.
  intros [Hp Hm Ht Hs] Hc Hsp Hsm Hsc. unfold AL_CheckRights, match_fuel.
  destruct (Z.leb_spec (PlusEntriesInUse Al) 0) as [H0|H0]; cbn [orb].
  { unfold plus_entries. rewrite slice_nil by lia. done. }
  destruct (Z.leb_spec (InclEntries C) 0) as [H1|H1].
  { unfold cps_ids. rewrite (slice_nil (IdList C)) by lia. now rewrite !rights_of_nil_ids. }
  unfold zlen in *.
  rewrite (match_loop Al C (PlusEntriesInUse Al)); try done; unfold zlen; try lia. cbn [rbind].
  rewrite Z.lor_0_l, (match_loop Al C (TotalNoOfEntries Al)); try done; unfold zlen; lia.
Qed.

Definition al0 : AL_AccessList :=
  mkAlist 44 1 3 2 1 [mkEntry (-5) 127; mkEntry 10 8; mkEntry 20 64].
Definition cps0 : PRS_InternalCPS := mkCPS 3 0 [-5; 10; 20].

Lemma AL_CheckRights_correct_witness :
  AL_CheckRights al0 cps0 = Ret (Z.land (Z.lor 127 8) (Z.lnot 64)).
Proof.
  refine (AL_CheckRights_correct al0 cps0 _ _ _ _ _); [split; vm_compute; congruence|vm_compute; congruence|..];
    repeat (constructor; try (cbn; lia)).
Defined.

(** The merge of [AL_CheckRights] misses denials when negative entries are in
    descending order, the order in which [AL_Internalize] sorts them: of two negative
    entries for ids the user acts for, only the larger id's counts. *)
Theorem AL_CheckRights_misses_denial size ver plus i j ri rj :
  j < i -> 1 <= zlen plus -> id_sorted plus ->
  AL_CheckRights (mkAlist size ver (zlen plus + 2) (zlen plus) 2 (plus ++ [mkEntry i ri; mkEntry j rj]))
                 (mkCPS 2 0 [j; i]) =
  Ret (Z.land (rights_of plus [j; i]) (Z.lnot ri)).
Proof.
  intros Hij Hp Hs. unfold AL_CheckRights. cbn [PlusEntriesInUse InclEntries TotalNoOfEntries].
  destruct (Z.leb_spec (zlen plus) 0); [lia|]. change (2 <=? 0) with false. cbn [orb].
  set (Al := mkAlist _ _ _ _ _ _). set (C := mkCPS _ _ _).
  assert (zlen (ActualEntries Al) = zlen plus + 2) as Hlen by (unfold zlen; cbn; rewrite length_app; cbn; lia).
  assert (slice (ActualEntries Al) 0 (zlen plus) = plus) as Hsl.
  { unfold slice, zlen. cbn. rewrite Nat2Z.id. now rewrite take_app_length. }
  assert (InclEntries C <= zlen (IdList C)) as HC by (vm_compute; congruence).
  assert (StronglySorted Z.le (slice (IdList C) 0 (InclEntries C))) as HCs by (repeat (constructor; try lia)).
  assert (Z.of_nat (match_fuel Al C) = zlen plus + 5) as Hfuel.
  { unfold match_fuel. replace (length (IdList C)) with 2%nat by done. unfold zlen in *. lia. }
  rewrite (match_loop Al C (zlen plus)); try done; [|lia|change (InclEntries C) with 2; lia|rewrite Hsl; done].
  cbn [rbind]. unfold match_fuel. rewrite Z.lor_0_l, Hsl.
  change (slice (IdList C) 0 (InclEntries C)) with [j; i].
  assert (forall k, (k < 2)%nat -> ActualEntries Al !! (length plus + k)%nat = [mkEntry i ri; mkEntry j rj] !! k) as Hat.
  { intros k Hk. cbn. rewrite lookup_app_r by lia. f_equal. lia. }
  assert (aget (ActualEntries Al) (zlen plus) = Ret (mkEntry i ri)) as E1.
  { apply aget_ok; [lia|]. unfold zlen. rewrite Nat2Z.id, <- (Nat.add_0_r (length plus)), Hat by lia. done. }
  assert (aget (ActualEntries Al) (zlen plus + 1) = Ret (mkEntry j rj)) as E2.
  { apply aget_ok; [lia|]. unfold zlen. replace (Z.to_nat _) with (length plus + 1)%nat by lia. rewrite Hat by lia. done. }
  assert (exists f, (length (ActualEntries Al) + length (IdList C))%nat = S (S (S f))) as [f ->].
  { exists (length (ActualEntries Al) - 1)%nat. cbn [IdList C length]. unfold zlen in *. lia. }
  set (n := zlen plus) in *.
  assert (match_step Al C (n + 2) (n, 0, 0) = Ret (inl (n, 1, 0))) as S1.
  { unfold match_step. destruct (Z.ltb_spec n (n + 2)); [|lia]. rewrite E1. cbn [andb rbind InclEntries C Id]. change (aget (IdList C) 0) with (Ret j). cbn [rbind]. unfold CmpInt.
    change (0 <? 2) with true. destruct (Z.ltb_spec i j); [lia|]. destruct (Z.eqb_spec i j); [lia|]. done. }
  assert (match_step Al C (n + 2) (n, 1, 0) = Ret (inl (n + 1, 1, ri))) as S2.
  { unfold match_step. destruct (Z.ltb_spec n (n + 2)); [|lia]. rewrite E1. cbn [andb rbind InclEntries C Id]. change (aget (IdList C) 1) with (Ret i). cbn [rbind]. unfold CmpInt.
    change (1 <? 2) with true. rewrite Z.ltb_irrefl, Z.eqb_refl. done. }
  assert (match_step Al C (n + 2) (n + 1, 1, ri) = Ret (inl (n + 1 + 1, 1, ri))) as S3.
  { unfold match_step. destruct (Z.ltb_spec (n + 1) (n + 2)); [|lia]. rewrite E2. cbn [andb rbind InclEntries C Id]. change (aget (IdList C) 1) with (Ret i). cbn [rbind]. unfold CmpInt.
    change (1 <? 2) with true.    destruct (Z.ltb_spec j i); [|lia]. done. }
  assert (match_step Al C (n + 2) (n + 1 + 1, 1, ri) = Ret (inr ri)) as S4.
  { unfold match_step. destruct (Z.ltb_spec (n + 1 + 1) (n + 2)); [lia|]. done. }
  cbn [while_loop]. rewrite S1. cbn [rbind]. rewrite S2. cbn [rbind]. rewrite S3. cbn [rbind].
  rewrite S4. done.
Qed.

Lemma AL_CheckRights_misses_denial_witness :
  AL_CheckRights (mkAlist 44 1 3 1 2 [mkEntry 10 127; mkEntry 20 64; mkEntry 10 127]) (mkCPS 2 0 [10; 20])
  = Ret (Z.land 127 (Z.lnot 64)).
Proof.
  refine (AL_CheckRights_misses_denial 44 1 [mkEntry 10 127] 20 10 64 127 _ _ _);
    [lia|vm_compute; congruence|repeat constructor].
Defined.

(** ** Byte order *)
Definition entry32 (e : AL_AccessEntry) : Prop := int32 (Id e) /\ int32 (Rights e).
Definition alist32 (Al : AL_AccessList) : Prop :=
  int32 (MySize Al) /\ int32 (Version Al) /\ int32 (TotalNoOfEntries Al) /\
  int32 (PlusEntriesInUse Al) /\ int32 (MinusEntriesInUse Al) /\ Forall entry32 (ActualEntries Al).

Lemma swap_entry_invol e : entry32 e -> swap_entry (swap_entry e) = e.
Proof. intros [Hi Hr]. unfold swap_entry. cbn. rewrite !bswap32_invol by done. now destruct e. Qed.

(** Converting an access list to network order and back gives the list again, on
    hosts of either byte order. *)
Theorem AL_ntoh_hton bigendian Al : alist_wf Al -> alist32 Al ->
  exists net, AL_htonAlist bigendian Al = Ret net /\ AL_ntohAlist bigendian net = Ret Al.
Proof.
  intros [Hp Hm Ht Hs] (H1 & H2 & H3 & H4 & H5 & H6). destruct bigendian; [exists Al; done|].
  unfold AL_htonAlist, swap_entries. rewrite map_loop by lia. cbn [rbind]. eexists. split; [reflexivity|].
  unfold AL_ntohAlist, swap_entries. cbn [MySize Version TotalNoOfEntries PlusEntriesInUse MinusEntriesInUse ActualEntries].
  rewrite !bswap32_invol by done. set (n := PlusEntriesInUse Al + MinusEntriesInUse Al) in *.
  assert (Z.to_nat n = length (ActualEntries Al)) as Hn by (unfold zlen in Hs; lia).
  rewrite Hn, firstn_all, drop_all, app_nil_r. rewrite map_loop by (unfold zlen in *; rewrite length_fmap; lia).
  cbn [rbind]. rewrite Hn, take_ge, drop_ge, app_nil_r by (rewrite length_fmap; lia).
  rewrite <- list_fmap_compose. replace (swap_entry ∘ swap_entry <$> ActualEntries Al) with (ActualEntries Al).
  { now destruct Al. }
  symmetry. rewrite <- (list_fmap_id (ActualEntries Al)) at 2. apply list_fmap_ext. intros i e He. cbn.
  rewrite swap_entry_invol; [done|]. rewrite Forall_lookup in H6. eauto.
Qed.

Lemma AL_ntoh_hton_witness :
  exists net, AL_htonAlist false al0 = Ret net /\ AL_ntohAlist false net = Ret al0.
Proof.
  apply (AL_ntoh_hton false al0); [split; vm_compute; congruence|].
  unfold alist32, int32. cbn. repeat split; try lia. repeat constructor; cbn; lia.
Defined.

(** ** Text *)

(** Names ["%s"] reads back: no white space, at most [PRS_MAXNAMELEN] characters. *)
Definition name_ok (nm : list Z) : Prop :=
  nm <> [] /\ Forall (fun c => is_space c = false) nm /\ zlen nm <= PRS_MAXNAMELEN.

(** An entry whose id the database translates to a name and back. *)
Definition named `{PDB} (e : AL_AccessEntry) : Prop :=
  Id e <> 0 /\ int32 (Rights e) /\
  exists nm, PDB_lookupById (Id e) = Some nm /\ PDB_lookupByName nm = Id e /\ name_ok nm.

Definition list_text `{PDB} (es : list AL_AccessEntry) : list Z := concat (entry_text <$> es).
Definition header_text (p m : Z) : list Z := fmt_d p ++ 10 :: fmt_d m ++ [10].

Lemma fmt_d_head n : exists c s, fmt_d n = c :: s /\ is_space c = false.
Proof.
  pose proof (fmt_d_length n). pose proof (fmt_d_chars n) as Hc. destruct (fmt_d n) as [|c s]; cbn in *; [lia|].
  exists c, s. split; [done|]. inversion Hc as [|? ? [Hd|Hd] _]; subst; [|done].
  unfold is_digit, is_space in *. destruct (Z.eqb_spec c 32), (Z.leb_spec 9 c), (Z.leb_spec c 13); cbn; done || lia.
Qed.

Lemma skip_fmt_d n rest : skip_space (fmt_d n ++ rest) = fmt_d n ++ rest.
Proof. destruct (fmt_d_head n) as (c & s & -> & Hc). cbn. now rewrite Hc. Qed.

Lemma after_newline_app s rest : Forall (fun c => c <> 10) s -> after_newline (s ++ 10 :: rest) = Some rest.
Proof.
  intros H. induction H as [|c s Hc _ IH]; cbn; [done|]. destruct (Z.eqb_spec c 10); [done|]. done.
Qed.

Lemma fmt_d_no_newline n : Forall (fun c => c <> 10) (fmt_d n).
Proof.
  eapply Forall_impl; [|apply fmt_d_chars]. intros c [Hc|Hc] ->; [|done]. vm_compute in Hc. discriminate.
Qed.

Lemma scan_header_text p m rest : int32 p -> int32 m ->
  scan_header (header_text p m ++ rest) = Ret (Some (p, m)).
Proof.
  intros Hp Hm. unfold scan_header, header_text. rewrite <- app_assoc. cbn [app].
  rewrite scan_fmt_d by done. cbn [rbind skip_space]. change (is_space 10) with true. cbn iota.
  rewrite <- app_assoc. cbn [app]. rewrite skip_fmt_d. rewrite scan_fmt_d by done. done.
Qed.

Section Text.
Context `{P : PDB}.

Lemma entry_name_named e : named e -> exists nm, entry_name e = nm /\ PDB_lookupByName nm = Id e /\ name_ok nm.
Proof.
  intros (H0 & _ & nm & E1 & E2 & Hn). exists nm. split; [|done]. unfold entry_name, AL_IdToName.
  destruct (Z.eqb_spec (Id e) 0); [done|]. now rewrite E1.
Qed.

Lemma read_entry_text e rest : named e ->
  read_entry (Some (entry_text e ++ rest)) = Ret (inr (e, Some rest)).
Proof.
  intros He. destruct (entry_name_named e He) as (nm & En & Eid & Hne & Hsp & Hlen).
  destruct He as (H0 & Hr & _). unfold read_entry, scan_entry, scan_s. cbn [deref rbind].
  unfold entry_text. rewrite En.
  assert (skip_space ((nm ++ 9 :: fmt_d (Rights e) ++ [10]) ++ rest) = nm ++ (9 :: fmt_d (Rights e) ++ 10 :: rest)) as ->.
  { rewrite <- app_assoc. cbn [app]. rewrite <- app_assoc. cbn [app].
    destruct nm as [|c nm]; [done|]. cbn. inversion Hsp as [|? ? Hc _]; subst. now rewrite Hc. }
  rewrite (span_app _ nm); [|eapply Forall_impl; [|exact Hsp]; intros c ->; done|done].
  destruct nm as [|c nm]; [done|]. cbn iota. set (nm' := c :: nm) in *.
  destruct (Z.ltb_spec PRS_MAXNAMELEN (zlen nm')); [lia|].
  cbn [skip_space]. change (is_space 9) with true. cbn iota. rewrite skip_fmt_d.
  rewrite scan_fmt_d by done. cbn [rbind]. unfold AL_NameToId. rewrite Eid.
  destruct (Z.eqb_spec (Id e) 0); [done|]. cbn iota. change (0 <? 0) with false. cbn iota.
  assert (after_newline ((nm' ++ 9 :: fmt_d (Rights e) ++ [10]) ++ rest) = Some rest) as ->; [|now destruct e].
  replace ((nm' ++ 9 :: fmt_d (Rights e) ++ [10]) ++ rest) with ((nm' ++ 9 :: fmt_d (Rights e)) ++ 10 :: rest).
  2:{ repeat (rewrite <- app_assoc; cbn [app]). done. }
  apply after_newline_app. apply Forall_app. split; [|constructor; [done|apply fmt_d_no_newline]].
  eapply Forall_impl; [|exact Hsp]. intros x Hx ->. discriminate.
Qed.

(** The loop that reads the entries. *)
Lemma read_loop es : Forall named es ->
  for_range 0 (zlen es)
    (fun i '(nextc, acc) =>
       let* r := read_entry nextc in
       match r with
       | inl code => Ret (inr code)
       | inr (e, nextc) => let* acc := aset acc i e in Ret (inl (nextc, acc))
       end) (Some (list_text es), replicate (length es) (mkEntry 0 0))
  = Ret (@inl _ Z (Some [], es)).
Proof.
  intros Hes. match goal with |- for_range 0 _ ?b _ = _ => set (body := b) end.
  destruct (for_range_total (R := Z) (fun k '(nextc, acc) => nextc = Some (list_text (drop (Z.to_nat k) es)) /\
    acc = take (Z.to_nat k) es ++ replicate (length es - Z.to_nat k) (mkEntry 0 0)) 0 (zlen es) body
    (Some (list_text es), replicate (length es) (mkEntry 0 0))) as ([nx acc] & E & -> & ->).
  - unfold zlen. lia.
  - cbn. rewrite Nat.sub_0_r. done.
  - intros k [nx acc] Hk [-> ->]. destruct (aget_total es k Hk) as (e & He & _).
    assert (named e) as Hn by (rewrite Forall_lookup in Hes; eauto).
    unfold body. rewrite (drop_S _ e) by done. unfold list_text at 1. cbn [fmap list_fmap concat].
    rewrite read_entry_text by done. cbn [rbind]. unfold zlen in Hk.
    rewrite aset_ok by (unfold zlen; rewrite length_app, length_take, length_replicate; lia).
    cbn [rbind]. eexists. split; [reflexivity|]. replace (Z.to_nat (k + 1)) with (S (Z.to_nat k)) by lia.
    split; [done|]. rewrite (take_S_r _ _ e) by done.
    rewrite insert_app_r_alt by (rewrite length_take; lia). rewrite length_take.
    replace (length es - Z.to_nat k)%nat with (S (length es - S (Z.to_nat k))) by lia.
    replace (Z.to_nat k - Z.to_nat k `min` length es)%nat with 0%nat by lia. cbn. now rewrite <- app_assoc.
  - rewrite E. unfold zlen. rewrite Nat2Z.id, drop_all, firstn_all, Nat.sub_diag, app_nil_r. done.
Qed.

(** [AL_Internalize] of a list's text, up to the sorting. *)
Lemma Internalize_text `{QSort} malloc_ok p m es :
  (forall n, malloc_ok n = true) -> 0 <= p -> 0 <= m -> zlen es = p + m -> p + m <= AL_MAXEXTENTRIES ->
  Forall named es ->
  AL_Internalize malloc_ok (header_text p m ++ list_text es) =
  (let* es := qsort es 0 p CmpPlus in
   let* es := qsort es m m CmpMinus in
   Ret (0, Some (mkAlist (alist_size (p + m)) AL_ALISTVERSION (p + m) p m es))).
Proof.
  intros Hm Hp0 Hm0 Hl Hmax Hes. unfold AL_Internalize, AL_MAXEXTENTRIES in *.
  rewrite scan_header_text by (unfold int32; lia). cbn [rbind].
  destruct (Z.ltb_spec 20 (p + m)); [lia|]. unfold AL_NewAlist.
  assert (20 <= alist_size (p + m)) by (unfold alist_size; lia).
  destruct (Z.ltb_spec (alist_size (p + m)) 0); [lia|]. rewrite Hm. cbn [negb orb].
  destruct (Z.ltb_spec (alist_size (p + m)) 20); [lia|]. cbn [rbind TotalNoOfEntries ActualEntries MySize Version].
  unfold header_text. rewrite <- !app_assoc. cbn [app].
  rewrite after_newline_app by apply fmt_d_no_newline. cbn [deref rbind].
  rewrite <- app_assoc. cbn [app]. rewrite after_newline_app by apply fmt_d_no_newline.
  replace (Z.to_nat (p + m)) with (length es) by (unfold zlen in Hl; lia). rewrite <- Hl.
  rewrite read_loop by done. done.
Qed.
End Text.


Section Externalize.
Context `{P : PDB}.


Lemma header_text_length p m : zlen (header_text p m) <= 24.
Proof.
  unfold header_text, zlen. repeat (rewrite length_app; cbn [length]).
  pose proof (fmt_d_length p). pose proof (fmt_d_length m). lia.
Qed.



End Externalize.

(** *** Sorting *)
Lemma CmpPlus_le x y : CmpPlus x y <= 0 <-> Id x <= Id y.
Proof. unfold CmpPlus. destruct (Z.ltb_spec (Id x) (Id y)), (Z.eqb_spec (Id x) (Id y)); lia. Qed.
Lemma CmpMinus_le x y : CmpMinus x y <= 0 <-> Id y <= Id x.
Proof. unfold CmpMinus. destruct (Z.ltb_spec (Id y) (Id x)), (Z.eqb_spec (Id x) (Id y)); lia. Qed.
Lemma CmpPlus_compares : compares CmpPlus.
Proof. split; [intros x y|intros x y z]; rewrite !CmpPlus_le; lia. Qed.
Lemma CmpMinus_compares : compares CmpMinus.
Proof. split; [intros x y|intros x y z]; rewrite !CmpMinus_le; lia. Qed.

(** The ids of a sorted permutation are determined, and with distinct ids its entries. *)
Lemma id_sorted_ids l : id_sorted l -> StronglySorted Z.le (Id <$> l).
Proof.
  intros H. induction H as [|e l Hs IH Hf]; [constructor|]. cbn. constructor; [done|].
  apply Forall_fmap. done.
Qed.

Lemma id_sorted_perm l k : id_sorted l -> id_sorted k -> Permutation l k -> Id <$> l = Id <$> k.
Proof.
  intros Hl Hk Hp. apply (sorting.StronglySorted_unique Z.le); [by apply id_sorted_ids..|]. by apply Permutation_map.
Qed.

Lemma id_sorted_unique l k : id_sorted l -> id_sorted k -> Permutation l k -> NoDup (Id <$> k) -> l = k.
Proof.
  intros Hl Hk Hp Hd. pose proof (id_sorted_perm l k Hl Hk Hp) as E. apply list_eq. intros i.
  assert ((Id <$> l) !! i = (Id <$> k) !! i) as Ei by now rewrite E.
  rewrite !list_lookup_fmap in Ei. destruct (l !! i) as [x|] eqn:Ex, (k !! i) as [y|] eqn:Ey; try done. f_equal.
  injection Ei as Ei. apply list_elem_of_lookup_2 in Ex. rewrite Hp in Ex. apply list_elem_of_lookup in Ex as (j & Ej).
  rewrite NoDup_alt in Hd. assert (j = i) as -> by (apply (Hd j i (Id x)); rewrite list_lookup_fmap, ?Ej, ?Ey; cbn; congruence).
  congruence.
Qed.

Section Sort.
Context `{Q : QSort}.

(** The first [qsort] of [AL_Internalize]. *)
Lemma qsort_plus_ok es p : 0 <= p <= zlen es ->
  exists l, qsort es 0 p CmpPlus = Ret (l ++ drop (Z.to_nat p) es) /\ Permutation l (take (Z.to_nat p) es) /\ id_sorted l.
Proof.
  intros Hp. unfold qsort. destruct (Z.leb_spec 0 p); [|lia]. cbn [andb]. destruct (Z.leb_spec p 1).
  - exists (take (Z.to_nat p) es). split; [now rewrite take_drop|]. split; [done|].
    destruct es as [|e es]; [destruct (Z.to_nat p); constructor|].
    assert (Z.to_nat p = 0 \/ Z.to_nat p = 1)%nat as [-> | ->] by lia; cbn; repeat constructor.
  - destruct (Z.leb_spec (0 + p) (zlen es)); [|lia]. cbn [andb Z.leb Z.compare]. cbn [Z.to_nat take app]. rewrite drop_0.
    eexists. split; [reflexivity|]. split; [apply sort_by_perm|].
    pose proof (sort_by_ordered CmpPlus (take (Z.to_nat p) es) CmpPlus_compares) as Hs.
    induction Hs as [|x l Hs IH Hf]; constructor; [done|]. eapply Forall_impl; [|exact Hf].
    intros y Hy. by apply CmpPlus_le.
Qed.

Lemma qsort_plus_sorted es p : 0 <= p <= zlen es -> id_sorted (take (Z.to_nat p) es) ->
  NoDup (Id <$> take (Z.to_nat p) es) -> qsort es 0 p CmpPlus = Ret es.
Proof.
  intros Hp Hs Hd. destruct (qsort_plus_ok es p Hp) as (l & -> & Hperm & Hl).
  rewrite (id_sorted_unique l (take (Z.to_nat p) es)) by done. now rewrite take_drop.
Qed.

(** Two entries in the order opposite to the comparison change places. *)
Lemma sort_by_swap c d : Id c < Id d -> sort_by CmpMinus [c; d] = [d; c].
Proof.
  intros Hcd. pose proof (sort_by_perm CmpMinus [c; d]) as Hp. pose proof (sort_by_ordered CmpMinus [c; d] CmpMinus_compares) as Hs.
  apply Permutation_sym, Permutation_length_2_inv in Hp as [E|E]; [|done]. rewrite E in Hs.
  apply StronglySorted_inv in Hs as [_ Hf]. apply Forall_inv in Hf. rewrite CmpMinus_le in Hf. lia.
Qed.
End Sort.

(** One such function, by insertion. *)
Fixpoint insert_by (cmp : AL_AccessEntry -> AL_AccessEntry -> Z) (x : AL_AccessEntry) (l : list AL_AccessEntry)
  : list AL_AccessEntry :=
  match l with
  | [] => [x]
  | y :: l' => if cmp x y <=? 0 then x :: l else y :: insert_by cmp x l'
  end.

Lemma insert_by_perm cmp x l : Permutation (insert_by cmp x l) (x :: l).
Proof. induction l as [|y l IH]; [done|]. cbn. destruct (cmp x y <=? 0); [done|]. rewrite IH. constructor. Qed.

Lemma insert_by_ordered cmp x l : compares cmp -> StronglySorted (fun x y => cmp x y <= 0) l ->
  StronglySorted (fun x y => cmp x y <= 0) (insert_by cmp x l).
Proof.
  intros [Ht Htr] Hl. induction Hl as [|y l Hl IH Hf]; [repeat constructor|]. cbn. destruct (Z.leb_spec (cmp x y) 0) as [Hle|Hgt].
  - constructor; [by constructor|]. constructor; [done|]. eapply Forall_impl; [|exact Hf]. intros z Hz. eapply Htr; done.
  - constructor; [done|]. rewrite (insert_by_perm cmp x l). constructor; [|done]. destruct (Ht x y); [lia|done].
Qed.

Definition insertion_qsort : QSort.
Proof.
  refine {| sort_by := fun cmp => foldr (insert_by cmp) [] |}.
  - intros cmp l. induction l as [|x l IH]; [done|]. cbn. rewrite insert_by_perm, IH. done.
  - intros cmp l Hc. induction l as [|x l IH]; [constructor|]. apply insert_by_ordered; done.
Defined.


(** With at least two negative entries and fewer positive ones, [AL_Internalize] of a
    valid text is undefined: the second [qsort] starts at slot [m] instead of slot [p] and
    sorts past the end of the list. *)
Theorem AL_Internalize_overrun `{PDB} `{QSort} malloc_ok plus minus :
  (forall n, malloc_ok n = true) -> 2 <= zlen minus -> zlen plus < zlen minus ->
  zlen plus + zlen minus <= AL_MAXEXTENTRIES -> Forall named plus -> Forall named minus ->
  AL_Internalize malloc_ok (header_text (zlen plus) (zlen minus) ++ list_text (plus ++ minus)) = Stop CUndef.
Proof.
  intros Hm H2 Hlt Hmax Hp Hmi. pose proof (zlen_nonneg plus).
  rewrite Internalize_text; try done; try lia; [|apply zlen_app|apply Forall_app; done].
  destruct (qsort_plus_ok (plus ++ minus) (zlen plus)) as (l & -> & Hperm & _); [rewrite zlen_app; lia|].
  apply Permutation_length in Hperm. unfold zlen in Hperm at 1. unfold zlen at 1.
  rewrite Nat2Z.id, take_app_length in Hperm. rewrite Nat2Z.id, drop_app_length.
  cbn [rbind]. unfold qsort. rewrite zlen_app.
  replace (zlen l) with (zlen plus) by (unfold zlen; lia).
  destruct (Z.leb_spec (zlen minus) 1); [lia|].
  destruct (Z.leb_spec (zlen minus + zlen minus) (zlen plus + zlen minus)); [lia|]. now rewrite !andb_false_r.
Qed.

(** C33 With three positive entries of ascending ids and two negative ones, the first of
    them for a larger id than the last positive one, the same mistake exchanges a grant and
    a denial: the entry written as a denial for [d] comes back as a grant, and the grant
    for [c] as a denial. *)
Theorem AL_Internalize_grants_denied `{PDB} `{QSort} malloc_ok a b c d e :
  (forall n, malloc_ok n = true) -> Forall named [a; b; c; d; e] ->
  Id a < Id b < Id c -> Id c < Id d ->
  AL_Internalize malloc_ok (header_text 3 2 ++ list_text [a; b; c; d; e]) =
  Ret (0, Some (mkAlist (alist_size 5) AL_ALISTVERSION 5 3 2 [a; b; d; c; e])).
Proof.
  intros Hm Hn Hab Hcd. rewrite Internalize_text; try done; try lia.
  rewrite qsort_plus_sorted; [|unfold zlen; cbn; lia| |].
  2:{ cbn. repeat (constructor; try lia). }
  2:{ change (NoDup [Id a; Id b; Id c]). rewrite !list.NoDup_cons, !not_elem_of_cons. repeat split; try lia; [apply not_elem_of_nil..|constructor]. }
  cbn [rbind]. change (qsort [a; b; c; d; e] 2 2 CmpMinus) with (Ret ([a; b] ++ sort_by CmpMinus [c; d] ++ [e])).
  now rewrite sort_by_swap.
Qed.

(** A database whose users are the lower-case letters, with their codes as ids. *)
Definition letter_pdb : PDB := {|
  PDB_lookupByName := fun nm => match nm with [c] => if (97 <=? c) && (c <=? 122) then c else 0 | _ => 0 end;
  PDB_lookupById := fun i => if (97 <=? i) && (i <=? 122) then Some [i] else None |}.

Lemma letter_named i r : 97 <= i <= 122 -> int32 r -> @named letter_pdb (mkEntry i r).
Proof.
  intros Hi Hr. split; [cbn; lia|]. split; [done|]. exists [i]. cbn.
  assert ((97 <=? i) && (i <=? 122) = true) as -> by lia. split; [done|]. split; [done|].
  split; [done|]. split; [|unfold zlen, PRS_MAXNAMELEN; cbn; lia].
  constructor; [|constructor]. unfold is_space. destruct (Z.eqb_spec i 32), (Z.leb_spec 9 i), (Z.leb_spec i 13); cbn; done || lia.
Qed.

Ltac letters := repeat (constructor; [apply letter_named; unfold int32; lia|]); constructor.


Lemma AL_Internalize_overrun_witness :
  @AL_Internalize letter_pdb insertion_qsort (fun _ => true)
    (header_text 1 2 ++ @list_text letter_pdb [mkEntry 97 127; mkEntry 98 1; mkEntry 99 1]) = Stop CUndef.
Proof.
  apply (@AL_Internalize_overrun letter_pdb insertion_qsort (fun _ => true) [mkEntry 97 127] [mkEntry 98 1; mkEntry 99 1]);
    [reflexivity|vm_compute; congruence..|vm_compute; congruence|letters|letters].
Defined.

Lemma AL_Internalize_grants_denied_witness :
  @AL_Internalize letter_pdb insertion_qsort (fun _ => true)
    (header_text 3 2 ++ @list_text letter_pdb [mkEntry 97 1; mkEntry 98 1; mkEntry 99 1; mkEntry 100 64; mkEntry 101 1]) =
  Ret (0, Some (mkAlist (alist_size 5) AL_ALISTVERSION 5 3 2
    [mkEntry 97 1; mkEntry 98 1; mkEntry 100 64; mkEntry 99 1; mkEntry 101 1])).
Proof.
  apply (@AL_Internalize_grants_denied letter_pdb insertion_qsort (fun _ => true) (mkEntry 97 1) (mkEntry 98 1) (mkEntry 99 1)
    (mkEntry 100 64) (mkEntry 101 1)); [reflexivity|letters|cbn; lia|cbn; lia].
Defined.

(** [AL_Externalize] overruns its buffer on valid lists: six entries with names of
    [PRS_MAXNAMELEN] characters and a mask of three digits need more bytes than
    [AL_NewExternalAlist] allocates. *)
Theorem AL_Externalize_overflow `{PDB} malloc_ok size ver e :
  (forall n, malloc_ok n = true) -> zlen (entry_name e) = PRS_MAXNAMELEN -> 100 <= Rights e <= 127 ->
  AL_Externalize malloc_ok (mkAlist size ver 6 6 0 [e; e; e; e; e; e]) = Stop CUndef.
Proof.
  intros Hm Hn Hr.
  assert (zlen (fmt_d (Rights e)) = 3) as Hd.
  { assert (forallb (fun r => zlen (fmt_d r) =? 3) (seqZ 100 28) = true) as Hall by (vm_compute; reflexivity).
    rewrite forallb_forall in Hall. apply Z.eqb_eq, Hall, list_elem_of_In, elem_of_seqZ. lia. }
  unfold AL_Externalize. cbn [PlusEntriesInUse MinusEntriesInUse ActualEntries]. change (AL_MAXEXTENTRIES <? 6 + 0) with false.
  cbn iota. rewrite Hm. change (ext_size (6 + 0) <? 0) with false. cbn [orb negb].
  change (ext_size (6 + 0)) with 632. unfold emit at 1. change (zlen [] + zlen [48; 10; 48; 10] + 1 <=? 632) with true.
  cbn [rbind]. unfold emit at 1. change (fmt_d 6 ++ 10 :: fmt_d 0 ++ [10]) with [54; 10; 48; 10].
  change (zlen [] + zlen [54; 10; 48; 10] + 1 <=? 632) with true. cbn [rbind app].
  unfold PRS_MAXNAMELEN in Hn.
  assert (forall buf, zlen buf + 101 <= 632 -> emit 632 buf (entry_name e) = Ret (buf ++ entry_name e)) as He.
  { intros buf Hb. unfold emit. rewrite Hn. destruct (Z.leb_spec (zlen buf + 100 + 1) 632); [done|lia]. }
  set (t := 9 :: fmt_d (Rights e) ++ [10]).
  assert (zlen t = 5) as Ht by (unfold t, zlen in *; cbn [length]; rewrite length_app; cbn [length]; lia).
  assert (forall buf, zlen buf + 6 <= 632 -> emit 632 buf t = Ret (buf ++ t)) as Hee.
  { intros buf Hb. unfold emit. rewrite Ht. destruct (Z.leb_spec (zlen buf + 5 + 1) 632); [done|lia]. }
  unfold forZ, for_range. change (Z.to_nat (6 + 0 - 0)) with 6%nat. cbn [loop].
  do 5 (match goal with |- context [aget [e; e; e; e; e; e] ?i] => change (aget [e; e; e; e; e; e] i) with (Ret e) end; cbn [rbind];
    rewrite He by (repeat rewrite zlen_app; rewrite ?Hn, ?Ht; unfold zlen; cbn [length]; lia); cbn [rbind];
    rewrite Hee by (repeat rewrite zlen_app; rewrite ?Hn, ?Ht; unfold zlen; cbn [length]; lia); cbn [rbind]).
  match goal with |- context [aget [e; e; e; e; e; e] ?i] => change (aget [e; e; e; e; e; e] i) with (Ret e) end. cbn [rbind].
  rewrite He by (repeat rewrite zlen_app; rewrite ?Hn, ?Ht; unfold zlen; cbn [length]; lia). cbn [rbind].
  match goal with |- context [emit 632 ?buf (9 :: ?x)] => assert (emit 632 buf (9 :: x) = Stop CUndef) as ->; [|done] end.
  fold t. unfold emit. repeat rewrite zlen_app. rewrite Hn, Ht. change (zlen [54; 10; 48; 10]) with 4. done.
Qed.

(** A database with one user, number 7, whose name has the maximal length. *)
Definition long_pdb : PDB := {|
  PDB_lookupByName := fun _ => 7;
  PDB_lookupById := fun _ => Some (replicate 100 97) |}.

Lemma AL_Externalize_overflow_witness :
  @AL_Externalize long_pdb (fun _ => true)
    (mkAlist 0 0 6 6 0 [mkEntry 7 127; mkEntry 7 127; mkEntry 7 127; mkEntry 7 127; mkEntry 7 127; mkEntry 7 127]) = Stop CUndef.
Proof.
  apply (@AL_Externalize_overflow long_pdb (fun _ => true) 0 0 (mkEntry 7 127)); [reflexivity|reflexivity|cbn; lia].
Defined.

(** [AL_IsAMember] answers 1 exactly for the included ids of the CPS (its comment
    promises 0 for members and -1 otherwise). *)
Theorem AL_IsAMember_decides id C : InclEntries C <= zlen (IdList C) ->
  exists r, AL_IsAMember id C = Ret r /\ (r = 0 \/ r = 1) /\ (r = 1 <-> id ∈ cps_ids C).
Proof.
  intros Hc. unfold AL_IsAMember, cps_ids. destruct (Z.leb_spec (InclEntries C) 0) as [H0|H0].
  { unfold for_range. replace (Z.to_nat (InclEntries C - 0)) with 0%nat by lia. cbn. exists 0.
    rewrite slice_nil by lia. split; [done|]. split; [tauto|]. split; [done|]. intros H. inversion H. }
  match goal with |- context [for_range 0 _ ?b tt] => set (body := b) end.
  assert (forall k x, 0 <= k < InclEntries C -> IdList C !! Z.to_nat k = Some x -> x ∈ slice (IdList C) 0 (InclEntries C)) as Hin.
  { intros k x Hk Hx. unfold slice. cbn. rewrite drop_0. apply list_elem_of_lookup. exists (Z.to_nat k).
    rewrite lookup_take_lt by lia. done. }
  destruct (for_range_rule (fun k (_ : unit) => forall j, 0 <= j < k -> IdList C !! Z.to_nat j <> Some id)
    (fun k (_ : unit) => IdList C !! Z.to_nat k = Some id) 0 (InclEntries C) body tt)
    as [([] & -> & Hno)|(k & [] & Hk & -> & Hx)]; [lia|lia| | |]; cbn [rbind].
  - intros k [] Hk Hno. destruct (aget_total (IdList C) k ltac:(lia)) as (x & Hx & Ex). unfold body. rewrite Ex. cbn [rbind].
    destruct (Z.eqb_spec x id) as [->|Hne]; [right; exists tt; done|]. left. exists tt. split; [done|].
    intros j Hj. destruct (decide (j = k)) as [->|]; [congruence|]. apply Hno. lia.
  - exists 0. split; [done|]. split; [tauto|]. split; [done|]. intros H. exfalso.
    unfold slice in H. cbn in H. rewrite drop_0 in H. apply list_elem_of_lookup in H as (j & Hj).
    apply lookup_take_Some in Hj as [Hj Hlt]. apply (Hno (Z.of_nat j)); [lia|]. now rewrite Nat2Z.id.
  - exists 1. split; [done|]. split; [tauto|]. split; [|done]. intros _. eapply Hin; done.
Qed.

Lemma AL_IsAMember_decides_witness :
  exists r, AL_IsAMember 10 cps0 = Ret r /\ (r = 0 \/ r = 1) /\ (r = 1 <-> 10 ∈ cps_ids cps0).
Proof. apply (AL_IsAMember_decides 10 cps0). vm_compute. congruence. Defined.
