(* ===== verification/Vv.v ===== *)
(** * Version vectors

    Model of coda-src/vv/inconsist.cc and nettohost.cc: the version vectors that
    replicas of an object carry, their comparison, the check which of a group of
    vectors dominate ([VV_Check]), their maximum, and the network form.
    [VV_Check] finds the dominant set of the group if there is one; the fast path
    and the brute-force path compute the same thing. *)
From Stdlib Require Import ZArith Lia.
From stdpp Require Import base list numbers.
From S2P Require Import Prelude.
From S2P Require Import Text.

Module Vv.

Definition VSG_MEMBERS : Z := 8.

Record ViceStoreId := { HostId : Z; Uniquifier : Z }.

(** The eight sites are accessed as an array that starts at [Site0]. *)
Record ViceVersionVector := { Versions : list Z; StoreId : ViceStoreId; Flags : Z }.
Abbreviation vv := ViceVersionVector.

Inductive VV_Cmp_Result := VV_EQ | VV_DOM | VV_SUB | VV_INC.

Definition VV_INCON : Z := 1.
Definition IsIncon (v : vv) : bool := negb (Z.land (Flags v) VV_INCON =? 0).

(** ** Comparison *)
Definition VV_Cmp_IgnoreInc (a b : vv) : res VV_Cmp_Result :=
  let* r := for_range 0 VSG_MEMBERS
    (fun i r =>
       let* a_val := aget (Versions a) i in
       let* b_val := aget (Versions b) i in
       Ret (if a_val =? b_val then inl r
            else if a_val >? b_val then match r with VV_SUB => inr VV_INC | _ => inl VV_DOM end
            else match r with VV_DOM => inr VV_INC | _ => inl VV_SUB end)) VV_EQ in
  match r with inl r => Ret r | inr r => Ret r end.

Definition VV_Cmp (a b : vv) : res VV_Cmp_Result :=
  if IsIncon a || IsIncon b then Ret VV_INC else VV_Cmp_IgnoreInc a b.

(** [IgnoreInc ? VV_Cmp_IgnoreInc(a, b) : VV_Cmp(a, b)]. *)
Definition compare (IgnoreInc : bool) (a b : vv) : res VV_Cmp_Result :=
  if IgnoreInc then VV_Cmp_IgnoreInc a b else VV_Cmp a b.

(** ** The dominant set

    The array [vvp] of pointers is a list, [None] for NULL; the vectors are only read. *)
Abbreviation group := (list (option vv)).

(** The index of the first pointer that is not NULL, or -1. *)
Definition first_vector (vvp : group) : res Z :=
  let* r := for_range 0 VSG_MEMBERS
    (fun i _ => let* p := aget vvp i in Ret (match p with Some _ => inr i | None => inl tt end)) tt in
  match r with inl _ => Ret (-1) | inr i => Ret i end.

(** How the inner loop of the brute-force check is left: [return 0] or [goto outer_continue]. *)
Inductive leave_inner := ReturnZero | OuterContinue.

Definition brute_inner (EqReq IgnoreInc : bool) (i j : Z) (st : Z * group)
  : res (Z * group + leave_inner * (Z * group)) :=
  let '(HowMany, vvp) := st in
  if i =? j then Ret (inl st)
  else
    let* q := aget vvp j in
    match q with
    | None => Ret (inl st)
    | Some b =>
        let* p := aget vvp i in
        match p with
        | None => Stop CUndef
        | Some a =>
            let* result := compare IgnoreInc a b in
            match result with
            | VV_EQ => Ret (inl (HowMany + 1, vvp))
            | VV_DOM =>
                if EqReq then Ret (inr (ReturnZero, st))
                else let* vvp := aset vvp j None in Ret (inl (HowMany, vvp))
            | VV_SUB =>
                if EqReq then Ret (inr (ReturnZero, st))
                else let* vvp := aset vvp i None in Ret (inr (OuterContinue, (HowMany, vvp)))
            | VV_INC => if EqReq then Ret (inr (ReturnZero, st)) else Ret (inr (OuterContinue, st))
            end
        end
    end.

(** [VV_BruteForceCheck(&HowMany, vvp, EqReq, IgnoreInc)]: the result, [HowMany] and the array. *)
Definition VV_BruteForceCheck (HowMany : Z) (vvp : group) (EqReq IgnoreInc : bool) : res (Z * Z * group) :=
  let* i := first_vector vvp in
  if i =? -1 then Ret (1, 0, vvp)
  else
    let* r := for_range i VSG_MEMBERS
      (fun i st =>
         let* p := aget (snd st) i in
         match p with
         | None => Ret (inl st)
         | Some _ =>
             let* r := for_range 0 VSG_MEMBERS (brute_inner EqReq IgnoreInc i) (1, snd st) in
             match r with
             | inl (n, vvp) => Ret (inr (1, n, vvp))
             | inr (ReturnZero, (n, vvp)) => Ret (inr (0, n, vvp))
             | inr (OuterContinue, st) => Ret (inl st)
             end
         end) (HowMany, vvp) in
    match r with inl (n, vvp) => Ret (0, n, vvp) | inr r => Ret r end.

Definition check_step (EqReq IgnoreInc : bool) (j : Z) (st : Z * Z * group)
  : res (Z * Z * group + Z * Z * group) :=
  let '(dom_ix, HowMany, vvp) := st in
  let* q := aget vvp j in
  match q with
  | None => Ret (inl st)
  | Some b =>
      let* p := aget vvp dom_ix in
      match p with
      | None => Stop CUndef
      | Some a =>
          let* result := compare IgnoreInc a b in
          match result with
          | VV_EQ => Ret (inl (dom_ix, HowMany + 1, vvp))
          | VV_DOM =>
              if EqReq then Ret (inr (0, HowMany, vvp))
              else let* vvp := aset vvp j None in Ret (inl (dom_ix, HowMany, vvp))
          | VV_SUB =>
              if EqReq then Ret (inr (0, HowMany, vvp))
              else let* vvp := forZ dom_ix j (fun k vvp => aset vvp k None) vvp in Ret (inl (j, 1, vvp))
          | VV_INC =>
              if EqReq then Ret (inr (0, HowMany, vvp))
              else let* r := VV_BruteForceCheck HowMany vvp EqReq IgnoreInc in Ret (inr r)
          end
      end
  end.

Definition VV_Check_Real (vvp : group) (EqReq IgnoreInc : bool) : res (Z * Z * group) :=
  let* dom_ix := first_vector vvp in
  if dom_ix =? -1 then Ret (1, 0, vvp)
  else
    let* r := for_range (dom_ix + 1) VSG_MEMBERS (check_step EqReq IgnoreInc) (dom_ix, 1, vvp) in
    match r with inl (_, n, vvp) => Ret (1, n, vvp) | inr r => Ret r end.

Definition VV_Check (vvp : group) (EqReq : bool) : res (Z * Z * group) := VV_Check_Real vvp EqReq false.
Definition VV_Check_IgnoreInc (vvp : group) (EqReq : bool) : res (Z * Z * group) := VV_Check_Real vvp EqReq true.

(** ** Arithmetic *)
Definition NullSid : ViceStoreId := {| HostId := 0; Uniquifier := 0 |}.
Definition with_versions (v : vv) (l : list Z) : vv := {| Versions := l; StoreId := StoreId v; Flags := Flags v |}.

(** A signed 32-bit result; overflow is undefined. *)
Definition int_op (f : Z -> Z -> Z) (x y : Z) : res Z :=
  let v := f x y in if (- 2 ^ 31 <=? v) && (v <? 2 ^ 31) then Ret v else Stop CUndef.

Definition combine_sites (f : Z -> Z -> Z) (v1 v2 : vv) : res vv :=
  let* l := forZ 0 VSG_MEMBERS
    (fun i l => let* x := aget l i in let* y := aget (Versions v2) i in
                let* z := int_op f x y in aset l i z) (Versions v1) in
  Ret (with_versions v1 l).
Definition AddVVs : vv -> vv -> res vv := combine_sites Z.add.
Definition SubVVs : vv -> vv -> res vv := combine_sites Z.sub.

Definition fill_sites (x : Z) (v : vv) : res (list Z) :=
  forZ 0 VSG_MEMBERS (fun i l => aset l i x) (Versions v).
Definition InitVV (v : vv) : res vv :=
  let* l := fill_sites 0 v in Ret {| Versions := l; StoreId := NullSid; Flags := 0 |}.
Definition InvalidateVV (v : vv) : res vv :=
  let* l := fill_sites (-1) v in
  Ret {| Versions := l; StoreId := {| HostId := u32 (-1); Uniquifier := u32 (-1) |}; Flags := 0 |}.

Definition IsRunt (v : vv) : res bool :=
  let* r := for_range 0 VSG_MEMBERS
    (fun i _ => let* x := aget (Versions v) i in Ret (if negb (x =? 0) then inr tt else inl tt)) tt in
  match r with
  | inr _ => Ret false
  | inl _ => Ret (negb (negb (HostId (StoreId v) =? 0) || negb (Uniquifier (StoreId v) =? 0) ||
                        (negb (Flags v =? 0) && negb (IsIncon v))))
  end.

(** The largest value of site [i] in the group, or 0. *)
Definition max_site (vvgroup : group) (i : Z) : res Z :=
  forZ 0 VSG_MEMBERS
    (fun j max =>
       let* p := aget vvgroup j in
       match p with
       | Some v => let* val := aget (Versions v) i in Ret (if val >? max then val else max)
       | None => Ret max
       end) 0.

Definition GetMaxVV (vvgroup : group) (domindex : Z) : res vv :=
  let* l := forZ 0 VSG_MEMBERS (fun i l => let* m := max_site vvgroup i in aset l i m) (replicate 8 0) in
  let* sid := (if domindex =? -1 then
                 let* i := first_vector vvgroup in
                 if i =? -1 then Ret NullSid
                 else let* p := aget vvgroup i in match p with Some v => Ret (StoreId v) | None => Stop CUndef end
               else if domindex =? -2 then Ret NullSid
               else let* p := aget vvgroup domindex in
                    match p with Some v => Ret (StoreId v) | None => Stop CUndef end) in
  Ret {| Versions := l; StoreId := sid; Flags := 0 |}.

(** ** The network form *)

(** [htonl] and [ntohl] of an [RPC2_Unsigned] on a little-endian host. *)
Definition swapu (v : Z) : Z := u32 (bswap32 v).
Definition swap_sid (s : ViceStoreId) : ViceStoreId :=
  {| HostId := swapu (HostId s); Uniquifier := swapu (Uniquifier s) |}.
Definition swap_vv (invv outvv : vv) : res vv :=
  let* l := forZ 0 VSG_MEMBERS
    (fun i l => let* x := aget (Versions invv) i in aset l i (bswap32 x)) (Versions outvv) in
  Ret {| Versions := l; StoreId := swap_sid (StoreId invv); Flags := swapu (Flags invv) |}.
Definition ntohsid : ViceStoreId -> ViceStoreId := swap_sid.
Definition htonsid : ViceStoreId -> ViceStoreId := swap_sid.
Definition ntohvv : vv -> vv -> res vv := swap_vv.
Definition htonvv : vv -> vv -> res vv := swap_vv.

(** [SPrintVV(buf, len, v)]: the text, when it fits. *)
Definition fmt_sharp_x (n : Z) : list Z := if n =? 0 then [48] else [48; 120] ++ fmt_x n.
Definition vv_text (v : vv) : list Z :=
  [91; 32] ++ concat ((fun x => fmt_d x ++ [32]) <$> Versions v) ++ [93; 32; 91; 32] ++
  fmt_x (HostId (StoreId v)) ++ [46] ++ fmt_x (Uniquifier (StoreId v)) ++ [32; 93; 32; 91; 32] ++
  fmt_sharp_x (Flags v) ++ [32; 93].
Definition SPrintVV (len : Z) (v : vv) : res (list Z) :=
  cassert (zlen (vv_text v) <? len) ;;; Ret (vv_text v).

(** ** What the comparison means *)
Definition vv_ok (v : vv) : Prop := length (Versions v) = 8%nat.

(** The value of a site. *)
Definition site (v : vv) (i : Z) : Z := default 0 (Versions v !! Z.to_nat i).

(** [a] has seen every update [b] has seen, on the sites below [k]. *)
Definition geq_upto (k : Z) (a b : vv) : Prop := forall i, 0 <= i < k -> site b i <= site a i.
Abbreviation geq := (geq_upto VSG_MEMBERS).

Lemma geq_refl a : geq a a.
Proof. intros i _. lia. Qed.
Lemma geq_trans a b c : geq a b -> geq b c -> geq a c.
Proof. intros Hab Hbc i Hi. specialize (Hab i Hi). specialize (Hbc i Hi). lia. Qed.

Lemma aget_site v i : vv_ok v -> 0 <= i < VSG_MEMBERS -> aget (Versions v) i = Ret (site v i).
Proof.
  intros Hv Hi. unfold VSG_MEMBERS in Hi. destruct (aget_total (Versions v) i) as (x & Hx & E).
  { unfold zlen. rewrite Hv. lia. }
  rewrite E. unfold site. by rewrite Hx.
Qed.

Lemma geq_upto_step k a b : 0 <= k -> geq_upto (k + 1) a b <-> geq_upto k a b /\ site b k <= site a k.
Proof.
  intros Hk. split.
  - intros Hg. split; [|apply Hg; lia]. intros i Hi. apply Hg. lia.
  - intros [Hg Hs] i Hi. destruct (decide (i = k)) as [->|]; [done|]. apply Hg. lia.
Qed.

(** The comparison tells which of two decidable relations hold. *)
Definition tells (P Q : Prop) (r : VV_Cmp_Result) : Prop :=
  match r with
  | VV_EQ => P /\ Q
  | VV_DOM => P /\ ~ Q
  | VV_SUB => ~ P /\ Q
  | VV_INC => ~ P /\ ~ Q
  end.

Lemma VV_Cmp_IgnoreInc_ok a b : vv_ok a -> vv_ok b ->
  exists r, VV_Cmp_IgnoreInc a b = Ret r /\ tells (geq a b) (geq b a) r.
Proof.
  intros Ha Hb. unfold VV_Cmp_IgnoreInc.
  edestruct (for_range_rule
    (fun k r => r <> VV_INC /\ tells (geq_upto k a b) (geq_upto k b a) r)
    (fun (_ : Z) r => r = VV_INC /\ ~ geq a b /\ ~ geq b a) 0 VSG_MEMBERS) as [(r & E & [Hr Ht])|(k & r & Hk & E & [-> Hn])].
  4:{ rewrite E. by exists r. }
  4:{ rewrite E. exists VV_INC. done. }
  - done.
  - split; [done|]. split; intros i Hi; lia.
  - intros k r Hk [Hr Ht]. rewrite !aget_site by done. cbn [rbind].
    pose proof (geq_upto_step k a b ltac:(lia)) as Sab. pose proof (geq_upto_step k b a ltac:(lia)) as Sba.
    assert (geq a b -> geq_upto (k + 1) a b) as Uab by (intros Hg i Hi; apply Hg; lia).
    assert (geq b a -> geq_upto (k + 1) b a) as Uba by (intros Hg i Hi; apply Hg; lia).
    destruct (Z.eqb_spec (site a k) (site b k)) as [E|E].
    { left. exists r. split; [done|]. split; [done|]. destruct r; cbn in *; rewrite ?Sab, ?Sba; intuition lia. }
    destruct (Z.gtb_spec (site a k) (site b k)) as [G|G].
    + destruct r; cbn in Ht; try done; [left|left|right]; eexists; (split; [done|]); (split; [done|]); cbn; rewrite ?Sab, ?Sba; intuition lia.
    + destruct r; cbn in Ht; try done; [left|right|left]; eexists; (split; [done|]); (split; [done|]); cbn; rewrite ?Sab, ?Sba; intuition lia.
Qed.

(** [a] dominates or equals [b] as far as [compare] is concerned. *)
Definition above (ign : bool) (a b : vv) : Prop :=
  (ign = true \/ (IsIncon a = false /\ IsIncon b = false)) /\ geq a b.

Lemma above_trans ign a b c : above ign a b -> above ign b c -> above ign a c.
Proof. intros [Ha Hab] [Hb Hbc]. split; [tauto|by eapply geq_trans]. Qed.

Lemma compare_ok ign a b : vv_ok a -> vv_ok b ->
  exists r, compare ign a b = Ret r /\ tells (above ign a b) (above ign b a) r.
Proof.
  intros Ha Hb. destruct (VV_Cmp_IgnoreInc_ok a b Ha Hb) as (r & E & Ht). unfold compare, VV_Cmp, above.
  destruct ign; [exists r; split; [done|]; destruct r; cbn in *; tauto|].
  destruct (IsIncon a) eqn:Ia, (IsIncon b) eqn:Ib; cbn [orb];
    try (exists VV_INC; split; [done|]; cbn; intuition congruence).
  exists r. split; [done|]. destruct r; cbn in *; tauto.
Qed.

(** ** Arrays of pointers *)
Definition ptr (vvp : group) (i : Z) : option vv :=
  if 0 <=? i then default None (vvp !! Z.to_nat i) else None.
Definition group_ok (vvp : group) : Prop := zlen vvp = VSG_MEMBERS /\ forall i v, ptr vvp i = Some v -> vv_ok v.

Lemma aget_ptr vvp i : group_ok vvp -> 0 <= i < VSG_MEMBERS -> aget vvp i = Ret (ptr vvp i).
Proof.
  intros [Hz _] Hi. destruct (aget_total vvp i) as (x & Hx & E); [lia|]. rewrite E. unfold ptr. rewrite Hx.
  destruct (Z.leb_spec 0 i); [done|lia].
Qed.

Lemma ptr_range vvp i v : group_ok vvp -> ptr vvp i = Some v -> 0 <= i < VSG_MEMBERS.
Proof.
  intros [Hz _] Hp. unfold ptr in Hp. destruct (Z.leb_spec 0 i); [|done].
  destruct (vvp !! Z.to_nat i) eqn:E; [|done]. apply lookup_lt_Some in E. unfold zlen, VSG_MEMBERS in *. lia.
Qed.

(** [vvp[i] = 0]. *)
Lemma aset_null vvp i : group_ok vvp -> 0 <= i < VSG_MEMBERS ->
  exists vvp', aset vvp i None = Ret vvp' /\ group_ok vvp' /\
    forall k, ptr vvp' k = if decide (k = i) then None else ptr vvp k.
Proof.
  intros [Hz Hok] Hi. rewrite aset_ok by lia. eexists. split; [done|].
  assert (forall k, ptr (<[Z.to_nat i := None]> vvp) k = if decide (k = i) then None else ptr vvp k) as Hp.
  { intros k. unfold ptr. destruct (Z.leb_spec 0 k), (decide (k = i)) as [->|Hne]; try done; try lia.
    - rewrite list_lookup_insert_eq; [done|]. unfold zlen, VSG_MEMBERS in *. lia.
    - rewrite list_lookup_insert_ne; [done|]. lia. }
  split; [|done]. split; [by rewrite zlen_insert|]. intros k v. rewrite Hp. destruct (decide (k = i)); [done|apply Hok].
Qed.

(** The number of indices below [k] that satisfy [f]. *)
Fixpoint cntn (f : Z -> bool) (n : nat) : Z :=
  match n with O => 0 | S n => cntn f n + (if f (Z.of_nat n) then 1 else 0) end.
Definition cnt (f : Z -> bool) (k : Z) : Z := cntn f (Z.to_nat k).
Definition filled (vvp : group) (k : Z) : bool := bool_decide (is_Some (ptr vvp k)).

Lemma cnt_step f k : 0 <= k -> cnt f (k + 1) = cnt f k + (if f k then 1 else 0).
Proof.
  intros Hk. unfold cnt. replace (Z.to_nat (k + 1)) with (S (Z.to_nat k)) by lia. cbn [cntn]. by rewrite Z2Nat.id.
Qed.
Lemma cnt_ext f g k : (forall i, 0 <= i < k -> f i = g i) -> cnt f k = cnt g k.
Proof.
  unfold cnt. intros E. assert (forall n, Z.of_nat n <= k -> cntn f n = cntn g n) as Hn.
  { induction n as [|n IH]; [done|]. intros Hn. cbn [cntn]. rewrite IH, E by lia. done. }
  destruct (decide (0 <= k)); [apply Hn; lia|]. by replace (Z.to_nat k) with 0%nat by lia.
Qed.
Lemma cnt_false f k : (forall i, 0 <= i < k -> f i = false) -> cnt f k = 0.
Proof.
  intros E. rewrite (cnt_ext f (fun _ => false)) by done. unfold cnt. induction (Z.to_nat k) as [|n IH]; [done|]. cbn [cntn]. by rewrite IH.
Qed.
Lemma cnt_split f i k : 0 <= i < k -> f i = true -> cnt f k = 1 + cnt (fun j => negb (j =? i) && f j) k.
Proof.
  intros Hi Hf. unfold cnt.
  assert (forall n, cntn f n = (if i <? Z.of_nat n then 1 else 0) + cntn (fun j => negb (j =? i) && f j) n) as Hn.
  { induction n as [|n IH]; [cbn [cntn]; destruct (Z.ltb_spec i (Z.of_nat 0)); lia|]. cbn [cntn]. rewrite IH.
    destruct (Z.eqb_spec (Z.of_nat n) i) as [E|Hne]; cbn [negb andb].
    - rewrite E, Hf. destruct (Z.ltb_spec i i), (Z.ltb_spec i (Z.of_nat (S n))); lia.
    - destruct (Z.ltb_spec i (Z.of_nat n)), (Z.ltb_spec i (Z.of_nat (S n))); lia. }
  rewrite Hn. destruct (Z.ltb_spec i (Z.of_nat (Z.to_nat k))); lia.
Qed.

Lemma filled_true vvp k v : ptr vvp k = Some v -> filled vvp k = true.
Proof. intros E. unfold filled. rewrite E. by apply bool_decide_eq_true_2. Qed.
Lemma filled_false vvp k : ptr vvp k = None -> filled vvp k = false.
Proof. intros E. unfold filled. rewrite E. apply bool_decide_eq_false_2. by intros [? ?]. Qed.
Lemma filled_ptr vvp vvp' k : ptr vvp k = ptr vvp' k -> filled vvp k = filled vvp' k.
Proof. unfold filled. by intros ->. Qed.
Lemma filled_inv vvp k : filled vvp k = true -> exists v, ptr vvp k = Some v.
Proof. unfold filled. intros E. by apply bool_decide_eq_true_1 in E. Qed.

(** [HowMany] counts the pointers left in the array. *)
Definition how_many (vvp : group) : Z := cnt (filled vvp) VSG_MEMBERS.

Lemma first_vector_ok vvp : group_ok vvp ->
  (first_vector vvp = Ret (-1) /\ forall k, ptr vvp k = None) \/
  (exists d a, first_vector vvp = Ret d /\ 0 <= d < VSG_MEMBERS /\ ptr vvp d = Some a /\ forall k, k < d -> ptr vvp k = None).
Proof.
  intros Hg. unfold first_vector.
  edestruct (for_range_rule (fun k (_ : unit) => forall j, j < k -> ptr vvp j = None)
    (fun k r => r = k /\ is_Some (ptr vvp k) /\ forall j, j < k -> ptr vvp j = None) 0 VSG_MEMBERS)
    as [(u & E & Hn)|(k & r & Hk & E & -> & [a Ha] & Hn)].
  4:{ left. rewrite E. split; [done|]. intros k. destruct (ptr vvp k) eqn:Ek; [|done].
      pose proof (ptr_range _ _ _ Hg Ek). rewrite Hn in Ek by lia. done. }
  4:{ right. exists k, a. rewrite E. done. }
  - done.
  - intros j Hj. unfold ptr. destruct (Z.leb_spec 0 j); [lia|done].
  - intros k u Hk Hn. cbv beta. rewrite aget_ptr by done. cbn [rbind]. destruct (ptr vvp k) eqn:Ek.
    + right. eexists. split; [done|]. eauto.
    + left. eexists. split; [done|]. intros j Hj. destruct (decide (j = k)) as [->|]; [done|]. apply Hn. lia.
Qed.

(** ** Dominance in a group *)
Section dominance.
Context (ign : bool).
Abbreviation above := (above ign).

(** [d] is the index of a vector that is above all others of the group. *)
Definition dominant (vvp : group) (d : Z) : Prop :=
  exists a, ptr vvp d = Some a /\ forall j b, j <> d -> ptr vvp j = Some b -> above a b.

(** [cur] is [vvp] without some vectors that are strictly below another one. *)
Record pruned (vvp cur : group) : Prop := {
  pr_ok : group_ok cur;
  pr_sub k b : ptr cur k = Some b -> ptr vvp k = Some b;
  pr_below k b : ptr vvp k = Some b -> ptr cur k = None ->
    exists k' a, ptr cur k' = Some a /\ above a b /\ ~ above b a
}.

Lemma pruned_refl vvp : group_ok vvp -> pruned vvp vvp.
Proof. intros Hg. split; [done|done|]. congruence. Qed.

Lemma pruned_drop vvp cur k b k' a : pruned vvp cur -> ptr cur k = Some b -> ptr cur k' = Some a ->
  above a b -> ~ above b a ->
  exists cur', aset cur k None = Ret cur' /\ pruned vvp cur' /\
    forall i, ptr cur' i = if decide (i = k) then None else ptr cur i.
Proof.
  intros [Hok Hsub Hbel] Hk Hk' Hab Hba. assert (k' <> k) as Hne.
  { intros ->. rewrite Hk in Hk'. by injection Hk' as ->. }
  destruct (aset_null cur k Hok (ptr_range _ _ _ Hok Hk)) as (cur' & E & Hok' & Hp). exists cur'. split; [done|].
  split; [|done]. split; [done| |].
  - intros i c. rewrite Hp. destruct (decide (i = k)); [done|]. apply Hsub.
  - intros i c Hi. rewrite Hp. destruct (decide (i = k)) as [->|Hik].
    + intros _. exists k', a. rewrite Hp. destruct (decide (k' = k)); [done|]. apply Hsub in Hk. assert (c = b) as -> by congruence. done.
    + intros Hn. destruct (Hbel i c Hi Hn) as (j & e & Hj & Hec & Hce). destruct (decide (j = k)) as [->|Hjk].
      * rewrite Hk in Hj. injection Hj as <-. exists k', a. rewrite Hp. destruct (decide (k' = k)); [done|].
        split; [done|]. split; [by eapply above_trans|]. intros Hca. apply Hce. by eapply above_trans.
      * exists j, e. rewrite Hp. by destruct (decide (j = k)).
Qed.

(** Pruning does not change who is dominant. *)
Lemma pruned_dominant vvp cur d : pruned vvp cur -> dominant vvp d <-> dominant cur d.
Proof.
  intros [Hok Hsub Hbel]. split.
  - intros (a & Ha & Hall). destruct (ptr cur d) as [a'|] eqn:E.
    + rewrite (Hsub d a' E) in Ha. injection Ha as ->. exists a. split; [done|]. intros j b Hj Hb. eauto.
    + destruct (Hbel d a Ha E) as (k & c & Hk & Hca & Hac). destruct Hac. apply (Hall k c); [|by apply Hsub].
      intros ->. congruence.
  - intros (a & Ha & Hall). exists a. split; [by apply Hsub|]. intros j b Hj Hb.
    destruct (ptr cur j) as [b'|] eqn:E.
    + rewrite (Hsub j b' E) in Hb. injection Hb as ->. by apply (Hall j).
    + destruct (Hbel j b Hb E) as (k & c & Hk & Hcb & _). destruct (decide (k = d)) as [->|Hkd]; [congruence|].
      eapply above_trans; [by apply (Hall k)|done].
Qed.

(** All vectors but [a] at [d] that satisfy [p] equal [a]. *)
Definition equals_where (p : Z -> Prop) (cur : group) (d : Z) (a : vv) : Prop :=
  forall k b, p k -> k <> d -> ptr cur k = Some b -> above a b /\ above b a.

(** The array holds exactly the dominant vectors of the group. *)
Definition dominant_set (vvp cur : group) : Prop :=
  forall k b, ptr cur k = Some b <-> ptr vvp k = Some b /\ dominant vvp k.

Lemma all_equal_dominant vvp cur d a : pruned vvp cur -> ptr cur d = Some a ->
  equals_where (fun _ => True) cur d a -> dominant vvp d /\ dominant_set vvp cur.
Proof.
  intros Hpr Hd Heq. assert (forall k b, ptr cur k = Some b -> dominant cur k) as Hdom.
  { intros k b Hb. exists b. split; [done|]. intros j c Hj Hc. destruct (decide (k = d)) as [->|Hkd].
    - rewrite Hd in Hb. injection Hb as <-. by apply (Heq j c).
    - destruct (Heq k b I Hkd Hb) as [_ Hba]. destruct (decide (j = d)) as [->|Hjd]; [congruence|].
      eapply above_trans; [done|]. by apply (Heq j c). }
  split; [apply (pruned_dominant _ _ _ Hpr); eauto|]. intros k b. split.
  - intros Hb. split; [by apply Hpr|]. apply (pruned_dominant _ _ _ Hpr). eauto.
  - intros [Hb Hk]. apply (pruned_dominant _ _ _ Hpr) in Hk as (c & Hc & _).
    pose proof (pr_sub _ _ Hpr k c Hc). congruence.
Qed.

(** What a check returns. *)
Definition verdict (vvp : group) (r : Z * Z * group) : Prop :=
  let '(ret, n, cur) := r in
  (ret = 1 /\ (exists d, dominant vvp d) /\ dominant_set vvp cur /\ n = how_many cur) \/
  (ret = 0 /\ forall d, ~ dominant vvp d).

(** ** The brute-force check *)
Lemma brute_inner_ok vvp cur i a : pruned vvp cur -> ptr cur i = Some a ->
  (exists n cur', for_range 0 VSG_MEMBERS (brute_inner false ign i) (1, cur) = Ret (inl (n, cur')) /\
     verdict vvp (1, n, cur')) \/
  (exists n cur', for_range 0 VSG_MEMBERS (brute_inner false ign i) (1, cur) = Ret (inr (OuterContinue, (n, cur'))) /\
     pruned vvp cur' /\ ~ dominant vvp i).
Proof.
  intros Hpr Hi.
  destruct (for_range_rule
    (fun j st => pruned vvp (snd st) /\ ptr (snd st) i = Some a /\ equals_where (fun k => k < j) (snd st) i a /\
                 fst st = 1 + cnt (fun k => negb (k =? i) && filled (snd st) k) j)
    (fun (_ : Z) r => fst r = OuterContinue /\ pruned vvp (snd (snd r)) /\ ~ dominant vvp i)
    0 VSG_MEMBERS (brute_inner false ign i) (1, cur)) as [([n cur'] & E & Hpr' & Hi' & Heq & Hn)|(k & [l [n cur']] & Hk & E & HQ)].
  - done.
  - split; [done|]. split; [done|]. split; [|done]. intros k b Hk Hki Hb. pose proof (ptr_range _ _ _ (pr_ok _ _ Hpr) Hb). lia.
  - intros j [n c] Hj (Hc & Hci & Heq & Hn). cbn [fst snd] in *. pose proof (pr_ok _ _ Hc) as Hg. unfold brute_inner.
    assert (forall c', ptr c' j = None \/ j = i -> (forall k, k < j -> ptr c' k = ptr c k) ->
      equals_where (fun k => k < j + 1) c' i a /\ n = 1 + cnt (fun k => negb (k =? i) && filled c' k) (j + 1)) as Hskip.
    { intros c' Hcj Hext. split.
      - intros k b Hk Hki Hb. destruct (decide (k = j)) as [->|]; [naive_solver|]. rewrite Hext in Hb by lia. apply (Heq k b); [lia|done..].
      - rewrite cnt_step by lia. rewrite (cnt_ext _ (fun k => negb (k =? i) && filled c k)).
        2:{ intros k Hk. by rewrite (filled_ptr c' c) by (apply Hext; lia). }
        destruct Hcj as [Hcj| ->]; [rewrite (filled_false _ _ Hcj), andb_false_r; lia|]. rewrite Z.eqb_refl. cbn. lia. }
    destruct (Z.eqb_spec i j) as [<-|Hij].
    { left. eexists. split; [done|]. cbn [fst snd]. do 2 (split; [done|]). apply Hskip; auto. }
    rewrite !aget_ptr by (first [done | by eapply ptr_range]). cbn [rbind].
    destruct (ptr c j) as [b|] eqn:Ej; [|left; eexists; split; [done|]; cbn [fst snd]; do 2 (split; [done|]); apply Hskip; auto].
    rewrite Hci. destruct (compare_ok ign a b) as (r & -> & Ht); [by eapply (proj2 Hg)..|]. cbn [rbind].
    assert (~ above a b -> ~ dominant vvp i) as Hnd.
    { intros Hn' Hd. apply (pruned_dominant _ _ _ Hc) in Hd as (a' & Ha' & Hall).
      apply Hn'. replace a with a' by congruence. apply (Hall j); [congruence|done]. }
    destruct r; cbn in Ht; destruct Ht as [H1 H2].
    + left. eexists. split; [done|]. cbn [fst snd]. do 2 (split; [done|]). split.
      * intros k e Hk Hki He. destruct (decide (k = j)) as [->|]; [|apply (Heq k e); [lia|done..]]. by replace e with b by congruence.
      * rewrite cnt_step, Hn by lia. rewrite (filled_true _ _ _ Ej). destruct (Z.eqb_spec j i); [congruence|]. cbn. lia.
    + left. destruct (pruned_drop vvp c j b i a Hc Ej Hci H1 H2) as (c' & -> & Hc' & Hp). cbn [rbind].
      eexists. split; [done|]. cbn [fst snd]. split; [done|]. split; [rewrite Hp; by destruct (decide (i = j))|].
      apply Hskip; [left; rewrite Hp; by destruct (decide (j = j))|]. intros k Hk. rewrite Hp. destruct (decide (k = j)); [lia|done].
    + right. destruct (pruned_drop vvp c i a j b Hc Hci Ej H2 H1) as (c' & -> & Hc' & _). cbn [rbind].
      eexists. split; [done|]. auto.
    + right. eexists. split; [done|]. auto.
  - left. exists n, cur'. split; [done|]. left. split; [done|]. cbn [fst snd] in *.
    assert (equals_where (fun _ => True) cur' i a) as Heq'.
    { intros k b _ Hki Hb. apply (Heq k b); [|done..]. eapply ptr_range; [|done]. apply Hpr'. }
    destruct (all_equal_dominant vvp cur' i a Hpr' Hi' Heq') as [Hd Hds]. split; [eauto|]. split; [done|].
    unfold how_many. rewrite (cnt_split _ i) by (first [by eapply filled_true | by eapply ptr_range; [apply Hpr'|]]). done.
  - right. cbn [fst snd] in HQ. destruct HQ as (-> & Hpr' & Hnd). exists n, cur'. done.
Qed.

Lemma brute_ok vvp cur n0 : pruned vvp cur -> (exists k a, ptr cur k = Some a) ->
  exists r, VV_BruteForceCheck n0 cur false ign = Ret r /\ verdict vvp r.
Proof.
  intros Hpr Hne. unfold VV_BruteForceCheck.
  destruct (first_vector_ok cur (pr_ok _ _ Hpr)) as [[_ Hno]|(d & a & -> & Hd & Ha & Hno)].
  { destruct Hne as (k & a & Hk). by rewrite Hno in Hk. }
  cbn [rbind]. destruct (Z.eqb_spec d (-1)) as [|_]; [lia|].
  edestruct (for_range_rule (fun i (st : Z * group) => pruned vvp (snd st) /\ forall k, k < i -> ~ dominant vvp k)
    (fun (_ : Z) r => verdict vvp r) d VSG_MEMBERS) as [([n c] & E & Hc & Hall)|(k & [[ret n] c] & Hk & E & HQ)].
  4:{ rewrite E. cbn [rbind]. eexists. split; [done|]. right. split; [done|]. intros k Hk.
      destruct (decide (k < VSG_MEMBERS)) as [|Hge]; [by apply (Hall k)|].
      apply (pruned_dominant _ _ _ Hc) in Hk as (e & He & _). apply Hge. by eapply (ptr_range c); [apply Hc|]. }
  4:{ rewrite E. cbn [rbind]. by eexists. }
  - lia.
  - split; [done|]. intros k Hk Hdk. apply (pruned_dominant _ _ _ Hpr) in Hdk as (e & He & _). by rewrite Hno in He.
  - intros i [n c] Hi [Hc Hall]. cbn [snd] in *. cbv beta. cbn [snd]. rewrite aget_ptr by (first [apply Hc | lia]). cbn [rbind].
    destruct (ptr c i) as [e|] eqn:Ei.
    + destruct (brute_inner_ok vvp c i e Hc Ei) as [(n' & c' & -> & Hv)|(n' & c' & -> & Hc' & Hnd)]; cbn [rbind].
      * right. by eexists.
      * left. eexists. split; [done|]. cbn [snd]. split; [done|]. intros k Hk. destruct (decide (k = i)) as [->|]; [done|]. apply Hall. lia.
    + left. eexists. split; [done|]. cbn [snd]. split; [done|]. intros k Hk. destruct (decide (k = i)) as [->|]; [|apply Hall; lia].
      intros Hdk. apply (pruned_dominant _ _ _ Hc) in Hdk as (e & He & _). congruence.
Qed.

(** ** The fast check *)

(** After the indices below [j]: [d] is the first of the equal vectors that are left. *)
Definition scanned (vvp : group) (j : Z) (st : Z * Z * group) : Prop :=
  let '(d, n, cur) := st in
  0 <= d < j /\ pruned vvp cur /\ (exists a, ptr cur d = Some a /\ equals_where (fun k => k < j) cur d a) /\
  (forall k, k < d -> ptr cur k = None) /\ n = cnt (filled cur) j.

(** Clearing the old dominators. *)
Lemma clear_range vvp cur d j a b : pruned vvp cur -> 0 <= d <= j -> ptr cur d = Some a -> ptr cur j = Some b ->
  above b a -> ~ above a b -> equals_where (fun k => k < j) cur d a ->
  exists cur', forZ d j (fun k vvp => aset vvp k None) cur = Ret cur' /\ pruned vvp cur' /\
    forall k, ptr cur' k = if decide (d <= k < j) then None else ptr cur k.
Proof.
  intros Hpr Hdj Ha Hb Hba Hab Heq. pose proof (ptr_range _ _ _ (pr_ok _ _ Hpr) Hb) as Hjr.
  destruct (forZ_total (fun i c => pruned vvp c /\ forall k, ptr c k = if decide (d <= k < i) then None else ptr cur k)
    d j (fun k vvp => aset vvp k None) cur) as (c & E & Hc); [| | |by exists c].
  - lia.
  - split; [done|]. intros k. destruct (decide (d <= k < d)); [lia|done].
  - intros i c Hi [Hc Hp]. assert (ptr c i = ptr cur i) as Ei by (rewrite Hp; destruct (decide (d <= i < i)); [lia|done]).
    assert (ptr c j = Some b) as Ej by (rewrite Hp; destruct (decide (d <= j < i)); [lia|done]).
    assert (forall c', (forall k, ptr c' k = if decide (k = i) then None else ptr c k) ->
            forall k, ptr c' k = if decide (d <= k < i + 1) then None else ptr cur k) as Hext.
    { intros c' Hc' k. rewrite Hc', Hp. destruct (decide (k = i)), (decide (d <= k < i)), (decide (d <= k < i + 1)); done || lia. }
    destruct (ptr cur i) as [e|] eqn:Ee.
    + assert (above b e /\ ~ above e b) as [Hbe Heb].
      { destruct (decide (i = d)) as [->|Hid]; [by replace e with a by congruence|].
        destruct (Heq i e ltac:(cbv beta; lia) Hid Ee) as [Hae Hea]. split; [by eapply above_trans|].
        intros Heb. apply Hab. by eapply above_trans. }
      destruct (pruned_drop vvp c i e j b Hc Ei Ej Hbe Heb) as (c' & E & Hc' & Hp'). exists c'. split; [done|]. split; [done|]. by apply Hext.
    + destruct (aset_null c i (pr_ok _ _ Hc) ltac:(lia)) as (c' & E & Hok' & Hp'). exists c'. split; [done|].
      split; [|by apply Hext]. assert (forall k, ptr c' k = ptr c k) as Hsame.
      { intros k. rewrite Hp'. destruct (decide (k = i)) as [->|]; [by rewrite Ei|done]. }
      destruct Hc as [Hok Hsub Hbel]. split; [done| |].
      * intros k v. rewrite Hsame. apply Hsub.
      * intros k v Hk. rewrite Hsame. intros Hn. destruct (Hbel k v Hk Hn) as (k' & v' & Hk' & ?). exists k', v'. by rewrite Hsame.
Qed.

Lemma check_step_ok vvp j st : 0 <= j < VSG_MEMBERS -> scanned vvp j st ->
  (exists st', check_step false ign j st = Ret (inl st') /\ scanned vvp (j + 1) st') \/
  (exists r, check_step false ign j st = Ret (inr r) /\ verdict vvp r).
Proof.
  destruct st as [[d n] cur]. intros Hj (Hd & Hpr & (a & Ha & Heq) & Hlow & Hn). pose proof (pr_ok _ _ Hpr) as Hg.
  unfold check_step. rewrite !aget_ptr by (first [done | lia]). cbn [rbind].
  assert (forall c', pruned vvp c' -> ptr c' j = None -> (forall k, k < j -> ptr c' k = ptr cur k) -> scanned vvp (j + 1) (d, n, c')) as Hskip.
  { intros c' Hc' Hcj Hext. split; [lia|]. split; [done|]. split; [|split].
    - exists a. split; [rewrite Hext by lia; done|]. intros k b Hk Hkd Hb. destruct (decide (k = j)) as [->|]; [congruence|].
      rewrite Hext in Hb by lia. apply (Heq k b); [lia|done..].
    - intros k Hk. rewrite Hext by lia. by apply Hlow.
    - rewrite cnt_step, (filled_false _ _ Hcj), Hn by lia. rewrite (cnt_ext (filled c') (filled cur)); [lia|].
      intros k Hk. apply filled_ptr, Hext. lia. }
  destruct (ptr cur j) as [b|] eqn:Ej; [|left; eexists; split; [done|]; by apply Hskip].
  rewrite Ha. destruct (compare_ok ign a b) as (r & -> & Ht); [by eapply (proj2 Hg)..|]. cbn [rbind].
  destruct r; cbn in Ht; destruct Ht as [H1 H2].
  - left. eexists. split; [done|]. split; [lia|]. split; [done|]. split; [|split; [done|]].
    + exists a. split; [done|]. intros k e Hk Hkd He. destruct (decide (k = j)) as [->|]; [|apply (Heq k e); [lia|done..]]. by replace e with b by congruence.
    + rewrite cnt_step, (filled_true _ _ _ Ej), Hn by lia. done.
  - left. destruct (pruned_drop vvp cur j b d a Hpr Ej Ha H1 H2) as (c' & -> & Hc' & Hp). cbn [rbind].
    eexists. split; [done|]. apply Hskip; [done|rewrite Hp; by destruct (decide (j = j))|].
    intros k Hk. rewrite Hp. destruct (decide (k = j)); [lia|done].
  - left. destruct (clear_range vvp cur d j a b Hpr ltac:(lia) Ha Ej H2 H1 Heq) as (c' & -> & Hc' & Hp). cbn [rbind].
    assert (forall k, k < j -> ptr c' k = None) as Hlow'.
    { intros k Hk. rewrite Hp. destruct (decide (d <= k < j)); [done|]. apply Hlow. lia. }
    assert (ptr c' j = Some b) as Ej' by (rewrite Hp; destruct (decide (d <= j < j)); [lia|done]).
    eexists. split; [done|]. split; [lia|]. split; [done|]. split; [|split; [done|]].
    + exists b. split; [done|]. intros k e Hk Hkj He. rewrite Hlow' in He by lia. done.
    + rewrite cnt_step, (filled_true _ _ _ Ej'), cnt_false by (first [lia | intros; apply filled_false, Hlow'; lia]). done.
  - right. destruct (brute_ok vvp cur n Hpr ltac:(eauto)) as (r & -> & Hv). cbn [rbind]. eauto.
Qed.

Lemma VV_Check_Real_ok vvp : group_ok vvp ->
  exists ret n vvp', VV_Check_Real vvp false ign = Ret (ret, n, vvp') /\
    ((forall k, ptr vvp k = None) /\ ret = 1 /\ n = 0 /\ vvp' = vvp \/
     (exists k a, ptr vvp k = Some a) /\ verdict vvp (ret, n, vvp')).
Proof.
  intros Hg. unfold VV_Check_Real.
  destruct (first_vector_ok vvp Hg) as [[-> Hno]|(d & a & -> & Hd & Ha & Hno)]; cbn [rbind].
  { cbn. eexists _, _, _. split; [done|]. by left. }
  destruct (Z.eqb_spec d (-1)) as [|_]; [lia|].
  destruct (for_range_rule (scanned vvp) (fun (_ : Z) r => verdict vvp r) (d + 1) VSG_MEMBERS (check_step false ign) (d, 1, vvp))
    as [([[d' n] c] & -> & Hs)|(k & [[ret n] c] & Hk & -> & HQ)].
  - lia.
  - split; [lia|]. split; [by apply pruned_refl|]. split; [|split; [done|]].
    + exists a. split; [done|]. intros k b Hk Hkd Hb. rewrite Hno in Hb by lia. done.
    + rewrite cnt_step, (filled_true _ _ _ Ha), cnt_false by (first [lia | intros; apply filled_false, Hno; lia]). done.
  - intros j st Hj Hs. apply check_step_ok; [lia|done].
  - cbn [rbind]. eexists _, _, _. split; [done|]. right. split; [eauto|]. left. split; [done|].
    destruct Hs as (Hd' & Hpr & (e & He & Heq) & _ & Hn).
    destruct (all_equal_dominant vvp c d' e Hpr He) as [Hdom Hds]; [|by eauto].
    intros k b _ Hk Hb. apply (Heq k b); [|done..]. eapply ptr_range; [apply Hpr|done].
  - cbn [rbind]. eexists _, _, _. split; [done|]. right. eauto.
Qed.

(** When equality is required nothing is cleared. *)
Lemma VV_Check_Real_eq vvp : group_ok vvp ->
  exists ret n, VV_Check_Real vvp true ign = Ret (ret, n, vvp) /\
    (ret = 1 /\ n = how_many vvp /\ (forall k a, ptr vvp k = Some a -> dominant vvp k) \/
     ret = 0 /\ exists k a, ptr vvp k = Some a /\ ~ dominant vvp k).
Proof.
  intros Hg. unfold VV_Check_Real.
  destruct (first_vector_ok vvp Hg) as [[-> Hno]|(d & a & -> & Hd & Ha & Hno)]; cbn [rbind].
  { cbn. eexists _, _. split; [done|]. left. split; [done|]. split.
    - symmetry. apply cnt_false. intros. by apply filled_false.
    - intros k v Hk. by rewrite Hno in Hk. }
  destruct (Z.eqb_spec d (-1)) as [|_]; [lia|].
  destruct (for_range_rule
    (fun j st => exists n, st = (d, n, vvp) /\ equals_where (fun k => k < j) vvp d a /\ n = cnt (filled vvp) j)
    (fun (_ : Z) r => exists n, r = (0, n, vvp) /\ exists k b, ptr vvp k = Some b /\ ~ dominant vvp k)
    (d + 1) VSG_MEMBERS (check_step true ign) (d, 1, vvp))
    as [(st & -> & n & -> & Heq & Hn)|(k & r & Hk & -> & n & -> & HQ)].
  - lia.
  - exists 1. split; [done|]. split.
    + intros k b Hk Hkd Hb. rewrite Hno in Hb by lia. done.
    + rewrite cnt_step, (filled_true _ _ _ Ha), cnt_false by (first [lia | intros; apply filled_false, Hno; lia]). done.
  - intros j st Hj (n & -> & Heq & Hn). unfold check_step. rewrite !aget_ptr by (first [done | lia]). cbn [rbind].
    destruct (ptr vvp j) as [b|] eqn:Ej.
    2:{ left. eexists. split; [done|]. exists n. split; [done|]. split.
        - intros k b Hk Hkd Hb. destruct (decide (k = j)) as [->|]; [congruence|]. apply (Heq k b); [lia|done..].
        - rewrite cnt_step, (filled_false _ _ Ej) by lia. lia. }
    rewrite Ha. destruct (compare_ok ign a b) as (r & -> & Ht); [by eapply (proj2 Hg)..|]. cbn [rbind].
    destruct r; [left|right..]; (eexists; split; [done|]); eexists; (split; [done|]).
    { split.
      - intros k e Hk Hkd He. destruct (decide (k = j)) as [->|]; [|apply (Heq k e); [lia|done..]]. by replace e with b by congruence.
      - rewrite cnt_step, (filled_true _ _ _ Ej) by lia. lia. }
    all: assert (~ above a b \/ ~ above b a) as [Hn'|Hn'] by (cbn in Ht; tauto);
      [exists d, a; split; [done|]; intros (e & He & Hall); apply Hn'; replace a with e by congruence; apply (Hall j); [lia|done]
      |exists j, b; split; [done|]; intros (e & He & Hall); apply Hn'; replace b with e by congruence; apply (Hall d); [lia|done]].
  - cbn [rbind]. eexists _, _. split; [done|]. left. split; [done|]. split; [done|].
    destruct (all_equal_dominant vvp vvp d a (pruned_refl vvp Hg) Ha) as [_ Hds].
    { intros k b _ Hk Hb. apply (Heq k b); [|done..]. eapply ptr_range; [apply Hg|done]. }
    intros k b Hb. by apply (Hds k b).
  - cbn [rbind]. eexists _, _. split; [done|]. right. done.
Qed.
End dominance.

(** ** The maximum of a group *)
Lemma max_site_ok vvp i : group_ok vvp -> 0 <= i < VSG_MEMBERS ->
  exists m, max_site vvp i = Ret m /\ 0 <= m /\ (forall j v, ptr vvp j = Some v -> site v i <= m) /\
    (m = 0 \/ exists j v, ptr vvp j = Some v /\ site v i = m).
Proof.
  intros Hg Hi. unfold max_site.
  destruct (forZ_total (fun k m => 0 <= m /\ (forall j v, j < k -> ptr vvp j = Some v -> site v i <= m) /\
    (m = 0 \/ exists j v, ptr vvp j = Some v /\ site v i = m)) 0 VSG_MEMBERS
    (fun j max => let* p := aget vvp j in
       match p with
       | Some v => let* val := aget (Versions v) i in Ret (if val >? max then val else max)
       | None => Ret max
       end) 0) as (m & E & Hm & Hall & Hex).
  - done.
  - split; [lia|]. split; [|by left]. intros j v Hj Hv. pose proof (ptr_range _ _ _ Hg Hv). lia.
  - intros k m Hk (Hm & Hall & Hex). rewrite aget_ptr by done. cbn [rbind]. destruct (ptr vvp k) as [v|] eqn:Ek.
    + rewrite aget_site by (done || by apply (proj2 Hg k)). cbn [rbind]. eexists. split; [done|].
      destruct (Z.gtb_spec (site v i) m); (split; [lia|]); (split; [|eauto 10]); intros j u Hj Hu;
        destruct (decide (j = k)) as [->|]; try (replace u with v by congruence; lia);
        pose proof (Hall j u ltac:(lia) Hu); lia.
    + eexists. split; [done|]. split; [done|]. split; [|done]. intros j v Hj Hv.
      destruct (decide (j = k)) as [->|]; [congruence|]. apply (Hall j); [lia|done].
  - exists m. split; [done|]. split; [done|]. split; [|done]. intros j v Hv. apply (Hall j v); [|done]. by eapply ptr_range.
Qed.

(** A loop that stores a computed value in each site. *)
Lemma fill_loop (body : Z -> list Z -> res (list Z)) (g : Z -> Z) l :
  (forall i l, 0 <= i < VSG_MEMBERS -> body i l = aset l i (g i)) -> length l = 8%nat ->
  exists l', forZ 0 VSG_MEMBERS body l = Ret l' /\ length l' = 8%nat /\
    forall i, 0 <= i < VSG_MEMBERS -> l' !! Z.to_nat i = Some (g i).
Proof.
  intros Hf Hl.
  destruct (forZ_total (fun k l' => length l' = 8%nat /\ forall i, 0 <= i < k -> l' !! Z.to_nat i = Some (g i)) 0 VSG_MEMBERS
    body l) as (l' & E & Hl' & Hg).
  - done.
  - split; [done|]. intros. lia.
  - intros k l' Hk [Hl' Hg]. rewrite Hf by done. unfold VSG_MEMBERS in Hk.
    rewrite aset_ok by (unfold zlen; lia). eexists. split; [done|]. split; [by rewrite length_insert|].
    intros i Hi. destruct (decide (i = k)) as [->|]; [rewrite list_lookup_insert_eq by lia; done|].
    rewrite list_lookup_insert_ne by lia. apply Hg. lia.
  - eauto.
Qed.

Lemma max_sites vvp : group_ok vvp ->
  exists l, forZ 0 VSG_MEMBERS (fun i l => let* m := max_site vvp i in aset l i m) (replicate 8 0) = Ret l /\
    length l = 8%nat /\
    forall i, 0 <= i < VSG_MEMBERS -> exists m, l !! Z.to_nat i = Some m /\ max_site vvp i = Ret m.
Proof.
  intros Hg. set (g := fun i => match max_site vvp i with Ret m => m | Stop _ => 0 end).
  assert (forall i, 0 <= i < VSG_MEMBERS -> max_site vvp i = Ret (g i)) as Hf.
  { intros i Hi. unfold g. by destruct (max_site_ok vvp i Hg Hi) as (m & -> & _). }
  destruct (fill_loop (fun i l => let* m := max_site vvp i in aset l i m) g (replicate 8 0)) as (l & E & Hl & Hs);
    [intros i l Hi; by rewrite Hf|done|].
  exists l. split; [done|]. split; [done|]. intros i Hi. exists (g i). auto.
Qed.

(** ** Arithmetic and the network form *)
Lemma site_ext (l1 l2 : list Z) : length l1 = 8%nat -> length l2 = 8%nat ->
  (forall i, 0 <= i < VSG_MEMBERS -> l1 !! Z.to_nat i = l2 !! Z.to_nat i) -> l1 = l2.
Proof.
  intros H1 H2 E. apply list_eq. intros i. destruct (decide (i < 8)%nat) as [Hi|Hi].
  - specialize (E (Z.of_nat i)). rewrite Nat2Z.id in E. apply E. unfold VSG_MEMBERS. lia.
  - rewrite !lookup_ge_None_2 by lia. done.
Qed.

Lemma lookup_site v i : vv_ok v -> 0 <= i < VSG_MEMBERS -> Versions v !! Z.to_nat i = Some (site v i).
Proof.
  intros Hv Hi. unfold site. destruct (lookup_lt_is_Some_2 (Versions v) (Z.to_nat i)) as [x Hx].
  { rewrite Hv. unfold VSG_MEMBERS in Hi. lia. }
  by rewrite Hx.
Qed.

Lemma combine_ok f v1 v2 : vv_ok v1 -> vv_ok v2 ->
  (forall i, 0 <= i < VSG_MEMBERS -> int32 (f (site v1 i) (site v2 i))) ->
  exists v, combine_sites f v1 v2 = Ret v /\ vv_ok v /\ StoreId v = StoreId v1 /\ Flags v = Flags v1 /\
    forall i, 0 <= i < VSG_MEMBERS -> site v i = f (site v1 i) (site v2 i).
Proof.
  intros H1 H2 Hf. unfold combine_sites.
  destruct (forZ_total (fun k l => length l = 8%nat /\ forall i, 0 <= i < VSG_MEMBERS ->
      l !! Z.to_nat i = Some (if i <? k then f (site v1 i) (site v2 i) else site v1 i)) 0 VSG_MEMBERS
    (fun i l => let* x := aget l i in let* y := aget (Versions v2) i in let* z := int_op f x y in aset l i z) (Versions v1))
    as (l & -> & Hl & Hs).
  - done.
  - split; [done|]. intros i Hi. destruct (Z.ltb_spec i 0); [lia|]. by apply lookup_site.
  - intros k l Hk [Hl Hs]. rewrite (aget_ok l k (site v1 k)); [|lia|rewrite Hs by done; by rewrite Z.ltb_irrefl].
    rewrite (aget_site v2) by done. cbn [rbind]. specialize (Hf k Hk). unfold int32 in Hf. unfold int_op.
    destruct (Z.leb_spec (- 2 ^ 31) (f (site v1 k) (site v2 k))), (Z.ltb_spec (f (site v1 k) (site v2 k)) (2 ^ 31)); try lia.
    cbn [andb rbind]. unfold VSG_MEMBERS in *. rewrite aset_ok by (unfold zlen; lia). eexists. split; [done|].
    split; [by rewrite length_insert|]. intros i Hi. destruct (decide (i = k)) as [->|Hne].
    + rewrite list_lookup_insert_eq by lia. destruct (Z.ltb_spec k (k + 1)); [done|lia].
    + rewrite list_lookup_insert_ne, Hs by lia. destruct (Z.ltb_spec i k), (Z.ltb_spec i (k + 1)); done || lia.
  - cbn [rbind]. eexists. split; [done|]. split; [done|]. split; [done|]. split; [done|].
    intros i Hi. unfold site at 1. cbn. rewrite Hs by done. destruct (Z.ltb_spec i VSG_MEMBERS); [done|lia].
Qed.

(** Subtracting what was added gives the vector back. *)
Lemma SubVVs_AddVVs v1 v2 : vv_ok v1 -> vv_ok v2 -> (forall i, int32 (site v1 i)) ->
  (forall i, 0 <= i < VSG_MEMBERS -> int32 (site v1 i + site v2 i)) ->
  exists v, AddVVs v1 v2 = Ret v /\ SubVVs v v2 = Ret v1.
Proof.
  intros H1 H2 Hr Hf. destruct (combine_ok Z.add v1 v2 H1 H2 Hf) as (v & E & Hv & Es & Ef & Hs). exists v. split; [done|].
  destruct (combine_ok Z.sub v v2 Hv H2) as (w & E' & Hw & Es' & Ef' & Hs').
  { intros i Hi. rewrite Hs by done. replace (site v1 i + site v2 i - site v2 i) with (site v1 i) by lia. apply Hr. }
  assert (Versions w = Versions v1) as Ev.
  { apply site_ext; [done|done|]. intros i Hi. rewrite (lookup_site w i), (lookup_site v1 i), Hs', Hs by done. f_equal. lia. }
  unfold SubVVs. rewrite E'. f_equal. destruct w, v1. cbn in *. congruence.
Qed.

Definition uint32 (v : Z) : Prop := 0 <= v < 2 ^ 32.
Definition vv32 (v : vv) : Prop :=
  vv_ok v /\ (forall i, int32 (site v i)) /\ uint32 (HostId (StoreId v)) /\ uint32 (Uniquifier (StoreId v)) /\ uint32 (Flags v).

Lemma bswap32_ext a b : u32 a = u32 b -> bswap32 a = bswap32 b.
Proof. unfold bswap32. by intros ->. Qed.

Lemma swapu_invol v : uint32 v -> swapu (swapu v) = v.
Proof.
  intros Hv. unfold swapu. rewrite (bswap32_ext (u32 (bswap32 v)) (bswap32 (s32 v))).
  - rewrite bswap32_invol by (apply (swrap_bound 32); lia). rewrite uwrap_swrap by lia. by apply uwrap_small.
  - rewrite (bswap32_ext (s32 v) v) by (by apply uwrap_swrap). unfold uwrap. by rewrite Z.mod_mod.
Qed.

Lemma swap_vv_ok v o : vv_ok v -> vv_ok o ->
  exists n, swap_vv v o = Ret n /\ vv_ok n /\ StoreId n = swap_sid (StoreId v) /\ Flags n = swapu (Flags v) /\
    forall i, 0 <= i < VSG_MEMBERS -> Versions n !! Z.to_nat i = Some (bswap32 (site v i)).
Proof.
  intros Hv Ho. unfold swap_vv.
  destruct (fill_loop (fun i l => let* x := aget (Versions v) i in aset l i (bswap32 x)) (fun i => bswap32 (site v i)) (Versions o))
    as (l & -> & Hl & Hs); [intros i l Hi; by rewrite aget_site|done|].
  cbn [rbind]. eexists. split; [done|]. done.
Qed.

(** A vector survives the conversion to network order and back. *)
Lemma ntohvv_htonvv v o1 o2 : vv32 v -> vv_ok o1 -> vv_ok o2 ->
  exists n, htonvv v o1 = Ret n /\ ntohvv n o2 = Ret v.
Proof.
  intros (Hv & Hr & Hh & Hu & Hf) H1 H2. destruct (swap_vv_ok v o1 Hv H1) as (n & E & Hn & Es & Ef & Hs).
  exists n. split; [done|]. destruct (swap_vv_ok n o2 Hn H2) as (w & E' & Hw & Es' & Ef' & Hs').
  assert (Versions w = Versions v) as Ev.
  { apply site_ext; [done|done|]. intros i Hi. rewrite Hs', (lookup_site v i) by done. unfold site at 1. rewrite (Hs i Hi). cbn.
    by rewrite bswap32_invol. }
  unfold ntohvv. rewrite E'. f_equal. rewrite Es in Es'. rewrite Ef in Ef'.
  destruct w as [lw sw fw], v as [lv [hh hu] fv]. cbn in *. rewrite Es', Ef', Ev. unfold swap_sid. cbn. by rewrite !swapu_invol.
Qed.

(** The buffer of [FPrintVV] is large enough for every vector. *)
Lemma SPrintVV_fits v : vv_ok v -> SPrintVV 256 v = Ret (vv_text v).
Proof.
  intros Hv. unfold SPrintVV. assert (zlen (vv_text v) <= 136) as Hz.
  { unfold vv_text, zlen. assert (length (concat ((fun x => fmt_d x ++ [32%Z]) <$> Versions v)) <= 12 * length (Versions v))%nat as Hc.
    { induction (Versions v) as [|x l IH]; [done|]. cbn [fmap list_fmap concat length]. rewrite !length_app. cbn [length].
      pose proof (fmt_d_length x). cbn [fmap list_fmap] in IH. lia. }
    rewrite Hv in Hc. repeat (rewrite length_app; cbn [length]).
    pose proof (fmt_x_length (HostId (StoreId v))). pose proof (fmt_x_length (Uniquifier (StoreId v))).
    pose proof (fmt_x_length (Flags v)). unfold fmt_sharp_x. destruct (Flags v =? 0); cbn [length app]; lia. }
  destruct (Z.ltb_spec (zlen (vv_text v)) 256); [done|lia].
Qed.

(** ** Claims *)

(** C10 Comparing two version vectors: the result is equality, dominance, submission or
    inconsistency exactly as the vectors are equal, ordered one way or the other,
    or not ordered site by site; with an inconsistency flag [VV_Cmp] always says
    inconsistent. *)
Theorem VV_Cmp_correct a b : vv_ok a -> vv_ok b ->
  exists r, VV_Cmp_IgnoreInc a b = Ret r /\ VV_Cmp a b = Ret (if IsIncon a || IsIncon b then VV_INC else r) /\
    (r = VV_EQ <-> Versions a = Versions b) /\ (r = VV_DOM <-> geq a b /\ ~ geq b a) /\
    (r = VV_SUB <-> geq b a /\ ~ geq a b) /\ (r = VV_INC <-> ~ geq a b /\ ~ geq b a).
Proof.
  intros Ha Hb. destruct (VV_Cmp_IgnoreInc_ok a b Ha Hb) as (r & E & Ht). exists r. split; [done|].
  split; [unfold VV_Cmp; by destruct (IsIncon a || IsIncon b)|].
  assert (Versions a = Versions b <-> geq a b /\ geq b a) as ->.
  { split; [intros Ev; split; intros i _; unfold site; rewrite Ev; lia|]. intros [H1 H2]. apply list_eq_same_length with 8%nat; [done..|].
    intros i x y Hi Hx Hy. specialize (H1 (Z.of_nat i)). specialize (H2 (Z.of_nat i)). unfold site, VSG_MEMBERS in *.
    rewrite Nat2Z.id, Hx, Hy in H1, H2. cbn in *. lia. }
  destruct r; cbn in Ht; intuition congruence.
Qed.

(** C9 [VV_Check] on a group of vectors: it returns 1 exactly when some vector of the
    group is above all others, leaves exactly those vectors in the array and
    counts them; if equality is required it returns 1 exactly when all vectors
    are equal and leaves the array alone.  Both paths, the scan and the
    brute-force search, agree with this. *)
Theorem VV_Check_correct ign vvp : group_ok vvp -> (exists k a, ptr vvp k = Some a) ->
  (exists r, VV_Check_Real vvp false ign = Ret r /\ verdict ign vvp r) /\
  (exists ret n, VV_Check_Real vvp true ign = Ret (ret, n, vvp) /\
    (ret = 1 /\ n = how_many vvp /\ (forall k a, ptr vvp k = Some a -> dominant ign vvp k) \/
     ret = 0 /\ exists k a, ptr vvp k = Some a /\ ~ dominant ign vvp k)).
Proof.
  intros Hg (k & a & Ha). split; [|by apply VV_Check_Real_eq].
  destruct (VV_Check_Real_ok ign vvp Hg) as (ret & n & vvp' & E & [[Hno _]|[_ Hv]]); [by rewrite Hno in Ha|]. eauto.
Qed.

(** C11 The vector that [GetMaxVV] computes is the least upper bound of the group among
    the vectors without negative sites, and carries the store id of the vector it
    is asked for. *)
Theorem GetMaxVV_least_upper_bound vvp domindex : group_ok vvp ->
  domindex = -1 \/ domindex = -2 \/ is_Some (ptr vvp domindex) ->
  exists newvv, GetMaxVV vvp domindex = Ret newvv /\ vv_ok newvv /\
    (forall j v, ptr vvp j = Some v -> geq newvv v) /\
    (forall u, (forall i, 0 <= site u i) -> (forall j v, ptr vvp j = Some v -> geq u v) -> geq u newvv) /\
    (forall v, ptr vvp domindex = Some v -> StoreId newvv = StoreId v).
Proof.
  intros Hg Hdom. unfold GetMaxVV. destruct (max_sites vvp Hg) as (l & -> & Hl & Hs). cbn [rbind].
  assert (forall sid, let newvv := {| Versions := l; StoreId := sid; Flags := 0 |} in vv_ok newvv /\
    (forall j v, ptr vvp j = Some v -> geq newvv v) /\
    (forall u, (forall i, 0 <= site u i) -> (forall j v, ptr vvp j = Some v -> geq u v) -> geq u newvv)) as Hlub.
  { intros sid newvv. split; [done|]. split.
    - intros j v Hv i Hi. destruct (Hs i Hi) as (m & Hm & E). destruct (max_site_ok vvp i Hg Hi) as (m' & E' & _ & Hall & _).
      assert (m' = m) as -> by congruence. unfold site at 2. cbn. rewrite Hm. cbn. by apply (Hall j).
    - intros u Hu Hup i Hi. destruct (Hs i Hi) as (m & Hm & E). destruct (max_site_ok vvp i Hg Hi) as (m' & E' & _ & _ & Hex).
      assert (m' = m) as -> by congruence. unfold site at 1. cbn. rewrite Hm. cbn.
      destruct Hex as [->|(j & v & Hv & <-)]; [apply Hu|]. by apply (Hup j v Hv). }
  destruct (Z.eqb_spec domindex (-1)) as [->|N1].
  - destruct (first_vector_ok vvp Hg) as [[-> Hno]|(d & a & -> & Hd & Ha & Hno)]; cbn [rbind].
    + cbn. eexists. split; [done|]. repeat (split; [apply Hlub|]). done.
    + destruct (Z.eqb_spec d (-1)); [lia|]. rewrite aget_ptr, Ha by done. cbn [rbind]. eexists. split; [done|].
      repeat (split; [apply Hlub|]). intros v Hv. done.
  - destruct (Z.eqb_spec domindex (-2)) as [->|N2].
    + eexists. split; [done|]. repeat (split; [apply Hlub|]). intros v Hv. done.
    + destruct Hdom as [?|[?|[v Hv]]]; [done|done|]. rewrite aget_ptr, Hv by (done || by eapply ptr_range). cbn [rbind].
      eexists. split; [done|]. repeat (split; [apply Hlub|]). intros v' [= <-]. done.
Qed.

(** ** Witnesses *)
Definition sample_vv (l : list Z) (f : Z) : vv := {| Versions := l; StoreId := NullSid; Flags := f |}.
Definition sample_group : group :=
  [None; Some (sample_vv [1; 2; 1; 0; 0; 0; 0; 0] 0); Some (sample_vv [1; 1; 2; 0; 0; 0; 0; 0] 0);
   Some (sample_vv [1; 2; 2; 0; 0; 0; 0; 0] 0); None; Some (sample_vv [1; 2; 2; 0; 0; 0; 0; 0] 0); None; None].

Lemma sample_group_ok : group_ok sample_group.
Proof.
  split; [done|]. intros i v. unfold ptr. destruct (Z.leb_spec 0 i); [|done].
  destruct (Z.to_nat i) as [|[|[|[|[|[|[|[|n]]]]]]]]; cbn; try done; by intros [= <-].
Qed.

Lemma VV_Cmp_correct_witness :
  VV_Cmp_IgnoreInc (sample_vv [1; 2; 0; 0; 0; 0; 0; 0] 0) (sample_vv [2; 1; 0; 0; 0; 0; 0; 0] 0) = Ret VV_INC /\
  ~ geq (sample_vv [1; 2; 0; 0; 0; 0; 0; 0] 0) (sample_vv [2; 1; 0; 0; 0; 0; 0; 0] 0).
Proof.
  destruct (VV_Cmp_correct (sample_vv [1; 2; 0; 0; 0; 0; 0; 0] 0) (sample_vv [2; 1; 0; 0; 0; 0; 0; 0] 0))
    as (r & E & _ & _ & _ & _ & Hinc); [done|done|].
  split; [done|]. assert (r = VV_INC) as -> by (vm_compute in E; congruence). by apply Hinc.
Defined.

(** The first two vectors are inconsistent with each other, the third and the fourth dominate both. *)
Lemma VV_Check_correct_witness :
  (exists vvp', VV_Check sample_group false = Ret (1, 2, vvp')) /\
  exists r, VV_Check_Real sample_group false false = Ret r /\ verdict false sample_group r.
Proof.
  split; [by eexists|].
  apply (VV_Check_correct false sample_group sample_group_ok). by exists 1, (sample_vv [1; 2; 1; 0; 0; 0; 0; 0] 0).
Defined.

Lemma GetMaxVV_least_upper_bound_witness : exists newvv, GetMaxVV sample_group 2 = Ret newvv /\ vv_ok newvv /\
  forall j v, ptr sample_group j = Some v -> geq newvv v.
Proof.
  destruct (GetMaxVV_least_upper_bound sample_group 2 sample_group_ok) as (newvv & E & Hok & Hub & _);
    [right; right; by eexists|]. by exists newvv.
Defined.
End Vv.
