(* ===== verification/Lock.v ===== *)
(** * LWP locks: [subprojects/lwp/src/lock.c]

    LWP threads switch only where they wait, so the code of [lock.c] between two waits
    is atomic.  Each function is modelled by its effect on the [struct Lock] up to its
    return or to its call of [LWP_WaitProcess]; a system state is a lock, what each
    thread does in it and, as ghost state, who holds it.  [apply_op] is one such
    segment run by one thread. *)

From Stdlib Require Import ZArith Lia.
From stdpp Require Import base list numbers relations.
From S2P Require Import Prelude.
Open Scope Z_scope.

Inductive lock_how : Set := READ_LOCK | WRITE_LOCK | SHARED_LOCK.

Global Instance lock_how_eq_dec : EqDecision lock_how.
Proof. solve_decision. Defined.

(** The flag of a lock type. *)
Definition flag (h : lock_how) : Z := match h with READ_LOCK => 1 | WRITE_LOCK => 2 | SHARED_LOCK => 4 end.
Definition EXCL_LOCKS : Z := 6.

(** [struct Lock]: four [unsigned char] fields and a thread. *)
Record Lock : Set := mkLock {
  wait_states : Z; excl_locked : Z; readers_reading : Z; num_waiting : Z; excl_locker : option nat }.

(** The events threads wait for: [&lock->readers_reading] and [&lock->excl_locked]. *)
Inductive event : Set := EvReaders | EvExcl.
Definition wait_event (h : lock_how) : event := match h with READ_LOCK => EvReaders | _ => EvExcl end.

Definition Lock_Init : Lock := mkLock 0 0 0 0 None.

Definition is_write (l : Lock) : bool := negb (Z.land (excl_locked l) 2 =? 0).
Definition locker_is (l : Lock) (me : nat) : bool := bool_decide (excl_locker l = Some me).

Definition set_wait (l : Lock) (h : lock_how) : Lock :=
  mkLock (u8 (Z.lor (wait_states l) (flag h))) (excl_locked l) (readers_reading l) (num_waiting l) (excl_locker l).
Definition add_waiting (l : Lock) (n : Z) : Lock :=
  mkLock (wait_states l) (excl_locked l) (readers_reading l) (u8 (num_waiting l + n)) (excl_locker l).
Definition add_readers (l : Lock) (n : Z) : Lock :=
  mkLock (wait_states l) (excl_locked l) (u8 (readers_reading l + n)) (num_waiting l) (excl_locker l).
Definition set_excl (l : Lock) (v : Z) (who : option nat) : Lock :=
  mkLock (wait_states l) v (readers_reading l) (num_waiting l) who.

(** [Lock_Obtain] up to the first wait. *)
Definition Lock_Obtain_enter (l : Lock) (how : lock_how) : Lock := set_wait (add_waiting l 1) how.

(** [Lock_Obtain] after a wait returned: the loop condition, then either the next wait
    or the acquisition.  The flag says whether the thread waits again. *)
Definition Lock_Obtain_resume (l : Lock) (me : nat) (how : lock_how) : Lock * bool :=
  let again :=
    match how with
    | READ_LOCK => negb (locker_is l me) && is_write l
    | WRITE_LOCK => (negb (excl_locked l =? 0) && negb (locker_is l me)) || negb (readers_reading l =? 0)
    | SHARED_LOCK => negb (excl_locked l =? 0)
    end in
  if again then (set_wait l how, true) else
  let l := add_waiting l (-1) in
  (match how with
   | READ_LOCK => add_readers l 1
   | WRITE_LOCK => set_excl l 2 (Some me)
   | SHARED_LOCK => set_excl l 4 (excl_locker l)
   end, false).

(** The obtaining functions: the flag says whether the thread waits in [Lock_Obtain]. *)
Definition ObtainReadLock (l : Lock) (me : nat) : Lock * bool :=
  if negb (is_write l) && (wait_states l =? 0) then (add_readers l 1, false) else
  if is_write l && locker_is l me then (add_readers l 1, false) else
  (Lock_Obtain_enter l READ_LOCK, true).

Definition ObtainWriteLock (l : Lock) (me : nat) : Lock * bool :=
  if (excl_locked l =? 0) && (readers_reading l =? 0) then (set_excl l 2 (Some me), false) else
  if is_write l && locker_is l me then (l, false) else
  (Lock_Obtain_enter l WRITE_LOCK, true).

Definition ObtainSharedLock (l : Lock) : Lock * bool :=
  if (excl_locked l =? 0) && (wait_states l =? 0) then (set_excl l 4 (excl_locker l), false) else
  (Lock_Obtain_enter l SHARED_LOCK, true).

(** [if (lock->excl_locked & WRITE_LOCK) { assert(...); lock->excl_locker = NULL; }] *)
Definition drop_locker (l : Lock) (me : nat) : res Lock :=
  if is_write l then
    if locker_is l me then Ret (set_excl l (excl_locked l) None) else Stop CAbort
  else Ret l.

Definition clear_wait (l : Lock) (m : Z) : Lock :=
  mkLock (u8 (Z.land (wait_states l) (Z.lnot m))) (excl_locked l) (readers_reading l) (num_waiting l) (excl_locker l).

(** The releasing functions: the lock and the event signalled. *)
Definition Lock_ReleaseR (l : Lock) (me : nat) : res (Lock * event) :=
  let* l := drop_locker l me in
  Ret (if negb (Z.land (wait_states l) 1 =? 0) then (clear_wait l 1, EvReaders)
       else (clear_wait l EXCL_LOCKS, EvExcl)).

Definition Lock_ReleaseW (l : Lock) (me : nat) : res (Lock * event) :=
  let* l := drop_locker l me in
  Ret (if negb (Z.land (wait_states l) EXCL_LOCKS =? 0) then (clear_wait l EXCL_LOCKS, EvExcl)
       else (clear_wait l 1, EvReaders)).

Definition ReleaseReadLock (l : Lock) (me : nat) : res (Lock * option event) :=
  let l := add_readers l (-1) in
  if (readers_reading l =? 0) && negb (wait_states l =? 0) then
    let* (l, e) := Lock_ReleaseW l me in Ret (l, Some e)
  else Ret (l, None).

Definition clear_excl (l : Lock) (m : Z) : Lock :=
  set_excl l (u8 (Z.land (excl_locked l) (Z.lnot m))) (excl_locker l).

Definition ReleaseWriteLock (l : Lock) (me : nat) : res (Lock * option event) :=
  let* (l, e) := (if negb (wait_states l =? 0) then
                    let* (l, e) := Lock_ReleaseR l me in Ret (l, Some e)
                  else Ret (l, None)) in
  Ret (clear_excl l 2, e).

Definition ReleaseSharedLock (l : Lock) (me : nat) : res (Lock * option event) :=
  let* (l, e) := (if negb (wait_states l =? 0) then
                    let* (l, e) := Lock_ReleaseR l me in Ret (l, Some e)
                  else Ret (l, None)) in
  Ret (clear_excl l EXCL_LOCKS, e).

Definition CheckLock (l : Lock) : Z := if negb (excl_locked l =? 0) then -1 else readers_reading l.
Definition WriteLocked (l : Lock) : bool := negb (excl_locked l =? 0).

(** The locks [ObtainDualLock] obtains, in order, by address. *)
Definition ObtainDualLock (lock_1 : Z) (how_1 : lock_how) (lock_2 : Z) (how_2 : lock_how) : list (Z * lock_how) :=
  if lock_2 <? lock_1 then [(lock_2, how_2); (lock_1, how_1)] else [(lock_1, how_1); (lock_2, how_2)].

(** The locks [ReleaseDualLock] releases, in order. *)
Definition ReleaseDualLock (lock_1 : Z) (how_1 : lock_how) (lock_2 : Z) (how_2 : lock_how) : list (Z * lock_how) :=
  [(lock_1, how_1); (lock_2, how_2)].

(** ** The system *)

(** What a thread does: nothing with this lock, waits in [Lock_Obtain], or has been
    woken and will test the loop condition when it runs. *)
Inductive tstat : Set := Idle | Blocked (how : lock_how) | Woken (how : lock_how).

Record sys : Type := mkSys {
  lk : Lock;
  st : nat -> tstat;
  readers : list nat;        (* ghost: one occurrence per read lock held *)
  writers : list nat;        (* ghost: one occurrence per write lock held *)
  sharers : list nat }.      (* ghost: holders of the shared lock *)

Definition sys_init : sys := mkSys Lock_Init (fun _ => Idle) [] [] [].

Definition set_st (f : nat -> tstat) (t : nat) (x : tstat) : nat -> tstat := fun u => if decide (u = t) then x else f u.

(** [LWP_NoYieldSignal]: every thread that waits for the event becomes runnable. *)
Definition signal (f : nat -> tstat) (e : option event) : nat -> tstat :=
  fun u => match f u, e with
           | Blocked h, Some ev =>
               match wait_event h, ev with
               | EvReaders, EvReaders => Woken h
               | EvExcl, EvExcl => Woken h
               | _, _ => Blocked h
               end
           | x, _ => x
           end.

Inductive lop : Set := Obtain (h : lock_how) | Resume | Release (h : lock_how).

Definition obtain_fn (h : lock_how) (l : Lock) (me : nat) : Lock * bool :=
  match h with READ_LOCK => ObtainReadLock l me | WRITE_LOCK => ObtainWriteLock l me | SHARED_LOCK => ObtainSharedLock l end.
Definition release_fn (h : lock_how) (l : Lock) (me : nat) : res (Lock * option event) :=
  match h with READ_LOCK => ReleaseReadLock l me | WRITE_LOCK => ReleaseWriteLock l me | SHARED_LOCK => ReleaseSharedLock l me end.

(** Ghost updates. *)
Definition grant (s : sys) (t : nat) (h : lock_how) (l : Lock) (f : nat -> tstat) : sys :=
  match h with
  | READ_LOCK => mkSys l f (t :: readers s) (writers s) (sharers s)
  | WRITE_LOCK => mkSys l f (readers s) (t :: writers s) (sharers s)
  | SHARED_LOCK => mkSys l f (readers s) (writers s) (t :: sharers s)
  end.
Fixpoint remove1 (t : nat) (l : list nat) : list nat :=
  match l with [] => [] | x :: l' => if decide (x = t) then l' else x :: remove1 t l' end.
Definition ungrant (s : sys) (t : nat) (h : lock_how) (l : Lock) (f : nat -> tstat) : sys :=
  match h with
  | READ_LOCK => mkSys l f (remove1 t (readers s)) (writers s) (sharers s)
  | WRITE_LOCK => mkSys l f (readers s) (remove1 t (writers s)) (sharers s)
  | SHARED_LOCK => mkSys l f (readers s) (writers s) (remove1 t (sharers s))
  end.

Definition holds (s : sys) (t : nat) (h : lock_how) : bool :=
  match h with
  | READ_LOCK => bool_decide (t ∈ readers s)
  | WRITE_LOCK => bool_decide (t ∈ writers s)
  | SHARED_LOCK => bool_decide (t ∈ sharers s)
  end.

(** One segment run by thread [t]; [None] when the thread cannot run it. *)
Definition apply_op (s : sys) (t : nat) (o : lop) : option (res sys) :=
  match o, st s t with
  | Obtain h, Idle =>
      let (l, waits) := obtain_fn h (lk s) t in
      Some (Ret (if waits then mkSys l (set_st (st s) t (Blocked h)) (readers s) (writers s) (sharers s)
                 else grant s t h l (st s)))
  | Resume, Woken h =>
      let (l, waits) := Lock_Obtain_resume (lk s) t h in
      Some (Ret (if waits then mkSys l (set_st (st s) t (Blocked h)) (readers s) (writers s) (sharers s)
                 else grant s t h l (set_st (st s) t Idle)))
  | Release h, Idle =>
      if holds s t h then
        Some (let* (l, e) := release_fn h (lk s) t in Ret (ungrant s t h l (signal (st s) e)))
      else None
  | _, _ => None
  end.

(** A schedule; [None] when a step is not possible. *)
Fixpoint run (s : sys) (tr : list (nat * lop)) : option (res sys) :=
  match tr with
  | [] => Some (Ret s)
  | (t, o) :: tr' =>
      match apply_op s t o with
      | Some (Ret s') => run s' tr'
      | r => r
      end
  end.

(** ** Disciplined clients

    A thread asks for the lock only when it holds none on it, never for the shared
    lock, and there are never 256 read locks. *)
Definition disciplined (s : sys) (t : nat) (o : lop) : Prop :=
  match o with
  | Obtain h => h <> SHARED_LOCK /\ t ∉ readers s /\ t ∉ writers s
  | _ => True
  end.

Definition dstep (s s' : sys) : Prop :=
  exists t o, disciplined s t o /\ apply_op s t o = Some (Ret s') /\ zlen (readers s') < 256.

Definition reachable (s : sys) : Prop := rtc dstep sys_init s.

(** ** The invariant *)
Definition some_blocked (f : nat -> tstat) (h : lock_how) : Prop := exists u, f u = Blocked h.
Definition some_woken (f : nat -> tstat) : Prop := exists u h, f u = Woken h.
Definition is_blocked (x : tstat) : Prop := exists h, x = Blocked h.

(** The wait flags for blocked readers [r] and blocked writers [w]. *)
Definition flags (r w : bool) : Z := match r, w with false, false => 0 | true, false => 1 | false, true => 2 | true, true => 3 end.

Record lock_inv (s : sys) : Prop := {
  li_count : readers_reading (lk s) = zlen (readers s);
  li_few : zlen (readers s) < 256;
  li_excl : (excl_locked (lk s) = 0 /\ writers s = []) \/
            (excl_locked (lk s) = 2 /\ readers s = [] /\ exists t, writers s = [t] /\ excl_locker (lk s) = Some t);
  li_wait : exists r w, wait_states (lk s) = flags r w /\
      (r = true <-> some_blocked (st s) READ_LOCK) /\ (w = true <-> some_blocked (st s) WRITE_LOCK);
  li_shared : forall u, st s u <> Blocked SHARED_LOCK /\ st s u <> Woken SHARED_LOCK;
  li_idle : forall u, u ∈ writers s \/ u ∈ readers s -> st s u = Idle;
  li_wakeup : excl_locked (lk s) = 0 -> readers s = [] ->
      some_blocked (st s) READ_LOCK \/ some_blocked (st s) WRITE_LOCK -> some_woken (st s) }.

Lemma blocked_set f t x h : ~ is_blocked (f t) ->
  some_blocked (set_st f t x) h <-> x = Blocked h \/ some_blocked f h.
Proof.
  intros Hn. unfold some_blocked, set_st. split.
  - intros [u Hu]. case_decide as E; [subst u; by left|]. right. exists u. done.
  - intros [->|[u Hu]]; [exists t; by rewrite decide_True|]. exists u. rewrite decide_False; [done|].
    intros ->. apply Hn. eexists. done.
Qed.

Lemma woken_set f t x : (forall h, f t <> Woken h) -> some_woken f -> some_woken (set_st f t x).
Proof.
  intros Hn (u & h & Hu). exists u, h. unfold set_st. rewrite decide_False; [done|]. intros ->. by apply (Hn h).
Qed.

Lemma signal_none f u : signal f None u = f u.
Proof. unfold signal. destruct (f u); done. Qed.

Lemma blocked_signal f e h :
  some_blocked (signal f e) h <-> some_blocked f h /\ Some (wait_event h) <> e.
Proof.
  unfold some_blocked, signal. split.
  - intros [u Hu]. destruct (f u) as [|h'|h'] eqn:E; [destruct e; discriminate| |destruct e; discriminate].
    destruct e as [ev|].
    + destruct h', ev; cbn in Hu; try discriminate; injection Hu as <-; (split; [exists u; done|discriminate]).
    + injection Hu as <-. split; [exists u; done|discriminate].
  - intros [[u Hu] He]. exists u. rewrite Hu. destruct e as [ev|]; [|done]. destruct h, ev; cbn in *; done || congruence.
Qed.

Lemma woken_signal f e h : some_blocked f h -> Some (wait_event h) = e -> some_woken (signal f e).
Proof.
  intros [u Hu] <-. exists u, h. unfold signal. rewrite Hu. destruct h; done.
Qed.

Lemma signal_keeps f e u : ~ is_blocked (f u) -> signal f e u = f u.
Proof. intros H. unfold signal. destruct (f u) eqn:E; [done| |done]. destruct H. eexists. done. Qed.

Lemma signal_woken_keeps f e : some_woken f -> some_woken (signal f e).
Proof. intros (u & h & Hu). exists u, h. rewrite signal_keeps; [done|]. intros [h' E]. congruence. Qed.

Lemma signal_shared f e : (forall u, f u <> Blocked SHARED_LOCK /\ f u <> Woken SHARED_LOCK) ->
  forall u, signal f e u <> Blocked SHARED_LOCK /\ signal f e u <> Woken SHARED_LOCK.
Proof.
  intros H u. specialize (H u). unfold signal. destruct (f u) as [|h|h], e as [ev|]; try done.
  destruct h, ev; cbn; split; congruence || tauto.
Qed.

Lemma lock_inv_init : lock_inv sys_init.
Proof.
  split; cbn; try done.
  - left. done.
  - exists false, false. split; [done|]. split; (split; [done|]); intros [u Hu]; done.
  - intros _ _ [[u Hu]|[u Hu]]; done.
Qed.

(** *** Obtaining *)
Section Steps.
Context (s : sys) (t : nat) (HI : lock_inv s).

(** The thread blocks with its flag set. *)
Lemma inv_block h l :
  ~ is_blocked (st s t) -> h <> SHARED_LOCK -> t ∉ readers s -> t ∉ writers s ->
  wait_states l = u8 (Z.lor (wait_states (lk s)) (flag h)) -> excl_locked l = excl_locked (lk s) ->
  readers_reading l = readers_reading (lk s) -> excl_locker l = excl_locker (lk s) ->
  (excl_locked (lk s) = 0 -> readers s = [] -> (forall h', st s t <> Woken h') /\ some_woken (st s)) ->
  lock_inv (mkSys l (set_st (st s) t (Blocked h)) (readers s) (writers s) (sharers s)).
Proof using HI.
  intros Hnb Hh Hr Hw Ews Ex Err El Hfree. destruct HI as [I1 I2 I3 I4 I5 I6 I7].
  split; cbn; rewrite ?Ex, ?Err, ?El; try done.
  - destruct I4 as (r & w & Ew & Er & Ewr). rewrite Ews, Ew.
    exists (r || bool_decide (h = READ_LOCK)), (w || bool_decide (h = WRITE_LOCK)).
    split; [destruct r, w, h; done || congruence|].
    rewrite !blocked_set, !orb_true_iff, !bool_decide_eq_true, Er, Ewr by done.
    split; split; intros [Hx|Hx]; first [by left|by right|right; congruence|left; congruence].
  - intros u. unfold set_st. case_decide; [split; congruence|apply I5].
  - intros u Hu. unfold set_st. rewrite decide_False; [auto|]. intros ->. tauto.
  - intros H1 H2 _. destruct (Hfree H1 H2) as [Hn Hwk]. apply woken_set; done.
Qed.

(** The thread gets the read lock. *)
Lemma inv_grant_read l f :
  wait_states l = wait_states (lk s) -> excl_locked l = 0 -> excl_locked (lk s) = 0 ->
  readers_reading l = u8 (readers_reading (lk s) + 1) -> zlen (t :: readers s) < 256 ->
  (forall u, f u = if decide (u = t) then Idle else st s u) -> ~ is_blocked (st s t) ->
  lock_inv (mkSys l f (t :: readers s) (writers s) (sharers s)).
Proof using HI.
  intros Ews Ex Ex0 Err Hlt Hf Hnb. destruct HI as [I1 I2 I3 I4 I5 I6 I7].
  assert (forall h, some_blocked f h <-> some_blocked (st s) h) as Hb.
  { intros h. split; intros [u Hu]; exists u; rewrite Hf in *; case_decide; subst; try done.
    destruct Hnb. eexists. done. }
  split; cbn; rewrite ?Ews, ?Ex; try done.
  - rewrite Err, I1. pose proof (zlen_nonneg (readers s)). unfold zlen in *. cbn [length] in *. rewrite uwrap_small; lia.
  - left. split; [done|]. destruct I3 as [[_ ?]|[E _]]; [done|congruence].
  - destruct I4 as (r & w & ? & ? & ?). exists r, w. rewrite !Hb. done.
  - intros u. rewrite Hf. case_decide; [done|apply I5].
  - intros u Hu. rewrite Hf. case_decide; [done|]. apply I6. rewrite elem_of_cons in Hu. tauto.
Qed.

(** The thread gets the write lock. *)
Lemma inv_grant_write l f :
  wait_states l = wait_states (lk s) -> excl_locked l = 2 -> excl_locker l = Some t ->
  readers_reading l = 0 -> readers s = [] -> writers s = [] ->
  (forall u, f u = if decide (u = t) then Idle else st s u) -> ~ is_blocked (st s t) ->
  lock_inv (mkSys l f (readers s) (t :: writers s) (sharers s)).
Proof using HI.
  intros Ews Ex El Err Hr Hwn Hf Hnb. destruct HI as [I1 I2 I3 I4 I5 I6 I7].
  assert (forall h, some_blocked f h <-> some_blocked (st s) h) as Hb.
  { intros h. split; intros [u Hu]; exists u; rewrite Hf in *; case_decide; subst; try done.
    destruct Hnb. eexists. done. }
  split; cbn; rewrite ?Ews, ?Ex, ?Hr, ?Hwn; try done.
  - right. split; [done|]. split; [done|]. exists t. done.
  - destruct I4 as (r & w & ? & ? & ?). exists r, w. rewrite !Hb. done.
  - intros u. rewrite Hf. case_decide; [done|apply I5].
  - intros u [Hu|Hu]; [|inversion Hu]. apply elem_of_cons in Hu as [->|Hu]; [|inversion Hu]. rewrite Hf. by rewrite decide_True.
Qed.

(** The lock becomes free and the blocked threads of one kind are woken. *)
Lemma inv_free l ev :
  excl_locked l = 0 -> readers_reading l = 0 ->
  (forall h, h <> SHARED_LOCK -> (some_blocked (st s) h -> Some (wait_event h) <> ev ->
     exists h', h' <> SHARED_LOCK /\ some_blocked (st s) h' /\ Some (wait_event h') = ev)) ->
  (exists r w, wait_states l = flags r w /\
     (r = true <-> some_blocked (st s) READ_LOCK /\ Some EvReaders <> ev) /\
     (w = true <-> some_blocked (st s) WRITE_LOCK /\ Some EvExcl <> ev)) ->
  lock_inv (mkSys l (signal (st s) ev) [] [] (sharers s)).
Proof using HI.
  intros Ex Err Hother Hws. destruct HI as [I1 I2 I3 I4 I5 I6 I7]. split; cbn; try done.
  - left. done.
  - destruct Hws as (r & w & E & Hr & Hw). exists r, w. rewrite !blocked_signal. done.
  - apply signal_shared. done.
  - intros u [Hu|Hu]; inversion Hu.
  - intros _ _ Hb. rewrite !blocked_signal in Hb.
    destruct Hb as [[Hb He]|[Hb He]].
    + destruct (Hother READ_LOCK ltac:(discriminate) Hb He) as (h' & _ & Hb' & He'). eapply woken_signal; done.
    + destruct (Hother WRITE_LOCK ltac:(discriminate) Hb He) as (h' & _ & Hb' & He'). eapply woken_signal; done.
Qed.
End Steps.

(** What a release does to the wait flags. *)
Lemma release_flags (f : nat -> tstat) r w ws ev :
  (r = true <-> some_blocked f READ_LOCK) -> (w = true <-> some_blocked f WRITE_LOCK) ->
  (ev = None /\ r = false /\ w = false /\ ws = 0 \/
   ev = Some EvReaders /\ r = true /\ ws = flags false w \/
   ev = Some EvExcl /\ w = true /\ ws = flags r false) ->
  (forall h, h <> SHARED_LOCK -> (some_blocked f h -> Some (wait_event h) <> ev ->
     exists h', h' <> SHARED_LOCK /\ some_blocked f h' /\ Some (wait_event h') = ev)) /\
  (exists r w, ws = flags r w /\ (r = true <-> some_blocked f READ_LOCK /\ Some EvReaders <> ev) /\
     (w = true <-> some_blocked f WRITE_LOCK /\ Some EvExcl <> ev)).
Proof.
  intros Hr Hw [(-> & Er & Ew & ->)|[(-> & Er & ->)|(-> & Ew & ->)]]; split.
  - intros [] Hh Hb; [apply Hr in Hb|apply Hw in Hb|done]; congruence.
  - exists false, false. rewrite <- Hr, <- Hw, Er, Ew. split; [done|]. split; split; intros; tauto || congruence.
  - intros h _ _ _. exists READ_LOCK. split; [done|]. split; [by apply Hr|done].
  - exists false, w. split; [done|]. split; [split; [done|intros [_ ?]; done]|].
    rewrite <- Hw. split; [intros ->; done|tauto].
  - intros h _ _ _. exists WRITE_LOCK. split; [done|]. split; [by apply Hw|done].
  - exists r, false. split; [done|]. split; [|split; [done|intros [_ ?]; done]].
    rewrite <- Hr. split; [intros ->; done|tauto].
Qed.

Lemma not_blocked_idle x : x = Idle -> ~ is_blocked x.
Proof. intros -> [h Hh]. discriminate. Qed.
Lemma not_blocked_woken x h : x = Woken h -> ~ is_blocked x.
Proof. intros -> [h' Hh]. discriminate. Qed.

Lemma is_write_0 l : excl_locked l = 0 -> is_write l = false.
Proof. unfold is_write. intros ->. done. Qed.
Lemma is_write_2 l : excl_locked l = 2 -> is_write l = true.
Proof. unfold is_write. intros ->. done. Qed.

Lemma set_st_id (f : nat -> tstat) t x : f t = x -> forall u, f u = if decide (u = t) then x else f u.
Proof. intros H u. case_decide; [by subst|done]. Qed.

Lemma flags_0 r w : flags r w = 0 -> r = false /\ w = false.
Proof. destruct r, w; done. Qed.

Lemma obtain_inv s t h s' :
  lock_inv s -> disciplined s t (Obtain h) -> apply_op s t (Obtain h) = Some (Ret s') ->
  zlen (readers s') < 256 -> lock_inv s'.
Proof.
  intros HI (Hsh & Hr & Hw) E Hlt. unfold apply_op in E. destruct (st s t) eqn:Et; try discriminate.
  pose proof (not_blocked_idle _ Et) as Hnb. pose proof HI as [I1 I2 I3 I4 I5 I6 I7].
  destruct h; [| |done]; cbn [obtain_fn] in E.
  - unfold ObtainReadLock in E.
    destruct I3 as [[Ex Ewr]|(Ex & Hre & wt & Ewr & El)].
    + rewrite is_write_0 in E by done. cbn [negb andb] in E.
      destruct (Z.eqb_spec (wait_states (lk s)) 0) as [Ews|Ews]; injection E as <-.
      * apply inv_grant_read; try done. apply set_st_id. done.
      * apply inv_block; try done. intros _ Hemp. split; [intros h'; congruence|]. apply I7; try done.
        destruct I4 as (r & w & E4 & H1 & H2). destruct r; [left; by apply H1|]. right. apply H2.
        destruct w; [done|]. rewrite E4 in Ews. done.
    + rewrite is_write_2 in E by done. cbn [negb andb] in E. unfold locker_is in E. rewrite El in E.
      rewrite bool_decide_false in E by (intros [= ->]; apply Hw; rewrite Ewr; left). injection E as <-.
      apply inv_block; try done. congruence.
  - unfold ObtainWriteLock in E.
    destruct ((excl_locked (lk s) =? 0) && (readers_reading (lk s) =? 0)) eqn:Efree.
    + injection E as <-. apply andb_true_iff in Efree as [Ex Err]. apply Z.eqb_eq in Ex, Err.
      assert (readers s = []) as Hemp by (apply length_zero_iff_nil; unfold zlen in I1; lia).
      assert (writers s = []) as Hwn by (destruct I3 as [[_ ?]|(? & _)]; [done|congruence]).
      apply (inv_grant_write s t HI); try done. apply set_st_id. done.
    + destruct I3 as [[Ex Ewr]|(Ex & Hre & wt & Ewr & El)].
      * rewrite is_write_0 in E by done. cbn [andb] in E. injection E as <-. apply inv_block; try done.
        intros _ Hemp. rewrite Ex, I1, Hemp in Efree. discriminate.
      * rewrite is_write_2 in E by done. unfold locker_is in E. rewrite El in E.
        rewrite bool_decide_false in E by (intros [= ->]; apply Hw; rewrite Ewr; left). cbn [andb] in E. injection E as <-. apply inv_block; try done. congruence.
Qed.

Lemma resume_inv s t s' :
  lock_inv s -> apply_op s t Resume = Some (Ret s') -> zlen (readers s') < 256 -> lock_inv s'.
Proof.
  intros HI E Hlt. unfold apply_op in E. destruct (st s t) as [|h|h] eqn:Et; try discriminate.
  pose proof (not_blocked_woken _ _ Et) as Hnb. pose proof HI as [I1 I2 I3 I4 I5 I6 I7].
  assert (t ∉ readers s) as Hr by (intros H; rewrite I6 in Et by tauto; discriminate).
  assert (t ∉ writers s) as Hw by (intros H; rewrite I6 in Et by tauto; discriminate).
  unfold Lock_Obtain_resume in E. destruct h; [| |destruct (I5 t); tauto].
  - destruct I3 as [[Ex Ewr]|(Ex & Hre & wt & Ewr & El)].
    + rewrite is_write_0 in E by done. rewrite andb_false_r in E. injection E as <-. apply inv_grant_read; done.
    + rewrite is_write_2 in E by done. unfold locker_is in E. rewrite El in E.
      rewrite bool_decide_false in E by (intros [= ->]; apply Hw; rewrite Ewr; left). cbn [negb andb] in E. injection E as <-. apply inv_block; try done. congruence.
  - destruct (_ || _) eqn:Eagain in E; injection E as <-.
    + apply inv_block; try done. intros Ex Hemp. rewrite Ex, I1, Hemp in Eagain. discriminate.
    + apply orb_false_iff in Eagain as [Ea Er]. apply negb_false_iff, Z.eqb_eq in Er.
      assert (readers s = []) as Hemp by (apply length_zero_iff_nil; unfold zlen in I1; lia).
      assert (writers s = []) as Hwn.
      { destruct I3 as [[_ ?]|(Ex & _ & wt & Ewr & El)]; [done|]. unfold locker_is in Ea. rewrite Ex, El in Ea.
        rewrite bool_decide_false in Ea by (intros [= ->]; apply Hw; rewrite Ewr; left). discriminate. }
      apply (inv_grant_write s t HI); done.
Qed.

Lemma remove1_length t l : t ∈ l -> zlen (remove1 t l) = zlen l - 1.
Proof.
  unfold zlen. induction l as [|x l IH]; intros Hin; [inversion Hin|]. cbn. case_decide; [lia|].
  apply elem_of_cons in Hin as [->|Hin]; [done|]. specialize (IH Hin). cbn. destruct l; [inversion Hin|]. cbn in *. lia.
Qed.
Lemma remove1_sub t l u : u ∈ remove1 t l -> u ∈ l.
Proof.
  induction l as [|x l IH]; cbn; [done|]. case_decide; [by right|].
  intros [->|Hu]%elem_of_cons; [left|right; auto].
Qed.

Lemma release_read_spec s t : lock_inv s -> t ∈ readers s -> st s t = Idle ->
  exists s', apply_op s t (Release READ_LOCK) = Some (Ret s') /\ lock_inv s' /\ zlen (readers s') < 256.
Proof.
  intros HI Hin Et. pose proof HI as [I1 I2 I3 I4 I5 I6 I7]. unfold apply_op. rewrite Et. cbn [holds].
  rewrite bool_decide_true by done. cbn [release_fn]. unfold ReleaseReadLock.
  pose proof (remove1_length t (readers s) Hin) as Hrl. pose proof (zlen_nonneg (remove1 t (readers s))) as H0.
  assert (excl_locked (lk s) = 0 /\ writers s = []) as [Ex Ewr].
  { destruct I3 as [?|(_ & E & _)]; [done|]. rewrite E in Hin. inversion Hin. }
  set (l1 := add_readers (lk s) (-1)).
  assert (readers_reading l1 = zlen (remove1 t (readers s))) as Hrr.
  { unfold l1. cbn. rewrite I1. rewrite uwrap_small; lia. }
  assert (wait_states l1 = wait_states (lk s) /\ excl_locked l1 = 0) as [Hws Hex] by (split; [done|exact Ex]).
  destruct (Z.eqb_spec (readers_reading l1) 0) as [Ez|Ez]; cbn [andb].
  - assert (remove1 t (readers s) = []) as Hnil by (apply length_zero_iff_nil; unfold zlen in *; lia).
    destruct I4 as (r & w & E4 & Hr & Hw).
    assert (forall l' ev, excl_locked l' = 0 -> readers_reading l' = 0 ->
      (ev = None /\ r = false /\ w = false /\ wait_states l' = 0 \/
       ev = Some EvReaders /\ r = true /\ wait_states l' = flags false w \/
       ev = Some EvExcl /\ w = true /\ wait_states l' = flags r false) ->
      lock_inv (ungrant s t READ_LOCK l' (signal (st s) ev))) as Hfin.
    { intros l' ev Hx Hy Hc. destruct (release_flags (st s) r w _ ev Hr Hw Hc) as [Ha Hb].
      cbn [ungrant]. rewrite Hnil, Ewr. apply inv_free; done. }
    assert (forall l' f, zlen (readers (ungrant s t READ_LOCK l' f)) < 256) as Hzz by (intros; cbn; lia).
    destruct (Z.eqb_spec (wait_states l1) 0) as [E0|E0]; cbn [negb].
    + cbn [rbind]. eexists. split; [reflexivity|]. split; [|apply Hzz].
      apply (Hfin l1 None); try done. left. rewrite Hws, E4 in E0. apply flags_0 in E0 as [-> ->].
      rewrite Hws, E4. done.
    + unfold Lock_ReleaseW, drop_locker. rewrite (is_write_0 l1) by done. cbn [rbind].
      rewrite Hws, E4 in E0. rewrite Hws, E4.
      destruct (negb (Z.land (flags r w) EXCL_LOCKS =? 0)) eqn:Eb; cbn [rbind];
        (eexists; split; [reflexivity|]; split; [|apply Hzz]).
      * apply (Hfin (clear_wait l1 EXCL_LOCKS) (Some EvExcl)); [done|exact Ez|]. right. right.
        cbn. rewrite E4. destruct r, w; try done; discriminate.
      * apply (Hfin (clear_wait l1 1) (Some EvReaders)); [done|exact Ez|]. right. left.
        cbn. rewrite E4. destruct r, w; try done; discriminate.
  - cbn [rbind]. eexists. split; [reflexivity|]. cbn [ungrant readers]. split; [|lia].
    split; cbn [lk st readers writers]; try done.
    + lia.
    + left. done.
    + destruct I4 as (r & w & E4 & Hr & Hw). exists r, w. rewrite !blocked_signal, <- Hr, <- Hw.
      split; [exact E4|]. split; (split; [intros H; split; [done|discriminate]|tauto]).
    + intros u. rewrite signal_none. apply I5.
    + intros u [Hu|Hu]; rewrite signal_none; apply I6; [by left|]. right. eapply remove1_sub. done.
    + intros _ Hnil. rewrite Hnil in Hrr. done.
Qed.

Lemma release_write_spec s t : lock_inv s -> t ∈ writers s -> st s t = Idle ->
  exists s', apply_op s t (Release WRITE_LOCK) = Some (Ret s') /\ lock_inv s' /\ zlen (readers s') < 256.
Proof.
  intros HI Hwt Et. pose proof HI as [I1 I2 I3 I4 I5 I6 I7]. unfold apply_op. rewrite Et. cbn [holds].
  rewrite bool_decide_true by done. cbn [release_fn]. unfold ReleaseWriteLock.
  destruct I3 as [[_ Ewr]|(Ex & Hnil & wt & Ewr & El)]; [rewrite Ewr in Hwt; inversion Hwt|].
  assert (wt = t) as -> by (rewrite Ewr in Hwt; apply elem_of_cons in Hwt as [->|Hwt]; [done|inversion Hwt]).
  assert (remove1 t (writers s) = []) as Hrm by (rewrite Ewr; cbn; by rewrite decide_True).
  destruct I4 as (r & w & E4 & Hr & Hw). rewrite Hnil in I1.
  assert (forall l' ev, excl_locked l' = 0 -> readers_reading l' = 0 ->
    (ev = None /\ r = false /\ w = false /\ wait_states l' = 0 \/
     ev = Some EvReaders /\ r = true /\ wait_states l' = flags false w \/
     ev = Some EvExcl /\ w = true /\ wait_states l' = flags r false) ->
    lock_inv (ungrant s t WRITE_LOCK l' (signal (st s) ev)) /\ zlen (readers (ungrant s t WRITE_LOCK l' (signal (st s) ev))) < 256) as Hfin.
  { intros l' ev Hx Hy Hc. destruct (release_flags (st s) r w _ ev Hr Hw Hc) as [Ha Hb].
    cbn [ungrant readers]. rewrite Hnil, Hrm. split; [apply inv_free; done|done]. }
  destruct (Z.eqb_spec (wait_states (lk s)) 0) as [E0|E0]; cbn [negb rbind].
  - eexists. split; [reflexivity|]. apply Hfin; [cbn; rewrite Ex; done|exact I1|].
    left. rewrite E4 in E0. apply flags_0 in E0 as [-> ->]. cbn. rewrite E4. done.
  - unfold Lock_ReleaseR, drop_locker. rewrite is_write_2 by done. unfold locker_is. rewrite El, bool_decide_true by done.
    cbn [rbind]. cbn [set_excl wait_states]. rewrite E4. destruct (negb (Z.land (flags r w) 1 =? 0)) eqn:Eb; cbn [rbind].
    + eexists. split; [reflexivity|]. apply Hfin; [cbn; rewrite Ex; done|exact I1|]. right. left.
      cbn. rewrite E4. destruct r, w; try done; discriminate.
    + eexists. split; [reflexivity|]. apply Hfin; [cbn; rewrite Ex; done|exact I1|]. right. right.
      cbn. rewrite E4. rewrite E4 in E0. destruct r, w; try done; discriminate.
Qed.

Lemma release_inv s t h s' :
  lock_inv s -> sharers s = [] -> apply_op s t (Release h) = Some (Ret s') -> lock_inv s'.
Proof.
  intros HI Hsh E. assert (st s t = Idle) as Et by (unfold apply_op in E; destruct (st s t); done).
  assert (holds s t h = true) as Hh by (unfold apply_op in E; rewrite Et in E; destruct (holds s t h); done).
  destruct h; cbn in Hh; rewrite bool_decide_eq_true in Hh.
  - destruct (release_read_spec s t HI Hh Et) as (s2 & E2 & H2 & _). rewrite E in E2. injection E2 as <-. done.
  - destruct (release_write_spec s t HI Hh Et) as (s2 & E2 & H2 & _). rewrite E in E2. injection E2 as <-. done.
  - rewrite Hsh in Hh. inversion Hh.
Qed.

(** Disciplined clients never hold the shared lock. *)
Lemma dstep_sharers s s' : lock_inv s -> sharers s = [] -> dstep s s' -> sharers s' = [].
Proof.
  intros HI Hs (t & o & Hd & E & _). unfold apply_op in E.
  destruct o as [h| |h], (st s t) as [|h'|h'] eqn:Et; try discriminate.
  - destruct Hd as (Hn & _). destruct (obtain_fn h (lk s) t) as [l []]; injection E as <-; [done|]. destruct h; done.
  - destruct (Lock_Obtain_resume (lk s) t h') as [l []]; injection E as <-; [done|].
    destruct h'; try done. destruct (li_shared _ HI t). congruence.
  - destruct (holds s t h); [|discriminate]. destruct (release_fn h (lk s) t) as [[l e]|]; [|discriminate].
    injection E as <-. destruct h; try done. cbn. rewrite Hs. done.
Qed.

Lemma reachable_inv s : reachable s -> lock_inv s /\ sharers s = [].
Proof.
  intros H. unfold reachable in H. remember sys_init as s0 eqn:E0. assert (lock_inv s0 /\ sharers s0 = []) as H0.
  { subst. split; [apply lock_inv_init|done]. }
  clear E0. induction H as [s|s s1 s2 Hstep _ IH]; [done|]. apply IH. destruct H0 as [HI Hs].
  split; [|eapply dstep_sharers; done]. destruct Hstep as (t & o & Hd & E & Hlt).
  destruct o as [h| |h].
  - exact (obtain_inv s t h s1 HI Hd E Hlt).
  - exact (resume_inv s t s1 HI E Hlt).
  - exact (release_inv s t h s1 HI Hs E).
Qed.

(** ** The theorems *)

(** C23 Mutual exclusion: with clients that obtain read and write locks only, one at a
    time, in every reachable state at most one write lock is held, no read lock is held
    beside it, and the fields of the lock agree with who holds it.  Every grant and
    every release is recorded, so that two writers at once would show. *)
Theorem lock_mutual_exclusion s : reachable s ->
  (writers s = [] \/ exists t, writers s = [t] /\ readers s = [] /\ excl_locker (lk s) = Some t) /\
  CheckLock (lk s) = (if decide (writers s = []) then zlen (readers s) else -1) /\
  WriteLocked (lk s) = bool_decide (writers s <> []).
Proof.
  intros H. apply reachable_inv in H as [[I1 I2 I3 _ _ _ _] _]. unfold CheckLock, WriteLocked.
  destruct I3 as [[-> ->]|(-> & -> & t & -> & E)]; cbn.
  - split; [by left|done].
  - split; [right; by exists t|done].
Qed.

(** C34 No release by a holder aborts: the assertions of [Lock_ReleaseR] and
    [Lock_ReleaseW] hold in every state disciplined clients reach. *)
Theorem lock_release_safe s t h : reachable s -> st s t = Idle -> holds s t h = true ->
  exists s', apply_op s t (Release h) = Some (Ret s') /\ dstep s s'.
Proof.
  intros H Et Hh. apply reachable_inv in H as [HI Hs]. destruct h; cbn in Hh; rewrite bool_decide_eq_true in Hh.
  - destruct (release_read_spec s t HI Hh Et) as (s' & E & _ & Hz). exists s'. split; [done|].
    exists t, (Release READ_LOCK). done.
  - destruct (release_write_spec s t HI Hh Et) as (s' & E & _ & Hz). exists s'. split; [done|].
    exists t, (Release WRITE_LOCK). done.
  - rewrite Hs in Hh. inversion Hh.
Qed.

(** C24 No lost wakeup: when nobody holds the lock and a thread waits for it, some waiting
    thread has been woken and will get it when it runs. *)
Theorem lock_no_lost_wakeup s h : reachable s ->
  writers s = [] -> readers s = [] -> some_blocked (st s) h ->
  exists u h', st s u = Woken h' /\
    exists s', apply_op s u Resume = Some (Ret s') /\ st s' u = Idle /\ holds s' u h' = true.
Proof.
  intros H Hw Hr Hb. apply reachable_inv in H as [HI _]. pose proof HI as [I1 I2 I3 I4 I5 I6 I7].
  destruct I3 as [[Ex _]|(_ & _ & t & ? & _)]; [|congruence].
  assert (some_woken (st s)) as (u & h' & Hu).
  { apply I7; [done|done|]. destruct h; [by left|by right|]. destruct Hb as [u Hu]. destruct (I5 u). done. }
  exists u, h'. split; [done|]. unfold apply_op. rewrite Hu. unfold Lock_Obtain_resume.
  destruct h'; [| |destruct (I5 u); done].
  - rewrite is_write_0 by done. rewrite andb_false_r. eexists. split; [reflexivity|]. cbn. split.
    + unfold set_st. by rewrite decide_True.
    + apply bool_decide_true. left.
  - rewrite Ex, I1, Hr. cbn [Z.eqb negb andb orb zlen length Z.of_nat]. eexists. split; [reflexivity|]. cbn. split.
    + unfold set_st. by rewrite decide_True.
    + apply bool_decide_true. left.
Qed.

(** Obtaining two locks in the order of their addresses: whatever the order of the
    arguments, two threads that obtain the same pair ask for the same lock first. *)
Theorem ObtainDualLock_ordered a b ha hb ha' hb' :
  a <> b ->
  (fst <$> ObtainDualLock a ha b hb) = (fst <$> ObtainDualLock b hb' a ha') /\
  (fst <$> ObtainDualLock a ha b hb) = [Z.min a b; Z.max a b] /\
  (forall x h, (x, h) ∈ ObtainDualLock a ha b hb <-> (x, h) ∈ ReleaseDualLock a ha b hb).
Proof.
  intros Hab. unfold ObtainDualLock, ReleaseDualLock.
  destruct (Z.ltb_spec b a), (Z.ltb_spec a b); try lia; cbn; split; [done| |done|]; split.
  - f_equal; [lia|]. f_equal. lia.
  - intros x h. rewrite !elem_of_cons. tauto.
  - f_equal; [lia|]. f_equal. lia.
  - done.
Qed.

(** ** Examples and counterexamples *)
Definition after (tr : list (nat * lop)) : sys :=
  match run sys_init tr with Some (Ret s) => s | _ => sys_init end.

Lemma reachable_snoc s t o s' : reachable s -> disciplined s t o -> apply_op s t o = Some (Ret s') ->
  zlen (readers s') < 256 -> reachable s'.
Proof. intros H Hd E Hl. eapply rtc_r; [exact H|]. exists t, o. done. Qed.

(** A writer, a blocked writer and a blocked reader; then the writer is done. *)
Definition trace0 : list (nat * lop) := [(1%nat, Obtain WRITE_LOCK); (2%nat, Obtain WRITE_LOCK); (3%nat, Obtain READ_LOCK)].
Definition trace1 : list (nat * lop) := trace0 ++ [(1%nat, Release WRITE_LOCK)].

Ltac reach_one s t o := apply (reachable_snoc s t o); [| |reflexivity|vm_compute; reflexivity];
  [|cbn; repeat split; try discriminate; apply (bool_decide_unpack _); vm_compute; exact I].

Lemma trace0_reachable : reachable (after trace0).
Proof.
  reach_one (after (take 2 trace0)) 3%nat (Obtain READ_LOCK).
  reach_one (after (take 1 trace0)) 2%nat (Obtain WRITE_LOCK).
  reach_one sys_init 1%nat (Obtain WRITE_LOCK). apply rtc_refl.
Qed.

Lemma trace1_reachable : reachable (after trace1).
Proof.
  apply (reachable_snoc (after trace0) 1%nat (Release WRITE_LOCK)); [apply trace0_reachable|done|reflexivity|vm_compute; reflexivity].
Qed.

Lemma lock_mutual_exclusion_witness :
  (writers (after trace0) = [] \/ exists t, writers (after trace0) = [t] /\ readers (after trace0) = [] /\ excl_locker (lk (after trace0)) = Some t) /\
  CheckLock (lk (after trace0)) = -1 /\ WriteLocked (lk (after trace0)) = true.
Proof. exact (lock_mutual_exclusion (after trace0) trace0_reachable). Defined.

Lemma lock_release_safe_witness :
  exists s', apply_op (after trace0) 1 (Release WRITE_LOCK) = Some (Ret s') /\ dstep (after trace0) s'.
Proof. exact (lock_release_safe (after trace0) 1 WRITE_LOCK trace0_reachable eq_refl eq_refl). Defined.

Lemma lock_no_lost_wakeup_witness :
  exists u h', st (after trace1) u = Woken h' /\
    exists s', apply_op (after trace1) u Resume = Some (Ret s') /\ st s' u = Idle /\ holds s' u h' = true.
Proof.
  apply (lock_no_lost_wakeup (after trace1) WRITE_LOCK trace1_reachable); [reflexivity..|].
  exists 2%nat. reflexivity.
Defined.

Lemma ObtainDualLock_ordered_witness :
  (fst <$> ObtainDualLock 8 READ_LOCK 4 WRITE_LOCK) = (fst <$> ObtainDualLock 4 READ_LOCK 8 SHARED_LOCK) /\
  (fst <$> ObtainDualLock 8 READ_LOCK 4 WRITE_LOCK) = [Z.min 8 4; Z.max 8 4] /\
  (forall x h, (x, h) ∈ ObtainDualLock 8 READ_LOCK 4 WRITE_LOCK <-> (x, h) ∈ ReleaseDualLock 8 READ_LOCK 4 WRITE_LOCK).
Proof. apply (ObtainDualLock_ordered 8 4 READ_LOCK WRITE_LOCK SHARED_LOCK READ_LOCK). lia. Defined.

(** The shared lock breaks exclusion: [ReleaseWriteLock] with nobody waiting leaves the
    thread in [excl_locker], so that when it later waits for the write lock while another
    thread holds the shared lock, the wakeup by a departing reader lets it in. *)
Theorem lock_shared_not_exclusive :
  exists tr s, run sys_init tr = Some (Ret s) /\ writers s = [1%nat] /\ sharers s = [2%nat].
Proof.
  exists [(1%nat, Obtain WRITE_LOCK); (1%nat, Release WRITE_LOCK); (2%nat, Obtain SHARED_LOCK);
          (3%nat, Obtain READ_LOCK); (1%nat, Obtain WRITE_LOCK); (3%nat, Release READ_LOCK); (1%nat, Resume)].
  eexists. split; [reflexivity|]. split; reflexivity.
Qed.

(** Reading under one's own write lock aborts: the release of the read lock clears
    [excl_locker] while the write lock is held, and the assertion of the release of the
    write lock fails when a thread waits. *)
Theorem lock_nested_read_aborts :
  exists tr, run sys_init tr = Some (Stop CAbort) /\ (forall t o, (t, o) ∈ tr -> o <> Obtain SHARED_LOCK).
Proof.
  exists [(1%nat, Obtain WRITE_LOCK); (1%nat, Obtain READ_LOCK); (2%nat, Obtain WRITE_LOCK);
          (1%nat, Release READ_LOCK); (2%nat, Resume); (1%nat, Release WRITE_LOCK)].
  split; [reflexivity|]. intros t o Hin ->. apply list_elem_of_In in Hin. cbn in Hin.
  repeat destruct Hin as [Hin|Hin]; try discriminate Hin. destruct Hin.
Qed.

(** The reader count is one byte: 256 read locks look like none, and a writer gets in. *)
Lemma lock_readers_wrap :
  exists s, run sys_init ((fun t => (t, Obtain READ_LOCK)) <$> seq 1 256) = Some (Ret s) /\
    length (readers s) = 256%nat /\ exists l, ObtainWriteLock (lk s) 0 = (l, false).
Proof. eexists. split; [vm_compute; reflexivity|]. split; [reflexivity|]. eexists. vm_compute. reflexivity. Qed.
