(* ===== verification/Pack.v ===== *)
(** * RPC2 marshalling: [subprojects/rpc2/rpc2-src/pack_helper.c]

    A [BUFFER] is a position in a packet and the packet's end; the stubs that [rp2gen]
    generates call the functions of this file for each argument.  With [eob] NULL the
    packing functions only compute the size.  Pointers are offsets into the packet's
    bytes, on which the 64-bit pointer arithmetic of the source does not wrap. *)

From Stdlib Require Import ZArith Lia.
From stdpp Require Import base list numbers.
From S2P Require Import Prelude.
Open Scope Z_scope.

Inductive WHO : Set := RP2_CLIENT | RP2_SERVER.
Inductive MODE : Set := NO_MODE | IN_MODE | OUT_MODE | IN_OUT_MODE.
Global Instance WHO_eq_dec : EqDecision WHO.
Proof. solve_decision. Defined.
Global Instance MODE_eq_dec : EqDecision MODE.
Proof. solve_decision. Defined.

Record BUFFER : Type := mkBuf { mem : list Z; buffer : Z; eob : option Z; who : WHO }.

Definition RPC2_MAXPACKETSIZE : Z := 4500.
Definition RPC2_KEYSIZE : Z := 8.

(** [_PAD(n)] of an [unsigned int]: up to the next multiple of four. *)
Definition PAD (n : Z) : Z := u32 (Z.lor (u32 (n - 1)) 3 + 1).

(** ** A monad for the functions: [None] is the return value -1, with the buffer as it
    is then. *)
Definition pk (A : Type) : Type := BUFFER -> res (option A * BUFFER).
Definition pret {A} (x : A) : pk A := fun b => Ret (Some x, b).
Definition pfail {A} : pk A := fun b => Ret (None, b).
Definition pbind {A B} (m : pk A) (k : A -> pk B) : pk B :=
  fun b => let* (r, b) := m b in
           match r with Some x => k x b | None => Ret (None, b) end.
Notation "'let!' x := m 'in' k" := (pbind m (fun x => k))
  (at level 200, x pattern, m at level 100, k at level 200) : c_scope.

Definition advance (n : Z) : pk unit :=
  fun b => Ret (Some tt, mkBuf (mem b) (buffer b + n) (eob b) (who b)).
(** [if (buf->buffer + n > buf->eob) return -1]; a comparison with NULL fails too. *)
Definition room (n : Z) : pk unit :=
  fun b => match eob b with
           | Some e => if e <? buffer b + n then Ret (None, b) else Ret (Some tt, b)
           | None => Ret (None, b)
           end.
(** The copy of [n] bytes under [if (buf->eob)], with its check. *)
Definition store_n (n : Z) (bs : list Z) : pk unit :=
  fun b => match eob b with
           | Some e => if e <? buffer b + n then Ret (None, b)
                       else if zlen bs <? n then Stop CUndef
                       else let* m := stbytes (mem b) (buffer b) (take (Z.to_nat n) bs) in
                            Ret (Some tt, mkBuf m (buffer b) (eob b) (who b))
           | None => Ret (Some tt, b)
           end.
Definition store (bs : list Z) : pk unit := store_n (zlen bs) bs.
Definition fetch {A} (f : list Z -> Z -> res A) : pk A :=
  fun b => let* x := f (mem b) (buffer b) in Ret (Some x, b).
Definition ldbytes (n : Z) (m : list Z) (o : Z) : res (list Z) :=
  if inbb m o n then Ret (take (Z.to_nat n) (drop (Z.to_nat o) m)) else Stop CUndef.

(** ** Numbers and bytes *)
Definition pack_integer (value : Z) : pk unit := let! _ := store (be32 value) in advance (PAD 4).
Definition unpack_integer : pk Z :=
  let! _ := room 4 in let! v := fetch ld32 in let! _ := advance (PAD 4) in pret (s32 v).
Definition pack_unsigned (value : Z) : pk unit := let! _ := store (be32 value) in advance (PAD 4).
Definition unpack_unsigned : pk Z :=
  let! _ := room 4 in let! v := fetch ld32 in let! _ := advance (PAD 4) in pret v.

(** A double is its eight bytes in host order. *)
Definition pack_double (value : list Z) : pk unit := let! _ := store_n 8 value in advance (PAD 8).
Definition unpack_double : pk (list Z) :=
  let! _ := room 8 in let! v := fetch (ldbytes 8) in let! _ := advance (PAD 8) in pret v.

Definition pack_bytes (value : list Z) (len : Z) : pk unit :=
  let! _ := store_n len value in advance (PAD len).
Definition unpack_bytes (len : Z) : pk (list Z) :=
  let! _ := room len in let! v := fetch (ldbytes len) in let! _ := advance (PAD len) in pret v.

Definition pack_byte (value : Z) : pk unit := let! _ := store [u8 value] in advance (PAD 1).
Definition unpack_byte : pk Z :=
  let! _ := room 1 in let! v := fetch ld8 in let! _ := advance (PAD 1) in pret v.

Definition pack_encryptionKey (key : list Z) : pk unit := let! _ := store_n RPC2_KEYSIZE key in advance (PAD RPC2_KEYSIZE).
Definition unpack_encryptionKey : pk (list Z) :=
  let! _ := room RPC2_KEYSIZE in let! v := fetch (ldbytes RPC2_KEYSIZE) in
  let! _ := advance (PAD RPC2_KEYSIZE) in pret v.

(** ** Strings and sequences *)

(** The copy of a string under [if (buf->eob)]: the check uses [length], an [unsigned int],
    and [strcpy] copies the whole string. *)
Definition store_string (length : Z) (s : list Z) : pk unit :=
  fun b => match eob b with
           | Some e => if e <? buffer b + length + 1 then Ret (None, b)
                       else let* m := stbytes (mem b) (buffer b) (s ++ [0]) in
                            let* m := st8 m (buffer b + length) 0 in
                            Ret (Some tt, mkBuf m (buffer b) (eob b) (who b))
           | None => Ret (Some tt, b)
           end.
Definition pack_string (s : list Z) : pk unit :=
  let length := u32 (zlen s) in
  let! _ := pack_unsigned length in
  let! _ := store_string length s in advance (PAD (u32 (length + 1))).

(** The result is a pointer into the packet, where the string stays. *)
Definition unpack_string : pk Z :=
  let! length := unpack_unsigned in
  let! _ := room (length + 1) in
  let! c := fetch (fun m o => ld8 m (o + length)) in
  if negb (c =? 0) then pfail else
  fun b => if decide (who b = RP2_CLIENT) then Stop CAbort else
  (let! _ := advance (PAD (u32 (length + 1))) in pret (buffer b)) b.

Record RPC2_CountedBS : Set := mkCBS { c_SeqLen : Z; c_SeqBody : list Z }.
Definition pack_countedbs (ptr : RPC2_CountedBS) : pk unit :=
  let! _ := pack_unsigned (c_SeqLen ptr) in
  let! _ := store_n (c_SeqLen ptr) (c_SeqBody ptr) in advance (PAD (c_SeqLen ptr)).

(** The length and the pointer into the packet. *)
Definition unpack_countedbs : pk (Z * Z) :=
  let! len := unpack_unsigned in
  let! _ := room len in
  fun b => (let! _ := advance (PAD len) in pret (len, buffer b)) b.

Record RPC2_BoundedBS : Set := mkBBS { MaxSeqLen : Z; SeqLen : Z; SeqBody : list Z }.
Definition pack_boundedbs (ptr : RPC2_BoundedBS) : pk unit :=
  let! _ := pack_unsigned (MaxSeqLen ptr) in
  let! _ := pack_unsigned (SeqLen ptr) in
  let! _ := (if SeqLen ptr =? 0 then pret tt else store_n (SeqLen ptr) (SeqBody ptr)) in
  advance (PAD (SeqLen ptr)).

(** [ptr] is the caller's structure; on a server [SeqBody] is allocated here, on a client
    it is the caller's memory. *)
Definition unpack_boundedbs (calloc_ok : Z -> bool) (mode : MODE) (ptr : RPC2_BoundedBS) : pk RPC2_BoundedBS :=
  let! maxseqlen := unpack_unsigned in
  let! seqlen := unpack_unsigned in
  fun b =>
  let maxlen := (if decide (who b = RP2_SERVER) then
                   if decide (mode = IN_MODE) then seqlen else maxseqlen
                 else MaxSeqLen ptr) in
  let len := (if (bool_decide (who b = RP2_CLIENT) && negb (bool_decide (mode = IN_MODE))) ||
                 (bool_decide (who b = RP2_SERVER) && negb (bool_decide (mode = OUT_MODE)))
              then seqlen else 0) in
  (if maxlen <? len then pfail else
   let! _ := room len in
   let! body := (if decide (who b = RP2_SERVER) then
                   if RPC2_MAXPACKETSIZE <? maxlen then pfail
                   else if negb (maxlen =? 0) && negb (calloc_ok maxlen) then pfail
                   else pret (replicate (Z.to_nat maxlen) 0)
                 else pret (SeqBody ptr)) in
   let! bs := fetch (ldbytes len) in
   if zlen body <? len then fun _ => Stop CUndef else
   let! _ := advance (PAD len) in
   pret (mkBBS maxlen len (putbs body 0 bs))) b.

(** ** Predefined structures *)
Record CallCountEntry (S : Type) : Type := mkCCE {
  cc_name : S; countent : Z; countexit : Z; tsec : Z; tusec : Z; counttime : Z }.
Global Arguments mkCCE {S}. Global Arguments cc_name {S}. Global Arguments countent {S}.
Global Arguments countexit {S}. Global Arguments tsec {S}. Global Arguments tusec {S}. Global Arguments counttime {S}.

Definition pack_struct_CallCountEntry (ptr : CallCountEntry (list Z)) : pk unit :=
  let! _ := pack_string (cc_name ptr) in
  let! _ := pack_integer (countent ptr) in
  let! _ := pack_integer (countexit ptr) in
  let! _ := pack_integer (tsec ptr) in
  let! _ := pack_integer (tusec ptr) in
  pack_integer (counttime ptr).

Definition unpack_struct_CallCountEntry : pk (CallCountEntry Z) :=
  let! name := unpack_string in
  let! a := unpack_integer in
  let! b := unpack_integer in
  let! c := unpack_integer in
  let! d := unpack_integer in
  let! e := unpack_integer in pret (mkCCE name a b c d e).

(** [MultiCallEntry] has the same fields and [counthost], which neither function
    transmits: unpacking leaves the one of the target, [old], as it was. *)
Record MultiCallEntry (S : Type) : Type := mkMCE { mc_call : CallCountEntry S; counthost : Z }.
Global Arguments mkMCE {S}. Global Arguments mc_call {S}. Global Arguments counthost {S}.

Definition pack_struct_MultiCallEntry (ptr : MultiCallEntry (list Z)) : pk unit :=
  let! _ := pack_string (cc_name (mc_call ptr)) in
  let! _ := pack_integer (countent (mc_call ptr)) in
  let! _ := pack_integer (countexit (mc_call ptr)) in
  let! _ := pack_integer (tsec (mc_call ptr)) in
  let! _ := pack_integer (tusec (mc_call ptr)) in
  pack_integer (counttime (mc_call ptr)).

Definition unpack_struct_MultiCallEntry (old : Z) : pk (MultiCallEntry Z) :=
  let! name := unpack_string in
  let! a := unpack_integer in
  let! b := unpack_integer in
  let! c := unpack_integer in
  let! d := unpack_integer in
  let! e := unpack_integer in pret (mkMCE (mkCCE name a b c d e) old).

Record MultiStubWork : Set := mkMSW { opengate : Z; m_tsec : Z; m_tusec : Z }.
Definition pack_struct_MultiStubWork (ptr : MultiStubWork) : pk unit :=
  let! _ := pack_integer (opengate ptr) in
  let! _ := pack_integer (m_tsec ptr) in
  pack_integer (m_tusec ptr).
Definition unpack_struct_MultiStubWork : pk MultiStubWork :=
  let! a := unpack_integer in
  let! b := unpack_integer in
  let! c := unpack_integer in pret (mkMSW a b c).

(** ** Lemmas *)
Lemma PAD_spec n : 0 <= n <= 2 ^ 32 - 4 -> n <= PAD n < n + 4 /\ PAD n mod 4 = 0.
Proof.
  intros Hn. unfold PAD. destruct (Z.eq_dec n 0) as [->|Hne]; [vm_compute; repeat split; congruence|].
  rewrite (uwrap_small 32 (n - 1)) by lia. pose proof (Z.add_lor_land (n - 1) 3) as E.
  change 3 with (Z.ones 2) in E at 2. rewrite Z.land_ones in E by lia. change (2 ^ 2) with 4 in E.
  assert (Z.lor (n - 1) 3 + 1 = n - 1 + 3 - (n - 1) mod 4 + 1) as -> by lia.
  rewrite uwrap_small by zdm. zdm.
Qed.

(** A buffer whose end lies in the packet. *)
Definition buf_ok (b : BUFFER) : Prop :=
  0 <= buffer b /\ match eob b with Some e => e <= zlen (mem b) | None => True end.

(** What a marshalled type provides: its encoding as a predicate on bytes at a position,
    the bytes it needs and by how much the position moves. *)
Class Codec (A R : Type) : Type := {
  cpack : A -> pk unit;
  cunpack : pk R;
  cvalid : A -> Prop;
  cneed : A -> Z;
  cwidth : A -> Z;
  cat : list Z -> Z -> A -> Prop;
  cres : list Z -> R -> A -> Prop }.

(** Packing in a buffer with room stores the encoding and nothing outside the bytes
    needed; it advances as much when it only counts; unpacking on a server reads the
    value back. *)
Class CodecLaws (A R : Type) `{Codec A R} : Prop := {
  c_width : forall a : A, cvalid a -> 0 <= cneed a <= cwidth a;
  c_pack : forall b e (a : A), cvalid a -> buf_ok b -> eob b = Some e -> buffer b + cneed a <= e ->
    exists m, cpack a b = Ret (Some tt, mkBuf m (buffer b + cwidth a) (eob b) (who b)) /\
      zlen m = zlen (mem b) /\ cat m (buffer b) a /\
      forall o, 0 <= o -> ~ buffer b <= o < buffer b + cneed a -> getb m o = getb (mem b) o;
  c_count : forall b (a : A), cvalid a -> eob b = None ->
    cpack a b = Ret (Some tt, mkBuf (mem b) (buffer b + cwidth a) None (who b));
  c_unpack : forall b e (a : A), cvalid a -> buf_ok b -> who b = RP2_SERVER -> eob b = Some e ->
    buffer b + cneed a <= e -> cat (mem b) (buffer b) a ->
    exists r, cunpack b = Ret (Some r, mkBuf (mem b) (buffer b + cwidth a) (eob b) (who b)) /\ cres (mem b) r a;
  c_frame : forall m m' o (a : A), cvalid a -> cat m o a -> zlen m <= zlen m' ->
    agree m' m o (o + cneed a) -> cat m' o a }.

Lemma store_n_ok b e n bs : buf_ok b -> eob b = Some e -> 0 <= n <= zlen bs -> buffer b + n <= e ->
  store_n n bs b = Ret (Some tt, mkBuf (putbs (mem b) (buffer b) (take (Z.to_nat n) bs)) (buffer b) (eob b) (who b)) /\
  zlen (take (Z.to_nat n) bs) = n.
Proof.
  intros [Hp He] Ee Hn Hr. rewrite Ee in He. unfold store_n. rewrite Ee.
  assert (zlen (take (Z.to_nat n) bs) = n) as Hz by (unfold zlen in *; rewrite length_take; lia).
  destruct (Z.ltb_spec e (buffer b + n)); [lia|]. destruct (Z.ltb_spec (zlen bs) n); [lia|].
  rewrite stbytes_ok by lia. done.
Qed.

Lemma store_n_null b n bs : eob b = None -> store_n n bs b = Ret (Some tt, b).
Proof. intros E. unfold store_n. now rewrite E. Qed.

Lemma room_ok b e n : eob b = Some e -> buffer b + n <= e -> room n b = Ret (Some tt, b).
Proof. intros E H. unfold room. rewrite E. destruct (Z.ltb_spec e (buffer b + n)); [lia|done]. Qed.

Lemma buf_eta b : mkBuf (mem b) (buffer b) (eob b) (who b) = b.
Proof. now destruct b. Qed.

(** A value with a fixed encoding of [n] bytes and no part that is not stored. *)
Section Fixed.
Context {A : Type} (enc : A -> list Z) (val : A -> Prop).

Definition fixed_at (m : list Z) (o : Z) (a : A) : Prop := mem_at m o (enc a).

Lemma fixed_pack b e n (a : A) : buf_ok b -> eob b = Some e -> zlen (enc a) = n -> buffer b + n <= e ->
  exists m, (let! _ := store_n n (enc a) in advance (PAD n)) b =
      Ret (Some tt, mkBuf m (buffer b + PAD n) (eob b) (who b)) /\
    zlen m = zlen (mem b) /\ fixed_at m (buffer b) a /\
    forall o, 0 <= o -> ~ buffer b <= o < buffer b + n -> getb m o = getb (mem b) o.
Proof.
  intros Hb Ee Hn Hr. pose proof (zlen_nonneg (enc a)).
  destruct (store_n_ok b e n (enc a) Hb Ee ltac:(lia) Hr) as [E Hz].
  rewrite take_ge in E, Hz by (unfold zlen in Hn; lia).
  destruct Hb as [Hp He]. rewrite Ee in He.
  exists (putbs (mem b) (buffer b) (enc a)). unfold pbind. rewrite E. cbn [rbind]. split; [done|].
  split; [apply zlen_putbs; lia|]. split; [apply mem_at_putbs; lia|].
  intros o Ho Hno. apply getb_putbs_old; lia.
Qed.
End Fixed.

(** *** Integers *)
Definition u32_ok (v : Z) : Prop := 0 <= v < 2 ^ 32.

Definition word_at (m : list Z) (o v : Z) : Prop := 0 <= o /\ o + 4 <= zlen m /\ get32 m o = u32 v.

Lemma be32_u32 v : be32 (u32 v) = be32 v.
Proof. unfold be32, uwrap. change (2 ^ 8) with 256. do 3 (f_equal; [zdm|]). f_equal. zdm. Qed.

Lemma be32_at m o v : mem_at m o (be32 v) -> word_at m o v.
Proof.
  intros (Ho & Hl & Hk). change (zlen (be32 v)) with 4 in *. split; [done|]. split; [done|].
  rewrite <- be32_u32 in Hk. pose proof (uwrap_bound 32 v ltac:(lia)) as Hu.
  unfold get32. pose proof (Hk 0 ltac:(lia)) as H0. rewrite Z.add_0_r in H0.
  rewrite H0, (Hk 1), (Hk 2), (Hk 3) by lia. exact (be32_value (u32 v) Hu).
Qed.

Lemma word_pack b e v : buf_ok b -> eob b = Some e -> buffer b + 4 <= e ->
  exists m, pack_unsigned v b = Ret (Some tt, mkBuf m (buffer b + 4) (eob b) (who b)) /\
    zlen m = zlen (mem b) /\ word_at m (buffer b) v /\
    forall o, 0 <= o -> ~ buffer b <= o < buffer b + 4 -> getb m o = getb (mem b) o.
Proof.
  intros Hb Ee Hr. destruct (fixed_pack be32 b e 4 v Hb Ee eq_refl Hr) as (m & E & Hz & Hat & Hout).
  exists m. split; [exact E|]. split; [done|]. split; [|done]. apply be32_at. exact Hat.
Qed.

Lemma word_count b v : eob b = None ->
  pack_unsigned v b = Ret (Some tt, mkBuf (mem b) (buffer b + 4) None (who b)).
Proof.
  intros E. unfold pack_unsigned, pbind, store. rewrite store_n_null by done. cbn [rbind].
  unfold advance. rewrite E. reflexivity.
Qed.

Lemma word_unpack b e v : buf_ok b -> eob b = Some e -> buffer b + 4 <= e -> word_at (mem b) (buffer b) v ->
  unpack_unsigned b = Ret (Some (u32 v), mkBuf (mem b) (buffer b + 4) (eob b) (who b)).
Proof.
  intros Hb Ee Hr (H0 & Hl & Hv). unfold unpack_unsigned, pbind. rewrite (room_ok b e) by done. cbn [rbind].
  unfold fetch. rewrite ld32_ok by lia. cbn [rbind]. rewrite Hv. reflexivity.
Qed.

Lemma word_frame m m' o v : word_at m o v -> zlen m <= zlen m' -> agree m' m o (o + 4) -> word_at m' o v.
Proof.
  intros (H0 & Hl & Hv) Hz Ha. split; [done|]. split; [lia|]. rewrite <- Hv. eapply agree_get32; [exact Ha|lia..].
Qed.

Definition Unsigned_codec : Codec Z Z := {|
  cpack := pack_unsigned; cunpack := unpack_unsigned; cvalid := u32_ok;
  cneed := fun _ => 4; cwidth := fun _ => 4; cat := word_at; cres := fun _ r a => r = a |}.

Lemma Unsigned_laws : @CodecLaws Z Z Unsigned_codec.
Proof.
  split; cbn.
  - lia.
  - intros b e v _ Hb Ee Hr. apply (word_pack b e); done.
  - intros b v _ E. apply word_count. done.
  - intros b e v Hv Hb _ Ee Hr Hat. exists (u32 v). split; [apply (word_unpack b e); done|]. apply uwrap_small. done.
  - intros m m' o v _. apply word_frame.
Qed.

Definition i32_ok (v : Z) : Prop := - 2 ^ 31 <= v < 2 ^ 31.
Definition Integer_codec : Codec Z Z := {|
  cpack := pack_integer; cunpack := unpack_integer; cvalid := i32_ok;
  cneed := fun _ => 4; cwidth := fun _ => 4; cat := word_at; cres := fun _ r a => r = a |}.

Lemma s32_u32 v : i32_ok v -> s32 (u32 v) = v.
Proof. unfold i32_ok, swrap, uwrap. change (2 ^ (32 - 1)) with 2147483648. intros. zdm. Qed.

Lemma Integer_laws : @CodecLaws Z Z Integer_codec.
Proof.
  split; cbn.
  - lia.
  - intros b e v _ Hb Ee Hr. apply (word_pack b e); done.
  - intros b v _ E. apply word_count. done.
  - intros b e v Hv Hb _ Ee Hr Hat. exists v. split; [|done].
    assert (unpack_integer b = (let! v := unpack_unsigned in pret (s32 v)) b) as ->.
    { unfold unpack_integer, unpack_unsigned, pbind. destruct (room 4 b) as [[[[]|] b1]|]; cbn; [|done..].
      destruct (fetch ld32 b1) as [[[x|] b2]|]; done. }
    unfold pbind. rewrite (word_unpack b e v) by done. cbn [rbind]. unfold pret. rewrite s32_u32; done.
  - intros m m' o v _. apply word_frame.
Qed.

(** *** Strings *)
Definition str_ok (s : list Z) : Prop := is_cstring s /\ zlen s < 2 ^ 32 - 5.
Definition str_need (s : list Z) : Z := 4 + zlen s + 1.
Definition str_width (s : list Z) : Z := 4 + PAD (zlen s + 1).
Definition str_at (m : list Z) (o : Z) (s : list Z) : Prop := word_at m o (zlen s) /\ mem_at m (o + 4) (s ++ [0]).

(** Below 4 GiB the truncated length is the length, and the copy is that of the string and
    its terminator; the byte stored after it is the terminator again. *)
Lemma store_string_null b n s : eob b = None -> store_string n s b = Ret (Some tt, b).
Proof. intros E. unfold store_string. now rewrite E. Qed.

Lemma putbs_twice d o bs : 0 <= o -> o + zlen bs <= zlen d -> putbs (putbs d o bs) o bs = putbs d o bs.
Proof.
  intros Ho Hl. unfold putbs at 1 3. unfold putbs, zlen in *.
  assert (length (take (Z.to_nat o) d) = Z.to_nat o) as Ht by (rewrite length_take; lia).
  rewrite take_app_le, take_take, Nat.min_id by lia. f_equal. f_equal.
  rewrite <- Ht at 1. rewrite drop_app_add, drop_app_length. done.
Qed.

Lemma store_string_fits b s : buf_ok b -> store_string (zlen s) s b = store (s ++ [0]) b.
Proof.
  intros [Hp He]. unfold store_string, store, store_n. destruct (eob b) as [e|] eqn:Ee; [|done].
  pose proof (zlen_nonneg s). assert (zlen (s ++ [0]) = zlen s + 1) as Hl by (rewrite zlen_app; done).
  rewrite Hl, Z.add_assoc. destruct (Z.ltb_spec e (buffer b + zlen s + 1)); [done|].
  rewrite Z.ltb_irrefl, take_ge by (unfold zlen in *; lia). rewrite stbytes_ok by lia. cbn [rbind].
  rewrite st8_ok by (rewrite zlen_putbs; lia). cbn [rbind]. do 2 f_equal. f_equal.
  rewrite <- (putbs_putbs_app (mem b) (buffer b) s [0]) by (change (zlen [0]) with 1; lia).
  change [u8 0] with [0]. apply putbs_twice; [lia|]. rewrite zlen_putbs by lia. change (zlen [0]) with 1. lia.
Qed.

Definition String_codec : Codec (list Z) Z := {|
  cpack := pack_string; cunpack := unpack_string; cvalid := str_ok;
  cneed := str_need; cwidth := str_width; cat := str_at; cres := fun m p s => cstr m p = Ret s |}.

Lemma String_laws : @CodecLaws (list Z) Z String_codec.
Proof.
  split; cbn.
  - intros s [_ Hs]. pose proof (zlen_nonneg s). unfold str_need, str_width. pose proof (PAD_spec (zlen s + 1)). lia.
  - intros b e s [Hc Hs] Hb Ee Hr. unfold str_need in Hr. pose proof (zlen_nonneg s) as H0.
    unfold pack_string. rewrite (uwrap_small 32 (zlen s)) by lia.
    destruct (word_pack b e (zlen s) Hb Ee ltac:(lia)) as (m1 & E1 & Hz1 & Hw & Hout1).
    unfold pbind at 1. rewrite E1. cbn [rbind]. set (b1 := mkBuf m1 _ _ _).
    assert (buf_ok b1) as Hb1 by (destruct Hb; split; cbn; rewrite ?Hz1; [lia|done]).
    assert (zlen (s ++ [0]) = zlen s + 1) as Hl by (rewrite zlen_app; done).
    destruct (fixed_pack (fun s => s ++ [0]) b1 e (zlen s + 1) s Hb1 Ee Hl) as (m2 & E2 & Hz2 & Hat & Hout2).
    { cbn. lia. }
    exists m2. unfold b1 in *. cbn [buffer eob who mem] in *. destruct Hb as [Hb0 _]. rewrite (uwrap_small 32 (zlen s + 1)) by lia.
    unfold pbind. rewrite (store_string_fits (mkBuf _ _ _ _)) by done. unfold pbind, store in *. rewrite Hl, E2. unfold str_width. split; [do 3 f_equal; lia|]. split; [lia|].
    split; [split; [|exact Hat]|].
    + eapply word_frame; [exact Hw|lia|]. intros o Ho. apply Hout2; lia.
    + intros o Ho Hno. unfold str_need in Hno. rewrite Hout2, Hout1 by lia. done.
  - intros b s [Hc Hs] E. pose proof (zlen_nonneg s). unfold pack_string.
    rewrite (uwrap_small 32 (zlen s)), (uwrap_small 32 (zlen s + 1)) by lia.
    unfold pbind at 1. rewrite word_count by done. cbn [rbind]. unfold pbind. rewrite store_string_null by done.
    cbn [rbind]. unfold advance, str_width. cbn [mem buffer eob who]. do 3 f_equal. lia.
  - intros b e s [Hc Hs] Hb Hwho Ee Hr [Hw Hm]. unfold str_need in Hr. pose proof (zlen_nonneg s).
    unfold unpack_string. unfold pbind at 1. rewrite (word_unpack b e (zlen s)) by (done || lia). cbn [rbind].
    rewrite (uwrap_small 32 (zlen s)) by lia. set (b1 := mkBuf (mem b) (buffer b + 4) (eob b) (who b)).
    unfold pbind at 1. rewrite (room_ok b1 e) by (done || (cbn; lia)). cbn [rbind].
    unfold pbind at 1. unfold fetch. destruct Hm as (Hm0 & Hml & Hmk). rewrite zlen_app in Hml. change (zlen [0]) with 1 in Hml.
    assert (getb (mem b) (buffer b + 4 + zlen s) = 0) as Hz.
    { rewrite Hmk by (rewrite zlen_app; change (zlen [0]) with 1; lia). unfold getb, zlen.
      rewrite Nat2Z.id, lookup_app_r, Nat.sub_diag by lia. done. }
    cbn [mem buffer b1]. unfold ld8. rewrite inbb_true by lia. cbn [rbind]. rewrite Hz. cbn [Z.eqb negb].
    cbn [who b1]. rewrite decide_False by congruence. exists (buffer b + 4). split.
    + unfold pbind, advance, pret. cbn. rewrite uwrap_small by lia. unfold str_width. do 3 f_equal. lia.
    + apply cstr_ok; [done|]. split; [done|]. split; [rewrite zlen_app; done|done].
  - intros m m' o s [Hc Hs] [Hw Hm] Hz Ha. unfold str_need in Ha. pose proof (zlen_nonneg s). split.
    + eapply word_frame; [exact Hw|done|]. eapply agree_sub; [exact Ha|lia..].
    + eapply mem_at_agree; [exact Hm|done|]. eapply agree_sub; [exact Ha|lia|]. rewrite zlen_app. change (zlen [0]) with 1. lia.
Qed.

(** *** Counted sequences *)
Definition cbs_ok (c : RPC2_CountedBS) : Prop := c_SeqLen c = zlen (c_SeqBody c) /\ c_SeqLen c < 2 ^ 32 - 5.

Definition Counted_codec : Codec RPC2_CountedBS (Z * Z) := {|
  cpack := pack_countedbs; cunpack := unpack_countedbs; cvalid := cbs_ok;
  cneed := fun c => 4 + c_SeqLen c; cwidth := fun c => 4 + PAD (c_SeqLen c);
  cat := fun m o c => word_at m o (c_SeqLen c) /\ mem_at m (o + 4) (c_SeqBody c);
  cres := fun m r c => r.1 = c_SeqLen c /\ mem_at m r.2 (c_SeqBody c) |}.

Lemma Counted_laws : @CodecLaws RPC2_CountedBS (Z * Z) Counted_codec.
Proof.
  split; cbn.
  - intros [n bs] [E Hn]; cbn in *. pose proof (zlen_nonneg bs). pose proof (PAD_spec n). lia.
  - intros b e [n bs] [En Hs] Hb Ee Hr; cbn in *. pose proof (zlen_nonneg bs) as H0.
    unfold pack_countedbs; cbn. destruct (word_pack b e n Hb Ee ltac:(lia)) as (m1 & E1 & Hz1 & Hw & Hout1).
    unfold pbind at 1. rewrite E1. cbn [rbind]. set (b1 := mkBuf m1 _ _ _).
    assert (buf_ok b1) as Hb1 by (destruct Hb; split; cbn; rewrite ?Hz1; [lia|done]).
    destruct (fixed_pack (fun bs => bs) b1 e n bs Hb1 Ee (eq_sym En)) as (m2 & E2 & Hz2 & Hat & Hout2).
    { cbn. lia. }
    exists m2. rewrite E2. unfold b1 in *. cbn [buffer eob who mem] in *. destruct Hb as [Hb0 _].
    split; [do 3 f_equal; lia|]. split; [lia|]. split; [split; [|exact Hat]|].
    + eapply word_frame; [exact Hw|lia|]. intros o Ho. apply Hout2; lia.
    + intros o Ho Hno. rewrite Hout2, Hout1 by lia. done.
  - intros b [n bs] [En Hs] E; cbn in *. unfold pack_countedbs; cbn.
    unfold pbind at 1. rewrite word_count by done. cbn [rbind]. unfold pbind. rewrite store_n_null by done.
    cbn [rbind]. unfold advance. cbn [mem buffer eob who]. do 3 f_equal. lia.
  - intros b e [n bs] [En Hs] Hb Hwho Ee Hr [Hw Hm]; cbn in *. pose proof (zlen_nonneg bs).
    unfold unpack_countedbs. unfold pbind at 1. rewrite (word_unpack b e n) by (done || lia). cbn [rbind].
    rewrite (uwrap_small 32 n) by lia. set (b1 := mkBuf (mem b) (buffer b + 4) (eob b) (who b)).
    unfold pbind at 1. rewrite (room_ok b1 e) by (done || (cbn; lia)). cbn [rbind].
    exists (n, buffer b + 4). split; [|split; [done|exact Hm]].
    unfold pbind, advance, pret, b1. cbn [rbind mem buffer eob who]. do 3 f_equal. lia.
  - intros m m' o [n bs] [En Hs] [Hw Hm] Hz Ha; cbn in *. pose proof (zlen_nonneg bs). split.
    + eapply word_frame; [exact Hw|done|]. eapply agree_sub; [exact Ha|lia..].
    + eapply mem_at_agree; [exact Hm|done|]. eapply agree_sub; [exact Ha|lia|lia].
Qed.

(** *** One value after the other *)
Section Pair.
Context {A R B Q : Type} {CA : Codec A R} {CB : Codec B Q} {LA : CodecLaws A R} {LB : CodecLaws B Q}.

#[local] Instance Pair_codec : Codec (A * B) (R * Q) := {|
  cpack := fun p => let! _ := cpack p.1 in cpack p.2;
  cunpack := let! r := cunpack in let! q := cunpack in pret (r, q);
  cvalid := fun p => cvalid p.1 /\ cvalid p.2;
  cneed := fun p => cwidth p.1 + cneed p.2;
  cwidth := fun p => cwidth p.1 + cwidth p.2;
  cat := fun m o p => cat m o p.1 /\ cat m (o + cwidth p.1) p.2;
  cres := fun m r p => cres m r.1 p.1 /\ cres m r.2 p.2 |}.

Lemma Pair_laws : CodecLaws (A * B) (R * Q).
Proof using LA LB.
  split; cbn.
  - intros [x y] [Hx Hy]; cbn in *. pose proof (c_width x Hx). pose proof (c_width y Hy). lia.
  - intros b e [x y] [Hx Hy] Hb Ee Hr; cbn in *. pose proof (c_width x Hx) as Wx. pose proof (c_width y Hy) as Wy.
    destruct (c_pack b e x Hx Hb Ee ltac:(lia)) as (m1 & E1 & Hz1 & Hat1 & Hout1).
    unfold pbind. rewrite E1. cbn [rbind]. set (b1 := mkBuf m1 _ _ _).
    assert (buf_ok b1) as Hb1 by (destruct Hb; split; cbn; rewrite ?Hz1; [lia|done]).
    destruct (c_pack b1 e y Hy Hb1 Ee ltac:(cbn; lia)) as (m2 & E2 & Hz2 & Hat2 & Hout2).
    exists m2. rewrite E2. unfold b1 in *. cbn [buffer eob who mem] in *. destruct Hb as [Hb0 _].
    split; [do 3 f_equal; lia|]. split; [lia|]. split; [split; [|exact Hat2]|].
    + apply (c_frame m1); [done|done|lia|]. intros o Ho. apply Hout2; lia.
    + intros o Ho Hno. rewrite Hout2, Hout1 by lia. done.
  - intros b [x y] [Hx Hy] E; cbn in *. unfold pbind. rewrite c_count by done. cbn [rbind].
    rewrite c_count by done. cbn [mem buffer eob who]. do 3 f_equal. lia.
  - intros b e [x y] [Hx Hy] Hb Hwho Ee Hr [Hat1 Hat2]; cbn in *.
    pose proof (c_width x Hx) as Wx. pose proof (c_width y Hy) as Wy.
    destruct (c_unpack b e x Hx Hb Hwho Ee ltac:(lia) Hat1) as (r & E1 & Hr1).
    unfold pbind at 1. rewrite E1. cbn [rbind]. set (b1 := mkBuf (mem b) _ _ _).
    assert (buf_ok b1) as Hb1 by (destruct Hb; split; cbn; [lia|done]).
    destruct (c_unpack b1 e y Hy Hb1 Hwho Ee ltac:(cbn; lia) Hat2) as (q & E2 & Hr2).
    exists (r, q). split; [|done]. unfold pbind, pret. rewrite E2. unfold b1. cbn [rbind mem buffer eob who]. do 3 f_equal. lia.
  - intros m m' o [x y] [Hx Hy] [Hat1 Hat2] Hz Ha; cbn in *.
    pose proof (c_width x Hx) as Wx. pose proof (c_width y Hy) as Wy. split.
    + apply (c_frame m); [done..|]. eapply agree_sub; [exact Ha|lia..].
    + apply (c_frame m); [done..|]. eapply agree_sub; [exact Ha|lia..].
Qed.
End Pair.

(** ** The theorems *)

(** Moving back to an earlier position of the same packet. *)
Definition rewind (b : BUFFER) (o : Z) : BUFFER := mkBuf (mem b) o (eob b) (who b).

(** The law of a codec as a round trip. *)
Lemma codec_roundtrip {A R} `{CodecLaws A R} b e (a : A) :
  cvalid a -> buf_ok b -> who b = RP2_SERVER -> eob b = Some e -> buffer b + cneed a <= e ->
  exists b' r, cpack a b = Ret (Some tt, b') /\ buffer b' = buffer b + cwidth a /\
    cunpack (rewind b' (buffer b)) = Ret (Some r, b') /\ cres (mem b') r a.
Proof.
  intros Ha Hb Hw Ee Hr. destruct (c_pack b e a Ha Hb Ee Hr) as (m & E & Hz & Hat & _).
  destruct (c_unpack (rewind (mkBuf m (buffer b + cwidth a) (eob b) (who b)) (buffer b)) e a) as (r & Er & Hres);
    try done.
  { destruct Hb as [Hb0 Hb1]. split; cbn; [done|]. rewrite Hz. done. }
  exists (mkBuf m (buffer b + cwidth a) (eob b) (who b)), r. split; [exact E|]. split; [done|]. split; [exact Er|done].
Qed.

(** The wire form of [CallCountEntry]: a string and five integers. *)
Definition cce_tuple {S} (c : CallCountEntry S) : S * (Z * (Z * (Z * (Z * Z)))) :=
  (cc_name c, (countent c, (countexit c, (tsec c, (tusec c, counttime c))))).
Definition CCE_codec : Codec (list Z * (Z * (Z * (Z * (Z * Z))))) (Z * (Z * (Z * (Z * (Z * Z))))) :=
  @Pair_codec _ _ _ _ String_codec (@Pair_codec _ _ _ _ Integer_codec (@Pair_codec _ _ _ _ Integer_codec
    (@Pair_codec _ _ _ _ Integer_codec (@Pair_codec _ _ _ _ Integer_codec Integer_codec)))).
Lemma CCE_laws : @CodecLaws _ _ CCE_codec.
Proof.
  apply (@Pair_laws _ _ _ _ String_codec _ String_laws).
  do 4 apply (@Pair_laws _ _ _ _ Integer_codec _ Integer_laws). apply Integer_laws.
Qed.

Definition cce_ok (c : CallCountEntry (list Z)) : Prop :=
  str_ok (cc_name c) /\ i32_ok (countent c) /\ i32_ok (countexit c) /\ i32_ok (tsec c) /\
  i32_ok (tusec c) /\ i32_ok (counttime c).

(** Round trip of a marshalled structure: packing a [CallCountEntry] into a packet with
    room and unpacking it on a server gives the same integers and a pointer to the same
    name, and both stop at the same position. *)
Theorem CallCountEntry_roundtrip b e c :
  cce_ok c -> buf_ok b -> who b = RP2_SERVER -> eob b = Some e ->
  buffer b + str_width (cc_name c) + 20 <= e ->
  exists b' r, pack_struct_CallCountEntry c b = Ret (Some tt, b') /\
    buffer b' = buffer b + str_width (cc_name c) + 20 /\
    unpack_struct_CallCountEntry (rewind b' (buffer b)) = Ret (Some r, b') /\
    cstr (mem b') (cc_name r) = Ret (cc_name c) /\ countent r = countent c /\ countexit r = countexit c /\
    tsec r = tsec c /\ tusec r = tusec c /\ counttime r = counttime c.
Proof.
  intros (H1 & H2 & H3 & H4 & H5 & H6) Hb Hw Ee Hr.
  destruct (@codec_roundtrip _ _ CCE_codec CCE_laws b e (cce_tuple c)) as (b' & r & Ep & Hpos & Eu & Hres);
    [cbn; tauto|done|done|done|cbn; lia|].
  destruct r as (n & r1 & r2 & r3 & r4 & r5). cbn in Hpos, Hres. destruct Hres as (Hn & R1 & R2 & R3 & R4 & R5).
  exists b', (mkCCE n r1 r2 r3 r4 r5). split; [exact Ep|]. split; [lia|]. split; [|cbn; tauto].
  revert Eu. cbn [cunpack CCE_codec Pair_codec String_codec Integer_codec]. unfold unpack_struct_CallCountEntry, pbind.
  destruct (unpack_string (rewind b' (buffer b))) as [[[]]|]; cbn [rbind]; try done.
  do 4 (destruct (unpack_integer _) as [[[]]|]; cbn [rbind]; try done).
  destruct (unpack_integer _) as [[[]]|]; cbn [rbind pret]; try done. unfold pret. congruence.
Qed.

Definition pkt0 : BUFFER := mkBuf (replicate 64 7) 4 (Some 60) RP2_SERVER.
Definition cce0 : CallCountEntry (list Z) := mkCCE [70; 101; 116; 99; 104] 3 (-1) 1000000 5 2147483647.

Lemma CallCountEntry_roundtrip_witness :
  exists b' r, pack_struct_CallCountEntry cce0 pkt0 = Ret (Some tt, b') /\
    buffer b' = 4 + str_width (cc_name cce0) + 20 /\
    unpack_struct_CallCountEntry (rewind b' 4) = Ret (Some r, b') /\
    cstr (mem b') (cc_name r) = Ret (cc_name cce0) /\ countent r = 3 /\ countexit r = -1 /\
    tsec r = 1000000 /\ tusec r = 5 /\ counttime r = 2147483647.
Proof.
  apply (CallCountEntry_roundtrip pkt0 60 cce0).
  - unfold cce_ok, str_ok, i32_ok. cbn [cce0 cc_name countent countexit tsec tusec counttime].
    repeat split; try lia; try (repeat constructor; lia); vm_compute; reflexivity.
  - split; vm_compute; congruence.
  - reflexivity.
  - reflexivity.
  - vm_compute. congruence.
Defined.

(** [counthost] is not transmitted. *)
Lemma MultiCallEntry_counthost_lost c h h' :
  pack_struct_MultiCallEntry (mkMCE c h) = pack_struct_MultiCallEntry (mkMCE c h').
Proof. reflexivity. Qed.

(** *** Packing stays inside the packet *)

(** The function returns on every buffer whose end lies in the packet; only bytes from the
    position up to [eob] change. *)
Definition confined {A} (f : pk A) : Prop := forall b, buf_ok b -> exists r b', f b = Ret (r, b') /\
  eob b' = eob b /\ buffer b <= buffer b' /\ zlen (mem b') = zlen (mem b) /\
  (forall o, 0 <= o -> o < buffer b \/ match eob b with Some e => e <= o | None => True end ->
     getb (mem b') o = getb (mem b) o).

Lemma confined_at {A} (f : pk A) : (forall b, buf_ok b -> exists g, f b = g b /\ confined g) -> confined f.
Proof. intros H b Hb. destruct (H b Hb) as (g & -> & Hg). apply Hg, Hb. Qed.

Lemma confined_bind {A B} (f : pk A) (k : A -> pk B) : confined f -> (forall x, confined (k x)) -> confined (pbind f k).
Proof.
  intros Hf Hk b Hb. destruct (Hf b Hb) as ([x|] & b1 & Ef & E1 & E2 & E3 & E4); unfold pbind; rewrite Ef; cbn [rbind].
  - assert (buf_ok b1) as Hb1 by (destruct Hb; split; [lia|]; rewrite E1, E3; done).
    destruct (Hk x b1 Hb1) as (r & b' & E & F1 & F2 & F3 & F4). exists r, b'. split; [done|].
    split; [congruence|]. split; [lia|]. split; [congruence|]. intros o Ho Hc.
    rewrite F4, E4; try done. rewrite E1. destruct Hc; [left; lia|by right].
  - exists None, b1. done.
Qed.

Lemma confined_store_n n bs : 0 <= n <= zlen bs -> confined (store_n n bs).
Proof.
  intros Hn b Hb. destruct (eob b) as [e|] eqn:Ee.
  - destruct (Z.ltb_spec e (buffer b + n)) as [Hlt|Hle].
    + exists None, b. unfold store_n. rewrite Ee. destruct (Z.ltb_spec e (buffer b + n)); [done|lia].
    + destruct (store_n_ok b e n bs Hb Ee Hn Hle) as [E Hz]. destruct Hb as [Hb0 He]. rewrite Ee in He.
      eexists _, _. split; [exact E|]. cbn. rewrite Ee. split; [done|]. split; [lia|].
      split; [apply zlen_putbs; lia|]. intros o Ho Hc. apply getb_putbs_old; lia.
  - exists (Some tt), b. rewrite store_n_null, Ee by done. done.
Qed.

Lemma confined_store bs : confined (store bs).
Proof. apply confined_store_n. pose proof (zlen_nonneg bs). lia. Qed.

Lemma confined_advance n : 0 <= n -> confined (advance n).
Proof. intros Hn b Hb. eexists _, _. split; [reflexivity|]. cbn. repeat split; lia. Qed.

Lemma PAD_nonneg n : 0 <= PAD n.
Proof. apply (uwrap_bound 32). lia. Qed.

Lemma confined_padded (f : pk unit) n : confined f -> confined (let! _ := f in advance (PAD n)).
Proof. intros Hf. apply confined_bind; [done|]. intros _. apply confined_advance, PAD_nonneg. Qed.

Lemma confined_pret {A} (x : A) : confined (pret x).
Proof. intros b Hb. exists (Some x), b. done. Qed.

Lemma confined_word v : confined (pack_unsigned v).
Proof. apply confined_padded, confined_store. Qed.
Lemma confined_int v : confined (pack_integer v).
Proof. apply (confined_word v). Qed.

Lemma confined_string s : zlen s < 2 ^ 32 -> confined (pack_string s).
Proof.
  intros Hs. pose proof (zlen_nonneg s). unfold pack_string. rewrite (uwrap_small 32 (zlen s)) by lia.
  apply confined_bind; [apply confined_word|]. intros _. apply confined_padded.
  apply confined_at. intros b Hb. exists (store (s ++ [0])). split; [by apply store_string_fits|apply confined_store].
Qed.

Create HintDb confined.
#[export] Hint Resolve confined_bind confined_padded confined_store_n confined_store confined_pret
  confined_word confined_int confined_string : confined.

(** C35 No packing function writes outside the packet, and each returns: whatever the bytes
    there, only bytes from the position up to [eob] change, also when the function fails
    half way or only counts.  A string is shorter than 4 GiB and a sequence has at least the
    bytes its length announces (eight for a double and for a key). *)
Theorem pack_confined :
  (forall v, confined (pack_integer v)) /\ (forall v, confined (pack_unsigned v)) /\
  (forall v, 8 <= zlen v -> confined (pack_double v)) /\
  (forall v n, 0 <= n <= zlen v -> confined (pack_bytes v n)) /\
  (forall v, confined (pack_byte v)) /\ (forall s, zlen s < 2 ^ 32 -> confined (pack_string s)) /\
  (forall k, RPC2_KEYSIZE <= zlen k -> confined (pack_encryptionKey k)) /\
  (forall c, 0 <= c_SeqLen c <= zlen (c_SeqBody c) -> confined (pack_countedbs c)) /\
  (forall c, 0 <= SeqLen c <= zlen (SeqBody c) -> confined (pack_boundedbs c)) /\
  (forall c, zlen (cc_name c) < 2 ^ 32 -> confined (pack_struct_CallCountEntry c)) /\
  (forall c, zlen (cc_name (mc_call c)) < 2 ^ 32 -> confined (pack_struct_MultiCallEntry c)) /\
  (forall c, confined (pack_struct_MultiStubWork c)).
Proof.
  repeat match goal with |- _ /\ _ => split end;
    unfold pack_double, pack_bytes, pack_byte, pack_encryptionKey, pack_countedbs, pack_boundedbs,
      pack_struct_CallCountEntry, pack_struct_MultiCallEntry, pack_struct_MultiStubWork, RPC2_KEYSIZE;
    try (intros c Hc; destruct (SeqLen c =? 0)); eauto 12 with confined lia.
Qed.

Lemma pack_confined_witness :
  confined (pack_string [70; 101; 116; 99; 104]) /\ confined (pack_countedbs (mkCBS 3 [1; 2; 3; 4])) /\
  confined (pack_struct_CallCountEntry (mkCCE [70; 101; 116; 99; 104] 3 (-1) 1000000 5 2147483647)).
Proof.
  destruct pack_confined as (_ & _ & _ & _ & _ & Hs & _ & Hc & _ & He & _).
  split; [apply Hs; vm_compute; reflexivity|]. split; [apply Hc; vm_compute; split; congruence|]. apply He. vm_compute. reflexivity.
Defined.

(** The bound on strings is needed: the check uses the length modulo 2^32, so that a string
    of 4 GiB or more passes it whenever the truncated length fits, and [strcpy] then runs past the end. *)
Lemma pack_string_overrun b e s :
  buf_ok b -> eob b = Some e -> buffer b + 4 + u32 (zlen s) + 1 <= e -> zlen (mem b) <= buffer b + 4 + zlen s ->
  pack_string s b = Stop CUndef.
Proof.
  intros Hb Ee Hfit Hlong. pose proof (uwrap_bound 32 (zlen s) ltac:(lia)) as Hu.
  destruct (word_pack b e (u32 (zlen s)) Hb Ee ltac:(lia)) as (m & E & Hz & _).
  unfold pack_string, pbind at 1. rewrite E. cbn [rbind]. unfold pbind, store_string. cbn [eob buffer mem]. rewrite Ee.
  destruct (Z.ltb_spec e (buffer b + 4 + u32 (zlen s) + 1)); [lia|]. unfold stbytes.
  assert (inbb m (buffer b + 4) (zlen (s ++ [0])) = false) as ->; [|done].
  unfold inbb. rewrite zlen_app. change (zlen [0]) with 1. lia.
Qed.

(** *** Unpacking hostile packets *)
Definition pkt_ok (b : BUFFER) : Prop := buf_ok b /\ is_bytes (mem b).

(** The function returns on every packet of a server; the packet is not changed and the
    results satisfy [Q]. *)
Definition safe {A} (f : pk A) (Q : BUFFER -> A -> Prop) : Prop :=
  forall b, pkt_ok b -> who b = RP2_SERVER ->
  exists r b', f b = Ret (r, b') /\ mem b' = mem b /\ eob b' = eob b /\ who b' = who b /\ buffer b <= buffer b' /\
    match r with Some x => Q b' x | None => True end.

Lemma safe_pkt {b b' : BUFFER} : pkt_ok b -> mem b' = mem b -> eob b' = eob b -> buffer b <= buffer b' -> pkt_ok b'.
Proof. intros [[H0 He] Hb] Em Ee Hp. split; [split; [lia|]|]; rewrite ?Em, ?Ee; done. Qed.

Lemma safe_bind {A B} (f : pk A) (k : A -> pk B) P Q :
  safe f P -> (forall x b, pkt_ok b -> who b = RP2_SERVER -> P b x ->
     exists r b', k x b = Ret (r, b') /\ mem b' = mem b /\ eob b' = eob b /\ who b' = who b /\ buffer b <= buffer b' /\
       match r with Some y => Q b' y | None => True end) -> safe (pbind f k) Q.
Proof.
  intros Hf Hk b Hb Hw. destruct (Hf b Hb Hw) as ([x|] & b1 & E & Em & Ee & Ew & Hp & HP); unfold pbind; rewrite E; cbn.
  - destruct (Hk x b1 (safe_pkt Hb Em Ee Hp) ltac:(congruence) HP) as (r & b' & E' & Em' & Ee' & Ew' & Hp' & HQ).
    exists r, b'. repeat split; congruence || lia || done.
  - exists None, b1. done.
Qed.

Lemma get32_bound m o : is_bytes m -> 0 <= get32 m o < 2 ^ 32.
Proof.
  intros H. unfold get32. pose proof (is_byte_getb m o H). pose proof (is_byte_getb m (o + 1) H).
  pose proof (is_byte_getb m (o + 2) H). pose proof (is_byte_getb m (o + 3) H). unfold is_byte in *. lia.
Qed.

Lemma safe_unsigned : safe unpack_unsigned (fun _ v => 0 <= v < 2 ^ 32).
Proof.
  intros b [[H0 He] Hb] Hw. unfold unpack_unsigned, pbind, room. destruct (eob b) as [e|] eqn:Ee.
  - destruct (Z.ltb_spec e (buffer b + 4)); cbn; [exists None, b; done|].
    unfold fetch. rewrite ld32_ok by lia. cbn. eexists _, _. split; [reflexivity|]. cbn. rewrite Ee. change (PAD 4) with 4.
    repeat split; try lia; apply get32_bound; done.
  - cbn. exists None, b. done.
Qed.

Lemma safe_integer : safe unpack_integer (fun _ v => i32_ok v).
Proof.
  intros b Hb Hw. destruct (safe_unsigned b Hb Hw) as (r & b' & E & H).
  exists (s32 <$> r), b'. split; [|destruct r; [|done]].
  - revert E. unfold unpack_integer, unpack_unsigned, pbind. destruct (room 4 b) as [[[[]|] b1]|]; cbn; [|intros [= <- <-]; done|done].
    destruct (fetch ld32 b1) as [[[x|] b2]|]; cbn; [|intros [= <- <-]; done|done]. unfold pret. intros [= <- <-]. done.
  - cbn. repeat split; try tauto; apply (swrap_bound 32); lia.
Qed.

(** Pointers into the packet. *)
Definition in_packet (b : BUFFER) (p n : Z) : Prop := 0 <= p /\ match eob b with Some e => p + n <= e | None => False end.

Lemma cstr_terminated m p n : 0 <= p -> 0 <= n -> p + n < zlen m -> getb m (p + n) = 0 ->
  exists s, cstr m p = Ret s /\ zlen s <= n.
Proof.
  intros Hp Hn Hl Hz. unfold cstr. destruct (Z.leb_spec 0 p); [|lia].
  assert (drop (Z.to_nat p) m !! Z.to_nat n = Some 0) as Hd.
  { rewrite lookup_drop. unfold getb in Hz. replace (Z.to_nat (p + n)) with (Z.to_nat p + Z.to_nat n)%nat in Hz by lia.
    destruct (m !! (Z.to_nat p + Z.to_nat n)%nat) eqn:E; [cbn in Hz; congruence|].
    apply lookup_ge_None in E. unfold zlen in Hl. lia. }
  remember (Z.to_nat n) as k eqn:Ek. assert (Z.of_nat k = n) as <- by lia. clear Ek Hz Hl Hn.
  generalize dependent (drop (Z.to_nat p) m). clear. induction k as [|k IH]; intros l Hd; destruct l as [|c l]; try done; cbn in *.
  - injection Hd as ->. exists []. split; [done|]. unfold zlen. cbn. lia.
  - destruct (c =? 0); [exists []; split; [done|unfold zlen; cbn; lia]|].
    destruct (IH l Hd) as (s & E & Hs). destruct (cstr_of l); [|done]. injection E as ->.
    exists (c :: s). split; [done|]. unfold zlen in *. cbn [length]. lia.
Qed.

Lemma safe_string : safe unpack_string (fun b p =>
  exists s, cstr (mem b) p = Ret s /\ in_packet b p (zlen s + 1)).
Proof.
  unfold unpack_string. eapply safe_bind; [apply safe_unsigned|]. intros len b Hb Hw Hlen. cbv beta in *.
  destruct Hb as [[H0 He] Hbytes]. unfold pbind at 1, room. destruct (eob b) as [e|] eqn:Ee.
  2:{ cbn. exists None, b. done. }
  destruct (Z.ltb_spec e (buffer b + (len + 1))); cbn; [exists None, b; rewrite Ee; done|].
  unfold pbind at 1, fetch, ld8. cbv beta. rewrite inbb_true by lia. cbn.
  destruct (Z.eqb_spec (getb (mem b) (buffer b + len)) 0) as [Ez|Ez]; cbn.
  2:{ unfold pfail. exists None, b. rewrite Ee. done. }
  rewrite decide_False by congruence. unfold pbind, advance, pret. cbn. eexists _, _. split; [reflexivity|].
  cbn. rewrite Ee. pose proof (PAD_nonneg (u32 (len + 1))).
  destruct (cstr_terminated (mem b) (buffer b) len) as (s & Es & Hs); [lia..|done|].
  repeat split; try lia. exists s. split; [done|]. split; [lia|]. cbn. lia.
Qed.

Lemma safe_countedbs : safe unpack_countedbs (fun b r => 0 <= r.1 < 2 ^ 32 /\ in_packet b r.2 r.1).
Proof.
  unfold unpack_countedbs. eapply safe_bind; [apply safe_unsigned|]. intros len b Hb Hw Hlen. cbv beta in *.
  destruct Hb as [[H0 He] Hbytes]. unfold pbind at 1, room. destruct (eob b) as [e|] eqn:Ee.
  2:{ cbn. exists None, b. done. }
  destruct (Z.ltb_spec e (buffer b + len)); cbn; [exists None, b; rewrite Ee; done|].
  unfold pbind, advance, pret. cbn. eexists _, _. split; [reflexivity|].
  cbn. rewrite Ee. pose proof (PAD_nonneg len). repeat split; try lia. unfold in_packet. cbn. lia.
Qed.

(** The memory a bounded sequence refers to: its current contents, then anything. *)
Definition bbs_ok (c : RPC2_BoundedBS) : Prop :=
  0 <= SeqLen c <= MaxSeqLen c /\ MaxSeqLen c <= RPC2_MAXPACKETSIZE /\ zlen (SeqBody c) = MaxSeqLen c.

Lemma safe_boundedbs calloc_ok mode ptr : safe (unpack_boundedbs calloc_ok mode ptr) (fun _ c => bbs_ok c).
Proof.
  unfold unpack_boundedbs. eapply safe_bind; [apply safe_unsigned|]. intros maxl b1 Hb1 Hw1 Hmax. cbv beta in *.
  revert b1 Hb1 Hw1. apply (safe_bind unpack_unsigned _ (fun _ v => 0 <= v < 2 ^ 32)); [apply safe_unsigned|].
  intros sl b Hb Hw Hsl. cbv beta in *. rewrite Hw. rewrite (decide_True (P := RP2_SERVER = RP2_SERVER)) by done.
  rewrite (bool_decide_false (RP2_SERVER = RP2_CLIENT)) by done. rewrite (bool_decide_true (RP2_SERVER = RP2_SERVER)) by done.
  cbn [andb orb]. set (maxlen := if decide (mode = IN_MODE) then sl else maxl).
  set (len := if negb (bool_decide (mode = OUT_MODE)) then sl else 0).
  assert (0 <= maxlen /\ 0 <= len) as [Hm0 Hl0].
  { split; [unfold maxlen; case_decide; lia|unfold len; destruct (negb _); lia]. }
  destruct Hb as [[H0 He] Hbytes].
  destruct (Z.ltb_spec maxlen len); [unfold pfail; exists None, b; done|].
  unfold pbind at 1, room. destruct (eob b) as [e|] eqn:Ee; [|cbn; exists None, b; done].
  destruct (Z.ltb_spec e (buffer b + len)); cbn [rbind]; [exists None, b; done|].
  unfold pbind at 1. rewrite (decide_True (P := RP2_SERVER = RP2_SERVER)) by done. destruct (Z.ltb_spec RPC2_MAXPACKETSIZE maxlen); [cbn; exists None, b; done|].
  destruct (negb (maxlen =? 0) && negb (calloc_ok maxlen)); [cbn; exists None, b; done|].
  unfold pret. cbn [rbind]. unfold pbind at 1, fetch, ldbytes. rewrite inbb_true by lia. cbn [rbind].
  set (body := replicate (Z.to_nat maxlen) 0). assert (zlen body = maxlen) as Hz by (unfold body, zlen; rewrite length_replicate; lia).
  destruct (Z.ltb_spec (zlen body) len); [lia|]. unfold pbind, advance, pret. cbn [rbind].
  eexists _, _. split; [reflexivity|]. cbn [mem eob who buffer]. pose proof (PAD_nonneg len).
  repeat split; try done; try lia. cbn [SeqLen MaxSeqLen SeqBody].
  set (bs := take (Z.to_nat len) (drop (Z.to_nat (buffer b)) (mem b))).
  rewrite zlen_putbs; [done|lia|]. unfold bs, zlen in *. rewrite length_take. lia.
Qed.

Lemma safe_pret {A} (x : A) (Q : BUFFER -> A -> Prop) : (forall b, Q b x) -> safe (pret x) Q.
Proof. intros H b Hb Hw. exists (Some x), b. repeat split; try done; try lia. Qed.

Lemma safe_weaken {A} (f : pk A) (P Q : BUFFER -> A -> Prop) : (forall b x, P b x -> Q b x) -> safe f P -> safe f Q.
Proof.
  intros H Hf b Hb Hw. destruct (Hf b Hb Hw) as (r & b' & ? & ? & ? & ? & ? & HP). exists r, b'.
  repeat split; try done. destruct r; [apply H|]; done.
Qed.

Lemma safe_seq {A B} (f : pk A) (k : A -> pk B) (Q : BUFFER -> B -> Prop) :
  safe f (fun _ _ => True) -> (forall x, safe (k x) Q) -> safe (pbind f k) Q.
Proof. intros Hf Hk. eapply safe_bind; [exact Hf|]. intros x b Hb Hw _. apply Hk; done. Qed.

Definition any {A} : BUFFER -> A -> Prop := fun _ _ => True.

(** C20 Unpacking is safe on every packet a server can receive: whatever its bytes, each
    unpacking function returns without reading outside the packet; a string result is
    terminated inside the packet, a counted sequence lies inside it, and a bounded
    sequence is copied into memory of its own that holds it, of at most
    [RPC2_MAXPACKETSIZE] bytes. *)
Theorem unpack_hostile_safe calloc_ok mode ptr old :
  safe unpack_integer (fun _ v => i32_ok v) /\ safe unpack_unsigned (fun _ v => u32_ok v) /\
  safe unpack_string (fun b p => exists s, cstr (mem b) p = Ret s /\ in_packet b p (zlen s + 1)) /\
  safe unpack_countedbs (fun b r => 0 <= r.1 < 2 ^ 32 /\ in_packet b r.2 r.1) /\
  safe (unpack_boundedbs calloc_ok mode ptr) (fun _ c => bbs_ok c) /\
  safe unpack_struct_CallCountEntry any /\ safe (unpack_struct_MultiCallEntry old) any /\
  safe unpack_struct_MultiStubWork any.
Proof.
  assert (safe unpack_integer any) as Hi by (eapply safe_weaken; [|apply safe_integer]; done).
  assert (safe unpack_string any) as Hs by (eapply safe_weaken; [|apply safe_string]; done).
  split; [apply safe_integer|]. split; [apply safe_unsigned|]. split; [apply safe_string|].
  split; [apply safe_countedbs|]. split; [apply safe_boundedbs|]. split; [|split].
  - apply safe_seq; [exact Hs|]. intros ?. do 5 (apply safe_seq; [exact Hi|]; intros ?). apply safe_pret. done.
  - apply safe_seq; [exact Hs|]. intros ?. do 5 (apply safe_seq; [exact Hi|]; intros ?). apply safe_pret. done.
  - do 3 (apply safe_seq; [exact Hi|]; intros ?). apply safe_pret. done.
Qed.

(** C36 Counting and packing agree: with [eob] NULL the functions touch no memory and move
    the position exactly as far as packing into a large enough packet does. *)
Theorem pack_count_agrees b bn e c :
  cce_ok c -> buf_ok b -> eob b = Some e -> eob bn = None -> buffer bn = buffer b ->
  buffer b + str_width (cc_name c) + 20 <= e ->
  exists m, pack_struct_CallCountEntry c b = Ret (Some tt, mkBuf m (buffer b + str_width (cc_name c) + 20) (eob b) (who b)) /\
    pack_struct_CallCountEntry c bn = Ret (Some tt, mkBuf (mem bn) (buffer b + str_width (cc_name c) + 20) None (who bn)).
Proof.
  intros (H1 & H2 & H3 & H4 & H5 & H6) Hb Ee En Epos Hr.
  destruct (@c_pack _ _ CCE_codec CCE_laws b e (cce_tuple c)) as (m & E & _); [cbn; tauto|done|done|cbn; lia|].
  pose proof (@c_count _ _ CCE_codec CCE_laws bn (cce_tuple c) ltac:(cbn; tauto) En) as En'.
  exists m. cbn [cwidth CCE_codec Pair_codec String_codec Integer_codec fst snd cce_tuple] in E, En'.
  rewrite Epos in En'. replace (buffer b + str_width (cc_name c) + 20) with
    (buffer b + (str_width (cc_name c) + (4 + (4 + (4 + (4 + 4)))))) by lia. split; [exact E|exact En'].
Qed.

Lemma pack_count_agrees_witness :
  exists m, pack_struct_CallCountEntry cce0 pkt0 = Ret (Some tt, mkBuf m (4 + str_width (cc_name cce0) + 20) (Some 60) RP2_SERVER) /\
    pack_struct_CallCountEntry cce0 (mkBuf [] 4 None RP2_CLIENT) =
    Ret (Some tt, mkBuf [] (4 + str_width (cc_name cce0) + 20) None RP2_CLIENT).
Proof.
  apply (pack_count_agrees pkt0 (mkBuf [] 4 None RP2_CLIENT) 60 cce0); try reflexivity.
  - unfold cce_ok, str_ok, i32_ok. cbn [cce0 cc_name countent countexit tsec tusec counttime].
    repeat split; try lia; try (repeat constructor; lia); vm_compute; reflexivity.
  - split; vm_compute; congruence.
  - vm_compute. congruence.
Defined.
