(* ===== verification/PdbArray.v ===== *)
(** * Sorted id arrays of the protection database

    Model of coda-src/al/pdbarray.c: the [pdb_array], a growing array of 32-bit
    ids kept in ascending order, in which the protection database keeps the
    members of a group, the groups of a user and its CPS.  The array refines a
    finite set of ids: [pdb_array_add], [pdb_array_del] and [pdb_array_merge]
    are insertion, deletion and union, [pdb_array_search] is membership. *)
From Stdlib Require Import ZArith Lia Sorting.Sorted.
From stdpp Require Import base list numbers gmap.
From S2P Require Import Prelude.
From S2P Require Import Text.

(** ** The allocator

    [malloc] may fail, and what it returns has no defined contents; [junk] is
    the value of the cells that have not been written. *)
Class Alloc := { can_alloc : Z -> bool; junk : Z }.
Class AllocOk `{Alloc} : Prop := alloc_ok n : 0 <= n -> can_alloc n = true.

(** A signed 32-bit result; overflow is undefined. *)
Definition i32 (v : Z) : res Z :=
  if (- 2 ^ 31 <=? v) && (v <? 2 ^ 31) then Ret v else Stop CUndef.

Lemma i32_ok v : - 2 ^ 31 <= v < 2 ^ 31 -> i32 v = Ret v.
Proof. intros. unfold i32. destruct (Z.leb_spec (- 2 ^ 31) v), (Z.ltb_spec v (2 ^ 31)); done || lia. Qed.

Module PdbArray.

(** [struct pdb_array]; [pa_data] is the object [data] points to, [None] for NULL. *)
Record pdb_array := { pa_size : Z; pa_memsize : Z; pa_data : option (list Z) }.

Section ops.
Context `{Alloc}.

(** [malloc(n * sizeof(int32_t))]; a negative [n] is a huge [size_t]. *)
Definition malloc_ints (n : Z) : option (list Z) :=
  if (0 <=? n) && can_alloc (4 * n) then Some (replicate (Z.to_nat n) junk) else None.
(** [realloc(p, n * sizeof(int32_t))] with [n] not smaller than before. *)
Definition realloc_ints (p : option (list Z)) (n : Z) : option (list Z) :=
  if (0 <=? n) && can_alloc (4 * n)
  then Some (default [] p ++ replicate (Z.to_nat n - length (default [] p)) junk) else None.

(** [p[i]], [p[i] = x] and [memmove(&p[dst], &p[src], n * sizeof( *p))]. *)
Definition pget (p : option (list Z)) (i : Z) : res Z :=
  match p with Some d => aget d i | None => Stop CUndef end.
Definition pset (p : option (list Z)) (i x : Z) : res (option (list Z)) :=
  match p with Some d => let* d' := aset d i x in Ret (Some d') | None => Stop CUndef end.
Definition pmove (p : option (list Z)) (dst src n : Z) : res (option (list Z)) :=
  match p with
  | Some d =>
      if (0 <=? n) && inbb d dst n && inbb d src n
      then Ret (Some (putbs d dst (slice d src (src + n)))) else Stop CUndef
  | None => Stop CUndef
  end.

Definition search_step (l : pdb_array) (x : Z) (bt : Z * Z) : res (Z * Z + Z) :=
  let '(b, t) := bt in
  let* s := i32 (b + t) in
  let m := Z.quot s 2 in
  let* v := pget (pa_data l) m in
  if v =? x then Ret (inr m)
  else if b >=? t then Ret (inr (-1))
  else if v >? x then Ret (inl (b, m - 1)) else Ret (inl (m + 1, t)).

Definition pdb_array_search (l : pdb_array) (x : Z) : res Z :=
  if pa_size l =? 0 then Ret (-1)
  else while_loop (S (S (Z.to_nat (pa_size l)))) (search_step l x) (0, pa_size l - 1).

Definition pdb_array_init : pdb_array := {| pa_size := 0; pa_memsize := 0; pa_data := None |}.
Definition pdb_array_free (_ : pdb_array) : pdb_array := pdb_array_init.

(** The first half of [pdb_array_add]: make room for one more entry. *)
Definition grow (l : pdb_array) : res pdb_array :=
  if pa_size l =? pa_memsize l then
    if negb (pa_memsize l =? 0) then
      let* ms := i32 (pa_memsize l + 16) in
      Ret {| pa_size := pa_size l; pa_memsize := ms; pa_data := realloc_ints (pa_data l) ms |}
    else Ret {| pa_size := pa_size l; pa_memsize := 16; pa_data := malloc_ints 16 |}
  else Ret l.

(** [for (i = 0; i < l->size; i++) if (l->data[i] >= x) break;] *)
Definition skip_smaller (l : pdb_array) (x : Z) : res Z :=
  let* r := for_range 0 (pa_size l)
    (fun i _ => let* v := pget (pa_data l) i in if v >=? x then Ret (inr i) else Ret (inl tt)) tt in
  match r with inr i => Ret i | inl _ => Ret (pa_size l) end.

(** [l->data[i] = x; l->size++;] *)
Definition put_at (l : pdb_array) (p : option (list Z)) (i x : Z) : res pdb_array :=
  let* p' := pset p i x in
  let* sz := i32 (pa_size l + 1) in
  Ret {| pa_size := sz; pa_memsize := pa_memsize l; pa_data := p' |}.

Definition pdb_array_add (l : pdb_array) (x : Z) : res pdb_array :=
  let* l := grow l in
  let* i := skip_smaller l x in
  if i <? pa_size l then
    let* v := pget (pa_data l) i in
    if v =? x then Ret l
    else
      let* p := pmove (pa_data l) (i + 1) i (pa_size l - i) in
      put_at l p i x
  else put_at l (pa_data l) i x.

Definition pdb_array_del (l : pdb_array) (x : Z) : res pdb_array :=
  let* i := pdb_array_search l x in
  if i =? -1 then Ret l
  else
    let sz := pa_size l - 1 in
    let* p := if sz - i >? 0 then pmove (pa_data l) i (i + 1) (sz - i) else Ret (pa_data l) in
    let* p := pset p sz 0 in
    Ret {| pa_size := sz; pa_memsize := pa_memsize l; pa_data := p |}.

(** [pdb_array_copy(d, s)]: the new value of [*d]. *)
Definition pdb_array_copy (s : pdb_array) : res pdb_array :=
  let n := pa_size s in
  let p := malloc_ints n in
  let* p := if n =? 0 then Ret p else
              match p, pa_data s with
              | Some d, Some e => if (0 <=? n) && inbb d 0 n && inbb e 0 n
                                  then Ret (Some (putbs d 0 (slice e 0 n))) else Stop CUndef
              | _, _ => Stop CUndef
              end in
  Ret {| pa_size := n; pa_memsize := n; pa_data := p |}.

(** One iteration of the loop of [pdb_array_merge]; the state is [new], [si], [di]. *)
Definition merge_step (d s : pdb_array) (i : Z) (st : option (list Z) * Z * Z)
  : res (option (list Z) * Z * Z + Z * option (list Z)) :=
  let '(new, si, di) := st in
  if (si =? pa_size s) && (di =? pa_size d) then Ret (inr (i, new))
  else if si =? pa_size s then
    let* v := pget (pa_data d) di in let* new := pset new i v in Ret (inl (new, si, di + 1))
  else if di =? pa_size d then
    let* v := pget (pa_data s) si in let* new := pset new i v in Ret (inl (new, si + 1, di))
  else
    let* vs := pget (pa_data s) si in
    let* vd := pget (pa_data d) di in
    if vs <? vd then let* new := pset new i vs in Ret (inl (new, si + 1, di))
    else
      let si := if vs =? vd then si + 1 else si in
      let* new := pset new i vd in Ret (inl (new, si, di + 1)).

(** [pdb_array_merge(d, s)]: the new value of [*d]. *)
Definition pdb_array_merge (d s : pdb_array) : res pdb_array :=
  let* n := i32 (pa_size s + pa_size d) in
  let new := malloc_ints n in
  cassert (bool_decide (is_Some new)) ;;;
  let* r := for_range 0 n (merge_step d s) (new, 0, 0) in
  let '(i, new) := match r with inr (i, new) => (i, new) | inl (new, _, _) => (Z.max 0 n, new) end in
  Ret {| pa_size := i; pa_memsize := n; pa_data := new |}.

(** The iterator: the element and the new value of [*off]. *)
Definition pdb_array_head (l : pdb_array) : res (Z * Z) :=
  if pa_size l =? 0 then Ret (0, 0) else let* v := pget (pa_data l) 0 in Ret (v, 0).
Definition pdb_array_next (l : pdb_array) (off : Z) : res (Z * Z) :=
  let* off := i32 (off + 1) in
  if pa_size l <=? off then Ret (0, off) else let* v := pget (pa_data l) off in Ret (v, off).

(** [id = pdb_array_head(l, &off); while (id != 0) { body; id = pdb_array_next(l, &off); }] *)
Definition for_each {St} (l : pdb_array) (body : Z -> St -> res St) (s : St) : res St :=
  let* (v, off) := pdb_array_head l in
  while_loop (S (S (Z.to_nat (pa_size l))))
    (fun '(v, off, s) =>
       if v =? 0 then Ret (inr s)
       else
         let* s := body v s in
         let* (v, off) := pdb_array_next l off in
         Ret (inl (v, off, s))) (v, off, s).

(** [pdb_array_pack(d, l)] with [d] at byte offset [o] of the object [m]. *)
Definition pdb_array_pack (m : list Z) (o : Z) (l : pdb_array) : res (list Z * Z) :=
  let* m := st32 m o (pa_size l) in
  let* m := forZ 0 (pa_size l)
    (fun i m => let* v := pget (pa_data l) i in st32 m (o + 4 * (i + 1)) v) m in
  let* n := i32 (pa_size l + 1) in Ret (m, n).

(** [pdb_array_unpack(s, l)] with [s] at byte offset [o] of the object [m]. *)
Definition pdb_array_unpack (m : list Z) (o : Z) : res (pdb_array * Z) :=
  let* v := ld32 m o in
  let n := s32 v in
  let p := if n >? 0 then malloc_ints n else None in
  let* p := forZ 0 n
    (fun i p => let* v := ld32 m (o + 4 * (i + 1)) in pset p i (s32 v)) p in
  let* r := i32 (n + 1) in
  Ret ({| pa_size := n; pa_memsize := n; pa_data := p |}, r).

(** [pdb_array_snprintf(out, l, len)] on the object [out]: its new contents and the result. *)
Definition pdb_array_snprintf (out : list Z) (l : pdb_array) (len : Z) : res (list Z * Z) :=
  if len <? 1 then Ret (out, -1)
  else
    let* out := st8 out 0 0 in
    let* r := for_range 0 (pa_size l)
      (fun i out =>
         let* v := pget (pa_data l) i in
         let tmp := fmt_d v ++ [32] in
         let* o := cstr out 0 in
         if zlen o + zlen tmp >? len then Ret (inr out)
         else let* out := ststr out (zlen o) tmp in Ret (inl out)) out in
    match r with
    | inr out => Ret (out, -1)
    | inl out => let* o := cstr out 0 in Ret (out, zlen o)
    end.

End ops.

(** ** What an array holds *)
Definition elems (l : pdb_array) : list Z := take (Z.to_nat (pa_size l)) (default [] (pa_data l)).

(** The invariant of the representation. *)
Definition array_ok (l : pdb_array) : Prop :=
  0 <= pa_size l <= pa_memsize l /\ pa_memsize l < 2 ^ 31 /\ zlen (default [] (pa_data l)) = pa_memsize l.

(** The array holds the ascending list [xs]. *)
Definition holds (l : pdb_array) (xs : list Z) : Prop :=
  array_ok l /\ elems l = xs /\ StronglySorted Z.lt xs.

Lemma holds_size l xs : holds l xs -> pa_size l = zlen xs.
Proof.
  intros ((Hs & _ & Hd) & <- & _). unfold elems, zlen in *. rewrite length_take. lia.
Qed.

Lemma pget_elems l i x : array_ok l -> 0 <= i -> elems l !! Z.to_nat i = Some x ->
  pget (pa_data l) i = Ret x.
Proof.
  intros (Hs & _ & Hd) Hi E. unfold elems in E. apply lookup_take_Some in E as [E Hlt].
  unfold pget. destruct (pa_data l); [|done]. cbn in E. now apply aget_ok.
Qed.

Lemma holds_init : holds pdb_array_init [].
Proof. repeat split; cbn; try lia. constructor. Qed.

(** ** Ascending lists *)
Lemma sorted_app_inv (a b : list Z) : StronglySorted Z.lt (a ++ b) ->
  StronglySorted Z.lt a /\ StronglySorted Z.lt b /\ forall x y, x ∈ a -> y ∈ b -> x < y.
Proof.
  induction a as [|z a IH]; cbn; intros Hs.
  - repeat split; [constructor|done|]. intros x y Hx. by apply not_elem_of_nil in Hx.
  - inversion Hs as [|? ? Hs' Hf]; subst. apply IH in Hs' as (Ha & Hb & Hab).
    rewrite Forall_app in Hf. destruct Hf as [Hfa Hfb]. repeat split; [by constructor|done|].
    intros x y Hx Hy. apply elem_of_cons in Hx as [->|Hx]; [|eauto].
    rewrite Forall_forall in Hfb. auto.
Qed.

Lemma sorted_app (a b : list Z) : StronglySorted Z.lt a -> StronglySorted Z.lt b ->
  (forall x y, x ∈ a -> y ∈ b -> x < y) -> StronglySorted Z.lt (a ++ b).
Proof.
  induction 1 as [|z a Ha IH Hf]; cbn; intros Hb Hab; [done|]. constructor.
  - apply IH; [done|]. intros x y Hx. apply Hab. by right.
  - rewrite Forall_app. split; [done|]. rewrite Forall_forall. intros y Hy. apply Hab; [by left|done].
Qed.

Lemma sorted_lookup xs i j x y : StronglySorted Z.lt xs ->
  xs !! i = Some x -> xs !! j = Some y -> (i < j)%nat -> x < y.
Proof.
  intros Hs. revert i j. induction Hs as [|z xs Hs IH Hf]; intros i j Hi Hj Hij; [done|].
  destruct j as [|j]; [lia|]. cbn in Hj. destruct i as [|i]; cbn in Hi.
  - injection Hi as <-. rewrite Forall_lookup in Hf. eauto.
  - apply (IH i j); auto. lia.
Qed.

(** ** Membership *)
Section search.
Context (l : pdb_array) (xs : list Z) (x : Z).
Hypothesis Hl : holds l xs.
Hypothesis Hbound : zlen xs <= 2 ^ 30.

Let found (r : Z) : Prop := (r = -1 /\ x ∉ xs) \/ (0 <= r /\ xs !! Z.to_nat r = Some x).

Lemma search_loop fuel b t :
  0 < zlen xs -> 0 <= b -> t < zlen xs -> b <= t + 1 ->
  (forall i, xs !! i = Some x -> b <= Z.of_nat i <= t) -> t - b + 1 < Z.of_nat fuel ->
  exists r, while_loop fuel (search_step l x) (b, t) = Ret r /\ found r.
Proof.
  destruct Hl as (Hok & He & Hs). revert b t.
  induction fuel as [|fuel IH]; intros b t Hne Hb Ht Hbt Hin Hf; [lia|].
  assert (0 <= Z.quot (b + t) 2 < zlen xs /\ (b < t -> b <= Z.quot (b + t) 2 < t) /\
          (t <= b -> b <= t -> Z.quot (b + t) 2 = b)) as (Hm & Hm1 & Hm2).
  { destruct (decide (b + t = -1)) as [E|E]; [rewrite E; change (Z.quot (-1) 2) with 0; lia|].
    rewrite Z.quot_div_nonneg by lia. repeat split; intros; zdm. }
  cbn [while_loop search_step]. rewrite i32_ok by lia. cbn [rbind].
  set (m := Z.quot (b + t) 2) in *.
  destruct (aget_total xs m Hm) as (v & Hv & _).
  rewrite (pget_elems l m v) by (first [done | lia | by rewrite He]). cbn [rbind].
  destruct (Z.eqb_spec v x) as [->|Hvx].
  { exists m. split; [done|]. right. split; [lia|done]. }
  destruct (Z.geb_spec b t) as [Hge|Hlt].
  { exists (-1). split; [done|]. left. split; [done|]. intros Hx.
    apply list_elem_of_lookup in Hx as [i Hi]. specialize (Hin i Hi) as Hi'.
    assert (i = Z.to_nat m) as -> by lia. congruence. }
  destruct (Z.gtb_spec v x) as [Hgt|Hle].
  - apply IH; try lia. intros i Hi. specialize (Hin i Hi).
    assert (~ (Z.to_nat m < i)%nat) by (intros Hmi; pose proof (sorted_lookup _ _ _ _ _ Hs Hv Hi Hmi); lia).
    assert (i <> Z.to_nat m) by congruence. lia.
  - apply IH; try lia. intros i Hi. specialize (Hin i Hi).
    assert (~ (i < Z.to_nat m)%nat) by (intros Hmi; pose proof (sorted_lookup _ _ _ _ _ Hs Hi Hv Hmi); lia).
    assert (i <> Z.to_nat m) by congruence. lia.
Qed.

(** The search returns, and finds [x] exactly when it is there. *)
Lemma pdb_array_search_ok : exists r, pdb_array_search l x = Ret r /\ found r.
Proof using Hl Hbound.
  unfold pdb_array_search. rewrite (holds_size _ _ Hl). pose proof (zlen_nonneg xs).
  destruct (Z.eqb_spec (zlen xs) 0) as [E|E].
  - exists (-1). split; [done|]. left. split; [done|]. intros Hx.
    destruct xs; [by apply not_elem_of_nil in Hx|]. rewrite zlen_cons in E. pose proof (zlen_nonneg l0). lia.
  - apply search_loop; try lia. intros i Hi. apply lookup_lt_Some in Hi. unfold zlen. lia.
Qed.
End search.

(** ** Insertion *)
Section add.
Context `{AllocOk}.

Lemma malloc_ints_ok n : 0 <= n -> malloc_ints n = Some (replicate (Z.to_nat n) junk).
Proof. intros. unfold malloc_ints. rewrite alloc_ok by lia. destruct (Z.leb_spec 0 n); [done|lia]. Qed.

Lemma grow_ok l xs : holds l xs -> zlen xs < 2 ^ 31 - 16 ->
  exists l', grow l = Ret l' /\ holds l' xs /\ pa_size l' < pa_memsize l'.
Proof.
  intros Hl Hb. pose proof (holds_size _ _ Hl) as Hsz.
  destruct l as [sz ms d]. destruct Hl as ((Hs & Hm & Hd) & He & Hsort). cbn in *. unfold grow. cbn.
  destruct (Z.eqb_spec sz ms) as [->|Hne]; [|eexists; split; [done|]; repeat split; cbn; try done; lia].
  destruct (Z.eqb_spec ms 0) as [->|Hnz]; cbn [negb].
  - rewrite malloc_ints_ok by lia. eexists. split; [done|]. repeat split; cbn; try done; lia.
  - rewrite i32_ok by lia. cbn [rbind]. unfold realloc_ints. rewrite alloc_ok by lia.
    destruct (Z.leb_spec 0 (ms + 16)); [|lia]. cbn [andb]. eexists. split; [done|].
    unfold zlen in *. repeat split; cbn; try lia; [| |done].
    + rewrite zlen_app. unfold zlen. rewrite length_replicate. lia.
    + rewrite <- He. unfold elems. cbn. rewrite take_app_le by lia. done.
Qed.

Lemma skip_smaller_ok l xs x : holds l xs ->
  exists a b, skip_smaller l x = Ret (zlen a) /\ xs = a ++ b /\
    (forall y, y ∈ a -> y < x) /\ (forall y, y ∈ b -> x <= y).
Proof.
  intros Hl. pose proof (holds_size _ _ Hl) as Hsz. destruct Hl as (Hok & He & Hs).
  unfold skip_smaller. rewrite Hsz. pose proof (zlen_nonneg xs).
  destruct (for_range_rule (fun k (_ : unit) => forall y, y ∈ take (Z.to_nat k) xs -> y < x)
    (fun k i => i = k /\ (forall y, y ∈ take (Z.to_nat k) xs -> y < x) /\
                exists v, xs !! Z.to_nat k = Some v /\ x <= v) 0 (zlen xs)
    (fun i _ => let* v := pget (pa_data l) i in if v >=? x then Ret (inr i) else Ret (inl tt)) tt)
    as [(? & -> & Hall)|(k & i & Hk & -> & -> & Hall & v & Hv & Hxv)]; try done.
  - intros y Hy. by apply not_elem_of_nil in Hy.
  - intros k [] Hk Hall. destruct (aget_total xs k Hk) as (v & Hv & _).
    rewrite (pget_elems l k v) by (first [done | lia | by rewrite He]). cbn [rbind].
    destruct (Z.geb_spec v x) as [Hge|Hlt]; [right; exists k; split; [done|eauto]|].
    left. exists tt. split; [done|]. replace (Z.to_nat (k + 1)) with (S (Z.to_nat k)) by lia.
    rewrite (take_S_r _ _ v) by done. intros y. rewrite elem_of_app, list_elem_of_singleton.
    intros [Hy| ->]; [auto|lia].
  - exists xs, []. cbn [rbind]. rewrite app_nil_r. repeat split; [|by intros y Hy; apply not_elem_of_nil in Hy].
    intros y Hy. apply Hall. unfold zlen. rewrite Nat2Z.id, firstn_all. done.
  - exists (take (Z.to_nat k) xs), (drop (Z.to_nat k) xs). cbn [rbind]. rewrite take_drop.
    repeat split; [f_equal; unfold zlen in *; rewrite length_take; lia|done|].
    intros y Hy. apply list_elem_of_lookup in Hy as [j Hj]. rewrite lookup_drop in Hj.
    destruct j as [|j]; [rewrite Nat.add_0_r in Hj; congruence|].
    pose proof (sorted_lookup _ _ _ _ _ Hs Hv Hj ltac:(lia)). lia.
Qed.

(** Storing at the end of the entries, after the entries from [i] on were moved up. *)
Lemma put_at_ok l p i x a b :
  array_ok l -> pa_size l < pa_memsize l -> pa_size l = zlen (a ++ b) -> i = zlen a ->
  zlen (default [] p) = pa_memsize l ->
  (exists y r, default [] p = a ++ y :: b ++ r) ->
  exists l', put_at l p i x = Ret l' /\ array_ok l' /\ elems l' = a ++ x :: b.
Proof.
  intros Hok Hlt Hsz -> Hp (y & r & Hd). unfold put_at. destruct p as [d|]; [|by destruct a].
  cbn in Hd, Hp. cbn [pset]. destruct Hok as (Hs & Hm & _).
  rewrite zlen_app in Hsz. pose proof (zlen_nonneg a). pose proof (zlen_nonneg b).
  rewrite aset_ok by lia. cbn [rbind]. rewrite i32_ok by lia. cbn [rbind].
  eexists. split; [done|]. split.
  - split; [cbn; lia|]. split; [done|]. cbn. now rewrite zlen_insert.
  - unfold elems. cbn. rewrite Hd. unfold zlen in *. rewrite Nat2Z.id.
    rewrite insert_app_r_alt, Nat.sub_diag by lia. cbn.
    rewrite Hsz. replace (Z.to_nat (Z.of_nat (length a) + Z.of_nat (length b) + 1)) with
      (length a + S (length b))%nat by lia.
    rewrite take_app_add. cbn. now rewrite take_app_length.
Qed.

Lemma elems_split l xs : array_ok l -> elems l = xs -> pa_size l < pa_memsize l ->
  exists d y r, pa_data l = Some d /\ d = xs ++ y :: r.
Proof.
  intros (Hs & Hm & Hd) He Hlt. destruct (pa_data l) as [d|] eqn:E; [|cbn in Hd; unfold zlen in Hd; cbn in Hd; lia].
  cbn in Hd. unfold elems in He. rewrite E in He. cbn in He.
  destruct (lookup_lt_is_Some_2 d (Z.to_nat (pa_size l))) as [y Hy]; [unfold zlen in Hd; lia|].
  exists d, y, (drop (S (Z.to_nat (pa_size l))) d). split; [done|].
  rewrite <- He. symmetry. by apply take_drop_middle.
Qed.

(** [memmove] of the entries [b] one place up. *)
Lemma shift_up_ok d a v b y r : d = a ++ v :: b ++ y :: r ->
  exists d', pmove (Some d) (zlen a + 1) (zlen a) (1 + zlen b) = Ret (Some d') /\
    zlen d' = zlen d /\ d' = a ++ v :: (v :: b) ++ r.
Proof.
  intros Hd. pose proof (zlen_nonneg a). pose proof (zlen_nonneg b). pose proof (zlen_nonneg r).
  assert (zlen d = zlen a + zlen b + zlen r + 2) as Hz.
  { rewrite Hd. autorewrite with cstep. lia. }
  cbn [pmove]. rewrite !inbb_true by lia. destruct (Z.leb_spec 0 (1 + zlen b)); [|lia]. cbn [andb].
  assert (slice d (zlen a) (zlen a + (1 + zlen b)) = v :: b) as ->.
  { unfold slice. rewrite Hd. replace (Z.to_nat (zlen a + (1 + zlen b))) with (length a + S (length b))%nat
      by (unfold zlen; lia). rewrite take_app_add. cbn. rewrite take_app_length.
    unfold zlen. by rewrite Nat2Z.id, drop_app_length. }
  eexists. split; [done|]. split; [apply zlen_putbs; rewrite ?zlen_cons; lia|].
  unfold putbs. rewrite Hd. replace (Z.to_nat (zlen a + 1)) with (length a + 1)%nat by (unfold zlen; lia).
  cbn [length]. replace (length a + 1 + S (length b))%nat with (length a + (S (S (length b))))%nat by lia.
  rewrite take_app_add, drop_app_add. cbn. rewrite <- app_assoc. cbn. do 4 f_equal.
  rewrite <- Nat.add_1_r, drop_app_add. done.
Qed.

Lemma sorted_insert a b x : StronglySorted Z.lt (a ++ b) ->
  (forall y, y ∈ a -> y < x) -> (forall y, y ∈ b -> x < y) -> StronglySorted Z.lt (a ++ x :: b).
Proof.
  intros Hs Ha Hb. destruct (sorted_app_inv a b Hs) as (Hsa & Hsb & Hab). apply sorted_app; [done| |].
  - constructor; [done|]. rewrite Forall_forall. auto.
  - intros u w Hu Hw. apply elem_of_cons in Hw as [->|Hw]; auto.
Qed.

Lemma pdb_array_add_ok l xs x : holds l xs -> zlen xs < 2 ^ 31 - 16 ->
  exists l' ys, pdb_array_add l x = Ret l' /\ holds l' ys /\
    list_to_set ys =@{gset Z} {[x]} ∪ list_to_set xs.
Proof.
  intros Hl Hb. unfold pdb_array_add.
  destruct (grow_ok l xs Hl Hb) as (l1 & -> & Hl1 & Hlt). cbn [rbind]. clear l Hl.
  destruct (skip_smaller_ok l1 xs x Hl1) as (a & b & -> & -> & Ha & Hbb). cbn [rbind].
  pose proof (holds_size _ _ Hl1) as Hsz. destruct Hl1 as (Hok & He & Hs).
  destruct (elems_split l1 _ Hok He Hlt) as (d & y & r & Ed & Hd).
  assert (zlen (default [] (Some d)) = pa_memsize l1) as Hzd by (rewrite <- Ed; apply Hok).
  destruct b as [|v b].
  - rewrite app_nil_r in *. destruct (Z.ltb_spec (zlen a) (pa_size l1)); [lia|].
    destruct (put_at_ok l1 (pa_data l1) (zlen a) x a []) as (l' & -> & Hok' & He'); try done.
    { by rewrite app_nil_r. } { by rewrite Ed. } { rewrite Ed. cbn. eauto. }
    exists l', (a ++ [x]). split; [done|]. split.
    + split; [done|]. split; [done|]. apply sorted_insert; [by rewrite app_nil_r|done|].
      intros z Hz. by apply not_elem_of_nil in Hz.
    + rewrite list_to_set_app_L. cbn. set_solver.
  - rewrite zlen_app, zlen_cons in Hsz. pose proof (zlen_nonneg b). pose proof (zlen_nonneg a).
    destruct (Z.ltb_spec (zlen a) (pa_size l1)); [|lia].
    rewrite (pget_elems l1 (zlen a) v); [cbn [rbind]|done|lia|].
    2:{ rewrite He, lookup_app_r; unfold zlen; rewrite Nat2Z.id; [|lia]. by rewrite Nat.sub_diag. }
    destruct (Z.eqb_spec v x) as [->|Hvx].
    { exists l1, (a ++ x :: b). split; [done|]. split; [done|]. rewrite list_to_set_app_L. cbn. set_solver. }
    rewrite Ed. replace (pa_size l1 - zlen a) with (1 + zlen b) by lia.
    destruct (shift_up_ok d a v b y r) as (d' & -> & Hd' & Hd''); [by rewrite Hd, <- app_assoc|]. cbn [rbind].
    destruct (put_at_ok l1 (Some d') (zlen a) x a (v :: b)) as (l' & -> & Hok' & He'); try done.
    { rewrite zlen_app, zlen_cons. lia. } { cbn in *. by rewrite Hd'. } { cbn. eauto. }
    exists l', (a ++ x :: v :: b). split; [done|]. split.
    + split; [done|]. split; [done|]. apply sorted_insert; [done|done|].
      pose proof (Hbb v ltac:(by left)). destruct (sorted_app_inv _ _ Hs) as (_ & Hsb & _).
      inversion Hsb as [|? ? _ Hf]; subst. rewrite Forall_forall in Hf.
      intros z Hz. apply elem_of_cons in Hz as [->|Hz]; [lia|]. specialize (Hf z Hz). lia.
    + rewrite !list_to_set_app_L. cbn. set_solver.
Qed.
End add.

(** ** Deletion *)
(** [memmove] of the entries [b] one place down, over [x]. *)
Lemma shift_down_ok d a x b r : d = a ++ x :: b ++ r ->
  exists d', (if zlen b >? 0 then pmove (Some d) (zlen a) (zlen a + 1) (zlen b) else Ret (Some d)) = Ret (Some d') /\
    zlen d' = zlen d /\ take (length a + length b) d' = a ++ b.
Proof.
  intros Hdr. pose proof (zlen_nonneg a). pose proof (zlen_nonneg b). pose proof (zlen_nonneg r).
  assert (zlen d = zlen a + zlen b + zlen r + 1) as Hz by (rewrite Hdr; autorewrite with cstep; lia).
  destruct (Z.gtb_spec (zlen b) 0).
  - cbn [pmove]. rewrite !inbb_true by lia. destruct (Z.leb_spec 0 (zlen b)); [|lia]. cbn [andb].
    assert (slice d (zlen a + 1) (zlen a + 1 + zlen b) = b) as ->.
    { unfold slice. rewrite Hdr. replace (Z.to_nat (zlen a + 1 + zlen b)) with (length a + S (length b))%nat
        by (unfold zlen; lia). rewrite take_app_add. cbn. rewrite take_app_length.
      replace (Z.to_nat (zlen a + 1)) with (length a + 1)%nat by (unfold zlen; lia).
      by rewrite drop_app_add. }
    eexists. split; [done|]. split; [apply zlen_putbs; lia|]. unfold putbs.
    rewrite Hdr at 1. unfold zlen at 1. rewrite Nat2Z.id, take_app_length, app_assoc.
    rewrite <- length_app. by rewrite take_app_length.
  - exists d. split; [done|]. split; [done|]. destruct b; [|rewrite zlen_cons in *; pose proof (zlen_nonneg b); lia].
    rewrite Hdr, app_nil_r. cbn. by rewrite Nat.add_0_r, take_app_length.
Qed.

Lemma pdb_array_del_ok l xs x : holds l xs -> zlen xs <= 2 ^ 30 ->
  exists l' ys, pdb_array_del l x = Ret l' /\ holds l' ys /\
    list_to_set ys =@{gset Z} list_to_set xs ∖ {[x]}.
Proof.
  intros Hl Hb. unfold pdb_array_del.
  destruct (pdb_array_search_ok l xs x Hl Hb) as (r & -> & [[-> Hx]|[Hr Hx]]); cbn [rbind].
  { exists l, xs. split; [done|]. split; [done|]. assert (x ∉ (list_to_set xs : gset Z)) by (by rewrite elem_of_list_to_set). set_solver. }
  destruct (Z.eqb_spec r (-1)); [lia|].
  pose proof (holds_size _ _ Hl) as Hsz. destruct Hl as ((Hs & Hm & Hd) & He & Hsort).
  destruct (list_elem_of_split_length _ _ _ Hx) as (a & b & Hxs & Hlen).
  assert (r = zlen a) as -> by (unfold zlen; lia). rewrite Hxs in Hsz, He, Hsort, Hb |- *. clear Hx Hr Hxs Hlen xs.
  rewrite zlen_app, zlen_cons in Hsz. pose proof (zlen_nonneg a). pose proof (zlen_nonneg b).
  destruct (pa_data l) as [d|] eqn:Ed; cbn in Hd; [|rewrite zlen_nil in Hd; lia].
  unfold elems in He. rewrite Ed in He. cbn in He.
  assert (exists r, d = a ++ x :: b ++ r) as [r Hdr].
  { exists (drop (Z.to_nat (pa_size l)) d). rewrite <- (take_drop (Z.to_nat (pa_size l)) d) at 1.
    by rewrite He, <- app_assoc. }
  replace (pa_size l - 1 - zlen a) with (zlen b) by lia.
  destruct (shift_down_ok d a x b r Hdr) as (d' & -> & Hz & Htk).
  cbn [rbind pset]. rewrite aset_ok by lia. cbn [rbind]. eexists _, (a ++ b). split; [done|].
  destruct (sorted_app_inv _ _ Hsort) as (Hsa & Hsb & Hab). inversion Hsb as [|? ? Hsb' Hf]; subst.
  split; [split; [|split]|].
  - split; [cbn; lia|]. split; [done|]. cbn. by rewrite zlen_insert, Hz.
  - unfold elems. cbn. rewrite take_insert_ge by lia.
    by replace (Z.to_nat (pa_size l - 1)) with (length a + length b)%nat by (unfold zlen in *; lia).
  - apply sorted_app; [done..|]. intros u w Hu Hw. apply Hab; [done|]. by right.
  - rewrite !list_to_set_app_L. cbn.
    assert (x ∉ a) as Hxa by (intros Hxa; pose proof (Hab x x Hxa ltac:(by left)); lia).
    assert (x ∉ b) as Hxb by (intros Hxb; rewrite Forall_forall in Hf; specialize (Hf x Hxb); lia).
    apply set_eq. intros z. rewrite elem_of_difference, !elem_of_union, !elem_of_list_to_set, elem_of_singleton.
    split; [intros [Hz'|Hz']; (split; [tauto|congruence])|tauto].
Qed.

(** ** Union *)
Section merge.
Context `{AllocOk} (d s : pdb_array) (xs ys : list Z).
Hypothesis Hd : holds d xs.
Hypothesis Hs : holds s ys.

(** After [i] entries were stored: they are the [si] first of [s] and [di] first of [d]. *)
Definition merge_inv (n i : Z) (st : option (list Z) * Z * Z) : Prop :=
  let '(new, si, di) := st in
  exists b, new = Some b /\ zlen b = n /\ 0 <= si <= zlen ys /\ 0 <= di <= zlen xs /\ i <= si + di /\
    StronglySorted Z.lt (take (Z.to_nat i) b) /\
    (forall z, z ∈ take (Z.to_nat i) b <-> z ∈ take (Z.to_nat si) ys \/ z ∈ take (Z.to_nat di) xs) /\
    (forall z w, z ∈ take (Z.to_nat i) b -> w ∈ drop (Z.to_nat si) ys \/ w ∈ drop (Z.to_nat di) xs -> z < w).

Lemma merge_push n i b v : 0 <= i < n -> zlen b = n ->
  exists b', pset (Some b) i v = Ret (Some b') /\ zlen b' = n /\
    take (Z.to_nat (i + 1)) b' = take (Z.to_nat i) b ++ [v].
Proof.
  intros Hi Hb. cbn [pset]. rewrite aset_ok by lia. cbn [rbind]. eexists. split; [done|].
  split; [by rewrite zlen_insert|]. replace (Z.to_nat (i + 1)) with (S (Z.to_nat i)) by lia.
  rewrite (take_S_r _ _ v); [by rewrite take_insert_ge by lia|].
  apply list_lookup_insert_eq. unfold zlen in Hb. lia.
Qed.

Lemma drop_head (l : list Z) k v w : StronglySorted Z.lt l -> 0 <= k ->
  l !! Z.to_nat k = Some v -> w ∈ drop (Z.to_nat k) l -> w = v \/ (v < w /\ w ∈ drop (Z.to_nat (k + 1)) l).
Proof.
  intros Hl Hk Hv Hw. rewrite (drop_S _ v) in Hw by done. apply elem_of_cons in Hw as [->|Hw]; [by left|].
  right. replace (Z.to_nat (k + 1)) with (S (Z.to_nat k)) by lia. split; [|done].
  apply list_elem_of_lookup in Hw as [j Hj]. rewrite lookup_drop in Hj.
  eapply sorted_lookup; [done|exact Hv|exact Hj|lia].
Qed.

Lemma take_succ (l : list Z) k v z : 0 <= k -> l !! Z.to_nat k = Some v ->
  z ∈ take (Z.to_nat (k + 1)) l <-> z ∈ take (Z.to_nat k) l \/ z = v.
Proof.
  intros Hk Hv. replace (Z.to_nat (k + 1)) with (S (Z.to_nat k)) by lia.
  rewrite (take_S_r _ _ v) by done. rewrite elem_of_app, list_elem_of_singleton. done.
Qed.

Lemma in_drop (l : list Z) k v : l !! Z.to_nat k = Some v -> v ∈ drop (Z.to_nat k) l.
Proof. intros Hv. rewrite (drop_S _ v) by done. by left. Qed.

Lemma drop_sub (l : list Z) k w : 0 <= k -> w ∈ drop (Z.to_nat (k + 1)) l -> w ∈ drop (Z.to_nat k) l.
Proof.
  intros Hk. replace (Z.to_nat (k + 1)) with (S (Z.to_nat k)) by lia. intros Hw.
  apply list_elem_of_lookup in Hw as [j Hj]. apply list_elem_of_lookup. exists (S j).
  rewrite lookup_drop in *. by rewrite Nat.add_succ_r.
Qed.

(** Taking [v], at most every entry not yet taken, keeps the invariant. *)
Lemma merge_take n i b si di si' di' v :
  0 <= i < n -> merge_inv n i (Some b, si, di) ->
  (si' = si /\ v ∈ drop (Z.to_nat di) xs \/ si' = si + 1 /\ ys !! Z.to_nat si = Some v /\ si < zlen ys) ->
  (di' = di /\ v ∈ drop (Z.to_nat si) ys \/ di' = di + 1 /\ xs !! Z.to_nat di = Some v /\ di < zlen xs) ->
  (si' = si -> forall w, w ∈ drop (Z.to_nat si) ys -> v < w) ->
  (di' = di -> forall w, w ∈ drop (Z.to_nat di) xs -> v < w) ->
  (si' = si + 1 \/ di' = di + 1) ->
  exists b', pset (Some b) i v = Ret (Some b') /\ merge_inv n (i + 1) (Some b', si', di').
Proof.
  intros Hi (b0 & [= <-] & Hb & Hsi & Hdi & Hle & Hsort & Hset & Hlt) Hsi' Hdi' Hvs Hvd Hone.
  destruct (merge_push n i b v Hi Hb) as (b' & Ep & Hb' & Htk).
  destruct Hd as (_ & _ & Hxs), Hs as (_ & _ & Hys).
  assert (forall z, z ∈ take (Z.to_nat i) b -> z < v) as Hzv.
  { intros z Hz. apply Hlt; [done|]. destruct Hsi' as [[_ Hv]|(_ & Hv & _)]; [by right|left; by apply in_drop]. }
  assert (forall z, z ∈ take (Z.to_nat i) b \/ z = v <->
            z ∈ take (Z.to_nat si') ys \/ z ∈ take (Z.to_nat di') xs) as Hset'.
  { intros z. rewrite Hset. destruct Hsi' as [[-> _]|(-> & Ev & _)], Hdi' as [[-> _]|(-> & Ev' & _)];
      rewrite ?(take_succ ys si v), ?(take_succ xs di v) by (done || lia); try tauto. lia. }
  assert (forall w, w ∈ drop (Z.to_nat si') ys \/ w ∈ drop (Z.to_nat di') xs ->
            v < w /\ (w ∈ drop (Z.to_nat si) ys \/ w ∈ drop (Z.to_nat di) xs)) as Hrest.
  { intros w [Hw|Hw].
    - destruct Hsi' as [[-> _]|(-> & Ev & _)]; [split; [by apply Hvs|by left]|].
      pose proof (drop_sub ys si w ltac:(lia) Hw) as Hw'. split; [|by left].
      destruct (drop_head ys si v w Hys ltac:(lia) Ev Hw') as [->|[? _]]; [|done].
      apply list_elem_of_lookup in Hw as [j Hj]. rewrite lookup_drop in Hj.
      pose proof (sorted_lookup _ _ _ _ _ Hys Ev Hj ltac:(lia)). lia.
    - destruct Hdi' as [[-> _]|(-> & Ev & _)]; [split; [by apply Hvd|by right]|].
      pose proof (drop_sub xs di w ltac:(lia) Hw) as Hw'. split; [|by right].
      destruct (drop_head xs di v w Hxs ltac:(lia) Ev Hw') as [->|[? _]]; [|done].
      apply list_elem_of_lookup in Hw as [j Hj]. rewrite lookup_drop in Hj.
      pose proof (sorted_lookup _ _ _ _ _ Hxs Ev Hj ltac:(lia)). lia. }
  assert (0 <= si' <= zlen ys /\ 0 <= di' <= zlen xs /\ i + 1 <= si' + di').
  { destruct Hsi' as [[? _]|(? & _ & ?)], Hdi' as [[? _]|(? & _ & ?)]; lia. }
  exists b'. split; [done|]. exists b'. rewrite Htk. repeat split; try done; try lia.
  - apply sorted_app; [done|repeat constructor|]. intros z w Hz Hw. apply list_elem_of_singleton in Hw as ->. auto.
  - rewrite elem_of_app, list_elem_of_singleton. apply Hset'.
  - rewrite elem_of_app, list_elem_of_singleton. apply Hset'.
  - intros z w Hz Hw. rewrite elem_of_app, list_elem_of_singleton in Hz. destruct (Hrest w Hw) as [Hvw Hw'].
    destruct Hz as [Hz| ->]; [|done]. specialize (Hzv z Hz). lia.
Qed.

Lemma drop_end (l : list Z) k w : k = zlen l -> w ∉ drop (Z.to_nat k) l.
Proof. intros ->. unfold zlen. rewrite Nat2Z.id, drop_all. apply not_elem_of_nil. Qed.

Lemma head_min (l : list Z) k v w : StronglySorted Z.lt l -> 0 <= k -> l !! Z.to_nat k = Some v ->
  w ∈ drop (Z.to_nat k) l -> v <= w.
Proof. intros Hl Hk Hv Hw. destruct (drop_head l k v w Hl Hk Hv Hw) as [->|[? _]]; lia. Qed.

Lemma pget_holds l zs k : holds l zs -> 0 <= k < zlen zs ->
  exists v, pget (pa_data l) k = Ret v /\ zs !! Z.to_nat k = Some v.
Proof.
  intros (Hok & He & _) Hk. destruct (aget_total zs k Hk) as (v & Hv & _).
  exists v. split; [|done]. apply pget_elems; [done|lia|by rewrite He].
Qed.

(** The side conditions of [merge_take]. *)
Ltac merge_side :=
  try (first
    [ done | lia | by left | by right
    | left; split; [done|done]
    | right; split; [done|split; [done|lia]]
    | let w := fresh in let Hw := fresh in intros _ w Hw;
      first [ match goal with H : forall w, w ∈ _ -> _ <= w |- _ => specialize (H w Hw); lia end
            | by apply drop_end in Hw ] ]).

Lemma merge_step_ok n i st : n = zlen ys + zlen xs -> 0 <= i < n -> merge_inv n i st ->
  (exists st', merge_step d s i st = Ret (inl st') /\ merge_inv n (i + 1) st') \/
  (exists r, merge_step d s i st = Ret (inr r) /\ fst r = i /\ merge_inv n i (snd r, zlen ys, zlen xs)).
Proof using Hd Hs.
  intros Hn Hi Hinv. destruct st as [[new si] di]. pose proof Hinv as (b & -> & Hb & Hsi & Hdi & Hle & _).
  pose proof Hd as (_ & _ & Hxs). pose proof Hs as (_ & _ & Hys).
  unfold merge_step. rewrite (holds_size _ _ Hd), (holds_size _ _ Hs).
  destruct (Z.eqb_spec si (zlen ys)) as [->|Hns], (Z.eqb_spec di (zlen xs)) as [->|Hnd]; cbn [andb].
  - right. eexists. split; [done|]. done.
  - left. destruct (pget_holds d xs di Hd ltac:(lia)) as (v & -> & Hv). cbn [rbind].
    pose proof (in_drop xs di v Hv).
    destruct (merge_take n i b (zlen ys) di (zlen ys) (di + 1) v) as (b' & -> & Hinv');
      merge_side; cbn [rbind]; eauto.
  - left. destruct (pget_holds s ys si Hs ltac:(lia)) as (v & -> & Hv). cbn [rbind].
    pose proof (in_drop ys si v Hv).
    destruct (merge_take n i b si (zlen xs) (si + 1) (zlen xs) v) as (b' & -> & Hinv');
      merge_side; cbn [rbind]; eauto.
  - left. destruct (pget_holds s ys si Hs ltac:(lia)) as (v & -> & Hv).
    destruct (pget_holds d xs di Hd ltac:(lia)) as (u & -> & Hu). cbn [rbind].
    assert (forall w, w ∈ drop (Z.to_nat si) ys -> v <= w) as Hminv by (intros; eapply (head_min ys si); done || lia).
    assert (forall w, w ∈ drop (Z.to_nat di) xs -> u <= w) as Hminu by (intros; eapply (head_min xs di); done || lia).
    pose proof (in_drop ys si v Hv). pose proof (in_drop xs di u Hu).
    destruct (Z.ltb_spec v u) as [Hvu|Hvu].
    + destruct (merge_take n i b si di (si + 1) di v) as (b' & -> & Hinv'); merge_side; cbn [rbind]; eauto.
    + destruct (Z.eqb_spec v u) as [->|Hne].
      * destruct (merge_take n i b si di (si + 1) (di + 1) u) as (b' & -> & Hinv'); merge_side; cbn [rbind]; eauto.
      * destruct (merge_take n i b si di si (di + 1) u) as (b' & -> & Hinv'); merge_side; cbn [rbind]; eauto.
Qed.

Lemma merge_inv_final n i b : n < 2 ^ 31 -> 0 <= i <= n -> merge_inv n i (Some b, zlen ys, zlen xs) ->
  let l := {| pa_size := i; pa_memsize := n; pa_data := Some b |} in
  exists zs, holds l zs /\ list_to_set zs =@{gset Z} list_to_set xs ∪ list_to_set ys.
Proof.
  intros Hn Hi (b' & [= <-] & Hb & _ & _ & _ & Hsort & Hset & _). exists (take (Z.to_nat i) b).
  split.
  - split; [|done]. split; [cbn; lia|]. split; [done|]. done.
  - apply set_eq. intros z. rewrite elem_of_union, !elem_of_list_to_set, Hset.
    unfold zlen. rewrite !Nat2Z.id, !firstn_all. tauto.
Qed.

(** Merging gives the union of the two arrays. *)
Lemma pdb_array_merge_ok : zlen xs + zlen ys < 2 ^ 31 ->
  exists l zs, pdb_array_merge d s = Ret l /\ holds l zs /\ zlen zs <= zlen xs + zlen ys /\
    list_to_set zs =@{gset Z} list_to_set xs ∪ list_to_set ys.
Proof using All.
  intros Hlen. unfold pdb_array_merge. rewrite (holds_size _ _ Hd), (holds_size _ _ Hs).
  pose proof (zlen_nonneg xs). pose proof (zlen_nonneg ys). rewrite i32_ok by lia. cbn [rbind].
  set (n := zlen ys + zlen xs) in *. rewrite malloc_ints_ok by lia.
  rewrite bool_decide_eq_true_2 by eauto. cbn [cassert rbind].
  destruct (for_range_rule (merge_inv n) (fun i r => fst r = i /\ merge_inv n i (snd r, zlen ys, zlen xs)) 0 n
    (merge_step d s) (Some (replicate (Z.to_nat n) junk), 0, 0))
    as [([[new si] di] & -> & Hinv)|(k & [i new] & Hk & -> & Hki & Hinv)]; try done; try lia.
  - exists (replicate (Z.to_nat n) junk). split; [done|]. unfold zlen at 1. rewrite length_replicate.
    change (Z.to_nat 0) with 0%nat. rewrite !take_0.
    repeat split; try lia; [constructor|by left|by intros [?|?]|].
    intros z w Hz. by apply not_elem_of_nil in Hz.
  - intros k st Hk Hst. by apply merge_step_ok.
  - cbn [rbind]. replace (Z.max 0 n) with n by lia.
    pose proof Hinv as (b & -> & Hb & Hsi & Hdi & Hle & _).
    assert (si = zlen ys) as -> by lia. assert (di = zlen xs) as -> by lia.
    destruct (merge_inv_final n n b ltac:(lia) ltac:(lia) Hinv) as (zs & Hz & Hset).
    eexists _, zs. split; [done|]. split; [done|]. split; [|done].
    rewrite <- (holds_size _ _ Hz). cbn. lia.
  - cbn in Hki. subst i. cbn [rbind snd] in *. pose proof Hinv as (b & -> & _).
    destruct (merge_inv_final n k b ltac:(lia) ltac:(lia) Hinv) as (zs & Hz & Hset).
    eexists _, zs. split; [done|]. split; [done|]. split; [|done].
    rewrite <- (holds_size _ _ Hz). cbn. lia.
Qed.
End merge.

(** ** The packed form *)

(** A count and the ids, as 32-bit words in network order. *)
Definition array_bytes (xs : list Z) : list Z := be32 (zlen xs) ++ concat (be32 <$> xs).

Lemma zlen_words (xs : list Z) : zlen (concat (be32 <$> xs)) = 4 * zlen xs.
Proof. induction xs as [|x xs IH]; [done|]. cbn [fmap list_fmap concat]. rewrite zlen_app, IH, zlen_cons. unfold zlen at 1. cbn. lia. Qed.

Lemma zlen_array_bytes xs : zlen (array_bytes xs) = 4 * (zlen xs + 1).
Proof. unfold array_bytes. rewrite zlen_app, zlen_words. unfold zlen at 1. cbn. lia. Qed.

Lemma words_snoc (xs : list Z) k v : 0 <= k -> xs !! Z.to_nat k = Some v ->
  concat (be32 <$> take (Z.to_nat (k + 1)) xs) = concat (be32 <$> take (Z.to_nat k) xs) ++ be32 v.
Proof.
  intros Hk Hv. replace (Z.to_nat (k + 1)) with (S (Z.to_nat k)) by lia.
  rewrite (take_S_r _ _ v) by done. rewrite fmap_app, concat_app. cbn. done.
Qed.

Lemma pdb_array_pack_ok l xs m o : holds l xs -> zlen xs < 2 ^ 31 - 1 -> 0 <= o ->
  o + 4 * (zlen xs + 1) <= zlen m ->
  pdb_array_pack m o l = Ret (putbs m o (array_bytes xs), zlen xs + 1).
Proof.
  intros Hl Hb Ho Hm. unfold pdb_array_pack. rewrite (holds_size _ _ Hl). pose proof (zlen_nonneg xs).
  rewrite st32_ok by lia. cbn [rbind].
  destruct (forZ_total (fun k m' => m' = putbs m o (be32 (zlen xs) ++ concat (be32 <$> take (Z.to_nat k) xs)))
    0 (zlen xs) (fun i m => let* v := pget (pa_data l) i in st32 m (o + 4 * (i + 1)) v)
    (putbs m o (be32 (zlen xs)))) as (m' & -> & ->); [lia| | |].
  - cbn. done.
  - intros k m' Hk ->. destruct (pget_holds l xs k Hl Hk) as (v & -> & Hv). cbn [rbind].
    set (a := be32 (zlen xs) ++ concat (be32 <$> take (Z.to_nat k) xs)).
    assert (zlen a = 4 * (k + 1)) as Ha.
    { unfold a. rewrite zlen_app, zlen_words. unfold zlen in *. cbn [length be32]. rewrite length_take. lia. }
    rewrite st32_ok by (rewrite ?zlen_putbs; lia). eexists. split; [done|].
    rewrite <- Ha, putbs_putbs_app by (rewrite ?Ha; change (zlen (be32 v)) with 4; lia).
    unfold a. rewrite <- app_assoc, words_snoc with (v := v) by (done || lia). done.
  - cbn [rbind]. rewrite i32_ok by lia. cbn [rbind]. unfold zlen at 2.
    rewrite Nat2Z.id, firstn_all. done.
Qed.

Lemma getb_word (ws : list Z) k v j : 0 <= k -> ws !! Z.to_nat k = Some v -> 0 <= j < 4 ->
  getb (concat (be32 <$> ws)) (4 * k + j) = getb (be32 v) j.
Proof.
  intros Hk Hv Hj. rewrite <- (take_drop_middle ws _ _ Hv) at 1.
  rewrite fmap_app, concat_app. unfold getb.
  assert (zlen (concat (be32 <$> take (Z.to_nat k) ws)) = 4 * k) as Hz.
  { rewrite zlen_words. apply lookup_lt_Some in Hv. unfold zlen. rewrite length_take. lia. }
  rewrite lookup_app_r by (unfold zlen in Hz; lia). cbn [fmap list_fmap concat].
  rewrite lookup_app_l by (unfold zlen in Hz; cbn; lia). do 2 f_equal. unfold zlen in Hz. lia.
Qed.

Lemma get32_mem m o v : mem_at m o (be32 v) -> 0 <= v < 2 ^ 32 -> ld32 m o = Ret v.
Proof.
  intros (Ho & Hl & H) Hv. unfold zlen at 1 in Hl. cbn in Hl. rewrite ld32_ok by lia. f_equal. unfold get32.
  assert (forall k, 0 <= k < 4 -> getb m (o + k) = getb (be32 v) k) as Hk by (intros; apply H; unfold zlen; cbn; lia).
  rewrite <- (Z.add_0_r o) at 1. rewrite !Hk by lia. now apply be32_value.
Qed.

(** A signed word as it is stored. *)
Lemma ld_s32 m o v : mem_at m o (be32 v) -> - 2 ^ 31 <= v < 2 ^ 31 ->
  exists u, ld32 m o = Ret u /\ s32 u = v.
Proof.
  intros Hm Hv. exists (u32 v). split.
  - apply get32_mem; [|apply uwrap_bound; lia].
    assert (be32 (u32 v) = be32 v) as ->; [|done]. unfold be32, uwrap.
    change (2 ^ 32) with 4294967296. change (2 ^ 24) with 16777216. change (2 ^ 16) with 65536.
    change (2 ^ 8) with 256. f_equal; [zdm|f_equal; [zdm|f_equal; [zdm|f_equal; zdm]]].
  - rewrite <- (swrap_small 32 v) at 2 by lia. unfold swrap, uwrap. by rewrite Zplus_mod_idemp_l.
Qed.

Lemma pdb_array_unpack_ok `{AllocOk} m o xs : mem_at m o (array_bytes xs) ->
  StronglySorted Z.lt xs -> Forall int32 xs -> zlen xs < 2 ^ 31 - 1 ->
  exists l, pdb_array_unpack m o = Ret (l, zlen xs + 1) /\ holds l xs.
Proof.
  intros Hm Hs Hi Hb. unfold pdb_array_unpack. pose proof (zlen_nonneg xs).
  unfold array_bytes in Hm. apply mem_at_app in Hm as [Hm0 Hm1].
  destruct (ld_s32 m o (zlen xs) Hm0 ltac:(lia)) as (u & -> & Hu). cbn [rbind].
  cbv zeta. rewrite Hu. clear u Hu.
  set (p0 := if zlen xs >? 0 then malloc_ints (zlen xs) else None).
  assert (exists b0, (zlen xs > 0 -> p0 = Some b0) /\ zlen (default [] p0) = zlen xs) as (b0 & Hp0 & Hz0).
  { unfold p0. destruct (Z.gtb_spec (zlen xs) 0).
    - rewrite malloc_ints_ok by lia. eexists. split; [done|]. cbn. unfold zlen. rewrite length_replicate. lia.
    - exists []. split; [lia|]. cbn. rewrite zlen_nil. lia. }
  destruct (forZ_total (fun k p => zlen (default [] p) = zlen xs /\ (zlen xs > 0 -> is_Some p) /\
      take (Z.to_nat k) (default [] p) = take (Z.to_nat k) xs) 0 (zlen xs)
    (fun i p => let* v := ld32 m (o + 4 * (i + 1)) in pset p i (s32 v)) p0) as (p & -> & Hz & Hp & Htk); [lia| | |].
  - split; [done|]. split; [|done]. intros Hx. rewrite (Hp0 Hx). eauto.
  - intros k p Hk (Hz & Hp & Htk). destruct (Hp ltac:(lia)) as [b ->]. cbn in Hz, Htk.
    destruct (aget_total xs k Hk) as (v & Hv & _).
    destruct (ld_s32 m (o + 4 * (k + 1)) v) as (w & -> & Hw).
    + split; [destruct Hm0; lia|]. destruct Hm1 as (Ho & Hl & Hbytes). rewrite zlen_words in *.
      replace (zlen (be32 (zlen xs))) with 4 in * by (unfold zlen; cbn; lia).
      replace (zlen (be32 v)) with 4 by (unfold zlen; cbn; lia). split; [lia|]. intros j Hj.
      rewrite <- (getb_word xs k v) by (done || lia). rewrite <- Hbytes by lia. f_equal. lia.
    + rewrite Forall_lookup in Hi. exact (Hi _ _ Hv).
    + cbn [rbind pset]. rewrite Hw, aset_ok by lia. cbn [rbind]. eexists. split; [done|]. cbn.
      split; [by rewrite zlen_insert|]. split; [eauto|].
      replace (Z.to_nat (k + 1)) with (S (Z.to_nat k)) by lia.
      rewrite (take_S_r _ _ v) by (apply list_lookup_insert_eq; unfold zlen in *; lia).
      rewrite take_insert_ge by lia. rewrite Htk. symmetry. by apply take_S_r.
  - cbn [rbind]. rewrite i32_ok by lia. cbn [rbind]. eexists. split; [done|]. repeat split; cbn; try lia; try done.
    unfold elems. cbn. rewrite Htk. unfold zlen. by rewrite Nat2Z.id, firstn_all.
Qed.

(** ** Iteration *)

(** A loop over a list that threads the state. *)
Fixpoint foldM {A St} (body : A -> St -> res St) (xs : list A) (s : St) : res St :=
  match xs with
  | [] => Ret s
  | x :: xs => let* s := body x s in foldM body xs s
  end.

Lemma pdb_array_next_ok l xs k : holds l xs -> zlen xs < 2 ^ 31 - 1 -> 0 <= k < zlen xs ->
  pdb_array_next l k = Ret (default 0 (xs !! Z.to_nat (k + 1)), k + 1).
Proof.
  intros Hl Hb Hk. unfold pdb_array_next. rewrite i32_ok by lia. cbn [rbind]. rewrite (holds_size _ _ Hl).
  destruct (Z.leb_spec (zlen xs) (k + 1)) as [Hle|Hlt].
  - by rewrite lookup_ge_None_2 by (unfold zlen in *; lia).
  - destruct (pget_holds l xs (k + 1) Hl ltac:(lia)) as (u & -> & Hu). by rewrite Hu.
Qed.

Lemma for_each_loop {St} l xs (body : Z -> St -> res St) fuel k v s : holds l xs -> 0 ∉ xs ->
  zlen xs < 2 ^ 31 - 1 -> 0 <= k <= zlen xs -> v = default 0 (xs !! Z.to_nat k) ->
  (Z.to_nat (zlen xs - k) < fuel)%nat ->
  while_loop fuel
    (fun '(v, off, s) =>
       if v =? 0 then Ret (inr s)
       else
         let* s := body v s in
         let* (v, off) := pdb_array_next l off in
         Ret (inl (v, off, s))) (v, k, s) = foldM body (drop (Z.to_nat k) xs) s.
Proof.
  intros Hl H0 Hb. revert k v s. induction fuel as [|fuel IH]; intros k v s Hk Hv Hf; [lia|].
  cbn [while_loop]. destruct (decide (k = zlen xs)) as [->|Hne].
  - assert (xs !! Z.to_nat (zlen xs) = None) as E by (apply lookup_ge_None_2; unfold zlen; lia).
    rewrite E in Hv. cbn in Hv. subst v. cbn. unfold zlen. by rewrite Nat2Z.id, drop_all.
  - destruct (aget_total xs k ltac:(lia)) as (w & Hw & _). rewrite Hw in Hv. cbn in Hv. subst v.
    destruct (Z.eqb_spec w 0) as [->|_]; [by apply list_elem_of_lookup_2 in Hw|].
    rewrite (drop_S _ w) by done. cbn [foldM]. destruct (body w s) as [s'|e]; [|done]. cbn [rbind].
    rewrite (pdb_array_next_ok l xs k) by (done || lia). cbn [rbind].
    replace (S (Z.to_nat k)) with (Z.to_nat (k + 1)) by lia. apply IH; done || lia.
Qed.

(** The loop visits the entries in order; the ids are never 0. *)
Lemma for_each_fold {St} l xs (body : Z -> St -> res St) s : holds l xs -> 0 ∉ xs ->
  zlen xs < 2 ^ 31 - 1 -> for_each l body s = foldM body xs s.
Proof.
  intros Hl H0 Hb. unfold for_each, pdb_array_head. pose proof (zlen_nonneg xs).
  rewrite (holds_size _ _ Hl). destruct (Z.eqb_spec (zlen xs) 0) as [E|E].
  - destruct xs; [|rewrite zlen_cons in E; pose proof (zlen_nonneg xs); lia]. done.
  - destruct (pget_holds l xs 0 Hl ltac:(lia)) as (u & -> & Hu). cbn [rbind].
    rewrite (for_each_loop l xs) by (first [done | lia | by rewrite Hu]). done.
Qed.
End PdbArray.
