(* ===== verification/PdbPack.v ===== *)
(** * Records of the protection database

    Model of coda-src/al/pdbpack.c: the profile of a user or a group
    ([PDB_profile] of pdb.h) and the byte string it is stored as.  A profile
    survives [pdb_pack] followed by [pdb_unpack]; [pdb_unpack] trusts the
    lengths it reads. *)
From Stdlib Require Import ZArith Lia Sorting.Sorted.
From stdpp Require Import base list numbers gmap.
From S2P Require Import Prelude.
From S2P Require Import Text.
From S2P Require Import PdbArray.
Import PdbArray.

Module PdbPack.

(** [PDB_profile]; a name is a C string, [None] for NULL. *)
Record PDB_profile := {
  p_id : Z;
  p_name : option (list Z);
  p_owner_id : Z;
  p_owner_name : option (list Z);
  p_member_of : pdb_array;
  p_cps : pdb_array;
  p_groups_or_members : pdb_array
}.

Definition set_id (r : PDB_profile) (i : Z) : PDB_profile :=
  {| p_id := i; p_name := p_name r; p_owner_id := p_owner_id r; p_owner_name := p_owner_name r;
     p_member_of := p_member_of r; p_cps := p_cps r; p_groups_or_members := p_groups_or_members r |}.

Section ops.
Context `{Alloc}.

(** A string with its length in front, at word [off]; returns the next free word. *)
Definition pack_name (tmp : list Z) (off : Z) (name : option (list Z)) : res (list Z * Z) :=
  match name with
  | Some s =>
      let len := zlen s in
      let* tmp := st32 tmp (4 * off) len in
      let* tmp := stbytes tmp (4 * (off + 1)) s in
      Ret (tmp, off + 1 + len)
  | None => let* tmp := st32 tmp (4 * off) 0 in Ret (tmp, off + 1)
  end.

(** [pdb_pack(r, &data, &size)]: the object [data]; [size] is its length. *)
Definition pdb_pack (r : PDB_profile) : res (list Z) :=
  let* tmpsize := i32 (2 + 2 + (pa_size (p_member_of r) + 1) + (pa_size (p_cps r) + 1)
                       + (pa_size (p_groups_or_members r) + 1)
                       + zlen (default [] (p_name r)) + zlen (default [] (p_owner_name r))) in
  cassert ((0 <=? tmpsize) && can_alloc (4 * tmpsize)) ;;;
  let tmp := replicate (Z.to_nat (4 * tmpsize)) (u8 junk) in
  let* tmp := st32 tmp 0 (p_id r) in
  let* (tmp, off) := pack_name tmp 1 (p_name r) in
  let* tmp := st32 tmp (4 * off) (p_owner_id r) in
  let* (tmp, off) := pack_name tmp (off + 1) (p_owner_name r) in
  let* (tmp, n) := pdb_array_pack tmp (4 * off) (p_member_of r) in
  let off := off + n in
  let* (tmp, n) := pdb_array_pack tmp (4 * off) (p_cps r) in
  let off := off + n in
  let* (tmp, n) := pdb_array_pack tmp (4 * off) (p_groups_or_members r) in
  let off := off + n in
  cassert (off =? tmpsize) ;;;
  Ret tmp.

(** [s = malloc(len + 1); memcpy(s, &tmp[off], len); s[len] = 0]: the C string. *)
Definition unpack_name (data : list Z) (off len : Z) : res (list Z) :=
  if can_alloc (u32 (len + 1)) && (len <? u32 (len + 1)) && inbb data (4 * off) len
  then Ret (default [] (cstr_of (slice data (4 * off) (4 * off + len) ++ [0])))
  else Stop CUndef.

(** [pdb_unpack(r, data, size)]: the new value of [*r]; [size] is the length of [data]. *)
Definition pdb_unpack (r : PDB_profile) (data : list Z) : res PDB_profile :=
  if zlen data =? 0 then Ret (set_id r 0)
  else
    let* v := ld32 data 0 in
    let* len := ld32 data 4 in
    let* name := unpack_name data 2 len in
    let off := u32 (2 + len) in
    let* o := ld32 data (4 * off) in
    let off := u32 (off + 1) in
    let* len := ld32 data (4 * off) in
    let off := u32 (off + 1) in
    let* owner_name := unpack_name data off len in
    let off := u32 (off + len) in
    let* (mo, n) := pdb_array_unpack data (4 * off) in
    let off := u32 (off + n) in
    let* (cp, n) := pdb_array_unpack data (4 * off) in
    let off := u32 (off + n) in
    let* (gm, n) := pdb_array_unpack data (4 * off) in
    let off := u32 (off + n) in
    cassert (off <=? zlen data) ;;;
    Ret {| p_id := s32 v; p_name := Some name; p_owner_id := s32 o; p_owner_name := Some owner_name;
           p_member_of := mo; p_cps := cp; p_groups_or_members := gm |}.

End ops.

(** ** What a profile says *)

(** The abstract record of a principal. *)
Record principal := {
  a_id : Z;
  a_name : list Z;
  a_owner : Z;
  a_owner_name : list Z;
  a_groups : gset Z;       (* member_of *)
  a_cps : gset Z;          (* cps *)
  a_members : gset Z       (* groups_or_members *)
}.

(** The array [l] holds the set [s]. *)
Definition array_rep (l : pdb_array) (s : gset Z) : Prop :=
  exists xs, holds l xs /\ list_to_set xs = s.

(** The profile [r] represents the principal [a]. *)
Definition profile_rep (r : PDB_profile) (a : principal) : Prop :=
  p_id r = a_id a /\ p_name r = Some (a_name a) /\
  p_owner_id r = a_owner a /\ default [] (p_owner_name r) = a_owner_name a /\
  array_rep (p_member_of r) (a_groups a) /\ array_rep (p_cps r) (a_cps a) /\
  array_rep (p_groups_or_members r) (a_members a).

(** Bounds on names and sets, far below what the 32-bit offsets of the packed form allow. *)
Definition MAXIDS : Z := 2 ^ 20.
Definition ids_ok (s : gset Z) : Prop :=
  Z.of_nat (size s) <= MAXIDS /\ forall x, x ∈ s -> int32 x /\ x <> 0.
Definition name_ok (s : list Z) : Prop := is_cstring s /\ zlen s < MAXIDS.
Record good (a : principal) : Prop := {
  good_id : int32 (a_id a);
  good_name : name_ok (a_name a);
  good_named : a_name a <> [];
  good_owner : int32 (a_owner a);
  good_owner_name : name_ok (a_owner_name a);
  good_groups : ids_ok (a_groups a);
  good_cps : ids_ok (a_cps a);
  good_members : ids_ok (a_members a)
}.

Lemma lists_len xs (s : gset Z) : StronglySorted Z.lt xs -> list_to_set xs = s -> zlen xs = Z.of_nat (size s).
Proof.
  intros Hs <-. unfold zlen. rewrite size_list_to_set; [done|].
  clear -Hs. induction Hs as [|x xs Hs IH Hf]; constructor; [|done].
  intros Hx. rewrite Forall_forall in Hf. specialize (Hf x Hx). lia.
Qed.

(** ** The packed form *)
Definition name_bytes (s : list Z) : list Z := be32 (zlen s) ++ s.

(** The ascending list of ids of a set. *)
Definition lists (xs : list Z) (s : gset Z) : Prop :=
  StronglySorted Z.lt xs /\ list_to_set xs = s.

Lemma array_rep_lists l s : array_rep l s -> exists xs, holds l xs /\ lists xs s.
Proof. intros (xs & Hl & <-). exists xs. split; [done|]. split; [by apply Hl|done]. Qed.

Lemma lists_ok xs s : lists xs s -> ids_ok s -> zlen xs <= MAXIDS /\ Forall int32 xs /\ 0 ∉ xs.
Proof.
  intros [Hs <-] [Hz Hi]. split; [by rewrite (lists_len xs _ Hs eq_refl)|]. split.
  - rewrite Forall_forall. intros x Hx. apply Hi. by apply elem_of_list_to_set.
  - intros H0. apply (elem_of_list_to_set (C := gset Z)) in H0. by apply Hi in H0 as [_ ?].
Qed.

(** The bytes [data] are a packed form of [a]: the fields at their words. *)
Definition packed (a : principal) (data : list Z) : Prop :=
  exists mo cp gm, lists mo (a_groups a) /\ lists cp (a_cps a) /\ lists gm (a_members a) /\
  let o1 := 2 + zlen (a_name a) in
  let o2 := o1 + 2 + zlen (a_owner_name a) in
  let o3 := o2 + (zlen mo + 1) in
  let o4 := o3 + (zlen cp + 1) in
  mem_at data 0 (be32 (a_id a)) /\ mem_at data 4 (name_bytes (a_name a)) /\
  mem_at data (4 * o1) (be32 (a_owner a)) /\ mem_at data (4 * (o1 + 1)) (name_bytes (a_owner_name a)) /\
  mem_at data (4 * o2) (array_bytes mo) /\ mem_at data (4 * o3) (array_bytes cp) /\
  mem_at data (4 * o4) (array_bytes gm) /\ zlen data = 4 * (o4 + (zlen gm + 1)).

(** ** Arrays as sets *)
Lemma lists_len_rep l (s : gset Z) xs : holds l xs -> list_to_set xs = s -> zlen xs = Z.of_nat (size s).
Proof. intros (_ & _ & Hs). by apply lists_len. Qed.

Lemma rep_init : array_rep pdb_array_init ∅.
Proof. exists []. split; [apply holds_init|done]. Qed.

Lemma rep_search l (s : gset Z) x : array_rep l s -> Z.of_nat (size s) <= MAXIDS ->
  exists n, pdb_array_search l x = Ret n /\ (n = -1 <-> x ∉ s).
Proof.
  intros (xs & Hl & <-) Hz. rewrite <- (lists_len_rep l _ xs Hl eq_refl) in Hz. unfold MAXIDS in Hz.
  destruct (pdb_array_search_ok l xs x Hl ltac:(lia)) as (n & E & Hn). exists n. split; [done|].
  rewrite elem_of_list_to_set. destruct Hn as [[-> Hx]|[Hge Hx]]; [done|].
  split; [lia|]. intros Hni. by apply list_elem_of_lookup_2 in Hx.
Qed.

Section sets.
Context `{AllocOk}.

Lemma rep_add l (s : gset Z) x : array_rep l s -> Z.of_nat (size s) <= MAXIDS ->
  exists l', pdb_array_add l x = Ret l' /\ array_rep l' ({[x]} ∪ s).
Proof.
  intros (xs & Hl & <-) Hz. rewrite <- (lists_len_rep l _ xs Hl eq_refl) in Hz. unfold MAXIDS in Hz.
  destruct (pdb_array_add_ok l xs x Hl ltac:(lia)) as (l' & ys & E & Hl' & Hset). exists l'. split; [done|].
  by exists ys.
Qed.

Lemma rep_del l (s : gset Z) x : array_rep l s -> Z.of_nat (size s) <= MAXIDS ->
  exists l', pdb_array_del l x = Ret l' /\ array_rep l' (s ∖ {[x]}).
Proof.
  intros (xs & Hl & <-) Hz. rewrite <- (lists_len_rep l _ xs Hl eq_refl) in Hz. unfold MAXIDS in Hz.
  destruct (pdb_array_del_ok l xs x Hl ltac:(lia)) as (l' & ys & E & Hl' & Hset). exists l'. split; [done|].
  by exists ys.
Qed.

Lemma rep_merge d e (s t : gset Z) : array_rep d s -> array_rep e t ->
  Z.of_nat (size s) <= MAXIDS -> Z.of_nat (size t) <= MAXIDS ->
  exists l, pdb_array_merge d e = Ret l /\ array_rep l (s ∪ t).
Proof.
  intros (xs & Hd & <-) (ys & He & <-) Hs Ht.
  rewrite <- (lists_len_rep d _ xs Hd eq_refl) in Hs. rewrite <- (lists_len_rep e _ ys He eq_refl) in Ht.
  unfold MAXIDS in *. destruct (pdb_array_merge_ok d e xs ys Hd He ltac:(lia)) as (l & zs & E & Hl & _ & Hset).
  exists l. split; [done|]. by exists zs.
Qed.
End sets.

(** ** Stores *)
Lemma zlen_be32 v : zlen (be32 v) = 4.
Proof. reflexivity. Qed.

(** A store at [lo] that leaves what is in front of it alone. *)
Definition wrote (m m' : list Z) (lo : Z) (bs : list Z) : Prop :=
  zlen m' = zlen m /\ mem_at m' lo bs /\ agree m' m 0 lo.

Lemma wrote_putbs m lo bs : 0 <= lo -> lo + zlen bs <= zlen m -> wrote m (putbs m lo bs) lo bs.
Proof.
  intros. split; [by apply zlen_putbs|]. split; [by apply mem_at_putbs|]. apply agree_putbs; lia.
Qed.

Lemma wrote_keeps m m' lo bs o b : wrote m m' lo bs -> mem_at m o b -> o + zlen b <= lo -> mem_at m' o b.
Proof.
  intros (Hz & _ & Ha) Hm Hle. eapply mem_at_agree; [done|lia|].
  eapply agree_sub; [done|destruct Hm; lia|lia].
Qed.

Lemma st32_wrote m o v : 0 <= o -> o + 4 <= zlen m -> exists m', st32 m o v = Ret m' /\ wrote m m' o (be32 v).
Proof. intros. rewrite st32_ok by lia. eexists. split; [done|]. by apply wrote_putbs. Qed.

Lemma array_pack_wrote l xs m o : holds l xs -> zlen xs < 2 ^ 31 - 1 -> 0 <= o ->
  o + 4 * (zlen xs + 1) <= zlen m ->
  exists m', pdb_array_pack m o l = Ret (m', zlen xs + 1) /\ wrote m m' o (array_bytes xs).
Proof.
  intros. rewrite (pdb_array_pack_ok l xs) by done. eexists. split; [done|].
  apply wrote_putbs; rewrite ?zlen_array_bytes; lia.
Qed.

Lemma pack_name_wrote m off n s : default [] n = s -> 0 <= off -> 4 * (off + 1 + zlen s) <= zlen m ->
  exists m', pack_name m off n = Ret (m', off + 1 + zlen s) /\ wrote m m' (4 * off) (name_bytes s).
Proof.
  intros <- Ho Hm. pose proof (zlen_nonneg (default [] n)). unfold pack_name, name_bytes.
  destruct n as [s|].
  - change (default [] (Some s)) with s in *. rewrite st32_ok by lia. cbn [rbind].
    rewrite stbytes_ok by (rewrite ?zlen_putbs; rewrite ?zlen_be32; lia). cbn [rbind].
    eexists. split; [done|]. replace (4 * (off + 1)) with (4 * off + zlen (be32 (zlen s))) by (rewrite ?zlen_be32; lia).
    rewrite putbs_putbs_app by (rewrite ?zlen_be32; lia).
    apply wrote_putbs; rewrite ?zlen_app; rewrite ?zlen_be32; lia.
  - change (default [] (@None (list Z))) with (@nil Z) in *. rewrite zlen_nil in *.
    rewrite st32_ok by lia. cbn [rbind]. eexists. split; [by rewrite Z.add_0_r|].
    rewrite app_nil_r. apply wrote_putbs; rewrite ?zlen_be32; lia.
Qed.

Lemma zlen_name_bytes s : zlen (name_bytes s) = 4 + zlen s.
Proof. unfold name_bytes. by rewrite zlen_app. Qed.

(** One store of a sequence, and reading back what the earlier ones wrote. *)
Ltac wstep lem :=
  let m := fresh "m" in let W := fresh "W" in
  destruct lem as (m & -> & W); [lia..|]; cbn [rbind]; pose proof (proj1 W).
Ltac keep :=
  first [ match goal with W : wrote _ ?m _ _ |- mem_at ?m _ _ => exact (proj1 (proj2 W)) end
        | eapply wrote_keeps;
          [ eassumption | keep | rewrite ?zlen_be32, ?zlen_name_bytes, ?zlen_array_bytes; lia ] ].

Section roundtrip.
Context `{AllocOk}.

(** Reading back a length and a name. *)
Lemma unpack_name_ok d off s : mem_at d (4 * off) (name_bytes s) -> name_ok s ->
  ld32 d (4 * off) = Ret (zlen s) /\ unpack_name d (off + 1) (zlen s) = Ret s.
Proof.
  intros Hm [Hs Hz]. unfold name_bytes in Hm. apply mem_at_app in Hm as [H1 H2].
  rewrite zlen_be32 in H2. pose proof (zlen_nonneg s). unfold MAXIDS in Hz. split.
  - apply get32_mem; [done|lia].
  - unfold unpack_name. replace (4 * (off + 1)) with (4 * off + 4) by lia.
    rewrite uwrap_small by lia. rewrite alloc_ok by lia. destruct (Z.ltb_spec (zlen s) (zlen s + 1)); [|lia].
    pose proof H2 as (Ho & Hl & _). rewrite inbb_true by lia. cbn [andb].
    rewrite (mem_at_slice _ _ _ H2). by rewrite cstr_of_app.
Qed.

Lemma pdb_pack_ok r a : profile_rep r a -> good a -> exists data, pdb_pack r = Ret data /\ packed a data.
Proof.
  intros (Eid & En & Eo & Eon & Hmo & Hcp & Hgm) [Gi [_ Gn] _ Go [_ Gon] Gmo Gcp Ggm].
  assert (default [] (p_name r) = a_name a) as En' by (by rewrite En). clear En. rename En' into En.
  apply array_rep_lists in Hmo as (mo & Hmo & Lmo). apply array_rep_lists in Hcp as (cp & Hcp & Lcp).
  apply array_rep_lists in Hgm as (gm & Hgm & Lgm).
  pose proof (lists_ok _ _ Lmo Gmo) as (Zmo & _). pose proof (lists_ok _ _ Lcp Gcp) as (Zcp & _).
  pose proof (lists_ok _ _ Lgm Ggm) as (Zgm & _). unfold MAXIDS in *.
  pose proof (zlen_nonneg mo). pose proof (zlen_nonneg cp). pose proof (zlen_nonneg gm).
  pose proof (zlen_nonneg (a_name a)). pose proof (zlen_nonneg (a_owner_name a)).
  unfold pdb_pack. rewrite (holds_size _ _ Hmo), (holds_size _ _ Hcp), (holds_size _ _ Hgm), En, Eon, Eid, Eo.
  rewrite i32_ok by lia. cbn [rbind].
  set (n := 2 + 2 + _ + _ + _ + _ + _) in *. destruct (Z.leb_spec 0 n); [|lia].
  rewrite alloc_ok by lia. cbn [andb cassert rbind].
  set (t0 := replicate _ _). assert (zlen t0 = 4 * n) as Z0 by (unfold t0, zlen; rewrite length_replicate; lia).
  clearbody t0.
  wstep (st32_wrote t0 0 (a_id a)). wstep (pack_name_wrote m 1 _ _ En).
  replace (1 + 1 + zlen (a_name a)) with (2 + zlen (a_name a)) by lia. set (o1 := 2 + zlen (a_name a)) in *.
  wstep (st32_wrote m0 (4 * o1) (a_owner a)). wstep (pack_name_wrote m1 (o1 + 1) _ _ Eon).
  replace (o1 + 1 + 1 + zlen (a_owner_name a)) with (o1 + 2 + zlen (a_owner_name a)) by lia.
  set (o2 := o1 + 2 + zlen (a_owner_name a)) in *.
  wstep (array_pack_wrote _ _ m2 (4 * o2) Hmo). set (o3 := o2 + (zlen mo + 1)) in *.
  wstep (array_pack_wrote _ _ m3 (4 * o3) Hcp). set (o4 := o3 + (zlen cp + 1)) in *.
  wstep (array_pack_wrote _ _ m4 (4 * o4) Hgm).
  destruct (Z.eqb_spec (o4 + (zlen gm + 1)) n); [|lia]. cbn [cassert rbind].
  eexists. split; [done|]. exists mo, cp, gm. do 3 (split; [done|]). cbn zeta. fold o1 o2 o3 o4.
  do 7 (split; [keep|]). lia.
Qed.

Lemma pdb_unpack_ok r0 a data : packed a data -> good a ->
  exists r, pdb_unpack r0 data = Ret r /\ profile_rep r a.
Proof.
  intros (mo & cp & gm & Lmo & Lcp & Lgm & M1 & M2 & M3 & M4 & M5 & M6 & M7 & Hz) [Gi Gn _ Go Gon Gmo Gcp Ggm].
  pose proof (lists_ok _ _ Lmo Gmo) as (Zmo & Imo & _). pose proof (lists_ok _ _ Lcp Gcp) as (Zcp & Icp & _).
  pose proof (lists_ok _ _ Lgm Ggm) as (Zgm & Igm & _).
  pose proof (zlen_nonneg mo). pose proof (zlen_nonneg cp). pose proof (zlen_nonneg gm).
  pose proof (zlen_nonneg (a_name a)). pose proof (zlen_nonneg (a_owner_name a)).
  pose proof (proj2 Gn) as Zn. pose proof (proj2 Gon) as Zon. unfold MAXIDS in *.
  unfold pdb_unpack. destruct (Z.eqb_spec (zlen data) 0); [lia|].
  destruct (ld_s32 _ _ _ M1 Gi) as (v & -> & Ev). cbn [rbind].
  destruct (unpack_name_ok data 1 _ M2 Gn) as [E1 E2]. change (4 * 1) with 4 in E1.
  change (1 + 1) with 2 in E2. rewrite E1. cbn [rbind]. rewrite E2. cbn [rbind].
  rewrite (uwrap_small 32 (2 + zlen (a_name a))) by lia. set (o1 := 2 + zlen (a_name a)) in *.
  destruct (ld_s32 _ _ _ M3 Go) as (o & -> & Eo). cbn [rbind]. rewrite (uwrap_small 32 (o1 + 1)) by lia.
  destruct (unpack_name_ok data (o1 + 1) _ M4 Gon) as [E3 E4]. rewrite E3. cbn [rbind].
  rewrite (uwrap_small 32 (o1 + 1 + 1)) by lia. rewrite E4. cbn [rbind].
  replace (o1 + 1 + 1 + zlen (a_owner_name a)) with (o1 + 2 + zlen (a_owner_name a)) by lia.
  set (o2 := o1 + 2 + zlen (a_owner_name a)) in *. rewrite (uwrap_small 32 o2) by lia.
  destruct (pdb_array_unpack_ok data _ mo M5) as (l1 & -> & R1); [apply Lmo|done|lia|]. cbn [rbind].
  set (o3 := o2 + (zlen mo + 1)) in *. rewrite (uwrap_small 32 o3) by lia.
  destruct (pdb_array_unpack_ok data _ cp M6) as (l2 & -> & R2); [apply Lcp|done|lia|]. cbn [rbind].
  set (o4 := o3 + (zlen cp + 1)) in *. rewrite (uwrap_small 32 o4) by lia.
  destruct (pdb_array_unpack_ok data _ gm M7) as (l3 & -> & R3); [apply Lgm|done|lia|]. cbn [rbind].
  rewrite uwrap_small by lia. destruct (Z.leb_spec (o4 + (zlen gm + 1)) (zlen data)); [|lia]. cbn [cassert rbind].
  eexists. split; [done|]. unfold profile_rep, array_rep. cbn. repeat (split; [done|]).
  split; [eexists; split; [exact R1|apply Lmo]|]. split; [eexists; split; [exact R2|apply Lcp]|].
  eexists; split; [exact R3|apply Lgm].
Qed.

End roundtrip.
End PdbPack.
