(* ===== verification/PdbDb.v ===== *)
(** * The store under the protection database

    Model of coda-src/al/pdbdb.c and of the record functions of
    coda-src/al/pdbprofile.c: profiles kept in a key-value store under a key
    made of the id and found by name through a second key.  The store
    (lib-src/rwcdb) is used through the interface [RWCDB].  The proofs about the
    code of the protection database are done on an ideal store, a finite map
    without limits ([RWCDBLaws]); PdbStore carries what they show over to the
    functions of rwcdb.c. *)
From Stdlib Require Import ZArith Lia.
From stdpp Require Import base list numbers gmap.
From S2P Require Import Prelude.
From S2P Require Import Text.
From S2P Require Import PdbArray.
From S2P Require Import PdbPack.
Import PdbArray PdbPack.

(** ** The interface of lib-src/rwcdb

    [db] is a [struct rwcdb] with the file behind it; keys and data are byte
    strings. Each function returns the new state and its result. *)
Class RWCDB (db : Type) := {
  rwcdb_init : db -> Z -> res (db * Z);                       (* mode *)
  rwcdb_free : db -> res (db * Z);
  rwcdb_sync : db -> res (db * Z);
  rwcdb_find : db -> list Z -> res (db * Z);
  rwcdb_datalen : db -> Z;
  rwcdb_datapos : db -> Z;
  rwcdb_read : db -> Z -> Z -> res (db * (Z * list Z));       (* dlen, dpos *)
  rwcdb_insert : db -> list Z -> list Z -> res (db * Z);
  rwcdb_delete : db -> list Z -> res (db * Z)
}.

(** An ideal store: a finite map that takes every key and never gets full. *)
Class RWCDBLaws (db : Type) `{RWCDB db} := {
  rw_ok : db -> Prop;
  contents : db -> gmap (list Z) (list Z);
  find_law d k : rw_ok d ->
    exists d' rc, rwcdb_find d k = Ret (d', rc) /\ rw_ok d' /\ contents d' = contents d /\
      match contents d !! k with
      | Some v => rc = 1 /\ rwcdb_datalen d' = zlen v /\
                  exists d'', rwcdb_read d' (zlen v) (rwcdb_datapos d') = Ret (d'', (0, v)) /\
                    rw_ok d'' /\ contents d'' = contents d
      | None => rc = 0
      end;
  insert_law d k v : rw_ok d -> v <> [] ->
    exists d', rwcdb_insert d k v = Ret (d', 1) /\ rw_ok d' /\ contents d' = <[k := v]> (contents d);
  delete_law d k : rw_ok d ->
    exists d' rc, rwcdb_delete d k = Ret (d', rc) /\ rw_ok d' /\ contents d' = delete k (contents d);
  sync_law d : rw_ok d -> exists d', rwcdb_sync d = Ret (d', 1) /\ rw_ok d' /\ contents d' = contents d
}.

(** A profile on the stack before anything is stored in it. *)
Class Uninit := uninit : PDB_profile.

Module PdbDb.

Definition O_RDONLY : Z := 0.
Definition O_RDWR : Z := 2.
Definition PDB_MAXID_SET : Z := 0.
Definition PDB_MAXID_FORCE : Z := 1.

(** [struct PDB_HANDLE_S] with the flag that tells whether [pdb_handle] is NULL. *)
Record handle (db : Type) := {
  h_main : db;
  h_open : bool;
  h_open_rw : bool;
  h_mutations : Z
}.
Arguments h_main {db}. Arguments h_open {db}. Arguments h_open_rw {db}. Arguments h_mutations {db}.

(** ** Code that works on the database *)
Definition M (db A : Type) : Type := handle db -> res (A * handle db).
Definition mret {db A} (a : A) : M db A := fun h => Ret (a, h).
Definition mbind {db A B} (m : M db A) (f : A -> M db B) : M db B :=
  fun h => let* (a, h) := m h in f a h.
Definition lift {db A} (m : res A) : M db A := fun h => let* a := m in Ret (a, h).
Notation "'do*' x ':=' m 'in' k" := (mbind m (fun x => k))
  (at level 10, x pattern, m at level 100, k at level 200) : c_scope.
Notation "m1 ';*' m2" := (mbind m1 (fun _ => m2)) (at level 199, right associativity) : c_scope.

(** The [pdb_array_head]/[pdb_array_next] loop with a body that works on the
    database and on a local variable. *)
Definition each_acc {db A} (l : pdb_array) (body : Z -> A -> M db A) (a : A) : M db A :=
  fun h => for_each l (fun v '(a, h) => body v a h) (a, h).
Definition each {db} (l : pdb_array) (body : Z -> M db unit) : M db unit :=
  each_acc l (fun v _ => body v) tt.

Section ops.
Context {db : Type} `{RWCDB db, Alloc, Uninit}.
Abbreviation M := (M db).

(** A call of the store. *)
Definition store {A} (f : db -> res (db * A)) : M A :=
  fun h => let* (d, a) := f (h_main h) in
           Ret (a, {| h_main := d; h_open := h_open h; h_open_rw := h_open_rw h; h_mutations := h_mutations h |}).
Definition peek {A} (f : db -> A) : M A := fun h => Ret (f (h_main h), h).
Definition set_flags (o rw : bool) (m : Z) : M unit :=
  fun h => Ret (tt, {| h_main := h_main h; h_open := o; h_open_rw := rw; h_mutations := m |}).

(** [exit(EXIT_FAILURE)] ends the program like a failed assertion. *)
Definition PDB_db_open (mode : Z) : M unit := fun h =>
  (if negb (h_open h) then
     do* rc := store (fun d => rwcdb_init d mode) in
     lift (cassert (rc =? 0)) ;*
     set_flags true (negb (mode =? O_RDONLY)) 0
   else if mode =? O_RDONLY then
     if negb (h_open_rw h) then
       do* rc := store rwcdb_sync in lift (cassert (negb (rc =? -1)))
     else mret tt
   else if negb (h_open_rw h) then
     do* rc := store rwcdb_free in
     lift (cassert (rc =? 1)) ;*
     do* rc := store (fun d => rwcdb_init d mode) in
     lift (cassert (rc =? 0)) ;*
     set_flags true true (h_mutations h)
   else
     do* m := lift (i32 (h_mutations h + 1)) in
     set_flags true true m ;*
     if Z.rem m 128 =? 0 then
       do* rc := store rwcdb_sync in lift (cassert (rc =? 1))
     else mret tt) h.

Definition PDB_db_reopen : M unit :=
  do* rc := store rwcdb_sync in lift (cassert (negb (rc =? -1))).
Definition PDB_db_close : M unit := mret tt.
Definition PDB_db_release : M unit := fun h =>
  (if negb (h_open h) then mret tt
   else do* _ := store rwcdb_free in set_flags false (h_open_rw h) (h_mutations h)) h.

(** The keys: the id in network order, "NAME" and the name, and the empty key. *)
Definition id_key (i : Z) : list Z := be32 i.
Definition malloc_name (name : list Z) : res (list Z) :=
  cassert (can_alloc (4 + zlen name + 1)) ;;; Ret ([78; 65; 77; 69] ++ name).

Definition PDB_db_maxids : M (Z * Z) :=
  do* rc := store (fun d => rwcdb_find d []) in
  if negb (rc =? 1) then mret (0, 0)
  else
    do* dlen := peek rwcdb_datalen in
    do* dpos := peek rwcdb_datapos in
    lift (cassert (dlen =? 8)) ;*
    do* (rc, ids) := store (fun d => rwcdb_read d dlen dpos) in
    lift (cassert (negb (rc =? -1))) ;*
    do* u := lift (ld32 ids 0) in
    do* g := lift (ld32 ids 4) in
    mret (s32 u, s32 g).

Definition PDB_db_update_maxids (uid gid mode : Z) : M unit :=
  lift (cassert ((0 <=? uid) && (gid <=? 0))) ;*
  do* (olduid, oldgid) := PDB_db_maxids in
  lift (cassert ((0 <=? olduid) || (oldgid <=? 0))) ;*
  let u := if (mode =? PDB_MAXID_FORCE) || (uid >? olduid) then uid else olduid in
  let g := if (mode =? PDB_MAXID_FORCE) || (gid <? oldgid) then gid else oldgid in
  do* rc := store (fun d => rwcdb_insert d [] (be32 u ++ be32 g)) in
  lift (cassert (rc =? 1)).

(** [PDB_db_write(h, id, name, data, size)]; [None] is a NULL name. *)
Definition PDB_db_write (i : Z) (name : option (list Z)) (data : list Z) : M unit :=
  match name with
  | None => lift (Stop CAbort)
  | Some name =>
      lift (cassert (negb (i =? 0))) ;*
      do* rc := store (fun d => rwcdb_insert d (id_key i) data) in
      lift (cassert (rc =? 1)) ;*
      do* namekey := lift (malloc_name name) in
      do* rc := store (fun d => rwcdb_insert d namekey (be32 i)) in
      lift (cassert (rc =? 1)) ;*
      if i >? 0 then PDB_db_update_maxids i 0 PDB_MAXID_SET
      else PDB_db_update_maxids 0 i PDB_MAXID_SET
  end.

(** The second half of [PDB_db_read]: the record under the key of an id; empty for none. *)
Definition read_record (key : list Z) : M (list Z) :=
  do* rc := store (fun d => rwcdb_find d key) in
  if negb (rc =? 1) then mret []
  else
    do* dlen := peek rwcdb_datalen in
    if dlen =? 4 then mret []
    else if negb (can_alloc dlen) then mret []
    else
      do* dpos := peek rwcdb_datapos in
      do* (rc, data) := store (fun d => rwcdb_read d dlen dpos) in
      if rc =? -1 then mret [] else mret data.

Definition PDB_db_read (i : Z) (name : option (list Z)) : M (list Z) :=
  match name with
  | None => read_record (id_key i)
  | Some name =>
      do* namekey := lift (malloc_name name) in
      do* rc := store (fun d => rwcdb_find d namekey) in
      if negb (rc =? 1) then mret []
      else
        do* dlen := peek rwcdb_datalen in
        if negb (dlen =? 4) then mret []
        else
          do* dpos := peek rwcdb_datapos in
          do* (rc, realid) := store (fun d => rwcdb_read d dlen dpos) in
          if rc =? -1 then mret [] else read_record realid
  end.

Definition PDB_db_delete_xfer (name : option (list Z)) : M unit :=
  match name with
  | None => mret tt
  | Some name =>
      do* namekey := lift (malloc_name name) in
      do* _ := store (fun d => rwcdb_delete d namekey) in mret tt
  end.

Definition PDB_db_delete (i : Z) (name : option (list Z)) : M unit :=
  do* _ := store (fun d => rwcdb_delete d (id_key i)) in
  PDB_db_delete_xfer name.

(** ** Profiles (pdbprofile.c) *)
Definition PDB_freeProfile (r : PDB_profile) : PDB_profile :=
  if p_id r =? 0 then r
  else {| p_id := 0; p_name := p_name r; p_owner_id := 0; p_owner_name := p_owner_name r;
          p_member_of := pdb_array_free (p_member_of r); p_cps := pdb_array_free (p_cps r);
          p_groups_or_members := pdb_array_free (p_groups_or_members r) |}.

Definition PDB_writeProfile (r : PDB_profile) : M unit :=
  do* data := lift (pdb_pack r) in
  PDB_db_write (p_id r) (p_name r) data.

Definition PDB_readProfile (i : Z) : M PDB_profile :=
  do* data := PDB_db_read i None in
  lift (pdb_unpack uninit data).

Definition PDB_readProfile_byname (name : list Z) : M PDB_profile :=
  do* data := PDB_db_read 0 (Some name) in
  lift (pdb_unpack uninit data).

Definition PDB_deleteProfile (r : PDB_profile) : M unit := PDB_db_delete (p_id r) (p_name r).

(** [PDB_setupdb] after the test for the file. *)
Definition PDB_setupdb (exists_ : bool) : M Z :=
  if exists_ then mret 0
  else
    PDB_db_open O_RDWR ;*
    PDB_db_update_maxids 0 0 PDB_MAXID_SET ;*
    PDB_db_close ;*
    mret 0.

End ops.

(** ** Running code on the database *)

(** [m] returns from [h], with a result and a state that satisfy [Q]. *)
Definition runs {db A} (m : M db A) (h : handle db) (Q : A -> handle db -> Prop) : Prop :=
  exists a h', m h = Ret (a, h') /\ Q a h'.

Section runs.
Context {db : Type}.
Lemma runs_ret {A} (a : A) (h : handle db) (Q : A -> handle db -> Prop) : Q a h -> runs (mret a) h Q.
Proof. intros HQ. by exists a, h. Qed.

Lemma runs_bind {A B} (m : M db A) (f : A -> M db B) h P Q :
  runs m h P -> (forall a h', P a h' -> runs (f a) h' Q) -> runs (mbind m f) h Q.
Proof.
  intros (a & h' & E & HP) Hf. destruct (Hf a h' HP) as (b & h'' & E' & HQ).
  exists b, h''. split; [|done]. unfold mbind. by rewrite E.
Qed.

Lemma runs_lift {A} (m : res A) a (h : handle db) (Q : A -> handle db -> Prop) :
  m = Ret a -> Q a h -> runs (lift m) h Q.
Proof. intros -> HQ. by exists a, h. Qed.

Lemma runs_assert (b : bool) (h : handle db) (Q : unit -> handle db -> Prop) :
  b = true -> Q tt h -> runs (lift (cassert b)) h Q.
Proof. intros -> HQ. by exists tt, h. Qed.

Lemma runs_let {A B} (m : res A) a (f : A -> M db B) h (Q : B -> handle db -> Prop) :
  m = Ret a -> runs (f a) h Q -> runs (mbind (lift m) f) h Q.
Proof. intros -> (b & h' & E & HQ). exists b, h'. done. Qed.

Lemma runs_check {B} (b : bool) (f : unit -> M db B) h (Q : B -> handle db -> Prop) :
  b = true -> runs (f tt) h Q -> runs (mbind (lift (cassert b)) f) h Q.
Proof. intros ->. by apply runs_let. Qed.

Lemma runs_mono {A} (m : M db A) h (P Q : A -> handle db -> Prop) :
  runs m h P -> (forall a h', P a h' -> Q a h') -> runs m h Q.
Proof. intros (a & h' & E & HP) HPQ. exists a, h'. auto. Qed.

(** The steps of a sequence that return decide how the rest of it starts. *)
Lemma starts_bind {A B} (m : M db A) (f : A -> M db B) h P (Q : res (B * handle db) -> Prop) :
  runs m h P -> (forall a h', P a h' -> Q (f a h')) -> Q (mbind m f h).
Proof. intros (a & h' & E & HP) Hf. unfold mbind. rewrite E. by apply Hf. Qed.
Lemma starts_lift {A B} (m : res A) a (f : A -> M db B) h (Q : res (B * handle db) -> Prop) :
  m = Ret a -> Q (f a h) -> Q (mbind (lift m) f h).
Proof. by intros ->. Qed.

(** The loop over an array, as a loop over the list of its ids. *)
Lemma runs_each_acc {A} (l : pdb_array) xs (body : Z -> A -> M db A) (I : list Z -> A -> handle db -> Prop) a h :
  holds l xs -> 0 ∉ xs -> zlen xs < 2 ^ 31 - 1 ->
  I xs a h ->
  (forall x rest a h, x ∈ xs -> I (x :: rest) a h -> runs (body x a) h (fun a' h' => I rest a' h')) ->
  runs (each_acc l body a) h (fun a' h' => I [] a' h').
Proof.
  intros Hl H0 Hz HI Hbody. unfold runs, each_acc. rewrite (for_each_fold l xs) by done.
  assert (forall ys a h, (forall x, x ∈ ys -> x ∈ xs) -> I ys a h ->
    exists a' h', foldM (fun v '(a, h) => body v a h) ys (a, h) = Ret (a', h') /\ I [] a' h') as Hfold.
  { clear a h HI. intros ys. induction ys as [|y ys IH]; intros a h Hsub HI; [by exists a, h|].
    destruct (Hbody y ys a h (Hsub y ltac:(by left)) HI) as (a' & h' & E & HI').
    cbn [foldM]. rewrite E. cbn [rbind]. apply IH; [|done]. intros x Hx. apply Hsub. by right. }
  apply Hfold; auto.
Qed.

Lemma runs_each (l : pdb_array) xs (body : Z -> M db unit) (I : list Z -> handle db -> Prop) h :
  holds l xs -> 0 ∉ xs -> zlen xs < 2 ^ 31 - 1 ->
  I xs h ->
  (forall x rest h, x ∈ xs -> I (x :: rest) h -> runs (body x) h (fun _ h' => I rest h')) ->
  runs (each l body) h (fun _ h' => I [] h').
Proof. intros. apply (runs_each_acc l xs (fun x _ => body x) (fun ys _ h => I ys h)); auto. Qed.
End runs.

(** ** What the store holds *)

(** The abstract database: principals by id, the index of names, the ids given out. *)
Record adb := {
  w_all : gmap Z principal;
  w_names : gmap (list Z) Z;
  w_maxuid : Z;
  w_mingid : Z
}.

Definition name_key (s : list Z) : list Z := [78; 65; 77; 69] ++ s.

(** The map [c] of byte strings represents [w]. *)
Record stored (w : adb) (c : gmap (list Z) (list Z)) : Prop := {
  st_some i a : w_all w !! i = Some a ->
    a_id a = i /\ i <> 0 /\ good a /\ exists data, c !! id_key i = Some data /\ packed a data;
  st_none i : int32 i -> w_all w !! i = None -> c !! id_key i = None;
  st_name s : s <> [] -> c !! name_key s = be32 <$> w_names w !! s;
  st_name_id s i : w_names w !! s = Some i -> int32 i;
  st_ids : c !! [] = Some (be32 (w_maxuid w) ++ be32 (w_mingid w)) \/
           (c !! [] = None /\ w_maxuid w = 0 /\ w_mingid w = 0);
  st_range : 0 <= w_maxuid w < 2 ^ 31 /\ - 2 ^ 31 <= w_mingid w <= 0
}.

Lemma id_key_inj i j : int32 i -> int32 j -> id_key i = id_key j -> i = j.
Proof.
  unfold int32, id_key, be32, uwrap. intros Hi Hj [= E1 E2 E3 E4].
  change (2 ^ 8) with 256 in *. change (2 ^ 24) with 16777216 in *. change (2 ^ 16) with 65536 in *.
  change (2 ^ 31) with 2147483648 in *. Z.div_mod_to_equations. lia.
Qed.

Lemma name_key_inj s t : name_key s = name_key t -> s = t.
Proof. by intros [= ->]. Qed.

Lemma id_name_key i s : s <> [] -> id_key i <> name_key s.
Proof. intros Hs E. apply (f_equal length) in E. cbn in E. destruct s; [done|cbn in E; lia]. Qed.

(** Changes of the store and what they mean. *)
Definition put_record (w : adb) (a : principal) : adb :=
  {| w_all := <[a_id a := a]> (w_all w); w_names := w_names w; w_maxuid := w_maxuid w; w_mingid := w_mingid w |}.
Definition put_name (w : adb) (s : list Z) (i : Z) : adb :=
  {| w_all := w_all w; w_names := <[s := i]> (w_names w); w_maxuid := w_maxuid w; w_mingid := w_mingid w |}.
Definition put_ids (w : adb) (u g : Z) : adb :=
  {| w_all := w_all w; w_names := w_names w; w_maxuid := u; w_mingid := g |}.
Definition drop_record (w : adb) (i : Z) : adb :=
  {| w_all := delete i (w_all w); w_names := w_names w; w_maxuid := w_maxuid w; w_mingid := w_mingid w |}.
Definition drop_name (w : adb) (s : list Z) : adb :=
  {| w_all := w_all w; w_names := delete s (w_names w); w_maxuid := w_maxuid w; w_mingid := w_mingid w |}.

Lemma stored_put_record w c a data : stored w c -> good a -> a_id a <> 0 -> packed a data ->
  stored (put_record w a) (<[id_key (a_id a) := data]> c).
Proof.
  intros [S1 S2 S3 S4 S5 S6] Hg Hne Hp. split; cbn; try done.
  - intros i b. destruct (decide (i = a_id a)) as [->|Hi].
    + rewrite lookup_insert_eq. intros [= <-]. do 3 (split; [done|]). exists data. by rewrite lookup_insert_eq.
    + rewrite lookup_insert_ne by done. intros Hb. destruct (S1 i b Hb) as (E & H0 & Hgb & d & Ed & Hpd).
      do 3 (split; [done|]). exists d. rewrite lookup_insert_ne; [done|]. intros E'.
      apply id_key_inj in E'; [done|apply Hg|]. rewrite <- E. apply Hgb.
  - intros i Hi. destruct (decide (i = a_id a)) as [->|Hne']; [by rewrite lookup_insert_eq|].
    rewrite lookup_insert_ne by done. intros Hw. rewrite lookup_insert_ne; [by apply S2|].
    intros E'. apply id_key_inj in E'; [done|apply Hg|done].
  - intros s Hs. rewrite lookup_insert_ne by (by apply id_name_key). by apply S3.
  - by rewrite lookup_insert_ne.
Qed.

Lemma stored_put_name w c s i : stored w c -> s <> [] -> int32 i ->
  stored (put_name w s i) (<[name_key s := be32 i]> c).
Proof.
  intros [S1 S2 S3 S4 S5 S6] Hs Hi. split; cbn; try done.
  - intros j b Hb. destruct (S1 j b Hb) as (E & H0 & Hgb & d & Ed & Hpd).
    do 3 (split; [done|]). exists d. rewrite lookup_insert_ne; [done|]. intros E'. by apply (id_name_key j s).
  - intros j Hj Hw. rewrite lookup_insert_ne; [by apply S2|]. intros E'. by apply (id_name_key j s).
  - intros t Ht. destruct (decide (t = s)) as [->|Hne]; [by rewrite !lookup_insert_eq|].
    rewrite !lookup_insert_ne; [by apply S3|done|]. intros E. by apply name_key_inj in E.
  - intros t j. destruct (decide (t = s)) as [->|Hne]; [rewrite lookup_insert_eq; by intros [= <-]|].
    rewrite lookup_insert_ne by done. apply S4.
  - by rewrite lookup_insert_ne.
Qed.

Lemma stored_put_ids w c u g : stored w c -> 0 <= u < 2 ^ 31 -> - 2 ^ 31 <= g <= 0 ->
  stored (put_ids w u g) (<[[] := be32 u ++ be32 g]> c).
Proof.
  intros [S1 S2 S3 S4 S5 S6] Hu Hg. split; cbn; try done.
  - intros i a Ha. rewrite lookup_insert_ne by done. by apply S1.
  - intros i Hi Hw. rewrite lookup_insert_ne by done. by apply S2.
  - intros s Hs. rewrite lookup_insert_ne by done. by apply S3.
  - left. by rewrite lookup_insert_eq.
Qed.

Lemma stored_drop_record w c i : stored w c -> int32 i -> stored (drop_record w i) (delete (id_key i) c).
Proof.
  intros [S1 S2 S3 S4 S5 S6] Hi. split; cbn; try done.
  - intros j b Hb. apply lookup_delete_Some in Hb as [Hne Hb]. destruct (S1 j b Hb) as (E & H0 & Hgb & d & Ed & Hpd).
    do 3 (split; [done|]). exists d. rewrite lookup_delete_ne; [done|]. intros E'.
    apply id_key_inj in E'; [done|done|]. rewrite <- E. apply Hgb.
  - intros j Hj. destruct (decide (j = i)) as [->|Hne]; [intros _; by rewrite lookup_delete_eq|].
    rewrite lookup_delete_ne by done. intros Hw. rewrite lookup_delete_ne; [by apply S2|].
    intros E'. by apply id_key_inj in E'.
  - intros s Hs. rewrite lookup_delete_ne by (by apply id_name_key). by apply S3.
  - by rewrite lookup_delete_ne.
Qed.

Lemma stored_drop_name w c s : stored w c -> s <> [] -> stored (drop_name w s) (delete (name_key s) c).
Proof.
  intros [S1 S2 S3 S4 S5 S6] Hs. split; cbn; try done.
  - intros j b Hb. destruct (S1 j b Hb) as (E & H0 & Hgb & d & Ed & Hpd).
    do 3 (split; [done|]). exists d. rewrite lookup_delete_ne; [done|]. intros E'. by apply (id_name_key j s).
  - intros j Hj Hw. rewrite lookup_delete_ne; [by apply S2|]. intros E'. by apply (id_name_key j s).
  - intros t Ht. destruct (decide (t = s)) as [->|Hne]; [by rewrite !lookup_delete_eq|].
    rewrite !lookup_delete_ne; [by apply S3|done|]. intros E. by apply name_key_inj in E.
  - intros t j Ht. apply lookup_delete_Some in Ht as [_ Ht]. by apply (S4 t).
  - by rewrite lookup_delete_ne.
Qed.

(** ** The operations of pdbdb.c on the abstract database *)

(** The effect of [PDB_writeProfile]. *)
Definition write (w : adb) (a : principal) : adb :=
  put_ids (put_name (put_record w a) (a_name a) (a_id a))
    (Z.max (w_maxuid w) (a_id a)) (Z.min (w_mingid w) (a_id a)).

Section db.
Context {db : Type} `{RWCDBLaws db, AllocOk, Uninit}.
Implicit Types (h : handle db) (w : adb).

(** The handle is open for writing after [m] mutations and the store holds [w]. *)
Definition db_at (m : Z) (w : adb) (h : handle db) : Prop :=
  h_open h = true /\ h_open_rw h = true /\ h_mutations h = m /\ 0 <= m /\
  rw_ok (h_main h) /\ stored w (contents (h_main h)).

Lemma runs_peek {A B} (g : db -> A) (f : A -> M db B) h (Q : B -> handle db -> Prop) :
  runs (f (g (h_main h))) h Q -> runs (mbind (peek g) f) h Q.
Proof. done. Qed.

Lemma runs_find m w h k : db_at m w h ->
  runs (store (fun d => rwcdb_find d k)) h (fun rc h' => db_at m w h' /\
    match contents (h_main h) !! k with
    | Some v => rc = 1 /\ rwcdb_datalen (h_main h') = zlen v /\
                runs (store (fun d => rwcdb_read d (zlen v) (rwcdb_datapos (h_main h')))) h'
                  (fun r h'' => r = (0, v) /\ db_at m w h'')
    | None => rc = 0
    end).
Proof.
  intros (Ho & Hrw & Hm & Hp & Hok & Hst). destruct (find_law (h_main h) k Hok) as (d' & rc & E & Hok' & Hc & Hres).
  unfold runs at 1, store at 1. rewrite E. eexists _, _. split; [done|]. split; [unfold db_at; cbn; by rewrite Hc|].
  destruct (contents (h_main h) !! k) as [v|]; [|done]. destruct Hres as (-> & Hl & d'' & Er & Hok'' & Hc'').
  do 2 (split; [done|]). unfold runs, store. cbn [h_main]. rewrite Er. eexists _, _. split; [done|]. split; [done|].
  unfold db_at. cbn. by rewrite Hc''.
Qed.

Lemma runs_insert m w w' h k v : db_at m w h -> v <> [] ->
  (stored w (contents (h_main h)) -> stored w' (<[k := v]> (contents (h_main h)))) ->
  runs (store (fun d => rwcdb_insert d k v)) h (fun rc h' => rc = 1 /\ db_at m w' h').
Proof.
  intros (Ho & Hrw & Hm & Hp & Hok & Hst) Hv Hw'.
  destruct (insert_law (h_main h) k v Hok Hv) as (d' & E & Hok' & Hc).
  unfold runs, store. rewrite E. eexists _, _. split; [done|]. split; [done|].
  unfold db_at. cbn. rewrite Hc. auto 10.
Qed.

Lemma runs_delete m w w' h k : db_at m w h ->
  (stored w (contents (h_main h)) -> stored w' (delete k (contents (h_main h)))) ->
  runs (store (fun d => rwcdb_delete d k)) h (fun _ h' => db_at m w' h').
Proof.
  intros (Ho & Hrw & Hm & Hp & Hok & Hst) Hw'.
  destruct (delete_law (h_main h) k Hok) as (d' & rc & E & Hok' & Hc).
  unfold runs, store. rewrite E. eexists _, _. split; [done|].
  unfold db_at. cbn. rewrite Hc. auto 10.
Qed.

Lemma db_at_stored m w h : db_at m w h -> stored w (contents (h_main h)).
Proof. by intros (_ & _ & _ & _ & _ & Hst). Qed.

Lemma packed_len a data : packed a data -> 28 <= zlen data.
Proof.
  intros (mo & cp & gm & _ & _ & _ & Hp). cbn zeta in Hp. destruct Hp as (_ & _ & _ & _ & _ & _ & _ & ->).
  pose proof (zlen_nonneg mo). pose proof (zlen_nonneg cp). pose proof (zlen_nonneg gm).
  pose proof (zlen_nonneg (a_name a)). pose proof (zlen_nonneg (a_owner_name a)). lia.
Qed.

(** One call of a sequence. *)
Ltac mstep lem := eapply runs_bind; [eapply lem; eauto | cbv beta].

Lemma read_record_ok m w h i : db_at m w h -> int32 i ->
  runs (read_record (id_key i)) h (fun data h' => db_at m w h' /\
    match w_all w !! i with Some a => packed a data | None => data = [] end).
Proof.
  intros Hdb Hi. pose proof (db_at_stored _ _ _ Hdb) as Hst. unfold read_record.
  mstep runs_find. intros rc h' [Hdb' Hres].
  destruct (w_all w !! i) as [a|] eqn:Ea.
  - destruct (st_some _ _ Hst i a Ea) as (_ & _ & _ & data & Ed & Hp). rewrite Ed in Hres.
    destruct Hres as (-> & Hlen & Hread). pose proof (packed_len a data Hp). cbn [negb Z.eqb Pos.eqb].
    apply runs_peek. rewrite Hlen. destruct (Z.eqb_spec (zlen data) 4); [lia|]. rewrite alloc_ok by lia. cbn [negb].
    apply runs_peek. eapply runs_bind; [exact Hread|]. cbv beta. intros rd h2 [-> Hdb2]. cbn. by apply runs_ret.
  - rewrite (st_none _ _ Hst i Hi Ea) in Hres. subst rc. cbn. by apply runs_ret.
Qed.

(** Reading a profile gives the principal with that id, or the id 0. *)
Lemma PDB_readProfile_ok m w h i : db_at m w h -> int32 i ->
  runs (PDB_readProfile i) h (fun r h' => db_at m w h' /\
    match w_all w !! i with Some a => profile_rep r a | None => p_id r = 0 end).
Proof.
  intros Hdb Hi. unfold PDB_readProfile. cbn [PDB_db_read]. mstep read_record_ok. intros data h' [Hdb' Hres].
  destruct (w_all w !! i) as [a|] eqn:Ea.
  - destruct (st_some _ _ (db_at_stored _ _ _ Hdb) i a Ea) as (_ & _ & Hg & _).
    destruct (pdb_unpack_ok uninit a data Hres Hg) as (r & E & Hr). by eapply runs_lift.
  - subst data. by eapply runs_lift.
Qed.

Lemma malloc_name_ok s : malloc_name s = Ret (name_key s).
Proof. unfold malloc_name. rewrite alloc_ok; [done|]. pose proof (zlen_nonneg s). lia. Qed.

Lemma be32_id i : int32 i -> exists j, be32 i = be32 j /\ s32 j = i /\ 0 <= j < 2 ^ 32.
Proof.
  intros Hi. unfold int32 in Hi. exists (u32 i). repeat split; try (apply uwrap_bound; lia).
  - unfold be32, uwrap. change (2 ^ 32) with 4294967296. change (2 ^ 24) with 16777216.
    change (2 ^ 16) with 65536. change (2 ^ 8) with 256.
    f_equal; [zdm|f_equal; [zdm|f_equal; [zdm|f_equal; zdm]]].
  - rewrite <- (swrap_small 32 i) at 2 by lia. unfold swrap, uwrap. by rewrite Zplus_mod_idemp_l.
Qed.

(** By name, through the index. *)
Lemma PDB_readProfile_byname_ok m w h s : db_at m w h -> s <> [] ->
  runs (PDB_readProfile_byname s) h (fun r h' => db_at m w h' /\
    match w_names w !! s ≫= (fun i => w_all w !! i) with Some a => profile_rep r a | None => p_id r = 0 end).
Proof.
  intros Hdb Hs. pose proof (db_at_stored _ _ _ Hdb) as Hst. unfold PDB_readProfile_byname.
  eapply runs_bind with (P := fun data h' => db_at m w h' /\
    match w_names w !! s ≫= (fun i => w_all w !! i) with Some a => packed a data | None => data = [] end).
  - cbn [PDB_db_read]. eapply runs_let; [apply malloc_name_ok|].
    mstep runs_find. intros rc h1 [Hdb1 Hres]. rewrite (st_name _ _ Hst s Hs) in Hres.
    destruct (w_names w !! s) as [i|] eqn:Ei; cbn [fmap option_fmap option_map mbind option_bind] in *.
    + destruct Hres as (-> & Hlen & Hread). cbn [negb Z.eqb Pos.eqb].
      apply runs_peek. rewrite Hlen. cbn [negb zlen length be32 Z.eqb Pos.eqb Z.of_nat Pos.of_succ_nat Pos.succ].
      apply runs_peek. eapply runs_bind; [exact Hread|]. cbv beta. intros rd h2 [-> Hdb2]. cbn [Z.eqb].
      eapply runs_mono; [apply read_record_ok; [done|by apply (st_name_id _ _ Hst s)]|]. done.
    + subst rc. cbn. by apply runs_ret.
  - intros data h' [Hdb' Hres]. destruct (w_names w !! s ≫= _) as [a|] eqn:Ea.
    + apply bind_Some in Ea as (i & _ & Ea). destruct (st_some _ _ Hst i a Ea) as (_ & _ & Hg & _).
      destruct (pdb_unpack_ok uninit a data Hres Hg) as (r & E & Hr). by eapply runs_lift.
    + subst data. by eapply runs_lift.
Qed.

(** ** Ids and writing *)
Lemma ld_ids u g : int32 u -> int32 g ->
  exists a b, ld32 (be32 u ++ be32 g) 0 = Ret a /\ ld32 (be32 u ++ be32 g) 4 = Ret b /\ s32 a = u /\ s32 b = g.
Proof.
  intros Hu Hg. assert (mem_at (be32 u ++ be32 g) 0 (be32 u ++ be32 g)) as Hm by done.
  apply mem_at_app in Hm as [H1' H2'].
  destruct (ld_s32 _ _ _ H1' Hu) as (a & Ea & Ha). destruct (ld_s32 _ _ _ H2' Hg) as (b & Eb & Hb).
  exists a, b. done.
Qed.

Lemma PDB_db_maxids_ok m w h : db_at m w h ->
  runs PDB_db_maxids h (fun ug h' => ug = (w_maxuid w, w_mingid w) /\ db_at m w h').
Proof.
  intros Hdb. pose proof (db_at_stored _ _ _ Hdb) as Hst. unfold PDB_db_maxids.
  mstep runs_find. intros rc h' [Hdb' Hres]. pose proof (st_range _ _ Hst).
  destruct (st_ids _ _ Hst) as [E|(E & Hu & Hg)]; rewrite E in Hres.
  - destruct Hres as (-> & Hlen & Hread). cbn [negb Z.eqb Pos.eqb]. apply runs_peek, runs_peek. rewrite Hlen.
    apply runs_check; [done|].
    eapply runs_bind; [exact Hread|]. cbv beta. intros rd h2 [-> Hdb2]. cbv beta iota. apply runs_check; [done|].
    destruct (ld_ids (w_maxuid w) (w_mingid w)) as (a & b & Ea & Eb & Ha & Hb); [unfold int32; lia..|].
    eapply runs_let; [exact Ea|]. eapply runs_let; [exact Eb|]. apply runs_ret. by rewrite Ha, Hb.
  - subst rc. cbn. apply runs_ret. by rewrite Hu, Hg.
Qed.

Lemma PDB_db_update_maxids_ok m w h u g : db_at m w h -> 0 <= u < 2 ^ 31 -> - 2 ^ 31 <= g <= 0 ->
  runs (PDB_db_update_maxids u g PDB_MAXID_SET) h
    (fun _ h' => db_at m (put_ids w (Z.max (w_maxuid w) u) (Z.min (w_mingid w) g)) h').
Proof.
  intros Hdb Hu Hg. pose proof (st_range _ _ (db_at_stored _ _ _ Hdb)) as Hr. unfold PDB_db_update_maxids.
  apply runs_check; [lia|]. mstep PDB_db_maxids_ok. intros [ou og] h' [[= -> ->] Hdb']. cbv beta iota.
  apply runs_check; [lia|].
  replace (if (PDB_MAXID_SET =? PDB_MAXID_FORCE) || (u >? w_maxuid w) then u else w_maxuid w)
    with (Z.max (w_maxuid w) u) by (cbn; destruct (Z.gtb_spec u (w_maxuid w)); lia).
  replace (if (PDB_MAXID_SET =? PDB_MAXID_FORCE) || (g <? w_mingid w) then g else w_mingid w)
    with (Z.min (w_mingid w) g) by (cbn; destruct (Z.ltb_spec g (w_mingid w)); lia).
  eapply runs_bind; [eapply runs_insert with (w' := put_ids w _ _); [done|done|]|].
  - intros Hst. apply stored_put_ids; [done|lia..].
  - cbv beta. intros rc h'' [-> Hdb'']. by apply runs_assert.
Qed.

(** Writing a profile stores the principal under its id and its name. *)
Lemma PDB_writeProfile_ok m w h r a : db_at m w h -> profile_rep r a -> good a -> a_id a <> 0 ->
  runs (PDB_writeProfile r) h (fun _ h' => db_at m (write w a) h').
Proof.
  intros Hdb Hr Hg Hne. unfold PDB_writeProfile.
  destruct (pdb_pack_ok r a Hr Hg) as (data & E & Hp). eapply runs_let; [exact E|].
  destruct Hr as (Eid & En & _). rewrite Eid, En. unfold PDB_db_write.
  apply runs_check; [by destruct (Z.eqb_spec (a_id a) 0)|].
  pose proof (packed_len a data Hp). pose proof (st_range _ _ (db_at_stored _ _ _ Hdb)) as Hrg.
  eapply runs_bind; [eapply runs_insert with (w' := put_record w a); [done| |]|].
  { intros ->. rewrite zlen_nil in *. lia. }
  { intros Hst. by apply stored_put_record. }
  cbv beta. intros rc h1 [-> Hdb1]. apply runs_check; [done|]. eapply runs_let; [apply malloc_name_ok|].
  eapply runs_bind; [eapply runs_insert with (w' := put_name (put_record w a) (a_name a) (a_id a)); [done|done|]|].
  { intros Hst. apply stored_put_name; [done|apply Hg|apply Hg]. }
  cbv beta. intros rc h2 [-> Hdb2]. apply runs_check; [done|]. pose proof (good_id _ Hg) as Hi. unfold int32 in Hi.
  destruct (Z.gtb_spec (a_id a) 0).
  - eapply runs_mono; [apply PDB_db_update_maxids_ok; [done|lia|lia]|]. cbn. intros _ h3. unfold write.
    by replace (Z.min (w_mingid w) 0) with (Z.min (w_mingid w) (a_id a)) by lia.
  - eapply runs_mono; [apply PDB_db_update_maxids_ok; [done|lia|lia]|]. cbn. intros _ h3. unfold write.
    by replace (Z.max (w_maxuid w) 0) with (Z.max (w_maxuid w) (a_id a)) by lia.
Qed.

Lemma PDB_db_delete_xfer_ok m w h s : db_at m w h -> s <> [] ->
  runs (PDB_db_delete_xfer (Some s)) h (fun _ h' => db_at m (drop_name w s) h').
Proof.
  intros Hdb Hs. cbn [PDB_db_delete_xfer]. eapply runs_let; [apply malloc_name_ok|].
  eapply runs_bind; [eapply runs_delete with (w' := drop_name w s); [done|]|].
  - intros Hst. by apply stored_drop_name.
  - cbv beta. intros _ h' Hdb'. by apply runs_ret.
Qed.

Lemma PDB_deleteProfile_ok m w h r a : db_at m w h -> profile_rep r a -> good a ->
  runs (PDB_deleteProfile r) h (fun _ h' => db_at m (drop_name (drop_record w (a_id a)) (a_name a)) h').
Proof.
  intros Hdb (Eid & En & _) Hg. unfold PDB_deleteProfile, PDB_db_delete. rewrite Eid, En.
  eapply runs_bind; [eapply runs_delete with (w' := drop_record w (a_id a)); [done|]|].
  - intros Hst. apply stored_drop_record; [done|apply Hg].
  - cbv beta. intros _ h' Hdb'. apply PDB_db_delete_xfer_ok; [done|apply Hg].
Qed.

(** Opening the database for writing, when it is open already. *)
Lemma PDB_db_open_rw_ok m w h : db_at m w h -> m < 2 ^ 31 - 1 ->
  runs (PDB_db_open O_RDWR) h (fun _ h' => db_at (m + 1) w h').
Proof.
  intros (Ho & Hrw & Hm & Hp & Hok & Hst) Hlt. unfold runs, PDB_db_open. rewrite Ho, Hrw, Hm.
  cbn [negb O_RDWR O_RDONLY Z.eqb Pos.eqb]. eapply runs_let; [apply i32_ok; lia|].
  eapply runs_bind with (P := fun _ h' => db_at (m + 1) w h').
  - eexists _, _. split; [done|]. unfold db_at. cbn. auto 10 with lia.
  - intros [] h1 (Ho1 & Hrw1 & Hm1 & Hp1 & Hok1 & Hst1). destruct (Z.rem (m + 1) 128 =? 0).
    + destruct (sync_law (h_main h1) Hok1) as (d' & E & Hok' & Hc). unfold runs, mbind, store. rewrite E.
      cbn. eexists _, _. split; [done|]. unfold db_at. cbn. rewrite Hc. auto 10.
    + apply runs_ret. done.
Qed.

Lemma PDB_db_open_ro_ok m w h : db_at m w h ->
  runs (PDB_db_open O_RDONLY) h (fun _ h' => db_at m w h').
Proof.
  intros Hdb. pose proof Hdb as (Ho & Hrw & _). unfold runs, PDB_db_open. rewrite Ho, Hrw. cbn.
  by exists tt, h.
Qed.
End db.
End PdbDb.
