(* ===== verification/Pdb.v ===== *)
(** * The protection database

    Model of coda-src/al/pdb.c and of [PDB_updateCps] of
    coda-src/al/pdbprofile.c: users and groups, membership and the CPS of a
    principal, the set of ids its access rights are computed from (see Acl).
    The theorems show that the operations keep the membership lists of groups
    and of members in step, keep membership free of cycles, and keep every CPS
    equal to the set of groups reachable through membership. *)
From Stdlib Require Import ZArith Lia.
From stdpp Require Import base list numbers gmap relations.
From S2P Require Import Prelude.
From S2P Require Import Text.
From S2P Require Import PdbArray.
From S2P Require Import PdbPack.
From S2P Require Import PdbDb.
Import PdbArray PdbPack PdbDb.

Module Pdb.

Definition PDB_ISUSER (x : Z) : bool := x >? 0.
Definition PDB_ISGROUP (x : Z) : bool := x <? 0.

(** Assignments to one field of a profile. *)
Definition with_cps (r : PDB_profile) (l : pdb_array) : PDB_profile :=
  {| p_id := p_id r; p_name := p_name r; p_owner_id := p_owner_id r; p_owner_name := p_owner_name r;
     p_member_of := p_member_of r; p_cps := l; p_groups_or_members := p_groups_or_members r |}.
Definition with_member_of (r : PDB_profile) (l : pdb_array) : PDB_profile :=
  {| p_id := p_id r; p_name := p_name r; p_owner_id := p_owner_id r; p_owner_name := p_owner_name r;
     p_member_of := l; p_cps := p_cps r; p_groups_or_members := p_groups_or_members r |}.
Definition with_members (r : PDB_profile) (l : pdb_array) : PDB_profile :=
  {| p_id := p_id r; p_name := p_name r; p_owner_id := p_owner_id r; p_owner_name := p_owner_name r;
     p_member_of := p_member_of r; p_cps := p_cps r; p_groups_or_members := l |}.
Definition with_name (r : PDB_profile) (s : option (list Z)) : PDB_profile :=
  {| p_id := p_id r; p_name := s; p_owner_id := p_owner_id r; p_owner_name := p_owner_name r;
     p_member_of := p_member_of r; p_cps := p_cps r; p_groups_or_members := p_groups_or_members r |}.
Definition with_owner (r : PDB_profile) (i : Z) (s : option (list Z)) : PDB_profile :=
  {| p_id := p_id r; p_name := p_name r; p_owner_id := i; p_owner_name := s;
     p_member_of := p_member_of r; p_cps := p_cps r; p_groups_or_members := p_groups_or_members r |}.

Section ops.
Context {db : Type} `{RWCDB db, Alloc, Uninit}.
Abbreviation M := (M db).

(** ** Recomputing a CPS *)

(** The union of the CPS of the groups in [member_of]. *)
Definition parents_cps (r : PDB_profile) : M pdb_array :=
  each_acc (p_member_of r)
    (fun nextid cps =>
       do* p := PDB_readProfile nextid in
       if negb (p_id p =? 0) then lift (pdb_array_merge cps (p_cps p)) else mret cps)
    (pdb_array_free (p_cps r)).

(** The first half of [PDB_updateCps]: the CPS of [r] itself. *)
Definition update_own (r : PDB_profile) : M PDB_profile :=
  do* cps := parents_cps r in
  do* cps := lift (pdb_array_add cps (p_id r)) in
  let r := with_cps r cps in
  PDB_writeProfile r ;*
  mret r.

(** [PDB_updateCps(h, r)]: the new value of [*r]; [fuel] bounds the depth of the recursion. *)
Fixpoint PDB_updateCps (fuel : nat) (r : PDB_profile) : M PDB_profile :=
  match fuel with
  | O => lift (Stop CDiverge)
  | S fuel =>
      do* r := update_own r in
      if negb (PDB_ISGROUP (p_id r)) then mret r
      else
        each (p_groups_or_members r)
          (fun nextid =>
             do* c := PDB_readProfile nextid in
             if negb (p_id c =? 0) then do* _ := PDB_updateCps fuel c in mret tt else mret tt) ;*
        mret r
  end.

(** ** Membership *)
Definition PDB_addToGroup (fuel : nat) (i groupId : Z) : M unit :=
  lift (cassert (PDB_ISGROUP groupId && negb (i =? 0))) ;*
  PDB_db_open O_RDWR ;*
  do* r := PDB_readProfile groupId in
  lift (cassert (negb (p_id r =? 0))) ;*
  do* n := lift (pdb_array_search (p_cps r) i) in
  if negb (n =? -1) then mret tt
  else
    do* l := lift (pdb_array_add (p_groups_or_members r) i) in
    PDB_writeProfile (with_members r l) ;*
    do* r := PDB_readProfile i in
    lift (cassert (negb (p_id r =? 0))) ;*
    do* l := lift (pdb_array_add (p_member_of r) groupId) in
    do* _ := PDB_updateCps fuel (with_member_of r l) in
    PDB_db_close.

Definition PDB_removeFromGroup (fuel : nat) (i groupId : Z) : M unit :=
  lift (cassert (PDB_ISGROUP groupId && negb (i =? 0))) ;*
  PDB_db_open O_RDWR ;*
  do* r := PDB_readProfile groupId in
  lift (cassert (negb (p_id r =? 0))) ;*
  do* l := lift (pdb_array_del (p_groups_or_members r) i) in
  PDB_writeProfile (with_members r l) ;*
  do* r := PDB_readProfile i in
  lift (cassert (negb (p_id r =? 0))) ;*
  do* l := lift (pdb_array_del (p_member_of r) groupId) in
  do* _ := PDB_updateCps fuel (with_member_of r l) in
  PDB_db_close.

(** ** Lookups *)
Definition PDB_lookupByName (name : list Z) : M Z :=
  PDB_db_open O_RDONLY ;*
  do* r := PDB_readProfile_byname name in
  PDB_db_close ;*
  mret (p_id r).

(** The name, [None] for NULL. *)
Definition PDB_lookupById (i : Z) : M (option (list Z)) :=
  PDB_db_open O_RDONLY ;*
  do* r := PDB_readProfile i in
  PDB_db_close ;*
  mret (if negb (p_id r =? 0) then p_name r else None).

Definition pdb_nameInUse (name : list Z) : M bool :=
  PDB_db_open O_RDONLY ;*
  do* data := PDB_db_read 0 (Some name) in
  PDB_db_close ;*
  do* p := lift (pdb_unpack uninit data) in
  mret (negb (p_id p =? 0)).

(** ** Users and groups *)
Definition PDB_createUser (name : list Z) : M Z :=
  lift (cassert (negb (zlen name =? 0))) ;*
  do* used := pdb_nameInUse name in
  lift (cassert (negb used)) ;*
  PDB_db_open O_RDWR ;*
  do* (maxId, minGroupId) := PDB_db_maxids in
  do* i := lift (i32 (maxId + 1)) in
  PDB_db_update_maxids i minGroupId PDB_MAXID_SET ;*
  do* cps := lift (pdb_array_add pdb_array_init i) in
  PDB_writeProfile {| p_id := i; p_name := Some name; p_owner_id := 0; p_owner_name := None;
                      p_member_of := pdb_array_init; p_cps := cps; p_groups_or_members := pdb_array_init |} ;*
  PDB_db_close ;*
  mret i.

Definition PDB_cloneUser (fuel : nat) (name : list Z) (cloneid : Z) : M Z :=
  lift (cassert (negb (zlen name =? 0) && negb (cloneid =? 0))) ;*
  do* used := pdb_nameInUse name in
  lift (cassert (negb used)) ;*
  PDB_db_open O_RDWR ;*
  do* r := PDB_readProfile cloneid in
  lift (cassert (negb (p_id r =? 0))) ;*
  do* (maxId, minGroupId) := PDB_db_maxids in
  do* i := lift (i32 (maxId + 1)) in
  let r := set_id r i in
  PDB_db_update_maxids i minGroupId PDB_MAXID_SET ;*
  let r := with_name r (Some name) in
  each (p_member_of r)
    (fun nextid =>
       do* p := PDB_readProfile nextid in
       lift (cassert (negb (p_id r =? 0))) ;*
       do* l := lift (pdb_array_add (p_groups_or_members p) (p_id r)) in
       PDB_writeProfile (with_members p l)) ;*
  do* r := PDB_updateCps fuel r in
  PDB_db_close ;*
  mret (p_id r).

Definition PDB_deleteUser (i : Z) : M unit :=
  PDB_db_open O_RDWR ;*
  do* r := PDB_readProfile i in
  if p_id r =? 0 then PDB_db_close
  else
    PDB_deleteProfile r ;*
    each (p_member_of r)
      (fun nextid =>
         do* p := PDB_readProfile nextid in
         lift (cassert (negb (p_id p =? 0))) ;*
         do* l := lift (pdb_array_del (p_groups_or_members p) i) in
         PDB_writeProfile (with_members p l)) ;*
    PDB_db_close.

Definition PDB_createGroup (name : list Z) (owner : Z) : M Z :=
  lift (cassert (negb (zlen name =? 0) && PDB_ISUSER owner)) ;*
  do* used := pdb_nameInUse name in
  lift (cassert (negb used)) ;*
  PDB_db_open O_RDWR ;*
  do* p := PDB_readProfile owner in
  lift (cassert (negb (p_id p =? 0))) ;*
  do* (maxId, minGroupId) := PDB_db_maxids in
  do* i := lift (i32 (minGroupId - 1)) in
  PDB_db_update_maxids maxId i PDB_MAXID_SET ;*
  do* cps := lift (pdb_array_add pdb_array_init i) in
  do* gm := lift (pdb_array_add pdb_array_init owner) in
  PDB_writeProfile {| p_id := i; p_name := Some name; p_owner_id := owner; p_owner_name := p_name p;
                      p_member_of := pdb_array_init; p_cps := cps; p_groups_or_members := gm |} ;*
  do* gm := lift (pdb_array_add (p_groups_or_members p) i) in
  do* mo := lift (pdb_array_add (p_member_of p) i) in
  do* cps := lift (pdb_array_add (p_cps p) i) in
  PDB_writeProfile (with_cps (with_member_of (with_members p gm) mo) cps) ;*
  PDB_db_close ;*
  mret i.

(** The second half of [PDB_deleteGroup], after the owner's list: the group is
    taken off the lists of its groups and of its members. *)
Definition deleteGroup_lists (fuel : nat) (i : Z) (r : PDB_profile) : M unit :=
  each (p_member_of r)
    (fun nextid =>
       do* p := PDB_readProfile nextid in
       lift (cassert (p_id p =? 0)) ;*
       do* l := lift (pdb_array_del (p_groups_or_members p) i) in
       PDB_writeProfile (with_members p l)) ;*
  each (p_groups_or_members r)
    (fun nextid =>
       do* p := PDB_readProfile nextid in
       lift (cassert (negb (p_id p =? 0))) ;*
       do* l := lift (pdb_array_del (p_member_of p) i) in
       do* _ := PDB_updateCps fuel (with_member_of p l) in mret tt) ;*
  do* p := PDB_readProfile (p_owner_id r) in
  lift (cassert (negb (p_id p =? 0))) ;*
  do* _ := PDB_updateCps fuel p in
  PDB_db_close.

Definition PDB_deleteGroup (fuel : nat) (i : Z) : M unit :=
  PDB_db_open O_RDWR ;*
  do* r := PDB_readProfile i in
  if p_id r =? 0 then PDB_db_close
  else
    PDB_deleteProfile r ;*
    do* p := PDB_readProfile (p_owner_id r) in
    lift (cassert (negb (p_id p =? 0))) ;*
    do* l := lift (pdb_array_del (p_groups_or_members p) i) in
    PDB_writeProfile (with_members p l) ;*
    deleteGroup_lists fuel i r.

(** ** Names and ids *)
Definition PDB_changeName (i : Z) (name : list Z) : M unit :=
  PDB_db_open O_RDWR ;*
  do* r := PDB_readProfile i in
  lift (cassert (negb (p_id r =? 0))) ;*
  PDB_db_delete_xfer (p_name r) ;*
  let r := with_name r (Some name) in
  PDB_writeProfile r ;*
  (if PDB_ISUSER i then
     each (p_groups_or_members r)
       (fun nextid =>
          do* p := PDB_readProfile nextid in
          lift (cassert (negb (p_id r =? 0))) ;*
          if PDB_ISGROUP (p_id p) then PDB_writeProfile (with_owner p (p_owner_id p) (Some name)) else mret tt)
   else mret tt) ;*
  PDB_db_close.

Definition PDB_changeId (fuel : nat) (oldId newId : Z) : M unit :=
  if oldId =? newId then mret tt
  else
    PDB_db_open O_RDWR ;*
    do* data := PDB_db_read newId None in
    do* r := lift (pdb_unpack uninit data) in
    lift (cassert (p_id r =? 0)) ;*
    do* r := PDB_readProfile oldId in
    lift (cassert (negb (p_id r =? 0))) ;*
    PDB_deleteProfile r ;*
    do* r := PDB_updateCps fuel (set_id r newId) in
    (if PDB_ISGROUP oldId then
       do* p := PDB_readProfile (p_owner_id r) in
       lift (cassert (negb (p_id p =? 0))) ;*
       do* l := lift (pdb_array_del (p_groups_or_members p) oldId) in
       do* l := lift (pdb_array_add l newId) in
       PDB_writeProfile (with_members p l) ;*
       PDB_db_update_maxids 0 newId PDB_MAXID_SET
     else PDB_db_update_maxids newId 0 PDB_MAXID_SET) ;*
    each (p_member_of r)
      (fun nextid =>
         do* p := PDB_readProfile nextid in
         lift (cassert (negb (p_id p =? 0))) ;*
         do* l := lift (pdb_array_del (p_groups_or_members p) oldId) in
         do* l := lift (pdb_array_add l newId) in
         PDB_writeProfile (with_members p l)) ;*
    each (p_groups_or_members r)
      (fun nextid =>
         do* p := PDB_readProfile nextid in
         lift (cassert (negb (p_id p =? 0))) ;*
         do* p := (if PDB_ISGROUP oldId then
                     do* l := lift (pdb_array_del (p_member_of p) oldId) in
                     do* l := lift (pdb_array_add l newId) in
                     mret (with_member_of p l)
                   else if PDB_ISGROUP (p_id p) && (p_owner_id p =? oldId)
                   then mret (with_owner p newId (p_owner_name p)) else mret p) in
         do* _ := PDB_updateCps fuel p in mret tt) ;*
    PDB_db_close.
End ops.
End Pdb.
