(* ===== verification/PdbCps.v ===== *)
(** * The membership graph and [PDB_updateCps]

    The principals of the database form a graph: a principal points to the
    groups in its [a_groups].  This file states what it means for the stored
    CPS of a principal to be right, relative to those of its groups ([ok]), and
    proves that [PDB_updateCps] repairs the CPS of a principal and of everything
    below it, in a graph without cycles. *)
From Stdlib Require Import ZArith Lia.
From stdpp Require Import base list numbers gmap relations.
From S2P Require Import Prelude.
From S2P Require Import Text.
From S2P Require Import PdbArray.
From S2P Require Import PdbPack.
From S2P Require Import PdbDb.
From S2P Require Import Pdb.
Import PdbArray PdbPack PdbDb Pdb.

Module PdbCps.

Abbreviation graph := (gmap Z principal).
Implicit Types (G : graph) (a b : principal) (x y g : Z).

(** ** The graph *)
Definition cps_of G x : gset Z := match G !! x with Some a => a_cps a | None => ∅ end.

(** The CPS of [x] is [x] and the CPS of its groups. *)
Definition ok G x : Prop := forall a, G !! x = Some a ->
  forall y, y ∈ a_cps a <-> y = x \/ exists g, g ∈ a_groups a /\ y ∈ cps_of G g.

(** What the groups in [s] contribute depends on their CPS only. *)
Lemma parents_ext G G' (s : gset Z) z : (forall g, g ∈ s -> cps_of G' g = cps_of G g) ->
  (exists g, g ∈ s /\ z ∈ cps_of G' g) <-> (exists g, g ∈ s /\ z ∈ cps_of G g).
Proof. intros E. split; intros (g & Hg & Hz); exists g; (split; [done|]); specialize (E g Hg); congruence. Qed.

(** Everything but the CPS. *)
Definition set_cps a (s : gset Z) : principal :=
  {| a_id := a_id a; a_name := a_name a; a_owner := a_owner a; a_owner_name := a_owner_name a;
     a_groups := a_groups a; a_cps := s; a_members := a_members a |}.
Definition erase a : principal := set_cps a ∅.
Definition same_shape G G' : Prop := erase <$> G = erase <$> G'.

#[export] Instance same_shape_equiv : Equivalence same_shape.
Proof. unfold same_shape. split; red; intros; congruence. Qed.

Lemma same_shape_lookup G G' x a : same_shape G G' -> G !! x = Some a ->
  exists a', G' !! x = Some a' /\ erase a' = erase a.
Proof.
  intros HS Ha. assert ((erase <$> G') !! x = Some (erase a)) as E by (rewrite <- HS, lookup_fmap, Ha; done).
  rewrite lookup_fmap in E. apply fmap_Some in E as (a' & Ha' & E). eauto.
Qed.

Lemma same_shape_None G G' x : same_shape G G' -> G !! x = None -> G' !! x = None.
Proof.
  intros HS Ha. destruct (G' !! x) eqn:E; [|done].
  destruct (same_shape_lookup G' G x p) as (? & ? & _); [by symmetry|done|congruence].
Qed.

Lemma same_shape_insert G x a s : G !! x = Some a -> same_shape (<[x := set_cps a s]> G) G.
Proof.
  intros Ha. unfold same_shape. rewrite fmap_insert. apply map_eq. intros y.
  destruct (decide (y = x)) as [->|Hne]; [by rewrite lookup_insert_eq, lookup_fmap, Ha|by rewrite lookup_insert_ne].
Qed.

Lemma erase_eq a a' : erase a' = erase a -> a' = set_cps a (a_cps a').
Proof. destruct a, a'. unfold erase, set_cps. cbn. by intros [= -> -> -> -> -> ->]. Qed.

(** A group lists every principal that lists the group; only groups have members. *)
Definition linked G : Prop := forall x y b, G !! y = Some b -> x ∈ a_groups b ->
  x < 0 /\ forall a, G !! x = Some a -> y ∈ a_members a.

(** Members are further from the roots than their group; no rank exceeds [N]. *)
Definition ranked (rank : Z -> nat) (N : nat) G : Prop :=
  (forall x, is_Some (G !! x) -> (rank x <= N)%nat) /\
  forall x a y, G !! x = Some a -> x < 0 -> y ∈ a_members a -> is_Some (G !! y) -> (rank x < rank y)%nat.

Lemma shape_linked G G' : same_shape G G' -> linked G -> linked G'.
Proof.
  intros HS HL x y b Hb Hx. symmetry in HS.
  destruct (same_shape_lookup G' G y b HS Hb) as (b0 & Hb0 & E). injection E as _ _ _ _ Eg _.
  rewrite <- Eg in Hx. destruct (HL x y b0 Hb0 Hx) as [Hneg Hm]. split; [done|]. intros a Ha.
  destruct (same_shape_lookup G' G x a HS Ha) as (a0 & Ha0 & E). injection E as _ _ _ _ _ Em.
  rewrite <- Em. by apply Hm.
Qed.

Lemma shape_ranked rank N G G' : same_shape G G' -> ranked rank N G -> ranked rank N G'.
Proof.
  intros HS [Hb Hr]. symmetry in HS.
  assert (forall x, is_Some (G' !! x) -> is_Some (G !! x)) as HSome.
  { intros x [a Ha]. destruct (same_shape_lookup G' G x a HS Ha) as (a0 & Ha0 & _). eauto. }
  split; [auto|]. intros x a y Ha Hx Hy HyS.
  destruct (same_shape_lookup G' G x a HS Ha) as (a0 & Ha0 & E). injection E as _ _ _ _ _ Em.
  eapply Hr; [exact Ha0|done|by rewrite Em|auto].
Qed.

Lemma ranked_not_self rank N G x a : linked G -> ranked rank N G -> G !! x = Some a -> x ∉ a_groups a.
Proof.
  intros HL [_ HR] Ha Hx. destruct (HL x x a Ha Hx) as [Hneg Hm].
  pose proof (HR x a x Ha Hneg (Hm a Ha) ltac:(eauto)). lia.
Qed.

(** Changing the CPS of [i] does not matter to principals that are not in [i]. *)
Lemma ok_frame G i a s x : G !! i = Some a -> x <> i -> (forall b, G !! x = Some b -> i ∉ a_groups b) ->
  ok G x -> ok (<[i := set_cps a s]> G) x.
Proof.
  intros Hi Hx Hni Hok b Hb. rewrite lookup_insert_ne in Hb by done. intros y. rewrite (Hok b Hb), (parents_ext G (<[i := set_cps a s]> G)); [done|].
  intros g Hg. unfold cps_of. rewrite lookup_insert_ne; [done|]. intros ->. by apply (Hni b Hb).
Qed.

(** The names and ids of the index are those of the records. *)
Definition settled (w : adb) : Prop :=
  forall x a, w_all w !! x = Some a -> a_id a = x /\
    w_names w !! a_name a = Some x /\ w_mingid w <= x <= w_maxuid w.

Definition with_all (w : adb) G : adb :=
  {| w_all := G; w_names := w_names w; w_maxuid := w_maxuid w; w_mingid := w_mingid w |}.

(** Writing back a record under the same id and name changes only the record. *)
Lemma write_update w x a a' : settled w -> w_all w !! x = Some a -> a_id a' = a_id a -> a_name a' = a_name a ->
  write w a' = with_all w (<[x := a']> (w_all w)).
Proof.
  intros HS Ha Ei En. destruct (HS x a Ha) as (Hid & Hn & Hr). unfold write, put_ids, put_name, put_record, with_all.
  cbn. rewrite Ei, En, Hid. f_equal; [by apply insert_id|lia|lia].
Qed.

Lemma settled_shape w G : settled w -> same_shape (w_all w) G -> settled (with_all w G).
Proof.
  intros HS HG x a Ha. cbn in *. symmetry in HG. destruct (same_shape_lookup G _ x a HG Ha) as (a0 & Ha0 & E).
  injection E as E1 E2 _ _ _ _. destruct (HS x a0 Ha0) as (? & ? & ?). rewrite <- E1, <- E2. done.
Qed.

(** ** [PDB_updateCps] *)
Section update.
Context {db : Type} `{RWCDBLaws db, AllocOk, Uninit}.
Context (rank : Z -> nat) (N : nat) (U : gset Z).
Hypothesis HU : ids_ok U.

(** Every stored id is in [U]. *)
Definition within G : Prop := forall x a, G !! x = Some a -> x ∈ U /\ a_cps a ⊆ U.

Lemma within_size (s : gset Z) : s ⊆ U -> Z.of_nat (size s) <= MAXIDS.
Proof. intros Hs. apply subseteq_size in Hs. destruct HU as [Hz _]. lia. Qed.

Lemma within_cps G x : within G -> cps_of G x ⊆ U.
Proof. intros HW. unfold cps_of. destruct (G !! x) eqn:E; [|set_solver]. by apply (HW x). Qed.

Lemma ids_ok_sub (s : gset Z) : s ⊆ U -> ids_ok s.
Proof. intros Hs. split; [by apply within_size|]. intros x Hx. apply HU. by apply Hs. Qed.

(** The CPS of the groups of [r], as the loop of [PDB_updateCps] collects them. *)
Lemma parents_cps_ok m w h r a : db_at m w h -> profile_rep r a -> good a -> within (w_all w) ->
  runs (parents_cps r) h (fun cps h' => db_at m w h' /\ exists s, array_rep cps s /\ s ⊆ U /\
    forall y, y ∈ s <-> exists g, g ∈ a_groups a /\ y ∈ cps_of (w_all w) g).
Proof.
  intros Hdb Hr Hg HW. destruct Hr as (_ & _ & _ & _ & Hmo & _ & _).
  apply array_rep_lists in Hmo as (gs & Hgs & Lgs). pose proof (good_groups _ Hg) as Hgr.
  destruct (lists_ok _ _ Lgs Hgr) as (Hz & _ & Hnz).
  unfold parents_cps. eapply runs_mono; [eapply (runs_each_acc _ gs _ (fun rest cps h => db_at m w h /\
    exists s, array_rep cps s /\ s ⊆ U /\
      forall y, (exists g, g ∈ a_groups a /\ y ∈ cps_of (w_all w) g) <->
                y ∈ s \/ exists g, g ∈ rest /\ y ∈ cps_of (w_all w) g))|].
  - done.
  - done.
  - unfold MAXIDS in Hz. lia.
  - split; [done|]. exists ∅. split; [apply rep_init|]. split; [set_solver|]. intros y. destruct Lgs as [_ <-].
    setoid_rewrite elem_of_list_to_set. split; [by right|]. intros [Hy|Hy]; [set_solver|done].
  - cbv beta. intros g rest cps h1 Hin [Hdb1 (s & Hs & HsU & Hiff)].
    assert (g ∈ a_groups a) as Hga by (destruct Lgs as [_ <-]; by apply elem_of_list_to_set).
    destruct Hgr as [_ Hgr]. destruct (Hgr g Hga) as [Hgi Hg0].
    eapply runs_bind; [by apply PDB_readProfile_ok|]. cbv beta. intros p h2 [Hdb2 Hp].
    pose proof (within_cps (w_all w) g HW) as HgU. unfold cps_of in HgU.
    destruct (w_all w !! g) as [b|] eqn:Eb.
    + destruct (st_some _ _ (db_at_stored _ _ _ Hdb2) g b Eb) as (Eid & _ & _).
      pose proof Hp as (Epid & _ & _ & _ & _ & Hcps & _). rewrite Epid, Eid.
      destruct (Z.eqb_spec g 0); [done|]. cbn [negb].
      destruct (rep_merge _ _ _ _ Hs Hcps) as (l & E & Hl); [by apply within_size..|].
      eapply runs_lift; [exact E|]. split; [done|]. exists (s ∪ a_cps b). split; [done|]. split; [set_solver|].
      intros y. rewrite Hiff. rewrite elem_of_union. setoid_rewrite elem_of_cons. split.
      * intros [?|(g' & [->|?] & Hy)]; [tauto| |right; eauto]. left. right. unfold cps_of in Hy. by rewrite Eb in Hy.
      * intros [[?|Hy]|(g' & ? & ?)]; [tauto| |right; eauto]. right. exists g. unfold cps_of. rewrite Eb. auto.
    + rewrite Hp. cbn [negb Z.eqb]. apply runs_ret. split; [done|]. exists s. split; [done|]. split; [done|].
      intros y. rewrite Hiff. setoid_rewrite elem_of_cons. split.
      * intros [?|(g' & [->|?] & Hy)]; [tauto| |right; eauto]. unfold cps_of in Hy. rewrite Eb in Hy. set_solver.
      * intros [?|(g' & ? & ?)]; [tauto|right; eauto].
  - cbv beta. intros cps h' [Hdb' (s & Hs & HsU & Hiff)]. split; [done|]. exists s. split; [done|]. split; [done|].
    intros y. rewrite Hiff. split; [by left|]. intros [?|(g & Hg' & _)]; [done|set_solver].
Qed.

Lemma rep_with_cps r a l s : profile_rep r a -> array_rep l s -> profile_rep (with_cps r l) (set_cps a s).
Proof. intros (? & ? & ? & ? & ? & ? & ?) Hl. repeat (split; [done|]). done. Qed.

Lemma good_set_cps a s : good a -> s ⊆ U -> good (set_cps a s).
Proof. intros [] Hs. split; try done. by apply ids_ok_sub. Qed.

Lemma set_cps_id a : set_cps a (a_cps a) = a.
Proof. by destruct a. Qed.

Lemma write_same w x a : settled w -> w_all w !! x = Some a -> write w a = w.
Proof.
  intros HS Ha. rewrite (write_update w x a) by done. rewrite insert_id by done. by destruct w.
Qed.

Lemma write_set_cps w a s : write w (set_cps a s) =
  with_all (write w a) (<[a_id a := set_cps a s]> (w_all (write w a))).
Proof. unfold write, with_all, put_ids, put_name, put_record. cbn. by rewrite insert_insert_eq. Qed.

(** The record of [i] gets its CPS; what is not below [i] stays right. *)
Lemma fresh_cps_ok G i a s (D : gset Z) : G !! i = Some a -> i ∉ a_groups a ->
  (forall y, y ∈ s <-> exists g, g ∈ a_groups a /\ y ∈ cps_of G g) ->
  (forall x b, G !! x = Some b -> x <> i -> x ∉ D -> i ∉ a_groups b -> ok G x) ->
  let G' := <[i := set_cps a ({[i]} ∪ s)]> G in
  forall x, x ∉ D ∖ {[i]} -> (forall b, G !! x = Some b -> x <> i -> i ∉ a_groups b) -> ok G' x.
Proof.
  intros Hi Hni Hs Hok G' x Hx Hxi. destruct (decide (x = i)) as [->|Hne].
  - intros b Hb. unfold G' in *. rewrite lookup_insert_eq in Hb. injection Hb as <-. cbn. intros y.
    rewrite elem_of_union, elem_of_singleton, Hs, (parents_ext G (<[i := set_cps a ({[i]} ∪ s)]> G)); [done|].
    intros g Hg. unfold cps_of. rewrite lookup_insert_ne; [done|]. congruence.
  - destruct (G !! x) as [b|] eqn:Eb.
    + apply ok_frame; [done|done| |].
      * intros b' Hb'. rewrite Eb in Hb'. injection Hb' as <-. by apply Hxi.
      * eapply Hok; [exact Eb|done|set_solver|by apply Hxi].
    + intros b Hb. unfold G' in Hb. rewrite lookup_insert_ne in Hb by done. congruence.
Qed.

(** What [PDB_updateCps] needs of the database in which [a] is to be stored. *)
Definition ready (w : adb) a : Prop :=
  settled (write w a) /\ linked (w_all (write w a)) /\ ranked rank N (w_all (write w a)) /\
  within (w_all w) /\ within (w_all (write w a)).

(** What it leaves: the graph [G'], in which only the CPS have changed. *)
Definition repaired m (w1 : adb) (D : gset Z) (h : handle db) : Prop :=
  exists G', db_at m (with_all w1 G') h /\ same_shape (w_all w1) G' /\ within G' /\
    forall x, x ∉ D -> ok G' x.

Lemma update_own_ok (D : gset Z) m w h r a i :
  db_at m w h -> profile_rep r a -> good a -> a_id a = i -> i <> 0 -> ready w a ->
  (forall x b, w_all (write w a) !! x = Some b -> x <> i -> x ∉ D -> i ∉ a_groups b -> ok (w_all (write w a)) x) ->
  runs (update_own r) h (fun r' h' =>
    (exists s, profile_rep r' (set_cps a s)) /\
    repaired m (write w a) (D ∖ {[i]} ∪ (if i <? 0 then a_members a else ∅)) h').
Proof.
  intros Hdb Hr Hg Hid Hi0 (HS & HL & HR & HW0 & HW) Hok. unfold update_own. set (w1 := write w a) in *.
  set (G := w_all w1) in *.
  assert (G !! i = Some a) as Hi by (unfold G, w1; cbn; rewrite Hid; by rewrite lookup_insert_eq).
  pose proof (ranked_not_self _ _ _ _ _ HL HR Hi) as Hni. destruct (HW i a Hi) as [HiU _].
  eapply runs_bind; [by apply parents_cps_ok|]. cbv beta. intros cps h1 [Hdb1 (s & Hcps & HsU & Hs)].
  assert (forall y, y ∈ s <-> exists g, g ∈ a_groups a /\ y ∈ cps_of G g) as Hs'.
  { intros y. rewrite Hs. symmetry. apply parents_ext. intros g Hg'. unfold cps_of, G, w1. cbn.
    rewrite lookup_insert_ne; [done|]. congruence. }
  destruct (rep_add _ _ i Hcps (within_size _ HsU)) as (cps' & Ecps & Hcps').
  assert (p_id r = i) as Epid by (destruct Hr; congruence). rewrite Epid.
  eapply runs_let; [exact Ecps|]. set (a2 := set_cps a ({[i]} ∪ s)).
  assert (profile_rep (with_cps r cps') a2) as Hr2 by (by apply rep_with_cps).
  eapply runs_bind; [eapply (PDB_writeProfile_ok _ _ _ _ a2); [done|done| |cbn; congruence]|].
  { apply good_set_cps; [done|set_solver]. }
  cbv beta. intros _ h2 Hdb2. apply runs_ret. split; [by eexists|]. unfold a2 in Hdb2.
  rewrite write_set_cps, Hid in Hdb2. fold w1 G a2 in Hdb2.
  exists (<[i := a2]> G). split; [done|]. split; [symmetry; by apply same_shape_insert|]. split.
  - intros x b. destruct (decide (x = i)) as [->|Hne]; [|rewrite lookup_insert_ne by done; apply HW].
    rewrite lookup_insert_eq. intros [= <-]. split; [done|]. cbn. set_solver.
  - intros x Hx. apply (fresh_cps_ok G i a s D Hi Hni Hs' Hok); [set_solver|].
    intros b Hb _ Hin. destruct (HL i x b Hb Hin) as [Hneg Hm]. apply Hx, elem_of_union_r.
    destruct (Z.ltb_spec i 0); [by apply Hm|lia].
Qed.

(** The CPS of [i] and of everything below it are made right. *)
Lemma PDB_updateCps_ok fuel : forall (D : gset Z) m w h r a i,
  db_at m w h -> profile_rep r a -> good a -> a_id a = i -> i <> 0 -> ready w a ->
  (N - rank i < fuel)%nat ->
  (forall x b, w_all (write w a) !! x = Some b -> x <> i -> x ∉ D -> i ∉ a_groups b -> ok (w_all (write w a)) x) ->
  runs (PDB_updateCps fuel r) h (fun r' h' =>
    (exists s, profile_rep r' (set_cps a s)) /\ repaired m (write w a) (D ∖ {[i]}) h').
Proof.
  induction fuel as [|fuel IH]; intros D m w h r a i Hdb Hr Hg Hid Hi0 Hrd Hf Hok; [lia|].
  cbn [PDB_updateCps]. eapply runs_bind; [by eapply update_own_ok|]. cbv beta.
  intros r2 h2 [[s Hr2] Hrep]. destruct Hrd as (HS & HL & HR & _). set (w1 := write w a) in *.
  assert (p_id r2 = i) as -> by (destruct Hr2 as [-> _]; done). unfold PDB_ISGROUP.
  destruct (Z.ltb_spec i 0) as [Hneg|Hpos]; cbn [negb].
  2:{ apply runs_ret. split; [by exists s|]. by rewrite union_empty_r_L in Hrep. }
  pose proof Hr2 as (_ & _ & _ & _ & _ & _ & Hmem). apply array_rep_lists in Hmem as (ys & Hys & Lys).
  cbn [set_cps a_members] in Lys. destruct (lists_ok _ _ Lys (good_members _ Hg)) as (Hz & Hyi & Hnz).
  assert (w_all w1 !! i = Some a) as Hi by (unfold w1; cbn; rewrite Hid; by rewrite lookup_insert_eq).
  eapply runs_bind; [eapply (runs_each _ ys _ (fun rest h => repaired m w1 (D ∖ {[i]} ∪ list_to_set rest) h));
                     [done|done|unfold MAXIDS in Hz; lia| |]|].
  - destruct Lys as [_ ->]. done.
  - cbv beta. intros y rest h3 Hin (G' & Hdb3 & HG' & HW' & Hok').
    rewrite Forall_forall in Hyi. assert (y <> 0) as Hy0 by congruence.
    eapply runs_bind; [apply PDB_readProfile_ok; [done|auto]|]. cbv beta. cbn [with_all w_all].
    intros c h4 [Hdb4 Hc]. destruct (G' !! y) as [b|] eqn:Eb.
    + destruct (st_some _ _ (db_at_stored _ _ _ Hdb4) y b Eb) as (Eid & _ & Hgb & _).
      assert (p_id c = y) as -> by (destruct Hc; congruence). destruct (Z.eqb_spec y 0); [done|]. cbn [negb].
      pose proof (settled_shape w1 G' HS HG') as HS'.
      assert (write (with_all w1 G') b = with_all w1 G') as Ew by (by apply (write_same _ y)).
      pose proof (shape_ranked _ _ _ _ HG' HR) as HR'.
      eapply runs_bind; [eapply (IH (D ∖ {[i]} ∪ list_to_set rest) m (with_all w1 G') h4 c b y)|]; try done.
      * unfold ready. rewrite Ew. repeat (split; [first [done | by eapply shape_linked]|]). done.
      * destruct (same_shape_lookup _ _ i a HG' Hi) as (a' & Ha' & E). injection E as _ _ _ _ _ Em.
        destruct HR' as [HRb HRe]. pose proof (HRb y ltac:(eauto)).
        assert (y ∈ a_members a') as Hya by (rewrite Em; destruct Lys as [_ <-]; by apply elem_of_list_to_set).
        pose proof (HRe i a' y Ha' Hneg Hya ltac:(eauto)). lia.
      * rewrite Ew. intros x b' Hb' Hxy HxD _. apply Hok'. cbn in HxD. set_solver.
      * cbv beta. rewrite Ew. intros _ h5 [_ (G'' & Hdb5 & HG'' & HW'' & Hok'')]. apply runs_ret.
        exists G''. split; [done|]. split; [by etransitivity|]. split; [done|]. intros x Hx. apply Hok''. set_solver.
    + rewrite Hc. cbn [negb Z.eqb]. apply runs_ret. exists G'. repeat (split; [done|]). intros x Hx.
      destruct (decide (x = y)) as [->|Hne]; [intros b Hb; congruence|]. apply Hok'. set_solver.
  - cbv beta. intros _ h3 Hrep3. apply runs_ret. split; [by exists s|]. cbn in Hrep3.
    by rewrite union_empty_r_L in Hrep3.
Qed.
End update.
End PdbCps.
