(* ===== verification/PdbOps.v ===== *)
(** * Consistency of the protection database

    The operations of coda-src/al/pdb.c keep the database [consistent]:
    names and ids agree with the index, a group and its members list each
    other, membership has no cycles, and every CPS is exact
    ([consistent_closure]: it is the set of ids reachable through membership). *)
From Stdlib Require Import ZArith Lia.
From stdpp Require Import base list numbers gmap relations.
From S2P Require Import Prelude.
From S2P Require Import Text.
From S2P Require Import PdbArray.
From S2P Require Import PdbPack.
From S2P Require Import PdbDb.
From S2P Require Import Pdb.
From S2P Require Import PdbCps.
Import PdbArray PdbPack PdbDb Pdb PdbCps.

Module PdbOps.
Implicit Types (G : graph) (a b : principal) (x y g i : Z) (w : adb).

(** ** The invariant *)

(** Groups and members list each other; only groups have members. *)
Definition mutual G : Prop :=
  (forall y b g, G !! y = Some b -> g ∈ a_groups b -> g < 0 /\ exists a, G !! g = Some a /\ y ∈ a_members a) /\
  (forall x a y, G !! x = Some a -> x < 0 -> y ∈ a_members a -> exists b, G !! y = Some b /\ x ∈ a_groups b).

(** [x] is a direct member of [g]. *)
Definition member_of G x g : Prop := exists a, G !! x = Some a /\ g ∈ a_groups a.

(** The CPS of a principal is the set of ids reachable through membership. *)
Definition exact G : Prop := forall x a, G !! x = Some a ->
  forall y, y ∈ a_cps a <-> rtc (member_of G) x y.

(** The same in terms of the stored CPS. *)
Definition acyclic G : Prop := forall x a g, G !! x = Some a -> g ∈ a_groups a -> x ∉ cps_of G g.

(** Every name of the index is the name of the principal it leads to. *)
Definition index_ok w : Prop :=
  forall s i, w_names w !! s = Some i -> exists a, w_all w !! i = Some a /\ a_name a = s.

(** The public invariant of the database. *)
Record consistent w : Prop := {
  c_settled : settled w;
  c_index : index_ok w;
  c_mutual : mutual (w_all w);
  c_exact : exact (w_all w);
  c_acyclic : forall x, ~ tc (member_of (w_all w)) x x
}.

Lemma mutual_linked G : mutual G -> linked G.
Proof.
  intros [Hup _] x y b Hb Hx. destruct (Hup y b x Hb Hx) as (Hneg & a & Ha & Hy).
  split; [done|]. intros a' Ha'. congruence.
Qed.

Lemma mutual_shape G G' : same_shape G G' -> mutual G -> mutual G'.
Proof.
  intros HS [Hup Hdown]. pose proof HS as HS'. symmetry in HS'. split.
  - intros y b g Hb Hg. destruct (same_shape_lookup _ _ _ _ HS' Hb) as (b0 & Hb0 & E).
    injection E as _ _ _ _ Eg _. rewrite <- Eg in Hg. destruct (Hup y b0 g Hb0 Hg) as (Hneg & a & Ha & Hy).
    destruct (same_shape_lookup _ _ _ _ HS Ha) as (a' & Ha' & E). injection E as _ _ _ _ _ Em.
    split; [done|]. exists a'. by rewrite Em.
  - intros x a y Ha Hneg Hy. destruct (same_shape_lookup _ _ _ _ HS' Ha) as (a0 & Ha0 & E).
    injection E as _ _ _ _ _ Em. rewrite <- Em in Hy. destruct (Hdown x a0 y Ha0 Hneg Hy) as (b & Hb & Hx).
    destruct (same_shape_lookup _ _ _ _ HS Hb) as (b' & Hb' & E). injection E as _ _ _ _ Eg _.
    exists b'. by rewrite Eg.
Qed.

(** ** Exact CPS *)
Section closure.
Context G (Hok : forall x, ok G x).

Lemma cps_self x a : G !! x = Some a -> x ∈ cps_of G x.
Proof. intros Ha. unfold cps_of. rewrite Ha. apply (Hok x a Ha). by left. Qed.

Lemma cps_parent x g : member_of G x g -> cps_of G g ⊆ cps_of G x.
Proof.
  intros (a & Ha & Hg) y Hy. unfold cps_of at 1. rewrite Ha. apply (Hok x a Ha). right. eauto.
Qed.

Lemma rtc_cps x y : rtc (member_of G) x y -> is_Some (G !! y) -> y ∈ cps_of G x.
Proof.
  induction 1 as [x|x g y Hxg _ IH]; intros HS.
  - destruct HS as [a Ha]. by eapply cps_self.
  - by apply (cps_parent x g), IH.
Qed.

Context (Hac : acyclic G).

Lemma cps_smaller x g : member_of G x g -> (size (cps_of G g) < size (cps_of G x))%nat.
Proof.
  intros Hxg. apply subset_size. pose proof (cps_parent x g Hxg). destruct Hxg as (a & Ha & Hg).
  split; [done|]. intros Hsub. apply (Hac x a g Ha Hg), Hsub. by eapply cps_self.
Qed.

Lemma cps_rtc x y : y ∈ cps_of G x -> rtc (member_of G) x y /\ is_Some (G !! y).
Proof.
  remember (size (cps_of G x)) as n eqn:En. revert x En.
  induction (lt_wf n) as [n _ IH]. intros x -> Hy. unfold cps_of in Hy.
  destruct (G !! x) as [a|] eqn:Ha; [|set_solver]. apply (Hok x a Ha) in Hy as [->|(g & Hg & Hy)].
  - split; [done|eauto].
  - assert (member_of G x g) as Hxg by (by exists a).
    destruct (IH _ (cps_smaller x g Hxg) g eq_refl Hy) as [Hr HS]. split; [|done]. by eapply rtc_l.
Qed.

Lemma cps_dom x : cps_of G x ⊆ dom G.
Proof. intros y Hy. apply elem_of_dom. by apply (cps_rtc x). Qed.

Lemma cps_trans x y : y ∈ cps_of G x -> cps_of G y ⊆ cps_of G x.
Proof.
  intros Hy z Hz. apply cps_rtc in Hy as [Hxy _]. apply cps_rtc in Hz as [Hyz HS].
  apply rtc_cps; [by etransitivity|done].
Qed.
End closure.

(** The size of the CPS ranks the principals. *)
Lemma cps_ranked G : mutual G -> (forall x, ok G x) -> acyclic G ->
  ranked (fun x => size (cps_of G x)) (size G) G.
Proof.
  intros HM Hok Hac. split.
  - intros x _. rewrite <- size_dom. apply subseteq_size. by apply cps_dom.
  - intros x a y Ha Hneg Hy _. destruct (proj2 HM x a y Ha Hneg Hy) as (b & Hb & Hx).
    apply cps_smaller; [done|done|]. by exists b.
Qed.

(** Conversely a ranking excludes cycles. *)
Lemma ranked_acyclic rank N G : mutual G -> (forall x, ok G x) -> ranked rank N G -> acyclic G.
Proof.
  intros HM Hok [_ HR].
  assert (forall x g, member_of G x g -> (rank g < rank x)%nat) as Hedge.
  { intros x g (a & Ha & Hg). destruct (proj1 HM x a g Ha Hg) as (Hneg & b & Hb & Hx). eapply HR; eauto. }
  assert (forall n x y, (rank x < n)%nat -> y ∈ cps_of G x -> y = x \/ (rank y < rank x)%nat) as Hle.
  { intros n. induction n as [|n IH]; intros x y Hn Hy; [lia|]. unfold cps_of in Hy.
    destruct (G !! x) as [a|] eqn:Ha; [|set_solver]. apply (Hok x a Ha) in Hy as [->|(g & Hg & Hy)]; [by left|].
    pose proof (Hedge x g ltac:(by exists a)). destruct (IH g y ltac:(lia) Hy) as [->|]; right; lia. }
  intros x a g Ha Hg Hx. pose proof (Hedge x g ltac:(by exists a)).
  destruct (Hle _ g x (Nat.lt_succ_diag_r _) Hx) as [->|]; lia.
Qed.

(** ** The invariant in local terms *)
Lemma consistent_local w : consistent w -> (forall x, ok (w_all w) x) /\ acyclic (w_all w).
Proof.
  intros [_ _ HM HE HA]. set (G := w_all w) in *.
  assert (forall x g y, member_of G x g -> y ∈ cps_of G g <-> rtc (member_of G) g y) as Hcps.
  { intros x g y (a & Ha & Hg). destruct (proj1 HM x a g Ha Hg) as (_ & b & Hb & _).
    unfold cps_of. rewrite Hb. by apply HE. }
  split.
  - intros x a Ha y. rewrite (HE x a Ha). split.
    + intros Hr. inversion Hr as [|? g ? Hxg Hgy]; subst; [by left|]. right. exists g. split.
      * destruct Hxg as (a' & Ha' & Hg). congruence.
      * by apply (Hcps x g y Hxg).
    + intros [->|(g & Hg & Hy)]; [done|]. assert (member_of G x g) as Hxg by (by exists a).
      eapply rtc_l; [exact Hxg|]. by apply (Hcps x g y).
  - intros x a g Ha Hg Hx. assert (member_of G x g) as Hxg by (by exists a).
    apply (Hcps x g x Hxg) in Hx. apply (HA x). eapply tc_rtc_r; [by apply tc_once|done].
Qed.

Lemma consistent_intro rank N w : settled w -> index_ok w -> mutual (w_all w) ->
  (forall x, ok (w_all w) x) -> ranked rank N (w_all w) -> consistent w.
Proof.
  intros HS HI HM Hok HR. pose proof (ranked_acyclic rank N _ HM Hok HR) as Hac. split; try done.
  - intros x a Ha y. assert (a_cps a = cps_of (w_all w) x) as -> by (unfold cps_of; by rewrite Ha). split.
    + intros Hy. by apply cps_rtc.
    + intros Hr. apply rtc_cps; [done|done|]. apply rtc_inv_r in Hr as [->|(z & _ & Hzy)]; [eauto|].
      destruct Hzy as (b & Hb & Hy). destruct (proj1 HM z b y Hb Hy) as (_ & c & Hc & _). eauto.
  - intros x Hx. inversion Hx as [? ? Hxx|? g ? Hxg Hgx]; subst.
    + destruct Hxx as (a & Ha & Hxa). apply (Hac x a x Ha Hxa). by eapply cps_self.
    + destruct Hxg as (a & Ha & Hg). apply (Hac x a g Ha Hg). apply rtc_cps; [done|by apply tc_rtc|eauto].
Qed.

(** ** Changing one record *)
Definition set_groups a (s : gset Z) : principal :=
  {| a_id := a_id a; a_name := a_name a; a_owner := a_owner a; a_owner_name := a_owner_name a;
     a_groups := s; a_cps := a_cps a; a_members := a_members a |}.
Definition set_members a (s : gset Z) : principal :=
  {| a_id := a_id a; a_name := a_name a; a_owner := a_owner a; a_owner_name := a_owner_name a;
     a_groups := a_groups a; a_cps := a_cps a; a_members := s |}.

Lemma rep_with_member_of r a l s : profile_rep r a -> array_rep l s -> profile_rep (with_member_of r l) (set_groups a s).
Proof. intros (? & ? & ? & ? & ? & ? & ?) Hl. repeat (split; [done|]). done. Qed.
Lemma rep_with_members r a l s : profile_rep r a -> array_rep l s -> profile_rep (with_members r l) (set_members a s).
Proof. intros (? & ? & ? & ? & ? & ? & ?) Hl. repeat (split; [done|]). done. Qed.
Lemma good_set_groups a s : good a -> ids_ok s -> good (set_groups a s).
Proof. intros [] Hs. by split. Qed.
Lemma good_set_members a s : good a -> ids_ok s -> good (set_members a s).
Proof. intros [] Hs. by split. Qed.

(** A change of the lists of a record leaves the index right. *)
Lemma settled_insert w x a a' : settled w -> w_all w !! x = Some a -> a_id a' = a_id a -> a_name a' = a_name a ->
  settled (with_all w (<[x := a']> (w_all w))).
Proof.
  intros HS Ha Ei En y b. cbn. destruct (decide (y = x)) as [->|Hne].
  - rewrite lookup_insert_eq. intros [= <-]. rewrite Ei, En. by apply HS.
  - rewrite lookup_insert_ne by done. apply HS.
Qed.

Lemma index_insert w x a a' : index_ok w -> w_all w !! x = Some a -> a_name a' = a_name a ->
  index_ok (with_all w (<[x := a']> (w_all w))).
Proof.
  intros HI Ha En s i Hs. cbn in *. destruct (HI s i Hs) as (b & Hb & Eb).
  destruct (decide (i = x)) as [->|Hne]; [|rewrite lookup_insert_ne by done; eauto].
  rewrite lookup_insert_eq. exists a'. split; [done|]. congruence.
Qed.

Lemma index_shape w G : index_ok w -> same_shape (w_all w) G -> index_ok (with_all w G).
Proof.
  intros HI HG s i Hs. destruct (HI s i Hs) as (a & Ha & En).
  destruct (same_shape_lookup _ _ _ _ HG Ha) as (a' & Ha' & E). injection E as _ E2 _ _ _ _.
  exists a'. split; [done|]. congruence.
Qed.

(** A record that keeps its CPS changes no CPS. *)
Lemma cps_of_insert G x a a' y : G !! x = Some a -> a_cps a' = a_cps a ->
  cps_of (<[x := a']> G) y = cps_of G y.
Proof.
  intros Ha E. unfold cps_of. destruct (decide (y = x)) as [->|Hne].
  - by rewrite lookup_insert_eq, Ha.
  - by rewrite lookup_insert_ne.
Qed.

Lemma ok_insert G x a a' y : G !! x = Some a -> a_cps a' = a_cps a -> (y = x -> a_groups a' = a_groups a) ->
  ok G y -> ok (<[x := a']> G) y.
Proof.
  intros Ha E Eg Hok b Hb z. setoid_rewrite (cps_of_insert G x a a'); [|done..].
  destruct (decide (y = x)) as [->|Hne].
  - rewrite lookup_insert_eq in Hb. injection Hb as <-. rewrite E, Eg by done. by apply Hok.
  - rewrite lookup_insert_ne in Hb by done. by apply Hok.
Qed.

(** ** What is stored *)
Section facts.
Context {db : Type} `{RWCDBLaws db, AllocOk, Uninit}.

Lemma stored_good m w (h : handle db) x a : db_at m w h -> w_all w !! x = Some a ->
  good a /\ a_id a = x /\ x <> 0 /\ int32 x.
Proof.
  intros Hdb Ha. destruct (st_some _ _ (db_at_stored _ _ _ Hdb) x a Ha) as (E & Hne & Hg & _).
  do 3 (split; [done|]). rewrite <- E. apply Hg.
Qed.

Lemma dom_ids m w (h : handle db) : db_at m w h -> Z.of_nat (size (w_all w)) <= MAXIDS -> ids_ok (dom (w_all w)).
Proof.
  intros Hdb Hz. split; [by rewrite size_dom|]. intros x Hx. apply elem_of_dom in Hx as [a Ha].
  destruct (stored_good m w h x a Hdb Ha) as (_ & _ & ? & ?). done.
Qed.

(** Reading the profile of a principal that exists. *)
Lemma read_some m w (h : handle db) x a : db_at m w h -> w_all w !! x = Some a ->
  runs (PDB_readProfile x) h (fun r h' => db_at m w h' /\ profile_rep r a).
Proof.
  intros Hdb Ha. destruct (stored_good m w h x a Hdb Ha) as (_ & _ & _ & Hi).
  eapply runs_mono; [by apply PDB_readProfile_ok|]. cbv beta. intros r h' [Hdb' Hr]. by rewrite Ha in Hr.
Qed.
End facts.

(** ** Adding and removing a member *)

(** [y] is in the member list of [x]. *)
Definition has_member G x y : Prop := exists a, G !! x = Some a /\ y ∈ a_members a.

Lemma mutual_edges G : mutual G <->
  (forall y g, member_of G y g -> g < 0 /\ has_member G g y) /\
  (forall x y, x < 0 -> has_member G x y -> member_of G y x).
Proof.
  split; intros [Hup Hdown]; split.
  - intros y g (b & Hb & Hg). by apply (Hup y b g).
  - intros x y Hneg (a & Ha & Hy). by apply (Hdown x a y).
  - intros y b g Hb Hg. apply Hup. by exists b.
  - intros x a y Ha Hneg Hy. apply Hdown; [done|]. by exists a.
Qed.

(** The records of [i] and [g] with other lists. *)
Definition relist (f : gset Z -> gset Z) (f' : gset Z -> gset Z) i g G : graph :=
  alter (fun a => set_groups a (f (a_groups a))) i (alter (fun a => set_members a (f' (a_members a))) g G).

(** [i] becomes, or is no longer, a member of [g]. *)
Definition link i g G : graph := relist ({[g]} ∪.) ({[i]} ∪.) i g G.
Definition unlink i g G : graph := relist (.∖ {[g]}) (.∖ {[i]}) i g G.

Lemma relist_lookup f f' i g G x : relist f f' i g G !! x =
  (fun a => set_groups (set_members a (if decide (x = g) then f' (a_members a) else a_members a))
                       (if decide (x = i) then f (a_groups a) else a_groups a)) <$> G !! x.
Proof.
  unfold relist. destruct (decide (x = i)) as [Ei|Ei], (decide (x = g)) as [Eg|Eg]; try subst i; try subst g;
    rewrite ?lookup_alter_eq, ?lookup_alter_ne, ?lookup_alter_eq, ?lookup_alter_ne by done;
    destruct (G !! x) as [[]|]; done.
Qed.

Lemma relist_some f f' i g G x : is_Some (relist f f' i g G !! x) <-> is_Some (G !! x).
Proof. rewrite relist_lookup. apply fmap_is_Some. Qed.

Lemma relist_cps f f' i g G x : cps_of (relist f f' i g G) x = cps_of G x.
Proof. unfold cps_of. rewrite relist_lookup. by destruct (G !! x). Qed.

Lemma relist_member_of f f' i g G y z : member_of (relist f f' i g G) y z <->
  exists b, G !! y = Some b /\ z ∈ (if decide (y = i) then f (a_groups b) else a_groups b).
Proof.
  unfold member_of. rewrite relist_lookup. split.
  - intros (a & Ha & Hz). apply fmap_Some in Ha as (b & Hb & ->). eauto.
  - intros (b & Hb & Hz). rewrite Hb. eexists. split; [done|]. done.
Qed.

Lemma relist_has_member f f' i g G x y : has_member (relist f f' i g G) x y <->
  exists a, G !! x = Some a /\ y ∈ (if decide (x = g) then f' (a_members a) else a_members a).
Proof.
  unfold has_member. rewrite relist_lookup. split.
  - intros (a & Ha & Hz). apply fmap_Some in Ha as (b & Hb & ->). eauto.
  - intros (b & Hb & Hz). rewrite Hb. eexists. split; [done|]. done.
Qed.

Section link.
Context G i g ia ga (Hi : G !! i = Some ia) (Hg : G !! g = Some ga).

Lemma link_member_of y z : member_of (link i g G) y z <-> member_of G y z \/ (y = i /\ z = g).
Proof using Hi.
  unfold link. rewrite relist_member_of. destruct (decide (y = i)) as [->|Hne].
  - unfold member_of. setoid_rewrite elem_of_union. setoid_rewrite elem_of_singleton.
    split; [intros (b & Hb & [->|?])|intros [(b & ? & ?)|[_ ->]]]; eauto 10.
  - unfold member_of. naive_solver.
Qed.
Lemma link_has_member x y : has_member (link i g G) x y <-> has_member G x y \/ (x = g /\ y = i).
Proof using Hg.
  unfold link. rewrite relist_has_member. destruct (decide (x = g)) as [->|Hne].
  - unfold has_member. setoid_rewrite elem_of_union. setoid_rewrite elem_of_singleton.
    split; [intros (b & Hb & [->|?])|intros [(b & ? & ?)|[_ ->]]]; eauto 10.
  - unfold has_member. naive_solver.
Qed.
Lemma unlink_member_of y z : member_of (unlink i g G) y z <-> member_of G y z /\ ~ (y = i /\ z = g).
Proof using Hi.
  unfold unlink. rewrite relist_member_of. destruct (decide (y = i)) as [->|Hne].
  - unfold member_of. setoid_rewrite elem_of_difference. setoid_rewrite elem_of_singleton.
    split; [intros (b & Hb & ? & ?)|intros [(b & ? & ?) ?]]; eauto 10.
    split; [eauto|]. by intros [_ ->].
  - unfold member_of. naive_solver.
Qed.
Lemma unlink_has_member x y : has_member (unlink i g G) x y <-> has_member G x y /\ ~ (x = g /\ y = i).
Proof using Hg.
  unfold unlink. rewrite relist_has_member. destruct (decide (x = g)) as [->|Hne].
  - unfold has_member. setoid_rewrite elem_of_difference. setoid_rewrite elem_of_singleton.
    split; [intros (b & Hb & ? & ?)|intros [(b & ? & ?) ?]]; eauto 10.
    split; [eauto|]. by intros [_ ->].
  - unfold has_member. naive_solver.
Qed.

Lemma link_mutual : g < 0 -> mutual G -> mutual (link i g G).
Proof using All.
  rewrite !mutual_edges. intros Hneg [Hup Hdown]. split.
  - intros y z. rewrite link_member_of, link_has_member. intros [Hyz|[-> ->]]; [|tauto].
    destruct (Hup y z Hyz). tauto.
  - intros x y Hx. rewrite link_member_of, link_has_member. intros [Hxy|[-> ->]]; [|tauto]. left. auto.
Qed.
Lemma unlink_mutual : mutual G -> mutual (unlink i g G).
Proof using All.
  rewrite !mutual_edges. intros [Hup Hdown]. split.
  - intros y z. rewrite unlink_member_of, unlink_has_member. intros [Hyz Hne]. destruct (Hup y z Hyz). tauto.
  - intros x y Hx. rewrite unlink_member_of, unlink_has_member. intros [Hxy Hne]. split; [auto|tauto].
Qed.

Lemma ranked_edges rank N G' : ranked rank N G' <->
  (forall x, is_Some (G' !! x) -> (rank x <= N)%nat) /\
  forall x y, x < 0 -> has_member G' x y -> is_Some (G' !! y) -> (rank x < rank y)%nat.
Proof.
  split; intros [Hb Hr]; (split; [done|]).
  - intros x y Hneg (a & Ha & Hy). by apply (Hr x a y).
  - intros x a y Ha Hneg Hy. apply Hr; [done|]. by exists a.
Qed.

Lemma unlink_ranked rank N : ranked rank N G -> ranked rank N (unlink i g G).
Proof using All.
  rewrite !ranked_edges. intros [Hb Hr]. split.
  - intros x Hx. apply Hb. by apply relist_some in Hx.
  - intros x y Hneg. rewrite unlink_has_member. unfold unlink. rewrite relist_some. intros [Hxy _]. auto.
Qed.

(** Below [i], the new ancestors are those of [g]. *)
Definition link_cps x : gset Z := if decide (i ∈ cps_of G x) then cps_of G x ∪ cps_of G g else cps_of G x.

Lemma link_ranked : mutual G -> (forall x, ok G x) -> acyclic G -> i ∉ cps_of G g ->
  ranked (fun x => size (link_cps x)) (size G) (link i g G).
Proof using All.
  intros HM Hok Hac Hig. apply ranked_edges. split.
  - intros x _. rewrite <- size_dom. apply subseteq_size. unfold link_cps.
    pose proof (cps_dom G Hok Hac x). pose proof (cps_dom G Hok Hac g). destruct (decide _); set_solver.
  - intros x y Hneg. rewrite link_has_member. intros Hxy _. apply subset_size. destruct Hxy as [Hxy|[-> ->]].
    + pose proof HM as HM'. apply mutual_edges in HM' as [_ Hdown]. specialize (Hdown x y Hneg Hxy).
      pose proof (cps_parent G Hok y x Hdown) as Hsub. destruct Hdown as (b & Hb & Hx).
      pose proof (cps_self G Hok y b Hb) as Hyy. pose proof (Hac y b x Hb Hx) as Hyx. unfold link_cps.
      destruct (decide (i ∈ cps_of G x)) as [Hix|Hix], (decide (i ∈ cps_of G y)) as [Hiy|Hiy].
      * split; [set_solver|]. intros Hsub'. assert (y ∈ cps_of G g) as Hyg.
        { assert (y ∈ cps_of G x ∪ cps_of G g) as Hu by (apply Hsub', elem_of_union; by left).
          apply elem_of_union in Hu as [?|?]; done. }
        by apply Hig, (cps_trans G Hok Hac g y Hyg).
      * by destruct (Hiy (Hsub i Hix)).
      * split; [set_solver|]. intros Hsub'. apply Hyx, Hsub', elem_of_union. by left.
      * split; [done|]. intros Hsub'. by apply Hyx, Hsub'.
    + unfold link_cps. pose proof (cps_self G Hok i ia Hi). destruct (decide (i ∈ cps_of G g)); [done|].
      destruct (decide (i ∈ cps_of G i)); [|done]. split; [set_solver|].
      intros Hsub'. apply Hig, Hsub', elem_of_union. by left.
Qed.
End link.

Lemma alter_as_insert (f : principal -> principal) i G a : G !! i = Some a -> alter f i G = <[i := f a]> G.
Proof.
  intros Ha. apply map_eq. intros x. destruct (decide (x = i)) as [->|Hne].
  - by rewrite lookup_alter_eq, lookup_insert_eq, Ha.
  - by rewrite lookup_alter_ne, lookup_insert_ne.
Qed.

Lemma relist_insert f f' i g G ia ga : i <> g -> G !! i = Some ia -> G !! g = Some ga ->
  relist f f' i g G =
  <[i := set_groups ia (f (a_groups ia))]> (<[g := set_members ga (f' (a_members ga))]> G).
Proof.
  intros Hne Hi Hg. unfold relist. rewrite (alter_as_insert _ g G ga Hg).
  apply (alter_as_insert (fun a => set_groups a (f (a_groups a)))). by rewrite lookup_insert_ne.
Qed.

(** The names and ids of the database do not change. *)
Definition same_index w w' : Prop :=
  w_names w' = w_names w /\ w_maxuid w' = w_maxuid w /\ w_mingid w' = w_mingid w.

Section ops.
Context {db : Type} `{RWCDBLaws db, AllocOk, Uninit}.
Implicit Types (h : handle db).

(** [PDB_updateCps] on the one record whose CPS may be wrong restores the invariant. *)
Lemma update_consistent rank N (U : gset Z) fuel m w h r a :
  db_at m w h -> profile_rep r a -> good a -> a_id a <> 0 -> ids_ok U ->
  within U (w_all w) -> within U (w_all (write w a)) ->
  settled (write w a) -> index_ok (write w a) -> mutual (w_all (write w a)) ->
  ranked rank N (w_all (write w a)) -> (N < fuel)%nat ->
  (forall x, x <> a_id a -> ok (w_all (write w a)) x) ->
  runs (PDB_updateCps fuel r) h (fun _ h' => exists w', db_at m w' h' /\ consistent w' /\
    same_shape (w_all (write w a)) (w_all w') /\ same_index (write w a) w').
Proof.
  intros Hdb Hr Hg Hne HU HW0 HW HS HI HM HR Hf Hok.
  eapply runs_mono; [eapply (PDB_updateCps_ok rank N U HU fuel ∅ m w h r a (a_id a)); try done|].
  - split; [done|]. split; [by apply mutual_linked|]. done.
  - lia.
  - intros x b _ Hx _ _. auto.
  - cbv beta. intros r' h' [_ (G' & Hdb' & HG' & _ & Hok')]. exists (with_all (write w a) G').
    split; [done|]. split; [|done].
    apply (consistent_intro rank N).
    + by apply settled_shape.
    + by apply index_shape.
    + by eapply mutual_shape.
    + intros x. apply Hok'. set_solver.
    + by eapply shape_ranked.
Qed.

Lemma within_intro (U : gset Z) G : (forall x, is_Some (G !! x) -> x ∈ U) -> (forall x, cps_of G x ⊆ U) -> within U G.
Proof.
  intros Hd Hc x a Ha. split; [apply Hd; eauto|]. specialize (Hc x). unfold cps_of in Hc. by rewrite Ha in Hc.
Qed.

Lemma within_dom w : consistent w -> within (dom (w_all w)) (w_all w).
Proof.
  intros Hc. destruct (consistent_local w Hc) as [Hok Hac]. apply within_intro.
  - intros x. apply elem_of_dom.
  - intros x. by apply cps_dom.
Qed.

Lemma groups_dom w x a : consistent w -> w_all w !! x = Some a -> a_groups a ⊆ dom (w_all w).
Proof.
  intros Hc Ha y Hy. destruct (proj1 (c_mutual _ Hc) x a y Ha Hy) as (_ & b & Hb & _). apply elem_of_dom. eauto.
Qed.

Lemma members_dom w x a : consistent w -> w_all w !! x = Some a -> x < 0 -> a_members a ⊆ dom (w_all w).
Proof.
  intros Hc Ha Hneg y Hy. destruct (proj2 (c_mutual _ Hc) x a y Ha Hneg Hy) as (b & Hb & _). apply elem_of_dom. eauto.
Qed.

(** Both records are written with other lists and the CPS below [i] are recomputed. *)
Lemma relist_update rank N f f' fuel m w h r i g ia ga :
  consistent w -> Z.of_nat (size (w_all w)) <= MAXIDS ->
  w_all w !! i = Some ia -> w_all w !! g = Some ga -> i <> g -> g < 0 ->
  let ia' := set_groups ia (f (a_groups ia)) in
  let w1 := write w (set_members ga (f' (a_members ga))) in
  db_at m w1 h -> profile_rep r ia' -> ids_ok (f (a_groups ia)) ->
  mutual (relist f f' i g (w_all w)) -> ranked rank N (relist f f' i g (w_all w)) -> (N < fuel)%nat ->
  runs (PDB_updateCps fuel r) h (fun _ h' => exists w', db_at m w' h' /\ consistent w' /\
    same_shape (relist f f' i g (w_all w)) (w_all w') /\ same_index w w').
Proof.
  intros Hc Hz Hi Hg Hne Hneg ia' w1 Hdb Hr Hids HM HR Hf. destruct (consistent_local w Hc) as [Hok Hac].
  pose proof (c_settled _ Hc) as HS. pose proof (c_index _ Hc) as HI.
  set (ga' := set_members ga (f' (a_members ga))) in *.
  assert (w1 = with_all w (<[g := ga']> (w_all w))) as Ew1 by (by apply (write_update w g ga)).
  clearbody w1. assert (w_all w1 !! i = Some ia) as Hi1 by (rewrite Ew1; cbn; by rewrite lookup_insert_ne).
  assert (settled w1) as HS1 by (rewrite Ew1; by eapply settled_insert).
  assert (write w1 ia' = with_all w (relist f f' i g (w_all w))) as Ew2.
  { rewrite (write_update w1 i ia) by done. rewrite Ew1. cbn. by rewrite (relist_insert f f' i g _ ia ga). }
  destruct (stored_good _ _ _ _ _ Hdb Hi1) as (Hgi & Eid & Hi0 & _).
  assert (ids_ok (dom (w_all w))) as HU.
  { replace (dom (w_all w)) with (dom (w_all w1)).
    - apply (dom_ids _ _ _ Hdb). rewrite Ew1. cbn. by rewrite map_size_insert_Some by eauto.
    - rewrite Ew1. cbn. rewrite dom_insert_L. apply elem_of_dom_2 in Hg. set_solver. }
  pose proof (within_dom w Hc) as HW.
  assert (forall x, cps_of (w_all w) x ⊆ dom (w_all w)) as Hcd by (intros; by apply cps_dom).
  eapply runs_mono; [eapply (update_consistent rank N (dom (w_all w)) fuel m w1 h r ia'); try done|].
  - by apply good_set_groups.
  - cbn. congruence.
  - rewrite Ew1. cbn. apply within_intro.
    + intros x. rewrite <- elem_of_dom, dom_insert_L. apply elem_of_dom_2 in Hg. set_solver.
    + intros x. by rewrite (cps_of_insert _ g ga).
  - rewrite Ew2. cbn. apply within_intro.
    + intros x Hx. apply relist_some in Hx. by apply elem_of_dom.
    + intros x. by rewrite relist_cps.
  - rewrite (write_update w1 i ia) by done. by eapply settled_insert.
  - rewrite (write_update w1 i ia) by done. apply (index_insert w1 i ia); [|done|done].
    rewrite Ew1. by apply (index_insert w g ga).
  - by rewrite Ew2.
  - by rewrite Ew2.
  - intros x Hx. rewrite (write_update w1 i ia) by done. cbn. rewrite Ew1. cbn in *.
    apply (ok_insert _ i ia); [by rewrite lookup_insert_ne|done|congruence|].
    by apply (ok_insert _ g ga).
  - cbv beta. rewrite Ew2. intros _ h' (w' & ? & ? & ? & ?). by exists w'.
Qed.

(** The first steps of both operations: the group's profile. *)
Lemma open_and_read {A} m w h x a (k : PDB_profile -> M db A) Q :
  db_at m w h -> m < 2 ^ 31 - 1 -> w_all w !! x = Some a ->
  (forall r h', db_at (m + 1) w h' -> profile_rep r a -> runs (k r) h' Q) ->
  runs (do* _ := PDB_db_open O_RDWR in do* r := PDB_readProfile x in k r)%C h Q.
Proof.
  intros Hdb Hm Ha Hk. eapply runs_bind; [by apply PDB_db_open_rw_ok|]. cbv beta. intros _ h1 Hdb1.
  eapply runs_bind; [by eapply read_some|]. cbv beta. intros r h2 [Hdb2 Hr]. by apply Hk.
Qed.

Lemma rep_id_ne m w h r x a : db_at m w h -> w_all w !! x = Some a -> profile_rep r a ->
  p_id r = x /\ negb (p_id r =? 0) = true.
Proof.
  intros Hdb Ha (Eid & _). destruct (stored_good _ _ _ _ _ Hdb Ha) as (_ & E & Hne & _).
  split; [congruence|]. rewrite Eid, E. by destruct (Z.eqb_spec x 0).
Qed.

Lemma addToGroup_ok fuel m w h i g ia ga :
  consistent w -> db_at m w h -> Z.of_nat (size (w_all w)) <= MAXIDS -> m < 2 ^ 31 - 1 ->
  g < 0 -> w_all w !! i = Some ia -> w_all w !! g = Some ga -> i ∉ a_cps ga -> (size (w_all w) < fuel)%nat ->
  runs (PDB_addToGroup fuel i g) h (fun _ h' => exists w', db_at (m + 1) w' h' /\ consistent w' /\
    same_shape (link i g (w_all w)) (w_all w') /\ same_index w w').
Proof.
  intros Hc Hdb Hz Hm Hneg Hi Hg Hig Hf. destruct (consistent_local w Hc) as [Hok Hac].
  pose proof (dom_ids _ _ _ Hdb Hz) as HU. pose proof (elem_of_dom_2 _ _ _ Hi) as HiU.
  pose proof (elem_of_dom_2 _ _ _ Hg) as HgU.
  destruct (stored_good _ _ _ _ _ Hdb Hi) as (Hgi & Eid & Hi0 & _).
  destruct (stored_good _ _ _ _ _ Hdb Hg) as (Hgg & _ & _ & _).
  assert (i ∉ cps_of (w_all w) g) as Hig' by (unfold cps_of; by rewrite Hg).
  assert (i <> g) as Hne by (intros ->; by apply Hig', (cps_self _ Hok g ga)).
  unfold PDB_addToGroup. apply runs_check.
  { unfold PDB_ISGROUP. destruct (Z.ltb_spec g 0), (Z.eqb_spec i 0); done || lia. }
  eapply open_and_read; [done..|]. intros r h1 Hdb1 Hr. apply runs_check; [by eapply rep_id_ne|].
  pose proof Hr as (_ & _ & _ & _ & _ & Hcps & Hmem).
  destruct (rep_search _ _ i Hcps) as (n & En & Hn); [apply (good_cps _ Hgg)|].
  eapply runs_let; [exact En|]. rewrite (proj2 Hn Hig). cbn [negb Z.eqb Pos.eqb].
  destruct (rep_add _ _ i Hmem) as (l & El & Hl); [apply (good_members _ Hgg)|]. eapply runs_let; [exact El|].
  pose proof (rep_with_members _ _ _ _ Hr Hl) as Hr'.
  eapply runs_bind; [eapply PDB_writeProfile_ok; [done|exact Hr'| |]|].
  { apply good_set_members; [done|]. apply (ids_ok_sub (dom (w_all w)) HU).
    pose proof (members_dom w g ga Hc Hg Hneg). set_solver. }
  { cbn. destruct (stored_good _ _ _ _ _ Hdb Hg) as (_ & -> & ? & _). done. }
  cbv beta. intros _ h2 Hdb2.
  assert (w_all (write w (set_members ga ({[i]} ∪ a_members ga))) !! i = Some ia) as Hi1.
  { rewrite (write_update w g ga); [|apply Hc|done..]. cbn. by rewrite lookup_insert_ne. }
  eapply runs_bind; [by eapply read_some|]. cbv beta. intros r2 h3 [Hdb3 Hr2].
  apply runs_check; [by eapply rep_id_ne|]. pose proof Hr2 as (_ & _ & _ & _ & Hgr & _).
  destruct (rep_add _ _ g Hgr) as (l2 & El2 & Hl2); [apply (good_groups _ Hgi)|]. eapply runs_let; [exact El2|].
  pose proof (rep_with_member_of _ _ _ _ Hr2 Hl2) as Hr2'.
  eapply runs_bind; [eapply (relist_update _ (size (w_all w)) ({[g]} ∪.) ({[i]} ∪.) fuel (m + 1) w h3 _ i g ia ga)|]; try done.
  - apply (ids_ok_sub (dom (w_all w)) HU). pose proof (groups_dom w i ia Hc Hi). set_solver.
  - eapply link_mutual; [done..|apply Hc].
  - eapply link_ranked; try done; apply Hc.
  - cbv beta. intros _ h4 Hres. apply runs_ret. done.
Qed.

Lemma addToGroup_refused fuel m w h i g ga :
  db_at m w h -> m < 2 ^ 31 - 1 -> g < 0 -> i <> 0 ->
  w_all w !! g = Some ga -> i ∈ a_cps ga ->
  runs (PDB_addToGroup fuel i g) h (fun _ h' => db_at (m + 1) w h').
Proof.
  intros Hdb Hm Hneg Hi0 Hg Hig. destruct (stored_good _ _ _ _ _ Hdb Hg) as (Hgg & _ & _ & _).
  unfold PDB_addToGroup. apply runs_check.
  { unfold PDB_ISGROUP. destruct (Z.ltb_spec g 0), (Z.eqb_spec i 0); done || lia. }
  eapply open_and_read; [done..|]. intros r h1 Hdb1 Hr. apply runs_check; [by eapply rep_id_ne|].
  pose proof Hr as (_ & _ & _ & _ & _ & Hcps & _).
  destruct (rep_search _ _ i Hcps) as (n & En & Hn); [apply (good_cps _ Hgg)|].
  eapply runs_let; [exact En|]. destruct (Z.eqb_spec n (-1)) as [E|E]; [by apply Hn in E|]. by apply runs_ret.
Qed.

Lemma removeFromGroup_ok fuel m w h i g ia ga :
  consistent w -> db_at m w h -> Z.of_nat (size (w_all w)) <= MAXIDS -> m < 2 ^ 31 - 1 ->
  g < 0 -> w_all w !! i = Some ia -> w_all w !! g = Some ga -> i <> g -> (size (w_all w) < fuel)%nat ->
  runs (PDB_removeFromGroup fuel i g) h (fun _ h' => exists w', db_at (m + 1) w' h' /\ consistent w' /\
    same_shape (unlink i g (w_all w)) (w_all w') /\ same_index w w').
Proof.
  intros Hc Hdb Hz Hm Hneg Hi Hg Hne Hf. destruct (consistent_local w Hc) as [Hok Hac].
  pose proof (dom_ids _ _ _ Hdb Hz) as HU.
  destruct (stored_good _ _ _ _ _ Hdb Hi) as (Hgi & Eid & Hi0 & _).
  destruct (stored_good _ _ _ _ _ Hdb Hg) as (Hgg & Egid & Hg0 & _).
  unfold PDB_removeFromGroup. apply runs_check.
  { unfold PDB_ISGROUP. destruct (Z.ltb_spec g 0), (Z.eqb_spec i 0); done || lia. }
  eapply open_and_read; [done..|]. intros r h1 Hdb1 Hr. apply runs_check; [by eapply rep_id_ne|].
  pose proof Hr as (_ & _ & _ & _ & _ & _ & Hmem).
  destruct (rep_del _ _ i Hmem) as (l & El & Hl); [apply (good_members _ Hgg)|]. eapply runs_let; [exact El|].
  pose proof (rep_with_members _ _ _ _ Hr Hl) as Hr'.
  eapply runs_bind; [eapply PDB_writeProfile_ok; [done|exact Hr'| |cbn; congruence]|].
  { apply good_set_members; [done|]. apply (ids_ok_sub (dom (w_all w)) HU).
    pose proof (members_dom w g ga Hc Hg Hneg). set_solver. }
  cbv beta. intros _ h2 Hdb2.
  assert (w_all (write w (set_members ga (a_members ga ∖ {[i]}))) !! i = Some ia) as Hi1.
  { rewrite (write_update w g ga); [|apply Hc|done..]. cbn. by rewrite lookup_insert_ne. }
  eapply runs_bind; [by eapply read_some|]. cbv beta. intros r2 h3 [Hdb3 Hr2].
  apply runs_check; [by eapply rep_id_ne|]. pose proof Hr2 as (_ & _ & _ & _ & Hgr & _).
  destruct (rep_del _ _ g Hgr) as (l2 & El2 & Hl2); [apply (good_groups _ Hgi)|]. eapply runs_let; [exact El2|].
  pose proof (rep_with_member_of _ _ _ _ Hr2 Hl2) as Hr2'.
  eapply runs_bind; [eapply (relist_update _ (size (w_all w)) (.∖ {[g]}) (.∖ {[i]}) fuel (m + 1) w h3 _ i g ia ga)|]; try done.
  - apply (ids_ok_sub (dom (w_all w)) HU). pose proof (groups_dom w i ia Hc Hi). set_solver.
  - eapply unlink_mutual; [done..|apply Hc].
  - eapply unlink_ranked; [done..|]. apply cps_ranked; [apply Hc|done..].
  - cbv beta. intros _ h4 Hres. apply runs_ret. done.
Qed.
End ops.
End PdbOps.
