(* ===== verification/PdbUsers.v ===== *)
(** * Creating, deleting and finding users and groups

    The operations of coda-src/al/pdb.c that add and remove principals keep the
    database [consistent]; the lookups agree with it.  [PDB_deleteGroup] aborts
    on a group that is itself a member of a group. *)
From Stdlib Require Import ZArith Lia.
From stdpp Require Import base list numbers gmap relations.
From S2P Require Import Prelude.
From S2P Require Import Text.
From S2P Require Import PdbArray.
From S2P Require Import PdbPack.
From S2P Require Import PdbDb.
From S2P Require Import Pdb.
From S2P Require Import PdbCps.
From S2P Require Import PdbOps.
Import PdbArray PdbPack PdbDb Pdb PdbCps PdbOps.

Module PdbUsers.
Implicit Types (G : graph) (a b : principal) (x y g i : Z) (w : adb).

(** A principal without groups and members. *)
Definition loner i (name : list Z) (owner : Z) (owner_name : list Z) : principal :=
  {| a_id := i; a_name := name; a_owner := owner; a_owner_name := owner_name;
     a_groups := ∅; a_cps := {[i]}; a_members := ∅ |}.

Lemma name_ok_nil : name_ok [].
Proof. split; [constructor|]. unfold zlen, MAXIDS. cbn. lia. Qed.

Lemma ids_ok_empty : ids_ok ∅.
Proof. split; [rewrite size_empty; unfold MAXIDS; lia|set_solver]. Qed.

Lemma ids_ok_singleton x : int32 x -> x <> 0 -> ids_ok {[x]}.
Proof.
  intros Hx Hne. split; [rewrite size_singleton; unfold MAXIDS; lia|].
  intros y Hy. by apply elem_of_singleton in Hy as ->.
Qed.

Lemma loner_good i name o on : int32 i -> i <> 0 -> name_ok name -> name <> [] -> int32 o -> name_ok on ->
  good (loner i name o on).
Proof. intros. split; cbn; try done; try apply ids_ok_empty. by apply ids_ok_singleton. Qed.

(** ** Adding a principal *)
Section fresh.
Context w i a (Hc : consistent w) (Hfresh : w_all w !! i = None).

Lemma fresh_not_group x b : w_all w !! x = Some b -> i ∉ a_groups b.
Proof using All.
  intros Hb Hi. destruct (proj1 (c_mutual _ Hc) x b i Hb Hi) as (_ & c & Ec & _). congruence.
Qed.
Lemma fresh_not_member x b : w_all w !! x = Some b -> x < 0 -> i ∉ a_members b.
Proof using All.
  intros Hb Hneg Hi. destruct (proj2 (c_mutual _ Hc) x b i Hb Hneg Hi) as (c & Ec & _). congruence.
Qed.

Lemma fresh_mutual : a_groups a = ∅ -> (i < 0 -> a_members a = ∅) -> mutual (<[i := a]> (w_all w)).
Proof using All.
  intros Eg Em. destruct (c_mutual _ Hc) as [Hup Hdown]. split.
  - intros y b g Hb Hg. apply lookup_insert_Some in Hb as [[-> <-]|[Hne Hb]]; [set_solver|].
    destruct (Hup y b g Hb Hg) as (Hneg & c & Ec & Hy). split; [done|]. exists c.
    rewrite lookup_insert_ne; [done|]. intros ->. congruence.
  - intros x b y Hb Hneg Hy. apply lookup_insert_Some in Hb as [[-> <-]|[Hne Hb]]; [set_solver|].
    destruct (Hdown x b y Hb Hneg Hy) as (c & Ec & Hx). exists c. rewrite lookup_insert_ne; [done|]. intros ->. congruence.
Qed.

Lemma fresh_ok : a_groups a = ∅ -> a_cps a = {[i]} -> forall x, ok (<[i := a]> (w_all w)) x.
Proof using All.
  intros Eg Ecps x b Hb z. destruct (consistent_local w Hc) as [Hok _].
  apply lookup_insert_Some in Hb as [[-> <-]|[Hne Hb]].
  - rewrite Eg, Ecps. set_solver.
  - rewrite (Hok x b Hb), (parents_ext (w_all w) (<[i := a]> (w_all w))); [done|]. intros g Hg. unfold cps_of.
    rewrite lookup_insert_ne; [done|]. intros E'. subst g. by apply (fresh_not_group x b).
Qed.

Lemma fresh_ranked : (i < 0 -> a_members a = ∅) ->
  ranked (fun x => size (cps_of (w_all w) x)) (size (w_all w)) (<[i := a]> (w_all w)).
Proof using All.
  intros Em. destruct (consistent_local w Hc) as [Hok Hac].
  destruct (cps_ranked (w_all w) (c_mutual _ Hc) Hok Hac) as [Hb Hr]. split.
  - intros x Hx. rewrite <- size_dom. apply subseteq_size. by apply cps_dom.
  - intros x b y Hb' Hneg Hy HyS. apply lookup_insert_Some in Hb' as [[-> <-]|[Hne Hb']]; [set_solver|].
    apply (Hr x b y Hb' Hneg Hy). destruct (proj2 (c_mutual _ Hc) x b y Hb' Hneg Hy) as (c & Ec & _). eauto.
Qed.

Lemma fresh_settled : a_id a = i -> w_names w !! a_name a = None -> settled (write w a).
Proof using All.
  intros Eid Hn x b Hb. cbn in *. rewrite Eid in *. apply lookup_insert_Some in Hb as [[-> <-]|[Hne Hb]].
  - rewrite lookup_insert_eq. split; [done|]. split; [done|]. lia.
  - destruct (c_settled _ Hc x b Hb) as (E & Hnb & Hr). split; [done|]. split; [|lia].
    rewrite lookup_insert_ne; [done|]. intros E'. congruence.
Qed.

Lemma fresh_index : a_id a = i -> index_ok (write w a).
Proof using All.
  intros Eid s j Hs. cbn in *. rewrite Eid in *. apply lookup_insert_Some in Hs as [[<- <-]|[Hne Hs]].
  - exists a. by rewrite lookup_insert_eq.
  - destruct (c_index _ Hc s j Hs) as (b & Hb & En). exists b. rewrite lookup_insert_ne; [done|]. congruence.
Qed.

Lemma fresh_consistent : a_id a = i -> w_names w !! a_name a = None -> a_groups a = ∅ -> a_cps a = {[i]} ->
  (i < 0 -> a_members a = ∅) -> consistent (write w a).
Proof using All.
  intros Eid Hn Eg Ecps Em.
  assert (w_all (write w a) = <[i := a]> (w_all w)) as Ew by (cbn; by rewrite Eid).
  apply (consistent_intro (fun x => size (cps_of (w_all w) x)) (size (w_all w))).
  - by apply fresh_settled.
  - by apply fresh_index.
  - rewrite Ew. by apply fresh_mutual.
  - rewrite Ew. by apply fresh_ok.
  - rewrite Ew. by apply fresh_ranked.
Qed.
End fresh.

Section ops.
Context {db : Type} `{RWCDBLaws db, AllocOk, Uninit}.
Implicit Types (h : handle db).

(** ** Lookups *)
Lemma PDB_lookupByName_ok m w h s : db_at m w h -> consistent w -> s <> [] ->
  runs (PDB_lookupByName s) h (fun v h' => v = default 0 (w_names w !! s) /\ db_at m w h').
Proof.
  intros Hdb Hc Hs. unfold PDB_lookupByName. eapply runs_bind; [by apply PDB_db_open_ro_ok|].
  cbv beta. intros _ h1 Hdb1. eapply runs_bind; [by apply PDB_readProfile_byname_ok|].
  cbv beta. intros r h2 [Hdb2 Hr]. do 2 eexists. split; [done|]. split; [|done].
  destruct (w_names w !! s) as [i|] eqn:Ei; cbn in Hr; [|done].
  destruct (c_index _ Hc s i Ei) as (a & Ha & _). rewrite Ha in Hr.
  by destruct (rep_id_ne _ _ _ _ _ _ Hdb Ha Hr).
Qed.

Lemma PDB_lookupById_ok m w h i : db_at m w h -> int32 i ->
  runs (PDB_lookupById i) h (fun s h' => s = a_name <$> w_all w !! i /\ db_at m w h').
Proof.
  intros Hdb Hi. unfold PDB_lookupById. eapply runs_bind; [by apply PDB_db_open_ro_ok|].
  cbv beta. intros _ h1 Hdb1. eapply runs_bind; [by apply PDB_readProfile_ok|].
  cbv beta. intros r h2 [Hdb2 Hr]. do 2 eexists. split; [done|]. split; [|done].
  destruct (w_all w !! i) as [a|] eqn:Ea.
  - destruct (rep_id_ne _ _ _ _ _ _ Hdb Ea Hr) as [_ ->]. by destruct Hr as (_ & -> & _).
  - rewrite Hr. done.
Qed.

Lemma pdb_nameInUse_ok m w h s : db_at m w h -> consistent w -> s <> [] ->
  runs (pdb_nameInUse s) h (fun u h' => u = bool_decide (is_Some (w_names w !! s)) /\ db_at m w h').
Proof.
  intros Hdb Hc Hs. unfold pdb_nameInUse. eapply runs_bind; [by apply PDB_db_open_ro_ok|].
  cbv beta. intros _ h1 Hdb1.
  destruct (PDB_readProfile_byname_ok m w h1 s Hdb1 Hs) as (r & h2 & E & Hdb2 & Hr).
  unfold PDB_readProfile_byname, mbind in E.
  destruct (PDB_db_read 0 (Some s) h1) as [[data h3]|] eqn:Er; [|done]. cbn [rbind] in E.
  unfold runs, mbind. rewrite Er. cbn [rbind]. unfold lift in *.
  destruct (pdb_unpack uninit data) as [r'|] eqn:Eu; [|done]. cbn in E. injection E as <- <-.
  do 2 eexists. split; [done|]. split; [|done].
  destruct (w_names w !! s) as [i|] eqn:Ei; cbn in Hr.
  - destruct (c_index _ Hc s i Ei) as (a & Ha & _). rewrite Ha in Hr.
    destruct (rep_id_ne _ _ _ _ _ _ Hdb Ha Hr) as [_ ->]. by rewrite bool_decide_eq_true_2 by eauto.
  - rewrite Hr. by rewrite bool_decide_eq_false_2 by (intros [? ?]; done).
Qed.

(** ** Users *)
Lemma PDB_createUser_ok m w h name : db_at m w h -> consistent w -> m < 2 ^ 31 - 1 ->
  name_ok name -> name <> [] -> w_names w !! name = None -> w_maxuid w < 2 ^ 31 - 1 ->
  let i := w_maxuid w + 1 in
  let w' := write w (loner i name 0 []) in
  runs (PDB_createUser name) h (fun v h' => v = i /\ db_at (m + 1) w' h' /\ consistent w').
Proof.
  intros Hdb Hc Hm Hname Hne Hfree Hmax i w'. pose proof (st_range _ _ (db_at_stored _ _ _ Hdb)) as Hr.
  unfold PDB_createUser. apply runs_check.
  { destruct (Z.eqb_spec (zlen name) 0); [|done]. destruct name; [done|]. rewrite zlen_cons in *.
    pose proof (zlen_nonneg name). lia. }
  eapply runs_bind; [by apply pdb_nameInUse_ok|]. cbv beta. intros u h1 [-> Hdb1].
  apply runs_check; [by rewrite Hfree|].
  eapply runs_bind; [by apply PDB_db_open_rw_ok|]. cbv beta. intros _ h2 Hdb2.
  eapply runs_bind; [by apply PDB_db_maxids_ok|]. cbv beta. intros ug h3 [-> Hdb3]. cbv beta iota.
  eapply runs_let; [apply i32_ok; lia|]. fold i.
  eapply runs_bind; [apply PDB_db_update_maxids_ok; [done|lia|lia]|]. cbv beta. intros _ h4 Hdb4.
  destruct (rep_add pdb_array_init ∅ i rep_init) as (l & El & Hl); [apply ids_ok_empty|].
  eapply runs_let; [exact El|]. rewrite union_empty_r_L in Hl.
  eapply runs_bind; [eapply (PDB_writeProfile_ok _ _ _ _ (loner i name 0 [])); [done| | |cbn; lia]|].
  - split; [done|]. split; [done|]. split; [done|]. split; [done|]. split; [apply rep_init|].
    split; [done|]. apply rep_init.
  - apply loner_good; [unfold int32; lia|lia|done|done|unfold int32; lia|apply name_ok_nil].
  - cbv beta. intros _ h5 Hdb5. do 2 eexists. split; [done|]. split; [done|].
    assert (write (put_ids w (Z.max (w_maxuid w) i) (Z.min (w_mingid w) (w_mingid w))) (loner i name 0 []) =
            write w (loner i name 0 [])) as E.
    { unfold write, put_ids, put_name, put_record. cbn. f_equal; lia. }
    rewrite E in Hdb5. split; [exact Hdb5|]. apply (fresh_consistent w i); try done.
    destruct (w_all w !! i) as [b|] eqn:Eb; [|done]. destruct (c_settled _ Hc i b Eb) as (_ & _ & ?). lia.
Qed.
End ops.

(** ** Deleting a user *)

(** [i] is taken off the member lists of the groups in [P]. *)
Definition scrub i (P : gset Z) G : graph :=
  map_imap (fun x a => Some (if decide (x ∈ P) then set_members a (a_members a ∖ {[i]}) else a)) G.

Lemma scrub_lookup i P G x :
  scrub i P G !! x = (fun a => if decide (x ∈ P) then set_members a (a_members a ∖ {[i]}) else a) <$> G !! x.
Proof. unfold scrub. rewrite map_lookup_imap. by destruct (G !! x). Qed.

Lemma scrub_nil i G : scrub i ∅ G = G.
Proof.
  apply map_eq. intros x. rewrite scrub_lookup. destruct (G !! x) as [a|]; [|done]. cbn.
  destruct (decide (x ∈ ∅)); set_solver.
Qed.

Lemma scrub_step i P G g a : scrub i P G !! g = Some a ->
  scrub i ({[g]} ∪ P) G = <[g := set_members a (a_members a ∖ {[i]})]> (scrub i P G).
Proof.
  intros Ha. apply map_eq. intros x. rewrite scrub_lookup in *. destruct (decide (x = g)) as [->|Hne].
  - rewrite lookup_insert_eq. apply fmap_Some in Ha as (b & Hb & ->). rewrite Hb. cbn.
    destruct (decide (g ∈ {[g]} ∪ P)); [|set_solver]. f_equal. destruct (decide (g ∈ P)); [|done].
    unfold set_members. cbn. f_equal. set_solver.
  - rewrite lookup_insert_ne, scrub_lookup by done. destruct (G !! x) as [b|]; [|done]. cbn.
    destruct (decide (x ∈ {[g]} ∪ P)), (decide (x ∈ P)); set_solver.
Qed.

Lemma scrub_member_of i P G y z : member_of (scrub i P G) y z <-> member_of G y z.
Proof.
  unfold member_of. rewrite scrub_lookup. split.
  - intros (a & Ha & Hz). apply fmap_Some in Ha as (b & Hb & ->). exists b. by destruct (decide (y ∈ P)).
  - intros (b & Hb & Hz). rewrite Hb. eexists. split; [done|]. by destruct (decide (y ∈ P)).
Qed.

Lemma scrub_has_member i P G x y : has_member (scrub i P G) x y <-> has_member G x y /\ ~ (x ∈ P /\ y = i).
Proof.
  unfold has_member. rewrite scrub_lookup. split.
  - intros (a & Ha & Hz). apply fmap_Some in Ha as (b & Hb & ->).
    destruct (decide (x ∈ P)) as [Hx|Hx]; [cbn in Hz|split; [eauto|tauto]].
    split; [exists b|]; set_solver.
  - intros [(b & Hb & Hz) Hn]. rewrite Hb. eexists. split; [done|].
    destruct (decide (x ∈ P)); [cbn|done]. set_solver.
Qed.

Lemma scrub_cps i P G x : cps_of (scrub i P G) x = cps_of G x.
Proof. unfold cps_of. rewrite scrub_lookup. destruct (G !! x); [|done]. cbn. by destruct (decide (x ∈ P)). Qed.

Lemma scrub_ok i P G x : ok G x -> ok (scrub i P G) x.
Proof.
  intros Hok a Ha z. rewrite scrub_lookup in Ha. apply fmap_Some in Ha as (b & Hb & ->).
  setoid_rewrite scrub_cps. by destruct (decide (x ∈ P)); apply (Hok b Hb).
Qed.

Lemma scrub_settled i P w : settled w -> settled (with_all w (scrub i P (w_all w))).
Proof.
  intros HS x a Ha. cbn in *. rewrite scrub_lookup in Ha. apply fmap_Some in Ha as (b & Hb & ->).
  destruct (HS x b Hb) as (? & ? & ?). by destruct (decide (x ∈ P)).
Qed.

Lemma scrub_index i P w : index_ok w -> index_ok (with_all w (scrub i P (w_all w))).
Proof.
  intros HI t j Ht. destruct (HI t j Ht) as (a & Ha & En). cbn. rewrite scrub_lookup, Ha.
  eexists. split; [done|]. by destruct (decide (j ∈ P)).
Qed.

(** The database without [ia]. *)
Definition without w ia : adb := drop_name (drop_record w (a_id ia)) (a_name ia).

Section without.
Context w i ia (Hc : consistent w) (Hi : w_all w !! i = Some ia).

Lemma id_of : a_id ia = i.
Proof using All. by destruct (c_settled _ Hc i ia Hi). Qed.

Lemma without_settled : settled (without w ia).
Proof using All.
  intros x a Ha. cbn in *. rewrite id_of in Ha. apply lookup_delete_Some in Ha as [Hne Ha].
  destruct (c_settled _ Hc x a Ha) as (E & En & Hr). split; [done|]. split; [|done].
  rewrite lookup_delete_ne; [done|]. intros E'. destruct (c_settled _ Hc i ia Hi) as (_ & En' & _). congruence.
Qed.

Lemma without_index : index_ok (without w ia).
Proof using All.
  intros t j Ht. cbn in *. apply lookup_delete_Some in Ht as [Hne Ht]. destruct (c_index _ Hc t j Ht) as (a & Ha & En).
  exists a. rewrite lookup_delete_ne; [done|]. rewrite id_of. intros E'. subst j. congruence.
Qed.

Lemma without_member_of y z : member_of (w_all (without w ia)) y z <-> member_of (w_all w) y z /\ y <> i.
Proof using All.
  cbn. rewrite id_of. unfold member_of. destruct (decide (y = i)) as [->|Hne].
  - rewrite lookup_delete_eq. naive_solver.
  - rewrite lookup_delete_ne by done. naive_solver.
Qed.

Lemma without_has_member x y : has_member (w_all (without w ia)) x y <-> has_member (w_all w) x y /\ x <> i.
Proof using All.
  cbn. rewrite id_of. unfold has_member. destruct (decide (x = i)) as [->|Hne].
  - rewrite lookup_delete_eq. naive_solver.
  - rewrite lookup_delete_ne by done. naive_solver.
Qed.

Lemma without_ranked : ranked (fun x => size (cps_of (w_all w) x)) (size (w_all w)) (w_all (without w ia)).
Proof using All.
  destruct (consistent_local w Hc) as [Hok Hac]. pose proof (cps_ranked _ (c_mutual _ Hc) Hok Hac) as HR.
  rewrite ranked_edges in HR |- *. destruct HR as [Hb Hr].
  assert (forall x, is_Some (w_all (without w ia) !! x) -> is_Some (w_all w !! x)) as Hsub.
  { intros x. cbn. intros [b Hb']. apply lookup_delete_Some in Hb' as [_ Hb']. eauto. }
  split; [auto|]. intros x y Hneg. rewrite without_has_member. intros [Hxy _] HS. auto.
Qed.

(** Without a user, whose groups forget it, all is well. *)
Lemma without_user_consistent : 0 < i ->
  consistent (with_all (without w ia) (scrub i (a_groups ia) (w_all (without w ia)))).
Proof using All.
  intros Hpos. destruct (consistent_local w Hc) as [Hok Hac]. pose proof (c_mutual _ Hc) as HM.
  rewrite mutual_edges in HM. destruct HM as [Hup Hdown].
  apply (consistent_intro (fun x => size (cps_of (w_all w) x)) (size (w_all w))).
  - apply scrub_settled, without_settled.
  - apply scrub_index, without_index.
  - rewrite mutual_edges. cbn [with_all w_all]. split.
    + intros y z. rewrite scrub_member_of, scrub_has_member, without_member_of, without_has_member.
      intros [Hyz Hne]. destruct (Hup y z Hyz) as [Hneg Hzy]. split; [done|]. split; [split; [done|lia]|]. naive_solver.
    + intros x y Hneg. rewrite scrub_member_of, scrub_has_member, without_member_of, without_has_member.
      intros [[Hxy _] Hn]. pose proof (Hdown x y Hneg Hxy) as Hyx. split; [done|]. intros ->. apply Hn. split; [|done].
      destruct Hyx as (b & Hb & Hx). congruence.
  - intros x. apply scrub_ok. intros a Ha z. cbn in Ha. rewrite id_of in Ha.
    apply lookup_delete_Some in Ha as [Hne Ha]. rewrite (Hok x a Ha), (parents_ext (w_all w) (w_all (without w ia))); [done|].
    intros g Hg. destruct (Hup x g ltac:(by exists a)) as [Hneg _]. unfold cps_of. cbn. rewrite id_of.
    rewrite lookup_delete_ne; [done|lia].
  - cbn [with_all w_all]. pose proof without_ranked as HR. rewrite ranked_edges in HR |- *. destruct HR as [Hb Hr].
    assert (forall x, is_Some (scrub i (a_groups ia) (w_all (without w ia)) !! x) -> is_Some (w_all (without w ia) !! x)) as Hsub.
    { intros x. rewrite scrub_lookup. apply fmap_is_Some. }
    split; [auto|]. intros x y Hneg. rewrite scrub_has_member. intros [Hxy _] HS. auto.
Qed.
End without.

Section ops2.
Context {db : Type} `{RWCDBLaws db, AllocOk, Uninit}.
Implicit Types (h : handle db).

(** The groups in [l] forget [i]. *)
Lemma scrub_loop m w h l gs i : db_at m w h -> settled w -> holds l gs -> 0 ∉ gs -> zlen gs <= MAXIDS ->
  (forall g, g ∈ gs -> is_Some (w_all w !! g)) ->
  runs (each l (fun nextid =>
         do* p := PDB_readProfile nextid in
         lift (cassert (negb (p_id p =? 0))) ;*
         do* l := lift (pdb_array_del (p_groups_or_members p) i) in
         PDB_writeProfile (with_members p l))%C) h
    (fun _ h' => db_at m (with_all w (scrub i (list_to_set gs) (w_all w))) h').
Proof.
  intros Hdb HS Hl Hnz Hz Hex.
  eapply runs_mono; [eapply (runs_each _ gs _ (fun rest h => exists P : gset Z,
    db_at m (with_all w (scrub i P (w_all w))) h /\ P ∪ list_to_set rest = list_to_set gs))|].
  - done.
  - done.
  - unfold MAXIDS in Hz. lia.
  - exists ∅. rewrite scrub_nil. split; [by destruct w|set_solver].
  - cbv beta. intros g rest h1 Hin (P & Hdb1 & HP). destruct (Hex g Hin) as [a Ha].
    set (a' := if decide (g ∈ P) then set_members a (a_members a ∖ {[i]}) else a).
    assert (scrub i P (w_all w) !! g = Some a') as Ha' by (rewrite scrub_lookup, Ha; done).
    destruct (stored_good _ _ _ _ _ Hdb1 Ha') as (Hg & Eid & Hne & _).
    eapply runs_bind; [by eapply read_some|]. cbv beta. intros p h2 [Hdb2 Hp].
    apply runs_check; [by eapply rep_id_ne|]. pose proof Hp as (_ & _ & _ & _ & _ & _ & Hmem).
    destruct (rep_del _ _ i Hmem) as (l' & El & Hl'); [apply (good_members _ Hg)|]. eapply runs_let; [exact El|].
    eapply runs_mono; [eapply PDB_writeProfile_ok; [done|by apply rep_with_members| |cbn; congruence]|].
    { apply good_set_members; [done|]. apply (ids_ok_sub (a_members a')); [apply (good_members _ Hg)|set_solver]. }
    cbv beta. intros _ h3 Hdb3. exists ({[g]} ∪ P). split; [|set_solver].
    rewrite (write_update _ g a') in Hdb3 by (first [done | by apply scrub_settled]). cbn in Hdb3.
    by rewrite (scrub_step i P (w_all w) g a').
  - cbv beta. intros _ h' (P & Hdb' & HP). cbn in HP. rewrite union_empty_r_L in HP. by rewrite HP in Hdb'.
Qed.

Lemma PDB_deleteUser_ok m w h i ia : db_at m w h -> consistent w -> m < 2 ^ 31 - 1 -> 0 < i ->
  w_all w !! i = Some ia ->
  let w' := with_all (without w ia) (scrub i (a_groups ia) (w_all (without w ia))) in
  runs (PDB_deleteUser i) h (fun _ h' => db_at (m + 1) w' h' /\ consistent w').
Proof.
  intros Hdb Hc Hm Hpos Hi w'. destruct (stored_good _ _ _ _ _ Hdb Hi) as (Hg & Eid & Hne & _).
  unfold PDB_deleteUser. eapply open_and_read; [done..|]. intros r h1 Hdb1 Hr.
  destruct (rep_id_ne _ _ _ _ _ _ Hdb Hi Hr) as [_ Hb]. destruct (p_id r =? 0); [done|].
  eapply runs_bind; [by eapply PDB_deleteProfile_ok|]. cbv beta. fold (without w ia). intros _ h2 Hdb2.
  pose proof Hr as (_ & _ & _ & _ & Hgr & _). apply array_rep_lists in Hgr as (gs & Hgs & Lgs).
  destruct (lists_ok _ _ Lgs (good_groups _ Hg)) as (Hz & _ & Hnz).
  eapply runs_bind; [eapply (scrub_loop _ (without w ia) _ _ gs i); [done|by eapply without_settled|done..|]|].
  - intros g Hin. assert (g ∈ a_groups ia) as Hga by (destruct Lgs as [_ <-]; by apply elem_of_list_to_set).
    destruct (proj1 (c_mutual _ Hc) i ia g Hi Hga) as (Hneg & b & Hb' & _). exists b. cbn.
    rewrite Eid, lookup_delete_ne; [done|lia].
  - cbv beta. intros _ h3 Hdb3. apply runs_ret. destruct Lgs as [_ Lgs]. rewrite Lgs in Hdb3.
    split; [exact Hdb3|by apply without_user_consistent].
Qed.
End ops2.
End PdbUsers.
