(* ===== verification/PdbGroups.v ===== *)
(** * Creating and deleting groups

    [PDB_createGroup] and [PDB_deleteGroup] of coda-src/al/pdb.c keep the
    database [consistent]; [PDB_deleteGroup] aborts on a group that is itself a
    member of a group. *)
From Stdlib Require Import ZArith Lia.
From stdpp Require Import base list numbers gmap relations.
From S2P Require Import Prelude.
From S2P Require Import Text.
From S2P Require Import PdbArray.
From S2P Require Import PdbPack.
From S2P Require Import PdbDb.
From S2P Require Import Pdb.
From S2P Require Import PdbCps.
From S2P Require Import PdbOps.
From S2P Require Import PdbUsers.
Import PdbArray PdbPack PdbDb Pdb PdbCps PdbOps PdbUsers.

Module PdbGroups.
Implicit Types (G : graph) (a b : principal) (x y g i o : Z) (w : adb).

Lemma ids_ok_add (s : gset Z) x : ids_ok s -> Z.of_nat (size s) < MAXIDS -> int32 x -> x <> 0 -> ids_ok ({[x]} ∪ s).
Proof.
  intros [_ Hs] Hz Hx Hne. split.
  - rewrite size_union_alt, size_singleton. assert (size (s ∖ {[x]}) <= size s)%nat; [|lia].
    apply subseteq_size. set_solver.
  - intros y. rewrite elem_of_union, elem_of_singleton. intros [->|Hy]; auto.
Qed.

(** ** The graph with a new group [i] of owner [o] *)
Definition new_group i name o (oname : list Z) : principal := set_members (loner i name o oname) {[o]}.
Definition new_owner pa i : principal :=
  set_members (set_groups (set_cps pa ({[i]} ∪ a_cps pa)) ({[i]} ∪ a_groups pa)) ({[i]} ∪ a_members pa).

Section create.
Context w i o (pa r : principal) (Hc : consistent w) (Hfresh : w_all w !! i = None) (Ho : w_all w !! o = Some pa).
Context (Hneg : i < 0) (Hpos : 0 < o).
Hypothesis Hr : a_groups r = ∅ /\ a_cps r = {[i]} /\ a_members r = {[o]}.

Let G' : graph := <[o := new_owner pa i]> (<[i := r]> (w_all w)).

Lemma create_lookup x : G' !! x =
  if decide (x = o) then Some (new_owner pa i) else if decide (x = i) then Some r else w_all w !! x.
Proof.
  unfold G'. destruct (decide (x = o)) as [->|Hxo]; [by rewrite lookup_insert_eq|].
  rewrite lookup_insert_ne by done. destruct (decide (x = i)) as [->|Hxi]; [by rewrite lookup_insert_eq|].
  by rewrite lookup_insert_ne.
Qed.

Lemma create_member_of y z : member_of G' y z <-> member_of (w_all w) y z \/ (y = o /\ z = i).
Proof using All.
  unfold member_of. rewrite create_lookup. destruct Hr as (Eg & _ & _).
  destruct (decide (y = o)) as [->|Hyo].
  - split; [|intros [(b & Hb & Hz)|[_ ->]]]; [|exists (new_owner pa i); split; [done|]; cbn; set_solver..].
    intros (b & [= <-] & Hz). cbn in Hz. apply elem_of_union in Hz as [Hz|Hz]; [right; set_solver|left; eauto].
  - destruct (decide (y = i)) as [->|Hyi]; [|naive_solver]. split.
    + intros (b & [= <-] & Hz). set_solver.
    + intros [(b & Hb & _)|[? _]]; congruence.
Qed.

Lemma create_has_member x y : x < 0 -> has_member G' x y <-> has_member (w_all w) x y \/ (x = i /\ y = o).
Proof using All.
  intros Hx. unfold has_member. rewrite create_lookup. destruct Hr as (_ & _ & Em).
  destruct (decide (x = o)); [lia|]. destruct (decide (x = i)) as [->|Hxi]; [|naive_solver]. split.
  - intros (b & [= <-] & Hy). right. set_solver.
  - intros [(b & Hb & _)|[_ ->]]; [congruence|]. exists r. set_solver.
Qed.

Lemma create_mutual : mutual G'.
Proof using All.
  pose proof (c_mutual _ Hc) as HM. rewrite mutual_edges in HM |- *. destruct HM as [Hup Hdown]. split.
  - intros y z. rewrite create_member_of. intros [Hyz|[-> ->]].
    + destruct (Hup y z Hyz) as [Hz Hzy]. split; [done|]. rewrite create_has_member by done. by left.
    + split; [done|]. rewrite create_has_member by done. by right.
  - intros x y Hx. rewrite create_member_of, create_has_member by done. intros [Hxy|[-> ->]]; [left; auto|by right].
Qed.

Lemma create_cps g : g <> o -> g <> i -> cps_of G' g = cps_of (w_all w) g.
Proof.
  intros Hgo Hgi. unfold cps_of. rewrite create_lookup.
  destruct (decide (g = o)); [done|]. by destruct (decide (g = i)).
Qed.

Lemma create_old_groups x b g : w_all w !! x = Some b -> g ∈ a_groups b -> g <> o /\ g <> i.
Proof using All.
  intros Hb Hg. destruct (proj1 (c_mutual _ Hc) x b g Hb Hg) as (Hgn & c & Hcg & _).
  split; [lia|]. intros ->. congruence.
Qed.

Lemma create_ok x : ok G' x.
Proof using All.
  destruct (consistent_local w Hc) as [Hok _]. destruct Hr as (Eg & Ecps & _). intros b Hb z.
  assert (cps_of G' i = {[i]}) as Ei.
  { unfold cps_of. rewrite create_lookup. destruct (decide (i = o)); [lia|]. by destruct (decide (i = i)). }
  rewrite create_lookup in Hb. destruct (decide (x = o)) as [->|Hxo].
  - injection Hb as <-. cbn. rewrite elem_of_union, (Hok o pa Ho). split.
    + intros [Hz|[->|(g & Hg & Hz)]]; [right; exists i; rewrite Ei; set_solver|by left|].
      right. exists g. destruct (create_old_groups o pa g Ho Hg). rewrite create_cps by done. set_solver.
    + intros [->|(g & Hg & Hz)]; [tauto|]. apply elem_of_union in Hg as [Hg|Hg].
      * apply elem_of_singleton in Hg as ->. left. by rewrite Ei in Hz.
      * right. right. exists g. destruct (create_old_groups o pa g Ho Hg). by rewrite create_cps in Hz.
  - destruct (decide (x = i)) as [->|Hxi]; [injection Hb as <-; rewrite Eg, Ecps; set_solver|].
    rewrite (Hok x b Hb), (parents_ext (w_all w) G'); [done|]. intros g Hg.
    destruct (create_old_groups x b g Hb Hg). by apply create_cps.
Qed.

Definition create_rank x : nat := if decide (x = i) then 0%nat else S (size (cps_of (w_all w) x)).

Lemma create_ranked : ranked create_rank (S (size (w_all w))) G'.
Proof using All.
  destruct (consistent_local w Hc) as [Hok Hac]. rewrite ranked_edges. unfold create_rank. split.
  - intros x _. destruct (decide (x = i)); [lia|]. assert (size (cps_of (w_all w) x) <= size (w_all w))%nat; [|lia].
    rewrite <- size_dom. apply subseteq_size. by apply cps_dom.
  - intros x y Hx. rewrite create_has_member by done. intros [Hxy|[-> ->]] _.
    + pose proof (c_mutual _ Hc) as HM. rewrite mutual_edges in HM. pose proof (proj2 HM x y Hx Hxy) as Hyx.
      pose proof (cps_smaller _ Hok Hac y x Hyx). destruct Hyx as (b & Hb & _).
      destruct (decide (y = i)); [congruence|]. destruct (decide (x = i)); lia.
    + destruct (decide (i = i)); [|done]. destruct (decide (o = i)); lia.
Qed.

Lemma create_consistent : a_id r = i -> w_names w !! a_name r = None ->
  write (write w r) (new_owner pa i) = with_all (write w r) G' /\ consistent (with_all (write w r) G').
Proof using All.
  intros Eid Hfree.
  assert (w_all (write w r) = <[i := r]> (w_all w)) as Ew by (cbn; by rewrite Eid).
  assert (settled (write w r)) as HS by (by apply (fresh_settled w i)).
  assert (w_all (write w r) !! o = Some pa) as Ho' by (rewrite Ew, lookup_insert_ne; [done|lia]).
  split; [rewrite (write_update _ o pa) by done; by rewrite Ew|].
  apply (consistent_intro create_rank (S (size (w_all w)))).
  - unfold G'. rewrite <- Ew. by eapply settled_insert.
  - unfold G'. rewrite <- Ew. eapply index_insert; [by apply (fresh_index w i)|done|done].
  - apply create_mutual.
  - apply create_ok.
  - apply create_ranked.
Qed.
End create.

Lemma new_owner_good w i pa o : consistent w -> w_all w !! o = Some pa -> good pa -> int32 i -> i <> 0 ->
  Z.of_nat (size (w_all w)) < MAXIDS -> Z.of_nat (size (a_members pa)) < MAXIDS -> good (new_owner pa i).
Proof.
  intros Hc Ho Hg Hi Hi0 Hz Hzm. destruct (consistent_local w Hc) as [Hok Hac].
  assert (a_cps pa ⊆ dom (w_all w)) as Hcd.
  { pose proof (cps_dom _ Hok Hac o) as Hd. unfold cps_of in Hd. by rewrite Ho in Hd. }
  pose proof (groups_dom w o pa Hc Ho) as Hgd. apply subseteq_size in Hcd, Hgd. rewrite size_dom in *.
  destruct Hg. split; cbn; try done; apply ids_ok_add; done || lia.
Qed.

Section ops.
Context {db : Type} `{RWCDBLaws db, AllocOk, Uninit}.
Implicit Types (h : handle db).

Lemma PDB_createGroup_ok m w h name o pa : db_at m w h -> consistent w -> m < 2 ^ 31 - 1 ->
  name_ok name -> name <> [] -> w_names w !! name = None -> - 2 ^ 31 < w_mingid w ->
  0 < o -> w_all w !! o = Some pa ->
  Z.of_nat (size (w_all w)) < MAXIDS -> Z.of_nat (size (a_members pa)) < MAXIDS ->
  let i := w_mingid w - 1 in
  let w' := with_all (write w (new_group i name o (a_name pa)))
              (<[o := new_owner pa i]> (<[i := new_group i name o (a_name pa)]> (w_all w))) in
  runs (PDB_createGroup name o) h (fun v h' => v = i /\ db_at (m + 1) w' h' /\ consistent w').
Proof.
  intros Hdb Hc Hm Hname Hne Hfree Hmin Hpos Ho Hz Hzm i w'. pose proof (st_range _ _ (db_at_stored _ _ _ Hdb)) as Hrg.
  destruct (stored_good _ _ _ _ _ Hdb Ho) as (Hg & Eid & Ho0 & Hoi). unfold int32 in Hoi.
  assert (w_all w !! i = None) as Hfresh.
  { destruct (w_all w !! i) as [b|] eqn:Eb; [|done]. destruct (c_settled _ Hc i b Eb) as (_ & _ & ?). lia. }
  unfold PDB_createGroup. apply runs_check.
  { unfold PDB_ISUSER. destruct (Z.gtb_spec o 0); [|lia]. destruct (Z.eqb_spec (zlen name) 0); [|done].
    destruct name; [done|]. rewrite zlen_cons in *. pose proof (zlen_nonneg name). lia. }
  eapply runs_bind; [by apply pdb_nameInUse_ok|]. cbv beta. intros u h1 [-> Hdb1].
  apply runs_check; [by rewrite Hfree|].
  eapply open_and_read; [done..|]. intros p h2 Hdb2 Hp. apply runs_check; [by eapply rep_id_ne|].
  eapply runs_bind; [by apply PDB_db_maxids_ok|]. cbv beta. intros ug h3 [-> Hdb3]. cbv beta iota.
  eapply runs_let; [apply i32_ok; lia|]. fold i.
  eapply runs_bind; [apply PDB_db_update_maxids_ok; [done|lia|lia]|]. cbv beta. intros _ h4 Hdb4.
  destruct (rep_add pdb_array_init ∅ i rep_init) as (l1 & El1 & Hl1); [apply ids_ok_empty|].
  destruct (rep_add pdb_array_init ∅ o rep_init) as (l2 & El2 & Hl2); [apply ids_ok_empty|].
  eapply runs_let; [exact El1|]. eapply runs_let; [exact El2|]. rewrite union_empty_r_L in Hl1, Hl2.
  set (r := new_group i name o (a_name pa)). pose proof Hp as (_ & Epn & _ & _ & Hpg & Hpc & Hpm).
  eapply runs_bind; [eapply (PDB_writeProfile_ok _ _ _ _ r); [exact Hdb4| | |cbn; lia]|].
  { rewrite Epn. split; [done|]. split; [done|]. split; [done|]. split; [done|]. split; [apply rep_init|]. done. }
  { apply good_set_members; [|apply ids_ok_singleton; [unfold int32; lia|done]].
    apply loner_good; [unfold int32; lia|lia|done|done|unfold int32; lia|apply (good_name _ Hg)]. }
  cbv beta. intros _ h5 Hdb5.
  assert (write (put_ids w (Z.max (w_maxuid w) (w_maxuid w)) (Z.min (w_mingid w) i)) r = write w r) as Ew.
  { unfold write, put_ids, put_name, put_record. cbn. f_equal; lia. }
  rewrite Ew in Hdb5.
  destruct (rep_add _ _ i Hpm) as (l3 & El3 & Hl3); [apply (good_members _ Hg)|].
  destruct (rep_add _ _ i Hpg) as (l4 & El4 & Hl4); [apply (good_groups _ Hg)|].
  destruct (rep_add _ _ i Hpc) as (l5 & El5 & Hl5); [apply (good_cps _ Hg)|].
  eapply runs_let; [exact El3|]. eapply runs_let; [exact El4|]. eapply runs_let; [exact El5|].
  destruct (create_consistent w i o pa r Hc Hfresh Ho) as [Ew2 Hc']; [lia|done|done|done|done|].
  eapply runs_bind; [eapply (PDB_writeProfile_ok _ _ _ _ (new_owner pa i)); [exact Hdb5| | |cbn; congruence]|].
  { destruct Hp as (? & ? & ? & ? & _). repeat (split; [done|]). done. }
  { eapply (new_owner_good w i pa o); [done..| |lia|done|done]. unfold int32. lia. }
  cbv beta. intros _ h6 Hdb6. do 2 eexists. split; [done|]. split; [done|]. rewrite Ew2 in Hdb6.
  split; [exact Hdb6|exact Hc'].
Qed.
End ops.

(** ** Deleting a group *)

(** The principals in [P] leave [g]. *)
Definition leave g (P : gset Z) G : graph :=
  map_imap (fun x a => Some (if decide (x ∈ P) then set_groups a (a_groups a ∖ {[g]}) else a)) G.

Lemma leave_lookup g P G x :
  leave g P G !! x = (fun a => if decide (x ∈ P) then set_groups a (a_groups a ∖ {[g]}) else a) <$> G !! x.
Proof. unfold leave. rewrite map_lookup_imap. by destruct (G !! x). Qed.

Lemma leave_nil g G : leave g ∅ G = G.
Proof.
  apply map_eq. intros x. rewrite leave_lookup. destruct (G !! x) as [a|]; [|done]. cbn.
  destruct (decide (x ∈ ∅)); set_solver.
Qed.

Lemma leave_step g P G G' y b : same_shape (leave g P G) G' -> G' !! y = Some b ->
  same_shape (leave g ({[y]} ∪ P) G) (<[y := set_groups b (a_groups b ∖ {[g]})]> G').
Proof.
  intros HS Hb. unfold same_shape. apply map_eq. intros x. rewrite !lookup_fmap, leave_lookup.
  assert (erase <$> leave g P G !! x = erase <$> G' !! x) as E by (rewrite <- !lookup_fmap; by rewrite HS).
  rewrite leave_lookup in E. destruct (decide (x = y)) as [->|Hne].
  - rewrite lookup_insert_eq. rewrite Hb in E. destruct (G !! y) as [a|]; [|done]. cbn in *. injection E as E1 E2 E3 E4 E5 E6.
    destruct (decide (y ∈ {[y]} ∪ P)); [|set_solver]. unfold erase, set_cps. cbn.
    destruct (decide (y ∈ P)); cbn in *; rewrite <- E1, <- E2, <- E3, <- E4, <- E5, <- E6; [|done].
    do 2 f_equal. set_solver.
  - rewrite lookup_insert_ne by done. rewrite <- E. destruct (G !! x); [|done]. cbn.
    destruct (decide (x ∈ {[y]} ∪ P)), (decide (x ∈ P)); set_solver.
Qed.

Lemma leave_member_of g P G y z : member_of (leave g P G) y z <-> member_of G y z /\ ~ (y ∈ P /\ z = g).
Proof.
  unfold member_of. rewrite leave_lookup. split.
  - intros (a & Ha & Hz). apply fmap_Some in Ha as (b & Hb & ->).
    destruct (decide (y ∈ P)) as [Hx|Hx]; [cbn in Hz|split; [eauto|tauto]]. split; [exists b|]; set_solver.
  - intros [(b & Hb & Hz) Hn]. rewrite Hb. eexists. split; [done|]. destruct (decide (y ∈ P)); [cbn|done]. set_solver.
Qed.

Lemma leave_has_member g P G x y : has_member (leave g P G) x y <-> has_member G x y.
Proof.
  unfold has_member. rewrite leave_lookup. split.
  - intros (a & Ha & Hz). apply fmap_Some in Ha as (b & Hb & ->). exists b. by destruct (decide (x ∈ P)).
  - intros (b & Hb & Hz). rewrite Hb. eexists. split; [done|]. by destruct (decide (x ∈ P)).
Qed.

Lemma leave_some g P G x : is_Some (leave g P G !! x) <-> is_Some (G !! x).
Proof. rewrite leave_lookup. apply fmap_is_Some. Qed.

Section delete.
Context w g o (ga oa : principal) (Hc : consistent w).
Context (Hg : w_all w !! g = Some ga) (Ho : w_all w !! o = Some oa) (Hneg : g < 0) (Hpos : 0 < o).
Hypothesis Hroot : a_groups ga = ∅.

(** The database after the group is gone and its owner's list is updated. *)
Definition gone : adb :=
  with_all (without w ga) (<[o := set_members oa (a_members oa ∖ {[g]})]> (delete g (w_all w))).

Lemma gone_settled : settled gone.
Proof using All.
  pose proof (without_settled w g ga Hc Hg) as HS. pose proof (id_of w g ga Hc Hg) as Eid.
  unfold gone. rewrite <- Eid. apply (settled_insert (without w ga) o oa); [done| |done|done].
  cbn. rewrite Eid, lookup_delete_ne; [done|lia].
Qed.

Lemma gone_index : index_ok gone.
Proof using All.
  pose proof (without_index w g ga Hc Hg) as HS. pose proof (id_of w g ga Hc Hg) as Eid.
  unfold gone. rewrite <- Eid. apply (index_insert (without w ga) o oa); [done| |done].
  cbn. rewrite Eid, lookup_delete_ne; [done|lia].
Qed.

Lemma gone_lookup x : w_all gone !! x = if decide (x = o) then Some (set_members oa (a_members oa ∖ {[g]}))
  else if decide (x = g) then None else w_all w !! x.
Proof.
  cbn. destruct (decide (x = o)) as [->|Hxo]; [by rewrite lookup_insert_eq|].
  rewrite lookup_insert_ne by done. destruct (decide (x = g)) as [->|Hxg]; [by rewrite lookup_delete_eq|].
  by rewrite lookup_delete_ne.
Qed.

Lemma gone_member_of y z : member_of (w_all gone) y z <-> member_of (w_all w) y z /\ y <> g.
Proof using All.
  unfold member_of. rewrite gone_lookup. destruct (decide (y = o)) as [->|Hyo].
  - split; [intros (b & [= <-] & Hz)|intros [(b & Hb & Hz) _]].
    + split; [by exists oa|lia].
    + exists (set_members oa (a_members oa ∖ {[g]})). split; [done|]. cbn. congruence.
  - destruct (decide (y = g)); naive_solver.
Qed.

Lemma gone_has_member x y : x < 0 -> has_member (w_all gone) x y <-> has_member (w_all w) x y /\ x <> g.
Proof using All.
  intros Hx. unfold has_member. rewrite gone_lookup. destruct (decide (x = o)); [lia|].
  destruct (decide (x = g)); naive_solver.
Qed.

Lemma gone_cps x : x <> g -> cps_of (w_all gone) x = cps_of (w_all w) x.
Proof using All.
  intros Hx. unfold cps_of. rewrite gone_lookup. destruct (decide (x = o)) as [->|Hxo]; [by rewrite Ho|].
  by destruct (decide (x = g)).
Qed.

Lemma gone_some x : is_Some (w_all gone !! x) -> is_Some (w_all w !! x).
Proof using All.
  rewrite gone_lookup. destruct (decide (x = o)) as [->|Hxo]; [eauto|]. destruct (decide (x = g)); [by intros [? ?]|done].
Qed.

(** Only the members of [g] have a wrong CPS. *)
Lemma gone_ok x : x ∉ a_members ga -> ok (w_all gone) x.
Proof using All.
  destruct (consistent_local w Hc) as [Hok _]. pose proof (c_mutual _ Hc) as HM.
  intros Hx b Hb z.
  assert (exists b0, w_all w !! x = Some b0 /\ a_groups b = a_groups b0 /\ a_cps b = a_cps b0) as (b0 & Hb0 & -> & ->).
  { rewrite gone_lookup in Hb. destruct (decide (x = o)) as [->|Hxo]; [injection Hb as <-; eauto|].
    destruct (decide (x = g)); [done|eauto]. }
  rewrite (Hok x b0 Hb0), (parents_ext (w_all w) (w_all gone)); [done|]. intros z' Hz'. apply gone_cps. intros ->.
  destruct (proj1 HM x b0 g Hb0 Hz') as (_ & c & Hcg & Hxc). congruence.
Qed.

Lemma leave_linked P : linked (leave g P (w_all gone)).
Proof using All.
  pose proof (c_mutual _ Hc) as HM. rewrite mutual_edges in HM. destruct HM as [Hup _].
  intros x y b Hb Hx. assert (member_of (leave g P (w_all gone)) y x) as Hyx by (by exists b).
  rewrite leave_member_of, gone_member_of in Hyx. destruct Hyx as [[Hyx _] _]. destruct (Hup y x Hyx) as [Hxn Hxy].
  split; [done|]. intros a Ha. assert (x <> g) as Hxg.
  { intros ->. assert (is_Some (w_all gone !! g)) as HS by (apply (leave_some g P); eauto).
    rewrite gone_lookup in HS. destruct (decide (g = o)); [lia|]. destruct (decide (g = g)); [|done]. by destruct HS. }
  assert (has_member (leave g P (w_all gone)) x y) as (a' & Ha' & Hy).
  { rewrite leave_has_member, gone_has_member by done. done. }
  congruence.
Qed.

Lemma leave_ranked P : ranked (fun x => size (cps_of (w_all w) x)) (size (w_all w)) (leave g P (w_all gone)).
Proof using All.
  destruct (consistent_local w Hc) as [Hok Hac]. pose proof (cps_ranked _ (c_mutual _ Hc) Hok Hac) as HR.
  rewrite ranked_edges in HR |- *. destruct HR as [Hb Hr]. split.
  - intros x Hx. apply Hb. by apply gone_some, (leave_some g P).
  - intros x y Hx. rewrite leave_has_member, gone_has_member, leave_some by done. intros [Hxy _] HS.
    apply Hr; [done|done|by apply gone_some].
Qed.

Lemma leave_mutual : mutual (leave g (a_members ga) (w_all gone)).
Proof using All.
  pose proof (c_mutual _ Hc) as HM. rewrite mutual_edges in HM |- *. destruct HM as [Hup Hdown]. split.
  - intros y z. rewrite leave_member_of, gone_member_of, leave_has_member. intros [[Hyz Hy] Hn].
    destruct (Hup y z Hyz) as [Hz Hzy]. split; [done|]. rewrite gone_has_member by done. split; [done|].
    intros ->. apply Hn. split; [|done]. destruct Hzy as (c & Hcg & ?). congruence.
  - intros x y Hx. rewrite leave_member_of, gone_member_of, leave_has_member, gone_has_member by done.
    intros [Hxy Hxg]. pose proof (Hdown x y Hx Hxy) as Hyx. split; [|naive_solver]. split; [done|].
    intros ->. destruct Hyx as (c & Hcg & Hxc). rewrite Hg in Hcg. injection Hcg as <-. set_solver.
Qed.

Lemma gone_within : within (dom (w_all w)) (w_all gone).
Proof using All.
  destruct (consistent_local w Hc) as [Hok Hac]. apply within_intro.
  - intros x Hx. by apply elem_of_dom, gone_some.
  - intros x. destruct (decide (x = g)) as [->|Hx]; [|rewrite gone_cps by done; by apply cps_dom].
    unfold cps_of. rewrite gone_lookup. destruct (decide (g = o)); [lia|]. destruct (decide (g = g)); set_solver.
Qed.
End delete.

Section ops3.
Context {db : Type} `{RWCDBLaws db, AllocOk, Uninit}.
Implicit Types (h : handle db).

Section loop.
Context w g o (ga oa : principal) (Hc : consistent w).
Context (Hg : w_all w !! g = Some ga) (Ho : w_all w !! o = Some oa) (Hneg : g < 0) (Hpos : 0 < o).
Context (Hroot : a_groups ga = ∅) (m : Z) (fuel : nat) (Hfuel : (size (w_all w) < fuel)%nat).
Hypothesis HU : ids_ok (dom (w_all w)).

Let w2 : adb := gone w g o ga oa.
Let rank (x : Z) : nat := size (cps_of (w_all w) x).

(** The members in [P] have left the group; those in [D] still have a wrong CPS. *)
Definition left_group (P D : gset Z) h : Prop := exists G',
  db_at m (with_all w2 G') h /\ same_shape (leave g P (w_all w2)) G' /\ within (dom (w_all w)) G' /\
  forall x, x ∉ D -> ok G' x.

Lemma left_settled P G' : same_shape (leave g P (w_all w2)) G' -> settled (with_all w2 G').
Proof using All.
  intros HS. pose proof (gone_settled w g o ga oa Hc Hg Ho Hneg Hpos Hroot) as HSg. intros x a Ha. cbn in *.
  symmetry in HS. destruct (same_shape_lookup _ _ _ _ HS Ha) as (a0 & Ha0 & E). injection E as E1 E2 _ _ _ _.
  rewrite leave_lookup in Ha0. apply fmap_Some in Ha0 as (c & Hcx & ->).
  destruct (HSg x c Hcx) as (? & ? & ?). rewrite <- E1, <- E2. by destruct (decide (x ∈ P)).
Qed.

Lemma left_index P G' : same_shape (leave g P (w_all w2)) G' -> index_ok (with_all w2 G').
Proof using All.
  intros HS. apply (index_shape (with_all w2 (leave g P (w_all w2)))); [|done]. intros s i Hs.
  destruct (gone_index w g o ga oa Hc Hg Ho Hneg Hpos Hroot s i Hs) as (a & Ha & En). cbn [with_all w_all].
  fold w2 in Ha. rewrite leave_lookup, Ha. eexists. split; [done|]. by destruct (decide (i ∈ P)).
Qed.

Lemma left_ready P G' b y : same_shape (leave g P (w_all w2)) G' -> within (dom (w_all w)) G' ->
  G' !! y = Some b -> a_id b = y ->
  let b' := set_groups b (a_groups b ∖ {[g]}) in
  write (with_all w2 G') b' = with_all w2 (<[y := b']> G') /\
  ready rank (size (w_all w)) (dom (w_all w)) (with_all w2 G') b'.
Proof using All.
  intros HS HW Hb Eid b'. pose proof (leave_step g P _ G' y b HS Hb) as HS'. fold b' in HS'.
  pose proof (left_settled P G' HS) as HSet.
  assert (write (with_all w2 G') b' = with_all w2 (<[y := b']> G')) as Ew by (by apply (write_update (with_all w2 G') y b)).
  split; [done|]. unfold ready. rewrite Ew. cbn [with_all w_all].
  split; [by apply (settled_insert (with_all w2 G') y b)|].
  split; [eapply shape_linked; [exact HS'|by eapply leave_linked]|].
  split; [eapply shape_ranked; [exact HS'|by eapply leave_ranked]|]. split; [done|].
  intros x a Ha. apply lookup_insert_Some in Ha as [[<- <-]|[_ Ha]]; [exact (HW y b Hb)|by apply (HW x)].
Qed.

(** One member leaves. *)
Lemma leave_one P (D : gset Z) h y : left_group P ({[y]} ∪ D) h -> y ∈ a_members ga ->
  runs (do* p := PDB_readProfile y in
        lift (cassert (negb (p_id p =? 0))) ;*
        do* l := lift (pdb_array_del (p_member_of p) g) in
        do* _ := PDB_updateCps fuel (with_member_of p l) in mret tt)%C h
    (fun _ h' => left_group ({[y]} ∪ P) D h').
Proof using All.
  intros (G' & Hdb & HS & HW & Hok) Hy.
  assert (is_Some (w_all w2 !! y)) as HyS.
  { destruct (proj2 (c_mutual _ Hc) g ga y Hg Hneg Hy) as (c & Hcy & Hgc). unfold w2. rewrite gone_lookup.
    destruct (decide (y = o)); [eauto|]. destruct (decide (y = g)) as [->|]; [|eauto].
    rewrite Hg in Hcy. injection Hcy as <-. set_solver. }
  assert (exists b, G' !! y = Some b) as [b Hb].
  { apply (leave_some g P) in HyS as [b Hb]. destruct (same_shape_lookup _ _ _ _ HS Hb) as (b' & Hb' & _). eauto. }
  destruct (stored_good _ _ _ _ _ Hdb Hb) as (Hgb & Eid & Hy0 & _).
  eapply runs_bind; [by eapply read_some|]. cbv beta. intros p h1 [Hdb1 Hp].
  apply runs_check; [by eapply rep_id_ne|]. pose proof Hp as (_ & _ & _ & _ & Hgr & _).
  destruct (rep_del _ _ g Hgr) as (l & El & Hl); [apply (good_groups _ Hgb)|]. eapply runs_let; [exact El|].
  destruct (left_ready P G' b y HS HW Hb Eid) as [Ew Hrd]. set (b' := set_groups b (a_groups b ∖ {[g]})) in *.
  pose proof (leave_step g P _ G' y b HS Hb) as HS'. fold b' in HS'.
  eapply runs_bind; [eapply (PDB_updateCps_ok rank (size (w_all w)) _ HU fuel D m (with_all w2 G') h1 _ b' y)|]; try done.
  - by apply rep_with_member_of.
  - apply good_set_groups; [done|]. apply (ids_ok_sub (a_groups b)); [apply (good_groups _ Hgb)|set_solver].
  - lia.
  - rewrite Ew. cbn [with_all w_all]. intros x c Hcx Hne HD _. apply (ok_insert G' y b); [done|done|congruence|].
    apply Hok. set_solver.
  - cbv beta. intros _ h2 [_ (G'' & Hdb2 & HS2 & HW2 & Hok2)]. apply runs_ret. rewrite Ew in *. cbn in HS2.
    exists G''. split; [done|]. split; [by etransitivity|]. split; [done|]. intros x Hx. apply Hok2. set_solver.
Qed.
(** The owner's CPS is recomputed last; by then every CPS is right. *)
Lemma owner_fixed h : left_group (a_members ga) ∅ h ->
  runs (do* p := PDB_readProfile o in
        lift (cassert (negb (p_id p =? 0))) ;*
        do* _ := PDB_updateCps fuel p in PDB_db_close)%C h
    (fun _ h' => exists w', db_at m w' h' /\ consistent w' /\
      same_shape (leave g (a_members ga) (w_all w2)) (w_all w') /\ same_index w2 w').
Proof using All.
  intros (G' & Hdb & HS & HW & Hok).
  assert (exists b, G' !! o = Some b) as [b Hb].
  { assert (is_Some (leave g (a_members ga) (w_all w2) !! o)) as [b Hb].
    { apply leave_some. unfold w2. rewrite gone_lookup. destruct (decide (o = o)); [eauto|done]. }
    destruct (same_shape_lookup _ _ _ _ HS Hb) as (b' & Hb' & _). eauto. }
  destruct (stored_good _ _ _ _ _ Hdb Hb) as (Hgb & Eid & Ho0 & _).
  pose proof (left_settled _ _ HS) as HSet.
  assert (write (with_all w2 G') b = with_all w2 G') as Ew by (by apply (write_same (with_all w2 G') o)).
  eapply runs_bind; [by eapply read_some|]. cbv beta. intros p h1 [Hdb1 Hp].
  apply runs_check; [by eapply rep_id_ne|].
  eapply runs_bind; [eapply (update_consistent rank (size (w_all w)) _ fuel m (with_all w2 G') h1 p b);
                     rewrite ?Ew; try done|].
  - congruence.
  - by eapply left_index.
  - eapply mutual_shape; [exact HS|by eapply leave_mutual].
  - eapply shape_ranked; [exact HS|by eapply leave_ranked].
  - intros x _. by apply Hok.
  - cbv beta. rewrite Ew. intros _ h2 (w' & Hdb2 & Hc' & HS' & Hi').
    apply runs_ret.
    exists w'. split; [done|]. split; [done|]. split; [by etransitivity|done].
Qed.
End loop.

(** The first half of [PDB_deleteGroup]: the record goes, and the owner's list forgets the group. *)
Lemma deleteGroup_start fuel m w h g ga oa (Q : res (unit * handle db) -> Prop) :
  consistent w -> db_at m w h -> m < 2 ^ 31 - 1 ->
  g < 0 -> w_all w !! g = Some ga -> 0 < a_owner ga -> w_all w !! a_owner ga = Some oa ->
  (forall r h', db_at (m + 1) (gone w g (a_owner ga) ga oa) h' -> profile_rep r ga -> Q (deleteGroup_lists fuel g r h')) ->
  Q (PDB_deleteGroup fuel g h).
Proof.
  intros Hc Hdb Hm Hneg Hg Hpos Ho HQ. set (o := a_owner ga) in *.
  destruct (stored_good _ _ _ _ _ Hdb Hg) as (Hgg & Eid & Hg0 & _).
  destruct (stored_good _ _ _ _ _ Hdb Ho) as (Hgo & Eoid & Ho0 & _).
  unfold PDB_deleteGroup. eapply starts_bind; [by apply PDB_db_open_rw_ok|]. cbv beta. intros _ h0 Hdb0.
  eapply starts_bind; [by eapply read_some|]. cbv beta. intros r h1 [Hdb1 Hr].
  destruct (rep_id_ne _ _ _ _ _ _ Hdb Hg Hr) as [_ Hb]. destruct (p_id r =? 0); [done|].
  eapply starts_bind; [by eapply PDB_deleteProfile_ok|]. cbv beta. fold (without w ga). intros _ h2 Hdb2.
  pose proof Hr as (_ & _ & Eor & _). rewrite Eor. fold o.
  assert (w_all (without w ga) !! o = Some oa) as Ho2 by (cbn; rewrite Eid, lookup_delete_ne; [done|lia]).
  eapply starts_bind; [by eapply read_some|]. cbv beta. intros p h3 [Hdb3 Hp].
  eapply (starts_lift _ tt); [by destruct (rep_id_ne _ _ _ _ _ _ Hdb Ho Hp) as [_ ->]|].
  pose proof Hp as (_ & _ & _ & _ & _ & _ & Hpm).
  destruct (rep_del _ _ g Hpm) as (l & El & Hl); [apply (good_members _ Hgo)|]. eapply starts_lift; [exact El|].
  eapply starts_bind; [eapply PDB_writeProfile_ok; [done|by apply rep_with_members| |cbn; congruence]|].
  { apply good_set_members; [done|]. apply (ids_ok_sub (a_members oa)); [apply (good_members _ Hgo)|set_solver]. }
  cbv beta. intros _ h4 Hdb4.
  rewrite (write_update (without w ga) o oa) in Hdb4 by (first [done | by eapply without_settled]).
  cbn [without drop_name drop_record w_all] in Hdb4. rewrite Eid in Hdb4. fold (gone w g o ga oa) in Hdb4.
  by apply HQ.
Qed.

(** Deleting a group that is in no group itself. *)
Lemma PDB_deleteGroup_ok fuel m w h g ga oa :
  consistent w -> db_at m w h -> Z.of_nat (size (w_all w)) <= MAXIDS -> m < 2 ^ 31 - 1 ->
  g < 0 -> w_all w !! g = Some ga -> a_groups ga = ∅ -> 0 < a_owner ga -> w_all w !! a_owner ga = Some oa ->
  (size (w_all w) < fuel)%nat ->
  runs (PDB_deleteGroup fuel g) h (fun _ h' => exists w', db_at (m + 1) w' h' /\ consistent w' /\
    same_shape (leave g (a_members ga) (w_all (gone w g (a_owner ga) ga oa))) (w_all w') /\
    same_index (without w ga) w').
Proof.
  intros Hc Hdb Hz Hm Hneg Hg Hroot Hpos Ho Hf. pose proof (dom_ids _ _ _ Hdb Hz) as HU.
  destruct (stored_good _ _ _ _ _ Hdb Hg) as (Hgg & _).
  set (o := a_owner ga) in *. set (Q := fun (_ : unit) h' => _).
  apply (deleteGroup_start fuel m w h g ga oa (fun out => exists (u : unit) h', out = Ret (u, h') /\ Q u h')); try done.
  intros r h4 Hdb4 Hr. pose proof Hr as (_ & _ & Eor & _ & Hgr & _ & Hmem). fold o in Hdb4.
  change (runs (deleteGroup_lists fuel g r) h4 Q). subst Q. unfold deleteGroup_lists. rewrite Eor. fold o.
  apply array_rep_lists in Hgr as (gs & Hgs & Lgs). rewrite Hroot in Lgs.
  assert (gs = []) as ->.
  { destruct gs as [|x gs]; [done|]. destruct Lgs as [_ Lgs]. cbn in Lgs. set_solver. }
  eapply runs_bind; [eapply (runs_each _ [] _ (fun _ h => db_at (m + 1) (gone w g o ga oa) h)); try done|].
  { set_solver. } { intros x rest h' Hx. by apply not_elem_of_nil in Hx. }
  cbv beta. intros _ h5 Hdb5. apply array_rep_lists in Hmem as (ys & Hys & Lys).
  destruct (lists_ok _ _ Lys (good_members _ Hgg)) as (Hzy & _ & Hnz).
  eapply runs_bind; [eapply (runs_each _ ys _ (fun rest h => exists P,
    left_group w g o ga oa (m + 1) P (list_to_set rest) h /\ P ∪ list_to_set rest = a_members ga))|]; try done.
  - unfold MAXIDS in Hzy. lia.
  - exists ∅. destruct Lys as [_ Lys]. split; [|set_solver]. exists (w_all (gone w g o ga oa)).
    split; [done|]. rewrite leave_nil. split; [done|]. split; [by eapply gone_within|].
    intros x Hx. eapply gone_ok; try done. by rewrite Lys in Hx.
  - cbv beta. intros y rest h6 Hin (P & HL & HP).
    assert (y ∈ a_members ga) as Hy by (destruct Lys as [_ <-]; by apply elem_of_list_to_set).
    eapply runs_mono; [eapply (leave_one w g o ga oa); try done|].
    cbv beta. intros _ h7 HL'. exists ({[y]} ∪ P). split; [done|]. cbn in HP. set_solver.
  - cbv beta. intros _ h6 (P & (G' & Hdb6 & HS6 & HW6 & Hok6) & HP). cbn in HP. rewrite union_empty_r_L in HP. subst P.
    eapply runs_mono; [eapply (owner_fixed w g o ga oa); try done; by exists G'|].
    cbv beta. intros _ h7 (w' & ? & ? & ? & ?). by exists w'.
Qed.

(** Deleting a group that is a member of another group fails the assertion on
    the profile of that group. *)
Lemma PDB_deleteGroup_nested fuel m w h g ga oa :
  consistent w -> db_at m w h -> m < 2 ^ 31 - 1 ->
  g < 0 -> w_all w !! g = Some ga -> a_groups ga <> ∅ -> 0 < a_owner ga -> w_all w !! a_owner ga = Some oa ->
  PDB_deleteGroup fuel g h = Stop CAbort.
Proof.
  intros Hc Hdb Hm Hneg Hg Hne Hpos Ho. destruct (stored_good _ _ _ _ _ Hdb Hg) as (Hgg & _).
  eapply (deleteGroup_start fuel m w h g ga oa (fun out => out = Stop CAbort)); try done.
  intros r h4 Hdb4 Hr. pose proof Hr as (_ & _ & _ & _ & Hgr & _).
  apply array_rep_lists in Hgr as (gs & Hgs & Lgs). destruct (lists_ok _ _ Lgs (good_groups _ Hgg)) as (Hz & _ & Hnz).
  unfold deleteGroup_lists, each, each_acc, mbind at 1. rewrite (for_each_fold _ gs) by (unfold MAXIDS in *; done || lia).
  destruct gs as [|x gs]; [destruct Lgs as [_ Lgs]; cbn in Lgs; set_solver|].
  assert (x ∈ a_groups ga) as Hx by (destruct Lgs as [_ <-]; set_solver).
  destruct (proj1 (c_mutual _ Hc) g ga x Hg Hx) as (Hxneg & b & Hb & Hgb).
  assert (x <> g) as Hxg.
  { intros ->. destruct (consistent_local w Hc) as [Hok Hac]. by apply (Hac g ga g Hg Hx), (cps_self _ Hok g ga). }
  assert (w_all (gone w g (a_owner ga) ga oa) !! x = Some b) as Hb'.
  { rewrite gone_lookup. destruct (decide (x = a_owner ga)); [lia|]. by destruct (decide (x = g)). }
  destruct (read_some _ _ _ _ _ Hdb4 Hb') as (p & h5 & E & Hdb5 & Hp).
  destruct (rep_id_ne _ _ _ _ _ _ Hdb4 Hb' Hp) as [_ Hid]. apply negb_true_iff in Hid.
  cbn [foldM]. unfold mbind. rewrite E. cbn [rbind]. by rewrite Hid.
Qed.
End ops3.
End PdbGroups.
