(* ===== verification/PdbSpec.v ===== *)
(** * What the protection database promises

    The operations of coda-src/al/pdb.c on the abstract view of the database:
    who exists under which name ([people], [w_names]) and who is a direct
    member of which group ([member_of]).  Every operation keeps the database
    [consistent], so that the CPS that is stored with a principal, and that the
    servers check access lists with, is always the set of ids reachable through
    membership. *)
From Stdlib Require Import ZArith Lia.
From stdpp Require Import base list numbers gmap relations.
From S2P Require Import Prelude.
From S2P Require Import Text.
From S2P Require Import PdbArray.
From S2P Require Import PdbPack.
From S2P Require Import PdbDb.
From S2P Require Import Pdb.
From S2P Require Import PdbCps.
From S2P Require Import PdbOps.
From S2P Require Import PdbUsers.
From S2P Require Import PdbGroups.
Import PdbArray PdbPack PdbDb Pdb PdbCps PdbOps PdbUsers PdbGroups.

Module PdbSpec.

(** ** The specification *)

(** The database as its users see it: who exists, with name, owner and the
    owner's name; which id a name leads to; who is a direct member of what; the
    ids given out. *)
Record view := {
  v_people : gmap Z (list Z * Z * list Z);
  v_names : gmap (list Z) Z;
  v_members : gset (Z * Z);
  v_maxuid : Z;
  v_mingid : Z
}.

Definition nobody : view :=
  {| v_people := ∅; v_names := ∅; v_members := ∅; v_maxuid := 0; v_mingid := 0 |}.

(** [x] is a direct member of [y]. *)
Definition joined (v : view) (x y : Z) : Prop := (x, y) ∈ v_members v.

Definition rejoin (v : view) (s : gset (Z * Z)) : view :=
  {| v_people := v_people v; v_names := v_names v; v_members := s;
     v_maxuid := v_maxuid v; v_mingid := v_mingid v |}.

Inductive command :=
| CreateUser (name : list Z)
| CreateGroup (name : list Z) (owner : Z)
| AddToGroup (i g : Z)
| RemoveFromGroup (i g : Z)
| DeleteUser (i : Z)
| DeleteGroup (g : Z).

(** A command that keeps to the rules of pdb.c, its result and its effect. *)
Inductive spec (v : view) : command -> Z -> view -> Prop :=
| spec_user name :
    name_ok name -> name <> [] -> v_names v !! name = None -> v_maxuid v < 2 ^ 31 - 1 ->
    spec v (CreateUser name) (v_maxuid v + 1)
      {| v_people := <[v_maxuid v + 1 := (name, 0, [])]> (v_people v);
         v_names := <[name := v_maxuid v + 1]> (v_names v); v_members := v_members v;
         v_maxuid := v_maxuid v + 1; v_mingid := v_mingid v |}
| spec_group name o oname x y :
    name_ok name -> name <> [] -> v_names v !! name = None -> - 2 ^ 31 < v_mingid v ->
    0 < o -> v_people v !! o = Some (oname, x, y) ->
    spec v (CreateGroup name o) (v_mingid v - 1)
      {| v_people := <[v_mingid v - 1 := (name, o, oname)]> (v_people v);
         v_names := <[name := v_mingid v - 1]> (v_names v);
         v_members := {[(o, v_mingid v - 1)]} ∪ v_members v;
         v_maxuid := v_maxuid v; v_mingid := v_mingid v - 1 |}
| spec_add i g :
    is_Some (v_people v !! i) -> is_Some (v_people v !! g) -> g < 0 -> ~ rtc (joined v) g i ->
    spec v (AddToGroup i g) 0 (rejoin v ({[(i, g)]} ∪ v_members v))
| spec_cycle i g :
    is_Some (v_people v !! g) -> g < 0 -> rtc (joined v) g i ->
    spec v (AddToGroup i g) 0 v
| spec_remove i g :
    is_Some (v_people v !! i) -> is_Some (v_people v !! g) -> g < 0 -> i <> g ->
    spec v (RemoveFromGroup i g) 0 (rejoin v (v_members v ∖ {[(i, g)]}))
| spec_delete_user i name x y :
    0 < i -> v_people v !! i = Some (name, x, y) ->
    spec v (DeleteUser i) 0
      {| v_people := delete i (v_people v); v_names := delete name (v_names v);
         v_members := filter (fun e => fst e <> i) (v_members v);
         v_maxuid := v_maxuid v; v_mingid := v_mingid v |}
| spec_delete_group g name o y :
    g < 0 -> v_people v !! g = Some (name, o, y) -> is_Some (v_people v !! o) ->
    (forall z, ~ joined v g z) ->
    spec v (DeleteGroup g) 0
      {| v_people := delete g (v_people v); v_names := delete name (v_names v);
         v_members := filter (fun e => snd e <> g) (v_members v);
         v_maxuid := v_maxuid v; v_mingid := v_mingid v |}.

(** ** Lists of owned groups *)

(** A user lists exactly the groups it owns, and owners have been given out. *)
Record owned (w : adb) : Prop := {
  ow_lists x a : w_all w !! x = Some a -> 0 < x ->
    forall y, y ∈ a_members a <-> y < 0 /\ exists b, w_all w !! y = Some b /\ a_owner b = x;
  ow_range y b : w_all w !! y = Some b -> y < 0 -> 0 < a_owner b <= w_maxuid w
}.

(** The lists of users and the owners of groups are all that matters. *)
Lemma owned_ext w w' : owned w -> w_maxuid w <= w_maxuid w' ->
  (forall x a', w_all w' !! x = Some a' -> 0 < x -> exists a, w_all w !! x = Some a /\ a_members a' = a_members a) ->
  (forall y, y < 0 -> a_owner <$> w_all w' !! y = a_owner <$> w_all w !! y) -> owned w'.
Proof.
  intros [Hl Hr] Hm EM EO. split.
  - intros x a' Ha' Hx y. destruct (EM x a' Ha' Hx) as (a & Ha & ->). rewrite (Hl x a Ha Hx). split; intros [Hy (b & Hb & E)]; (split; [done|]).
    + specialize (EO y Hy). rewrite Hb in EO. apply fmap_Some in EO as (b' & Hb' & E'). exists b'. split; [done|congruence].
    + specialize (EO y Hy). rewrite Hb in EO. symmetry in EO. apply fmap_Some in EO as (b' & Hb' & E').
      exists b'. split; [done|congruence].
  - intros y b' Hb' Hy. specialize (EO y Hy). rewrite Hb' in EO. symmetry in EO.
    apply fmap_Some in EO as (b & Hb & ->). pose proof (Hr y b Hb Hy). lia.
Qed.

Lemma same_shape_fields {A} (f : principal -> A) G G' x : (forall a, f (erase a) = f a) -> same_shape G G' ->
  f <$> G' !! x = f <$> G !! x.
Proof.
  intros Hf HS. assert (erase <$> G !! x = erase <$> G' !! x) as E by (rewrite <- !lookup_fmap; by rewrite HS).
  destruct (G !! x) as [a|], (G' !! x) as [b|]; try done. injection E as E. cbn. f_equal.
  rewrite <- (Hf a), <- (Hf b). unfold erase, set_cps. congruence.
Qed.

Lemma owned_size w x a : owned w -> w_all w !! x = Some a -> 0 < x -> (size (a_members a) <= size (w_all w))%nat.
Proof.
  intros HO Ha Hx. rewrite <- size_dom. apply subseteq_size. intros y Hy.
  apply (ow_lists _ HO x a Ha Hx) in Hy as [_ (b & Hb & _)]. apply elem_of_dom. eauto.
Qed.

(** ** The database shows a view *)
Definition ident (a : principal) : list Z * Z * list Z := (a_name a, a_owner a, a_owner_name a).
Record shows (w : adb) (v : view) : Prop := {
  sh_people : v_people v = ident <$> w_all w;
  sh_names : v_names v = w_names w;
  sh_members x y : joined v x y <-> member_of (w_all w) x y;
  sh_maxuid : v_maxuid v = w_maxuid w;
  sh_mingid : v_mingid v = w_mingid w
}.

Lemma rtc_iff (R S : Z -> Z -> Prop) x y : (forall x y, R x y <-> S x y) -> rtc R x y <-> rtc S x y.
Proof. intros E. split; apply rtc_subrel; intros ? ?; apply E. Qed.

Section shows.
Context w v (HV : shows w v) (Hc : consistent w).

Lemma shows_some x n o on : v_people v !! x = Some (n, o, on) ->
  exists a, w_all w !! x = Some a /\ a_name a = n /\ a_owner a = o /\ a_owner_name a = on.
Proof using HV.
  rewrite (sh_people _ _ HV), lookup_fmap. intros E. apply fmap_Some in E as (a & Ha & [= -> -> ->]). eauto 10.
Qed.
Lemma shows_is_some x : is_Some (v_people v !! x) -> exists a, w_all w !! x = Some a.
Proof using HV. rewrite (sh_people _ _ HV), lookup_fmap, fmap_is_Some. by intros [a Ha]; exists a. Qed.
Lemma shows_size : size (v_people v) = size (w_all w).
Proof using HV. rewrite (sh_people _ _ HV). apply map_size_fmap. Qed.
Lemma shows_reach x a y : w_all w !! x = Some a -> y ∈ a_cps a <-> rtc (joined v) x y.
Proof using HV Hc. intros Ha. rewrite (c_exact _ Hc x a Ha). apply rtc_iff. intros ? ?. symmetry. apply (sh_members _ _ HV). Qed.
End shows.

Lemma same_shape_member G G' x y : same_shape G G' -> member_of G' x y <-> member_of G x y.
Proof.
  intros HS. assert (forall G1 G2, same_shape G1 G2 -> member_of G1 x y -> member_of G2 x y) as Hone.
  { intros G1 G2 HS1 (a & Ha & Hy). destruct (same_shape_lookup _ _ _ _ HS1 Ha) as (b & Hb & E).
    injection E as _ _ _ _ Eg _. exists b. by rewrite Eg. }
  split; apply Hone; [by symmetry|done].
Qed.

Lemma fresh_member w i a x y : w_all w !! i = None -> a_groups a = ∅ ->
  member_of (<[i := a]> (w_all w)) x y <-> member_of (w_all w) x y.
Proof.
  intros Hi Ha. unfold member_of. destruct (decide (x = i)) as [->|Hne].
  - rewrite lookup_insert_eq, Hi. split; [|naive_solver]. intros (b & [= <-] & Hy). set_solver.
  - by rewrite lookup_insert_ne.
Qed.

(** ** Each operation on the view *)

Lemma relist_shows f f' i g w w' (v : view) s : shows w v -> same_shape (relist f f' i g (w_all w)) (w_all w') ->
  same_index w w' -> (forall x y, (x, y) ∈ s <-> member_of (relist f f' i g (w_all w)) x y) ->
  shows w' (rejoin v s).
Proof.
  intros [V1 V2 V3 V4 V5] HS (E1 & E2 & E3) Hs. split; cbn; try congruence.
  - rewrite V1. apply map_eq. intros x. rewrite !lookup_fmap.
    rewrite (same_shape_fields ident _ _ x (fun _ => eq_refl) HS), relist_lookup. by destruct (w_all w !! x).
  - intros x y. rewrite (same_shape_member _ _ _ _ HS). apply Hs.
Qed.

Lemma relist_owned f f' i g w w' : owned w -> g < 0 -> same_shape (relist f f' i g (w_all w)) (w_all w') ->
  same_index w w' -> owned w'.
Proof.
  intros HO Hg HS (_ & E2 & _). apply (owned_ext w); [done|lia| |].
  - intros x a' Ha' Hx. pose proof (same_shape_fields a_members _ _ x (fun _ => eq_refl) HS) as E.
    rewrite Ha', relist_lookup in E. destruct (w_all w !! x) as [a|]; [|done]. exists a. split; [done|].
    cbn in E. destruct (decide (x = g)); [lia|]. by injection E.
  - intros y _. rewrite (same_shape_fields a_owner _ _ y (fun _ => eq_refl) HS), relist_lookup. by destruct (w_all w !! y).
Qed.

Section effects.
Context w v (HV : shows w v) (HO : owned w) (Hc : consistent w).

Lemma fresh_id i : ~ w_mingid w <= i <= w_maxuid w -> w_all w !! i = None.
Proof using Hc.
  intros Hi. destruct (w_all w !! i) as [b|] eqn:Eb; [|done]. by destruct (c_settled _ Hc i b Eb) as (_ & _ & ?).
Qed.

Lemma user_shows name i : i = w_maxuid w + 1 -> w_mingid w <= 0 <= w_maxuid w ->
  shows (write w (loner i name 0 []))
    {| v_people := <[i := (name, 0, [])]> (v_people v); v_names := <[name := i]> (v_names v);
       v_members := v_members v; v_maxuid := i; v_mingid := v_mingid v |}.
Proof using All.
  intros -> Hr. destruct HV as [V1 V2 V3 V4 V5]. split; cbn; try congruence; try lia.
  - by rewrite V1, fmap_insert.
  - intros x y. rewrite fresh_member; [apply V3|apply fresh_id; lia|done].
Qed.

Lemma user_owned name i : i = w_maxuid w + 1 -> w_mingid w <= 0 <= w_maxuid w -> owned (write w (loner i name 0 [])).
Proof using All.
  intros -> Hr. destruct HO as [Hl Hg]. set (i := w_maxuid w + 1). split; cbn.
  - intros x a. destruct (decide (x = i)) as [->|Hx].
    + rewrite lookup_insert_eq. intros [= <-] _ y. cbn. split; [set_solver|]. intros [Hy (b & Hb & E)].
      rewrite lookup_insert_ne in Hb by lia. pose proof (Hg y b Hb Hy). lia.
    + rewrite lookup_insert_ne by done. intros Ha Hx0 y. rewrite (Hl x a Ha Hx0). split; intros [Hy Hb]; (split; [done|]).
      * by rewrite lookup_insert_ne by lia.
      * by rewrite lookup_insert_ne in Hb by lia.
  - intros y b Hb Hy. rewrite lookup_insert_ne in Hb by lia. pose proof (Hg y b Hb Hy). lia.
Qed.

Lemma group_shows name o pa i : i = w_mingid w - 1 -> w_mingid w <= 0 <= w_maxuid w -> 0 < o -> w_all w !! o = Some pa ->
  shows (with_all (write w (new_group i name o (a_name pa)))
           (<[o := new_owner pa i]> (<[i := new_group i name o (a_name pa)]> (w_all w))))
    {| v_people := <[i := (name, o, a_name pa)]> (v_people v); v_names := <[name := i]> (v_names v);
       v_members := {[(o, i)]} ∪ v_members v; v_maxuid := v_maxuid v; v_mingid := i |}.
Proof using All.
  intros -> Hr Hpos Ho. destruct HV as [V1 V2 V3 V4 V5]. split; cbn; try congruence; try lia.
  - rewrite V1. apply map_eq. intros x. rewrite lookup_fmap. destruct (decide (x = o)) as [->|Hxo].
    + rewrite lookup_insert_eq, lookup_insert_ne, lookup_fmap, Ho by lia. done.
    + rewrite (lookup_insert_ne _ o x) by done. by rewrite <- lookup_fmap, fmap_insert.
  - intros x y. rewrite (create_member_of w (w_mingid w - 1) o pa); [|done|by apply fresh_id; lia|done|lia|done|done].
    rewrite <- V3. unfold joined. cbn. rewrite elem_of_union, elem_of_singleton. naive_solver.
Qed.

Lemma group_owned name o pa i : i = w_mingid w - 1 -> w_mingid w <= 0 <= w_maxuid w -> 0 < o -> w_all w !! o = Some pa ->
  owned (with_all (write w (new_group i name o (a_name pa)))
           (<[o := new_owner pa i]> (<[i := new_group i name o (a_name pa)]> (w_all w)))).
Proof using All.
  intros -> Hr Hpos Ho. destruct HO as [Hl Hg]. set (i := w_mingid w - 1).
  assert (w_all w !! i = None) as Hi by (apply fresh_id; lia). destruct (c_settled _ Hc o pa Ho) as (_ & _ & Hor).
  split; cbn.
  - intros x a Ha Hx y.
    assert (y < 0 /\ (exists b, <[o:=new_owner pa i]> (<[i:=new_group i name o (a_name pa)]> (w_all w)) !! y = Some b /\ a_owner b = x)
            <-> (y < 0 /\ exists b, w_all w !! y = Some b /\ a_owner b = x) \/ (y = i /\ x = o)) as ->.
    { destruct (decide (y = i)) as [->|Hy].
      - rewrite lookup_insert_ne, lookup_insert_eq, Hi by lia. cbn. split; [|intros [[_ (b & ? & _)]|[_ ->]]; [done|]].
        + intros [_ (b & [= <-] & E)]. cbn in E. auto.
        + split; [lia|]. eexists. split; [done|]. done.
      - destruct (decide (y < 0)) as [Hy0|Hy0]; [|naive_solver lia]. rewrite !lookup_insert_ne by lia. naive_solver. }
    destruct (decide (x = o)) as [->|Hxo].
    + rewrite lookup_insert_eq in Ha. injection Ha as <-. cbn. rewrite elem_of_union, elem_of_singleton, (Hl o pa Ho Hpos). tauto.
    + rewrite !lookup_insert_ne in Ha by lia. rewrite (Hl x a Ha Hx). tauto.
  - intros y b. destruct (decide (y = o)) as [->|Hyo]; [lia|]. rewrite lookup_insert_ne by done.
    destruct (decide (y = i)) as [->|Hyi]; [rewrite lookup_insert_eq; intros [= <-] _; cbn; lia|].
    rewrite lookup_insert_ne by done. intros Hb Hy. pose proof (Hg y b Hb Hy). lia.
Qed.

Lemma delete_user_shows i ia : 0 < i -> w_all w !! i = Some ia ->
  shows (with_all (without w ia) (scrub i (a_groups ia) (w_all (without w ia))))
    {| v_people := delete i (v_people v); v_names := delete (a_name ia) (v_names v);
       v_members := filter (fun e => fst e <> i) (v_members v); v_maxuid := v_maxuid v; v_mingid := v_mingid v |}.
Proof using All.
  intros Hpos Hi. pose proof (id_of w i ia Hc Hi) as Eid. destruct HV as [V1 V2 V3 V4 V5]. split; cbn; try congruence.
  - rewrite V1, Eid, <- fmap_delete. apply map_eq. intros x. rewrite !lookup_fmap, scrub_lookup.
    destruct (delete i (w_all w) !! x); [|done]. cbn. by destruct (decide (x ∈ a_groups ia)).
  - intros x y. rewrite scrub_member_of. rewrite (without_member_of w i ia Hc Hi). rewrite <- V3.
    unfold joined. cbn. rewrite elem_of_filter. cbn. tauto.
Qed.

Lemma delete_user_owned i ia : 0 < i -> w_all w !! i = Some ia ->
  owned (with_all (without w ia) (scrub i (a_groups ia) (w_all (without w ia)))).
Proof using All.
  intros Hpos Hi. pose proof (id_of w i ia Hc Hi) as Eid. apply (owned_ext w); [done|done| |]; cbn; rewrite Eid.
  - intros x a Ha Hx. rewrite scrub_lookup in Ha. apply fmap_Some in Ha as (b & Hb & ->).
    apply lookup_delete_Some in Hb as [_ Hb]. exists b. split; [done|]. destruct (decide (x ∈ a_groups ia)) as [Hx'|]; [|done].
    destruct (proj1 (c_mutual _ Hc) i ia x Hi Hx') as [? _]. lia.
  - intros y Hy. rewrite scrub_lookup, lookup_delete_ne by lia. destruct (w_all w !! y); [|done]. cbn. by destruct (decide _).
Qed.

Lemma delete_group_shows g ga oa w' : g < 0 -> w_all w !! g = Some ga -> a_groups ga = ∅ ->
  0 < a_owner ga -> w_all w !! a_owner ga = Some oa ->
  same_shape (leave g (a_members ga) (w_all (gone w g (a_owner ga) ga oa))) (w_all w') -> same_index (without w ga) w' ->
  shows w' {| v_people := delete g (v_people v); v_names := delete (a_name ga) (v_names v);
              v_members := filter (fun e => snd e <> g) (v_members v);
              v_maxuid := v_maxuid v; v_mingid := v_mingid v |}.
Proof using All.
  intros Hneg Hg Hroot Hpos Ho HS (E1 & E2 & E3). destruct HV as [V1 V2 V3 V4 V5].
  split; cbn; rewrite ?V1, ?V2, ?V4, ?V5; try done.
  - rewrite <- fmap_delete. apply map_eq. intros x.
    rewrite !lookup_fmap, (same_shape_fields ident _ _ x (fun _ => eq_refl) HS), leave_lookup, gone_lookup.
    destruct (decide (x = a_owner ga)) as [->|Hxo]; [rewrite lookup_delete_ne, Ho by lia; cbn; by destruct (decide _)|].
    destruct (decide (x = g)) as [->|Hxg]; [by rewrite lookup_delete_eq|]. rewrite lookup_delete_ne by done.
    destruct (w_all w !! x); [|done]. cbn. by destruct (decide _).
  - intros x y. rewrite (same_shape_member _ _ _ _ HS), leave_member_of, gone_member_of by done.
    unfold joined. cbn. rewrite elem_of_filter. cbn. fold (joined v x y). rewrite V3. split.
    + intros [Hyg Hxy]. split; [|tauto]. split; [done|]. intros ->. destruct Hxy as (b & Hb & Hyb).
      rewrite Hg in Hb. injection Hb as <-. set_solver.
    + intros [[Hxy Hxg] Hn]. split; [|done]. intros ->. apply Hn. split; [|done].
      destruct Hxy as (b & Hb & Hgb). destruct (proj1 (c_mutual _ Hc) x b g Hb Hgb) as (_ & c & Hcg & Hx). congruence.
Qed.

Lemma delete_group_owned g ga oa w' : g < 0 -> w_all w !! g = Some ga -> a_groups ga = ∅ ->
  0 < a_owner ga -> w_all w !! a_owner ga = Some oa ->
  same_shape (leave g (a_members ga) (w_all (gone w g (a_owner ga) ga oa))) (w_all w') -> same_index (without w ga) w' ->
  owned w'.
Proof using All.
  intros Hneg Hg Hroot Hpos Ho HS (E1 & E2 & E3). destruct HO as [Hl Hr]. set (o := a_owner ga) in *.
  assert (forall y, y < 0 -> a_owner <$> w_all w' !! y = if decide (y = g) then None else a_owner <$> w_all w !! y) as EO.
  { intros y Hy. rewrite (same_shape_fields a_owner _ _ y (fun _ => eq_refl) HS), leave_lookup, gone_lookup.
    destruct (decide (y = o)); [lia|]. destruct (decide (y = g)); [done|].
    destruct (w_all w !! y); [|done]. cbn. by destruct (decide _). }
  assert (forall x a', w_all w' !! x = Some a' -> 0 < x -> exists a, w_all w !! x = Some a /\
            a_members a' = if decide (x = o) then a_members a ∖ {[g]} else a_members a) as EM.
  { intros x a' Ha' Hx. pose proof (same_shape_fields a_members _ _ x (fun _ => eq_refl) HS) as E.
    rewrite Ha', leave_lookup, gone_lookup in E. destruct (decide (x = o)) as [->|Hxo].
    - exists oa. split; [done|]. cbn in E. injection E as ->. by destruct (decide _).
    - destruct (decide (x = g)); [done|]. destruct (w_all w !! x) as [a|]; [|done]. exists a. split; [done|].
      cbn in E. injection E as ->. by destruct (decide _). }
  assert (forall x y, y < 0 -> (exists b, w_all w' !! y = Some b /\ a_owner b = x) <->
            (exists b, w_all w !! y = Some b /\ a_owner b = x) /\ y <> g) as EB.
  { intros x y Hy. specialize (EO y Hy). destruct (decide (y = g)) as [->|Hyg].
    - destruct (w_all w' !! g); [done|]. naive_solver.
    - destruct (w_all w' !! y) as [b'|], (w_all w !! y) as [b|]; try done; [injection EO as EO|]; naive_solver. }
  split.
  - intros x a' Ha' Hx y. destruct (EM x a' Ha' Hx) as (a & Ha & ->). pose proof (Hl x a Ha Hx y) as Hly.
    destruct (decide (y < 0)) as [Hy|Hy].
    + rewrite (EB x y Hy). destruct (decide (x = o)) as [|Hxo]; [rewrite elem_of_difference, elem_of_singleton; tauto|].
      rewrite Hly. split; [|tauto]. intros [_ (b & Hb & Eb)]. split; [done|]. split; [eauto|].
      intros ->. apply Hxo. rewrite Hg in Hb. by injection Hb as <-.
    + split; [|lia]. intros Hin. exfalso. apply Hy. apply Hly. destruct (decide (x = o)); [set_solver|done].
  - intros y b Hb Hy. rewrite E2. cbn. destruct (proj1 (EB (a_owner b) y Hy)) as [(b0 & Hb0 & E) _]; [eauto|].
    rewrite <- E. by apply (Hr y b0).
Qed.
End effects.

(** ** The simulation *)
Section sim.
Context {db : Type} `{RWCDBLaws db, AllocOk, Uninit}.
Implicit Types (h : handle db) (w : adb).

Definition run (fuel : nat) (c : command) : M db Z :=
  (match c with
   | CreateUser name => PDB_createUser name
   | CreateGroup name o => PDB_createGroup name o
   | AddToGroup i g => PDB_addToGroup fuel i g ;* mret 0
   | RemoveFromGroup i g => PDB_removeFromGroup fuel i g ;* mret 0
   | DeleteUser i => PDB_deleteUser i ;* mret 0
   | DeleteGroup g => PDB_deleteGroup fuel g ;* mret 0
   end)%C.

(** The database on the handle shows [v] after [m] openings. *)
Definition state_of (m : Z) (v : view) h : Prop :=
  exists w, db_at m w h /\ consistent w /\ owned w /\ shows w v.

Lemma run_unit (p : M db unit) h Q : runs p h (fun _ h' => Q h') -> runs (p ;* mret 0)%C h (fun r h' => r = 0 /\ Q h').
Proof. intros Hp. eapply runs_bind; [exact Hp|]. cbv beta. intros _ h' HQ. by apply runs_ret. Qed.

Lemma sim_add fuel m v h i g : state_of m v h -> m < 2 ^ 31 - 1 ->
  Z.of_nat (size (v_people v)) < MAXIDS -> (size (v_people v) < fuel)%nat ->
  is_Some (v_people v !! i) -> is_Some (v_people v !! g) -> g < 0 -> ~ rtc (joined v) g i ->
  runs (PDB_addToGroup fuel i g) h (fun _ h' => state_of (m + 1) (rejoin v ({[(i, g)]} ∪ v_members v)) h').
Proof.
  intros (w & Hdb & Hc & HO & HV) Hm Hz Hf Hi Hg Hneg Hn. rewrite (shows_size w v HV) in *.
  destruct (shows_is_some w v HV i Hi) as [ia Hia]. destruct (shows_is_some w v HV g Hg) as [ga Hga].
  eapply runs_mono; [eapply (addToGroup_ok fuel m w h i g ia ga); try done; [lia|]|].
  { by rewrite (shows_reach w v HV Hc g ga i Hga). }
  cbv beta. intros _ h' (w' & Hdb' & Hc' & HS & HI). exists w'. do 2 (split; [done|]).
  split; [by eapply relist_owned|]. eapply relist_shows; [done..|]. intros x y.
  rewrite (link_member_of (w_all w) i g ia Hia), <- (sh_members _ _ HV). unfold joined. set_solver.
Qed.

Lemma sim_cycle fuel m v h i g : state_of m v h -> m < 2 ^ 31 - 1 ->
  is_Some (v_people v !! g) -> g < 0 -> rtc (joined v) g i ->
  runs (PDB_addToGroup fuel i g) h (fun _ h' => state_of (m + 1) v h').
Proof.
  intros (w & Hdb & Hc & HO & HV) Hm Hg Hneg Hr. destruct (shows_is_some w v HV g Hg) as [ga Hga].
  apply (shows_reach w v HV Hc g ga i Hga) in Hr.
  destruct (consistent_local w Hc) as [Hok Hac].
  assert (i ∈ cps_of (w_all w) g) as Hi by (unfold cps_of; by rewrite Hga).
  apply cps_rtc in Hi as [_ [ia Hia]]; [|done|done]. destruct (stored_good _ _ _ _ _ Hdb Hia) as (_ & _ & Hi0 & _).
  eapply runs_mono; [by eapply (addToGroup_refused fuel m w h i g ga)|].
  cbv beta. intros _ h' Hdb'. by exists w.
Qed.

Lemma sim_remove fuel m v h i g : state_of m v h -> m < 2 ^ 31 - 1 ->
  Z.of_nat (size (v_people v)) < MAXIDS -> (size (v_people v) < fuel)%nat ->
  is_Some (v_people v !! i) -> is_Some (v_people v !! g) -> g < 0 -> i <> g ->
  runs (PDB_removeFromGroup fuel i g) h (fun _ h' => state_of (m + 1) (rejoin v (v_members v ∖ {[(i, g)]})) h').
Proof.
  intros (w & Hdb & Hc & HO & HV) Hm Hz Hf Hi Hg Hneg Hne. rewrite (shows_size w v HV) in *.
  destruct (shows_is_some w v HV i Hi) as [ia Hia]. destruct (shows_is_some w v HV g Hg) as [ga Hga].
  eapply runs_mono; [eapply (removeFromGroup_ok fuel m w h i g ia ga); done || lia|].
  cbv beta. intros _ h' (w' & Hdb' & Hc' & HS & HI). exists w'. do 2 (split; [done|]).
  split; [by eapply relist_owned|]. eapply relist_shows; [done..|]. intros x y.
  rewrite (unlink_member_of (w_all w) i g ia Hia), <- (sh_members _ _ HV). unfold joined. set_solver.
Qed.

Lemma sim_delete_group fuel m v h g name o on : state_of m v h -> m < 2 ^ 31 - 1 ->
  Z.of_nat (size (v_people v)) < MAXIDS -> (size (v_people v) < fuel)%nat ->
  g < 0 -> v_people v !! g = Some (name, o, on) -> is_Some (v_people v !! o) -> (forall z, ~ joined v g z) ->
  runs (PDB_deleteGroup fuel g) h (fun _ h' => state_of (m + 1)
    {| v_people := delete g (v_people v); v_names := delete name (v_names v);
       v_members := filter (fun e => snd e <> g) (v_members v);
       v_maxuid := v_maxuid v; v_mingid := v_mingid v |} h').
Proof.
  intros (w & Hdb & Hc & HO & HV) Hm Hz Hf Hneg Hg Ho Hn. rewrite (shows_size w v HV) in *.
  destruct (shows_some w v HV g _ _ _ Hg) as (ga & Hga & <- & <- & _).
  destruct (shows_is_some w v HV _ Ho) as [oa Hoa]. pose proof (ow_range _ HO g ga Hga Hneg).
  assert (a_groups ga = ∅) as Hroot.
  { apply elem_of_equiv_empty_L. intros z Hz'. apply (Hn z). apply (sh_members _ _ HV). by exists ga. }
  eapply runs_mono; [eapply (PDB_deleteGroup_ok fuel m w h g ga oa); done || lia|].
  cbv beta. intros _ h' (w' & Hdb' & Hc' & HS & HI). exists w'. do 2 (split; [done|]).
  split; [by eapply delete_group_owned; [..|exact HS|exact HI]; done || lia|].
  by eapply delete_group_shows; [..|exact HS|exact HI]; done || lia.
Qed.

(** Every command the specification allows runs and does what it says. *)
Lemma run_spec fuel m v h c r v' : state_of m v h -> m < 2 ^ 31 - 1 ->
  Z.of_nat (size (v_people v)) < MAXIDS -> (size (v_people v) < fuel)%nat -> spec v c r v' ->
  runs (run fuel c) h (fun r' h' => r' = r /\ state_of (m + 1) v' h').
Proof.
  intros HS Hm Hz Hf Hspec. destruct Hspec; cbn [run];
    [| |apply run_unit; by apply sim_add|apply run_unit; by apply sim_cycle|apply run_unit; by apply sim_remove|
     |apply run_unit; by eapply sim_delete_group].
  - destruct HS as (w & Hdb & Hc & HO & HV). pose proof (st_range _ _ (db_at_stored _ _ _ Hdb)).
    rewrite (sh_names _ _ HV), (sh_maxuid _ _ HV) in * |-.
    eapply runs_mono; [by eapply (PDB_createUser_ok m w h name)|]. cbv beta. intros r h' (-> & Hdb' & Hc').
    pose proof (sh_maxuid _ _ HV) as Em. rewrite <- Em in Hdb', Hc' |- *. split; [done|]. eexists. split; [exact Hdb'|]. split; [done|].
    split; [eapply user_owned; done || lia|eapply user_shows; done || lia].
  - destruct HS as (w & Hdb & Hc & HO & HV). pose proof (st_range _ _ (db_at_stored _ _ _ Hdb)).
    destruct (shows_some w v HV o _ _ _ ltac:(eassumption)) as (pa & Hpa & <- & _ & _).
    rewrite (shows_size w v HV) in *. rewrite (sh_names _ _ HV), (sh_mingid _ _ HV) in * |-.
    pose proof (owned_size w o pa HO Hpa ltac:(done)).
    eapply runs_mono; [by eapply (PDB_createGroup_ok m w h name o pa); done || lia|]. cbv beta. intros r h' (-> & Hdb' & Hc').
    pose proof (sh_mingid _ _ HV) as Em. rewrite <- Em in Hdb', Hc' |- *. split; [done|]. eexists. split; [exact Hdb'|]. split; [done|].
    split; [eapply group_owned; done || lia|eapply group_shows; done || lia].
  - apply run_unit. destruct HS as (w & Hdb & Hc & HO & HV).
    destruct (shows_some w v HV i _ _ _ ltac:(eassumption)) as (ia & Hia & <- & _ & _).
    eapply runs_mono; [by eapply (PDB_deleteUser_ok m w h i ia)|]. cbv beta. intros _ h' (Hdb' & Hc').
    eexists. split; [exact Hdb'|]. split; [done|].
    split; [by eapply delete_user_owned|by eapply delete_user_shows].
Qed.

(** ** Histories *)
Fixpoint run_all (fuel : nat) (cs : list command) : M db (list Z) :=
  (match cs with
   | [] => mret []
   | c :: cs => do* r := run fuel c in do* rs := run_all fuel cs in mret (r :: rs)
   end)%C.

Inductive history : view -> list command -> list Z -> view -> Prop :=
| history_nil v : history v [] [] v
| history_cons v c r v1 cs rs v2 : spec v c r v1 -> history v1 cs rs v2 -> history v (c :: cs) (r :: rs) v2.

Lemma spec_size v c r v' : spec v c r v' -> (size (v_people v') <= S (size (v_people v)))%nat.
Proof.
  assert (forall x y (m : gmap Z (list Z * Z * list Z)), (size (<[x := y]> m) <= S (size m))%nat) as Hins.
  { intros x y p. destruct (p !! x) eqn:E; [rewrite map_size_insert_Some by eauto; lia|by rewrite map_size_insert_None]. }
  assert (forall x (m : gmap Z (list Z * Z * list Z)), (size (delete x m) <= size m)%nat) as Hdel.
  { intros x p. apply map_subseteq_size, delete_subseteq. }
  destruct 1; cbn; try lia; first [apply Hins|apply Nat.le_le_succ_r, Hdel].
Qed.

Lemma run_history fuel v cs rs v' : history v cs rs v' -> forall m h, state_of m v h ->
  Z.of_nat (size (v_people v)) + zlen cs < MAXIDS -> m + zlen cs < 2 ^ 31 ->
  (size (v_people v) + length cs < fuel)%nat ->
  runs (run_all fuel cs) h (fun rs' h' => rs' = rs /\ state_of (m + zlen cs) v' h').
Proof.
  induction 1 as [v|v c r v1 cs rs v2 Hs _ IH]; intros m h HS Hz Hm Hf.
  - apply runs_ret. rewrite zlen_nil, Z.add_0_r. done.
  - rewrite zlen_cons in *. cbn [length] in Hf. pose proof (zlen_nonneg cs). pose proof (spec_size _ _ _ _ Hs).
    cbn [run_all]. eapply runs_bind; [eapply run_spec; [done|lia|lia|lia|done]|].
    cbv beta. intros r' h1 [-> HS1]. eapply runs_bind; [apply (IH (m + 1)); [done|lia..]|].
    cbv beta. intros rs' h2 [-> HS2]. apply runs_ret. split; [done|]. by replace (m + (1 + zlen cs)) with (m + 1 + zlen cs) by lia.
Qed.

(** An empty database. *)
Definition no_adb : adb := {| w_all := ∅; w_names := ∅; w_maxuid := 0; w_mingid := 0 |}.

Lemma nobody_at m h : db_at m no_adb h -> state_of m nobody h.
Proof.
  intros Hdb. exists no_adb. split; [done|]. split; [|split].
  - split; [done|done|split; done|done|]. intros x Hx. inversion Hx as [? ? (a & Ha & _)|? ? ? (a & Ha & _)]; done.
  - done.
  - split; try done. intros x y. unfold joined. cbn. split; [set_solver|]. by intros (a & Ha & _).
Qed.

(** The CPS that a profile carries is the set of groups reachable through membership. *)
Lemma read_cps m v h x : state_of m v h -> is_Some (v_people v !! x) ->
  exists r h' l, PDB_readProfile x h = Ret (r, h') /\ holds (p_cps r) l /\ forall y, y ∈ l <-> rtc (joined v) x y.
Proof.
  intros (w & Hdb & Hc & _ & HV) Hx. destruct (shows_is_some w v HV x Hx) as [a Ha].
  destruct (read_some m w h x a Hdb Ha) as (r & h' & E & _ & Hr). destruct Hr as (_ & _ & _ & _ & _ & (l & Hl & El) & _).
  exists r, h', l. split; [done|]. split; [done|]. intros y.
  rewrite <- (shows_reach w v HV Hc x a y Ha), <- El. by rewrite elem_of_list_to_set.
Qed.

(** ** Claims *)

(** Every command that the specification allows (create or delete a user or a
    group, add or remove a member) returns with the result of the specification
    and leaves a consistent database that shows the new view. *)
Theorem PDB_command_refines fuel m v h c r v' : state_of m v h -> m < 2 ^ 31 - 1 ->
  Z.of_nat (size (v_people v)) < MAXIDS -> (size (v_people v) < fuel)%nat -> spec v c r v' ->
  exists h', run fuel c h = Ret (r, h') /\ state_of (m + 1) v' h'.
Proof.
  intros HS Hm Hz Hf Hs. destruct (run_spec fuel m v h c r v' HS Hm Hz Hf Hs) as (r' & h' & E & -> & HS').
  by exists h'.
Qed.

(** Starting from an empty database, any history of allowed commands runs
    without a failed assertion, gives the results of the specification, and in
    the end the CPS read with any profile is exactly the set of principals that
    membership leads to. *)
Theorem PDB_history fuel h cs rs v : db_at 0 no_adb h -> history nobody cs rs v ->
  zlen cs < MAXIDS -> (length cs < fuel)%nat ->
  exists h', run_all fuel cs h = Ret (rs, h') /\ state_of (zlen cs) v h' /\
    forall x, is_Some (v_people v !! x) -> exists r h'' l, PDB_readProfile x h' = Ret (r, h'') /\
      holds (p_cps r) l /\ forall y, y ∈ l <-> rtc (joined v) x y.
Proof.
  intros Hdb HH Hz Hf. apply nobody_at in Hdb. unfold MAXIDS in Hz.
  assert (size (v_people nobody) = 0%nat) as E0 by apply map_size_empty.
  destruct (run_history fuel nobody cs rs v HH 0 h Hdb) as (rs' & h' & E & -> & HS).
  - unfold MAXIDS. lia.
  - lia.
  - lia.
  - exists h'. split; [done|]. split; [done|]. intros x Hx. by eapply read_cps.
Qed.

(** Deleting a group that is a member of another group aborts the program: the
    assertion on the profile of the other group has the wrong sign.  By then the
    record of the group is gone and the other group still lists it. *)
Theorem PDB_deleteGroup_nested_aborts fuel m v h g name o on z : state_of m v h -> m < 2 ^ 31 - 1 ->
  g < 0 -> v_people v !! g = Some (name, o, on) -> is_Some (v_people v !! o) -> joined v g z ->
  run fuel (DeleteGroup g) h = Stop CAbort.
Proof.
  intros (w & Hdb & Hc & HO & HV) Hm Hneg Hg Ho Hz. destruct (shows_some w v HV g _ _ _ Hg) as (ga & Hga & _ & <- & _).
  destruct (shows_is_some w v HV _ Ho) as [oa Hoa]. pose proof (ow_range _ HO g ga Hga Hneg).
  apply (sh_members _ _ HV) in Hz as (ga' & Hga' & Hz). rewrite Hga in Hga'. injection Hga' as <-.
  cbn [run]. unfold mbind. rewrite (PDB_deleteGroup_nested fuel m w h g ga oa); [done..|set_solver|lia|done].
Qed.

(** In a consistent database the two lookups are inverse to each other: the name
    of an id leads to the id, and the id found under a name carries that name. *)
Theorem PDB_lookups_inverse m w h i s : db_at m w h -> consistent w -> int32 i -> s <> [] ->
  exists h1 h2 j t, PDB_lookupByName s h = Ret (j, h1) /\ PDB_lookupById i h1 = Ret (t, h2) /\ db_at m w h2 /\
    (j = i -> i <> 0 -> t = Some s) /\ (t = Some s -> j = i).
Proof.
  intros Hdb Hc Hi Hs.
  destruct (PDB_lookupByName_ok m w h s Hdb Hc Hs) as (j & h1 & E1 & -> & Hdb1).
  destruct (PDB_lookupById_ok m w h1 i Hdb1 Hi) as (t & h2 & E2 & -> & Hdb2).
  exists h1, h2. do 2 eexists. do 3 (split; [done|]). split.
  - destruct (w_names w !! s) as [j|] eqn:Ej; cbn; [|by intros <-]. intros -> _.
    destruct (c_index _ Hc s i Ej) as (a & -> & En). cbn. by rewrite En.
  - destruct (w_all w !! i) as [a|] eqn:Ea; [|done]. intros [= En].
    destruct (c_settled _ Hc i a Ea) as (_ & Hn & _). rewrite En in Hn. by rewrite Hn.
Qed.
End sim.

Section records.
Context `{AllocOk}.

(** C31 A profile that represents a principal survives [pdb_pack] followed by [pdb_unpack]. *)
Theorem pdb_pack_roundtrip r r0 a : profile_rep r a -> good a ->
  exists data r', pdb_pack r = Ret data /\ pdb_unpack r0 data = Ret r' /\ profile_rep r' a.
Proof.
  intros Hr Hg. destruct (pdb_pack_ok r a Hr Hg) as (data & E & Hp).
  destruct (pdb_unpack_ok r0 a data Hp Hg) as (r' & E' & Hr'). by exists data, r'.
Qed.

(** C32 The sorted arrays implement finite sets: search is membership, add, del and
    merge are insertion, removal and union. *)
Theorem pdb_array_refines_set l l' (s t : gset Z) x : array_rep l s -> array_rep l' t ->
  Z.of_nat (size s) <= MAXIDS -> Z.of_nat (size t) <= MAXIDS ->
  (exists n, pdb_array_search l x = Ret n /\ (n = -1 <-> x ∉ s)) /\
  (exists l1, pdb_array_add l x = Ret l1 /\ array_rep l1 ({[x]} ∪ s)) /\
  (exists l1, pdb_array_del l x = Ret l1 /\ array_rep l1 (s ∖ {[x]})) /\
  (exists l1, pdb_array_merge l l' = Ret l1 /\ array_rep l1 (s ∪ t)).
Proof.
  intros Hl Hl' Hs Ht. split; [by apply rep_search|]. split; [by apply rep_add|].
  split; [by apply rep_del|by apply rep_merge].
Qed.
End records.

(** ** A store to run on

    The simplest store with the interface of rwcdb: a map, the value found last and the
    maps that insertions have made. *)
Record mapdb := {
  md_map : gmap (list Z) (list Z);
  md_found : list Z;
  md_past : list (gmap (list Z) (list Z))
}.

(** Storing no data removes the key. *)
Definition put (k d : list Z) (m : gmap (list Z) (list Z)) : gmap (list Z) (list Z) :=
  match d with [] => delete k m | _ => <[k := d]> m end.

#[export] Instance mapdb_rwcdb : RWCDB mapdb := {|
  rwcdb_init d _ := Ret (d, 0);
  rwcdb_free d := Ret (d, 1);
  rwcdb_sync d := Ret (d, 1);
  rwcdb_find d k := match md_map d !! k with
                    | Some v => Ret ({| md_map := md_map d; md_found := v; md_past := md_past d |}, 1)
                    | None => Ret (d, 0)
                    end;
  rwcdb_datalen d := zlen (md_found d);
  rwcdb_datapos _ := 0;
  rwcdb_read d n _ := Ret (d, (0, take (Z.to_nat n) (md_found d)));
  rwcdb_insert d k v :=
    let m := put k v (md_map d) in
    Ret ({| md_map := m; md_found := md_found d; md_past := m :: md_past d |}, 1);
  rwcdb_delete d k := Ret ({| md_map := delete k (md_map d); md_found := md_found d; md_past := md_past d |},
                           if decide (is_Some (md_map d !! k)) then 1 else 0)
|}.

#[export, program] Instance mapdb_laws : RWCDBLaws mapdb := {| rw_ok _ := True; contents := md_map |}.
Next Obligation.
  intros d k _. cbn. destruct (md_map d !! k) as [v|]; eexists _, _; (split; [done|]); do 2 (split; [done|]); [|done].
  cbn. do 2 (split; [done|]). eexists. split; [cbn [md_found]; unfold zlen; rewrite Nat2Z.id, take_ge; done|done].
Qed.
Next Obligation. intros d k v _ Hv. eexists. split; [done|]. split; [done|]. by destruct v. Qed.
Next Obligation. intros d k _. by eexists _, _. Qed.
Next Obligation. intros d _. by eexists. Qed.

#[export] Instance alloc_always : Alloc := {| can_alloc _ := true; junk := 170 |}.
#[export] Instance alloc_always_ok : AllocOk.
Proof. done. Qed.
#[export] Instance uninit_zero : Uninit :=
  {| p_id := 0; p_name := None; p_owner_id := 0; p_owner_name := None; p_member_of := pdb_array_init;
     p_cps := pdb_array_init; p_groups_or_members := pdb_array_init |}.

Definition empty_handle : handle mapdb :=
  {| h_main := {| md_map := ∅; md_found := []; md_past := [] |}; h_open := true; h_open_rw := true; h_mutations := 0 |}.

Lemma empty_at : db_at 0 no_adb empty_handle.
Proof.
  do 5 (split; [done|]). split; cbn; try done. by right.
Qed.

(** A user owns two groups and the second is put into the first. *)
Definition sample : list command :=
  [CreateUser [97]; CreateGroup [103] 1; CreateGroup [107] 1; AddToGroup (-2) (-1)].
Definition view1 : view :=
  {| v_people := <[1 := ([97], 0, [])]> ∅; v_names := <[[97] := 1]> ∅; v_members := ∅; v_maxuid := 1; v_mingid := 0 |}.
Definition view2 : view :=
  {| v_people := <[-1 := ([103], 1, [97])]> (v_people view1); v_names := <[[103] := -1]> (v_names view1);
     v_members := {[(1, -1)]} ∪ ∅; v_maxuid := 1; v_mingid := -1 |}.
Definition view3 : view :=
  {| v_people := <[-2 := ([107], 1, [97])]> (v_people view2); v_names := <[[107] := -2]> (v_names view2);
     v_members := {[(1, -2)]} ∪ v_members view2; v_maxuid := 1; v_mingid := -2 |}.
Definition sample_view : view := rejoin view3 ({[(-2, -1)]} ∪ v_members view3).
Definition sample_handle : handle mapdb :=
  match run_all 10 sample empty_handle with Ret (_, h) => h | Stop _ => empty_handle end.

Lemma name_one c : 0 < c < 256 -> name_ok [c].
Proof. intros Hc. split; [by apply Forall_singleton|done]. Qed.

Lemma sample_history : history nobody sample [1; -1; -2; 0] sample_view.
Proof.
  apply (history_cons nobody _ _ view1); [apply (spec_user nobody [97]); [by apply name_one|done..]|].
  apply (history_cons view1 _ _ view2); [apply (spec_group view1 [103] 1 [97] 0 []); [by apply name_one|done..]|].
  apply (history_cons view2 _ _ view3); [apply (spec_group view2 [107] 1 [97] 0 []); [by apply name_one|done..]|].
  apply (history_cons view3 _ _ sample_view); [|apply history_nil].
  apply (spec_add view3 (-2) (-1)); [by eexists|by eexists|done|].
  intros Hr. inversion Hr as [|? z ? Hz]; subst. unfold joined in Hz. cbn in Hz. set_solver.
Qed.

Lemma sample_state : state_of 4 sample_view sample_handle.
Proof.
  destruct (run_history 10 nobody sample _ _ sample_history 0 empty_handle) as (rs & h & E & _ & HS);
    [apply nobody_at, empty_at|done|done|vm_compute; lia|].
  unfold sample_handle. by rewrite E.
Qed.

Lemma PDB_history_witness : exists h', run_all 10 sample empty_handle = Ret ([1; -1; -2; 0], h') /\
  exists r h'' l, PDB_readProfile (-2) h' = Ret (r, h'') /\ holds (p_cps r) l /\
    forall y, y ∈ l <-> rtc (joined sample_view) (-2) y.
Proof.
  destruct (PDB_history 10 empty_handle sample [1; -1; -2; 0] sample_view empty_at sample_history) as (h' & E & _ & HC);
    [done|vm_compute; lia|].
  exists h'. split; [done|]. apply HC. by eexists.
Defined.

Lemma PDB_command_refines_witness : exists h', run 10 (RemoveFromGroup (-2) (-1)) sample_handle = Ret (0, h') /\
  state_of 5 (rejoin sample_view (v_members sample_view ∖ {[(-2, -1)]})) h'.
Proof.
  apply (PDB_command_refines 10 4 sample_view sample_handle (RemoveFromGroup (-2) (-1)) 0);
    [apply sample_state|done|done|vm_compute; lia|].
  apply (spec_remove sample_view (-2) (-1)); [by eexists|by eexists|done|done].
Defined.

Lemma PDB_deleteGroup_nested_aborts_witness : run 10 (DeleteGroup (-2)) sample_handle = Stop CAbort.
Proof.
  apply (PDB_deleteGroup_nested_aborts 10 4 sample_view sample_handle (-2) [107] 1 [97] (-1));
    [apply sample_state|done|done|done|by eexists|]. unfold joined. cbn. set_solver.
Defined.

Lemma PDB_lookups_inverse_witness : exists w h1 h2 j t, consistent w /\ db_at 4 w sample_handle /\
  PDB_lookupByName [103] sample_handle = Ret (j, h1) /\ PDB_lookupById (-1) h1 = Ret (t, h2) /\ db_at 4 w h2 /\
  (j = -1 -> -1 <> 0 -> t = Some [103]) /\ (t = Some [103] -> j = -1).
Proof.
  destruct sample_state as (w & Hdb & Hc & _ & _).
  destruct (PDB_lookups_inverse 4 w sample_handle (-1) [103] Hdb Hc) as (h1 & h2 & j & t & HH); [done|done|].
  exists w, h1, h2, j, t. split; [done|]. split; [done|]. exact HH.
Defined.

Definition sample_array : pdb_array := {| pa_size := 2; pa_memsize := 3; pa_data := Some [-4; 7; 170] |}.
Lemma sample_array_rep : array_rep sample_array {[-4; 7]}.
Proof.
  exists [-4; 7]. split; [|set_solver]. split; [by repeat split|]. split; [done|]. repeat constructor; lia.
Qed.

Lemma pdb_array_refines_set_witness :
  (exists l1, pdb_array_add sample_array 5 = Ret l1 /\ array_rep l1 ({[5]} ∪ {[-4; 7]})) /\
  (exists l1, pdb_array_merge sample_array pdb_array_init = Ret l1 /\ array_rep l1 ({[-4; 7]} ∪ ∅)).
Proof.
  destruct (pdb_array_refines_set sample_array pdb_array_init {[-4; 7]} ∅ 5) as (_ & Ha & _ & Hm);
    [apply sample_array_rep|apply rep_init|done|done|]. done.
Defined.

Definition sample_profile : PDB_profile :=
  {| p_id := 7; p_name := Some [97]; p_owner_id := 0; p_owner_name := None; p_member_of := sample_array;
     p_cps := sample_array; p_groups_or_members := pdb_array_init |}.
Definition sample_principal : principal :=
  {| a_id := 7; a_name := [97]; a_owner := 0; a_owner_name := []; a_groups := {[-4; 7]}; a_cps := {[-4; 7]}; a_members := ∅ |}.

Lemma sample_ids : ids_ok {[-4; 7]}.
Proof. split; [done|]. intros x Hx. assert (x = -4 \/ x = 7) as [-> | ->] by set_solver; done. Qed.

Lemma pdb_pack_roundtrip_witness : exists data r', pdb_pack sample_profile = Ret data /\
  pdb_unpack uninit data = Ret r' /\ profile_rep r' sample_principal.
Proof.
  apply (pdb_pack_roundtrip sample_profile uninit sample_principal).
  - do 4 (split; [done|]). split; [apply sample_array_rep|]. split; [apply sample_array_rep|apply rep_init].
  - split; cbn; try done; [by apply name_one|apply name_ok_nil|apply sample_ids|apply sample_ids].
Defined.
End PdbSpec.
