(* ===== verification/RwcdbFile.v ===== *)
(** * Files of the key-value store

    Model of lib-src/rwcdb/rwcdb_file.c: a file with one cached region for
    reading, or with a page buffer for writing.  Reading returns what is in the
    file whatever is cached; writing in pieces and flushing puts the
    concatenation into the file. *)
From Stdlib Require Import ZArith Lia.
From stdpp Require Import base list numbers.
From S2P Require Import Prelude.
From S2P Require Import Text.
From S2P Require Import PdbArray.

(** [write(2)] up to an offset of the file succeeds. *)
Class Disk := disk_ok : Z -> bool.
Class DiskOk `{Disk} : Prop := disk_never_full n : disk_ok n = true.

Module RwcdbFile.

(** [struct db_file] and the file behind its descriptor: whether [fd] is not -1,
    the bytes of the file and the offset of the descriptor. *)
Record db_file := {
  f_open : bool;
  f_ino : Z;
  f_data : list Z;
  f_off : Z;
  f_pos : Z;
  f_len : Z;
  f_eod : Z;
  f_cache_pos : Z;
  f_cache_len : Z;
  f_pending : Z;
  f_cache : list Z
}.

Definition with_pos (f : db_file) (off pos : Z) : db_file :=
  {| f_open := f_open f; f_ino := f_ino f; f_data := f_data f; f_off := off; f_pos := pos; f_len := f_len f;
     f_eod := f_eod f; f_cache_pos := f_cache_pos f; f_cache_len := f_cache_len f; f_pending := f_pending f;
     f_cache := f_cache f |}.
Definition with_cache (f : db_file) (cpos clen : Z) (c : list Z) : db_file :=
  {| f_open := f_open f; f_ino := f_ino f; f_data := f_data f; f_off := f_off f; f_pos := f_pos f; f_len := f_len f;
     f_eod := f_eod f; f_cache_pos := cpos; f_cache_len := clen; f_pending := f_pending f; f_cache := c |}.
Definition with_pending (f : db_file) (n : Z) (c : list Z) : db_file :=
  {| f_open := f_open f; f_ino := f_ino f; f_data := f_data f; f_off := f_off f; f_pos := f_pos f; f_len := f_len f;
     f_eod := f_eod f; f_cache_pos := f_cache_pos f; f_cache_len := f_cache_len f; f_pending := n; f_cache := c |}.
Definition with_data (f : db_file) (d : list Z) (off : Z) : db_file :=
  {| f_open := f_open f; f_ino := f_ino f; f_data := d; f_off := off; f_pos := f_pos f; f_len := f_len f;
     f_eod := f_eod f; f_cache_pos := f_cache_pos f; f_cache_len := f_cache_len f; f_pending := f_pending f;
     f_cache := f_cache f |}.
Definition with_len (f : db_file) (n : Z) : db_file :=
  {| f_open := f_open f; f_ino := f_ino f; f_data := f_data f; f_off := f_off f; f_pos := f_pos f; f_len := n;
     f_eod := f_eod f; f_cache_pos := f_cache_pos f; f_cache_len := f_cache_len f; f_pending := f_pending f;
     f_cache := f_cache f |}.
Definition with_eod (f : db_file) (n : Z) : db_file :=
  {| f_open := f_open f; f_ino := f_ino f; f_data := f_data f; f_off := f_off f; f_pos := f_pos f; f_len := f_len f;
     f_eod := n; f_cache_pos := f_cache_pos f; f_cache_len := f_cache_len f; f_pending := f_pending f;
     f_cache := f_cache f |}.

(** Little-endian words of the file format (rwcdb_pack.h). *)
Definition le32 (v : Z) : list Z := [u8 v; u8 (v / 2 ^ 8); u8 (v / 2 ^ 16); u8 (v / 2 ^ 24)].
Definition packints (a b : Z) : list Z := le32 a ++ le32 b.
Definition word (l : list Z) (i : nat) : Z :=
  default 0 (l !! i) + 2 ^ 8 * default 0 (l !! S i) + 2 ^ 16 * default 0 (l !! S (S i)) + 2 ^ 24 * default 0 (l !! S (S (S i))).
Definition unpackints (l : list Z) : Z * Z := (word l 0, word l 4).

(** Writing bytes at an offset of a file; a gap is filled with zeros. *)
Definition pwrite (d : list Z) (off : Z) (bs : list Z) : list Z :=
  take (Z.to_nat off) (d ++ replicate (Z.to_nat off - length d) 0) ++ bs ++ drop (Z.to_nat off + length bs) d.

Definition PAGESIZE : Z := 4096.

Section ops.
Context `{Alloc, Disk}.

Definition grow_cache (f : db_file) (len : Z) : db_file * Z :=
  let f := with_cache f (f_len f) (f_cache_len f) (f_cache f) in
  if f_cache_len f >=? len then (f, 0)
  else if can_alloc len then (with_cache f (f_len f) len (replicate (Z.to_nat len) (u8 junk)), 0)
  else (with_cache f (f_len f) (f_cache_len f) [], -1).

Definition cached (f : db_file) (len pos : Z) : bool :=
  (pos >=? f_cache_pos f) && (u32 (pos + len) <=? u32 (f_cache_pos f + f_cache_len f)).

Definition db_file_seek (f : db_file) (pos : Z) : db_file * Z :=
  if negb (f_open f) then (f, -1) else (with_pos f pos pos, 0).

(** [db_file_mread(f, &data, len, pos)]: the bytes [data] points to, [None] for -1. *)
Definition db_file_mread (f : db_file) (len pos : Z) : res (db_file * option (list Z)) :=
  if u32 (pos + len) >? f_len f then Ret (f, None)
  else
    let* (f, rc) :=
      (if cached f len pos then Ret (f, 0)
       else
         let '(f, rc) := grow_cache f len in
         if negb (rc =? 0) then Ret (f, -1)
         else if negb (f_open f && (len <=? zlen (f_cache f))) then Ret (f, -1)
         else
           let bs := slice (f_data f) pos (pos + len) in
           let* c := stbytes (f_cache f) 0 bs in
           let f := with_cache (with_pos f (f_off f) (u32 (pos + zlen bs))) (f_cache_pos f) (f_cache_len f) c in
           if negb (zlen bs =? len) then Ret (f, -1) else Ret (with_cache f pos len c, 0)) in
    if negb (rc =? 0) then Ret (f, None)
    else
      let o := pos - f_cache_pos f in
      if inbb (f_cache f) o len then Ret (f, Some (slice (f_cache f) o (o + len))) else Stop CUndef.

(** [write(fd, bs, n)]. *)
Definition sys_write (f : db_file) (bs : list Z) : db_file * Z :=
  if f_open f && disk_ok (f_off f + zlen bs)
  then (with_data f (pwrite (f_data f) (f_off f) bs) (f_off f + zlen bs), zlen bs) else (f, -1).

(** The first part of [db_file_write]: fill the page, write it when it is full. *)
Definition fill_page (f : db_file) (data : list Z) : res (db_file * Z * list Z) :=
  let blob := if zlen data <? PAGESIZE - f_pending f then zlen data else PAGESIZE - f_pending f in
  let* c := stbytes (f_cache f) (f_pending f) (take (Z.to_nat blob) data) in
  let f := with_pending (with_pos f (f_off f) (u32 (f_pos f + blob))) (f_pending f + blob) c in
  let data := drop (Z.to_nat blob) data in
  if f_pending f =? PAGESIZE then
    let '(f, n) := sys_write f c in
    if n =? -1 then Ret (f, -1, data) else Ret (with_pending f 0 (f_cache f), 0, data)
  else Ret (f, 0, data).

Definition db_file_write (f : db_file) (data : list Z) : res (db_file * Z) :=
  if zlen data =? 0 then Ret (f, 0)
  else
    let '(f, rc) := grow_cache f PAGESIZE in
    if negb (rc =? 0) then Ret (f, -1)
    else
      let* (f, rc, data) := fill_page f data in
      if negb (rc =? 0) then Ret (f, -1)
      else
        let blob := Z.land (zlen data) (Z.lnot (PAGESIZE - 1)) in
        let '(f, rc, data) :=
          (if negb (blob =? 0) then
             let '(f, n) := sys_write f (take (Z.to_nat blob) data) in
             if n =? -1 then (f, -1, data)
             else (with_pos f (f_off f) (u32 (f_pos f + blob)), 0, drop (Z.to_nat blob) data)
           else (f, 0, data)) in
        if negb (rc =? 0) then Ret (f, -1)
        else
          let* f := (if negb (zlen data =? 0) then
                       let* c := stbytes (f_cache f) 0 data in
                       Ret (with_pos (with_pending f (f_pending f + zlen data) c) (f_off f) (u32 (f_pos f + zlen data)))
                     else Ret f) in
          Ret (if f_pos f >? f_len f then with_len f (f_pos f) else f, 0).

Definition db_file_flush (f : db_file) : res (db_file * Z) :=
  if negb (f_pending f =? 0) then
    if inbb (f_cache f) 0 (f_pending f) then
      let '(f, n) := sys_write f (slice (f_cache f) 0 (f_pending f)) in
      if n =? -1 then Ret (f, -1) else Ret (with_pending f 0 (f_cache f), 0)
    else Stop CUndef
  else Ret (f, 0).

Definition db_readints (f : db_file) (pos : Z) : res (db_file * option (Z * Z)) :=
  let* (f, r) := db_file_mread f 8 pos in
  Ret (f, unpackints <$> r).

(** [db_file_open(f, name, mode)] where [open] gives the file [found], [None] when it fails. *)
Definition db_file_open (f : db_file) (found : option (Z * list Z)) : res (db_file * Z) :=
  match found with
  | None =>
      Ret ({| f_open := false; f_ino := f_ino f; f_data := []; f_off := 0; f_pos := 0; f_len := f_len f; f_eod := 2048;
              f_cache_pos := f_cache_pos f; f_cache_len := 0; f_pending := 0; f_cache := [] |}, -1)
  | Some (ino, data) =>
      let f := {| f_open := true; f_ino := ino; f_data := data; f_off := 0; f_pos := 0; f_len := u32 (zlen data); f_eod := 2048;
                  f_cache_pos := u32 (zlen data); f_cache_len := 0; f_pending := 0; f_cache := [] |} in
      if negb (f_len f =? 0) then
        let* (f, r) := db_readints f 0 in
        match r with Some (eod, _) => Ret (with_eod f eod, 0) | None => Ret (f, 0) end
      else Ret (f, 0)
  end.

Definition db_file_close (f : db_file) : db_file :=
  {| f_open := false; f_ino := f_ino f; f_data := f_data f; f_off := f_off f; f_pos := f_pos f; f_len := f_len f;
     f_eod := f_eod f; f_cache_pos := f_cache_pos f; f_cache_len := (if zlen (f_cache f) =? 0 then f_cache_len f else 0);
     f_pending := f_pending f; f_cache := [] |}.
End ops.

(** Reduction of the field updates only. *)
Ltac fcbn := cbn [with_pos with_cache with_pending with_data with_len with_eod f_open f_ino f_data f_off f_pos f_len f_eod
                  f_cache_pos f_cache_len f_pending f_cache].

(** ** Words *)
Lemma length_le32 v : length (le32 v) = 4%nat.
Proof. done. Qed.
Lemma zlen_packints a b : zlen (packints a b) = 8.
Proof. done. Qed.
Lemma unpack_packints a b : 0 <= a < 2 ^ 32 -> 0 <= b < 2 ^ 32 -> unpackints (packints a b) = (a, b).
Proof.
  intros Ha Hb. unfold unpackints, packints, word, le32, uwrap. cbn -[Z.modulo Z.div Z.mul Z.add Z.pow].
  change (2 ^ 8) with 256. change (2 ^ 16) with 65536. change (2 ^ 24) with 16777216. f_equal; zdm.
Qed.

(** ** Reading *)
Lemma zlen_slice {A} (l : list A) a b : 0 <= a <= b -> b <= zlen l -> zlen (slice l a b) = b - a.
Proof. intros Ha Hb. unfold slice, zlen in *. rewrite length_drop, length_take. lia. Qed.

Lemma slice_slice {A} (l : list A) a b c d : 0 <= a -> 0 <= c <= d -> d <= b - a ->
  slice (slice l a b) c d = slice l (a + c) (a + d).
Proof.
  intros Ha Hc Hd. unfold slice. rewrite take_drop_commute, take_take, drop_drop.
  replace (Z.to_nat a + Z.to_nat d)%nat with (Z.to_nat (a + d)) by lia.
  replace (Z.to_nat a + Z.to_nat c)%nat with (Z.to_nat (a + c)) by lia.
  by rewrite Nat.min_l by lia.
Qed.

Lemma slice_take {A} (l : list A) n a b : b <= n -> slice (take (Z.to_nat n) l) a b = slice l a b.
Proof. intros Hb. unfold slice. rewrite take_take. by rewrite Nat.min_l by lia. Qed.

Section reading.
Context `{AllocOk, Disk}.

(** The regions of the file the user of the file reads at a time. *)
Context (area : Z -> Z -> Prop).

(** Nothing is cached, or the cache holds a region of the file that ends at the
    position of the file. *)
Record rd_ok (f : db_file) : Prop := {
  rd_open : f_open f = true;
  rd_len : f_len f = zlen (f_data f);
  rd_small : zlen (f_data f) < 2 ^ 31;
  rd_clen : 0 <= f_cache_len f <= zlen (f_cache f) /\ f_cache_len f <= f_len f;
  rd_cache : f_cache_pos f = f_len f \/
    (0 <= f_cache_pos f /\ f_cache_pos f + f_cache_len f <= f_len f /\ area (f_cache_pos f) (f_cache_len f) /\
     take (Z.to_nat (f_cache_len f)) (f_cache f) = slice (f_data f) (f_cache_pos f) (f_cache_pos f + f_cache_len f) /\
     f_pos f = f_cache_pos f + f_cache_len f)
}.

(** What reading does not change. *)
Definition same_file (f f' : db_file) : Prop :=
  f_data f' = f_data f /\ f_len f' = f_len f /\ f_eod f' = f_eod f /\ f_ino f' = f_ino f.

#[global] Instance same_file_preorder : PreOrder same_file.
Proof. split; [by repeat split|]. intros f g k (E1 & E2 & E3 & E4) (F1 & F2 & F3 & F4). unfold same_file. repeat split; congruence. Qed.

Lemma cached_ok f len pos : rd_ok f -> 0 <= pos -> 0 <= len -> pos + len <= f_len f -> cached f len pos = true ->
  f_cache_pos f <= pos /\ pos + len <= f_cache_pos f + f_cache_len f /\ f_cache_pos f <= f_len f.
Proof.
  intros [_ Hl Hs Hc Hd] Hp Hn Hle Hh. unfold cached in Hh. apply andb_true_iff in Hh as [H1' H2'].
  rewrite Z.geb_leb in H1'. apply Z.leb_le in H1', H2'. assert (f_cache_pos f <= f_len f) by (destruct Hd as [->|Hd]; lia).
  rewrite (uwrap_small 32), (uwrap_small 32) in H2' by lia. lia.
Qed.

Lemma db_file_mread_ok f len pos : rd_ok f -> 0 <= pos -> 0 <= len -> pos + len <= f_len f -> area pos len ->
  exists f', db_file_mread f len pos = Ret (f', Some (slice (f_data f) pos (pos + len))) /\ rd_ok f' /\ same_file f f' /\
    ((f_pos f' = pos + len /\ f_cache_pos f' = pos /\ f_cache_len f' = len) \/ (f' = f /\ cached f len pos = true)).
Proof.
  intros Hok Hp Hn Hle Har. pose proof Hok as [Ho Hl Hs Hc Hd]. unfold db_file_mread.
  rewrite (uwrap_small 32) by lia. destruct (Z.gtb_spec (pos + len) (f_len f)); [lia|].
  destruct (cached f len pos) eqn:Ec.
  - cbn [rbind]. destruct (cached_ok f len pos Hok Hp Hn Hle Ec) as (C1 & C2 & C3). cbn [Z.eqb negb].
    rewrite inbb_true by lia. exists f. split; [|split; [done|split; [done|by right]]]. do 3 f_equal.
    destruct Hd as [Hd|(D1 & D2 & D3 & D4 & D5)].
    + assert (len = 0) as -> by lia. by rewrite !slice_nil by lia.
    + rewrite <- (slice_take (f_cache f) (f_cache_len f)) by lia. rewrite D4, slice_slice by lia. f_equal; lia.
  - unfold grow_cache. set (f1 := with_cache f (f_len f) (f_cache_len f) (f_cache f)).
    assert (exists c clen, (if f_cache_len f1 >=? len then (f1, 0)
      else if can_alloc len then (with_cache f1 (f_len f1) len (replicate (Z.to_nat len) (u8 junk)), 0)
      else (with_cache f1 (f_len f1) (f_cache_len f1) [], -1)) = (with_cache f (f_len f) clen c, 0) /\ len <= zlen c /\ clen <= f_len f)
      as (c & clen & -> & Hc1 & Hcl).
    { cbn [f1 with_cache f_cache_len f_len]. destruct (Z.geb_spec (f_cache_len f) len).
      - exists (f_cache f), (f_cache_len f). split; [done|lia].
      - rewrite alloc_ok by lia. eexists _, _. split; [done|]. unfold zlen. rewrite length_replicate. lia. }
    cbn [Z.eqb negb with_cache f_open f_data f_off f_cache f_cache_pos f_cache_len]. rewrite Ho, (proj2 (Z.leb_le len (zlen c)) Hc1). cbn [andb negb].
    set (bs := slice (f_data f) pos (pos + len)).
    assert (zlen bs = len) as Hbs by (unfold bs; rewrite zlen_slice; lia).
    rewrite stbytes_ok by lia. cbn [rbind]. rewrite Hbs, Z.eqb_refl. cbn [negb rbind Z.eqb with_cache with_pos f_cache_pos f_cache].
    rewrite (uwrap_small 32) by lia. rewrite Z.sub_diag, Z.add_0_l.
    assert (mem_at (putbs c 0 bs) 0 bs) as Hm by (apply mem_at_putbs; lia).
    assert (slice (putbs c 0 bs) 0 len = bs) as Esl.
    { pose proof (mem_at_slice _ _ _ Hm) as Es. by rewrite Z.add_0_l, Hbs in Es. }
    rewrite inbb_true; [|lia|rewrite zlen_putbs; lia]. eexists. split; [by rewrite Esl|]. split; [|split; [done|by left]].
    split; cbn; [done|done|done|rewrite zlen_putbs; lia|]. right. split; [lia|]. split; [lia|]. split; [done|]. split; [|done].
    fold bs. rewrite <- Esl at 2. unfold slice. by rewrite drop_0.
Qed.

Lemma db_readints_ok f pos a b : rd_ok f -> 0 <= pos -> pos + 8 <= f_len f -> area pos 8 ->
  0 <= a < 2 ^ 32 -> 0 <= b < 2 ^ 32 -> slice (f_data f) pos (pos + 8) = packints a b ->
  exists f', db_readints f pos = Ret (f', Some (a, b)) /\ rd_ok f' /\ same_file f f' /\
    ((f_pos f' = pos + 8 /\ f_cache_pos f' = pos /\ f_cache_len f' = 8) \/ (f' = f /\ cached f 8 pos = true)).
Proof.
  intros Hok Hp Hle Har Ha Hb E. destruct (db_file_mread_ok f 8 pos Hok Hp ltac:(lia) Hle Har) as (f' & Em & Hok' & HS & Hpos).
  unfold db_readints. rewrite Em. cbn [rbind fmap option_fmap option_map]. rewrite E, unpack_packints by done. eauto.
Qed.
End reading.

(** ** Writing *)
Section writing.
Context `{AllocOk, DiskOk}.

(** A file written from offset 2048 on: nothing, or a gap of zeros and the bytes. *)
Definition zeros : list Z := replicate 2048 0.
Definition image (b : list Z) : list Z := match b with [] => [] | _ => zeros ++ b end.

(** The bytes [b] have been written from offset 2048 on, [c] is in the page buffer. *)
Record writing (f : db_file) (b c : list Z) : Prop := {
  wr_open : f_open f = true;
  wr_data : f_data f = image b;
  wr_off : f_off f = 2048 + zlen b;
  wr_pos : f_pos f = 2048 + zlen b + zlen c;
  wr_pending : f_pending f = zlen c /\ zlen c < PAGESIZE;
  wr_cache : (f_cache_len f = PAGESIZE /\ zlen (f_cache f) = PAGESIZE) \/ (f_cache_len f = 0 /\ c = []);
  wr_buf : take (length c) (f_cache f) = c
}.

Lemma pwrite_image b bs : bs <> [] -> pwrite (image b) (2048 + zlen b) bs = image (b ++ bs).
Proof.
  intros Hbs. unfold pwrite. replace (Z.to_nat (2048 + zlen b)) with (2048 + length b)%nat by (unfold zlen; lia).
  assert (image (b ++ bs) = zeros ++ b ++ bs) as -> by (destruct b; [by destruct bs|done]).
  destruct b as [|x b].
  - cbn [image length]. rewrite Nat.add_0_r, Nat.sub_0_r, app_nil_l. fold zeros.
    rewrite take_ge by (unfold zeros; by rewrite length_replicate). by rewrite drop_nil, app_nil_r.
  - cbn [image]. set (l := x :: b). rewrite length_app. unfold zeros. rewrite length_replicate.
    rewrite Nat.sub_diag, app_nil_r, take_ge by (rewrite length_app, length_replicate; lia).
    rewrite drop_ge by (rewrite length_app, length_replicate; lia). by rewrite app_nil_r, <- app_assoc.
Qed.

Lemma sys_write_ok f b c bs : writing f b c -> bs <> [] ->
  sys_write f bs = (with_data f (image (b ++ bs)) (2048 + zlen (b ++ bs)), zlen bs).
Proof.
  intros HW Hbs. unfold sys_write. rewrite (wr_open _ _ _ HW), disk_never_full. cbn [andb].
  rewrite (wr_data _ _ _ HW), (wr_off _ _ _ HW), pwrite_image by done. rewrite zlen_app. do 2 f_equal. lia.
Qed.

Lemma zlen_take {A} (l : list A) n : 0 <= n <= zlen l -> zlen (take (Z.to_nat n) l) = n.
Proof. intros Hn. unfold zlen in *. rewrite length_take. lia. Qed.
Lemma zlen_drop {A} (l : list A) n : 0 <= n <= zlen l -> zlen (drop (Z.to_nat n) l) = zlen l - n.
Proof. intros Hn. unfold zlen in *. rewrite length_drop. lia. Qed.

(** The cache after a piece has been appended to the page. *)
Lemma take_putbs c o bs : 0 <= o -> o + zlen bs <= zlen c ->
  take (Z.to_nat (o + zlen bs)) (putbs c o bs) = take (Z.to_nat o) c ++ bs.
Proof.
  intros Ho Hle. apply list_eq. intros i. pose proof (zlen_nonneg bs).
  destruct (decide (i < Z.to_nat (o + zlen bs))%nat) as [Hi|Hi].
  2:{ rewrite !lookup_ge_None_2; [done|rewrite length_app, length_take; unfold zlen in *; lia|rewrite length_take; lia]. }
  rewrite lookup_take_lt by done. unfold putbs. destruct (decide (i < Z.to_nat o)%nat) as [Hio|Hio].
  - rewrite !lookup_app_l by (rewrite length_take; unfold zlen in *; lia). done.
  - assert (length (take (Z.to_nat o) c) = Z.to_nat o) as El by (rewrite length_take; unfold zlen in *; lia).
    rewrite !(lookup_app_r (take (Z.to_nat o) c)), El by lia. rewrite lookup_app_l; [done|unfold zlen in *; lia].
Qed.

(** After the cache exists. *)
Lemma grow_cache_ok f b c : writing f b c ->
  exists f', grow_cache f PAGESIZE = (f', 0) /\ writing f' b c /\ f_cache_len f' = PAGESIZE /\ zlen (f_cache f') = PAGESIZE /\
    f_eod f' = f_eod f.
Proof.
  intros [W1 W2 W3 W4 W5 W6 W7]. unfold grow_cache. cbn [with_cache f_cache_len f_len].
  destruct (Z.geb_spec (f_cache_len f) PAGESIZE) as [Hge|Hlt].
  - destruct W6 as [W6|[W6 _]]; [|rewrite W6 in Hge; unfold PAGESIZE in Hge; lia]. eexists. split; [done|].
    destruct W6 as [W6 W6']. split; [|by auto]. split; fcbn; auto.
  - destruct W6 as [W6|[W6 ->]]; [lia|]. rewrite alloc_ok by (unfold PAGESIZE; lia). eexists. split; [done|]. fcbn.
    assert (zlen (replicate (Z.to_nat PAGESIZE) (u8 junk)) = PAGESIZE) as El by (unfold zlen; rewrite length_replicate; done).
    split; [|done]. split; fcbn; auto.
Qed.

Definition page_room (f : db_file) : Prop := f_cache_len f = PAGESIZE /\ zlen (f_cache f) = PAGESIZE.

Lemma fill_page_ok f b c data : writing f b c -> page_room f -> 2048 + zlen b + zlen c + zlen data < 2 ^ 32 ->
  exists f' b' c' data', fill_page f data = Ret (f', 0, data') /\ writing f' b' c' /\ page_room f' /\
    b' ++ c' ++ data' = b ++ c ++ data /\ (data' = [] \/ c' = []) /\ f_eod f' = f_eod f.
Proof.
  intros HW [Hcl Hcz] Hb. pose proof HW as [W1 W2 W3 W4 [W5 W5'] W6 W7]. unfold fill_page. rewrite W5.
  pose proof (zlen_nonneg data). pose proof (zlen_nonneg c). pose proof (zlen_nonneg b).
  set (blob := if zlen data <? PAGESIZE - zlen c then zlen data else PAGESIZE - zlen c).
  assert (0 <= blob <= zlen data /\ zlen c + blob <= PAGESIZE /\ (blob = zlen data \/ zlen c + blob = PAGESIZE)) as (B1 & B2 & B3).
  { unfold blob. destruct (Z.ltb_spec (zlen data) (PAGESIZE - zlen c)); lia. }
  clearbody blob. set (d1 := take (Z.to_nat blob) data). set (d2 := drop (Z.to_nat blob) data).
  assert (zlen d1 = blob) as Hd1 by (by apply zlen_take). assert (d1 ++ d2 = data) as Ed by apply take_drop.
  rewrite stbytes_ok by lia. cbn [rbind]. set (cc := putbs (f_cache f) (zlen c) d1).
  assert (zlen cc = PAGESIZE) as Hcc by (unfold cc; rewrite zlen_putbs; lia).
  assert (take (Z.to_nat (zlen c + blob)) cc = c ++ d1) as Ecc.
  { unfold cc. rewrite <- Hd1 at 1. rewrite take_putbs by lia. f_equal. unfold zlen. by rewrite Nat2Z.id. }
  cbn [with_pending with_pos f_pending f_off f_pos]. rewrite W4, (uwrap_small 32) by lia.
  destruct (Z.eqb_spec (zlen c + blob) PAGESIZE) as [Efull|Efull].
  - assert (cc = c ++ d1) as Ec. { rewrite <- Ecc, Efull, take_ge; [done|]. unfold zlen in Hcc. lia. }
    set (f1 := with_pending (with_pos f (f_off f) (2048 + zlen b + zlen c + blob)) (zlen c + blob) cc).
    assert (sys_write f1 cc = (with_data f1 (image (b ++ cc)) (2048 + zlen (b ++ cc)), zlen cc)) as ->.
    { unfold sys_write, f1. cbn [with_pending with_pos f_open f_off f_data]. rewrite W1, disk_never_full, W2, W3. cbn [andb].
      rewrite pwrite_image. 2:{ intros E. rewrite E in Hcc. done. }
      rewrite zlen_app. do 2 f_equal. lia. }
    destruct (Z.eqb_spec (zlen cc) (-1)); [lia|]. eexists _, (b ++ cc), [], d2. split; [done|]. split; [|split; [done|]].
    + subst f1. split; fcbn; try done; [rewrite zlen_app, Hcc; rewrite zlen_nil; lia|auto].
    + split; [|auto]. rewrite Ec, <- Ed. by rewrite <- !app_assoc.
  - destruct B3 as [B3|B3]; [|done]. eexists _, b, (c ++ d1), d2. split; [done|]. split; [|split; [done|]].
    + split; fcbn; try done; [by rewrite zlen_app, Hd1, Z.add_assoc|rewrite zlen_app; lia|auto|].
      rewrite <- Ecc at 2. f_equal. rewrite length_app. unfold zlen in *. lia.
    + split; [rewrite <- Ed; by rewrite <- !app_assoc|]. split; [|done]. left. apply length_zero_iff_nil. unfold d2, zlen in *. rewrite length_drop. lia.
Qed.

(** Whole pages go to the file directly. *)
Lemma whole_pages n : 0 <= n -> Z.land n (Z.lnot (PAGESIZE - 1)) = PAGESIZE * (n / PAGESIZE).
Proof.
  intros Hn. change (PAGESIZE - 1) with (Z.ones 12). rewrite <- Z.ldiff_land, Z.ldiff_ones_r by lia.
  rewrite Z.shiftl_mul_pow2, Z.shiftr_div_pow2 by lia. change (2 ^ 12) with PAGESIZE. lia.
Qed.

(** Less than a page stays in the buffer. *)
Lemma stash_ok f b d : writing f b [] -> page_room f -> zlen d < PAGESIZE -> 2048 + zlen b + zlen d < 2 ^ 32 ->
  exists f', (if negb (zlen d =? 0) then
                let* c := stbytes (f_cache f) 0 d in
                Ret (with_pos (with_pending f (f_pending f + zlen d) c) (f_off f) (u32 (f_pos f + zlen d)))
              else Ret f) = Ret f' /\ writing f' b d /\ f_eod f' = f_eod f.
Proof.
  intros HW [Hcl Hcz] Hd Hb. pose proof HW as [W1 W2 W3 W4 [W5 W5'] W6 W7]. rewrite zlen_nil in *. pose proof (zlen_nonneg d).
  pose proof (zlen_nonneg b). destruct (Z.eqb_spec (zlen d) 0) as [E|E]; cbn [negb].
  { assert (d = []) as -> by (destruct d; [done|rewrite zlen_cons in E; pose proof (zlen_nonneg d); lia]). eauto. }
  rewrite stbytes_ok by lia. cbn [rbind]. eexists. split; [done|]. split; [|done].
  split; fcbn; try done; [rewrite W4, (uwrap_small 32) by lia; lia|lia|left; rewrite zlen_putbs by lia; done|].
  pose proof (take_putbs (f_cache f) 0 d ltac:(lia) ltac:(lia)) as Et. rewrite Z.add_0_l in Et. unfold zlen in Et.
  by rewrite Nat2Z.id in Et.
Qed.

Lemma db_file_write_ok f b c data : writing f b c -> 2048 + zlen b + zlen c + zlen data < 2 ^ 32 ->
  exists f' b' c', db_file_write f data = Ret (f', 0) /\ writing f' b' c' /\ b' ++ c' = b ++ c ++ data /\ f_eod f' = f_eod f.
Proof.
  intros HW Hb. unfold db_file_write. destruct (Z.eqb_spec (zlen data) 0) as [E|E].
  { assert (data = []) as -> by (destruct data; [done|rewrite zlen_cons in E; pose proof (zlen_nonneg data); lia]).
    exists f, b, c. by rewrite app_nil_r. }
  destruct (grow_cache_ok f b c HW) as (f1 & -> & HW1 & Hpr1 & Hpr2 & Ee1). cbn [Z.eqb negb].
  destruct (fill_page_ok f1 b c data HW1 (conj Hpr1 Hpr2) Hb) as (f2 & b2 & c2 & d2 & -> & HW2 & Hp2 & Eb & Hor & Ee2).
  cbn [rbind Z.eqb negb].
  assert (zlen b2 + zlen c2 + zlen d2 = zlen b + zlen c + zlen data) as Ez.
  { apply (f_equal zlen) in Eb. rewrite !zlen_app in Eb. lia. }
  pose proof (zlen_nonneg d2). pose proof (zlen_nonneg c2). pose proof (zlen_nonneg b2).
  assert (forall f, exists f', (Ret (if f_pos f >? f_len f then with_len f (f_pos f) else f, 0)) = Ret (f', 0) /\
            f_eod f' = f_eod f /\ forall b c, writing f b c -> writing f' b c) as Hlen.
  { intros g. destruct (f_pos g >? f_len g); eexists; (split; [done|]); (split; [done|]); [|done].
    intros b' c' [? ? ? ? ? ? ?]. by split. }
  destruct Hor as [-> | ->].
  { destruct (Hlen f2) as (f3 & E3 & Ee3 & HW3). exists f3, b2, c2. rewrite app_nil_r in Eb.
    cbv zeta. rewrite (@zlen_nil Z), Z.land_0_l. cbn [Z.eqb negb]. rewrite (@zlen_nil Z). cbn [Z.eqb negb rbind]. rewrite E3. split; [done|]. split; [auto|]. split; [done|]. congruence. }
  rewrite whole_pages by lia. set (n := PAGESIZE * (zlen d2 / PAGESIZE)).
  assert (0 <= n <= zlen d2 /\ zlen d2 - n < PAGESIZE) as [Hn Hn'] by (unfold n, PAGESIZE; zdm). clearbody n.
  set (d3 := take (Z.to_nat n) d2). set (d4 := drop (Z.to_nat n) d2).
  assert (zlen d3 = n /\ zlen d4 = zlen d2 - n) as [Ed3 Ed4] by (split; [by apply zlen_take|by apply zlen_drop]).
  assert (d3 ++ d4 = d2) as Ed by apply take_drop. rewrite zlen_nil in Ez.
  assert (exists f3, (if negb (n =? 0) then
             let '(f, k) := sys_write f2 d3 in
             if k =? -1 then (f, -1, d2)
             else (with_pos f (f_off f) (u32 (f_pos f + n)), 0, d4)
           else (f2, 0, d2)) = (f3, 0, d4) /\ writing f3 (b2 ++ d3) [] /\ page_room f3 /\ f_eod f3 = f_eod f2) as (f3 & -> & HW3 & Hp3 & Ee3).
  { destruct (Z.eqb_spec n 0) as [E0|E0]; cbn [negb].
    - assert (d3 = []) as E3 by (unfold d3; by rewrite E0). assert (d4 = d2) as -> by (unfold d4; by rewrite E0).
      exists f2. by rewrite E3, app_nil_r.
    - rewrite (sys_write_ok f2 b2 []) by (done || intros E3; rewrite E3, zlen_nil in Ed3; lia).
      destruct (Z.eqb_spec (zlen d3) (-1)); [lia|]. eexists. split; [done|]. split; [|done].
      destruct HW2 as [W1 W2 W3 W4 W5 W6 W7]. rewrite zlen_nil in *.
      split; fcbn; try done. rewrite W4, (uwrap_small 32), zlen_app by lia. pose proof (@zlen_nil Z). lia. }
  cbn [Z.eqb negb]. destruct (stash_ok f3 (b2 ++ d3) d4 HW3 Hp3) as (f4 & -> & HW4 & Ee4); [lia|rewrite zlen_app; lia|].
  cbn [rbind]. destruct (Hlen f4) as (f5 & -> & Ee5 & HW5). exists f5, (b2 ++ d3), d4. split; [done|]. split; [auto|].
  split; [|congruence]. rewrite <- app_assoc, Ed, <- Eb. done.
Qed.

Lemma db_file_flush_ok f b c : writing f b c ->
  exists f', db_file_flush f = Ret (f', 0) /\ writing f' (b ++ c) [] /\ f_eod f' = f_eod f.
Proof.
  intros HW. pose proof HW as [W1 W2 W3 W4 [W5 W5'] W6 W7]. unfold db_file_flush. rewrite W5.
  destruct (Z.eqb_spec (zlen c) 0) as [E|E]; cbn [negb].
  { assert (c = []) as -> by (destruct c; [done|rewrite zlen_cons in E; pose proof (zlen_nonneg c); lia]).
    exists f. by rewrite app_nil_r. }
  destruct W6 as [[Wc Wz]|[_ ->]]; [|done]. pose proof (zlen_nonneg c). rewrite inbb_true by lia.
  assert (slice (f_cache f) 0 (zlen c) = c) as ->.
  { unfold slice. rewrite drop_0. unfold zlen. by rewrite Nat2Z.id. }
  rewrite (sys_write_ok f b c) by (done || by intros ->). destruct (Z.eqb_spec (zlen c) (-1)); [lia|].
  eexists. split; [done|]. split; [|done]. split; fcbn; try done; [rewrite zlen_app, zlen_nil; lia|auto].
Qed.

(** The header goes in front at the end. *)
Lemma write_header_ok f b hdr : writing f b [] -> zlen hdr = 2048 ->
  exists f1 f2 f3, db_file_seek f 0 = (f1, 0) /\ db_file_write f1 hdr = Ret (f2, 0) /\ db_file_flush f2 = Ret (f3, 0) /\
    f_open f3 = true /\ f_data f3 = hdr ++ b /\ f_eod f3 = f_eod f.
Proof.
  intros HW Hh. pose proof HW as [W1 W2 W3 W4 [W5 W5'] W6 W7]. unfold db_file_seek. rewrite W1. cbn [negb].
  set (f1 := with_pos f 0 0). assert (f_pending f1 = 0) as P1 by done.
  assert (exists f2, db_file_write f1 hdr = Ret (f2, 0) /\ f_open f2 = true /\ f_data f2 = image b /\ f_off f2 = 0 /\
    f_pending f2 = 2048 /\ zlen (f_cache f2) = PAGESIZE /\ take 2048 (f_cache f2) = hdr /\ f_eod f2 = f_eod f)
    as (f2 & E2 & O2 & D2 & F2 & P2 & C2 & T2 & Ee2).
  { unfold db_file_write. rewrite Hh. cbn [Z.eqb]. destruct (grow_cache_ok f b [] HW) as (g & Eg & [G1 G2 G3 G4 [G5 _] G6 G7] & Gl & Gz & Ge).
    assert (grow_cache f1 PAGESIZE = (with_pos g 0 0, 0)) as ->.
    { revert Eg. unfold grow_cache, f1. fcbn. destruct (f_cache_len f >=? PAGESIZE); [by intros [= <-]|].
      destruct (can_alloc PAGESIZE); by intros [= <-]. }
    cbn [Z.eqb negb]. unfold fill_page. fcbn. rewrite zlen_nil in G5. rewrite G5, Hh.
    change (2048 <? PAGESIZE - 0) with true. cbv iota zeta.
    assert (take (Z.to_nat 2048) hdr = hdr) as -> by (apply take_ge; unfold zlen in Hh; lia).
    assert (drop (Z.to_nat 2048) hdr = []) as -> by (apply drop_ge; unfold zlen in Hh; lia).
    rewrite stbytes_ok by (rewrite ?Gz, ?Hh; unfold PAGESIZE; lia). cbn [rbind]. fcbn.
    change (0 + 2048 =? PAGESIZE) with false. cbv iota. cbn [rbind Z.eqb negb]. cbv zeta. rewrite (@zlen_nil Z), Z.land_0_l.
    cbn [Z.eqb negb]. rewrite (@zlen_nil Z). cbn [Z.eqb negb rbind].
    assert (take 2048 (putbs (f_cache g) 0 hdr) = hdr) as Et.
    { pose proof (take_putbs (f_cache g) 0 hdr ltac:(lia) ltac:(rewrite Gz, Hh; unfold PAGESIZE; lia)) as Et. by rewrite Z.add_0_l, Hh in Et. }
    assert (zlen (putbs (f_cache g) 0 hdr) = PAGESIZE) as Ez by (rewrite zlen_putbs by (rewrite ?Gz, ?Hh; unfold PAGESIZE; lia); done).
    destruct (_ >? _); eexists; (split; [done|]); fcbn; rewrite G1, G2, Ge; auto 10. }
  eexists f1, f2, _. split; [done|]. split; [done|]. unfold db_file_flush. rewrite P2. cbn [Z.eqb negb]. rewrite inbb_true by (rewrite ?C2; unfold PAGESIZE; lia).
  assert (slice (f_cache f2) 0 2048 = hdr) as -> by (unfold slice; by rewrite drop_0).
  unfold sys_write. rewrite O2, disk_never_full, D2, F2. cbn [andb]. rewrite Hh. cbn [Z.eqb].
  split; [done|]. fcbn. split; [done|]. split; [|done].
  unfold pwrite. rewrite Z2Nat.inj_0. cbn [take]. rewrite app_nil_l, Nat.add_0_l. f_equal.
  destruct b as [|x b]; [apply drop_nil|]. cbn [image]. replace (length hdr) with (length zeros); [apply drop_app_length|].
  unfold zeros. rewrite length_replicate. unfold zlen in Hh. lia.
Qed.

(** The file stays the same one. *)
Lemma grow_cache_ino f n f' rc : grow_cache f n = (f', rc) -> f_ino f' = f_ino f.
Proof. unfold grow_cache. repeat case_match; by intros [= <- <-]. Qed.
Lemma sys_write_ino f bs f' n : sys_write f bs = (f', n) -> f_ino f' = f_ino f.
Proof. unfold sys_write. case_match; by intros [= <- <-]. Qed.
Lemma fill_page_ino f d f' rc d' : fill_page f d = Ret (f', rc, d') -> f_ino f' = f_ino f.
Proof.
  unfold fill_page. intros (c & _ & Hw)%bind_Ret_inv. destruct (_ =? PAGESIZE); [|by injection Hw as <- <- <-].
  destruct (sys_write _ c) as [g n] eqn:E. apply sys_write_ino in E. destruct (n =? -1); injection Hw as <- <- <-; done.
Qed.
Lemma db_file_write_ino f d f' rc : db_file_write f d = Ret (f', rc) -> f_ino f' = f_ino f.
Proof.
  unfold db_file_write. destruct (zlen d =? 0); [by intros [= <- <-]|]. destruct (grow_cache f PAGESIZE) as [f1 r1] eqn:E1.
  apply grow_cache_ino in E1. destruct (negb (r1 =? 0)); [intros [= <- <-]; done|].
  intros ([[f2 r2] d2] & E2 & Hw)%bind_Ret_inv. apply fill_page_ino in E2. destruct (negb (r2 =? 0)); [injection Hw as <- <-; congruence|].
  cbv zeta in Hw. set (blob := Z.land _ _) in Hw.
  assert (exists f3 r3 d3, (if negb (blob =? 0) then
             let '(f, n) := sys_write f2 (take (Z.to_nat blob) d2) in
             if n =? -1 then (f, -1, d2) else (with_pos f (f_off f) (u32 (f_pos f + blob)), 0, drop (Z.to_nat blob) d2)
           else (f2, 0, d2)) = (f3, r3, d3) /\ f_ino f3 = f_ino f2) as (f3 & r3 & d3 & E3 & I3).
  { destruct (negb (blob =? 0)); [|by eauto]. destruct (sys_write _ _) as [g n] eqn:E. apply sys_write_ino in E. destruct (n =? -1); by eauto. }
  rewrite E3 in Hw. destruct (negb (r3 =? 0)); [injection Hw as <- <-; congruence|].
  apply bind_Ret_inv in Hw as (f4 & E4 & Hw). injection Hw as <- <-.
  assert (f_ino f4 = f_ino f3) as I4.
  { destruct (negb (zlen d3 =? 0)); [|by injection E4 as <-]. apply bind_Ret_inv in E4 as (c & _ & E4). by injection E4 as <-. }
  destruct (_ >? _); cbn [with_len f_ino]; congruence.
Qed.
Lemma db_file_seek_ino f p f' rc : db_file_seek f p = (f', rc) -> f_ino f' = f_ino f.
Proof. unfold db_file_seek. case_match; by intros [= <- <-]. Qed.
Lemma db_file_flush_ino f f' rc : db_file_flush f = Ret (f', rc) -> f_ino f' = f_ino f.
Proof.
  unfold db_file_flush. destruct (negb _); [|by intros [= <- <-]]. destruct (inbb _ _ _); [|done].
  destruct (sys_write _ _) as [g n] eqn:E. apply sys_write_ino in E. destruct (n =? -1); by intros [= <- <-].
Qed.

End writing.
End RwcdbFile.
