(* ===== verification/Rwcdb.v ===== *)
(** * The key-value store

    Model of lib-src/rwcdb/rwcdb.c: a constant database file (records, then 256
    hash tables, with a header of 256 pointers in front) and, in memory, the
    entries that have been inserted or removed since it was written.  [rwcdb_find]
    looks at the entries in memory first; [rwcdb_sync] writes a new file and
    renames it over the old one. *)
From Stdlib Require Import ZArith Lia.
From stdpp Require Import base list numbers.
From S2P Require Import Prelude.
From S2P Require Import Text.
From S2P Require Import PdbArray.
From S2P Require Import RwcdbFile.
Import RwcdbFile.

Module Rwcdb.

(** [struct wrentry] with the key and the data behind it. *)
Record wrentry := { w_hash : Z; w_pos : Z; w_klen : Z; w_dlen : Z; w_kd : list Z }.
Definition wkey (w : wrentry) : list Z := take (Z.to_nat (w_klen w)) (w_kd w).
Definition wdata (w : wrentry) : list Z := drop (Z.to_nat (w_klen w)) (w_kd w).

(** A pointer to an entry: the list it is on and its place there. *)
Inductive loc := Removed (n : nat) | Added (slot : Z) (n : nat).

(** The directory: the database file with its inode number, whether the new file
    exists, and the next inode number. *)
Record fs := { fs_db : option (Z * list Z); fs_tmp : bool; fs_ino : Z }.

(** [struct rwcdb] and the directory it works in. *)
Record rwcdb := {
  c_rf : db_file;
  c_wf : db_file;
  c_readonly : bool;
  c_hash : Z;
  c_klen : Z;
  c_dlen : Z;
  c_dpos : Z;
  c_pending : option loc;
  c_index : Z;
  c_hlens : list Z;
  c_removed : list wrentry;
  c_added : list (list wrentry);
  c_fs : fs
}.

Definition with_rf (c : rwcdb) (f : db_file) : rwcdb :=
  {| c_rf := f; c_wf := c_wf c; c_readonly := c_readonly c; c_hash := c_hash c; c_klen := c_klen c; c_dlen := c_dlen c;
     c_dpos := c_dpos c; c_pending := c_pending c; c_index := c_index c; c_hlens := c_hlens c; c_removed := c_removed c;
     c_added := c_added c; c_fs := c_fs c |}.
Definition with_wf (c : rwcdb) (f : db_file) : rwcdb :=
  {| c_rf := c_rf c; c_wf := f; c_readonly := c_readonly c; c_hash := c_hash c; c_klen := c_klen c; c_dlen := c_dlen c;
     c_dpos := c_dpos c; c_pending := c_pending c; c_index := c_index c; c_hlens := c_hlens c; c_removed := c_removed c;
     c_added := c_added c; c_fs := c_fs c |}.
Definition with_found (c : rwcdb) (klen dlen dpos : Z) : rwcdb :=
  {| c_rf := c_rf c; c_wf := c_wf c; c_readonly := c_readonly c; c_hash := c_hash c; c_klen := klen; c_dlen := dlen;
     c_dpos := dpos; c_pending := c_pending c; c_index := c_index c; c_hlens := c_hlens c; c_removed := c_removed c;
     c_added := c_added c; c_fs := c_fs c |}.
Definition with_hash (c : rwcdb) (h : Z) : rwcdb :=
  {| c_rf := c_rf c; c_wf := c_wf c; c_readonly := c_readonly c; c_hash := h; c_klen := c_klen c; c_dlen := c_dlen c;
     c_dpos := c_dpos c; c_pending := c_pending c; c_index := c_index c; c_hlens := c_hlens c; c_removed := c_removed c;
     c_added := c_added c; c_fs := c_fs c |}.
Definition with_scan (c : rwcdb) (p : option loc) (i : Z) : rwcdb :=
  {| c_rf := c_rf c; c_wf := c_wf c; c_readonly := c_readonly c; c_hash := c_hash c; c_klen := c_klen c; c_dlen := c_dlen c;
     c_dpos := c_dpos c; c_pending := p; c_index := i; c_hlens := c_hlens c; c_removed := c_removed c;
     c_added := c_added c; c_fs := c_fs c |}.
Definition with_lists (c : rwcdb) (hl : list Z) (rm : list wrentry) (ad : list (list wrentry)) : rwcdb :=
  {| c_rf := c_rf c; c_wf := c_wf c; c_readonly := c_readonly c; c_hash := c_hash c; c_klen := c_klen c; c_dlen := c_dlen c;
     c_dpos := c_dpos c; c_pending := c_pending c; c_index := c_index c; c_hlens := hl; c_removed := rm;
     c_added := ad; c_fs := c_fs c |}.
Definition with_fs (c : rwcdb) (s : fs) : rwcdb :=
  {| c_rf := c_rf c; c_wf := c_wf c; c_readonly := c_readonly c; c_hash := c_hash c; c_klen := c_klen c; c_dlen := c_dlen c;
     c_dpos := c_dpos c; c_pending := c_pending c; c_index := c_index c; c_hlens := c_hlens c; c_removed := c_removed c;
     c_added := c_added c; c_fs := s |}.

(** The hash function of cdb: h = ((h << 5) + h) ^ c from 5381. *)
Definition cdb_hash (k : list Z) : Z :=
  fold_left (fun h c => Z.lxor (u32 (u32 (Z.shiftl h 5) + h)) (u8 c)) k 5381.

(** [rename] may fail. *)
Class Rename := rename_ok : bool.

Section ops.
Context `{Alloc, Disk, Rename}.

(** ** Entries in memory *)
Definition alloc_wrentry (key data : list Z) (hash : Z) : option wrentry :=
  if can_alloc (40 + zlen key + zlen data)
  then Some {| w_hash := hash; w_pos := junk; w_klen := zlen key; w_dlen := zlen data; w_kd := key ++ data |} else None.

Definition matches (hash : Z) (k : list Z) (w : wrentry) : bool :=
  (w_hash w =? hash) && (zlen k =? w_klen w) && bool_decide (wkey w = k).

Fixpoint find_entry (hash : Z) (k : list Z) (l : list wrentry) : option nat :=
  match l with
  | [] => None
  | w :: l => if matches hash k w then Some O else S <$> find_entry hash k l
  end.

(** [ispending(c, k, klen, hash, &index)]. *)
Definition ispending (c : rwcdb) (k : list Z) (hash : Z) : res (option (loc * Z)) :=
  match find_entry hash k (c_removed c) with
  | Some n => Ret (Some (Removed n, 0))
  | None =>
      let slot := Z.land hash 255 in
      let* hl := aget (c_hlens c) slot in
      if hl =? 0 then Ret None
      else
        let* idx := forZ 0 slot (fun i idx => let* n := aget (c_hlens c) i in Ret (u32 (idx + n))) 0 in
        let* l := aget (c_added c) slot in
        Ret ((fun n => (Added slot n, u32 (idx + Z.of_nat n))) <$> find_entry hash k l)
  end.

Definition entry_at (c : rwcdb) (p : loc) : res wrentry :=
  match p with
  | Removed n => match c_removed c !! n with Some w => Ret w | None => Stop CUndef end
  | Added slot n => let* l := aget (c_added c) slot in match l !! n with Some w => Ret w | None => Stop CUndef end
  end.

Definition fromhash (c : rwcdb) (index : Z) : res (option loc) :=
  let* r := for_range 0 256
    (fun i index =>
       let* hl := aget (c_hlens c) i in
       if index >=? hl then Ret (inl (index - hl))
       else
         let* l := aget (c_added c) i in
         match l !! Z.to_nat index with
         | Some _ => Ret (inr (Added i (Z.to_nat index)))
         | None => Ret (inl (u32 (index - zlen l)))
         end) index in
  match r with inr p => Ret (Some p) | inl _ => Ret None end.

Definition discard_pending_updates (c : rwcdb) : rwcdb := with_lists c (replicate 256 0) [] (replicate 256 []).

(** [free_wrentry(w)]: the entry is taken off its list. *)
Definition free_wrentry (c : rwcdb) (p : loc) : res rwcdb :=
  match p with
  | Removed n => Ret (with_lists c (c_hlens c) (delete n (c_removed c)) (c_added c))
  | Added slot n =>
      let* l := aget (c_added c) slot in
      let* ad := aset (c_added c) slot (delete n l) in
      Ret (with_lists c (c_hlens c) (c_removed c) ad)
  end.

(** ** Files *)

(** [owrite(c)]: open the new file unless it is open. *)
Definition owrite (c : rwcdb) : res (rwcdb * Z) :=
  if c_readonly c then Ret (c, -1)
  else if f_open (c_wf c) then Ret (c, 0)
  else if fs_tmp (c_fs c) then
    let* (wf, _) := db_file_open (c_wf c) None in Ret (with_wf c wf, -1)
  else
    let* (wf, rc) := db_file_open (c_wf c) (Some (fs_ino (c_fs c), [])) in
    Ret (with_fs (with_wf c wf) {| fs_db := fs_db (c_fs c); fs_tmp := true; fs_ino := fs_ino (c_fs c) + 1 |}, 0).

Definition checkdb (c : rwcdb) : res rwcdb :=
  match fs_db (c_fs c) with
  | None => Ret c
  | Some (ino, data) =>
      if ino =? f_ino (c_rf c) then Ret c
      else
        let* (rf, rc) := db_file_open (db_file_close (c_rf c)) (Some (ino, data)) in
        cassert (rc =? 0) ;;;
        Ret (discard_pending_updates (with_scan (with_rf c rf) (c_pending c) 2048))
  end.

(** ** Lookup *)

(** What one probe of a hash table decides. *)
Inductive probe := PReturn (rc : Z) | PNext.

Definition find_probe (c : rwcdb) (k : list Z) (hash pos : Z) : res (rwcdb * probe) :=
  let* (rf, r) := db_readints (c_rf c) pos in
  let c := with_rf c rf in
  match r with
  | None => Ret (c, PReturn (-1))
  | Some (keylen, dlen) =>
      if negb (zlen k =? keylen) then Ret (c, PNext)
      else
        let* (rf, r) := db_file_mread (c_rf c) (u32 (keylen + dlen)) (f_pos (c_rf c)) in
        let c := with_rf c rf in
        match r with
        | None => Ret (c, PReturn (-1))
        | Some buf =>
            if bool_decide (take (length k) buf = k)
            then Ret (with_found c keylen dlen (u32 (f_pos (c_rf c) - dlen)), PReturn 1)
            else Ret (c, PNext)
        end
  end.

Definition find_slot (k : list Z) (hash hpos hlen : Z) (st : rwcdb * Z) : res (rwcdb * Z + rwcdb * Z) :=
  let '(c, cur_pos) := st in
  let* (rf, r) := db_readints (c_rf c) cur_pos in
  let c := with_rf c rf in
  match r with
  | None => Ret (inr (c, -1))
  | Some (hash2, pos) =>
      if pos =? 0 then Ret (inr (c, 0))
      else
        let cur_pos := u32 (cur_pos + 8) in
        let cur_pos := if cur_pos =? u32 (hpos + u32 (Z.shiftl hlen 3)) then hpos else cur_pos in
        if negb (hash =? hash2) then Ret (inl (c, cur_pos))
        else
          let* (c, p) := find_probe c k hash pos in
          match p with PReturn rc => Ret (inr (c, rc)) | PNext => Ret (inl (c, cur_pos)) end
  end.

(** The part of [rwcdb_find] that looks in the file. *)
Definition find_disk (c : rwcdb) (k : list Z) (hash : Z) : res (rwcdb * Z) :=
  let* (rf, r) := db_readints (c_rf c) (Z.shiftl (Z.land hash 255) 3) in
  let c := with_rf c rf in
  match r with
  | None => Ret (c, -1)
  | Some (hpos, hlen) =>
      if hlen =? 0 then Ret (c, 0)
      else
        let* r := for_range 0 hlen (fun _ => find_slot k hash hpos hlen)
                    (c, u32 (hpos + u32 (Z.shiftl (Z.shiftr hash 8 mod hlen) 3))) in
        match r with inl (c, _) => Ret (c, 0) | inr r => Ret r end
  end.

Definition rwcdb_find (c : rwcdb) (k : list Z) : res (rwcdb * Z) :=
  let hash := cdb_hash k in
  let* w := ispending c k hash in
  match w with
  | Some (p, idx) =>
      let* w := entry_at c p in
      if w_dlen w =? 0 then Ret (c, 0)
      else Ret (with_found c (w_klen w) (w_dlen w) (u32 (f_eod (c_rf c) + idx)), 1)
  | None => find_disk c k hash
  end.

Definition rwcdb_datalen (c : rwcdb) : Z := c_dlen c.
Definition rwcdb_datapos (c : rwcdb) : Z := c_dpos c.
Definition rwcdb_keylen (c : rwcdb) : Z := c_klen c.

Definition rwcdb_read (c : rwcdb) (dlen dpos : Z) : res (rwcdb * (Z * list Z)) :=
  if dpos <? f_eod (c_rf c) then
    let* (rf, r) := db_file_mread (c_rf c) dlen dpos in
    match r with None => Ret (with_rf c rf, (-1, [])) | Some buf => Ret (with_rf c rf, (0, buf)) end
  else
    let* p := fromhash c (u32 (dpos - f_eod (c_rf c))) in
    match p with
    | None => Ret (c, (-1, []))
    | Some p =>
        let* w := entry_at c p in
        if dlen >? w_dlen w then Ret (c, (-1, [])) else Ret (c, (0, take (Z.to_nat dlen) (wdata w)))
    end.

Definition rwcdb_readkey (c : rwcdb) (klen dpos : Z) : res (rwcdb * (Z * list Z)) :=
  if dpos <? f_eod (c_rf c) then
    let* (rf, r) := db_file_mread (c_rf c) klen (u32 (dpos - klen)) in
    match r with None => Ret (with_rf c rf, (-1, [])) | Some buf => Ret (with_rf c rf, (0, buf)) end
  else
    let* p := fromhash c (u32 (dpos - f_eod (c_rf c))) in
    match p with
    | None => Ret (c, (-1, []))
    | Some p =>
        let* w := entry_at c p in
        if negb (klen =? w_klen w) then Ret (c, (-1, [])) else Ret (c, (0, wkey w))
    end.

(** ** Updates in memory *)
Definition rwcdb_insert (c : rwcdb) (k d : list Z) : res (rwcdb * Z) :=
  let* (c, rc) := (if c_readonly c then Ret (c, 0) else owrite c) in
  if rc =? -1 then Ret (c, -1)
  else
    let hash := cdb_hash k in
    match alloc_wrentry k d hash with
    | None => Ret (c, -1)
    | Some w =>
        let slot := Z.land hash 255 in
        let* old := ispending c k hash in
        let* c := (match old with
                   | None => Ret c
                   | Some (p, _) =>
                       let* o := entry_at c p in
                       let* hl := (if negb (w_dlen o =? 0) then
                                     let* n := aget (c_hlens c) slot in aset (c_hlens c) slot (u32 (n - 1))
                                   else Ret (c_hlens c)) in
                       free_wrentry (with_lists c hl (c_removed c) (c_added c)) p
                   end) in
        if negb (zlen d =? 0) then
          let* l := aget (c_added c) slot in
          let* ad := aset (c_added c) slot (l ++ [w]) in
          let* n := aget (c_hlens c) slot in
          let* hl := aset (c_hlens c) slot (u32 (n + 1)) in
          Ret (with_lists c hl (c_removed c) ad, 1)
        else Ret (with_lists c (c_hlens c) (c_removed c ++ [w]) (c_added c), 1)
    end.

Definition rwcdb_delete (c : rwcdb) (k : list Z) : res (rwcdb * Z) :=
  let* (c, rc) := rwcdb_find c k in
  if negb (rc =? 1) then Ret (c, 0) else rwcdb_insert c k [].

(** ** Going through all records *)

(** One round of [rwcdb_next] from the label [again]: [None] to go round again. *)
Definition next_step (c : rwcdb) : res (rwcdb * option Z) :=
  if c_index c <? f_eod (c_rf c) then
    let* (rf, r) := db_readints (c_rf c) (c_index c) in
    let c := with_rf c rf in
    match r with
    | None => Ret (c, Some (-1))
    | Some (klen, dlen) =>
        let* (rf, r) := db_file_mread (c_rf c) (u32 (klen + dlen)) (f_pos (c_rf c)) in
        let c := with_rf c rf in
        match r with
        | None => Ret (c, Some (-1))
        | Some buf =>
            let key := take (Z.to_nat klen) buf in
            let hash := cdb_hash key in
            let* p := ispending c key hash in
            let c := with_scan c (fst <$> p) (f_pos (c_rf c)) in
            match p with
            | Some _ => Ret (c, None)
            | None => Ret (with_found (with_hash c hash) klen dlen (u32 (f_pos (c_rf c) - dlen)), Some 1)
            end
        end
    end
  else
    let* p := fromhash c (u32 (c_index c - f_eod (c_rf c))) in
    let c := with_scan c p (c_index c) in
    match p with
    | None => Ret (c, Some 0)
    | Some p =>
        let* w := entry_at c p in
        let c := with_found c (w_klen w) (w_dlen w) (c_index c) in
        Ret (with_scan c (Some p) (u32 (c_index c + 1)), Some 1)
    end.

(** Every round but the last moves over a record of the file. *)
Definition rwcdb_next (c : rwcdb) (init : bool) : res (rwcdb * Z) :=
  let c := if init then with_scan c (c_pending c) 2048 else c in
  while_loop (S (S (Z.to_nat (f_len (c_rf c)))))
    (fun c => let* (c, r) := next_step c in
              match r with Some rc => Ret (inr (c, rc)) | None => Ret (inl c) end) c.

(** ** Writing a new file *)
Definition set_pos (w : wrentry) (p : Z) : wrentry :=
  {| w_hash := w_hash w; w_pos := p; w_klen := w_klen w; w_dlen := w_dlen w; w_kd := w_kd w |}.

(** One record of [dump_records]; [old] is the list of entries for records of the
    old file. The state and whether a read or a write failed. *)
Definition dump_one (c : rwcdb) (old : list wrentry) : res (rwcdb * list wrentry * Z) :=
  let* (c, old, buf) :=
    (match c_pending c with
     | None =>
         match alloc_wrentry [] [] (c_hash c) with
         | None => Ret (c, old, None)
         | Some w =>
             let old := old ++ [set_pos w (f_pos (c_wf c))] in
             let* (rf, r) := db_file_mread (c_rf c) (u32 (c_klen c + c_dlen c)) (u32 (c_dpos c - c_klen c)) in
             Ret (with_rf c rf, old, r)
         end
     | Some (Added slot n) =>
         let* l := aget (c_added c) slot in
         match l !! n with
         | None => Stop CUndef
         | Some w =>
             let* ad := aset (c_added c) slot (<[n := set_pos w (f_pos (c_wf c))]> l) in
             Ret (with_lists c (c_hlens c) (c_removed c) ad, old, Some (w_kd w))
         end
     | Some (Removed _) => Stop CUndef
     end) in
  match buf with
  | None => Ret (c, old, -1)
  | Some buf =>
      let* (wf, rc) := db_file_write (c_wf c) (packints (c_klen c) (c_dlen c)) in
      if negb (rc =? 0) then Ret (with_wf c wf, old, -1)
      else
        let* (wf, rc) := db_file_write wf buf in
        Ret (with_wf c wf, old, if rc =? 0 then 0 else -1)
  end.

Definition dump_records (c : rwcdb) : res (rwcdb * list wrentry * Z) :=
  while_loop (S (S (Z.to_nat (f_len (c_rf c))) + length (concat (c_added c))))
    (fun '(c, old, rewind) =>
       let* (c, ret) := rwcdb_next c rewind in
       if negb (ret =? 1) then Ret (inr (c, old, ret))
       else
         let* (c, old, rc) := dump_one c old in
         if negb (rc =? 0) then Ret (inr (c, old, -1)) else Ret (inl (c, old, false))) (c, [], true).

(** The slot for an entry: from [start] on, the first whose hash is 0. *)
Definition free_slot (h : list (Z * Z)) (start len : Z) : res Z :=
  while_loop (S (length h))
    (fun slot =>
       let* (a, _) := aget h slot in
       if a =? 0 then Ret (inr slot)
       else let slot := u32 (slot + 1) in Ret (inl (if slot =? len then 0 else slot))) start.

Definition fill_table (h : list (Z * Z)) (len : Z) (l : list wrentry) : res (list (Z * Z)) :=
  fold_left (fun r w =>
    let* h := r in
    let* slot := free_slot h (Z.shiftr (w_hash w) 8 mod len) len in
    aset h slot (w_hash w, w_pos w)) l (Ret h).

Definition table_bytes (h : list (Z * Z)) : list Z := concat ((fun '(a, b) => packints a b) <$> h).

Definition write_hashchains (c : rwcdb) : res (rwcdb * Z) :=
  let* maxlen := forZ 0 256
    (fun i m => let* n := aget (c_hlens c) i in let len := u32 (n * 2) in Ret (if len >? m then len else m)) 256 in
  if negb (can_alloc (8 * maxlen)) then Ret (c, -1)
  else
    let* r := for_range 0 256
      (fun i '(wf, hoffs) =>
         let* n := aget (c_hlens c) i in
         let len := u32 (n * 2) in
         let hoffs := hoffs ++ [f_pos wf] in
         if len =? 0 then Ret (inl (wf, hoffs))
         else
           let* l := aget (c_added c) i in
           let* h := fill_table (replicate (Z.to_nat len) (0, 0)) len l in
           let* (wf, rc) := db_file_write wf (table_bytes h) in
           if negb (rc =? 0) then Ret (inr wf) else Ret (inl (wf, hoffs))) (c_wf c, []) in
    match r with
    | inr wf => Ret (with_wf c wf, -1)
    | inl (wf, hoffs) =>
        let hdr := table_bytes (zip hoffs ((fun n => u32 (n * 2)) <$> c_hlens c)) in
        let* (wf, rc1) := db_file_flush wf in
        if negb (rc1 =? 0) then Ret (with_wf c wf, -1)
        else
          let '(wf, rc2) := db_file_seek wf 0 in
          if negb (rc2 =? 0) then Ret (with_wf c wf, -1)
          else
            let* (wf, rc3) := db_file_write wf hdr in
            if negb (rc3 =? 0) then Ret (with_wf c wf, -1)
            else
              let* (wf, rc4) := db_file_flush wf in
              Ret (with_wf c wf, if rc4 =? 0 then 0 else -1)
    end.

(** The entries of the old file go to the front of their lists. *)
Definition move_entry (c : rwcdb) (w : wrentry) : res rwcdb :=
  let slot := Z.land (w_hash w) 255 in
  let* l := aget (c_added c) slot in
  let* ad := aset (c_added c) slot (w :: l) in
  let* n := aget (c_hlens c) slot in
  let* hl := aset (c_hlens c) slot (u32 (n + 1)) in
  Ret (with_lists c hl (c_removed c) ad).
Definition move_entries (c : rwcdb) (l : list wrentry) : res rwcdb :=
  fold_left (fun r w => let* c := r in move_entry c w) l (Ret c).

(** The label [recover]: the entries without key and data are dropped again. *)
Definition recover (c : rwcdb) : res (rwcdb * Z) :=
  let keep (w : wrentry) := negb ((w_klen w =? 0) && (w_dlen w =? 0)) in
  let* c := forZ 0 256
    (fun i c =>
       let* l := aget (c_added c) i in
       let* n := aget (c_hlens c) i in
       let l' := List.filter keep l in
       let* ad := aset (c_added c) i l' in
       let* hl := aset (c_hlens c) i (u32 (n - (zlen l - zlen l'))) in
       Ret (with_lists c hl (c_removed c) ad)) c in
  Ret (c, -1).

Definition rwcdb_sync (c : rwcdb) : res (rwcdb * Z) :=
  if negb (f_open (c_wf c)) then let* c := checkdb c in Ret (c, 1)
  else
    let '(wf, rc) := db_file_seek (c_wf c) 2048 in
    let c := with_wf c wf in
    if negb (rc =? 0) then Ret (c, -1)
    else
      let* (c, rewrites, rc) := dump_records c in
      if negb (rc =? 0) then recover c
      else
        let c := with_wf c (with_eod (c_wf c) (f_pos (c_wf c))) in
        let* c := move_entries c rewrites in
        let* (c, rc) := write_hashchains c in
        if negb (rc =? 0) then recover c
        else if negb rename_ok then recover c
        else
          let s := {| fs_db := Some (f_ino (c_wf c), f_data (c_wf c)); fs_tmp := false; fs_ino := fs_ino (c_fs c) |} in
          let* c := checkdb (with_fs (with_wf c (db_file_close (c_wf c))) s) in
          Ret (c, 1).

(** ** Opening and closing *)
Definition zero_file : db_file :=
  {| f_open := false; f_ino := 0; f_data := []; f_off := 0; f_pos := 0; f_len := 0; f_eod := 0; f_cache_pos := 0;
     f_cache_len := 0; f_pending := 0; f_cache := [] |}.

Definition rwcdb_init (c : rwcdb) (readonly : bool) : res (rwcdb * Z) :=
  let c := {| c_rf := zero_file; c_wf := zero_file; c_readonly := readonly; c_hash := 0; c_klen := 0; c_dlen := 0; c_dpos := 0;
              c_pending := None; c_index := 0; c_hlens := replicate 256 0; c_removed := []; c_added := replicate 256 [];
              c_fs := c_fs c |} in
  let* (rf, rc) := db_file_open (c_rf c) (fs_db (c_fs c)) in
  let c := with_rf c rf in
  if rc =? 0 then Ret (c, 0)
  else
    let* (c, rc) := owrite c in
    if rc =? -1 then Ret (with_wf c (db_file_close (c_wf c)), -1)
    else
      let* (c, rc) := rwcdb_sync c in
      if rc =? -1 then Ret (with_wf c (db_file_close (c_wf c)), -1) else Ret (c, 0).

Definition rwcdb_free (c : rwcdb) : res (rwcdb * Z) :=
  let* (c, rc) := rwcdb_sync c in
  if rc =? -1 then Ret (c, -1)
  else
    let c := discard_pending_updates c in
    Ret (with_rf c (db_file_close (c_rf c)), 1).
End ops.
End Rwcdb.
