(* ===== verification/RwcdbFormat.v ===== *)
(** * The file format of the key-value store and lookups in it

    A database file is a header of 256 pointers, the records, and 256 hash tables
    with open addressing.  Over a file of this format every read of
    lib-src/rwcdb/rwcdb.c succeeds, the position of the file after it is the end of
    what was read, although a cached read does not set it, and the probe loop of
    rwcdb_find decides whether a key has a record. *)
From Stdlib Require Import ZArith Lia.
From stdpp Require Import base list numbers.
From S2P Require Import Prelude.
From S2P Require Import Text.
From S2P Require Import PdbArray.
From S2P Require Import RwcdbFile.
From S2P Require Import Rwcdb.
Import RwcdbFile Rwcdb.

Module RwcdbFormat.

(** ** Lists *)
Lemma slice_mid {A} (a b c : list A) p q : p = zlen a -> q = zlen a + zlen b -> slice (a ++ b ++ c) p q = b.
Proof.
  intros -> ->. unfold slice, zlen. replace (Z.to_nat (Z.of_nat (length a) + Z.of_nat (length b))) with (length a + length b)%nat by lia.
  by rewrite Nat2Z.id, take_app_add, take_app_length, drop_app_length.
Qed.

Lemma concat_mid {A B} (f : A -> list B) (l : list A) i x : l !! i = Some x ->
  concat (f <$> l) = concat (f <$> take i l) ++ f x ++ concat (f <$> drop (S i) l).
Proof.
  intros E. rewrite <- (take_drop_middle l i x E) at 1. by rewrite fmap_app, concat_app, fmap_cons.
Qed.

Lemma concat_take_le {A B} (f : A -> list B) (l : list A) i j : (i <= j)%nat ->
  zlen (concat (f <$> take i l)) <= zlen (concat (f <$> take j l)).
Proof.
  intros Hij. rewrite <- (take_drop i (take j l)), take_take, Nat.min_l by lia.
  rewrite fmap_app, concat_app, zlen_app. pose proof (zlen_nonneg (concat (f <$> drop i (take j l)))). lia.
Qed.

Lemma concat_take_S {A B} (f : A -> list B) (l : list A) i x : l !! i = Some x ->
  zlen (concat (f <$> take (S i) l)) = zlen (concat (f <$> take i l)) + zlen (f x).
Proof. intros E. by rewrite (take_S_r _ _ x), fmap_app, concat_app, zlen_app, fmap_cons, concat_cons, app_nil_r by done. Qed.

(** ** The format *)
Abbreviation rec := (list Z * list Z)%type.
Definition rbytes (r : rec) : list Z := packints (zlen r.1) (zlen r.2) ++ r.1 ++ r.2.
Definition records (rs : list rec) : list Z := concat (rbytes <$> rs).
Definition rpos (rs : list rec) (n : nat) : Z := 2048 + zlen (records (take n rs)).
Definition eod (rs : list rec) : Z := 2048 + zlen (records rs).
Definition rsize (r : rec) : Z := zlen r.1 + zlen r.2.

Abbreviation table := (list (Z * Z)).
Definition tables (ts : list table) : list Z := concat (table_bytes <$> ts).
Definition tpos (rs : list rec) (ts : list table) (i : nat) : Z := eod rs + zlen (tables (take i ts)).
Definition header (rs : list rec) (ts : list table) : table := imap (fun i t => (tpos rs ts i, zlen t)) ts.
Definition file_of (rs : list rec) (ts : list table) : list Z :=
  table_bytes (header rs ts) ++ records rs ++ tables ts.

(** The slot that is looked at in round [d] for a hash. *)
Definition slot_of (hash : Z) (n : nat) (d : nat) : nat := Z.to_nat ((Z.shiftr hash 8 + Z.of_nat d) mod Z.of_nat n).

(** The table leads to the entry [e] of a hash: all slots before it are used. *)
Definition leads (t : table) (e : Z * Z) : Prop :=
  exists d, (d < length t)%nat /\ t !! slot_of e.1 (length t) d = Some e /\
    forall d', (d' < d)%nat -> exists e', t !! slot_of e.1 (length t) d' = Some e' /\ e'.2 <> 0.

Definition tab (k : list Z) : nat := Z.to_nat (Z.land (cdb_hash k) 255).

Record db_format (rs : list rec) (ts : list table) : Prop := {
  df_tables : length ts = 256%nat;
  df_small : zlen (file_of rs ts) < 2 ^ 31;
  df_keys : NoDup rs.*1;
  df_data : Forall (fun r => r.2 <> []) rs;
  df_words i t j e : ts !! i = Some t -> t !! j = Some e -> 0 <= e.1 < 2 ^ 32 /\ 0 <= e.2 < 2 ^ 32;
  df_sound i t j e : ts !! i = Some t -> t !! j = Some e -> e.2 <> 0 ->
    exists n r, rs !! n = Some r /\ e = (cdb_hash r.1, rpos rs n);
  df_complete n r t : rs !! n = Some r -> ts !! tab r.1 = Some t -> leads t (cdb_hash r.1, rpos rs n)
}.

Lemma zlen_rbytes r : zlen (rbytes r) = 8 + rsize r.
Proof. unfold rbytes, rsize. rewrite !zlen_app, zlen_packints. lia. Qed.

Lemma zlen_table_bytes t : zlen (table_bytes t) = 8 * zlen t.
Proof.
  unfold table_bytes. induction t as [|[a b] t IH]; [done|].
  rewrite fmap_cons, concat_cons, zlen_app, IH, zlen_packints, zlen_cons. lia.
Qed.

Lemma zlen_header rs ts : zlen (header rs ts) = zlen ts.
Proof. unfold zlen, header. by rewrite length_imap. Qed.

Lemma rpos_0 rs : rpos rs 0 = 2048.
Proof. done. Qed.
Lemma rpos_end rs n : (length rs <= n)%nat -> rpos rs n = eod rs.
Proof. intros Hn. unfold rpos, eod. by rewrite take_ge. Qed.
Lemma rpos_S rs n r : rs !! n = Some r -> rpos rs (S n) = rpos rs n + 8 + rsize r.
Proof. intros E. unfold rpos, records. rewrite (concat_take_S _ _ _ _ E), zlen_rbytes. lia. Qed.
Lemma rpos_le rs n m : (n <= m)%nat -> rpos rs n <= rpos rs m.
Proof. intros Hnm. pose proof (concat_take_le rbytes rs n m Hnm). unfold rpos, records. lia. Qed.
Lemma rpos_ge rs n : 2048 <= rpos rs n.
Proof. pose proof (zlen_nonneg (records (take n rs))). unfold rpos. lia. Qed.
Lemma rpos_eod rs n r : rs !! n = Some r -> rpos rs n + 8 + rsize r <= eod rs.
Proof.
  intros E. rewrite <- (rpos_S _ _ _ E), <- (rpos_end rs (length rs)) by done. apply rpos_le. apply lookup_lt_Some in E. lia.
Qed.
Lemma rpos_app rs rs' n : (n <= length rs)%nat -> rpos (rs ++ rs') n = rpos rs n.
Proof. intros Hn. unfold rpos. by rewrite take_app_le. Qed.
Lemma rsize_nonneg r : 0 <= rsize r.
Proof. unfold rsize. pose proof (zlen_nonneg r.1). pose proof (zlen_nonneg r.2). lia. Qed.

(** The records do not overlap. *)
Lemma rpos_apart rs n m r r' : rs !! n = Some r -> rs !! m = Some r' -> n <> m ->
  rpos rs n + 8 + rsize r <= rpos rs m \/ rpos rs m + 8 + rsize r' <= rpos rs n.
Proof.
  intros En Em Hnm. rewrite <- (rpos_S _ _ _ En), <- (rpos_S _ _ _ Em).
  destruct (decide (n < m)%nat); [left|right]; apply rpos_le; lia.
Qed.
Lemma rpos_inj rs n m r r' : rs !! n = Some r -> rs !! m = Some r' -> rpos rs n = rpos rs m -> n = m.
Proof.
  intros En Em E. destruct (decide (n = m)); [done|]. pose proof (rsize_nonneg r). pose proof (rsize_nonneg r').
  destruct (rpos_apart rs n m r r' En Em n0); lia.
Qed.

Section files.
Context (rs : list rec) (ts : list table) (F : db_format rs ts).

Lemma zlen_hdr : zlen (table_bytes (header rs ts)) = 2048.
Proof. rewrite zlen_table_bytes, zlen_header. unfold zlen. rewrite (df_tables _ _ F). done. Qed.

Lemma zlen_file : zlen (file_of rs ts) = eod rs + zlen (tables ts).
Proof. unfold file_of, eod. rewrite !zlen_app, zlen_hdr. lia. Qed.

Lemma slice_header i t : ts !! i = Some t ->
  slice (file_of rs ts) (8 * Z.of_nat i) (8 * Z.of_nat i + 8) = packints (tpos rs ts i) (zlen t).
Proof.
  intros E. assert (header rs ts !! i = Some (tpos rs ts i, zlen t)) as Eh by (unfold header; by rewrite list_lookup_imap, E).
  unfold file_of, table_bytes at 1. rewrite (concat_mid _ _ _ _ Eh), <- !app_assoc.
  assert (zlen (concat ((fun '(a, b) => packints a b) <$> take i (header rs ts))) = 8 * Z.of_nat i) as El.
  { fold (table_bytes (take i (header rs ts))). rewrite zlen_table_bytes. unfold zlen. rewrite length_take.
    apply lookup_lt_Some in Eh. lia. }
  apply slice_mid; rewrite ?zlen_packints; lia.
Qed.

(** A piece of the records. *)
Lemma slice_records a b c : records rs = a ++ b ++ c ->
  slice (file_of rs ts) (2048 + zlen a) (2048 + zlen a + zlen b) = b.
Proof.
  intros E. unfold file_of. rewrite E, !app_assoc. rewrite <- (app_assoc _ b c), <- (app_assoc _ (b ++ c)), <- (app_assoc b).
  apply slice_mid; rewrite zlen_app, zlen_hdr; lia.
Qed.

Lemma records_mid n r : rs !! n = Some r ->
  records rs = records (take n rs) ++ (packints (zlen r.1) (zlen r.2) ++ r.1 ++ r.2) ++ records (drop (S n) rs).
Proof. intros E. apply (concat_mid rbytes _ _ _ E). Qed.

Lemma slice_rec n r : rs !! n = Some r ->
  slice (file_of rs ts) (rpos rs n) (rpos rs n + 8) = packints (zlen r.1) (zlen r.2).
Proof.
  intros E. pose proof (records_mid n r E) as Em. rewrite <- !app_assoc in Em.
  apply slice_records in Em. by rewrite zlen_packints in Em.
Qed.

Lemma slice_body n r : rs !! n = Some r ->
  slice (file_of rs ts) (rpos rs n + 8) (rpos rs n + 8 + rsize r) = r.1 ++ r.2.
Proof.
  intros E. pose proof (records_mid n r E) as Em. rewrite <- (app_assoc (packints _ _)), app_assoc in Em.
  apply slice_records in Em. rewrite zlen_app, zlen_packints in Em. unfold rpos, rsize. rewrite zlen_app in Em.
  etrans; [|exact Em]. f_equal; lia.
Qed.

Lemma slice_slot i t j e : ts !! i = Some t -> t !! j = Some e ->
  slice (file_of rs ts) (tpos rs ts i + 8 * Z.of_nat j) (tpos rs ts i + 8 * Z.of_nat j + 8) = packints e.1 e.2.
Proof.
  intros Ei Ej. unfold file_of, tables. rewrite (concat_mid _ _ _ _ Ei). unfold table_bytes at 3. rewrite (concat_mid _ _ _ _ Ej).
  destruct e as [h p]. fold (table_bytes (take j t)). fold (tables (take i ts)). rewrite <- !app_assoc.
  rewrite (app_assoc _ (table_bytes (take j t))), (app_assoc (records rs)), (app_assoc (table_bytes (header rs ts))).
  assert (zlen (table_bytes (take j t)) = 8 * Z.of_nat j) as El.
  { rewrite zlen_table_bytes. unfold zlen. rewrite length_take. apply lookup_lt_Some in Ej. lia. }
  apply slice_mid; rewrite !zlen_app, zlen_hdr, El, ?zlen_packints; unfold tpos, eod; cbn [fst snd]; lia.
Qed.

Lemma tpos_bound i t : ts !! i = Some t -> eod rs <= tpos rs ts i /\ tpos rs ts i + 8 * zlen t <= zlen (file_of rs ts).
Proof.
  intros E. rewrite zlen_file. unfold tpos, tables. pose proof (zlen_nonneg (concat (table_bytes <$> take i ts))). split; [lia|].
  rewrite (concat_mid _ _ _ _ E), !zlen_app, zlen_table_bytes. pose proof (zlen_nonneg (concat (table_bytes <$> drop (S i) ts))). lia.
Qed.

(** ** Reads *)

(** The places where two words are read. *)
Definition cell (p : Z) : Prop :=
  (exists i, (i < 256)%nat /\ p = 8 * Z.of_nat i) \/
  (exists n r, rs !! n = Some r /\ p = rpos rs n) \/
  (exists j, p = eod rs + 8 * Z.of_nat j /\ p + 8 <= zlen (file_of rs ts)).

(** What is read at a time: two words, or a part of the key and the data of one record. *)
Definition area (p len : Z) : Prop :=
  (cell p /\ len = 8) \/
  (exists n r, rs !! n = Some r /\ rpos rs n + 8 <= p /\ p + len <= rpos rs n + 8 + rsize r /\ 0 <= len).

Lemma cell_apart p q : cell p -> cell q -> p < q + 8 -> q < p + 8 -> p = q.
Proof.
  pose proof (zlen_nonneg (records rs)).
  intros [(i & Hi & ->)|[(n & r & En & ->)|(j & -> & Hj)]] [(i' & Hi' & ->)|[(m & r' & Em & ->)|(j' & -> & Hj')]] H1 H2;
    try (pose proof (rpos_eod _ _ _ En); pose proof (rpos_ge rs n); pose proof (rsize_nonneg r));
    try (pose proof (rpos_eod _ _ _ Em); pose proof (rpos_ge rs m); pose proof (rsize_nonneg r'));
    unfold eod in *; try lia.
  destruct (decide (n = m)) as [->|Hnm]; [done|]. destruct (rpos_apart _ _ _ _ _ En Em Hnm); lia.
Qed.

Lemma cell_body p n r : cell p -> rs !! n = Some r -> p + 8 <= rpos rs n + 8 \/ rpos rs n + 8 + rsize r <= p.
Proof.
  intros Hp En. pose proof (rpos_eod _ _ _ En). pose proof (rpos_ge rs n). pose proof (rsize_nonneg r).
  destruct Hp as [(i & Hi & ->)|[(m & r' & Em & ->)|(j & -> & Hj)]]; [lia| |lia].
  destruct (decide (n = m)) as [->|Hnm]; [lia|]. pose proof (rsize_nonneg r'). destruct (rpos_apart _ _ _ _ _ En Em Hnm); lia.
Qed.

(** Nothing larger that is read at a time contains two words or a whole body. *)
Lemma area_cell p len q : area p len -> cell q -> p <= q -> q + 8 <= p + len -> p = q /\ len = 8.
Proof.
  intros [[Hp ->]|(n & r & En & H1 & H2 & H3)] Hq Hle Hge; [pose proof (cell_apart p q Hp Hq); lia|].
  destruct (cell_body q n r Hq En); lia.
Qed.
Lemma area_body p len n r : area p len -> rs !! n = Some r -> 0 < rsize r -> p <= rpos rs n + 8 ->
  rpos rs n + 8 + rsize r <= p + len -> p = rpos rs n + 8 /\ len = rsize r.
Proof.
  intros [[Hp ->]|(m & r' & Em & H1 & H2 & H3)] En Hr Hle Hge; [destruct (cell_body p n r Hp En); lia|].
  destruct (decide (n = m)) as [->|Hnm]; [simplify_eq; lia|]. pose proof (rsize_nonneg r').
  destruct (rpos_apart _ _ _ _ _ En Em Hnm); lia.
Qed.

Lemma cell_bound p : cell p -> 0 <= p /\ p + 8 <= zlen (file_of rs ts).
Proof.
  rewrite zlen_file. pose proof (zlen_nonneg (tables ts)). pose proof (zlen_nonneg (records rs)).
  intros [(i & Hi & ->)|[(n & r & En & ->)|(j & -> & Hj)]]; rewrite ?zlen_file in *; unfold eod in *; [lia| |lia].
  pose proof (rpos_eod _ _ _ En). pose proof (rpos_ge rs n). pose proof (rsize_nonneg r). unfold eod in *. lia.
Qed.

Lemma cell_header k : cell (8 * Z.of_nat (tab k)).
Proof. left. exists (tab k). split; [|done]. unfold tab. pose proof (Z.land_nonneg (cdb_hash k) 255).
  change 255 with (Z.ones 8). rewrite Z.land_ones by lia. pose proof (Z.mod_pos_bound (cdb_hash k) (2 ^ 8)). lia.
Qed.
Lemma cell_rec n r : rs !! n = Some r -> cell (rpos rs n).
Proof. intros E. right. left. eauto. Qed.
Lemma cell_slot i t j : ts !! i = Some t -> (j < length t)%nat -> cell (tpos rs ts i + 8 * Z.of_nat j).
Proof.
  intros E Hj. right. right. destruct (tpos_bound i t E) as [H1 H2]. exists (Z.to_nat (zlen (tables (take i ts)) / 8) + j)%nat.
  assert (zlen (tables (take i ts)) mod 8 = 0) as Hm.
  { unfold tables. generalize (take i ts). intros l. induction l as [|x l IH]; [done|].
    rewrite fmap_cons, concat_cons, zlen_app, zlen_table_bytes. rewrite Z.mul_comm, Z.add_comm, Z.mod_add by lia. done. }
  pose proof (zlen_nonneg (tables (take i ts))). unfold tpos, zlen in *. split; [|lia].
  pose proof (Z.div_mod (Z.of_nat (length (tables (take i ts)))) 8 ltac:(lia)).
  pose proof (Z.div_pos (Z.of_nat (length (tables (take i ts)))) 8 ltac:(lia) ltac:(lia)). lia.
Qed.

(** The file [rf] of the database while its contents are [rs] and [ts]. *)
Record rf_ok (f : db_file) : Prop := {
  rf_rd : rd_ok area f;
  rf_data : f_data f = file_of rs ts;
  rf_eod : f_eod f = eod rs
}.

Lemma rf_len f : rf_ok f -> f_len f = zlen (file_of rs ts).
Proof. intros [Hr Hd _]. by rewrite (rd_len _ _ Hr), Hd. Qed.

Lemma rf_same f f' : rf_ok f -> rd_ok area f' -> same_file f f' -> rf_ok f'.
Proof. intros [H1 H2 H3] Hr (E1 & E2 & E3 & E4). split; congruence. Qed.

Section reads.
Context `{AllocOk, Disk}.

(** What is cached ends at the position of the file. *)
Lemma cached_pos f len p : rf_ok f -> cached f len p = true -> 0 <= p -> 0 < len -> p + len <= f_len f ->
  exists cp cl, area cp cl /\ cp <= p /\ p + len <= cp + cl /\ f_pos f = cp + cl.
Proof.
  intros [Hr _ _] Hc Hp Hn Hle. destruct (cached_ok _ f len p Hr Hp ltac:(lia) Hle Hc) as (C1 & C2 & C3).
  destruct (rd_cache _ _ Hr) as [Hd|(D1 & D2 & D3 & D4 & D5)]; [lia|]. eauto 10.
Qed.

Lemma read_cell f p a b : rf_ok f -> cell p -> 0 <= a < 2 ^ 32 -> 0 <= b < 2 ^ 32 ->
  slice (file_of rs ts) p (p + 8) = packints a b ->
  exists f', db_readints f p = Ret (f', Some (a, b)) /\ rf_ok f' /\ same_file f f' /\ f_pos f' = p + 8.
Proof.
  intros Hf Hp Ha Hb Es. destruct (cell_bound p Hp) as [B1 B2]. rewrite <- (rf_len f Hf) in B2.
  destruct (db_readints_ok area f p a b) as (f' & -> & Hr & HS & Hpos);
    [apply Hf|done|done|by left|done|done|by rewrite (rf_data _ Hf)|].
  exists f'. split; [done|]. split; [by eapply rf_same|]. split; [done|].
  destruct Hpos as [(-> & _)|[-> Hc]]; [done|].
  destruct (cached_pos f 8 p Hf Hc B1 ltac:(lia) B2) as (cp & cl & Har & C1 & C2 & ->).
  destruct (area_cell cp cl p Har Hp C1 C2) as [-> ->]. done.
Qed.

Lemma read_part f n r o len : rf_ok f -> rs !! n = Some r -> 0 < rsize r -> 0 <= o -> 0 <= len -> o + len <= rsize r ->
  exists f', db_file_mread f len (rpos rs n + 8 + o) = Ret (f', Some (slice (r.1 ++ r.2) o (o + len))) /\ rf_ok f' /\ same_file f f' /\
    (len = rsize r -> f_pos f' = rpos rs (S n)).
Proof.
  intros Hf En Hr0 Ho Hn Hle. pose proof (rpos_eod _ _ _ En). pose proof (rpos_ge rs n). pose proof (zlen_nonneg (tables ts)).
  pose proof (rf_len f Hf) as El. rewrite zlen_file in El.
  destruct (db_file_mread_ok area f len (rpos rs n + 8 + o)) as (f' & -> & Hr & HS & Hpos);
    [apply Hf|lia|lia|lia|right; exists n, r; split; [done|lia]|].
  exists f'. split.
  { do 3 f_equal. rewrite (rf_data _ Hf), <- (slice_body n r En), slice_slice by lia. f_equal. lia. }
  split; [by eapply rf_same|]. split; [done|]. intros ->. assert (o = 0) as -> by lia. rewrite (rpos_S _ _ _ En).
  destruct Hpos as [(-> & _)|[-> Hc]]; [lia|].
  destruct (cached_pos f _ _ Hf Hc ltac:(lia) Hr0 ltac:(lia)) as (cp & cl & Har & C1 & C2 & ->).
  destruct (area_body cp cl n r Har En Hr0 ltac:(lia) ltac:(lia)) as [-> ->]. done.
Qed.
End reads.
End files.

End RwcdbFormat.
