(* ===== verification/RwcdbFind.v ===== *)
(** * Lookups in the file of the key-value store

    The probe loop of rwcdb_find (lib-src/rwcdb/rwcdb.c) over a well-formed file:
    it finds the record of a key when there is one and returns 0 otherwise. *)
From Stdlib Require Import ZArith Lia.
From stdpp Require Import base list numbers.
From S2P Require Import Prelude.
From S2P Require Import Text.
From S2P Require Import PdbArray.
From S2P Require Import RwcdbFile.
From S2P Require Import Rwcdb.
From S2P Require Import RwcdbFormat.
Import RwcdbFile Rwcdb RwcdbFormat.

Module RwcdbFind.

(** ** Hashes *)
Lemma hash_step_bound h c : 0 <= h < 2 ^ 32 -> 0 <= Z.lxor (u32 (u32 (Z.shiftl h 5) + h)) (u8 c) < 2 ^ 32.
Proof.
  intros Hh. set (a := u32 (u32 (Z.shiftl h 5) + h)). assert (0 <= a < 2 ^ 32) as Ha by (apply uwrap_bound; lia).
  pose proof (uwrap_bound 8 c ltac:(lia)) as Hc. set (b := u8 c) in *. clearbody a b.
  assert (0 <= Z.lxor a b) as H0 by (apply Z.lxor_nonneg; lia). split; [done|].
  destruct (Z.eq_dec (Z.lxor a b) 0) as [->|Hn]; [lia|]. apply Z.log2_lt_pow2; [lia|].
  pose proof (Z.log2_lxor a b ltac:(lia) ltac:(lia)). assert (forall x, 0 <= x < 2 ^ 32 -> Z.log2 x < 32) as Hl.
  { intros x Hx. destruct (Z.eq_dec x 0) as [->|]; [done|]. apply Z.log2_lt_pow2; lia. }
  pose proof (Hl a Ha). pose proof (Hl b ltac:(lia)). lia.
Qed.

Lemma cdb_hash_bound k : 0 <= cdb_hash k < 2 ^ 32.
Proof.
  unfold cdb_hash. assert (0 <= 5381 < 2 ^ 32) as Hi by lia. revert Hi. generalize 5381. induction k as [|x k IH]; intros h Hh; [done|].
  apply IH. by apply hash_step_bound.
Qed.

Lemma tab_land k : Z.of_nat (tab k) = Z.land (cdb_hash k) 255.
Proof. unfold tab. rewrite Z2Nat.id; [done|]. apply Z.land_nonneg. lia. Qed.
Lemma tab_lt k : (tab k < 256)%nat.
Proof.
  pose proof (tab_land k) as E. change 255 with (Z.ones 8) in E. rewrite Z.land_ones in E by lia.
  pose proof (Z.mod_pos_bound (cdb_hash k) (2 ^ 8) ltac:(lia)). lia.
Qed.

(** ** Probing *)
Lemma slot_of_lt h n d : (0 < n)%nat -> (slot_of h n d < n)%nat.
Proof. intros Hn. unfold slot_of. pose proof (Z.mod_pos_bound (Z.shiftr h 8 + Z.of_nat d) (Z.of_nat n) ltac:(lia)). lia. Qed.

(** The slots are looked at in turn, and from the last one the first is next. *)
Lemma slot_of_S h n d : (0 < n)%nat ->
  slot_of h n (S d) = if decide (S (slot_of h n d) = n) then O else S (slot_of h n d).
Proof.
  intros Hn. unfold slot_of. replace (Z.shiftr h 8 + Z.of_nat (S d)) with (Z.shiftr h 8 + Z.of_nat d + 1) by lia.
  set (a := Z.shiftr h 8 + Z.of_nat d). pose proof (Z.mod_pos_bound a (Z.of_nat n) ltac:(lia)) as Hb.
  rewrite <- (Z.add_mod_idemp_l a 1) by lia. destruct (decide (S (Z.to_nat (a mod Z.of_nat n)) = n)) as [E|E].
  - replace (a mod Z.of_nat n + 1) with (Z.of_nat n) by lia. by rewrite Z.mod_same by lia.
  - rewrite Z.mod_small by lia. lia.
Qed.

Section find.
Context `{AllocOk, Disk, Rename} (rs : list rec) (ts : list table) (F : db_format rs ts).
Abbreviation rf_ok := (rf_ok rs ts).

Lemma rsize_small n r : rs !! n = Some r -> 0 <= zlen r.1 /\ 0 <= zlen r.2 /\ 0 < zlen r.2 /\ eod rs < 2 ^ 31 /\ zlen r.1 + zlen r.2 < 2 ^ 31.
Proof.
  intros E. pose proof (rpos_eod _ _ _ E). pose proof (rpos_ge rs n). pose proof (df_small _ _ F) as Hs.
  rewrite (zlen_file _ _ F) in Hs. pose proof (zlen_nonneg (tables ts)). unfold rsize in *.
  pose proof (zlen_nonneg r.1). pose proof (zlen_nonneg r.2).
  assert (0 < zlen r.2); [|lia]. pose proof (df_data _ _ F) as Hd. rewrite Forall_lookup in Hd. specialize (Hd n r E).
  cbv beta in Hd. destruct r.2; [done|]. rewrite zlen_cons. pose proof (zlen_nonneg l). lia.
Qed.

Lemma read_rec f n r : rf_ok f -> rs !! n = Some r ->
  exists f', db_readints f (rpos rs n) = Ret (f', Some (zlen r.1, zlen r.2)) /\ rf_ok f' /\ same_file f f' /\ f_pos f' = rpos rs n + 8.
Proof.
  intros Hf E. destruct (rsize_small n r E). apply (read_cell rs ts F); [done|by eapply cell_rec|lia|lia|by apply (slice_rec _ _ F)].
Qed.

(** The whole key and data of a record. *)
Lemma read_body f n r : rf_ok f -> rs !! n = Some r ->
  exists f', db_file_mread f (u32 (zlen r.1 + zlen r.2)) (rpos rs n + 8) = Ret (f', Some (r.1 ++ r.2)) /\ rf_ok f' /\ same_file f f' /\
    f_pos f' = rpos rs (S n).
Proof.
  intros Hf E. destruct (rsize_small n r E) as (S1 & S2 & S3 & S4 & S5). rewrite (uwrap_small 32) by lia.
  destruct (read_part rs ts F f n r 0 (rsize r)) as (f' & Em & R & HS & P); [done|done|unfold rsize; lia|lia|unfold rsize; lia|lia|].
  rewrite Z.add_0_r in Em. exists f'. unfold rsize in *. rewrite Em. split; [|auto]. do 3 f_equal.
  unfold slice. rewrite drop_0, Z.add_0_l, <- zlen_app. unfold zlen. by rewrite Nat2Z.id, take_ge.
Qed.

Lemma find_probe_ok c k n r : rf_ok (c_rf c) -> rs !! n = Some r ->
  exists f', rf_ok f' /\ same_file (c_rf c) f' /\
    find_probe c k (cdb_hash k) (rpos rs n) =
    Ret (if decide (r.1 = k) then (with_found (with_rf c f') (zlen k) (zlen r.2) (rpos rs n + 8 + zlen k), PReturn 1)
         else (with_rf c f', PNext)).
Proof.
  intros Hf E. destruct (read_rec _ _ _ Hf E) as (f1 & E1 & R1 & S1 & P1). unfold find_probe. rewrite E1. cbn [rbind with_rf c_rf].
  destruct (Z.eqb_spec (zlen k) (zlen r.1)) as [Ek|Ek]; cbn [negb].
  2:{ exists f1. split; [done|]. split; [done|]. destruct (decide (r.1 = k)) as [<-|]; done. }
  destruct (read_body _ _ _ R1 E) as (f2 & E2 & R2 & S2 & P2). rewrite P1, E2. cbn [rbind].
  assert (take (length k) (r.1 ++ r.2) = r.1) as -> by (unfold zlen in Ek; replace (length k) with (length r.1) by lia; apply take_app_length).
  exists f2. split; [done|]. split; [by etrans|]. destruct (rsize_small n r E) as (B1 & B2 & B3 & B4 & B5).
  pose proof (rpos_eod _ _ _ E). pose proof (rpos_ge rs n). unfold rsize in *.
  destruct (decide (r.1 = k)) as [Hk|Hk]; [|by rewrite bool_decide_eq_false_2]. rewrite bool_decide_eq_true_2 by done.
  cbn [with_rf c_rf]. rewrite P2, (rpos_S _ _ _ E), (uwrap_small 32), Ek by (unfold rsize; lia). do 4 f_equal. unfold rsize. lia.
Qed.

(** The offset of the slot that round [d] looks at. *)
Definition slot_pos (k : list Z) (t : table) (d : nat) : Z :=
  tpos rs ts (tab k) + 8 * Z.of_nat (slot_of (cdb_hash k) (length t) d).

(** One round of the loop, by the entry of the table it looks at. *)
Lemma find_slot_ok c k t d e : rf_ok (c_rf c) -> ts !! tab k = Some t -> (0 < length t)%nat ->
  t !! slot_of (cdb_hash k) (length t) d = Some e ->
  exists f', rf_ok f' /\ same_file (c_rf c) f' /\
    ((e.2 = 0 /\ find_slot k (cdb_hash k) (tpos rs ts (tab k)) (zlen t) (c, slot_pos k t d) = Ret (inr (with_rf c f', 0))) \/
     (exists n r, rs !! n = Some r /\ r.1 = k /\
        find_slot k (cdb_hash k) (tpos rs ts (tab k)) (zlen t) (c, slot_pos k t d) =
        Ret (inr (with_found (with_rf c f') (zlen k) (zlen r.2) (rpos rs n + 8 + zlen k), 1))) \/
     ((forall n r, rs !! n = Some r -> r.1 = k -> e <> (cdb_hash k, rpos rs n)) /\
        find_slot k (cdb_hash k) (tpos rs ts (tab k)) (zlen t) (c, slot_pos k t d) = Ret (inl (with_rf c f', slot_pos k t (S d))))).
Proof.
  intros Hf Et Hn Ee. pose proof (slot_of_lt (cdb_hash k) (length t) d Hn) as Hlt.
  destruct (tpos_bound rs ts F _ _ Et) as [T1 T2]. pose proof (df_small _ _ F) as Hs. pose proof (zlen_nonneg (records rs)).
  destruct (df_words _ _ F _ _ _ _ Et Ee) as [W1 W2].
  destruct (read_cell rs ts F (c_rf c) (slot_pos k t d) e.1 e.2) as (f1 & E1 & R1 & S1 & P1);
    [done|by eapply cell_slot|done|done|by apply (slice_slot _ _ F _ t)|].
  unfold find_slot. rewrite E1. cbn [rbind]. destruct (Z.eqb_spec e.2 0) as [E0|E0]; [exists f1; auto|].
  assert ((if u32 (slot_pos k t d + 8) =? u32 (tpos rs ts (tab k) + u32 (Z.shiftl (zlen t) 3)) then tpos rs ts (tab k) else u32 (slot_pos k t d + 8)) = slot_pos k t (S d)) as ->.
  { unfold eod, zlen in *. rewrite Z.shiftl_mul_pow2 by lia. change (2 ^ 3) with 8. rewrite (uwrap_small 32 (_ * 8)), !(uwrap_small 32) by (unfold slot_pos; lia).
    unfold slot_pos. rewrite slot_of_S by done. destruct (Z.eqb_spec (tpos rs ts (tab k) + 8 * Z.of_nat (slot_of (cdb_hash k) (length t) d) + 8)
      (tpos rs ts (tab k) + Z.of_nat (length t) * 8)), (decide _); lia. }
  destruct (df_sound _ _ F _ _ _ _ Et Ee E0) as (n & r & En & ->). cbn [fst snd] in *.
  destruct (Z.eqb_spec (cdb_hash k) (cdb_hash r.1)) as [Eh|Eh]; cbn [negb].
  2:{ exists f1. split; [done|]. split; [done|]. right. right. split; [|done]. intros m r' Em <- [= E _]. congruence. }
  destruct (find_probe_ok (with_rf c f1) k n r R1 En) as (f2 & R2 & S2 & ->). exists f2. split; [done|]. split; [by etrans|].
  destruct (decide (r.1 = k)) as [Ek|Ek]; cbn [rbind]; [right; left; by eauto|]. right. right. split; [|done].
  intros m r' Em Ek' [= _ Ep]. pose proof (rpos_inj _ _ _ _ _ En Em Ep). simplify_eq.
Qed.

(** What the lookup of [k] in the file leaves in [c] and returns. *)
Definition found (c : rwcdb) (k : list Z) (res : rwcdb * Z) : Prop :=
  exists f', rf_ok f' /\ same_file (c_rf c) f' /\
    ((exists n r, rs !! n = Some r /\ r.1 = k /\
        res = (with_found (with_rf c f') (zlen k) (zlen r.2) (rpos rs n + 8 + zlen k), 1)) \/
     (k ∉ rs.*1 /\ res = (with_rf c f', 0))).

Lemma find_loop_ok c k t : rf_ok (c_rf c) -> ts !! tab k = Some t -> (0 < length t)%nat ->
  exists r, (let* r := for_range 0 (zlen t) (fun _ => find_slot k (cdb_hash k) (tpos rs ts (tab k)) (zlen t))
               (c, slot_pos k t 0) in
             match r with inl (c, _) => Ret (c, 0) | inr r => Ret r end) = Ret r /\ found c k r.
Proof.
  intros Hf Et Hn.
  destruct (for_range_rule
    (fun i '(c', cur) => exists f', rf_ok f' /\ same_file (c_rf c) f' /\ c' = with_rf c f' /\ cur = slot_pos k t (Z.to_nat i) /\
       forall n r, rs !! n = Some r -> r.1 = k -> exists d, (Z.to_nat i <= d < length t)%nat /\
         t !! slot_of (cdb_hash k) (length t) d = Some (cdb_hash k, rpos rs n) /\
         forall d', (d' < d)%nat -> exists e', t !! slot_of (cdb_hash k) (length t) d' = Some e' /\ e'.2 <> 0)
    (fun _ res => found c k res) 0 (zlen t) (fun _ => find_slot k (cdb_hash k) (tpos rs ts (tab k)) (zlen t)) (c, slot_pos k t 0))
    as [([c' cur] & -> & f' & R' & S' & -> & _ & Hno)|(i & r & _ & -> & HQ)].
  - unfold zlen. lia.
  - exists (c_rf c). split; [done|]. split; [done|]. split; [by destruct c|]. split; [done|]. intros n r En <-.
    destruct (df_complete _ _ F n r t En Et) as (d & Hd & E & Hb). exists d. split; [lia|]. auto.
  - intros i [c' cur] Hi (f & R & Sm & -> & -> & Hp). set (d := Z.to_nat i) in *. unfold zlen in Hi.
    destruct (lookup_lt_is_Some_2 t (slot_of (cdb_hash k) (length t) d)) as [e Ee]; [by apply slot_of_lt|].
    destruct (find_slot_ok (with_rf c f) k t d e R Et Hn Ee) as (f' & R' & S' & Hcase).
    assert (same_file (c_rf c) f') as Sf by (by etrans).
    destruct Hcase as [[E0 ->]|[(n & r & En & Ek & ->)|[Hne ->]]].
    + right. eexists. split; [done|]. exists f'. split; [done|]. split; [done|]. right. split; [|done].
      intros (r & Ek & (n & En)%list_elem_of_lookup)%list_elem_of_fmap. destruct (Hp n r En) as (d0 & Hd0 & Ed & Hb); [done|].
      destruct (decide (d = d0)) as [<-|Hdd].
      * rewrite Ee in Ed. simplify_eq/=. pose proof (rpos_ge rs n). lia.
      * destruct (Hb d ltac:(lia)) as (e' & Ee' & Hne). congruence.
    + right. eexists. split; [done|]. exists f'. split; [done|]. split; [done|]. left. eauto.
    + left. eexists. split; [done|]. exists f'. split; [done|]. split; [done|]. split; [done|].
      replace (Z.to_nat (i + 1)) with (S d) by (unfold d; lia). split; [done|].
      intros n r En Ek. destruct (Hp n r En Ek) as (d0 & Hd0 & Ed & Hb). exists d0. split; [|done].
      destruct (decide (d = d0)) as [<-|]; [|lia]. rewrite Ee in Ed. simplify_eq. by destruct (Hne n r En eq_refl).
  - cbn [rbind]. eexists. split; [done|]. exists f'. split; [done|]. split; [done|]. right. split; [|done].
    intros (r & Ek & (n & En)%list_elem_of_lookup)%list_elem_of_fmap. destruct (Hno n r En) as (d0 & Hd0 & _); [done|].
    unfold zlen in Hd0. lia.
  - cbn [rbind]. eauto.
Qed.

Lemma find_disk_ok c k : rf_ok (c_rf c) -> exists r, find_disk c k (cdb_hash k) = Ret r /\ found c k r.
Proof.
  intros Hf. pose proof (df_small _ _ F) as Hs. pose proof (df_tables _ _ F) as H256. pose proof (tab_lt k) as Hk.
  destruct (lookup_lt_is_Some_2 ts (tab k)) as [t Et]; [lia|]. destruct (tpos_bound rs ts F _ _ Et) as [T1 T2].
  pose proof (zlen_nonneg (records rs)). pose proof (zlen_nonneg t). unfold eod in T1.
  unfold find_disk. rewrite Z.shiftl_mul_pow2, <- tab_land by lia. change (2 ^ 3) with 8. rewrite (Z.mul_comm _ 8).
  destruct (read_cell rs ts F (c_rf c) (8 * Z.of_nat (tab k)) (tpos rs ts (tab k)) (zlen t)) as (f1 & E1 & R1 & S1 & _);
    [done|apply cell_header|lia|lia|by apply slice_header|].
  rewrite E1. cbn [rbind]. assert (forall r, found (with_rf c f1) k r -> found c k r) as Hmono.
  { intros r (f' & R & Sm & Hc). exists f'. split; [done|]. split; [by etrans|done]. }
  destruct (Z.eqb_spec (zlen t) 0) as [E0|E0].
  - eexists. split; [done|]. exists f1. split; [done|]. split; [done|]. right. split; [|done].
    intros (r & -> & (n & En)%list_elem_of_lookup)%list_elem_of_fmap. destruct (df_complete _ _ F n r t En Et) as (d & Hd & _).
    unfold zlen in E0. lia.
  - assert (0 < length t)%nat as Hn by (unfold zlen in E0; lia).
    destruct (find_loop_ok (with_rf c f1) k t R1 Et Hn) as (r & Er & Hr). exists r. split; [|by auto]. rewrite <- Er. do 2 f_equal.
    pose proof (slot_of_lt (cdb_hash k) (length t) 0 Hn) as Hsl. unfold slot_pos, slot_of in *. rewrite Z.add_0_r in *.
    pose proof (Z.mod_pos_bound (Z.shiftr (cdb_hash k) 8) (Z.of_nat (length t)) ltac:(lia)). unfold zlen in *.
    rewrite Z.shiftl_mul_pow2 by lia. change (2 ^ 3) with 8. rewrite Z2Nat.id by lia.
    rewrite (uwrap_small 32 (_ * 8)), (uwrap_small 32) by lia. f_equal. lia.
Qed.
End find.
End RwcdbFind.
