(* ===== verification/RwcdbMem.v ===== *)
(** * Pending updates of the key-value store

    The entries that rwcdb.c (lib-src/rwcdb) keeps in memory until the next
    rwcdb_sync: 256 lists of added entries, a list of removed keys, and the
    numbering of the added entries that rwcdb_find, rwcdb_read and rwcdb_next use
    as positions behind the end of the data. *)
From Stdlib Require Import ZArith Lia.
From stdpp Require Import base list numbers.
From S2P Require Import Prelude.
From S2P Require Import Text.
From S2P Require Import PdbArray.
From S2P Require Import RwcdbFile.
From S2P Require Import Rwcdb.
From S2P Require Import RwcdbFormat.
From S2P Require Import RwcdbFind.
Import RwcdbFile Rwcdb RwcdbFormat RwcdbFind.

Module RwcdbMem.

(** ** Lists of lists *)
Lemma concat_split {A} (ll : list (list A)) i l : ll !! i = Some l ->
  concat ll = concat (take i ll) ++ l ++ concat (drop (S i) ll).
Proof. intros E. rewrite <- (take_drop_middle ll i l E) at 1. by rewrite concat_app. Qed.

Lemma concat_alter {A} (ll : list (list A)) i l l' : ll !! i = Some l ->
  concat (<[i := l']> ll) = concat (take i ll) ++ l' ++ concat (drop (S i) ll).
Proof.
  intros E. assert (i < length ll)%nat as Hi by (by eapply lookup_lt_Some).
  rewrite (concat_split (<[i := l']> ll) i l') by (by apply list_lookup_insert_eq).
  by rewrite take_insert_ge, drop_insert_lt by lia.
Qed.

Lemma elem_concat {A} (ll : list (list A)) (x : A) : x ∈ concat ll <-> exists i l, ll !! i = Some l /\ x ∈ l.
Proof.
  rewrite list_elem_of_In, in_concat. split.
  - intros (l & Hl & Hx). rewrite <- list_elem_of_In in Hl. rewrite <- list_elem_of_In in Hx. apply list_elem_of_lookup in Hl as [i Hi]. eauto.
  - intros (i & l & Hi & Hx). exists l. rewrite <- !list_elem_of_In. split; [by eapply list_elem_of_lookup_2|done].
Qed.

(** ** Entries *)
Record went (w : wrentry) : Prop := {
  we_hash : w_hash w = cdb_hash (wkey w);
  we_klen : w_klen w = zlen (wkey w);
  we_dlen : w_dlen w = zlen (wdata w)
}.

(** The number of the [n]-th entry of list [i]. *)
Definition flat {A} (ll : list (list A)) (i n : nat) : Z := zlen (concat (take i ll)) + Z.of_nat n.

Record mem_ok (hl : list Z) (rm : list wrentry) (ad : list (list wrentry)) : Prop := {
  mo_added : length ad = 256%nat;
  mo_hlens : hl = zlen <$> ad;
  mo_rm w : w ∈ rm -> went w /\ wdata w = [];
  mo_ad i l w : ad !! i = Some l -> w ∈ l -> went w /\ wdata w <> [] /\ tab (wkey w) = i;
  mo_keys : NoDup (wkey <$> rm ++ concat ad);
  mo_small : zlen (concat ad) < 2 ^ 31
}.
Abbreviation mem c := (mem_ok (c_hlens c) (c_removed c) (c_added c)).
Definition pkeys (c : rwcdb) : list (list Z) := wkey <$> c_removed c ++ concat (c_added c).

Lemma went_dlen w : went w -> w_dlen w = 0 <-> wdata w = [].
Proof. intros Hw. rewrite (we_dlen _ Hw). destruct (wdata w); [done|]. rewrite zlen_cons. pose proof (zlen_nonneg l). split; [lia|done]. Qed.

Lemma matches_went k w : went w -> matches (cdb_hash k) k w = bool_decide (wkey w = k).
Proof.
  intros Hw. unfold matches. rewrite (we_hash _ Hw), (we_klen _ Hw). case_bool_decide as E.
  - rewrite E. by rewrite !Z.eqb_refl.
  - by rewrite andb_false_r.
Qed.

Lemma find_entry_ok k l : (forall w, w ∈ l -> went w) ->
  match find_entry (cdb_hash k) k l with
  | Some n => exists w, l !! n = Some w /\ wkey w = k
  | None => k ∉ wkey <$> l
  end.
Proof.
  induction l as [|w l IH]; intros Hl; cbn [find_entry]; [apply not_elem_of_nil|].
  rewrite matches_went by (apply Hl; by left). case_bool_decide as E; [by exists w|].
  specialize (IH (fun x Hx => Hl x ltac:(by right))). destruct (find_entry _ _ l) as [n|].
  - destruct IH as (x & Hx & Ex). by exists x.
  - cbn. rewrite not_elem_of_cons. split; [congruence|done].
Qed.

Section mem.
Context `{Alloc, Disk, Rename}.

Lemma mem_hl c i l : mem c -> c_added c !! i = Some l -> aget (c_hlens c) (Z.of_nat i) = Ret (zlen l) /\ aget (c_added c) (Z.of_nat i) = Ret l.
Proof.
  intros Hm E. split; apply aget_ok; rewrite ?Nat2Z.id; try lia; [|done]. by rewrite (mo_hlens _ _ _ Hm), list_lookup_fmap, E.
Qed.
Lemma mem_list c i : mem c -> (i < 256)%nat -> exists l, c_added c !! i = Some l.
Proof. intros Hm Hi. apply lookup_lt_is_Some_2. rewrite (mo_added _ _ _ Hm). done. Qed.

Lemma flat_lt (c : rwcdb) i l n : c_added c !! i = Some l -> (n < length l)%nat -> 0 <= flat (c_added c) i n < zlen (concat (c_added c)).
Proof.
  intros E Hn. rewrite (concat_split _ _ _ E), !zlen_app. unfold flat.
  pose proof (zlen_nonneg (concat (take i (c_added c)))). pose proof (zlen_nonneg (concat (drop (S i) (c_added c)))). unfold zlen in *. lia.
Qed.

(** Adding up the lengths of the lists. *)
Lemma sum_hlens c i : mem c -> (i <= 256)%nat ->
  forZ 0 (Z.of_nat i) (fun j idx => let* n := aget (c_hlens c) j in Ret (u32 (idx + n))) 0 = Ret (zlen (concat (take i (c_added c)))).
Proof.
  intros Hm Hi. destruct (forZ_total (fun j idx => idx = zlen (concat (take (Z.to_nat j) (c_added c)))) 0 (Z.of_nat i)
    (fun j idx => let* n := aget (c_hlens c) j in Ret (u32 (idx + n))) 0) as (s & -> & ->); [lia|done| |by rewrite Nat2Z.id].
  intros j s Hj ->. destruct (mem_list c (Z.to_nat j) Hm ltac:(lia)) as (l & El). destruct (mem_hl c _ l Hm El) as [Eh _].
  rewrite Z2Nat.id in Eh by lia. rewrite Eh. cbn [rbind]. eexists. split; [done|]. replace (Z.to_nat (j + 1)) with (S (Z.to_nat j)) by lia.
  rewrite (take_S_r _ _ l) by done. rewrite concat_app, zlen_app. cbn [concat]. rewrite app_nil_r. apply uwrap_small.
  pose proof (mo_small _ _ _ Hm) as Hs. rewrite (concat_split _ _ _ El), !zlen_app in Hs.
  pose proof (zlen_nonneg (concat (take (Z.to_nat j) (c_added c)))). pose proof (zlen_nonneg l).
  pose proof (zlen_nonneg (concat (drop (S (Z.to_nat j)) (c_added c)))). lia.
Qed.

(** What is pending for a key. *)
Inductive pend (c : rwcdb) (k : list Z) : option (loc * Z) -> Prop :=
| pend_removed n w : c_removed c !! n = Some w -> wkey w = k -> pend c k (Some (Removed n, 0))
| pend_added n l w : c_added c !! tab k = Some l -> l !! n = Some w -> wkey w = k ->
    pend c k (Some (Added (Z.of_nat (tab k)) n, flat (c_added c) (tab k) n))
| pend_none : k ∉ pkeys c -> pend c k None.

Lemma ispending_ok c k : mem c -> exists p, ispending c k (cdb_hash k) = Ret p /\ pend c k p.
Proof.
  intros Hm. pose proof (find_entry_ok k (c_removed c) (fun w Hw => proj1 (mo_rm _ _ _ Hm w Hw))) as Hr. unfold ispending.
  destruct (find_entry (cdb_hash k) k (c_removed c)) as [n|].
  { destruct Hr as (w & Ew & Ek). eexists. split; [done|]. by econstructor. }
  destruct (mem_list c (tab k) Hm (tab_lt k)) as [l El]. destruct (mem_hl c _ l Hm El) as [Eh Ea].
  rewrite <- tab_land, Eh. cbn [rbind].
  assert (k ∉ wkey <$> l -> k ∉ pkeys c) as Hnone.
  { intros Hl. unfold pkeys. rewrite fmap_app, not_elem_of_app. split; [done|].
    intros (w & -> & (i & l' & Hi & Hw)%elem_concat)%list_elem_of_fmap. destruct (mo_ad _ _ _ Hm i l' w Hi Hw) as (_ & _ & Et).
    subst i. rewrite El in Hi. simplify_eq. apply Hl. by apply list_elem_of_fmap_2. }
  destruct (Z.eqb_spec (zlen l) 0) as [E0|E0].
  { eexists. split; [done|]. constructor. apply Hnone. destruct l; [apply not_elem_of_nil|]. rewrite zlen_cons in E0. pose proof (zlen_nonneg l). lia. }
  rewrite sum_hlens by (done || pose proof (tab_lt k); lia). cbn [rbind]. rewrite Ea. cbn [rbind].
  pose proof (find_entry_ok k l (fun w Hw => proj1 (mo_ad _ _ _ Hm (tab k) l w El Hw))) as Hf.
  destruct (find_entry (cdb_hash k) k l) as [n|]; cbn [fmap option_fmap option_map]; eexists; (split; [done|]).
  - destruct Hf as (w & Ew & Ek). assert (n < length l)%nat as Hn by (by eapply lookup_lt_Some).
    pose proof (flat_lt c _ _ _ El Hn). pose proof (mo_small _ _ _ Hm). fold (flat (c_added c) (tab k) n).
    rewrite (uwrap_small 32) by lia. by econstructor.
  - constructor. auto.
Qed.

Lemma fromhash_step c j l idx : mem c -> c_added c !! j = Some l ->
  let body := fun i index =>
       let* hl := aget (c_hlens c) i in
       if index >=? hl then Ret (inl (index - hl))
       else
         let* l := aget (c_added c) i in
         match l !! Z.to_nat index with
         | Some _ => Ret (inr (Added i (Z.to_nat index)))
         | None => Ret (inl (u32 (index - zlen l)))
         end in
  0 <= idx -> body (Z.of_nat j) idx = Ret (if decide (idx < zlen l) then inr (Added (Z.of_nat j) (Z.to_nat idx)) else inl (idx - zlen l)).
Proof.
  intros Hm El body Hidx. unfold body. destruct (mem_hl c j l Hm El) as [Eh Ea]. rewrite Eh. cbn [rbind].
  destruct (Z.geb_spec idx (zlen l)) as [Hge|Hlt]; [by rewrite decide_False by lia|]. rewrite Ea, decide_True by lia. cbn [rbind].
  destruct (lookup_lt_is_Some_2 l (Z.to_nat idx)) as [x ->]; [unfold zlen in Hlt; lia|done].
Qed.

Lemma fromhash_ok c i l n : mem c -> c_added c !! i = Some l -> (n < length l)%nat ->
  fromhash c (flat (c_added c) i n) = Ret (Some (Added (Z.of_nat i) n)).
Proof.
  intros Hm El Hn. assert (i < 256)%nat as Hi by (rewrite <- (mo_added _ _ _ Hm); by eapply lookup_lt_Some).
  unfold fromhash. set (body := fun i index => _).
  destruct (for_range_rule (fun j idx => (Z.to_nat j <= i)%nat /\ idx = flat (c_added c) i n - zlen (concat (take (Z.to_nat j) (c_added c))))
    (fun j r => r = Added (Z.of_nat i) n) 0 256 body (flat (c_added c) i n)) as [(s & -> & Hs & _)|(k & r & _ & -> & ->)].
  - lia.
  - split; [lia|]. change (concat (take (Z.to_nat 0) (c_added c))) with (@nil wrentry). rewrite (@zlen_nil wrentry). lia.
  - intros j idx Hj [Hji ->]. destruct (mem_list c (Z.to_nat j) Hm ltac:(lia)) as [l' El'].
    assert (flat (c_added c) i n - zlen (concat (take (Z.to_nat j) (c_added c))) =
      zlen (concat (drop (Z.to_nat j) (take i (c_added c)))) + Z.of_nat n) as Ef.
    { unfold flat. rewrite <- (take_drop (Z.to_nat j) (take i (c_added c))) at 1.
      rewrite concat_app, zlen_app, take_take, Nat.min_l by lia. lia. }
    pose proof (zlen_nonneg (concat (drop (Z.to_nat j) (take i (c_added c))))) as Hz.
    pose proof (fromhash_step c (Z.to_nat j) l' (flat (c_added c) i n - zlen (concat (take (Z.to_nat j) (c_added c)))) Hm El' ltac:(rewrite Ef; lia)) as Eb. cbv zeta in Eb. rewrite Z2Nat.id in Eb by lia.
    unfold body. rewrite Eb. destruct (decide (Z.to_nat j = i)) as [<-|Hne].
    + rewrite El in El'. simplify_eq. rewrite decide_True by (unfold flat, zlen in *; lia). right. eexists. split; [done|].
      rewrite Ef. rewrite drop_ge by (rewrite length_take; lia). f_equal; [lia|]. cbn [concat]. rewrite (@zlen_nil wrentry). lia.
    + assert (zlen l' <= zlen (concat (drop (Z.to_nat j) (take i (c_added c))))) as Hle.
      { rewrite (drop_S _ l') by (rewrite lookup_take_lt by lia; done). cbn [concat]. rewrite zlen_app.
        pose proof (zlen_nonneg (concat (drop (S (Z.to_nat j)) (take i (c_added c))))). lia. }
      rewrite decide_False by lia. left. eexists. split; [done|]. replace (Z.to_nat (j + 1)) with (S (Z.to_nat j)) by lia. split; [lia|].
      rewrite (take_S_r _ _ l') by done. rewrite concat_app, zlen_app. cbn [concat]. rewrite app_nil_r. lia.
  - change (Z.to_nat 256) with 256%nat in Hs. lia.
  - done.
Qed.

Lemma fromhash_end c : mem c -> fromhash c (zlen (concat (c_added c))) = Ret None.
Proof.
  intros Hm. unfold fromhash. set (body := fun i index => _).
  destruct (for_range_rule (fun j idx => idx = zlen (concat (drop (Z.to_nat j) (c_added c))))
    (fun j (r : loc) => False) 0 256 body (zlen (concat (c_added c)))) as [(s & -> & _)|(k & r & _ & _ & [])]; [lia|done| |done].
  intros j idx Hj ->. destruct (mem_list c (Z.to_nat j) Hm ltac:(lia)) as [l El].
  pose proof (fromhash_step c (Z.to_nat j) l (zlen (concat (drop (Z.to_nat j) (c_added c)))) Hm El (zlen_nonneg _)) as Eb. cbv zeta in Eb. rewrite Z2Nat.id in Eb by lia.
  unfold body. rewrite Eb. left. rewrite (drop_S _ l) by done. cbn [concat]. rewrite zlen_app.
  pose proof (zlen_nonneg (concat (drop (S (Z.to_nat j)) (c_added c)))). rewrite decide_False by lia.
  eexists. split; [done|]. replace (Z.to_nat (j + 1)) with (S (Z.to_nat j)) by lia. lia.
Qed.

Lemma entry_added c i l n w : c_added c !! i = Some l -> l !! n = Some w -> entry_at c (Added (Z.of_nat i) n) = Ret w.
Proof. intros El Ew. cbn [entry_at]. rewrite (aget_ok _ _ l); [|lia|by rewrite Nat2Z.id]. cbn [rbind]. by rewrite Ew. Qed.
Lemma entry_removed c n w : c_removed c !! n = Some w -> entry_at c (Removed n) = Ret w.
Proof. intros Ew. cbn [entry_at]. by rewrite Ew. Qed.
End mem.
End RwcdbMem.
