(* ===== verification/RwcdbOps.v ===== *)
(** * Operations of the key-value store

    The database (file and pending updates) holds a finite map; rwcdb_find,
    rwcdb_read, rwcdb_readkey, rwcdb_insert and rwcdb_delete of
    lib-src/rwcdb/rwcdb.c are lookup, insertion and deletion of that map. *)
From Stdlib Require Import ZArith Lia.
From stdpp Require Import base list numbers gmap.
From S2P Require Import Prelude.
From S2P Require Import Text.
From S2P Require Import PdbArray.
From S2P Require Import RwcdbFile.
From S2P Require Import Rwcdb.
From S2P Require Import RwcdbFormat.
From S2P Require Import RwcdbFind.
From S2P Require Import RwcdbMem.
Import RwcdbFile Rwcdb RwcdbFormat RwcdbFind RwcdbMem.

Module RwcdbOps.

Abbreviation dbmap := (gmap (list Z) (list Z)).

(** ** Size *)

(** What a record takes in the file: its two words, its key and data, and two
    slots of a hash table. *)
Definition cost (r : rec) : Z := 24 + rsize r.
Definition weights (l : list rec) : Z := foldr Z.add 0 (cost <$> l).
Definition weight (M : dbmap) : Z := weights (map_to_list M).

(** The map fits into a file and no key has the hash 0, which write_hashchains
    takes for an empty slot. *)
Definition storable (M : dbmap) : Prop :=
  2048 + weight M < 2 ^ 31 /\ forall k, is_Some (M !! k) -> cdb_hash k <> 0.

#[export] Instance weights_proper : Proper ((≡ₚ) ==> (=)) weights.
Proof. intros l l' Hp. unfold weights. induction Hp; cbn in *; lia. Qed.

Lemma weights_length l : 24 * zlen l <= weights l.
Proof.
  unfold weights. induction l as [|r l IH]; [done|]. rewrite zlen_cons. cbn [fmap list_fmap foldr]. pose proof (rsize_nonneg r).
  unfold cost at 1. cbn in IH. lia.
Qed.

Lemma weight_delete M k : weight (delete k M) <= weight M.
Proof.
  unfold weight. destruct (M !! k) as [d|] eqn:E; [|by rewrite delete_id].
  rewrite <- (map_to_list_delete _ _ _ E). unfold weights. cbn [fmap list_fmap foldr]. pose proof (rsize_nonneg (k, d)).
  unfold cost at 2. cbn. lia.
Qed.

Lemma storable_delete M k : storable M -> storable (delete k M).
Proof.
  intros [Hw Hh]. split; [pose proof (weight_delete M k); lia|]. intros k' [d Hd]. apply lookup_delete_Some in Hd as [_ Hd]. apply Hh. eauto.
Qed.

(** ** Contents *)
Record reps (rs : list rec) (rm : list wrentry) (ad : list (list wrentry)) (M : dbmap) : Prop := {
  rp_added w : w ∈ concat ad -> M !! wkey w = Some (wdata w);
  rp_removed w : w ∈ rm -> M !! wkey w = None;
  rp_disk k : k ∉ wkey <$> rm ++ concat ad -> M !! k = (list_to_map rs : dbmap) !! k
}.

Lemma added_small ad M : NoDup (wkey <$> concat ad) -> (forall w, w ∈ concat ad -> is_Some (M !! wkey w)) -> storable M ->
  zlen (concat ad) < 2 ^ 31.
Proof.
  intros Hn Hin [Hw _]. assert (length (wkey <$> concat ad) <= length (map_to_list M).*1)%nat as Hle.
  { apply submseteq_length, NoDup_submseteq; [done|]. intros k (w & -> & Hk)%list_elem_of_fmap. destruct (Hin w Hk) as [d Hd].
    apply list_elem_of_fmap. exists (wkey w, d). split; [done|]. by apply elem_of_map_to_list. }
  rewrite !length_fmap in Hle. pose proof (weights_length (map_to_list M)). unfold weight, zlen in *. lia.
Qed.

(** ** The open database *)

(** The new file right after it has been created. *)
Record fresh (f : db_file) : Prop := {
  fr_open : f_open f = true;
  fr_data : f_data f = [];
  fr_pending : f_pending f = 0;
  fr_cache : f_cache_len f = 0
}.

Record open_ok (c : rwcdb) (rs : list rec) (ts : list table) : Prop := {
  oo_format : db_format rs ts;
  oo_rf : rf_ok rs ts (c_rf c);
  oo_mem : mem c;
  oo_rw : c_readonly c = false;
  oo_db : fs_db (c_fs c) = Some (f_ino (c_rf c), file_of rs ts);
  oo_ino : f_ino (c_rf c) < fs_ino (c_fs c);
  oo_wf : (f_open (c_wf c) = false /\ fs_tmp (c_fs c) = false /\ c_removed c = [] /\ concat (c_added c) = []) \/
          (fresh (c_wf c) /\ fs_tmp (c_fs c) = true /\ f_ino (c_rf c) < f_ino (c_wf c) < fs_ino (c_fs c))
}.

(** The database [c] is open for writing and holds the map [M]. *)
Definition rep (c : rwcdb) (M : dbmap) : Prop :=
  exists rs ts, open_ok c rs ts /\ reps rs (c_removed c) (c_added c) M /\ storable M.

Section moved.
Context (rs : list rec) (ts : list table).

(** Reading the file and moving on leaves the lists, the new file and the directory. *)
Record moved (c c' : rwcdb) : Prop := {
  mv_rf : rf_ok rs ts (c_rf c');
  mv_same : same_file (c_rf c) (c_rf c');
  mv_wf : c_wf c' = c_wf c;
  mv_ro : c_readonly c' = c_readonly c;
  mv_hl : c_hlens c' = c_hlens c;
  mv_rm : c_removed c' = c_removed c;
  mv_ad : c_added c' = c_added c;
  mv_fs : c_fs c' = c_fs c
}.

Lemma moved_refl c : rf_ok rs ts (c_rf c) -> moved c c.
Proof. by split. Qed.
Lemma moved_trans c c' c'' : moved c c' -> moved c' c'' -> moved c c''.
Proof. intros [A1 A2 A3 A4 A5 A6 A7 A8] [B1 B2 B3 B4 B5 B6 B7 B8]. split; try congruence. by etrans. Qed.

Lemma moved_mem c c' : moved c c' -> mem c -> mem c'.
Proof. intros [_ _ _ _ E1 E2 E3 _] Hm. by rewrite E1, E2, E3. Qed.
Lemma moved_pkeys c c' : moved c c' -> pkeys c' = pkeys c.
Proof. intros [_ _ _ _ _ E2 E3 _]. unfold pkeys. by rewrite E2, E3. Qed.

Lemma moved_open c c' : open_ok c rs ts -> moved c c' -> open_ok c' rs ts.
Proof.
  intros [O1 O2 O3 O4 O5 O6 O7] [V1 (_ & _ & _ & Ei) V3 V4 V5 V6 V7 V8].
  split; rewrite ?V3, ?V4, ?V5, ?V6, ?V7, ?V8, ?Ei; done.
Qed.
End moved.

Section ops.
Context `{AllocOk, DiskOk, Rename}.

(** ** Lookup *)

(** What the position left by [rwcdb_find] and [rwcdb_next] stands for. *)
Inductive at_pos (rs : list rec) (c : rwcdb) (k d : list Z) : Prop :=
| at_disk n : rs !! n = Some (k, d) -> c_dpos c = rpos rs n + 8 + zlen k -> at_pos rs c k d
| at_mem i l n w : c_added c !! i = Some l -> l !! n = Some w -> wkey w = k -> wdata w = d ->
    c_dpos c = eod rs + flat (c_added c) i n -> at_pos rs c k d.

Lemma eod_small rs ts : db_format rs ts -> 2048 <= eod rs < 2 ^ 31.
Proof.
  intros F. pose proof (df_small _ _ F) as Hs. rewrite (zlen_file _ _ F) in Hs. pose proof (zlen_nonneg (tables ts)).
  pose proof (zlen_nonneg (records rs)). unfold eod in *. lia.
Qed.

(** Reading the data at that position. *)
Lemma rwcdb_read_ok c rs ts k d : db_format rs ts -> rf_ok rs ts (c_rf c) -> mem c -> at_pos rs c k d ->
  exists f', rwcdb_read c (zlen d) (c_dpos c) = Ret (with_rf c f', (0, d)) /\ rf_ok rs ts f' /\ same_file (c_rf c) f'.
Proof.
  intros F Hf Hm Hat. unfold rwcdb_read. rewrite (rf_eod _ _ _ Hf). pose proof (eod_small _ _ F).
  destruct Hat as [n En ->|i l n w El En Ek Ed ->].
  - destruct (rsize_small rs ts F n _ En) as (B1 & B2 & B3 & B4 & B5). cbn [fst snd] in *. pose proof (rpos_eod _ _ _ En).
    unfold rsize in *. cbn [fst snd] in *. destruct (Z.ltb_spec (rpos rs n + 8 + zlen k) (eod rs)); [|lia].
    destruct (read_part rs ts F (c_rf c) n (k, d) (zlen k) (zlen d)) as (f' & -> & R & Sm & _); [done|done|unfold rsize; cbn [fst snd]; lia|lia|lia|done|].
    cbn [rbind fst snd]. exists f'. split; [|done]. do 3 f_equal. rewrite <- (app_nil_r d) at 1. by apply slice_mid.
  - assert (n < length l)%nat as Hn by (by eapply lookup_lt_Some). pose proof (flat_lt c _ _ _ El Hn). pose proof (mo_small _ _ _ Hm).
    destruct (Z.ltb_spec (eod rs + flat (c_added c) i n) (eod rs)); [lia|]. rewrite (uwrap_small 32) by lia.
    replace (eod rs + flat (c_added c) i n - eod rs) with (flat (c_added c) i n) by lia.
    rewrite (fromhash_ok c i l n) by done. cbn [rbind]. rewrite (entry_added c i l n w) by done. cbn [rbind].
    destruct (mo_ad _ _ _ Hm i l w El) as (Hw & Hd & _); [by eapply list_elem_of_lookup_2|].
    rewrite (we_dlen _ Hw), Ed. destruct (Z.gtb_spec (zlen d) (zlen d)); [lia|]. exists (c_rf c). split; [|done].
    unfold zlen. rewrite Nat2Z.id, take_ge by done. by destruct c.
Qed.

Lemma rwcdb_readkey_ok c rs ts k d : db_format rs ts -> rf_ok rs ts (c_rf c) -> mem c -> at_pos rs c k d ->
  exists f', rwcdb_readkey c (zlen k) (c_dpos c) = Ret (with_rf c f', (0, k)) /\ rf_ok rs ts f' /\ same_file (c_rf c) f'.
Proof.
  intros F Hf Hm Hat. unfold rwcdb_readkey. rewrite (rf_eod _ _ _ Hf). pose proof (eod_small _ _ F).
  destruct Hat as [n En ->|i l n w El En Ek Ed ->].
  - destruct (rsize_small rs ts F n _ En) as (B1 & B2 & B3 & B4 & B5). cbn [fst snd] in *. pose proof (rpos_eod _ _ _ En). pose proof (rpos_ge rs n).
    unfold rsize in *. cbn [fst snd] in *. destruct (Z.ltb_spec (rpos rs n + 8 + zlen k) (eod rs)); [|lia].
    rewrite (uwrap_small 32) by lia. replace (rpos rs n + 8 + zlen k - zlen k) with (rpos rs n + 8 + 0) by lia.
    destruct (read_part rs ts F (c_rf c) n (k, d) 0 (zlen k)) as (f' & -> & R & Sm & _); [done|done|unfold rsize; cbn [fst snd]; lia|lia|lia|unfold rsize; cbn [fst snd]; lia|].
    cbn [rbind fst snd]. exists f'. split; [|done]. do 3 f_equal. rewrite Z.add_0_l. apply (slice_mid [] k d); [done|]. by rewrite (@zlen_nil Z).
  - assert (n < length l)%nat as Hn by (by eapply lookup_lt_Some). pose proof (flat_lt c _ _ _ El Hn). pose proof (mo_small _ _ _ Hm).
    destruct (Z.ltb_spec (eod rs + flat (c_added c) i n) (eod rs)); [lia|]. rewrite (uwrap_small 32) by lia.
    replace (eod rs + flat (c_added c) i n - eod rs) with (flat (c_added c) i n) by lia.
    rewrite (fromhash_ok c i l n) by done. cbn [rbind]. rewrite (entry_added c i l n w) by done. cbn [rbind].
    destruct (mo_ad _ _ _ Hm i l w El) as (Hw & Hd & _); [by eapply list_elem_of_lookup_2|].
    rewrite (we_klen _ Hw), Ek, Z.eqb_refl. exists (c_rf c). split; [|done]. by destruct c.
Qed.

Lemma disk_lookup rs k n r : NoDup rs.*1 -> rs !! n = Some r -> r.1 = k -> (list_to_map rs : dbmap) !! k = Some r.2.
Proof. intros Hn E <-. apply elem_of_list_to_map_1; [done|]. rewrite <- surjective_pairing. by eapply list_elem_of_lookup_2. Qed.

(** [rwcdb_find], with what it leaves behind. *)
Lemma rwcdb_find_ok c rs ts M k : db_format rs ts -> rf_ok rs ts (c_rf c) -> mem c -> reps rs (c_removed c) (c_added c) M ->
  exists c' rc, rwcdb_find c k = Ret (c', rc) /\ moved rs ts c c' /\
    match M !! k with
    | Some d => rc = 1 /\ c_klen c' = zlen k /\ c_dlen c' = zlen d /\ at_pos rs c' k d
    | None => rc = 0
    end.
Proof.
  intros F Hf Hm HR. unfold rwcdb_find. destruct (ispending_ok c k Hm) as (p & -> & Hp). cbn [rbind].
  destruct Hp as [n w Ew Ek|n l w El Ew Ek|Hnone].
  - rewrite (entry_removed c n w) by done. cbn [rbind]. assert (w ∈ c_removed c) as Hin by (by eapply list_elem_of_lookup_2).
    destruct (mo_rm _ _ _ Hm w Hin) as [Hw Hd]. rewrite (we_dlen _ Hw), Hd. exists c, 0. pose proof (rp_removed _ _ _ _ HR w Hin) as E.
    rewrite Ek in E. rewrite E. auto using moved_refl.
  - assert (n < length l)%nat as Hn by (by eapply lookup_lt_Some). pose proof (flat_lt c _ _ _ El Hn). pose proof (mo_small _ _ _ Hm).
    pose proof (eod_small _ _ F). rewrite (entry_added c (tab k) l n w) by done. cbn [rbind].
    destruct (mo_ad _ _ _ Hm _ l w El) as (Hw & Hd & _); [by eapply list_elem_of_lookup_2|].
    destruct (Z.eqb_spec (w_dlen w) 0) as [E0|E0]; [by apply went_dlen in E0|]. eexists _, 1. split; [done|].
    rewrite (rf_eod _ _ _ Hf), (uwrap_small 32) by lia.
    assert (M !! k = Some (wdata w)) as ->.
    { rewrite <- Ek. apply (rp_added _ _ _ _ HR). apply elem_concat. exists (tab k), l. split; [done|by eapply list_elem_of_lookup_2]. }
    split; [by split|]. split; [done|]. rewrite (we_klen _ Hw), (we_dlen _ Hw), Ek.
    do 2 (split; [done|]). by eapply at_mem.
  - destruct (find_disk_ok rs ts F c k Hf) as ([c' rc] & -> & f' & R & Sm & Hc). exists c', rc. split; [done|].
    rewrite (rp_disk _ _ _ _ HR k Hnone). destruct Hc as [(n & r & En & Ek & [= -> ->])|[Hno [= -> ->]]].
    + rewrite (disk_lookup rs k n r (df_keys _ _ F) En Ek). split; [by split|]. split; [done|].
      do 2 (split; [done|]). apply (at_disk _ _ _ _ n); [|done]. rewrite En. destruct r; cbn in *. by subst.
    + rewrite not_elem_of_list_to_map_1 by done. split; [by split|done].
Qed.

(** ** Insertion *)

Lemma delete_middle {A} (l : list A) n x : l !! n = Some x -> l ≡ₚ x :: delete n l.
Proof. intros E. rewrite <- (take_drop_middle l n x E) at 1. rewrite delete_take_drop. by rewrite Permutation_middle. Qed.

Lemma perm_alter (ad : list (list wrentry)) i l l' w : ad !! i = Some l -> l ≡ₚ w :: l' ->
  concat ad ≡ₚ w :: concat (<[i := l']> ad).
Proof.
  intros E Hp. rewrite (concat_split _ _ _ E), (concat_alter _ _ _ l' E), Hp. cbn [app]. by rewrite <- Permutation_middle.
Qed.

(** The lists of [c] without the entry for [k], and the length of its list updated. *)
Definition without (c : rwcdb) (k : list Z) (c1 : rwcdb) : Prop :=
  c1 = with_lists c (c_hlens c1) (c_removed c1) (c_added c1) /\ mem c1 /\ k ∉ pkeys c1 /\
  (forall w, w ∈ c_removed c <-> w ∈ c_removed c1 \/ (w ∈ c_removed c /\ wkey w = k)) /\
  (forall w, w ∈ concat (c_added c) <-> w ∈ concat (c_added c1) \/ (w ∈ concat (c_added c) /\ wkey w = k)).

Lemma nodup_perm_cons rm ad rm1 ad1 w : NoDup (wkey <$> rm ++ concat ad) -> rm ++ concat ad ≡ₚ w :: rm1 ++ concat ad1 ->
  NoDup (wkey <$> rm1 ++ concat ad1) /\ wkey w ∉ wkey <$> rm1 ++ concat ad1.
Proof. intros Hn Hp. rewrite Hp in Hn. rewrite fmap_cons in Hn. apply NoDup_cons in Hn. tauto. Qed.

Lemma drop_old_ok c k p : mem c -> pend c k p ->
  exists c1, (match p with
              | None => Ret c
              | Some (p, _) =>
                  let* o := entry_at c p in
                  let* hl := (if negb (w_dlen o =? 0) then
                                let* n := aget (c_hlens c) (Z.land (cdb_hash k) 255) in aset (c_hlens c) (Z.land (cdb_hash k) 255) (u32 (n - 1))
                              else Ret (c_hlens c)) in
                  free_wrentry (with_lists c hl (c_removed c) (c_added c)) p
              end) = Ret c1 /\ without c k c1.
Proof.
  intros Hm Hp. pose proof Hm as [M1 M2 M3 M4 M5 M6]. destruct Hp as [n w Ew Ek|n l w El Ew Ek|Hnone].
  - rewrite (entry_removed c n w) by done. cbn [rbind]. destruct (M3 w) as [Hw Hd]; [by eapply list_elem_of_lookup_2|].
    rewrite (we_dlen _ Hw), Hd. cbn [zlen length Z.of_nat Z.eqb negb rbind free_wrentry with_lists c_hlens c_removed c_added].
    eexists. split; [done|]. pose proof (delete_middle _ _ _ Ew) as Hp.
    destruct (nodup_perm_cons _ _ (delete n (c_removed c)) (c_added c) w M5) as [N1 N2]; [by rewrite Hp at 1|].
    split; [done|]. rewrite Ek in N2. split; [|split; [done|]].
    + split; cbn; try done. intros x Hx. apply M3. rewrite Hp. by right.
    + cbn. split; intros x; [|tauto]. rewrite Hp at 1. rewrite elem_of_cons. split.
      * intros [->|Hx]; [|by left]. right. split; [|done]. rewrite Hp. by left.
      * intros [Hx|[Hx _]]; [by right|]. by rewrite Hp, elem_of_cons in Hx.
  - rewrite (entry_added c (tab k) l n w) by done. cbn [rbind]. destruct (M4 _ l w El) as (Hw & Hd & _); [by eapply list_elem_of_lookup_2|].
    destruct (Z.eqb_spec (w_dlen w) 0) as [E0|E0]; [by apply went_dlen in E0|]. cbn [negb]. destruct (mem_hl c _ l Hm El) as [Eh Ea].
    pose proof (lookup_lt_Some _ _ _ Ew) as Hlt. pose proof (lookup_lt_Some _ _ _ El) as Hlt'.
    rewrite <- tab_land, Eh. cbn [rbind]. rewrite aset_ok by (rewrite M2; unfold zlen; rewrite length_fmap; lia). cbn [rbind free_wrentry with_lists c_hlens c_removed c_added].
    rewrite Ea. cbn [rbind]. rewrite aset_ok by (unfold zlen; lia). cbn [rbind]. rewrite !Nat2Z.id.
    eexists. split; [done|]. pose proof (delete_middle _ _ _ Ew) as Hp. pose proof (perm_alter _ _ _ (delete n l) w El Hp) as Hc.
    destruct (nodup_perm_cons _ _ (c_removed c) (<[tab k := delete n l]> (c_added c)) w M5) as [N1 N2].
    { rewrite Hc. by rewrite <- Permutation_middle. }
    split; [done|]. rewrite Ek in N2. split; [|split; [done|]].
    + assert (zlen (delete n l) = zlen l - 1) as Ez.
      { apply Permutation_length in Hp. cbn [length] in Hp. unfold zlen. lia. }
      split; cbn; [by rewrite length_insert| |done| |done|].
      * rewrite list_fmap_insert, <- M2, Ez. f_equal. apply uwrap_small. pose proof (zlen_nonneg (delete n l)).
        pose proof (flat_lt c _ _ _ El Hlt). rewrite (concat_split _ _ _ El), !zlen_app in M6.
        pose proof (zlen_nonneg (concat (take (tab k) (c_added c)))). pose proof (zlen_nonneg (concat (drop (S (tab k)) (c_added c)))). lia.
      * intros i l' x Hi Hx. apply list_lookup_insert_Some in Hi as [(<- & <- & _)|[_ Hi]]; [|by eapply M4].
        apply (M4 _ l); [done|]. rewrite Hp. by right.
      * apply Permutation_length in Hc. cbn [length] in Hc. unfold zlen in *. lia.
    + cbn. split; intros x; [tauto|]. rewrite Hc at 1. rewrite elem_of_cons. split.
      * intros [->|Hx]; [|by left]. right. split; [|done]. rewrite Hc. by left.
      * intros [Hx|[Hx _]]; [by right|]. by rewrite Hc, elem_of_cons in Hx.
  - exists c. split; [done|]. split; [by destruct c|]. split; [done|]. split; [done|]. split; intros x; tauto.
Qed.

(** The entry [rwcdb_insert] makes. *)
Definition entry_for (k d : list Z) : wrentry :=
  {| w_hash := cdb_hash k; w_pos := junk; w_klen := zlen k; w_dlen := zlen d; w_kd := k ++ d |}.
Lemma entry_for_ok k d : went (entry_for k d) /\ wkey (entry_for k d) = k /\ wdata (entry_for k d) = d.
Proof.
  assert (wkey (entry_for k d) = k /\ wdata (entry_for k d) = d) as [Ek Ed].
  { unfold wkey, wdata, entry_for, zlen. cbn [w_klen w_kd]. by rewrite Nat2Z.id, take_app_length, drop_app_length. }
  split; [|done]. split; rewrite ?Ek, ?Ed; done.
Qed.

(** What the map becomes: data of length 0 stands for no entry. *)
Definition put (k d : list Z) (M : dbmap) : dbmap := match d with [] => delete k M | _ => <[k := d]> M end.

Lemma without_reps c k c1 rs M : without c k c1 -> reps rs (c_removed c) (c_added c) M ->
  (forall w, w ∈ concat (c_added c1) -> wkey w <> k /\ M !! wkey w = Some (wdata w)) /\
  (forall w, w ∈ c_removed c1 -> wkey w <> k /\ M !! wkey w = None) /\
  (forall k', k' ∉ pkeys c1 -> k' <> k -> M !! k' = (list_to_map rs : dbmap) !! k').
Proof.
  intros (_ & _ & Hk & Hr & Ha) [R1 R2 R3]. unfold pkeys in Hk. rewrite fmap_app, not_elem_of_app in Hk. destruct Hk as [Hk1 Hk2].
  split; [|split].
  - intros w Hw. split; [intros <-; apply Hk2; by apply list_elem_of_fmap_2|]. apply R1, Ha. by left.
  - intros w Hw. split; [intros <-; apply Hk1; by apply list_elem_of_fmap_2|]. apply R2, Hr. by left.
  - intros k' Hk' Hne. apply R3. unfold pkeys in Hk'. rewrite fmap_app, not_elem_of_app in Hk' |- *.
    destruct Hk' as [H1' H2']. split; intros (w & -> & Hw)%list_elem_of_fmap.
    + apply Hr in Hw as [Hw|[_ Hw]]; [|done]. apply H1'. by apply list_elem_of_fmap_2.
    + apply Ha in Hw as [Hw|[_ Hw]]; [|done]. apply H2'. by apply list_elem_of_fmap_2.
Qed.

(** The map after the entry for [k] has been exchanged. *)
Lemma exchange_reps c k d c1 rs M rm ad : without c k c1 -> reps rs (c_removed c) (c_added c) M ->
  (forall w, w ∈ concat ad <-> w ∈ concat (c_added c1) \/ (w = entry_for k d /\ d <> [])) ->
  (forall w, w ∈ rm <-> w ∈ c_removed c1 \/ (w = entry_for k d /\ d = [])) ->
  reps rs rm ad (put k d M).
Proof.
  intros Hwo HR Ha Hr. destruct (without_reps _ _ _ _ _ Hwo HR) as (W1 & W2 & W3). destruct (entry_for_ok k d) as (_ & Ek & Ed).
  assert (forall k', k' <> k -> put k d M !! k' = M !! k') as Hput.
  { intros k' Hne. unfold put. destruct d; [by apply lookup_delete_ne|by apply lookup_insert_ne]. }
  split.
  - intros w [Hw|[-> Hd]]%Ha; [destruct (W1 w Hw); by rewrite Hput|]. rewrite Ek, Ed. unfold put. destruct d; [done|apply lookup_insert_eq].
  - intros w [Hw|[-> ->]]%Hr; [destruct (W2 w Hw); by rewrite Hput|]. rewrite Ek. apply lookup_delete_eq.
  - intros k' Hk'. rewrite fmap_app, not_elem_of_app in Hk'. destruct Hk' as [K1 K2].
    assert (k' <> k) as Hne.
    { intros ->. destruct d as [|x d]; [apply K1|apply K2]; apply list_elem_of_fmap; eexists; (split; [symmetry; exact Ek|]); [apply Hr|apply Ha]; by right. }
    rewrite Hput by done. apply W3; [|done]. unfold pkeys. rewrite fmap_app, not_elem_of_app.
    split; intros (w & -> & Hw)%list_elem_of_fmap; [apply K1|apply K2]; apply list_elem_of_fmap_2; [apply Hr|apply Ha]; by left.
Qed.

(** [owrite] makes the new file when there is none yet. *)
Lemma owrite_ok c rs ts : open_ok c rs ts ->
  exists c0, (if c_readonly c then Ret (c, 0) else owrite c) = Ret (c0, 0) /\ open_ok c0 rs ts /\ f_open (c_wf c0) = true /\
    c_removed c0 = c_removed c /\ c_added c0 = c_added c /\ c_hlens c0 = c_hlens c.
Proof.
  intros HO. pose proof HO as [O1 O2 O3 O4 O5 O6 O7]. unfold owrite. rewrite O4. destruct O7 as [(W1 & W2 & _)|(W1 & W2 & W3)].
  - rewrite W1, W2. unfold db_file_open. change (u32 (zlen [])) with 0. cbn [f_len Z.eqb negb rbind].
    eexists. split; [done|]. split; [|done]. split; cbn; try done; [lia|]. right. split; [by split|]. split; [done|lia].
  - rewrite (fr_open _ W1). exists c. by auto 10 using fr_open.
Qed.

Lemma add_entry_ok c1 rs ts k d M' : open_ok c1 rs ts -> k ∉ pkeys c1 -> storable M' ->
  f_open (c_wf c1) = true ->
  (forall w, w ∈ concat (c_added c1) -> is_Some (M' !! wkey w)) -> (d <> [] -> is_Some (M' !! k)) ->
  exists c2, (if negb (zlen d =? 0) then
                let* l := aget (c_added c1) (Z.land (cdb_hash k) 255) in
                let* ad := aset (c_added c1) (Z.land (cdb_hash k) 255) (l ++ [entry_for k d]) in
                let* n := aget (c_hlens c1) (Z.land (cdb_hash k) 255) in
                let* hl := aset (c_hlens c1) (Z.land (cdb_hash k) 255) (u32 (n + 1)) in
                Ret (with_lists c1 hl (c_removed c1) ad, 1)
              else Ret (with_lists c1 (c_hlens c1) (c_removed c1 ++ [entry_for k d]) (c_added c1), 1)) = Ret (c2, 1) /\
    open_ok c2 rs ts /\
    (forall w, w ∈ concat (c_added c2) <-> w ∈ concat (c_added c1) \/ (w = entry_for k d /\ d <> [])) /\
    (forall w, w ∈ c_removed c2 <-> w ∈ c_removed c1 \/ (w = entry_for k d /\ d = [])).
Proof.
  intros HO Hk Hst Ho Hin Hd. pose proof HO as [O1 O2 Hm O4 O5 O6 [(O7 & _)|O7]]; [congruence|]. pose proof Hm as [M1 M2 M3 M4 M5 M6].
  destruct (entry_for_ok k d) as (Hw & Ek & Ed). destruct (Z.eqb_spec (zlen d) 0) as [E0|E0]; cbn [negb].
  - assert (d = []) as -> by (destruct d; [done|rewrite zlen_cons in E0; pose proof (zlen_nonneg d); lia]). eexists. split; [done|]. cbn.
    split; [|split; intros w; [tauto|rewrite elem_of_app, list_elem_of_singleton; tauto]]. split; cbn; auto. split; try done.
    + intros w. rewrite elem_of_app, list_elem_of_singleton. intros [Hx| ->]; [by apply M3|done].
    + rewrite <- app_assoc. cbn [app]. rewrite <- Permutation_middle. rewrite fmap_cons, Ek. by constructor.
  - destruct (mem_list c1 (tab k) Hm (tab_lt k)) as [l El]. destruct (mem_hl c1 _ l Hm El) as [Eh Ea].
    pose proof (lookup_lt_Some _ _ _ El) as Hlt. rewrite <- tab_land, Ea. cbn [rbind].
    rewrite aset_ok by (unfold zlen; lia). cbn [rbind]. rewrite Eh. cbn [rbind].
    rewrite aset_ok by (rewrite M2; unfold zlen; rewrite length_fmap; lia). cbn [rbind]. rewrite !Nat2Z.id. eexists. split; [done|]. cbn [with_lists c_added c_removed].
    assert (d <> []) as Hd0 by (by intros ->).
    assert (concat (<[tab k := l ++ [entry_for k d]]> (c_added c1)) ≡ₚ entry_for k d :: concat (c_added c1)) as Hp.
    { rewrite (concat_alter _ _ l) by done. rewrite (concat_split _ _ _ El), <- app_assoc. cbn [app].
      rewrite (app_assoc _ l), <- Permutation_middle, <- app_assoc. done. }
    assert (NoDup (wkey <$> c_removed c1 ++ concat (<[tab k:=l ++ [entry_for k d]]> (c_added c1)))) as Hn.
    { rewrite Hp, <- Permutation_middle, fmap_cons, Ek. by constructor. }
    split; [|split; intros w; [rewrite Hp, elem_of_cons; tauto|tauto]]. split; cbn; auto. split; try done; cbn [with_lists c_added c_removed c_hlens].
    + by rewrite length_insert.
    + rewrite list_fmap_insert, <- M2. f_equal. rewrite zlen_app, zlen_cons, zlen_nil, Z.add_0_r. apply uwrap_small. rewrite (concat_split _ _ _ El), !zlen_app in M6.
      pose proof (zlen_nonneg l). pose proof (zlen_nonneg (concat (take (tab k) (c_added c1)))).
      pose proof (zlen_nonneg (concat (drop (S (tab k)) (c_added c1)))). lia.
    + intros i l' x Hi Hx. apply list_lookup_insert_Some in Hi as [(<- & <- & _)|[_ Hi]]; [|by eapply M4].
      apply elem_of_app in Hx as [Hx|Hx%list_elem_of_singleton]; [by eapply M4|]. subst x. rewrite Ek, Ed. done.
    + apply (added_small _ M'); [|intros w|done].
      * rewrite fmap_app in Hn. by apply NoDup_app in Hn as (_ & _ & Hn).
      * rewrite Hp, elem_of_cons. intros [->|Hw']; [rewrite Ek; auto|auto].
Qed.

Lemma rwcdb_insert_ok c M k d : rep c M -> storable (put k d M) ->
  exists c', rwcdb_insert c k d = Ret (c', 1) /\ rep c' (put k d M).
Proof.
  intros (rs & ts & HO & HR & _) Hst. unfold rwcdb_insert. destruct (owrite_ok c rs ts HO) as (c0 & -> & HO0 & Ho & E1 & E2 & E3).
  cbn [rbind Z.eqb]. unfold alloc_wrentry. pose proof (zlen_nonneg k). pose proof (zlen_nonneg d). rewrite alloc_ok by lia.
  fold (entry_for k d). destruct (ispending_ok c0 k (oo_mem _ _ _ HO0)) as (p & -> & Hp). cbn [rbind].
  destruct (drop_old_ok c0 k p (oo_mem _ _ _ HO0) Hp) as (c1 & Ec1 & Hwo).
  rewrite <- E1, <- E2 in HR. rewrite Ec1. cbn [rbind]. destruct (without_reps _ _ _ _ _ Hwo HR) as (W1 & W2 & W3).
  pose proof Hwo as (Eq & Hm1 & Hk1 & _). assert (open_ok c1 rs ts) as HO1.
  { destruct HO0 as [O1 O2 O3 O4 O5 O6 [(O7 & _)|O7]]; [congruence|]. rewrite Eq. split; cbn; auto. }
  destruct (add_entry_ok c1 rs ts k d (put k d M) HO1 Hk1 Hst) as (c2 & -> & HO2 & Ha & Hr).
  - by rewrite Eq.
  - intros w Hw. destruct (W1 w Hw) as [Hne Hl]. unfold put. destruct d; [rewrite lookup_delete_ne by done|rewrite lookup_insert_ne by done]; eauto.
  - intros Hd. unfold put. destruct d; [done|]. rewrite lookup_insert_eq. eauto.
  - exists c2. split; [done|]. exists rs, ts. split; [done|]. split; [|done]. by eapply exchange_reps.
Qed.

Lemma rwcdb_delete_ok c M k : rep c M ->
  exists c' rc, rwcdb_delete c k = Ret (c', rc) /\ rep c' (delete k M) /\ rc = (if decide (is_Some (M !! k)) then 1 else 0).
Proof.
  intros (rs & ts & HO & HR & Hst). unfold rwcdb_delete.
  destruct (rwcdb_find_ok c rs ts M k) as (c1 & rc & -> & HM & Hc); [apply HO..|done|]. cbn [rbind].
  assert (rep c1 M) as Hrep.
  { exists rs, ts. split; [by eapply moved_open|]. by rewrite (mv_rm _ _ _ _ HM), (mv_ad _ _ _ _ HM). }
  destruct (M !! k) as [d|] eqn:E.
  - destruct Hc as (-> & _). cbn [Z.eqb negb]. destruct (rwcdb_insert_ok c1 M k [] Hrep) as (c2 & -> & Hr2); [by apply storable_delete|].
    exists c2, 1. split; [done|]. split; [done|]. by rewrite decide_True by eauto.
  - subst rc. cbn [Z.eqb negb]. exists c1, 0. split; [done|]. rewrite delete_id by done. split; [done|].
    rewrite decide_False; [done|]. by intros [? ?].
Qed.
End ops.
End RwcdbOps.
