(* ===== verification/RwcdbNext.v ===== *)
(** * Going through the records of the key-value store

    rwcdb_next (lib-src/rwcdb/rwcdb.c) visits the records of the file whose keys
    have no pending update and then the added entries; dump_records writes each of
    them to the new file and remembers its position. *)
From Stdlib Require Import ZArith Lia.
From stdpp Require Import base list numbers gmap.
From S2P Require Import Prelude.
From S2P Require Import Text.
From S2P Require Import PdbArray.
From S2P Require Import RwcdbFile.
From S2P Require Import Rwcdb.
From S2P Require Import RwcdbFormat.
From S2P Require Import RwcdbFind.
From S2P Require Import RwcdbMem.
From S2P Require Import RwcdbOps.
Import RwcdbFile Rwcdb RwcdbFormat RwcdbFind RwcdbMem RwcdbOps.

Module RwcdbNext.

(** The [j]-th added entry and its place. *)
Lemma concat_flat {A} (ll : list (list A)) (j : nat) : (j < length (concat ll))%nat ->
  exists i n l x, ll !! i = Some l /\ l !! n = Some x /\ concat ll !! j = Some x /\ flat ll i n = Z.of_nat j.
Proof.
  revert j. induction ll as [|l ll IH]; intros j Hj; cbn [concat length] in Hj; [lia|]. rewrite length_app in Hj.
  destruct (decide (j < length l)%nat) as [Hl|Hl].
  - destruct (lookup_lt_is_Some_2 l j Hl) as [x Hx]. exists O, j, l, x. split; [done|]. split; [done|]. cbn [concat].
    rewrite lookup_app_l by done. done.
  - destruct (IH (j - length l)%nat ltac:(lia)) as (i & n & l' & x & E1 & E2 & E3 & E4). exists (S i), n, l', x. split; [done|]. split; [done|].
    cbn [concat]. rewrite lookup_app_r by lia. split; [done|]. unfold flat in *. rewrite firstn_cons. cbn [concat]. rewrite zlen_app. unfold zlen in *. lia.
Qed.

Lemma records_length rs : 8 * zlen rs <= zlen (records rs).
Proof.
  induction rs as [|r rs IH]; [done|]. unfold records in *. rewrite fmap_cons, concat_cons, zlen_app, zlen_cons, zlen_rbytes.
  pose proof (rsize_nonneg r). lia.
Qed.

(** The records of the file that no update replaces. *)
Definition live (c : rwcdb) (rs : list rec) : list rec := filter (fun r => r.1 ∉ pkeys c) rs.

Lemma live_cons_in c r rs : r.1 ∈ pkeys c -> live c (r :: rs) = live c rs.
Proof. intros Hr. unfold live. rewrite filter_cons_False; [done|]. tauto. Qed.
Lemma live_cons_out c r rs : r.1 ∉ pkeys c -> live c (r :: rs) = r :: live c rs.
Proof. intros Hr. unfold live. by rewrite filter_cons_True. Qed.

Section next.
Context `{AllocOk, DiskOk, Rename} (rs : list rec) (ts : list table) (F : db_format rs ts).
Abbreviation moved := (moved rs ts).

(** What one step or a whole [rwcdb_next] found. *)
Inductive next_found (c : rwcdb) (n j : nat) : rwcdb -> Z -> Prop :=
| next_disk c' m r :
    moved c c' -> (n <= m)%nat -> rs !! m = Some r -> live c (drop n rs) = r :: live c (drop (S m) rs) ->
    live c (take (S m) rs) = live c (take n rs) ++ [r] ->
    c_pending c' = None -> c_hash c' = cdb_hash r.1 -> c_klen c' = zlen r.1 -> c_dlen c' = zlen r.2 ->
    c_dpos c' = rpos rs m + 8 + zlen r.1 -> c_index c' = rpos rs (S m) -> next_found c n j c' 1
| next_mem c' i k l w :
    moved c c' -> live c (drop n rs) = [] -> c_added c !! i = Some l -> l !! k = Some w -> flat (c_added c) i k = Z.of_nat j ->
    concat (c_added c) !! j = Some w ->
    c_pending c' = Some (Added (Z.of_nat i) k) -> c_klen c' = w_klen w -> c_dlen c' = w_dlen w ->
    c_dpos c' = eod rs + Z.of_nat j -> c_index c' = eod rs + Z.of_nat j + 1 -> next_found c n j c' 1
| next_end c' :
    moved c c' -> live c (drop n rs) = [] -> j = length (concat (c_added c)) -> next_found c n j c' 0.

Lemma next_step_disk c n r : rf_ok rs ts (c_rf c) -> mem c -> rs !! n = Some r -> c_index c = rpos rs n ->
  exists c', moved c c' /\ c_index c' = rpos rs (S n) /\
    ((r.1 ∈ pkeys c /\ next_step c = Ret (c', None)) \/
     (r.1 ∉ pkeys c /\ next_step c = Ret (c', Some 1) /\ c_pending c' = None /\ c_hash c' = cdb_hash r.1 /\ c_klen c' = zlen r.1 /\
      c_dlen c' = zlen r.2 /\ c_dpos c' = rpos rs n + 8 + zlen r.1)).
Proof.
  intros Hf Hm En Ei. unfold next_step. rewrite Ei, (rf_eod _ _ _ Hf). pose proof (rpos_eod _ _ _ En). pose proof (rpos_ge rs n).
  destruct (rsize_small rs ts F n r En) as (B1 & B2 & B3 & B4 & B5). unfold rsize in *.
  destruct (Z.ltb_spec (rpos rs n) (eod rs)); [|lia].
  destruct (read_rec rs ts F _ _ _ Hf En) as (f1 & -> & R1 & S1 & P1). cbn [rbind with_rf c_rf].
  destruct (read_body rs ts F _ _ _ R1 En) as (f2 & E2 & R2 & S2 & P2). rewrite P1, E2. cbn [rbind with_rf c_rf].
  assert (take (Z.to_nat (zlen r.1)) (r.1 ++ r.2) = r.1) as -> by (unfold zlen; rewrite Nat2Z.id; apply take_app_length).
  destruct (ispending_ok (with_rf (with_rf c f1) f2) r.1 Hm) as (p & -> & Hp). cbn [rbind].
  assert (same_file (c_rf c) f2) as Sm by (by etrans). rewrite P2.
  destruct Hp as [k w Ew Ek|k l w El Ew Ek|Hnone].
  - eexists. split; [|split; [|left; split; [|done]]]; [by split|done|]. unfold pkeys. rewrite fmap_app, elem_of_app. left.
    rewrite <- Ek. apply list_elem_of_fmap_2. by eapply list_elem_of_lookup_2.
  - eexists. split; [|split; [|left; split; [|done]]]; [by split|done|]. unfold pkeys. rewrite fmap_app, elem_of_app. right.
    rewrite <- Ek. apply list_elem_of_fmap_2, elem_concat. exists (tab r.1), l. split; [done|]. by eapply list_elem_of_lookup_2.
  - eexists. split; [|split; [|right; split; [done|split; [done|]]]]; [by split|done|]. do 4 (split; [done|]).
    cbn [c_dpos with_found with_scan with_rf c_rf]. rewrite P2.
    rewrite (rpos_S _ _ _ En), (uwrap_small 32); unfold rsize; lia.
Qed.

Lemma next_step_mem c n j : rf_ok rs ts (c_rf c) -> mem c -> live c (drop n rs) = [] -> c_index c = eod rs + Z.of_nat j ->
  (j <= length (concat (c_added c)))%nat -> exists c' rc, next_step c = Ret (c', Some rc) /\ next_found c n j c' rc.
Proof.
  intros Hf Hm Hl Ei Hj. pose proof (eod_small _ _ F). pose proof (mo_small _ _ _ Hm) as Hs. unfold zlen in Hs.
  unfold next_step. rewrite Ei, (rf_eod _ _ _ Hf). destruct (Z.ltb_spec (eod rs + Z.of_nat j) (eod rs)); [lia|].
  rewrite (uwrap_small 32) by lia. replace (eod rs + Z.of_nat j - eod rs) with (Z.of_nat j) by lia.
  destruct (decide (j = length (concat (c_added c)))) as [->|Hne].
  - fold (zlen (concat (c_added c))). rewrite fromhash_end by done. cbn [rbind]. eexists _, 0. split; [done|]. by apply next_end.
  - destruct (concat_flat (c_added c) j ltac:(lia)) as (i & k & l & w & El & Ew & Ec & Ef). rewrite <- Ef.
    rewrite (fromhash_ok c i l k) by (done || by eapply lookup_lt_Some). cbn [rbind].
    match goal with |- context [entry_at ?c _] => rewrite (entry_added c i l k w) by done end. cbn [rbind].
    eexists _, 1. split; [done|]. eapply next_mem; try done; cbn; rewrite ?Ei, ?Ef, ?(uwrap_small 32); lia || done.
Qed.

Lemma rwcdb_next_ok c (init : bool) (n j : nat) : rf_ok rs ts (c_rf c) -> mem c -> (n <= length rs)%nat -> ((n < length rs)%nat -> j = 0%nat) ->
  (j <= length (concat (c_added c)))%nat ->
  (if init then n = 0%nat /\ j = 0%nat else c_index c = rpos rs n + Z.of_nat j) ->
  exists c' rc, rwcdb_next c init = Ret (c', rc) /\ next_found c n j c' rc.
Proof.
  intros Hf Hm Hn Hnj Hj Hi. unfold rwcdb_next. set (c0 := if init then _ else c).
  assert (moved c c0 /\ c_index c0 = rpos rs n + Z.of_nat j) as [Hmv Hi0].
  { unfold c0. destruct init; [|split; [by apply moved_refl|done]]. destruct Hi as [-> ->]. split; [by split|done]. }
  match goal with |- context [while_loop _ ?b _] => set (body := b) end.
  destruct (while_rule (fun m c' => exists n', (n <= n' <= length rs)%nat /\ m = (length rs - n')%nat /\ moved c c' /\
      c_index c' = rpos rs n' + Z.of_nat j /\ live c (drop n' rs) = live c (drop n rs) /\ live c (take n' rs) = live c (take n rs))
    (fun '(c', rc) => next_found c n j c' rc) body (S (S (Z.to_nat (f_len (c_rf c0))))) (length rs - n)%nat c0)
    as ([c' rc] & -> & HQ); [by exists n| | |by eauto].
  - destruct Hmv as [R _ _ _ _ _ _ _]. rewrite (rf_len _ _ _ R), (zlen_file _ _ F). unfold eod.
    pose proof (records_length rs). pose proof (zlen_nonneg (tables ts)). unfold zlen in *. lia.
  - intros m c1 (n' & Hn' & -> & Hmv1 & Hi1 & Hl1 & Hl2). unfold body. destruct (decide (n' = length rs)) as [->|Hne].
    + left. assert (live c (drop n rs) = []) as Hnil by (rewrite <- Hl1, drop_all; done). rewrite rpos_end in Hi1 by done.
      destruct (next_step_mem c1 n j) as (c2 & rc & -> & Hnf).
      { apply Hmv1. } { by apply (moved_mem rs ts c). } { unfold live. rewrite (moved_pkeys _ _ _ _ Hmv1). done. } { done. } { by rewrite (mv_ad _ _ _ _ Hmv1). }
      cbn [rbind]. eexists. split; [done|]. destruct Hnf as [c2 m r|c2 i k l w Hmv2|c2 Hmv2 _ Ej].
      * match goal with E : live c1 _ = _ :: _ |- _ => unfold live in E; rewrite (moved_pkeys _ _ _ _ Hmv1) in E; unfold live in Hnil; congruence end.
      * rewrite (mv_ad _ _ _ _ Hmv1) in *. eapply next_mem; try done. by eapply (moved_trans rs ts).
      * rewrite (mv_ad _ _ _ _ Hmv1) in *. apply next_end; try done. by eapply (moved_trans rs ts).
    + destruct (lookup_lt_is_Some_2 rs n' ltac:(lia)) as [r Er]. rewrite (Hnj ltac:(lia)), Z.add_0_r in Hi1.
      destruct (next_step_disk c1 n' r) as (c2 & Hmv2 & Hi2 & Hc); [apply Hmv1|by apply (moved_mem rs ts c)|done|done|].
      rewrite (moved_pkeys _ _ _ _ Hmv1) in Hc. rewrite (drop_S _ _ _ Er) in Hl1.
      assert (take (S n') rs = take n' rs ++ [r]) as Et by (by apply take_S_r).
      destruct Hc as [[Hin ->]|(Hout & -> & Hp)]; cbn [rbind].
      * right. eexists _, _. split; [done|]. split; [|exists (S n'); split; [lia|split; [done|]]]; [lia|].
        split; [by eapply (moved_trans rs ts)|]. rewrite live_cons_in in Hl1 by done. rewrite (Hnj ltac:(lia)), Z.add_0_r. split; [done|]. split; [done|].
        rewrite Et. unfold live in *. rewrite filter_app, filter_cons_False by tauto. by rewrite app_nil_r.
      * left. eexists. split; [done|]. rewrite live_cons_out in Hl1 by done. destruct Hp as (P1 & P2 & P3 & P4 & P5).
        eapply (next_disk _ _ _ _ n' r); try done; [by eapply (moved_trans rs ts)|lia|]. rewrite Et. unfold live in *.
        rewrite filter_app, filter_cons_True by done. by rewrite Hl2.
Qed.
End next.
End RwcdbNext.
