(* ===== verification/RwcdbDump.v ===== *)
(** * Writing the records of the key-value store

    dump_records (lib-src/rwcdb/rwcdb.c) writes the records of the old file that
    have no update and then the added entries, and remembers where each of them
    went. *)
From Stdlib Require Import ZArith Lia.
From stdpp Require Import base list numbers gmap.
From S2P Require Import Prelude.
From S2P Require Import Text.
From S2P Require Import PdbArray.
From S2P Require Import RwcdbFile.
From S2P Require Import Rwcdb.
From S2P Require Import RwcdbFormat.
From S2P Require Import RwcdbFind.
From S2P Require Import RwcdbMem.
From S2P Require Import RwcdbOps.
From S2P Require Import RwcdbNext.
Import RwcdbFile Rwcdb RwcdbFormat RwcdbFind RwcdbMem RwcdbOps RwcdbNext.

Module RwcdbDump.

Definition pair_of (w : wrentry) : rec := (wkey w, wdata w).

(** The entries that stand for records of the old file. *)
Definition oldent (h p : Z) : wrentry := {| w_hash := h; w_pos := p; w_klen := 0; w_dlen := 0; w_kd := [] |}.
Definition oldents (L : list rec) : list wrentry := imap (fun i r => oldent (cdb_hash r.1) (rpos L i)) L.

Lemma oldents_snoc L r : oldents (L ++ [r]) = oldents L ++ [oldent (cdb_hash r.1) (eod L)].
Proof.
  unfold oldents. rewrite imap_app. f_equal.
  - apply imap_ext. intros i x Hx. f_equal. apply rpos_app. apply lookup_lt_Some in Hx. lia.
  - cbn [imap]. unfold compose. rewrite Nat.add_0_r, rpos_app by lia. by rewrite rpos_end.
Qed.

(** Two entries that differ only in the position. *)
Definition same_entry (w w' : wrentry) : Prop := w' = set_pos w (w_pos w').

#[export] Instance same_entry_refl : Reflexive same_entry.
Proof. intros w. by destruct w. Qed.

Lemma same_pair w w' : same_entry w w' -> pair_of w' = pair_of w /\ w_hash w' = w_hash w /\ w_klen w' = w_klen w /\ w_dlen w' = w_dlen w /\
  w_kd w' = w_kd w.
Proof. intros ->. done. Qed.
Lemma same_went w w' : same_entry w w' -> went w -> went w'.
Proof. intros -> [W1 W2 W3]. by split. Qed.

Lemma Forall2_concat {A B} (R : A -> B -> Prop) ll kk : Forall2 (Forall2 R) ll kk -> Forall2 R (concat ll) (concat kk).
Proof. induction 1; cbn; [constructor|]. by apply Forall2_app. Qed.

Lemma same_keys l l' : Forall2 same_entry l l' -> wkey <$> l' = wkey <$> l.
Proof. induction 1 as [|w w' l l' Hw _ IH]; [done|]. rewrite !fmap_cons, IH. by destruct (same_pair w w' Hw) as ([= -> _] & _). Qed.
Lemma same_pairs l l' : Forall2 same_entry l l' -> pair_of <$> l' = pair_of <$> l.
Proof. induction 1 as [|w w' l l' Hw _ IH]; [done|]. rewrite !fmap_cons, IH. by destruct (same_pair w w' Hw) as (-> & _). Qed.

Lemma same_mem hl rm ad ad' : Forall2 (Forall2 same_entry) ad ad' -> mem_ok hl rm ad -> mem_ok hl rm ad'.
Proof.
  intros Hs [M1 M2 M3 M4 M5 M6]. pose proof (Forall2_concat _ _ _ Hs) as Hc. split.
  - by rewrite <- (Forall2_length _ _ _ Hs).
  - rewrite M2. clear -Hs. induction Hs as [|l l' ad ad' Hl _ IH]; [done|]. rewrite !fmap_cons, IH. unfold zlen. by rewrite (Forall2_length _ _ _ Hl).
  - done.
  - intros i l' w' Hi Hw'. destruct (Forall2_lookup_r _ _ _ _ _ Hs Hi) as (l & Hl & Hll). apply list_elem_of_lookup in Hw' as [n Hn].
    destruct (Forall2_lookup_r _ _ _ _ _ Hll Hn) as (w & Hw & Hs').
    destruct (M4 i l w Hl) as (G1 & G2 & G3); [by eapply list_elem_of_lookup_2|]. destruct (same_pair _ _ Hs') as ([= Ek Ed] & _).
    rewrite Ek, Ed. eauto using same_went.
  - by rewrite fmap_app, (same_keys _ _ Hc), <- fmap_app.
  - unfold zlen in *. by rewrite <- (Forall2_length _ _ _ Hc).
Qed.

Lemma same_pkeys c c' : c_removed c' = c_removed c -> Forall2 (Forall2 same_entry) (c_added c) (c_added c') -> pkeys c' = pkeys c.
Proof. intros E Hs. unfold pkeys. by rewrite E, !fmap_app, (same_keys _ _ (Forall2_concat _ _ _ Hs)). Qed.
Lemma same_live c c' rs : pkeys c' = pkeys c -> live c' rs = live c rs.
Proof. intros E. unfold live. by rewrite E. Qed.

(** Replacing an entry of one of the lists. *)
Lemma concat_insert_flat {A} (ll : list (list A)) i l k x j : ll !! i = Some l -> (k < length l)%nat -> flat ll i k = Z.of_nat j ->
  concat (<[i := <[k := x]> l]> ll) = <[j := x]> (concat ll).
Proof.
  intros El Hk Ef. rewrite (concat_alter _ _ _ _ El), (concat_split _ _ _ El). unfold flat, zlen in Ef.
  rewrite insert_app_r_alt by lia. f_equal. rewrite insert_app_l by lia. do 2 f_equal. lia.
Qed.

Section dump.
Context `{AllocOk, DiskOk, Rename} (rs : list rec) (ts : list table) (F : db_format rs ts) (c0 : rwcdb) (Hm0 : mem c0).
Abbreviation added0 := (pair_of <$> concat (c_added c0)).

(** What has been written after [n] records of the file and [j] entries. *)
Definition written (n j : nat) : list rec := live c0 (take n rs) ++ take j added0.

(** The records of the new file. *)
Definition all_records : list rec := live c0 rs ++ added0.
Context (Hsize : 2048 + zlen (records all_records) < 2 ^ 31).

Record dump_st (n j : nat) (c : rwcdb) (old : list wrentry) : Prop := {
  ds_n : (n <= length rs)%nat /\ ((n < length rs)%nat -> j = 0%nat) /\ (j <= length (concat (c_added c0)))%nat;
  ds_rf : rf_ok rs ts (c_rf c);
  ds_same : same_file (c_rf c0) (c_rf c);
  ds_lists : c_hlens c = c_hlens c0 /\ c_removed c = c_removed c0 /\ c_readonly c = c_readonly c0 /\ c_fs c = c_fs c0;
  ds_ad : Forall2 (Forall2 same_entry) (c_added c0) (c_added c);
  ds_old : old = oldents (live c0 (take n rs));
  ds_wf : exists b cc, writing (c_wf c) b cc /\ b ++ cc = records (written n j);
  ds_ino : f_ino (c_wf c) = f_ino (c_wf c0);
  ds_pos q w : (q < j)%nat -> concat (c_added c) !! q = Some w -> w_pos w = rpos (written n j) (length (live c0 (take n rs)) + q)
}.

Lemma records_app a b : records (a ++ b) = records a ++ records b.
Proof. unfold records. by rewrite fmap_app, concat_app. Qed.

Lemma live_take n : live c0 rs = live c0 (take n rs) ++ live c0 (drop n rs).
Proof. unfold live. rewrite <- filter_app. by rewrite take_drop. Qed.

Lemma written_le n j : (n <= length rs)%nat -> ((n < length rs)%nat -> j = 0%nat) -> zlen (records (written n j)) <= zlen (records all_records).
Proof.
  intros Hn Hj. unfold written, all_records. rewrite (live_take n), !records_app, !zlen_app.
  assert (zlen (records added0) = zlen (records (take j added0)) + zlen (records (drop j added0))) as E
    by (by rewrite <- zlen_app, <- records_app, take_drop).
  pose proof (zlen_nonneg (records (live c0 (drop n rs)))). pose proof (zlen_nonneg (records (drop j added0))). lia.
Qed.

(** Appending a record to the new file. *)
Lemma write_record f b cc ws r : writing f b cc -> b ++ cc = records ws -> 2048 + zlen (records (ws ++ [r])) < 2 ^ 31 ->
  exists f1 f2, db_file_write f (packints (zlen r.1) (zlen r.2)) = Ret (f1, 0) /\ db_file_write f1 (r.1 ++ r.2) = Ret (f2, 0) /\
    f_ino f2 = f_ino f /\ exists b' cc', writing f2 b' cc' /\ b' ++ cc' = records (ws ++ [r]).
Proof.
  intros HW E Hs. rewrite records_app, zlen_app in Hs. unfold records at 2 in Hs. cbn [fmap list_fmap concat] in Hs. rewrite app_nil_r, zlen_rbytes in Hs.
  assert (zlen b + zlen cc = zlen (records ws)) as Ez by (by rewrite <- E, zlen_app). pose proof (rsize_nonneg r). unfold rsize in *.
  destruct (db_file_write_ok f b cc (packints (zlen r.1) (zlen r.2)) HW) as (f1 & b1 & c1 & E1 & HW1 & Eb1 & _); [rewrite zlen_packints; lia|].
  assert (zlen b1 + zlen c1 = zlen (records ws) + 8) as Ez1.
  { rewrite <- zlen_app, Eb1, !zlen_app, zlen_packints. lia. }
  destruct (db_file_write_ok f1 b1 c1 (r.1 ++ r.2) HW1) as (f2 & b2 & c2 & E2 & HW2 & Eb2 & _); [rewrite zlen_app; lia|].
  exists f1, f2. split; [done|]. split; [done|].
  split; [rewrite (db_file_write_ino _ _ _ _ E2); exact (db_file_write_ino _ _ _ _ E1)|]. exists b2, c2. split; [done|].
  rewrite Eb2, app_assoc, Eb1, (app_assoc b), E, records_app, <- app_assoc. f_equal. unfold records, rbytes. cbn [fmap list_fmap concat]. by rewrite app_nil_r.
Qed.

Lemma records_snoc_pos f b cc ws : writing f b cc -> b ++ cc = records ws -> f_pos f = eod ws.
Proof. intros HW E. rewrite (wr_pos _ _ _ HW). unfold eod. rewrite <- E, zlen_app. lia. Qed.

Lemma dump_disk n c old c1 m r : dump_st n 0 c old -> moved rs ts c c1 -> (n <= m)%nat -> rs !! m = Some r ->
  live c0 (take (S m) rs) = live c0 (take n rs) ++ [r] -> c_pending c1 = None -> c_hash c1 = cdb_hash r.1 ->
  c_klen c1 = zlen r.1 -> c_dlen c1 = zlen r.2 -> c_dpos c1 = rpos rs m + 8 + zlen r.1 -> c_index c1 = rpos rs (S m) ->
  exists c2 old2, dump_one c1 old = Ret (c2, old2, 0) /\ dump_st (S m) 0 c2 old2 /\ c_index c2 = rpos rs (S m).
Proof.
  intros HD HM Hnm Er Hl P1 P2 P3 P4 P5 P6. destruct HD as [D1 D2 D3 D4 D5 D6 (b & cc & HW & Eb) D8 D9].
  pose proof HM as [V1 V2 V3 V4 V5 V6 V7 V8]. unfold dump_one. rewrite P1, P2, P3, P4, P5.
  assert (written (S m) 0 = written n 0 ++ [r]) as Ew by (unfold written; rewrite Hl, !take_0, !app_nil_r; done).
  destruct (rsize_small rs ts F m r Er) as (B1 & B2 & B3 & B4 & B5). pose proof (rpos_eod _ _ _ Er). pose proof (rpos_ge rs m). unfold rsize in *.
  unfold alloc_wrentry. rewrite alloc_ok by done. cbn [rbind].
  rewrite (uwrap_small 32 (rpos rs m + 8 + zlen r.1 - zlen r.1)) by lia. replace (rpos rs m + 8 + zlen r.1 - zlen r.1) with (rpos rs m + 8) by lia.
  destruct (read_body rs ts F (c_rf c1) m r V1 Er) as (f' & -> & R & Sm & _). cbn [rbind with_rf c_wf c_klen c_dlen].
  rewrite V3, P3, P4. pose proof (lookup_lt_Some _ _ _ Er) as Hlt.
  destruct (write_record (c_wf c) b cc (written n 0) r HW Eb) as (f1 & f2 & -> & E2 & I2 & b2 & c2 & HW2 & Eb2).
  { rewrite <- Ew. pose proof (written_le (S m) 0 ltac:(lia) ltac:(done)). lia. }
  cbn [rbind Z.eqb negb]. rewrite E2. cbn [rbind Z.eqb]. eexists _, _. split; [done|]. split; [|done].
  split; cbn [with_wf with_rf c_rf c_wf c_hlens c_removed c_readonly c_fs c_added].
  - split; [lia|]. split; [done|lia].
  - done.
  - etrans; [exact D3|]. by etrans.
  - by rewrite V5, V6, V4, V8.
  - by rewrite V7.
  - rewrite Hl, oldents_snoc, D6. f_equal. rewrite (records_snoc_pos _ _ _ _ HW Eb). unfold written.
    by rewrite take_0, (app_nil_r (live c0 _)).
  - exists b2, c2. by rewrite Ew.
  - by rewrite I2.
  - intros q w Hq. lia.
Qed.

Lemma dump_mem n j c old c1 i k l w : dump_st n j c old -> moved rs ts c c1 -> live c0 (drop n rs) = [] ->
  c_added c !! i = Some l -> l !! k = Some w -> flat (c_added c) i k = Z.of_nat j -> concat (c_added c) !! j = Some w ->
  c_pending c1 = Some (Added (Z.of_nat i) k) -> c_klen c1 = w_klen w -> c_dlen c1 = w_dlen w -> c_index c1 = eod rs + Z.of_nat j + 1 ->
  exists c2, dump_one c1 old = Ret (c2, old, 0) /\ dump_st (length rs) (S j) c2 old /\ c_index c2 = rpos rs (length rs) + Z.of_nat (S j).
Proof.
  intros HD HM Hl El Ew Ef Ec P1 P2 P3 P4. destruct HD as [D1 D2 D3 D4 D5 D6 (b & cc & HW & Eb) D8 D9].
  pose proof HM as [V1 V2 V3 V4 V5 V6 V7 V8]. unfold dump_one. rewrite P1, V7.
  rewrite (aget_ok _ _ l); [|lia|by rewrite Nat2Z.id]. cbn [rbind]. rewrite Ew.
  pose proof (lookup_lt_Some _ _ _ El) as Hlt. pose proof (lookup_lt_Some _ _ _ Ew) as Hlk.
  rewrite aset_ok by (unfold zlen; lia). cbn [rbind with_lists c_wf c_klen c_dlen]. rewrite Nat2Z.id, P2, P3, V3.
  assert (live c0 (take n rs) = live c0 rs) as Hln by (rewrite (live_take n), Hl, app_nil_r; done).
  assert (mem c) as Hmc by (destruct D4 as (-> & -> & _); by eapply same_mem).
  destruct (mo_ad _ _ _ Hmc i l w El) as (Gw & _); [by eapply list_elem_of_lookup_2|].
  pose proof (Forall2_concat _ _ _ D5) as Hc. destruct (Forall2_lookup_r _ _ _ _ _ Hc Ec) as (w0 & Ew0 & Hs0).
  destruct (same_pair _ _ Hs0) as (Epair & _). pose proof (lookup_lt_Some _ _ _ Ew0) as Hj0.
  assert (take (S j) added0 = take j added0 ++ [pair_of w]) as Etk.
  { apply take_S_r. rewrite list_lookup_fmap, Ew0. cbn. by rewrite Epair. }
  assert (written (length rs) (S j) = written n j ++ [pair_of w]) as Ewr.
  { unfold written. rewrite firstn_all, Hln, Etk. by rewrite app_assoc. }
  assert (w_kd w = (pair_of w).1 ++ (pair_of w).2) as Ekd by (cbn; unfold wkey, wdata; by rewrite take_drop).
  rewrite (we_klen _ Gw), (we_dlen _ Gw), Ekd.
  destruct (write_record (c_wf c) b cc (written n j) (pair_of w) HW Eb) as (f1 & f2 & E1 & E2 & I2 & b2 & c2 & HW2 & Eb2).
  { rewrite <- Ewr. pose proof (written_le (length rs) (S j) ltac:(lia) ltac:(lia)). lia. }
  cbn [pair_of fst snd] in E1, E2 |- *. rewrite E1. cbn [rbind Z.eqb negb]. rewrite E2. cbn [rbind Z.eqb].
  eexists. split; [done|]. split; [|cbn; rewrite P4, rpos_end by done; lia].
  assert (concat (<[i := <[k := set_pos w (f_pos (c_wf c))]> l]> (c_added c)) = <[j := set_pos w (f_pos (c_wf c))]> (concat (c_added c))) as Ecc
    by (by apply concat_insert_flat).
  split; cbn [with_wf with_lists c_rf c_wf c_hlens c_removed c_readonly c_fs c_added].
  - split; [lia|]. split; [lia|lia].
  - done.
  - by etrans.
  - by rewrite V5, V6, V4, V8.
  - destruct (Forall2_lookup_r _ _ _ _ _ D5 El) as (l0 & El0 & Hl0). destruct (Forall2_lookup_r _ _ _ _ _ Hl0 Ew) as (w1 & Ew1 & Hs1).
    rewrite <- (list_insert_id (c_added c0) i l0 El0). apply Forall2_insert; [done|]. rewrite <- (list_insert_id l0 k w1 Ew1).
    apply Forall2_insert; [done|]. unfold same_entry in *. rewrite Hs1. done.
  - by rewrite firstn_all, <- Hln.
  - exists b2, c2. by rewrite Ewr.
  - by rewrite I2.
  - rewrite firstn_all, <- Hln, Ewr, Ecc. intros q x Hq Hx. assert (length (written n j) = length (live c0 (take n rs)) + j)%nat as Elen.
    { unfold written. rewrite length_app, length_take, length_fmap. lia. }
    rewrite rpos_app by lia. apply list_lookup_insert_Some in Hx as [(<- & <- & _)|[Hne Hx]].
    + cbn [set_pos w_pos]. rewrite (records_snoc_pos _ _ _ _ HW Eb), <- Elen. by rewrite rpos_end.
    + apply D9; [lia|done].
Qed.

Lemma dump_records_ok : rf_ok rs ts (c_rf c0) -> writing (c_wf c0) [] [] ->
  exists c old, dump_records c0 = Ret (c, old, 0) /\ dump_st (length rs) (length (concat (c_added c0))) c old.
Proof.
  intros Hf HW. unfold dump_records. match goal with |- context [while_loop _ ?b _] => set (body := b) end.
  set (fuel := S _).
  destruct (while_rule (fun m '(c, old, rw) => exists n j, dump_st n j c old /\
      m = (length rs - n + (length (concat (c_added c0)) - j))%nat /\
      (if (rw : bool) then n = 0%nat /\ j = 0%nat else c_index c = rpos rs n + Z.of_nat j))
    (fun '(c, old, rc) => rc = 0 /\ dump_st (length rs) (length (concat (c_added c0))) c old) body fuel
    (length rs + length (concat (c_added c0)))%nat (c0, [], true)) as ([[c old] rc] & -> & -> & HD).
  - exists 0%nat, 0%nat. split; [|split; [lia|done]]. split; try done; [split; [lia|split; [done|lia]]|by exists [], []|intros q w Hq; lia].
  - unfold fuel. rewrite (rf_len _ _ _ Hf), (zlen_file _ _ F). unfold eod. pose proof (records_length rs). pose proof (zlen_nonneg (tables ts)).
    unfold zlen in *. lia.
  - intros m [[c old] rw] (n & j & HD & -> & Hi). pose proof HD as [(N1 & N2 & N3) D2 D3 D4 D5 _ _ _ _].
    assert (mem c) as Hmc by (destruct D4 as (-> & -> & _); by eapply same_mem).
    assert (pkeys c = pkeys c0) as Hpk by (apply same_pkeys; [apply D4|done]).
    assert (length (concat (c_added c)) = length (concat (c_added c0))) as Elen by (symmetry; by eapply Forall2_length, Forall2_concat).
    destruct (rwcdb_next_ok rs ts F c rw n j D2 Hmc N1 N2 ltac:(lia) Hi) as (c1 & rc & Enx & Hnf). unfold body. rewrite Enx. cbn [rbind].
    destruct Hnf as [c1 m r HM Hnm Er Hl Ht P1 P2 P3 P4 P5 P6|c1 i k l w HM Hl El Ew Ef Ec P1 P2 P3 P4 P5|c1 HM Hl Ej]; cbn [Z.eqb negb];
      rewrite (same_live c0 c) in Hl by done.
    + right. rewrite !(same_live c0 c) in Ht by done. pose proof (lookup_lt_Some _ _ _ Er). rewrite (N2 ltac:(lia)) in *.
      destruct (dump_disk n c old c1 m r HD HM Hnm Er Ht P1 P2 P3 P4 P5 P6) as (c2 & old2 & -> & HD2 & Hi2). cbn [rbind Z.eqb negb].
      eexists _, _. split; [done|]. split; [|exists (S m), 0%nat; split; [done|split; [done|]]]; [lia|]. by rewrite Hi2, Z.add_0_r.
    + right. destruct (dump_mem n j c old c1 i k l w HD HM Hl El Ew Ef Ec P1 P2 P3 P5) as (c2 & -> & HD2 & Hi2). cbn [rbind Z.eqb negb].
      apply lookup_lt_Some in Ec. eexists _, _. split; [done|]. split; [|exists (length rs), (S j); split; [done|split; [done|done]]]. lia.
    + left. eexists. split; [done|]. split; [done|]. rewrite Elen in Ej. subst j.
      assert (live c0 (take n rs) = live c0 rs) as Hln by (rewrite (live_take n), Hl, app_nil_r; done).
      destruct HD as [E1 E2 E3 E4 E5 E6 E7 E8 E9], HM as [V1 V2 V3 V4 V5 V6 V7 V8].
      unfold written in *. rewrite Hln in *. split; unfold written; rewrite ?firstn_all, ?V3, ?V4, ?V5, ?V6, ?V7, ?V8; try done.
      * split; [done|split; [lia|done]].
      * by etrans.
  - eauto.
Qed.
End dump.
End RwcdbDump.
