(* ===== verification/RwcdbTable.v ===== *)
(** * Writing the hash tables of the key-value store

    write_hashchains (lib-src/rwcdb/rwcdb.c) puts the entries of each of the 256
    lists into a table with twice as many slots, by open addressing, and writes the
    tables and the header; the result is a file of the format that rwcdb_find
    reads. *)
From Stdlib Require Import ZArith Lia.
From stdpp Require Import base list numbers gmap.
From S2P Require Import Prelude.
From S2P Require Import Text.
From S2P Require Import PdbArray.
From S2P Require Import RwcdbFile.
From S2P Require Import Rwcdb.
From S2P Require Import RwcdbFormat.
From S2P Require Import RwcdbFind.
From S2P Require Import RwcdbMem.
From S2P Require Import RwcdbOps.
Import RwcdbFile Rwcdb RwcdbFormat RwcdbFind RwcdbMem RwcdbOps.

Module RwcdbTable.

(** ** One table *)
Lemma slot_of_surj h n j : (j < n)%nat -> exists d, (d < n)%nat /\ slot_of h n d = j.
Proof.
  intros Hj. set (s := Z.shiftr h 8). exists (Z.to_nat ((Z.of_nat j - s) mod Z.of_nat n)).
  pose proof (Z.mod_pos_bound (Z.of_nat j - s) (Z.of_nat n) ltac:(lia)). split; [lia|]. unfold slot_of. fold s. rewrite Z2Nat.id by lia.
  rewrite Z.add_mod_idemp_r by lia. replace (s + (Z.of_nat j - s)) with (Z.of_nat j) by lia. rewrite Z.mod_small; lia.
Qed.

Definition used (h : table) : nat := length (filter (fun e => e.1 <> 0) h).

Lemma used_le h : (used h <= length h)%nat.
Proof. apply length_filter. Qed.

Lemma used_insert h j x : (used (<[j := x]> h) <= S (used h))%nat.
Proof.
  unfold used. destruct (h !! j) as [e|] eqn:E; [|rewrite list_insert_ge by (by apply lookup_ge_None_1); lia].
  rewrite (insert_take_drop _ _ _ (lookup_lt_Some _ _ _ E)). rewrite <- (take_drop_middle h j e E) at 3.
  rewrite !filter_app, !length_app, !filter_cons. repeat case_decide; cbn [length]; lia.
Qed.

(** A table that is not full has a free slot. *)
Lemma free_exists (h : table) : (used h < length h)%nat -> exists j b, h !! j = Some (0, b).
Proof.
  unfold used. induction h as [|[a b] h IH]; cbn [length]; [lia|]. rewrite filter_cons. cbn [fst]. case_decide as Ha; cbn [length].
  - intros Hl. destruct (IH ltac:(lia)) as (j & b' & Hj). by exists (S j), b'.
  - intros _. exists 0%nat, b. cbn. do 2 f_equal. destruct (Z.eq_dec a 0); [done|]. by destruct Ha.
Qed.

(** The probe path of an entry in the table under construction. *)
Definition leads_to (h : table) (e : Z * Z) (d : nat) : Prop :=
  (d < length h)%nat /\ h !! slot_of e.1 (length h) d = Some e /\
  forall d', (d' < d)%nat -> exists e', h !! slot_of e.1 (length h) d' = Some e' /\ e'.1 <> 0.

Lemma free_slot_ok h hash : (0 < length h)%nat -> Z.of_nat (length h) < 2 ^ 31 -> (used h < length h)%nat ->
  exists d, (d < length h)%nat /\
    free_slot h (Z.shiftr hash 8 mod Z.of_nat (length h)) (Z.of_nat (length h)) = Ret (Z.of_nat (slot_of hash (length h) d)) /\
    (exists b, h !! slot_of hash (length h) d = Some (0, b)) /\
    forall d', (d' < d)%nat -> exists e', h !! slot_of hash (length h) d' = Some e' /\ e'.1 <> 0.
Proof.
  intros Hn Hs Hu. set (n := length h) in *. destruct (free_exists h Hu) as (j & b & Ej).
  destruct (slot_of_surj hash n j) as (D & HD & ED); [by eapply lookup_lt_Some|]. unfold free_slot. fold n.
  match goal with |- context [while_loop _ ?b _] => set (body := b) end.
  destruct (while_rule (fun m slot => exists d, (d <= D)%nat /\ m = (D - d)%nat /\ slot = Z.of_nat (slot_of hash n d) /\
      forall d', (d' < d)%nat -> exists e', h !! slot_of hash n d' = Some e' /\ e'.1 <> 0)
    (fun slot => exists d, (d < n)%nat /\ slot = Z.of_nat (slot_of hash n d) /\ (exists b, h !! slot_of hash n d = Some (0, b)) /\
      forall d', (d' < d)%nat -> exists e', h !! slot_of hash n d' = Some e' /\ e'.1 <> 0)
    body
    (S n) D (Z.shiftr hash 8 mod Z.of_nat n)) as (slot & -> & d & Hd & -> & Hb & Hbefore); [| | |by eauto].
  - exists 0%nat. split; [lia|]. split; [lia|]. split; [|lia]. unfold slot_of. rewrite Z.add_0_r.
    pose proof (Z.mod_pos_bound (Z.shiftr hash 8) (Z.of_nat n) ltac:(lia)). lia.
  - lia.
  - intros m slot (d & Hd & -> & -> & Hb). unfold body. pose proof (slot_of_lt hash n d Hn) as Hlt. destruct (lookup_lt_is_Some_2 h (slot_of hash n d)) as [[a b'] Ea]; [done|].
    rewrite (aget_ok _ _ (a, b')); [|lia|by rewrite Nat2Z.id]. cbn [rbind]. destruct (Z.eqb_spec a 0) as [->|Ha].
    + left. eexists. split; [done|]. exists d. split; [lia|]. split; [done|]. split; [by eauto|done].
    + right. assert (d <> D) as Hne by (intros ->; rewrite ED, Ej in Ea; by simplify_eq). eexists _, (D - S d)%nat. split; [done|]. split; [lia|].
      exists (S d). split; [lia|]. split; [done|]. split.
      * rewrite (uwrap_small 32), slot_of_S by lia. destruct (Z.eqb_spec (Z.of_nat (slot_of hash n d) + 1) (Z.of_nat n)), (decide _); lia.
      * intros d' Hd'. destruct (decide (d' = d)) as [->|]; [|apply Hb; lia]. by exists (a, b').
Qed.

Record filled (l : list wrentry) (h : table) (n : nat) : Prop := {
  fl_length : length h = n;
  fl_from j e : h !! j = Some e -> e = (0, 0) \/ exists w, w ∈ l /\ e = (w_hash w, w_pos w);
  fl_leads w : w ∈ l -> exists d, leads_to h (w_hash w, w_pos w) d;
  fl_used : (used h <= length l)%nat
}.

Lemma filled_empty n : filled [] (replicate n (0, 0)) n.
Proof.
  split; [apply length_replicate| |by intros w ?%not_elem_of_nil|].
  - intros j e [-> _]%lookup_replicate. by left.
  - unfold used. induction n as [|n IH]; [done|]. cbn [replicate]. rewrite filter_cons_False; [done|]. cbn. tauto.
Qed.

Lemma leads_insert h e d j x : leads_to h e d -> (exists b, h !! j = Some (0, b)) -> e.1 <> 0 -> x.1 <> 0 -> leads_to (<[j := x]> h) e d.
Proof.
  intros (Hd & E & Hb) (b & Ej) He Hx. unfold leads_to. rewrite length_insert. split; [done|]. split.
  - rewrite list_lookup_insert_ne; [done|]. intros Ei. rewrite <- Ei, Ej in E. by simplify_eq.
  - intros d' Hd'. destruct (Hb d' Hd') as (e' & E' & Hne). rewrite list_lookup_insert_ne; [by eauto|].
    intros Ei. rewrite <- Ei, Ej in E'. by simplify_eq.
Qed.

Lemma fill_table_ok done l h n : filled done h n -> (forall w, w ∈ done ++ l -> w_hash w <> 0) -> Z.of_nat n < 2 ^ 31 ->
  (length done + length l < n)%nat -> exists h', fill_table h (Z.of_nat n) l = Ret h' /\ filled (done ++ l) h' n.
Proof.
  unfold fill_table. revert done h. induction l as [|w l IH]; intros done h HF Hz Hn Hl; cbn [fold_left].
  { exists h. by rewrite app_nil_r. }
  pose proof HF as [L1 L2 L3 L4]. cbn [length] in Hl. cbn [rbind]. subst n.
  destruct (free_slot_ok h (w_hash w) ltac:(lia) Hn ltac:(lia)) as (d & Hd & -> & Hfree & Hbefore). cbn [rbind].
  pose proof (slot_of_lt (w_hash w) (length h) d ltac:(lia)) as Hlt. rewrite aset_ok by (unfold zlen; lia). rewrite Nat2Z.id.
  set (h1 := <[slot_of (w_hash w) (length h) d := (w_hash w, w_pos w)]> h).
  assert (w_hash w <> 0) as Hw by (apply Hz; rewrite elem_of_app, elem_of_cons; auto).
  assert (length h1 = length h) as Elen by apply length_insert.
  assert (filled (done ++ [w]) h1 (length h)) as HF1.
  { split; [done| | |].
    - intros j e Hj. unfold h1 in Hj. apply list_lookup_insert_Some in Hj as [(<- & <- & _)|[_ Hj]].
      + right. exists w. rewrite elem_of_app, list_elem_of_singleton. auto.
      + destruct (L2 j e Hj) as [->|(x & Hx & ->)]; [by left|]. right. exists x. rewrite elem_of_app. auto.
    - intros x. rewrite elem_of_app, list_elem_of_singleton. intros [Hx| ->].
      + destruct (L3 x Hx) as [dx Hdx]. exists dx. apply leads_insert; [done|done| |done]. apply Hz. rewrite elem_of_app. auto.
      + exists d. unfold leads_to. rewrite Elen. cbn [fst]. split; [done|]. split; [by apply list_lookup_insert_eq|]. intros d' Hd'.
        destruct (Hbefore d' Hd') as (e' & E' & Hne). unfold h1. rewrite list_lookup_insert_ne; [by eauto|]. intros Ei.
        destruct Hfree as [b Eb]. rewrite Ei, E' in Eb. by simplify_eq.
    - rewrite length_app. cbn [length]. pose proof (used_insert h (slot_of (w_hash w) (length h) d) (w_hash w, w_pos w)). unfold h1. lia. }
  destruct (IH (done ++ [w]) h1 HF1) as (h' & Eh & HF'); [by rewrite <- app_assoc|done|rewrite length_app; cbn [length]; lia|].
  exists h'. split; [done|]. by rewrite <- app_assoc in HF'.
Qed.

(** ** All tables *)

(** The lists hold an entry for every record of the new file and nothing else. *)
Record chains_ok (W : list rec) (hl : list Z) (ad : list (list wrentry)) : Prop := {
  ch_length : length ad = 256%nat;
  ch_hlens : hl = zlen <$> ad;
  ch_from i l w : ad !! i = Some l -> w ∈ l ->
    exists m r, W !! m = Some r /\ w_hash w = cdb_hash r.1 /\ w_pos w = rpos W m /\ tab r.1 = i;
  ch_all m r l : W !! m = Some r -> ad !! tab r.1 = Some l ->
    exists w, w ∈ l /\ w_hash w = cdb_hash r.1 /\ w_pos w = rpos W m;
  ch_count : length (concat ad) = length W
}.

(** What the records must be to be stored. *)
Record good_records (W : list rec) : Prop := {
  gr_keys : NoDup W.*1;
  gr_data : Forall (fun r => r.2 <> []) W;
  gr_hash r : r ∈ W -> cdb_hash r.1 <> 0;
  gr_size : 2048 + weights W < 2 ^ 31
}.

Definition tables_for (ad : list (list wrentry)) (ts : list table) : Prop :=
  length ts = length ad /\ forall i l t, ad !! i = Some l -> ts !! i = Some t -> filled l t (2 * length l).

Lemma weights_file W : weights W = zlen (records W) + 16 * zlen W.
Proof.
  unfold weights, records. induction W as [|r W IH]; [done|]. cbn [fmap list_fmap foldr concat]. cbn [fmap list_fmap] in IH.
  rewrite IH, zlen_app, zlen_rbytes, zlen_cons. unfold cost. lia.
Qed.

Lemma tables_size ad ts : tables_for ad ts -> zlen (tables ts) = 16 * zlen (concat ad).
Proof.
  intros [Hl Hf]. revert ts Hl Hf. induction ad as [|l ad IH]; intros [|t ts] Hl Hf; try done. cbn [length] in Hl. unfold tables in *.
  rewrite fmap_cons, concat_cons, zlen_app, zlen_table_bytes. cbn [concat]. rewrite zlen_app, (IH ts); [|lia|].
  - pose proof (fl_length _ _ _ (Hf 0%nat l t eq_refl eq_refl)) as E. unfold zlen in *. lia.
  - intros i l' t' Hi Ht. by apply (Hf (S i)).
Qed.

Section tables.
Context (W : list rec) (GW : good_records W).

Lemma size_all hl ad ts : chains_ok W hl ad -> tables_for ad ts -> zlen (records W) + zlen (tables ts) = weights W.
Proof. intros HC Ht. rewrite (tables_size ad ts Ht), weights_file. unfold zlen. rewrite (ch_count _ _ _ HC). done. Qed.

Lemma W_hash m r : W !! m = Some r -> cdb_hash r.1 <> 0.
Proof. intros E. apply (gr_hash _ GW). by eapply list_elem_of_lookup_2. Qed.

(** The tables and the records make a database file. *)
Lemma tables_format hl ad ts : chains_ok W hl ad -> tables_for ad ts -> db_format W ts.
Proof.
  intros HC HT. pose proof HT as [Hl Hf]. pose proof HC as [C1 C2 C3 C4 C5]. pose proof (gr_size _ GW) as Hs.
  pose proof (size_all _ _ _ HC HT) as Hsz. pose proof (zlen_nonneg (tables ts)). pose proof (zlen_nonneg (records W)).
  assert (forall i t, ts !! i = Some t -> exists l, ad !! i = Some l /\ filled l t (2 * length l)) as Hlk.
  { intros i t Ht. destruct (lookup_lt_is_Some_2 ad i) as [l El]; [rewrite <- Hl; by eapply lookup_lt_Some|]. eauto. }
  assert (forall i t j e, ts !! i = Some t -> t !! j = Some e -> e = (0, 0) \/ exists n r, W !! n = Some r /\ e = (cdb_hash r.1, rpos W n)) as Hfrom.
  { intros i t j e Ht He. destruct (Hlk i t Ht) as (l & El & HF). destruct (fl_from _ _ _ HF j e He) as [->|(w & Hw & ->)]; [by left|].
    right. destruct (C3 i l w El Hw) as (m & r & Er & -> & -> & _). eauto. }
  split; [congruence| |apply GW|apply GW| | |].
  - unfold file_of. rewrite !zlen_app, zlen_table_bytes, zlen_header. unfold zlen at 1. rewrite Hl, C1. lia.
  - intros i t j e Ht He. destruct (Hfrom i t j e Ht He) as [->|(n & r & Er & ->)]; cbn [fst snd]; [lia|]. split; [apply cdb_hash_bound|].
    pose proof (rpos_ge W n). pose proof (rpos_eod _ _ _ Er). pose proof (rsize_nonneg r). unfold eod in *. lia.
  - intros i t j e Ht He Hne. destruct (Hfrom i t j e Ht He) as [->|?]; [done|]. done.
  - intros n r t Er Ht. destruct (Hlk _ _ Ht) as (l & El & HF). destruct (C4 n r l Er El) as (w & Hw & E1 & E2).
    destruct (fl_leads _ _ _ HF w Hw) as (d & Hd & Ed & Hb). rewrite E1, E2 in *. exists d. split; [done|]. split; [done|].
    intros d' Hd'. destruct (Hb d' Hd') as (e' & E' & Hne). exists e'. split; [done|].
    destruct (Hfrom _ _ _ _ Ht E') as [->|(n' & r' & Er' & ->)]; [done|]. cbn [snd]. pose proof (rpos_ge W n'). lia.
Qed.

Context `{AllocOk, DiskOk, Rename} (c : rwcdb).
Context (HC : chains_ok W (c_hlens c) (c_added c)).

Lemma chain_at i : (i < 256)%nat -> exists l, c_added c !! i = Some l /\
  aget (c_hlens c) (Z.of_nat i) = Ret (zlen l) /\ aget (c_added c) (Z.of_nat i) = Ret l /\ 2 * zlen l < 2 ^ 31.
Proof.
  intros Hi. destruct (lookup_lt_is_Some_2 (c_added c) i) as [l El]; [by rewrite (ch_length _ _ _ HC)|]. exists l. split; [done|].
  split; [|split]; [apply aget_ok; [lia|]; by rewrite Nat2Z.id, (ch_hlens _ _ _ HC), list_lookup_fmap, El|apply aget_ok; [lia|by rewrite Nat2Z.id]|].
  pose proof (ch_count _ _ _ HC) as Hc. rewrite (concat_split _ _ _ El), !length_app in Hc. pose proof (gr_size _ GW) as Hs.
  pose proof (weights_length W). unfold zlen in *. lia.
Qed.

Lemma maxlen_ok : exists m, forZ 0 256
    (fun i m => let* n := aget (c_hlens c) i in Ret (if u32 (n * 2) >? m then u32 (n * 2) else m)) 256 = Ret m /\ 0 <= m.
Proof.
  apply (forZ_total (fun _ m => 0 <= m)); [lia|lia|]. intros k m Hk Hm. destruct (chain_at (Z.to_nat k) ltac:(lia)) as (l & _ & E & _).
  rewrite Z2Nat.id in E by lia. rewrite E. cbn [rbind]. eexists. split; [done|]. pose proof (uwrap_bound 32 (zlen l * 2) ltac:(lia)).
  destruct (_ >? _); lia.
Qed.

(** After [i] tables. *)
Record tables_st (i : nat) (wf : db_file) (hoffs : list Z) (ts : list table) : Prop := {
  tb_for : tables_for (take i (c_added c)) ts;
  tb_wf : exists b cc, writing wf b cc /\ b ++ cc = records W ++ tables ts;
  tb_hoffs : hoffs = (fun q => tpos W ts q) <$> seq 0 i;
  tb_ino : f_ino wf = f_ino (c_wf c)
}.

Lemma tpos_snoc ts t q : (q <= length ts)%nat -> tpos W (ts ++ [t]) q = tpos W ts q.
Proof. intros Hq. unfold tpos. by rewrite take_app_le. Qed.

Lemma tables_snoc ts t : tables (ts ++ [t]) = tables ts ++ table_bytes t.
Proof. unfold tables. rewrite fmap_app, concat_app. cbn. by rewrite app_nil_r. Qed.

Lemma table_step i wf hoffs ts : (i < 256)%nat -> tables_st i wf hoffs ts ->
  exists wf' ts', (let* n := aget (c_hlens c) (Z.of_nat i) in
         let len := u32 (n * 2) in
         let hoffs := hoffs ++ [f_pos wf] in
         if len =? 0 then Ret (inl (wf, hoffs))
         else
           let* l := aget (c_added c) (Z.of_nat i) in
           let* h := fill_table (replicate (Z.to_nat len) (0, 0)) len l in
           let* (wf, rc) := db_file_write wf (table_bytes h) in
           if negb (rc =? 0) then Ret (inr wf) else Ret (inl (wf, hoffs))) = Ret (inl (wf', hoffs ++ [f_pos wf])) /\
    tables_st (S i) wf' (hoffs ++ [f_pos wf]) ts'.
Proof.
  intros Hi [HT (b & cc & HW & Eb) Eh Ei]. pose proof HT as [Hlen Hfill]. destruct (chain_at i Hi) as (l & El & -> & -> & Hs).
  pose proof (ch_length _ _ _ HC) as H256. rewrite length_take, Nat.min_l in Hlen by lia. pose proof (zlen_nonneg l).
  cbn [rbind]. rewrite (uwrap_small 32) by lia.
  assert (f_pos wf = tpos W ts i) as Epos.
  { rewrite (wr_pos _ _ _ HW). unfold tpos, eod. rewrite take_ge by lia. apply (f_equal zlen) in Eb. rewrite !zlen_app in Eb. lia. }
  assert (forall t, (hoffs ++ [f_pos wf]) = (fun q => tpos W (ts ++ [t]) q) <$> seq 0 (S i)) as Ehoffs.
  { intros t. rewrite seq_S, fmap_app, Eh, Epos. cbn. rewrite tpos_snoc by lia. f_equal. apply list_fmap_ext. intros q x Hx.
    apply lookup_seq in Hx as [-> Hq]. rewrite tpos_snoc by lia. done. }
  assert (forall t, filled l t (2 * length l) -> tables_for (take (S i) (c_added c)) (ts ++ [t])) as Hfor.
  { intros t Ht. split; [rewrite length_app, length_take; cbn [length]; lia|]. intros q l' t' Hq Ht'.
    assert (q < S i)%nat as Hqi by (apply lookup_lt_Some in Hq; rewrite length_take in Hq; lia). rewrite lookup_take_lt in Hq by done.
    destruct (decide (q = i)) as [->|Hne].
    - rewrite lookup_app_r, Hlen, Nat.sub_diag in Ht' by lia. cbn in Ht'. by simplify_eq.
    - rewrite lookup_app_l in Ht' by lia. apply (Hfill q); [|done]. by rewrite lookup_take_lt by lia. }
  destruct (Z.eqb_spec (zlen l * 2) 0) as [E0|E0].
  { assert (l = []) as -> by (destruct l; [done|rewrite zlen_cons in E0; pose proof (zlen_nonneg l); lia]).
    exists wf, (ts ++ [[]]). split; [done|]. split; [|exists b, cc|by apply Ehoffs|done].
    - apply Hfor. apply (filled_empty 0).
    - split; [done|]. by rewrite tables_snoc, app_nil_r. }
  assert (Z.to_nat (zlen l * 2) = (2 * length l)%nat) as En by (unfold zlen; lia).
  assert (zlen l * 2 = Z.of_nat (2 * length l)) as Ez by (unfold zlen; lia).
  destruct (fill_table_ok [] l (replicate (2 * length l) (0, 0)) (2 * length l) (filled_empty _)) as (t & Et & HF).
  { intros w Hw. destruct (ch_from _ _ _ HC i l w El Hw) as (m & r & Er & -> & _). by eapply W_hash. } { lia. } { cbn [length]. unfold zlen in E0. lia. }
  rewrite En, Ez, Et. cbn [rbind].
  destruct (db_file_write_ok wf b cc (table_bytes t) HW) as (wf' & b' & cc' & Ew & HW' & Eb' & _).
  { rewrite zlen_table_bytes. pose proof (fl_length _ _ _ HF) as Elt. cbn [app] in HF. pose proof (tables_size _ _ (Hfor t HF)) as Hz.
    rewrite tables_snoc, zlen_app, zlen_table_bytes in Hz. pose proof (gr_size _ GW) as Hg. rewrite weights_file in Hg.
    assert (zlen (concat (take (S i) (c_added c))) <= zlen W) as Hle.
    { pose proof (ch_count _ _ _ HC) as Hc. rewrite <- (take_drop (S i) (c_added c)), concat_app, length_app in Hc. unfold zlen. lia. }
    apply (f_equal zlen) in Eb. rewrite !zlen_app in Eb. lia. }
  rewrite Ew. exists wf', (ts ++ [t]). split; [done|]. split; [by apply Hfor|exists b', cc'|by apply Ehoffs|].
  - split; [done|]. by rewrite Eb', app_assoc, Eb, tables_snoc, app_assoc.
  - by rewrite (db_file_write_ino _ _ _ _ Ew).
Qed.

Lemma header_zip ts : tables_for (c_added c) ts ->
  zip ((fun q => tpos W ts q) <$> seq 0 256) ((fun n => u32 (n * 2)) <$> c_hlens c) = header W ts.
Proof.
  intros [Hl Hf]. rewrite (ch_length _ _ _ HC) in Hl. rewrite (ch_hlens _ _ _ HC). apply list_eq. intros i. unfold header. rewrite list_lookup_imap.
  destruct (decide (i < 256)%nat) as [Hi|Hi].
  - destruct (chain_at i Hi) as (l & El & _ & _ & Hs). destruct (lookup_lt_is_Some_2 ts i ltac:(lia)) as [t Et]. rewrite Et. cbn [fmap option_fmap option_map].
    apply lookup_zip_with_Some. exists (tpos W ts i), (u32 (zlen l * 2)). split; [|split].
    + do 2 f_equal. pose proof (fl_length _ _ _ (Hf i l t El Et)) as Elt. pose proof (zlen_nonneg l). rewrite (uwrap_small 32) by lia. unfold zlen. lia.
    + rewrite list_lookup_fmap, lookup_seq_lt by done. done.
    + by rewrite !list_lookup_fmap, El.
  - rewrite (lookup_ge_None_2 ts) by lia. apply lookup_ge_None_2. rewrite length_zip_with, !length_fmap, length_seq. lia.
Qed.

Lemma write_hashchains_ok b cc : writing (c_wf c) b cc -> b ++ cc = records W ->
  exists wf ts, write_hashchains c = Ret (with_wf c wf, 0) /\ db_format W ts /\ f_open wf = true /\ f_data wf = file_of W ts /\
    f_ino wf = f_ino (c_wf c).
Proof.
  intros HW Eb. unfold write_hashchains.
  destruct maxlen_ok as (m & -> & Hm). cbn [rbind]. rewrite alloc_ok by lia. cbn [negb].
  match goal with |- context [for_range 0 256 ?b _] => set (body := b) end.
  destruct (for_range_total (fun k '(wf, hoffs) => exists ts, tables_st (Z.to_nat k) wf hoffs ts) 0 256 body (c_wf c, []))
    as ([wf hoffs] & -> & ts & HT).
  - lia.
  - exists []. split; [split; [done|by intros ? ? ? ?]|exists b, cc; by rewrite app_nil_r|done|done].
  - intros k [wf hoffs] Hk (ts & HT). destruct (table_step (Z.to_nat k) wf hoffs ts ltac:(lia) HT) as (wf' & ts' & E & HT').
    rewrite Z2Nat.id in E by lia. exists (wf', hoffs ++ [f_pos wf]). split; [exact E|]. exists ts'. by replace (Z.to_nat (k + 1)) with (S (Z.to_nat k)) by lia.
  - cbn [rbind]. change (Z.to_nat 256) with 256%nat in HT. destruct HT as [HT (b1 & cc1 & HW1 & Eb1) -> Ei].
    rewrite take_ge in HT by (rewrite (ch_length _ _ _ HC); done). rewrite (header_zip ts HT).
    pose proof (tables_format _ _ ts HC HT) as HF. destruct (db_file_flush_ok wf b1 cc1 HW1) as (f1 & E1 & HW2 & _). rewrite E1. cbn [rbind Z.eqb negb].
    destruct (write_header_ok f1 (b1 ++ cc1) (table_bytes (header W ts)) HW2 (zlen_hdr _ _ HF)) as (f2 & f3 & f4 & E2 & E3 & E4 & Ho & Hd & _).
    rewrite E2. cbn [Z.eqb negb]. rewrite E3. cbn [rbind Z.eqb negb]. rewrite E4. cbn [rbind Z.eqb]. exists f4, ts. split; [done|]. split; [done|]. split; [done|].
    split; [rewrite Hd, Eb1; done|]. rewrite (db_file_flush_ino _ _ _ E4), (db_file_write_ino _ _ _ _ E3).
    rewrite (db_file_seek_ino _ _ _ _ E2). pose proof (db_file_flush_ino _ _ _ E1). congruence.
Qed.
End tables.
End RwcdbTable.
