(* ===== verification/RwcdbSync.v ===== *)
(** * Committing the updates of the key-value store

    rwcdb_sync (lib-src/rwcdb/rwcdb.c) writes a new file with all records and
    renames it over the old one: afterwards the file holds the whole map and
    nothing is pending.  When the rename fails, the map is the same as before. *)
From Stdlib Require Import ZArith Lia.
From stdpp Require Import base list numbers gmap.
From S2P Require Import Prelude.
From S2P Require Import Text.
From S2P Require Import PdbArray.
From S2P Require Import RwcdbFile.
From S2P Require Import Rwcdb.
From S2P Require Import RwcdbFormat.
From S2P Require Import RwcdbFind.
From S2P Require Import RwcdbMem.
From S2P Require Import RwcdbOps.
From S2P Require Import RwcdbNext.
From S2P Require Import RwcdbDump.
From S2P Require Import RwcdbTable.
Import RwcdbFile Rwcdb RwcdbFormat RwcdbFind RwcdbMem RwcdbOps RwcdbNext RwcdbDump RwcdbTable.

Module RwcdbSync.

(** ** The records of the new file *)
Lemma NoDup_filter_keys (P : rec -> Prop) `{!forall r, Decision (P r)} (rs : list rec) : NoDup rs.*1 -> NoDup (filter P rs).*1.
Proof.
  induction rs as [|r rs IH]; [done|]. rewrite fmap_cons, NoDup_cons. intros [Hr Hn]. rewrite filter_cons. case_decide; [|auto].
  rewrite fmap_cons, NoDup_cons. split; [|auto]. intros (x & E & Hx)%list_elem_of_fmap. apply list_elem_of_filter in Hx as [_ Hx].
  apply Hr. rewrite E. by apply list_elem_of_fmap_2.
Qed.

Section records.
Context (rs : list rec) (ts : list table) (F : db_format rs ts) (c : rwcdb) (Hm : mem c) (M : dbmap).
Context (HR : reps rs (c_removed c) (c_added c) M) (HS : storable M).
Abbreviation W := (all_records rs c).

Lemma all_keys : NoDup W.*1.
Proof.
  unfold all_records. rewrite fmap_app, NoDup_app. split; [|split].
  - by apply NoDup_filter_keys, (df_keys _ _ F).
  - intros k (r & -> & Hr)%list_elem_of_fmap (w & E & Hw)%list_elem_of_fmap. apply list_elem_of_filter in Hr as [Hr _].
    apply Hr. unfold pkeys. rewrite fmap_app, elem_of_app. right. apply list_elem_of_fmap in Hw as (x & -> & Hx). rewrite E. by apply (list_elem_of_fmap_2 wkey).
  - rewrite <- list_fmap_compose. pose proof (mo_keys _ _ _ Hm) as Hn. rewrite fmap_app in Hn. by apply NoDup_app in Hn as (_ & _ & Hn).
Qed.

Lemma all_elem k d : (k, d) ∈ W <-> M !! k = Some d.
Proof.
  unfold all_records. rewrite elem_of_app. split.
  - intros [[Hk Hin]%list_elem_of_filter|(w & [= -> ->] & Hw)%list_elem_of_fmap].
    + rewrite (rp_disk _ _ _ _ HR k Hk). by apply elem_of_list_to_map_1; [apply (df_keys _ _ F)|].
    + by apply (rp_added _ _ _ _ HR).
  - intros E. destruct (decide (k ∈ pkeys c)) as [Hk|Hk].
    + right. unfold pkeys in Hk. rewrite fmap_app, elem_of_app in Hk. destruct Hk as [(w & -> & Hw)%list_elem_of_fmap|(w & -> & Hw)%list_elem_of_fmap].
      * rewrite (rp_removed _ _ _ _ HR w Hw) in E. done.
      * rewrite (rp_added _ _ _ _ HR w Hw) in E. simplify_eq. apply list_elem_of_fmap. by exists w.
    + left. apply list_elem_of_filter. split; [done|]. rewrite (rp_disk _ _ _ _ HR k Hk) in E. by apply elem_of_list_to_map_2.
Qed.

Lemma all_perm : W ≡ₚ map_to_list M.
Proof.
  apply NoDup_Permutation; [by eapply NoDup_fmap_1, all_keys|apply NoDup_map_to_list|].
  intros [k d]. by rewrite all_elem, elem_of_map_to_list.
Qed.

Lemma all_good : good_records W.
Proof.
  destruct HS as [Hw Hh]. split.
  - apply all_keys.
  - unfold all_records. apply Forall_app. split.
    + apply Forall_forall. intros r Hr. apply list_elem_of_filter in Hr as [_ Hr]. pose proof (df_data _ _ F) as Hd.
      rewrite Forall_forall in Hd. by apply Hd.
    + apply Forall_forall. intros r Hr. apply list_elem_of_fmap in Hr as (w & -> & Hw').
      apply elem_concat in Hw' as (i & l & El & Hin). by destruct (mo_ad _ _ _ Hm i l w El Hin) as (_ & Hd & _).
  - intros [k d] Hin%all_elem. apply Hh. eauto.
  - unfold weight in Hw. by rewrite all_perm.
Qed.

Lemma all_size : 2048 + zlen (records W) < 2 ^ 31.
Proof. pose proof (gr_size _ all_good) as Hg. rewrite weights_file in Hg. pose proof (zlen_nonneg W). lia. Qed.
End records.

(** ** Moving the entries of old records into the lists *)
Definition slot (w : wrentry) : nat := Z.to_nat (Z.land (w_hash w) 255).

Lemma slot_land w : 0 <= w_hash w -> Z.of_nat (slot w) = Z.land (w_hash w) 255 /\ (slot w < 256)%nat.
Proof.
  intros Hw. unfold slot. change 255 with (Z.ones 8). rewrite Z.land_ones by lia. pose proof (Z.mod_pos_bound (w_hash w) (2 ^ 8) ltac:(lia)).
  rewrite Z2Nat.id; lia.
Qed.

(** The lists [ad'] are the lists [ad] with the entries [old] in front. *)
Record prefixed (old : list wrentry) (ad ad' : list (list wrentry)) : Prop := {
  px_length : length ad' = length ad;
  px_lists i l : ad' !! i = Some l -> exists pre l0, ad !! i = Some l0 /\ l = pre ++ l0 /\ forall w, w ∈ pre <-> w ∈ old /\ slot w = i;
  px_count : (length (concat ad') = length old + length (concat ad))%nat
}.

Lemma prefixed_refl ad : prefixed [] ad ad.
Proof. split; [done| |done]. intros i l E. exists [], l. split; [done|]. split; [done|]. intros w. rewrite !elem_of_nil. tauto. Qed.

Lemma prefixed_snoc old ad ad' w l : prefixed old ad ad' -> ad' !! slot w = Some l -> prefixed (old ++ [w]) ad (<[slot w := w :: l]> ad').
Proof.
  intros [P1 P2 P3] El. split.
  - by rewrite length_insert.
  - intros i l' Hi. apply list_lookup_insert_Some in Hi as [(<- & <- & _)|[Hne Hi]].
    + destruct (P2 _ _ El) as (pre & l0 & E0 & -> & Hp). exists (w :: pre), l0. split; [done|]. split; [done|]. intros x.
      rewrite elem_of_cons, elem_of_app, list_elem_of_singleton, Hp. split; [intros [->|[? ?]]; tauto|]. intros [[?| ->] ?]; tauto.
    + destruct (P2 _ _ Hi) as (pre & l0 & E0 & -> & Hp). exists pre, l0. split; [done|]. split; [done|]. intros x.
      rewrite elem_of_app, list_elem_of_singleton, Hp. split; [tauto|]. intros [[?| ->] ?]; [tauto|done].
  - rewrite (concat_alter _ _ _ _ El), length_app. rewrite (concat_split _ _ _ El) in P3. rewrite !length_app in *. cbn [length]. lia.
Qed.

Lemma move_entries_ok c old : length (c_added c) = 256%nat -> c_hlens c = zlen <$> c_added c -> (forall w, w ∈ old -> 0 <= w_hash w) ->
  Z.of_nat (length old + length (concat (c_added c))) < 2 ^ 31 ->
  exists hl ad, move_entries c old = Ret (with_lists c hl (c_removed c) ad) /\ hl = zlen <$> ad /\ prefixed old (c_added c) ad.
Proof.
  intros Hl Hh Hw Hs. unfold move_entries. induction old as [|w old IH] using rev_ind.
  { exists (c_hlens c), (c_added c). split; [by destruct c|]. split; [done|apply prefixed_refl]. }
  rewrite fold_left_app. cbn [fold_left]. rewrite length_app in Hs. cbn [length] in Hs.
  destruct IH as (hl & ad & -> & -> & HP); [intros x Hx; apply Hw; rewrite elem_of_app; auto|lia|]. cbn [rbind]. unfold move_entry.
  destruct (slot_land w) as [Es Hs']; [apply Hw; rewrite elem_of_app, list_elem_of_singleton; auto|]. rewrite <- Es.
  cbn [with_lists c_added c_hlens c_removed]. pose proof (px_length _ _ _ HP) as Hlen.
  destruct (lookup_lt_is_Some_2 ad (slot w)) as [l El]; [lia|].
  rewrite (aget_ok ad _ l); [|lia|by rewrite Nat2Z.id]. cbn [rbind]. rewrite aset_ok by (unfold zlen; lia). cbn [rbind].
  rewrite (aget_ok (zlen <$> ad) _ (zlen l)); [|lia|by rewrite Nat2Z.id, list_lookup_fmap, El]. cbn [rbind].
  rewrite aset_ok by (unfold zlen; rewrite length_fmap; lia). cbn [rbind]. rewrite Nat2Z.id.
  eexists _, (<[slot w := w :: l]> ad). split; [done|]. split; [|by apply prefixed_snoc]. rewrite list_fmap_insert. f_equal. rewrite zlen_cons, Z.add_comm.
  apply uwrap_small. pose proof (px_count _ _ _ HP) as Hc. rewrite (concat_split _ _ _ El), !length_app in Hc. unfold zlen. lia.
Qed.

(** ** The lists after dump_records and the move *)
Section chains.
Context (rs : list rec) (ts : list table) (F : db_format rs ts) (c0 : rwcdb) (Hm0 : mem c0).
Abbreviation W := (all_records rs c0).
Context (c : rwcdb) (old : list wrentry) (HD : dump_st rs ts c0 (length rs) (length (concat (c_added c0))) c old).

Lemma dump_mem_ok : mem c.
Proof. destruct (ds_lists _ _ _ _ _ _ _ HD) as (-> & -> & _). eapply same_mem; [apply HD|done]. Qed.

Lemma dump_written : written rs c0 (length rs) (length (concat (c_added c0))) = W.
Proof. unfold written, all_records. rewrite firstn_all, take_ge; [done|]. by rewrite length_fmap. Qed.

Lemma dump_old_eq : old = oldents (live c0 rs).
Proof. rewrite (ds_old _ _ _ _ _ _ _ HD). by rewrite firstn_all. Qed.

(** Where the added entry number [q] went. *)
Lemma dump_added q w : concat (c_added c) !! q = Some w ->
  W !! (length (live c0 rs) + q)%nat = Some (pair_of w) /\ w_pos w = rpos W (length (live c0 rs) + q).
Proof.
  intros Ew. pose proof (Forall2_concat _ _ _ (ds_ad _ _ _ _ _ _ _ HD)) as Hc. split.
  - unfold all_records. rewrite lookup_app_r by lia. replace (length (live c0 rs) + q - length (live c0 rs))%nat with q by lia.
    by rewrite <- (same_pairs _ _ Hc), list_lookup_fmap, Ew.
  - rewrite (ds_pos _ _ _ _ _ _ _ HD q w); [|rewrite (Forall2_length _ _ _ Hc); by eapply lookup_lt_Some|done].
    by rewrite dump_written, firstn_all.
Qed.

Lemma dump_oldent w : w ∈ old -> exists m r, live c0 rs !! m = Some r /\ w = oldent (cdb_hash r.1) (rpos W m) /\ W !! m = Some r.
Proof.
  rewrite dump_old_eq. intros (m & Em)%list_elem_of_lookup. unfold oldents in Em. rewrite list_lookup_imap in Em.
  destruct (live c0 rs !! m) as [r|] eqn:Er; [|done]. cbn in Em. simplify_eq. pose proof (lookup_lt_Some _ _ _ Er). exists m, r. split; [done|].
  unfold all_records. rewrite rpos_app by lia. rewrite lookup_app_l by done. done.
Qed.

Lemma tab_slot w r : w_hash w = cdb_hash r -> slot w = tab r.
Proof. unfold slot, tab. by intros ->. Qed.

Lemma chains_after ad : prefixed old (c_added c) ad -> chains_ok W (zlen <$> ad) ad.
Proof.
  intros HP. pose proof HP as [P1 P2 P3]. pose proof dump_mem_ok as Hm.
  assert (length old = length (live c0 rs)) as Eold by (rewrite dump_old_eq; apply length_imap).
  assert (length (concat (c_added c)) = length (concat (c_added c0))) as Ead
    by (symmetry; eapply Forall2_length, Forall2_concat, (ds_ad _ _ _ _ _ _ _ HD)).
  split; [by rewrite P1, (mo_added _ _ _ Hm)|done| | |].
  - intros i l w El Hw. destruct (P2 i l El) as (pre & l0 & E0 & -> & Hp). apply elem_of_app in Hw as [Hw|Hw].
    + apply Hp in Hw as [Hw <-]. destruct (dump_oldent w Hw) as (m & r & _ & -> & Er). exists m, r. split; [done|]. split; [done|]. split; [done|].
      symmetry. by apply tab_slot.
    + destruct (mo_ad _ _ _ Hm i l0 w E0 Hw) as (Gw & _ & Et). assert (w ∈ concat (c_added c)) as Hc by (apply elem_concat; eauto).
      apply list_elem_of_lookup in Hc as [q Hq]. destruct (dump_added q w Hq) as [E1 E2]. exists (length (live c0 rs) + q)%nat, (pair_of w).
      split; [done|]. split; [apply (we_hash _ Gw)|]. split; [done|]. exact Et.
  - intros m r l Er El. destruct (P2 _ l El) as (pre & l0 & E0 & -> & Hp). unfold all_records in Er. apply lookup_app_Some in Er as [Er|[Hge Er]].
    + set (w := oldent (cdb_hash r.1) (rpos (live c0 rs) m)). exists w. pose proof (lookup_lt_Some _ _ _ Er). rewrite elem_of_app. split; [left|].
      * apply Hp. split; [|by apply tab_slot]. rewrite dump_old_eq. apply list_elem_of_lookup. exists m. unfold oldents. by rewrite list_lookup_imap, Er.
      * split; [done|]. unfold w, all_records. cbn [oldent w_pos]. by rewrite rpos_app by lia.
    + rewrite list_lookup_fmap in Er. set (q := (m - length (live c0 rs))%nat) in *.
      destruct (concat (c_added c0) !! q) as [w0|] eqn:E0'; [|done]. cbn in Er. simplify_eq.
      destruct (Forall2_lookup_l _ _ _ _ _ (Forall2_concat _ _ _ (ds_ad _ _ _ _ _ _ _ HD)) E0') as (w & Ew & Hsame).
      destruct (dump_added q w Ew) as [E1 E2]. destruct (same_pair _ _ Hsame) as ([= Ek Ed] & Eh & _). exists w.
      assert (w ∈ concat (c_added c)) as Hc by (by eapply list_elem_of_lookup_2). apply elem_concat in Hc as (i & li & Ei & Hin).
      destruct (mo_ad _ _ _ Hm i li w Ei Hin) as (Gw & _ & Et). cbn [pair_of fst] in *. rewrite elem_of_app. split; [right|].
      * rewrite <- Ek, Et, Ei in E0. by simplify_eq.
      * split; [by rewrite (we_hash _ Gw), Ek|]. rewrite E2. f_equal. lia.
  - unfold all_records. rewrite length_app, length_fmap. lia.
Qed.
End chains.

(** ** rwcdb_sync *)

(** [rename] works. *)
Class RenameOk `{Rename} : Prop := rename_works : rename_ok = true.

(** The directory holds a database file with the map [M]. *)
Definition on_disk (s : fs) (M : dbmap) : Prop :=
  exists ino rs ts, fs_db s = Some (ino, file_of rs ts) /\ ino < fs_ino s /\ db_format rs ts /\ rs ≡ₚ map_to_list M.

Lemma disk_map (rs : list rec) (M : dbmap) : NoDup rs.*1 -> rs ≡ₚ map_to_list M -> (list_to_map rs : dbmap) = M.
Proof. intros Hn Hp. rewrite <- (list_to_map_to_list M). by apply list_to_map_proper. Qed.

Section sync.
Context `{AllocOk, DiskOk, Rename}.

(** Opening a database file. *)
Lemma db_file_open_ok f ino rs ts : db_format rs ts ->
  exists f', db_file_open f (Some (ino, file_of rs ts)) = Ret (f', 0) /\ rf_ok rs ts f' /\ f_ino f' = ino.
Proof.
  intros F. pose proof (df_small _ _ F) as Hs. pose proof (zlen_file _ _ F) as Hz. pose proof (eod_small _ _ F). pose proof (zlen_nonneg (tables ts)).
  unfold db_file_open. rewrite (uwrap_small 32) by lia. set (f0 := {| f_open := true |}). cbv zeta.
  assert (f_len f0 = zlen (file_of rs ts)) as El by done. destruct (Z.eqb_spec (f_len f0) 0); [lia|]. cbn [negb].
  destruct (lookup_lt_is_Some_2 ts 0) as [t Et]; [rewrite (df_tables _ _ F); lia|]. destruct (tpos_bound rs ts F _ _ Et) as [T1 T2].
  pose proof (zlen_nonneg t). assert (tpos rs ts 0 = eod rs) as Et0 by (unfold tpos; change (tables (take 0 ts)) with (@nil Z); rewrite (@zlen_nil Z); lia).
  destruct (db_readints_ok (area rs ts) f0 0 (tpos rs ts 0) (zlen t)) as (f1 & -> & Hr & (S1 & S2 & S3 & S4) & _); [|lia|lia| |lia|lia|by apply (slice_header rs ts 0%nat t)|].
  - split; try done; [|by left]. unfold f0. fcbn. rewrite (@zlen_nil Z). lia.
  - left. split; [|done]. left. exists 0%nat. split; [lia|done].
  - cbn [rbind]. exists (with_eod f1 (tpos rs ts 0)). split; [done|]. split; [|done]. split; [|done|done].
    destruct Hr as [R1 R2 R3 R4 R5]. by split.
Qed.

Lemma seek_fresh f : fresh f -> exists f', db_file_seek f 2048 = (f', 0) /\ writing f' [] [] /\ f_ino f' = f_ino f.
Proof.
  intros [F1 F2 F3 F4]. unfold db_file_seek. rewrite F1. eexists. split; [done|]. split; [|done]. split; cbn; try done. auto.
Qed.

(** Everything up to the rename. *)
Record prepared (rs : list rec) (ts : list table) (c c4 : rwcdb) (ts' : list table) : Prop := {
  pr_format : db_format (all_records rs c) ts';
  pr_data : f_data (c_wf c4) = file_of (all_records rs c) ts';
  pr_ino : f_ino (c_wf c4) = f_ino (c_wf c);
  pr_rf : rf_ok rs ts (c_rf c4) /\ same_file (c_rf c) (c_rf c4);
  pr_rest : c_readonly c4 = c_readonly c /\ c_fs c4 = c_fs c /\ c_removed c4 = c_removed c;
  pr_lists : exists old ad1, Forall2 (Forall2 same_entry) (c_added c) ad1 /\ prefixed old ad1 (c_added c4) /\
    (forall w, w ∈ old -> w_klen w = 0 /\ w_dlen w = 0);
  pr_hlens : c_hlens c4 = zlen <$> c_added c4
}.

Lemma sync_prepare c M rs ts : open_ok c rs ts -> fresh (c_wf c) -> reps rs (c_removed c) (c_added c) M -> storable M ->
  exists c4 ts', prepared rs ts c c4 ts' /\
    rwcdb_sync c = (if negb rename_ok then recover c4
                    else
                      let* c := checkdb (with_fs (with_wf c4 (db_file_close (c_wf c4)))
                                 {| fs_db := Some (f_ino (c_wf c4), f_data (c_wf c4)); fs_tmp := false; fs_ino := fs_ino (c_fs c4) |}) in
                      Ret (c, 1)).
Proof.
  intros HO Hfr HR HS. pose proof HO as [F Hf Hm _ _ _ _]. unfold rwcdb_sync. rewrite (fr_open _ Hfr). cbn [negb].
  destruct (seek_fresh _ Hfr) as (wf & -> & HW & Ewf). cbn [Z.eqb negb]. set (c1 := with_wf c wf).
  pose proof (all_good rs ts F c Hm M HR HS) as GW. pose proof (all_size rs ts F c Hm M HR HS) as Hsz.
  destruct (dump_records_ok rs ts F c1 Hm Hsz Hf HW) as (c2 & old & -> & HD). cbn [rbind Z.eqb negb].
  pose proof HD as [D1 D2 D3 (D4 & D5 & D6 & D7) D8 D9 (b & cc & HW2 & Eb2) D10 D11].
  set (c2' := with_wf c2 _). pose proof (dump_mem_ok rs ts c1 Hm c2 old HD) as Hm2.
  assert (forall w, w ∈ old -> w_klen w = 0 /\ w_dlen w = 0 /\ 0 <= w_hash w) as Hold.
  { intros w Hw. destruct (dump_oldent rs ts c1 c2 old HD w Hw) as (m & r & _ & -> & _). pose proof (cdb_hash_bound r.1). split; [done|]. split; [done|cbn; lia]. }
  assert (Z.of_nat (length old + length (concat (c_added c2))) < 2 ^ 31) as Hcount.
  { pose proof (gr_size _ GW). pose proof (weights_length (all_records rs c)) as Hw. unfold all_records in Hw at 1. unfold zlen in Hw. rewrite length_app, length_fmap in Hw.
    rewrite (dump_old_eq rs ts c1 c2 old HD). unfold oldents. rewrite length_imap.
    rewrite <- (Forall2_length _ _ _ (Forall2_concat _ _ _ D8)). cbn [c1 with_wf c_added]. change (live c1 rs) with (live c rs). lia. }
  destruct (move_entries_ok c2' old) as (hl & ad & -> & -> & HP);
    [apply (mo_added _ _ _ Hm2)|apply (mo_hlens _ _ _ Hm2)|apply Hold|exact Hcount|]. cbn [rbind].
  set (c3 := with_lists c2' _ _ _). pose proof (chains_after rs ts c1 Hm c2 old HD ad HP) as HC.
  destruct (write_hashchains_ok (all_records rs c) GW c3 HC b cc) as (wf4 & ts' & -> & HF' & Ho4 & Hd4 & Ei4).
  - destruct HW2 as [W1 W2 W3 W4 W5 W6 W7]. by split.
  - rewrite Eb2. f_equal. apply (dump_written rs c1).
  - cbn [rbind Z.eqb negb]. exists (with_wf c3 wf4), ts'. split; [|done].
    split; try done.
    + cbn [with_wf c_wf]. rewrite Ei4. cbn [c3 with_lists c2' with_wf c_wf with_eod f_ino]. rewrite D10. exact Ewf.
    + exists old, (c_added c2). split; [done|]. split; [done|]. intros w Hw. destruct (Hold w Hw) as (? & ? & _). done.
Qed.

(** Nothing is pending. *)
Lemma live_none c rs : pkeys c = [] -> live c rs = rs.
Proof. intros E. induction rs as [|r rs IH]; [done|]. rewrite live_cons_out, IH; [done|]. rewrite E. apply not_elem_of_nil. Qed.

Lemma mem_none : mem_ok (replicate 256 0) [] (replicate 256 []).
Proof.
  split; [done|done|by intros w ?%not_elem_of_nil| |apply NoDup_nil; done|done].
  intros i l w [-> _]%lookup_replicate Hw. by apply elem_of_nil in Hw.
Qed.

Lemma reps_none (rs : list rec) (M : dbmap) : NoDup rs.*1 -> rs ≡ₚ map_to_list M -> reps rs [] (replicate 256 []) M.
Proof.
  intros Hn Hp. split; [intros w Hw|by intros w ?%not_elem_of_nil|].
  - apply elem_concat in Hw as (i & l & [-> _]%lookup_replicate & Hw). by apply elem_of_nil in Hw.
  - intros k _. by rewrite (disk_map rs M).
Qed.

Lemma rwcdb_sync_ok `{!RenameOk} c M : rep c M ->
  exists c', rwcdb_sync c = Ret (c', 1) /\ rep c' M /\ f_open (c_wf c') = false /\ on_disk (c_fs c') M.
Proof.
  intros (rs & ts & HO & HR & HS). pose proof HO as [F Hf Hm Hrw Hdb Hino Hwf]. destruct Hwf as [(W1 & W2 & W3 & W4)|(W1 & W2 & W3)].
  - unfold rwcdb_sync. rewrite W1. cbn [negb]. unfold checkdb. rewrite Hdb, Z.eqb_refl. cbn [rbind]. exists c. split; [done|].
    split; [by exists rs, ts|]. split; [done|]. exists (f_ino (c_rf c)), rs, ts. split; [done|]. split; [done|]. split; [done|].
    rewrite <- (all_perm rs ts F c Hm M HR). unfold all_records. rewrite W4, app_nil_r, live_none; [done|].
    unfold pkeys. by rewrite W3, W4.
  - destruct (sync_prepare c M rs ts HO W1 HR HS) as (c4 & ts' & [P1 P2 P3 [P4 P4'] (P5 & P6 & P7) _ _] & ->). rewrite rename_works. cbn [negb].
    pose proof (all_perm rs ts F c Hm M HR) as Hperm. unfold checkdb.
    cbn [with_fs with_wf c_fs fs_db c_rf]. destruct P4' as (_ & _ & _ & Ei). rewrite P2, P3, Ei.
    destruct (Z.eqb_spec (f_ino (c_wf c)) (f_ino (c_rf c))); [lia|].
    destruct (db_file_open_ok (db_file_close (c_rf c4)) (f_ino (c_wf c)) _ _ P1) as (f' & -> & R' & I'). cbn [rbind Z.eqb cassert].
    eexists. split; [done|].
    assert (on_disk {| fs_db := Some (f_ino (c_wf c), file_of (all_records rs c) ts'); fs_tmp := false; fs_ino := fs_ino (c_fs c4) |} M) as Hdisk.
    { exists (f_ino (c_wf c)), (all_records rs c), ts'. cbn [fs_db fs_ino]. rewrite P6. split; [done|]. split; [lia|done]. }
    split; [|done]. exists (all_records rs c), ts'. split; [|split; [|done]].
    + split; cbn; try done; [apply mem_none|by rewrite P5|by rewrite I'|rewrite P6, I'; lia|by left].
    + apply reps_none; [apply P1|done].
Qed.

(** *** When the rename fails *)

(** Taking the entries without key and data out again. *)
Definition keep (w : wrentry) : bool := negb ((w_klen w =? 0) && (w_dlen w =? 0)).

Lemma filter_all_true {A} (p : A -> bool) l : (forall x, x ∈ l -> p x = true) -> List.filter p l = l.
Proof.
  induction l as [|x l IH]; intros Hl; cbn; [done|]. rewrite Hl by (by left). rewrite IH; [done|]. intros y Hy. apply Hl. by right.
Qed.
Lemma filter_all_false {A} (p : A -> bool) l : (forall x, x ∈ l -> p x = false) -> List.filter p l = [].
Proof.
  induction l as [|x l IH]; intros Hl; cbn; [done|]. rewrite Hl by (by left). apply IH. intros y Hy. apply Hl. by right.
Qed.

Lemma recover_ok c old ad : length ad = 256%nat -> c_hlens c = zlen <$> c_added c -> prefixed old ad (c_added c) ->
  (forall w, w ∈ old -> w_klen w = 0 /\ w_dlen w = 0) -> (forall i l w, ad !! i = Some l -> w ∈ l -> w_dlen w <> 0) ->
  zlen (concat ad) < 2 ^ 31 ->
  recover c = Ret (with_lists c (zlen <$> ad) (c_removed c) ad, -1).
Proof.
  intros Hl Hh [P1 P2 P3] Hold Had Hsm. unfold recover.
  match goal with |- context [forZ 0 256 ?b _] => set (body := b) end.
  destruct (forZ_total (fun k c' => let ad' := take (Z.to_nat k) ad ++ drop (Z.to_nat k) (c_added c) in
      c' = with_lists c (zlen <$> ad') (c_removed c) ad') 0 256 body c) as (c' & -> & E).
  - lia.
  - cbv zeta. rewrite Z2Nat.inj_0, take_0, drop_0, app_nil_l, <- Hh. by destruct c.
  - intros k c' Hk ->. set (n := Z.to_nat k). destruct (lookup_lt_is_Some_2 (c_added c) n) as [l El]; [lia|].
    destruct (P2 n l El) as (pre & l0 & E0 & -> & Hpre). cbv zeta. set (ad' := take n ad ++ drop n (c_added c)).
    assert (length (take n ad) = n) as En by (rewrite length_take; lia).
    assert (length ad' = 256%nat) as Elen by (unfold ad'; rewrite length_app, En, length_drop; lia).
    assert (ad' !! n = Some (pre ++ l0)) as Ead.
    { unfold ad'. rewrite lookup_app_r, En, Nat.sub_diag, lookup_drop, Nat.add_0_r by lia. done. }
    unfold body. cbn [with_lists c_added c_hlens c_removed].
    rewrite (aget_ok ad' k (pre ++ l0)) by (lia || done). cbn [rbind].
    rewrite (aget_ok (zlen <$> ad') k (zlen (pre ++ l0))); [|lia|by rewrite list_lookup_fmap; fold n; rewrite Ead]. cbn [rbind].
    fold keep. assert (List.filter keep (pre ++ l0) = l0) as ->.
    { rewrite List.filter_app, filter_all_false, filter_all_true; [done| |].
      - intros w Hw. unfold keep. destruct (Z.eqb_spec (w_dlen w) 0) as [E|E]; [by destruct (Had n l0 w E0 Hw)|]. by rewrite andb_false_r.
      - intros w Hw. apply Hpre in Hw as [Hw _]. destruct (Hold w Hw) as [E1 E2]. unfold keep. by rewrite E1, E2. }
    rewrite aset_ok by (unfold zlen; lia). cbn [rbind]. rewrite aset_ok by (unfold zlen; rewrite length_fmap; lia). cbn [rbind].
    eexists. split; [done|]. fold n.
    assert (<[n := l0]> ad' = take (Z.to_nat (k + 1)) ad ++ drop (Z.to_nat (k + 1)) (c_added c)) as Eins.
    { unfold ad'. replace (Z.to_nat (k + 1)) with (S n) by lia. rewrite (drop_S _ _ _ El), (take_S_r _ _ _ E0), <- app_assoc.
      rewrite insert_app_r_alt, En, Nat.sub_diag by lia. done. }
    rewrite <- Eins, list_fmap_insert. do 2 f_equal. replace (zlen (pre ++ l0) - (zlen (pre ++ l0) - zlen l0)) with (zlen l0) by lia.
    apply uwrap_small. rewrite (concat_split _ _ _ E0), !zlen_app in Hsm. pose proof (zlen_nonneg l0).
    pose proof (zlen_nonneg (concat (take n ad))). pose proof (zlen_nonneg (concat (drop (S n) ad))). lia.
  - cbn [rbind]. rewrite E. change (Z.to_nat 256) with 256%nat. cbv zeta. rewrite take_ge, (drop_ge (c_added c)), app_nil_r by lia. done.
Qed.

Lemma reps_same (rs : list rec) (rm : list wrentry) (ad ad' : list (list wrentry)) (M : dbmap) : Forall2 (Forall2 same_entry) ad ad' -> reps rs rm ad M -> reps rs rm ad' M.
Proof.
  intros Hs [R1 R2 R3]. pose proof (Forall2_concat _ _ _ Hs) as Hc. split; [|done|].
  - intros w' (n & Hn)%list_elem_of_lookup. destruct (Forall2_lookup_r _ _ _ _ _ Hc Hn) as (w & Hw & Hsw).
    destruct (same_pair _ _ Hsw) as ([= -> ->] & _). apply R1. by eapply list_elem_of_lookup_2.
  - intros k. rewrite fmap_app, (same_keys _ _ Hc), <- fmap_app. apply R3.
Qed.

Lemma rwcdb_sync_fails c M rs ts : open_ok c rs ts -> fresh (c_wf c) -> reps rs (c_removed c) (c_added c) M -> storable M -> rename_ok = false ->
  exists c', rwcdb_sync c = Ret (c', -1) /\ c_fs c' = c_fs c /\ rf_ok rs ts (c_rf c') /\ mem c' /\ reps rs (c_removed c') (c_added c') M.
Proof.
  intros HO Hfr HR HS Hren. pose proof HO as [F Hf Hm _ _ _ _].
  destruct (sync_prepare c M rs ts HO Hfr HR HS) as (c4 & ts' & [P1 P2 P3 [P4 _] (P5 & P6 & P7) (old & ad1 & S1 & S2 & S3) P8] & ->).
  rewrite Hren. cbn [negb]. pose proof (same_mem _ _ _ _ S1 Hm) as Hm1.
  rewrite (recover_ok c4 old ad1 (mo_added _ _ _ Hm1) P8 S2 S3).
  - eexists. split; [done|]. cbn. split; [done|]. split; [done|]. rewrite P7. split; [|by eapply reps_same]. by rewrite <- (mo_hlens _ _ _ Hm1).
  - intros i l w El Hw. destruct (mo_ad _ _ _ Hm1 i l w El Hw) as (Gw & Hd & _). by rewrite (went_dlen _ Gw).
  - apply Hm1.
Qed.

(** ** Opening and closing *)
Lemma rwcdb_init_ok c M : on_disk (c_fs c) M -> storable M -> fs_tmp (c_fs c) = false ->
  exists c', rwcdb_init c false = Ret (c', 0) /\ rep c' M /\ c_removed c' = [] /\ concat (c_added c') = [].
Proof.
  intros (ino & rs & ts & Edb & Hi & F & Hp) HS Ht. unfold rwcdb_init. cbn [c_fs c_rf]. rewrite Edb.
  destruct (db_file_open_ok zero_file ino rs ts F) as (f & -> & R & I). cbn [rbind Z.eqb]. eexists. split; [done|].
  split; [|done]. exists rs, ts. split; [|split; [|done]].
  - split; cbn; try done; [apply mem_none|by rewrite I|by rewrite I|by left].
  - cbn. by apply reps_none; [apply F|].
Qed.
End sync.
End RwcdbSync.
