(* ===== verification/RwcdbSpec.v ===== *)
(** * What the key-value store promises

    The store (lib-src/rwcdb/rwcdb.c) as a finite map with commands: any history of
    lookups, insertions, deletions and syncs from an empty directory gives the
    answers of the map, what has been synced is there when the database is opened
    again, a scan visits every entry once, and a failed rename loses nothing.  A key
    with the hash 0 can be lost: write_hashchains takes its slot for an empty one. *)
From Stdlib Require Import ZArith Lia.
From stdpp Require Import base list numbers gmap.
From S2P Require Import Prelude.
From S2P Require Import Text.
From S2P Require Import PdbArray.
From S2P Require Import RwcdbFile.
From S2P Require Import Rwcdb.
From S2P Require Import RwcdbFormat.
From S2P Require Import RwcdbFind.
From S2P Require Import RwcdbMem.
From S2P Require Import RwcdbOps.
From S2P Require Import RwcdbNext.
From S2P Require Import RwcdbDump.
From S2P Require Import RwcdbTable.
From S2P Require Import RwcdbSync.
Import RwcdbFile Rwcdb RwcdbFormat RwcdbFind RwcdbMem RwcdbOps RwcdbNext RwcdbDump RwcdbTable RwcdbSync.

Module RwcdbSpec.

(** ** Commands *)
Inductive command := Find (k : list Z) | Insert (k d : list Z) | Delete (k : list Z) | Sync.
Inductive answer := Data (d : option (list Z)) | Code (rc : Z).

Section run.
Context `{Alloc, Disk, Rename}.

(** A lookup as clients do it: find, then read the data at the position found. *)
Definition lookup_data (c : rwcdb) (k : list Z) : res (rwcdb * option (list Z)) :=
  let* (c, rc) := rwcdb_find c k in
  if negb (rc =? 1) then Ret (c, None)
  else
    let* (c, (rc, d)) := rwcdb_read c (rwcdb_datalen c) (rwcdb_datapos c) in
    Ret (c, if rc =? 0 then Some d else None).

Definition run (cmd : command) (c : rwcdb) : res (rwcdb * answer) :=
  match cmd with
  | Find k => let* (c, d) := lookup_data c k in Ret (c, Data d)
  | Insert k d => let* (c, rc) := rwcdb_insert c k d in Ret (c, Code rc)
  | Delete k => let* (c, rc) := rwcdb_delete c k in Ret (c, Code rc)
  | Sync => let* (c, rc) := rwcdb_sync c in Ret (c, Code rc)
  end.

Fixpoint run_all (cmds : list command) (c : rwcdb) : res (rwcdb * list answer) :=
  match cmds with
  | [] => Ret (c, [])
  | cmd :: cmds =>
      let* (c, a) := run cmd c in
      let* (c, l) := run_all cmds c in
      Ret (c, a :: l)
  end.

(** The scan of a client: every entry that rwcdb_next stops at, with its key and data. *)
Definition visit (st : rwcdb * bool * list rec) : res (rwcdb * bool * list rec + rwcdb * list rec) :=
  let '(c, init, acc) := st in
  let* (c, rc) := rwcdb_next c init in
  if negb (rc =? 1) then Ret (inr (c, acc))
  else
    let* (c, (_, k)) := rwcdb_readkey c (rwcdb_keylen c) (rwcdb_datapos c) in
    let* (c, (_, d)) := rwcdb_read c (rwcdb_datalen c) (rwcdb_datapos c) in
    Ret (inl (c, false, acc ++ [(k, d)])).

Definition scan (fuel : nat) (c : rwcdb) : res (rwcdb * list rec) := while_loop fuel visit (c, true, []).
End run.

(** The same on the map. *)
Definition spec (cmd : command) (M : dbmap) : dbmap * answer :=
  match cmd with
  | Find k => (M, Data (M !! k))
  | Insert k d => (put k d M, Code 1)
  | Delete k => (delete k M, Code (if decide (is_Some (M !! k)) then 1 else 0))
  | Sync => (M, Code 1)
  end.
Fixpoint spec_all (cmds : list command) (M : dbmap) : dbmap * list answer :=
  match cmds with
  | [] => (M, [])
  | cmd :: cmds => let '(M, a) := spec cmd M in let '(M, l) := spec_all cmds M in (M, a :: l)
  end.

(** Every map on the way can be stored. *)
Fixpoint storable_all (cmds : list command) (M : dbmap) : Prop :=
  match cmds with
  | [] => True
  | cmd :: cmds => storable (spec cmd M).1 /\ storable_all cmds (spec cmd M).1
  end.

Lemma storable_empty : storable ∅.
Proof. split; [done|]. intros k [d Hd]. by rewrite lookup_empty in Hd. Qed.

Section lookup.
Context `{AllocOk, DiskOk, Rename}.

Lemma lookup_data_ok c M rs ts k : db_format rs ts -> rf_ok rs ts (c_rf c) -> mem c -> reps rs (c_removed c) (c_added c) M ->
  exists c', lookup_data c k = Ret (c', M !! k) /\ moved rs ts c c'.
Proof.
  intros F Hf Hm HR. unfold lookup_data. destruct (rwcdb_find_ok c rs ts M k F Hf Hm HR) as (c1 & rc & -> & HM & Hc). cbn [rbind].
  destruct (M !! k) as [d|].
  - destruct Hc as (-> & _ & El & Hat). cbn [Z.eqb negb]. unfold rwcdb_datalen, rwcdb_datapos. rewrite El.
    destruct (rwcdb_read_ok c1 rs ts k d F (mv_rf _ _ _ _ HM) (moved_mem _ _ _ _ HM Hm) Hat) as (f' & -> & R & Sm). cbn [rbind Z.eqb].
    eexists. split; [done|]. eapply moved_trans; [exact HM|]. by split.
  - subst rc. cbn [Z.eqb negb]. by exists c1.
Qed.
End lookup.

Section laws.
Context `{AllocOk, DiskOk, RenameOk}.

Lemma find_then_read c M k : rep c M -> exists c', lookup_data c k = Ret (c', M !! k) /\ rep c' M.
Proof.
  intros (rs & ts & HO & HR & HS). destruct (lookup_data_ok c M rs ts k) as (c' & E & HM); [apply HO..|done|].
  exists c'. split; [done|]. exists rs, ts. split; [by eapply moved_open|]. by rewrite (mv_rm _ _ _ _ HM), (mv_ad _ _ _ _ HM).
Qed.

Lemma run_ok cmd c M : rep c M -> storable (spec cmd M).1 -> exists c', run cmd c = Ret (c', (spec cmd M).2) /\ rep c' (spec cmd M).1.
Proof.
  intros Hr Hs. destruct cmd as [k|k d|k|]; cbn [run spec fst snd] in *.
  - destruct (find_then_read c M k Hr) as (c' & -> & Hr'). by exists c'.
  - destruct (rwcdb_insert_ok c M k d Hr Hs) as (c' & -> & Hr'). by exists c'.
  - destruct (rwcdb_delete_ok c M k Hr) as (c' & rc & -> & Hr' & ->). by exists c'.
  - destruct (rwcdb_sync_ok c M Hr) as (c' & -> & Hr' & _). by exists c'.
Qed.

Lemma run_all_ok cmds c M : rep c M -> storable_all cmds M ->
  exists c', run_all cmds c = Ret (c', (spec_all cmds M).2) /\ rep c' (spec_all cmds M).1.
Proof.
  revert c M. induction cmds as [|cmd cmds IH]; intros c M Hr Hs; cbn [run_all spec_all storable_all] in *; [by exists c|].
  destruct Hs as [Hs1 Hs2]. destruct (run_ok cmd c M Hr Hs1) as (c1 & -> & Hr1). cbn [rbind].
  destruct (spec cmd M) as [M1 a]. cbn [fst snd] in *. destruct (IH c1 M1 Hr1 Hs2) as (c2 & -> & Hr2). cbn [rbind].
  destruct (spec_all cmds M1) as [M2 l]. by exists c2.
Qed.

(** ** A new database *)
Lemma chains_none : chains_ok [] (replicate 256 0) (replicate 256 []).
Proof.
  split; [done|done| |by intros m r l E|done]. intros i l w [-> _]%lookup_replicate Hw. by apply elem_of_nil in Hw.
Qed.
Lemma good_none : good_records [].
Proof. split; [apply NoDup_nil; done|done|by intros r ?%not_elem_of_nil|done]. Qed.

Lemma rwcdb_init_new c i : fs_db (c_fs c) = None -> fs_tmp (c_fs c) = false -> fs_ino (c_fs c) = i -> 0 < i ->
  exists c', rwcdb_init c false = Ret (c', 0) /\ rep c' ∅.
Proof.
  intros E1 E2 E3 Hi. unfold rwcdb_init. cbn [c_fs c_rf]. rewrite E1. cbn [db_file_open rbind Z.eqb]. unfold owrite.
  cbn [with_rf c_readonly c_wf c_fs zero_file f_open]. rewrite E2. unfold db_file_open. change (u32 (zlen [])) with 0. cbn [f_len Z.eqb negb rbind].
  set (f0 := {| f_open := true |}). set (c1 := with_fs _ _).
  assert (fresh f0) as Hfr by done. unfold rwcdb_sync. change (f_open (c_wf c1)) with true. cbn [negb]. change (c_wf c1) with f0.
  destruct (seek_fresh f0 Hfr) as (wf & -> & HW & Ew). cbn [Z.eqb negb]. set (c2 := with_wf c1 wf).
  assert (dump_records c2 = Ret (with_scan c2 None 2048, [], 0)) as ->.
  { unfold dump_records. cbn [while_loop]. unfold rwcdb_next. cbn [while_loop]. unfold next_step.
    match goal with |- context [fromhash ?c ?n] => change (fromhash c n) with (fromhash c (zlen (concat (c_added c)))); rewrite (fromhash_end c mem_none) end.
    done. }
  cbn [rbind Z.eqb negb move_entries fold_left].
  set (c3 := with_wf _ _). destruct (write_hashchains_ok [] good_none c3 chains_none [] []) as (wf4 & ts & -> & HF & Ho & Hd & Ei).
  { destruct HW as [W1 W2 W3 W4 W5 W6 W7]. by split. } { done. }
  cbn [rbind Z.eqb negb]. rewrite rename_works. cbn [negb]. unfold checkdb. cbn [with_fs with_wf c_fs fs_db c_rf f_ino c_wf].
  assert (f_ino wf4 = i) as Ei4 by (rewrite Ei; cbn; rewrite Ew; done). rewrite Hd, Ei4.
  match goal with |- context [i =? ?z] => change z with 0; destruct (Z.eqb_spec i 0); [lia|] end.
  destruct (db_file_open_ok (db_file_close (c_rf c3)) i [] ts HF) as (f' & -> & R & I). cbn [rbind Z.eqb cassert].
  eexists. split; [done|]. exists [], ts. split; [|split; [by apply reps_none; [apply NoDup_nil|]|apply storable_empty]].
  split; cbn; try done; [apply mem_none|by rewrite I|rewrite I; lia|by left].
Qed.

(** ** Scanning *)
Section scanning.
Context (rs : list rec) (ts : list table) (F : db_format rs ts) (c0 : rwcdb) (Hm0 : mem c0).
Abbreviation added0 := (pair_of <$> concat (c_added c0)).

(** The entries seen after [n] records of the file and [j] entries in memory. *)
Definition seen (n j : nat) (st : rwcdb * bool * list rec) : Prop :=
  let '(c, init, acc) := st in
  (n <= length rs)%nat /\ ((n < length rs)%nat -> j = 0%nat) /\ (j <= length (concat (c_added c0)))%nat /\ moved rs ts c0 c /\
  acc = written rs c0 n j /\ (if (init : bool) then n = 0%nat /\ j = 0%nat else c_index c = rpos rs n + Z.of_nat j).

Lemma visit_reads c1 k d acc : moved rs ts c0 c1 -> at_pos rs c1 k d -> c_klen c1 = zlen k -> c_dlen c1 = zlen d ->
  exists c2, (let* (c, (_, k)) := rwcdb_readkey c1 (rwcdb_keylen c1) (rwcdb_datapos c1) in
              let* (c, (_, d)) := rwcdb_read c (rwcdb_datalen c) (rwcdb_datapos c) in
              Ret (@inl _ (rwcdb * list rec) (c, false, acc ++ [(k, d)]))) = Ret (inl (c2, false, acc ++ [(k, d)])) /\
    moved rs ts c0 c2 /\ c_index c2 = c_index c1.
Proof.
  intros HM Hat Ek Ed. unfold rwcdb_keylen, rwcdb_datapos, rwcdb_datalen. rewrite Ek.
  destruct (rwcdb_readkey_ok c1 rs ts k d F (mv_rf _ _ _ _ HM) (moved_mem _ _ _ _ HM Hm0) Hat) as (f1 & -> & R1 & S1). cbn [rbind with_rf c_dlen c_dpos].
  assert (moved rs ts c0 (with_rf c1 f1)) as HM1 by (eapply moved_trans; [exact HM|by split]). rewrite Ed.
  destruct (rwcdb_read_ok (with_rf c1 f1) rs ts k d F R1 (moved_mem _ _ _ _ HM1 Hm0)) as (f2 & E2 & R2 & S2).
  { destruct Hat as [n En Ep|i l n w El En E1 E2 Ep]; [by eapply at_disk|by eapply at_mem]. }
  cbn [with_rf c_dpos] in E2. rewrite E2. cbn [rbind]. eexists. split; [done|]. split; [|done]. eapply moved_trans; [exact HM1|]. by split.
Qed.

(** How many entries are still to come. *)
Definition left_over (n j : nat) : nat := length (live c0 (drop n rs)) + (length (concat (c_added c0)) - j).

Lemma visit_ok n j st : seen n j st ->
  (exists c, visit st = Ret (inr (c, all_records rs c0)) /\ moved rs ts c0 c) \/
  (exists n' j' st', visit st = Ret (inl st') /\ seen n' j' st' /\
     (left_over n' j' < left_over n j)%nat).
Proof.
  destruct st as [[c init] acc]. intros (N1 & N2 & N3 & HM & -> & Hi). unfold visit.
  destruct (rwcdb_next_ok rs ts F c init n j) as (c1 & rc & -> & Hnf);
    [apply HM|by eapply moved_mem|done|done|by rewrite (mv_ad _ _ _ _ HM)|done|]. cbn [rbind].
  assert (forall l, live c l = live c0 l) as Hlive by (intros l; apply same_live; by eapply moved_pkeys).
  destruct Hnf as [c1 m r HM1 Hnm Er Hl Ht P1 P2 P3 P4 P5 P6|c1 i k l w HM1 Hl El Ew Ef Ec P1 P2 P3 P4 P5|c1 HM1 Hl Ej]; cbn [Z.eqb negb];
    pose proof (moved_trans _ _ _ _ _ HM HM1) as HM01; rewrite !Hlive in Hl; rewrite ?(mv_ad _ _ _ _ HM) in *.
  - right. rewrite !Hlive in Ht. pose proof (lookup_lt_Some _ _ _ Er) as Hlt. rewrite (N2 ltac:(lia)) in *.
    destruct (visit_reads c1 r.1 r.2 (written rs c0 n 0) HM01) as (c2 & -> & HM2 & Ei); [|done|done|].
    { eapply at_disk; [|exact P5]. rewrite Er. by destruct r. }
    exists (S m), 0%nat. eexists. split; [done|]. split; [|unfold left_over; rewrite Hl; cbn [length]; lia]. split; [lia|]. split; [done|]. split; [lia|]. split; [done|].
    split; [|by rewrite Ei, P6, Z.add_0_r]. unfold written. rewrite Ht, !take_0, !app_nil_r. by destruct r.
  - right. assert (live c0 (take n rs) = live c0 rs) as Hln by (rewrite (live_take rs c0 n), Hl, app_nil_r; done).
    destruct (mo_ad _ _ _ Hm0 i l w El) as (Gw & _); [by eapply list_elem_of_lookup_2|].
    destruct (visit_reads c1 (wkey w) (wdata w) (written rs c0 n j) HM01) as (c2 & -> & HM2 & Ei).
    { eapply at_mem; [rewrite (mv_ad _ _ _ _ HM01); exact El|exact Ew|done|done|]. by rewrite (mv_ad _ _ _ _ HM01), Ef. }
    { by rewrite P2, (we_klen _ Gw). } { by rewrite P3, (we_dlen _ Gw). }
    pose proof (lookup_lt_Some _ _ _ Ec) as Hlt. exists (length rs), (S j). eexists. split; [done|]. split; [|unfold left_over; rewrite drop_all, Hl; change (live c0 []) with (@nil rec); cbn [length]; lia].
    split; [lia|]. split; [lia|]. split; [lia|]. split; [done|]. split; [|rewrite Ei, P5, rpos_end by done; lia].
    unfold written. rewrite firstn_all, Hln, (take_S_r added0 j (pair_of w)), app_assoc; [done|]. by rewrite list_lookup_fmap, Ec.
  - left. exists c1. split; [|done]. do 3 f_equal. unfold written, all_records. rewrite (live_take rs c0 n), Hl, app_nil_r. f_equal.
    apply take_ge. rewrite length_fmap. lia.
Qed.
End scanning.

(** C22 Going through the database with rwcdb_next, as a client does, and reading
    key and data of each entry returns every binding of the map exactly once. *)
Theorem rwcdb_scan_complete c M fuel : rep c M -> (size M < fuel)%nat ->
  exists c' l, scan fuel c = Ret (c', l) /\ l ≡ₚ map_to_list M /\ rep c' M.
Proof.
  intros (rs & ts & HO & HR & HS) Hfuel. pose proof HO as [F Hrf Hm _ _ _ _]. pose proof (all_perm rs ts F c Hm M HR) as Hp.
  destruct (while_rule (fun m st => exists n j, seen rs ts c n j st /\ m = left_over rs c n j)
    (fun '(c', l) => l = all_records rs c /\ moved rs ts c c') visit fuel (size M) (c, true, [])) as ([c' l] & E & -> & HM).
  - exists 0%nat, 0%nat. split; [|unfold left_over].
    + split; [lia|]. split; [done|]. split; [lia|]. split; [by apply moved_refl|done].
    + rewrite drop_0, Nat.sub_0_r. apply Permutation_length in Hp. unfold all_records in Hp.
      rewrite length_app, length_fmap in Hp. rewrite length_map_to_list in Hp. lia.
  - done.
  - intros m st (n & j & Hs & ->). destruct (visit_ok rs ts F c Hm n j st Hs) as [(c' & E & HM)|(n' & j' & st' & E & Hs' & Hlt)].
    + left. by exists (c', all_records rs c).
    + right. exists st', (left_over rs c n' j'). eauto 10.
  - exists c', (all_records rs c). split; [exact E|]. split; [done|]. exists rs, ts. split; [by eapply moved_open|].
    by rewrite (mv_rm _ _ _ _ HM), (mv_ad _ _ _ _ HM).
Qed.

(** ** The theorems *)

(** C4 In an empty directory rwcdb_init makes a database, and any sequence of
    lookups, insertions, deletions and syncs gives the answers of a finite map
    (storing data of length 0 removes the key), as long as the maps fit into a
    file and no key has the hash 0. *)
Theorem rwcdb_history c cmds : fs_db (c_fs c) = None -> fs_tmp (c_fs c) = false -> 0 < fs_ino (c_fs c) -> storable_all cmds ∅ ->
  exists c0 c', rwcdb_init c false = Ret (c0, 0) /\ run_all cmds c0 = Ret (c', (spec_all cmds ∅).2) /\ rep c' (spec_all cmds ∅).1.
Proof.
  intros E1 E2 Hi Hs. destruct (rwcdb_init_new c _ E1 E2 eq_refl Hi) as (c0 & E0 & Hr).
  destruct (run_all_ok cmds c0 ∅ Hr Hs) as (c' & E & Hr'). eauto.
Qed.

(** C21 What has been synced is what a process finds that opens the database
    afterwards, with nothing pending in memory: the file holds the whole map. *)
Theorem rwcdb_sync_reopen c M : rep c M ->
  exists c', rwcdb_sync c = Ret (c', 1) /\ rep c' M /\
    forall p, c_fs p = c_fs c' -> exists q, rwcdb_init p false = Ret (q, 0) /\ c_removed q = [] /\ concat (c_added q) = [] /\
      forall k, exists q', lookup_data q k = Ret (q', M !! k).
Proof.
  intros Hr. destruct (rwcdb_sync_ok c M Hr) as (c' & E & Hr' & Hc & Hd). exists c'. split; [done|]. split; [done|]. intros p Ep.
  destruct Hr' as (rs & ts & HO & _ & HS). assert (fs_tmp (c_fs p) = false) as Ht.
  { rewrite Ep. destruct (oo_wf _ _ _ HO) as [(_ & -> & _)|(Hfr & _)]; [done|]. rewrite (fr_open _ Hfr) in Hc. done. }
  rewrite <- Ep in Hd. destruct (rwcdb_init_ok p M Hd HS Ht) as (q & Eq & Hq & Q1 & Q2). exists q. split; [done|]. split; [done|]. split; [done|].
  intros k. destruct (find_then_read q M k Hq) as (q' & Ef & _). eauto.
Qed.
End laws.

Section failure.
Context `{AllocOk, DiskOk, Rename}.

(** C29 When the new file cannot be renamed rwcdb_sync returns -1, the directory is
    as before, and every lookup still gives what it gave. *)
Theorem rwcdb_sync_failure c M : rep c M -> f_open (c_wf c) = true -> rename_ok = false ->
  exists c', rwcdb_sync c = Ret (c', -1) /\ c_fs c' = c_fs c /\ forall k, exists c'', lookup_data c' k = Ret (c'', M !! k).
Proof.
  intros (rs & ts & HO & HR & HS) Ho Hren. pose proof HO as [F _ _ _ _ _ [(W & _)|(W & _)]]; [congruence|].
  destruct (rwcdb_sync_fails c M rs ts HO W HR HS Hren) as (c' & E & Efs & Hf & Hm & HR'). exists c'. split; [done|]. split; [done|].
  intros k. destruct (lookup_data_ok c' M rs ts k F Hf Hm HR') as (c'' & El & _). eauto.
Qed.
End failure.

(** ** Examples *)

(** Whether a map can be stored can be computed. *)
Definition storableb (M : dbmap) : bool :=
  (2048 + weight M <? 2 ^ 31) && forallb (fun r => negb (cdb_hash r.1 =? 0)) (map_to_list M).
Lemma storableb_ok M : storableb M = true -> storable M.
Proof.
  unfold storableb. intros [Hw Hh]%andb_true_iff. split; [by apply Z.ltb_lt|]. intros k [d Hd] E. rewrite forallb_forall in Hh.
  assert (In (k, d) (map_to_list M)) as Hin by (by apply list_elem_of_In, elem_of_map_to_list).
  specialize (Hh _ Hin). cbn [fst] in Hh. by rewrite E in Hh.
Qed.
Fixpoint storable_allb (cmds : list command) (M : dbmap) : bool :=
  match cmds with
  | [] => true
  | cmd :: cmds => storableb (spec cmd M).1 && storable_allb cmds (spec cmd M).1
  end.
Lemma storable_allb_ok cmds M : storable_allb cmds M = true -> storable_all cmds M.
Proof. revert M. induction cmds as [|cmd cmds IH]; intros M; cbn; [done|]. intros [H1 H2]%andb_true_iff. split; [by apply storableb_ok|auto]. Qed.

(** A machine on which nothing fails, and one on which renaming fails. *)
#[local] Instance alloc_all : Alloc := {| can_alloc _ := true; junk := 170 |}.
#[local] Instance alloc_all_ok : AllocOk.
Proof. done. Qed.
#[local] Instance disk_all : Disk := fun _ => true.
#[local] Instance disk_all_ok : DiskOk.
Proof. done. Qed.
Definition rename_all : Rename := true.
Definition rename_none : Rename := false.
Lemma rename_all_ok : @RenameOk rename_all.
Proof. done. Qed.

Definition empty_dir : rwcdb :=
  {| c_rf := zero_file; c_wf := zero_file; c_readonly := false; c_hash := 0; c_klen := 0; c_dlen := 0; c_dpos := 0; c_pending := None;
     c_index := 0; c_hlens := []; c_removed := []; c_added := []; c_fs := {| fs_db := None; fs_tmp := false; fs_ino := 7 |} |}.

(** A key with the hash 0 and a key whose entry goes to the same slot. *)
Definition zero_key : list Z := [99; 112; 104; 118; 97; 104; 102; 103].
Definition other_key : list Z := [112; 117].

(** The code of rwcdb_init and the answers to the commands after it. *)
Definition answers `{Alloc, Disk, Rename} (c : rwcdb) (cmds : list command) : option (Z * list answer) :=
  match rwcdb_init c false with
  | Ret (c0, rc) => match run_all cmds c0 with Ret (_, l) => Some (rc, l) | Stop _ => None end
  | Stop _ => None
  end.
Lemma answers_found `{Alloc, Disk, Rename} c cmds rc l : answers c cmds = Some (rc, l) ->
  exists c0 c', rwcdb_init c false = Ret (c0, rc) /\ run_all cmds c0 = Ret (c', l).
Proof.
  unfold answers. destruct (rwcdb_init c false) as [[c0 rc']|]; [|done]. destruct (run_all cmds c0) as [[c' l']|] eqn:E; [|done].
  intros [= -> ->]. eauto.
Qed.

(** A record whose key has the hash 0 is lost by rwcdb_sync: write_hashchains
    tests the hash of a slot to see whether the slot is taken, so the next entry for
    the slot overwrites it.  Before the sync the data is found, afterwards it is not. *)
Theorem rwcdb_zero_hash_lost : cdb_hash zero_key = 0 /\
  exists c0 c', @rwcdb_init _ _ rename_all empty_dir false = Ret (c0, 0) /\
    @run_all _ _ rename_all [Insert zero_key [1]; Insert other_key [2]; Find zero_key; Sync; Find zero_key] c0 =
    Ret (c', [Code 1; Code 1; Data (Some [1]); Code 1; Data None]).
Proof.
  split; [by vm_compute|]. apply answers_found. by vm_compute.
Qed.

(** Commands while the state of the disk changes. *)
Fixpoint sessions (l : list (Disk * list command)) (c : rwcdb) : res (rwcdb * list answer) :=
  match l with
  | [] => Ret (c, [])
  | (disk, cmds) :: l =>
      let* (c, a) := @run_all _ disk rename_all cmds c in
      let* (c, b) := sessions l c in
      Ret (c, a ++ b)
  end.
Definition disk_full : Disk := fun _ => false.
Definition session_answers (l : list (Disk * list command)) (c : rwcdb) : option (list answer) :=
  match sessions l c with Ret (_, a) => Some a | Stop _ => None end.
Lemma session_found l c a : session_answers l c = Some a -> exists c', sessions l c = Ret (c', a).
Proof. unfold session_answers. destruct (sessions l c) as [[c' a']|]; [|done]. intros [= ->]. eauto. Qed.

(** The database after rwcdb_init in an empty directory. *)
Definition new_db : rwcdb := match @rwcdb_init _ _ rename_all empty_dir false with Ret (c, _) => c | Stop _ => empty_dir end.
Definition long_data : list Z := replicate 5000 7.

(** After a sync that failed because the disk was full (it returns -1 and the
    data can still be found) the next sync returns 1 and has lost the record: the
    page that could not be written is still in the buffer of the new file and is
    written in front of the records. *)
Theorem rwcdb_retry_loses : exists c',
  sessions [(disk_all, [Insert [1] long_data]); (disk_full, [Sync; Find [1]]); (disk_all, [Sync; Find [1]])] new_db =
  Ret (c', [Code 1; Code (-1); Data (Some long_data); Code 1; Data None]).
Proof. apply session_found. by vm_compute. Qed.

Definition sample_cmds : list command :=
  [Insert [1; 2] [3]; Insert [] [4; 5]; Sync; Find [1; 2]; Delete [1; 2]; Insert [6] [7; 8; 9]; Find []; Sync; Find [1; 2]; Find [6]; Insert [6] [1]].

Lemma rwcdb_history_witness : exists c0 c', @rwcdb_init _ _ rename_all empty_dir false = Ret (c0, 0) /\
  @run_all _ _ rename_all sample_cmds c0 =
    Ret (c', [Code 1; Code 1; Code 1; Data (Some [3]); Code 1; Code 1; Data (Some [4; 5]); Code 1; Data None; Data (Some [7; 8; 9]); Code 1]) /\
  rep c' (<[[6] := [1]]> (<[[] := [4; 5]]> ∅)).
Proof.
  destruct (@rwcdb_history _ _ _ _ rename_all rename_all_ok empty_dir sample_cmds) as (c0 & c' & E1 & E2 & Hr);
    [done|done|done|by apply storable_allb_ok; vm_compute|].
  exists c0, c'. split; [done|]. split; [rewrite E2; by vm_compute|].
  assert ((spec_all sample_cmds ∅).1 = <[[6] := [1]]> (<[[] := [4; 5]]> ∅)) as <- by (by vm_compute). done.
Defined.

(** The database after these commands, with the last insertion pending. *)
Definition sample_db : rwcdb :=
  match @rwcdb_init _ _ rename_all empty_dir false with
  | Ret (c0, _) => match @run_all _ _ rename_all sample_cmds c0 with Ret (c, _) => c | Stop _ => empty_dir end
  | Stop _ => empty_dir
  end.
Definition sample_map : dbmap := <[[6] := [1]]> (<[[] := [4; 5]]> ∅).

Lemma sample_rep : rep sample_db sample_map.
Proof.
  destruct (@rwcdb_init_new _ _ _ _ rename_all rename_all_ok empty_dir 7) as (c0 & E0 & Hr); [done..|].
  destruct (@run_all_ok _ _ _ _ rename_all rename_all_ok sample_cmds c0 ∅ Hr) as (c' & E & Hr'); [by apply storable_allb_ok; vm_compute|].
  unfold sample_db. rewrite E0, E. assert ((spec_all sample_cmds ∅).1 = sample_map) as <- by (by vm_compute). done.
Qed.

Lemma rwcdb_sync_reopen_witness : exists c' q q', @rwcdb_sync _ _ rename_all sample_db = Ret (c', 1) /\
  @rwcdb_init _ _ rename_all c' false = Ret (q, 0) /\ lookup_data q [6] = Ret (q', Some [1]).
Proof.
  destruct (@rwcdb_sync_reopen _ _ _ _ rename_all rename_all_ok sample_db sample_map sample_rep) as (c' & E & _ & Hp).
  destruct (Hp c' eq_refl) as (q & Eq & _ & _ & Hk). destruct (Hk [6]) as (q' & El).
  change (sample_map !! [6]) with (Some [1]) in El. exists c', q, q'. exact (conj E (conj Eq El)).
Defined.

Lemma rwcdb_scan_complete_witness : exists c' l, scan 3 sample_db = Ret (c', l) /\ l ≡ₚ [([6], [1]); ([], [4; 5])].
Proof.
  destruct (rwcdb_scan_complete sample_db sample_map 3 sample_rep) as (c' & l & E & Hp & _); [by vm_compute; lia|].
  exists c', l. split; [exact E|]. rewrite Hp. unfold sample_map. rewrite map_to_list_insert by done. by rewrite map_to_list_insert, map_to_list_empty by done.
Defined.

Lemma rwcdb_sync_failure_witness : exists c' c'', @rwcdb_sync _ _ rename_none sample_db = Ret (c', -1) /\ lookup_data c' [6] = Ret (c'', Some [1]).
Proof.
  destruct (@rwcdb_sync_failure _ _ _ _ rename_none sample_db sample_map sample_rep) as (c' & E & _ & Hk); [by vm_compute|done|].
  destruct (Hk [6]) as (c'' & El).
  change (sample_map !! [6]) with (Some [1]) in El. exists c', c''. exact (conj E El).
Defined.
End RwcdbSpec.
