(* ===== verification/PdbStore.v ===== *)
(** * The protection database on its store

    The functions of coda-src/al run on the key-value store of lib-src/rwcdb: this file
    makes the functions of rwcdb.c (Rwcdb) an instance of the interface [RWCDB] that
    pdbdb.c is written against, and carries the theorems about the protection database
    (PdbSpec), which are proved on an ideal store, over to the real one.  The real store
    is only a finite map as long as its maps are [storable]: below the size limit of the
    file and without a key whose hash is 0.  So the ideal store keeps the maps that
    insertions made, and a run on the real store follows the run on the ideal one when all
    of these are storable. *)
From Stdlib Require Import ZArith Lia.
From stdpp Require Import base list numbers gmap relations.
From S2P Require Import Prelude.
From S2P Require Import Text.
From S2P Require Import PdbArray.
From S2P Require Import PdbPack.
From S2P Require Import PdbDb.
From S2P Require Import Pdb.
From S2P Require Import PdbCps.
From S2P Require Import PdbOps.
From S2P Require Import PdbUsers.
From S2P Require Import PdbGroups.
From S2P Require Import PdbSpec.
From S2P Require Import RwcdbFile.
From S2P Require Import Rwcdb.
From S2P Require Import RwcdbOps.
From S2P Require Import RwcdbSync.
From S2P Require Import RwcdbSpec.
Import PdbArray PdbPack PdbDb Pdb PdbCps PdbOps PdbUsers PdbGroups PdbSpec.

Module PdbStore.
Import RwcdbOps.

(** The functions of rwcdb.c behind the interface of pdbdb.c. *)
#[export] Instance rwcdb_store `{Alloc, Disk, Rwcdb.Rename} : RWCDB Rwcdb.rwcdb := {|
  rwcdb_init d mode := Rwcdb.rwcdb_init d (mode =? O_RDONLY);
  rwcdb_free := Rwcdb.rwcdb_free;
  rwcdb_sync := Rwcdb.rwcdb_sync;
  rwcdb_find := Rwcdb.rwcdb_find;
  rwcdb_datalen := Rwcdb.rwcdb_datalen;
  rwcdb_datapos := Rwcdb.rwcdb_datapos;
  rwcdb_read := Rwcdb.rwcdb_read;
  rwcdb_insert := Rwcdb.rwcdb_insert;
  rwcdb_delete := Rwcdb.rwcdb_delete
|}.

(** ** The ideal store remembers its maps *)
Definition past (h : handle mapdb) : list dbmap := md_past (h_main h).

(** How a program changes the list of maps. *)
Definition evolves (R : relation (list dbmap)) {A} (m : M mapdb A) : Prop :=
  forall h a h', m h = Ret (a, h') -> R (past h) (past h').
Definition grows {A} (m : M mapdb A) : Prop := evolves suffix m.

Section evolves.
Context (R : relation (list dbmap)) `{!PreOrder R}.

Lemma evolves_ret {A} (a : A) : evolves R (mret a).
Proof using All. by intros h b h' [= _ <-]. Qed.
Lemma evolves_lift {A} (r : res A) : evolves R (lift r).
Proof using All. intros h b h'. unfold lift. destruct r; cbn; [|done]. by intros [= _ <-]. Qed.
Lemma evolves_bind {A B} (m : M mapdb A) (f : A -> M mapdb B) : evolves R m -> (forall x, evolves R (f x)) -> evolves R (mbind m f).
Proof using All.
  intros Hm Hf h b h' E. unfold mbind in E. destruct (m h) as [[x h1]|] eqn:E1; [|done]. cbn in E.
  etrans; [by eapply Hm|by eapply Hf].
Qed.
Lemma evolves_peek {A} (g : mapdb -> A) : evolves R (peek g).
Proof using All. by intros h a h' [= _ <-]. Qed.
Lemma evolves_flags o rw m : evolves R (set_flags o rw m).
Proof using All. by intros h a h' [= _ <-]. Qed.
Lemma evolves_call {A} (f : mapdb -> res (mapdb * A)) :
  (forall d a d', f d = Ret (d', a) -> R (md_past d) (md_past d')) -> evolves R (store f).
Proof using All.
  intros Hf h a h'. unfold store. destruct (f (h_main h)) as [[d b]|] eqn:E; cbn; [|done]. intros [= _ <-].
  by apply (Hf _ _ _ E).
Qed.
Lemma evolves_read n p : evolves R (store (fun d => rwcdb_read d n p)).
Proof using All. apply evolves_call. by intros d a d' [= <- <-]. Qed.
Lemma evolves_find k : evolves R (store (fun d => rwcdb_find d k)).
Proof using All. apply evolves_call. intros d a d' E. cbn in E. by destruct (md_map d !! k); injection E as <- <-. Qed.
Lemma evolves_init m : evolves R (store (fun d => rwcdb_init d m)).
Proof using All. apply evolves_call. by intros d a d' [= <- <-]. Qed.
Lemma evolves_free : evolves R (store rwcdb_free).
Proof using All. apply evolves_call. by intros d a d' [= <- <-]. Qed.
Lemma evolves_sync : evolves R (store rwcdb_sync).
Proof using All. apply evolves_call. by intros d a d' [= <- <-]. Qed.
Lemma evolves_at {A} (f : handle mapdb -> M mapdb A) : (forall h, evolves R (f h)) -> evolves R (fun h => f h h).
Proof using All. intros Hf h. apply Hf. Qed.
End evolves.

(** ** Following the ideal store *)

(** Both handles are open for writing, with the same map behind them. *)
Record related (h1 : handle mapdb) (h2 : handle Rwcdb.rwcdb) : Prop := {
  rl_open1 : h_open h1 = true; rl_open2 : h_open h2 = true;
  rl_rw1 : h_open_rw h1 = true; rl_rw2 : h_open_rw h2 = true;
  rl_mut : h_mutations h2 = h_mutations h1;
  rl_rep : rep (h_main h2) (md_map (h_main h1)) }.

(** What the code does on the ideal store it does on the real one, as long as the maps
    that the insertions make can be stored. *)
Record sim {A} (m1 : M mapdb A) (m2 : M Rwcdb.rwcdb A) : Prop := {
  sim_grows : grows m1;
  sim_follows h1 h2 a h1' : related h1 h2 -> m1 h1 = Ret (a, h1') -> Forall storable (past h1') ->
    exists h2', m2 h2 = Ret (a, h2') /\ related h1' h2' }.

Lemma sim_ret {A} (a : A) : sim (mret a) (mret a).
Proof. split; [apply evolves_ret, _|]. intros h1 h2 b h1' HR [= <- <-] _. by exists h2. Qed.

Lemma sim_lift {A} (r : res A) : sim (lift r) (lift r).
Proof.
  split; [apply evolves_lift, _|]. intros h1 h2 b h1' HR E _. unfold lift in *. destruct r; [|done].
  injection E as <- <-. by exists h2.
Qed.

Lemma sim_bind {A B} (m1 : M mapdb A) m2 (f1 : A -> M mapdb B) f2 :
  sim m1 m2 -> (forall x, sim (f1 x) (f2 x)) -> sim (mbind m1 f1) (mbind m2 f2).
Proof.
  intros [G F] Hf. split; [apply evolves_bind; [apply _|done|]; intros x; apply Hf|].
  intros h1 h2 b h1' HR E Hs. unfold mbind in *. destruct (m1 h1) as [[x h]|] eqn:E1; [|done]. cbn in E.
  destruct (sim_grows _ _ (Hf x) _ _ _ E) as [l Hl].
  destruct (F h1 h2 x h HR E1) as (h2' & -> & HR'); [rewrite Hl in Hs; by apply Forall_app in Hs as [_ ?]|].
  cbn [rbind]. by apply (sim_follows _ _ (Hf x) h h2' b h1').
Qed.

Lemma sim_each_acc {A} l (b1 : Z -> A -> M mapdb A) b2 a :
  (forall v a, sim (b1 v a) (b2 v a)) -> sim (each_acc l b1 a) (each_acc l b2 a).
Proof.
  intros Hb. unfold each_acc, for_each. destruct (pdb_array_head l) as [[v0 o0]|]; cbn [rbind]; [|split; done].
  generalize (S (S (Z.to_nat (pa_size l)))). intros fuel. revert v0 o0 a. induction fuel as [|fuel IH]; intros v o a; [split; done|].
  split.
  - intros h r h'. cbn [while_loop]. destruct (v =? 0); cbn [rbind]; [intros [= _ <-]; by exists []|].
    destruct (b1 v a h) as [[a1 h1]|] eqn:E1; cbn [rbind]; [|done]. destruct (pdb_array_next l o) as [[v' o']|]; cbn [rbind]; [|done].
    intros E. destruct (sim_grows _ _ (Hb v a) _ _ _ E1) as [l1 L1]. destruct (sim_grows _ _ (IH v' o' a1) _ _ _ E) as [l2 L2].
    exists (l2 ++ l1). by rewrite L2, L1, app_assoc.
  - intros h1 h2 r h1' HR. cbn [while_loop]. destruct (v =? 0); cbn [rbind]; [intros [= <- <-]; by exists h2|].
    destruct (b1 v a h1) as [[a1 h]|] eqn:E1; cbn [rbind]; [|done]. destruct (pdb_array_next l o) as [[v' o']|]; cbn [rbind]; [|done].
    intros E Hs. destruct (sim_grows _ _ (IH v' o' a1) _ _ _ E) as [l2 L2].
    destruct (sim_follows _ _ (Hb v a) h1 h2 a1 h HR E1) as (h2' & -> & HR'); [rewrite L2 in Hs; by apply Forall_app in Hs as [_ ?]|].
    cbn [rbind]. by apply (sim_follows _ _ (IH v' o' a1) h h2' r h1').
Qed.

Section store.
Context `{AllocOk, DiskOk, RwcdbSync.RenameOk, Uninit}.

Lemma sim_flags m : sim (set_flags true true m) (set_flags true true m).
Proof.
  split; [apply evolves_flags, _|]. intros h1 h2 b h1' [] [= <- <-] _. eexists. split; [done|]. by split.
Qed.

(** A call that succeeds on both stores with the same result. *)
Lemma sim_store {A} (f1 : mapdb -> res (mapdb * A)) (f2 : Rwcdb.rwcdb -> res (Rwcdb.rwcdb * A)) :
  (forall d1 d1' a, f1 d1 = Ret (d1', a) -> (exists l, md_past d1' = l ++ md_past d1) /\
     forall d2, rep d2 (md_map d1) -> Forall storable (md_past d1') -> exists d2', f2 d2 = Ret (d2', a) /\ rep d2' (md_map d1')) ->
  sim (store f1) (store f2).
Proof.
  intros Hf. split.
  - apply evolves_call; [apply _|]. intros d a d' E. apply (Hf d d' a E).
  - intros h1 h2 b h1' [] E Hs. unfold store in *. destruct (f1 (h_main h1)) as [[d1' a]|] eqn:E1; [|done].
    cbn in E. injection E as <- <-. destruct (Hf _ _ _ E1) as [_ Hd]. destruct (Hd (h_main h2)) as (d2' & -> & Hr); [done..|].
    eexists. split; [done|]. by split.
Qed.

Lemma sim_sync : sim (store rwcdb_sync) (store rwcdb_sync).
Proof.
  apply sim_store. intros d1 d1' a [= <- <-]. split; [by exists []|]. intros d2 Hr _.
  destruct (RwcdbSync.rwcdb_sync_ok d2 _ Hr) as (c' & E & Hr' & _). by exists c'.
Qed.

Lemma sim_insert k v : sim (store (fun d => rwcdb_insert d k v)) (store (fun d => rwcdb_insert d k v)).
Proof.
  apply sim_store. intros d1 d1' a [= <- <-]. split; [by eexists [_]|]. cbn. intros d2 Hr [Hs _]%Forall_cons.
  by apply rwcdb_insert_ok.
Qed.

Lemma sim_delete k : sim (store (fun d => rwcdb_delete d k)) (store (fun d => rwcdb_delete d k)).
Proof.
  apply sim_store. intros d1 d1' a [= <- <-]. split; [by exists []|]. cbn. intros d2 Hr _.
  destruct (rwcdb_delete_ok d2 _ k Hr) as (c' & rc & E & Hr' & ->). by exists c'.
Qed.

(** Looking up a key and reading the data: the positions differ, the data does not. *)
Lemma find_read c m k : rep c m -> exists c' rc, Rwcdb.rwcdb_find c k = Ret (c', rc) /\ rep c' m /\
  match m !! k with
  | Some v => rc = 1 /\ Rwcdb.rwcdb_datalen c' = zlen v /\
      exists c'', Rwcdb.rwcdb_read c' (zlen v) (Rwcdb.rwcdb_datapos c') = Ret (c'', (0, v)) /\ rep c'' m
  | None => rc = 0
  end.
Proof.
  intros (rs & ts & HO & HR & HS).
  assert (forall c', moved rs ts c c' -> rep c' m) as Hrep.
  { intros c' HM. exists rs, ts. split; [by eapply moved_open|]. by rewrite (mv_rm _ _ _ _ HM), (mv_ad _ _ _ _ HM). }
  destruct (rwcdb_find_ok c rs ts m k) as (c1 & rc & E & HM & Hc); [apply HO..|done|].
  exists c1, rc. split; [done|]. split; [by apply Hrep|]. destruct (m !! k) as [v|]; [|done]. destruct Hc as (-> & _ & El & Hat).
  do 2 (split; [done|]).
  destruct (rwcdb_read_ok c1 rs ts k v (oo_format _ _ _ HO) (mv_rf _ _ _ _ HM) (moved_mem _ _ _ _ HM (oo_mem _ _ _ HO)) Hat) as (f' & Er & R & Sm).
  eexists. split; [exact Er|]. apply Hrep. eapply moved_trans; [exact HM|]. by split.
Qed.

(** After a successful lookup of data [v], which is at [p] in the real store. *)
Record reads (v : list Z) (p : Z) (h1 : handle mapdb) (h2 : handle Rwcdb.rwcdb) : Prop := {
  rd_rel : related h1 h2;
  rd_found : md_found (h_main h1) = v;
  rd_len : Rwcdb.rwcdb_datalen (h_main h2) = zlen v;
  rd_pos : Rwcdb.rwcdb_datapos (h_main h2) = p;
  rd_data : exists c, Rwcdb.rwcdb_read (h_main h2) (zlen v) p = Ret (c, (0, v)) /\ rep c (md_map (h_main h1)) }.

Definition found {A} (v : list Z) (p : Z) (m1 : M mapdb A) (m2 : M Rwcdb.rwcdb A) : Prop :=
  forall h1 h2 a h1', reads v p h1 h2 -> m1 h1 = Ret (a, h1') -> Forall storable (past h1') ->
    exists h2', m2 h2 = Ret (a, h2') /\ related h1' h2'.

Lemma found_sim {A} v p (m1 : M mapdb A) m2 : sim m1 m2 -> found v p m1 m2.
Proof. intros [_ F] h1 h2 a h1' HR. apply F, HR. Qed.
Lemma found_len {A} v p (f1 : Z -> M mapdb A) f2 : found v p (f1 (zlen v)) (f2 (zlen v)) ->
  found v p (mbind (peek rwcdb_datalen) f1) (mbind (peek rwcdb_datalen) f2).
Proof.
  intros F h1 h2 a h1' HR. unfold mbind, peek. cbn. rewrite (rd_found _ _ _ _ HR), (rd_len _ _ _ _ HR). by apply F.
Qed.
Lemma found_pos {A} v p (f1 : Z -> M mapdb A) f2 : found v p (f1 0) (f2 p) ->
  found v p (mbind (peek rwcdb_datapos) f1) (mbind (peek rwcdb_datapos) f2).
Proof. intros F h1 h2 a h1' HR. unfold mbind, peek. cbn. rewrite (rd_pos _ _ _ _ HR). by apply F. Qed.
Lemma found_lift {A B} v p (r : res B) (f1 : B -> M mapdb A) f2 : (forall x, found v p (f1 x) (f2 x)) ->
  found v p (mbind (lift r) f1) (mbind (lift r) f2).
Proof. intros F h1 h2 a h1' HR. unfold mbind, lift. destruct r as [x|]; cbn; [|done]. by apply F. Qed.
Lemma found_read {A} v p (f1 : Z * list Z -> M mapdb A) f2 : sim (f1 (0, v)) (f2 (0, v)) ->
  found v p (mbind (store (fun d => rwcdb_read d (zlen v) 0)) f1) (mbind (store (fun d => rwcdb_read d (zlen v) p)) f2).
Proof.
  intros [_ F] h1 h2 a h1' [[] Hv _ _ (c & E & Hr)]. unfold mbind, store. cbn. rewrite E, Hv. cbn [rbind].
  unfold zlen at 1. rewrite Nat2Z.id, take_ge by done. apply F. by split.
Qed.

Lemma sim_find {A} k (f1 : Z -> M mapdb A) f2 : (forall rc, grows (f1 rc)) -> sim (f1 0) (f2 0) ->
  (forall v p, found v p (f1 1) (f2 1)) ->
  sim (mbind (store (fun d => rwcdb_find d k)) f1) (mbind (store (fun d => rwcdb_find d k)) f2).
Proof.
  intros G F0 F1. split.
  - apply evolves_bind; [apply _|apply evolves_find, _|done].
  - intros h1 h2 a h1' HR E Hs. unfold mbind, store in *. cbn [rwcdb_find mapdb_rwcdb rwcdb_store] in *.
    destruct (find_read (h_main h2) _ k (rl_rep _ _ HR)) as (c & rc & -> & Hr & Hc). cbn [rbind].
    destruct (md_map (h_main h1) !! k) as [v|]; cbn [rbind] in E.
    + destruct Hc as (-> & Hl & Hd). eapply F1; [|exact E|done]. by destruct HR.
    + subst rc. eapply (sim_follows _ _ F0); [|exact E|done]. by destruct HR.
Qed.

(** ** The code of the protection database follows *)
(** One step of a program, for [grows] and for [sim]. *)
Ltac split_case :=
  match goal with
  | |- context [match ?x with _ => _ end] => destruct x
  end.
Ltac evolve := repeat first
  [ solve [eauto 2 with sim] | solve [apply sim_grows; eauto 2 with sim] | apply evolves_bind; [apply _| |intros ?] | apply evolves_ret; apply _
  | apply evolves_lift; apply _ | apply evolves_peek; apply _ | apply evolves_flags; apply _ | apply evolves_read; apply _
  | apply evolves_find; apply _ | apply evolves_init; apply _ | apply evolves_free; apply _ | apply evolves_sync; apply _
  | split_case ].
Ltac follow := repeat first
  [ solve [eauto 2 with sim] | apply sim_bind; [|intros ?] | apply sim_ret | apply sim_lift | apply sim_flags | apply sim_sync | apply sim_insert
  | apply sim_delete | apply sim_each_acc; intros ? ? | split_case ].
Create HintDb sim.

Lemma sim_maxids : sim PDB_db_maxids PDB_db_maxids.
Proof.
  apply sim_find; [intros rc; evolve|cbn; follow|]. intros v p. cbn [negb Z.eqb Pos.eqb].
  apply found_len, found_pos, found_lift. intros _. apply found_read. follow.
Qed.
#[local] Hint Resolve sim_maxids : sim.

Lemma sim_read_record k : sim (read_record k) (read_record k).
Proof.
  apply sim_find; [intros rc; evolve|cbn; follow|]. intros v p. cbn [negb Z.eqb Pos.eqb]. apply found_len.
  destruct (zlen v =? 4); [apply found_sim; follow|]. destruct (negb (can_alloc (zlen v))); [apply found_sim; follow|].
  apply found_pos, found_read. follow.
Qed.
#[local] Hint Resolve sim_read_record : sim.

Lemma sim_db_read i s : sim (PDB_db_read i s) (PDB_db_read i s).
Proof.
  destruct s as [s|]; cbn [PDB_db_read]; [|follow]. apply sim_bind; [follow|]. intros nk.
  apply sim_find; [intros rc; evolve|cbn; follow|]. intros v p. cbn [negb Z.eqb Pos.eqb]. apply found_len.
  destruct (negb (zlen v =? 4)); [apply found_sim; follow|]. apply found_pos, found_read. cbn [Z.eqb]. follow.
Qed.
#[local] Hint Resolve sim_db_read : sim.

Lemma sim_open mode : sim (PDB_db_open mode) (PDB_db_open mode).
Proof.
  split; [unfold PDB_db_open; apply evolves_at; [apply _|]; intros h; evolve|].
  intros h1 h2 a h1' HR. unfold PDB_db_open.
  rewrite (rl_open1 _ _ HR), (rl_open2 _ _ HR), (rl_rw1 _ _ HR), (rl_rw2 _ _ HR), (rl_mut _ _ HR). cbn [negb].
  match goal with |- ?m1 h1 = _ -> _ -> exists _, ?m2 h2 = _ /\ _ =>
    assert (sim m1 m2) as HS by follow; exact (sim_follows _ _ HS h1 h2 a h1' HR) end.
Qed.
#[local] Hint Resolve sim_open : sim.

Lemma sim_update_maxids u g m : sim (PDB_db_update_maxids u g m) (PDB_db_update_maxids u g m).
Proof. unfold PDB_db_update_maxids. follow. Qed.
#[local] Hint Resolve sim_update_maxids : sim.
Lemma sim_db_write i s d : sim (PDB_db_write i s d) (PDB_db_write i s d).
Proof. unfold PDB_db_write. follow. Qed.
Lemma sim_delete_xfer s : sim (PDB_db_delete_xfer s) (PDB_db_delete_xfer s).
Proof. unfold PDB_db_delete_xfer. follow. Qed.
#[local] Hint Resolve sim_db_write sim_delete_xfer : sim.
Lemma sim_writeProfile r : sim (PDB_writeProfile r) (PDB_writeProfile r).
Proof. unfold PDB_writeProfile. follow. Qed.
Lemma sim_readProfile i : sim (PDB_readProfile i) (PDB_readProfile i).
Proof. unfold PDB_readProfile. follow. Qed.
Lemma sim_deleteProfile r : sim (PDB_deleteProfile r) (PDB_deleteProfile r).
Proof. unfold PDB_deleteProfile, PDB_db_delete. follow. Qed.
#[local] Hint Resolve sim_writeProfile sim_readProfile sim_deleteProfile : sim.
Lemma sim_nameInUse s : sim (pdb_nameInUse s) (pdb_nameInUse s).
Proof. unfold pdb_nameInUse, PDB_db_close. follow. Qed.
#[local] Hint Resolve sim_nameInUse : sim.

Lemma sim_each l (b1 : Z -> M mapdb unit) b2 : (forall v, sim (b1 v) (b2 v)) -> sim (each l b1) (each l b2).
Proof. intros Hb. apply sim_each_acc. intros v _. apply Hb. Qed.

Lemma sim_update_own r : sim (update_own r) (update_own r).
Proof. unfold update_own, parents_cps. follow. Qed.
#[local] Hint Resolve sim_update_own : sim.
Lemma sim_updateCps fuel r : sim (PDB_updateCps fuel r) (PDB_updateCps fuel r).
Proof. revert r. induction fuel as [|fuel IH]; intros r; cbn [PDB_updateCps]; follow. Qed.
#[local] Hint Resolve sim_updateCps : sim.

Lemma sim_deleteGroup_lists fuel i r : sim (deleteGroup_lists fuel i r) (deleteGroup_lists fuel i r).
Proof. unfold deleteGroup_lists, PDB_db_close. follow. Qed.
#[local] Hint Resolve sim_deleteGroup_lists : sim.

Lemma sim_run fuel c : sim (PdbSpec.run fuel c) (PdbSpec.run fuel c).
Proof.
  destruct c; cbn [PdbSpec.run]; unfold PDB_createUser, PDB_createGroup, PDB_addToGroup, PDB_removeFromGroup, PDB_deleteUser,
    PDB_deleteGroup, PDB_db_close; follow.
Qed.
#[local] Hint Resolve sim_run : sim.
Lemma sim_run_all fuel cs : sim (PdbSpec.run_all fuel cs) (PdbSpec.run_all fuel cs).
Proof. induction cs as [|c cs IH]; cbn [PdbSpec.run_all]; follow. Qed.

Lemma sim_lookupByName s : sim (PDB_lookupByName s) (PDB_lookupByName s).
Proof. unfold PDB_lookupByName, PDB_readProfile_byname, PDB_db_close. follow. Qed.

(** ** The state of the real database *)

(** An ideal store with the map [M], before it remembers anything. *)
Definition ideal (m : Z) (M : dbmap) : handle mapdb :=
  {| h_main := {| md_map := M; md_found := []; md_past := [] |}; h_open := true; h_open_rw := true; h_mutations := m |}.

(** The maps that the insertions of a program make, started with the map [M]. *)
Definition maps_made {A} (p : M mapdb A) (m : Z) (M : dbmap) : list dbmap :=
  match p (ideal m M) with Ret (_, h) => past h | Stop _ => [] end.

(** The handle is open for writing after [m] openings; the database behind it holds the
    map [M], which is a consistent database that shows [v]. *)
Record state_on (m : Z) (v : view) (M : dbmap) (h : handle Rwcdb.rwcdb) : Prop := {
  so_open : h_open h = true; so_rw : h_open_rw h = true; so_mut : h_mutations h = m; so_pos : 0 <= m;
  so_rep : rep (h_main h) M;
  so_view : exists w, stored w M /\ consistent w /\ owned w /\ shows w v }.

Lemma state_on_ideal m v M h : state_on m v M h -> related (ideal m M) h /\ state_of m v (ideal m M).
Proof.
  intros [H1' H2' H3' H4' H5' (w & Hst & Hc & HO & HV)]. split; [by split|]. exists w. split; [|done]. by do 5 (split; [done|]).
Qed.

(** A run on the ideal store is one on the real store, with the state it ends in. *)
Lemma run_on {A} (p : M mapdb A) q m v M h (a : A) h1 m' v' : sim p q -> state_on m v M h ->
  p (ideal m M) = Ret (a, h1) -> state_of m' v' h1 -> Forall storable (maps_made p m M) ->
  exists h', q h = Ret (a, h') /\ related h1 h' /\ state_on m' v' (md_map (h_main h1)) h'.
Proof.
  intros HS HO E (w & Hdb & Hc & HW & HV) Hs. unfold maps_made in Hs. rewrite E in Hs.
  destruct (state_on_ideal _ _ _ _ HO) as [HR _]. destruct (sim_follows _ _ HS _ _ _ _ HR E Hs) as (h' & E' & HR').
  exists h'. split; [done|]. split; [done|]. destruct Hdb as (_ & _ & Hm & Hp & _ & Hst). destruct HR'. split; try done; [congruence|].
  by exists w.
Qed.

(** A database that was just opened and holds nothing. *)
Definition closed (c : Rwcdb.rwcdb) : handle Rwcdb.rwcdb :=
  {| h_main := c; h_open := false; h_open_rw := false; h_mutations := 0 |}.

Lemma opens_empty c : Rwcdb.fs_db (Rwcdb.c_fs c) = None -> Rwcdb.fs_tmp (Rwcdb.c_fs c) = false -> 0 < Rwcdb.fs_ino (Rwcdb.c_fs c) ->
  exists h0, PDB_db_open O_RDWR (closed c) = Ret (tt, h0) /\ state_on 0 nobody ∅ h0.
Proof.
  intros E1 E2 Hi. destruct (RwcdbSpec.rwcdb_init_new c _ E1 E2 eq_refl Hi) as (c0 & E0 & Hr).
  unfold PDB_db_open, closed. cbn [h_open negb]. unfold mbind, store. cbn [h_main rwcdb_init rwcdb_store].
  change (O_RDWR =? O_RDONLY) with false. rewrite E0. cbn. eexists. split; [done|].
  assert (db_at 0 no_adb (ideal 0 ∅)) as Hdb by (do 5 (split; [done|]); split; cbn; try done; by right).
  destruct (nobody_at 0 _ Hdb) as (w & (_ & _ & _ & _ & _ & Hst) & Hrest). split; try done. by exists w.
Qed.

(** Reading makes no maps. *)
Lemma quiet_record k : evolves eq (read_record k).
Proof. unfold read_record. evolve. Qed.
#[local] Hint Resolve quiet_record : sim.
Lemma quiet_db_read i s : evolves eq (PDB_db_read i s).
Proof. unfold PDB_db_read. evolve. Qed.
Lemma quiet_open mode : evolves eq (PDB_db_open mode).
Proof. unfold PDB_db_open. apply evolves_at; [apply _|]. intros h. evolve. Qed.
#[local] Hint Resolve quiet_db_read quiet_open : sim.
Lemma quiet_readProfile i : evolves eq (PDB_readProfile i).
Proof. unfold PDB_readProfile. evolve. Qed.
Lemma quiet_lookupByName s : evolves eq (PDB_lookupByName s).
Proof. unfold PDB_lookupByName, PDB_readProfile_byname, PDB_db_close. evolve. Qed.

Lemma quiet_on {A} (p : M mapdb A) q m v M h (a : A) h1 : sim p q -> evolves eq p -> state_on m v M h ->
  p (ideal m M) = Ret (a, h1) -> exists h', q h = Ret (a, h').
Proof.
  intros HS Hq HO E. destruct (state_on_ideal _ _ _ _ HO) as [HR _].
  destruct (sim_follows _ _ HS _ _ _ _ HR E) as (h' & E' & _); [|by exists h'].
  rewrite <- (Hq _ _ _ E). constructor.
Qed.

(** What reads tell in a state. *)
Lemma read_on m v M h x : state_on m v M h -> is_Some (v_people v !! x) ->
  exists r h' l, PDB_readProfile x h = Ret (r, h') /\ holds (p_cps r) l /\ forall y, y ∈ l <-> rtc (joined v) x y.
Proof.
  intros HS Hx. destruct (state_on_ideal _ _ _ _ HS) as [_ HS1]. destruct (read_cps m v _ x HS1 Hx) as (r & h1 & l & E & Hl).
  destruct (quiet_on _ _ _ _ _ _ _ _ (sim_readProfile x) (quiet_readProfile x) HS E) as (h' & E'). by exists r, h', l.
Qed.
Lemma lookup_on m v M h s : state_on m v M h -> s <> [] ->
  exists h', PDB_lookupByName s h = Ret (default 0 (v_names v !! s), h').
Proof.
  intros HS Hs. destruct (state_on_ideal _ _ _ _ HS) as [_ (w & Hdb & Hc & _ & HV)].
  destruct (PDB_lookupByName_ok m w _ s Hdb Hc Hs) as (i & h1 & E & -> & _). rewrite (sh_names _ _ HV).
  by apply (quiet_on _ _ _ _ _ _ _ _ (sim_lookupByName s) (quiet_lookupByName s) HS E).
Qed.

(** ** Claims *)

(** C3 On the store of rwcdb.c, every command that the specification allows (create or
    delete a user or a group, add or remove a member) returns with the result of the
    specification and leaves a consistent database that shows the new view, if the maps that
    its insertions make are below the size limit of the file and have no key with the hash
    0, and the database has been opened fewer than 2^31 - 1 times and holds fewer than 2^20
    principals. *)
Theorem PDB_command_on_rwcdb fuel m v M h c r v' : state_on m v M h -> m < 2 ^ 31 - 1 ->
  Z.of_nat (size (v_people v)) < MAXIDS -> (size (v_people v) < fuel)%nat -> PdbSpec.spec v c r v' ->
  Forall storable (maps_made (PdbSpec.run fuel c) m M) ->
  exists h' M', PdbSpec.run fuel c h = Ret (r, h') /\ state_on (m + 1) v' M' h'.
Proof.
  intros HS Hm Hz Hf Hs Hst. destruct (state_on_ideal _ _ _ _ HS) as [_ HS1].
  destruct (run_spec fuel m v _ c r v' HS1 Hm Hz Hf Hs) as (r' & h1 & E & -> & HS2).
  destruct (run_on _ _ _ _ _ _ _ _ _ _ (sim_run fuel c) HS E HS2 Hst) as (h' & E' & _ & HS'). eauto.
Qed.

(** C2 In an empty directory the protection database opens, and any history of fewer
    than 2^20 allowed commands runs on the store of rwcdb.c without a failed assertion and
    gives the results of the specification, if the maps that its insertions make are below
    the size limit of the file and have no key with the hash 0.  In the end the CPS read
    with any profile is exactly the set of principals that membership leads to, and every
    name leads to its id (0 for none). *)
Theorem PDB_history_on_rwcdb fuel c cs rs v :
  Rwcdb.fs_db (Rwcdb.c_fs c) = None -> Rwcdb.fs_tmp (Rwcdb.c_fs c) = false -> 0 < Rwcdb.fs_ino (Rwcdb.c_fs c) ->
  history nobody cs rs v -> zlen cs < MAXIDS -> (length cs < fuel)%nat ->
  Forall storable (maps_made (PdbSpec.run_all fuel cs) 0 ∅) ->
  exists h0 h' M, PDB_db_open O_RDWR (closed c) = Ret (tt, h0) /\ PdbSpec.run_all fuel cs h0 = Ret (rs, h') /\
    state_on (zlen cs) v M h' /\
    (forall x, is_Some (v_people v !! x) -> exists r h'' l, PDB_readProfile x h' = Ret (r, h'') /\
       holds (p_cps r) l /\ forall y, y ∈ l <-> rtc (joined v) x y) /\
    (forall s, s <> [] -> exists h'', PDB_lookupByName s h' = Ret (default 0 (v_names v !! s), h'')).
Proof.
  intros E1 E2 Hi HH Hz Hf Hst. destruct (opens_empty c E1 E2 Hi) as (h0 & E0 & HS0).
  destruct (state_on_ideal _ _ _ _ HS0) as [_ HS1]. assert (size (v_people nobody) = 0%nat) as Ez by apply map_size_empty.
  destruct (run_history fuel nobody cs rs v HH 0 _ HS1) as (rs' & h1 & E & -> & HS2); [unfold MAXIDS in *; lia..|].
  destruct (run_on _ _ _ _ _ _ _ _ _ _ (sim_run_all fuel cs) HS0 E HS2 Hst) as (h' & E' & _ & HS').
  exists h0, h', (md_map (h_main h1)). do 3 (split; [done|]). split; intros; [by eapply read_on|by eapply lookup_on].
Qed.
End store.

(** ** Examples *)
#[local] Instance disk_always : Disk := fun _ => true.
#[local] Instance disk_always_ok : DiskOk.
Proof. done. Qed.
#[local] Instance rename_always : Rwcdb.Rename := true.
#[local] Instance rename_always_ok : RwcdbSync.RenameOk.
Proof. done. Qed.

Lemma storable_list l : forallb RwcdbSpec.storableb l = true -> Forall storable l.
Proof. rewrite forallb_forall, Forall_forall. intros Hl m Hm. apply RwcdbSpec.storableb_ok, Hl. by apply list_elem_of_In. Qed.

(** The user and the two groups of PdbSpec, in an empty directory. *)
Definition sample_end : handle mapdb :=
  match PdbSpec.run_all 10 sample (ideal 0 ∅) with Ret (_, h) => h | Stop _ => ideal 0 ∅ end.

Lemma sample_storable : Forall storable (maps_made (PdbSpec.run_all 10 sample) 0 ∅).
Proof. apply storable_list. by vm_compute. Qed.

Lemma sample_on : exists h, state_on 4 sample_view (md_map (h_main sample_end)) h.
Proof.
  destruct (opens_empty RwcdbSpec.empty_dir) as (h0 & _ & HS0); [done..|].
  destruct (state_on_ideal _ _ _ _ HS0) as [_ HS1].
  destruct (run_history 10 nobody sample _ _ sample_history 0 _ HS1) as (rs & h1 & E & _ & HS2); [done|done|vm_compute; lia|].
  destruct (run_on _ _ _ _ _ _ _ _ _ _ (sim_run_all 10 sample) HS0 E HS2 sample_storable) as (h' & _ & _ & HS').
  exists h'. unfold sample_end. by rewrite E.
Qed.

Lemma PDB_history_on_rwcdb_witness : exists h0 h', PDB_db_open O_RDWR (closed RwcdbSpec.empty_dir) = Ret (tt, h0) /\
  PdbSpec.run_all 10 sample h0 = Ret ([1; -1; -2; 0], h') /\
  (exists h'', PDB_lookupByName [107] h' = Ret (-2, h'')) /\
  exists r h'' l, PDB_readProfile (-2) h' = Ret (r, h'') /\ holds (p_cps r) l /\
    forall y, y ∈ l <-> rtc (joined sample_view) (-2) y.
Proof.
  destruct (PDB_history_on_rwcdb 10 RwcdbSpec.empty_dir sample [1; -1; -2; 0] sample_view)
    as (h0 & h' & M & E0 & E & _ & HC & HL); [done|done|done|apply sample_history|done|vm_compute; lia|apply sample_storable|].
  exists h0, h'. do 2 (split; [done|]). split; [by apply (HL [107])|]. apply HC. by eexists.
Defined.

Lemma PDB_command_on_rwcdb_witness : exists h h' M', state_on 4 sample_view (md_map (h_main sample_end)) h /\
  PdbSpec.run 10 (RemoveFromGroup (-2) (-1)) h = Ret (0, h') /\
  state_on 5 (rejoin sample_view (v_members sample_view ∖ {[(-2, -1)]})) M' h'.
Proof.
  destruct sample_on as (h & HS). exists h.
  destruct (PDB_command_on_rwcdb 10 4 sample_view _ h (RemoveFromGroup (-2) (-1)) 0
    (rejoin sample_view (v_members sample_view ∖ {[(-2, -1)]})) HS) as (h' & M' & E & HS');
    [done|done|vm_compute; lia| |apply storable_list; by vm_compute|by exists h', M'].
  apply (spec_remove sample_view (-2) (-1)); [by eexists|by eexists|done|done].
Defined.
End PdbStore.
