(* ===== verification/RdsMem.v ===== *)
(** * Recoverable memory as the heap allocator sees it

    The mapped segment is a finite map from addresses to cells: a byte of the
    version string, a 32-bit counter of the statistics or a 64-bit word.  An access
    to an address that is no cell is undefined.  RVM is an interface: the allocator
    announces what it will change with rvm_set_range, and rvm_abort_transaction puts
    the announced ranges back.  The file also has the state monad of the allocator
    and the rules to reason about it. *)
From Stdlib Require Import ZArith Lia.
From stdpp Require Import base list numbers gmap.
From S2P Require Import Prelude.

Module RdsMem.

Abbreviation u64 := (uwrap 64).
Abbreviation memory := (gmap Z Z).

(** The address [x] lies in one of the ranges (base, length). *)
Definition in_ranges (x : Z) (rs : list (Z * Z)) : Prop :=
  exists r, r ∈ rs /\ r.1 <= x < r.1 + r.2.

(** Two memories agree outside the ranges. *)
Definition agree_off (rs : list (Z * Z)) (m m' : memory) : Prop :=
  forall x, ~ in_ranges x rs -> m !! x = m' !! x.

(** The functions of RVM that the allocator calls, on the state [tx] of the
    library and of the one open transaction.  All but abort may return an error
    code. *)
Class RVM (tx : Type) := {
  begin_transaction : tx -> Z * tx;
  set_range : memory -> Z -> Z -> tx -> Z * tx;
  end_transaction : memory -> tx -> Z * tx;
  abort_transaction : memory -> tx -> memory * tx
}.

(** What RVM promises for transactions in restore mode.  Its error
    codes are positive and at most [top_code]; an RVM that never fails has [top_code] 0.  [saved t m0]: the
    transaction can bring back [m0], as long as only announced ranges have changed. *)
Class RVMLaws (tx : Type) `{RVM tx} := {
  top_code : Z;
  ranges : tx -> list (Z * Z);
  saved : tx -> memory -> Prop;
  begin_code t r t' : begin_transaction t = (r, t') -> 0 <= r <= top_code;
  set_range_code m a n t r t' : set_range m a n t = (r, t') -> 0 <= r <= top_code;
  end_code m t r t' : end_transaction m t = (r, t') -> 0 <= r <= top_code;
  begin_law t t' m : begin_transaction t = (0, t') -> ranges t' = [] /\ saved t' m;
  set_range_law m a n t t' : set_range m a n t = (0, t') ->
    ranges t' = (a, n) :: ranges t /\
    (forall m0, saved t m0 -> agree_off (ranges t) m0 m -> saved t' m0);
  set_range_fails m a n t t' r : set_range m a n t = (r, t') -> r <> 0 ->
    ranges t' = ranges t /\ (forall m0, saved t m0 -> saved t' m0);
  abort_law m m0 t : saved t m0 -> agree_off (ranges t) m0 m -> (abort_transaction m t).1 = m0
}.

(** The allocator's state: the segment, RVM, whether the transaction record is
    still allocated, the caller's [*err], and the globals
    RecoverableHeapStartAddress and RecoverableHeapHighAddress. *)
Record rds (tx : Type) := Rds {
  mem : memory;
  rvm : tx;
  tid_live : bool;
  err : Z;
  start : Z;
  high : Z
}.
Arguments Rds {tx}.
Arguments mem {tx}.
Arguments rvm {tx}.
Arguments tid_live {tx}.
Arguments err {tx}.
Arguments start {tx}.
Arguments high {tx}.

Section Monad.
Context {tx : Type}.

Definition M (A : Type) : Type := rds tx -> res (A * rds tx).
Definition ret {A} (a : A) : M A := fun s => Ret (a, s).
Definition mbnd {A B} (m : M A) (k : A -> M B) : M B :=
  fun s => match m s with Ret (a, s') => k a s' | Stop e => Stop e end.
Definition halt {A} (e : stop) : M A := fun _ => Stop e.

Definition with_mem (s : rds tx) (m : memory) : rds tx :=
  Rds m (rvm s) (tid_live s) (err s) (start s) (high s).
Definition with_rvm (s : rds tx) (t : tx) : rds tx :=
  Rds (mem s) t (tid_live s) (err s) (start s) (high s).
Definition with_live (s : rds tx) (b : bool) : rds tx :=
  Rds (mem s) (rvm s) b (err s) (start s) (high s).
Definition with_err (s : rds tx) (e : Z) : rds tx :=
  Rds (mem s) (rvm s) (tid_live s) e (start s) (high s).

(** Loads and stores of a cell. *)
Definition ld (a : Z) : M Z :=
  fun s => match mem s !! a with Some v => Ret (v, s) | None => Stop CUndef end.
Definition sto (a v : Z) : M unit :=
  fun s => match mem s !! a with Some _ => Ret (tt, with_mem s (<[a := v]> (mem s))) | None => Stop CUndef end.

(** [*err] and the globals. *)
Definition get_err : M Z := fun s => Ret (err s, s).
Definition set_err (e : Z) : M unit := fun s => Ret (tt, with_err s e).
Definition get_start : M Z := fun s => Ret (start s, s).
Definition get_high : M Z := fun s => Ret (high s, s).

Definition massert (b : bool) : M unit := if b then ret tt else halt CAbort.

(** Calls of RVM: with a transaction record that has been freed they are undefined. *)
Definition on_tid {A} (f : rds tx -> A * rds tx) : M A :=
  fun s => if tid_live s then Ret (f s) else Stop CUndef.
Definition rvm_malloc_tid : M unit := fun s => Ret (tt, with_live s true).
Definition rvm_free_tid : M unit := on_tid (fun s => (tt, with_live s false)).

Context `{!RVM tx}.

Definition rvm_begin_transaction : M Z :=
  on_tid (fun s => let '(r, t) := begin_transaction (rvm s) in (r, with_rvm s t)).
Definition rvm_set_range (a n : Z) : M Z :=
  on_tid (fun s => let '(r, t) := set_range (mem s) a n (rvm s) in (r, with_rvm s t)).
Definition rvm_end_transaction : M Z :=
  on_tid (fun s => let '(r, t) := end_transaction (mem s) (rvm s) in (r, with_rvm s t)).
Definition rvm_abort_transaction : M unit :=
  on_tid (fun s => let '(m, t) := abort_transaction (mem s) (rvm s) in (tt, with_rvm (with_mem s m) t)).

(** [while (1)] with fuel; [inr] leaves the loop.  A loop of the allocator visits
    each block or list at most once, so as many rounds as there are cells are
    enough. *)
Fixpoint mwhile {A R} (fuel : nat) (body : A -> M (A + R)) (a : A) : M R :=
  match fuel with
  | O => halt CDiverge
  | S f => mbnd (body a) (fun r => match r with inl a' => mwhile f body a' | inr r => ret r end)
  end.
Definition get_fuel : M nat := fun s => Ret (S (size (mem s)), s).
Definition loop_while {A R} (body : A -> M (A + R)) (a : A) : M R :=
  mbnd get_fuel (fun f => mwhile f body a).

End Monad.
Arguments M : clear implicits.

Declare Scope rds_scope.
Delimit Scope rds_scope with rds.
Notation "'let!' x ':=' m 'in' k" := (mbnd m (fun x => k))
  (at level 10, x pattern, m at level 100, k at level 200) : rds_scope.
Notation "m1 ';;!' m2" := (mbnd m1 (fun _ => m2))
  (at level 199, right associativity) : rds_scope.
Open Scope rds_scope.

(** ** Weakest preconditions *)
Section Wp.
Context {tx : Type} `{!RVM tx}.

(** [m] started in [s] returns, in a way that satisfies [Q]. *)
Definition wp {A} (m : M tx A) (Q : A -> rds tx -> Prop) (s : rds tx) : Prop :=
  exists a s', m s = Ret (a, s') /\ Q a s'.

Lemma wp_ret {A} (a : A) Q s : Q a s -> wp (ret a) Q s.
Proof. intros H. exists a, s. done. Qed.

Lemma wp_bind {A B} (m : M tx A) (k : A -> M tx B) Q s : wp m (fun a => wp (k a) Q) s -> wp (mbnd m k) Q s.
Proof. intros (a & s' & E & b & s'' & E' & HQ). exists b, s''. unfold mbnd. by rewrite E. Qed.

Lemma wp_mono {A} (m : M tx A) (Q Q' : A -> rds tx -> Prop) s :
  wp m Q s -> (forall a s', Q a s' -> Q' a s') -> wp m Q' s.
Proof. intros (a & s' & E & HQ) H. exists a, s'. auto. Qed.

Lemma wp_ld a v (Q : Z -> rds tx -> Prop) s : mem s !! a = Some v -> Q v s -> wp (ld a) Q s.
Proof. intros E HQ. exists v, s. unfold ld. by rewrite E. Qed.

Lemma wp_sto a v (Q : unit -> rds tx -> Prop) s :
  is_Some (mem s !! a) -> Q tt (with_mem s (<[a := v]> (mem s))) -> wp (sto a v) Q s.
Proof. intros [w E] HQ. exists tt. unfold sto. rewrite E. eauto. Qed.

Lemma wp_set_range a n Q s :
  tid_live s = true ->
  (forall r t, set_range (mem s) a n (rvm s) = (r, t) -> Q r (with_rvm s t)) -> wp (rvm_set_range a n) Q s.
Proof.
  intros Hl H. unfold wp, rvm_set_range, on_tid. rewrite Hl.
  destruct (set_range (mem s) a n (rvm s)) as [r t] eqn:E. eauto.
Qed.

Lemma wp_massert b (Q : unit -> rds tx -> Prop) s : b = true -> Q tt s -> wp (massert b) Q s.
Proof. intros -> HQ. exists tt, s. done. Qed.

(** Loops: the invariant [P] comes with a bound on the rounds left. *)
Lemma wp_mwhile {A R} (P : nat -> A -> rds tx -> Prop) (Q : R -> rds tx -> Prop) (body : A -> M tx (A + R)) fuel n a s :
  P n a s -> (n < fuel)%nat ->
  (forall n a s, P n a s -> wp (body a) (fun r s' => match r with
     | inl a' => exists n', (n' < n)%nat /\ P n' a' s' | inr r => Q r s' end) s) ->
  wp (mwhile fuel body a) Q s.
Proof.
  intros HP Hn Hb. revert n a s HP Hn. induction fuel as [|f IH]; intros n a s HP Hn; [lia|]. cbn [mwhile].
  apply wp_bind. eapply wp_mono; [by apply (Hb n)|]. intros [a'|r] s'; cbn.
  - intros (n' & Hlt & HP'). apply (IH n'); [done|lia].
  - apply wp_ret.
Qed.

Lemma wp_loop {A R} (P : nat -> A -> rds tx -> Prop) (Q : R -> rds tx -> Prop) (body : A -> M tx (A + R)) n a s :
  P n a s -> (n <= size (mem s))%nat ->
  (forall n a s, P n a s -> wp (body a) (fun r s' => match r with
     | inl a' => exists n', (n' < n)%nat /\ P n' a' s' | inr r => Q r s' end) s) ->
  wp (loop_while body a) Q s.
Proof. intros HP Hn Hb. unfold loop_while. apply wp_bind. exists (S (size (mem s))), s. split; [done|]. eapply wp_mwhile; eauto. lia. Qed.

End Wp.

(** ** Steps inside a transaction *)
Section Steps.
Context {tx : Type} `{!RVM tx, !RVMLaws tx}.

(** The open transaction can bring back [m0] from the present state. *)
Definition logged (m0 : memory) (s : rds tx) : Prop :=
  saved (rvm s) m0 /\ agree_off (ranges (rvm s)) m0 (mem s).

Definition covered (s : rds tx) (x : Z) : Prop := in_ranges x (ranges (rvm s)).

(** [keep]: addresses that nothing writes to. *)
Record evolves (keep : Z -> Prop) (s s' : rds tx) : Prop := {
  ev_start : start s' = start s;
  ev_high : high s' = high s;
  ev_live : tid_live s' = tid_live s;
  ev_dom : forall x, is_Some (mem s !! x) <-> is_Some (mem s' !! x);
  ev_keep : forall x, keep x -> mem s' !! x = mem s !! x;
  ev_cover : forall x, covered s x -> covered s' x;
  ev_logged : forall m0, logged m0 s -> logged m0 s'
}.

#[global] Instance evolves_preorder keep : PreOrder (evolves keep).
Proof.
  split.
  - intros s. by split.
  - intros s1 s2 s3 H1 H2. split.
    + by rewrite (ev_start _ _ _ H2), (ev_start _ _ _ H1).
    + by rewrite (ev_high _ _ _ H2), (ev_high _ _ _ H1).
    + by rewrite (ev_live _ _ _ H2), (ev_live _ _ _ H1).
    + intros x. by rewrite (ev_dom _ _ _ H1), (ev_dom _ _ _ H2).
    + intros x Hx. by rewrite (ev_keep _ _ _ H2), (ev_keep _ _ _ H1).
    + intros x Hx. by apply (ev_cover _ _ _ H2), (ev_cover _ _ _ H1).
    + intros m0 Hx. by apply (ev_logged _ _ _ H2), (ev_logged _ _ _ H1).
Qed.

Lemma evolves_weaken (keep keep' : Z -> Prop) s s' :
  evolves keep s s' -> (forall x, keep' x -> keep x) -> evolves keep' s s'.
Proof. intros [] H. split; eauto. Qed.

(** A store to a covered address. *)
Lemma evolves_store (keep : Z -> Prop) s x v :
  is_Some (mem s !! x) -> covered s x -> ~ keep x -> evolves keep s (with_mem s (<[x := v]> (mem s))).
Proof.
  intros Hx Hc Hk. split; try done; cbn.
  - intros y. destruct (decide (x = y)) as [->|Hne]; [rewrite lookup_insert_eq|rewrite lookup_insert_ne by done]; [|done].
    split; eauto.
  - intros y Hy. rewrite lookup_insert_ne; [done|]. by intros ->.
  - intros m0 [Hs Ha]. split; [done|]. cbn. intros y Hy. rewrite lookup_insert_ne; [auto|]. by intros ->.
Qed.

Lemma evolves_err keep s e : evolves keep s (with_err s e).
Proof. by split. Qed.

(** An announcement, successful or not. *)
Lemma evolves_range keep s a n r t :
  set_range (mem s) a n (rvm s) = (r, t) -> evolves keep s (with_rvm s t).
Proof.
  intros E. destruct (decide (r = 0)) as [->|Hr].
  - destruct (set_range_law _ _ _ _ _ E) as [Hr Hs]. split; try done.
    + intros x (q & Hq & Hx). exists q. cbn. rewrite Hr. split; [by right|done].
    + intros m0 [H1 H2]. split; cbn; [by apply Hs|]. rewrite Hr. intros x Hx. apply H2.
      intros (q & Hq & Hx'). apply Hx. exists q. split; [by right|done].
  - destruct (set_range_fails _ _ _ _ _ _ E Hr) as [Hg Hs]. split; try done.
    + intros x. unfold covered. cbn. by rewrite Hg.
    + intros m0 [H1 H2]. split; cbn; [auto|]. by rewrite Hg.
Qed.

Lemma covered_range s a n t x :
  set_range (mem s) a n (rvm s) = (0, t) -> a <= x < a + n -> covered (with_rvm s t) x.
Proof.
  intros E Hx. destruct (set_range_law _ _ _ _ _ E) as [Hr _]. exists (a, n). cbn. rewrite Hr. split; [by left|done].
Qed.

End Steps.
End RdsMem.
