(* ===== verification/Rds.v ===== *)
(** * The recoverable heap: code

    Model of subprojects/rvm/rds: blocks with guards in a mapped segment, segregated
    free lists indexed by the size in chunks, the last one in use (maxlist) for all
    larger blocks.  The C functions keep their names; pointers are addresses, NULL
    is 0, [tid] says whether the caller passes a transaction. *)
From Stdlib Require Import ZArith Lia String.
From stdpp Require Import base list numbers gmap.
From S2P Require Import Prelude.
From S2P Require Import PdbArray.
From S2P Require Import RdsMem.
Import RdsMem.
Open Scope Z_scope.

Module Rds.

(** Error codes of rds.h. *)
Notation SUCCESS := 0 (only parsing).
Definition EHEAP_VERSION_SKEW := -4.
Definition EHEAP_INIT := -5.
Definition EBAD_ARGS := -6.
Definition ECORRUPT := -7.
Definition EFREED_TWICE := -8.
Definition ENO_ROOM := -9.

(** Guards, and the sizes and offsets of free_block_t, free_list_t and
    heap_header_t. *)
Definition FREE_GUARD := 0x345298af.
Definition ALLOC_GUARD := 0x783bd92c.
Definition END_GUARD := 0xfd10a32e.
Definition FREE_LIST_GUARD := 0xad938945.
Notation RDS_BLOCK_HDR_SIZE := 24 (only parsing).
Notation sizeof_free_block := 32 (only parsing).
Notation sizeof_free_list := 16 (only parsing).
Notation sizeof_stats := 52 (only parsing).
Notation sizeof_heap_header := 264 (only parsing).

Notation off_type := 0 (only parsing).
Notation off_size := 8 (only parsing).
Notation off_prev := 16 (only parsing).
Notation off_next := 24 (only parsing).
Notation off_guard := 0 (only parsing).
Notation off_head := 8 (only parsing).
Notation off_heaplength := 80 (only parsing).
Notation off_chunk_size := 88 (only parsing).
Notation off_nlists := 96 (only parsing).
Notation off_stats := 104 (only parsing).
Notation off_maxlist := 160 (only parsing).
Notation off_lists := 248 (only parsing).

Definition RDS_HEAP_VERSION : list Z :=
  (fun c => Z.of_N (Ascii.N_of_ascii c)) <$>
  list_ascii_of_string "Dynamic Allocator Using Rvm Release 0.1 1 Dec 1990"%string.

Section Code.
Context {tx : Type} `{!RVM tx}.
Abbreviation M := (M tx).

Definition HEAP_INIT : M bool := let! b := get_start in ret (negb (b =? 0)).
Definition hdr (off : Z) : M Z := let! b := get_start in ld (b + off).
Definition RDS_HEAPLENGTH : M Z := hdr off_heaplength.
Definition RDS_CHUNK_SIZE : M Z := hdr off_chunk_size.
Definition RDS_NLISTS : M Z := hdr off_nlists.
Definition RDS_MAXLIST : M Z := hdr off_maxlist.
Definition set_MAXLIST (v : Z) : M unit := let! b := get_start in sto (b + off_maxlist) v.

(** [&RDS_FREE_LIST[i]]. *)
Definition RDS_FREE_LIST (i : Z) : M Z := let! b := get_start in ret (b + off_lists + sizeof_free_list * i).
Definition list_head (i : Z) : M Z := let! l := RDS_FREE_LIST i in ld (l + off_head).
Definition list_guard (i : Z) : M Z := let! l := RDS_FREE_LIST i in ld (l + off_guard).

Definition NEXT_CONSECUTIVE_BLOCK (bp : Z) : M Z :=
  let! n := ld (bp + off_size) in let! c := RDS_CHUNK_SIZE in ret (bp + u64 (n * c)).
Definition BLOCK_END (bp : Z) : M Z := let! p := NEXT_CONSECUTIVE_BLOCK bp in ret (p - 8).
Definition USER_BLOCK (bp : Z) : Z := bp + off_prev.
Definition BLOCK_HDR (addr : Z) : Z := addr - 16.

(** The counters of rds_stats_t, in their order. *)
Inductive stat :=
| s_malloc | s_prealloc | s_free | s_coalesce | s_hits | s_misses | s_large_list
| s_large_hits | s_large_misses | s_merged | s_unmerged | s_freebytes | s_mallocbytes.
Definition stat_index (k : stat) : Z :=
  match k with
  | s_malloc => 0 | s_prealloc => 1 | s_free => 2 | s_coalesce => 3 | s_hits => 4 | s_misses => 5
  | s_large_list => 6 | s_large_hits => 7 | s_large_misses => 8 | s_merged => 9 | s_unmerged => 10
  | s_freebytes => 11 | s_mallocbytes => 12
  end.
Definition add_stat (k : stat) (d : Z) : M unit :=
  let! b := get_start in
  let! v := ld (b + off_stats + 4 * stat_index k) in
  sto (b + off_stats + 4 * stat_index k) (u32 (v + d)).

(** [rvmret = rvm_set_range(...); if (rvmret != RVM_SUCCESS) { *err = rvmret; return r; }] *)
Definition announce {A} (a n : Z) (r : A) (k : M A) : M A :=
  let! e := rvm_set_range a n in
  if e =? SUCCESS then k else set_err e ;;! ret r.
Definition announce_stats {A} (r : A) (k : M A) : M A :=
  let! b := get_start in announce (b + off_stats) sizeof_stats r k.

(** ** rds_util.c *)
Definition dequeue (list : Z) : M Z :=
  let! block := ld (list + off_head) in
  announce list sizeof_free_list 0 (
  let! ptr := ld (block + off_next) in
  sto (list + off_head) ptr ;;!
  (if ptr =? 0 then set_err SUCCESS ;;! ret block else
   announce (ptr + off_prev) 8 0 (
   sto (ptr + off_prev) 0 ;;!
   set_err SUCCESS ;;! ret block))).

Definition rm_from_list (list bp : Z) : M Z :=
  let! h := ld (list + off_head) in
  if bp =? h then
    let! bp' := dequeue list in
    if bp' =? 0 then ret 0 else set_err SUCCESS ;;! ret 1
  else
    let! ptr := ld (bp + off_prev) in
    announce (ptr + off_next) 8 0 (
    let! nx := ld (bp + off_next) in
    sto (ptr + off_next) nx ;;!
    (if nx =? 0 then set_err SUCCESS ;;! ret 1 else
     announce (nx + off_prev) 8 0 (
     let! pv := ld (bp + off_prev) in
     sto (nx + off_prev) pv ;;!
     set_err SUCCESS ;;! ret 1))).

Definition put_block (bp : Z) : M Z :=
  let! n := ld (bp + off_size) in
  let! max := RDS_MAXLIST in
  let! list := RDS_FREE_LIST (s32 (if max <=? n then max else n)) in
  let! g := ld (list + off_guard) in
  if negb (g =? FREE_LIST_GUARD) then set_err ECORRUPT ;;! ret (-1) else
  announce bp sizeof_free_block (-1) (
  let! h := ld (list + off_head) in
  sto (bp + off_next) h ;;!
  sto (bp + off_prev) 0 ;;!
  (if h =? 0 then
     announce list sizeof_free_list (-1) (
     sto (list + off_head) bp ;;!
     set_err SUCCESS ;;! ret 0)
   else
     announce (h + off_prev) 8 (-1) (
     sto (h + off_prev) bp ;;!
     announce list sizeof_free_list (-1) (
     sto (list + off_head) bp ;;!
     set_err SUCCESS ;;! ret 0)))).

(** ** rds_coalesce.c *)
Definition next_is_free (nfbp : Z) : M bool :=
  let! ty := ld (nfbp + off_type) in
  let! hi := get_high in
  ret ((ty =? FREE_GUARD) && (nfbp <? hi)).

(** One round of the [while] loop of merge_with_next_free. *)
Definition merge_step (fbp nfbp merged : Z) : M ((Z * Z) + Z) :=
  let! f := next_is_free nfbp in
  if negb f then ret (inr merged) else
  let! block_end := BLOCK_END fbp in
  add_stat s_merged 1 ;;!
  let! n := ld (fbp + off_size) in
  let! nn := ld (nfbp + off_size) in
  sto (fbp + off_size) (u64 (n + nn)) ;;!
  let! nn := ld (nfbp + off_size) in
  let! max := RDS_MAXLIST in
  let list := s32 (if max <=? nn then max else nn) in
  let! h := list_head list in
  massert (negb (h =? 0)) ;;!
  let! l := RDS_FREE_LIST list in
  rm_from_list l nfbp ;;!
  let! e := get_err in
  if negb (e =? SUCCESS) then ret (inr 0) else
  announce block_end (8 + sizeof_free_block) (inr 0) (
  sto block_end 0 ;;!
  sto (nfbp + off_type) 0 ;;! sto (nfbp + off_size) 0 ;;!
  sto (nfbp + off_prev) 0 ;;! sto (nfbp + off_next) 0 ;;!
  let! nfbp := NEXT_CONSECUTIVE_BLOCK fbp in
  ret (inl (nfbp, 1))).

Definition merge_with_next_free (fbp : Z) : M Z :=
  let! ty := ld (fbp + off_type) in
  massert (ty =? FREE_GUARD) ;;!
  let! nfbp := NEXT_CONSECUTIVE_BLOCK fbp in
  let! f := next_is_free nfbp in
  let loop := loop_while (fun '(nfbp, merged) => merge_step fbp nfbp merged) (nfbp, 0) in
  if f then announce fbp sizeof_free_block 0 loop else loop.

(** [rm_from_list(...); save = fbp->next; put_block(...); fbp = save]: a block moves
    to the list of its size; [inr true] when an error was met. *)
Definition move_block (i fbp : Z) : M (Z + bool) :=
  let! l := RDS_FREE_LIST i in
  rm_from_list l fbp ;;!
  let! e := get_err in
  if negb (e =? SUCCESS) then ret (inr true) else
  let! save := ld (fbp + off_next) in
  put_block fbp ;;!
  let! e := get_err in
  if negb (e =? SUCCESS) then ret (inr true) else
  ret (inl save).

(** One round of the [while] loop of coalesce. *)
Definition coalesce_block (i fbp : Z) : M (Z + bool) :=
  if fbp =? 0 then ret (inr false) else
  let! merged := merge_with_next_free fbp in
  let! e := get_err in
  if negb (e =? SUCCESS) then ret (inr true) else
  (if merged =? 0 then add_stat s_unmerged 1 else ret tt) ;;!
  let! nl := RDS_NLISTS in
  if negb (merged =? 0) && (u64 i <? nl) then move_block i fbp
  else let! nx := ld (fbp + off_next) in ret (inl nx).

(** The [for] loop of coalesce. *)
Definition coalesce_list (i : Z) : M (Z + bool) :=
  if negb (0 <? i) then ret (inr false) else
  let! g := list_guard i in
  if negb (g =? FREE_LIST_GUARD) then set_err ECORRUPT ;;! ret (inr true) else
  let! fbp := list_head i in
  let! failed := loop_while (coalesce_block i) fbp in
  if failed : bool then ret (inr true) else ret (inl (i - 1)).

Definition coalesce_lists : M bool :=
  let! nl := RDS_NLISTS in loop_while coalesce_list (s32 nl).

(** The second part of coalesce: large blocks of the old maxlist go where they
    belong. *)
Definition large_block (old_maxlist fbp : Z) : M (Z + bool) :=
  if fbp =? 0 then ret (inr false) else
  let! n := ld (fbp + off_size) in
  if u64 old_maxlist <? n then move_block old_maxlist fbp
  else let! nx := ld (fbp + off_next) in ret (inl nx).

Definition coalesce_large (old_maxlist : Z) : M bool :=
  let! h := list_head old_maxlist in loop_while (large_block old_maxlist) h.

(** The loops that lower maxlist to a list that is not empty. *)
Definition lower_maxlist (limit : Z) : M unit :=
  loop_while (fun _ : unit =>
    let! max := RDS_MAXLIST in
    if limit <? max then
      let! h := list_head max in
      if h =? 0 then set_MAXLIST (max - 1) ;;! ret (inl tt) else ret (inr tt)
    else ret (inr tt)) tt.

Definition coalesce : M unit :=
  let! init := HEAP_INIT in
  if negb init then set_err EHEAP_INIT else
  add_stat s_coalesce 1 ;;!
  set_err SUCCESS ;;!
  let! failed := coalesce_lists in
  if failed : bool then ret tt else
  let! max := RDS_MAXLIST in
  let! nl := RDS_NLISTS in
  if max <? nl then
    let old_maxlist := s32 max in
    let! b := get_start in
    announce (b + off_maxlist) 8 tt (
    set_MAXLIST nl ;;!
    let! failed := coalesce_large old_maxlist in
    if failed : bool then ret tt else
    lower_maxlist 1 ;;!
    set_err SUCCESS)
  else set_err SUCCESS.

(** ** rds_split.c *)

(** The [for] loop of split: the first non-empty list among the multiples of
    [size], or maxlist. *)
Definition split_list (size : Z) : M Z :=
  if negb ((- 2 ^ 31 <=? size * 2) && (size * 2 <? 2 ^ 31)) then halt CUndef else
  loop_while (fun i =>
    let! max := RDS_MAXLIST in
    if negb (u64 i <? max) then ret (inr max) else
    let! h := list_head i in
    if negb (h =? 0) then ret (inr i) else
    if i + size <? 2 ^ 31 then ret (inl (i + size)) else halt CUndef) (size * 2).

(** The [while] loop of split: the smallest block of the list that is large
    enough, or NULL. *)
Definition best_fit (size head : Z) : M Z :=
  loop_while (fun '(tempbp, bp) =>
    if tempbp =? 0 then ret (inr bp) else
    let! n := ld (tempbp + off_size) in
    let! better := if bp =? 0 then ret true else let! m := ld (bp + off_size) in ret (n <? m) in
    if (u64 size <=? n) && better then
      if n =? u64 size then ret (inr tempbp) else
      let! nx := ld (tempbp + off_next) in ret (inl (nx, tempbp))
    else
      let! nx := ld (tempbp + off_next) in ret (inl (nx, bp))) (head, 0).

(** The part of split after a block [bp] of the list [i] has been chosen. *)
Definition split_block (size i bp : Z) : M Z :=
  let! n := ld (bp + off_size) in
  massert (negb (bp =? 0) && (u64 size <=? n)) ;;!
  let! list := RDS_FREE_LIST i in
  if u64 size =? n then
    rm_from_list list bp ;;!
    let! e := get_err in
    if negb (e =? SUCCESS) then ret 0 else ret bp
  else
    let remaining_size := s32 (u64 (n - u64 size)) in
    massert (0 <? remaining_size) ;;!
    let! c := RDS_CHUNK_SIZE in
    let newObject2 := bp + u64 (remaining_size * c) in
    announce bp sizeof_free_block 0 (
    sto (bp + off_size) (u64 remaining_size) ;;!
    let! e := BLOCK_END bp in
    announce e 8 0 (
    sto e END_GUARD ;;!
    announce newObject2 sizeof_free_block 0 (
    sto (newObject2 + off_size) (u64 size) ;;!
    sto (newObject2 + off_type) FREE_GUARD ;;!
    let! n1 := ld (bp + off_size) in
    let! max := RDS_MAXLIST in
    if n1 <? max then
      rm_from_list list bp ;;!
      let! e := get_err in
      if negb (e =? SUCCESS) then ret 0 else
      put_block bp ;;!
      let! e := get_err in
      if negb (e =? SUCCESS) then ret 0 else
      set_err SUCCESS ;;! ret newObject2
    else set_err SUCCESS ;;! ret newObject2))).

Definition split_retry (size : Z) : M (option (Z * Z)) :=
  let! i := split_list size in
  let! h := list_head i in
  let! bp := best_fit size h in
  ret (if bp =? 0 then None else Some (i, bp)).

(** The start of split: lower maxlist, coalesce when nothing is left. *)
Definition split_prepare (size : Z) : M bool :=
  let! max := RDS_MAXLIST in
  let! h := list_head max in
  if negb (h =? 0) then ret false else
  let! b := get_start in
  announce (b + off_maxlist) 8 true (
  add_stat s_large_list 1 ;;!
  lower_maxlist (u64 size) ;;!
  let! max := RDS_MAXLIST in
  let! h := list_head max in
  if negb (h =? 0) then ret false else
  coalesce ;;!
  let! e := get_err in
  ret (negb (e =? SUCCESS))).

Definition split (size : Z) : M Z :=
  let! failed := split_prepare size in
  if failed : bool then ret 0 else
  let! r := split_retry size in
  match r with
  | Some (i, bp) => split_block size i bp
  | None =>
      coalesce ;;!
      let! e := get_err in
      if negb (e =? SUCCESS) then ret 0 else
      let! r := split_retry size in
      match r with
      | Some (i, bp) => split_block size i bp
      | None => set_err ENO_ROOM ;;! ret 0
      end
  end.

Definition get_block (size : Z) : M Z :=
  let! max := RDS_MAXLIST in
  let list := s32 (if max <=? u64 size then max else u64 size) in
  let! g := list_guard list in
  if negb (g =? FREE_LIST_GUARD) then set_err ECORRUPT ;;! ret 0 else
  let! h := list_head list in
  let! miss := if h =? 0 then ret true else let! n := ld (h + off_size) in ret (negb (n =? u64 size)) in
  if miss : bool then
    (if u64 list <? max then add_stat s_misses 1 else add_stat s_large_misses 1) ;;!
    split size
  else
    (if u64 list <? max then add_stat s_hits 1 else add_stat s_large_hits 1) ;;!
    let! l := RDS_FREE_LIST list in
    dequeue l.

(** ** Transactions of the entry points *)

(** [tid == NULL]: a transaction of its own, begun here; [false] when that fails. *)
Definition open_tid (tid : bool) : M bool :=
  if tid then ret true else
  rvm_malloc_tid ;;!
  let! r := rvm_begin_transaction in
  if r =? SUCCESS then ret true else
  set_err r ;;!
  rvm_free_tid ;;!
  ret false.

Definition abort_tid (tid : bool) : M unit :=
  if tid then ret tt else rvm_abort_transaction ;;! rvm_free_tid.

(** ** rds_malloc.c *)

(** rds_malloc once a block has been found. *)
Definition malloc_take (tid : bool) (fbp i : Z) : M Z :=
  let! n := ld (fbp + off_size) in
  massert (n =? u64 i) ;;!
  let! ty := ld (fbp + off_type) in
  let! en := BLOCK_END fbp in
  let! g := ld en in
  massert ((ty =? FREE_GUARD) && (g =? END_GUARD)) ;;!
  let! r := rvm_set_range fbp sizeof_free_block in
  if negb (r =? SUCCESS) then abort_tid tid ;;! set_err r ;;! ret 0 else
  sto (fbp + off_type) ALLOC_GUARD ;;!
  sto (fbp + off_next) 0 ;;! sto (fbp + off_prev) 0 ;;!
  (if tid then ret tt else
   let! r := rvm_end_transaction in set_err r ;;! rvm_free_tid) ;;!
  let! e := get_err in
  if negb (e =? SUCCESS) then ret 0 else ret (USER_BLOCK fbp).

Definition rds_malloc (size : Z) (tid : bool) : M Z :=
  let! init := HEAP_INIT in
  if negb init then set_err EHEAP_INIT ;;! ret 0 else
  let size := u64 (size + RDS_BLOCK_HDR_SIZE) in
  let! c := RDS_CHUNK_SIZE in
  if c =? 0 then halt CUndef else
  let i := s32 (u64 (size / c + 1)) in
  let! opened := open_tid tid in
  if negb opened then ret 0 else
  set_err SUCCESS ;;!
  let! b := get_start in
  let! r := rvm_set_range (b + off_stats) sizeof_stats in
  (if negb (r =? SUCCESS) then set_err r ;;! abort_tid tid ;;! ret 0 else
   add_stat s_malloc 1 ;;!
   add_stat s_freebytes (- (i * c)) ;;!
   add_stat s_mallocbytes (i * c) ;;!
   let! fbp := get_block i in
   let! e := get_err in
   if negb (e =? SUCCESS) then abort_tid tid ;;! ret 0 else
   malloc_take tid fbp i).

(** ** rds_free.c *)
Definition free_check (bp : Z) : M Z :=
  if (bp =? 0) || negb (u64 bp mod 8 =? 0) then ret EBAD_ARGS else
  let! ty := ld (bp + off_type) in
  if ty =? FREE_GUARD then ret EFREED_TWICE else
  if negb (ty =? ALLOC_GUARD) then ret ECORRUPT else
  let! en := BLOCK_END bp in
  let! g := ld en in
  if negb (g =? END_GUARD) then ret ECORRUPT else ret SUCCESS.

(** The block leaves the user's hands: guard, statistics, merge, list. *)
Definition free_block (bp : Z) : M unit :=
  sto (bp + off_type) FREE_GUARD ;;!
  add_stat s_free 1 ;;!
  let! c := RDS_CHUNK_SIZE in
  let! n := ld (bp + off_size) in
  add_stat s_freebytes (n * c) ;;!
  add_stat s_mallocbytes (- (n * c)) ;;!
  merge_with_next_free bp ;;!
  let! e := get_err in
  if negb (e =? SUCCESS) then ret tt else put_block bp ;;! ret tt.

(** The end of rds_free: commit or abort the transaction of its own. *)
Definition free_end (tid : bool) : M Z :=
  let! e := get_err in
  (if negb (e =? SUCCESS) && negb tid then rvm_abort_transaction ;;! rvm_free_tid
   else if negb tid then
     let! r := rvm_end_transaction in
     rvm_free_tid ;;!
     (if negb (r =? SUCCESS) then set_err r else ret tt)
   else ret tt) ;;!
  ret 0.

Definition rds_free (addr : Z) (tid : bool) : M Z :=
  let bp := BLOCK_HDR addr in
  let! init := HEAP_INIT in
  if negb init then set_err EHEAP_INIT ;;! ret (-1) else
  let! chk := free_check bp in
  if negb (chk =? SUCCESS) then set_err chk ;;! ret (-1) else
  let! opened := open_tid tid in
  if negb opened then ret (-1) else
  set_err SUCCESS ;;!
  let! b := get_start in
  let! r := rvm_set_range (b + off_stats) sizeof_stats in
  (if negb (r =? SUCCESS) then set_err r else
   let! r := rvm_set_range (bp + off_type) 8 in
   if negb (r =? SUCCESS) then abort_tid tid ;;! set_err r else
   free_block bp) ;;!
  free_end tid.

(** [intentionList_t]: the blocks to free when the transaction commits. *)
Record intentions := { i_size : Z; i_count : Z; i_table : option (list Z) }.
Definition STARTSIZE := 128.

(** An operation on arrays that does not touch the heap. *)
Definition lift {A} (r : res A) : M A := fun s => match r with Ret a => Ret (a, s) | Stop e => Stop e end.

Section Intentions.
Context `{!Alloc}.

Definition malloc_table (n : Z) : M (list Z) :=
  if can_alloc n then ret (replicate (Z.to_nat (n / 8)) junk) else halt CUndef.

Definition rds_fake_free (addr : Z) (l : intentions) : M (Z * intentions) :=
  let bp := BLOCK_HDR addr in
  let! init := HEAP_INIT in
  if negb init then ret (EHEAP_INIT, l) else
  if addr =? 0 then ret (SUCCESS, l) else
  if negb (u64 bp mod 8 =? 0) then ret (EBAD_ARGS, l) else
  let! ty := ld (bp + off_type) in
  if ty =? FREE_GUARD then ret (EFREED_TWICE, l) else
  if negb (ty =? ALLOC_GUARD) then ret (ECORRUPT, l) else
  let! en := BLOCK_END bp in
  let! g := ld en in
  if negb (g =? END_GUARD) then ret (ECORRUPT, l) else
  let! l' :=
    match i_table l with
    | None => let! t := malloc_table STARTSIZE in ret (STARTSIZE, 0, t)
    | Some t =>
        if u64 (i_count l * 8) =? i_size l then
          let size' := u64 (i_size l * 2) in
          let! t' := malloc_table size' in
          let! t'' := lift (forZ 0 (i_count l) (fun k t' => rbind (aget t k) (fun x => aset t' k x)) t') in
          ret (size', i_count l, t'')
        else ret (i_size l, i_count l, t)
    end in
  let '(size, count, t) := l' in
  let! t' := lift (aset t count addr) in
  ret (SUCCESS, {| i_size := size; i_count := u64 (count + 1); i_table := Some t' |}).

(** The [for] loop of rds_do_free. *)
Definition free_intention (l : intentions) (i : Z) : M (Z + unit) :=
  if negb (i <? i_count l) then ret (inr tt) else
  let! addr := match i_table l with Some t => lift (aget t i) | None => halt CUndef end in
  let bp := BLOCK_HDR addr in
  let! ty := ld (bp + off_type) in
  massert (ty =? ALLOC_GUARD) ;;!
  announce (bp + off_type) 8 (inr tt) (
  free_block bp ;;!
  let! e := get_err in
  if negb (e =? SUCCESS) then ret (inr tt) else ret (inl (i + 1))).

Definition rds_do_free (l : intentions) : M (Z * intentions) :=
  rvm_malloc_tid ;;!
  let! r := rvm_begin_transaction in
  if negb (r =? SUCCESS) then rvm_free_tid ;;! ret (r, l) else
  set_err SUCCESS ;;!
  announce_stats tt (loop_while (free_intention l) 0) ;;!
  let! e := get_err in
  let! r := if negb (e =? SUCCESS) then rvm_abort_transaction ;;! ret SUCCESS else rvm_end_transaction in
  rvm_free_tid ;;!
  ret (if negb (e =? SUCCESS) then e else r,
       {| i_size := i_size l; i_count := i_count l; i_table := None |}).

End Intentions.

(** ** rds_prealloc.c *)
Definition rds_prealloc (size nblocks : Z) (tid : bool) : M Z :=
  let! init := HEAP_INIT in
  if negb init then set_err EHEAP_INIT ;;! ret (-1) else
  let! c := RDS_CHUNK_SIZE in
  if c =? 0 then halt CUndef else
  let size := u64 (u64 (size + RDS_BLOCK_HDR_SIZE) / c + 1) in
  let! max := RDS_MAXLIST in
  if size =? max then set_err SUCCESS ;;! ret (-1) else
  let! opened := open_tid tid in
  if negb opened then ret (-1) else
  let! b := get_start in
  let! r := rvm_set_range (b + off_stats) sizeof_stats in
  if negb (r =? SUCCESS) && negb tid then
    rvm_abort_transaction ;;! set_err r ;;! rvm_free_tid ;;! ret (-1)
  else
  add_stat s_prealloc 1 ;;!
  set_err SUCCESS ;;!
  let! failed := mwhile (S (Z.to_nat nblocks)) (fun i =>
    if negb (u64 i <? nblocks) then ret (inr false) else
    let! bp := split (s32 size) in
    (if bp =? 0 then ret tt else put_block bp ;;! ret tt) ;;!
    let! e := get_err in
    if negb (e =? SUCCESS) then abort_tid tid ;;! ret (inr true) else ret (inl (i + 1))) 0 in
  if failed : bool then ret (-1) else
  (if tid then set_err SUCCESS ;;! ret 0 else
   let! r := rvm_end_transaction in
   if negb (r =? SUCCESS) then set_err r ;;! rvm_free_tid ;;! ret (-1) else
   rvm_free_tid ;;! set_err SUCCESS ;;! ret 0).

(** ** rds_maxblock.c *)
Definition rds_maxblock (size : Z) : M Z :=
  let! c := RDS_CHUNK_SIZE in
  if c =? 0 then halt CUndef else
  let nblocks := size / c in
  let! max := RDS_MAXLIST in
  let! h := list_head max in
  if negb (h =? 0) then
    loop_while (fun tempbp =>
      if tempbp =? 0 then ret (inr 0) else
      let! n := ld (tempbp + off_size) in
      if nblocks <=? n then ret (inr 1) else
      let! nx := ld (tempbp + off_next) in ret (inl nx)) h
  else
    loop_while (fun i =>
      if negb (nblocks <? u64 i) then ret (inr 0) else
      let! h := list_head i in
      if negb (h =? 0) then ret (inr 1) else ret (inl (i - 1))) (s32 (u64 (max - 1))).

(** ** rds_init.c and rds_start.c *)
Fixpoint stos (a : Z) (vs : list Z) : M unit :=
  match vs with [] => ret tt | v :: vs => sto a v ;;! stos (a + 1) vs end.

(** The header: version, sizes, statistics, empty lists. *)
Definition init_header (base length chunk_size nlists : Z) : M unit :=
  stos base (RDS_HEAP_VERSION ++ [0]) ;;!
  sto (base + off_heaplength) length ;;!
  sto (base + off_chunk_size) chunk_size ;;!
  sto (base + off_maxlist) nlists ;;!
  sto (base + off_nlists) nlists ;;!
  mwhile 14 (fun k => if negb (k <? 13) then ret (inr tt) else
    sto (base + off_stats + 4 * k) 0 ;;! ret (inl (k + 1))) 0 ;;!
  loop_while (fun i => if negb (u64 i <? u64 (nlists + 1)) then ret (inr tt) else
    sto (base + off_lists + sizeof_free_list * i + off_head) 0 ;;!
    sto (base + off_lists + sizeof_free_list * i + off_guard) FREE_LIST_GUARD ;;!
    ret (inl (i + 1))) 1.

(** One free block behind the header, on the last list. *)
Definition init_block (base length chunk_size nlists remaining_space : Z) : M Z :=
  let fbp := base + off_lists + sizeof_free_list * nlists + sizeof_free_list in
  let fbp := ((fbp + chunk_size - 1) / chunk_size) * chunk_size in
  announce fbp sizeof_free_block (-1) (
  sto (fbp + off_size) (remaining_space / chunk_size) ;;!
  sto (fbp + off_type) FREE_GUARD ;;!
  sto (fbp + off_next) 0 ;;! sto (fbp + off_prev) 0 ;;!
  sto (base + off_lists + sizeof_free_list * nlists + off_head) fbp ;;!
  sto (base + off_stats + 4 * stat_index s_freebytes) (u32 (remaining_space / chunk_size * chunk_size)) ;;!
  let addr := fbp + u64 (remaining_space / chunk_size * chunk_size) in
  massert (addr <=? base + length) ;;!
  announce (addr - 8) 8 (-1) (
  sto (addr - 8) END_GUARD ;;!
  set_err SUCCESS ;;! ret 0)).

Definition rds_init_heap (base length chunk_size nlists : Z) : M Z :=
  let heap_hdr_len := u64 (sizeof_heap_header + nlists * sizeof_free_list) in
  if length <? heap_hdr_len then set_err ENO_ROOM ;;! ret (-1) else
  announce base heap_hdr_len (-1) (
  massert (sizeof_free_block + 8 <=? chunk_size) ;;!
  init_header base length chunk_size nlists ;;!
  init_block base length chunk_size nlists (u64 (length - heap_hdr_len))).

(** [strcmp(RDS_HEAP_VERSION, RDS_VERSION_STAMP) != 0]. *)
Fixpoint version_differs (a : Z) (vs : list Z) : M bool :=
  match vs with
  | [] => ret false
  | v :: vs => let! w := ld a in if w =? v then version_differs (a + 1) vs else ret true
  end.

Definition rds_start_heap (startAddr : Z) : M Z :=
  (fun s => Ret (tt, Rds (mem s) (rvm s) (tid_live s) (err s) startAddr (high s))) ;;!
  let! d := version_differs startAddr (RDS_HEAP_VERSION ++ [0]) in
  if d : bool then set_err EHEAP_VERSION_SKEW ;;! ret (-1) else
  let! nl := RDS_NLISTS in
  let! len := RDS_HEAPLENGTH in
  let! c := RDS_CHUNK_SIZE in
  if c =? 0 then halt CUndef else
  let heap_hdr_len := u64 (sizeof_heap_header + nl * sizeof_free_list) in
  let hi := startAddr + u64 (u64 (len - heap_hdr_len) / c * c) + heap_hdr_len in
  (fun s => Ret (tt, Rds (mem s) (rvm s) (tid_live s) (err s) (start s) hi)) ;;!
  set_err SUCCESS ;;! ret (-1).

Definition rds_stop_heap : M Z :=
  (fun s => Ret (tt, Rds (mem s) (rvm s) (tid_live s) (err s) 0 (high s))) ;;!
  set_err SUCCESS ;;! ret (-1).

(** ** rds_stats.c *)
Definition zero_stats : M unit :=
  let! b := get_start in
  mwhile 14 (fun k => if negb (k <? 13) then ret (inr tt) else
    sto (b + off_stats + 4 * k) 0 ;;! ret (inl (k + 1))) 0.

Definition rds_clear_stats : M Z :=
  rvm_malloc_tid ;;!
  let! r := rvm_begin_transaction in
  if negb (r =? SUCCESS) then set_err r ;;! rvm_free_tid ;;! ret (-1) else
  let! b := get_start in
  let! r := rvm_set_range (b + off_stats) sizeof_stats in
  (if r =? SUCCESS then zero_stats else ret tt) ;;!
  if negb (r =? SUCCESS) then rvm_abort_transaction ;;! set_err r ;;! rvm_free_tid ;;! ret (-1) else
  let! r := rvm_end_transaction in
  if negb (r =? SUCCESS) then set_err r ;;! rvm_free_tid ;;! ret (-1) else
  set_err SUCCESS ;;! rvm_free_tid ;;! ret 0.

(** [stats] says whether the caller passes a structure to fill. *)
Definition rds_get_stats (stats : bool) : M (Z * list Z) :=
  if negb stats then ret (EBAD_ARGS, []) else
  let! b := get_start in
  let! l := mwhile 14 (fun '(k, l) => if negb (k <? 13) then ret (inr l) else
    let! v := ld (b + off_stats + 4 * k) in ret (inl (k + 1, l ++ [v]))) (0, []) in
  ret (0, l).

End Code.
End Rds.
