(* ===== verification/RdsHeap.v ===== *)
(** * The recoverable heap: tiles and free lists

    Between the header and the end of the segment the heap is a sequence of tiles,
    each a block with its header and end guard; the free ones are on doubly linked
    lists.  [heap_rep] says that a memory holds a sequence of tiles and a family of
    lists, and the file proves what the list operations of rds_util.c do to it. *)
From Stdlib Require Import ZArith Lia.
From stdpp Require Import base list numbers gmap.
From S2P Require Import Prelude.
From S2P Require Import RdsMem.
From S2P Require Import Rds.
Import RdsMem Rds.
Open Scope Z_scope.

Module RdsHeap.

(** A block: allocated, free and on list [i], or free and on no list. *)
Inductive tstate := Allocd | Loose | On (i : Z).
Record tile := Tile { at_ : Z; sz : Z; st : tstate }.

#[export] Instance tstate_eq_dec : EqDecision tstate.
Proof. solve_decision. Defined.
#[export] Instance tile_eq_dec : EqDecision tile.
Proof. solve_decision. Defined.

Definition guard_of (s : tstate) : Z := match s with Allocd => ALLOC_GUARD | _ => FREE_GUARD end.
Definition is_allocd (s : tstate) : bool := match s with Allocd => true | _ => false end.

(** Size and place of a heap: its header, the chunk size, the number of lists, the
    first block and the number of chunks. *)
Record geometry := { g_base : Z; g_chunk : Z; g_nl : Z; g_lo : Z; g_n : Z }.

Record geo_ok (g : geometry) : Prop := {
  geo_base : 0 < g_base g;
  geo_chunk : 40 <= g_chunk g;
  geo_word : exists k, g_chunk g = 8 * k;
  geo_nl : 1 <= g_nl g < 2 ^ 30;
  geo_lo : g_base g + 264 + 16 * g_nl g <= g_lo g;
  geo_align : exists k, g_lo g = 8 * k;
  geo_n : 0 <= g_n g < 2 ^ 30;
  geo_top : g_lo g + g_n g * g_chunk g < 2 ^ 63
}.

Lemma in_mid {X} (l1 : list X) x l2 : x ∈ l1 ++ x :: l2.
Proof. apply elem_of_app. right. apply list_elem_of_here. Qed.

(** ** Tiles *)
Section Tiles.
Context (c : Z) (Hc : 40 <= c).

Definition end_ (t : tile) : Z := at_ t + sz t * c.

(** The tiles follow each other from [a] to [e]. *)
Fixpoint chained (a : Z) (T : list tile) (e : Z) : Prop :=
  match T with
  | [] => a = e
  | t :: T => at_ t = a /\ 0 < sz t /\ chained (end_ t) T e
  end.

Lemma chained_app a T1 T2 e : chained a (T1 ++ T2) e <-> exists x, chained a T1 x /\ chained x T2 e.
Proof.
  revert a. induction T1 as [|t T1 IH]; intros a; cbn; [naive_solver|]. rewrite IH. naive_solver.
Qed.

Lemma size_le t : 0 < sz t -> c <= sz t * c.
Proof using Hc. nia. Qed.

Lemma chained_le a T e : chained a T e -> a <= e.
Proof using Hc.
  revert a. induction T as [|t T IH]; intros a; cbn; [lia|]. intros (Ha & Hs & H).
  apply IH in H. unfold end_ in H. pose proof (size_le t Hs). lia.
Qed.

Lemma chained_bounds a T e t : chained a T e -> t ∈ T -> a <= at_ t /\ at_ t + c <= end_ t /\ end_ t <= e /\ 0 < sz t.
Proof using Hc.
  revert a. induction T as [|u T IH]; intros a; cbn; [set_solver|]. intros (Ha & Hs & H) [->|Ht]%elem_of_cons.
  - apply chained_le in H. pose proof (size_le u Hs). unfold end_ in *. lia.
  - destruct (IH _ H Ht) as (H1 & H2). pose proof (size_le u Hs). unfold end_ in *. lia.
Qed.

(** Different tiles do not overlap. *)
Lemma chained_sep a T e t u : chained a T e -> t ∈ T -> u ∈ T -> t = u \/ end_ t <= at_ u \/ end_ u <= at_ t.
Proof using Hc.
  revert a. induction T as [|v T IH]; intros a; cbn; [set_solver|].
  intros (Ha & Hs & H) [->|Ht]%elem_of_cons [->|Hu]%elem_of_cons; [by left| | |by eapply IH].
  - destruct (chained_bounds _ _ _ _ H Hu). lia.
  - destruct (chained_bounds _ _ _ _ H Ht). lia.
Qed.

Lemma chained_inj a T e t u : chained a T e -> t ∈ T -> u ∈ T -> at_ t = at_ u -> t = u.
Proof using Hc.
  intros H Ht Hu E. destruct (chained_sep _ _ _ _ _ H Ht Hu) as [?|?]; [done|].
  destruct (chained_bounds _ _ _ _ H Ht) as (_ & ? & _), (chained_bounds _ _ _ _ H Hu) as (_ & ? & _). lia.
Qed.

Lemma chained_aligned a T e t : (exists k, c = 8 * k) -> chained a T e -> t ∈ T -> exists j, 0 <= j /\ at_ t = a + 8 * j.
Proof using Hc.
  intros [k Hk]. revert a. induction T as [|u T IH]; intros a; cbn; [set_solver|]. intros (Ha & Hs & H) [->|Ht]%elem_of_cons.
  - exists 0. lia.
  - destruct (IH _ H Ht) as (j & Hj & E). exists (sz u * k + j). unfold end_ in E. nia.
Qed.

(** A new state for the tile at [p]. *)
Definition setst (p : Z) (s : tstate) (T : list tile) : list tile :=
  (fun t => if at_ t =? p then Tile (at_ t) (sz t) s else t) <$> T.

Lemma chained_setst p s a T e : chained a (setst p s T) e <-> chained a T e.
Proof.
  revert a. induction T as [|t T IH]; intros a; cbn; [done|]. rewrite IH.
  destruct (at_ t =? p); cbn; done.
Qed.

Lemma elem_of_setst p s T t :
  t ∈ setst p s T <-> (t ∈ T /\ at_ t <> p) \/ (exists u, u ∈ T /\ at_ u = p /\ t = Tile p (sz u) s).
Proof.
  unfold setst. rewrite list_elem_of_fmap. split.
  - intros (u & -> & Hu). destruct (Z.eqb_spec (at_ u) p); [right; exists u; subst; done|left; done].
  - intros [[Ht Hne]|(u & Hu & E & ->)].
    + exists t. destruct (Z.eqb_spec (at_ t) p); done.
    + exists u. destruct (Z.eqb_spec (at_ u) p); [|done]. by subst.
Qed.

Lemma setst_out p s T : (forall t, t ∈ T -> at_ t <> p) -> setst p s T = T.
Proof.
  induction T as [|t T IH]; intros H; [done|]. unfold setst in *. rewrite fmap_cons, IH by (intros; apply H; by right).
  destruct (Z.eqb_spec (at_ t) p) as [E|]; [|done]. by destruct (H t (list_elem_of_here _ _)).
Qed.

Lemma setst_mid p s a T1 n s' T2 e :
  chained a (T1 ++ Tile p n s' :: T2) e -> setst p s (T1 ++ Tile p n s' :: T2) = T1 ++ Tile p n s :: T2.
Proof using Hc.
  intros (x & H1 & H2)%chained_app. unfold setst. rewrite fmap_app, fmap_cons. cbn [at_ sz]. rewrite Z.eqb_refl.
  cbn in H2. destruct H2 as (Ep & Hn & H2). f_equal; [|f_equal]; apply setst_out; intros t Ht E.
  - destruct (chained_bounds _ _ _ _ H1 Ht) as (? & ? & ? & ?). lia.
  - destruct (chained_bounds _ _ _ _ H2 Ht) as (? & ? & ? & ?). unfold end_ in *. cbn in *. nia.
Qed.

Lemma setst_app p s T1 T2 : setst p s (T1 ++ T2) = setst p s T1 ++ setst p s T2.
Proof. apply fmap_app. Qed.

(** Allocated tiles, and the addresses inside them. *)
Definition allocs (T : list tile) : list tile := filter (fun t => st t = Allocd) T.

Definition in_allocs (A : list tile) (x : Z) : Prop := exists t, t ∈ A /\ at_ t <= x < end_ t.

Lemma elem_of_allocs T t : t ∈ allocs T <-> t ∈ T /\ st t = Allocd.
Proof. unfold allocs. rewrite list_elem_of_filter. naive_solver. Qed.

Lemma allocs_app T1 T2 : allocs (T1 ++ T2) = allocs T1 ++ allocs T2.
Proof. apply filter_app. Qed.

Lemma allocs_free t T : st t <> Allocd -> allocs (t :: T) = allocs T.
Proof. intros H. unfold allocs. by rewrite filter_cons_False. Qed.

Lemma allocs_setst p s T :
  s <> Allocd -> (forall t, t ∈ T -> at_ t = p -> st t <> Allocd) -> allocs (setst p s T) = allocs T.
Proof.
  intros Hs. induction T as [|t T IH]; intros H; [done|]. unfold allocs, setst in *. rewrite fmap_cons.
  specialize (IH (fun u Hu => H u (list_elem_of_further _ _ _ Hu))). rewrite !filter_cons, IH.
  destruct (Z.eqb_spec (at_ t) p) as [E|E]; [|done].
  by rewrite (decide_False (P := _ = Allocd)), (decide_False (P := st t = Allocd)); [|apply (H t); [apply list_elem_of_here|]|].
Qed.

Lemma not_in_allocs a T e t x : chained a T e -> t ∈ T -> st t <> Allocd -> at_ t <= x < end_ t -> ~ in_allocs (allocs T) x.
Proof using Hc.
  intros H Ht Hs Hx (u & Hu & Hx'). apply elem_of_allocs in Hu as [Hu Hs'].
  destruct (chained_sep _ _ _ _ _ H Ht Hu) as [->|?]; [done|lia].
Qed.

Lemma low_not_in_allocs a T e x : chained a T e -> x < a \/ e <= x -> ~ in_allocs (allocs T) x.
Proof using Hc.
  intros H Hx (u & Hu & Hx'). apply elem_of_allocs in Hu as [Hu _].
  destruct (chained_bounds _ _ _ _ H Hu). lia.
Qed.

End Tiles.

(** ** Doubly linked lists *)
Definition first (l : list Z) : Z := match l with [] => 0 | p :: _ => p end.

Fixpoint linked (m : memory) (pv : Z) (l : list Z) : Prop :=
  match l with
  | [] => True
  | p :: l' => m !! (p + off_prev) = Some pv /\ m !! (p + off_next) = Some (first l') /\ linked m p l'
  end.

Lemma linked_frame m m' pv l :
  (forall p, p ∈ l -> m' !! (p + off_prev) = m !! (p + off_prev) /\ m' !! (p + off_next) = m !! (p + off_next)) ->
  linked m pv l -> linked m' pv l.
Proof.
  revert pv. induction l as [|p l IH]; intros pv H; cbn; [done|]. intros (H1 & H2 & H3).
  destruct (H p ltac:(set_solver)) as [-> ->]. split; [done|]. split; [done|]. apply IH; [set_solver|done].
Qed.

(** The last element of a non-empty list, [d] for the empty one. *)
Fixpoint final (d : Z) (l : list Z) : Z := match l with [] => d | p :: l => final p l end.

Lemma final_snoc d l p : final d (l ++ [p]) = p.
Proof. revert d. induction l as [|q l IH]; intros d; cbn; [done|]. apply IH. Qed.

Lemma first_app l1 p l2 : first (l1 ++ p :: l2) = first (l1 ++ [p]).
Proof. by destruct l1. Qed.

(** A list in two parts: the links between them are explicit. *)
Lemma linked_at m pv l1 p l2 :
  linked m pv (l1 ++ p :: l2) ->
  m !! (p + off_prev) = Some (final pv l1) /\ m !! (p + off_next) = Some (first l2) /\ linked m p l2.
Proof. revert pv. induction l1 as [|q l1 IH]; intros pv; cbn; [naive_solver|]. intros (_ & _ & H). by apply IH in H. Qed.

Lemma final_in d l : l <> [] -> final d l ∈ l.
Proof.
  revert d. induction l as [|p l IH]; intros d H; [done|]. cbn. destruct l as [|q l]; [set_solver|].
  right. by apply IH.
Qed.

Lemma first_in l : l <> [] -> first l ∈ l.
Proof. destruct l; [done|]. set_solver. Qed.

Lemma final_app d l1 l2 : final d (l1 ++ l2) = final (final d l1) l2.
Proof. revert d. induction l1 as [|p l1 IH]; intros d; cbn; [done|]. apply IH. Qed.

Lemma linked_iff m pv l :
  linked m pv l <-> forall l1 p l2, l = l1 ++ p :: l2 ->
    m !! (p + off_prev) = Some (final pv l1) /\ m !! (p + off_next) = Some (first l2).
Proof.
  split.
  - intros H l1 p l2 ->. apply linked_at in H. naive_solver.
  - revert pv. induction l as [|p l IH]; intros pv H; cbn; [done|].
    destruct (H [] p l eq_refl) as [H1 H2]. split; [done|]. split; [done|]. apply IH.
    intros l1 q l2 ->. by apply (H (p :: l1)).
Qed.

(** Taking a block out of a list: its neighbours are joined. *)
Lemma linked_remove m m' l1 p l2 :
  linked m 0 (l1 ++ p :: l2) -> NoDup (l1 ++ l2) ->
  (l1 <> [] -> m' !! (final 0 l1 + off_next) = Some (first l2)) ->
  (l2 <> [] -> m' !! (first l2 + off_prev) = Some (final 0 l1)) ->
  (forall q, q ∈ l1 ++ l2 -> l2 = [] \/ q <> first l2 -> m' !! (q + off_prev) = m !! (q + off_prev)) ->
  (forall q, q ∈ l1 ++ l2 -> l1 = [] \/ q <> final 0 l1 -> m' !! (q + off_next) = m !! (q + off_next)) ->
  linked m' 0 (l1 ++ l2).
Proof.
  intros Hl Hnd H1 H2 H3 H4. rewrite linked_iff in Hl |- *. intros a q b E.
  assert (q ∈ l1 ++ l2) as Hq by (rewrite E; set_solver).
  assert ((exists b', l1 = a ++ q :: b' /\ b = b' ++ l2) \/ (exists a', l2 = a' ++ q :: b /\ a = l1 ++ a')) as [(b' & -> & ->)|(a' & -> & ->)].
  { apply app_eq_app in E as (k & [[-> E]|[-> E]]).
    - destruct k as [|x k]; cbn in E; [right; exists []; subst l2; by rewrite !app_nil_r|]. injection E as <- ->. left. by exists k.
    - right. by exists k. }
  - destruct (Hl a q (b' ++ p :: l2)) as [Hp Hn]; [by rewrite <- app_assoc|]. split.
    + rewrite H3; [done|done|]. destruct l2 as [|r l2]; [by left|right]. cbn. intros ->.
      rewrite <- app_assoc in Hnd. apply NoDup_app in Hnd as (_ & _ & Hnd). cbn in Hnd. apply NoDup_cons in Hnd as [Hnd _].
      apply Hnd. set_solver.
    + destruct b' as [|r b']; cbn in Hn |- *.
      * replace q with (final 0 (a ++ [q])) at 1 by apply final_snoc. apply H1. by destruct a.
      * rewrite H4; [done|done|]. right. rewrite final_app. cbn. intros Hr.
        assert (q ∈ r :: b') as Hin by (rewrite Hr; change (final r b') with (final q (r :: b')); by apply final_in).
        rewrite <- app_assoc in Hnd. apply NoDup_app in Hnd as (_ & _ & Hnd). cbn [app] in Hnd.
        apply NoDup_cons in Hnd as [Hnd _]. apply Hnd. set_solver.
  - destruct (Hl (l1 ++ p :: a') q b) as [Hp Hn]; [by rewrite <- !app_assoc|].
    rewrite final_app in Hp |- *. cbn in Hp. split.
    + destruct a' as [|r a']; cbn in Hp |- *; [by apply H2|]. rewrite H3; [done|done|]. right. cbn. intros ->.
      apply NoDup_app in Hnd as (_ & _ & Hnd). cbn in Hnd. apply NoDup_cons in Hnd as [Hnd _]. set_solver.
    + rewrite H4; [done|done|]. destruct l1 as [|r l1]; [by left|right]. intros ->.
      apply NoDup_app in Hnd as (_ & Hnd & _). apply (Hnd (final 0 (r :: l1))); [by apply final_in|set_solver].
Qed.

(** Putting a block in front of a list. *)
Lemma linked_push m m' p l :
  linked m 0 l -> NoDup l ->
  m' !! (p + off_prev) = Some 0 -> m' !! (p + off_next) = Some (first l) ->
  (l <> [] -> m' !! (first l + off_prev) = Some p) ->
  (forall q, q ∈ l -> m' !! (q + off_next) = m !! (q + off_next)) ->
  (forall q, q ∈ l -> q <> first l -> m' !! (q + off_prev) = m !! (q + off_prev)) ->
  linked m' 0 (p :: l).
Proof.
  intros Hl Hnd H1 H2 H3 H4 H5. split; [done|]. split; [done|].
  destruct l as [|q l]; [done|]. cbn in Hl |- *. destruct Hl as (_ & Hn & Hl). split; [by apply H3|].
  split; [rewrite H4; [done|set_solver]|]. eapply linked_frame; [|done]. intros r Hr.
  split; [|apply H4; set_solver]. apply H5; [set_solver|]. cbn. intros ->. apply NoDup_cons in Hnd. tauto.
Qed.

(** ** The representation *)
Section Rep.
Context (g : geometry) (Hg : geo_ok g).
(** While a block is being merged its size field runs ahead of the tiles: [dirty] is
    its address, 0 for none. *)
Context (dirty : Z).
Abbreviation b := (g_base g).
Abbreviation c := (g_chunk g).
Abbreviation nl := (g_nl g).
Abbreviation lo := (g_lo g).

Definition top : Z := lo + g_n g * c.
Definition list_cell (i : Z) : Z := b + off_lists + sizeof_free_list * i.

(** The cells of a tile. *)
Record tile_mem (m : memory) (t : tile) : Prop := {
  tm_type : m !! (at_ t + off_type) = Some (guard_of (st t));
  tm_size : at_ t <> dirty -> m !! (at_ t + off_size) = Some (sz t);
  tm_end : m !! (end_ c t - 8) = Some END_GUARD
}.

Record heap_rep (m : memory) (T : list tile) (L : Z -> list Z) (max : Z) : Prop := {
  r_chain : chained c lo T top;
  r_tiles : forall t, t ∈ T -> tile_mem m t;
  r_guard : forall i, 1 <= i <= nl -> m !! (list_cell i + off_guard) = Some FREE_LIST_GUARD;
  r_head : forall i, 1 <= i <= nl -> m !! (list_cell i + off_head) = Some (first (L i));
  r_linked : forall i, 1 <= i <= nl -> linked m 0 (L i);
  r_on : forall i p, p ∈ L i <-> exists n, Tile p n (On i) ∈ T;
  r_nodup : forall i, NoDup (L i);
  r_index : forall p n i, Tile p n (On i) ∈ T -> 1 <= i <= nl;
  r_chunk : m !! (b + off_chunk_size) = Some c;
  r_nl : m !! (b + off_nlists) = Some nl;
  r_max : m !! (b + off_maxlist) = Some max;
  r_max_le : 1 <= max <= nl;
  r_stats : forall k, 0 <= k < 13 -> is_Some (m !! (b + off_stats + 4 * k));
  r_cells : forall k, 0 <= k -> lo + 8 * k <= top -> is_Some (m !! (lo + 8 * k))
}.

Arguments r_chain {_ _ _ _}.
Arguments r_tiles {_ _ _ _}.
Arguments r_guard {_ _ _ _}.
Arguments r_head {_ _ _ _}.
Arguments r_linked {_ _ _ _}.
Arguments r_on {_ _ _ _}.
Arguments r_nodup {_ _ _ _}.
Arguments r_index {_ _ _ _}.
Arguments r_chunk {_ _ _ _}.
Arguments r_nl {_ _ _ _}.
Arguments r_max {_ _ _ _}.
Arguments r_max_le {_ _ _ _}.
Arguments r_stats {_ _ _ _}.
Arguments r_cells {_ _ _ _}.

(** The cells that hold links. *)
Definition link_cell (T : list tile) (x : Z) : Prop :=
  (exists t, t ∈ T /\ st t <> Allocd /\ (x = at_ t + off_prev \/ x = at_ t + off_next)) \/
  (exists i, 1 <= i <= nl /\ x = list_cell i + off_head).

Definition upd (L : Z -> list Z) (i : Z) (l : list Z) : Z -> list Z := fun j => if j =? i then l else L j.

Lemma upd_same L i l : upd L i l i = l.
Proof. unfold upd. by rewrite Z.eqb_refl. Qed.
Lemma upd_other L i l j : j <> i -> upd L i l j = L j.
Proof. intros. unfold upd. destruct (Z.eqb_spec j i); done. Qed.

Lemma chunk_40 : 40 <= c.
Proof using Hg. apply (geo_chunk g Hg). Qed.

Lemma lo_above : b + 264 + 16 * nl <= lo /\ 0 < b /\ 1 <= nl.
Proof using Hg. destruct Hg. lia. Qed.

Section Held.
Context (m : memory) (T : list tile) (L : Z -> list Z) (max : Z) (R : heap_rep m T L max).

Lemma tile_sep t u : t ∈ T -> u ∈ T -> t = u \/ end_ c t <= at_ u \/ end_ c u <= at_ t.
Proof using Hg R. intros. eapply chained_sep; eauto using chunk_40, r_chain. Qed.

Lemma tile_inj t u : t ∈ T -> u ∈ T -> at_ t = at_ u -> t = u.
Proof using Hg R. intros. eapply chained_inj; eauto using chunk_40, r_chain. Qed.

Lemma tile_bounds t : t ∈ T -> lo <= at_ t /\ at_ t + c <= end_ c t /\ end_ c t <= top /\ 0 < sz t.
Proof using Hg R. intros. eapply chained_bounds; eauto using chunk_40, r_chain. Qed.

(** The words of a tile, and the one behind it, are cells. *)
Lemma tile_cell t k : t ∈ T -> 0 <= k -> at_ t + 8 * k <= end_ c t -> is_Some (m !! (at_ t + 8 * k)).
Proof using Hg R.
  intros Ht Hk Hx. pose proof (tile_bounds t Ht) as (_ & _ & Hb & _).
  destruct (chained_aligned c chunk_40 _ _ _ t (geo_word g Hg) (r_chain R) Ht) as (j & Hj & E).
  replace (at_ t + 8 * k) with (lo + 8 * (j + k)) by lia. apply (r_cells R); lia.
Qed.

(** The header is below the blocks, and tiles lie apart. *)
Lemma header_not_link x : x < b + off_lists -> ~ link_cell T x.
Proof using Hg R.
  intros Hx [(t & Ht & _ & Hl)|(i & Hi & ->)].
  - destruct (tile_bounds t Ht). pose proof lo_above. lia.
  - unfold list_cell in Hx. lia.
Qed.

Lemma tile_not_link t x : t ∈ T -> x = at_ t + off_type \/ x = at_ t + off_size \/ x = end_ c t - 8 -> ~ link_cell T x.
Proof using Hg R.
  intros Ht Hx. pose proof (tile_bounds t Ht) as Hb. pose proof chunk_40. intros [(u & Hu & _ & Hl)|(i & Hi & ->)].
  - pose proof (tile_bounds u Hu). destruct (tile_sep t u Ht Hu) as [<-|?]; lia.
  - pose proof lo_above. unfold list_cell in Hx. lia.
Qed.

Lemma guard_not_link i : 1 <= i <= nl -> ~ link_cell T (list_cell i + off_guard).
Proof using Hg R.
  intros Hi [(t & Ht & _ & Hl)|(j & Hj & E)].
  - destruct (tile_bounds t Ht). pose proof lo_above. unfold list_cell in Hl. lia.
  - unfold list_cell in E. lia.
Qed.

(** Links and the state of one free tile change. *)
Lemma rep_relink m' L' p s :
  (exists t, t ∈ T /\ at_ t = p /\ st t <> Allocd) -> s <> Allocd ->
  (forall x, is_Some (m !! x) -> is_Some (m' !! x)) ->
  (forall x, ~ link_cell T x -> m' !! x = m !! x) ->
  (forall i, 1 <= i <= nl -> m' !! (list_cell i + off_head) = Some (first (L' i)) /\ linked m' 0 (L' i)) ->
  (forall i q, q ∈ L' i <-> exists n, Tile q n (On i) ∈ setst p s T) ->
  (forall i, NoDup (L' i)) -> (forall i, s = On i -> 1 <= i <= nl) ->
  heap_rep m' (setst p s T) L' max.
Proof using Hg R.
  intros (t & Ht & <- & Hst) Hs Hd Hm Hl Hon Hnd Hi. pose proof lo_above as (Hlo & _ & _). split.
  - apply chained_setst. apply (r_chain R).
  - intros u Hu. apply elem_of_setst in Hu as [[Hu Hne]|(v & Hv & E & ->)].
    + destruct (r_tiles R u Hu). split; [| |]; try intros Hd'; rewrite Hm; auto; eapply tile_not_link; eauto.
    + assert (v = t) as -> by (by apply tile_inj). destruct (r_tiles R t Ht) as [H1 H2 H3].
      assert (guard_of s = guard_of (st t)) as Hgs by (destruct s, (st t); done).
      split; cbn [at_ sz st end_]; [rewrite Hgs|intros Hd'|]; rewrite Hm; auto; eapply tile_not_link; eauto.
  - intros i Hi'. rewrite Hm by (by apply guard_not_link). by apply (r_guard R).
  - intros i Hi'. by apply Hl.
  - intros i Hi'. by apply Hl.
  - done.
  - done.
  - intros q n i Hq. apply elem_of_setst in Hq as [[Hq _]|(u & Hu & E & [= -> -> <-])]; [by eapply (r_index R)|by apply Hi].
  - rewrite Hm by (apply header_not_link; lia). apply (r_chunk R).
  - rewrite Hm by (apply header_not_link; lia). apply (r_nl R).
  - rewrite Hm by (apply header_not_link; lia). apply (r_max R).
  - apply (r_max_le R).
  - intros k Hk. apply Hd, (r_stats R). lia.
  - intros k Hk Hx. apply Hd. by apply (r_cells R).
Qed.

(** Blocks on lists are free tiles. *)
Lemma on_tile q i : q ∈ L i -> exists t, t ∈ T /\ at_ t = q /\ st t = On i.
Proof using R. intros Hq. apply (r_on R) in Hq as [n Hq]. by exists (Tile q n (On i)). Qed.

Lemma on_low q i : q ∈ L i -> lo <= q.
Proof using Hg R. intros Hq. destruct (on_tile q i Hq) as (t & Ht & <- & _). by destruct (tile_bounds t Ht). Qed.

Lemma on_sep q r i j : q ∈ L i -> r ∈ L j -> q <> r -> q + 40 <= r \/ r + 40 <= q.
Proof using Hg R.
  intros Hq Hr Hne. destruct (on_tile q i Hq) as (t & Ht & <- & _), (on_tile r j Hr) as (u & Hu & <- & _).
  pose proof chunk_40. pose proof (tile_bounds t Ht). pose proof (tile_bounds u Hu).
  destruct (tile_sep t u Ht Hu) as [->|?]; [done|lia].
Qed.

Lemma on_unique q i j : q ∈ L i -> q ∈ L j -> i = j.
Proof using Hg R.
  intros Hi Hj. destruct (on_tile q i Hi) as (t & Ht & E & Hs), (on_tile q j Hj) as (u & Hu & E' & Hs').
  assert (t = u) as -> by (apply tile_inj; congruence). congruence.
Qed.

Lemma on_link q i : q ∈ L i -> link_cell T (q + off_prev) /\ link_cell T (q + off_next).
Proof using R.
  intros Hq. destruct (on_tile q i Hq) as (t & Ht & <- & Hs).
  split; left; exists t; rewrite Hs; split; [done| |done|]; split; [done| |done|]; auto.
Qed.

Lemma on_range q i : q ∈ L i -> 1 <= i <= nl.
Proof using R. intros Hq. apply (r_on R) in Hq as [n Hq]. by eapply (r_index R). Qed.

(** What rm_from_list stores. *)
Definition m_remove (m : memory) (i : Z) (l1 l2 : list Z) : memory :=
  let m1 := if decide (l1 = []) then <[list_cell i + off_head := first l2]> m else <[final 0 l1 + off_next := first l2]> m in
  if decide (l2 = []) then m1 else <[first l2 + off_prev := final 0 l1]> m1.

(** What put_block stores. *)
Definition m_push (m : memory) (i : Z) (l : list Z) (p : Z) : memory :=
  let m1 := <[p + off_prev := 0]> (<[p + off_next := first l]> m) in
  <[list_cell i + off_head := p]> (if decide (l = []) then m1 else <[first l + off_prev := p]> m1).

(** Stores to the head of list [i] or to links of its blocks leave the rest alone. *)
Lemma head_ne_link q i j : q ∈ L j -> list_cell i + off_head <= lo - 8 -> list_cell i + off_head <> q + off_prev /\ list_cell i + off_head <> q + off_next.
Proof using Hg R. intros Hq Hi. pose proof (on_low _ _ Hq). lia. Qed.

Lemma list_cell_low i : 1 <= i <= nl -> list_cell i + off_head <= lo - 8 /\ b + off_lists <= list_cell i.
Proof using Hg. intros. pose proof lo_above. unfold list_cell. lia. Qed.

Section Remove.
Context (i : Z) (l1 : list Z) (p : Z) (l2 : list Z) (Hi : 1 <= i <= nl) (E : L i = l1 ++ p :: l2).

Lemma remove_ends : (l1 <> [] -> final 0 l1 ∈ L i) /\ (l2 <> [] -> first l2 ∈ L i).
Proof using E. rewrite E. split; intros H; apply elem_of_app; [left; by apply final_in|right; by apply list_elem_of_further, first_in]. Qed.

Lemma remove_prev q j : q ∈ L j -> l2 = [] \/ q <> first l2 -> m_remove m i l1 l2 !! (q + off_prev) = m !! (q + off_prev).
Proof using Hg R E Hi.
  intros Hq Hor. destruct remove_ends as [Hf Hf2]. pose proof (list_cell_low i Hi). pose proof (head_ne_link q i j Hq ltac:(lia)).
  assert (l1 <> [] -> final 0 l1 + off_next <> q + off_prev).
  { intros Hl. destruct (decide (q = final 0 l1)) as [->|Hne]; [lia|]. destruct (on_sep _ _ _ _ Hq (Hf Hl) Hne); lia. }
  unfold m_remove. destruct (decide (l1 = [])), (decide (l2 = [])); rewrite !lookup_insert_ne; try done; try tauto; destruct Hor; try done; lia.
Qed.

Lemma remove_next q j : q ∈ L j -> l1 = [] \/ q <> final 0 l1 -> m_remove m i l1 l2 !! (q + off_next) = m !! (q + off_next).
Proof using Hg R E Hi.
  intros Hq Hor. destruct remove_ends as [Hf Hf2]. pose proof (list_cell_low i Hi). pose proof (head_ne_link q i j Hq ltac:(lia)).
  assert (l2 <> [] -> first l2 + off_prev <> q + off_next).
  { intros Hl. destruct (decide (q = first l2)) as [->|Hne]; [lia|]. destruct (on_sep _ _ _ _ Hq (Hf2 Hl) Hne); lia. }
  unfold m_remove. destruct (decide (l1 = [])), (decide (l2 = [])); rewrite !lookup_insert_ne; try done; try tauto; destruct Hor; try done; lia.
Qed.

(** Cells that are neither the head of list [i] nor a link of a block. *)
Lemma remove_other x :
  x <> list_cell i + off_head -> (forall q, q ∈ L i -> x <> q + off_prev /\ x <> q + off_next) -> m_remove m i l1 l2 !! x = m !! x.
Proof using E.
  intros Hx Hq. destruct remove_ends as [Hf Hf2].
  assert (l1 <> [] -> final 0 l1 + off_next <> x) by (intros; apply not_eq_sym, Hq; auto).
  assert (l2 <> [] -> first l2 + off_prev <> x) by (intros; apply not_eq_sym, Hq; auto).
  unfold m_remove. destruct (decide (l1 = [])), (decide (l2 = [])); rewrite !lookup_insert_ne; auto.
Qed.

Lemma m_remove_same x : ~ link_cell T x -> m_remove m i l1 l2 !! x = m !! x.
Proof using R E Hi.
  intros Hx. apply remove_other.
  - intros ->. apply Hx. right. eauto.
  - intros q Hq. split; intros ->; apply Hx; by apply (on_link q i).
Qed.

Lemma remove_nodup : NoDup (l1 ++ l2) /\ forall q, q ∈ l1 ++ l2 <-> q ∈ L i /\ q <> p.
Proof using R E.
  pose proof (r_nodup R i) as Hnd. rewrite E in Hnd |- *.
  apply NoDup_app in Hnd as (? & Hd & [? ?]%NoDup_cons). clear - H Hd H0 H1. split; [apply NoDup_app|]; set_solver.
Qed.

Lemma remove_self : m_remove m i l1 l2 !! (list_cell i + off_head) = Some (first (l1 ++ l2)) /\ linked (m_remove m i l1 l2) 0 (l1 ++ l2).
Proof using Hg R E Hi.
  destruct remove_ends as [Hf Hf2], remove_nodup as [Hnd Hq]. pose proof (list_cell_low i Hi) as [Hlow _].
  assert (l2 <> [] -> first l2 + off_prev <> list_cell i + off_head) by (intros Hl; pose proof (on_low _ _ (Hf2 Hl)); lia).
  split.
  - unfold m_remove. destruct (decide (l1 = [])) as [->|Hl1].
    + destruct (decide (l2 = [])); cbn [app]; rewrite ?lookup_insert_ne by auto; by rewrite lookup_insert_eq.
    + pose proof (on_low _ _ (Hf Hl1)). assert (first (l1 ++ l2) = first (L i)) as -> by (rewrite E; by destruct l1).
      rewrite <- (r_head R i Hi). destruct (decide (l2 = [])); rewrite !lookup_insert_ne by (auto; lia); done.
  - apply (linked_remove m _ l1 p l2); [rewrite <- E; by apply (r_linked R)|done| | | |].
    + intros Hl1. unfold m_remove. rewrite (decide_False (P := l1 = [])) by done.
      destruct (decide (l2 = [])) as [|Hl2]; [by rewrite lookup_insert_eq|]. rewrite lookup_insert_ne; [by rewrite lookup_insert_eq|].
      destruct (decide (final 0 l1 = first l2)) as [Ee|Ee]; [lia|]. destruct (on_sep _ _ _ _ (Hf Hl1) (Hf2 Hl2) Ee); lia.
    + intros Hl2. unfold m_remove. rewrite (decide_False (P := l2 = [])) by done. by rewrite lookup_insert_eq.
    + intros q Hql. apply Hq in Hql as [Hql _]. by apply (remove_prev q i).
    + intros q Hql. apply Hq in Hql as [Hql _]. by apply (remove_next q i).
Qed.

Lemma remove_dom x : is_Some (m !! x) -> is_Some (m_remove m i l1 l2 !! x).
Proof. intros. unfold m_remove. destruct (decide (l1 = [])), (decide (l2 = [])); rewrite ?lookup_insert_is_Some'; auto. Qed.

Lemma rep_remove : heap_rep (m_remove m i l1 l2) (setst p Loose T) (upd L i (l1 ++ l2)) max.
Proof using Hg R E Hi.
  destruct remove_ends as [Hf Hf2], remove_nodup as [Hnd Hq]. assert (p ∈ L i) as Hp by (rewrite E; set_solver).
  assert (forall q j, j <> i -> q ∈ L j -> forall r, r ∈ L i -> q <> r) as Hdis.
  { intros q j Hne Hqj r Hr ->. apply Hne. by eapply on_unique. }
  apply rep_relink; [|done|apply remove_dom|apply m_remove_same| | | |done].
  - destruct (on_tile p i Hp) as (t & Ht & Ea & Hs). exists t. by rewrite Hs.
  - intros j Hj. destruct (decide (j = i)) as [->|Hne]; [rewrite upd_same; apply remove_self|]. rewrite upd_other by done. split.
    + rewrite remove_other; [by apply (r_head R)|unfold list_cell; lia|]. intros q Hqi.
      pose proof (list_cell_low j Hj) as [Hl _]. by apply (head_ne_link q j i).
    + eapply linked_frame; [|by apply (r_linked R)]. intros q Hqj. split.
      * apply (remove_prev q j Hqj). destruct (decide (l2 = [])); [by left|right; eauto].
      * apply (remove_next q j Hqj). destruct (decide (l1 = [])); [by left|right; eauto].
  - intros j q. setoid_rewrite elem_of_setst. cbn [at_]. trans (q ∈ L j /\ q <> p).
    + destruct (decide (j = i)) as [->|Hne]; [by rewrite upd_same, Hq|]. rewrite upd_other by done. split; [|tauto]. eauto.
    + rewrite (r_on R). split; [intros [[n Hn] ?]; exists n; by left|].
      intros [n [[? ?]|(u & _ & _ & [=])]]. eauto.
  - intros j. destruct (decide (j = i)) as [->|Hne]; [by rewrite upd_same|]. rewrite upd_other by done. apply (r_nodup R).
Qed.

End Remove.

Section Push.
Context (i p n : Z) (Hi : 1 <= i <= nl) (Hp : Tile p n Loose ∈ T).

Lemma loose_sep q j : q ∈ L j -> q + 40 <= p \/ p + 40 <= q.
Proof using Hg R Hp.
  intros Hq. destruct (on_tile q j Hq) as (t & Ht & <- & Hs). pose proof chunk_40.
  pose proof (tile_bounds _ Ht). pose proof (tile_bounds _ Hp). destruct (tile_sep _ _ Ht Hp) as [->|H']; [done|].
  unfold end_ in *. cbn [at_ sz] in *. lia.
Qed.

Lemma push_other x :
  x <> list_cell i + off_head -> x <> p + off_prev -> x <> p + off_next ->
  (L i <> [] -> x <> first (L i) + off_prev) -> m_push m i (L i) p !! x = m !! x.
Proof.
  intros H1 H2 H3 H4. unfold m_push. destruct (decide (L i = [])); rewrite !lookup_insert_ne; try done; try by apply not_eq_sym; auto.
Qed.

Lemma push_self : m_push m i (L i) p !! (list_cell i + off_head) = Some p /\ linked (m_push m i (L i) p) 0 (p :: L i).
Proof using Hg R Hp Hi.
  split; [unfold m_push; by rewrite lookup_insert_eq|].
  pose proof (list_cell_low i Hi) as [Hlow _]. pose proof (tile_bounds _ Hp) as [Hlo _]. cbn in Hlo.
  assert (L i <> [] -> first (L i) ∈ L i) as Hf by apply first_in.
  assert (L i <> [] -> lo <= first (L i) /\ (first (L i) + 40 <= p \/ p + 40 <= first (L i))) as Hfs.
  { intros Hne. split; [by apply (on_low _ i), Hf|by apply (loose_sep _ i), Hf]. }
  apply (linked_push m); [by apply (r_linked R)|by apply (r_nodup R)| | | | |].
  - unfold m_push. destruct (decide (L i = [])) as [|Hne]; rewrite !lookup_insert_ne by (try specialize (Hfs Hne); lia); by rewrite lookup_insert_eq.
  - unfold m_push. destruct (decide (L i = [])) as [|Hne]; rewrite !lookup_insert_ne by (try specialize (Hfs Hne); lia); by rewrite lookup_insert_eq.
  - intros Hne. unfold m_push. rewrite decide_False by done. specialize (Hfs Hne). rewrite lookup_insert_ne by lia. by rewrite lookup_insert_eq.
  - intros q Hq. pose proof (on_low _ _ Hq). pose proof (loose_sep _ _ Hq). apply push_other; try lia.
    intros Hne. destruct (decide (q = first (L i))); [lia|]. destruct (on_sep _ _ _ _ Hq (Hf Hne)); [done|lia|lia].
  - intros q Hq Hqf. pose proof (on_low _ _ Hq). pose proof (loose_sep _ _ Hq). apply push_other; try lia.
Qed.

Lemma push_dom x : is_Some (m !! x) -> is_Some (m_push m i (L i) p !! x).
Proof. intros. unfold m_push. destruct (decide (L i = [])); rewrite !lookup_insert_is_Some'; auto. Qed.

Lemma m_push_same x : ~ link_cell T x -> m_push m i (L i) p !! x = m !! x.
Proof using R Hp Hi.
  intros Hx. apply push_other.
  - intros ->. apply Hx. right. eauto.
  - intros ->. apply Hx. left. exists (Tile p n Loose). naive_solver.
  - intros ->. apply Hx. left. exists (Tile p n Loose). naive_solver.
  - intros Hne ->. apply Hx, (on_link _ i). by apply first_in.
Qed.

Lemma loose_not_on j : p ∉ L j.
Proof using Hg R Hp. intros Hq. destruct (loose_sep _ _ Hq); lia. Qed.

Lemma rep_push : heap_rep (m_push m i (L i) p) (setst p (On i) T) (upd L i (p :: L i)) max.
Proof using Hg R Hp Hi.
  pose proof (tile_bounds _ Hp) as [Hlo _]. cbn in Hlo.
  apply rep_relink; [by exists (Tile p n Loose)|done|apply push_dom|apply m_push_same| | | |by intros ? [= <-]].
  - intros j Hj. destruct (decide (j = i)) as [->|Hne]; [rewrite upd_same; apply push_self|]. rewrite upd_other by done.
    pose proof (list_cell_low j Hj) as [Hlow _]. split.
    + rewrite push_other; try lia; [by apply (r_head R)|unfold list_cell; lia|].
      intros Hl. apply first_in, on_low in Hl. lia.
    + eapply linked_frame; [|by apply (r_linked R)]. intros q Hqj. pose proof (on_low _ _ Hqj).
      pose proof (list_cell_low i Hi) as [Hlow' _]. pose proof (loose_sep _ _ Hqj).
      assert (L i <> [] -> q + 40 <= first (L i) \/ first (L i) + 40 <= q) as Hfi.
      { intros Hl%first_in. apply (on_sep _ _ _ _ Hqj Hl). intros ->. apply Hne. by eapply on_unique. }
      split; apply push_other; try lia; intros Hl; specialize (Hfi Hl); lia.
  - intros j q. setoid_rewrite elem_of_setst. cbn [at_]. trans (q ∈ L j \/ (j = i /\ q = p)).
    + destruct (decide (j = i)) as [->|Hne]; [rewrite upd_same, elem_of_cons; tauto|]. rewrite upd_other by done. tauto.
    + split.
      * intros [Hq|[-> ->]]; [|exists n; right; by exists (Tile p n Loose)]. pose proof Hq as Hq'.
        apply (r_on R) in Hq as [k Hk]. exists k. left. split; [done|]. intros ->. by apply (loose_not_on j).
      * intros [k [[Hk _]|(u & _ & _ & [= -> -> ->])]]; [left; apply (r_on R); eauto|by right].
  - intros j. destruct (decide (j = i)) as [->|Hne]; [rewrite upd_same|rewrite upd_other by done; apply (r_nodup R)].
    apply NoDup_cons. split; [apply loose_not_on|apply (r_nodup R)].
Qed.

End Push.

End Held.
End Rep.

Arguments r_chain {_ _ _ _ _ _}.
Arguments r_tiles {_ _ _ _ _ _}.
Arguments r_guard {_ _ _ _ _ _}.
Arguments r_head {_ _ _ _ _ _}.
Arguments r_linked {_ _ _ _ _ _}.
Arguments r_on {_ _ _ _ _ _}.
Arguments r_nodup {_ _ _ _ _ _}.
Arguments r_index {_ _ _ _ _ _}.
Arguments r_chunk {_ _ _ _ _ _}.
Arguments r_nl {_ _ _ _ _ _}.
Arguments r_max {_ _ _ _ _ _}.
Arguments r_max_le {_ _ _ _ _ _}.
Arguments r_stats {_ _ _ _ _ _}.
Arguments r_cells {_ _ _ _ _ _}.
Arguments tile_sep {_} _ {_ _ _ _ _}.
Arguments tile_inj {_} _ {_ _ _ _ _}.
Arguments tile_bounds {_} _ {_ _ _ _ _}.
Arguments tile_cell {_} _ {_ _ _ _ _}.
Arguments on_low {_} _ {_ _ _ _ _}.
Arguments on_sep {_} _ {_ _ _ _ _}.
Arguments on_unique {_} _ {_ _ _ _ _}.
Arguments on_tile {_ _ _ _ _ _}.
Arguments on_link {_ _ _ _ _ _}.
Arguments on_range {_ _ _ _ _ _}.
Arguments tm_type {_ _ _ _}.
Arguments tm_size {_ _ _ _}.
Arguments tm_end {_ _ _ _}.

(** Counters and maxlist are not part of tiles or lists. *)
Lemma rep_header g dirty m m' T L max max' (Hg : geo_ok g) :
  heap_rep g dirty m T L max -> 1 <= max' <= g_nl g ->
  (forall x, is_Some (m !! x) -> is_Some (m' !! x)) ->
  (forall x, x < g_base g + off_stats \/ g_base g + off_maxlist + 8 <= x -> m' !! x = m !! x) ->
  m' !! (g_base g + off_maxlist) = Some max' -> heap_rep g dirty m' T L max'.
Proof.
  intros R Hm' Hd Hs Hx. pose proof (lo_above g Hg). pose proof (chunk_40 g Hg).
  assert (forall x, g_lo g <= x -> m' !! x = m !! x) as Hhi by (intros; apply Hs; lia).
  assert (forall i k, 1 <= i <= g_nl g -> 0 <= k -> m' !! (list_cell g i + k) = m !! (list_cell g i + k)) as Hlc.
  { intros i k Hi Hk. apply Hs. unfold list_cell. lia. }
  split; try done; try apply R.
  - intros t Ht. destruct (r_tiles R t Ht) as [H1 H2 H3]. pose proof (tile_bounds Hg R t Ht).
    split; [| |]; try intros Hdirty; rewrite Hhi by lia; auto.
  - intros i Hi. rewrite Hlc by lia. by apply (r_guard R).
  - intros i Hi. rewrite Hlc by lia. by apply (r_head R).
  - intros i Hi. eapply linked_frame; [|by apply (r_linked R)]. intros p Hp. apply (on_low Hg R) in Hp. split; apply Hhi; lia.
  - rewrite Hs by lia. apply (r_chunk R).
  - rewrite Hs by lia. apply (r_nl R).
  - intros k Hk. by apply Hd, (r_stats R).
  - intros k Hk Hk'. apply Hd. by apply (r_cells R).
Qed.

(** The size field of a free block runs ahead of the tiles. *)
Lemma rep_dirty g m T L max t v (Hg : geo_ok g) :
  heap_rep g 0 m T L max -> t ∈ T -> st t <> Allocd ->
  heap_rep g (at_ t) (<[at_ t + off_size := v]> m) T L max.
Proof.
  intros R Ht Hs. pose proof (lo_above g Hg). pose proof (chunk_40 g Hg). pose proof (tile_bounds Hg R t Ht) as (Hlo & Hb & _).
  assert (forall u, u ∈ T -> u = t \/ at_ u + 40 <= at_ t /\ end_ (g_chunk g) u <= at_ t \/ at_ t + 40 <= at_ u) as Hsep.
  { intros u Hu. pose proof (tile_bounds Hg R u Hu). destruct (tile_sep Hg R u t Hu Ht) as [?|?]; [by left|right; lia]. }
  split; try apply R.
  - intros u Hu. destruct (r_tiles R u Hu) as [H1 H2 H3]. pose proof (tile_bounds Hg R u Hu). split; [| |].
    + rewrite lookup_insert_ne; [done|]. destruct (Hsep u Hu) as [->|?]; lia.
    + intros Hne. rewrite lookup_insert_ne; [apply H2; lia|lia].
    + rewrite lookup_insert_ne; [done|]. destruct (Hsep u Hu) as [->|?]; lia.
  - intros i Hi. rewrite lookup_insert_ne by (unfold list_cell; lia). by apply (r_guard R).
  - intros i Hi. rewrite lookup_insert_ne by (unfold list_cell; lia). by apply (r_head R).
  - intros i Hi. eapply linked_frame; [|by apply (r_linked R)]. intros p Hp.
    destruct (on_tile R p i Hp) as (u & Hu & <- & _). destruct (Hsep u Hu) as [->|?]; split; apply lookup_insert_ne; lia.
  - rewrite lookup_insert_ne by lia. apply (r_chunk R).
  - rewrite lookup_insert_ne by lia. apply (r_nl R).
  - rewrite lookup_insert_ne by lia. apply (r_max R).
  - intros k Hk. rewrite lookup_insert_ne by lia. by apply (r_stats R).
  - intros k Hk Hk'. apply lookup_insert_is_Some'. right. by apply (r_cells R).
Qed.

(** The tiles of a region are replaced: its blocks are merged, split, given out or
    taken back.  Blocks on lists stay on them. *)
Lemma rep_retile g dirty m m' T1 X Y T2 L max a e (Hg : geo_ok g) :
  heap_rep g dirty m (T1 ++ X ++ T2) L max ->
  (dirty = 0 \/ exists t, t ∈ X /\ at_ t = dirty) ->
  chained (g_chunk g) a X e -> X <> [] -> chained (g_chunk g) a Y e ->
  (forall t, t ∈ Y -> tile_mem g 0 m' t) ->
  (forall x, is_Some (m !! x) -> is_Some (m' !! x)) ->
  (forall x, x < a \/ e <= x -> m' !! x = m !! x) ->
  (forall i p, (exists n, Tile p n (On i) ∈ X) <-> (exists n, Tile p n (On i) ∈ Y)) ->
  (forall i p n, Tile p n (On i) ∈ X -> m' !! (p + off_prev) = m !! (p + off_prev) /\ m' !! (p + off_next) = m !! (p + off_next)) ->
  heap_rep g 0 m' (T1 ++ Y ++ T2) L max.
Proof.
  intros R Hdirty HX Hne HY Htm Hd Hs Hon Hlk. pose proof (lo_above g Hg). pose proof (chunk_40 g Hg) as Hc.
  pose proof (r_chain R) as Hch. apply chained_app in Hch as (a' & H1 & (e' & HX' & H2)%chained_app).
  assert (a' = a) as -> by (destruct X as [|t X]; [done|]; cbn in HX, HX'; lia).
  assert (e' = e) as ->.
  { clear - HX HX'. revert a HX HX'. induction X as [|t X IH]; intros a; cbn; [lia|]. intros (_ & _ & HX) (_ & _ & HX'). eauto. }
  assert (forall t, t ∈ T1 -> end_ (g_chunk g) t <= a) as Hlt by (intros t Ht; by destruct (chained_bounds _ Hc _ _ _ _ H1 Ht) as (?&?&?&?)).
  assert (forall t, t ∈ T2 -> e <= at_ t) as Hge by (intros t Ht; by destruct (chained_bounds _ Hc _ _ _ _ H2 Ht) as (?&?&?&?)).
  pose proof (chained_le _ Hc _ _ _ H1). pose proof (chained_le _ Hc _ _ _ HX).
  assert (forall t, t ∈ T1 ++ X ++ T2 -> t ∈ X \/ (end_ (g_chunk g) t <= a \/ e <= at_ t)) as Hcase.
  { intros t. rewrite !elem_of_app. naive_solver. }
  split; try apply R.
  - apply chained_app. exists a. split; [done|]. apply chained_app. by exists e.
  - intros t Ht. assert (t ∈ Y \/ t ∈ T1 ++ X ++ T2 /\ (end_ (g_chunk g) t <= a \/ e <= at_ t)) as [?|[Ht' Ho]].
    { rewrite !elem_of_app in *. naive_solver. }
    { auto. }
    destruct (r_tiles R t Ht') as [h1 h2 h3]. pose proof (tile_bounds Hg R t Ht').
    split; [| |]; try intros Hne'; rewrite Hs by lia; try done. apply h2.
    destruct Hdirty as [->|(u & Hu & <-)]; [done|]. destruct (chained_bounds _ Hc _ _ _ _ HX Hu). lia.
  - intros i Hi. rewrite Hs by (unfold list_cell; lia). by apply (r_guard R).
  - intros i Hi. rewrite Hs by (unfold list_cell; lia). by apply (r_head R).
  - intros i Hi. eapply linked_frame; [|by apply (r_linked R)]. intros p Hp. apply (r_on R) in Hp as [n Hp].
    destruct (Hcase _ Hp) as [HpX|Ho]; [by apply (Hlk i p n)|]. pose proof (tile_bounds Hg R _ Hp). cbn [at_] in *.
    split; apply Hs; lia.
  - intros i p. rewrite (r_on R). specialize (Hon i p). split; intros [n Hn]; rewrite !elem_of_app in Hn.
    + destruct Hn as [?|[Hn|?]]; [exists n|destruct (proj1 Hon (ex_intro _ n Hn)) as [k Hk]; exists k|exists n]; rewrite !elem_of_app; auto.
    + destruct Hn as [?|[Hn|?]]; [exists n|destruct (proj2 Hon (ex_intro _ n Hn)) as [k Hk]; exists k|exists n]; rewrite !elem_of_app; auto.
  - intros p n i Hp. rewrite !elem_of_app in Hp. assert (exists k, Tile p k (On i) ∈ T1 ++ X ++ T2) as [k Hk].
    { destruct Hp as [?|[?|?]]; [exists n|destruct (proj2 (Hon i p)) as [k Hk]; [by exists n|]; exists k|exists n]; rewrite !elem_of_app; auto. }
    by eapply (r_index R).
  - rewrite Hs by lia. apply (r_chunk R).
  - rewrite Hs by lia. apply (r_nl R).
  - rewrite Hs by lia. apply (r_max R).
  - intros k Hk. by apply Hd, (r_stats R).
  - intros k Hk Hk'. apply Hd. by apply (r_cells R).
Qed.

(** There are no more blocks than cells. *)
Lemma cells_count (m : memory) (l : list Z) : NoDup l -> (forall x, x ∈ l -> is_Some (m !! x)) -> (length l <= size m)%nat.
Proof.
  intros Hnd Hl. rewrite <- (size_dom (D := gset Z)). rewrite <- (size_list_to_set (C := gset Z) l) by done.
  apply subseteq_size. intros x Hx%elem_of_list_to_set. apply elem_of_dom. auto.
Qed.

Lemma chained_nodup c a T e : 40 <= c -> chained c a T e -> NoDup (at_ <$> T).
Proof.
  intros Hc. revert a. induction T as [|t T IH]; intros a; cbn; [by constructor|]. intros (Ha & Hs & Hch). constructor; [|eauto].
  intros (u & E & Hu)%list_elem_of_fmap. destruct (chained_bounds c Hc _ _ _ _ Hch Hu) as (Hb & _).
  pose proof (size_le c Hc t Hs). unfold end_ in Hb. lia.
Qed.

Lemma tiles_count g dirty m T L max (Hg : geo_ok g) : heap_rep g dirty m T L max -> (length T <= size m)%nat.
Proof.
  intros R. rewrite <- (length_fmap at_). apply cells_count; [by eapply chained_nodup; [apply chunk_40|apply (r_chain R)]|].
  intros x (t & -> & Ht)%list_elem_of_fmap. pose proof (tm_type (r_tiles R t Ht)) as E. rewrite Z.add_0_r in E. eauto.
Qed.

End RdsHeap.
