(* ===== verification/RdsLists.v ===== *)
(** * The recoverable heap: list operations

    Rules to execute the allocator on a state whose memory is known, and what
    dequeue, rm_from_list and put_block do: they either report an error of RVM or
    change the lists as intended; in both cases only announced cells have changed
    and no allocated block is touched. *)
From Stdlib Require Import ZArith Lia.
From stdpp Require Import base list numbers gmap.
From S2P Require Import Prelude.
From S2P Require Import RdsMem.
From S2P Require Import Rds.
From S2P Require Import RdsHeap.
Import RdsMem Rds RdsHeap.
Open Scope Z_scope.

Module RdsLists.

Ltac evo := first [eassumption | reflexivity | etransitivity; [eassumption | evo]].

Section Rules.
Context {tx : Type} `{!RVM tx, !RVMLaws tx}.
Context (keep : Z -> Prop).

Lemma wp_announce {A} a n (r : A) k Q (s : rds tx) :
  tid_live s = true ->
  (forall s', evolves keep s s' -> mem s' = mem s -> 0 < err s' <= top_code -> Q r s') ->
  (forall s', evolves keep s s' -> mem s' = mem s -> err s' = err s -> (forall x, a <= x < a + n -> covered s' x) -> wp k Q s') ->
  wp (announce a n r k) Q s.
Proof.
  intros Hl H1 H2. unfold announce. apply wp_bind, wp_set_range; [done|]. intros e t E.
  destruct (Z.eqb_spec e 0) as [->|He].
  - apply H2; try done; [by eapply evolves_range|]. intros x Hx. by eapply covered_range.
  - apply wp_bind. exists tt, (with_err (with_rvm s t) e). split; [done|]. apply wp_ret. apply H1; try done; [|cbn; pose proof (set_range_code _ _ _ _ _ _ E); lia].
    etransitivity; [by eapply evolves_range|apply evolves_err].
Qed.

Lemma wp_store x v Q (s : rds tx) :
  is_Some (mem s !! x) -> covered s x -> ~ keep x ->
  (forall s', evolves keep s s' -> mem s' = <[x := v]> (mem s) -> err s' = err s -> Q tt s') -> wp (sto x v) Q s.
Proof. intros H1 H2 H3 HQ. apply wp_sto; [done|]. apply HQ; try done; by apply evolves_store. Qed.

Lemma wp_set_err e Q (s : rds tx) :
  (forall s', evolves keep s s' -> mem s' = mem s -> err s' = e -> Q tt s') -> wp (set_err e) Q s.
Proof. intros HQ. exists tt, (with_err s e). split; [done|]. apply HQ; try done; apply evolves_err. Qed.

Lemma wp_get_err v Q (s : rds tx) : err s = v -> Q v s -> wp get_err Q s.
Proof. intros <- HQ. exists (err s), s. done. Qed.

Lemma wp_get_start v Q (s : rds tx) : start s = v -> Q v s -> wp get_start Q s.
Proof. intros <- HQ. exists (start s), s. done. Qed.

Lemma wp_get_high Q (s : rds tx) : Q (high s) s -> wp get_high Q s.
Proof. intros HQ. exists (high s), s. done. Qed.

End Rules.

Section Lists.
Context {tx : Type} `{!RVM tx, !RVMLaws tx}.
Context (g : geometry) (Hg : geo_ok g) (dirty : Z).
Abbreviation b := (g_base g).
Abbreviation c := (g_chunk g).
Abbreviation nl := (g_nl g).
Abbreviation lo := (g_lo g).

(** The state holds a heap in an open transaction. *)
Record held (A T : list tile) (L : Z -> list Z) (max : Z) (s : rds tx) : Prop := {
  h_rep : heap_rep g dirty (mem s) T L max;
  h_allocs : allocs T = A;
  h_start : start s = b;
  h_live : tid_live s = true;
  h_high : top g - c < high s <= top g
}.

Definition lidx (max n : Z) : Z := if max <=? n then max else n.

Lemma held_step A T L max T' L' max' (keep : Z -> Prop) s s' :
  held A T L max s -> evolves keep s s' -> heap_rep g dirty (mem s') T' L' max' -> allocs T' = A -> held A T' L' max' s'.
Proof.
  intros H E R HA. split; [done|done| | |].
  - rewrite (ev_start _ _ _ E). apply (h_start _ _ _ _ _ H).
  - rewrite (ev_live _ _ _ E). apply (h_live _ _ _ _ _ H).
  - rewrite (ev_high _ _ _ E). apply (h_high _ _ _ _ _ H).
Qed.

Lemma held_same A T L max (keep : Z -> Prop) s s' :
  held A T L max s -> evolves keep s s' -> mem s' = mem s -> held A T L max s'.
Proof. intros H E Em. eapply held_step; [done|done| |apply (h_allocs _ _ _ _ _ H)]. rewrite Em. apply (h_rep _ _ _ _ _ H). Qed.

Lemma wp_hdr off v Q (s : rds tx) : start s = b -> mem s !! (b + off) = Some v -> Q v s -> wp (hdr off) Q s.
Proof. intros Hs E HQ. unfold hdr. apply wp_bind, (wp_get_start b); [done|]. by apply (wp_ld _ v). Qed.

Lemma wp_free_list i Q (s : rds tx) : start s = b -> Q (list_cell g i) s -> wp (RDS_FREE_LIST i) Q s.
Proof. intros Hs HQ. unfold RDS_FREE_LIST. apply wp_bind, (wp_get_start b); [done|]. by apply wp_ret. Qed.

Lemma wp_list_head i v Q (s : rds tx) :
  start s = b -> mem s !! (list_cell g i + off_head) = Some v -> Q v s -> wp (list_head i) Q s.
Proof. intros Hs E HQ. unfold list_head. apply wp_bind, wp_free_list; [done|]. by apply (wp_ld _ v). Qed.

Lemma wp_list_guard i v Q (s : rds tx) :
  start s = b -> mem s !! (list_cell g i + off_guard) = Some v -> Q v s -> wp (list_guard i) Q s.
Proof. intros Hs E HQ. unfold list_guard. apply wp_bind, wp_free_list; [done|]. by apply (wp_ld _ v). Qed.

Section Held.
Context (A T : list tile) (L : Z -> list Z) (max : Z) (s : rds tx) (H : held A T L max s).
Abbreviation keep := (in_allocs c A).

Lemma free_not_kept t x : t ∈ T -> st t <> Allocd -> at_ t <= x < end_ c t -> ~ keep x.
Proof using Hg H.
  intros Ht Hs Hx. rewrite <- (h_allocs _ _ _ _ _ H). eapply not_in_allocs; eauto using chunk_40.
  apply (r_chain (h_rep _ _ _ _ _ H)).
Qed.

Lemma low_not_kept x : x < lo -> ~ keep x.
Proof using Hg H.
  intros Hx. rewrite <- (h_allocs _ _ _ _ _ H). eapply low_not_in_allocs; [by apply chunk_40|apply (r_chain (h_rep _ _ _ _ _ H))|]. lia.
Qed.

Lemma on_not_kept q i x : q ∈ L i -> q <= x < q + 40 -> ~ keep x.
Proof using Hg H.
  intros Hq Hx. destruct (on_tile (h_rep _ _ _ _ _ H) q i Hq) as (t & Ht & <- & Hs).
  pose proof (tile_bounds Hg (h_rep _ _ _ _ _ H) t Ht) as (_ & Hb & _). pose proof (chunk_40 _ Hg).
  apply (free_not_kept t); [done|by rewrite Hs|lia].
Qed.


Abbreviation R := (h_rep _ _ _ _ _ H).

Lemma on_pos q i : q ∈ L i -> 0 < q.
Proof using Hg H. intros Hq. pose proof (on_low Hg R _ _ Hq). pose proof (lo_above _ Hg). lia. Qed.

Lemma first_zero i l1 l2 : L i = l1 ++ l2 -> first l2 = 0 <-> l2 = [].
Proof using Hg H.
  intros E. split; [|by intros ->]. destruct l2 as [|q l2]; [done|]. cbn. intros ->.
  assert (0 ∈ L i) as Hq%on_pos by (rewrite E; set_solver). lia.
Qed.

(** Links of blocks and heads of lists can be stored to once they are covered. *)
Lemma link_some q i : q ∈ L i -> is_Some (mem s !! (q + off_prev)) /\ is_Some (mem s !! (q + off_next)).
Proof using Hg H.
  intros Hq. destruct (on_tile R q i Hq) as (t & Ht & <- & _).
  pose proof (tile_bounds Hg R t Ht) as (_ & Hb & _). pose proof (chunk_40 _ Hg).
  split; [apply (tile_cell Hg R t 2)|apply (tile_cell Hg R t 3)]; done || lia.
Qed.

Lemma wp_store_prev q i v Q s1 :
  q ∈ L i -> evolves keep s s1 -> covered s1 (q + off_prev) ->
  (forall s', evolves keep s s' -> mem s' = <[q + off_prev := v]> (mem s1) -> err s' = err s1 -> (forall x, covered s1 x -> covered s' x) -> Q tt s') ->
  wp (sto (q + off_prev) v) Q s1.
Proof using Hg H.
  intros Hq E Hc HQ. apply (wp_store keep); [by apply (ev_dom _ _ _ E), (link_some q i)|done|by apply (on_not_kept q i); [|lia]|].
  intros s' E' Em Ee. apply HQ; [by etransitivity|done|done|apply (ev_cover _ _ _ E')].
Qed.

Lemma wp_store_next q i v Q s1 :
  q ∈ L i -> evolves keep s s1 -> covered s1 (q + off_next) ->
  (forall s', evolves keep s s' -> mem s' = <[q + off_next := v]> (mem s1) -> err s' = err s1 -> (forall x, covered s1 x -> covered s' x) -> Q tt s') ->
  wp (sto (q + off_next) v) Q s1.
Proof using Hg H.
  intros Hq E Hc HQ. apply (wp_store keep); [by apply (ev_dom _ _ _ E), (link_some q i)|done|by apply (on_not_kept q i); [|lia]|].
  intros s' E' Em Ee. apply HQ; [by etransitivity|done|done|apply (ev_cover _ _ _ E')].
Qed.

Lemma wp_store_head i v Q s1 :
  1 <= i <= nl -> evolves keep s s1 -> covered s1 (list_cell g i + off_head) ->
  (forall s', evolves keep s s' -> mem s' = <[list_cell g i + off_head := v]> (mem s1) -> err s' = err s1 -> (forall x, covered s1 x -> covered s' x) -> Q tt s') ->
  wp (sto (list_cell g i + off_head) v) Q s1.
Proof using Hg H.
  intros Hi E Hc HQ. pose proof (list_cell_low _ Hg i Hi) as [Hl _]. apply (wp_store keep).
  - apply (ev_dom _ _ _ E). rewrite (r_head R i Hi). eauto.
  - done.
  - apply low_not_kept. lia.
  - intros s' E' Em Ee. apply HQ; [by etransitivity|done|done|apply (ev_cover _ _ _ E')].
Qed.

Lemma wp_announce_from {B} a n (r : B) k Q s1 :
  evolves keep s s1 ->
  (forall s', evolves keep s s' -> 0 < err s' <= top_code -> Q r s') ->
  (forall s', evolves keep s s' -> mem s' = mem s1 -> err s' = err s1 -> (forall x, a <= x < a + n -> covered s' x) ->
     (forall x, covered s1 x -> covered s' x) -> wp k Q s') ->
  wp (announce a n r k) Q s1.
Proof using H RVMLaws0.
  intros E H1 H2. apply (wp_announce keep).
  - rewrite (ev_live _ _ _ E). apply (h_live _ _ _ _ _ H).
  - intros s' E' Em He. apply H1; [by etransitivity|done].
  - intros s' E' Em He Hc. apply H2; try done; [by etransitivity|apply (ev_cover _ _ _ E')].
Qed.

Lemma wp_finish {B} e (r : B) Q s1 :
  evolves keep s s1 -> (forall s', evolves keep s s' -> mem s' = mem s1 -> err s' = e -> Q r s') -> wp (set_err e ;;! ret r) Q s1.
Proof.
  intros E HQ. apply wp_bind, (wp_set_err keep). intros s' E' Em He. apply wp_ret. apply HQ; [by etransitivity|done|done].
Qed.

(** The list on which put_block keeps blocks of [n] chunks. *)
Lemma lidx_range p n s0 : Tile p n s0 ∈ T -> 1 <= lidx max n <= nl.
Proof using Hg H.
  intros Hp. pose proof (tile_bounds Hg R _ Hp) as (_ & _ & _ & Hn). cbn in Hn.
  pose proof (r_max_le R). unfold lidx. destruct (Z.leb_spec max n); lia.
Qed.

Lemma dequeue_spec i p l2 :
  1 <= i <= nl -> L i = p :: l2 ->
  wp (dequeue (list_cell g i)) (fun r s' => evolves keep s s' /\
    ((r = 0 /\ 0 < err s' <= top_code) \/ (r = p /\ err s' = 0 /\ mem s' = m_remove g (mem s) i [] l2))) s.
Proof using Hg H.
  intros Hi E. assert (p ∈ L i) as Hp by (rewrite E; set_solver).
  pose proof (r_linked R i Hi) as Hl. rewrite E in Hl. destruct Hl as (_ & Hnx & _).
  unfold dequeue. apply wp_bind, (wp_ld _ p); [by rewrite (r_head R i Hi), E|].
  apply wp_announce_from; [done|eauto|]. intros s1 E1 M1 _ C1 _.
  apply wp_bind, (wp_ld _ (first l2)); [by rewrite M1|].
  apply wp_bind, wp_store_head; [done|done|apply C1; unfold list_cell; lia|]. intros s2 E2 M2 _ _.
  destruct (Z.eqb_spec (first l2) 0) as [Hz|Hz].
  - apply (first_zero i [p]) in Hz; [|done]. apply wp_finish; [done|]. intros s3 E3 M3 ->. split; [done|]. right.
    split; [done|]. split; [done|]. rewrite M3, M2, M1. subst l2. done.
  - assert (l2 <> []) as Hl2 by (by intros ->). assert (first l2 ∈ L i) as Hf.
    { rewrite E. apply list_elem_of_further. by apply first_in. }
    apply wp_announce_from; [done|eauto|]. intros s3 E3 M3 _ C3 _.
    apply wp_bind, (wp_store_prev _ i); [done|done|apply C3; lia|]. intros s4 E4 M4 _ _.
    apply wp_finish; [done|]. intros s5 E5 M5 ->. split; [done|]. right. split; [done|]. split; [done|].
    rewrite M5, M4, M3, M2, M1. unfold m_remove. rewrite (decide_False (P := l2 = [])) by done. by rewrite decide_True.
Qed.

Lemma rm_from_list_spec i l1 p l2 :
  1 <= i <= nl -> L i = l1 ++ p :: l2 -> err s = 0 ->
  wp (rm_from_list (list_cell g i) p) (fun _ s' => evolves keep s s' /\
    (0 < err s' <= top_code \/ (err s' = 0 /\ mem s' = m_remove g (mem s) i l1 l2 /\ held A (setst p Loose T) (upd L i (l1 ++ l2)) max s'))) s.
Proof using Hg H.
  intros Hi E He.
  assert (forall s' : rds tx, evolves keep s s' -> mem s' = m_remove g (mem s) i l1 l2 -> held A (setst p Loose T) (upd L i (l1 ++ l2)) max s') as Hheld.
  { intros s' E' M'. eapply held_step; [exact H|exact E'| |].
    - rewrite M'. by apply rep_remove; [|apply R| |].
    - rewrite allocs_setst; [apply (h_allocs _ _ _ _ _ H)|done|]. intros t Ht Ep.
      assert (p ∈ L i) as (u & Hu & Eu & Hs)%(on_tile R) by (rewrite E; set_solver).
      assert (t = u) as -> by (eapply (tile_inj Hg R); congruence). by rewrite Hs. }
  pose proof (r_linked R i Hi) as Hl. rewrite E in Hl. apply linked_at in Hl as (Hpv & Hnx & _).
  assert (p ∈ L i) as Hp by (rewrite E; set_solver).
  unfold rm_from_list. apply wp_bind, (wp_ld _ _ _ _ (r_head R i Hi)). destruct (Z.eqb_spec p (first (L i))) as [Hf|Hf].
  - assert (l1 = []) as ->.
    { destruct l1 as [|q l1]; [done|]. rewrite E in Hf. cbn in Hf. subst q. pose proof (r_nodup R i) as Hnd.
      rewrite E in Hnd. apply NoDup_cons in Hnd as [Hnd _]. set_solver. }
    apply wp_bind. eapply wp_mono; [by apply (dequeue_spec i p l2)|]. intros r s1 [E1 [[-> He1]|(-> & He1 & M1)]]; cbn [Z.eqb].
    + apply wp_ret. auto.
    + pose proof (on_pos _ _ Hp). destruct (Z.eqb_spec p 0); [lia|]. apply wp_finish; [done|]. intros s2 E2 M2 He2.
      assert (mem s2 = m_remove g (mem s) i [] l2) by congruence. split; [done|]. right. auto.
  - assert (l1 <> []) as Hl1 by (intros ->; apply Hf; by rewrite E).
    assert (final 0 l1 ∈ L i) as Hfin by (rewrite E; apply elem_of_app; left; by apply final_in).
    apply wp_bind, (wp_ld _ _ _ _ Hpv). apply wp_announce_from; [done|auto|]. intros s1 E1 M1 _ C1 _.
    apply wp_bind, (wp_ld _ (first l2)); [by rewrite M1|].
    apply wp_bind, (wp_store_next _ i); [done|done|apply C1; lia|]. intros s2 E2 M2 _ _.
    destruct (Z.eqb_spec (first l2) 0) as [Hz|Hz].
    + apply (first_zero i (l1 ++ [p])) in Hz; [|by rewrite <- app_assoc]. apply wp_finish; [done|]. intros s3 E3 M3 He3.
      assert (mem s3 = m_remove g (mem s) i l1 l2) as M4.
      { rewrite M3, M2, M1. unfold m_remove. rewrite (decide_True (P := l2 = [])) by done. by rewrite decide_False. }
      split; [done|]. right. auto.
    + assert (l2 <> []) as Hl2 by (by intros ->).
      assert (first l2 ∈ L i) as Hf2 by (rewrite E; apply elem_of_app; right; by apply list_elem_of_further, first_in).
      apply wp_announce_from; [done|auto|]. intros s3 E3 M3 _ C3 _.
      apply wp_bind, (wp_ld _ (final 0 l1)).
      { rewrite M3, M2, M1, lookup_insert_ne; [done|].
        destruct (decide (p = final 0 l1)) as [<-|Hne]; [lia|]. destruct (on_sep Hg R _ _ _ _ Hp Hfin Hne); lia. }
      apply wp_bind, (wp_store_prev _ i); [done|done|apply C3; lia|]. intros s4 E4 M4 _ _.
      apply wp_finish; [done|]. intros s5 E5 M5 He5.
      assert (mem s5 = m_remove g (mem s) i l1 l2) as M6.
      { rewrite M5, M4, M3, M2, M1. unfold m_remove. rewrite (decide_False (P := l2 = [])) by done. by rewrite decide_False. }
      split; [done|]. right. auto.
Qed.

Lemma put_block_spec p n :
  Tile p n Loose ∈ T -> p <> dirty -> err s = 0 ->
  wp (put_block p) (fun _ s' => evolves keep s s' /\ (0 < err s' <= top_code \/
    (err s' = 0 /\ held A (setst p (On (lidx max n)) T) (upd L (lidx max n) (p :: L (lidx max n))) max s'))) s.
Proof using Hg H.
  intros Hp Hd He. pose proof (lidx_range p n _ Hp) as Hi. set (i := lidx max n) in *.
  pose proof (tile_bounds Hg R _ Hp) as (Hlo & Hb & _). cbn [at_] in Hlo, Hb. pose proof (chunk_40 _ Hg).
  assert (forall x, p <= x < p + 40 -> ~ keep x) as Hk.
  { intros x Hx. apply (free_not_kept (Tile p n Loose)); [done|done|]. cbn [at_]. lia. }
  assert (is_Some (mem s !! (p + off_prev)) /\ is_Some (mem s !! (p + off_next))) as [Hpv Hnx].
  { split; [apply (tile_cell Hg R _ 2 Hp)|apply (tile_cell Hg R _ 3 Hp)]; cbn [at_]; lia. }
  assert (forall s' : rds tx, evolves keep s s' -> err s' = 0 -> mem s' = m_push g (mem s) i (L i) p -> evolves keep s s' /\ (0 < err s' <= top_code \/
    (err s' = 0 /\ held A (setst p (On i) T) (upd L i (p :: L i)) max s'))) as Hend.
  { intros s' E' He' M'. split; [done|]. right. split; [done|]. eapply held_step; [exact H|exact E'| |].
    - rewrite M'. by eapply rep_push; [|apply R| |].
    - rewrite allocs_setst; [apply (h_allocs _ _ _ _ _ H)|done|]. intros t Ht Ep.
      assert (t = Tile p n Loose) as -> by (eapply (tile_inj Hg R); done). done. }
  unfold put_block. apply wp_bind, (wp_ld _ _ _ _ (tm_size (r_tiles R _ Hp) Hd)). cbn [sz].
  apply wp_bind, (wp_hdr _ max); [apply (h_start _ _ _ _ _ H)|apply (r_max R)|].
  change (if max <=? n then max else n) with i. rewrite swrap_small by (destruct Hg; lia).
  apply wp_bind, wp_free_list; [apply (h_start _ _ _ _ _ H)|].
  apply wp_bind, (wp_ld _ _ _ _ (r_guard R i Hi)). cbn [negb Z.eqb]. rewrite Z.eqb_refl. cbn [negb].
  apply wp_announce_from; [done|auto|]. intros s1 E1 M1 He1 C1 _.
  apply wp_bind, (wp_ld _ (first (L i))); [rewrite M1; by apply (r_head R)|].
  apply wp_bind, (wp_store keep); [by rewrite M1|apply C1; lia|apply Hk; lia|]. intros s2 E2 M2 He2.
  apply wp_bind, (wp_store keep); [rewrite M2, M1, lookup_insert_ne by lia; done|apply (ev_cover _ _ _ E2), C1; lia|apply Hk; lia|]. intros s3 E3 M3 He3.
  assert (evolves keep s s3) as E03 by evo. rewrite M2, M1 in M3.
  pose proof (first_zero i [] (L i) eq_refl) as Hz. destruct (Z.eqb_spec (first (L i)) 0) as [Hf|Hf].
  - apply wp_announce_from; [done|auto|]. intros s4 E4 M4 He4 C4 _.
    apply wp_bind, wp_store_head; [done|done|apply C4; unfold list_cell; lia|]. intros s5 E5 M5 He5 _.
    apply wp_finish; [done|]. intros s6 E6 M6 He6. apply Hend; [done|done|].
    rewrite M6, M5, M4, M3. unfold m_push. by rewrite decide_True by tauto.
  - assert (L i <> []) as Hne by tauto. pose proof (first_in _ Hne) as Hin.
    apply wp_announce_from; [done|auto|]. intros s4 E4 M4 He4 C4 _.
    apply wp_bind, (wp_store_prev _ i); [done|done|apply C4; lia|]. intros s5 E5 M5 He5 _.
    apply wp_announce_from; [done|auto|]. intros s6 E6 M6 He6 C6 _.
    apply wp_bind, wp_store_head; [done|done|apply C6; unfold list_cell; lia|]. intros s7 E7 M7 He7 _.
    apply wp_finish; [done|]. intros s8 E8 M8 He8. apply Hend; [done|done|].
    rewrite M8, M7, M6, M5, M4, M3. unfold m_push. by rewrite decide_False by tauto.
Qed.

End Held.
End Lists.

Arguments h_rep {_ _ _ _ _ _ _ _}.
Arguments h_allocs {_ _ _ _ _ _ _ _}.
Arguments h_start {_ _ _ _ _ _ _ _}.
Arguments h_live {_ _ _ _ _ _ _ _}.
Arguments h_high {_ _ _ _ _ _ _ _}.

End RdsLists.
