(* ===== verification/RdsMerge.v ===== *)
(** * The recoverable heap: merging

    merge_with_next_free joins a free block with all free blocks that follow it. *)
From Stdlib Require Import ZArith Lia.
From stdpp Require Import base list numbers gmap.
From S2P Require Import Prelude.
From S2P Require Import RdsMem.
From S2P Require Import Rds.
From S2P Require Import RdsHeap.
From S2P Require Import RdsLists.
Import RdsMem Rds RdsHeap RdsLists.
Open Scope Z_scope.

Module RdsMerge.

(** The sizes of tiles together. *)
Definition sizes (F : list tile) : Z := foldr (fun t z => sz t + z) 0 F.

Lemma sizes_app F G : sizes (F ++ G) = sizes F + sizes G.
Proof. induction F as [|t F IH]; cbn; [done|]. fold (sizes (F ++ G)) (sizes F). rewrite IH. lia. Qed.

Lemma sizes_nonneg F : (forall t, t ∈ F -> 0 < sz t) -> 0 <= sizes F.
Proof.
  induction F as [|t F IH]; intros HF; cbn; [lia|]. fold (sizes F). pose proof (HF t (list_elem_of_here _ _)).
  specialize (IH (fun u Hu => HF u (list_elem_of_further _ _ _ Hu))). lia.
Qed.

(** A list without the blocks of [F]. *)
Definition without (F : list tile) (l : list Z) : list Z := filter (fun p => p ∉ (at_ <$> F)) l.

Lemma without_nil l : without [] l = l.
Proof. induction l as [|p l IH]; [done|]. unfold without in *. rewrite filter_cons_True by set_solver. by rewrite IH. Qed.

Lemma without_app F G l : without (F ++ G) l = without G (without F l).
Proof.
  unfold without. rewrite list_filter_filter. apply list_filter_iff. intros p. rewrite fmap_app. set_solver.
Qed.

Section Merge.
Context {tx : Type} `{!RVM tx, !RVMLaws tx}.
Context (g : geometry) (Hg : geo_ok g).
Implicit Types s : rds tx.
Abbreviation b := (g_base g).
Abbreviation c := (g_chunk g).
Abbreviation nl := (g_nl g).
Abbreviation lo := (g_lo g).

Lemma extent_small n : 0 <= n -> lo + n * c <= top g -> u64 (n * c) = n * c /\ u64 n = n.
Proof using Hg.
  intros Hn Hx. destruct Hg. unfold top in Hx.
  split; apply uwrap_small; split; try nia.
Qed.

Lemma wp_next dirty A T L max s p n w Q :
  held g dirty A T L max s -> Tile p n w ∈ T -> p <> dirty -> Q (p + n * c) s -> wp (NEXT_CONSECUTIVE_BLOCK p) Q s.
Proof using Hg.
  intros H Ht Hd HQ. pose proof (h_rep H) as R. pose proof (tile_bounds Hg R _ Ht) as (Hlo & Hb & Hb' & Hn). unfold end_ in *. cbn [at_ sz] in *.
  unfold NEXT_CONSECUTIVE_BLOCK. apply wp_bind, (wp_ld _ n); [apply (tm_size (r_tiles R _ Ht) Hd)|].
  apply wp_bind, (wp_hdr g _ c); [apply (h_start H)|apply (r_chunk R)|]. apply wp_ret.
  by rewrite (proj1 (extent_small n ltac:(lia) ltac:(lia))).
Qed.

Lemma wp_block_end dirty A T L max s p n w Q :
  held g dirty A T L max s -> Tile p n w ∈ T -> p <> dirty -> Q (p + n * c - 8) s -> wp (BLOCK_END p) Q s.
Proof using Hg. intros H Ht Hd HQ. unfold BLOCK_END. eapply wp_bind, wp_next; eauto. by apply wp_ret. Qed.

(** Counters may change at any time once they are covered. *)
Definition stats_covered (s : rds tx) : Prop := forall x, b + off_stats <= x < b + off_stats + sizeof_stats -> covered s x.

Lemma stat_index_range k : 0 <= stat_index k < 13.
Proof. destruct k; cbn; lia. Qed.

Lemma wp_add_stat dirty A T L max s k v Q :
  held g dirty A T L max s -> stats_covered s ->
  (forall s', evolves (in_allocs c A) s s' -> held g dirty A T L max s' -> err s' = err s -> Q tt s') ->
  wp (add_stat k v) Q s.
Proof using Hg.
  intros H Hcov HQ. pose proof (h_rep H) as R. pose proof (stat_index_range k) as Hk. pose proof (lo_above _ Hg).
  destruct (r_stats R _ Hk) as [w Hw].
  unfold add_stat. apply wp_bind, (wp_get_start b); [apply (h_start H)|]. apply wp_bind, (wp_ld _ w); [done|].
  apply (wp_store (in_allocs c A)); [by exists w|apply Hcov; lia|eapply low_not_kept; [done|done|lia]|].
  intros s' E M He. apply HQ; [done| |done]. eapply held_step; [done|done| |apply (h_allocs H)].
  rewrite M. eapply (rep_header g dirty); [done|done|apply (r_max_le R)| | |].
  - intros x Hx. apply lookup_insert_is_Some'. by right.
  - intros x Hx. apply lookup_insert_ne. lia.
  - rewrite lookup_insert_ne by lia. apply (r_max R).
Qed.

Lemma stats_covered_step keep s s' : evolves keep s s' -> stats_covered s -> stats_covered s'.
Proof. intros E Hs x Hx. apply (ev_cover _ _ _ E). auto. Qed.

Section Step.
Context (A T1 : list tile) (p n : Z) (w : tstate) (Hw : w <> Allocd).
Abbreviation keep := (in_allocs c A).

(** The next tile decides whether the loop goes on. *)
Lemma wp_next_is_free L max s T2 Q :
  held g 0 A (T1 ++ Tile p n w :: T2) L max s ->
  Q (match T2 with [] => false | t :: _ => negb (is_allocd (st t)) end) s -> wp (next_is_free (p + n * c)) Q s.
Proof using Hg Hw.
  intros H HQ. pose proof (h_rep H) as R. pose proof (r_chain R) as Hch. apply chained_app in Hch as (x & H1 & Hx). cbn in Hx.
  destruct Hx as (Ep & Hn & H2). unfold end_ in H2. cbn [at_ sz] in H2. pose proof (h_high H) as Hh.
  unfold next_is_free. destruct T2 as [|t T2].
  - cbn in H2. destruct (chained_aligned c (chunk_40 _ Hg) _ _ _ (Tile p n w) (geo_word g Hg) (r_chain R) ltac:(set_solver)) as (j & Hj & Ej).
    cbn in Ej. destruct (geo_word g Hg) as [k Hk]. pose proof (chunk_40 _ Hg).
    destruct (r_cells R (j + n * k)) as [v Hv]; [nia|lia|].
    replace (lo + 8 * (j + n * k)) with (p + n * c + off_type) in Hv by lia.
    apply wp_bind, (wp_ld _ v); [done|]. apply wp_bind, wp_get_high, wp_ret.
    destruct (Z.ltb_spec (p + n * c) (high s)); [lia|]. by rewrite andb_false_r.
  - cbn in H2. destruct H2 as (Et & Ht & H3). pose proof (chained_le _ (chunk_40 _ Hg) _ _ _ H3) as Hle. unfold end_ in Hle.
    pose proof (chunk_40 _ Hg). assert (c <= sz t * c) by nia.
    rewrite <- Et. apply wp_bind, (wp_ld _ (guard_of (st t))); [apply (tm_type (r_tiles R t ltac:(set_solver)))|].
    apply wp_bind, wp_get_high, wp_ret. destruct (Z.ltb_spec (at_ t) (high s)); [|lia].
    rewrite andb_true_r. by destruct (st t).
Qed.

Definition zeroed (m : memory) (q : Z) : memory :=
  <[q + off_next := 0]> (<[q + off_prev := 0]> (<[q + off_size := 0]> (<[q + off_type := 0]> (<[q - 8 := 0]> m)))).

(** The guards between two blocks are gone: one tile. *)
Lemma rep_join m L max q k T2 :
  heap_rep g p m (T1 ++ Tile p n w :: Tile q k Loose :: T2) L max -> m !! (p + off_size) = Some (n + k) ->
  heap_rep g 0 (zeroed m q) (T1 ++ Tile p (n + k) w :: T2) L max.
Proof using Hg Hw.
  intros R Hsz. pose proof (r_chain R) as Hch. apply chained_app in Hch as (x & H1 & (Ep & Hn & Eq & Hk & H2)).
  unfold end_ in *. cbn [at_ sz] in *. subst x q. pose proof (chunk_40 _ Hg). assert (c <= n * c /\ c <= k * c) by nia.
  destruct (r_tiles R (Tile p n w) ltac:(set_solver)) as [h1 _ _].
  destruct (r_tiles R (Tile (p + n * c) k Loose) ltac:(set_solver)) as [_ _ h3]. unfold end_ in h3. cbn [at_ sz st] in *.
  apply (rep_retile g p m _ T1 [Tile p n w; Tile (p + n * c) k Loose] [Tile p (n + k) w] T2 L max p (p + n * c + k * c));
    [done|done| | |done| | | | | |].
  - right. exists (Tile p n w). set_solver.
  - cbn. unfold end_. cbn. lia.
  - cbn. unfold end_. cbn. lia.
  - intros t Ht. assert (t = Tile p (n + k) w) as -> by set_solver. unfold zeroed. split; unfold end_; cbn [at_ sz st].
    + rewrite !lookup_insert_ne by lia. done.
    + intros _. rewrite !lookup_insert_ne by lia. done.
    + rewrite !lookup_insert_ne by lia. rewrite <- h3. f_equal. lia.
  - intros x Hx. unfold zeroed. rewrite !lookup_insert_is_Some'. tauto.
  - intros x Hx. unfold zeroed. rewrite !lookup_insert_ne by lia. done.
  - intros i r. split; intros [y Hy].
    + assert (Tile r y (On i) = Tile p n w) as [= -> -> <-] by set_solver. exists (n + k). set_solver.
    + assert (Tile r y (On i) = Tile p (n + k) w) as [= -> -> <-] by set_solver. exists n. set_solver.
  - intros i r y Hy. assert (Tile r y (On i) = Tile p n w) as [= -> -> <-] by set_solver.
    unfold zeroed. rewrite !lookup_insert_ne by lia. done.
Qed.

Lemma merge_zero_spec L max s q k T2 :
  held g p A (T1 ++ Tile p n w :: Tile q k Loose :: T2) L max s -> mem s !! (p + off_size) = Some (n + k) -> err s = 0 ->
  wp (announce (q - 8) (8 + sizeof_free_block) (inr 0 : (Z * Z) + Z) (
      sto (q - 8) 0 ;;!
      sto (q + off_type) 0 ;;! sto (q + off_size) 0 ;;!
      sto (q + off_prev) 0 ;;! sto (q + off_next) 0 ;;!
      let! nfbp := NEXT_CONSECUTIVE_BLOCK p in
      ret (inl (nfbp, 1)))) (fun r s' => evolves keep s s' /\ (
    (exists z, r = inr z /\ 0 < err s' <= top_code) \/
    (r = inl (p + (n + k) * c, 1) /\ err s' = 0 /\ held g 0 A (T1 ++ Tile p (n + k) w :: T2) L max s'))) s.
Proof using Hg Hw.
  intros H Hsz He. pose proof (h_rep H) as R. pose proof (r_chain R) as Hch.
  apply chained_app in Hch as (x & H1 & (Ep & Hn & Eq & Hk & H2)). unfold end_ in *. cbn [at_ sz] in *. subst x.
  pose proof (chunk_40 _ Hg). assert (c <= n * c /\ c <= k * c) as [Hnc Hkc] by nia.
  set (t1 := Tile p n w). set (t2 := Tile q k Loose).
  assert (t1 ∈ T1 ++ t1 :: t2 :: T2) as Ht1 by set_solver. assert (t2 ∈ T1 ++ t1 :: t2 :: T2) as Ht2 by set_solver.
  assert (forall x, q - 8 <= x < q + 32 -> ~ keep x) as Hkp.
  { intros x Hx. destruct (Z.lt_ge_cases x q); [apply (free_not_kept g Hg p _ _ _ _ _ H t1)|apply (free_not_kept g Hg p _ _ _ _ _ H t2)]; try done; unfold end_; cbn; lia. }
  assert (is_Some (mem s !! (q - 8))) as Hm8 by (rewrite Eq; eexists; apply (tm_end (r_tiles R t1 Ht1))).
  assert (forall j, 0 <= j < 4 -> is_Some (mem s !! (q + 8 * j))) as Hmj.
  { intros j Hj. apply (tile_cell Hg R t2 j Ht2); unfold end_; cbn; lia. }
  apply (wp_announce keep); [apply (h_live H)|eauto 6|]. intros s1 E1 M1 He1 C1.
  apply wp_bind, (wp_store keep); [by rewrite M1|apply C1; lia|apply Hkp; lia|]. intros s2 E2 M2 He2.
  apply wp_bind, (wp_store keep); [rewrite <- (ev_dom keep s s2) by evo; apply (Hmj 0); lia|apply (ev_cover keep s1 s2 ltac:(evo)), C1; lia|apply Hkp; lia|]. intros s3 E3 M3 He3.
  apply wp_bind, (wp_store keep); [rewrite <- (ev_dom keep s s3) by evo; apply (Hmj 1); lia|apply (ev_cover keep s1 s3 ltac:(evo)), C1; lia|apply Hkp; lia|]. intros s4 E4 M4 He4.
  apply wp_bind, (wp_store keep); [rewrite <- (ev_dom keep s s4) by evo; apply (Hmj 2); lia|apply (ev_cover keep s1 s4 ltac:(evo)), C1; lia|apply Hkp; lia|]. intros s5 E5 M5 He5.
  apply wp_bind, (wp_store keep); [rewrite <- (ev_dom keep s s5) by evo; apply (Hmj 3); lia|apply (ev_cover keep s1 s5 ltac:(evo)), C1; lia|apply Hkp; lia|]. intros s6 E6 M6 He6.
  assert (mem s6 = zeroed (mem s) q) as M7 by (unfold zeroed; congruence).
  assert (evolves keep s s6) as E06 by evo.
  assert (held g 0 A (T1 ++ Tile p (n + k) w :: T2) L max s6) as H6.
  { split; [rewrite M7; by apply rep_join| | | |].
    - rewrite <- (h_allocs H), !allocs_app, !allocs_free; done.
    - rewrite (ev_start _ _ _ E06). apply (h_start H).
    - rewrite (ev_live _ _ _ E06). apply (h_live H).
    - rewrite (ev_high _ _ _ E06). apply (h_high H). }
  apply wp_bind. eapply wp_next; [exact H6|apply in_mid| |].
  { pose proof (tile_bounds Hg R _ Ht1) as (Hlo & _). pose proof (lo_above _ Hg). cbn in Hlo. lia. }
  apply wp_ret. split; [done|]. right. split; [done|]. split; [congruence|done].
Qed.

Lemma without_one q k L i l1 l2 (H : forall j, q ∈ L j -> j = i) :
  L i = l1 ++ q :: l2 -> NoDup (L i) -> forall j, upd L i (l1 ++ l2) j = without [Tile q k Loose] (L j).
Proof.
  intros E Hnd j. unfold without. cbn [fmap list_fmap at_].
  assert (forall l : list Z, q ∉ l -> filter (fun p => p ∉ [q]) l = l) as Hf.
  { intros l Hl. induction l as [|r l IH]; [done|]. rewrite filter_cons_True by set_solver. rewrite IH; [done|set_solver]. }
  destruct (decide (j = i)) as [->|Hne].
  - rewrite upd_same, E. rewrite E in Hnd. apply NoDup_app in Hnd as (_ & Hd & [Hq _]%NoDup_cons).
    rewrite filter_app, filter_cons_False by set_solver. rewrite !Hf; [done|done|]. intros Hin. by apply (Hd q Hin), list_elem_of_here.
  - rewrite upd_other by done. rewrite Hf; [done|]. intros Hin. by apply Hne, H.
Qed.

Lemma merge_step_spec L max s q k T2 mg :
  held g 0 A (T1 ++ Tile p n w :: Tile q k (On (lidx max k)) :: T2) L max s ->
  stats_covered s -> (forall x, p <= x < p + sizeof_free_block -> covered s x) -> err s = 0 ->
  wp (merge_step p (p + n * c) mg) (fun r s' => evolves keep s s' /\ (
    (exists z, r = inr z /\ 0 < err s' <= top_code) \/
    (r = inl (p + (n + k) * c, 1) /\ err s' = 0 /\ exists L', (forall j, L' j = without [Tile q k Loose] (L j)) /\
       held g 0 A (T1 ++ Tile p (n + k) w :: T2) L' max s'))) s.
Proof using Hg Hw.
  intros H Hst Hcp He. set (i := lidx max k) in *. set (T := T1 ++ Tile p n w :: Tile q k (On i) :: T2) in *.
  pose proof (h_rep H) as R. pose proof (r_chain R) as Hch. pose proof Hch as Hch'.
  apply chained_app in Hch' as (x & H1 & (Ep & Hn & Eq & Hk & H2)). unfold end_ in *. cbn [at_ sz] in *. subst x.
  pose proof (chunk_40 _ Hg). pose proof (lo_above _ Hg). assert (c <= n * c /\ c <= k * c) as [Hnc Hkc] by nia.
  assert (Tile p n w ∈ T) as Ht1 by apply in_mid. assert (T = (T1 ++ [Tile p n w]) ++ Tile q k (On i) :: T2) as ET' by (unfold T; by rewrite <- app_assoc).
  assert (Tile q k (On i) ∈ T) as Ht2 by (rewrite ET'; apply in_mid).
  pose proof (tile_bounds Hg R _ Ht1) as (Hlo & _). pose proof (tile_bounds Hg R _ Ht2) as (_ & _ & Htop & _). unfold end_ in Htop. cbn [at_ sz] in Hlo, Htop.
  unfold merge_step. apply wp_bind. eapply wp_next_is_free; [done|]. cbn [st is_allocd negb].
  eapply wp_bind, wp_block_end; [done|done|lia|]. rewrite <- Eq.
  eapply wp_bind, wp_add_stat; [done|done|]. intros s1 E1 Hs1 He1. pose proof (h_rep Hs1) as R1.
  apply wp_bind, (wp_ld _ n); [apply (tm_size (r_tiles R1 _ Ht1)); cbn; lia|].
  apply wp_bind, (wp_ld _ k); [apply (tm_size (r_tiles R1 _ Ht2)); cbn; lia|].
  assert (u64 (n + k) = n + k) as -> by (apply extent_small; nia).
  apply wp_bind, (wp_store keep); [eexists; apply (tm_size (r_tiles R1 _ Ht1)); cbn; lia|apply (ev_cover _ _ _ E1), Hcp; lia| |].
  { eapply (free_not_kept g Hg 0); [exact Hs1|exact Ht1|done|]. unfold end_. cbn. lia. }
  intros s2 E2 M2 He2.
  assert (held g p A T L max s2) as Hs2.
  { split.
    - rewrite M2. by apply (rep_dirty g _ _ _ _ (Tile p n w) (n + k) Hg R1).
    - apply (h_allocs H).
    - rewrite (ev_start _ _ _ E2). apply (h_start Hs1).
    - rewrite (ev_live _ _ _ E2). apply (h_live Hs1).
    - rewrite (ev_high _ _ _ E2). apply (h_high Hs1). }
  pose proof (h_rep Hs2) as R2.
  apply wp_bind, (wp_ld _ k); [apply (tm_size (r_tiles R2 _ Ht2)); cbn; lia|].
  apply wp_bind, (wp_hdr g _ max); [apply (h_start Hs2)|apply (r_max R2)|].
  change (if max <=? k then max else k) with i. pose proof (r_index R _ _ _ Ht2) as Hi.
  assert (s32 i = i) as -> by (apply swrap_small; destruct Hg; lia).
  assert (q ∈ L i) as Hq by (apply (r_on R); by exists k).
  apply wp_bind, (wp_list_head g _ (first (L i))); [apply (h_start Hs2)|by apply (r_head R2)|].
  apply wp_bind, wp_massert.
  { destruct (Z.eqb_spec (first (L i)) 0) as [Hz|]; [|done]. eapply (first_zero g Hg p _ _ _ _ _ Hs2 i []) in Hz; [|done]. rewrite Hz in Hq. set_solver. }
  apply wp_bind, (wp_free_list g); [apply (h_start Hs2)|].
  apply list_elem_of_split in Hq as (l1 & l2 & EL).
  apply wp_bind. eapply wp_mono; [apply (rm_from_list_spec g Hg p _ _ _ _ _ Hs2 i l1 q l2 Hi EL); congruence|].
  intros _ s3 [E3 [He3|(He3 & M3 & Hs3)]].
  - apply wp_bind, (wp_get_err (err s3)); [done|]. destruct (Z.eqb_spec (err s3) 0); [lia|]. cbn [negb]. apply wp_ret. split; [evo|]. left. eauto.
  - apply wp_bind, (wp_get_err 0); [done|]. cbn [negb Z.eqb].
    assert (setst q Loose T = T1 ++ Tile p n w :: Tile q k Loose :: T2) as ET.
    { rewrite ET' in Hch |- *. rewrite (setst_mid _ (chunk_40 _ Hg) _ _ _ _ _ _ _ _ Hch). by rewrite <- app_assoc. }
    rewrite ET in Hs3. eapply wp_mono; [eapply (merge_zero_spec _ _ s3); [exact Hs3| |done]|].
    + rewrite M3. rewrite (m_remove_same g p _ _ _ _ R2 i l1 q l2 Hi EL); [by rewrite M2, lookup_insert_eq|].
      eapply (tile_not_link g Hg p); [exact R2|exact Ht1|auto].
    + intros r s4 [E4 [(z & -> & He4)|(-> & He4 & Hs4)]]; split; try evo; [left; eauto|]. right. split; [done|]. split; [done|].
      eexists. split; [|exact Hs4]. apply without_one; [|done|apply (r_nodup R)]. intros j Hj. eapply (on_unique Hg R q); [done|].
      rewrite EL. apply in_mid.
Qed.

End Step.

Definition flag (F : list tile) : Z := match F with [] => 0 | _ => 1 end.

(** The tiles behind a run of free ones start with an allocated one, if there are any. *)
Definition stops (T : list tile) : Prop := match T with t :: _ => st t = Allocd | [] => True end.

Definition nonempty (F : list tile) : bool := match F with [] => false | _ => true end.

Lemma nonempty_spec F : nonempty F = true <-> F <> [].
Proof. by destruct F. Qed.

Lemma run_next F T2 : (forall t, t ∈ F -> st t <> Allocd) -> stops T2 ->
  match F ++ T2 with [] => false | t :: _ => negb (is_allocd (st t)) end = nonempty F.
Proof.
  intros HF HT2. destruct F as [|t F]; cbn [app nonempty].
  - destruct T2 as [|t T2]; [done|]. cbn in HT2. by rewrite HT2.
  - specialize (HF t (list_elem_of_here _ _)). by destruct (st t).
Qed.

Section Whole.
Context (A T1 : list tile) (p n : Z) (w : tstate) (Hw : w <> Allocd).
Context (L : Z -> list Z) (max : Z) (s : rds tx) (F T2 : list tile).
Context (H : held g 0 A (T1 ++ Tile p n w :: F ++ T2) L max s).
Context (HF : forall t, t ∈ F -> st t = On (lidx max (sz t))) (HT2 : stops T2) (Hst : stats_covered s).
Abbreviation keep := (in_allocs c A).

Definition merged_post (s' : rds tx) : Prop := exists L',
  (forall j, L' j = without F (L j)) /\ held g 0 A (T1 ++ Tile p (n + sizes F) w :: T2) L' max s'.

Lemma merge_loop_spec s1 :
  evolves keep s s1 -> mem s1 = mem s -> err s1 = 0 -> (F <> [] -> forall x, p <= x < p + sizeof_free_block -> covered s1 x) ->
  wp (loop_while (fun '(nfbp, merged) => merge_step p nfbp merged) (p + n * c, 0))
    (fun r s' => evolves keep s s' /\ (0 < err s' <= top_code \/ (err s' = 0 /\ r = flag F /\ merged_post s'))) s1.
Proof using Hg Hw H HF HT2 Hst.
  intros E1 M1 He1 Hcov.
  apply (wp_loop (fun k '(nf, mg) s' => exists F0 F1 L1, length F1 = k /\ F = F0 ++ F1 /\ nf = p + (n + sizes F0) * c /\ mg = flag F0 /\
    held g 0 A (T1 ++ Tile p (n + sizes F0) w :: F1 ++ T2) L1 max s' /\ (forall j, L1 j = without F0 (L j)) /\
    evolves keep s1 s' /\ err s' = 0) _ _ (length F)).
  - exists [], F, L. cbn. rewrite Z.add_0_r. do 4 (split; [done|]).
    split; [by eapply held_same|]. split; [intros; by rewrite without_nil|]. done.
  - rewrite M1. pose proof (tiles_count g 0 _ _ _ _ Hg (h_rep H)) as Hc. rewrite !length_app in Hc. cbn in Hc. rewrite length_app in Hc. lia.
  - intros k [nf mg] s2 (F0 & F1 & L1 & <- & EF & -> & -> & H2 & HL1 & E2 & He2). destruct F1 as [|t F1].
    + rewrite app_nil_r in EF. subst F0. eapply wp_mono with (Q := fun r s' => r = inr (flag F) /\ s' = s2).
      * unfold merge_step. apply wp_bind. eapply wp_next_is_free; [done|exact H2|].
        rewrite run_next; [by apply wp_ret|set_solver|done].
      * intros r s' [-> ->]. split; [evo|]. right. split; [done|]. split; [done|]. by exists L1.
    + assert (t ∈ F) as Ht by (rewrite EF; apply in_mid). destruct t as [q kk st'].
      pose proof (HF _ Ht) as Ew. cbn in Ew. subst st'. eapply wp_mono; [eapply merge_step_spec; [done|exact H2| | |done]|].
      * by eapply stats_covered_step, stats_covered_step.
      * intros x Hx. apply (ev_cover _ _ _ E2), Hcov; [intros EF0; rewrite EF in EF0; by destruct F0|done].
      * intros r s3 [E3 [(z & -> & He3)|(-> & He3 & L3 & HL3 & H3)]]; [split; [evo|auto]|].
        exists (length F1). split; [cbn; lia|]. exists (F0 ++ [Tile q kk (On (lidx max kk))]), F1, L3.
        rewrite sizes_app. cbn [sizes foldr sz]. rewrite Z.add_0_r, !Z.add_assoc. split; [done|].
        split; [by rewrite <- app_assoc|]. split; [done|]. split; [by destruct F0|]. split; [done|].
        split; [|split; [evo|done]]. intros j. rewrite HL3, HL1, without_app. done.
Qed.

Lemma merge_with_next_free_spec :
  err s = 0 -> wp (merge_with_next_free p) (fun r s' => evolves keep s s' /\ (0 < err s' <= top_code \/ (err s' = 0 /\ r = flag F /\ merged_post s'))) s.
Proof using Hg Hw H HF HT2 Hst.
  intros He. pose proof (h_rep H) as R. assert (Tile p n w ∈ T1 ++ Tile p n w :: F ++ T2) as Ht by apply in_mid.
  pose proof (tile_bounds Hg R _ Ht) as (Hlo & _). cbn in Hlo. pose proof (lo_above _ Hg).
  unfold merge_with_next_free. apply wp_bind, (wp_ld _ FREE_GUARD).
  { etransitivity; [apply (tm_type (r_tiles R _ Ht))|]. by destruct w. }
  apply wp_bind, wp_massert; [done|]. eapply wp_bind, wp_next; [done|exact Ht|lia|].
  apply wp_bind. eapply wp_next_is_free; [done|exact H|]. rewrite run_next; [|intros t Ht'; by rewrite (HF t Ht')|done].
  pose proof (nonempty_spec F) as Hne. destruct (nonempty F).
  - apply (wp_announce keep); [apply (h_live H)|auto|]. intros s1 E1 M1 He1 C1. apply merge_loop_spec; [done|done|congruence|auto].
  - apply merge_loop_spec; [done|done|done|]. intros HF0%Hne. done.
Qed.

End Whole.

End Merge.
End RdsMerge.
