(* ===== verification/RdsCoalesce.v ===== *)
(** * The recoverable heap: coalescing

    coalesce merges every run of adjacent free blocks into one block and puts the
    blocks on the lists of their sizes; afterwards no two free blocks are adjacent. *)
From Stdlib Require Import ZArith Lia.
From stdpp Require Import base list numbers gmap.
From S2P Require Import Prelude.
From S2P Require Import RdsMem.
From S2P Require Import Rds.
From S2P Require Import RdsHeap.
From S2P Require Import RdsLists.
From S2P Require Import RdsMerge.
Import RdsMem Rds RdsHeap RdsLists RdsMerge.
Open Scope Z_scope.

Module RdsCoalesce.

(** Every free block is on a list, and on the list of its size. *)
Definition complete (T : list tile) : Prop := forall t, t ∈ T -> st t <> Loose.
Definition classed (max : Z) (T : list tile) : Prop := forall p n i, Tile p n (On i) ∈ T -> i = lidx max n.

(** No free block follows the one at [p]. *)
Definition closed (T : list tile) (p : Z) : Prop := forall T1 n w T2, T = T1 ++ Tile p n w :: T2 -> stops T2.

(** A sequence of tiles starts with a run of free ones. *)
Lemma run_split T : exists F T2, T = F ++ T2 /\ (forall t, t ∈ F -> st t <> Allocd) /\ stops T2.
Proof.
  induction T as [|t T (F & T2 & -> & HF & HT2)]; [exists [], []; set_solver|].
  destruct (decide (st t = Allocd)) as [E|E].
  - exists [], (t :: F ++ T2). set_solver.
  - exists (t :: F), T2. set_solver.
Qed.

Lemma on_class max T t : complete T -> classed max T -> t ∈ T -> st t <> Allocd -> st t = On (lidx max (sz t)).
Proof. intros Hc Hcl Ht Hs. destruct t as [p n [| |i]]; [done|by apply Hc in Ht|]. cbn. by rewrite (Hcl p n i). Qed.

Lemma elem_of_split_tile (T : list tile) t : t ∈ T -> exists T1 T2, T = T1 ++ t :: T2.
Proof. apply list_elem_of_split. Qed.

Lemma complete_drop T1 (t : tile) T2 : complete (T1 ++ t :: T2) -> complete (T1 ++ T2).
Proof. intros H u Hu. apply H. set_solver. Qed.

Lemma classed_drop max T1 (t : tile) T2 : classed max (T1 ++ t :: T2) -> classed max (T1 ++ T2).
Proof. intros H p n i Hu. apply (H p). set_solver. Qed.

(** A merge leaves the other blocks' successors alone. *)
Lemma closed_merge c a e T1 p n w F T2 n' w' q :
  40 <= c -> chained c a (T1 ++ Tile p n w :: F ++ T2) e -> stops T2 -> w <> Allocd -> w' <> Allocd ->
  (q = p \/ (q ∉ (at_ <$> F) /\ closed (T1 ++ Tile p n w :: F ++ T2) q)) ->
  closed (T1 ++ Tile p n' w' :: T2) q.
Proof.
  intros Hc Hch HT2 Hw Hw' Hq U1 k v U2 E. pose proof (chained_nodup _ _ _ _ Hc Hch) as Hnd.
  rewrite fmap_app, fmap_cons, fmap_app in Hnd. cbn [at_] in Hnd. apply NoDup_app in Hnd as (_ & Hnd1 & [Hnd2 _]%NoDup_cons).
  apply app_eq_app in E as (X & [[-> E]|[-> E]]).
  - destruct X as [|x X]; cbn in E.
    + rewrite app_nil_r in *. by injection E as -> -> -> ->.
    + injection E as <- ->. destruct Hq as [->|[_ Hcl]].
      * exfalso. apply (Hnd1 p); [|apply list_elem_of_here]. rewrite fmap_app, fmap_cons. apply in_mid.
      * specialize (Hcl U1 k v (X ++ Tile p n w :: F ++ T2)). rewrite <- app_assoc in Hcl. specialize (Hcl eq_refl).
        by destruct X.
  - destruct X as [|x X]; cbn in E; [by injection E as -> -> -> ->|]. injection E as <- ->. destruct Hq as [->|[_ Hcl]].
    + exfalso. apply Hnd2. rewrite !fmap_app, fmap_cons. set_solver.
    + apply (Hcl (T1 ++ Tile p n w :: F ++ X) k v U2). rewrite <- app_assoc. cbn [app]. by rewrite <- app_assoc.
Qed.

Section Coalesce.
Context {tx : Type} `{!RVM tx, !RVMLaws tx}.
Context (g : geometry) (Hg : geo_ok g).
Abbreviation b := (g_base g).
Abbreviation c := (g_chunk g).
Abbreviation nl := (g_nl g).
Abbreviation lo := (g_lo g).
Context (A : list tile).
Abbreviation keep := (in_allocs c A).
Implicit Types s : rds tx.

Lemma u64_index i : 0 <= i < 2 ^ 31 -> u64 i = i.
Proof. intros. apply uwrap_small. lia. Qed.

Lemma s32_index i : 0 <= i < 2 ^ 31 -> s32 i = i.
Proof. intros. apply swrap_small; lia. Qed.

(** A block moves to the list of its size. *)
Lemma move_block_spec s T1 p n i T2 L max D rest :
  held g 0 A (T1 ++ Tile p n (On i) :: T2) L max s -> L i = D ++ p :: rest -> err s = 0 ->
  wp (move_block i p) (fun r s' => evolves keep s s' /\ ((r = inr true /\ 0 < err s' <= top_code) \/
    (r = inl (first rest) /\ err s' = 0 /\
     let k := lidx max n in let L' := upd L i (D ++ rest) in
     held g 0 A (T1 ++ Tile p n (On k) :: T2) (upd L' k (p :: L' k)) max s'))) s.
Proof using Hg.
  intros H EL He. pose proof (h_rep H) as R. assert (Tile p n (On i) ∈ T1 ++ Tile p n (On i) :: T2) as Ht by apply in_mid.
  pose proof (r_index R _ _ _ Ht) as Hi. pose proof (r_chain R) as Hch. pose proof (chunk_40 _ Hg) as Hc.
  pose proof (tile_bounds Hg R _ Ht) as (Hlo & _). cbn in Hlo. pose proof (lo_above _ Hg).
  unfold move_block. apply wp_bind, (wp_free_list g); [apply (h_start H)|]. apply wp_bind.
  eapply wp_mono; [by apply (rm_from_list_spec g Hg 0 _ _ _ _ _ H i D p rest Hi EL)|]. intros _ s1 [E1 [He1|(He1 & M1 & H1)]].
  - apply wp_bind, (wp_get_err (err s1)); [done|]. destruct (Z.eqb_spec (err s1) 0); [lia|]. apply wp_ret. auto.
  - apply wp_bind, (wp_get_err 0); [done|]. cbn [Z.eqb negb].
    rewrite (setst_mid _ Hc _ _ _ _ _ _ _ _ Hch) in H1. apply wp_bind, (wp_ld _ (first rest)).
    { rewrite M1, (remove_next g Hg 0 _ _ _ _ R i D p rest Hi EL p i).
      - pose proof (r_linked R i Hi) as Hl. rewrite EL in Hl. by apply linked_at in Hl as (_ & Hl & _).
      - rewrite EL. apply in_mid.
      - right. intros E. pose proof (r_nodup R i) as Hnd. rewrite EL in Hnd. apply NoDup_app in Hnd as (_ & Hnd & _).
        destruct D as [|d D]; [cbn in E; lia|]. apply (Hnd p); [|apply list_elem_of_here]. rewrite E. by apply final_in. }
    apply wp_bind. eapply wp_mono; [eapply (put_block_spec g Hg 0 _ _ _ _ _ H1 p n); [apply in_mid|lia|done]|].
    intros _ s2 [E2 [He2|(He2 & H2)]]; apply wp_bind.
    + apply (wp_get_err (err s2)); [done|]. destruct (Z.eqb_spec (err s2) 0); [lia|]. apply wp_ret. split; [evo|auto].
    + apply (wp_get_err 0); [done|]. apply wp_ret. split; [evo|]. right. split; [done|]. split; [done|].
      pose proof (r_chain (h_rep H1)) as Hch1. by rewrite (setst_mid _ Hc _ _ _ _ _ _ _ _ Hch1) in H2.
Qed.

(** The heap between the operations: every free block is on the list of its size. *)
Record heap_inv (max : Z) (T : list tile) (L : Z -> list Z) (s : rds tx) : Prop := {
  v_held : held g 0 A T L max s;
  v_complete : complete T;
  v_classed : classed max T;
  v_stats : stats_covered g s;
  v_err : err s = 0
}.
Arguments v_held {_ _ _ _}.
Arguments v_complete {_ _ _ _}.
Arguments v_classed {_ _ _ _}.
Arguments v_stats {_ _ _ _}.
Arguments v_err {_ _ _ _}.

(** The blocks of the lists above [i], and [D] of list [i], have been visited. *)
Definition swept (T : list tile) (L : Z -> list Z) (i : Z) (D : list Z) : Prop :=
  (forall p, p ∈ D -> closed T p) /\ forall j p, i < j -> p ∈ L j -> closed T p.

Lemma complete_merge T1 p n w F T2 n' i' :
  complete (T1 ++ Tile p n w :: F ++ T2) -> complete (T1 ++ Tile p n' (On i') :: T2).
Proof. intros H t Ht. rewrite elem_of_app, elem_of_cons in Ht. destruct Ht as [?|[->|?]]; [apply H|done|apply H]; set_solver. Qed.

Lemma classed_merge max T1 p n w F T2 n' i' :
  classed max (T1 ++ Tile p n w :: F ++ T2) -> i' = lidx max n' -> classed max (T1 ++ Tile p n' (On i') :: T2).
Proof.
  intros H E q k j Ht. rewrite elem_of_app, elem_of_cons in Ht.
  destruct Ht as [?|[[= -> -> ->]|?]]; [apply (H q)|done|apply (H q)]; set_solver.
Qed.

Lemma without_in F l q : q ∈ without F l <-> q ∈ l /\ q ∉ (at_ <$> F).
Proof. unfold without. rewrite list_elem_of_filter. tauto. Qed.

Lemma without_mid F D p rest : p ∉ (at_ <$> F) -> without F (D ++ p :: rest) = without F D ++ p :: without F rest.
Proof. intros Hp. unfold without. by rewrite filter_app, filter_cons_True. Qed.

Lemma heap_inv_step max T L s s' T' L' :
  heap_inv max T L s -> evolves keep s s' -> held g 0 A T' L' max s' -> complete T' -> classed max T' -> err s' = 0 ->
  heap_inv max T' L' s'.
Proof. intros H E H' Hc Hcl He. split; try done. eapply stats_covered_step; [done|apply (v_stats H)]. Qed.

(** The state after the merge of a round, before the block is moved. *)
Lemma merge_round max T L s i D p rest :
  heap_inv max T L s -> L i = D ++ p :: rest -> swept T L i D ->
  wp (merge_with_next_free p) (fun r s1 => evolves keep s s1 /\ (0 < err s1 <= top_code \/ err s1 = 0 /\ exists T1 n F T2 L1,
    T = T1 ++ Tile p n (On i) :: F ++ T2 /\ stops T2 /\ r = flag F /\
    held g 0 A (T1 ++ Tile p (n + sizes F) (On i) :: T2) L1 max s1 /\
    L1 i = without F D ++ p :: without F rest /\ (forall j q, q ∈ L1 j -> q ∈ L j /\ q ∉ (at_ <$> F)) /\
    (forall j q, q ∈ L1 j -> q ∈ D \/ i < j \/ q = p -> closed (T1 ++ Tile p (n + sizes F) (On i) :: T2) q))) s.
Proof using Hg.
  intros V EL [HsD HsL]. pose proof (v_held V) as H. pose proof (h_rep H) as R. pose proof (chunk_40 _ Hg) as Hc.
  assert (p ∈ L i) as Hp by (rewrite EL; apply in_mid). apply (r_on R) in Hp as [n Ht].
  apply list_elem_of_split in Ht as (T1 & TT & ET). destruct (run_split TT) as (F & T2 & -> & HF & HT2). subst T.
  pose proof (r_chain R) as Hch.
  assert (p ∉ (at_ <$> F)) as HpF.
  { pose proof (chained_nodup _ _ _ _ Hc Hch) as Hnd. rewrite fmap_app, fmap_cons, fmap_app in Hnd. cbn [at_] in Hnd.
    apply NoDup_app in Hnd as (_ & _ & [Hnd _]%NoDup_cons). set_solver. }
  eapply wp_mono; [apply (merge_with_next_free_spec g Hg A T1 p n (On i) ltac:(done) L max s F T2 H); [|done|apply (v_stats V)|apply (v_err V)]|].
  { intros t Ht. eapply on_class; [apply (v_complete V)|apply (v_classed V)|set_solver|auto]. }
  intros r s1 [E1 [He1|(He1 & -> & L1 & HL1 & H1)]]; split; try done; [by left|]. right. split; [done|].
  exists T1, n, F, T2, L1. split; [done|]. split; [done|]. split; [done|]. split; [done|].
  split; [by rewrite HL1, EL, without_mid|]. split; [intros j q; by rewrite HL1, without_in|].
  intros j q Hq Hor. rewrite HL1, without_in in Hq. destruct Hq as [Hq HqF].
  eapply closed_merge; [exact Hc|exact Hch|done|done|done|].
  destruct Hor as [HqD|[Hj| ->]]; [right; auto|right; eauto|by left].
Qed.

(** A round goes on with the rest of the list. *)
Definition round_post (max i : Z) (rest : list Z) (r : Z + bool) (s' : rds tx) : Prop :=
  (r = inr true /\ 0 < err s' <= top_code) \/
  (exists T' L' D' rest', r = inl (first rest') /\ (length rest' < length rest)%nat /\
     heap_inv max T' L' s' /\ L' i = D' ++ rest' /\ swept T' L' i D').

Lemma coalesce_stay max T L s s1 i (D : list Z) p (rest : list Z) T1 n T2 L1 D1 rest1 :
  heap_inv max T L s -> evolves keep s s1 -> err s1 = 0 -> 1 <= i <= nl ->
  held g 0 A (T1 ++ Tile p n (On i) :: T2) L1 max s1 -> L1 i = D1 ++ p :: rest1 -> (length rest1 <= length rest)%nat ->
  complete (T1 ++ Tile p n (On i) :: T2) -> classed max (T1 ++ Tile p n (On i) :: T2) ->
  (forall q, q ∈ D1 -> q ∈ D) ->
  (forall j q, q ∈ L1 j -> q ∈ D \/ i < j \/ q = p -> closed (T1 ++ Tile p n (On i) :: T2) q) ->
  wp (let! nx := ld (p + off_next) in ret (inl nx)) (fun r s' => evolves keep s s' /\ round_post max i (p :: rest) r s') s1.
Proof using Hg.
  intros V E1 He1 Hi H1 EL1 Hlen Hcm Hcl HD1 Hclo. pose proof (h_rep H1) as R1.
  apply wp_bind, (wp_ld _ (first rest1)).
  { pose proof (r_linked R1 i Hi) as Hl. rewrite EL1 in Hl. by apply linked_at in Hl as (_ & Hl & _). }
  apply wp_ret. split; [done|]. right. exists (T1 ++ Tile p n (On i) :: T2), L1, (D1 ++ [p]), rest1. split; [done|]. split; [cbn; lia|].
  split; [by eapply heap_inv_step|]. split; [by rewrite <- app_assoc|]. split.
  - intros q Hq. apply (Hclo i); [rewrite EL1; set_solver|]. rewrite elem_of_app, list_elem_of_singleton in Hq. destruct Hq as [?| ->]; auto.
  - intros j q Hj Hq. apply (Hclo j); auto.
Qed.

Lemma coalesce_move max T L s s1 i (D : list Z) p (rest : list Z) T1 n T2 L1 D1 rest1 :
  heap_inv max T L s -> evolves keep s s1 -> err s1 = 0 ->
  held g 0 A (T1 ++ Tile p n (On i) :: T2) L1 max s1 -> L1 i = D1 ++ p :: rest1 -> (length rest1 <= length rest)%nat ->
  (forall q, q ∈ D1 -> q ∈ D) ->
  complete (T1 ++ Tile p n (On (lidx max n)) :: T2) -> classed max (T1 ++ Tile p n (On (lidx max n)) :: T2) ->
  (forall j q, q ∈ L1 j -> q ∈ D \/ i < j \/ q = p -> closed (T1 ++ Tile p n (On i) :: T2) q) ->
  wp (move_block i p) (fun r s' => evolves keep s s' /\ round_post max i (p :: rest) r s') s1.
Proof using Hg.
  intros V E1 He1 H1 EL1 Hlen HD1 Hcm Hcl Hclo. pose proof (h_rep H1) as R1.
  eapply wp_mono; [by eapply move_block_spec|]. intros r s2 [E2 [[-> He2]|(-> & He2 & H2)]]; (split; [evo|]); [by left|].
  right. cbn zeta in H2. set (k := lidx max n) in *. set (L2 := upd L1 i (D1 ++ rest1)) in *.
  assert (p ∈ L1 i) as Hp1 by (rewrite EL1; apply in_mid).
  assert (forall j q, q ∈ L1 j -> q ∈ D \/ i < j \/ q = p -> closed (T1 ++ Tile p n (On k) :: T2) q) as Hclo2.
  { intros j q Hq Hor. eapply (closed_merge _ _ _ T1 p n (On i) [] T2); [by apply chunk_40|apply (r_chain R1)| |done|done|].
    - by apply (Hclo i p Hp1 (or_intror (or_intror eq_refl)) T1 n (On i)).
    - right. split; [apply not_elem_of_nil|]. eauto. }
  assert (forall j q, q ∈ L2 j -> q ∈ L1 j) as HL2.
  { intros j q. unfold L2. destruct (decide (j = i)) as [->|Hne]; [rewrite upd_same, EL1; set_solver|by rewrite upd_other]. }
  exists (T1 ++ Tile p n (On k) :: T2), (upd L2 k (p :: L2 k)), (if decide (k = i) then p :: D1 else D1), rest1.
  split; [done|]. split; [cbn; lia|]. split; [eapply heap_inv_step; [done|evo|done|done|done|done]|]. split; [|split].
  - unfold L2. destruct (decide (k = i)) as [->|Hne]; [by rewrite !upd_same|]. by rewrite upd_other, upd_same.
  - intros q Hq. apply (Hclo2 i); assert (q = p \/ q ∈ D1) as [->|HqD] by (destruct (decide (k = i)); set_solver); auto.
    rewrite EL1. set_solver.
  - intros j q Hj Hq. destruct (decide (j = k)) as [->|Hne]; [rewrite upd_same in Hq; apply elem_of_cons in Hq as [->|Hq]|rewrite upd_other in Hq by done]; eauto.
Qed.

Lemma coalesce_block_spec max T L s i D p rest :
  heap_inv max T L s -> L i = D ++ p :: rest -> 1 <= i <= nl -> swept T L i D ->
  wp (coalesce_block i p) (fun r s' => evolves keep s s' /\ round_post max i (p :: rest) r s') s.
Proof using Hg.
  intros V EL Hi Hsw. pose proof (h_rep (v_held V)) as R. assert (p ∈ L i) as Hp by (rewrite EL; apply in_mid).
  pose proof (on_pos g Hg 0 _ _ _ _ _ (v_held V) _ _ Hp). pose proof (r_max_le R) as Hmax.
  assert (nl < 2 ^ 31) as Hnl by (pose proof (geo_nl g Hg); lia).
  unfold coalesce_block. destruct (Z.eqb_spec p 0) as [?|_]; [lia|]. apply wp_bind. eapply wp_mono; [by eapply merge_round|].
  intros r s1 [E1 [He1|(He1 & T1 & n & F & T2 & L1 & ET & HT2 & -> & H1 & EL1 & HL1 & Hclo)]].
  { apply wp_bind, (wp_get_err (err s1)); [done|]. destruct (Z.eqb_spec (err s1) 0); [lia|]. apply wp_ret. split; [done|]. by left. }
  apply wp_bind, (wp_get_err 0); [done|]. cbn [Z.eqb negb]. set (n1 := n + sizes F) in *.
  assert (lidx max n = i) as Hin.
  { symmetry. apply (v_classed V p). rewrite ET. apply in_mid. }
  assert (complete (T1 ++ Tile p n1 (On i) :: T2)) as Hcm by (eapply complete_merge; rewrite <- ET; apply (v_complete V)).
  pose proof (v_classed V) as Hcl0. rewrite ET in Hcl0.
  assert (lidx max n1 = i -> classed max (T1 ++ Tile p n1 (On i) :: T2)) as Hcl by (intros <-; by eapply classed_merge).
  assert (forall q, q ∈ without F D -> q ∈ D) as HD by (intros q; rewrite without_in; tauto).
  assert (length (without F rest) <= length rest)%nat as Hlen by apply length_filter.
  destruct F as [|t F'] eqn:EF.
  - cbn [flag]. cbn [Z.eqb]. eapply wp_bind, wp_add_stat; [done|exact H1|eapply stats_covered_step; [done|apply (v_stats V)]|].
    intros s2 E2 H2 He2. apply wp_bind, (wp_hdr g _ nl); [apply (h_start H2)|apply (r_nl (h_rep H2))|]. cbn [Z.eqb negb andb].
    eapply (coalesce_stay max T L s s2); [done|evo|congruence|done|exact H2|exact EL1|done|done| |done|done].
    apply Hcl. unfold n1. cbn. by rewrite Z.add_0_r.
  - rewrite <- EF in *. replace (flag F) with 1 by (by rewrite EF). cbn [Z.eqb negb andb].
    apply wp_bind, wp_ret. apply wp_bind, (wp_hdr g _ nl); [apply (h_start H1)|apply (r_nl (h_rep H1))|].
    rewrite u64_index by lia. destruct (Z.ltb_spec i nl) as [Hlt|Hge].
    + eapply (coalesce_move max T L s s1); [done|done|done|exact H1|exact EL1|done|done| | |done].
      * eapply (complete_merge T1 p n (On i) F). rewrite <- ET. apply (v_complete V).
      * by eapply (classed_merge max T1 p n (On i) F).
    + assert (i = nl /\ max = nl) as [-> ->] by (unfold lidx in Hin; destruct (Z.leb_spec max n); lia).
      eapply (coalesce_stay nl T L s s1); [done|done|done|done|exact H1|exact EL1|done|done| |done|done].
      apply Hcl. assert (0 <= sizes F).
      { apply sizes_nonneg. intros t0 Ht. apply (tile_bounds Hg R). rewrite ET. set_solver. }
      assert (n <= n1) by (unfold n1; rewrite <- EF; lia).
      unfold lidx in *. destruct (Z.leb_spec nl n), (Z.leb_spec nl n1); lia.
Qed.

(** No two free blocks are adjacent. *)
Definition normal (T : list tile) : Prop := forall t, t ∈ T -> st t <> Allocd -> closed T (at_ t).

Lemma list_count dirty m T L max i : heap_rep g dirty m T L max -> (length (L i) <= size m)%nat.
Proof.
  intros R. apply cells_count; [apply (r_nodup R)|]. intros p Hp. destruct (on_tile R p i Hp) as (t & Ht & <- & _).
  pose proof (tm_type (r_tiles R t Ht)) as E. rewrite Z.add_0_r in E. eauto.
Qed.

Lemma lists_count dirty m T L max : heap_rep g dirty m T L max -> (Z.to_nat nl <= size m)%nat.
Proof.
  intros R. rewrite <- (length_seq (Z.to_nat nl) 1), <- (length_fmap (fun k => list_cell g (Z.of_nat k))).
  apply cells_count.
  - apply NoDup_fmap_2; [|apply NoDup_seq]. intros x y. unfold list_cell. lia.
  - intros x (k & -> & Hk)%list_elem_of_fmap. apply elem_of_seq in Hk.
    pose proof (r_guard R (Z.of_nat k) ltac:(lia)) as E. rewrite Z.add_0_r in E. eauto.
Qed.

Lemma coalesce_list_spec max T L s i :
  heap_inv max T L s -> 1 <= i <= nl -> swept T L i [] ->
  wp (coalesce_list i) (fun r s' => evolves keep s s' /\ ((r = inr true /\ 0 < err s' <= top_code) \/
    (r = inl (i - 1) /\ exists T' L', heap_inv max T' L' s' /\ swept T' L' (i - 1) []))) s.
Proof using Hg.
  intros V Hi Hsw. pose proof (v_held V) as H. pose proof (h_rep H) as R.
  unfold coalesce_list. destruct (Z.ltb_spec 0 i); [|lia]. cbn [negb].
  apply wp_bind, (wp_list_guard g _ FREE_LIST_GUARD); [apply (h_start H)|by apply (r_guard R)|]. rewrite Z.eqb_refl. cbn [negb].
  apply wp_bind, (wp_list_head g _ (first (L i))); [apply (h_start H)|by apply (r_head R)|].
  apply wp_bind. apply (wp_loop (fun k fbp s' => exists T' L' D rest, k = length rest /\ fbp = first rest /\ heap_inv max T' L' s' /\
    L' i = D ++ rest /\ swept T' L' i D /\ evolves keep s s') _ _ (length (L i))).
  - exists T, L, [], (L i). done.
  - by eapply list_count.
  - intros k fbp s1 (T1 & L1 & D & rest & -> & -> & V1 & EL1 & Hsw1 & E1). destruct rest as [|p rest].
    + cbn [first]. unfold coalesce_block. cbn [Z.eqb]. apply wp_ret. apply wp_ret. split; [done|]. right. split; [done|].
      exists T1, L1. split; [done|]. split; [set_solver|]. intros j q Hj Hq. rewrite app_nil_r in EL1.
      destruct (decide (j = i)) as [->|Hne]; [apply (proj1 Hsw1); by rewrite <- EL1|]. apply (proj2 Hsw1 j); [lia|done].
    + cbn [first]. eapply wp_mono; [by eapply coalesce_block_spec|]. intros r s2 [E2 [[-> He2]|(T2 & L2 & D2 & rest2 & -> & Hlt & V2 & EL2 & Hsw2)]].
      * apply wp_ret. split; [evo|]. by left.
      * exists (length rest2). split; [done|]. exists T2, L2, D2, rest2. do 5 (split; [done|]). evo.
Qed.

Lemma coalesce_lists_spec max T L s :
  heap_inv max T L s -> wp coalesce_lists (fun r s' => evolves keep s s' /\ ((r = true /\ 0 < err s' <= top_code) \/
    (r = false /\ exists T' L', heap_inv max T' L' s' /\ normal T'))) s.
Proof using Hg.
  intros V. pose proof (v_held V) as H. pose proof (h_rep H) as R. assert (1 <= nl < 2 ^ 31) as Hnl by (pose proof (geo_nl g Hg); lia).
  unfold coalesce_lists. apply wp_bind, (wp_hdr g _ nl); [apply (h_start H)|apply (r_nl R)|]. rewrite s32_index by lia.
  apply (wp_loop (fun k i s' => k = Z.to_nat i /\ 0 <= i <= nl /\ evolves keep s s' /\ exists T' L', heap_inv max T' L' s' /\ swept T' L' i []) _ _ (Z.to_nat nl)).
  - split; [done|]. split; [lia|]. split; [done|]. exists T, L. split; [done|]. split; [set_solver|].
    intros j p Hj Hp. apply (on_range R) in Hp. lia.
  - by eapply lists_count.
  - intros k i s1 (-> & Hi & E1 & T1 & L1 & V1 & Hsw). destruct (decide (i = 0)) as [->|Hne].
    + unfold coalesce_list. cbn. apply wp_ret. split; [done|]. right. split; [done|]. exists T1, L1. split; [done|].
      intros t Ht Hs. pose proof (on_class _ _ _ (v_complete V1) (v_classed V1) Ht Hs) as Hst. destruct t as [p n w]. cbn in *. subst w.
      pose proof (r_index (h_rep (v_held V1)) _ _ _ Ht). apply (proj2 Hsw (lidx max n)); [lia|].
      apply (r_on (h_rep (v_held V1))). by exists n.
    + eapply wp_mono; [eapply coalesce_list_spec; [done|lia|done]|]. intros r s2 [E2 [[-> He2]|(-> & T2 & L2 & V2 & Hsw2)]].
      * split; [evo|]. by left.
      * exists (Z.to_nat (i - 1)). split; [lia|]. split; [done|]. split; [lia|]. split; [evo|]. eauto.
Qed.

Lemma normal_restate T1 p n i k T2 a e :
  chained c a (T1 ++ Tile p n (On i) :: T2) e -> normal (T1 ++ Tile p n (On i) :: T2) -> normal (T1 ++ Tile p n (On k) :: T2).
Proof using Hg.
  intros Hch Hn t Ht Hs. eapply (closed_merge c a e T1 p n (On i) [] T2 n (On k)); [by apply chunk_40|done| |done|done|].
  - apply (Hn (Tile p n (On i)) ltac:(apply in_mid) ltac:(done) T1 n (On i)). done.
  - rewrite elem_of_app, elem_of_cons in Ht. destruct Ht as [Ht|[->|Ht]]; [right|by left|right]; (split; [set_solver|]); apply Hn; set_solver.
Qed.

(** ** The second part: blocks that are too large for their list *)

(** Blocks of [rest] on list [old] may be too large for it. *)
Definition classed_but (old : Z) (rest : list Z) (T : list tile) : Prop :=
  forall p n i, Tile p n (On i) ∈ T -> i = lidx nl n \/ (i = old /\ p ∈ rest /\ old <= n).

Record large_inv (old : Z) (rest : list Z) (T : list tile) (L : Z -> list Z) (s : rds tx) : Prop := {
  l_held : held g 0 A T L nl s;
  l_complete : complete T;
  l_classed : classed_but old rest T;
  l_normal : normal T;
  l_rest : exists D, L old = D ++ rest;
  l_err : err s = 0
}.

Lemma large_block_spec old p rest T L s :
  1 <= old < nl -> large_inv old (p :: rest) T L s ->
  wp (large_block old p) (fun r s' => evolves keep s s' /\ ((r = inr true /\ 0 < err s' <= top_code) \/
    (r = inl (first rest) /\ exists T' L', large_inv old rest T' L' s'))) s.
Proof using Hg.
  intros Hold V. pose proof (l_held _ _ _ _ _ V) as H. pose proof (h_rep H) as R. destruct (l_rest _ _ _ _ _ V) as [D EL].
  assert (p ∈ L old) as Hp by (rewrite EL; apply in_mid). pose proof (on_pos g Hg 0 _ _ _ _ _ H _ _ Hp).
  assert (nl < 2 ^ 31) as Hnl by (pose proof (geo_nl g Hg); lia).
  apply (r_on R) in Hp as [n Ht]. pose proof (r_chain R) as Hch. apply list_elem_of_split in Ht as (T1 & T2 & ET). subst T.
  set (T := T1 ++ Tile p n (On old) :: T2) in *. assert (Tile p n (On old) ∈ T) as Ht by apply in_mid.
  assert (p ∉ rest) as Hpr.
  { pose proof (r_nodup R old) as Hnd. rewrite EL in Hnd. apply NoDup_app in Hnd as (_ & _ & [? _]%NoDup_cons). done. }
  assert (old <= n) as Hn.
  { destruct (l_classed _ _ _ _ _ V _ _ _ Ht) as [E|(_ & _ & ?)]; [|done]. unfold lidx in E. destruct (Z.leb_spec nl n); lia. }
  unfold large_block. destruct (Z.eqb_spec p 0); [lia|].
  apply wp_bind, (wp_ld _ n); [apply (tm_size (r_tiles R _ Ht)); cbn; lia|]. rewrite u64_index by lia.
  assert (forall q m i, Tile q m (On i) ∈ T -> q <> p -> i = lidx nl m \/ (i = old /\ q ∈ rest /\ old <= m)) as Hother.
  { intros q m i Hq Hne. destruct (l_classed _ _ _ _ _ V _ _ _ Hq) as [?|(-> & Hin & ?)]; [by left|right].
    split; [done|]. split; [|done]. by apply elem_of_cons in Hin as [->|?]. }
  destruct (Z.ltb_spec old n) as [Hlt|Hge].
  - eapply wp_mono; [eapply move_block_spec; [exact H|exact EL|apply (l_err _ _ _ _ _ V)]|].
    intros r s1 [E1 [[-> He1]|(-> & He1 & H1)]]; (split; [done|]); [by left|]. right. split; [done|]. cbn zeta in H1.
    assert (lidx nl n <> old) as Hk by (unfold lidx; destruct (Z.leb_spec nl n); lia).
    eexists _, _. split; [exact H1| | | | |done].
    + intros t Ht'. rewrite elem_of_app, elem_of_cons in Ht'. destruct Ht' as [?|[->|?]]; [|done|]; apply (l_complete _ _ _ _ _ V); set_solver.
    + intros q m i Hq. destruct (decide (q = p)) as [->|Hne].
      * assert (Tile p m (On i) = Tile p n (On (lidx nl n))) as [= -> ->] by (apply (tile_inj Hg (h_rep H1)); [done|apply in_mid|done]). by left.
      * apply Hother; [|done]. rewrite elem_of_app, elem_of_cons in Hq. destruct Hq as [?|[[= ? ? ?]|?]]; [|done|]; unfold T; set_solver.
    + eapply normal_restate; [exact Hch|apply (l_normal _ _ _ _ _ V)].
    + exists D. by rewrite upd_other, upd_same.
  - apply wp_bind, (wp_ld _ (first rest)).
    { pose proof (r_linked R old ltac:(lia)) as Hl. rewrite EL in Hl. by apply linked_at in Hl as (_ & Hl & _). }
    apply wp_ret. split; [done|]. right. split; [done|]. exists T, L. split; try apply V; [|exists (D ++ [p]); by rewrite <- app_assoc].
    intros q m i Hq. destruct (decide (q = p)) as [->|Hne]; [|by apply Hother]. left.
    assert (Tile p m (On i) = Tile p n (On old)) as [= -> ->] by (by apply (tile_inj Hg R)).
    unfold lidx. destruct (Z.leb_spec nl n); lia.
Qed.

Lemma coalesce_large_spec old T L s :
  1 <= old < nl -> large_inv old (L old) T L s ->
  wp (coalesce_large old) (fun r s' => evolves keep s s' /\ ((r = true /\ 0 < err s' <= top_code) \/
    (r = false /\ err s' = 0 /\ exists T' L', held g 0 A T' L' nl s' /\ complete T' /\ classed nl T' /\ normal T'))) s.
Proof using Hg.
  intros Hold V. pose proof (l_held _ _ _ _ _ V) as H. pose proof (h_rep H) as R.
  unfold coalesce_large. apply wp_bind, (wp_list_head g _ (first (L old))); [apply (h_start H)|apply (r_head R); lia|].
  apply (wp_loop (fun k fbp s' => exists T' L' rest, k = length rest /\ fbp = first rest /\ large_inv old rest T' L' s' /\ evolves keep s s') _ _ (length (L old))).
  - exists T, L, (L old). done.
  - by eapply list_count.
  - intros k fbp s1 (T1 & L1 & rest & -> & -> & V1 & E1). destruct rest as [|p rest].
    + cbn. apply wp_ret. split; [done|]. right. split; [done|]. split; [apply (l_err _ _ _ _ _ V1)|]. exists T1, L1.
      destruct V1 as [h1 h2 h3 h4 _ _]. split; [done|]. split; [done|]. split; [|done]. intros p n i Hp.
      destruct (h3 _ _ _ Hp) as [?|(_ & Hin & _)]; [done|]. set_solver.
    + cbn [first]. eapply wp_mono; [by eapply large_block_spec|]. intros r s2 [E2 [[-> He2]|(-> & T2 & L2 & V2)]].
      * split; [evo|]. by left.
      * exists (length rest). split; [cbn; lia|]. exists T2, L2, rest. do 3 (split; [done|]). evo.
Qed.

(** ** maxlist *)
Lemma wp_set_max T L max v s Q :
  held g 0 A T L max s -> (forall x, b + off_maxlist <= x < b + off_maxlist + 8 -> covered s x) -> 1 <= v <= nl ->
  (forall s', evolves keep s s' -> held g 0 A T L v s' -> err s' = err s -> Q tt s') -> wp (set_MAXLIST v) Q s.
Proof using Hg.
  intros H Hc Hv HQ. pose proof (h_rep H) as R. pose proof (lo_above _ Hg).
  unfold set_MAXLIST. apply wp_bind, (wp_get_start b); [apply (h_start H)|].
  apply (wp_store keep); [rewrite (r_max R); eauto|apply Hc; lia|eapply (low_not_kept g Hg 0); [exact H|lia]|].
  intros s' E M He. apply HQ; [done| |done]. eapply held_step; [done|done| |apply (h_allocs H)]. rewrite M.
  eapply (rep_header g 0); [done|exact R|done| | |].
  - intros x Hx. apply lookup_insert_is_Some'. by right.
  - intros x Hx. apply lookup_insert_ne. lia.
  - apply lookup_insert_eq.
Qed.

(** Lowering maxlist past an empty list keeps the lists right. *)
Lemma classed_lower max T L dirty m : heap_rep g dirty m T L max -> classed max T -> L max = [] -> classed (max - 1) T.
Proof.
  intros R Hcl HL p n i Hp. pose proof (Hcl _ _ _ Hp) as ->.
  assert (lidx max n <> max) as Hne.
  { intros E. assert (p ∈ L max) as Hin by (apply (r_on R); exists n; by rewrite <- E at 1). rewrite HL in Hin. set_solver. }
  unfold lidx in *. destruct (Z.leb_spec max n); [done|]. destruct (Z.leb_spec (max - 1) n); lia.
Qed.

Lemma lower_maxlist_spec limit max T L s :
  1 <= limit -> heap_inv max T L s -> (forall x, b + off_maxlist <= x < b + off_maxlist + 8 -> covered s x) ->
  wp (lower_maxlist limit) (fun _ s' => evolves keep s s' /\ exists max', heap_inv max' T L s' /\ max' <= max /\
    (max' <= limit \/ L max' <> []) /\ (max' = max \/ limit <= max')) s.
Proof using Hg.
  intros Hlim V Hcov. pose proof (h_rep (v_held V)) as R. pose proof (r_max_le R) as Hmax.
  apply (wp_loop (fun k _ s' => exists max', k = Z.to_nat max' /\ heap_inv max' T L s' /\ max' <= max /\ (max' = max \/ limit <= max') /\ evolves keep s s') _ _ (Z.to_nat max)).
  - exists max. split; [done|]. split; [done|]. split; [lia|]. split; [by left|done].
  - pose proof (lists_count 0 _ _ _ _ R). lia.
  - intros k _ s1 (m1 & -> & V1 & Hle & Hor & E1). pose proof (v_held V1) as H1. pose proof (h_rep H1) as R1. pose proof (r_max_le R1) as Hm1.
    apply wp_bind, (wp_hdr g _ m1); [apply (h_start H1)|apply (r_max R1)|]. destruct (Z.ltb_spec limit m1) as [Hlt|Hge].
    + apply wp_bind, (wp_list_head g _ (first (L m1))); [apply (h_start H1)|by apply (r_head R1)|].
      pose proof (first_zero g Hg 0 _ _ _ _ _ H1 m1 [] (L m1) eq_refl) as Hz. destruct (Z.eqb_spec (first (L m1)) 0) as [E0|E0].
      * apply wp_bind. eapply (wp_set_max _ _ _ (m1 - 1)); [exact H1|intros x Hx; apply (ev_cover _ _ _ E1); auto|lia|].
        intros s2 E2 H2 He2. apply wp_ret. exists (Z.to_nat (m1 - 1)). split; [lia|]. exists (m1 - 1). split; [done|].
        split; [|split; [lia|split; [lia|evo]]]. split; [done|apply V1| |eapply stats_covered_step; [done|apply (v_stats V1)]|rewrite He2; apply (v_err V1)].
        eapply classed_lower; [exact R1|apply (v_classed V1)|tauto].
      * apply wp_ret. split; [done|]. exists m1. split; [done|]. split; [done|]. split; [tauto|done].
    + apply wp_ret. split; [done|]. exists m1. split; [done|]. split; [done|]. split; [by left|done].
Qed.

Lemma classed_raise max T L dirty m : heap_rep g dirty m T L max -> max < nl -> classed max T -> classed_but max (L max) T.
Proof.
  intros R Hm Hcl p n i Hp. pose proof (Hcl _ _ _ Hp) as E. unfold lidx in E. destruct (Z.leb_spec max n); subst i; [right|left].
  - split; [done|]. split; [|done]. apply (r_on R). by exists n.
  - unfold lidx. destruct (Z.leb_spec nl n); lia.
Qed.

Lemma coalesce_spec max T L s :
  heap_inv max T L s -> wp coalesce (fun _ s' => evolves keep s s' /\ (0 < err s' <= top_code \/
    exists max' T' L', heap_inv max' T' L' s' /\ normal T' /\ (L' max' <> [] \/ max' <= 1 \/ max' = max))) s.
Proof using Hg.
  intros V. pose proof (v_held V) as H. pose proof (h_rep H) as R. pose proof (lo_above _ Hg).
  assert (nl < 2 ^ 31) as Hnl by (pose proof (geo_nl g Hg); lia).
  unfold coalesce, HEAP_INIT. apply wp_bind, wp_bind, (wp_get_start b); [apply (h_start H)|]. apply wp_ret.
  destruct (Z.eqb_spec b 0) as [?|_]; [lia|]. cbn [negb].
  eapply wp_bind, wp_add_stat; [done|exact H|apply (v_stats V)|]. intros s1 E1 H1 He1.
  apply wp_bind, (wp_set_err keep). intros s2 E2 M2 He2.
  assert (heap_inv max T L s2) as V2.
  { eapply heap_inv_step; [exact V|evo|by eapply held_same|apply (v_complete V)|apply (v_classed V)|done]. }
  apply wp_bind. eapply wp_mono; [by eapply coalesce_lists_spec|]. intros r s3 [E3 [[-> He3]|(-> & T3 & L3 & V3 & Hn3)]].
  { apply wp_ret. split; [evo|]. by left. }
  pose proof (v_held V3) as H3. pose proof (h_rep H3) as R3. pose proof (r_max_le R3) as Hm.
  apply wp_bind, (wp_hdr g _ max); [apply (h_start H3)|apply (r_max R3)|].
  apply wp_bind, (wp_hdr g _ nl); [apply (h_start H3)|apply (r_nl R3)|]. destruct (Z.ltb_spec max nl) as [Hlt|Hge].
  - rewrite s32_index by lia. apply wp_bind, (wp_get_start b); [apply (h_start H3)|].
    apply (wp_announce keep); [apply (h_live H3)|intros s' E' _ He'; split; [evo|by left]|]. intros s4 E4 M4 He4 C4.
    pose proof (held_same g 0 _ _ _ _ _ _ _ H3 E4 M4) as H4.
    apply wp_bind. eapply (wp_set_max _ _ _ nl); [exact H4|done|lia|]. intros s5 E5 H5 He5.
    assert (err s5 = 0) as He5' by (rewrite He5, He4; apply (v_err V3)).
    apply wp_bind. eapply wp_mono; [eapply coalesce_large_spec; [lia|]|].
    { split; [exact H5|apply (v_complete V3)| |done|by exists []|done]. eapply classed_raise; [exact R3|lia|apply (v_classed V3)]. }
    intros r s6 [E6 [[-> He6]|(-> & He6 & T6 & L6 & H6 & Hc6 & Hcl6 & Hn6)]].
    { apply wp_ret. split; [evo|]. by left. }
    assert (heap_inv nl T6 L6 s6) as V6.
    { split; [done|done|done| |done]. eapply (stats_covered_step g keep s3 s6); [evo|apply (v_stats V3)]. }
    apply wp_bind. eapply wp_mono; [eapply (lower_maxlist_spec 1); [lia|exact V6|]|].
    { intros x Hx. apply (ev_cover keep s4 s6 ltac:(evo)), C4. lia. }
    intros _ s7 (E7 & m7 & V7 & Hm7 & Hor & _). apply (wp_set_err keep). intros s8 E8 M8 He8. split; [evo|]. right.
    exists m7, T6, L6. split; [|split; [done|tauto]].
    eapply heap_inv_step; [exact V7|done|by eapply held_same; [apply (v_held V7)|..]|apply (v_complete V7)|apply (v_classed V7)|done].
  - apply (wp_set_err keep). intros s4 E4 M4 He4. split; [evo|]. right. exists max, T3, L3. split; [|auto].
    eapply heap_inv_step; [exact V3|done|by eapply held_same; [exact H3|..]|apply (v_complete V3)|apply (v_classed V3)|done].
Qed.

End Coalesce.

Arguments v_held {_ _ _ _ _ _ _ _ _}.
Arguments v_complete {_ _ _ _ _ _ _ _ _}.
Arguments v_classed {_ _ _ _ _ _ _ _ _}.
Arguments v_stats {_ _ _ _ _ _ _ _ _}.
Arguments v_err {_ _ _ _ _ _ _ _ _}.
End RdsCoalesce.
