(* ===== verification/RdsAlloc.v ===== *)
(** * The recoverable heap: finding a block

    split takes a block of a given size out of the heap, coalescing when none is
    large enough; it gives up only when no free run is. *)
From Stdlib Require Import ZArith Lia.
From stdpp Require Import base list numbers gmap.
From S2P Require Import Prelude.
From S2P Require Import RdsMem.
From S2P Require Import Rds.
From S2P Require Import RdsHeap.
From S2P Require Import RdsLists.
From S2P Require Import RdsMerge.
From S2P Require Import RdsCoalesce.
Import RdsMem Rds RdsHeap RdsLists RdsMerge RdsCoalesce.
Open Scope Z_scope.

Module RdsAlloc.

(** No range of [k] chunks is free of allocated blocks. *)
Definition no_room (g : geometry) (A : list tile) (k : Z) : Prop :=
  forall x, g_lo g <= x -> x + k * g_chunk g <= top g -> exists y, x <= y < x + k * g_chunk g /\ in_allocs (g_chunk g) A y.

Lemma chained_cover c a T e x : 40 <= c -> chained c a T e -> a <= x < e ->
  exists T1 t T2, T = T1 ++ t :: T2 /\ at_ t <= x < end_ c t.
Proof.
  intros Hc. revert a. induction T as [|t T IH]; intros a; cbn; [lia|]. intros (Ha & Hs & H) Hx.
  destruct (Z.lt_ge_cases x (end_ c t)) as [Hlt|Hge]; [exists [], t, T; split; [done|lia]|].
  destruct (IH _ H ltac:(lia)) as (T1 & u & T2 & -> & Hu). exists (t :: T1), u, T2. done.
Qed.

Lemma normal_no_room g T k (Hg : geo_ok g) :
  chained (g_chunk g) (g_lo g) T (top g) -> normal T -> (forall t, t ∈ T -> st t <> Allocd -> sz t < k) -> 0 < k -> no_room g (allocs T) k.
Proof.
  intros Hch Hn Hk Hpos x Hx Hx'. pose proof (chunk_40 g Hg) as Hc. set (c := g_chunk g) in *. assert (0 < k * c) by nia.
  destruct (chained_cover c _ _ _ x Hc Hch ltac:(lia)) as (T1 & t & T2 & ET & Ht).
  assert (t ∈ T) as Hin by (rewrite ET; apply in_mid). destruct (decide (st t = Allocd)) as [Hs|Hs].
  - exists x. split; [lia|]. exists t. rewrite elem_of_allocs. done.
  - specialize (Hk t Hin Hs). assert (stops T2) as HT2.
    { destruct t as [p n w]. by apply (Hn _ Hin Hs T1 n w). }
    rewrite ET in Hch. apply chained_app in Hch as (y & _ & Hy). cbn in Hy. destruct Hy as (_ & Hpos' & H2).
    assert (end_ c t < x + k * c) by (unfold end_ in *; nia). destruct T2 as [|u T2]; cbn in H2; [lia|]. cbn in HT2.
    exists (end_ c t). split; [lia|]. exists u. destruct H2 as (Eu & Hu & _). split; [apply elem_of_allocs; rewrite ET; set_solver|].
    unfold end_ at 3. nia.
Qed.

Section Split.
Context {tx : Type} `{!RVM tx, !RVMLaws tx}.
Context (g : geometry) (Hg : geo_ok g).
Abbreviation b := (g_base g).
Abbreviation c := (g_chunk g).
Abbreviation nl := (g_nl g).
Abbreviation lo := (g_lo g).
Context (A : list tile).
Abbreviation keep := (in_allocs c A).
Implicit Types s : rds tx.
Abbreviation heap_inv := (heap_inv g A).

Context (size : Z) (Hsize : 1 <= size < 2 ^ 30).

Lemma u64_size : u64 size = size.
Proof using Hsize. apply uwrap_small. lia. Qed.

Lemma split_list_spec max T L s :
  heap_inv max T L s -> wp (split_list size) (fun i s' => s' = s /\ (i = max \/ (size < i < max /\ L i <> []))) s.
Proof using Hg Hsize.
  intros V. pose proof (v_held V) as H. pose proof (h_rep H) as R. pose proof (r_max_le R) as Hm.
  assert (nl < 2 ^ 30) as Hnl by (pose proof (geo_nl g Hg); lia).
  unfold split_list. destruct (Z.leb_spec (- 2 ^ 31) (size * 2)), (Z.ltb_spec (size * 2) (2 ^ 31)); try lia. cbn [andb negb].
  apply (wp_loop (fun k i s' => s' = s /\ size < i < 2 ^ 31 /\ k = Z.to_nat (max - i)) _ _ (Z.to_nat (max - size * 2))).
  - split; [done|]. split; [lia|done].
  - pose proof (lists_count g 0 _ _ _ _ R). lia.
  - intros k i s' (-> & Hi & ->). apply wp_bind, (wp_hdr g _ max); [apply (h_start H)|apply (r_max R)|].
    rewrite uwrap_small by lia. destruct (Z.ltb_spec i max) as [Hlt|Hge]; cbn [negb].
    + apply wp_bind, (wp_list_head g _ (first (L i))); [apply (h_start H)|apply (r_head R); lia|].
      pose proof (first_zero g Hg 0 _ _ _ _ _ H i [] (L i) eq_refl) as Hz. destruct (Z.eqb_spec (first (L i)) 0); cbn [negb].
      * destruct (Z.ltb_spec (i + size) (2 ^ 31)); [|lia]. apply wp_ret. exists (Z.to_nat (max - (i + size))). split; [lia|]. split; [done|]. split; [lia|done].
      * apply wp_ret. split; [done|]. right. split; [lia|tauto].
    + apply wp_ret. split; [done|]. by left.
Qed.

(** The block best_fit finds, or the knowledge that there is none. *)
Definition fit (T : list tile) (i bp : Z) (l : list Z) : Prop :=
  (bp = 0 /\ forall p n, p ∈ l -> Tile p n (On i) ∈ T -> n < size) \/
  (bp ∈ l /\ exists n, Tile bp n (On i) ∈ T /\ size <= n).

Lemma best_fit_spec max T L s i :
  heap_inv max T L s -> 1 <= i <= nl -> wp (best_fit size (first (L i))) (fun bp s' => s' = s /\ fit T i bp (L i)) s.
Proof using Hg Hsize.
  intros V Hi. pose proof (v_held V) as H. pose proof (h_rep H) as R. unfold best_fit.
  assert (forall p, p ∈ L i -> 0 < p) as Hpos by (intros p; apply (on_pos g Hg 0 _ _ _ _ _ H)).
  apply (wp_loop (fun k '(t, bp) s' => exists D rest, L i = D ++ rest /\ k = length rest /\ s' = s /\ t = first rest /\ fit T i bp D) _ _ (length (L i))).
  - exists [], (L i). do 4 (split; [done|]). left. split; [done|set_solver].
  - by eapply list_count.
  - intros k [t bp] s' (D & rest & EL & -> & -> & -> & Hfit). destruct rest as [|p rest].
    + cbn. apply wp_ret. split; [done|]. by rewrite EL, app_nil_r.
    + cbn [first]. assert (p ∈ L i) as Hp by (rewrite EL; apply in_mid). pose proof (Hpos _ Hp). destruct (Z.eqb_spec p 0) as [?|_]; [lia|].
      apply (r_on R) in Hp as Hp'. destruct Hp' as [n Ht]. assert (p <> 0) by lia.
      apply wp_bind, (wp_ld _ n); [by apply (tm_size (r_tiles R _ Ht))|]. rewrite u64_size.
      assert (mem s !! (p + off_next) = Some (first rest)) as Hnx.
      { pose proof (r_linked R i Hi) as Hl. rewrite EL in Hl. by apply linked_at in Hl as (_ & Hl & _). }
      assert (forall m, Tile p m (On i) ∈ T -> m = n) as Huniq.
      { intros m Hm. by assert (Tile p m (On i) = Tile p n (On i)) as [= ->] by (by apply (tile_inj Hg R)). }
      apply wp_bind. eapply wp_mono with (Q := fun better s' => s' = s /\ (bp = 0 -> better = true)).
      { destruct (Z.eqb_spec bp 0) as [|Hbp]; [by apply wp_ret|]. destruct Hfit as [[? _]|(Hin & m & Hm & _)]; [done|].
        apply wp_bind, (wp_ld _ m); [by apply (tm_size (r_tiles R _ Hm))|]. apply wp_ret. done. }
      intros better s' [-> Hbet]. destruct (Z.leb_spec size n) as [Hle|Hgt]; cbn [andb].
      * destruct better.
        -- destruct (Z.eqb_spec n size) as [->|Hne].
           ++ apply wp_ret. split; [done|]. right. split; [done|]. by exists size.
           ++ apply wp_bind, (wp_ld _ _ _ _ Hnx). apply wp_ret. exists (length rest). split; [cbn; lia|]. exists (D ++ [p]), rest.
              split; [by rewrite <- app_assoc|]. do 3 (split; [done|]). right. split; [set_solver|]. by exists n.
        -- apply wp_bind, (wp_ld _ _ _ _ Hnx). apply wp_ret. exists (length rest). split; [cbn; lia|]. exists (D ++ [p]), rest.
           split; [by rewrite <- app_assoc|]. do 3 (split; [done|]). destruct Hfit as [[Hb0 _]|(Hin & Hm)]; [by specialize (Hbet Hb0)|].
           right. split; [set_solver|done].
      * apply wp_bind, (wp_ld _ _ _ _ Hnx). apply wp_ret. exists (length rest). split; [cbn; lia|]. exists (D ++ [p]), rest.
        split; [by rewrite <- app_assoc|]. do 3 (split; [done|]). destruct Hfit as [[? Hall]|(Hin & Hm)]; [left|right; split; [set_solver|done]].
        split; [done|]. intros q m Hq Hm. rewrite elem_of_app, list_elem_of_singleton in Hq. destruct Hq as [Hq| ->]; [eauto|]. rewrite (Huniq m Hm). lia.
Qed.

(** A block of [size] chunks has been taken out of the heap: it is on no list. *)
Definition given (r : Z) (s : rds tx) : Prop := exists max T1 T2 L,
  held g 0 A (T1 ++ Tile r size Loose :: T2) L max s /\ complete (T1 ++ T2) /\ classed max (T1 ++ T2) /\ err s = 0.

Definition split_mem (m : memory) (p q n1 : Z) : memory :=
  <[q + off_type := FREE_GUARD]> (<[q + off_size := size]> (<[q - 8 := END_GUARD]> (<[p + off_size := n1]> m))).

Lemma rep_split m T1 p n i T2 L max :
  heap_rep g 0 m (T1 ++ Tile p n (On i) :: T2) L max -> size < n ->
  heap_rep g 0 (split_mem m p (p + (n - size) * c) (n - size))
    (T1 ++ Tile p (n - size) (On i) :: Tile (p + (n - size) * c) size Loose :: T2) L max.
Proof using Hg Hsize.
  intros R Hn. assert (Tile p n (On i) ∈ T1 ++ Tile p n (On i) :: T2) as Ht by apply in_mid.
  pose proof (tile_bounds Hg R _ Ht) as (Hlo & _ & Hb & _). unfold end_ in Hb. cbn [at_ sz] in Hlo, Hb.
  destruct (r_tiles R _ Ht) as [h1 h2 h3]. unfold end_ in h3. cbn [at_ sz st guard_of] in h1, h2, h3. pose proof (chunk_40 _ Hg). pose proof (lo_above _ Hg).
  set (q := p + (n - size) * c). assert (p + 40 <= q) by (unfold q; nia). assert (q + 40 <= p + n * c) by (unfold q; nia).
  assert (q + size * c = p + n * c) as Eq by (unfold q; lia).
  apply (rep_retile g 0 m _ T1 [Tile p n (On i)] [Tile p (n - size) (On i); Tile q size Loose] T2 L max p (p + n * c)); [done|done|by left| |done| | | | | |].
  - cbn. unfold end_. cbn. lia.
  - cbn. unfold end_. cbn. unfold q. lia.
  - intros t Ht'. unfold split_mem.
    assert (t = Tile p (n - size) (On i) \/ t = Tile q size Loose) as [->| ->] by set_solver; split; unfold end_; cbn [at_ sz st guard_of].
    + rewrite !lookup_insert_ne by lia. done.
    + intros _. rewrite !lookup_insert_ne by lia. by rewrite lookup_insert_eq.
    + replace (p + (n - size) * c - 8) with (q - 8) by (unfold q; lia). rewrite !lookup_insert_ne by lia. by rewrite lookup_insert_eq.
    + by rewrite lookup_insert_eq.
    + intros _. rewrite !lookup_insert_ne by lia. by rewrite lookup_insert_eq.
    + rewrite Eq, !lookup_insert_ne by lia. done.
  - intros x Hx. unfold split_mem. rewrite !lookup_insert_is_Some'. tauto.
  - intros x Hx. unfold split_mem. rewrite !lookup_insert_ne by lia. done.
  - intros j r. split; intros [y Hy].
    + assert (Tile r y (On j) = Tile p n (On i)) as [= -> -> ->] by set_solver. exists (n - size). set_solver.
    + assert (Tile r y (On j) = Tile p (n - size) (On i)) as [= -> -> ->] by set_solver. exists n. set_solver.
  - intros j r y Hy. assert (Tile r y (On j) = Tile p n (On i)) as [= -> -> ->] by set_solver.
    unfold split_mem. rewrite !lookup_insert_ne by lia. done.
Qed.

(** The block leaves its list, and goes on the list of its new size. *)
Lemma relist_spec T1 p n i T2 L max s (k : M tx Z) Q :
  held g 0 A (T1 ++ Tile p n (On i) :: T2) L max s -> err s = 0 ->
  (forall s', evolves keep s s' -> 0 < err s' <= top_code -> Q 0 s') ->
  (forall s' L', evolves keep s s' -> held g 0 A (T1 ++ Tile p n (On (lidx max n)) :: T2) L' max s' -> err s' = 0 -> wp k Q s') ->
  wp (rm_from_list (list_cell g i) p ;;!
      let! e := get_err in
      if negb (e =? 0) then ret 0 else
      put_block p ;;!
      let! e := get_err in
      if negb (e =? 0) then ret 0 else k) Q s.
Proof using Hg.
  intros H He H1 H2. pose proof (h_rep H) as R. assert (Tile p n (On i) ∈ T1 ++ Tile p n (On i) :: T2) as Ht by apply in_mid.
  pose proof (r_index R _ _ _ Ht) as Hi. pose proof (r_chain R) as Hch. pose proof (chunk_40 _ Hg) as Hc.
  pose proof (tile_bounds Hg R _ Ht) as (Hlo & _). cbn in Hlo. pose proof (lo_above _ Hg).
  assert (p ∈ L i) as Hp by (apply (r_on R); by exists n). apply list_elem_of_split in Hp as (l1 & l2 & EL).
  apply wp_bind. eapply wp_mono; [by apply (rm_from_list_spec g Hg 0 _ _ _ _ _ H i l1 p l2 Hi EL)|]. intros _ s1 [E1 [He1|(He1 & _ & Hs1)]].
  - apply wp_bind, (wp_get_err (err s1)); [done|]. destruct (Z.eqb_spec (err s1) 0); [lia|]. apply wp_ret. auto.
  - apply wp_bind, (wp_get_err 0); [done|]. cbn [Z.eqb negb]. rewrite (setst_mid _ Hc _ _ _ _ _ _ _ _ Hch) in Hs1.
    apply wp_bind. eapply wp_mono; [eapply (put_block_spec g Hg 0 _ _ _ _ _ Hs1 p n); [apply in_mid|lia|done]|].
    intros _ s2 [E2 [He2|(He2 & Hs2)]]; apply wp_bind.
    + apply (wp_get_err (err s2)); [done|]. destruct (Z.eqb_spec (err s2) 0); [lia|]. apply wp_ret. apply H1; [evo|done].
    + apply (wp_get_err 0); [done|]. cbn [Z.eqb negb]. pose proof (r_chain (h_rep Hs1)) as Hch1.
      rewrite (setst_mid _ Hc _ _ _ _ _ _ _ _ Hch1) in Hs2. eapply H2; [evo|exact Hs2|done].
Qed.

Lemma tile_small dirty m T L max t : heap_rep g dirty m T L max -> t ∈ T -> sz t < 2 ^ 30.
Proof using Hg.
  intros R Ht. pose proof (tile_bounds Hg R t Ht) as (Hlo & _ & Hb & _). unfold end_, top in Hb. pose proof (chunk_40 _ Hg).
  assert (g_n g < 2 ^ 30) by (apply (geo_n g Hg)). nia.
Qed.

Lemma held_retile (T T' : list tile) L max s s' :
  held g 0 A T L max s -> evolves keep s s' -> heap_rep g 0 (mem s') T' L max -> allocs T' = allocs T -> held g 0 A T' L max s'.
Proof. intros H E R HA. eapply held_step; [exact H|exact E|exact R|]. rewrite HA. apply (h_allocs H). Qed.

(** After the new block has been cut off. *)
Lemma split_finish T1 p n q i T2 L max s :
  held g 0 A (T1 ++ Tile p n (On i) :: Tile q size Loose :: T2) L max s -> err s = 0 ->
  complete (T1 ++ T2) -> classed max (T1 ++ T2) -> (max <= n -> i = max) ->
  wp (let! n1 := ld (p + off_size) in
      let! max := RDS_MAXLIST in
      if n1 <? max then
        rm_from_list (list_cell g i) p ;;!
        let! e := get_err in
        if negb (e =? 0) then ret 0 else
        put_block p ;;!
        let! e := get_err in
        if negb (e =? 0) then ret 0 else
        set_err 0 ;;! ret q
      else set_err 0 ;;! ret q)
    (fun r s' => evolves keep s s' /\ ((r = 0 /\ 0 < err s' <= top_code) \/ given r s')) s.
Proof using Hg Hsize.
  intros H He Hcm Hcl Hi. pose proof (h_rep H) as R. pose proof (in_mid T1 (Tile p n (On i)) (Tile q size Loose :: T2)) as Ht.
  pose proof (tile_bounds Hg R _ Ht) as (Hlo & _). cbn in Hlo. pose proof (lo_above _ Hg).
  apply wp_bind, (wp_ld _ n); [apply (tm_size (r_tiles R _ Ht)); cbn; lia|].
  apply wp_bind, (wp_hdr g _ max); [apply (h_start H)|apply (r_max R)|].
  assert (forall s1 L1, evolves keep s s1 -> held g 0 A (T1 ++ Tile p n (On (lidx max n)) :: Tile q size Loose :: T2) L1 max s1 ->
    wp (set_err 0 ;;! ret q) (fun r s' => evolves keep s s' /\ ((r = 0 /\ 0 < err s' <= top_code) \/ given r s')) s1) as Hend.
  { intros s1 L1 E1 H1. apply wp_bind, (wp_set_err keep). intros s2 E2 M2 He2. apply wp_ret. split; [evo|]. right.
    exists max, (T1 ++ [Tile p n (On (lidx max n))]), T2, L1. rewrite <- !app_assoc. cbn [app].
    split; [by eapply held_same|]. split; [|split; [|done]].
    - intros t Ht'. rewrite elem_of_app, elem_of_cons in Ht'. destruct Ht' as [?|[->|?]]; [|done|]; apply Hcm; set_solver.
    - intros r k j Ht'. rewrite elem_of_app, elem_of_cons in Ht'. destruct Ht' as [?|[[= -> -> ->]|?]]; [|done|]; apply (Hcl r); set_solver. }
  destruct (Z.ltb_spec n max) as [Hlt|Hge].
  - eapply relist_spec; [exact H|done|auto|]. intros s1 L1 E1 H1 He1. by eapply Hend.
  - eapply (Hend s L); [done|]. replace (lidx max n) with i; [done|]. rewrite Hi by lia. unfold lidx. destruct (Z.leb_spec max n); lia.
Qed.

Lemma split_block_spec max T1 p n i T2 L s :
  heap_inv max (T1 ++ Tile p n (On i) :: T2) L s -> size <= n ->
  wp (split_block size i p) (fun r s' => evolves keep s s' /\ ((r = 0 /\ 0 < err s' <= top_code) \/ given r s')) s.
Proof using Hg Hsize.
  intros V Hn. pose proof (v_held V) as H. pose proof (h_rep H) as R. pose proof (in_mid T1 (Tile p n (On i)) T2) as Ht.
  pose proof (r_index R _ _ _ Ht) as Hi. pose proof (r_chain R) as Hch. pose proof (chunk_40 _ Hg) as Hc. pose proof (v_err V) as He.
  pose proof (tile_bounds Hg R _ Ht) as (Hlo & _ & Hb & _). unfold end_ in Hb. cbn [at_ sz] in Hlo, Hb. pose proof (lo_above _ Hg).
  pose proof (tile_small _ _ _ _ _ _ R Ht) as Hn30. cbn in Hn30.
  pose proof (complete_drop _ _ _ (v_complete V)) as Hcm. pose proof (classed_drop _ _ _ _ (v_classed V)) as Hcl.
  unfold split_block. apply wp_bind, (wp_ld _ n); [apply (tm_size (r_tiles R _ Ht)); cbn; lia|]. rewrite u64_size.
  apply wp_bind, wp_massert; [destruct (Z.eqb_spec p 0), (Z.leb_spec size n); lia|].
  apply wp_bind, (wp_free_list g); [apply (h_start H)|]. destruct (Z.eqb_spec size n) as [<-|Hne].
  - assert (p ∈ L i) as Hp by (apply (r_on R); by exists size). apply list_elem_of_split in Hp as (l1 & l2 & EL).
    apply wp_bind. eapply wp_mono; [by apply (rm_from_list_spec g Hg 0 _ _ _ _ _ H i l1 p l2 Hi EL)|]. intros _ s1 [E1 [He1|(He1 & _ & H1)]]; apply wp_bind.
    + apply (wp_get_err (err s1)); [done|]. destruct (Z.eqb_spec (err s1) 0); [lia|]. apply wp_ret. auto.
    + apply (wp_get_err 0); [done|]. apply wp_ret. split; [done|]. right. rewrite (setst_mid _ Hc _ _ _ _ _ _ _ _ Hch) in H1.
      by exists max, T1, T2, (upd L i (l1 ++ l2)).
  - assert (u64 (n - size) = n - size) as -> by (apply uwrap_small; lia). rewrite swrap_small by lia.
    apply wp_bind, wp_massert; [destruct (Z.ltb_spec 0 (n - size)); lia|].
    apply wp_bind, (wp_hdr g _ c); [apply (h_start H)|apply (r_chunk R)|].
    destruct (extent_small g Hg (n - size)) as [-> ->]; [lia|nia|]. set (q := p + (n - size) * c).
    assert (p + 40 <= q /\ q + 40 <= p + n * c) as [Hq1 Hq2] by (unfold q; nia).
    assert (forall x, p <= x < p + n * c -> ~ keep x) as Hk.
    { intros x Hx. eapply (free_not_kept g Hg 0); [exact H|exact Ht|done|]. unfold end_. cbn. lia. }
    assert (exists j, 0 <= j /\ q = p + 8 * j) as (j & Hj & Eq).
    { destruct (geo_word g Hg) as [k Hk']. exists ((n - size) * k). unfold q. rewrite Hk'. split; nia. }
    assert (forall k, 0 <= j + k -> q + 8 * k <= p + n * c -> is_Some (mem s !! (q + 8 * k))) as Hq.
    { intros k Hk0 Hk1. replace (q + 8 * k) with (p + 8 * (j + k)) by lia. apply (tile_cell Hg R _ (j + k) Ht); unfold end_; cbn; lia. }
    apply (wp_announce keep); [apply (h_live H)|auto|]. intros s1 E1 M1 He1 C1.
    apply wp_bind, (wp_store keep); [rewrite M1; eexists; apply (tm_size (r_tiles R _ Ht)); cbn; lia|apply C1; lia|apply Hk; lia|]. intros s2 E2 M2 He2.
    apply wp_bind. unfold BLOCK_END, NEXT_CONSECUTIVE_BLOCK.
    apply wp_bind, wp_bind, (wp_ld _ (n - size)); [by rewrite M2, lookup_insert_eq|].
    assert (start s2 = b) as Hst2 by (rewrite (ev_start keep s s2) by evo; apply (h_start H)).
    apply wp_bind, (wp_hdr g _ c); [done|rewrite M2, M1, lookup_insert_ne by lia; apply (r_chunk R)|]. apply wp_ret.
    destruct (extent_small g Hg (n - size)) as [-> _]; [lia|nia|]. fold q. apply wp_ret.
    apply (wp_announce keep); [rewrite (ev_live keep s s2) by evo; apply (h_live H)|intros; split; [evo|auto]|]. intros s3 E3 M3 He3 C3.
    apply wp_bind, (wp_store keep); [rewrite <- (ev_dom keep s s3) by evo; apply (Hq (-1)); lia|apply C3; lia|apply Hk; lia|]. intros s4 E4 M4 He4.
    apply (wp_announce keep); [rewrite (ev_live keep s s4) by evo; apply (h_live H)|intros; split; [evo|auto]|]. intros s5 E5 M5 He5 C5.
    apply wp_bind, (wp_store keep); [rewrite <- (ev_dom keep s s5) by evo; apply (Hq 1); lia|apply C5; lia|apply Hk; lia|]. intros s6 E6 M6 He6.
    apply wp_bind, (wp_store keep); [rewrite <- (ev_dom keep s s6) by evo; apply (Hq 0); lia|apply (ev_cover _ _ _ E6), C5; lia|apply Hk; lia|]. intros s7 E7 M7 He7.
    assert (held g 0 A (T1 ++ Tile p (n - size) (On i) :: Tile q size Loose :: T2) L max s7) as H7.
    { eapply (held_retile _ _ _ _ s s7); [exact H|evo| |by rewrite !allocs_app, !allocs_free].
      replace (mem s7) with (split_mem (mem s) p q (n - size)) by (unfold split_mem; congruence). apply rep_split; [exact R|lia]. }
    eapply wp_mono; [eapply split_finish; [exact H7|congruence|done|done|]|].
    + intros Hge. rewrite (v_classed V _ _ _ Ht). unfold lidx. destruct (Z.leb_spec max n); lia.
    + intros r s' [E' Hr]. split; [evo|done].
Qed.

Lemma split_retry_spec max T L s :
  heap_inv max T L s -> (L max <> [] \/ max <= size) ->
  wp (split_retry size) (fun r s' => s' = s /\ match r with
    | None => max <= size /\ (forall t, t ∈ T -> st t <> Allocd -> sz t < size)
    | Some (i, p) => exists n, Tile p n (On i) ∈ T /\ size <= n
    end) s.
Proof using Hg Hsize.
  intros V HJ. pose proof (v_held V) as H. pose proof (h_rep H) as R. pose proof (r_max_le R) as Hm.
  unfold split_retry. apply wp_bind. eapply wp_mono; [by eapply split_list_spec|]. intros i s' [-> Hi].
  assert (1 <= i <= nl) as Hir by lia.
  apply wp_bind, (wp_list_head g _ (first (L i))); [apply (h_start H)|by apply (r_head R)|].
  apply wp_bind. eapply wp_mono; [by eapply best_fit_spec|]. intros bp s' [-> Hfit]. apply wp_ret.
  assert (forall p, p ∈ L i -> exists n, Tile p n (On i) ∈ T /\ i = lidx max n) as HL.
  { intros p Hp. apply (r_on R) in Hp as [n Hn]. exists n. split; [done|]. by apply (v_classed V p). }
  destruct Hfit as [[-> Hall]|(Hbp & n & Hn & Hle)].
  - split; [done|]. cbn [Z.eqb].
    assert (i = max) as ->.
    { destruct Hi as [?|[Hi Hne]]; [done|]. apply first_in in Hne. destruct (HL _ Hne) as (n & Hn & E).
      specialize (Hall _ _ Hne Hn). unfold lidx in E. destruct (Z.leb_spec max n); lia. }
    assert (max <= size) as Hms.
    { destruct HJ as [Hne|?]; [|done]. apply first_in in Hne. destruct (HL _ Hne) as (n & Hn & E).
      specialize (Hall _ _ Hne Hn). unfold lidx in E. destruct (Z.leb_spec max n); lia. }
    split; [done|]. intros t Ht Hs. pose proof (on_class _ _ _ (v_complete V) (v_classed V) Ht Hs) as E. destruct t as [p n w]. cbn in *. subst w.
    unfold lidx in Ht. destruct (Z.leb_spec max n); [|lia]. apply (Hall p n); [|done]. apply (r_on R). by exists n.
  - split; [done|]. pose proof (on_pos g Hg 0 _ _ _ _ _ H _ _ Hbp). destruct (Z.eqb_spec bp 0); [lia|]. by exists n.
Qed.

(** What split and get_block promise. *)
Definition taken (s : rds tx) (r : Z) (s' : rds tx) : Prop :=
  evolves keep s s' /\ ((r = 0 /\ 0 < err s' <= top_code) \/ (r = 0 /\ err s' = ENO_ROOM /\ no_room g A size) \/ given r s').

Lemma split_prepare_spec max T L s :
  heap_inv max T L s -> wp (split_prepare size) (fun r s' => evolves keep s s' /\ ((r = true /\ 0 < err s' <= top_code) \/
    (r = false /\ exists max' T' L', heap_inv max' T' L' s' /\ (L' max' <> [] \/ max' <= size)))) s.
Proof using Hg Hsize.
  intros V. pose proof (v_held V) as H. pose proof (h_rep H) as R. pose proof (r_max_le R) as Hm.
  unfold split_prepare. apply wp_bind, (wp_hdr g _ max); [apply (h_start H)|apply (r_max R)|].
  apply wp_bind, (wp_list_head g _ (first (L max))); [apply (h_start H)|by apply (r_head R)|].
  pose proof (first_zero g Hg 0 _ _ _ _ _ H max [] (L max) eq_refl) as Hz. destruct (Z.eqb_spec (first (L max)) 0) as [Hf|Hf]; cbn [negb].
  2:{ apply wp_ret. split; [done|]. right. split; [done|]. exists max, T, L. split; [done|]. left. tauto. }
  apply wp_bind, (wp_get_start b); [apply (h_start H)|]. apply (wp_announce keep); [apply (h_live H)|auto|]. intros s1 E1 M1 He1 C1.
  eapply wp_bind, wp_add_stat; [done|by eapply held_same|eapply stats_covered_step; [done|apply (v_stats V)]|]. intros s2 E2 H2 He2.
  assert (heap_inv max T L s2) as V2.
  { eapply heap_inv_step; [exact V|evo|exact H2|apply (v_complete V)|apply (v_classed V)|rewrite He2, He1; apply (v_err V)]. }
  rewrite u64_size. apply wp_bind. eapply wp_mono; [eapply lower_maxlist_spec; [done|lia|exact V2|]|].
  { intros x Hx. apply (ev_cover _ _ _ E2), C1. lia. }
  intros _ s3 (E3 & m3 & V3 & Hle & Hor & Hor'). pose proof (v_held V3) as H3. pose proof (h_rep H3) as R3. pose proof (r_max_le R3).
  apply wp_bind, (wp_hdr g _ m3); [apply (h_start H3)|apply (r_max R3)|].
  apply wp_bind, (wp_list_head g _ (first (L m3))); [apply (h_start H3)|by apply (r_head R3)|].
  pose proof (first_zero g Hg 0 _ _ _ _ _ H3 m3 [] (L m3) eq_refl) as Hz3. destruct (Z.eqb_spec (first (L m3)) 0) as [Hf3|Hf3]; cbn [negb].
  - apply wp_bind. eapply wp_mono; [by eapply coalesce_spec|]. intros _ s4 [E4 [He4|(m4 & T4 & L4 & V4 & _ & Hm4)]].
    + apply wp_bind, (wp_get_err (err s4)); [done|]. destruct (Z.eqb_spec (err s4) 0); [lia|]. apply wp_ret. split; [evo|]. by left.
    + apply wp_bind, (wp_get_err 0); [apply (v_err V4)|]. apply wp_ret. split; [evo|]. right. split; [done|]. exists m4, T4, L4. split; [done|].
      assert (m3 <= size) by tauto. destruct Hm4 as [?|[?| ->]]; [by left|right; lia|by right].
  - apply wp_ret. split; [evo|]. right. split; [done|]. exists m3, T, L. split; [done|]. left. tauto.
Qed.

Lemma split_spec max T L s : heap_inv max T L s -> wp (split size) (taken s) s.
Proof using Hg Hsize.
  intros V. unfold split. apply wp_bind. eapply wp_mono; [by eapply split_prepare_spec|].
  intros r s1 [E1 [[-> He1]|(-> & m1 & T1 & L1 & V1 & HJ)]]; [apply wp_ret; split; [done|by left]|].
  assert (forall m2 T2 L2 s2 i p n, evolves keep s s2 -> heap_inv m2 T2 L2 s2 -> Tile p n (On i) ∈ T2 -> size <= n -> wp (split_block size i p) (taken s) s2) as Hblk.
  { intros m2 T2 L2 s2 i p n E2 V2 Ht Hle. apply list_elem_of_split in Ht as (Ta & Tb & ->).
    eapply wp_mono; [by eapply split_block_spec|]. intros r s3 [E3 Hr]. split; [evo|tauto]. }
  apply wp_bind. eapply wp_mono; [by eapply split_retry_spec|]. intros [[i p]|] s' [-> Hr].
  - destruct Hr as (n & Ht & Hle). by eapply Hblk.
  - destruct Hr as [Hms _]. apply wp_bind. eapply wp_mono; [by eapply coalesce_spec|]. intros _ s2 [E2 [He2|(m2 & T2 & L2 & V2 & Hn & Hm2)]].
    + apply wp_bind, (wp_get_err (err s2)); [done|]. destruct (Z.eqb_spec (err s2) 0); [lia|]. apply wp_ret. split; [evo|by left].
    + apply wp_bind, (wp_get_err 0); [apply (v_err V2)|]. cbn [Z.eqb negb].
      apply wp_bind. eapply wp_mono; [eapply split_retry_spec; [exact V2|]|].
      { destruct Hm2 as [?|[?| ->]]; [by left|right; lia|by right]. }
      intros [[i p]|] s' [-> Hr]; [destruct Hr as (n & Ht & Hle); by eapply Hblk; [evo|..]|].
      destruct Hr as [_ Hall]. apply wp_bind, (wp_set_err keep). intros s3 E3 M3 He3. apply wp_ret. split; [evo|]. right. left.
      split; [done|]. split; [done|]. rewrite <- (h_allocs (v_held V2)).
      apply normal_no_room; [done|apply (r_chain (h_rep (v_held V2)))|done|done|lia].
Qed.

Lemma get_block_spec max T L s : heap_inv max T L s -> wp (get_block size) (taken s) s.
Proof using Hg Hsize.
  intros V. pose proof (v_held V) as H. pose proof (h_rep H) as R. pose proof (r_max_le R) as Hm.
  assert (nl < 2 ^ 30) as Hnl by (pose proof (geo_nl g Hg); lia).
  unfold get_block. apply wp_bind, (wp_hdr g _ max); [apply (h_start H)|apply (r_max R)|]. rewrite u64_size.
  set (i := if max <=? size then max else size). assert (1 <= i <= max) as Hi by (unfold i; destruct (Z.leb_spec max size); lia).
  rewrite swrap_small by lia. rewrite (uwrap_small 64 i) by lia.
  apply wp_bind, (wp_list_guard g _ FREE_LIST_GUARD); [apply (h_start H)|apply (r_guard R); lia|]. rewrite Z.eqb_refl. cbn [negb].
  apply wp_bind, (wp_list_head g _ (first (L i))); [apply (h_start H)|apply (r_head R); lia|].
  assert (forall k (Q : unit -> rds tx -> Prop), (forall s1, evolves keep s s1 -> heap_inv max T L s1 -> Q tt s1) ->
    wp (if i <? max then add_stat (fst k) 1 else add_stat (snd k) 1) Q s) as Hstat.
  { intros k Q HQ. assert (forall j, wp (add_stat j 1) Q s) as Hj; [|by destruct (i <? max)]. intros j.
    eapply wp_add_stat; [done|exact H|apply (v_stats V)|]. intros s1 E1 H1 He1. apply HQ; [done|].
    eapply heap_inv_step; [exact V|done|exact H1|apply (v_complete V)|apply (v_classed V)|rewrite He1; apply (v_err V)]. }
  apply wp_bind. apply (wp_mono _ (fun miss s' => s' = s /\ (miss = false -> exists p l, L i = p :: l /\ Tile p size (On i) ∈ T))).
  { pose proof (first_zero g Hg 0 _ _ _ _ _ H i [] (L i) eq_refl) as Hz. destruct (Z.eqb_spec (first (L i)) 0) as [Hf|Hf]; [by apply wp_ret|].
    destruct (L i) as [|p l] eqn:EL; [done|]. cbn [first] in *. assert (p ∈ L i) as Hp by (rewrite EL; apply list_elem_of_here).
    apply (r_on R) in Hp as [n Hn]. apply wp_bind, (wp_ld _ n); [by apply (tm_size (r_tiles R _ Hn))|]. apply wp_ret.
    split; [done|]. destruct (Z.eqb_spec n size) as [->|]; [|done]. intros _. by exists p, l. }
  intros miss s' [-> Hhit]. destruct miss; apply wp_bind.
  - apply (Hstat (s_misses, s_large_misses)). intros s1 E1 V1. eapply wp_mono; [by eapply split_spec|]. intros r s2 [E2 Hr]. split; [evo|done].
  - apply (Hstat (s_hits, s_large_hits)). intros s1 E1 V1. destruct (Hhit eq_refl) as (p & l & EL & Ht). pose proof (v_held V1) as H1.
    apply wp_bind, (wp_free_list g); [apply (h_start H1)|].
    eapply wp_mono; [eapply (dequeue_spec g Hg 0 _ _ _ _ _ H1 i p l); [lia|done]|].
    intros r s2 [E2 [[-> He2]|(-> & He2 & M2)]]; (split; [evo|]); [by left|]. right. right.
    apply list_elem_of_split in Ht as (T1 & T2 & ->). exists max, T1, T2, (upd L i l).
    split; [|split; [eapply complete_drop, (v_complete V)|split; [eapply classed_drop, (v_classed V)|done]]].
    eapply (held_step g 0 _ _ _ _ _ _ _ keep s1 s2); [exact H1|done| |].
    + rewrite M2, <- (setst_mid c (chunk_40 _ Hg) p Loose lo T1 size (On i) T2 (top g) (r_chain R)).
      apply (rep_remove g Hg 0 _ _ _ _ (h_rep H1) i [] p l); [lia|done].
    + rewrite <- (h_allocs H1), !allocs_app, !allocs_free; done.
Qed.

End Split.
End RdsAlloc.
