(* ===== verification/RdsApi.v ===== *)
(** * The recoverable heap: entry points

    rds_malloc and rds_free with a transaction of their own or with the caller's:
    they do what they should or leave the heap as it was. *)
From Stdlib Require Import ZArith Lia.
From stdpp Require Import base list numbers gmap.
From S2P Require Import Prelude.
From S2P Require Import RdsMem.
From S2P Require Import Rds.
From S2P Require Import RdsHeap.
From S2P Require Import RdsLists.
From S2P Require Import RdsMerge.
From S2P Require Import RdsCoalesce.
From S2P Require Import RdsAlloc.
Import RdsMem Rds RdsHeap RdsLists RdsMerge RdsCoalesce RdsAlloc.
Open Scope Z_scope.

Module RdsApi.

Section Api.
Context {tx : Type} `{!RVM tx, !RVMLaws tx}.
Context (g : geometry) (Hg : geo_ok g).
Abbreviation b := (g_base g).
Abbreviation c := (g_chunk g).
Abbreviation nl := (g_nl g).
Abbreviation lo := (g_lo g).
Implicit Types s : rds tx.

(** The heap between calls: [A] are the allocated blocks. *)
Definition heap_ok (A : list tile) (s : rds tx) : Prop := exists T L max,
  heap_rep g 0 (mem s) T L max /\ complete T /\ classed max T /\ allocs T = A /\ start s = b /\ top g - c < high s <= top g.

(** In a transaction that belongs to the caller an error leaves a state from which
    the caller's abort brings back the old one; otherwise the heap is unchanged. *)
Definition undone (A : list tile) (tid : bool) (s s' : rds tx) : Prop :=
  if tid then evolves (in_allocs c A) s s' else mem s' = mem s /\ start s' = start s /\ high s' = high s.

Section Call.
Context (A : list tile) (tid : bool) (s : rds tx).
Abbreviation keep := (in_allocs c A).

Lemma abort_tid_spec s1 :
  tid_live s = true -> (tid = false -> logged (mem s) s) -> evolves keep s s1 ->
  wp (abort_tid tid) (fun _ s' => undone A tid s s' /\ err s' = err s1) s1.
Proof.
  intros Hl Hlog E. unfold abort_tid, undone. destruct tid; [by apply wp_ret|].
  apply (ev_logged _ _ _ E) in Hlog as [Hs Ha]; [|done]. pose proof (abort_law _ _ _ Hs Ha) as Hm.
  assert (tid_live s1 = true) as Hl1 by (by rewrite (ev_live _ _ _ E)).
  apply wp_bind. unfold wp, rvm_abort_transaction, on_tid. rewrite Hl1. destruct (abort_transaction (mem s1) (rvm s1)) as [m t]. cbn in Hm. subst m.
  eexists tt, _. split; [done|]. unfold rvm_free_tid, on_tid. cbn. rewrite Hl1. eexists _, _. split; [done|]. cbn.
  rewrite (ev_start _ _ _ E), (ev_high _ _ _ E). done.
Qed.

Lemma heap_inv_ok max T L s1 : heap_inv g A max T L s1 -> heap_ok A s1.
Proof.
  intros V. pose proof (v_held V) as H. exists T, L, max. split; [apply (h_rep H)|]. split; [apply (v_complete V)|]. split; [apply (v_classed V)|].
  split; [apply (h_allocs H)|]. split; [apply (h_start H)|apply (h_high H)].
Qed.

End Call.

(** The allocator's transaction, or the caller's. *)
Lemma open_tid_spec A tid s Q :
  heap_ok A s -> (tid = true -> tid_live s = true) ->
  (forall s', mem s' = mem s -> start s' = start s -> high s' = high s -> tid = false -> 0 < err s' <= top_code -> Q false s') ->
  (forall s', mem s' = mem s -> start s' = start s -> high s' = high s -> tid_live s' = true ->
     (if tid then s' = s else logged (mem s') s') -> Q true s') ->
  wp (open_tid tid) Q s.
Proof.
  intros _ Hl H1 H2. unfold open_tid. destruct tid; [apply wp_ret; auto|].
  apply wp_bind. eexists tt, _. split; [done|]. apply wp_bind. unfold wp, rvm_begin_transaction, on_tid. cbn.
  destruct (begin_transaction (rvm s)) as [r t] eqn:E. eexists r, _. split; [done|]. cbn. destruct (Z.eqb_spec r 0) as [->|Hr].
  - apply wp_ret. apply H2; try done. split; cbn; [by destruct (begin_law _ _ (mem s) E)|]. intros x Hx. done.
  - pose proof (begin_code _ _ _ E). apply wp_bind. eexists tt, _. split; [done|]. apply wp_bind.
    eexists tt, _. split; [done|]. apply wp_ret. apply H1; try done. cbn. lia.
Qed.

(** The block at [p] is new: [k] chunks, in nobody's hands before. *)
Definition new_block (A : list tile) (k p : Z) (s s' : rds tx) : Prop :=
  exists A', A' ≡ₚ Tile p k Allocd :: A /\ heap_ok A' s' /\ start s' = start s /\ high s' = high s /\
    (forall x, in_allocs c A x -> mem s' !! x = mem s !! x).

(** The outcomes of rds_malloc for [k] chunks. *)
Definition malloc_post (A : list tile) (tid : bool) (k : Z) (s : rds tx) (r : Z) (s' : rds tx) : Prop :=
  (err s' = 0 /\ exists p, r = USER_BLOCK p /\ new_block A k p s s' /\ (tid = true -> evolves (in_allocs c A) s s')) \/
  (err s' = ENO_ROOM /\ r = 0 /\ no_room g A k /\ undone A tid s s') \/
  (0 < err s' <= top_code /\ r = 0 /\ (undone A tid s s' \/ (tid = false /\ exists p, new_block A k p s s'))).

Lemma rep_give m T1 p k T2 L max :
  heap_rep g 0 m (T1 ++ Tile p k Loose :: T2) L max ->
  heap_rep g 0 (<[p + off_prev := 0]> (<[p + off_next := 0]> (<[p + off_type := ALLOC_GUARD]> m))) (T1 ++ Tile p k Allocd :: T2) L max.
Proof using Hg.
  intros R. pose proof (in_mid T1 (Tile p k Loose) T2) as Ht. destruct (r_tiles R _ Ht) as [h1 h2 h3].
  pose proof (tile_bounds Hg R _ Ht) as (Hlo & Hb & _ & Hk). unfold end_ in *. cbn [at_ sz st] in *. pose proof (chunk_40 _ Hg). pose proof (lo_above _ Hg).
  apply (rep_retile g 0 m _ T1 [Tile p k Loose] [Tile p k Allocd] T2 L max p (p + k * c)); [done|done|by left| |done| | | | | |].
  - cbn. unfold end_. cbn. lia.
  - cbn. unfold end_. cbn. lia.
  - intros t Ht'. assert (t = Tile p k Allocd) as -> by set_solver. split; unfold end_; cbn [at_ sz st guard_of].
    + rewrite !lookup_insert_ne by lia. by rewrite lookup_insert_eq.
    + intros _. rewrite !lookup_insert_ne by lia. apply h2. lia.
    + rewrite !lookup_insert_ne by lia. done.
  - intros x Hx. rewrite !lookup_insert_is_Some'. tauto.
  - intros x Hx. rewrite !lookup_insert_ne by lia. done.
  - intros i q. split; intros [y Hy]; set_solver.
  - intros i q y Hy. set_solver.
Qed.

Lemma wp_range keep a n Q s :
  tid_live s = true ->
  (forall e s', evolves keep s s' -> mem s' = mem s -> err s' = err s -> 0 < e <= top_code -> Q e s') ->
  (forall s', evolves keep s s' -> mem s' = mem s -> err s' = err s -> (forall x, a <= x < a + n -> covered s' x) -> Q 0 s') ->
  wp (rvm_set_range a n) Q s.
Proof.
  intros Hl H1 H2. apply wp_set_range; [done|]. intros e t E. pose proof (set_range_code _ _ _ _ _ _ E).
  destruct (decide (e = 0)) as [->|He].
  - apply H2; try done; [by eapply evolves_range|]. intros x Hx. by eapply covered_range.
  - apply H1; try done; [by eapply evolves_range|lia].
Qed.

Lemma heap_ok_same A s s' : heap_ok A s -> mem s' = mem s -> start s' = start s -> high s' = high s -> heap_ok A s'.
Proof. intros (T & L & max & H) Em Es Eh. exists T, L, max. by rewrite Em, Es, Eh. Qed.

(** In a transaction, with the counters announced, the heap invariant holds. *)
Lemma heap_ok_inv A s : heap_ok A s -> tid_live s = true -> stats_covered g s -> err s = 0 -> exists T L max, heap_inv g A max T L s.
Proof. intros (T & L & max & R & Hcm & Hcl & HA & Hst & Hhi) Hl Hs He. exists T, L, max. by split. Qed.

Lemma wp_set_err_ret {X} e (r : X) Q s : Q r (with_err s e) -> wp (set_err e ;;! ret r) Q s.
Proof. intros HQ. apply wp_bind. eexists tt, _. split; [done|]. by apply wp_ret. Qed.

Lemma malloc_take_spec A tid k s s1 p :
  1 <= k < 2 ^ 30 -> tid_live s = true -> (tid = false -> logged (mem s) s) -> evolves (in_allocs c A) s s1 -> given g A k p s1 ->
  wp (malloc_take tid p k) (malloc_post A tid k s) s1.
Proof using Hg.
  intros Hk Hl Hlog E1 (max & T1 & T2 & L & H1 & Hcm & Hcl & He1). pose proof (h_rep H1) as R1. pose proof (in_mid T1 (Tile p k Loose) T2) as Ht.
  set (keep := in_allocs c A) in *. pose proof (tile_bounds Hg R1 _ Ht) as (Hlo & Hb & Hb' & _). unfold end_ in Hb, Hb'. cbn [at_ sz] in *. pose proof (chunk_40 _ Hg). pose proof (lo_above _ Hg).
  assert (forall x, p <= x < p + 32 -> ~ keep x) as Hkp.
  { intros x Hx. eapply (free_not_kept g Hg 0); [exact H1|exact Ht|done|]. unfold end_. cbn. lia. }
  unfold malloc_take. apply wp_bind, (wp_ld _ k); [apply (tm_size (r_tiles R1 _ Ht)); cbn; lia|].
  apply wp_bind, wp_massert; [rewrite uwrap_small by lia; by apply Z.eqb_eq|].
  apply wp_bind, (wp_ld _ _ _ _ (tm_type (r_tiles R1 _ Ht))).
  eapply wp_bind, wp_block_end; [done|exact H1|exact Ht|lia|].
  apply wp_bind, (wp_ld _ _ _ _ (tm_end (r_tiles R1 _ Ht))). apply wp_bind, wp_massert; [done|].
  apply wp_bind, (wp_range keep); [apply (h_live H1)| |].
  { intros e s2 E2 M2 He2 Hpos. destruct (Z.eqb_spec e 0); [lia|]. cbn [negb]. apply wp_bind.
    eapply wp_mono; [apply (abort_tid_spec A tid s s2 Hl Hlog ltac:(evo))|]. intros _ s3 [Hu _]. apply wp_set_err_ret.
    right. right. cbn. split; [done|]. split; [done|]. left. unfold undone in *. destruct tid; [|done].
    etransitivity; [exact Hu|apply evolves_err]. }
  intros s2 E2 M2 He2 C2. cbn [Z.eqb negb].
  apply wp_bind, (wp_store keep); [rewrite M2; eexists; apply (tm_type (r_tiles R1 _ Ht))|apply C2; lia|apply Hkp; lia|]. intros s3 E3 M3 He3.
  apply wp_bind, (wp_store keep); [rewrite <- (ev_dom keep s1 s3) by evo; apply (tile_cell Hg R1 _ 3 Ht); unfold end_; cbn; lia|apply (ev_cover keep s2 s3 ltac:(evo)), C2; lia|apply Hkp; lia|]. intros s4 E4 M4 He4.
  apply wp_bind, (wp_store keep); [rewrite <- (ev_dom keep s1 s4) by evo; apply (tile_cell Hg R1 _ 2 Ht); unfold end_; cbn; lia|apply (ev_cover keep s2 s4 ltac:(evo)), C2; lia|apply Hkp; lia|]. intros s5 E5 M5 He5.
  assert (evolves keep s s5) as E05 by evo.
  assert (forall s', mem s' = mem s5 -> start s' = start s5 -> high s' = high s5 -> new_block A k p s s') as Hnew.
  { intros s' Em Es Eh. exists (allocs (T1 ++ Tile p k Allocd :: T2)). split; [|split; [|split; [|split]]].
    - rewrite <- (h_allocs H1), !allocs_app. unfold allocs at 2 4. rewrite filter_cons_True, filter_cons_False by done.
      symmetry. apply Permutation_middle.
    - exists (T1 ++ Tile p k Allocd :: T2), L, max. rewrite Em, M5, M4, M3, M2.
      split; [by apply rep_give|]. split; [|split; [|split; [done|]]].
      + intros t Ht'. rewrite elem_of_app, elem_of_cons in Ht'. destruct Ht' as [?|[->|?]]; [|done|]; apply Hcm; set_solver.
      + intros q n i Ht'. rewrite elem_of_app, elem_of_cons in Ht'. destruct Ht' as [?|[?|?]]; [|done|]; apply (Hcl q); set_solver.
      + rewrite Es, Eh, (ev_start keep s1 s5), (ev_high keep s1 s5) by evo. split; [apply (h_start H1)|apply (h_high H1)].
    - by rewrite Es, (ev_start _ _ _ E05).
    - by rewrite Eh, (ev_high _ _ _ E05).
    - intros x Hx. rewrite Em. by apply (ev_keep _ _ _ E05). }
  apply wp_bind. destruct tid.
  - apply wp_ret. apply wp_bind, (wp_get_err 0); [congruence|]. apply wp_ret. left. split; [congruence|]. eexists. split; [done|]. split; [by apply Hnew|done].
  - apply wp_bind. unfold wp at 1, rvm_end_transaction, on_tid. rewrite (ev_live _ _ _ E05), Hl.
    destruct (end_transaction (mem s5) (rvm s5)) as [r t] eqn:Ee. pose proof (end_code _ _ _ _ Ee). eexists r, _. split; [done|].
    apply wp_bind. eexists tt, _. split; [done|]. unfold wp at 1, rvm_free_tid, on_tid. cbn. rewrite (ev_live _ _ _ E05), Hl. eexists _, _. split; [done|].
    apply wp_bind, (wp_get_err r); [done|]. destruct (Z.eqb_spec r 0) as [->|Hr]; apply wp_ret.
    + left. split; [done|]. eexists. split; [done|]. split; [by apply Hnew|done].
    + right. right. split; [cbn; lia|]. split; [done|]. right. split; [done|]. exists p. by apply Hnew.
Qed.

(** ** rds_malloc *)
Lemma rds_malloc_spec A tid size s :
  let k := (size + 24) / c + 1 in
  heap_ok A s -> 0 <= size < 2 ^ 64 - 24 -> k < 2 ^ 30 -> (tid = true -> tid_live s = true) ->
  wp (rds_malloc size tid) (malloc_post A tid k s) s.
Proof using Hg.
  intros k Hok Hsz Hk30 Hlive. set (keep := in_allocs c A). pose proof (chunk_40 _ Hg) as Hc. pose proof (lo_above _ Hg).
  assert (1 <= k) as Hk1 by (unfold k; pose proof (Z.div_pos (size + 24) c); lia).
  pose proof Hok as (T0 & L0 & max0 & R0 & _ & _ & _ & Hst & _).
  unfold rds_malloc, HEAP_INIT. apply wp_bind, wp_bind, (wp_get_start b); [done|]. apply wp_ret.
  destruct (Z.eqb_spec b 0) as [?|_]; [lia|]. cbn [negb]. apply wp_bind, (wp_hdr g _ c); [done|apply (r_chunk R0)|].
  destruct (Z.eqb_spec c 0) as [?|_]; [lia|]. rewrite (uwrap_small 64 (size + 24)) by lia. fold k.
  rewrite (uwrap_small 64 k), (swrap_small 32 k) by lia.
  apply wp_bind, (open_tid_spec A tid); [done|done| |].
  { intros s1 M1 S1 H1 -> He1. apply wp_ret. right. right. split; [done|]. split; [done|]. left. done. }
  intros s1 M1 S1 H1 Hl1 Htx. cbn [negb]. pose proof (heap_ok_same A s s1 Hok M1 S1 H1) as Hok1.
  assert (tid = false -> logged (mem s1) s1) as Hlog1 by (intros ->; done).
  assert (forall s', undone A tid s1 s' -> undone A tid s s') as Hund.
  { unfold undone. destruct tid; [by subst s1|]. intros s' (-> & -> & ->). done. }
  assert (forall r s', malloc_post A tid k s1 r s' -> malloc_post A tid k s r s') as Hpost.
  { assert (forall p s', new_block A k p s1 s' -> new_block A k p s s') as Hnb.
    { intros p s' (A' & h1 & h2 & h3 & h4 & h5). exists A'. rewrite M1 in h5. rewrite S1 in h3. rewrite H1 in h4. done. }
    intros r s' [(? & p & ? & ? & Hev)|[(? & ? & ? & ?)|(? & ? & [?|(? & p & ?)])]]; [|right; left|right; right|right; right]; [|naive_solver..].
    left. split; [done|]. exists p. split; [done|]. split; [auto|]. intros ->. rewrite <- Htx. by apply Hev. }
  apply wp_bind, (wp_set_err keep). intros s2 E2 M2 He2.
  assert (tid_live s2 = true) as Hl2 by (by rewrite (ev_live _ _ _ E2)). assert (start s2 = b) as Hst2 by (rewrite (ev_start _ _ _ E2); congruence).
  apply wp_bind, (wp_get_start b); [done|]. apply wp_bind, (wp_range keep); [done| |].
  - intros e s3 E3 M3 He3 Hpos. destruct (Z.eqb_spec e 0); [lia|]. cbn [negb]. apply wp_bind, (wp_set_err keep). intros s4 E4 M4 He4.
    apply wp_bind. eapply wp_mono; [apply (abort_tid_spec A tid s1 s4 Hl1 Hlog1 ltac:(evo))|]. intros _ s5 [Hu He5]. apply wp_ret.
    right. right. rewrite He5, He4. auto.
  - intros s3 E3 M3 He3 C3. cbn [Z.eqb negb].
    assert (heap_ok A s3) as Hok3 by (eapply heap_ok_same; [exact Hok1|congruence|rewrite (ev_start keep s1 s3) by evo; done|rewrite (ev_high keep s1 s3) by evo; done]).
    destruct (heap_ok_inv A s3 Hok3) as (T & L & max & V); [by rewrite (ev_live _ _ _ E3)|exact C3|congruence|].
    assert (forall j v Q s', evolves keep s1 s' -> heap_inv g A max T L s' -> (forall s'', evolves keep s1 s'' -> heap_inv g A max T L s'' -> Q tt s'') -> wp (add_stat j v) Q s') as Hstat.
    { intros j v Q s' E' V' HQ. eapply wp_add_stat; [done|apply (v_held V')|apply (v_stats V')|]. intros s'' E'' H'' He''. apply HQ; [evo|].
      eapply heap_inv_step; [exact V'|done|exact H''|apply (v_complete V')|apply (v_classed V')|rewrite He''; apply (v_err V')]. }
    apply wp_bind, Hstat; [evo|done|]. intros s4 E4 V4. apply wp_bind, Hstat; [done|done|]. intros s5 E5 V5. apply wp_bind, Hstat; [done|done|]. intros s6 E6 V6.
    apply wp_bind. eapply wp_mono; [eapply get_block_spec; [done|lia|exact V6]|]. intros r s7 [E7 Hr].
    assert (evolves keep s1 s7) as E17 by evo. destruct Hr as [[-> He7]|[(-> & He7 & Hno)|Hgiven]].
    + apply wp_bind, (wp_get_err (err s7)); [done|]. destruct (Z.eqb_spec (err s7) 0); [lia|]. cbn [negb]. apply wp_bind.
      eapply wp_mono; [apply (abort_tid_spec A tid s1 s7 Hl1 Hlog1 E17)|]. intros _ s8 [Hu He8]. apply wp_ret. right. right. rewrite He8. auto.
    + apply wp_bind, (wp_get_err ENO_ROOM); [done|]. cbn [Z.eqb negb ENO_ROOM]. apply wp_bind.
      eapply wp_mono; [apply (abort_tid_spec A tid s1 s7 Hl1 Hlog1 E17)|]. intros _ s8 [Hu He8]. apply wp_ret. right. left. rewrite He8. auto.
    + apply wp_bind, (wp_get_err 0); [by destruct Hgiven as (? & ? & ? & ? & ? & ? & ? & ?)|]. cbn [Z.eqb negb].
      eapply wp_mono; [eapply (malloc_take_spec A tid k s1 s7); [lia|done|done|done|done]|]. auto.
Qed.

(** ** rds_free *)
Lemma rep_take_back m T1 p k T2 L max :
  heap_rep g 0 m (T1 ++ Tile p k Allocd :: T2) L max ->
  heap_rep g 0 (<[p + off_type := FREE_GUARD]> m) (T1 ++ Tile p k Loose :: T2) L max.
Proof using Hg.
  intros R. pose proof (in_mid T1 (Tile p k Allocd) T2) as Ht. destruct (r_tiles R _ Ht) as [h1 h2 h3].
  pose proof (tile_bounds Hg R _ Ht) as (Hlo & Hb & _ & Hk). unfold end_ in *. cbn [at_ sz st] in *. pose proof (chunk_40 _ Hg). pose proof (lo_above _ Hg).
  apply (rep_retile g 0 m _ T1 [Tile p k Allocd] [Tile p k Loose] T2 L max p (p + k * c)); [done|done|by left| |done| | | | | |].
  - cbn. unfold end_. cbn. lia.
  - cbn. unfold end_. cbn. lia.
  - intros t Ht'. assert (t = Tile p k Loose) as -> by set_solver. split; unfold end_; cbn [at_ sz st guard_of].
    + by rewrite lookup_insert_eq.
    + intros _. rewrite !lookup_insert_ne by lia. apply h2. lia.
    + rewrite !lookup_insert_ne by lia. done.
  - intros x Hx. rewrite !lookup_insert_is_Some'. tauto.
  - intros x Hx. rewrite !lookup_insert_ne by lia. done.
  - intros i q. split; intros [y Hy]; set_solver.
  - intros i q y Hy. set_solver.
Qed.

Lemma allocs_drop T1 t T2 : st t <> Allocd -> allocs (T1 ++ t :: T2) = allocs (T1 ++ T2).
Proof. intros. by rewrite !allocs_app, allocs_free. Qed.

(** The block at [p] goes back: merged with what follows and on a list. *)
Lemma put_back_spec A T1 p k T2 L max s :
  held g 0 A (T1 ++ Tile p k Loose :: T2) L max s -> complete (T1 ++ T2) -> classed max (T1 ++ T2) -> stats_covered g s -> err s = 0 ->
  wp (merge_with_next_free p ;;! let! e := get_err in if negb (e =? SUCCESS) then ret tt else put_block p ;;! ret tt)
    (fun _ s' => evolves (in_allocs c A) s s' /\ (0 < err s' <= top_code \/ (err s' = 0 /\ exists T' L', held g 0 A T' L' max s' /\
       complete T' /\ classed max T' /\ mem s' !! (p + off_type) = Some FREE_GUARD))) s.
Proof using Hg.
  intros H Hcm Hcl Hst He. destruct (run_split T2) as (F & T3 & -> & HF & HT3). pose proof (lo_above _ Hg). pose proof (chunk_40 _ Hg) as Hc.
  pose proof (tile_bounds Hg (h_rep H) _ (in_mid T1 (Tile p k Loose) (F ++ T3))) as (Hlo & _). cbn in Hlo.
  apply wp_bind. eapply wp_mono; [apply (merge_with_next_free_spec g Hg A T1 p k Loose ltac:(done) L max s F T3 H); [|done|done|done]|].
  { intros t Ht. eapply on_class; [exact Hcm|exact Hcl|set_solver|auto]. }
  intros _ s1 [E1 [He1|(He1 & _ & L1 & _ & H1)]]; apply wp_bind.
  - apply (wp_get_err (err s1)); [done|]. destruct (Z.eqb_spec (err s1) 0); [lia|]. apply wp_ret. auto.
  - apply (wp_get_err 0); [done|]. cbn [Z.eqb negb]. set (n := k + sizes F) in *. apply wp_bind.
    eapply wp_mono; [eapply (put_block_spec g Hg 0 _ _ _ _ _ H1 p n); [apply in_mid|lia|done]|].
    intros _ s2 [E2 [He2|(He2 & H2)]]; apply wp_ret; (split; [evo|]); [by left|]. right. split; [done|].
    rewrite (setst_mid _ Hc _ _ _ _ _ _ _ _ (r_chain (h_rep H1))) in H2. eexists _, _. split; [exact H2|]. split; [|split].
    + intros t Ht. rewrite elem_of_app, elem_of_cons in Ht. destruct Ht as [?|[->|?]]; [|done|]; apply Hcm; set_solver.
    + intros q j i Ht. rewrite elem_of_app, elem_of_cons in Ht. destruct Ht as [?|[[= -> -> ->]|?]]; [|done|]; apply (Hcl q); set_solver.
    + apply (tm_type (r_tiles (h_rep H2) _ (in_mid T1 _ T3))).
Qed.

Lemma free_block_spec T1 p k T2 L max s :
  let A := allocs (T1 ++ T2) in
  held g 0 (allocs (T1 ++ Tile p k Allocd :: T2)) (T1 ++ Tile p k Allocd :: T2) L max s ->
  complete (T1 ++ T2) -> classed max (T1 ++ T2) -> stats_covered g s -> (forall x, p <= x < p + 8 -> covered s x) -> err s = 0 ->
  wp (free_block p) (fun _ s' => evolves (in_allocs c A) s s' /\ (0 < err s' <= top_code \/ (err s' = 0 /\ exists T' L', held g 0 A T' L' max s' /\
       complete T' /\ classed max T' /\ mem s' !! (p + off_type) = Some FREE_GUARD))) s.
Proof using Hg.
  intros A H Hcm Hcl Hst Hcov He. set (keep := in_allocs c A). pose proof (h_rep H) as R. pose proof (in_mid T1 (Tile p k Allocd) T2) as Ht.
  pose proof (rep_take_back _ _ _ _ _ _ _ R) as R1. pose proof (in_mid T1 (Tile p k Loose) T2) as Ht1. pose proof (chunk_40 _ Hg) as Hc.
  pose proof (tile_bounds Hg R _ Ht) as (Hlo & Hb & _). cbn [at_] in Hlo, Hb. pose proof (lo_above _ Hg).
  unfold free_block. apply wp_bind, (wp_store keep).
  { eexists. apply (tm_type (r_tiles R _ Ht)). } { apply Hcov. lia. }
  { unfold keep, A. rewrite <- (allocs_drop T1 (Tile p k Loose)) by done.
    eapply (not_in_allocs c Hc); [apply (r_chain R1)|exact Ht1|done|]. cbn [at_]. unfold end_ in *. cbn in *. lia. }
  intros s1 E1 M1 He1.
  assert (held g 0 A (T1 ++ Tile p k Loose :: T2) L max s1) as H1.
  { split; [by rewrite M1|by apply allocs_drop|rewrite (ev_start _ _ _ E1); apply (h_start H)|rewrite (ev_live _ _ _ E1); apply (h_live H)|rewrite (ev_high _ _ _ E1); apply (h_high H)]. }
  eapply wp_bind, wp_add_stat; [done|exact H1|by eapply stats_covered_step|]. intros s2 E2 H2 He2.
  apply wp_bind, (wp_hdr g _ c); [apply (h_start H2)|apply (r_chunk (h_rep H2))|].
  apply wp_bind, (wp_ld _ k); [apply (tm_size (r_tiles (h_rep H2) _ Ht1)); cbn; lia|].
  eapply wp_bind, wp_add_stat; [done|exact H2|eapply (stats_covered_step g keep s s2); [evo|done]|]. intros s3 E3 H3 He3.
  eapply wp_bind, wp_add_stat; [done|exact H3|eapply (stats_covered_step g keep s s3); [evo|done]|]. intros s4 E4 H4 He4.
  eapply wp_mono; [eapply put_back_spec; [exact H4|done|done|eapply (stats_covered_step g keep s s4); [evo|done]|congruence]|].
  intros _ s5 [E5 Hr]. split; [evo|done].
Qed.

(** The block at [p] is no longer allocated, the others are as they were. *)
Definition freed (A : list tile) (p : Z) (s s' : rds tx) : Prop :=
  heap_ok A s' /\ start s' = start s /\ high s' = high s /\ mem s' !! (p + off_type) = Some FREE_GUARD /\
  (forall x, in_allocs c A x -> mem s' !! x = mem s !! x).

Definition free_post (A : list tile) (p : Z) (tid : bool) (s : rds tx) (r : Z) (s' : rds tx) : Prop :=
  (err s' = 0 /\ r = 0 /\ freed A p s s' /\ (tid = true -> evolves (in_allocs c A) s s')) \/ (0 < err s' <= top_code /\ (undone A tid s s' \/ (tid = false /\ freed A p s s'))).

(** What the guards of an allocated block look like to rds_free and rds_fake_free. *)
Lemma block_guards A s p k : heap_ok A s -> Tile p k Allocd ∈ A ->
  b < p /\ u64 p mod 8 = 0 /\ mem s !! (p + off_type) = Some ALLOC_GUARD /\
  exists e, wp (BLOCK_END p) (fun r s' => r = e /\ s' = s) s /\ mem s !! e = Some END_GUARD.
Proof using Hg.
  intros (T & L & max & R & _ & _ & <- & Hst & Hhi) Ht. apply elem_of_allocs in Ht as [Ht _]. pose proof (chunk_40 _ Hg) as Hc.
  pose proof (tile_bounds Hg R _ Ht) as (Hlo & Hb & Hb' & Hn). unfold end_, top in *. cbn [at_ sz] in *. pose proof (lo_above _ Hg). pose proof (geo_top g Hg).
  split; [lia|]. split; [|split; [apply (tm_type (r_tiles R _ Ht))|]].
  - destruct (chained_aligned c Hc _ _ _ _ (geo_word g Hg) (r_chain R) Ht) as (j & Hj & E). cbn in E. destruct (geo_align g Hg) as [m Hm].
    rewrite uwrap_small by lia. replace p with ((m + j) * 8) by lia. apply Z.mod_mul. lia.
  - eexists. split; [|apply (tm_end (r_tiles R _ Ht))]. unfold end_. cbn [at_ sz].
    unfold BLOCK_END, NEXT_CONSECUTIVE_BLOCK. apply wp_bind, wp_bind, (wp_ld _ k); [apply (tm_size (r_tiles R _ Ht)); cbn; lia|].
    apply wp_bind, (wp_hdr g _ c); [done|apply (r_chunk R)|]. apply wp_ret, wp_ret. by rewrite (proj1 (extent_small g Hg k ltac:(lia) ltac:(unfold top; lia))).
Qed.

Lemma free_check_ok A s p k : heap_ok A s -> Tile p k Allocd ∈ A -> wp (free_check p) (fun r s' => r = 0 /\ s' = s) s.
Proof using Hg.
  intros Hok Ht. destruct (block_guards A s p k Hok Ht) as (Hp & Hal & Hty & e & Hend & Hg'). pose proof (geo_base g Hg).
  unfold free_check. destruct (Z.eqb_spec p 0); [lia|]. rewrite Hal. cbn [negb orb Z.eqb].
  apply wp_bind, (wp_ld _ _ _ _ Hty). change (ALLOC_GUARD =? FREE_GUARD) with false. rewrite Z.eqb_refl. cbn [negb].
  apply wp_bind. eapply wp_mono; [exact Hend|]. intros ? ? [-> ->].
  apply wp_bind, (wp_ld _ _ _ _ Hg'). rewrite Z.eqb_refl. by apply wp_ret.
Qed.

Lemma free_end_error A tid s s1 p :
  tid_live s = true -> (tid = false -> logged (mem s) s) -> evolves (in_allocs c A) s s1 -> 0 < err s1 <= top_code ->
  wp (free_end tid) (free_post A p tid s) s1.
Proof.
  intros Hl Hlog E He. unfold free_end. apply wp_bind, (wp_get_err (err s1)); [done|]. destruct (Z.eqb_spec (err s1) 0); [lia|]. cbn [negb andb].
  apply wp_bind. eapply wp_mono with (Q := fun _ s' => undone A tid s s' /\ err s' = err s1).
  - pose proof (abort_tid_spec A tid s s1 Hl Hlog E) as Ha. destruct tid; exact Ha.
  - intros _ s2 [Hu He2]. apply wp_ret. right. rewrite He2. auto.
Qed.

Lemma free_end_ok A tid s s1 p :
  tid_live s1 = true -> err s1 = 0 -> evolves (in_allocs c A) s s1 -> (forall s', mem s' = mem s1 -> start s' = start s1 -> high s' = high s1 -> freed A p s s') ->
  wp (free_end tid) (free_post A p tid s) s1.
Proof.
  intros Hl He E01 Hf. unfold free_end. apply wp_bind, (wp_get_err 0); [done|]. cbn [Z.eqb negb andb]. destruct tid; cbn [negb].
  - apply wp_bind, wp_ret, wp_ret. left. auto.
  - apply wp_bind, wp_bind. unfold wp at 1, rvm_end_transaction, on_tid. rewrite Hl.
    destruct (end_transaction (mem s1) (rvm s1)) as [r t] eqn:Ee. pose proof (end_code _ _ _ _ Ee). eexists r, _. split; [done|].
    apply wp_bind. unfold wp at 1, rvm_free_tid, on_tid. cbn. rewrite Hl. eexists _, _. split; [done|].
    destruct (Z.eqb_spec r 0) as [->|Hr]; cbn [negb].
    + apply wp_ret, wp_ret. left. split; [done|]. split; [done|]. split; [by apply Hf|done].
    + eexists tt, _. split; [done|]. apply wp_ret. right. split; [cbn; lia|]. right. split; [done|]. by apply Hf.
Qed.

Lemma rds_free_spec A A' tid s p k :
  heap_ok A s -> A ≡ₚ Tile p k Allocd :: A' -> (tid = true -> tid_live s = true) ->
  (tid = false -> forall m t r t', set_range m (p + off_type) 8 t = (r, t') -> r = 0) ->
  wp (rds_free (USER_BLOCK p) tid) (fun r s' => exists A1, A1 ≡ₚ A' /\ free_post A1 p tid s r s') s.
Proof using Hg.
  intros Hok HA Hlive Hrange. pose proof (lo_above _ Hg). assert (Tile p k Allocd ∈ A) as HinA by (rewrite HA; apply list_elem_of_here).
  unfold rds_free, HEAP_INIT. replace (BLOCK_HDR (USER_BLOCK p)) with p by (unfold BLOCK_HDR, USER_BLOCK; lia).
  pose proof Hok as (T & L & max & R & Hcm & Hcl & EA & Hst & Hhi).
  apply wp_bind, wp_bind, (wp_get_start b); [done|]. apply wp_ret. destruct (Z.eqb_spec b 0) as [?|_]; [lia|]. cbn [negb].
  apply wp_bind. eapply wp_mono; [by eapply free_check_ok|]. intros r s' [-> ->]. cbn [Z.eqb negb].
  assert (Tile p k Allocd ∈ T) as (T1 & T2 & ET)%list_elem_of_split by (rewrite <- EA in HinA; by apply elem_of_allocs in HinA as [? _]).
  subst T. set (A1 := allocs (T1 ++ T2)). set (keep := in_allocs c A1).
  assert (A1 ≡ₚ A') as HA1.
  { apply (Permutation_cons_inv (a := Tile p k Allocd)). rewrite <- HA, <- EA. unfold A1. rewrite !allocs_app.
    unfold allocs at 4. rewrite filter_cons_True by done. apply Permutation_middle. }
  apply (wp_mono _ (free_post A1 p tid s)); [|by intros r s' Hp; exists A1].
  apply wp_bind, (open_tid_spec A tid); [done|done| |].
  { intros s1 M1 S1 H1 -> He1. apply wp_ret. right. split; [done|]. left. done. }
  intros s1 M1 S1 H1 Hl1 Htx. cbn [negb].
  assert (tid = false -> logged (mem s1) s1) as Hlog1 by (intros ->; done).
  apply (wp_mono _ (free_post A1 p tid s1)).
  2:{ intros r s'. unfold free_post, freed, undone. rewrite M1, S1, H1. destruct tid; [by rewrite Htx|]. intros [(? & ? & ? & _)|?]; [left|right]; done. }
  apply wp_bind, (wp_set_err keep). intros s2 E2 M2 He2.
  assert (tid_live s2 = true) as Hl2 by (by rewrite (ev_live _ _ _ E2)). assert (start s2 = b) as Hst2 by (rewrite (ev_start _ _ _ E2); congruence).
  apply wp_bind, (wp_get_start b); [done|]. apply wp_bind, (wp_range keep); [done| |].
  { intros e s3 E3 M3 He3 Hpos. destruct (Z.eqb_spec e 0); [lia|]. cbn [negb]. apply wp_bind, (wp_set_err keep). intros s4 E4 M4 He4.
    apply free_end_error; [done|done|evo|lia]. }
  intros s3 E3 M3 He3 C3. cbn [Z.eqb negb]. apply wp_bind, wp_bind.
  apply wp_set_range; [by rewrite (ev_live _ _ _ E3)|]. intros e t Ee. pose proof (set_range_code _ _ _ _ _ _ Ee) as Hpos.
  pose proof (evolves_range keep _ _ _ _ _ Ee) as E4. destruct (Z.eqb_spec e 0) as [->|He].
  2:{ destruct tid; [|by rewrite (Hrange eq_refl _ _ _ _ Ee) in He]. cbn [negb].
      apply wp_bind, wp_ret, (wp_set_err keep). intros s5 E5 M5 He5. apply free_end_error; [done|done|evo|lia]. }
  cbn [negb]. pose proof (fun x => covered_range s3 _ _ t x Ee) as C4. remember (with_rvm s3 t) as s4 eqn:Es4.
  assert (mem s4 = mem s3) as M4 by (by rewrite Es4). assert (err s4 = err s3) as He4 by (by rewrite Es4). clear Es4.
  assert (held g 0 (allocs (T1 ++ Tile p k Allocd :: T2)) (T1 ++ Tile p k Allocd :: T2) L max s4) as H4.
  { split; [by rewrite M4, M3, M2, M1|done| | |].
    - rewrite (ev_start keep s1 s4) by evo. congruence.
    - rewrite (ev_live keep s1 s4) by evo. done.
    - rewrite (ev_high keep s1 s4) by evo. rewrite H1. done. }
  eapply wp_mono; [eapply free_block_spec; [exact H4|by eapply complete_drop|by eapply classed_drop| | |congruence]|].
  - intros x Hx. apply (ev_cover _ _ _ E4), C3. lia.
  - intros x Hx. apply C4. lia.
  - intros _ s5 [E5 [He5|(He5 & T5 & L5 & H5 & Hcm5 & Hcl5 & Hty)]]; [apply free_end_error; [done|done|evo|done]|].
    assert (evolves keep s1 s5) as E15 by evo.
    apply free_end_ok; [apply (h_live H5)|done|done|]. intros s' Em Es Eh. split; [|split; [|split; [|split]]].
    + exists T5, L5, max. rewrite Em, Es, Eh. split; [apply (h_rep H5)|]. split; [done|]. split; [done|]. split; [apply (h_allocs H5)|]. split; [apply (h_start H5)|apply (h_high H5)].
    + by rewrite Es, (ev_start _ _ _ E15).
    + by rewrite Eh, (ev_high _ _ _ E15).
    + by rewrite Em.
    + intros x Hx. rewrite Em. by apply (ev_keep _ _ _ E15).
Qed.

End Api.
End RdsApi.
