(* ===== verification/RdsInit.v ===== *)
(** * The recoverable heap: a new heap

    rds_init_heap turns a mapped segment into a heap with one free block, and
    rds_start_heap accepts it. *)
From Stdlib Require Import ZArith Lia.
From stdpp Require Import base list numbers gmap.
From S2P Require Import Prelude.
From S2P Require Import RdsMem.
From S2P Require Import Rds.
From S2P Require Import RdsHeap.
From S2P Require Import RdsLists.
From S2P Require Import RdsMerge.
From S2P Require Import RdsCoalesce.
From S2P Require Import RdsApi.
Import RdsMem Rds RdsHeap RdsLists RdsMerge RdsCoalesce RdsApi.
Open Scope Z_scope.

Module RdsInit.

(** The heap that rds_init_heap lays out. *)
Definition hdr_len (nl : Z) : Z := 264 + nl * 16.
Definition layout (base length c nl : Z) : geometry := {|
  g_base := base; g_chunk := c; g_nl := nl;
  g_lo := (base + off_lists + sizeof_free_list * nl + sizeof_free_list + c - 1) / c * c;
  g_n := (length - hdr_len nl) / c |}.

(** What the arguments must satisfy: chunks of whole words with room for a free block and
    its end guard, and a segment with at least as many chunks as there are lists, none of
    which the code checks except for the size of a chunk and of the header. *)
Record layout_ok (base length c nl : Z) : Prop := {
  lo_base : 0 < base;
  lo_chunk : 40 <= c;
  lo_word : exists k, c = 8 * k;
  lo_nl : 1 <= nl < 2 ^ 30;
  lo_len : hdr_len nl <= length;
  lo_n : nl <= (length - hdr_len nl) / c < 2 ^ 30;
  lo_end : base + length < 2 ^ 63
}.

(** The code's assertion: the first block is rounded up to a multiple of the chunk size, and
    the blocks behind it must still end inside the segment. *)
Definition fits (base length c nl : Z) : Prop := top (layout base length c nl) <= base + length.

(** The cells of the header and of the blocks exist. *)
Record mapped (g : geometry) (m : memory) : Prop := {
  mp_version : forall k, 0 <= k < 80 -> is_Some (m !! (g_base g + k));
  mp_heaplength : is_Some (m !! (g_base g + off_heaplength));
  mp_chunk : is_Some (m !! (g_base g + off_chunk_size));
  mp_nlists : is_Some (m !! (g_base g + off_nlists));
  mp_maxlist : is_Some (m !! (g_base g + off_maxlist));
  mp_stats : forall k, 0 <= k < 13 -> is_Some (m !! (g_base g + off_stats + 4 * k));
  mp_lists : forall i, 1 <= i <= g_nl g -> is_Some (m !! (list_cell g i + off_guard)) /\ is_Some (m !! (list_cell g i + off_head));
  mp_blocks : forall k, 0 <= k -> g_lo g + 8 * k <= top g -> is_Some (m !! (g_lo g + 8 * k))
}.

Lemma layout_geo base length c nl : layout_ok base length c nl -> fits base length c nl -> geo_ok (layout base length c nl).
Proof.
  intros [Hb Hc [k Hk] Hnl Hlen Hn Hend] Hfit. unfold hdr_len, fits in *.
  assert (base + off_lists + sizeof_free_list * nl + sizeof_free_list <= g_lo (layout base length c nl)) as Hlo.
  { cbn. pose proof (Z.div_mod (base + 248 + 16 * nl + 16 + c - 1) c ltac:(lia)). pose proof (Z.mod_pos_bound (base + 248 + 16 * nl + 16 + c - 1) c ltac:(lia)). nia. }
  split; cbn [g_base g_chunk g_nl g_n layout].
  - done.
  - done.
  - by exists k.
  - done.
  - lia.
  - cbn. set (q := (base + 248 + 16 * nl + 16 + c - 1) / c). exists (q * k). lia.
  - unfold hdr_len. lia.
  - unfold top in Hfit. cbn [g_n g_chunk layout] in Hfit. lia.
Qed.

(** The rounding costs less than a chunk. *)
Lemma layout_lo base length c nl : 40 <= c -> base + hdr_len nl <= g_lo (layout base length c nl) < base + hdr_len nl + c.
Proof.
  intros Hc. unfold hdr_len. cbn. pose proof (Z.div_mod (base + 248 + 16 * nl + 16 + c - 1) c ltac:(lia)).
  pose proof (Z.mod_pos_bound (base + 248 + 16 * nl + 16 + c - 1) c ltac:(lia)). nia.
Qed.

Section Init.
Context {tx : Type} `{!RVM tx, !RVMLaws tx}.
Implicit Types s : rds tx.
Definition nothing (x : Z) : Prop := False.

Lemma wp_store_cell x v Q s :
  is_Some (mem s !! x) -> covered s x ->
  (forall s', evolves nothing s s' -> mem s' = <[x := v]> (mem s) -> err s' = err s -> Q tt s') -> wp (sto x v) Q s.
Proof. intros. by apply (wp_store nothing); [| |intros []|]. Qed.

Lemma stos_spec vs a s :
  (forall x, a <= x < a + zlen vs -> is_Some (mem s !! x) /\ covered s x) ->
  wp (stos a vs) (fun _ s' => evolves nothing s s' /\ err s' = err s /\
    (forall k v, vs !! k = Some v -> mem s' !! (a + Z.of_nat k) = Some v) /\
    (forall x, x < a \/ a + zlen vs <= x -> mem s' !! x = mem s !! x)) s.
Proof.
  revert a s. induction vs as [|v vs IH]; intros a s Ha; cbn [stos].
  - apply wp_ret. split; [done|]. split; [done|]. split; [done|]. done.
  - rewrite zlen_cons in Ha. pose proof (zlen_nonneg vs). destruct (Ha a ltac:(lia)) as [Hs Hc].
    apply wp_bind, wp_store_cell; [done|done|]. intros s1 E1 M1 He1. eapply wp_mono; [apply IH|].
    + intros x Hx. destruct (Ha x ltac:(lia)) as [Hs' Hc']. split; [by apply (ev_dom _ _ _ E1)|by apply (ev_cover _ _ _ E1)].
    + intros _ s2 (E2 & He2 & Hv & Ho). split; [evo|]. split; [congruence|]. rewrite zlen_cons. split.
      * intros [|k] w Hw; cbn in Hw.
        -- injection Hw as ->. rewrite Z.add_0_r, Ho by lia. by rewrite M1, lookup_insert_eq.
        -- replace (a + Z.of_nat (S k)) with (a + 1 + Z.of_nat k) by lia. by apply Hv.
      * intros x Hx. rewrite Ho by lia. by rewrite M1, lookup_insert_ne by lia.
Qed.

(** A loop that stores to a row of cells. *)
Lemma fill_spec fuel (addr : Z -> Z) (val : Z) n s :
  0 <= n -> (Z.to_nat n < fuel)%nat ->
  (forall i, 0 <= i < n -> is_Some (mem s !! addr i) /\ covered s (addr i)) ->
  (forall i j, addr i = addr j -> i = j) ->
  wp (mwhile fuel (fun k => if negb (k <? n) then ret (inr tt) else sto (addr k) val ;;! ret (inl (k + 1))) 0)
    (fun _ s' => evolves nothing s s' /\ err s' = err s /\ (forall i, 0 <= i < n -> mem s' !! addr i = Some val) /\
      (forall x, (forall i, 0 <= i < n -> x <> addr i) -> mem s' !! x = mem s !! x)) s.
Proof.
  intros Hn Hf Ha Hinj.
  apply (wp_mwhile (fun m k s' => 0 <= k <= n /\ m = Z.to_nat (n - k) /\ evolves nothing s s' /\ err s' = err s /\
    (forall i, 0 <= i < k -> mem s' !! addr i = Some val) /\
    (forall x, (forall i, 0 <= i < k -> x <> addr i) -> mem s' !! x = mem s !! x)) _ _ _ (Z.to_nat n)); [|lia|].
  - split; [lia|]. split; [f_equal; lia|]. do 2 (split; [done|]). split; [lia|done].
  - intros m k s1 (Hk & -> & E1 & He1 & Hv & Ho). destruct (Z.ltb_spec k n) as [Hlt|Hge]; cbn [negb].
    + destruct (Ha k ltac:(lia)) as [Hs Hc]. apply wp_bind, wp_store_cell; [by apply (ev_dom _ _ _ E1)|by apply (ev_cover _ _ _ E1)|].
      intros s2 E2 M2 He2. apply wp_ret. exists (Z.to_nat (n - (k + 1))). split; [lia|]. split; [lia|]. split; [done|].
      split; [evo|]. split; [congruence|]. rewrite M2. split.
      * intros i Hi. destruct (decide (i = k)) as [->|Hne]; [by rewrite lookup_insert_eq|].
        rewrite lookup_insert_ne; [apply Hv; lia|]. intros E. by apply Hne, Hinj.
      * intros x Hx. rewrite lookup_insert_ne by (apply not_eq_sym, Hx; lia). apply Ho. intros i Hi. apply Hx. lia.
    + assert (k = n) as -> by lia. apply wp_ret. done.
Qed.

Section Layout.
Context (base len c nl : Z) (Hok : layout_ok base len c nl).
Abbreviation g := (layout base len c nl).

Lemma mapped_step s s' : mapped g (mem s) -> evolves nothing s s' -> mapped g (mem s').
Proof.
  intros [] E. split; intros; try (apply (ev_dom _ _ _ E); auto). split; apply (ev_dom _ _ _ E); by apply mp_lists0.
Qed.

Lemma lists_fill_spec s :
  mapped g (mem s) -> (forall x, base <= x < base + hdr_len nl -> covered s x) ->
  wp (loop_while (fun i => if negb (u64 i <? u64 (nl + 1)) then ret (inr tt) else
        sto (base + off_lists + sizeof_free_list * i + off_head) 0 ;;!
        sto (base + off_lists + sizeof_free_list * i + off_guard) FREE_LIST_GUARD ;;!
        ret (inl (i + 1))) 1)
    (fun _ s' => evolves nothing s s' /\ err s' = err s /\
      (forall i, 1 <= i <= nl -> mem s' !! (list_cell g i + off_guard) = Some FREE_LIST_GUARD /\ mem s' !! (list_cell g i + off_head) = Some 0) /\
      (forall x, x < base + off_lists + sizeof_free_list \/ base + hdr_len nl <= x -> mem s' !! x = mem s !! x)) s.
Proof using Hok.
  intros Hm Hcov. destruct Hok as [_ _ _ Hnl _ _ _]. rewrite (uwrap_small 64 (nl + 1)) by lia. unfold hdr_len in *.
  assert (forall i, list_cell g i = base + 248 + 16 * i) as Hlc by done.
  apply (wp_loop (fun m i s' => 1 <= i <= nl + 1 /\ m = Z.to_nat (nl + 1 - i) /\ evolves nothing s s' /\ err s' = err s /\
    (forall j, 1 <= j < i -> mem s' !! (list_cell g j + off_guard) = Some FREE_LIST_GUARD /\ mem s' !! (list_cell g j + off_head) = Some 0) /\
    (forall x, x < base + 248 + 16 \/ base + (264 + nl * 16) <= x -> mem s' !! x = mem s !! x)) _ _ (Z.to_nat nl)).
  - split; [lia|]. split; [f_equal; lia|]. do 2 (split; [done|]). split; [lia|done].
  - rewrite <- (length_seq (Z.to_nat nl) 1), <- (length_fmap (fun k => list_cell g (Z.of_nat k) + off_guard)). apply cells_count.
    + apply NoDup_fmap_2; [|apply NoDup_seq]. intros x y. unfold list_cell. cbn. lia.
    + intros x (k & -> & Hk)%list_elem_of_fmap. apply elem_of_seq in Hk. apply (mp_lists _ _ Hm). cbn. lia.
  - intros m i s1 (Hi & -> & E1 & He1 & Hv & Ho). rewrite (uwrap_small 64 i) by lia. destruct (Z.ltb_spec i (nl + 1)) as [Hlt|Hge]; cbn [negb].
    + destruct (mp_lists _ _ Hm i ltac:(cbn; lia)) as [Hg1 Hg2]. rewrite Hlc in Hg1, Hg2.
      apply wp_bind, wp_store_cell; [by apply (ev_dom _ _ _ E1)|apply (ev_cover _ _ _ E1), Hcov; lia|]. intros s2 E2 M2 He2.
      apply wp_bind, wp_store_cell; [apply (ev_dom _ _ _ E2); by apply (ev_dom _ _ _ E1)|apply (ev_cover nothing s s2 ltac:(evo)), Hcov; lia|]. intros s3 E3 M3 He3.
      apply wp_ret. exists (Z.to_nat (nl + 1 - (i + 1))). split; [lia|]. split; [lia|]. split; [done|]. split; [evo|]. split; [congruence|]. rewrite M3, M2. split.
      * intros j Hj. rewrite Hlc. destruct (decide (j = i)) as [->|Hne].
        -- rewrite lookup_insert_eq. rewrite lookup_insert_ne by lia. by rewrite lookup_insert_eq.
        -- rewrite !lookup_insert_ne by lia. rewrite <- Hlc. apply Hv. lia.
      * intros x Hx. rewrite !lookup_insert_ne by lia. auto.
    + assert (i = nl + 1) as -> by lia. apply wp_ret. split; [done|]. split; [done|]. split; [|done]. intros j Hj. apply Hv. lia.
Qed.

(** What rds_init_heap leaves in memory. *)
Record fresh (m : memory) : Prop := {
  f_version : forall k v, (RDS_HEAP_VERSION ++ [0]) !! k = Some v -> m !! (base + Z.of_nat k) = Some v;
  f_length : m !! (base + off_heaplength) = Some len;
  f_rep : heap_rep g 0 m [Tile (g_lo g) (g_n g) (On nl)] (fun i => if i =? nl then [g_lo g] else []) nl
}.

Lemma fresh_heap_ok s : fresh (mem s) -> start s = base -> high s = base + hdr_len nl + g_n g * c -> heap_ok g [] s.
Proof using Hok.
  intros F Hs Hh. pose proof Hok as [_ Hc _ Hnl _ Hn _]. exists [Tile (g_lo g) (g_n g) (On nl)], (fun i => if i =? nl then [g_lo g] else []), nl.
  split; [apply (f_rep _ F)|]. split; [|split; [|split; [|split]]].
  - intros t Ht. by apply list_elem_of_singleton in Ht as ->.
  - intros p n i Ht. apply list_elem_of_singleton in Ht as [= -> -> ->]. unfold lidx. cbn [layout g_n]. destruct (Z.leb_spec nl ((len - hdr_len nl) / c)); lia.
  - done.
  - done.
  - rewrite Hh. unfold top. pose proof (layout_lo base len c nl Hc). cbn [g_chunk layout] in *. lia.
Qed.

(** The header and the only block, cell by cell. *)
Lemma fresh_rep m :
  m !! (base + off_chunk_size) = Some c -> m !! (base + off_nlists) = Some nl -> m !! (base + off_maxlist) = Some nl ->
  (forall k, 0 <= k < 13 -> is_Some (m !! (base + off_stats + 4 * k))) ->
  (forall i, 1 <= i <= nl -> m !! (list_cell g i + off_guard) = Some FREE_LIST_GUARD /\
     m !! (list_cell g i + off_head) = Some (if i =? nl then g_lo g else 0)) ->
  m !! (g_lo g + off_type) = Some FREE_GUARD -> m !! (g_lo g + off_size) = Some (g_n g) ->
  m !! (g_lo g + off_prev) = Some 0 -> m !! (g_lo g + off_next) = Some 0 -> m !! (top g - 8) = Some END_GUARD ->
  (forall k, 0 <= k -> g_lo g + 8 * k <= top g -> is_Some (m !! (g_lo g + 8 * k))) ->
  heap_rep g 0 m [Tile (g_lo g) (g_n g) (On nl)] (fun i => if i =? nl then [g_lo g] else []) nl.
Proof using Hok.
  intros H1 H2 H3 H4 H5 H6 H7 H8 H9 H10 H11. pose proof Hok as [_ _ _ Hnl _ Hn _].
  assert (0 < g_n g) as Hpos by (cbn; lia). split; try done.
  - intros t Ht. apply list_elem_of_singleton in Ht as ->. split; unfold end_; cbn [at_ sz st guard_of]; [done|done|exact H10].
  - intros i Hi. by apply H5.
  - intros i Hi. destruct (H5 i Hi) as [_ ->]. by destruct (i =? nl).
  - intros i Hi. destruct (i =? nl); [|done]. cbn. done.
  - intros i p. destruct (Z.eqb_spec i nl) as [->|Hne].
    + rewrite list_elem_of_singleton. split; [intros ->; exists (g_n g); by apply list_elem_of_singleton|].
      intros [n Hn']. by apply list_elem_of_singleton in Hn' as [= -> _].
    + split; [set_solver|]. intros [n Hn']. by apply list_elem_of_singleton in Hn' as [= _ _ ->].
  - intros i. destruct (i =? nl); [apply NoDup_singleton|constructor].
  - intros p n i Ht. apply list_elem_of_singleton in Ht as [= _ _ ->]. cbn. lia.
  - cbn. lia.
Qed.

Lemma init_unwrap :
  u64 (sizeof_heap_header + nl * sizeof_free_list) = hdr_len nl /\ u64 (len - hdr_len nl) = len - hdr_len nl /\
  u64 ((len - hdr_len nl) / c * c) = g_n g * c.
Proof using Hok.
  pose proof Hok as [Hb Hc _ Hnl Hlen Hn Hend]. unfold hdr_len in *. split; [apply uwrap_small; lia|]. split; [apply uwrap_small; lia|].
  apply uwrap_small. pose proof (Z.mul_div_le (len - (264 + nl * 16)) c ltac:(lia)). cbn [layout g_n]. unfold hdr_len. split; [|lia]. apply Z.mul_nonneg_nonneg; lia.
Qed.

(** The header after init_header. *)
Record header_mem (m' : memory) : Prop := {
  hm_version : forall k v, (RDS_HEAP_VERSION ++ [0]) !! k = Some v -> m' !! (base + Z.of_nat k) = Some v;
  hm_length : m' !! (base + off_heaplength) = Some len;
  hm_chunk : m' !! (base + off_chunk_size) = Some c;
  hm_nl : m' !! (base + off_nlists) = Some nl;
  hm_max : m' !! (base + off_maxlist) = Some nl;
  hm_lists : forall i, 1 <= i <= nl -> m' !! (list_cell g i + off_guard) = Some FREE_LIST_GUARD /\ m' !! (list_cell g i + off_head) = Some 0
}.

Lemma init_header_spec s1 :
  mapped g (mem s1) -> (forall x, base <= x < base + hdr_len nl -> covered s1 x) ->
  wp (init_header base len c nl) (fun _ s' => evolves nothing s1 s' /\ err s' = err s1 /\ header_mem (mem s')) s1.
Proof using Hok.
  intros Hm C1. pose proof Hok as [Hb Hc _ Hnl _ _ _].
  assert (forall x, is_Some (mem s1 !! x) -> forall s' : rds tx, evolves nothing s1 s' -> is_Some (mem s' !! x)) as Hdom by (intros x Hx s' E; by apply (ev_dom _ _ _ E)).
  assert (forall x, base <= x < base + hdr_len nl -> forall s' : rds tx, evolves nothing s1 s' -> covered s' x) as Hcov.
  { intros x Hx s' E. apply (ev_cover _ _ _ E), C1. lia. }
  assert (zlen (RDS_HEAP_VERSION ++ [0]) = 51) as HV by done.
  unfold init_header. apply wp_bind. eapply wp_mono; [apply stos_spec|].
  { intros x Hx. rewrite HV in Hx. split; [|apply (Hcov x ltac:(unfold hdr_len; lia) s1); done].
    replace x with (base + (x - base)) by lia. apply (mp_version _ _ Hm). lia. }
  intros _ s2 (E2 & He2 & Hver & Ho2). rewrite HV in Ho2.
  apply wp_bind, wp_store_cell; [apply Hdom; [apply (mp_heaplength _ _ Hm)|evo]|apply Hcov; [unfold hdr_len; lia|evo]|]. intros s3 E3 M3 He3.
  apply wp_bind, wp_store_cell; [apply Hdom; [apply (mp_chunk _ _ Hm)|evo]|apply Hcov; [unfold hdr_len; lia|evo]|]. intros s4 E4 M4 He4.
  apply wp_bind, wp_store_cell; [apply Hdom; [apply (mp_maxlist _ _ Hm)|evo]|apply Hcov; [unfold hdr_len; lia|evo]|]. intros s5 E5 M5 He5.
  apply wp_bind, wp_store_cell; [apply Hdom; [apply (mp_nlists _ _ Hm)|evo]|apply Hcov; [unfold hdr_len; lia|evo]|]. intros s6 E6 M6 He6.
  apply wp_bind. eapply wp_mono; [apply (fill_spec 14 (fun k => base + off_stats + 4 * k) 0 13); [lia|cbn; lia| |lia]|].
  { intros i Hi. split; [apply Hdom; [by apply (mp_stats _ _ Hm)|evo]|apply Hcov; [unfold hdr_len; lia|evo]]. }
  intros _ s7 (E7 & He7 & Hst & Ho7). eapply wp_mono; [apply lists_fill_spec|].
  { eapply mapped_step; [exact Hm|evo]. }
  { intros x Hx. apply Hcov; [done|evo]. }
  intros _ s8 (E8 & He8 & Hls & Ho8). split; [evo|]. split; [congruence|].
  assert (forall x, x < base + 264 -> (forall i, 0 <= i < 13 -> x <> base + off_stats + 4 * i) -> mem s8 !! x = mem s6 !! x) as Hlow6.
  { intros x Hx Hx1. rewrite Ho8 by lia. by apply Ho7. }
  split; [| | | | |done].
  - intros k v Hk. pose proof (lookup_lt_Some _ _ _ Hk) as Hklt. unfold zlen in HV.
    rewrite Hlow6 by lia. rewrite M6, M5, M4, M3, !lookup_insert_ne by lia. by apply Hver.
  - rewrite Hlow6 by lia. rewrite M6, M5, M4, M3, !lookup_insert_ne by lia. by rewrite lookup_insert_eq.
  - rewrite Hlow6 by lia. rewrite M6, M5, M4, !lookup_insert_ne by lia. by rewrite lookup_insert_eq.
  - rewrite Hlow6 by lia. by rewrite M6, lookup_insert_eq.
  - rewrite Hlow6 by lia. rewrite M6, M5, !lookup_insert_ne by lia. by rewrite lookup_insert_eq.
Qed.

Lemma init_block_spec s8 :
  fits base len c nl -> mapped g (mem s8) -> (forall x, base <= x < base + hdr_len nl -> covered s8 x) -> tid_live s8 = true -> header_mem (mem s8) ->
  wp (init_block base len c nl (len - hdr_len nl)) (fun r s' => evolves nothing s8 s' /\ ((0 < err s' <= top_code /\ r = -1) \/ (err s' = 0 /\ r = 0 /\ fresh (mem s')))) s8.
Proof using Hok.
  intros Hfit Hm C8 Hl Hh. unfold fits in Hfit. pose proof Hok as [Hb Hc Hword Hnl Hlen Hn Hend]. pose proof (layout_lo base len c nl Hc) as Hlo.
  destruct init_unwrap as (_ & _ & W3). unfold init_block. rewrite W3. unfold hdr_len in Hlo.
  assert (forall x, is_Some (mem s8 !! x) -> forall s' : rds tx, evolves nothing s8 s' -> is_Some (mem s' !! x)) as Hdom by (intros x Hx s' E; by apply (ev_dom _ _ _ E)).
  assert (forall x, base <= x < base + hdr_len nl -> forall s' : rds tx, evolves nothing s8 s' -> covered s' x) as Hcov.
  { intros x Hx s' E. apply (ev_cover _ _ _ E), C8. lia. }
  change ((base + off_lists + sizeof_free_list * nl + sizeof_free_list + c - 1) / c * c) with (g_lo g).
  change ((len - hdr_len nl) / c) with (g_n g). set (lo := g_lo g) in *. assert (nl <= g_n g) as Hn' by (cbn; lia).
  assert (lo + g_n g * c = top g) as Htop by done. rewrite Htop. assert (lo + 40 <= top g) as H40 by (rewrite <- Htop; nia).
  assert (forall k, 0 <= k < 4 -> is_Some (mem s8 !! (lo + 8 * k))) as Hblk by (intros k Hk; apply (mp_blocks _ _ Hm); [lia|fold lo; lia]).
  assert (is_Some (mem s8 !! (top g - 8))) as Hend8.
  { destruct Hword as [j Hj]. replace (top g - 8) with (lo + 8 * (g_n g * j - 1)) by lia. apply (mp_blocks _ _ Hm); [nia|fold lo; lia]. }
  apply (wp_announce nothing); [done|intros; split; [evo|auto]|]. intros s9 E9 M9 He9 C9.
  assert (forall x, lo <= x < lo + 32 -> forall s' : rds tx, evolves nothing s9 s' -> covered s' x) as Hcov9 by (intros x Hx s' E; apply (ev_cover _ _ _ E), C9; lia).
  apply wp_bind, wp_store_cell; [apply Hdom; [apply (Hblk 1); lia|evo]|apply Hcov9; [lia|evo]|]. intros s10 E10 M10 He10.
  apply wp_bind, wp_store_cell; [apply Hdom; [apply (Hblk 0); lia|evo]|apply Hcov9; [lia|evo]|]. intros s11 E11 M11 He11.
  apply wp_bind, wp_store_cell; [apply Hdom; [apply (Hblk 3); lia|evo]|apply Hcov9; [lia|evo]|]. intros s12 E12 M12 He12.
  apply wp_bind, wp_store_cell; [apply Hdom; [apply (Hblk 2); lia|evo]|apply Hcov9; [lia|evo]|]. intros s13 E13 M13 He13.
  apply wp_bind, wp_store_cell; [apply Hdom; [apply (mp_lists _ _ Hm nl); cbn; lia|evo]|apply Hcov; [unfold hdr_len; lia|evo]|]. intros s14 E14 M14 He14.
  apply wp_bind, wp_store_cell; [apply Hdom; [apply (mp_stats _ _ Hm 11); lia|evo]|apply Hcov; [unfold hdr_len; cbn; lia|evo]|]. intros s15 E15 M15 He15.
  apply wp_bind, wp_massert; [apply Z.leb_le; lia|].
  apply (wp_announce nothing); [rewrite (ev_live nothing s8 s15) by evo; done|intros; split; [evo|auto]|]. intros s16 E16 M16 He16 C16.
  apply wp_bind, wp_store_cell; [apply Hdom; [done|evo]|apply C16; lia|]. intros s17 E17 M17 He17.
  apply wp_bind, (wp_set_err nothing). intros s18 E18 M18 He18. apply wp_ret. split; [evo|]. right. split; [done|]. split; [done|].
  assert (forall i, list_cell g i = base + 248 + 16 * i) as Hlc by done.
  assert (forall x, x < base + 264 + 16 * nl -> x <> base + off_stats + 4 * 11 -> x <> list_cell g nl + off_head -> mem s18 !! x = mem s8 !! x) as Hlow.
  { intros x Hx Hx1 Hx2. rewrite M18, M17, M16, M15, M14, M13, M12, M11, M10, M9. rewrite Hlc in Hx2.
    rewrite !lookup_insert_ne by (cbn [stat_index]; lia). done. }
  split.
  - intros k v Hk. pose proof (lookup_lt_Some _ _ _ Hk) as Hklt. assert (length (RDS_HEAP_VERSION ++ [0]) = 51%nat) as HV by done.
    rewrite Hlow by (rewrite ?Hlc; lia). by apply (hm_version _ Hh).
  - rewrite Hlow by (rewrite ?Hlc; lia). apply (hm_length _ Hh).
  - apply fresh_rep.
    + rewrite Hlow by (rewrite ?Hlc; lia). apply (hm_chunk _ Hh).
    + rewrite Hlow by (rewrite ?Hlc; lia). apply (hm_nl _ Hh).
    + rewrite Hlow by (rewrite ?Hlc; lia). apply (hm_max _ Hh).
    + intros k Hk. apply Hdom; [by apply (mp_stats _ _ Hm)|evo].
    + intros i Hi. destruct (hm_lists _ Hh i Hi) as [Hg1 Hg2]. split; [by rewrite Hlow by (rewrite ?Hlc; lia)|].
      destruct (Z.eqb_spec i nl) as [->|Hne]; [|by rewrite Hlow by (rewrite ?Hlc; lia)]. fold lo. rewrite Hlc.
      rewrite M18, M17, M16, M15, M14. cbn [stat_index]. do 2 rewrite lookup_insert_ne by lia. by rewrite lookup_insert_eq.
    + fold lo. rewrite M18, M17, M16, M15, M14, M13, M12, M11. cbn [stat_index]. rewrite !lookup_insert_ne by lia. by rewrite lookup_insert_eq.
    + fold lo. rewrite M18, M17, M16, M15, M14, M13, M12, M11, M10. cbn [stat_index]. rewrite !lookup_insert_ne by lia. by rewrite lookup_insert_eq.
    + fold lo. rewrite M18, M17, M16, M15, M14, M13. cbn [stat_index]. rewrite !lookup_insert_ne by lia. by rewrite lookup_insert_eq.
    + fold lo. rewrite M18, M17, M16, M15, M14, M13, M12. cbn [stat_index]. rewrite !lookup_insert_ne by lia. by rewrite lookup_insert_eq.
    + by rewrite M18, M17, lookup_insert_eq.
    + intros k Hk Hx. apply Hdom; [by apply (mp_blocks _ _ Hm)|evo].
Qed.

Lemma rds_init_heap_spec s :
  fits base len c nl -> mapped g (mem s) -> tid_live s = true ->
  wp (rds_init_heap base len c nl) (fun r s' => evolves nothing s s' /\ ((0 < err s' <= top_code /\ r = -1) \/ (err s' = 0 /\ r = 0 /\ fresh (mem s')))) s.
Proof using Hok.
  intros Hfit Hm Hl. pose proof Hok as [Hb Hc _ Hnl Hlen _ _]. destruct init_unwrap as (W1 & W2 & _). unfold rds_init_heap. rewrite W1, W2.
  destruct (Z.ltb_spec len (hdr_len nl)) as [?|_]; [lia|].
  apply (wp_announce nothing); [done|auto|]. intros s1 E1 M1 He1 C1. apply wp_bind, wp_massert; [apply Z.leb_le; lia|].
  apply wp_bind. eapply wp_mono; [apply init_header_spec; [by eapply mapped_step|done]|]. intros _ s2 (E2 & He2 & Hh).
  eapply wp_mono; [eapply init_block_spec; [done|eapply mapped_step; [done|evo]| |rewrite (ev_live nothing s s2) by evo; done|done]|].
  - intros x Hx. apply (ev_cover _ _ _ E2). auto.
  - intros r s3 [E3 Hr]. split; [evo|done].
Qed.

(** *** Without room for the rounding *)

(** The outcome is the failed assertion or an error of RVM. *)
Definition refused (r : res (Z * rds tx)) : Prop :=
  r = Stop CAbort \/ exists s', r = Ret (-1, s') /\ 0 < err s' <= top_code.

Lemma refused_bind {A} (m : M tx A) (k : A -> M tx Z) P s :
  wp m P s -> (forall a s', P a s' -> refused (k a s')) -> refused (mbnd m k s).
Proof using Type. intros (a & s' & E & HP) Hk. unfold mbnd. rewrite E. by apply Hk. Qed.

Lemma refused_store x v (k : unit -> M tx Z) s :
  is_Some (mem s !! x) -> covered s x -> (forall s', evolves nothing s s' -> refused (k tt s')) -> refused (mbnd (sto x v) k s).
Proof using Type*.
  intros Hx Hc Hk. apply refused_bind with (P := fun _ s' => evolves nothing s s'); [|intros []; apply Hk].
  by apply wp_store_cell.
Qed.

Lemma refused_announce a n (k : M tx Z) s : tid_live s = true ->
  (forall s', evolves nothing s s' -> (forall x, a <= x < a + n -> covered s' x) -> refused (k s')) ->
  refused (announce a n (-1) k s).
Proof using Type*.
  intros Hl Hk. unfold announce.
  apply refused_bind with (P := fun e s' => evolves nothing s s' /\ mem s' = mem s /\
    (if e =? SUCCESS then forall x, a <= x < a + n -> covered s' x else 0 < e <= top_code)).
  - apply wp_set_range; [done|]. intros e t E. split; [by eapply evolves_range|]. split; [done|].
    destruct (Z.eqb_spec e SUCCESS) as [->|He]; [intros x Hx; by eapply covered_range|]. pose proof (set_range_code _ _ _ _ _ _ E). lia.
  - intros e s' (E & _ & Hc). destruct (e =? SUCCESS); [by apply Hk|]. right. eexists. split; [done|done].
Qed.

Lemma init_block_refused s8 : ~ fits base len c nl ->
  mapped g (mem s8) -> (forall x, base <= x < base + hdr_len nl -> covered s8 x) -> tid_live s8 = true ->
  refused (init_block base len c nl (len - hdr_len nl) s8).
Proof using Hok RVMLaws0.
  intros Hfit Hm C8 Hl. unfold fits in Hfit. pose proof Hok as [Hb Hc _ Hnl Hlen Hn Hend].
  destruct init_unwrap as (_ & _ & W3). unfold init_block. rewrite W3.
  change ((base + off_lists + sizeof_free_list * nl + sizeof_free_list + c - 1) / c * c) with (g_lo g).
  set (lo := g_lo g) in *. assert (nl <= g_n g) as Hn' by (cbn; lia).
  assert (lo + g_n g * c = top g) as Htop by done. rewrite Htop. assert (lo + 40 <= top g) as H40 by (rewrite <- Htop; nia).
  assert (forall s', evolves nothing s8 s' -> forall k, 0 <= k < 4 -> is_Some (mem s' !! (lo + 8 * k))) as Hblk.
  { intros s' E k Hk. apply (ev_dom _ _ _ E), (mp_blocks _ _ Hm); [lia|fold lo; lia]. }
  apply refused_announce; [done|]. intros s9 E9 C9.
  assert (forall x, lo <= x < lo + 32 -> forall s' : rds tx, evolves nothing s9 s' -> covered s' x) as Hcov9 by (intros x Hx s' E; apply (ev_cover _ _ _ E), C9; lia).
  apply refused_store; [apply (Hblk s9 ltac:(evo) 1); lia|apply Hcov9; [lia|evo]|]. intros s10 E10.
  apply refused_store; [apply (Hblk s10 ltac:(evo) 0); lia|apply Hcov9; [lia|evo]|]. intros s11 E11.
  apply refused_store; [apply (Hblk s11 ltac:(evo) 3); lia|apply Hcov9; [lia|evo]|]. intros s12 E12.
  apply refused_store; [apply (Hblk s12 ltac:(evo) 2); lia|apply Hcov9; [lia|evo]|]. intros s13 E13.
  assert (evolves nothing s8 s13) as E8 by evo.
  apply refused_store; [apply (ev_dom _ _ _ E8), (mp_lists _ _ Hm nl); cbn; lia|apply (ev_cover _ _ _ E8), C8; unfold hdr_len; lia|]. intros s14 E14.
  assert (evolves nothing s8 s14) as E8' by evo.
  apply refused_store; [apply (ev_dom _ _ _ E8'), (mp_stats _ _ Hm 11); lia|apply (ev_cover _ _ _ E8'), C8; unfold hdr_len; cbn; lia|]. intros s15 E15.
  left. unfold mbnd, massert. destruct (Z.leb_spec (top g) (base + len)); [lia|done].
Qed.

Lemma rds_init_heap_refused s : ~ fits base len c nl -> mapped g (mem s) -> tid_live s = true ->
  refused (rds_init_heap base len c nl s).
Proof using Hok RVMLaws0.
  intros Hfit Hm Hl. pose proof Hok as [Hb Hc _ Hnl Hlen _ _]. destruct init_unwrap as (W1 & W2 & _). unfold rds_init_heap. rewrite W1, W2.
  destruct (Z.ltb_spec len (hdr_len nl)) as [?|_]; [lia|].
  apply refused_announce; [done|]. intros s1 E1 C1. apply refused_bind with (P := fun _ s' => s' = s1).
  { apply wp_massert; [apply Z.leb_le; lia|done]. }
  intros _ s' ->. eapply refused_bind; [apply init_header_spec; [by eapply mapped_step|done]|]. intros _ s2 (E2 & _ & _).
  apply init_block_refused; [done|eapply mapped_step; [done|evo]| |rewrite (ev_live nothing s s2) by evo; done].
  intros x Hx. apply (ev_cover _ _ _ E2). auto.
Qed.

Lemma version_differs_spec vs a s :
  (forall k v, vs !! k = Some v -> mem s !! (a + Z.of_nat k) = Some v) -> wp (version_differs a vs) (fun r s' => r = false /\ s' = s) s.
Proof.
  revert a. induction vs as [|v vs IH]; intros a H; cbn [version_differs]; [by apply wp_ret|].
  pose proof (H 0%nat v eq_refl) as Hv. rewrite Z.add_0_r in Hv. apply wp_bind, (wp_ld _ _ _ _ Hv). rewrite Z.eqb_refl.
  apply IH. intros k w Hk. replace (a + 1 + Z.of_nat k) with (a + Z.of_nat (S k)) by lia. by apply (H (S k)).
Qed.

Lemma rds_start_heap_spec s :
  fresh (mem s) -> wp (rds_start_heap base) (fun _ s' => err s' = 0 /\ mem s' = mem s /\ tid_live s' = tid_live s /\ heap_ok g [] s') s.
Proof using Hok.
  intros F. pose proof Hok as [Hb Hc _ Hnl Hlen _ _]. pose proof (f_rep _ F) as R. destruct init_unwrap as (W1 & W2 & W3).
  unfold rds_start_heap. apply wp_bind. eexists tt, _. split; [done|]. apply wp_bind. eapply wp_mono; [apply version_differs_spec; exact (f_version _ F)|].
  intros r s' [-> ->]. apply wp_bind, (wp_hdr g _ nl); [done|apply (r_nl R)|]. apply wp_bind, (wp_hdr g _ len); [done|apply (f_length _ F)|].
  apply wp_bind, (wp_hdr g _ c); [done|apply (r_chunk R)|]. destruct (Z.eqb_spec c 0); [lia|]. rewrite W1, W2, W3.
  apply wp_bind. eexists tt, _. split; [done|]. apply wp_bind. eexists tt, _. split; [done|]. apply wp_ret. split; [done|]. split; [done|]. split; [done|].
  apply fresh_heap_ok; [done|done|]. cbn. lia.
Qed.

End Layout.

End Init.
End RdsInit.
