(* ===== verification/RdsIntent.v ===== *)
(** * The recoverable heap: deferred frees

    rds_fake_free notes the blocks that a transaction frees; rds_do_free frees them
    all, or none, when the transaction commits. *)
From Stdlib Require Import ZArith Lia.
From stdpp Require Import base list numbers gmap.
From S2P Require Import Prelude.
From S2P Require Import PdbArray.
From S2P Require Import RdsMem.
From S2P Require Import Rds.
From S2P Require Import RdsHeap.
From S2P Require Import RdsLists.
From S2P Require Import RdsMerge.
From S2P Require Import RdsCoalesce.
From S2P Require Import RdsAlloc.
From S2P Require Import RdsApi.
Import RdsMem Rds RdsHeap RdsLists RdsMerge RdsCoalesce RdsAlloc RdsApi.
Open Scope Z_scope.

Module RdsIntent.

#[export] Instance in_allocs_proper c : Proper ((≡ₚ) ==> (=) ==> iff) (in_allocs c).
Proof. intros A B HAB x y ->. unfold in_allocs. split; intros (t & Ht & Hx); exists t; [rewrite <- HAB|rewrite HAB]; done. Qed.

(** The first [count] entries of the table are the noted addresses. *)
Record noted (l : intentions) (addrs : list Z) : Prop := {
  n_size : 0 <= i_size l < 2 ^ 40 /\ exists k, i_size l = 8 * k;
  n_table : match i_table l with
            | None => addrs = []
            | Some t => 8 * zlen t = i_size l /\ 0 < zlen t /\ i_count l = zlen addrs /\ exists rest, t = addrs ++ rest
            end
}.

Section Intent.
Context {tx : Type} `{!RVM tx, !RVMLaws tx}.
Context (g : geometry) (Hg : geo_ok g).
Abbreviation b := (g_base g).
Abbreviation c := (g_chunk g).
Implicit Types s : rds tx.

(** The loop of rds_do_free, from entry [i] on: the blocks [B] are still to be freed. *)
Lemma free_intentions_spec l t done_ B A' max T L s :
  i_table l = Some t -> i_count l = zlen done_ + zlen B ->
  (exists rest, t = done_ ++ ((fun u => USER_BLOCK (at_ u)) <$> B) ++ rest) ->
  heap_inv g (allocs T) max T L s -> allocs T ≡ₚ B ++ A' ->
  wp (loop_while (free_intention l) (zlen done_))
   (fun _ s' => evolves (in_allocs c A') s s' /\ (0 < err s' <= top_code \/ exists A1 max' T' L', A1 ≡ₚ A' /\ heap_inv g A1 max' T' L' s')) s.
Proof using Hg.
  intros Hl Hcount (rest & Et) V HA.
  apply (wp_loop (fun m i s' => exists D B' T' L', (done_ ++ ((fun u => USER_BLOCK (at_ u)) <$> B) = D ++ ((fun u => USER_BLOCK (at_ u)) <$> B')) /\ i = zlen D /\ m = length B' /\
    zlen D + zlen B' = i_count l /\ evolves (in_allocs c A') s s' /\ allocs T' ≡ₚ B' ++ A' /\ heap_inv g (allocs T') max T' L' s') _ _ (length B)).
  - exists done_, B, T, L. split; [done|]. split; [done|]. split; [done|]. split; [lia|]. done.
  - assert (length B <= length (allocs T))%nat by (rewrite HA, length_app; lia). assert (length (allocs T) <= length T)%nat by apply length_filter.
    pose proof (tiles_count g 0 _ _ _ _ Hg (h_rep (v_held V))). lia.
  - intros m i s1 (D & B' & T1 & L1 & ED & -> & -> & Hc & E1 & HA1 & V1). destruct B' as [|u B'].
    + rewrite zlen_nil in Hc. unfold free_intention. destruct (Z.ltb_spec (zlen D) (i_count l)); [lia|]. cbn [negb]. apply wp_ret. split; [done|]. right. by exists (allocs T1), max, T1, L1.
    + rewrite zlen_cons in Hc. pose proof (zlen_nonneg B'). pose proof (zlen_nonneg D). unfold free_intention. rewrite Hl. destruct (Z.ltb_spec (zlen D) (i_count l)); [|lia]. cbn [negb].
      apply wp_bind. exists (USER_BLOCK (at_ u)), s1. split.
      { unfold lift. rewrite (aget_ok t (zlen D) (USER_BLOCK (at_ u))); [done|lia|]. rewrite Et, app_assoc, ED, fmap_cons, <- app_assoc.
        unfold zlen. rewrite Nat2Z.id. by rewrite lookup_app_r, Nat.sub_diag by lia. }
      cbn zeta. replace (BLOCK_HDR (USER_BLOCK (at_ u))) with (at_ u) by (unfold BLOCK_HDR, USER_BLOCK; lia).
      assert (u ∈ allocs T1) as Hu by (rewrite HA1; apply list_elem_of_here). apply elem_of_allocs in Hu as [Hu Hs]. destruct u as [p k w]. cbn in Hs. subst w. cbn [at_].
      pose proof (v_held V1) as HH1. pose proof (h_rep HH1) as R1.
      apply wp_bind, (wp_ld _ _ _ _ (tm_type (r_tiles R1 _ Hu))). apply wp_bind, wp_massert; [done|].
      apply (wp_announce (in_allocs c A')); [apply (h_live HH1)|intros s2 E2 M2 He2; split; [evo|by left]|]. intros s2 E2 M2 He2 C2.
      apply list_elem_of_split in Hu as (Ta & Tb & ->).
      apply wp_bind. eapply wp_mono; [eapply (free_block_spec g Hg Ta p k Tb L1 max s2)|].
      * eapply held_same; [exact HH1|exact E2|done].
      * eapply complete_drop, (v_complete V1).
      * eapply classed_drop, (v_classed V1).
      * eapply stats_covered_step; [exact E2|apply (v_stats V1)].
      * intros x Hx. apply C2. lia.
      * rewrite He2. apply (v_err V1).
      * assert (allocs (Ta ++ Tb) ≡ₚ B' ++ A') as HA2.
        { apply (Permutation_cons_inv (a := Tile p k Allocd)). rewrite <- HA1, !allocs_app. unfold allocs at 4. rewrite filter_cons_True by done. apply Permutation_middle. }
        intros _ s3 [E3 Hr]. assert (evolves (in_allocs c A') s s3) as E03.
        { etransitivity; [exact E1|]. etransitivity; [exact E2|]. eapply evolves_weaken; [exact E3|]. intros x (v & Hv & Hx). exists v. split; [|done]. rewrite HA2. set_solver. }
        destruct Hr as [He3|(He3 & T3 & L3 & H3 & Hcm & Hcl & _)]; apply wp_bind.
        -- apply (wp_get_err (err s3)); [done|]. destruct (Z.eqb_spec (err s3) 0); [lia|]. cbn [negb]. apply wp_ret. split; [done|by left].
        -- apply (wp_get_err 0); [done|]. cbn [Z.eqb negb]. apply wp_ret. exists (length B'). split; [cbn; lia|].
           exists (D ++ [USER_BLOCK p]), B', T3, L3. split; [rewrite ED, fmap_cons, <- app_assoc; done|].
           split; [rewrite zlen_app, zlen_cons, zlen_nil; lia|]. split; [done|]. split; [rewrite zlen_app, zlen_cons, zlen_nil; lia|]. split; [done|].
           rewrite (h_allocs H3). split; [done|]. split; [done|done|done| |done].
           eapply (stats_covered_step g (in_allocs c A') s s3); [done|apply (v_stats V)].
Qed.

(** All noted blocks are free again, and the others untouched. *)
Definition all_freed (A' : list tile) (s s' : rds tx) : Prop :=
  (exists A1, A1 ≡ₚ A' /\ heap_ok g A1 s') /\ forall x, in_allocs c A' x -> mem s' !! x = mem s !! x.

Definition do_free_post (A' : list tile) (s : rds tx) (r : Z) (s' : rds tx) : Prop :=
  (r = 0 /\ all_freed A' s s') \/ (0 < r <= top_code /\ (mem s' = mem s \/ all_freed A' s s')).

Lemma rds_do_free_spec l t B A A' s :
  heap_ok g A s -> i_table l = Some t -> noted l ((fun u => USER_BLOCK (at_ u)) <$> B) -> A ≡ₚ B ++ A' ->
  wp (rds_do_free l) (fun r s' => do_free_post A' s r.1 s') s.
Proof using Hg RVMLaws0.
  intros Hok Ht [_ Hn] HA. rewrite Ht in Hn. destruct Hn as (_ & _ & Hcount & rest & Et). pose proof Hok as (T & L & max & R & Hcm & Hcl & EA & Hst & Hhi).
  assert (zlen ((fun u => USER_BLOCK (at_ u)) <$> B) = zlen B) as Hz by (unfold zlen; by rewrite length_fmap). rewrite Hz in Hcount.
  set (keep := in_allocs c A'). unfold rds_do_free. apply wp_bind. eexists tt, _. split; [done|].
  apply wp_bind. unfold wp at 1, rvm_begin_transaction, on_tid. cbn. destruct (begin_transaction (rvm s)) as [r t1] eqn:Eb. pose proof (begin_code _ _ _ Eb).
  eexists r, _. split; [done|]. destruct (Z.eqb_spec r 0) as [->|Hr]; cbn [negb].
  2:{ apply wp_bind. eexists tt, _. split; [done|]. apply wp_ret. right. cbn. split; [lia|]. by left. }
  set (s1 := with_rvm (with_live s true) t1). assert (logged (mem s) s1) as Hlog.
  { split; cbn; [by destruct (begin_law _ _ (mem s) Eb)|]. intros x Hx. done. }
  apply wp_bind, (wp_set_err keep). intros s2 E2 M2 He2. assert (start s2 = b) as Hst2 by (by rewrite (ev_start _ _ _ E2)).
  assert (tid_live s2 = true) as Hl2 by (by rewrite (ev_live _ _ _ E2)).
  apply wp_bind. unfold announce_stats. apply (wp_mono _ (fun _ s3 => evolves keep s1 s3 /\ (0 < err s3 <= top_code \/ err s3 = 0 /\ exists A1, A1 ≡ₚ A' /\ heap_ok g A1 s3))).
  { apply wp_bind, (wp_get_start b); [done|]. apply (wp_announce keep); [done|intros; split; [evo|auto]|]. intros s3 E3 M3 He3 C3.
    eapply wp_mono; [apply (free_intentions_spec l t [] B A' max T L s3); [done|rewrite zlen_nil; lia|by exists rest| |by rewrite EA]|].
    - split; [|done|done|exact C3|congruence]. split; [by rewrite M3, M2|done| | |].
      + by rewrite (ev_start _ _ _ E3).
      + by rewrite (ev_live _ _ _ E3).
      + rewrite (ev_high _ _ _ E3), (ev_high _ _ _ E2). done.
    - intros _ s4 [E4 [He4|(A1 & m4 & T4 & L4 & HA1 & V4)]]; (split; [evo|]); [by left|]. right. split; [apply (v_err V4)|].
      exists A1. split; [done|]. by eapply heap_inv_ok. }
  intros _ s3 [E3 Hr]. assert (tid_live s3 = true) as Hl3 by (by rewrite (ev_live _ _ _ E3)). destruct Hr as [He3|(He3 & A1 & HA1 & Hok3)].
  - apply wp_bind, (wp_get_err (err s3)); [done|]. destruct (Z.eqb_spec (err s3) 0); [lia|]. cbn [negb].
    pose proof (abort_tid_spec g A' false s1 s3 eq_refl (fun _ => Hlog) E3) as Hab. unfold abort_tid in Hab.
    destruct Hab as (u & s4 & Eab & (M4 & _) & He4). unfold mbnd in Eab. destruct (rvm_abort_transaction s3) as [[[] s5]|] eqn:E5; [|done].
    apply wp_bind. exists 0, s5. split; [unfold mbnd; by rewrite E5|]. apply wp_bind. exists u, s4. split; [done|]. apply wp_ret.
    right. cbn. split; [done|]. by left.
  - apply wp_bind, (wp_get_err 0); [done|]. cbn [Z.eqb negb]. apply wp_bind. unfold wp at 1, rvm_end_transaction, on_tid. rewrite Hl3.
    destruct (end_transaction (mem s3) (rvm s3)) as [r t2] eqn:Ee. pose proof (end_code _ _ _ _ Ee). eexists r, _. split; [done|].
    apply wp_bind. unfold wp at 1, rvm_free_tid, on_tid. cbn. rewrite Hl3. eexists _, _. split; [done|]. apply wp_ret. cbn [fst].
    assert (forall s', mem s' = mem s3 -> start s' = start s3 -> high s' = high s3 -> all_freed A' s s') as Hall.
    { intros s' Em Es Eh. split; [exists A1; split; [done|by eapply heap_ok_same]|]. intros x Hx. rewrite Em. apply (ev_keep _ _ _ E3 x Hx). }
    destruct (decide (r = 0)) as [->|Hr]; [left|right]; (split; [done || lia|]); [|right]; by apply Hall.
Qed.

(** ** rds_fake_free *)
Section FakeFree.
Context {HAl : Alloc} {HAlOk : AllocOk}.

(** The copy into a table of twice the size. *)
Lemma copy_table (t t' : list Z) n :
  0 <= n <= zlen t -> n <= zlen t' ->
  exists t'', forZ 0 n (fun k t' => rbind (aget t k) (fun x => aset t' k x)) t' = Ret t'' /\
    zlen t'' = zlen t' /\ take (Z.to_nat n) t'' = take (Z.to_nat n) t.
Proof.
  intros Hn Hn'. apply (forZ_total (fun k t'' => zlen t'' = zlen t' /\ take (Z.to_nat k) t'' = take (Z.to_nat k) t)); [lia|done|].
  intros k u Hk [Hz Ht]. unfold zlen in *. destruct (lookup_lt_is_Some_2 t (Z.to_nat k) ltac:(lia)) as [x Hx].
  exists (<[Z.to_nat k := x]> u). rewrite (aget_ok t k x), length_insert by (lia || done). cbn [rbind]. rewrite aset_ok by (unfold zlen; lia).
  split; [done|]. split; [done|]. replace (Z.to_nat (k + 1)) with (S (Z.to_nat k)) by lia.
  rewrite (take_S_r _ _ x), (take_S_r t _ x), take_insert_ge, Ht by (try rewrite list_lookup_insert_eq by lia; done || lia). done.
Qed.

Lemma malloc_table_spec n s : 0 <= n -> wp (malloc_table n) (fun t s' => zlen t = n / 8 /\ s' = s) s.
Proof using HAlOk.
  intros Hn. unfold malloc_table. rewrite (alloc_ok n) by done. apply wp_ret. split; [|done]. unfold zlen. rewrite length_replicate.
  pose proof (Z.div_pos n 8). lia.
Qed.

(** A table with room behind the noted addresses takes one more. *)
Lemma note_one t addrs a size :
  zlen addrs < zlen t -> 8 * zlen t = size -> size < 2 ^ 40 -> take (Z.to_nat (zlen addrs)) t = addrs ->
  exists t', aset t (zlen addrs) a = Ret t' /\
    noted {| i_size := size; i_count := u64 (zlen addrs + 1); i_table := Some t' |} (addrs ++ [a]).
Proof.
  intros Hlt Hs Hb Ht. pose proof (zlen_nonneg addrs). eexists. split; [apply aset_ok; lia|].
  assert (t = addrs ++ drop (length addrs) t) as Et by (rewrite <- (take_drop (length addrs) t) at 1; f_equal; unfold zlen in Ht; by rewrite Nat2Z.id in Ht).
  split; cbn [i_size i_table i_count]; [split; [lia|by exists (zlen t)]|]. rewrite uwrap_small, zlen_app by (unfold zlen in *; cbn; lia).
  unfold zlen in *. rewrite Nat2Z.id, length_insert. cbn [length]. do 2 (split; [lia|]). split; [lia|].
  destruct (drop (length addrs) t) as [|x rest] eqn:Ed; [rewrite app_nil_r in Et; rewrite Et in Hlt; lia|].
  exists rest. rewrite Et, <- app_assoc. by rewrite insert_app_r_alt, Nat.sub_diag by lia.
Qed.

Lemma rds_fake_free_spec A s p k l addrs :
  heap_ok g A s -> Tile p k Allocd ∈ A -> noted l addrs -> zlen addrs < 2 ^ 36 ->
  wp (rds_fake_free (USER_BLOCK p) l) (fun r s' => r.1 = 0 /\ s' = s /\ noted r.2 (addrs ++ [USER_BLOCK p])) s.
Proof using Hg HAlOk.
  intros Hok Hin [[Hsz [j Hj]] Hn] Hsmall. destruct (block_guards g Hg A s p k Hok Hin) as (Hp & Hal & Hty & e & Hend & Hge).
  pose proof (geo_base g Hg). pose proof Hok as (_ & _ & _ & _ & _ & _ & _ & Hst & _). pose proof (zlen_nonneg addrs).
  unfold rds_fake_free, HEAP_INIT. replace (BLOCK_HDR (USER_BLOCK p)) with p by (unfold BLOCK_HDR, USER_BLOCK; lia).
  apply wp_bind, wp_bind, (wp_get_start b); [done|]. apply wp_ret. destruct (Z.eqb_spec b 0) as [?|_]; [lia|]. cbn [negb].
  destruct (Z.eqb_spec (USER_BLOCK p) 0) as [?|_]; [unfold USER_BLOCK in *; lia|]. rewrite Hal. cbn [negb Z.eqb].
  apply wp_bind, (wp_ld _ _ _ _ Hty). change (ALLOC_GUARD =? FREE_GUARD) with false. rewrite Z.eqb_refl. cbn [negb].
  apply wp_bind. eapply wp_mono; [exact Hend|]. intros ? ? [-> ->]. apply wp_bind, (wp_ld _ _ _ _ Hge). rewrite Z.eqb_refl. cbn [negb].
  apply wp_bind. apply (wp_mono _ (fun '(size, count, t) s' => s' = s /\ count = zlen addrs /\ zlen addrs < zlen t /\ 8 * zlen t = size /\ size < 2 ^ 40 /\ take (Z.to_nat (zlen addrs)) t = addrs)).
  - destruct (i_table l) as [t|] eqn:Et.
    + destruct Hn as (Hz & Hpos & Hc & rest & Er). rewrite Hc. rewrite uwrap_small by (unfold zlen in *; lia).
      assert (zlen addrs <= zlen t) as Hle by (rewrite Er, zlen_app; pose proof (zlen_nonneg rest); lia).
      assert (take (Z.to_nat (zlen addrs)) t = addrs) as Htk by (rewrite Er; unfold zlen; by rewrite Nat2Z.id, take_app_length).
      destruct (Z.eqb_spec (zlen addrs * 8) (i_size l)) as [Efull|Hroom].
      * rewrite uwrap_small by lia. apply wp_bind. eapply wp_mono; [apply malloc_table_spec; lia|]. intros t' s' [Ht' ->].
        assert (zlen t' = 2 * zlen t) as Ht2 by (rewrite Ht'; replace (i_size l * 2) with (2 * zlen t * 8) by lia; apply Z.div_mul; lia).
        destruct (copy_table t t' (zlen addrs)) as (u & Eu & Hu & Htu); [lia|lia|]. apply wp_bind. exists u, s. split; [unfold lift; by rewrite Eu|].
        apply wp_ret. split; [done|]. split; [done|]. split; [lia|]. split; [lia|]. split; [lia|]. congruence.
      * apply wp_ret. split; [done|]. split; [done|]. split; [lia|]. split; [done|]. split; [lia|done].
    + subst addrs. apply wp_bind. eapply wp_mono; [apply malloc_table_spec; unfold STARTSIZE; lia|]. intros t' s' [Ht' ->]. apply wp_ret.
      change (STARTSIZE / 8) with 16 in Ht'. split; [done|]. split; [done|]. unfold STARTSIZE. rewrite zlen_nil. split; [lia|]. split; [lia|]. split; [lia|done].
  - intros [[size count] t] s' (-> & -> & Hlt & Hs & Hb & Htk). destruct (note_one t addrs (USER_BLOCK p) size Hlt Hs Hb Htk) as (t' & Eset & Hnoted).
    apply wp_bind. exists t', s. split; [unfold lift; by rewrite Eset|]. by apply wp_ret.
Qed.

End FakeFree.

End Intent.
End RdsIntent.
