(* ===== verification/RdsClient.v ===== *)
(** * The recoverable heap: a client's transaction

    A client allocates, writes and frees in one transaction, and aborts it when a
    call reports an error.  Whatever the sequence of its calls, the heap stays
    well-formed, the client's words stay as written, and an abort brings everything
    back. *)
From Stdlib Require Import ZArith Lia.
From stdpp Require Import base list numbers gmap.
From S2P Require Import Prelude.
From S2P Require Import RdsMem.
From S2P Require Import Rds.
From S2P Require Import RdsHeap.
From S2P Require Import RdsLists.
From S2P Require Import RdsMerge.
From S2P Require Import RdsCoalesce.
From S2P Require Import RdsAlloc.
From S2P Require Import RdsApi.
From S2P Require Import RdsIntent.
Import RdsMem Rds RdsHeap RdsLists RdsMerge RdsCoalesce RdsAlloc RdsApi RdsIntent.
Open Scope Z_scope.

Module RdsClient.

(** What the client knows: its blocks with the sizes it asked for, and the words
    it wrote to them. *)
Record client := Client { own : list (Z * Z); words : gmap Z Z }.
Inductive op := OMalloc (size : Z) | OFree (i : nat) | OWrite (i : nat) (off v : Z).

Definition in_block (b : Z * Z) (x : Z) : Prop := b.1 <= x < b.1 + b.2.
#[export] Instance in_block_dec b x : Decision (in_block b x).
Proof. unfold in_block. apply _. Defined.

Section Code.
Context {tx : Type} `{!RVM tx}.

Definition run_op (o : op) (cl : client) : M tx (option client) :=
  match o with
  | OMalloc size =>
      let! p := rds_malloc size true in
      let! e := get_err in
      ret (if e =? 0 then Some (Client ((p, size) :: own cl) (words cl)) else None)
  | OFree i =>
      match own cl !! i with
      | None => ret (Some cl)
      | Some blk =>
          rds_free blk.1 true ;;!
          let! e := get_err in
          ret (if e =? 0 then Some (Client (delete i (own cl)) (filter (fun w => ~ in_block blk w.1) (words cl))) else None)
      end
  | OWrite i off v =>
      match own cl !! i with
      | None => ret (Some cl)
      | Some (p, n) =>
          if (0 <=? off) && (off + 8 <=? n) && (off mod 8 =? 0) then
            let! r := rvm_set_range (p + off) 8 in
            if r =? 0 then sto (p + off) v ;;! ret (Some (Client (own cl) (<[p + off := v]> (words cl)))) else ret None
          else ret (Some cl)
      end
  end.

Fixpoint run_ops (os : list op) (cl : client) : M tx (option client) :=
  match os with
  | [] => ret (Some cl)
  | o :: os => let! r := run_op o cl in match r with None => ret None | Some cl => run_ops os cl end
  end.

(** [None]: the transaction was aborted, or could not begin. *)
Definition transaction (os : list op) (cl : client) : M tx (option client) :=
  rvm_malloc_tid ;;!
  let! r := rvm_begin_transaction in
  if negb (r =? 0) then rvm_free_tid ;;! ret None else
  let! res := run_ops os cl in
  match res with
  | None => rvm_abort_transaction ;;! rvm_free_tid ;;! ret None
  | Some cl => rvm_end_transaction ;;! rvm_free_tid ;;! ret (Some cl)
  end.

End Code.

Section Client.
Context {tx : Type} `{!RVM tx, !RVMLaws tx}.
Context (g : geometry) (Hg : geo_ok g).
Abbreviation b := (g_base g).
Abbreviation c := (g_chunk g).
Implicit Types s : rds tx.

Definition chunks (n : Z) : Z := (n + 24) / c + 1.
Definition op_ok (o : op) : Prop := match o with OMalloc n => 0 <= n < 2 ^ 64 - 24 /\ chunks n < 2 ^ 30 | _ => True end.
Definition tile_of (blk : Z * Z) : tile := Tile (BLOCK_HDR blk.1) (chunks blk.2) Allocd.

(** The blocks of the client are exactly the allocated ones, and its words are in
    memory. *)
Record client_ok (cl : client) (s : rds tx) : Prop := {
  c_heap : exists A, A ≡ₚ (tile_of <$> own cl) /\ heap_ok g A s;
  c_size : forall blk, blk ∈ own cl -> 0 <= blk.2;
  c_words : forall x v, words cl !! x = Some v -> mem s !! x = Some v /\ exists blk, blk ∈ own cl /\ in_block blk x
}.

(** The words the client asked for lie between the header and the end guard. *)
Lemma in_block_in_tile blk x : 0 <= blk.2 -> in_block blk x ->
  BLOCK_HDR blk.1 + 16 <= x < end_ c (tile_of blk) - 8.
Proof using Hg.
  intros Hn [H1 H2]. unfold tile_of, end_, chunks, BLOCK_HDR. cbn [at_ sz]. pose proof (chunk_40 _ Hg).
  pose proof (Z.mul_succ_div_gt (blk.2 + 24) c ltac:(lia)). nia.
Qed.

Lemma in_own_in_allocs (A : list tile) l blk x :
  A ≡ₚ (tile_of <$> l) -> blk ∈ l -> 0 <= blk.2 -> in_block blk x -> in_allocs c A x.
Proof using Hg.
  intros HA Hin Hn Hx. exists (tile_of blk). split; [rewrite HA; by apply list_elem_of_fmap_2|].
  pose proof (in_block_in_tile blk x Hn Hx). unfold tile_of at 1. cbn [at_]. lia.
Qed.

Lemma rep_user_write m T1 p k T2 L max x v :
  heap_rep g 0 m (T1 ++ Tile p k Allocd :: T2) L max -> is_Some (m !! x) -> p + 16 <= x < p + k * c - 8 ->
  heap_rep g 0 (<[x := v]> m) (T1 ++ Tile p k Allocd :: T2) L max.
Proof using Hg.
  intros R Hx Hin. pose proof (in_mid T1 (Tile p k Allocd) T2) as Ht. destruct (r_tiles R _ Ht) as [h1 h2 h3].
  pose proof (tile_bounds Hg R _ Ht) as (Hlo & Hb & _ & Hk). unfold end_ in *. cbn [at_ sz st] in *. pose proof (lo_above _ Hg).
  apply (rep_retile g 0 m _ T1 [Tile p k Allocd] [Tile p k Allocd] T2 L max p (p + k * c)); [done|done|by left| |done| | | | | |].
  - cbn. unfold end_. cbn. lia.
  - cbn. unfold end_. cbn. lia.
  - intros t Ht'. assert (t = Tile p k Allocd) as -> by set_solver. split; unfold end_; cbn [at_ sz st guard_of].
    + by rewrite lookup_insert_ne by lia.
    + intros _. rewrite lookup_insert_ne by lia. apply h2. lia.
    + by rewrite lookup_insert_ne by lia.
  - intros y Hy. rewrite lookup_insert_is_Some'. tauto.
  - intros y Hy. by rewrite lookup_insert_ne by lia.
  - intros i q. split; intros [y Hy]; set_solver.
  - intros i q y Hy. set_solver.
Qed.

(** A call in the client's transaction: all went well, or an abort is due. *)
Definition step_post (s : rds tx) (r : option client) (s' : rds tx) : Prop :=
  evolves (fun _ => False) s s' /\ forall cl, r = Some cl -> client_ok cl s'.

Lemma drop_keep keep s s' : evolves keep s s' -> evolves (fun _ => False) s s'.
Proof. intros E. by eapply evolves_weaken. Qed.

Lemma run_malloc size cl s :
  client_ok cl s -> tid_live s = true -> op_ok (OMalloc size) -> wp (run_op (OMalloc size) cl) (step_post s) s.
Proof using Hg.
  intros [(A & HA & Hok) Hsz Hw] Hl [Hs Hk]. unfold run_op. apply wp_bind.
  eapply wp_mono; [apply (rds_malloc_spec g Hg A true size s Hok Hs Hk); done|]. intros r s1 Hpost.
  apply wp_bind, (wp_get_err (err s1)); [done|]. apply wp_ret.
  destruct Hpost as [(He & p & -> & (A' & HA' & Hok' & _ & _ & Hkeep) & Hev)|Hbad].
  - rewrite He. cbn [Z.eqb]. split; [by eapply drop_keep, Hev|]. intros cl' [= <-]. split; cbn [own words].
    + exists A'. split; [|done]. rewrite HA', HA. rewrite fmap_cons. unfold tile_of at 2. cbn [fst snd]. unfold BLOCK_HDR, USER_BLOCK.
      by replace (p + off_prev - 16) with p by lia.
    + intros blk [->|Hb]%elem_of_cons; [cbn; lia|auto].
    + intros x v Hx. destruct (Hw x v Hx) as (Hm & blk & Hb & Hin). split; [|exists blk; split; [by right|done]].
      rewrite Hkeep; [done|]. by eapply in_own_in_allocs; [|exact Hb|apply Hsz|].
  - assert (evolves (in_allocs c A) s s1 /\ err s1 <> 0) as [E He].
    { destruct Hbad as [(He & _ & _ & Hu)|(He & _ & [Hu|[? _]])]; [split; [exact Hu|by rewrite He]|split; [exact Hu|lia]|done]. }
    destruct (Z.eqb_spec (err s1) 0); [done|]. split; [by eapply drop_keep|done].
Qed.

Lemma delete_fmap_perm {X Y} (f : X -> Y) (l : list X) i x : l !! i = Some x -> (f <$> l) ≡ₚ f x :: (f <$> delete i l).
Proof. intros Hi. rewrite <- fmap_cons. apply fmap_Permutation. by rewrite <- (delete_Permutation l i x). Qed.

Lemma run_free i cl s :
  client_ok cl s -> tid_live s = true -> wp (run_op (OFree i) cl) (step_post s) s.
Proof using Hg.
  intros Hcl Hl. pose proof Hcl as [(A & HA & Hok) Hsz Hw]. cbn [run_op]. destruct (own cl !! i) as [blk|] eqn:Hi.
  2:{ apply wp_ret. split; [done|]. by intros ? [= <-]. }
  assert (A ≡ₚ tile_of blk :: (tile_of <$> delete i (own cl))) as HA2 by (rewrite HA; by apply delete_fmap_perm).
  apply wp_bind. replace blk.1 with (USER_BLOCK (BLOCK_HDR blk.1)) by (unfold USER_BLOCK, BLOCK_HDR; lia).
  eapply wp_mono; [eapply (rds_free_spec g Hg A _ true s _ _ Hok HA2); done|]. intros r s1 (A1 & HA1 & Hpost).
  apply wp_bind, (wp_get_err (err s1)); [done|]. apply wp_ret.
  destruct Hpost as [(He & _ & (Hok1 & _ & _ & _ & Hkeep) & Hev)|(He & [Hu|[? _]])]; [| |done].
  - rewrite He. cbn [Z.eqb]. split; [by eapply drop_keep, Hev|]. intros cl' [= <-]. split; cbn [own words].
    + by exists A1.
    + intros d Hd. apply Hsz. rewrite (delete_Permutation _ _ _ Hi). by right.
    + intros x v [Hx Hout]%map_lookup_filter_Some. cbn in Hout. destruct (Hw x v Hx) as (Hm & d & Hd & Hin).
      assert (d ∈ delete i (own cl)) as Hd'.
      { rewrite (delete_Permutation _ _ _ Hi) in Hd. apply elem_of_cons in Hd as [->|Hd]; [|done]. exfalso. apply Hout.
        by replace (USER_BLOCK (BLOCK_HDR blk.1)) with blk.1 by (unfold USER_BLOCK, BLOCK_HDR; lia). }
      split; [|by exists d]. rewrite Hkeep; [done|]. eapply in_own_in_allocs; [exact HA1|exact Hd'|by apply Hsz|done].
  - destruct (Z.eqb_spec (err s1) 0); [lia|]. split; [by eapply drop_keep|done].
Qed.

(** A word of a block: mapped, and the heap does not depend on it. *)
Lemma user_word A s p k x v :
  heap_ok g A s -> Tile p k Allocd ∈ A -> p + 16 <= x < p + k * c - 8 -> (x - p) mod 8 = 0 ->
  is_Some (mem s !! x) /\ heap_ok g A (with_mem s (<[x := v]> (mem s))).
Proof using Hg.
  intros (T & L & max & R & Hcm & Hcl & EA & Hst & Hhi) Hin Hx Hmod. assert (Tile p k Allocd ∈ T) as Ht by (rewrite <- EA in Hin; by apply elem_of_allocs in Hin as [? _]).
  assert (is_Some (mem s !! x)) as Hcell.
  { apply Z.mod_divide in Hmod as [j Hj]; [|lia]. replace x with (p + 8 * j) by lia. apply (tile_cell Hg R _ j Ht); [lia|]. unfold end_. cbn. lia. }
  split; [done|]. apply list_elem_of_split in Ht as (T1 & T2 & ->). exists (T1 ++ Tile p k Allocd :: T2), L, max.
  split; [by apply rep_user_write|]. done.
Qed.

Lemma run_write i off v cl s :
  client_ok cl s -> tid_live s = true -> wp (run_op (OWrite i off v) cl) (step_post s) s.
Proof using Hg.
  intros Hcl Hl. pose proof Hcl as [(A & HA & Hok) Hsz Hw]. cbn [run_op]. destruct (own cl !! i) as [[p n]|] eqn:Hi.
  2:{ apply wp_ret. split; [done|]. by intros ? [= <-]. }
  pose proof (list_elem_of_lookup_2 _ _ _ Hi) as Hin.
  destruct (Z.leb_spec 0 off), (Z.leb_spec (off + 8) n), (Z.eqb_spec (off mod 8) 0) as [Hmod|]; cbn [andb];
    try (apply wp_ret; split; [done|]; by intros ? [= <-]).
  apply wp_bind, (wp_range (fun _ => False)); [done| |].
  { intros e s1 E1 M1 He1 Hpos. destruct (Z.eqb_spec e 0); [lia|]. apply wp_ret. done. }
  intros s1 E1 M1 He1 C1. cbn [Z.eqb].
  pose proof (in_block_in_tile (p, n) (p + off) ltac:(cbn; lia) ltac:(unfold in_block; cbn; lia)) as Hb. unfold end_, tile_of in Hb. cbn [at_ sz fst snd] in Hb.
  assert (heap_ok g A s1) as Hok1 by (eapply heap_ok_same; [exact Hok|done|apply (ev_start _ _ _ E1)|apply (ev_high _ _ _ E1)]).
  destruct (user_word A s1 (BLOCK_HDR p) (chunks n) (p + off) v Hok1) as [Hcell Hok2].
  { rewrite HA. apply (list_elem_of_fmap_2 tile_of _ _ Hin). } { lia. }
  { unfold BLOCK_HDR. replace (p + off - (p - 16)) with (off + 2 * 8) by lia. by rewrite Z.mod_add by lia. }
  apply wp_bind, wp_sto; [done|]. apply wp_ret. split.
  - etransitivity; [exact E1|]. apply evolves_store; [done|apply C1; lia|by intros []].
  - intros cl' [= <-]. split; cbn [own words mem with_mem]; [by exists A|done|]. intros x w. rewrite M1.
    destruct (decide (x = p + off)) as [->|Hne].
    + rewrite !lookup_insert_eq. intros [= <-]. split; [done|]. exists (p, n). split; [done|]. unfold in_block. cbn. lia.
    + rewrite !lookup_insert_ne by done. apply Hw.
Qed.

Lemma run_ops_spec os cl s :
  client_ok cl s -> tid_live s = true -> Forall op_ok os -> wp (run_ops os cl) (step_post s) s.
Proof using Hg.
  revert cl s. induction os as [|o os IH]; intros cl s Hcl Hl Hos; cbn [run_ops].
  - apply wp_ret. split; [done|]. by intros ? [= <-].
  - apply Forall_cons in Hos as [Ho Hos]. apply wp_bind. eapply wp_mono.
    { destruct o; [by apply run_malloc|by apply run_free|by apply run_write]. }
    intros [cl1|] s1 [E1 Hcl1]; [|by apply wp_ret].
    eapply wp_mono; [apply IH; [by apply Hcl1|by rewrite (ev_live _ _ _ E1)|done]|]. intros r s2 [E2 H2]. split; [by etransitivity|done].
Qed.

(** The whole transaction. *)
Definition transaction_post (cl : client) (s : rds tx) (r : option client) (s' : rds tx) : Prop :=
  match r with None => mem s' = mem s /\ client_ok cl s' | Some cl' => client_ok cl' s' end.

Lemma client_ok_same cl s s' : client_ok cl s -> mem s' = mem s -> start s' = start s -> high s' = high s -> client_ok cl s'.
Proof.
  intros [(A & HA & Hok) Hsz Hw] Hm Hs Hh. split; [|done|by rewrite Hm]. exists A. split; [done|]. by eapply heap_ok_same.
Qed.

Lemma transaction_spec os cl s :
  client_ok cl s -> Forall op_ok os -> wp (transaction os cl) (transaction_post cl s) s.
Proof using Hg RVMLaws0.
  intros Hcl Hos. unfold transaction. apply wp_bind. eexists tt, _. split; [done|].
  apply wp_bind. unfold wp at 1, rvm_begin_transaction, on_tid. cbn. destruct (begin_transaction (rvm s)) as [r t] eqn:Eb.
  eexists r, _. split; [done|]. destruct (Z.eqb_spec r 0) as [->|Hr]; cbn [negb].
  2:{ apply wp_bind. eexists tt, _. split; [done|]. apply wp_ret. split; [done|]. by eapply client_ok_same. }
  set (s1 := with_rvm (with_live s true) t). assert (logged (mem s) s1) as Hlog.
  { split; cbn; [by destruct (begin_law _ _ (mem s) Eb)|]. intros x Hx. done. }
  assert (client_ok cl s1) as Hcl1 by (by eapply client_ok_same).
  apply wp_bind. eapply wp_mono; [by apply run_ops_spec|]. intros [cl2|] s2 [E2 H2]; pose proof (ev_live _ _ _ E2) as Hl2; cbn in Hl2.
  - specialize (H2 cl2 eq_refl). apply wp_bind. unfold wp at 1, rvm_end_transaction, on_tid. rewrite Hl2.
    destruct (end_transaction (mem s2) (rvm s2)) as [r t2]. eexists r, _. split; [done|]. apply wp_bind.
    unfold wp at 1, rvm_free_tid, on_tid. cbn. rewrite Hl2. eexists _, _. split; [done|]. apply wp_ret. by eapply client_ok_same.
  - apply (ev_logged _ _ _ E2) in Hlog as [Hs Ha]. pose proof (abort_law _ _ _ Hs Ha) as Hm.
    apply wp_bind. unfold wp at 1, rvm_abort_transaction, on_tid. rewrite Hl2. destruct (abort_transaction (mem s2) (rvm s2)) as [m t2]. cbn in Hm. subst m.
    eexists tt, _. split; [done|]. apply wp_bind. unfold wp at 1, rvm_free_tid, on_tid. cbn. rewrite Hl2. eexists _, _. split; [done|]. apply wp_ret.
    split; [done|]. eapply client_ok_same; [exact Hcl|done| |]; cbn; [by rewrite (ev_start _ _ _ E2)|by rewrite (ev_high _ _ _ E2)].
Qed.

End Client.
End RdsClient.
