(* ===== verification/RdsSpec.v ===== *)
(** * The recoverable heap: theorems

    What rds_malloc, rds_free, the deferred frees and rds_init_heap promise over any
    RVM, and witnesses over a concrete undo log. *)
From Stdlib Require Import ZArith Lia.
From stdpp Require Import base list numbers gmap.
From S2P Require Import Prelude.
From S2P Require Import PdbArray.
From S2P Require Import RdsMem.
From S2P Require Import Rds.
From S2P Require Import RdsHeap.
From S2P Require Import RdsLists.
From S2P Require Import RdsMerge.
From S2P Require Import RdsCoalesce.
From S2P Require Import RdsAlloc.
From S2P Require Import RdsApi.
From S2P Require Import RdsInit.
From S2P Require Import RdsIntent.
From S2P Require Import RdsClient.
Import RdsMem Rds RdsHeap RdsLists RdsMerge RdsCoalesce RdsAlloc RdsApi RdsInit RdsIntent RdsClient.
Open Scope Z_scope.

(** ** An undo log

    An implementation of the interface: set_range copies the memory, abort copies the
    announced ranges back, newest first.  [answers] scripts the return codes, 0 when
    the script has ended. *)
Module UndoLog.

Record undo := { answers : list Z; log : list (Z * Z * memory) }.

(** The code for the next call; codes outside the range count as 200. *)
Definition pop (t : undo) : Z * list Z :=
  match answers t with [] => (0, []) | a :: l => (if (0 <=? a) && (a <=? 300) then a else 200, l) end.

Definition copy_cell (src : memory) (x : Z) (dst : memory) : memory :=
  match src !! x with Some v => <[x := v]> dst | None => delete x dst end.
Definition copy_range (a n : Z) (src dst : memory) : memory :=
  foldr (fun k => copy_cell src (a + Z.of_nat k)) dst (seq 0 (Z.to_nat n)).
Definition rollback (l : list (Z * Z * memory)) (m : memory) : memory :=
  foldl (fun m e => copy_range e.1.1 e.1.2 e.2 m) m l.

#[export] Instance undo_rvm : RVM undo := {|
  begin_transaction t := let '(r, l) := pop t in (r, {| answers := l; log := [] |});
  set_range m a n t := let '(r, l) := pop t in (r, {| answers := l; log := if r =? 0 then (a, n, m) :: log t else log t |});
  end_transaction m t := let '(r, l) := pop t in (r, {| answers := l; log := [] |});
  abort_transaction m t := (rollback (log t) m, {| answers := answers t; log := [] |}) |}.

Lemma copy_cell_lookup src x dst y : copy_cell src x dst !! y = if decide (y = x) then src !! y else dst !! y.
Proof.
  unfold copy_cell. destruct (decide (y = x)) as [->|Hne]; destruct (src !! x) eqn:E.
  - by rewrite lookup_insert_eq. - by rewrite lookup_delete_eq.
  - by rewrite lookup_insert_ne. - by rewrite lookup_delete_ne.
Qed.

Lemma copy_range_lookup a n src dst y :
  copy_range a n src dst !! y = if decide (a <= y < a + n) then src !! y else dst !! y.
Proof.
  unfold copy_range. assert (forall j k, foldr (fun k => copy_cell src (a + Z.of_nat k)) dst (seq j k) !! y =
    if decide (a + Z.of_nat j <= y < a + Z.of_nat (j + k)) then src !! y else dst !! y) as H.
  { intros j k. revert j. induction k as [|k IH]; intros j; cbn [seq foldr].
    - rewrite decide_False by lia. done.
    - rewrite copy_cell_lookup, IH. repeat case_decide; done || lia. }
  rewrite H. repeat case_decide; done || lia.
Qed.

Definition log_ranges (l : list (Z * Z * memory)) : list (Z * Z) := fst <$> l.

(** Rolling back restores the memory that the log was started from. *)
Definition restores (l : list (Z * Z * memory)) (m0 : memory) : Prop :=
  forall m, agree_off (log_ranges l) m0 m -> rollback l m = m0.

Lemma restores_nil m : restores [] m.
Proof. intros m' H. apply map_eq. intros x. symmetry. apply H. intros (r & Hr & _). set_solver. Qed.

Lemma restores_cons a n m l m0 : restores l m0 -> agree_off (log_ranges l) m0 m -> restores ((a, n, m) :: l) m0.
Proof.
  intros Hl Ha m' Hm'. change (rollback ((a, n, m) :: l) m') with (rollback l (copy_range a n m m')). apply Hl.
  intros x Hx. rewrite copy_range_lookup. case_decide as Hd; [by apply Ha|]. apply Hm'. intros (r & Hr & Hin).
  change (log_ranges ((a, n, m) :: l)) with ((a, n) :: log_ranges l) in Hr. apply elem_of_cons in Hr as [->|Hr]; [done|]. apply Hx. by exists r.
Qed.

Lemma pop_code t r l : pop t = (r, l) -> 0 <= r <= 300.
Proof. unfold pop. destruct (answers t) as [|a l']; [intros [= <- _]; lia|]. destruct (Z.leb_spec 0 a), (Z.leb_spec a 300); cbn; intros [= <- _]; lia. Qed.

#[export] Instance undo_laws : RVMLaws undo.
Proof.
  refine {| top_code := 300; ranges t := log_ranges (log t); saved t m0 := restores (log t) m0 |}.
  - intros t r t'. cbn. destruct (pop t) eqn:E. intros [= <- _]. by eapply pop_code.
  - intros m a n t r t'. cbn. destruct (pop t) eqn:E. intros [= <- _]. by eapply pop_code.
  - intros m t r t'. cbn. destruct (pop t) eqn:E. intros [= <- _]. by eapply pop_code.
  - intros t t' m. cbn. destruct (pop t) as [r l]. intros [= _ <-]. split; [done|]. apply restores_nil.
  - intros m a n t t'. cbn. destruct (pop t) as [r l]. intros [= -> <-]. split; [done|]. intros m0. apply restores_cons.
  - intros m a n t t' r. cbn. destruct (pop t) as [r' l]. intros [= <- <-] Hr. destruct (Z.eqb_spec r' 0); [done|]. done.
  - intros m m0 t Hs Ha. by apply Hs.
Defined.

(** The same log in an RVM whose calls all succeed. *)
Record sure := { undo_of : list (Z * Z * memory) }.

#[export] Instance sure_rvm : RVM sure := {|
  begin_transaction t := (0, {| undo_of := [] |});
  set_range m a n t := (0, {| undo_of := (a, n, m) :: undo_of t |});
  end_transaction m t := (0, {| undo_of := [] |});
  abort_transaction m t := (rollback (undo_of t) m, {| undo_of := [] |}) |}.

#[export] Instance sure_laws : RVMLaws sure.
Proof.
  refine {| top_code := 0; ranges t := log_ranges (undo_of t); saved t m0 := restores (undo_of t) m0 |}.
  - intros t r t' [= <- _]. lia.
  - intros m a n t r t' [= <- _]. lia.
  - intros m t r t' [= <- _]. lia.
  - intros t t' m [= <-]. split; [done|]. apply restores_nil.
  - intros m a n t t' [= <-]. split; [done|]. intros m0. apply restores_cons.
  - intros m a n t t' r [= <- <-]. done.
  - intros m m0 t Hs Ha. by apply Hs.
Defined.

End UndoLog.
Import UndoLog.

Module RdsSpec.

(** A mapped segment of [len] bytes at [b], all cells 0. *)
Definition row (a step n : Z) : memory := list_to_map ((fun k => (a + step * Z.of_nat k, 0)) <$> seq 0 (Z.to_nat n)).
Definition segment (b len : Z) : memory :=
  row b 1 80 ∪ row (b + 80) 8 3 ∪ row (b + 104) 4 13 ∪ row (b + 160) 8 ((len - 160) / 8).

(** The heap of the witnesses: 11 chunks of 64 bytes, 5 lists. *)
Abbreviation hb := 4096.
Abbreviation hlen := 1100.
Definition hgeo : geometry := layout hb hlen 64 5.

Lemma row_lookup a step n k : 0 <= k < n -> is_Some (row a step n !! (a + step * k)).
Proof.
  intros Hk. unfold row. destruct (list_to_map _ !! _) eqn:E; [eauto|]. apply not_elem_of_list_to_map_2 in E. exfalso. apply E.
  apply list_elem_of_fmap. exists (a + step * k, 0). split; [done|]. apply list_elem_of_fmap. exists (Z.to_nat k).
  rewrite Z2Nat.id by lia. split; [done|]. apply elem_of_seq. lia.
Qed.

Lemma hgeo_ok : layout_ok hb hlen 64 5.
Proof. split; try (vm_compute; split; congruence || done); try (vm_compute; congruence). by exists 8. Qed.
Lemma hgeo_fits : fits hb hlen 64 5.
Proof. unfold fits. vm_compute. congruence. Qed.

Lemma segment_mapped : mapped hgeo (segment hb 1200).
Proof.
  assert (forall k, 0 <= k < 80 -> is_Some (segment hb 1200 !! (hb + k))) as H1.
  { intros k Hk. unfold segment. do 3 (apply lookup_union_is_Some; left). replace (hb + k) with (hb + 1 * k) by lia. by apply row_lookup. }
  assert (forall k, 0 <= k < 3 -> is_Some (segment hb 1200 !! (hb + 80 + 8 * k))) as H2.
  { intros k Hk. unfold segment. do 2 (apply lookup_union_is_Some; left). apply lookup_union_is_Some; right. by apply row_lookup. }
  assert (forall k, 0 <= k < 13 -> is_Some (segment hb 1200 !! (hb + 104 + 4 * k))) as H3.
  { intros k Hk. unfold segment. apply lookup_union_is_Some; left. apply lookup_union_is_Some; right. by apply row_lookup. }
  assert (forall k, 0 <= k < 130 -> is_Some (segment hb 1200 !! (hb + 160 + 8 * k))) as H4.
  { intros k Hk. unfold segment. apply lookup_union_is_Some; right. by apply row_lookup. }
  split; cbn [g_base hgeo layout g_nl].
  - done.
  - apply (H2 0). lia.
  - apply (H2 1). lia.
  - apply (H2 2). lia.
  - apply (H4 0). lia.
  - done.
  - intros i Hi. unfold list_cell. cbn [g_base hgeo layout]. split.
    + replace (_ + off_guard) with (hb + 160 + 8 * (11 + 2 * i)) by lia. apply H4. lia.
    + replace (_ + off_head) with (hb + 160 + 8 * (12 + 2 * i)) by lia. apply H4. lia.
  - intros k Hk. change (g_lo hgeo) with 4480. change (top hgeo) with 5184. intros Hx.
    replace (4480 + 8 * k) with (hb + 160 + 8 * (28 + k)) by lia. apply H4. lia.
Qed.

(** The heap made by rds_init_heap and rds_start_heap on that segment. *)
Definition make_heap {tx} `{!RVM tx} (base len c nl : Z) : M tx Z :=
  let! r := rds_init_heap base len c nl in
  if r =? 0 then rds_start_heap base ;;! ret 0 else ret r.
Definition state_of {tx A} (r : res (A * rds tx)) (s : rds tx) : rds tx := match r with Ret (_, s') => s' | Stop _ => s end.
Definition raw {tx} (t : tx) : rds tx := Rds (segment hb 1200) t true 0 0 0.

Lemma make_heap_spec {tx} `{!RVM tx, !RVMLaws tx} base len c nl (s : rds tx) :
  layout_ok base len c nl -> fits base len c nl -> mapped (layout base len c nl) (mem s) -> tid_live s = true ->
  wp (make_heap base len c nl) (fun r s' => (0 < err s' <= top_code /\ r = -1) \/ (err s' = 0 /\ r = 0 /\ heap_ok (layout base len c nl) [] s')) s.
Proof.
  intros Hok Hfit Hm Hl. unfold make_heap. apply wp_bind. eapply wp_mono; [by apply rds_init_heap_spec|].
  intros r s1 [_ [[He ->]|(He & -> & F)]]; cbn [Z.eqb]; [apply wp_ret; by left|].
  apply wp_bind. eapply wp_mono; [by apply rds_start_heap_spec|]. intros r s2 (He2 & _ & _ & Hok2). apply wp_ret. by right.
Qed.

(** The two started heaps of the witnesses. *)
Definition scripted (l : list Z) : rds undo :=
  let s := state_of (make_heap hb hlen 64 5 (raw {| answers := []; log := [] |})) (raw {| answers := []; log := [] |}) in
  with_rvm s {| answers := l; log := [] |}.
Definition reliable : rds sure :=
  state_of (make_heap hb hlen 64 5 (raw {| undo_of := [] |})) (raw {| undo_of := [] |}).

Lemma hgeo_geo : geo_ok hgeo.
Proof. apply layout_geo; [apply hgeo_ok|apply hgeo_fits]. Qed.

Lemma scripted_ok l : heap_ok hgeo [] (scripted l).
Proof.
  destruct (make_heap_spec hb hlen 64 5 (raw {| answers := []; log := [] |}) hgeo_ok hgeo_fits segment_mapped eq_refl) as (r & s & E & Hp).
  unfold scripted. rewrite E. cbn [state_of]. assert (err s = 0) as He.
  { assert (err (state_of (make_heap hb hlen 64 5 (raw {| answers := []; log := [] |})) (raw {| answers := []; log := [] |})) = 0) as H by (vm_compute; reflexivity).
    by rewrite E in H. }
  destruct Hp as [[? _]|(_ & _ & Hok)]; [lia|]. by eapply heap_ok_same.
Qed.

Lemma reliable_ok : heap_ok hgeo [] reliable.
Proof.
  destruct (make_heap_spec hb hlen 64 5 (raw {| undo_of := [] |}) hgeo_ok hgeo_fits segment_mapped eq_refl) as (r & s & E & Hp).
  unfold reliable. rewrite E. cbn [state_of]. destruct Hp as [[? _]|(_ & _ & Hok)]; [cbn in *; lia|done].
Qed.

(** ** The theorems *)
Section Theorems.
Context {tx : Type} `{!RVM tx, !RVMLaws tx}.
Implicit Types s : rds tx.

(** A new block lies in the heap, apart from the others, and is large enough. *)
Lemma new_block_facts g A size p s s' :
  geo_ok g -> 0 <= size -> new_block g A (chunks g size) p s s' ->
  g_lo g <= p /\ p + 24 + size <= p + chunks g size * g_chunk g <= top g /\ (USER_BLOCK p) mod 8 = 0 /\
  forall x, p <= x < p + chunks g size * g_chunk g -> ~ in_allocs (g_chunk g) A x.
Proof.
  intros Hg Hs (A' & HA & (T & L & max & R & _ & _ & EA & _) & _). set (u := Tile p (chunks g size) Allocd) in *.
  assert (u ∈ T) as Hu by (assert (u ∈ A') as H by (rewrite HA; apply list_elem_of_here); rewrite <- EA in H; by apply elem_of_allocs in H as [? _]).
  pose proof (tile_bounds Hg R _ Hu) as (Hlo & _ & Htop & _). unfold end_ in Htop. cbn [at_ sz u] in *. pose proof (chunk_40 _ Hg) as Hc.
  split; [done|]. split; [split; [|done]|split].
  - unfold chunks. pose proof (Z.mul_succ_div_gt (size + 24) (g_chunk g) ltac:(lia)). nia.
  - destruct (chained_aligned _ Hc _ _ _ _ (geo_word g Hg) (r_chain R) Hu) as (j & Hj & E). cbn in E. destruct (geo_align g Hg) as [m Hm].
    unfold USER_BLOCK. replace (p + off_prev) with ((m + j + 2) * 8) by lia. apply Z.mod_mul. lia.
  - intros x Hx (t & Ht & Hxt). pose proof (chained_nodup _ _ _ _ Hc (r_chain R)) as Hnd.
    assert (NoDup A') as HndA by (rewrite <- EA; apply NoDup_filter; by eapply NoDup_fmap_1).
    rewrite HA in HndA. apply NoDup_cons in HndA as [Hnot _].
    assert (t ∈ T) as HtT by (assert (t ∈ A') as H by (rewrite HA; by right); rewrite <- EA in H; by apply elem_of_allocs in H as [? _]).
    destruct (tile_sep Hg R t u HtT Hu) as [->|Hsep]; [done|]. unfold end_ in *. cbn [at_ sz u] in *. lia.
Qed.

(** C13 Rds_malloc without a transaction of the caller's always returns.  On success
    the address is aligned, the block lies in the heap, is large enough for the
    request, overlaps no allocated block, and no allocated word has changed; with
    ENO_ROOM no gap between the allocated blocks is large enough (free blocks have
    been coalesced) and the memory is unchanged; with an error of RVM it returns NULL,
    and unless the commit itself failed the memory is unchanged. *)
Theorem rds_malloc_correct g A size s :
  geo_ok g -> heap_ok g A s -> 0 <= size < 2 ^ 64 - 24 -> chunks g size < 2 ^ 30 ->
  exists r s', rds_malloc size false s = Ret (r, s') /\
    ((err s' = 0 /\ r mod 8 = 0 /\ exists fin A', g_lo g + 16 <= r /\ r + size + 8 <= fin <= top g /\
        (forall x, r - 16 <= x < fin -> ~ in_allocs (g_chunk g) A x) /\
        (forall x, in_allocs (g_chunk g) A x -> mem s' !! x = mem s !! x) /\
        A' ≡ₚ Tile (r - 16) (chunks g size) Allocd :: A /\ heap_ok g A' s')
     \/ (err s' = ENO_ROOM /\ r = 0 /\ no_room g A (chunks g size) /\ mem s' = mem s)
     \/ (0 < err s' <= top_code /\ r = 0 /\ (mem s' = mem s \/ exists p, new_block g A (chunks g size) p s s'))).
Proof.
  intros Hg Hok Hs Hk. destruct (rds_malloc_spec g Hg A false size s Hok Hs Hk) as (r & s' & E & Hp); [done|].
  exists r, s'. split; [done|]. destruct Hp as [(He & p & -> & Hn & _)|[(He & -> & Hno & Hu & _)|(He & -> & Hu)]].
  - left. pose proof (new_block_facts g A size p s s' Hg ltac:(lia) Hn) as (H1 & H2 & H3 & H4). split; [done|]. split; [done|].
    destruct Hn as (A' & HA & Hok' & _ & _ & Hkeep). exists (p + chunks g size * g_chunk g), A'. unfold USER_BLOCK in *.
    replace (p + off_prev - 16) with p by lia. split; [lia|]. split; [lia|]. done.
  - right. left. done.
  - right. right. split; [done|]. split; [done|]. destruct Hu as [(Hu & _)|(_ & p & Hn)]; [by left|right; by exists p].
Qed.

(** C14 Over an RVM that does not fail, rds_malloc serves every request for which
    there is a gap of the right size between the allocated blocks, however the free
    space is cut up and whatever lists the pieces are on. *)
Theorem rds_malloc_serves g A size s x :
  top_code (tx := tx) = 0 -> geo_ok g -> heap_ok g A s -> 0 <= size < 2 ^ 64 - 24 -> chunks g size < 2 ^ 30 ->
  g_lo g <= x -> x + chunks g size * g_chunk g <= top g ->
  (forall y, x <= y < x + chunks g size * g_chunk g -> ~ in_allocs (g_chunk g) A y) ->
  exists p s', rds_malloc size false s = Ret (USER_BLOCK p, s') /\ err s' = 0 /\ new_block g A (chunks g size) p s s'.
Proof.
  intros H0 Hg Hok Hs Hk Hx Hx' Hfree. destruct (rds_malloc_spec g Hg A false size s Hok Hs Hk) as (r & s' & E & Hp); [done|].
  destruct Hp as [(He & p & -> & Hn & _)|[(He & -> & Hno & Hu & _)|(He & -> & Hu)]]; [by exists p, s'| |lia].
  destruct (Hno x Hx Hx') as (y & Hy & Hin). by destruct (Hfree y Hy).
Qed.

(** C15 Rds_free in the caller's transaction gives an allocated block back: the other
    blocks stay allocated and unchanged, the heap stays well-formed; with an error of
    RVM the caller's abort still restores the memory of the start of its transaction. *)
Theorem rds_free_correct g A A' p k s :
  geo_ok g -> heap_ok g A s -> A ≡ₚ Tile p k Allocd :: A' -> tid_live s = true ->
  exists r s', rds_free (USER_BLOCK p) true s = Ret (r, s') /\ evolves (in_allocs (g_chunk g) A') s s' /\
    ((err s' = 0 /\ r = 0 /\ mem s' !! (p + off_type) = Some FREE_GUARD /\ exists A1, A1 ≡ₚ A' /\ heap_ok g A1 s') \/ 0 < err s' <= top_code).
Proof.
  intros Hg Hok HA Hl. destruct (rds_free_spec g Hg A A' true s p k Hok HA) as (r & s' & E & A1 & HA1 & Hp); [done|done|].
  exists r, s'. split; [done|]. destruct Hp as [(He & -> & (Hok1 & _ & _ & Hty & _) & Hev)|(He & [Hu|[? _]])]; [| |done].
  - split; [|left; do 3 (split; [done|]); by exists A1].
    eapply evolves_weaken; [by apply Hev|]. intros x. by rewrite HA1.
  - split; [|by right]. eapply evolves_weaken; [exact Hu|]. intros x. by rewrite HA1.
Qed.

(** A block that has been freed is recognised: freeing it again fails with
    EFREED_TWICE and changes nothing else. *)
Theorem rds_free_twice g A A' p k tid s r s' :
  geo_ok g -> heap_ok g A s -> A ≡ₚ Tile p k Allocd :: A' -> tid_live s = true ->
  rds_free (USER_BLOCK p) true s = Ret (r, s') -> err s' = 0 ->
  rds_free (USER_BLOCK p) tid s' = Ret (-1, with_err s' EFREED_TWICE).
Proof.
  intros Hg Hok HA Hl E He. assert (Tile p k Allocd ∈ A) as Hin by (rewrite HA; apply list_elem_of_here).
  destruct (block_guards g Hg A s p k Hok Hin) as (Hp & Hal & _). pose proof (geo_base g Hg).
  destruct (rds_free_spec g Hg A A' true s p k Hok HA) as (r1 & s1 & E1 & A1 & HA1 & Hpost); [done|done|].
  rewrite E in E1. injection E1 as <- <-. destruct Hpost as [(_ & _ & ((T & L & max & _ & _ & _ & _ & Hst & _) & _ & _ & Hty & _) & _)|(? & _)]; [|lia].
  unfold rds_free, HEAP_INIT, free_check. replace (BLOCK_HDR (USER_BLOCK p)) with p by (unfold BLOCK_HDR, USER_BLOCK; lia).
  unfold mbnd, get_start, ret. rewrite Hst. destruct (Z.eqb_spec (g_base g) 0); [lia|]. destruct (Z.eqb_spec p 0); [lia|].
  rewrite Hal. cbn [negb orb Z.eqb]. unfold ld. by rewrite Hty.
Qed.

(** C5 Whatever a client does in a transaction (allocations, writes inside its blocks,
    frees, any number and order), the transaction comes to an end.  If it is aborted
    because a call reported an error, the memory is exactly as before; otherwise the
    heap is well-formed, the allocated blocks are exactly those the client holds, and
    every word it wrote to a block it still holds is there. *)
Theorem rds_transaction_safe g os cl s :
  geo_ok g -> client_ok g cl s -> Forall (op_ok g) os ->
  exists r s', transaction os cl s = Ret (r, s') /\ transaction_post g cl s r s'.
Proof. intros Hg Hcl Hos. by apply transaction_spec. Qed.

(** ** Deferred frees *)
Section Deferred.
Context {HAl : Alloc} {HAlOk : AllocOk}.

(** A transaction's frees, noted one by one. *)
Fixpoint note_all (addrs : list Z) (l : intentions) : M tx intentions :=
  match addrs with
  | [] => ret l
  | a :: addrs => let! r := rds_fake_free a l in note_all addrs r.2
  end.
Definition deferred (addrs : list Z) : M tx (Z * intentions) :=
  let! l := note_all addrs {| i_size := 0; i_count := 0; i_table := None |} in rds_do_free l.

Lemma note_all_spec g A s : geo_ok g -> heap_ok g A s -> forall B l addrs,
  (forall u, u ∈ B -> u ∈ A /\ st u = Allocd) -> noted l addrs -> (i_table l = None -> B <> []) -> zlen addrs + zlen B < 2 ^ 36 ->
  wp (note_all ((fun u => USER_BLOCK (at_ u)) <$> B) l)
    (fun l' s' => s' = s /\ noted l' (addrs ++ ((fun u => USER_BLOCK (at_ u)) <$> B)) /\ is_Some (i_table l')) s.
Proof using HAlOk.
  intros Hg Hok B. induction B as [|[p k w] B IH]; intros l addrs HB Hn Ht Hz.
  - apply wp_ret. rewrite app_nil_r. split; [done|]. split; [done|]. destruct (i_table l); [eauto|]. by destruct Ht.
  - rewrite fmap_cons. cbn [note_all at_]. destruct (HB (Tile p k w) (list_elem_of_here _ _)) as [Hin Hw]. cbn in Hw. subst w.
    rewrite zlen_cons in Hz. pose proof (zlen_nonneg B). apply wp_bind.
    eapply wp_mono; [eapply (rds_fake_free_spec g Hg A s p k l addrs Hok Hin Hn); lia|]. intros [r l'] s' (_ & -> & Hn'). cbn [snd fst] in *.
    eapply wp_mono; [apply (IH l' (addrs ++ [USER_BLOCK p]))|].
    + intros u Hu. apply HB. by right.
    + done.
    + intros Hnone. destruct Hn' as [_ Hn']. rewrite Hnone in Hn'. by destruct addrs.
    + rewrite zlen_app, zlen_cons, zlen_nil. lia.
    + intros l2 s2. by rewrite <- app_assoc.
Qed.

Lemma chained_length c a T e : 40 <= c -> chained c a T e -> zlen T * c <= e - a.
Proof.
  intros Hc. revert a. induction T as [|t T IH]; intros a; cbn [chained]; [unfold zlen; cbn; lia|]. intros (Ha & Hs & H).
  apply IH in H. rewrite zlen_cons. unfold end_ in H. nia.
Qed.

(** C16 The blocks noted with rds_fake_free are freed by rds_do_free all together:
    afterwards they are free and the other blocks untouched, or nothing has changed
    and an error of RVM is returned. *)
Theorem rds_do_free_all_or_none g A B A' s :
  geo_ok g -> heap_ok g A s -> A ≡ₚ B ++ A' -> B <> [] ->
  exists r s', deferred ((fun u => USER_BLOCK (at_ u)) <$> B) s = Ret (r, s') /\ do_free_post g A' s r.1 s'.
Proof using HAlOk.
  intros Hg Hok HA HB. pose proof Hok as (T & L & max & R & _ & _ & EA & _). pose proof (chunk_40 _ Hg) as Hc.
  pose proof (chained_length _ _ _ _ Hc (r_chain R)) as Hlen. pose proof (geo_n g Hg). unfold top in Hlen.
  assert (zlen B <= zlen T) as HBT.
  { unfold zlen. assert (length (allocs T) <= length T)%nat by apply length_filter. rewrite EA, HA, length_app in H0. lia. }
  change (wp (deferred ((fun u => USER_BLOCK (at_ u)) <$> B)) (fun r s' => do_free_post g A' s r.1 s') s).
  unfold deferred. apply wp_bind. eapply wp_mono; [apply (note_all_spec g A s Hg Hok B _ [])|].
  - intros u Hu. assert (u ∈ A) as Hu' by (rewrite HA; set_solver). split; [done|]. rewrite <- EA in Hu'. by apply elem_of_allocs in Hu' as [_ ?].
  - split; cbn; [split; [lia|by exists 0]|done].
  - done.
  - rewrite zlen_nil. nia.
  - intros l s' (-> & Hn & t & Ht). by eapply rds_do_free_spec.
Qed.

End Deferred.


(** When the second rvm_set_range of rds_free fails in a transaction of its own,
    the transaction is aborted and its record freed, and then, because the error is
    set, aborted and freed once more: undefined behaviour. *)
Theorem rds_free_aborts_twice g A p k s t1 t2 t3 e :
  geo_ok g -> heap_ok g A s -> Tile p k Allocd ∈ A ->
  begin_transaction (rvm s) = (0, t1) -> set_range (mem s) (g_base g + off_stats) sizeof_stats t1 = (0, t2) ->
  set_range (mem s) (p + off_type) 8 t2 = (e, t3) -> e <> 0 ->
  rds_free (USER_BLOCK p) false s = Stop CUndef.
Proof.
  intros Hg Hok Hin E1 E2 E3 He. pose proof Hok as (T & L & max & _ & _ & _ & _ & Hst & _). pose proof (geo_base g Hg).
  destruct (free_check_ok g Hg A s p k Hok Hin) as (r & s' & Ec & -> & ->).
  unfold rds_free, HEAP_INIT, open_tid, abort_tid, free_end. replace (BLOCK_HDR (USER_BLOCK p)) with p by (unfold BLOCK_HDR, USER_BLOCK; lia).
  unfold mbnd, get_start, ret. rewrite Hst. destruct (Z.eqb_spec (g_base g) 0); [lia|]. cbn [negb]. rewrite Ec. cbn [negb Z.eqb].
  unfold rvm_malloc_tid, rvm_begin_transaction, rvm_set_range, rvm_abort_transaction, rvm_free_tid, set_err, get_err, on_tid. cbn. rewrite E1. cbn.
  rewrite Hst, E2. cbn. rewrite E3. cbn. destruct (Z.eqb_spec e 0); [done|]. cbn. destruct (abort_transaction _ _) as [m t4]. cbn.
  destruct (Z.eqb_spec e 0); [done|]. done.
Qed.

Lemma bind_at {X Y} (m : M tx X) (k : X -> M tx Y) a s s' : m s = Ret (a, s') -> mbnd m k s = k a s'.
Proof. intros E. unfold mbnd. by rewrite E. Qed.

(** C28 The size of a request is not checked.  The header size added to it wraps at 64
    bits, and the number of chunks is cut to a 32-bit int: a request for almost 2^64
    bytes, or for 2^32 chunks, is served as one for no bytes at all, and succeeds. *)
Theorem rds_malloc_wraps g A s tid j :
  geo_ok g -> heap_ok g A s -> 0 <= j < 24 ->
  rds_malloc (2 ^ 64 - 24 + j) tid s = rds_malloc 0 tid s /\
  (2 ^ 32 * g_chunk g + 24 < 2 ^ 64 -> rds_malloc (2 ^ 32 * g_chunk g) tid s = rds_malloc 0 tid s).
Proof.
  intros Hg (T & L & max & R & _ & _ & _ & Hst & _) Hj. pose proof (geo_base g Hg). pose proof (chunk_40 _ Hg) as Hc.
  assert (forall n n', s32 (u64 (u64 (n + 24) / g_chunk g + 1)) = s32 (u64 (u64 (n' + 24) / g_chunk g + 1)) -> rds_malloc n tid s = rds_malloc n' tid s) as Hsame.
  { intros n n' E. assert (HEAP_INIT s = Ret (true, s)) as E1.
    { unfold HEAP_INIT, mbnd, get_start, ret. rewrite Hst. destruct (Z.eqb_spec (g_base g) 0); [lia|done]. }
    assert (RDS_CHUNK_SIZE s = Ret (g_chunk g, s)) as E2.
    { unfold RDS_CHUNK_SIZE, hdr, mbnd, get_start, ld. by rewrite Hst, (r_chunk R). }
    unfold rds_malloc. rewrite !(bind_at _ _ _ _ _ E1). cbn [negb]. rewrite !(bind_at _ _ _ _ _ E2).
    destruct (Z.eqb_spec (g_chunk g) 0); [lia|]. by rewrite E. }
  split; [|intros Hb]; apply Hsame.
  - f_equal. rewrite (Z.div_small (u64 (0 + 24))) by (rewrite uwrap_small; lia).
    rewrite (Z.div_small (u64 (2 ^ 64 - 24 + j + 24))); [done|]. unfold uwrap. replace (2 ^ 64 - 24 + j + 24) with (j + 1 * 2 ^ 64) by lia.
    rewrite Z.mod_add by lia. rewrite Z.mod_small; lia.
  - rewrite (Z.div_small (u64 (0 + 24))) by (rewrite uwrap_small; lia). rewrite (uwrap_small 64 (2 ^ 32 * g_chunk g + 24)) by lia.
    replace (2 ^ 32 * g_chunk g + 24) with (24 + 2 ^ 32 * g_chunk g) by lia. rewrite Z.div_add, (Z.div_small 24) by lia.
    by rewrite uwrap_small by lia.
Qed.

End Theorems.

(** ** On the concrete heap *)

(** The heap with one block of 100 bytes; the return codes of RVM are [l]. *)
Definition busy (l : list Z) : rds undo :=
  with_rvm (with_live (state_of (rds_malloc 100 false (scripted [])) (scripted [])) true) {| answers := l; log := [] |}.
Definition the_block : tile := Tile 5056 2 Allocd.

Lemma busy_ok l : heap_ok hgeo [the_block] (busy l).
Proof.
  destruct (rds_malloc_spec hgeo hgeo_geo [] false 100 (scripted []) (scripted_ok []) ltac:(lia) ltac:(vm_compute; done) ltac:(done)) as (r & s' & E & Hp).
  assert (match rds_malloc 100 false (scripted []) with Ret (r, s') => r = 5072 /\ err s' = 0 | _ => False end) as Hr by (vm_compute; split; reflexivity).
  rewrite E in Hr. destruct Hr as [-> He]. destruct Hp as [(_ & p & Er & (A' & HA & Hok & _) & _)|[(He' & _)|(He' & _)]]; [|rewrite He in He'; discriminate He'|exfalso; clear - He He'; lia].
  unfold busy. rewrite E. cbn [state_of]. apply Permutation_singleton_r in HA as ->.
  assert (p = 5056) as -> by (unfold USER_BLOCK in Er; lia). change ((100 + 24) / g_chunk hgeo + 1) with 2 in Hok. by eapply heap_ok_same.
Qed.

(** Rds_maxblock answers that a block of 704 bytes is to be had, and the request
    for it fails for want of room: rds_maxblock leaves out the block's header. *)
Theorem rds_maxblock_optimistic :
  (exists s', rds_maxblock 704 (scripted []) = Ret (1, s')) /\
  exists s', rds_malloc 704 false (scripted []) = Ret (0, s') /\ err s' = ENO_ROOM.
Proof.
  split.
  - assert (match rds_maxblock 704 (scripted []) with Ret (r, _) => r = 1 | _ => False end) as H by (vm_compute; reflexivity).
    destruct (rds_maxblock 704 (scripted [])) as [[r s']|]; [|done]. subst. by exists s'.
  - assert (match rds_malloc 704 false (scripted []) with Ret (r, s') => r = 0 /\ err s' = ENO_ROOM | _ => False end) as H by (vm_compute; split; reflexivity).
    destruct (rds_malloc 704 false (scripted [])) as [[r s']|]; [|done]. destruct H as [-> He]. by exists s'.
Qed.

(** The rounding of the first block is not accounted for: 1050 bytes are more than
    the header and a chunk need, and the assertion of rds_init_heap stops the server. *)
Example rds_init_rounding : rds_init_heap hb 1050 64 5 (raw {| answers := []; log := [] |}) = Stop CAbort.
Proof. vm_compute. reflexivity. Qed.

#[local] Opaque scripted busy reliable.

Lemma rds_malloc_correct_witness :
  heap_ok hgeo [] (scripted []) /\ exists r s', rds_malloc 100 false (scripted []) = Ret (r, s') /\ err s' = 0 /\ r mod 8 = 0.
Proof.
  split; [apply scripted_ok|].
  destruct (rds_malloc_correct hgeo [] 100 (scripted []) hgeo_geo (scripted_ok []) ltac:(lia) ltac:(vm_compute; done)) as (r & s' & E & Hp).
  exists r, s'. split; [exact E|]. assert (err (state_of (rds_malloc 100 false (scripted [])) (scripted [])) = 0) as He by (vm_compute; reflexivity).
  rewrite E in He. cbn [state_of] in He. destruct Hp as [(_ & Hr & _)|[(He' & _)|(He' & _)]]; [auto|rewrite He in He'; discriminate He'|lia].
Defined.

Lemma rds_malloc_serves_witness : exists p s', rds_malloc 600 false reliable = Ret (USER_BLOCK p, s') /\ err s' = 0.
Proof.
  destruct (rds_malloc_serves (RVMLaws0 := sure_laws) hgeo [] 600 reliable 4480 ltac:(reflexivity) hgeo_geo reliable_ok ltac:(lia) ltac:(vm_compute; done)) as (p & s' & E & He & _).
  - vm_compute. congruence.
  - vm_compute. congruence.
  - intros y _ (t & Ht & _). set_solver.
  - exists p, s'. split; [exact E|exact He].
Defined.

Lemma rds_free_correct_witness : exists r s', rds_free 5072 true (busy []) = Ret (r, s') /\ err s' = 0.
Proof.
  destruct (rds_free_correct hgeo [the_block] [] 5056 2 (busy []) hgeo_geo (busy_ok []) ltac:(reflexivity) ltac:(vm_compute; reflexivity)) as (r & s' & E & _).
  exists r, s'. split; [exact E|]. assert (err (state_of (rds_free 5072 true (busy [])) (busy [])) = 0) as He by (vm_compute; reflexivity).
  change (USER_BLOCK 5056) with 5072 in E. rewrite E in He. exact He.
Defined.

Lemma rds_free_twice_witness : exists s', rds_free 5072 true (busy []) = Ret (0, s') /\ rds_free 5072 false s' = Ret (-1, with_err s' EFREED_TWICE).
Proof.
  assert (match rds_free 5072 true (busy []) with Ret (r, s') => r = 0 /\ err s' = 0 | _ => False end) as H by (vm_compute; split; reflexivity).
  destruct (rds_free 5072 true (busy [])) as [[r s']|] eqn:E; [|destruct H]. destruct H as [-> He]. exists s'. split; [reflexivity|].
  apply (rds_free_twice hgeo [the_block] [] 5056 2 false (busy []) 0 s' hgeo_geo (busy_ok [])); [reflexivity|vm_compute; reflexivity|exact E|exact He].
Defined.

Definition sample : list op := [OMalloc 100; OMalloc 50; OWrite 0 8 77; OWrite 1 0 5; OFree 0; OMalloc 10].

Lemma sample_run : match transaction sample (Client [] ∅) (scripted []) with Ret (r, _) => (own <$> r) = Some [(5008, 10); (5072, 100)] | _ => False end.
Proof. vm_compute. reflexivity. Qed.

Lemma sample_ok : Forall (op_ok hgeo) sample.
Proof. repeat (apply Forall_cons; split; [done || (vm_compute; repeat split; congruence)|]). by apply Forall_nil. Qed.

Lemma nobody_ok l : client_ok hgeo (Client [] ∅) (scripted l).
Proof. split; [exists []; split; [done|apply scripted_ok]|set_solver|]. intros x v H. cbn [words] in H. rewrite lookup_empty in H. discriminate H. Qed.

Lemma rds_transaction_safe_witness :
  exists r s', transaction sample (Client [] ∅) (scripted []) = Ret (r, s') /\ (own <$> r) = Some [(5008, 10); (5072, 100)].
Proof.
  destruct (rds_transaction_safe hgeo sample (Client [] ∅) (scripted []) hgeo_geo (nobody_ok []) sample_ok) as (r & s' & E & _).
  exists r, s'. split; [exact E|]. pose proof sample_run as H. rewrite E in H. exact H.
Defined.

Lemma rds_do_free_all_or_none_witness : let _ := {| can_alloc := fun _ => true; junk := 0 |} in exists r s', deferred [5072] (busy []) = Ret (r, s').
Proof.
  cbn zeta. set (al := {| can_alloc := fun _ => true; junk := 0 |}).
  destruct (rds_do_free_all_or_none (HAl := al) (HAlOk := fun _ _ => eq_refl) hgeo [the_block] [the_block] [] (busy []) hgeo_geo (busy_ok []) ltac:(reflexivity) ltac:(discriminate)) as (r & s' & E & _).
  exists r, s'. exact E.
Defined.


Lemma rds_free_aborts_twice_witness : rds_free 5072 false (busy [0; 0; 200]) = Stop CUndef.
Proof.
  eapply (rds_free_aborts_twice hgeo [the_block] 5056 2 (busy [0; 0; 200]) _ _ _ 200 hgeo_geo (busy_ok _)); [apply list_elem_of_here|reflexivity|reflexivity|reflexivity|discriminate].
Defined.

Lemma rds_malloc_wraps_witness : exists s', rds_malloc (2 ^ 64 - 1) false (scripted []) = Ret (5136, s') /\ err s' = 0.
Proof.
  destruct (rds_malloc_wraps hgeo [] (scripted []) false 23 hgeo_geo (scripted_ok []) ltac:(lia)) as [E _].
  change (2 ^ 64 - 24 + 23) with (2 ^ 64 - 1) in E. rewrite E.
  assert (match rds_malloc 0 false (scripted []) with Ret (r, s') => r = 5136 /\ err s' = 0 | _ => False end) as H by (vm_compute; split; reflexivity).
  destruct (rds_malloc 0 false (scripted [])) as [[r s']|]; [|destruct H]. destruct H as [-> He]. exists s'. split; [reflexivity|exact He].
Defined.

End RdsSpec.
