(* ===== verification/RvmOffset.v ===== *)
(** * Segment offsets of the recoverable memory

    rvm_offset_t of src/subprojects/rvm/include/rvm/rvm.h: two words that stand for
    an offset in a segment, with the arithmetic of rvm_utils.c and the comparisons of
    rvm.h.  It is arithmetic modulo 2^128, and the comparisons are those of the
    values. *)
From Stdlib Require Import ZArith Lia Bool.
From stdpp Require Import base list numbers.
From S2P Require Import Prelude.
Open Scope Z_scope.

Module RvmOffset.

Abbreviation u64 := (uwrap 64).

Record rvm_offset := Off { high : Z; low : Z }.

Definition rvm_mk_offset (x y : Z) : rvm_offset := Off x y.
Definition RVM_OFFSET_TO_LENGTH (x : rvm_offset) : Z := low x.

Definition rvm_add_length_to_offset (x : rvm_offset) (length : Z) : rvm_offset :=
  let l := u64 (low x + length) in
  Off (if l <? low x then u64 (high x + 1) else high x) l.
Definition rvm_sub_length_from_offset (x : rvm_offset) (length : Z) : rvm_offset :=
  let l := u64 (low x - length) in
  Off (if low x <? l then u64 (high x - 1) else high x) l.
Definition rvm_add_offsets (x y : rvm_offset) : rvm_offset :=
  let h := u64 (high x + high y) in
  let l := u64 (low x + low y) in
  Off (if l <? low x then u64 (h + 1) else h) l.
Definition rvm_sub_offsets (x y : rvm_offset) : rvm_offset :=
  let h := u64 (high x - high y) in
  let l := u64 (low x - low y) in
  Off (if low x <? l then u64 (h - 1) else h) l.

Definition RVM_OFFSET_LSS (x y : rvm_offset) : bool := (high x <? high y) || ((high x =? high y) && (low x <? low y)).
Definition RVM_OFFSET_GTR (x y : rvm_offset) : bool := (high x >? high y) || ((high x =? high y) && (low x >? low y)).
Definition RVM_OFFSET_LEQ (x y : rvm_offset) : bool := negb (RVM_OFFSET_GTR x y).
Definition RVM_OFFSET_GEQ (x y : rvm_offset) : bool := negb (RVM_OFFSET_LSS x y).

(** ** Values *)
Definition word (x : Z) : Prop := 0 <= x < 2 ^ 64.
Definition offset_ok (x : rvm_offset) : Prop := word (high x) /\ word (low x).
Definition oval (x : rvm_offset) : Z := high x * 2 ^ 64 + low x.

Lemma oval_bounds x : offset_ok x -> 0 <= oval x < 2 ^ 128.
Proof. intros [[H1 H2] [H3 H4]]. unfold oval. change (2 ^ 128) with (2 ^ 64 * 2 ^ 64). nia. Qed.

Lemma uwrap64 x : exists k, u64 x = x - k * 2 ^ 64 /\ 0 <= u64 x < 2 ^ 64.
Proof. exists (x / 2 ^ 64). unfold uwrap. pose proof (Z.div_mod x (2 ^ 64) ltac:(lia)). pose proof (Z.mod_pos_bound x (2 ^ 64) ltac:(lia)). lia. Qed.

(** A pair of words is the value it was computed from, modulo 2^128. *)
Lemma oval_mod h l v k : word h -> word l -> h * 2 ^ 64 + l = v + k * 2 ^ 128 -> oval (Off h l) = uwrap 128 v.
Proof.
  intros Hh Hl E. unfold oval, uwrap. cbn [high low]. rewrite E, <- (Z.mod_small (v + k * 2 ^ 128) (2 ^ 128)).
  - apply Z.mod_add. lia.
  - rewrite <- E. change (2 ^ 128) with (2 ^ 64 * 2 ^ 64). unfold word in *. nia.
Qed.

Lemma low_sum a b : word a -> word b -> let l := u64 (a + b) in word l /\ ((l <? a = true /\ l = a + b - 2 ^ 64) \/ (l <? a = false /\ l = a + b)).
Proof.
  intros Ha Hb l. destruct (uwrap64 (a + b)) as (k & E & B). fold l in E, B. clearbody l. unfold word in *. split; [done|].
  assert (k = 0 \/ k = 1) as [-> | ->] by nia; [right|left]; (split; [|lia]); destruct (Z.ltb_spec l a); lia || done.
Qed.
Lemma low_diff a b : word a -> word b -> let l := u64 (a - b) in word l /\ ((a <? l = true /\ l = a - b + 2 ^ 64) \/ (a <? l = false /\ l = a - b)).
Proof.
  intros Ha Hb l. destruct (uwrap64 (a - b)) as (k & E & B). fold l in E, B. clearbody l. unfold word in *. split; [done|].
  assert (k = 0 \/ k = -1) as [-> | ->] by nia; [right|left]; (split; [|lia]); destruct (Z.ltb_spec a l); lia || done.
Qed.

Lemma word_u64 x : word (u64 x).
Proof. destruct (uwrap64 x) as (k & _ & B). exact B. Qed.

Lemma oval_add_offsets x y : offset_ok x -> offset_ok y -> offset_ok (rvm_add_offsets x y) /\ oval (rvm_add_offsets x y) = uwrap 128 (oval x + oval y).
Proof.
  intros [Hx1 Hx2] [Hy1 Hy2]. unfold rvm_add_offsets. destruct (low_sum (low x) (low y) Hx2 Hy2) as [Hl Hc]. set (l := u64 (low x + low y)) in *. clearbody l.
  destruct (uwrap64 (high x + high y)) as (k & E & B). set (h := u64 (high x + high y)) in *. clearbody h. destruct (uwrap64 (h + 1)) as (k' & E' & B'). set (h' := u64 (h + 1)) in *. clearbody h'.
  change (2 ^ 128) with (2 ^ 64 * 2 ^ 64). destruct Hc as [[-> El]|[-> El]]; (split; [by split|]).
  - apply (oval_mod _ _ _ (- k - k')); [done|done|]. unfold oval. change (2 ^ 128) with (2 ^ 64 * 2 ^ 64). rewrite E', E, El. ring.
  - apply (oval_mod _ _ _ (- k)); [done|done|]. unfold oval. change (2 ^ 128) with (2 ^ 64 * 2 ^ 64). rewrite E, El. ring.
Qed.

Lemma oval_sub_offsets x y : offset_ok x -> offset_ok y -> offset_ok (rvm_sub_offsets x y) /\ oval (rvm_sub_offsets x y) = uwrap 128 (oval x - oval y).
Proof.
  intros [Hx1 Hx2] [Hy1 Hy2]. unfold rvm_sub_offsets. destruct (low_diff (low x) (low y) Hx2 Hy2) as [Hl Hc]. set (l := u64 (low x - low y)) in *. clearbody l.
  destruct (uwrap64 (high x - high y)) as (k & E & B). set (h := u64 (high x - high y)) in *. clearbody h. destruct (uwrap64 (h - 1)) as (k' & E' & B'). set (h' := u64 (h - 1)) in *. clearbody h'.
  destruct Hc as [[-> El]|[-> El]]; (split; [by split|]).
  - apply (oval_mod _ _ _ (- k - k')); [done|done|]. unfold oval. change (2 ^ 128) with (2 ^ 64 * 2 ^ 64). rewrite E', E, El. ring.
  - apply (oval_mod _ _ _ (- k)); [done|done|]. unfold oval. change (2 ^ 128) with (2 ^ 64 * 2 ^ 64). rewrite E, El. ring.
Qed.

(** Lengths are offsets with no high bits. *)
Lemma add_length_as_offset x n : offset_ok x -> word n -> rvm_add_length_to_offset x n = rvm_add_offsets x (Off 0 n).
Proof. intros [[? ?] _] _. unfold rvm_add_length_to_offset, rvm_add_offsets. cbn [high low]. assert (u64 (high x + 0) = high x) as -> by (unfold uwrap; rewrite Z.add_0_r; by apply Z.mod_small). done. Qed.
Lemma sub_length_as_offset x n : offset_ok x -> word n -> rvm_sub_length_from_offset x n = rvm_sub_offsets x (Off 0 n).
Proof. intros [[? ?] _] _. unfold rvm_sub_length_from_offset, rvm_sub_offsets. cbn [high low]. assert (u64 (high x - 0) = high x) as -> by (unfold uwrap; rewrite Z.sub_0_r; by apply Z.mod_small). done. Qed.

Lemma length_offset_ok n : word n -> offset_ok (Off 0 n) /\ oval (Off 0 n) = n.
Proof. intros H. unfold offset_ok, oval, word in *. cbn. lia. Qed.

Lemma oval_add_length x n : offset_ok x -> word n -> offset_ok (rvm_add_length_to_offset x n) /\ oval (rvm_add_length_to_offset x n) = uwrap 128 (oval x + n).
Proof. intros Hx Hn. rewrite add_length_as_offset by done. destruct (length_offset_ok n Hn) as [H1 H2]. rewrite <- H2 at 3. by apply oval_add_offsets. Qed.
Lemma oval_sub_length x n : offset_ok x -> word n -> offset_ok (rvm_sub_length_from_offset x n) /\ oval (rvm_sub_length_from_offset x n) = uwrap 128 (oval x - n).
Proof. intros Hx Hn. rewrite sub_length_as_offset by done. destruct (length_offset_ok n Hn) as [H1 H2]. rewrite <- H2 at 3. by apply oval_sub_offsets. Qed.

Lemma oval_lss x y : offset_ok x -> offset_ok y -> RVM_OFFSET_LSS x y = (oval x <? oval y).
Proof.
  intros [Hx1 Hx2] [Hy1 Hy2]. unfold RVM_OFFSET_LSS, oval, word in *.
  destruct (Z.ltb_spec (high x) (high y)), (Z.eqb_spec (high x) (high y)), (Z.ltb_spec (low x) (low y)), (Z.ltb_spec (high x * 2 ^ 64 + low x) (high y * 2 ^ 64 + low y)); cbn; done || nia.
Qed.
Lemma oval_gtr x y : offset_ok x -> offset_ok y -> RVM_OFFSET_GTR x y = (oval y <? oval x).
Proof.
  intros Hx Hy. rewrite <- (oval_lss y x) by done. unfold RVM_OFFSET_GTR, RVM_OFFSET_LSS. by rewrite !Z.gtb_ltb, (Z.eqb_sym (high x)).
Qed.
Lemma oval_leq x y : offset_ok x -> offset_ok y -> RVM_OFFSET_LEQ x y = (oval x <=? oval y).
Proof. intros Hx Hy. unfold RVM_OFFSET_LEQ. rewrite oval_gtr by done. by rewrite Z.leb_antisym. Qed.
Lemma oval_geq x y : offset_ok x -> offset_ok y -> RVM_OFFSET_GEQ x y = (oval y <=? oval x).
Proof. intros Hx Hy. unfold RVM_OFFSET_GEQ. rewrite oval_lss by done. by rewrite Z.leb_antisym. Qed.

Lemma oval_low x : offset_ok x -> oval x < 2 ^ 64 -> low x = oval x.
Proof. intros [[H1 H2] [H3 H4]]. unfold oval. intros. assert (high x = 0) by nia. lia. Qed.

End RvmOffset.
