(* ===== verification/RvmTree.v ===== *)
(** * Balanced trees of the recoverable memory: code

    Model of the binary trees of src/subprojects/rvm/rvm/rvm_utils.c, in which RVM
    keeps the ranges of a transaction, the mapped regions and the changes found in
    the log.  A node is known by its address; what it holds is reached through the
    comparator.  The links form an inductive tree, an address in the traversal
    vector is dereferenced in that tree.  The vector is a list with the current
    level first; a store past the length it was allocated with is undefined. *)
From Stdlib Require Import ZArith Lia.
From stdpp Require Import base list numbers.
From S2P Require Import Prelude.
Open Scope Z_scope.

Module RvmTree.

(** [tree_node_t]: links and balance factor of the node at [ptr]. *)
Inductive tree := Leaf | Node (lss : tree) (ptr bf : Z) (gtr : tree).

(** [traverse_state_t]. *)
Inductive traverse_state := TLss | TSelf | TGtr | TInit.

Record tree_root := {
  root : tree;
  traverse : list (Z * traverse_state);
  traverse_len : Z;
  n_nodes : Z;
  max_depth : Z;
  unlink : bool
}.

Definition init_tree_root : tree_root :=
  {| root := Leaf; traverse := []; traverse_len := 0; n_nodes := 0; max_depth := 0; unlink := false |}.

(** The address of a subtree, NULL for the empty one. *)
Definition addr (t : tree) : Z := match t with Leaf => 0 | Node _ p _ _ => p end.
Definition bf_ok (b : Z) : bool := (-1 <=? b) && (b <=? 1).

(** The new vector is allocated: its length cannot reach the width of a word. *)
Definition TRAVERSE_LEN_INCR := 15.
Definition chk_traverse (tr : tree_root) : tree_root :=
  if traverse_len tr <=? uwrap 64 (max_depth tr + 1)
  then {| root := root tr; traverse := traverse tr; traverse_len := traverse_len tr + TRAVERSE_LEN_INCR;
          n_nodes := n_nodes tr; max_depth := max_depth tr; unlink := unlink tr |}
  else tr.

(** The store to level [n] of a vector of [len] entries, and the push of an entry. *)
Definition in_vector (len n : Z) : res unit := if n <? len then Ret tt else Stop CUndef.
Definition SET_TRAVERSE (len : Z) (e : Z * traverse_state) (trav : list (Z * traverse_state)) : res (list (Z * traverse_state)) :=
  let* _ := in_vector len (zlen trav) in Ret (e :: trav).

(** A node on the path from the root: the branch taken, and the other one. *)
Inductive frame := FL (p bf : Z) (gtr : tree) | FR (lss : tree) (p bf : Z).

Definition fill (f : frame) (t : tree) : tree :=
  match f with FL p b r => Node t p b r | FR l p b => Node l p b t end.
(** [path] has the deepest frame first. *)
Definition plug (path : list frame) (t : tree) : tree := foldl (fun t f => fill f t) t path.
Definition frame_bf (f : frame) : Z := match f with FL _ b _ | FR _ _ b => b end.
Definition frame_ptr (f : frame) : Z := match f with FL p _ _ | FR _ p _ => p end.

Section Code.
Context (cmp : Z -> Z -> Z).

Fixpoint tree_lookup (node : Z) (t : tree) : res Z :=
  match t with
  | Leaf => Ret 0
  | Node l p _ r =>
      let v := cmp node p in
      if v =? -1 then tree_lookup node l
      else if v =? 0 then Ret p
      else if v =? 1 then tree_lookup node r
      else Stop CAbort
  end.

(** ** Insertion *)

(** [bal_pnt] is the tree at the balance point; the result replaces it.  In a double
    rotation [bfs] are the factors of the balance point and of sub_root. *)
Definition insert_rotate (bal_pnt : tree) (new_bf : Z) : res tree :=
  if new_bf =? 1 then
    match bal_pnt with
    | Node a bp _ (Node sl sp sb sr) =>
        if sb =? 1 then Ret (Node (Node a bp 0 sl) sp 0 sr) else
        match sl with
        | Node nl np nb nr =>
            let* bfs := if nb =? 0 then Ret (0, 0) else if nb =? 1 then Ret (-1, 0) else if nb =? -1 then Ret (0, 1) else Stop CAbort in
            Ret (Node (Node a bp bfs.1 nl) np 0 (Node nr sp bfs.2 sr))
        | Leaf => Stop CUndef
        end
    | _ => Stop CUndef
    end
  else
    match bal_pnt with
    | Node (Node sl sp sb sr) bp _ a =>
        if sb =? -1 then Ret (Node sl sp 0 (Node sr bp 0 a)) else
        match sr with
        | Node nl np nb nr =>
            let* bfs := if nb =? 0 then Ret (0, 0) else if nb =? 1 then Ret (0, -1) else if nb =? -1 then Ret (1, 0) else Stop CAbort in
            Ret (Node (Node sl sp bfs.2 nl) np 0 (Node nr bp bfs.1 a))
        | Leaf => Stop CUndef
        end
    | _ => Stop CUndef
    end.

(** The search for the insertion point; [false] when an equal node is met. *)
Fixpoint search (node len : Z) (t : tree) (path : list frame) (trav : list (Z * traverse_state))
    : res (bool * list frame * list (Z * traverse_state)) :=
  match t with
  | Leaf => Ret (true, path, trav)
  | Node l p b r =>
      let* _ := cassert (bf_ok b) in
      let v := cmp node p in
      if v =? -1 then let* trav := SET_TRAVERSE len (p, TLss) trav in search node len l (FL p b r :: path) trav
      else if v =? 0 then let* trav := SET_TRAVERSE len (p, TSelf) trav in Ret (false, path, trav)
      else if v =? 1 then let* trav := SET_TRAVERSE len (0, TGtr) trav in search node len r (FR l p b :: path) trav
      else Stop CAbort
  end.

(** The path split at the last unbalanced node seen, or else at the root: the
    frames below it, it, and the frames above it. *)
Fixpoint last_unbal (path below : list frame) : option (list frame * frame * list frame) :=
  match path with
  | [] => None
  | [f] => Some (rev below, f, [])
  | f :: up => if negb (frame_bf f =? 0) then Some (rev below, f, up) else last_unbal up (f :: below)
  end.

(** [while (cur != node)]: balance factors of the nodes below. *)
Definition set_bf (f : frame) (b : Z) : frame := match f with FL p _ r => FL p b r | FR l p _ => FR l p b end.
Fixpoint set_bfs (node : Z) (below : list frame) : res (list frame) :=
  match below with
  | [] => Ret []
  | f :: fs =>
      let* _ := cassert (frame_bf f =? 0) in
      let* fs := set_bfs node fs in
      Ret (set_bf f (cmp node (frame_ptr f)) :: fs)
  end.

Definition tree_insert (node : Z) (tr : tree_root) : res (bool * tree_root) :=
  let tr := chk_traverse tr in
  let leaf := Node Leaf node 0 Leaf in
  match root tr with
  | Leaf => Ret (true, {| root := leaf; traverse := traverse tr; traverse_len := traverse_len tr; n_nodes := 1; max_depth := 1; unlink := unlink tr |})
  | _ =>
      let* s := search node (traverse_len tr) (root tr) [] [] in
      let '(inserted, path, trav) := s in
      if negb inserted then
        Ret (false, {| root := root tr; traverse := trav; traverse_len := traverse_len tr; n_nodes := n_nodes tr; max_depth := max_depth tr; unlink := unlink tr |})
      else
      match last_unbal path [] with
      | None => Stop CUndef
      | Some (below, f, up) =>
          let new_bf := cmp node (frame_ptr f) in
          let* below := set_bfs node below in
          let t := plug below leaf in
          let* t :=
            if frame_bf f =? 0 then Ret (fill (set_bf f new_bf) t)
            else if frame_bf f + new_bf =? 0 then Ret (fill (set_bf f 0) t)
            else insert_rotate (fill f t) new_bf in
          let level := zlen trav - 1 + (if frame_bf f =? 0 then 1 else 0) in
          Ret (true, {| root := plug up t; traverse := trav; traverse_len := traverse_len tr; n_nodes := n_nodes tr + 1;
                        max_depth := if max_depth tr <? level + 1 then level + 1 else max_depth tr; unlink := unlink tr |})
      end
  end.

(** ** Deletion *)

(** The new subtree, and whether its depth has changed. *)
Definition delete_rotate (bal_pnt : tree) (new_bf : Z) : res (tree * bool) :=
  if new_bf =? 1 then
    match bal_pnt with
    | Node a bp _ (Node sl sp sb sr) =>
        let* rr := if sb =? 1 then Ret true else if sb =? 0 then
                     match sl with Node _ _ nb _ => Ret (nb =? -1) | Leaf => Stop CUndef end else Ret false in
        if rr : bool then
          if sb =? 1 then Ret (Node (Node a bp 0 sl) sp 0 sr, true) else Ret (Node (Node a bp 1 sl) sp (-1) sr, false)
        else
          match sl with
          | Node nl np nb nr =>
              let* bfs := if nb =? 0 then Ret (0, sb + 1) else if nb =? 1 then Ret (-1, sb + 1)
                          else if nb =? -1 then Ret (0, 1) else Stop CAbort in
              let b := if sb =? 0 then 1 else 0 in
              Ret (Node (Node a bp bfs.1 nl) np b (Node nr sp bfs.2 sr), b =? 0)
          | Leaf => Stop CUndef
          end
    | _ => Stop CUndef
    end
  else
    match bal_pnt with
    | Node (Node sl sp sb sr) bp _ a =>
        let* ll := if sb =? -1 then Ret true else if sb =? 0 then
                     match sr with Node _ _ nb _ => Ret (nb =? 1) | Leaf => Stop CUndef end else Ret false in
        if ll : bool then
          if sb =? -1 then Ret (Node sl sp 0 (Node sr bp 0 a), true) else Ret (Node sl sp 1 (Node sr bp (-1) a), false)
        else
          match sr with
          | Node nl np nb nr =>
              let* bfs := if nb =? 0 then Ret (0, sb - 1) else if nb =? 1 then Ret (0, -1)
                          else if nb =? -1 then Ret (1, sb - 1) else Stop CAbort in
              let b := if sb =? 0 then -1 else 0 in
              Ret (Node (Node sl sp bfs.2 nl) np b (Node nr bp bfs.1 a), b =? 0)
          | Leaf => Stop CUndef
          end
    | _ => Stop CUndef
    end.

(** The search for the node: its path, which is what the vector holds, and the node
    itself. *)
Fixpoint locate (node len : Z) (t : tree) (path : list frame) : res (option (list frame * (tree * Z * tree))) :=
  match t with
  | Leaf => Ret None
  | Node l p b r =>
      let* _ := cassert (bf_ok b) in
      let v := cmp node p in
      if v =? -1 then let* _ := in_vector len (zlen path) in locate node len l (FL p b r :: path)
      else if v =? 0 then let* _ := in_vector len (zlen path) in if p =? node then Ret (Some (path, (l, b, r))) else Stop CAbort
      else if v =? 1 then let* _ := in_vector len (zlen path) in locate node len r (FR l p b :: path)
      else Stop CAbort
  end.

(** The successor in the greater subtree: frames down to it, its address, and the
    child that takes its place; likewise the predecessor.  [len] is the length of
    the vector below the node. *)
Fixpoint leftmost (len : Z) (l : tree) (p b : Z) (r : tree) (path : list frame) : res (list frame * Z * tree) :=
  let* _ := cassert (bf_ok b) in
  let* _ := in_vector len (zlen path) in
  match l with
  | Leaf => Ret (path, p, r)
  | Node l' p' b' r' => leftmost len l' p' b' r' (FL p b r :: path)
  end.
Fixpoint rightmost (len : Z) (l : tree) (p b : Z) (r : tree) (path : list frame) : res (list frame * Z * tree) :=
  let* _ := cassert (bf_ok b) in
  let* _ := in_vector len (zlen path) in
  match r with
  | Leaf => Ret (path, p, l)
  | Node l' p' b' r' => rightmost len l' p' b' r' (FR l p b :: path)
  end.

(** The node leaves the tree: the path to the place that got shorter, and the
    subtree there. *)
Definition take_out (len : Z) (path : list frame) (l : tree) (b : Z) (r : tree) : res (list frame * tree) :=
  match l, r with
  | Leaf, _ => Ret (path, r)
  | _, Leaf => Ret (path, l)
  | Node ll lp lb lr, Node rl rp rb rr =>
      let new_bf := if b =? 0 then if Z.land (zlen path) 1 =? 0 then -1 else 1 else b in
      if new_bf =? 1 then
        let* s := leftmost (len - (zlen path + 1)) rl rp rb rr [] in
        let '(down, sel, t) := s in Ret (down ++ FR l sel b :: path, t)
      else
        let* s := rightmost (len - (zlen path + 1)) ll lp lb lr [] in
        let '(down, sel, t) := s in Ret (down ++ FL sel b r :: path, t)
  end.

(** [while (--tree->level >= 0)]. *)
Fixpoint rebalance (path : list frame) (t : tree) : res tree :=
  match path with
  | [] => Ret t
  | f :: up =>
      let new_bf := match f with FL _ _ _ => 1 | FR _ _ _ => -1 end in
      if frame_bf f =? 0 then Ret (plug up (fill (set_bf f new_bf) t))
      else if frame_bf f + new_bf =? 0 then rebalance up (fill (set_bf f 0) t)
      else
        let* d := delete_rotate (fill f t) new_bf in
        let '(t, shorter) := d in
        if shorter : bool then rebalance up t else Ret (plug up t)
  end.

Definition tree_delete (node : Z) (tr : tree_root) : res (bool * tree_root) :=
  match root tr with
  | Leaf => Stop CUndef
  | Node _ old_root old_root_bf _ =>
      let tr := chk_traverse tr in
      let* s := locate node (traverse_len tr) (root tr) [] in
      match s with
      | None => Ret (false, tr)
      | Some (path, (l, b, r)) =>
          let* s := take_out (traverse_len tr) path l b r in
          let* t := rebalance s.1 s.2 in
          let shrunk := match t with
            | Leaf => true
            | Node _ p b _ => ((old_root =? p) && negb (old_root_bf =? 0) && (b =? 0)) || (negb (old_root =? p) && (b =? 0))
            end in
          let n := n_nodes tr - 1 in
          Ret (true, {| root := t; traverse := []; traverse_len := if n =? 0 then 0 else traverse_len tr; n_nodes := n;
                        max_depth := if shrunk then uwrap 64 (max_depth tr - 1) else max_depth tr; unlink := unlink tr |})
      end
  end.

(** ** Iteration *)

(** The node at an address; stores to its links. *)
Fixpoint sub (t : tree) (a : Z) : option tree :=
  match t with
  | Leaf => None
  | Node l p _ r => if p =? a then Some t else
      match sub l a, sub r a with Some u, None | None, Some u => Some u | _, _ => None end
  end.
Definition deref (t : tree) (a : Z) : res (tree * Z * tree) :=
  match sub t a with Some (Node l _ b r) => Ret (l, b, r) | _ => Stop CUndef end.
Fixpoint set_lss (a : Z) (u t : tree) : tree :=
  match t with
  | Leaf => Leaf
  | Node l p b r => if p =? a then Node u p b r else Node (set_lss a u l) p b (set_lss a u r)
  end.
Fixpoint set_gtr (a : Z) (u t : tree) : tree :=
  match t with
  | Leaf => Leaf
  | Node l p b r => if p =? a then Node l p b u else Node (set_gtr a u l) p b (set_gtr a u r)
  end.

Definition with_traverse (tr : tree_root) (trav : list (Z * traverse_state)) : tree_root :=
  {| root := root tr; traverse := trav; traverse_len := traverse_len tr; n_nodes := n_nodes tr; max_depth := max_depth tr; unlink := unlink tr |}.

(** The part of tree_successor from [unlink] on: the node [a] with the links [l]
    and [r], its level has the entry (r, st), [up] are the levels above. *)
Definition hand_out (tr : tree_root) (a : Z) (l r : tree) (st : traverse_state) (up : list (Z * traverse_state)) : res (tree_root * Z) :=
  let trav := (addr r, st) :: up in
  if unlink tr then
    let* root' := match up with
      | [] => Ret r
      | (q, _) :: _ => let* _ := deref (root tr) q in Ret (set_lss q r (root tr))
      end in
    let* _ := match l with Leaf => Ret tt | _ => Stop CAbort end in
    Ret ({| root := root'; traverse := trav; traverse_len := traverse_len tr; n_nodes := n_nodes tr - 1; max_depth := max_depth tr; unlink := true |}, a)
  else Ret (with_traverse tr trav, a).

(** [while ((cur = cur->lss) != NULL) SET_TRAVERSE(tree, cur, lss)]. *)
Fixpoint push_lss (len : Z) (t : tree) (trav : list (Z * traverse_state)) : res (list (Z * traverse_state)) :=
  match t with
  | Leaf => Ret trav
  | Node l p b _ => let* _ := cassert (bf_ok b) in let* trav := SET_TRAVERSE len (p, TLss) trav in push_lss len l trav
  end.

Definition successor_step (tr : tree_root) : res (tree_root + (tree_root * Z)) :=
  match traverse tr with
  | [] => Stop CUndef
  | (a, st) :: up =>
      let next := match up with [] => Ret (inr (with_traverse tr [], 0)) | _ => Ret (inl (with_traverse tr up)) end in
      let visit := let* n := deref (root tr) a in let '(l, b, r) := n in
                   let* _ := cassert (bf_ok b) in let* e := hand_out tr a l r TSelf up in Ret (inr e) in
      match st with
      | TGtr => if a =? 0 then next else visit
      | TLss => visit
      | TSelf =>
          if a =? 0 then Ret (inl (with_traverse tr ((0, TGtr) :: up))) else
          let* n := deref (root tr) a in let '(l, b, r) := n in
          let* _ := cassert (bf_ok b) in
          match l with
          | Leaf => let* e := hand_out tr a l r TGtr up in Ret (inr e)
          | _ => let* trav := push_lss (traverse_len tr) l ((a, TGtr) :: up) in Ret (inl (with_traverse tr trav))
          end
      | TInit =>
          let* n := deref (root tr) a in let '(l, b, r) := n in
          let* _ := cassert (bf_ok b && match up with [] => true | _ => false end) in
          let* trav := push_lss (traverse_len tr) l ((a, TLss) :: up) in Ret (inl (with_traverse tr trav))
      end
  end.

(** At most two rounds at the current level, one per level above and one to visit. *)
Definition tree_successor (tr : tree_root) : res (tree_root * Z) :=
  while_loop (4 + length (traverse tr)) successor_step tr.

Definition hand_out_rev (tr : tree_root) (a : Z) (l r : tree) (st : traverse_state) (up : list (Z * traverse_state)) : res (tree_root * Z) :=
  let trav := (addr l, st) :: up in
  if unlink tr then
    let* root' := match up with
      | [] => Ret l
      | (q, _) :: _ => let* _ := deref (root tr) q in Ret (set_gtr q l (root tr))
      end in
    let* _ := match r with Leaf => Ret tt | _ => Stop CAbort end in
    Ret ({| root := root'; traverse := trav; traverse_len := traverse_len tr; n_nodes := n_nodes tr - 1; max_depth := max_depth tr; unlink := true |}, a)
  else Ret (with_traverse tr trav, a).

Fixpoint push_gtr (len : Z) (t : tree) (trav : list (Z * traverse_state)) : res (list (Z * traverse_state)) :=
  match t with
  | Leaf => Ret trav
  | Node _ p b r => let* _ := cassert (bf_ok b) in let* trav := SET_TRAVERSE len (p, TGtr) trav in push_gtr len r trav
  end.

Definition predecessor_step (tr : tree_root) : res (tree_root + (tree_root * Z)) :=
  match traverse tr with
  | [] => Stop CUndef
  | (a, st) :: up =>
      let next := match up with [] => Ret (inr (with_traverse tr [], 0)) | _ => Ret (inl (with_traverse tr up)) end in
      let visit := let* n := deref (root tr) a in let '(l, b, r) := n in
                   let* _ := cassert (bf_ok b) in let* e := hand_out_rev tr a l r TSelf up in Ret (inr e) in
      match st with
      | TLss => if a =? 0 then next else visit
      | TGtr => visit
      | TSelf =>
          if a =? 0 then Ret (inl (with_traverse tr ((0, TLss) :: up))) else
          let* n := deref (root tr) a in let '(l, b, r) := n in
          let* _ := cassert (bf_ok b) in
          match r with
          | Leaf => let* e := hand_out_rev tr a l r TLss up in Ret (inr e)
          | _ => let* trav := push_gtr (traverse_len tr) r ((a, TLss) :: up) in Ret (inl (with_traverse tr trav))
          end
      | TInit =>
          let* n := deref (root tr) a in let '(l, b, r) := n in
          let* _ := cassert (bf_ok b && match up with [] => true | _ => false end) in
          let* trav := push_gtr (traverse_len tr) r ((a, TGtr) :: up) in Ret (inl (with_traverse tr trav))
      end
  end.

Definition tree_predecessor (tr : tree_root) : res (tree_root * Z) :=
  while_loop (4 + length (traverse tr)) predecessor_step tr.

(** [forward]: lss to gtr. *)
Definition init_tree_generator (tr : tree_root) (forward unl : bool) : res (tree_root * Z) :=
  let tr := {| root := root tr; traverse := []; traverse_len := traverse_len tr; n_nodes := n_nodes tr; max_depth := max_depth tr; unlink := unl |} in
  match root tr with
  | Leaf => Ret (tr, 0)
  | Node _ p _ _ =>
      let tr := chk_traverse tr in
      let* trav := SET_TRAVERSE (traverse_len tr) (p, TInit) [] in
      let tr := with_traverse tr trav in
      if forward then tree_successor tr else tree_predecessor tr
  end.

(** The smallest node that conflicts: the vector with the levels down to it. *)
Fixpoint smallest (node len : Z) (t : tree) (trav first : list (Z * traverse_state)) : res (list (Z * traverse_state)) :=
  match t with
  | Leaf => Ret first
  | Node l p _ r =>
      let v := cmp p node in
      if v =? -1 then let* trav := SET_TRAVERSE len (0, TGtr) trav in smallest node len r trav first
      else if v =? 0 then let* trav := SET_TRAVERSE len (p, TLss) trav in smallest node len l trav trav
      else Stop CAbort
  end.

Definition tree_iterate_insert (node : Z) (tr : tree_root) : res (tree_root * Z) :=
  let tr := {| root := root tr; traverse := traverse tr; traverse_len := traverse_len tr; n_nodes := n_nodes tr; max_depth := max_depth tr; unlink := false |} in
  let* i := tree_insert node tr in
  let '(inserted, tr) := i in
  if inserted : bool then Ret (tr, 0) else
  match traverse tr with
  | [] => Stop CUndef
  | (a, _) :: up =>
      let* n := deref (root tr) a in let '(l, _, _) := n in
      let* first := smallest node (traverse_len tr) l ((a, TLss) :: up) ((a, TLss) :: up) in
      match first with
      | [] => Stop CUndef
      | (a, _) :: up =>
          let* n := deref (root tr) a in let '(_, _, r) := n in
          Ret (with_traverse tr ((addr r, TSelf) :: up), a)
      end
  end.

End Code.

(** ** The iterator macros of rvm_private.h *)
Fixpoint tsize (t : tree) : nat := match t with Leaf => O | Node l _ _ r => S (tsize l + tsize r) end.

(** The [for] loop they all have; [inr] leaves it with [break] or [return].  One
    round per node is enough. *)
Fixpoint for_nodes {St R} (next : tree_root -> res (tree_root * Z)) (fuel : nat) (p : Z) (tr : tree_root)
    (body : Z -> St -> res (St + R)) (s : St) : res (tree_root * (St + R)) :=
  if p =? 0 then Ret (tr, inl s) else
  match fuel with
  | O => Stop CDiverge
  | S f =>
      let* r := body p s in
      match r with
      | inr x => Ret (tr, inr x)
      | inl s => let* n := next tr in for_nodes next f n.2 n.1 body s
      end
  end.

Definition FOR_NODES_OF {St R} (tr : tree_root) (body : Z -> St -> res (St + R)) (s : St) : res (tree_root * (St + R)) :=
  let* n := init_tree_generator tr true false in for_nodes tree_successor (tsize (root tr)) n.2 n.1 body s.
Definition UNLINK_NODES_OF {St R} (tr : tree_root) (body : Z -> St -> res (St + R)) (s : St) : res (tree_root * (St + R)) :=
  let* n := init_tree_generator tr true true in for_nodes tree_successor (tsize (root tr)) n.2 n.1 body s.
Definition UNLINK_REVERSE_NODES_OF {St R} (tr : tree_root) (body : Z -> St -> res (St + R)) (s : St) : res (tree_root * (St + R)) :=
  let* n := init_tree_generator tr false true in for_nodes tree_predecessor (tsize (root tr)) n.2 n.1 body s.
Definition FROM_EXISTING_NODE_OF {St R} (cmp : Z -> Z -> Z) (tr : tree_root) (node : Z) (body : Z -> St -> res (St + R)) (s : St) : res (tree_root * (St + R)) :=
  let* n := tree_iterate_insert cmp node tr in for_nodes tree_successor (tsize (root tr)) n.2 n.1 body s.

End RvmTree.
