(* ===== verification/RvmAvl.v ===== *)
(** * Balanced trees of the recoverable memory: insertion and deletion

    The trees of rvm_utils.c stay balanced, and their nodes in order: insertion puts
    the node between those the comparator puts below and above it, deletion removes
    exactly the node. *)
From Stdlib Require Import ZArith Lia.
From stdpp Require Import base list numbers gmap.
From S2P Require Import Prelude.
From S2P Require Import RvmTree.
Import RvmTree.
Open Scope Z_scope.

Module RvmAvl.

(** Lists with the parentheses to the right. *)
Ltac app_norm := cbn; repeat (progress (rewrite <- ?app_assoc, ?app_nil_r; cbn [app])); try reflexivity.

(** ** Height, balance, order *)
Fixpoint ht (t : tree) : Z := match t with Leaf => 0 | Node l _ _ r => 1 + Z.max (ht l) (ht r) end.
Fixpoint inorder (t : tree) : list Z := match t with Leaf => [] | Node l p _ r => inorder l ++ p :: inorder r end.
Fixpoint balanced (t : tree) : Prop :=
  match t with
  | Leaf => True
  | Node l _ b r => b = ht r - ht l /\ -1 <= b <= 1 /\ balanced l /\ balanced r
  end.

(** What comes before and after the hole of a path. *)
Fixpoint before (path : list frame) : list Z :=
  match path with [] => [] | FL _ _ _ :: up => before up | FR l p _ :: up => before up ++ inorder l ++ [p] end.
Fixpoint after (path : list frame) : list Z :=
  match path with [] => [] | FL p _ r :: up => p :: inorder r ++ after up | FR _ _ _ :: up => after up end.

Lemma ht_nonneg t : 0 <= ht t.
Proof. induction t; cbn; lia. Qed.

Lemma plug_cons f up t : plug (f :: up) t = plug up (fill f t).
Proof. done. Qed.
Lemma plug_app fs up t : plug (fs ++ up) t = plug up (plug fs t).
Proof. apply foldl_app. Qed.

Lemma inorder_plug path t : inorder (plug path t) = before path ++ inorder t ++ after path.
Proof.
  revert t. induction path as [|[p b r|l p b] up IH]; intros t; [cbn; by rewrite app_nil_r| |];
    rewrite plug_cons, IH; cbn; by rewrite <- ?app_assoc.
Qed.

Lemma before_app fs up : before (fs ++ up) = before up ++ before fs.
Proof. induction fs as [|[p b r|l p b] fs IH]; cbn; [by rewrite app_nil_r|done|by rewrite IH, <- !app_assoc]. Qed.
Lemma after_app fs up : after (fs ++ up) = after fs ++ after up.
Proof. induction fs as [|[p b r|l p b] fs IH]; cbn; [done|by rewrite IH, <- !app_assoc|done]. Qed.

(** A subtree of the same height can be put in place of another. *)
Lemma balanced_fill f t u : balanced (fill f t) -> ht u = ht t -> balanced u -> balanced (fill f u) /\ ht (fill f u) = ht (fill f t).
Proof. destruct f; cbn; intros (H1 & H2 & H3 & H4) -> Hu; done. Qed.

Lemma balanced_plug path t u : balanced (plug path t) -> ht u = ht t -> balanced u -> balanced (plug path u) /\ ht (plug path u) = ht (plug path t).
Proof.
  revert t u. induction path as [|f up IH]; intros t u; [done|]. rewrite !plug_cons. intros Hb Hh Hu.
  assert (balanced (fill f t)) as Hf.
  { clear - Hb. revert Hb. generalize (fill f t). induction up as [|g up IH]; intros v; [done|]. rewrite plug_cons. intros H%IH. destruct g; cbn in H; tauto. }
  destruct (balanced_fill f t u Hf Hh Hu). eapply IH; done.
Qed.

Lemma balanced_hole path t : balanced (plug path t) -> balanced t.
Proof. revert t. induction path as [|f up IH]; intros t; [done|]. rewrite plug_cons. intros H%IH. destruct f; cbn in H; tauto. Qed.

Lemma bf_ok_true b : -1 <= b <= 1 -> bf_ok b = true.
Proof. intros. unfold bf_ok. destruct (Z.leb_spec (-1) b), (Z.leb_spec b 1); done || lia. Qed.

Lemma in_vector_ok len n : n < len -> in_vector len n = Ret tt.
Proof. intros H. unfold in_vector. destruct (Z.ltb_spec n len); done || lia. Qed.
Lemma SET_TRAVERSE_ok len e trav : zlen trav < len -> SET_TRAVERSE len e trav = Ret (e :: trav).
Proof. intros H. unfold SET_TRAVERSE. by rewrite in_vector_ok. Qed.

Lemma ht_plug path t : zlen path + ht t <= ht (plug path t).
Proof.
  revert t. induction path as [|f up IH]; intros t; [rewrite zlen_nil; cbn; lia|]. rewrite plug_cons, zlen_cons. specialize (IH (fill f t)). pose proof (ht_nonneg t). destruct f as [p b r|l p b]; cbn [fill ht] in IH |- *; lia.
Qed.

(** ** The length of the vector *)

(** The trees the vector is long enough for: those of at most 15 levels, and those
    whose depth [max_depth] does not underestimate. *)
Definition deep (tr : tree_root) : Prop := ht (root tr) <= max_depth tr <= traverse_len tr + 13 /\ max_depth tr < 2 ^ 63.
Definition room (tr : tree_root) : Prop :=
  (traverse_len tr = 0 \/ 15 <= traverse_len tr) /\ 0 <= max_depth tr /\ (ht (root tr) <= 15 \/ deep tr).

Lemma chk_traverse_same tr : root (chk_traverse tr) = root tr /\ n_nodes (chk_traverse tr) = n_nodes tr /\
  max_depth (chk_traverse tr) = max_depth tr /\ unlink (chk_traverse tr) = unlink tr /\ traverse (chk_traverse tr) = traverse tr.
Proof. unfold chk_traverse. by destruct (_ <=? _). Qed.

Lemma chk_traverse_room tr : room tr -> 15 <= traverse_len (chk_traverse tr) /\ ht (root tr) <= traverse_len (chk_traverse tr) /\
  (deep tr -> max_depth tr + 1 < traverse_len (chk_traverse tr)).
Proof.
  intros (Hlen & H0 & Hr). unfold deep in *. unfold chk_traverse, TRAVERSE_LEN_INCR, uwrap. pose proof (Z.mod_pos_bound (max_depth tr + 1) (2 ^ 64) ltac:(lia)).
  destruct (Z.leb_spec (traverse_len tr) ((max_depth tr + 1) mod 2 ^ 64)); cbn [traverse_len]; [|destruct Hlen as [Hlen|Hlen]; [lia|]];
    (destruct Hr as [Hr|[Hr Hm]]; (split; [|split]); try lia; try intros [? ?]; rewrite Z.mod_small in * by lia; lia).
Qed.

Lemma ht_size t : ht t <= zlen (inorder t).
Proof. induction t as [|l IHl p b r IHr]; [done|]. cbn [ht inorder]. rewrite zlen_app, zlen_cons. pose proof (zlen_nonneg (inorder l)). pose proof (zlen_nonneg (inorder r)). lia. Qed.

(** Room after an insertion at depth [n]; the tree gets deeper only there. *)
Lemma grown_room tr tr' n g : room tr -> traverse_len tr' = traverse_len (chk_traverse tr) ->
  0 <= n <= ht (root tr) -> (g = 0 \/ (g = 1 /\ n = ht (root tr))) -> ht (root tr') = ht (root tr) + g -> max_depth tr' = Z.max (max_depth tr) (n + g) ->
  (ht (root tr') <= 15 -> room tr') /\ (deep tr -> ht (root tr) < 2 ^ 62 -> room tr' /\ deep tr').
Proof.
  intros Hr Hl Hn Hg Hh Hm. destruct (chk_traverse_room tr Hr) as (H1 & H2 & H3). destruct Hr as (_ & H0 & _). rewrite <- Hl in *.
  assert (deep tr -> ht (root tr) < 2 ^ 62 -> deep tr') as Hd by (intros Hd; specialize (H3 Hd); destruct Hd as [? ?]; intros; split; lia).
  split; [intros; split; [|split]; [lia|lia|by left]|]. intros Hdeep Hs. specialize (Hd Hdeep Hs). split; [|done]. split; [lia|]. split; [lia|by right].
Qed.

(** The fewest nodes a balanced tree of a height can have. *)
Fixpoint min_nodes (h : nat) : Z :=
  match h with
  | O => 0
  | S h1 => match h1 with O => 1 | S h2 => 1 + min_nodes h1 + min_nodes h2 end
  end.

Lemma min_nodes_SS h : min_nodes (S (S h)) = 1 + min_nodes (S h) + min_nodes h.
Proof. done. Qed.
Lemma min_nodes_mono h : 0 <= min_nodes h <= min_nodes (S h).
Proof.
  assert (forall h, 0 <= min_nodes h <= min_nodes (S h) /\ min_nodes (S h) <= min_nodes (S (S h))) as H; [|apply H].
  clear h. induction h as [|h IH]; [done|]. rewrite (min_nodes_SS (S h)), (min_nodes_SS h) in *. lia.
Qed.
Lemma min_nodes_le m n : (m <= n)%nat -> min_nodes m <= min_nodes n.
Proof. induction 1 as [|n _ IH]; [done|]. pose proof (min_nodes_mono n). lia. Qed.

Lemma min_nodes_spec t : balanced t -> min_nodes (Z.to_nat (ht t)) <= zlen (inorder t).
Proof.
  induction t as [|l IHl p b r IHr]; intros Hb; [done|]. destruct Hb as (Hbf & Hb1 & Hbl & Hbr). specialize (IHl Hbl). specialize (IHr Hbr).
  pose proof (ht_nonneg l). pose proof (ht_nonneg r). cbn [inorder ht]. rewrite zlen_app, zlen_cons.
  assert (exists h h', (Z.to_nat (1 + Z.max (ht l) (ht r)) = S h /\ (pred h <= h')%nat /\
    ((Z.to_nat (ht l) = h /\ Z.to_nat (ht r) = h') \/ (Z.to_nat (ht l) = h' /\ Z.to_nat (ht r) = h)))%nat) as (h & h' & -> & Hh' & Hcase).
  { destruct (Z.max_spec (ht l) (ht r)) as [[? ->]|[? ->]]; [exists (Z.to_nat (ht r)), (Z.to_nat (ht l))|exists (Z.to_nat (ht l)), (Z.to_nat (ht r))]; lia. }
  apply min_nodes_le in Hh'. destruct h as [|h]; [|rewrite min_nodes_SS; cbn [pred] in Hh'].
  - change (min_nodes 1) with 1. pose proof (zlen_nonneg (inorder l)). pose proof (zlen_nonneg (inorder r)). lia.
  - destruct Hcase as [[E1 E2]|[E1 E2]]; rewrite E1 in IHl; rewrite E2 in IHr; lia.
Qed.

(** A tree of fewer than 2583 nodes has at most 15 levels. *)
Definition few (xs : list Z) : Prop := zlen xs < 2583.
Lemma few_ht t : balanced t -> few (inorder t) -> ht t <= 15.
Proof.
  intros Hb Hf. pose proof (min_nodes_spec t Hb) as H. unfold few in Hf. destruct (Z.le_gt_cases (ht t) 15) as [|Hgt]; [done|].
  assert (min_nodes 16 <= min_nodes (Z.to_nat (ht t))) as Hm by (apply min_nodes_le; lia). change (min_nodes 16) with 2583 in Hm. lia.
Qed.

Section Cmp.
Context (cmp : Z -> Z -> Z).

(** The comparator puts [l1] below the node, [mid] on it, and [l2] above. *)
Definition cut (node : Z) (l1 mid l2 : list Z) : Prop :=
  Forall (fun x => cmp node x = 1) l1 /\ Forall (fun x => cmp node x = 0) mid /\ Forall (fun x => cmp node x = -1) l2.

(** The direction of a frame is the comparator's. *)
Definition on_path (node : Z) (f : frame) : Prop :=
  match f with FL p _ _ => cmp node p = -1 | FR _ p _ => cmp node p = 1 end.
Definition entry_of (f : frame) : Z * traverse_state := match f with FL p _ _ => (p, TLss) | FR _ _ _ => (0, TGtr) end.

(** Where the node of a subtree lies in the cut. *)
Lemma cut_node node l p r l1 mid l2 : cut node l1 mid l2 -> l ++ p :: r = l1 ++ mid ++ l2 ->
  (cmp node p = 1 /\ exists k, l1 = l ++ p :: k /\ r = k ++ mid ++ l2) \/
  (cmp node p = 0 /\ exists m1 m2, mid = m1 ++ p :: m2 /\ l = l1 ++ m1 /\ r = m2 ++ l2) \/
  (cmp node p = -1 /\ exists k, l2 = k ++ p :: r /\ l = l1 ++ mid ++ k).
Proof.
  intros (H1 & H2 & H3) E. rewrite Forall_forall in H1, H2, H3. apply app_eq_inv in E as [(k & -> & E)|(k & -> & E)].
  - right. apply app_eq_inv in E as [(m & -> & E)|(m & -> & E)].
    + destruct m as [|q m]; cbn in E.
      * right. split; [apply H3; rewrite <- E; apply list_elem_of_here|]. exists []. by rewrite !app_nil_r.
      * injection E as -> ->. left. split; [apply H2; set_solver|]. exists k, m. done.
    + right. split; [apply H3; rewrite E; set_solver|]. exists m. by rewrite app_assoc.
  - destruct k as [|q k]; cbn in E.
    + right. rewrite app_nil_r. destruct mid as [|q mid]; cbn in E.
      * right. split; [apply H3; rewrite <- E; apply list_elem_of_here|]. exists []. by rewrite E, app_nil_r.
      * injection E as -> ->. left. split; [apply H2; apply list_elem_of_here|]. exists [], mid. by rewrite app_nil_r.
    + injection E as -> ->. left. split; [apply H1; set_solver|]. by exists k.
Qed.

(** ** Insertion *)
Lemma search_spec node len t path trav l1 mid l2 : zlen trav + ht t <= len -> balanced t -> cut node l1 mid l2 -> inorder t = l1 ++ mid ++ l2 ->
  exists path1,
    Forall (on_path node) path1 /\
    (mid = [] -> search cmp node len t path trav = Ret (true, path1 ++ path, (entry_of <$> path1) ++ trav) /\
       plug path1 Leaf = t /\ before path1 = l1 /\ after path1 = l2) /\
    (mid <> [] -> exists l p b r m1 m2, search cmp node len t path trav = Ret (false, path1 ++ path, (p, TSelf) :: (entry_of <$> path1) ++ trav) /\
       t = plug path1 (Node l p b r) /\ mid = m1 ++ p :: m2 /\ before path1 ++ inorder l = l1 ++ m1 /\ inorder r ++ after path1 = m2 ++ l2).
Proof.
  revert path trav l1 mid l2. induction t as [|l IHl p b r IHr]; intros path trav l1 mid l2 Hl Hb Hc E.
  - symmetry in E. apply app_nil in E as [-> [-> ->]%app_nil]. exists []. split; [done|]. split; [done|done].
  - destruct Hb as (Hbf & Hb1 & Hbl & Hbr). cbn [inorder] in E. cbn [search]. rewrite bf_ok_true by done. cbn [cassert rbind].
    cbn [ht] in Hl. pose proof (ht_nonneg l) as Hnl. pose proof (ht_nonneg r) as Hnr. rewrite !SET_TRAVERSE_ok by lia.
    pose proof Hc as (H1 & H2 & H3). destruct (cut_node _ _ _ _ _ _ _ Hc E) as [(Hv & k & -> & Er)|[(Hv & m1 & m2 & -> & El & Er)|(Hv & k & -> & El)]]; rewrite Hv; cbn.
    + apply Forall_app in H1 as [H1l [_ H1k]%Forall_cons].
      destruct (IHr (FR l p b :: path) ((0, TGtr) :: trav) k mid l2 ltac:(rewrite zlen_cons; lia) Hbr (conj H1k (conj H2 H3)) Er) as (path1 & Hd & Hnone & Hsome).
      exists (path1 ++ [FR l p b]). rewrite fmap_app, <- !app_assoc. cbn [fmap list_fmap app]. split; [apply Forall_app; split; [done|by constructor]|]. split.
      * intros ->. destruct (Hnone eq_refl) as (Es & <- & <- & <-). rewrite before_app, after_app, plug_app. cbn. by rewrite <- app_assoc, app_nil_r.
      * intros Hne. destruct (Hsome Hne) as (l' & p' & b' & r' & m1 & m2 & Es & Et & -> & Eb & Ea). exists l', p', b', r', m1, m2.
        split; [exact Es|]. rewrite before_app, after_app, plug_app, <- Et. cbn. rewrite app_nil_r, <- !app_assoc. cbn. rewrite Eb. done.
    + exists []. split; [done|]. split; [intros H; by destruct m1|]. intros _. exists l, p, b, r, m1, m2. cbn. by rewrite El, Er, app_nil_r.
    + apply Forall_app in H3 as [H3k [_ H3r]%Forall_cons].
      destruct (IHl (FL p b r :: path) ((p, TLss) :: trav) l1 mid k ltac:(rewrite zlen_cons; lia) Hbl (conj H1 (conj H2 H3k)) El) as (path1 & Hd & Hnone & Hsome).
      exists (path1 ++ [FL p b r]). rewrite fmap_app, <- !app_assoc. cbn [fmap list_fmap app]. split; [apply Forall_app; split; [done|by constructor]|]. split.
      * intros ->. destruct (Hnone eq_refl) as (Es & <- & <- & <-). rewrite before_app, after_app, plug_app. cbn. by rewrite app_nil_r.
      * intros Hne. destruct (Hsome Hne) as (l' & p' & b' & r' & m1 & m2 & Es & Et & -> & Eb & Ea). exists l', p', b', r', m1, m2.
        split; [exact Es|]. rewrite before_app, after_app, plug_app, <- Et. cbn. rewrite app_nil_r, app_assoc, Ea, <- app_assoc. done.
Qed.

Definition dir (f : frame) : Z := match f with FL _ _ _ => -1 | FR _ _ _ => 1 end.
Definition root_bf (t : tree) : Z := match t with Leaf => 0 | Node _ _ b _ => b end.

Lemma on_path_dir node f : on_path node f -> cmp node (frame_ptr f) = dir f.
Proof. by destruct f. Qed.

Lemma last_unbal_spec path acc : path <> [] -> exists below f up,
  last_unbal path acc = Some (rev acc ++ below, f, up) /\ path = below ++ f :: up /\
  Forall (fun g => frame_bf g = 0) below /\ (frame_bf f <> 0 \/ up = []).
Proof.
  revert acc. induction path as [|f path IH]; intros acc Hne; [done|]. destruct path as [|g path].
  - exists [], f, []. cbn. rewrite app_nil_r. auto.
  - change (last_unbal (f :: g :: path) acc) with (if negb (frame_bf f =? 0) then Some (rev acc, f, g :: path) else last_unbal (g :: path) (f :: acc)).
    destruct (Z.eqb_spec (frame_bf f) 0) as [Hf|Hf]; cbn [negb].
    + destruct (IH (f :: acc)) as (below & h & up & E & Ep & Hb & Hh); [done|]. exists (f :: below), h, up. rewrite E, Ep. cbn. rewrite <- app_assoc. auto.
    + exists [], f, (g :: path). rewrite app_nil_r. auto.
Qed.

Lemma set_bfs_spec node below : Forall (fun g => frame_bf g = 0) below ->
  set_bfs cmp node below = Ret ((fun f => set_bf f (cmp node (frame_ptr f))) <$> below).
Proof. induction 1 as [|f fs Hf _ IH]; [done|]. cbn [set_bfs]. rewrite Hf, IH. done. Qed.

Lemma before_set h fs : before ((fun f => set_bf f (h f)) <$> fs) = before fs.
Proof. induction fs as [|[p b r|l p b] fs IH]; cbn; [done|done|by rewrite IH]. Qed.
Lemma after_set h fs : after ((fun f => set_bf f (h f)) <$> fs) = after fs.
Proof. induction fs as [|[p b r|l p b] fs IH]; cbn; [done|by rewrite IH|done]. Qed.

(** The nodes below the balance point get deeper on the side of the new node. *)
Lemma grow_below node below leaf :
  Forall (fun g => frame_bf g = 0) below -> Forall (on_path node) below -> balanced (plug below Leaf) -> balanced leaf -> ht leaf = 1 ->
  let t := plug ((fun f => set_bf f (cmp node (frame_ptr f))) <$> below) leaf in
  balanced t /\ ht t = ht (plug below Leaf) + 1 /\ (below <> [] -> root_bf t <> 0).
Proof.
  intros H0 Hd Hb Hleaf H1. induction below as [|f fs IH] using rev_ind; [cbn; rewrite H1; done|].
  rewrite fmap_app, !plug_app in *. apply Forall_app in H0 as [H0 [Hf _]%Forall_cons], Hd as [Hd [Hdf _]%Forall_cons].
  assert (balanced (plug fs Leaf)) as Hfs by (destruct f; cbn in Hb; tauto). destruct (IH H0 Hd Hfs) as (IH1 & IH2 & _). clear IH.
  set (u := plug (_ <$> fs) leaf) in *. pose proof (ht_nonneg u).
  cbn [fmap list_fmap plug foldl]. rewrite (on_path_dir _ _ Hdf).
  destruct f as [p b r|l p b]; cbn in *; subst b; destruct Hb as (Hb1 & _ & Hb2 & Hb3); rewrite IH2; repeat split; try done; lia.
Qed.

Lemma insert_rotate_spec f t b :
  frame_bf f = b -> b = dir f -> balanced t ->
  match f with FL _ _ r => ht t = ht r + 2 /\ balanced r | FR l _ _ => ht t = ht l + 2 /\ balanced l end -> root_bf t <> 0 ->
  exists t', insert_rotate (fill f t) b = Ret t' /\ balanced t' /\ ht t' = ht t /\ inorder t' = inorder (fill f t).
Proof.
  intros Hfb -> Hb Hh Hne. destruct f as [p b r|l p b]; cbn in Hfb; subst b; destruct Hh as [Hh Hbr]; destruct t as [|sl sp sb sr];
    try (cbn in Hh; pose proof (ht_nonneg r); lia); try (cbn in Hh; pose proof (ht_nonneg l); lia);
    destruct Hb as (Hsb & Hs1 & Hbl & Hbr'); cbn [root_bf] in Hne; cbn [insert_rotate fill dir Z.eqb].
  - destruct (Z.eqb_spec sb (-1)) as [->|Hn].
    + eexists. split; [done|]. cbn in *. rewrite <- app_assoc. repeat split; try done; lia.
    + assert (sb = 1) as -> by lia. destruct sr as [|nl np nb nr]; [cbn in *; pose proof (ht_nonneg sl); lia|].
      destruct Hbr' as (Hnb & Hn1 & Hnl & Hnr). cbn in Hh, Hsb.
      destruct (Z.eqb_spec nb 0) as [->|]; [|destruct (Z.eqb_spec nb 1) as [->|]; [|assert (nb = -1) as -> by lia]];
        (eexists; split; [done|]; cbn; rewrite <- !app_assoc; cbn; rewrite <- ?app_assoc; repeat split; try done; lia).
  - destruct (Z.eqb_spec sb 1) as [->|Hn].
    + eexists. split; [done|]. cbn in *. rewrite <- app_assoc. repeat split; try done; lia.
    + assert (sb = -1) as -> by lia. destruct sl as [|nl np nb nr]; [cbn in *; pose proof (ht_nonneg sr); lia|].
      destruct Hbl as (Hnb & Hn1 & Hnl & Hnr). cbn in Hh, Hsb.
      destruct (Z.eqb_spec nb 0) as [->|]; [|destruct (Z.eqb_spec nb 1) as [->|]; [|assert (nb = -1) as -> by lia]];
        (eexists; split; [done|]; cbn; rewrite <- !app_assoc; cbn; rewrite <- ?app_assoc; repeat split; try done; lia).
Qed.

(** A tree with the nodes [xs], in order. *)
Record tree_ok (tr : tree_root) (xs : list Z) : Prop := {
  t_order : inorder (root tr) = xs;
  t_balanced : balanced (root tr);
  t_nodes : n_nodes tr = zlen xs
}.

(** The search met the node [p] of [mid]; the vector leads to it. *)
Definition collided (node : Z) (tr tr' : tree_root) (l1 mid l2 : list Z) : Prop :=
  root tr' = root tr /\ n_nodes tr' = n_nodes tr /\ max_depth tr' = max_depth tr /\ unlink tr' = unlink tr /\ traverse_len tr' = traverse_len (chk_traverse tr) /\
  exists path l p b r m1 m2, traverse tr' = (p, TSelf) :: (entry_of <$> path) /\ Forall (on_path node) path /\
    root tr = plug path (Node l p b r) /\ mid = m1 ++ p :: m2 /\ before path ++ inorder l = l1 ++ m1 /\ inorder r ++ after path = m2 ++ l2.

Lemma path_height path : Forall (fun g => frame_bf g = 0) path -> balanced (plug path Leaf) -> ht (plug path Leaf) = zlen path.
Proof.
  intros H0. induction path as [|f fs IH] using rev_ind; [done|]. rewrite plug_app, zlen_app. apply Forall_app in H0 as [H0 [Hf _]%Forall_cons].
  cbn. intros Hb. assert (balanced (plug fs Leaf)) as Hfs by (destruct f; cbn in Hb; tauto). specialize (IH H0 Hfs).
  pose proof (zlen_nonneg fs). change (zlen [f]) with 1. destruct f; cbn in *; lia.
Qed.

(** The tree that takes the place of the balance point and what is below it. *)
Lemma insert_at node below f leaf :
  Forall (fun g => frame_bf g = 0) below -> Forall (on_path node) below -> on_path node f -> balanced (fill f (plug below Leaf)) ->
  balanced leaf -> ht leaf = 1 ->
  let t := plug ((fun f => set_bf f (cmp node (frame_ptr f))) <$> below) leaf in
  let new_bf := cmp node (frame_ptr f) in
  exists t', (if frame_bf f =? 0 then Ret (fill (set_bf f new_bf) t)
       else if frame_bf f + new_bf =? 0 then Ret (fill (set_bf f 0) t) else insert_rotate (fill f t) new_bf) = Ret t' /\
    balanced t' /\ inorder t' = inorder (fill f t) /\ ht t' = ht (fill f (plug below Leaf)) + (if frame_bf f =? 0 then 1 else 0).
Proof.
  intros H0 Hd Hf Hb Hleaf H1 t new_bf. assert (balanced (plug below Leaf)) as Hbel by (destruct f; cbn in Hb; tauto).
  destruct (grow_below node below leaf H0 Hd Hbel Hleaf H1) as (G1 & G2 & G3). fold t in G1, G2, G3. pose proof (ht_nonneg (plug below Leaf)) as Hnn.
  clearbody t. assert (new_bf = dir f) as -> by by apply on_path_dir.
  destruct (Z.eqb_spec (frame_bf f) 0) as [Hz|Hz]; [|destruct (Z.eqb_spec (frame_bf f + dir f) 0) as [Hs|Hs]].
  - eexists. split; [done|]. destruct f as [p b r|l p b]; cbn in *; subst b; destruct Hb as (? & ? & ? & ?); repeat split; try done; lia.
  - eexists. split; [done|]. destruct f as [p b r|l p b]; cbn in *; destruct Hb as (? & ? & ? & ?); repeat split; try done; lia.
  - assert (frame_bf f = dir f) as Hdf by (destruct f; cbn in *; lia).
    assert (below <> []) as Hne by (intros ->; destruct f as [p b r|l p b]; cbn in *; first [pose proof (ht_nonneg r)|pose proof (ht_nonneg l)]; lia).
    destruct (insert_rotate_spec f t (dir f) Hdf eq_refl G1) as (t' & E & Ht' & Hh & Hi); [|by apply G3|].
    + destruct f as [p b r|l p b]; cbn in *; destruct Hb as (? & ? & ? & ?); split; try done; lia.
    + exists t'. split; [done|]. split; [done|]. split; [done|]. rewrite Hh, G2. destruct f as [p b r|l p b]; cbn in *; lia.
Qed.

Lemma tree_insert_spec node tr l1 mid l2 : room tr -> tree_ok tr (l1 ++ mid ++ l2) -> cut node l1 mid l2 ->
  (mid = [] -> exists tr', tree_insert cmp node tr = Ret (true, tr') /\ tree_ok tr' (l1 ++ node :: l2) /\ unlink tr' = unlink tr /\
     (few (l1 ++ node :: l2) -> room tr') /\ (deep tr -> zlen (l1 ++ l2) < 2 ^ 62 -> room tr' /\ deep tr')) /\
  (mid <> [] -> exists tr', tree_insert cmp node tr = Ret (false, tr') /\ collided node tr tr' l1 mid l2).
Proof.
  intros Hroom [Ho Hb Hn] Hc. destruct (chk_traverse_same tr) as (C1 & C2 & C3 & C4 & _). destruct (chk_traverse_room tr Hroom) as (Hc1 & Hc2 & Hc3).
  unfold tree_insert. rewrite C1, C2, C3, C4. destruct (root tr) as [|l0 p0 b0 r0] eqn:Er.
  - cbn in Ho. symmetry in Ho. apply app_nil in Ho as [-> [-> ->]%app_nil]. split; [|done]. intros _. eexists. split; [done|]. split; [by split|]. split; [done|]. unfold room, deep. cbn. split; intros; lia.
  - cbv beta iota. rewrite <- Er in *. destruct (search_spec node (traverse_len (chk_traverse tr)) (root tr) [] [] l1 mid l2 Hc2 Hb Hc Ho) as (path & Hd & Hnone & Hsome). rewrite !app_nil_r in Hnone, Hsome. split.
    + intros ->. destruct (Hnone eq_refl) as (-> & Hp & <- & <-). cbn [rbind negb].
      destruct (last_unbal_spec path [] ) as (below & f & up & -> & -> & H0 & Hup); [intros ->; cbn in Hp; by rewrite Er in Hp|]. cbn [rev app].
      rewrite set_bfs_spec by done. cbn [rbind]. apply Forall_app in Hd as [Hdb [Hdf _]%Forall_cons].
      rewrite plug_app, plug_cons in Hp. rewrite <- Hp in Hb.
      destruct (insert_at node below f (Node Leaf node 0 Leaf) H0 Hdb Hdf (balanced_hole _ _ Hb)) as (t' & -> & Ht' & Hi & Hh); [by cbn|done|]. cbn [rbind].
      eexists. split; [done|]. cbn [root n_nodes max_depth unlink].
      assert (balanced (plug up t') /\ ht (plug up t') = ht (root tr) + (if frame_bf f =? 0 then 1 else 0)) as [Hbal Hht].
      { destruct (Z.eqb_spec (frame_bf f) 0) as [Hz|Hz].
        - destruct Hup as [?| ->]; [done|]. cbn in *. rewrite <- Hp. done.
        - rewrite Z.add_0_r in *. destruct (balanced_plug up _ t' Hb Hh Ht') as [? E]. split; [done|]. by rewrite E, Hp. }
      match goal with |- tree_ok ?x _ /\ _ => set (tr' := x) end. assert (tree_ok tr' (before (below ++ f :: up) ++ node :: after (below ++ f :: up))) as Hok.
      { split; [|done|]; cbn [root n_nodes tr'].
        * rewrite inorder_plug, Hi, before_app, after_app. destruct f as [p b r|l p b]; cbn; rewrite inorder_plug, before_set, after_set; app_norm.
        * rewrite Hn, !zlen_app, zlen_cons, zlen_nil. lia. }
      split; [done|]. split; [done|].
      destruct (grown_room tr tr' (zlen (below ++ f :: up)) (if frame_bf f =? 0 then 1 else 0) Hroom) as [Hfew Hdeep].
      { done. } { pose proof (ht_plug (below ++ f :: up) Leaf) as H. rewrite plug_app, plug_cons, Hp in H. pose proof (zlen_nonneg (below ++ f :: up)). cbn in H. lia. }
      { destruct (Z.eqb_spec (frame_bf f) 0) as [Hz|Hz]; [right|by left]. split; [done|]. destruct Hup as [?| ->]; [done|]. rewrite <- Hp. cbn [plug foldl].
        rewrite <- path_height; [by rewrite plug_app|apply Forall_app; by split; [|constructor]|by rewrite plug_app]. } { done. }
      { cbn [max_depth tr']. unfold zlen. rewrite length_fmap. destruct (Z.ltb_spec (max_depth tr) (Z.of_nat (length (below ++ f :: up)) - 1 + (if frame_bf f =? 0 then 1 else 0) + 1)); lia. }
      split; [intros H; apply Hfew, few_ht; [done|by rewrite (t_order _ _ Hok)]|]. intros Hd Hs. apply Hdeep; [done|]. pose proof (ht_size (root tr)). rewrite Ho in *. cbn [app] in *. lia.
    + intros Hne. destruct (Hsome Hne) as (l & p & b & r & m1 & m2 & -> & Et & Em & Eb & Ea). cbn [rbind negb].
      eexists. split; [done|]. repeat split; try done. exists path, l, p, b, r, m1, m2. done.
Qed.

(** ** Deletion *)
Lemma locate_spec node len t path l1 mid l2 : zlen path + ht t <= len -> balanced t -> cut node l1 mid l2 -> inorder t = l1 ++ mid ++ l2 ->
  (mid = [] -> locate cmp node len t path = Ret None) /\
  (mid = [node] -> exists path1 l b r, locate cmp node len t path = Ret (Some (path1 ++ path, (l, b, r))) /\ t = plug path1 (Node l node b r) /\
     before path1 ++ inorder l = l1 /\ inorder r ++ after path1 = l2).
Proof.
  revert path l1 mid l2. induction t as [|l IHl p b r IHr]; intros path l1 mid l2 Hl Hb Hc E.
  - symmetry in E. apply app_nil in E as [-> [-> ->]%app_nil]. done.
  - destruct Hb as (Hbf & Hb1 & Hbl & Hbr). cbn [inorder] in E. cbn [locate]. rewrite bf_ok_true by done. cbn [cassert rbind].
    cbn [ht] in Hl. pose proof (ht_nonneg l) as Hnl. pose proof (ht_nonneg r) as Hnr. rewrite in_vector_ok by lia.
    pose proof Hc as (H1 & H2 & H3). destruct (cut_node _ _ _ _ _ _ _ Hc E) as [(Hv & k & -> & Er)|[(Hv & m1 & m2 & -> & El & Er)|(Hv & k & -> & El)]]; rewrite Hv; cbn.
    + apply Forall_app in H1 as [H1l [_ H1k]%Forall_cons].
      destruct (IHr (FR l p b :: path) k mid l2 ltac:(rewrite zlen_cons; lia) Hbr (conj H1k (conj H2 H3)) Er) as [Hnone Hsome]. split; [done|]. intros Hm.
      destruct (Hsome Hm) as (path1 & l' & b' & r' & Es & Et & <- & <-). exists (path1 ++ [FR l p b]), l', b', r'. rewrite <- app_assoc. cbn [app].
      split; [exact Es|]. rewrite before_app, after_app, plug_app, <- Et. by app_norm.
    + split; [by destruct m1|]. intros Hm. destruct m1 as [|q m1]; [|destruct m1; done]. injection Hm as -> ->. rewrite Z.eqb_refl. exists [], l, b, r.
      cbn. rewrite app_nil_r in *. by rewrite El, Er.
    + apply Forall_app in H3 as [H3k [_ H3r]%Forall_cons].
      destruct (IHl (FL p b r :: path) l1 mid k ltac:(rewrite zlen_cons; lia) Hbl (conj H1 (conj H2 H3k)) El) as [Hnone Hsome]. split; [done|]. intros Hm.
      destruct (Hsome Hm) as (path1 & l' & b' & r' & Es & Et & <- & <-). exists (path1 ++ [FL p b r]), l', b', r'. rewrite <- app_assoc. cbn [app].
      split; [exact Es|]. rewrite before_app, after_app, plug_app, <- Et. by app_norm.
Qed.

Lemma leftmost_spec len l p b r path : zlen path + ht (Node l p b r) <= len -> balanced (Node l p b r) ->
  exists down sel b' t, leftmost len l p b r path = Ret (down ++ path, sel, t) /\ Node l p b r = plug down (Node Leaf sel b' t) /\ before down = [].
Proof.
  revert p b r path. induction l as [|ll IH lp lb lr _]; intros p b r path Hl Hb; pose proof Hb as (_ & Hb1 & Hbl & _); cbn [leftmost]; rewrite bf_ok_true by done; cbn [cassert rbind];
    cbn [ht] in Hl; pose proof (ht_nonneg r); try (pose proof (ht_nonneg ll); pose proof (ht_nonneg lr)); rewrite in_vector_ok by lia; cbn [rbind].
  - by exists [], p, b, r.
  - destruct (IH lp lb lr (FL p b r :: path) ltac:(rewrite zlen_cons; cbn [ht]; lia) Hbl) as (down & sel & b' & t & E & Et & Hd). exists (down ++ [FL p b r]), sel, b', t.
    rewrite <- app_assoc, plug_app, before_app, <- Et, Hd. done.
Qed.

Lemma rightmost_spec len l p b r path : zlen path + ht (Node l p b r) <= len -> balanced (Node l p b r) ->
  exists down sel b' t, rightmost len l p b r path = Ret (down ++ path, sel, t) /\ Node l p b r = plug down (Node t sel b' Leaf) /\ after down = [].
Proof.
  revert l p b path. induction r as [|rl _ rp rb rr IH]; intros l p b path Hl Hb; pose proof Hb as (_ & Hb1 & _ & Hbr); cbn [rightmost]; rewrite bf_ok_true by done; cbn [cassert rbind];
    cbn [ht] in Hl; pose proof (ht_nonneg l); try (pose proof (ht_nonneg rl); pose proof (ht_nonneg rr)); rewrite in_vector_ok by lia; cbn [rbind].
  - by exists [], p, b, l.
  - destruct (IH rl rp rb (FR l p b :: path) ltac:(rewrite zlen_cons; cbn [ht]; lia) Hbr) as (down & sel & b' & t & E & Et & Hd). exists (down ++ [FR l p b]), sel, b', t.
    rewrite <- app_assoc, plug_app, after_app, <- Et, Hd. done.
Qed.

(** What is left at the end of a path: one less deep than the path was made for. *)
Definition shortened (path : list frame) (t : tree) (h : Z) : Prop :=
  balanced t /\ exists u, ht u = ht t + 1 /\ balanced (plug path u) /\ ht (plug path u) = h.

Lemma take_out_spec len path l node b r : zlen path + ht (Node l node b r) <= len -> balanced (plug path (Node l node b r)) ->
  exists path2 t, take_out len path l b r = Ret (path2, t) /\ shortened path2 t (ht (plug path (Node l node b r))) /\
    before path2 ++ inorder t ++ after path2 = before path ++ inorder l ++ inorder r ++ after path.
Proof.
  intros Hlen Hb. cbn [ht] in Hlen. pose proof (balanced_hole _ _ Hb) as Hn. pose proof Hn as (Hbf & Hb1 & Hbl & Hbr). pose proof (ht_nonneg l). pose proof (ht_nonneg r).
  destruct l as [|ll lp lb lr]; [|destruct r as [|rl rp rb rr]].
  - exists path, r. split; [done|]. split; [|done]. split; [done|]. exists (Node Leaf node b r). cbn. split; [lia|done].
  - exists path, (Node ll lp lb lr). split; [done|]. split; [|done]. split; [done|]. exists (Node (Node ll lp lb lr) node b Leaf). cbn in *. split; [lia|done].
  - set (l := Node ll lp lb lr) in *. set (r := Node rl rp rb rr) in *. unfold take_out, l, r. fold l r.
    assert (forall sel, balanced (plug path (Node l sel b r)) /\ ht (plug path (Node l sel b r)) = ht (plug path (Node l node b r))) as Hsel by (intros sel; by apply (balanced_plug path (Node l node b r))).
    destruct (_ =? 1).
    + destruct (leftmost_spec (len - (zlen path + 1)) rl rp rb rr [] ltac:(fold r; rewrite zlen_nil; lia) Hbr) as (down & sel & b' & t & -> & Et & Hd). rewrite app_nil_r. cbn [rbind].
      exists (down ++ FR l sel b :: path), t. split; [done|]. fold r in Et. rewrite Et in Hbr. pose proof (balanced_hole _ _ Hbr) as (? & _ & _ & Ht). split; [split; [done|]|].
      * exists (Node Leaf sel b' t). rewrite plug_app, plug_cons. cbn [fill]. rewrite <- Et. pose proof (ht_nonneg t). split; [cbn; lia|]. apply Hsel.
      * rewrite before_app, after_app, Hd, Et, inorder_plug, Hd. by app_norm.
    + destruct (rightmost_spec (len - (zlen path + 1)) ll lp lb lr [] ltac:(fold l; rewrite zlen_nil; lia) Hbl) as (down & sel & b' & t & -> & Et & Hd). rewrite app_nil_r. cbn [rbind].
      exists (down ++ FL sel b r :: path), t. split; [done|]. fold l in Et. rewrite Et in Hbl. pose proof (balanced_hole _ _ Hbl) as (? & _ & Ht & _). split; [split; [done|]|].
      * exists (Node t sel b' Leaf). rewrite plug_app, plug_cons. cbn [fill]. rewrite <- Et. pose proof (ht_nonneg t). split; [cbn; lia|]. apply Hsel.
      * rewrite before_app, after_app, Hd, Et, inorder_plug, Hd. by app_norm.
Qed.

(** The sibling of the shortened side is two deeper. *)
Lemma delete_rotate_spec f t : balanced t -> frame_bf f = - dir f ->
  match f with FL _ _ r => ht r = ht t + 2 /\ balanced r | FR l _ _ => ht l = ht t + 2 /\ balanced l end ->
  exists t' shorter, delete_rotate (fill f t) (- dir f) = Ret (t', shorter) /\ balanced t' /\ inorder t' = inorder (fill f t) /\
    ht t' = ht t + (if shorter : bool then 2 else 3).
Proof.
  intros Hb Hf Hh. pose proof (ht_nonneg t). destruct f as [p b r|l p b]; cbn in Hf; subst b; destruct Hh as [Hh Hbs]; cbn [dir Z.opp]; unfold delete_rotate; cbn [fill Z.eqb].
  - destruct r as [|sl sp sb sr]; [cbn in Hh; lia|]. destruct Hbs as (Hsb & Hs1 & Hsl & Hsr). cbn in Hh. pose proof (ht_nonneg sl). pose proof (ht_nonneg sr).
    destruct (Z.eqb_spec sb 1) as [->|Hn1]; [|destruct (Z.eqb_spec sb 0) as [->|Hn0]; [|assert (sb = -1) as -> by lia]]; cbn [rbind].
    + eexists _, true. split; [done|]. cbn. split; [repeat split; try done; lia|]. split; [by app_norm|lia].
    + destruct sl as [|nl np nb nr]; [cbn in *; lia|]. destruct Hsl as (Hnb & Hn2 & Hnl & Hnr). cbn in Hsb, Hh. pose proof (ht_nonneg nl). pose proof (ht_nonneg nr). cbn [rbind].
      destruct (Z.eqb_spec nb (-1)) as [->|Hm1]; [|destruct (Z.eqb_spec nb 0) as [->|]; [|assert (nb = 1) as -> by lia]]; cbn;
        (eexists _, false; split; [done|]; cbn; split; [repeat split; try done; lia|]; split; [by app_norm|lia]).
    + destruct sl as [|nl np nb nr]; [cbn in *; lia|]. destruct Hsl as (Hnb & Hn2 & Hnl & Hnr). cbn in Hsb, Hh. pose proof (ht_nonneg nl). pose proof (ht_nonneg nr). cbn [Z.eqb].
      destruct (Z.eqb_spec nb 0) as [->|]; [|destruct (Z.eqb_spec nb 1) as [->|]; [|assert (nb = -1) as -> by lia]]; cbn;
        (eexists _, true; split; [done|]; cbn; split; [repeat split; try done; lia|]; split; [by app_norm|lia]).
  - destruct l as [|sl sp sb sr]; [cbn in Hh; lia|]. destruct Hbs as (Hsb & Hs1 & Hsl & Hsr). cbn in Hh. pose proof (ht_nonneg sl). pose proof (ht_nonneg sr).
    destruct (Z.eqb_spec sb (-1)) as [->|Hn1]; [|destruct (Z.eqb_spec sb 0) as [->|Hn0]; [|assert (sb = 1) as -> by lia]]; cbn [rbind].
    + eexists _, true. split; [done|]. cbn. split; [repeat split; try done; lia|]. split; [by app_norm|lia].
    + destruct sr as [|nl np nb nr]; [cbn in *; lia|]. destruct Hsr as (Hnb & Hn2 & Hnl & Hnr). cbn in Hsb, Hh. pose proof (ht_nonneg nl). pose proof (ht_nonneg nr). cbn [rbind].
      destruct (Z.eqb_spec nb 1) as [->|Hm1]; [|destruct (Z.eqb_spec nb 0) as [->|]; [|assert (nb = -1) as -> by lia]]; cbn;
        (eexists _, false; split; [done|]; cbn; split; [repeat split; try done; lia|]; split; [by app_norm|lia]).
    + destruct sr as [|nl np nb nr]; [cbn in *; lia|]. destruct Hsr as (Hnb & Hn2 & Hnl & Hnr). cbn in Hsb, Hh. pose proof (ht_nonneg nl). pose proof (ht_nonneg nr). cbn [Z.eqb].
      destruct (Z.eqb_spec nb 0) as [->|]; [|destruct (Z.eqb_spec nb 1) as [->|]; [|assert (nb = -1) as -> by lia]]; cbn;
        (eexists _, true; split; [done|]; cbn; split; [repeat split; try done; lia|]; split; [by app_norm|lia]).
Qed.

Lemma rebalance_spec path t h : shortened path t h ->
  exists t', rebalance path t = Ret t' /\ balanced t' /\ h - 1 <= ht t' <= h /\ inorder t' = before path ++ inorder t ++ after path.
Proof.
  revert t. induction path as [|f up IH]; intros t (Hb & u & Hu & Hbu & Hhu).
  - exists t. cbn in *. rewrite app_nil_r. repeat split; try done; lia.
  - rewrite plug_cons in Hbu, Hhu. cbn [rebalance].
    assert (match f with FL _ _ _ => 1 | FR _ _ _ => -1 end = - dir f) as -> by by destruct f.
    pose proof (balanced_hole _ _ Hbu) as Hbf. destruct (Z.eqb_spec (frame_bf f) 0) as [Hz|Hz]; [|destruct (Z.eqb_spec (frame_bf f + - dir f) 0) as [Hs|Hs]].
    + assert (balanced (fill (set_bf f (- dir f)) t) /\ ht (fill (set_bf f (- dir f)) t) = ht (fill f u)) as [Hb' Hh'].
      { destruct f as [p b r|l p b]; cbn in *; destruct Hbf as (? & ? & ? & ?); split; [repeat split; try done; lia|lia|repeat split; try done; lia|lia]. }
      destruct (balanced_plug up _ _ Hbu Hh' Hb') as [H1 H2]. eexists. split; [done|]. split; [done|]. split; [lia|].
      rewrite inorder_plug. destruct f; by app_norm.
    + destruct (IH (fill (set_bf f 0) t)) as (t' & E & Hb' & Hh' & Hi).
      { assert (balanced (fill (set_bf f 0) t) /\ ht (fill f u) = ht (fill (set_bf f 0) t) + 1) as [H1 H2].
        { destruct f as [p b r|l p b]; cbn in *; destruct Hbf as (? & ? & ? & ?); split; [repeat split; try done; lia|lia|repeat split; try done; lia|lia]. }
        split; [done|]. by exists (fill f u). }
      exists t'. split; [done|]. split; [done|]. split; [done|]. rewrite Hi. destruct f; by app_norm.
    + assert (frame_bf f = - dir f) as Hdf by (destruct f; cbn in *; lia).
      destruct (delete_rotate_spec f t Hb Hdf) as (t1 & shorter & -> & Hb1 & Hi1 & Hh1).
      { destruct f as [p b r|l p b]; cbn in *; destruct Hbf as (? & ? & ? & ?); split; try done; lia. }
      assert (ht (fill f u) = ht t + 3) as Hfu by (destruct f as [p b r|l p b]; cbn in *; destruct Hbf as (? & ? & ? & ?); lia).
      cbn [rbind]. destruct shorter.
      * destruct (IH t1) as (t' & E & Hb' & Hh' & Hi); [split; [done|]; exists (fill f u); split; [lia|done]|].
        exists t'. split; [done|]. split; [done|]. split; [done|]. rewrite Hi, Hi1. destruct f; by app_norm.
      * destruct (balanced_plug up _ t1 Hbu) as [H1 H2]; [lia|done|]. eexists. split; [done|]. split; [done|]. split; [lia|].
        rewrite inorder_plug, Hi1. destruct f; by app_norm.
Qed.

Lemma tree_delete_spec node tr l1 l2 : room tr -> tree_ok tr (l1 ++ node :: l2) -> cut node l1 [node] l2 ->
  exists tr', tree_delete cmp node tr = Ret (true, tr') /\ tree_ok tr' (l1 ++ l2) /\ unlink tr' = unlink tr /\ (few (l1 ++ l2) -> room tr').
Proof.
  intros Hroom [Ho Hb Hn] Hc. destruct (chk_traverse_same tr) as (C1 & C2 & C3 & C4 & _). destruct (chk_traverse_room tr Hroom) as (Hc1 & Hc2 & _).
  unfold tree_delete. rewrite C1, C2, C3, C4. destruct (root tr) as [|l0 p0 b0 r0] eqn:Er; [cbn in Ho; by destruct l1|]. cbv beta iota. rewrite <- Er in *.
  destruct (locate_spec node (traverse_len (chk_traverse tr)) (root tr) [] l1 [node] l2 Hc2 Hb Hc Ho) as [_ Hs]. destruct (Hs eq_refl) as (path & l & b & r & -> & Et & <- & <-).
  rewrite app_nil_r. cbn [rbind]. rewrite Et in Hb, Hc2. pose proof (ht_plug path (Node l node b r)) as Hp.
  destruct (take_out_spec (traverse_len (chk_traverse tr)) path l node b r ltac:(lia) Hb) as (path2 & t & -> & Hsh & Hi). cbn [rbind fst snd].
  destruct (rebalance_spec path2 t _ Hsh) as (t' & -> & Hb' & _ & Hi'). cbn [rbind]. eexists. split; [done|].
  match goal with |- tree_ok ?x _ /\ _ => set (tr' := x) end. assert (tree_ok tr' ((before path ++ inorder l) ++ inorder r ++ after path)) as Hok.
  { split; cbn [root n_nodes tr']; [rewrite Hi', Hi; by app_norm|done|rewrite Hn, !zlen_app, zlen_cons, !zlen_app; lia]. }
  split; [done|]. split; [done|]. intros Hf. rewrite <- (t_order _ _ Hok) in Hf. apply few_ht in Hf; [|done]. split; [cbn [traverse_len tr']; destruct (_ =? _); [by left|by right]|].
  split; [|by left]. cbn [max_depth tr']. destruct Hroom as (_ & H0 & _). unfold uwrap. pose proof (Z.mod_pos_bound (max_depth tr - 1) (2 ^ 64) ltac:(lia)). destruct (match t' with Leaf => _ | _ => _ end); lia.
Qed.

Lemma tree_lookup_spec node t l1 mid l2 : cut node l1 mid l2 -> inorder t = l1 ++ mid ++ l2 ->
  exists p, tree_lookup cmp node t = Ret p /\ (mid = [] -> p = 0) /\ (mid <> [] -> p ∈ mid).
Proof.
  revert l1 mid l2. induction t as [|l IHl p b r IHr]; intros l1 mid l2 Hc E.
  - symmetry in E. apply app_nil in E as [-> [-> ->]%app_nil]. by exists 0.
  - cbn [inorder] in E. cbn [tree_lookup]. pose proof Hc as (H1 & H2 & H3).
    destruct (cut_node _ _ _ _ _ _ _ Hc E) as [(Hv & k & -> & Er)|[(Hv & m1 & m2 & -> & El & Er)|(Hv & k & -> & El)]]; rewrite Hv; cbn.
    + apply Forall_app in H1 as [_ [_ H1k]%Forall_cons]. eapply (IHr k); [by split|done].
    + exists p. split; [done|]. split; [by destruct m1|]. set_solver.
    + apply Forall_app in H3 as [H3k _]. eapply (IHl l1 mid k); [by split|done].
Qed.

End Cmp.
End RvmAvl.
