(* ===== verification/RvmIter.v ===== *)
(** * Balanced trees of the recoverable memory: iteration

    Going through a tree with tree_successor gives its nodes in order, from the
    first one or from the first that conflicts with a node that could not be
    inserted; with [unlink] the tree is taken apart on the way.  tree_predecessor
    does the same in the other direction, which is proved by mirroring. *)
From Stdlib Require Import ZArith Lia.
From stdpp Require Import base list numbers gmap.
From S2P Require Import Prelude.
From S2P Require Import RvmTree.
From S2P Require Import RvmAvl.
Import RvmTree RvmAvl.
Open Scope Z_scope.

Module RvmIter.

(** Addresses are not NULL, and those of different nodes differ. *)
Definition addrs_ok (xs : list Z) : Prop := NoDup xs /\ 0 ∉ xs.

Lemma addrs_ok_app xs ys : addrs_ok (xs ++ ys) -> addrs_ok xs /\ addrs_ok ys.
Proof. intros [H1 H2]. apply NoDup_app in H1 as (? & ? & ?). split; split; try done; set_solver. Qed.

Lemma sub_in t a u : sub t a = Some u -> a ∈ inorder t.
Proof.
  induction t as [|l IHl p b r IHr]; cbn; [done|]. destruct (Z.eqb_spec p a) as [->|]; [set_solver|].
  destruct (sub l a), (sub r a); try done; intros [= ->]; set_solver.
Qed.

Lemma sub_notin t a : a ∉ inorder t -> sub t a = None.
Proof. intros H. destruct (sub t a) eqn:E; [|done]. by apply sub_in in E. Qed.

(** The subtree at the end of a path is found by its address. *)
Lemma sub_plug path l a b r : addrs_ok (inorder (plug path (Node l a b r))) -> sub (plug path (Node l a b r)) a = Some (Node l a b r).
Proof.
  intros [Hnd _]. revert Hnd. induction path as [|f fs IH] using rev_ind; intros Hnd.
  - cbn. by rewrite Z.eqb_refl.
  - rewrite plug_app in *. cbn [plug foldl] in *. assert (a ∈ inorder (plug fs (Node l a b r))) as Ha by (rewrite inorder_plug; cbn; set_solver).
    set (u := plug fs (Node l a b r)) in *.
    destruct f as [p b' r'|l' p b']; cbn in *; apply NoDup_app in Hnd as (H1 & H2 & [H3 H4]%NoDup_cons).
    + destruct (Z.eqb_spec p a) as [->|]; [exfalso; apply (H2 a Ha); set_solver|].
      rewrite (IH H1), sub_notin; [done|]. intros Hr. apply (H2 a Ha). set_solver.
    + destruct (Z.eqb_spec p a) as [->|]; [done|].
      rewrite (IH H4), sub_notin; [done|]. intros Hr. apply (H2 a Hr). set_solver.
Qed.

Lemma deref_plug t path l a b r : t = plug path (Node l a b r) -> addrs_ok (inorder t) -> deref t a = Ret (l, b, r).
Proof. intros -> H. unfold deref. by rewrite sub_plug. Qed.

Lemma set_lss_out a u t : a ∉ inorder t -> set_lss a u t = t.
Proof.
  induction t as [|l IHl p b r IHr]; cbn; [done|]. intros H. destruct (Z.eqb_spec p a) as [->|]; [set_solver|].
  rewrite IHl, IHr by set_solver. done.
Qed.

Lemma set_lss_plug path u t a b r : addrs_ok (inorder (plug path (Node t a b r))) ->
  set_lss a u (plug path (Node t a b r)) = plug path (Node u a b r).
Proof.
  intros [Hnd _]. revert Hnd. induction path as [|f fs IH] using rev_ind; intros Hnd.
  - cbn. by rewrite Z.eqb_refl.
  - rewrite !plug_app in *. cbn [plug foldl] in *. assert (a ∈ inorder (plug fs (Node t a b r))) as Ha by (rewrite inorder_plug; cbn; set_solver).
    set (v := plug fs (Node t a b r)) in *.
    destruct f as [p b' r'|l' p b']; cbn in *; apply NoDup_app in Hnd as (H1 & H2 & [H3 H4]%NoDup_cons).
    + destruct (Z.eqb_spec p a) as [->|]; [exfalso; apply (H2 a Ha); set_solver|].
      rewrite (IH H1), set_lss_out; [done|]. intros Hr. apply (H2 a Ha). set_solver.
    + destruct (Z.eqb_spec p a) as [->|]; [done|].
      rewrite (IH H4), set_lss_out; [done|]. intros Hr. apply (H2 a Hr). set_solver.
Qed.

(** ** Going through an unchanged tree *)

(** What the entry at level [k] of the vector still stands for. *)
Definition pending (t : tree) (k : Z) (e : Z * traverse_state) (xs : list Z) : Prop :=
  match e with
  | (a, TSelf) => exists path u, t = plug path u /\ k <= zlen path /\ addr u = a /\ xs = inorder u
  | (a, TLss) => exists path l b r, t = plug path (Node l a b r) /\ k <= zlen path /\ xs = a :: inorder r
  | (a, TGtr) => (a = 0 /\ xs = []) \/ exists path l b r, t = plug path (Node l a b r) /\ k <= zlen path /\ xs = a :: inorder r
  | (a, TInit) => exists path l b r, t = plug path (Node l a b r) /\ k <= zlen path /\ xs = inorder (Node l a b r)
  end.
Definition below (e : Z * traverse_state) : Prop := e.2 = TLss \/ e.2 = TGtr.

Inductive levels (t : tree) : list (Z * traverse_state) -> list (list Z) -> Prop :=
  | levels_nil : levels t [] []
  | levels_cons e up xs xss : pending t (zlen up) e xs -> below e -> levels t up xss -> levels t (e :: up) (xs :: xss).

(** The vector stands for the nodes [total], which are still to be visited. *)
Definition at_node (t : tree) (trav : list (Z * traverse_state)) (total : list Z) : Prop :=
  match trav with
  | [] => False
  | e :: up => exists xs xss, pending t (zlen up) e xs /\ levels t up xss /\ (e.2 = TInit -> up = []) /\ total = xs ++ concat xss
  end.

(** The rounds that tree_successor still needs. *)
Definition rounds (trav : list (Z * traverse_state)) : nat :=
  match trav with
  | (a, TGtr) :: up => if a =? 0 then S (S (length up)) else 1%nat
  | (a, TSelf) :: up => if a =? 0 then S (S (S (length up))) else 2%nat
  | (a, TInit) :: _ => 2%nat
  | _ => 1%nat
  end.

Lemma push_lss_spec t len l path trav xss : balanced t -> ht t <= len -> t = plug path l -> zlen trav <= zlen path -> l <> Leaf -> levels t trav xss ->
  exists a trav', push_lss len l trav = Ret ((a, TLss) :: trav') /\ at_node t ((a, TLss) :: trav') (inorder l ++ concat xss).
Proof.
  intros Hb Hlen. revert path trav xss. induction l as [|ll IH p b lr _]; intros path trav xss Et Hk Hne Hlv; [done|]. clear Hne.
  assert (balanced (Node ll p b lr)) as (_ & Hb1 & _) by (rewrite Et in Hb; by apply balanced_hole in Hb). cbn [push_lss]. rewrite bf_ok_true by done. cbn [cassert rbind].
  pose proof (ht_plug path (Node ll p b lr)) as Hp. rewrite <- Et in Hp. cbn [ht] in Hp. pose proof (ht_nonneg ll). pose proof (ht_nonneg lr). rewrite SET_TRAVERSE_ok by lia. cbn [rbind].
  assert (pending t (zlen trav) (p, TLss) (p :: inorder lr)) as Hpp by (by exists path, ll, b, lr). destruct ll as [|l1 p1 b1 r1].
  - exists p, trav. split; [done|]. exists (p :: inorder lr), xss. by repeat split.
  - destruct (IH (FL p b lr :: path) ((p, TLss) :: trav) ((p :: inorder lr) :: xss)) as (a & trav' & E & Ha); [done|rewrite !zlen_cons; lia|done|constructor; [done|by left|done]|].
    exists a, trav'. split; [done|]. destruct Ha as (xs & xss' & H1 & H2 & H3 & H4). exists xs, xss'. repeat split; try done. rewrite <- H4. by app_norm.
Qed.

Section Keep.
Context (tr : tree_root) (Hu : unlink tr = false) (Hb : balanced (root tr)) (Hlen : ht (root tr) <= traverse_len tr) (Ha : addrs_ok (inorder (root tr))).
Abbreviation t := (root tr).
Abbreviation at_ := (with_traverse tr).

Lemma sub_balanced path u : t = plug path u -> balanced u.
Proof using Hb. intros E. rewrite E in Hb. by eapply balanced_hole. Qed.

Lemma addr_not_null path l a b r : t = plug path (Node l a b r) -> a <> 0.
Proof using Hu Hb Ha Hlen. intros E ->. destruct Ha as [_ H]. apply H. rewrite E, inorder_plug. cbn. set_solver. Qed.

Definition step_result (trav : list (Z * traverse_state)) (total : list Z) (r : tree_root + (tree_root * Z)) : Prop :=
  match r with
  | inr (tr', x) => exists trav', tr' = at_ trav' /\ match total with [] => x = 0 /\ trav' = [] | y :: rest => x = y /\ at_node t trav' rest end
  | inl tr' => exists trav', tr' = at_ trav' /\ at_node t trav' total /\ (rounds trav' < rounds trav)%nat
  end.

Lemma visit_spec path l a b r st up xss trav : t = plug path (Node l a b r) -> zlen up <= zlen path -> levels t up xss ->
  (st = TSelf \/ (st = TGtr /\ l = Leaf)) ->
  exists e, hand_out (at_ trav) a l r st up = Ret e /\ step_result trav (a :: inorder r ++ concat xss) (inr e).
Proof using Hu Hb.
  intros Et Hk Hlv Hst. unfold hand_out. cbn [with_traverse unlink]. rewrite Hu. eexists. split; [done|]. exists ((addr r, st) :: up). split; [done|]. split; [done|].
  exists (inorder r), xss. split; [|split; [done|split; [|done]]].
  - destruct Hst as [->|[-> ->]]; [exists (FR l a b :: path), r; rewrite zlen_cons; repeat split; lia || done|]. destruct r as [|rl rp rb rr]; [by left|right].
    destruct (sub_balanced _ _ Et) as (Hbf & Hb1 & _ & Hr & _ & Hrl & Hrr). cbn [ht] in Hbf. pose proof (ht_nonneg rl). pose proof (ht_nonneg rr).
    assert (rl = Leaf) as -> by (destruct rl as [|x1 x2 x3 x4]; [done|]; cbn in *; pose proof (ht_nonneg x1); pose proof (ht_nonneg x4); lia).
    exists (FR Leaf a b :: path), Leaf, rb, rr. rewrite plug_cons, zlen_cons. repeat split; lia || done.
  - cbn. by destruct Hst as [->|[-> _]].
Qed.

Lemma successor_step_spec trav total : at_node t trav total -> exists r, successor_step (at_ trav) = Ret r /\ step_result trav total r.
Proof using Hu Hb Ha Hlen.
  destruct trav as [|[a st] up]; [done|]. intros (xs & xss & Hp & Hlv & Hinit & ->). unfold successor_step. cbn [with_traverse traverse root traverse_len].
  assert (forall path l b r, t = plug path (Node l a b r) -> deref t a = Ret (l, b, r) /\ bf_ok b = true /\ a =? 0 = false) as Hd.
  { intros path l b r E. split; [by eapply deref_plug|]. split; [apply bf_ok_true; by destruct (sub_balanced _ _ E) as (_ & ? & _)|]. apply Z.eqb_neq. by eapply addr_not_null. }
  assert (forall path l b r, t = plug path (Node l a b r) -> zlen up <= zlen path -> xs = a :: inorder r ->
    exists z, (let* n := deref t a in let '(l, b, r) := n in let* _ := cassert (bf_ok b) in let* e := hand_out (at_ ((a, st) :: up)) a l r TSelf up in Ret (inr e)) = Ret z /\ step_result ((a, st) :: up) (xs ++ concat xss) z) as Hvisit.
  { intros path l b r E Hk ->. destruct (Hd _ _ _ _ E) as (-> & Hbf & _). cbn [rbind]. rewrite Hbf. cbn [cassert rbind].
    destruct (visit_spec path l a b r TSelf up xss ((a, st) :: up) E Hk Hlv) as (e & -> & Hr); [by left|]. cbn [rbind]. eauto. }
  destruct st; cbn [pending] in Hp.
  - destruct Hp as (path & l & b & r & E & Hk & Hxs). by eapply Hvisit.
  - destruct Hp as (path & [|l p b r] & E & Hk & Hadr & Hxs); cbn in Hadr; subst a xs.
    + cbn [Z.eqb]. eexists. split; [done|]. exists ((0, TGtr) :: up). split; [done|]. split; [|cbn; lia]. exists [], xss. repeat split; try done. by left.
    + destruct (Hd _ _ _ _ E) as (-> & Hbf & Hz). rewrite Hz. cbn [rbind]. rewrite Hbf. cbn [cassert rbind]. destruct l as [|l1 p1 b1 r1].
      * destruct (visit_spec path Leaf p b r TGtr up xss ((p, TSelf) :: up) E Hk Hlv) as (e & -> & Hr); [by right|]. cbn [rbind]. eauto.
      * destruct (push_lss_spec t (traverse_len tr) (Node l1 p1 b1 r1) (FL p b r :: path) ((p, TGtr) :: up) ((p :: inorder r) :: xss)) as (a' & trav' & -> & Hat).
        { done. } { done. } { by rewrite plug_cons. } { rewrite !zlen_cons. lia. } { done. } { constructor; [right; by exists path, (Node l1 p1 b1 r1), b, r|by right|done]. }
        cbn [rbind]. eexists. split; [done|]. exists ((a', TLss) :: trav'). split; [done|]. split; [|cbn; rewrite Hz; lia].
        cbn [inorder]. rewrite <- app_assoc. exact Hat.
  - destruct Hp as [[-> ->]|(path & l & b & r & E & Hk & Hxs)].
    + cbn [Z.eqb]. inversion Hlv as [|[a' st'] up' xs' xss' Hp' Hb0 Hlv']; subst.
      * eexists. split; [done|]. by exists [].
      * eexists. split; [done|]. exists ((a', st') :: up'). split; [done|]. split; [exists xs', xss'; repeat split; try done; destruct Hb0 as [Hb0|Hb0]; cbn in Hb0; by rewrite Hb0|].
        destruct Hb0 as [Hb0|Hb0]; cbn in Hb0; subst st'; cbn; [lia|]. destruct (a' =? 0); cbn; lia.
    + destruct (Hd _ _ _ _ E) as (_ & _ & ->). by eapply Hvisit.
  - rewrite (Hinit eq_refl) in *. inversion Hlv; subst xss. destruct Hp as (path & l & b & r & E & Hk & ->). destruct (Hd _ _ _ _ E) as (-> & Hbf & Hz). cbn [rbind]. rewrite Hbf. cbn [andb cassert rbind].
    assert (pending t (zlen []) (a, TLss) (a :: inorder r)) as Hpa by (by exists path, l, b, r). destruct l as [|l1 p1 b1 r1].
    + cbn [push_lss rbind]. eexists. split; [done|]. exists [(a, TLss)]. split; [done|]. split; [|cbn; lia]. exists (a :: inorder r), []. by repeat split.
    + destruct (push_lss_spec t (traverse_len tr) (Node l1 p1 b1 r1) (FL a b r :: path) [(a, TLss)] [a :: inorder r]) as (a' & trav' & -> & Hat);
        [done|done|by rewrite plug_cons|rewrite !zlen_cons; lia|done|by repeat constructor|].
      cbn [rbind]. eexists. split; [done|]. exists ((a', TLss) :: trav'). split; [done|]. split; [|cbn; lia]. cbn [inorder]. rewrite <- app_assoc. exact Hat.
Qed.

Lemma tree_successor_spec trav total : at_node t trav total -> exists trav' x, tree_successor (at_ trav) = Ret (at_ trav', x) /\
  match total with [] => x = 0 | y :: rest => x = y /\ at_node t trav' rest end.
Proof using Hu Hb Ha Hlen.
  intros H. unfold tree_successor. cbn [with_traverse traverse].
  destruct (while_rule (fun m tr1 => exists trav1, tr1 = at_ trav1 /\ at_node t trav1 total /\ m = rounds trav1)
    (fun r => exists trav', r.1 = at_ trav' /\ match total with [] => r.2 = 0 | y :: rest => r.2 = y /\ at_node t trav' rest end)
    successor_step (4 + length trav) (rounds trav) (at_ trav)) as ([tr' x] & E & trav' & Etr & Hx).
  - by exists trav.
  - destruct trav as [|[a st] up]; [done|]. destruct st; cbn; try destruct (a =? 0); cbn; lia.
  - intros m tr1 (trav1 & -> & Hat & ->). destruct (successor_step_spec trav1 total Hat) as ([tr2|[tr2 x]] & E & Hr).
    + right. destruct Hr as (trav2 & -> & Hat2 & Hlt). eexists _, _. split; [exact E|]. split; [exact Hlt|]. by exists trav2.
    + left. destruct Hr as (trav2 & -> & Hx). eexists. split; [exact E|]. exists trav2. split; [done|]. destruct total; tauto.
  - exists trav', x. cbn in Etr. subst tr'. done.
Qed.

End Keep.

(** ** Taking a tree apart *)

(** A level above the current one: its node waits for its lesser nodes to go. *)
Definition waits (e : Z * traverse_state) (f : frame) : Prop :=
  below e /\ exists b r, f = FL e.1 b r /\ -1 <= b <= 1 /\ balanced r.

(** The subtree at the current level. *)
Definition current (e : Z * traverse_state) (u : tree) : Prop :=
  match e with
  | (a, TSelf) => addr u = a /\ balanced u
  | (a, TLss) => exists b r, u = Node Leaf a b r /\ -1 <= b <= 1 /\ balanced r
  | (a, TGtr) => (a = 0 /\ u = Leaf) \/ exists b r, u = Node Leaf a b r /\ -1 <= b <= 1 /\ balanced r
  | (a, TInit) => exists l b r, u = Node l a b r /\ balanced u
  end.

Definition dismantling (t : tree) (trav : list (Z * traverse_state)) : Prop :=
  match trav with
  | [] => False
  | e :: up => exists frames u, t = plug frames u /\ Forall2 waits up frames /\ current e u /\ (e.2 = TInit -> up = [])
  end.

Lemma waits_below up frames : Forall2 waits up frames -> Forall below up.
Proof. induction 1 as [|e f up frames [H _] _ IH]; by constructor. Qed.

Lemma waits_before up frames : Forall2 waits up frames -> before frames = [].
Proof. induction 1 as [|e f up frames (_ & b & r & -> & _) _ IH]; done. Qed.

(** A path made one shorter at its end gets no deeper. *)
Lemma ht_plug_mono path t u : ht u <= ht t -> ht (plug path u) <= ht (plug path t).
Proof. revert t u. induction path as [|f up IH]; intros t u H; [done|]. rewrite !plug_cons. apply IH. destruct f; cbn [fill ht]; lia. Qed.

Lemma push_lss_dismantle len l b a r st up frames : zlen up + 1 + ht l <= len -> below (a, st) -> balanced (Node l a b r) -> Forall2 waits up frames -> l <> Leaf ->
  exists a' trav', push_lss len l ((a, st) :: up) = Ret ((a', TLss) :: trav') /\ dismantling (plug frames (Node l a b r)) ((a', TLss) :: trav').
Proof.
  revert a b r st up frames. induction l as [|ll IH p lb lr _]; intros a b r st up frames Hlen Hbel (_ & Hb1 & Hbl & Hbr) Hw Hne; [done|].
  pose proof Hbl as (_ & Hb2 & _ & Hblr). cbn [push_lss]. rewrite bf_ok_true by done. cbn [cassert rbind].
  cbn [ht] in Hlen. pose proof (ht_nonneg ll). pose proof (ht_nonneg lr). rewrite SET_TRAVERSE_ok by (rewrite zlen_cons; lia). cbn [rbind].
  assert (Forall2 waits ((a, st) :: up) (FL a b r :: frames)) as Hw' by (constructor; [split; [done|by exists b, r]|done]). destruct ll as [|l1 p1 b1 r1].
  - exists p, ((a, st) :: up). split; [done|]. exists (FL a b r :: frames), (Node Leaf p lb lr). repeat split; try done. by exists lb, lr.
  - destruct (IH p lb lr TLss ((a, st) :: up) (FL a b r :: frames)) as (a' & trav' & E & Hd); [rewrite zlen_cons; lia|by left|done|done|done|]. by exists a', trav'.
Qed.

Section Take.
Context (tr : tree_root) (Hu : unlink tr = true) (Hlen : ht (root tr) <= traverse_len tr) (Ha : addrs_ok (inorder (root tr))).
Abbreviation at_ := (with_traverse tr).

(** The node [x] has left the tree. *)
Definition left_with (tr' : tree_root) (rest : list Z) : Prop :=
  inorder (root tr') = rest /\ n_nodes tr' = n_nodes tr - 1 /\ unlink tr' = true /\ dismantling (root tr') (traverse tr') /\ max_depth tr' = max_depth tr /\
  ht (root tr') <= traverse_len tr' /\ traverse_len tr' = traverse_len tr.

Definition taken (total : list Z) (r : tree_root * Z) : Prop :=
  match total with [] => r.2 = 0 /\ r.1 = at_ [] | y :: rest => r.2 = y /\ left_with r.1 rest end.

Lemma unlink_spec frames a b r st up trav : root tr = plug frames (Node Leaf a b r) -> Forall2 waits up frames -> -1 <= b <= 1 -> balanced r ->
  (st = TSelf \/ (st = TGtr /\ ht r <= 1)) -> exists e, hand_out (at_ trav) a Leaf r st up = Ret e /\ taken (inorder (root tr)) e.
Proof using Hu Ha Hlen.
  intros Et Hw Hb Hbr Hst. unfold hand_out. cbn [with_traverse unlink root]. rewrite Hu.
  assert (exists root', (match up with [] => Ret r | (q, _) :: _ => let* _ := deref (root tr) q in Ret (set_lss q r (root tr)) end) = Ret root' /\ root' = plug frames r) as (root' & -> & ->).
  { destruct Hw as [|[q sq] f up frames (_ & b' & r' & -> & _) Hw]; [by exists r|]. rewrite plug_cons in Et. cbn [fill fst] in Et.
    rewrite (deref_plug _ _ _ _ _ _ Et Ha). cbn [rbind]. eexists. split; [done|]. rewrite Et in *. by rewrite set_lss_plug. }
  cbn [rbind]. eexists. split; [done|]. rewrite Et, inorder_plug, (waits_before _ _ Hw). cbn [app inorder]. split; [done|]. split; [|split; [done|split; [done|split; [|split; [done|split; [|done]]]]]]; cbn [root traverse fst traverse_len].
  - by rewrite inorder_plug, (waits_before _ _ Hw).
  - exists frames, r. split; [done|]. split; [done|]. destruct Hst as [->|[-> Hh]]; (split; [|done]); [by split|]. destruct r as [|rl rp rb rr]; [by left|right].
    cbn in Hh. pose proof Hbr as (_ & ? & _ & ?). exists rb, rr. destruct rl as [|x1 x2 x3 x4]; [done|]. cbn in Hh. pose proof (ht_nonneg x1). pose proof (ht_nonneg x4). pose proof (ht_nonneg rr). lia.
  - pose proof (ht_plug_mono frames (Node Leaf a b r) r) as H. rewrite <- Et in H. etransitivity; [apply H|exact Hlen]. cbn [ht]. lia.
Qed.

Lemma take_step_spec trav : dismantling (root tr) trav -> exists r, successor_step (at_ trav) = Ret r /\
  match r with
  | inr e => taken (inorder (root tr)) e
  | inl tr' => exists trav', tr' = at_ trav' /\ dismantling (root tr) trav' /\ (rounds trav' < rounds trav)%nat
  end.
Proof using Hu Ha Hlen.
  destruct trav as [|[a st] up]; [done|]. intros (frames & u & Et & Hw & Hcur & Hinit). unfold successor_step. cbn [with_traverse traverse root traverse_len].
  assert (forall b r, u = Node Leaf a b r -> -1 <= b <= 1 -> balanced r ->
    exists z, (let* n := deref (root tr) a in let '(l, b, r) := n in let* _ := cassert (bf_ok b) in let* e := hand_out (at_ ((a, st) :: up)) a l r TSelf up in Ret (inr e)) = Ret z /\
      match z with inr e => taken (inorder (root tr)) e | inl tr' => exists trav', tr' = at_ trav' /\ dismantling (root tr) trav' /\ (rounds trav' < rounds ((a, st) :: up))%nat end) as Hvisit.
  { intros b r -> Hb1 Hbr. rewrite (deref_plug _ _ _ _ _ _ Et Ha). cbn [rbind]. rewrite bf_ok_true by done. cbn [cassert rbind].
    destruct (unlink_spec frames a b r TSelf up ((a, st) :: up) Et Hw Hb1 Hbr) as (e & -> & He); [by left|]. cbn [rbind]. eauto. }
  assert (forall l b r, u = Node l a b r -> a =? 0 = false) as Hnz.
  { intros l b r ->. apply Z.eqb_neq. intros ->. destruct Ha as [_ H]. apply H. rewrite Et, inorder_plug. cbn. set_solver. }
  assert (forall l b r, u = Node l a b r -> zlen up + 1 + ht l <= traverse_len tr) as Hdepth.
  { intros l b r ->. pose proof (ht_plug frames (Node l a b r)) as H. rewrite <- Et in H. cbn [ht] in H. apply Forall2_length in Hw. unfold zlen in *. lia. }
  destruct st; cbn [current] in Hcur.
  - destruct Hcur as (b & r & Eu & Hb1 & Hbr). by eapply Hvisit.
  - destruct Hcur as [Hadr Hbu]. destruct u as [|l p b r]; cbn in Hadr; subst a.
    + cbn [Z.eqb]. eexists. split; [done|]. exists ((0, TGtr) :: up). split; [done|]. split; [|cbn; lia]. exists frames, Leaf. repeat split; try done. by left.
    + rewrite (Hnz _ _ _ eq_refl), (deref_plug _ _ _ _ _ _ Et Ha). cbn [rbind]. pose proof Hbu as (Hbf & Hb1 & Hbl & Hbr). rewrite bf_ok_true by done. cbn [cassert rbind]. destruct l as [|l1 p1 b1 r1].
      * destruct (unlink_spec frames p b r TGtr up ((p, TSelf) :: up) Et Hw Hb1 Hbr) as (e & -> & He); [right; split; [done|cbn in Hbf; lia]|]. cbn [rbind]. eauto.
      * destruct (push_lss_dismantle (traverse_len tr) (Node l1 p1 b1 r1) b p r TGtr up frames) as (a' & trav' & -> & Hd);
          [pose proof (Hdepth _ _ _ eq_refl); lia|by right|done|done|done|].
        cbn [rbind]. eexists. split; [done|]. exists ((a', TLss) :: trav'). split; [done|]. split; [by rewrite Et|cbn; rewrite (Hnz _ _ _ eq_refl); lia].
  - destruct Hcur as [[-> ->]|(b & r & Eu & Hb1 & Hbr)].
    + cbn [Z.eqb]. destruct Hw as [|[a' st'] f up' frames' (Hb0 & b & r & -> & Hb1 & Hbr) Hw'].
      * eexists. split; [done|]. by rewrite Et.
      * eexists. split; [done|]. exists ((a', st') :: up'). split; [done|]. split.
        -- exists frames', (Node Leaf a' b r). split; [done|]. split; [done|]. destruct Hb0 as [Hb0|Hb0]; cbn in Hb0; subst st'; (split; [|done]); [by exists b, r|right; by exists b, r].
        -- destruct Hb0 as [Hb0|Hb0]; cbn in Hb0; subst st'; cbn; [lia|]. destruct (a' =? 0); cbn; lia.
    + rewrite (Hnz _ _ _ Eu). by eapply Hvisit.
  - rewrite (Hinit eq_refl) in *. inversion Hw; subst frames. destruct Hcur as (l & b & r & -> & Hbu). rewrite (deref_plug _ _ _ _ _ _ Et Ha). cbn [rbind].
    pose proof Hbu as (_ & Hb1 & _ & Hbr). rewrite bf_ok_true by done. cbn [andb cassert rbind]. destruct l as [|l1 p1 b1 r1].
    + cbn [push_lss rbind]. eexists. split; [done|]. exists [(a, TLss)]. split; [done|]. split; [|cbn; lia]. exists [], (Node Leaf a b r). repeat split; try done. by exists b, r.
    + destruct (push_lss_dismantle (traverse_len tr) (Node l1 p1 b1 r1) b a r TLss [] []) as (a' & trav' & -> & Hd); [pose proof (Hdepth _ _ _ eq_refl); lia|by left|done|done|done|].
      cbn [rbind]. eexists. split; [done|]. exists ((a', TLss) :: trav'). split; [done|]. split; [by rewrite Et|cbn; lia].
Qed.

Lemma take_successor_spec trav : dismantling (root tr) trav -> exists e, tree_successor (at_ trav) = Ret e /\ taken (inorder (root tr)) e.
Proof using Hu Ha Hlen.
  intros H. unfold tree_successor. cbn [with_traverse traverse].
  apply (while_rule (fun m tr1 => exists trav1, tr1 = at_ trav1 /\ dismantling (root tr) trav1 /\ m = rounds trav1)
    (taken (inorder (root tr))) successor_step (4 + length trav) (rounds trav) (at_ trav)).
  - by exists trav.
  - destruct trav as [|[a st] up]; [done|]. destruct st; cbn; try destruct (a =? 0); cbn; lia.
  - intros m tr1 (trav1 & -> & Hat & ->). destruct (take_step_spec trav1 Hat) as ([tr2|e] & E & Hr).
    + right. destruct Hr as (trav2 & -> & Hat2 & Hlt). eexists _, _. split; [exact E|]. split; [exact Hlt|]. by exists trav2.
    + left. eauto.
Qed.

End Take.

(** ** The loops *)

(** The body on a list of nodes, until it leaves the loop. *)
Fixpoint each {St R} (body : Z -> St -> res (St + R)) (xs : list Z) (s : St) : res (St + R) :=
  match xs with
  | [] => Ret (inl s)
  | x :: xs => let* r := body x s in match r with inl s => each body xs s | inr r => Ret (inr r) end
  end.

Lemma tsize_inorder t : tsize t = length (inorder t).
Proof. induction t as [|l IHl p b r IHr]; [done|]. cbn. rewrite length_app, IHl, IHr. cbn. lia. Qed.

(** A loop whose generator gives the nodes of [I] one by one; [F] holds at its end. *)
Lemma for_nodes_rule {St R} next (I : list Z -> tree_root -> Prop) (F : tree_root -> Prop) (body : Z -> St -> res (St + R)) :
  (forall xs tr, I xs tr -> exists tr' x, next tr = Ret (tr', x) /\ match xs with [] => x = 0 /\ F tr' | y :: rest => x = y /\ I rest tr' end) ->
  forall xs fuel p tr s, match xs with [] => p = 0 /\ F tr | y :: rest => p = y /\ I rest tr end -> (length xs <= fuel)%nat -> 0 ∉ xs ->
  match each body xs s with
  | Ret (inl s') => exists tr', for_nodes next fuel p tr body s = Ret (tr', inl s') /\ F tr'
  | Ret (inr r) => exists tr' rest, for_nodes next fuel p tr body s = Ret (tr', inr r) /\ I rest tr'
  | Stop e => for_nodes next fuel p tr body s = Stop e
  end.
Proof.
  intros Hnext. induction xs as [|x xs IH]; intros fuel p tr s Hp Hf H0.
  { destruct Hp as [-> HF]. cbn. exists tr. split; [by destruct fuel|done]. }
  destruct Hp as [-> HI]. destruct fuel as [|fuel]; [cbn in Hf; lia|]. cbn [for_nodes each]. destruct (Z.eqb_spec x 0) as [->|_]; [set_solver|].
  destruct (body x s) as [[s'|r]|e]; cbn [rbind]; [|eauto|done].
  destruct (Hnext xs tr HI) as (tr' & y & -> & Hy). cbn [rbind fst snd]. apply IH; [by destruct xs|cbn in Hf; lia|set_solver].
Qed.

(** The generators; [keeping] and [taking] are what they maintain. *)
Definition keeping (tr : tree_root) (xs : list Z) (tr' : tree_root) : Prop :=
  exists trav, tr' = with_traverse tr trav /\ at_node (root tr) trav xs.
Definition kept (tr tr' : tree_root) : Prop := exists trav, tr' = with_traverse tr trav.

Definition same_bounds (tr tr' : tree_root) : Prop := max_depth tr' = max_depth tr /\ traverse_len tr' = traverse_len tr.
Record taking (tr : tree_root) (xs : list Z) (tr' : tree_root) : Prop := {
  k_unlink : unlink tr' = true;
  k_len : ht (root tr') <= traverse_len tr';
  k_addrs : addrs_ok xs;
  k_order : inorder (root tr') = xs;
  k_nodes : n_nodes tr' = zlen xs;
  k_vector : dismantling (root tr') (traverse tr');
  k_bounds : same_bounds tr tr'
}.
Definition emptied (tr tr' : tree_root) : Prop := root tr' = Leaf /\ n_nodes tr' = 0 /\ same_bounds tr tr'.

Lemma tree_successor_keeps tr xs tr1 : unlink tr = false -> balanced (root tr) -> ht (root tr) <= traverse_len tr -> addrs_ok (inorder (root tr)) ->
  keeping tr xs tr1 -> exists tr' x, tree_successor tr1 = Ret (tr', x) /\ match xs with [] => x = 0 /\ kept tr tr' | y :: rest => x = y /\ keeping tr rest tr' end.
Proof.
  intros Hu Hb Hl Ha (trav & -> & Hat). destruct (tree_successor_spec tr Hu Hb Hl Ha trav xs Hat) as (trav' & x & E & Hx). eexists _, x. split; [exact E|].
  destruct xs as [|y rest]; [split; [done|by exists trav']|]. destruct Hx as [-> Hx]. split; [done|]. by exists trav'.
Qed.

Lemma tree_successor_takes tr xs tr1 : taking tr xs tr1 ->
  exists tr' x, tree_successor tr1 = Ret (tr', x) /\ match xs with [] => x = 0 /\ emptied tr tr' | y :: rest => x = y /\ taking tr rest tr' end.
Proof.
  intros [Hu Hl Ha Ho Hn Hv Hs]. rewrite <- Ho in Ha. destruct (take_successor_spec tr1 Hu Hl Ha (traverse tr1) Hv) as ([tr' x] & E & Ht).
  assert (with_traverse tr1 (traverse tr1) = tr1) as Eq by by destruct tr1. rewrite Eq in E. exists tr', x. split; [done|]. rewrite Ho in *. destruct xs as [|y rest].
  - destruct Ht as [Hx Htr]. cbn in Hx, Htr. subst x tr'. split; [done|]. split; [|done]. cbn. destruct (root tr1) as [|l q b r]; [done|]. cbn in Ho. by destruct (inorder l).
  - destruct Ht as [Hx (H1 & H2 & H3 & H4 & H5 & H6 & H7)]. cbn [fst snd] in *. split; [done|]. destruct (addrs_ok_app [y] rest Ha) as [_ Ha']. rewrite zlen_cons in Hn.
    destruct Hs as [Hs1 Hs2]. split; try done; [lia|]. split; congruence.
Qed.

End RvmIter.
