(* ===== verification/RvmLoops.v ===== *)
(** * Balanced trees of the recoverable memory: the iterator macros

    FOR_NODES_OF runs its body on the nodes in order and leaves the tree as it was;
    UNLINK_NODES_OF also empties it, and UNLINK_REVERSE_NODES_OF does so from the
    other end: tree_predecessor is tree_successor on the mirrored tree.
    FROM_EXISTING_NODE_OF starts at the first node that conflicts with the one to
    insert. *)
From Stdlib Require Import ZArith Lia.
From stdpp Require Import base list numbers gmap.
From S2P Require Import Prelude.
From S2P Require Import RvmTree.
From S2P Require Import RvmAvl.
From S2P Require Import RvmIter.
Import RvmTree RvmAvl RvmIter.
Open Scope Z_scope.

Module RvmLoops.

(** The tree as init_tree_generator hands it to the generator. *)
Definition reset (tr : tree_root) (unl : bool) : tree_root :=
  {| root := root tr; traverse := []; traverse_len := traverse_len tr; n_nodes := n_nodes tr; max_depth := max_depth tr; unlink := unl |}.
Definition started (tr : tree_root) (unl : bool) : tree_root := chk_traverse (reset tr unl).

Lemma started_same tr unl : root (started tr unl) = root tr /\ n_nodes (started tr unl) = n_nodes tr /\ max_depth (started tr unl) = max_depth tr /\
  unlink (started tr unl) = unl /\ traverse_len (started tr unl) = traverse_len (chk_traverse tr).
Proof. unfold started, chk_traverse, reset. cbn. by destruct (_ <=? _). Qed.

Lemma init_forward_keeps tr xs : room tr -> tree_ok tr xs -> addrs_ok xs ->
  exists tr' p, init_tree_generator tr true false = Ret (tr', p) /\
    match xs with [] => p = 0 /\ tr' = reset tr false | x :: rest => p = x /\ keeping (started tr false) rest tr' end.
Proof.
  intros Hroom [Ho Hb Hn] Ha. destruct (chk_traverse_room tr Hroom) as (Hl1 & Hl2 & _). destruct (started_same tr false) as (S1 & S2 & S3 & S4 & S5).
  unfold init_tree_generator. fold (reset tr false). fold (started tr false). cbn [root reset]. destruct (root tr) as [|l p b r] eqn:Er; [subst xs; eexists _, 0; split; [done|split; [done|]]; unfold reset; by rewrite Er|].
  rewrite S5, SET_TRAVERSE_ok by (rewrite zlen_nil; lia). cbn [rbind].
  destruct (tree_successor_spec (started tr false)) with (trav := [(p, TInit)]) (total := xs) as (trav' & x & E & Hx).
  - done. - by rewrite S1. - rewrite S1, S5. exact Hl2. - by rewrite S1, Ho.
  - exists xs, []. rewrite app_nil_r, S1. split; [by exists [], l, b, r|]. split; [constructor|done].
  - eexists _, x. split; [exact E|]. destruct xs as [|y rest]; [cbn in Ho; by destruct (inorder l)|]. destruct Hx as [-> Hx]. split; [done|]. by exists trav'.
Qed.

Lemma init_forward_takes tr xs : room tr -> tree_ok tr xs -> addrs_ok xs ->
  exists tr' p, init_tree_generator tr true true = Ret (tr', p) /\
    match xs with [] => p = 0 /\ tr' = reset tr true | x :: rest => p = x /\ taking (started tr true) rest tr' end.
Proof.
  intros Hroom [Ho Hb Hn] Ha. destruct (chk_traverse_room tr Hroom) as (Hl1 & Hl2 & _). destruct (started_same tr true) as (S1 & S2 & S3 & S4 & S5).
  unfold init_tree_generator. fold (reset tr true). fold (started tr true). cbn [root reset]. destruct (root tr) as [|l p b r] eqn:Er; [subst xs; eexists _, 0; split; [done|split; [done|]]; unfold reset; by rewrite Er|].
  rewrite S5, SET_TRAVERSE_ok by (rewrite zlen_nil; lia). cbn [rbind].
  destruct (tree_successor_takes (started tr true) xs (with_traverse (started tr true) [(p, TInit)])) as (tr' & x & E & Hx).
  - split; cbn [with_traverse root unlink traverse_len n_nodes traverse]; try done.
    + rewrite S1, S5. exact Hl2. + by rewrite S1. + by rewrite S2. + rewrite S1. exists [], (Node l p b r). repeat split; try done. by exists l, b, r.
  - eexists _, x. split; [exact E|]. destruct xs as [|y rest]; [cbn in Ho; by destruct (inorder l)|]. done.
Qed.

(** ** Mirroring *)
Fixpoint mirror (t : tree) : tree := match t with Leaf => Leaf | Node l p b r => Node (mirror r) p (- b) (mirror l) end.
Definition turn (st : traverse_state) : traverse_state := match st with TLss => TGtr | TGtr => TLss | st => st end.
Definition turn_entry (e : Z * traverse_state) : Z * traverse_state := (e.1, turn e.2).
Definition mirrored (tr : tree_root) : tree_root :=
  {| root := mirror (root tr); traverse := turn_entry <$> traverse tr; traverse_len := traverse_len tr; n_nodes := n_nodes tr; max_depth := max_depth tr; unlink := unlink tr |}.

Lemma mirror_mirror t : mirror (mirror t) = t.
Proof. induction t as [|l IHl p b r IHr]; cbn; [done|]. by rewrite IHl, IHr, Z.opp_involutive. Qed.
Lemma turn_turn (trav : list (Z * traverse_state)) : turn_entry <$> (turn_entry <$> trav) = trav.
Proof. induction trav as [|[a st] trav IH]; [done|]. rewrite !fmap_cons, IH. by destruct st. Qed.
Lemma mirrored_mirrored tr : mirrored (mirrored tr) = tr.
Proof. destruct tr. unfold mirrored. cbn. by rewrite mirror_mirror, turn_turn. Qed.

Lemma ht_mirror t : ht (mirror t) = ht t.
Proof. induction t as [|l IHl p b r IHr]; cbn; [done|]. by rewrite IHl, IHr, Z.max_comm. Qed.
Lemma inorder_mirror t : inorder (mirror t) = reverse (inorder t).
Proof. induction t as [|l IHl p b r IHr]; cbn [mirror inorder]; [done|]. rewrite IHl, IHr, reverse_app, reverse_cons, <- app_assoc. done. Qed.
Lemma balanced_mirror t : balanced t -> balanced (mirror t).
Proof. induction t as [|l IHl p b r IHr]; cbn; [done|]. rewrite !ht_mirror. intros (? & ? & ? & ?). repeat split; try tauto; lia. Qed.
Lemma addr_mirror t : addr (mirror t) = addr t.
Proof. by destruct t. Qed.
Lemma bf_ok_mirror b : bf_ok (- b) = bf_ok b.
Proof. unfold bf_ok. destruct (Z.leb_spec (-1) b), (Z.leb_spec b 1), (Z.leb_spec (-1) (- b)), (Z.leb_spec (- b) 1); cbn; done || lia. Qed.
Lemma sub_mirror t a : sub (mirror t) a = mirror <$> sub t a.
Proof. induction t as [|l IHl p b r IHr]; cbn; [done|]. destruct (p =? a); [done|]. rewrite IHl, IHr. by destruct (sub l a), (sub r a). Qed.
Lemma set_gtr_mirror a u t : set_gtr a u t = mirror (set_lss a (mirror u) (mirror t)).
Proof. induction t as [|l IHl p b r IHr]; cbn; [done|]. destruct (p =? a); cbn; rewrite Z.opp_involutive; [by rewrite !mirror_mirror|]. by rewrite IHl, IHr. Qed.

Lemma deref_mirror t a : deref (mirror t) a = match deref t a with Ret (l, b, r) => Ret (mirror r, - b, mirror l) | Stop e => Stop e end.
Proof. unfold deref. rewrite sub_mirror. destruct (sub t a) as [[|]|]; done. Qed.

(** The result of a mirrored run. *)
Definition turn_back {A} (r : res (tree_root * A)) : res (tree_root * A) := match r with Ret (tr, x) => Ret (mirrored tr, x) | Stop e => Stop e end.
Definition turn_step (r : res (tree_root + (tree_root * Z))) : res (tree_root + (tree_root * Z)) :=
  match r with Ret (inl tr) => Ret (inl (mirrored tr)) | Ret (inr (tr, x)) => Ret (inr (mirrored tr, x)) | Stop e => Stop e end.

Lemma push_gtr_mirror len t trav : push_gtr len t trav = match push_lss len (mirror t) (turn_entry <$> trav) with Ret x => Ret (turn_entry <$> x) | Stop e => Stop e end.
Proof.
  revert trav. induction t as [|l _ p b r IH]; intros trav; cbn [push_gtr push_lss mirror]; [by rewrite turn_turn|]. rewrite bf_ok_mirror. destruct (cassert (bf_ok b)); cbn [rbind]; [|done].
  unfold SET_TRAVERSE, in_vector, zlen. rewrite length_fmap. destruct (_ <? _); cbn [rbind]; [|done]. by rewrite IH.
Qed.

Lemma emit_mirror tr a l r st up :
  hand_out_rev tr a l r st up = turn_back (hand_out (mirrored tr) a (mirror r) (mirror l) (turn st) (turn_entry <$> up)).
Proof.
  unfold hand_out, hand_out_rev. cbn [mirrored unlink root]. destruct (unlink tr).
  - destruct up as [|[q sq] up]; cbn [fmap list_fmap turn_entry fst].
    + cbn [rbind]. destruct r; cbn [mirror rbind]; [|done]. unfold turn_back, mirrored. cbn. rewrite mirror_mirror, addr_mirror. by destruct st.
    + rewrite deref_mirror. destruct (deref (root tr) q) as [[[? ?] ?]|]; cbn [rbind]; [|done]. destruct r; cbn [mirror rbind]; [|done].
      unfold turn_back, mirrored. cbn. rewrite set_gtr_mirror, addr_mirror, turn_turn. by destruct st, sq.
  - unfold turn_back, mirrored, with_traverse. cbn. rewrite mirror_mirror, addr_mirror, turn_turn. by destruct st.
Qed.

Lemma predecessor_step_mirror tr : predecessor_step tr = turn_step (successor_step (mirrored tr)).
Proof.
  assert (forall trav, mirrored (with_traverse (mirrored tr) (turn_entry <$> trav)) = with_traverse tr trav) as Hw
    by (intros trav; unfold mirrored, with_traverse; cbn; by rewrite mirror_mirror, turn_turn).
  unfold predecessor_step, successor_step. cbn [mirrored traverse root traverse_len]. destruct (traverse tr) as [|[a st] up]; [done|]. cbn [fmap list_fmap turn_entry fst snd].
  rewrite deref_mirror.
  assert ((let* n := deref (root tr) a in let '(l, b, r) := n in let* _ := cassert (bf_ok b) in let* e := hand_out_rev tr a l r TSelf up in Ret (inr e)) =
    turn_step (let* n := match deref (root tr) a with Ret (l, b, r) => Ret (mirror r, - b, mirror l) | Stop e => Stop e end in let '(l, b, r) := n in
      let* _ := cassert (bf_ok b) in let* e := hand_out (mirrored tr) a l r TSelf (turn_entry <$> up) in Ret (inr e))) as Hvisit.
  { destruct (deref (root tr) a) as [[[l b] r]|]; cbn [rbind]; [|done]. rewrite bf_ok_mirror. destruct (cassert (bf_ok b)); cbn [rbind]; [|done]. rewrite emit_mirror. cbn [turn].
    by destruct (hand_out (mirrored tr) _ _ _ _ _) as [[? ?]|]. }
  destruct st; cbn [turn].
  - destruct (a =? 0); [|exact Hvisit]. destruct up as [|e up]; cbn; by rewrite <- Hw.
  - destruct (a =? 0); [cbn; by rewrite <- Hw|]. clear Hvisit. destruct (deref (root tr) a) as [[[l b] r]|]; cbn [rbind]; [|done]. rewrite bf_ok_mirror. destruct (cassert (bf_ok b)); cbn [rbind]; [|done].
    destruct r as [|rl rp rb rr].
    + rewrite emit_mirror. cbn [mirror turn]. by destruct (hand_out (mirrored tr) _ _ _ _ _) as [[? ?]|].
    + rewrite push_gtr_mirror. cbn [mirror]. fold (mirror rr) (mirror rl). change (Node (mirror rr) rp (- rb) (mirror rl)) with (mirror (Node rl rp rb rr)).
      change (turn_entry <$> (a, TLss) :: up) with ((a, TGtr) :: (turn_entry <$> up)). destruct (push_lss _ _ _) as [x|]; cbn [rbind turn_step]; [|done].
      rewrite <- Hw, turn_turn. done.
  - exact Hvisit.
  - clear Hvisit. destruct (deref (root tr) a) as [[[l b] r]|]; cbn [rbind]; [|done]. rewrite bf_ok_mirror. destruct up as [|e up]; cbn [fmap list_fmap].
    + destruct (cassert _); cbn [rbind]; [|done]. rewrite push_gtr_mirror. change (turn_entry <$> [(a, TGtr)]) with [(a, TLss)].
      destruct (push_lss _ _ _) as [x|]; cbn [rbind turn_step]; [|done]. by rewrite <- Hw, turn_turn.
    + rewrite andb_false_r. done.
Qed.

Lemma tree_predecessor_mirror tr : tree_predecessor tr = turn_back (tree_successor (mirrored tr)).
Proof.
  unfold tree_predecessor, tree_successor. cbn [mirrored traverse]. rewrite length_fmap. generalize (4 + length (traverse tr))%nat as n. intros n. revert tr.
  induction n as [|n IH]; intros tr; [done|]. cbn [while_loop]. rewrite predecessor_step_mirror. destruct (successor_step (mirrored tr)) as [[tr'|[tr' x]]|]; cbn [turn_step rbind]; [|done|done].
  by rewrite IH, mirrored_mirrored.
Qed.

Lemma started_mirrored tr unl : started (mirrored tr) unl = mirrored (started tr unl).
Proof. unfold started, chk_traverse, reset. cbn. by destruct (_ <=? _). Qed.

Lemma init_reverse_mirror tr unl : init_tree_generator tr false unl = turn_back (init_tree_generator (mirrored tr) true unl).
Proof.
  unfold init_tree_generator. fold (reset tr unl) (reset (mirrored tr) unl). fold (started tr unl) (started (mirrored tr) unl). rewrite started_mirrored. cbn [mirrored root traverse_len reset].
  destruct (root tr) as [|l p b r] eqn:Er; cbn [mirror]; [unfold turn_back, reset, mirrored; cbn; by rewrite Er|]. destruct (SET_TRAVERSE _ _ _) as [trav|] eqn:Es; cbn [rbind]; [|done].
  unfold SET_TRAVERSE in Es. destruct (in_vector _ _); [|done]. injection Es as <-. rewrite tree_predecessor_mirror. done.
Qed.

(** ** The macros *)

(** The same nodes and bounds; only the vector may differ, or have grown. *)
Definition same_nodes (tr tr' : tree_root) : Prop :=
  root tr' = root tr /\ n_nodes tr' = n_nodes tr /\ max_depth tr' = max_depth tr /\ (traverse_len tr' = traverse_len tr \/ traverse_len tr' = traverse_len (chk_traverse tr)).

Lemma chk_traverse_len tr : traverse_len tr <= traverse_len (chk_traverse tr).
Proof. unfold chk_traverse, TRAVERSE_LEN_INCR. destruct (_ <=? _); cbn; lia. Qed.

Lemma same_nodes_ok tr tr' xs : same_nodes tr tr' -> room tr -> tree_ok tr xs -> room tr' /\ tree_ok tr' xs.
Proof.
  intros (H1 & H2 & H3 & H4) Hr [Ho Hb Hn]. split; [|split; congruence]. destruct (chk_traverse_room tr Hr) as (Hl & _). pose proof (chk_traverse_len tr). destruct Hr as (Hlen & H0 & Hd).
  unfold room, deep in *. rewrite H1, H3. destruct H4 as [-> | ->]; [done|]. split; [by right|]. split; [done|]. destruct Hd as [Hd|Hd]; [by left|right; lia].
Qed.

(** What is left of a tree whose nodes were unlinked. *)
Definition cleared (tr : tree_root) : Prop := tree_ok tr [] /\ room tr.

Lemma cleared_intro tr tr' : root tr' = Leaf -> n_nodes tr' = 0 -> max_depth tr' = max_depth tr -> (traverse_len tr' = traverse_len tr \/ traverse_len tr' = traverse_len (chk_traverse tr)) ->
  room tr -> cleared tr'.
Proof.
  intros H1 H2 H3 H4 Hr. destruct (chk_traverse_room tr Hr) as (Hl & _). destruct Hr as (Hlen & H0 & _). split; [split; by rewrite ?H1|].
  unfold room. rewrite H1, H3. split; [destruct H4 as [-> | ->]; tauto|]. split; [done|by left].
Qed.

Lemma FOR_NODES_OF_spec {St R} tr xs (body : Z -> St -> res (St + R)) s : room tr -> tree_ok tr xs -> addrs_ok xs ->
  match each body xs s with
  | Ret r => exists tr', FOR_NODES_OF tr body s = Ret (tr', r) /\ same_nodes tr tr'
  | Stop e => FOR_NODES_OF tr body s = Stop e
  end.
Proof.
  intros Hroom Hok Ha. destruct (init_forward_keeps tr xs Hroom Hok Ha) as (tr' & p & E & Hp). unfold FOR_NODES_OF. rewrite E. cbn [rbind fst snd].
  destruct Hok as [Ho Hb Hn]. destruct (chk_traverse_room tr Hroom) as (_ & Hl & _). destruct (started_same tr false) as (S1 & S2 & S3 & S4 & S5).
  destruct xs as [|x xs]; [destruct Hp as [-> ->]; cbn [each]; exists (reset tr false); split; [by destruct (tsize _)|]; repeat split; by left|].
  assert (forall trav, same_nodes tr (with_traverse (started tr false) trav)) as Hs by (intros trav; unfold same_nodes; cbn; rewrite S1, S2, S3, S5; by auto).
  pose proof (for_nodes_rule tree_successor (keeping (started tr false)) (kept (started tr false)) body) as H.
  specialize (H (fun xs tr1 => tree_successor_keeps (started tr false) xs tr1 S4 ltac:(by rewrite S1) ltac:(by rewrite S1, S5) ltac:(by rewrite S1, Ho))
    (x :: xs) (tsize (root tr)) p tr' s Hp ltac:(rewrite tsize_inorder, Ho; lia) (proj2 Ha)).
  destruct (each body (x :: xs) s) as [[s'|r]|e].
  - destruct H as (tr2 & -> & trav & ->). eauto.
  - destruct H as (tr2 & rest & -> & trav & -> & _). eauto.
  - done.
Qed.

Lemma UNLINK_NODES_OF_spec {St R} tr xs (body : Z -> St -> res (St + R)) s : room tr -> tree_ok tr xs -> addrs_ok xs ->
  match each body xs s with
  | Ret (inl s') => exists tr', UNLINK_NODES_OF tr body s = Ret (tr', inl s') /\ cleared tr'
  | Ret (inr r) => exists tr', UNLINK_NODES_OF tr body s = Ret (tr', inr r)
  | Stop e => UNLINK_NODES_OF tr body s = Stop e
  end.
Proof.
  intros Hroom Hok Ha. destruct (init_forward_takes tr xs Hroom Hok Ha) as (tr' & p & E & Hp). unfold UNLINK_NODES_OF. rewrite E. cbn [rbind fst snd].
  destruct Hok as [Ho Hb Hn]. destruct (started_same tr true) as (S1 & S2 & S3 & S4 & S5).
  destruct xs as [|x xs]; [destruct Hp as [-> ->]; cbn [each]; exists (reset tr true); split; [by destruct (tsize _)|]; apply (cleared_intro tr); cbn; auto; by destruct (root tr) as [|l q b r]; [|cbn in Ho; destruct (inorder l)]|].
  pose proof (for_nodes_rule tree_successor (taking (started tr true)) (emptied (started tr true)) body (tree_successor_takes (started tr true))
    (x :: xs) (tsize (root tr)) p tr' s Hp ltac:(rewrite tsize_inorder, Ho; lia) (proj2 Ha)) as H.
  destruct (each body (x :: xs) s) as [[s'|r]|e].
  - destruct H as (tr2 & -> & H1 & H2 & H3 & H4). exists tr2. split; [done|]. apply (cleared_intro tr); try done; [congruence|right; congruence].
  - destruct H as (tr2 & rest & -> & _). eauto.
  - done.
Qed.

(** In the other direction. *)
Lemma for_nodes_mirror {St R} (body : Z -> St -> res (St + R)) fuel : forall p tr s,
  for_nodes tree_predecessor fuel p tr body s = turn_back (for_nodes tree_successor fuel p (mirrored tr) body s).
Proof.
  induction fuel as [|fuel IH]; intros p tr s; cbn [for_nodes]; (destruct (p =? 0); [cbn; by rewrite mirrored_mirrored|]); [done|].
  destruct (body p s) as [[s'|r]|e]; cbn [rbind turn_back]; [|by rewrite mirrored_mirrored|done]. rewrite tree_predecessor_mirror.
  destruct (tree_successor (mirrored tr)) as [[tr' x]|e]; cbn [turn_back rbind fst snd]; [|done]. by rewrite IH, mirrored_mirrored.
Qed.

Lemma mirrored_ok tr xs : tree_ok tr xs -> tree_ok (mirrored tr) (reverse xs).
Proof. intros [Ho Hb Hn]. split; cbn; [by rewrite inorder_mirror, Ho|by apply balanced_mirror|]. rewrite Hn. unfold zlen. by rewrite length_reverse. Qed.
Lemma mirrored_room tr : room tr -> room (mirrored tr).
Proof. unfold room, deep. cbn. by rewrite ht_mirror. Qed.

Lemma UNLINK_REVERSE_NODES_OF_spec {St R} tr xs (body : Z -> St -> res (St + R)) s : room tr -> tree_ok tr xs -> addrs_ok xs ->
  match each body (reverse xs) s with
  | Ret (inl s') => exists tr', UNLINK_REVERSE_NODES_OF tr body s = Ret (tr', inl s') /\ cleared tr'
  | Ret (inr r) => exists tr', UNLINK_REVERSE_NODES_OF tr body s = Ret (tr', inr r)
  | Stop e => UNLINK_REVERSE_NODES_OF tr body s = Stop e
  end.
Proof.
  intros Hroom Hok [Hnd H0]. assert (UNLINK_REVERSE_NODES_OF tr body s = turn_back (UNLINK_NODES_OF (mirrored tr) body s)) as ->.
  { unfold UNLINK_REVERSE_NODES_OF, UNLINK_NODES_OF. rewrite init_reverse_mirror. destruct (init_tree_generator (mirrored tr) true true) as [[tr' p]|]; cbn [turn_back rbind fst snd]; [|done].
    rewrite for_nodes_mirror, mirrored_mirrored. cbn [mirrored root]. by rewrite !tsize_inorder, inorder_mirror, length_reverse. }
  pose proof (UNLINK_NODES_OF_spec (mirrored tr) (reverse xs) body s (mirrored_room _ Hroom) (mirrored_ok _ _ Hok)) as H.
  assert (addrs_ok (reverse xs)) as Ha by (split; [by rewrite reverse_Permutation|by rewrite reverse_Permutation]). specialize (H Ha).
  destruct (each body (reverse xs) s) as [[s'|r]|e].
  - destruct H as (tr' & -> & Hc & Hr). exists (mirrored tr'). split; [done|]. split; [|by apply mirrored_room]. apply (mirrored_ok tr' []). done.
  - destruct H as (tr' & ->). by exists (mirrored tr').
  - by rewrite H.
Qed.

(** ** From the first conflicting node *)
Lemma levels_path t path u : t = plug path u -> exists xss, levels t (entry_of <$> path) xss /\ concat xss = after path.
Proof.
  revert u. induction path as [|f up IH]; intros u Et; [exists []; split; [constructor|done]|]. rewrite plug_cons in Et. destruct (IH _ Et) as (xss & Hl & Hc).
  assert (zlen (entry_of <$> up) = zlen up) as Hz by (unfold zlen; by rewrite length_fmap). rewrite fmap_cons. destruct f as [p b r|l p b]; cbn [entry_of after].
  - exists ((p :: inorder r) :: xss). split; [constructor; [|by left|done]|cbn; by rewrite Hc]. exists up, u, b, r. rewrite Hz. done.
  - exists ([] :: xss). split; [constructor; [by left|by right|done]|by cbn].
Qed.

Section Conflict.
Context (cmp : Z -> Z -> Z) (node : Z).

(** [(a, TLss) :: ...] leads to a node from which on the nodes [xs] follow. *)
Definition leads_to (t : tree) (trav : list (Z * traverse_state)) (xs : list Z) : Prop :=
  exists path l a b r, trav = (a, TLss) :: (entry_of <$> path) /\ t = plug path (Node l a b r) /\ xs = a :: inorder r ++ after path.

Lemma smallest_spec len t u path first l1 mid : ht t <= len -> t = plug path u -> inorder u = l1 ++ mid ->
  Forall (fun x => cmp x node = -1) l1 -> Forall (fun x => cmp x node = 0) mid -> leads_to t first (after path) ->
  exists trav, smallest cmp node len u (entry_of <$> path) first = Ret trav /\ leads_to t trav (mid ++ after path).
Proof.
  intros Hlen. revert path first l1 mid. induction u as [|l IHl p b r IHr]; intros path first l1 mid Et Eu H1 H2 Hf.
  { symmetry in Eu. apply app_nil in Eu as [-> ->]. by exists first. }
  pose proof (ht_plug path (Node l p b r)) as Hp. rewrite <- Et in Hp. cbn [ht] in Hp. pose proof (ht_nonneg l). pose proof (ht_nonneg r).
  assert (zlen (entry_of <$> path) < len) as Hz by (unfold zlen in *; rewrite length_fmap; lia). cbn [smallest inorder] in *. rewrite !SET_TRAVERSE_ok by done. cbn [rbind].
  assert (forall k, inorder l = l1 ++ k -> mid = k ++ p :: inorder r -> exists trav,
    (if cmp p node =? -1 then smallest cmp node len r ((0, TGtr) :: (entry_of <$> path)) first
     else if cmp p node =? 0 then smallest cmp node len l ((p, TLss) :: (entry_of <$> path)) ((p, TLss) :: (entry_of <$> path)) else Stop CAbort) = Ret trav /\
    leads_to t trav (mid ++ after path)) as Hin.
  { intros k El ->. apply Forall_app in H2 as [H2k [-> _]%Forall_cons]. cbn [Z.eqb].
    destruct (IHl (FL p b r :: path) ((p, TLss) :: (entry_of <$> path)) l1 k) as (trav & E & Ht); [done|done|done|done|by exists path, l, p, b, r|].
    exists trav. split; [exact E|]. cbn [after] in Ht. by rewrite <- app_assoc. }
  apply app_eq_inv in Eu as [(k & El & Ek)|(k & -> & Ek)]; [by apply (Hin k)|]. destruct k as [|x k]; [by apply (Hin []); rewrite ?app_nil_r|].
  injection Ek as Ex Ek. subst x. apply Forall_app in H1 as [_ [-> H1]%Forall_cons]. cbn [Z.eqb]. destruct (IHr (FR l p b :: path) first k mid) as (trav & E & Ht); try done. eauto.
Qed.

(** The nodes above the one met lie below all conflicting ones. *)
Lemma before_path path u l1 m1 : Forall (on_path cmp node) path -> before path ++ u = l1 ++ m1 -> Forall (fun x => cmp node x = 0) m1 -> exists k, l1 = before path ++ k /\ u = k ++ m1.
Proof.
  intros Hp E Hm. assert (before path = [] \/ exists xs p, before path = xs ++ [p] /\ cmp node p = 1) as Hb.
  { clear E. induction path as [|f up IH]; [by left|]. apply Forall_cons in Hp as [Hf Hp]. destruct f as [p b r|l p b]; cbn [before]; [by apply IH|]. right. exists (before up ++ inorder l), p. by app_norm. }
  apply app_eq_inv in E as [(k & Eb & Em)|(k & -> & Eu)]; [|by exists k]. exists []. destruct k as [|y k _] using rev_ind; [by rewrite app_nil_r in *; subst|exfalso].
  destruct Hb as [Hb|(xs & p & Hb & Hv)]; [rewrite Hb in Eb; by destruct l1, k|]. rewrite Hb, app_assoc in Eb. apply app_inj_tail in Eb as [_ ->].
  subst m1. rewrite !Forall_app, Forall_singleton in Hm. lia.
Qed.

Lemma FROM_EXISTING_init tr l1 mid l2 : room tr -> tree_ok tr (l1 ++ mid ++ l2) -> addrs_ok (l1 ++ mid ++ l2) -> cut cmp node l1 mid l2 ->
  Forall (fun x => cmp x node = -1) l1 -> Forall (fun x => cmp x node = 0) mid ->
  (mid = [] -> exists tr', tree_iterate_insert cmp node tr = Ret (tr', 0) /\ tree_ok tr' (l1 ++ node :: l2) /\ (few (l1 ++ node :: l2) -> room tr') /\ (deep tr -> zlen (l1 ++ l2) < 2 ^ 62 -> room tr' /\ deep tr')) /\
  (forall x rest, mid = x :: rest -> exists tr' tr0, tree_iterate_insert cmp node tr = Ret (tr', x) /\ same_nodes tr tr0 /\ ht (root tr0) <= traverse_len tr0 /\ unlink tr0 = false /\ keeping tr0 (rest ++ l2) tr').
Proof.
  intros Hroom [Ho Hb Hn] Ha Hc Hc1 Hc2. set (tr1 := {| root := root tr; traverse := traverse tr; traverse_len := traverse_len tr; n_nodes := n_nodes tr; max_depth := max_depth tr; unlink := false |}).
  destruct (tree_insert_spec cmp node tr1 l1 mid l2) as [Hnone Hsome]; [exact Hroom|by split|done|]. unfold tree_iterate_insert. fold tr1. split.
  - intros Hm. destruct (Hnone Hm) as (tr' & -> & H1 & H2 & H3 & H4). cbn [rbind]. eauto 10.
  - intros x rest Hm. destruct Hsome as (tr' & -> & H1 & H2 & H3 & H4 & H5 & path & l & p & b & r & m1 & m2 & Et & Hp & Er & Em & Eb & Ea); [by rewrite Hm|]. cbn [rbind]. rewrite Et, H1. cbn [root tr1] in *.
    rewrite (deref_plug _ _ _ _ _ _ Er) by by rewrite Ho. cbn [rbind]. destruct (before_path path (inorder l) l1 m1 Hp Eb) as (k & El1 & El); [rewrite Em in Hc; destruct Hc as (_ & Hc & _); by apply Forall_app in Hc as [? _]|].
    destruct (chk_traverse_room tr Hroom) as (Hl1 & Hl2 & _). assert (traverse_len tr' = traverse_len (chk_traverse tr)) as H6 by (rewrite H5; unfold chk_traverse; cbn; by destruct (_ <=? _)). clear H5.
    destruct (smallest_spec (traverse_len tr') (root tr) l (FL p b r :: path) ((p, TLss) :: (entry_of <$> path)) k m1) as (trav & Es & Hld).
    { rewrite H6. exact Hl2. } { by rewrite plug_cons. } { done. } { rewrite El1 in Hc1. by apply Forall_app in Hc1 as [_ ?]. } { rewrite Em in Hc2. by apply Forall_app in Hc2 as [? _]. } { by exists path, l, p, b, r. }
    change (entry_of <$> FL p b r :: path) with ((p, TLss) :: (entry_of <$> path)) in Es. rewrite Es. cbn [rbind].
    destruct Hld as (path0 & l0 & a & b0 & r0 & -> & Er0 & Exs). rewrite (deref_plug _ _ _ _ _ _ Er0) by by rewrite Ho. cbn [rbind].
    assert (m1 ++ after (FL p b r :: path) = mid ++ l2) as Eall by (cbn [after]; rewrite Ea, Em; by app_norm). rewrite Eall, Hm in Exs. injection Exs as -> Erest.
    exists (with_traverse tr' ((addr r0, TSelf) :: (entry_of <$> path0))), tr'. split; [done|]. split; [by repeat split; auto|]. split; [by rewrite H1, H6|]. split; [done|].
    eexists. split; [done|]. rewrite H1. cbn [root tr1]. destruct (levels_path (root tr) path0 _ Er0) as (xss & Hlv & Hxs). exists (inorder r0), xss. split; [|split; [done|split; [done|by rewrite Hxs]]].
    exists (FR l0 a b0 :: path0), r0. rewrite plug_cons. cbn [fill]. split; [done|]. split; [|done]. unfold zlen. rewrite length_fmap. cbn. lia.
Qed.

(** The whole loop: either the node is inserted and the body does not run, or it
    runs on the conflicting nodes and on those after them. *)
Lemma FROM_EXISTING_NODE_OF_spec {St R} tr l1 mid l2 (body : Z -> St -> res (St + R)) s :
  room tr -> tree_ok tr (l1 ++ mid ++ l2) -> addrs_ok (l1 ++ mid ++ l2) -> cut cmp node l1 mid l2 ->
  Forall (fun x => cmp x node = -1) l1 -> Forall (fun x => cmp x node = 0) mid ->
  (mid = [] -> exists tr', FROM_EXISTING_NODE_OF cmp tr node body s = Ret (tr', inl s) /\ tree_ok tr' (l1 ++ node :: l2) /\ (few (l1 ++ node :: l2) -> room tr')) /\
  (mid <> [] -> match each body (mid ++ l2) s with
     | Ret r => exists tr', FROM_EXISTING_NODE_OF cmp tr node body s = Ret (tr', r) /\ same_nodes tr tr'
     | Stop e => FROM_EXISTING_NODE_OF cmp tr node body s = Stop e
     end).
Proof.
  intros Hroom Hok Ha Hc Hc1 Hc2. destruct (FROM_EXISTING_init tr l1 mid l2 Hroom Hok Ha Hc Hc1 Hc2) as [Hnone Hsome]. unfold FROM_EXISTING_NODE_OF. split.
  - intros Hm. destruct (Hnone Hm) as (tr' & -> & H1 & H2 & _). cbn [rbind fst snd]. exists tr'. split; [by destruct (tsize _)|done].
  - intros Hm. destruct mid as [|x rest]; [done|]. destruct (Hsome x rest eq_refl) as (tr' & tr0 & -> & Hs & Hl & Hu & Hk). cbn [rbind fst snd]. destruct Hok as [Ho Hb Hn]. pose proof Hs as (S1 & S2 & S3 & S4).
    assert (forall trav, same_nodes tr (with_traverse tr0 trav)) as Hs' by (intros trav; unfold same_nodes; cbn; rewrite S1, S2, S3; tauto).
    pose proof (for_nodes_rule tree_successor (keeping tr0) (kept tr0) body) as H.
    specialize (H (fun xs tr1 => tree_successor_keeps tr0 xs tr1 Hu ltac:(by rewrite S1) Hl ltac:(by rewrite S1, Ho)) ((x :: rest) ++ l2) (tsize (root tr)) x tr' s (conj eq_refl Hk)).
    assert (length ((x :: rest) ++ l2) <= tsize (root tr))%nat as Hf by (rewrite tsize_inorder, Ho, (length_app l1); lia). specialize (H Hf (proj2 (proj2 (addrs_ok_app _ _ Ha)))).
    destruct (each body ((x :: rest) ++ l2) s) as [[s'|r]|e].
    + destruct H as (tr2 & -> & trav & ->). eauto.
    + destruct H as (tr2 & rest' & -> & trav & -> & _). eauto.
    + done.
Qed.
End Conflict.

End RvmLoops.
