(* ===== verification/RvmTrans.v ===== *)
(** * Transactions of the recoverable memory: code

    Model of src/subprojects/rvm/rvm/rvm_trans.c up to the commit, with the
    descriptors of rvm_utils.c and the lookup of rvm_map.c: rvm_begin_transaction,
    rvm_set_range, rvm_modify_bytes and rvm_abort_transaction.  Descriptors live in
    finite maps from addresses; one that is gone cannot be used.  The mapped memory
    is a finite map from addresses to what is stored there, a copy takes what each
    address holds.  [mallocs] are the answers of malloc still to come, true when the
    list is over.  There is one thread: the locks are left out. *)
From Stdlib Require Import ZArith Lia Bool.
From stdpp Require Import base list numbers gmap.
From S2P Require Import Prelude.
From S2P Require Import RvmOffset.
From S2P Require Import RvmTree.
Import RvmOffset RvmTree.
Open Scope Z_scope.

Module RvmTrans.

Abbreviation memory := (gmap Z Z).
Abbreviation buffer := (list (option Z)).

(** ** Descriptors *)

(** [range_t]; [data] is the buffer of old (later new) values, None for NULL. *)
Record range := Range {
  region : Z;
  seg_code : Z;
  nv_length : Z;
  nv_vmaddr : Z;
  nv_offset : rvm_offset;
  end_offset : rvm_offset;
  range_num : Z;
  data : option buffer;
  data_len : Z;
  nvaddr : bool
}.

(** [region_t], with the code of its segment, and [mem_region_t]. *)
Record region_t := Region { rgn_offset : rvm_offset; rgn_vmaddr : Z; rgn_seg_code : Z; n_uncommit : Z }.
Record mem_region := MemRegion { mr_vmaddr : Z; mr_length : Z; mr_region : Z }.

(** [int_tid_t]; times are pairs of seconds and microseconds. *)
Record int_tid := IntTid {
  uname : Z * Z;
  commit_stamp : Z * Z;
  flags : Z;
  range_tree : tree_root;
  x_ranges : option (list Z);
  x_ranges_alloc : Z;
  range_elim : Z;
  range_overlap : rvm_offset;
  log_size : rvm_offset
}.

(** The user's [rvm_tid_t]. *)
Record rvm_tid := RvmTid { struct_id_ok : bool; t_uname : Z * Z; t_tid : Z }.

(** The default log: whether it is open, its size, its lists and its counters. *)
Record log_t := Log {
  log_open : bool;
  dev_log_size : rvm_offset;
  tid_list : list Z;
  flush_list : list Z;
  n_abort : Z;
  n_flush_commit : Z;
  n_no_flush_commit : Z
}.

Record rvm := Rvm {
  inited : bool;
  rvm_optimizations : Z;
  unames : Z * Z;
  log : log_t;
  regions : gmap Z region_t;
  mem_regions : gmap Z mem_region;
  region_tree : tree_root;
  ranges : gmap Z range;
  tids : gmap Z int_tid;
  next : Z;
  mallocs : list bool;
  mem : memory
}.

(** ** The state monad *)
Definition M (A : Type) : Type := rvm -> res (A * rvm).
Definition ret {A} (a : A) : M A := fun s => Ret (a, s).
Definition mbnd {A B} (m : M A) (k : A -> M B) : M B := fun s => match m s with Ret (a, s') => k a s' | Stop e => Stop e end.
Definition halt {A} (e : stop) : M A := fun _ => Stop e.
Definition get {A} (f : rvm -> A) : M A := fun s => Ret (f s, s).
Definition lift {A} (r : res A) : M A := fun s => match r with Ret a => Ret (a, s) | Stop e => Stop e end.

Declare Scope rvm_scope.
Delimit Scope rvm_scope with rvm.
Notation "'let!' x ':=' m 'in' k" := (mbnd m (fun x => k)) (at level 10, x pattern, m at level 100, k at level 200) : rvm_scope.
Notation "m1 ';;!' m2" := (mbnd m1 (fun _ => m2)) (at level 199, right associativity) : rvm_scope.
Open Scope rvm_scope.

Definition with_unames (s : rvm) (x : Z * Z) : rvm := Rvm (inited s) (rvm_optimizations s) x (log s) (regions s) (mem_regions s) (region_tree s) (ranges s) (tids s) (next s) (mallocs s) (mem s).
Definition with_log (s : rvm) (x : log_t) : rvm := Rvm (inited s) (rvm_optimizations s) (unames s) x (regions s) (mem_regions s) (region_tree s) (ranges s) (tids s) (next s) (mallocs s) (mem s).
Definition with_regions (s : rvm) (x : gmap Z region_t) : rvm := Rvm (inited s) (rvm_optimizations s) (unames s) (log s) x (mem_regions s) (region_tree s) (ranges s) (tids s) (next s) (mallocs s) (mem s).
Definition with_ranges (s : rvm) (x : gmap Z range) : rvm := Rvm (inited s) (rvm_optimizations s) (unames s) (log s) (regions s) (mem_regions s) (region_tree s) x (tids s) (next s) (mallocs s) (mem s).
Definition with_tids (s : rvm) (x : gmap Z int_tid) : rvm := Rvm (inited s) (rvm_optimizations s) (unames s) (log s) (regions s) (mem_regions s) (region_tree s) (ranges s) x (next s) (mallocs s) (mem s).
Definition with_mem (s : rvm) (x : memory) : rvm := Rvm (inited s) (rvm_optimizations s) (unames s) (log s) (regions s) (mem_regions s) (region_tree s) (ranges s) (tids s) (next s) (mallocs s) x.

Definition set_unames (x : Z * Z) : M unit := fun s => Ret (tt, with_unames s x).
Definition set_log (x : log_t) : M unit := fun s => Ret (tt, with_log s x).
Definition set_regions (x : gmap Z region_t) : M unit := fun s => Ret (tt, with_regions s x).
Definition set_ranges (x : gmap Z range) : M unit := fun s => Ret (tt, with_ranges s x).
Definition set_tids (x : gmap Z int_tid) : M unit := fun s => Ret (tt, with_tids s x).
Definition set_mem (x : memory) : M unit := fun s => Ret (tt, with_mem s x).

(** malloc, and the address of a new descriptor (alloc_list_entry asserts that it
    gets one). *)
Definition tick (s : rvm) : rvm := Rvm (inited s) (rvm_optimizations s) (unames s) (log s) (regions s) (mem_regions s) (region_tree s) (ranges s) (tids s) (next s) (drop 1 (mallocs s)) (mem s).
Definition malloc : M bool := fun s => Ret (match mallocs s with b :: _ => b | [] => true end, tick s).
Definition bump (s : rvm) : rvm := Rvm (inited s) (rvm_optimizations s) (unames s) (log s) (regions s) (mem_regions s) (region_tree s) (ranges s) (tids s) (next s + 8) (mallocs s) (mem s).
Definition alloc_list_entry : M Z := fun s => Ret (next s, bump s).

(** Descriptors by address. *)
Definition fetch {A} (o : option A) : M A := match o with Some a => ret a | None => halt CUndef end.
Definition get_range (a : Z) : M range := let! rs := get ranges in fetch (rs !! a).
Definition put_range (a : Z) (r : range) : M unit := let! rs := get ranges in set_ranges (<[a := r]> rs).
Definition get_region (a : Z) : M region_t := let! rs := get regions in fetch (rs !! a).
Definition get_int_tid (a : Z) : M int_tid := let! ts := get tids in fetch (ts !! a).
Definition put_int_tid (a : Z) (t : int_tid) : M unit := let! ts := get tids in set_tids (<[a := t]> ts).

Definition massert (b : bool) : M unit := if b then ret tt else halt CAbort.

(** [CRITICAL(region->count_lock, region->n_uncommit += d)]. *)
Definition count_uncommit (a d : Z) : M unit :=
  let! r := get_region a in
  let! rs := get regions in
  set_regions (<[a := Region (rgn_offset r) (rgn_vmaddr r) (rgn_seg_code r) (n_uncommit r + d)]> rs).

(** ** Copies *)

(** What the [n] addresses from [a] on hold, and the memory with that put there. *)
Definition cells (m : memory) (a n : Z) : buffer := (fun i => m !! (a + Z.of_nat i)) <$> seq 0 (Z.to_nat n).
Fixpoint put (a : Z) (xs : buffer) (m : memory) : memory :=
  match xs with
  | [] => m
  | x :: xs => put (a + 1) xs (partial_alter (fun _ => x) a m)
  end.

(** A buffer of [n] bytes, and the store of [xs] from its byte [i] on. *)
Definition new_buffer (n : Z) : buffer := replicate (Z.to_nat n) None.
Definition blit (i : Z) (xs buf : buffer) : option buffer :=
  if (0 <=? i) && (i + zlen xs <=? zlen buf)
  then Some (take (Z.to_nat i) buf ++ xs ++ drop (Z.to_nat i + length xs) buf) else None.
(** [BCOPY] to a buffer and from one; nothing is touched when the length is 0. *)
Definition bcopy_to (xs : buffer) (i : Z) (buf : option buffer) : M (option buffer) :=
  match xs with
  | [] => ret buf
  | _ => match buf with Some b => let! b := fetch (blit i xs b) in ret (Some b) | None => halt CUndef end
  end.
Definition bcopy_from (buf : option buffer) (n : Z) : M buffer :=
  if n =? 0 then ret [] else
  match buf with Some b => if n <=? zlen b then ret (take (Z.to_nat n) b) else halt CUndef | None => halt CUndef end.

Definition LENGTH_MASK := 2 ^ 64 - 8.
Definition ROUND_TO_LENGTH (len : Z) : Z := Z.land (u64 (len + 7)) LENGTH_MASK.
Definition CHOP_TO_LENGTH (len : Z) : Z := Z.land len LENGTH_MASK.
Definition ALIGNED_LEN (addr len : Z) : Z := u64 (ROUND_TO_LENGTH (u64 (addr + len)) - CHOP_TO_LENGTH addr).
Definition RANGE_LEN (r : range) : Z := ALIGNED_LEN (nv_vmaddr r) (nv_length r).

(** ** Return codes, flags and modes *)
Definition RVM_SUCCESS := 0.
Definition RVM_EINIT := 200.
Definition RVM_EIO := 202.
Definition RVM_ELOG := 204.
Definition RVM_EMODE := 206.
Definition RVM_ENO_MEMORY := 208.
Definition RVM_ENOT_MAPPED := 209.
Definition RVM_ETID := 222.
Definition RVM_ETOO_BIG := 223.
Definition RVM_COALESCE_RANGES := 1.
Definition RVM_COALESCE_TRANS := 2.
Definition RVM_ALL_OPTIMIZATIONS := Z.lor RVM_COALESCE_RANGES RVM_COALESCE_TRANS.
Definition RESTORE_FLAG := 2 * RVM_COALESCE_TRANS.
Definition FLUSH_FLAG := 2 * RESTORE_FLAG.
Definition TID (t : int_tid) (x : Z) : bool := negb (Z.land (flags t) x =? 0).
Inductive rvm_mode := restore | no_restore | flush | no_flush.

(** ** Ranges *)
Definition zero_offset : rvm_offset := rvm_mk_offset 0 0.

Definition make_range : M Z :=
  let! a := alloc_list_entry in
  put_range a (Range 0 0 0 0 zero_offset zero_offset 0 None 0 false) ;;!
  ret a.

Definition free_range (a : Z) : M unit :=
  let! _ := get_range a in
  let! rs := get ranges in
  set_ranges (delete a rs).

Definition with_data (r : range) (d : option buffer) (n : Z) : range :=
  Range (region r) (seg_code r) (nv_length r) (nv_vmaddr r) (nv_offset r) (end_offset r) (range_num r) d n (nvaddr r).
Definition with_num (r : range) (n : Z) : range :=
  Range (region r) (seg_code r) (nv_length r) (nv_vmaddr r) (nv_offset r) (end_offset r) n (data r) (data_len r) (nvaddr r).
Definition with_vmaddr (r : range) (v : Z) : range :=
  Range (region r) (seg_code r) (nv_length r) v (nv_offset r) (end_offset r) (range_num r) (data r) (data_len r) (nvaddr r).
Definition with_extent (r : range) (n : Z) (o e : rvm_offset) : range :=
  Range (region r) (seg_code r) n (nv_vmaddr r) o e (range_num r) (data r) (data_len r) (nvaddr r).

Definition build_range (rgn dest len : Z) : M Z :=
  let! a := make_range in
  let! g := get_region rgn in
  let o := rvm_add_length_to_offset (rgn_offset g) (u64 (dest - rgn_vmaddr g)) in
  put_range a (Range rgn (rgn_seg_code g) len dest o (rvm_add_length_to_offset o len) 0 None 0 false) ;;!
  ret a.

Definition save_ov (a : Z) : M bool :=
  let! r := get_range a in
  let n := RANGE_LEN r in
  let! ok := malloc in
  if ok : bool then
    let! m := get mem in
    let! b := bcopy_to (cells m (nv_vmaddr r) (nv_length r)) 0 (Some (new_buffer n)) in
    put_range a (with_data r b n) ;;!
    ret true
  else
    put_range a (with_data r None n) ;;!
    ret false.

(** *** Comparators *)

(** A descriptor that is gone compares as nothing: the trees stop at it. *)
Definition compare_with {A} (f : A -> A -> Z) (x y : option A) : Z :=
  match x, y with Some x, Some y => f x y | _, _ => 2 end.

Definition cmp_range_num (s : rvm) (a b : Z) : Z :=
  compare_with (fun r1 r2 => if range_num r1 >? range_num r2 then 1 else if range_num r1 <? range_num r2 then -1 else 0)
    (ranges s !! a) (ranges s !! b).

Definition region_partial_include (s : rvm) (a b : Z) : Z :=
  compare_with (fun r1 r2 =>
    if region r1 =? region r2 then
      if RVM_OFFSET_GTR (nv_offset r1) (end_offset r2) then 1
      else if RVM_OFFSET_LSS (end_offset r1) (nv_offset r2) then -1 else 0
    else if region r1 >? region r2 then 1 else -1) (ranges s !! a) (ranges s !! b).

Definition mem_total_include (r1 r2 : mem_region) : Z :=
  let addr1 := mr_vmaddr r1 in
  let addr2 := mr_vmaddr r2 in
  let end1 := u64 (addr1 + mr_length r1 - 1) in
  let end2 := u64 (addr2 + mr_length r2 - 1) in
  if (addr1 >=? addr2) && (addr1 <=? end2) && (end1 <=? end2) then 0
  else if addr1 <? addr2 then -1 else 1.

(** The region of the range, NULL when no mapped region includes it. *)
Definition find_whole_range (dest len : Z) : M Z :=
  let! ms := get mem_regions in
  let! tr := get region_tree in
  let! node := lift (tree_lookup (fun _ p => compare_with mem_total_include (Some (MemRegion dest len 0)) (ms !! p)) 0 (root tr)) in
  if node =? 0 then ret 0 else let! n := fetch (ms !! node) in ret (mr_region n).

(** *** Transaction descriptors *)
Definition with_tree (t : int_tid) (tr : tree_root) : int_tid :=
  IntTid (uname t) (commit_stamp t) (flags t) tr (x_ranges t) (x_ranges_alloc t) (range_elim t) (range_overlap t) (log_size t).
Definition with_x_ranges (t : int_tid) (x : option (list Z)) (n : Z) : int_tid :=
  IntTid (uname t) (commit_stamp t) (flags t) (range_tree t) x n (range_elim t) (range_overlap t) (log_size t).
Definition with_savings (t : int_tid) (e : Z) (o : rvm_offset) : int_tid :=
  IntTid (uname t) (commit_stamp t) (flags t) (range_tree t) (x_ranges t) (x_ranges_alloc t) e o (log_size t).
Definition with_stamp (t : int_tid) (c : Z * Z) : int_tid :=
  IntTid (uname t) c (flags t) (range_tree t) (x_ranges t) (x_ranges_alloc t) (range_elim t) (range_overlap t) (log_size t).

Definition make_uname : M (Z * Z) :=
  let! u := get unames in
  (if u.2 + 1 >=? 1000000 then set_unames (u.1 + 1, 0) else set_unames (u.1, u.2 + 1)) ;;!
  ret u.

Definition make_tid (mode : rvm_mode) : M Z :=
  let! a := alloc_list_entry in
  let! u := make_uname in
  let! opts := get rvm_optimizations in
  let f := Z.land opts RVM_ALL_OPTIMIZATIONS in
  let f := match mode with restore => Z.lor f RESTORE_FLAG | _ => f end in
  put_int_tid a (IntTid u (0, 0) f init_tree_root None 0 0 zero_offset zero_offset) ;;!
  ret a.

(** A loop over the nodes of the tree of [tid]; the tree is written back. *)
Definition run {R} (body : Z -> M (option R)) (x : Z) (s : rvm) : res (rvm + (R * rvm)) :=
  match body x s with Ret (None, s) => Ret (inl s) | Ret (Some r, s) => Ret (inr (r, s)) | Stop e => Stop e end.
Definition over_tree {R} (loop : tree_root -> (Z -> rvm -> res (rvm + (R * rvm))) -> rvm -> res (tree_root * (rvm + (R * rvm))))
    (tid : Z) (body : Z -> M (option R)) : M (option R) :=
  let! t := get_int_tid tid in
  fun s =>
    let* out := loop (range_tree t) (run body) s in
    let '(tr, r) := out in
    let '(v, s) := match r with inl s => (None, s) | inr (v, s) => (Some v, s) end in
    (let! t := get_int_tid tid in put_int_tid tid (with_tree t tr) ;;! ret v) s.

Definition free_tid (tid : Z) : M unit :=
  over_tree (fun tr body s => UNLINK_NODES_OF tr body s) tid (fun r => free_range r ;;! ret (None : option unit)) ;;!
  let! ts := get tids in
  set_tids (delete tid ts).

(** *** Checks of the user's descriptor *)
Definition bad_tid (rt : option rvm_tid) : Z :=
  match rt with None => RVM_ETID | Some t => if struct_id_ok t then RVM_SUCCESS else RVM_ETID end.

Definition same_time (x y : Z * Z) : bool := (x.1 =? y.1) && (x.2 =? y.2).
(** 0 for NULL. *)
Definition get_tid (rt : option rvm_tid) : M Z :=
  if negb (bad_tid rt =? RVM_SUCCESS) then ret 0 else
  match rt with
  | None => ret 0
  | Some u =>
      if (t_uname u).1 =? 0 then ret 0 else
      if t_tid u =? 0 then ret 0 else
      let! t := get_int_tid (t_tid u) in
      ret (if same_time (t_uname u) (uname t) && same_time (commit_stamp t) (0, 0) then t_tid u else 0)
  end.

(** ** rvm_set_range *)
Definition X_RANGES_INCR := 5.

Definition x_ranges_len (t : int_tid) : Z := match x_ranges t with Some l => zlen l | None => 0 end.

(** Room for [len] more entries of x_ranges.  When realloc fails the vector is lost. *)
Definition alloc_x_ranges (tid len : Z) : M bool :=
  let! t := get_int_tid tid in
  if x_ranges_len t + len >? x_ranges_alloc t then
    let alloc := x_ranges_alloc t + (if len <=? X_RANGES_INCR then X_RANGES_INCR else len) in
    let! ok := malloc in
    if ok : bool then put_int_tid tid (with_x_ranges t (Some (default [] (x_ranges t))) alloc) ;;! ret true
    else put_int_tid tid (with_x_ranges t None alloc) ;;! ret false
  else ret true.

(** [tid->x_ranges[tid->x_ranges_len++] = range]. *)
Definition push_x_range (tid a : Z) : M unit :=
  let! t := get_int_tid tid in
  let! l := fetch (x_ranges t) in
  put_int_tid tid (with_x_ranges t (Some (l ++ [a])) (x_ranges_alloc t)).

(** The counters that [elim] and [overlap] point to. *)
Definition count_elim (tid : Z) : M unit :=
  let! t := get_int_tid tid in put_int_tid tid (with_savings t (u64 (range_elim t + 1)) (range_overlap t)).
Definition count_overlap (tid : Z) (f : rvm_offset -> rvm_offset) : M unit :=
  let! t := get_int_tid tid in put_int_tid tid (with_savings t (range_elim t) (f (range_overlap t))).

Definition contained (n r : range) : bool :=
  RVM_OFFSET_GEQ (nv_offset n) (nv_offset r) && RVM_OFFSET_LEQ (end_offset n) (end_offset r).

(** The new bounds of the composite range, and the savings. *)
Definition extend (n r : range) : (range * (rvm_offset -> rvm_offset)) :=
  let '(o, e, f) :=
    if RVM_OFFSET_LSS (nv_offset r) (nv_offset n)
    then (nv_offset r, end_offset n, fun ov => rvm_add_offsets ov (rvm_sub_offsets (end_offset r) (nv_offset n)))
    else if RVM_OFFSET_GTR (end_offset r) (end_offset n)
    then (nv_offset n, end_offset r, fun ov => rvm_add_offsets ov (rvm_sub_offsets (end_offset n) (nv_offset r)))
    else (nv_offset n, end_offset n, fun ov => rvm_add_length_to_offset ov (nv_length r)) in
  (with_extent n (RVM_OFFSET_TO_LENGTH (rvm_sub_offsets e o)) o e, f).

(** The loop body of find_overlap: Some (found, retval) leaves it. *)
Definition overlap_body (tid new_range : Z) (cmp_func : rvm -> Z -> Z -> Z) (a : Z) : M (option (bool * Z)) :=
  let! c := get (fun s => cmp_func s new_range a) in
  if negb (c =? 0) then ret (Some (false, RVM_SUCCESS)) else
  let! ok := alloc_x_ranges tid 1 in
  if negb ok then ret (Some (true, RVM_ENO_MEMORY)) else
  push_x_range tid a ;;!
  count_elim tid ;;!
  let! n := get_range new_range in
  let! r := get_range a in
  let! t := get_int_tid tid in
  if (x_ranges_len t =? 1) && contained n r then
    count_overlap tid (fun ov => rvm_add_length_to_offset ov (nv_length n)) ;;!
    ret (Some (true, RVM_SUCCESS))
  else
    let '(n', f) := extend n r in
    count_overlap tid f ;;!
    put_range new_range n' ;;!
    ret None.

Definition find_overlap (tid new_range : Z) (cmp_func : rvm -> Z -> Z -> Z) : M (bool * Z) :=
  let! t := get_int_tid tid in
  put_int_tid tid (with_x_ranges t ((fun _ => []) <$> x_ranges t) (x_ranges_alloc t)) ;;!
  let! cmp := get cmp_func in
  let! r := over_tree (fun tr body s => FROM_EXISTING_NODE_OF cmp tr new_range body s) tid (overlap_body tid new_range cmp_func) in
  ret (default (false, RVM_SUCCESS) r).

Definition add_new_range (tid new_range : Z) : M Z :=
  let! t := get_int_tid tid in
  let! n := get_range new_range in
  let! ok :=
    if negb (nv_length n =? 0) then
      let! ok := if TID t RESTORE_FLAG then save_ov new_range else ret true in
      if negb ok then free_range new_range ;;! ret false
      else count_uncommit (region n) 1 ;;! ret true
    else ret true in
  if negb ok then ret RVM_ENO_MEMORY else
  let! n := get_range new_range in
  put_range new_range (with_num n (n_nodes (range_tree t) + 1)) ;;!
  let! cmp := get cmp_range_num in
  let! i := lift (tree_insert cmp new_range (range_tree t)) in
  put_int_tid tid (with_tree t i.2) ;;!
  massert i.1 ;;!
  ret RVM_SUCCESS.

(** [tree_delete(&tid->range_tree, node, region_partial_include)], asserted. *)
Definition delete_node (tid a : Z) : M unit :=
  let! t := get_int_tid tid in
  let! cmp := get region_partial_include in
  let! d := lift (tree_delete cmp a (range_tree t)) in
  put_int_tid tid (with_tree t d.2) ;;!
  massert d.1.

(** The copy of old values to the buffer of the new range: those before the range
    [r], its own and, when it is the last, those after it.  [v] and [i] are vmaddr
    and data_addr. *)
Definition copy_old (new_range : Z) (last : bool) (r : range) (v i : Z) : M (Z * Z) :=
  let! m := get mem in
  let! n := get_range new_range in
  let len := if v <? nv_vmaddr r then u64 (nv_vmaddr r - v) else 0 in
  let! b := bcopy_to (cells m v len) i (data n) in
  let v := u64 (v + len) in
  let i := i + len in
  let! old := bcopy_from (data r) (nv_length r) in
  let! b := bcopy_to old i b in
  let v := u64 (v + nv_length r) in
  let i := i + nv_length r in
  let stop := u64 (nv_vmaddr n + nv_length n) in
  let! b := if last && (stop >? v) then bcopy_to (cells m v (u64 (stop - v))) i b else ret b in
  put_range new_range (with_data n b (data_len n)) ;;!
  ret (v, i).

(** The loop over [x_ranges].  All but the first node leave the tree. *)
Fixpoint merge_loop (tid new_range : Z) (restoring first : bool) (xs : list Z) (v i : Z) : M unit :=
  match xs with
  | [] => ret tt
  | a :: xs =>
      let! r := get_range a in
      let! vi := if restoring then copy_old new_range (match xs with [] => true | _ => false end) r v i else ret (v, i) in
      (if first then ret tt else delete_node tid a ;;! free_range a) ;;!
      merge_loop tid new_range restoring false xs vi.1 vi.2
  end.

(** The new range was inserted. *)
Definition keep_range (tid rgn new_range : Z) (t : int_tid) : M Z :=
  let! ok := if TID t RESTORE_FLAG then save_ov new_range else ret true in
  if negb ok then delete_node tid new_range ;;! free_range new_range ;;! ret RVM_ENO_MEMORY
  else count_uncommit rgn 1 ;;! ret RVM_SUCCESS.

(** It goes, with the other ranges found, into the first of them.  The check after
    malloc is of the range found, not of the new one. *)
Definition merge_found (tid rgn new_range : Z) (t : int_tid) : M Z :=
  let! xs := fetch (x_ranges t) in
  let! first := fetch (head xs) in
  let! r := get_range first in
  let! n := get_range new_range in
  let n := if nv_vmaddr r <? nv_vmaddr n then with_vmaddr n (nv_vmaddr r) else n in
  put_range new_range n ;;!
  let! no_memory :=
    if TID t RESTORE_FLAG then
      let! ok := malloc in
      put_range new_range (with_data n (if ok then Some (new_buffer (RANGE_LEN n)) else None) (RANGE_LEN n)) ;;!
      ret (match data r with None => true | Some _ => false end)
    else ret false in
  if no_memory : bool then ret RVM_ENO_MEMORY else
  merge_loop tid new_range (TID t RESTORE_FLAG) true xs (nv_vmaddr n) 0 ;;!
  let! n := get_range new_range in
  let! r := get_range first in
  let r := if TID t RESTORE_FLAG then with_data r (data n) (data_len n) else r in
  put_range first (with_extent (with_vmaddr r (nv_vmaddr n)) (nv_length n) (nv_offset n) (end_offset n)) ;;!
  free_range new_range ;;!
  count_uncommit rgn (- (zlen xs - 1)) ;;!
  ret RVM_SUCCESS.

Definition merge_range (tid rgn new_range : Z) : M Z :=
  let! t := get_int_tid tid in
  if negb (TID t RVM_COALESCE_RANGES) then add_new_range tid new_range else
  let! f := find_overlap tid new_range region_partial_include in
  if f.1 then free_range new_range ;;! ret f.2 else
  let! t := get_int_tid tid in
  if x_ranges_len t =? 0 then keep_range tid rgn new_range t else merge_found tid rgn new_range t.

Definition rvm_set_range (rt : option rvm_tid) (dest len : Z) : M Z :=
  let! init := get inited in
  if negb init then ret RVM_EINIT else
  let! opts := get rvm_optimizations in
  if negb (opts =? 0) && (len =? 0) then ret RVM_SUCCESS else
  let! tid := get_tid rt in
  if tid =? 0 then ret RVM_ETID else
  let! rgn := find_whole_range dest len in
  if rgn =? 0 then ret RVM_ENOT_MAPPED else
  let! new_range := build_range rgn dest len in
  merge_range tid rgn new_range.

(** [src] is what the source holds.  The length of the copy is cast to int. *)
Definition rvm_modify_bytes (rt : option rvm_tid) (dest : Z) (src : buffer) : M Z :=
  let! r := rvm_set_range rt dest (zlen src) in
  if negb (r =? RVM_SUCCESS) then ret r else
  let n := s32 (zlen src) in
  if n <? 0 then halt CUndef else
  let! m := get mem in
  set_mem (put dest (take (Z.to_nat n) src) m) ;;!
  ret RVM_SUCCESS.

(** ** rvm_begin_transaction and rvm_abort_transaction *)

(** [move_list_entry] of a transaction to the end of the log's list, and off it. *)
Definition enlist (tid : Z) : M unit :=
  let! l := get log in
  set_log (Log (log_open l) (dev_log_size l) (tid_list l ++ [tid]) (flush_list l) (n_abort l) (n_flush_commit l) (n_no_flush_commit l)).
Definition delist (tid : Z) : M unit :=
  let! l := get log in
  massert (bool_decide (tid ∈ tid_list l)) ;;!
  set_log (Log (log_open l) (dev_log_size l) (filter (fun t => t <> tid) (tid_list l)) (flush_list l) (n_abort l) (n_flush_commit l) (n_no_flush_commit l)).

Definition rvm_begin_transaction (rt : option rvm_tid) (mode : rvm_mode) : M (Z * option rvm_tid) :=
  let! init := get inited in
  if negb init then ret (RVM_EINIT, rt) else
  if negb (bad_tid rt =? RVM_SUCCESS) then ret (bad_tid rt, rt) else
  let! l := get log in
  if negb (log_open l) then ret (RVM_ELOG, rt) else
  if match mode with restore | no_restore => false | _ => true end then ret (RVM_EMODE, rt) else
  let! tid := make_tid mode in
  let! t := get_int_tid tid in
  enlist tid ;;!
  ret (RVM_SUCCESS, Some (RvmTid true (uname t) tid)).

Definition restore_range (restoring : bool) (a : Z) : M (option unit) :=
  let! r := get_range a in
  (if negb (nv_length r =? 0) then
     (if restoring then
        let! xs := bcopy_from (data r) (nv_length r) in
        let! m := get mem in
        set_mem (put (nv_vmaddr r) xs m)
      else ret tt) ;;!
     count_uncommit (region r) (-1)
   else ret tt) ;;!
  free_range a ;;!
  ret None.

Definition restore_ov (tid : Z) : M unit :=
  let! t := get_int_tid tid in
  let! _ := over_tree (fun tr body s => UNLINK_REVERSE_NODES_OF tr body s) tid (restore_range (TID t RESTORE_FLAG)) in
  ret tt.

Definition rvm_abort_transaction (rt : option rvm_tid) : M (Z * option rvm_tid) :=
  let! init := get inited in
  if negb init then ret (RVM_EINIT, rt) else
  let! tid := get_tid rt in
  if tid =? 0 then ret (RVM_ETID, rt) else
  delist tid ;;!
  let! t := get_int_tid tid in
  put_int_tid tid (with_stamp t (1, (commit_stamp t).2)) ;;!
  restore_ov tid ;;!
  let! l := get log in
  set_log (Log (log_open l) (dev_log_size l) (tid_list l) (flush_list l) (n_abort l + 1) (n_flush_commit l) (n_no_flush_commit l)) ;;!
  free_tid tid ;;!
  ret (RVM_SUCCESS, (fun u => RvmTid (struct_id_ok u) (t_uname u) 0) <$> rt).

End RvmTrans.
