(* ===== verification/RvmCells.v ===== *)
(** * Copies of recoverable memory

    What the copies of the transaction code do: a buffer filled with the cells of a
    memory and put back restores them.  Also the alignment macros, the rules to run
    the code of RvmTrans step by step, and the state of the library that its
    transactions do not touch. *)
From Stdlib Require Import ZArith Lia Bool.
From stdpp Require Import base list numbers gmap.
From S2P Require Import Prelude.
From S2P Require Import RvmOffset.
From S2P Require Import RvmTree.
From S2P Require Import RvmTrans.
Import RvmOffset RvmTree RvmTrans.
Open Scope Z_scope.

Module RvmCells.

Open Scope rvm_scope.

Lemma cells_lookup m a n i : 0 <= i < n -> cells m a n !! Z.to_nat i = Some (m !! (a + i)).
Proof. intros H. unfold cells. rewrite list_lookup_fmap, lookup_seq_lt by lia. cbn. by rewrite Z2Nat.id by lia. Qed.
Lemma length_cells m a n : length (cells m a n) = Z.to_nat n.
Proof. unfold cells. by rewrite length_fmap, length_seq. Qed.
Lemma zlen_cells m a n : 0 <= n -> zlen (cells m a n) = n.
Proof. intros. unfold zlen. rewrite length_cells. lia. Qed.

Lemma cells_app m a n k : 0 <= n -> 0 <= k -> cells m a (n + k) = cells m a n ++ cells m (a + n) k.
Proof.
  intros Hn Hk. unfold cells. rewrite Z2Nat.inj_add, seq_app, fmap_app by done. f_equal.
  replace (0 + Z.to_nat n)%nat with (Z.to_nat n + 0)%nat by lia. rewrite <- fmap_add_seq, <- list_fmap_compose. apply list_fmap_ext. intros i x _. cbn. f_equal. lia.
Qed.

Lemma cells_eq m m' a n : (forall x, a <= x < a + n -> m !! x = m' !! x) -> cells m a n = cells m' a n.
Proof. intros H. unfold cells. apply list_fmap_ext. intros i x [-> Hi]%lookup_seq. cbn. apply H. lia. Qed.

Lemma put_lookup xs : forall a m x, put a xs m !! x = if decide (a <= x < a + zlen xs) then default None (xs !! Z.to_nat (x - a)) else m !! x.
Proof.
  induction xs as [|c xs IH]; intros a m x; cbn [put].
  - destruct (decide _) as [H|]; [rewrite zlen_nil in H; lia|done].
  - pose proof (zlen_nonneg xs). rewrite IH, zlen_cons. destruct (decide (a + 1 <= x < a + 1 + zlen xs)), (decide (a <= x < a + (1 + zlen xs))); try lia.
    + assert (Z.to_nat (x - a) = S (Z.to_nat (x - (a + 1)))) as -> by lia. done.
    + assert (x = a) as -> by lia. rewrite lookup_partial_alter_eq, Z.sub_diag. done.
    + rewrite lookup_partial_alter_ne by lia. done.
Qed.

Lemma put_cells m0 a n m x : 0 <= n -> put a (cells m0 a n) m !! x = if decide (a <= x < a + n) then m0 !! x else m !! x.
Proof.
  intros Hn. rewrite put_lookup, zlen_cells by done. destruct (decide _) as [H|]; [|done]. rewrite cells_lookup by lia. cbn. f_equal. lia.
Qed.

(** Running the copies. *)
Lemma run_bcopy_to {A} xs i b (f : option buffer -> M A) s : 0 <= i -> i + zlen xs <= zlen b ->
  mbnd (bcopy_to xs i (Some b)) f s = f (Some (take (Z.to_nat i) b ++ xs ++ drop (Z.to_nat i + length xs) b)) s.
Proof.
  intros Hi Hl. destruct xs as [|x xs]; cbn [bcopy_to].
  - cbn. by rewrite Nat.add_0_r, take_drop.
  - unfold mbnd, blit. destruct (Z.leb_spec 0 i); [|lia]. destruct (Z.leb_spec (i + zlen (x :: xs)) (zlen b)); [|lia]. done.
Qed.
Lemma run_bcopy_from {A} b n (f : buffer -> M A) s : 0 <= n <= zlen b -> mbnd (bcopy_from (Some b) n) f s = f (take (Z.to_nat n) b) s.
Proof. intros H. unfold bcopy_from. destruct (Z.eqb_spec n 0) as [->|]; [by rewrite take_0|]. destruct (Z.leb_spec n (zlen b)); [done|lia]. Qed.

(** A buffer whose first [i] bytes are the cells from [a] on, extended. *)
Definition holds (b : buffer) (m : memory) (a i : Z) : Prop := 0 <= i <= zlen b /\ take (Z.to_nat i) b = cells m a i.

Lemma holds_extend b m a i k : holds b m a i -> 0 <= k -> i + k <= zlen b ->
  let b' := take (Z.to_nat i) b ++ cells m (a + i) k ++ drop (Z.to_nat i + length (cells m (a + i) k)) b in
  holds b' m a (i + k) /\ zlen b' = zlen b.
Proof.
  intros [Hi Hb] Hk Hl b'. assert (zlen b' = zlen b) as Hz.
  { unfold b', zlen in *. rewrite !length_app, length_take, length_drop, length_cells. lia. }
  split; [|done]. split; [lia|]. unfold b'. rewrite cells_app by lia. rewrite Hb, app_assoc. apply take_app_length'. rewrite length_app, !length_cells. lia.
Qed.

(** ** Alignment *)
Lemma land_mask x : word x -> Z.land x LENGTH_MASK = x - x mod 8.
Proof.
  intros [H0 H1]. unfold LENGTH_MASK. change (2 ^ 64 - 8) with (Z.ldiff (Z.ones 64) (Z.ones 3)).
  assert (Z.land x (Z.ldiff (Z.ones 64) (Z.ones 3)) = Z.ldiff (Z.land x (Z.ones 64)) (Z.ones 3)) as ->.
  { apply Z.bits_inj'. intros n Hn. rewrite Z.land_spec, !Z.ldiff_spec, Z.land_spec. by destruct (Z.testbit x n), (Z.testbit (Z.ones 64) n). }
  rewrite Z.land_ones, Z.mod_small, Z.ldiff_ones_r, Z.shiftl_mul_pow2, Z.shiftr_div_pow2 by lia. pose proof (Z.div_mod x (2 ^ 3) ltac:(lia)). change (2 ^ 3) with 8 in *. lia.
Qed.

(** The buffer of a range has room for the range. *)
Lemma ALIGNED_LEN_room a n : 0 <= a -> 0 <= n -> a + n <= 2 ^ 64 - 8 -> n <= ALIGNED_LEN a n.
Proof.
  intros Ha Hn Hl. unfold ALIGNED_LEN, ROUND_TO_LENGTH, CHOP_TO_LENGTH. rewrite (uwrap_small 64 (a + n)), (uwrap_small 64 (a + n + 7)) by lia.
  rewrite !land_mask by (unfold word; lia). pose proof (Z.mod_pos_bound (a + n + 7) 8 ltac:(lia)). pose proof (Z.mod_pos_bound a 8 ltac:(lia)).
  pose proof (Z.mod_le a 8 ltac:(lia) ltac:(lia)). rewrite uwrap_small by lia. lia.
Qed.

(** ** Running the code *)
Section Run.
Context {A B : Type}.

Lemma run_ret (a : A) (k : A -> M B) s : mbnd (ret a) k s = k a s.
Proof. done. Qed.
Lemma run_bind {C} (m : M C) (f : C -> M A) (k : A -> M B) s : mbnd (mbnd m f) k s = mbnd m (fun c => mbnd (f c) k) s.
Proof. unfold mbnd. by destruct (m s) as [[c s']|e]. Qed.
Lemma run_eq (m : M A) (k : A -> M B) s a s' : m s = Ret (a, s') -> mbnd m k s = k a s'.
Proof. intros E. unfold mbnd. by rewrite E. Qed.
Lemma run_get (f : rvm -> A) (k : A -> M B) s : mbnd (get f) k s = k (f s) s.
Proof. done. Qed.
Lemma run_fetch (o : option A) a (k : A -> M B) s : o = Some a -> mbnd (fetch o) k s = k a s.
Proof. by intros ->. Qed.
Lemma run_lift (r : res A) a (k : A -> M B) s : r = Ret a -> mbnd (lift r) k s = k a s.
Proof. by intros ->. Qed.
Lemma run_massert b (k : unit -> M B) s : b = true -> mbnd (massert b) k s = k tt s.
Proof. by intros ->. Qed.

Lemma run_get_range a r (k : range -> M B) s : ranges s !! a = Some r -> mbnd (get_range a) k s = k r s.
Proof. intros E. unfold mbnd, get_range, mbnd, get. by rewrite E. Qed.
Lemma run_get_region a r (k : region_t -> M B) s : regions s !! a = Some r -> mbnd (get_region a) k s = k r s.
Proof. intros E. unfold mbnd, get_region, mbnd, get. by rewrite E. Qed.
Lemma run_get_int_tid a t (k : int_tid -> M B) s : tids s !! a = Some t -> mbnd (get_int_tid a) k s = k t s.
Proof. intros E. unfold mbnd, get_int_tid, mbnd, get. by rewrite E. Qed.
Lemma run_put_range a r (k : unit -> M B) s : mbnd (put_range a r) k s = k tt (with_ranges s (<[a := r]> (ranges s))).
Proof. done. Qed.
Lemma run_put_int_tid a t (k : unit -> M B) s : mbnd (put_int_tid a t) k s = k tt (with_tids s (<[a := t]> (tids s))).
Proof. done. Qed.
Lemma run_set_mem m (k : unit -> M B) s : mbnd (set_mem m) k s = k tt (with_mem s m).
Proof. done. Qed.
(** malloc when it does not fail. *)
Lemma tick_id s : mallocs s = [] -> tick s = s.
Proof. intros E. destruct s. cbn in E. unfold tick. cbn. by rewrite E. Qed.
Lemma run_malloc_ok (k : bool -> M B) s : mallocs s = [] -> mbnd malloc k s = k true s.
Proof. intros E. unfold mbnd, malloc. by rewrite E, tick_id. Qed.

End Run.

Lemma run_free_range {B} a r (k : unit -> M B) s : ranges s !! a = Some r -> mbnd (free_range a) k s = k tt (with_ranges s (delete a (ranges s))).
Proof. intros E. unfold free_range. rewrite run_bind. by rewrite (run_get_range a r). Qed.

(** The region's count after a change by [d]. *)
Definition recount (rs : gmap Z region_t) (a d : Z) : gmap Z region_t :=
  alter (fun g => Region (rgn_offset g) (rgn_vmaddr g) (rgn_seg_code g) (n_uncommit g + d)) a rs.
Lemma run_count {B} a d g (k : unit -> M B) s : regions s !! a = Some g -> mbnd (count_uncommit a d) k s = k tt (with_regions s (recount (regions s) a d)).
Proof.
  intros E. unfold count_uncommit, recount. rewrite run_bind, (run_get_region a g) by done. rewrite run_bind, run_get. unfold mbnd, set_regions. do 2 f_equal.
  apply map_eq. intros i. destruct (decide (i = a)) as [->|Hn]; [by rewrite lookup_insert_eq, lookup_alter_eq, E|by rewrite lookup_insert_ne, lookup_alter_ne].
Qed.

End RvmCells.
