(* ===== verification/RvmTx.v ===== *)
(** * Transactions of the recoverable memory: state and abort

    The invariant of an open transaction, and what rvm_abort_transaction does: it
    puts the old values of the ranges back, last one first, and takes the
    transaction's share out of the counts of the regions. *)
From Stdlib Require Import ZArith Lia Bool.
From stdpp Require Import base list numbers gmap sorting.
From S2P Require Import Prelude.
From S2P Require Import RvmOffset.
From S2P Require Import RvmTree.
From S2P Require Import RvmAvl.
From S2P Require Import RvmIter.
From S2P Require Import RvmLoops.
From S2P Require Import RvmTrans.
From S2P Require Import RvmCells.
Import RvmOffset RvmTree RvmAvl RvmIter RvmLoops RvmTrans RvmCells.
Open Scope Z_scope.

Module RvmTx.

Open Scope rvm_scope.

(** ** The mapped regions *)
Abbreviation nodes s := (inorder (root (region_tree s))).

(** The mapping at [p]: the region it stands for lies where it says. *)
Definition mapping_ok (s : rvm) (p : Z) : Prop :=
  exists m g, mem_regions s !! p = Some m /\ regions s !! mr_region m = Some g /\ mr_region m <> 0 /\ rgn_vmaddr g = mr_vmaddr m /\
    0 < mr_length m /\ 0 <= mr_vmaddr m /\ mr_vmaddr m + mr_length m <= 2 ^ 64 - 8 /\
    offset_ok (rgn_offset g) /\ oval (rgn_offset g) + mr_length m < 2 ^ 128.
Definition lies_below (s : rvm) (p q : Z) : Prop :=
  exists m n, mem_regions s !! p = Some m /\ mem_regions s !! q = Some n /\ mr_vmaddr m + mr_length m <= mr_vmaddr n.

Record mapped (s : rvm) : Prop := {
  m_ok : Forall (mapping_ok s) (nodes s);
  m_sorted : StronglySorted (lies_below s) (nodes s);
  m_null : 0 ∉ nodes s
}.

(** The [n] bytes at [a] belong to the region [rgn]. *)
Definition in_region (s : rvm) (rgn a n : Z) : Prop :=
  exists p m, p ∈ nodes s /\ mem_regions s !! p = Some m /\ mr_region m = rgn /\ mr_vmaddr m <= a /\ a + n <= mr_vmaddr m + mr_length m /\ 0 <= n.

(** A range lies in its region, and its offsets are those of its addresses. *)
Definition range_at (s : rvm) (r : range) : Prop :=
  in_region s (region r) (nv_vmaddr r) (nv_length r) /\
  exists g, regions s !! region r = Some g /\ offset_ok (nv_offset r) /\ offset_ok (end_offset r) /\
    oval (nv_offset r) = oval (rgn_offset g) + (nv_vmaddr r - rgn_vmaddr g) /\ oval (end_offset r) = oval (nv_offset r) + nv_length r.

(** States with the same regions, up to the counts. *)
Definition place (g : region_t) : rvm_offset * Z * Z := (rgn_offset g, rgn_vmaddr g, rgn_seg_code g).
Definition like (s s' : rvm) : Prop :=
  mem_regions s' = mem_regions s /\ region_tree s' = region_tree s /\ forall a, place <$> regions s' !! a = place <$> regions s !! a.

#[export] Instance like_equiv : Equivalence like.
Proof.
  split; [by intros s|intros s s' (H1 & H2 & H3); by split; [|split]|].
  intros s1 s2 s3 (H1 & H2 & H3) (H4 & H5 & H6). split; [congruence|]. split; [congruence|]. intros a. by rewrite H6.
Qed.

Lemma like_region s s' a g : like s s' -> regions s !! a = Some g -> exists g', regions s' !! a = Some g' /\ place g' = place g.
Proof. intros (_ & _ & H) E. specialize (H a). rewrite E in H. destruct (regions s' !! a) as [g'|]; [|done]. exists g'. split; [done|]. exact (inj Some _ _ H). Qed.

Lemma in_region_like s s' rgn a n : like s s' -> in_region s rgn a n -> in_region s' rgn a n.
Proof. intros (H1 & H2 & _). unfold in_region. by rewrite H1, H2. Qed.

Lemma range_at_like s s' r : like s s' -> range_at s r -> range_at s' r.
Proof.
  intros Hl [Hin (g & Eg & H)]. split; [by eapply in_region_like|]. destruct (like_region _ _ _ _ Hl Eg) as (g' & Eg' & [= E1 E2 _]). exists g'. by rewrite E1, E2.
Qed.

Lemma mapped_like s s' : like s s' -> mapped s -> mapped s'.
Proof.
  intros Hl [H1 H2 H3]. pose proof Hl as (Em & Et & _). split; rewrite ?Et; [|unfold lies_below; by rewrite Em|done].
  eapply Forall_impl; [exact H1|]. intros p (m & g & E1 & E2 & E3). destruct (like_region _ _ _ _ Hl E2) as (g' & Eg' & [= F1 F2 _]). exists m, g'. by rewrite Em, F1, F2.
Qed.

(** ** Open transactions *)
Definition has_old_values (r : range) : Prop := nv_length r <> 0 -> exists b, data r = Some b /\ 0 <= nv_length r <= zlen b.
Definition range_ok (s : rvm) (t : int_tid) (a : Z) : Prop :=
  exists r, ranges s !! a = Some r /\ range_at s r /\ (TID t RESTORE_FLAG = true -> has_old_values r).

(** The transaction [t] at [tid] has the ranges [xs], in the order of its tree. *)
Record open_tx (s : rvm) (tid : Z) (t : int_tid) (xs : list Z) : Prop := {
  x_tid : tids s !! tid = Some t;
  x_tree : tree_ok (range_tree t) xs;
  x_room : room (range_tree t);
  x_addrs : addrs_ok xs;
  x_next : 0 < next s;
  x_fresh : Forall (fun a => 0 < a < next s) xs;
  x_ranges_ok : Forall (range_ok s t) xs
}.

(** The user's descriptor of the transaction. *)
Record tid_handle (u : rvm_tid) (tid : Z) (t : int_tid) : Prop := {
  h_struct : struct_id_ok u = true;
  h_tid : t_tid u = tid;
  h_null : tid <> 0;
  h_uname : t_uname u = uname t;
  h_sec : (uname t).1 <> 0;
  h_open : commit_stamp t = (0, 0)
}.

Lemma run_get_tid {B} u tid t (k : Z -> M B) s : tid_handle u tid t -> tids s !! tid = Some t -> mbnd (get_tid (Some u)) k s = k tid s.
Proof.
  intros [H1 H2 H3 H4 H5 H6] Ht. unfold get_tid, bad_tid. rewrite H1, H2, H4. cbn [negb Z.eqb RVM_SUCCESS]. destruct (Z.eqb_spec (uname t).1 0); [done|]. destruct (Z.eqb_spec tid 0); [done|].
  rewrite run_bind, (run_get_int_tid _ _ _ _ Ht), run_ret. unfold same_time. by rewrite H6, !Z.eqb_refl.
Qed.

(** ** Undoing *)
Definition undo_range (rs : gmap Z range) (a : Z) (m : memory) : memory :=
  match rs !! a with
  | Some r => if nv_length r =? 0 then m else match data r with Some b => put (nv_vmaddr r) (take (Z.to_nat (nv_length r)) b) m | None => m end
  | None => m
  end.
Definition undo (rs : gmap Z range) (xs : list Z) (m : memory) : memory := foldr (undo_range rs) m xs.

(** The ranges of [xs] that count as uncommitted changes of the region [g]. *)
Definition counts (rs : gmap Z range) (g a : Z) : bool :=
  match rs !! a with Some r => (region r =? g) && negb (nv_length r =? 0) | None => false end.
Definition uncommitted (rs : gmap Z range) (xs : list Z) (g : Z) : Z := zlen (filter (fun a => counts rs g a) xs).
Definition uncount (gs : gmap Z region_t) (f : Z -> Z) : gmap Z region_t :=
  map_imap (fun a g => Some (Region (rgn_offset g) (rgn_vmaddr g) (rgn_seg_code g) (n_uncommit g - f a))) gs.

Lemma uncommitted_cons rs a xs g : uncommitted rs (a :: xs) g = (if counts rs g a then 1 else 0) + uncommitted rs xs g.
Proof. unfold uncommitted. rewrite filter_cons. destruct (counts rs g a); [rewrite decide_True by done; by rewrite zlen_cons|by rewrite decide_False by (intros [])]. Qed.
Lemma uncommitted_perm rs xs ys g : xs ≡ₚ ys -> uncommitted rs xs g = uncommitted rs ys g.
Proof. intros H. unfold uncommitted, zlen. by rewrite H. Qed.

Definition frees (rs : gmap Z range) (xs : list Z) : gmap Z range := foldr delete rs xs.

(** One range is put back. *)
Definition put_back (s : rvm) (a : Z) : rvm :=
  with_ranges (with_regions (with_mem s (undo_range (ranges s) a (mem s))) (uncount (regions s) (fun g => if counts (ranges s) g a then 1 else 0))) (delete a (ranges s)).

Lemma restore_range_spec s t a : range_ok s t a -> TID t RESTORE_FLAG = true -> run (restore_range true) a s = Ret (inl (put_back s a)).
Proof.
  intros (r & Er & (_ & g & Eg & _) & Hov) Ht. specialize (Hov Ht). unfold run, restore_range. rewrite (run_get_range a r) by done.
  assert (uncount (regions s) (fun g => if counts (ranges s) g a then 1 else 0) = if nv_length r =? 0 then regions s else recount (regions s) (region r) (-1)) as Hu.
  { apply map_eq. intros i. unfold uncount, recount, counts. rewrite map_lookup_imap, Er. destruct (nv_length r =? 0); cbn [negb].
    - rewrite andb_false_r. destruct (regions s !! i) as [[]|]; cbn; [|done]. do 2 f_equal. lia.
    - rewrite andb_true_r. destruct (Z.eqb_spec (region r) i) as [<-|Hn]; [by rewrite lookup_alter_eq, Eg|].
      rewrite lookup_alter_ne by done. destruct (regions s !! i) as [[]|]; cbn; [|done]. do 2 f_equal. lia. }
  unfold put_back, undo_range. rewrite Hu, Er. destruct (Z.eqb_spec (nv_length r) 0) as [E|E]; cbn [negb].
  - rewrite run_ret, (run_free_range a r) by done. cbn. destruct s. done.
  - destruct (Hov E) as (b & Eb & Hl). rewrite Eb, !run_bind, run_bcopy_from by lia. rewrite run_bind, run_get, run_set_mem. rewrite (run_count (region r) (-1) g) by done. rewrite (run_free_range a r) by done. done.
Qed.

Lemma undo_range_delete rs a b m : b <> a -> undo_range (delete a rs) b m = undo_range rs b m.
Proof. intros H. unfold undo_range. by rewrite lookup_delete_ne. Qed.
Lemma counts_delete rs a b g : b <> a -> counts (delete a rs) g b = counts rs g b.
Proof. intros H. unfold counts. by rewrite lookup_delete_ne. Qed.
Lemma uncommitted_delete rs a xs g : a ∉ xs -> uncommitted (delete a rs) xs g = uncommitted rs xs g.
Proof. induction xs as [|b xs IH]; intros H; [done|]. rewrite !uncommitted_cons, counts_delete, IH by set_solver. done. Qed.

Lemma uncount_like s f m rs : like s (with_ranges (with_regions (with_mem s m) (uncount (regions s) f)) rs).
Proof. split; [done|]. split; [done|]. intros a. cbn. unfold uncount. rewrite map_lookup_imap. by destruct (regions s !! a). Qed.
Lemma uncount_uncount gs f h : uncount (uncount gs f) h = uncount gs (fun a => f a + h a).
Proof. apply map_eq. intros a. unfold uncount. rewrite !map_lookup_imap. destruct (gs !! a) as [[]|]; cbn; [|done]. do 2 f_equal. lia. Qed.
Lemma uncount_ext gs f h : (forall a, f a = h a) -> uncount gs f = uncount gs h.
Proof. intros H. apply map_eq. intros a. unfold uncount. by rewrite !map_lookup_imap, H. Qed.
Lemma uncount_zero gs : uncount gs (fun _ => 0) = gs.
Proof. apply map_eq. intros a. unfold uncount. rewrite map_lookup_imap. destruct (gs !! a) as [[]|]; cbn; [|done]. do 2 f_equal. lia. Qed.

(** All of them, the first of [ys] first. *)
Definition all_back (s : rvm) (ys : list Z) : rvm :=
  with_ranges (with_regions (with_mem s (foldl (fun m a => undo_range (ranges s) a m) (mem s) ys)) (uncount (regions s) (uncommitted (ranges s) ys)))
    (foldl (fun rs a => delete a rs) (ranges s) ys).

Lemma all_back_step s a ys : a ∉ ys -> all_back (put_back s a) ys = all_back s (a :: ys).
Proof.
  intros H. unfold all_back, put_back, with_ranges, with_regions, with_mem. cbn. f_equal.
  - rewrite uncount_uncount. apply uncount_ext. intros g. rewrite uncommitted_cons, uncommitted_delete by done. done.
  - generalize (undo_range (ranges s) a (mem s)) as m. induction ys as [|b ys IH]; intros m; [done|]. cbn. rewrite undo_range_delete by set_solver. apply IH. set_solver.
Qed.

Lemma restore_all t ys : forall s, NoDup ys -> Forall (range_ok s t) ys -> TID t RESTORE_FLAG = true ->
  each (run (restore_range true)) ys s = Ret (inl (all_back s ys)).
Proof.
  induction ys as [|a ys IH]; intros s Hnd Hok Ht.
  - cbn. unfold all_back. cbn. rewrite (uncount_ext _ _ (fun _ => 0)) by done. rewrite uncount_zero. by destruct s.
  - apply NoDup_cons in Hnd as [Ha Hnd]. apply Forall_cons in Hok as [Hok0 Hok]. cbn [each]. rewrite (restore_range_spec s t) by done. cbn [rbind]. rewrite IH, all_back_step; try done.
    rewrite Forall_forall in Hok |- *. intros b Hb. destruct (Hok b Hb) as (r & Er & Hr & Hov). exists r. split; [cbn; rewrite lookup_delete_ne; [done|intros ->; done]|].
    split; [|done]. eapply range_at_like; [|exact Hr]. apply uncount_like.
Qed.

Lemma foldl_reverse {A B} (f : A -> B -> A) xs x : foldl f x (reverse xs) = foldr (fun b a => f a b) x xs.
Proof. revert x. induction xs as [|b xs IH] using rev_ind; intros x; [done|]. rewrite reverse_app, foldr_app. cbn. apply IH. Qed.

Lemma over_tree_end {R} loop tid t (body : Z -> M (option R)) s s' tr : tids s !! tid = Some t -> tids s' = tids s ->
  loop (range_tree t) (run body) s = Ret (tr, inl s') -> over_tree loop tid body s = Ret (None, with_tids s' (<[tid := with_tree t tr]> (tids s))).
Proof.
  intros Ht Ht' El. unfold over_tree. rewrite (run_get_int_tid tid t) by done. rewrite El. cbn [rbind]. rewrite (run_get_int_tid tid t) by by rewrite Ht'.
  rewrite run_put_int_tid, Ht'. done.
Qed.

Lemma restore_ov_spec s tid t xs : open_tx s tid t xs -> TID t RESTORE_FLAG = true ->
  exists tr, cleared tr /\ restore_ov tid s = Ret (tt, with_tids (all_back s (reverse xs)) (<[tid := with_tree t tr]> (tids s))).
Proof.
  intros [Ht Htree Hroom Haddr Hnext Hfresh Hok] Hres. unfold restore_ov. rewrite (run_get_int_tid tid t), Hres by done.
  pose proof (UNLINK_REVERSE_NODES_OF_spec (range_tree t) xs (run (restore_range true)) s Hroom Htree Haddr) as H.
  rewrite (restore_all t) in H; [|by rewrite reverse_Permutation; apply Haddr|by apply Forall_reverse|done].
  destruct H as (tr & E & Hc). exists tr. split; [done|].
  rewrite (run_eq _ _ _ _ _ (over_tree_end (fun tr body s => UNLINK_REVERSE_NODES_OF tr body s) tid t _ s (all_back s (reverse xs)) tr Ht eq_refl E)). done.
Qed.

Lemma free_tid_spec s tid t : tids s !! tid = Some t -> cleared (range_tree t) -> free_tid tid s = Ret (tt, with_tids s (delete tid (tids s))).
Proof.
  intros Ht [Hok Hroom]. unfold free_tid. pose proof (UNLINK_NODES_OF_spec (R := unit * rvm) (range_tree t) [] (run (fun r => free_range r ;;! ret (None : option unit))) s Hroom Hok) as H.
  cbn [each] in H. destruct H as (tr & E & _); [split; [constructor|set_solver]|]. rewrite (run_eq _ _ _ _ _ (over_tree_end (fun tr body s => UNLINK_NODES_OF tr body s) tid t _ s _ tr Ht eq_refl E)). rewrite run_get. unfold set_tids. cbn. by rewrite delete_insert_eq.
Qed.

(** What an abort leaves: the ranges undone, and nothing of the transaction. *)
Definition aborted (s : rvm) (tid : Z) (xs : list Z) : rvm :=
  let l := log s in
  Rvm (inited s) (rvm_optimizations s) (unames s)
    (Log (log_open l) (dev_log_size l) (filter (fun t => t <> tid) (tid_list l)) (flush_list l) (n_abort l + 1) (n_flush_commit l) (n_no_flush_commit l))
    (uncount (regions s) (uncommitted (ranges s) xs)) (mem_regions s) (region_tree s) (frees (ranges s) xs) (delete tid (tids s)) (next s) (mallocs s) (undo (ranges s) xs (mem s)).

Lemma abort_spec s u tid t xs : inited s = true -> tid_handle u tid t -> tid ∈ tid_list (log s) -> open_tx s tid t xs -> TID t RESTORE_FLAG = true ->
  rvm_abort_transaction (Some u) s = Ret (RVM_SUCCESS, Some (RvmTid (struct_id_ok u) (t_uname u) 0), aborted s tid xs).
Proof.
  intros Hi Hh Hin Hx Hres. pose proof (x_tid _ _ _ _ Hx) as Ht. unfold rvm_abort_transaction. rewrite run_get, Hi. cbn [negb]. rewrite (run_get_tid u tid t) by done.
  destruct (Z.eqb_spec tid 0) as [E|_]; [by apply (h_null _ _ _ Hh) in E|]. unfold delist. rewrite run_bind, run_get, run_bind, run_massert by (by apply bool_decide_eq_true_2).
  unfold set_log at 1. unfold mbnd at 1. rewrite (run_get_int_tid tid t) by done. rewrite run_put_int_tid. set (s1 := with_tids _ _).
  set (t1 := with_stamp t (1, (commit_stamp t).2)). assert (open_tx s1 tid t1 xs) as Hx1.
  { destruct Hx as [_ H1 H2 H3 H4 H5 H6]. split; try done. cbn. apply lookup_insert_eq. }
  destruct (restore_ov_spec s1 tid t1 xs Hx1 Hres) as (tr & Hc & E). rewrite (run_eq _ _ _ _ _ E). rewrite run_get. unfold set_log. unfold mbnd at 1.
  erewrite run_eq; [|eapply free_tid_spec; [cbn; apply lookup_insert_eq|exact Hc]]. unfold ret. do 2 f_equal.
  unfold aborted, all_back, undo, frees. cbn. rewrite !foldl_reverse. unfold with_tids, with_log. cbn.
  rewrite delete_insert_eq, delete_insert_eq. f_equal. apply uncount_ext. intros g. apply uncommitted_perm, reverse_Permutation.
Qed.

End RvmTx.
