(* ===== verification/RvmSet.v ===== *)
(** * Transactions of the recoverable memory: lookup and plain ranges

    find_whole_range finds the region of a range of mapped memory.  Without the
    coalescing of ranges rvm_set_range puts a new range, with what the memory holds
    there, at the end of the transaction's list, so that the old values come back
    when all are put back from the last to the first. *)
From Stdlib Require Import ZArith Lia Bool.
From stdpp Require Import base list numbers gmap sorting.
From S2P Require Import Prelude.
From S2P Require Import RvmOffset.
From S2P Require Import RvmTree.
From S2P Require Import RvmAvl.
From S2P Require Import RvmIter.
From S2P Require Import RvmLoops.
From S2P Require Import RvmTrans.
From S2P Require Import RvmCells.
From S2P Require Import RvmTx.
Import RvmOffset RvmTree RvmAvl RvmIter RvmLoops RvmTrans RvmCells RvmTx.
Open Scope Z_scope.

Module RvmSet.

Open Scope rvm_scope.

(** A comparator that is 1, then 0, then -1 along a list cuts it. *)
Lemma cut_exists cmp node xs : StronglySorted (fun x y => (cmp node y = 1 -> cmp node x = 1) /\ (cmp node x = -1 -> cmp node y = -1)) xs ->
  Forall (fun x => cmp node x = 1 \/ cmp node x = 0 \/ cmp node x = -1) xs -> exists l1 mid l2, xs = l1 ++ mid ++ l2 /\ cut cmp node l1 mid l2.
Proof.
  intros Hs Hv. induction Hs as [|x xs Hs IH Hx]; [exists [], [], []; done|]. apply Forall_cons in Hv as [Hvx Hv]. destruct (IH Hv) as (l1 & mid & l2 & -> & H1 & H2 & H3). clear IH Hs Hv.
  rewrite !Forall_app in Hx. destruct Hx as (Hx1 & Hx2 & Hx3). destruct Hvx as [E|[E|E]].
  - exists (x :: l1), mid, l2. split; [done|]. split; [by constructor|done].
  - destruct l1 as [|y l1]; [|apply Forall_cons in H1 as [H1 _]; apply Forall_cons in Hx1 as [[Hy _] _]; specialize (Hy H1); lia].
    exists [], (x :: mid), l2. split; [done|]. split; [constructor|]. split; [by constructor|done].
  - destruct l1 as [|y l1]; [|apply Forall_cons in H1 as [H1 _]; apply Forall_cons in Hx1 as [[_ Hy] _]; specialize (Hy E); lia].
    destruct mid as [|y mid]; [|apply Forall_cons in H2 as [H2 _]; apply Forall_cons in Hx2 as [[_ Hy] _]; specialize (Hy E); lia].
    exists [], [], (x :: l2). split; [done|]. split; [constructor|]. split; [constructor|by constructor].
Qed.

Lemma sorted_impl {A} (R R' : A -> A -> Prop) l : StronglySorted R l -> (forall x y, x ∈ l -> y ∈ l -> R x y -> R' x y) -> StronglySorted R' l.
Proof.
  induction 1 as [|x l _ IH Hx]; intros H; constructor; [apply IH; set_solver|]. rewrite Forall_forall in Hx |- *. intros y Hy. apply H; [set_solver|set_solver|by apply Hx].
Qed.

(** ** The region of a range *)

(** Two mapped regions with an address in common are one. *)
Lemma region_unique s p q m n x : mapped s -> p ∈ nodes s -> q ∈ nodes s -> mem_regions s !! p = Some m -> mem_regions s !! q = Some n ->
  mr_vmaddr m <= x < mr_vmaddr m + mr_length m -> mr_vmaddr n <= x < mr_vmaddr n + mr_length n -> p = q.
Proof.
  intros Hm Hp Hq Em En Hx1 Hx2. destruct (Z.eq_dec p q) as [|Hne]; [done|exfalso]. pose proof (m_sorted _ Hm) as Hs.
  assert (forall a b, lies_below s a b -> (a = p /\ b = q) \/ (a = q /\ b = p) -> False) as Hlt by (intros a b (m' & n' & E1 & E2 & H) [[-> ->]|[-> ->]]; simplify_eq; lia).
  revert Hp Hq. induction Hs as [|a ps _ IH Ha]; [set_solver|]. rewrite Forall_forall in Ha. intros [-> | Hp]%elem_of_cons [-> | Hq]%elem_of_cons; [done|..].
  - apply (Hlt a q); [by apply Ha|by left].
  - apply (Hlt a p); [by apply Ha|by right].
  - by apply IH.
Qed.

Section Find.
Context (s : rvm) (Hm : mapped s) (dest len : Z) (Hd : 0 <= dest) (Hn : 0 <= len) (Hl : dest + len <= 2 ^ 64).

Abbreviation wanted := (MemRegion dest len 0).
Definition find_cmp (_ p : Z) : Z := compare_with mem_total_include (Some wanted) (mem_regions s !! p).

Lemma mem_total_include_spec m : 0 < mr_length m -> 0 <= mr_vmaddr m -> mr_vmaddr m + mr_length m <= 2 ^ 64 - 8 ->
  (mem_total_include wanted m = 0 /\ mr_vmaddr m <= dest < mr_vmaddr m + mr_length m /\ dest + len <= mr_vmaddr m + mr_length m) \/
  (mem_total_include wanted m = -1 /\ dest < mr_vmaddr m) \/
  (mem_total_include wanted m = 1 /\ mr_vmaddr m <= dest /\ (0 < len -> mr_vmaddr m + mr_length m < dest + len)).
Proof using Hd Hn Hl.
  intros H1 H2 H3. unfold mem_total_include. cbn [mr_vmaddr mr_length]. rewrite (uwrap_small 64 (mr_vmaddr m + mr_length m - 1)) by lia. rewrite Z.geb_leb.
  assert (u64 (dest + len - 1) = dest + len - 1 \/ (dest = 0 /\ len = 0 /\ u64 (dest + len - 1) = 2 ^ 64 - 1)) as Hu.
  { destruct (Z.eq_dec (dest + len) 0) as [E|E]; [right; assert (dest = 0 /\ len = 0) as [-> ->] by lia; done|left; apply uwrap_small; lia]. }
  destruct (Z.leb_spec (mr_vmaddr m) dest), (Z.leb_spec dest (mr_vmaddr m + mr_length m - 1)), (Z.leb_spec (u64 (dest + len - 1)) (mr_vmaddr m + mr_length m - 1)), (Z.ltb_spec dest (mr_vmaddr m));
    cbn [andb]; try lia; try (left; lia); try (right; left; lia); try (right; right; lia).
Qed.

Lemma mapping_at p : p ∈ nodes s -> exists m, mem_regions s !! p = Some m /\ 0 < mr_length m /\ 0 <= mr_vmaddr m /\ mr_vmaddr m + mr_length m <= 2 ^ 64 - 8 /\ find_cmp 0 p = mem_total_include wanted m.
Proof using Hm Hd Hn Hl.
  intros Hp. pose proof (m_ok _ Hm) as H. rewrite Forall_forall in H. destruct (H p Hp) as (m & g & E & _ & _ & _ & H1 & H2 & H3 & _). exists m. repeat split; try done. unfold find_cmp. by rewrite E.
Qed.

Lemma find_cut : exists l1 mid l2, nodes s = l1 ++ mid ++ l2 /\ cut find_cmp 0 l1 mid l2.
Proof using Hm Hd Hn Hl.
  apply cut_exists.
  - apply (sorted_impl (lies_below s)); [apply (m_sorted _ Hm)|]. intros x y Hx Hy (m & n & Em & En & Hlt).
    destruct (mapping_at x Hx) as (m' & Em' & Hm1 & Hm2 & Hm3 & ->). destruct (mapping_at y Hy) as (n' & En' & Hn1 & Hn2 & Hn3 & ->).
    assert (m' = m) as -> by congruence. assert (n' = n) as -> by congruence.
    destruct (mem_total_include_spec m Hm1 Hm2 Hm3) as [[-> ?]|[[-> ?]|[-> ?]]], (mem_total_include_spec n Hn1 Hn2 Hn3) as [[-> ?]|[[-> ?]|[-> ?]]]; split; intros; lia.
  - apply Forall_forall. intros p Hp. destruct (mapping_at p Hp) as (m & _ & H1 & H2 & H3 & ->). destruct (mem_total_include_spec m H1 H2 H3) as [[-> _]|[[-> _]|[-> _]]]; auto.
Qed.

Lemma find_whole_range_spec : exists rgn, find_whole_range dest len s = Ret (rgn, s) /\ (rgn <> 0 -> in_region s rgn dest len) /\
  (0 < len -> forall rgn', in_region s rgn' dest len -> rgn = rgn').
Proof using Hm Hd Hn Hl.
  destruct find_cut as (l1 & mid & l2 & E & Hc). destruct (tree_lookup_spec find_cmp 0 (root (region_tree s)) l1 mid l2 Hc E) as (p & Ep & Hp0 & Hp1).
  unfold find_whole_range. rewrite !run_get. rewrite (run_lift _ p) by exact Ep. destruct Hc as (Hc1 & Hc2 & Hc3). destruct (decide (mid = [])) as [Hmid|Hmid].
  - rewrite (Hp0 Hmid). cbn [Z.eqb]. exists 0. split; [done|]. split; [done|]. intros Hlen rgn' (q & m & Hq & Em & Er & H1 & H2 & _). exfalso.
    destruct (mapping_at q Hq) as (m' & Em' & Hm1 & Hm2 & Hm3 & Ef). assert (m' = m) as -> by congruence. subst mid. rewrite E in Hq. rewrite Forall_forall in Hc1, Hc3.
    destruct (mem_total_include_spec m Hm1 Hm2 Hm3) as [[Ev ?]|[[Ev ?]|[Ev ?]]]; [|lia|lia]. rewrite Ev in Ef. apply elem_of_app in Hq as [Hq|Hq]; [specialize (Hc1 q Hq)|specialize (Hc3 q Hq)]; cbv beta in *; lia.
  - specialize (Hp1 Hmid). assert (p ∈ nodes s) as Hp by (rewrite E; set_solver). destruct (mapping_at p Hp) as (m & Em & Hm1 & Hm2 & Hm3 & Ef).
    rewrite Forall_forall in Hc2. specialize (Hc2 p Hp1). cbv beta in Hc2. rewrite Ef in Hc2. destruct (mem_total_include_spec m Hm1 Hm2 Hm3) as [[_ Hin]|[[Ev ?]|[Ev ?]]]; [|lia|lia].
    destruct (Z.eqb_spec p 0) as [->|Hp']; [by destruct (m_null _ Hm)|]. rewrite (run_fetch _ m) by done. exists (mr_region m). split; [done|]. split.
    + intros _. exists p, m. repeat split; try done; lia.
    + intros Hlen rgn' (q & n & Hq & En & <- & H1 & H2 & _). assert (p = q) as <- by (apply (region_unique s p q m n dest); try done; lia). congruence.
Qed.
End Find.

(** ** New ranges *)

(** The library is initialised, its memory mapped, and malloc does not fail. *)
Record lib (s : rvm) : Prop := {
  l_inited : inited s = true;
  l_mallocs : mallocs s = [];
  l_mapped : mapped s
}.

Lemma region_place s rgn a n : mapped s -> in_region s rgn a n -> exists g len, regions s !! rgn = Some g /\ rgn <> 0 /\ 0 <= rgn_vmaddr g <= a /\ a + n <= rgn_vmaddr g + len /\
  rgn_vmaddr g + len <= 2 ^ 64 - 8 /\ offset_ok (rgn_offset g) /\ oval (rgn_offset g) + len < 2 ^ 128 /\ 0 <= n.
Proof.
  intros Hm (p & m & Hp & Em & <- & H1 & H2 & H3). pose proof (m_ok _ Hm) as H. rewrite Forall_forall in H. destruct (H p Hp) as (m' & g & Em' & Eg & Hz & Ev & H4 & H5 & H6 & [H7 H8] & H9). assert (m' = m) as -> by congruence.
  exists g, (mr_length m). rewrite Ev. repeat split; done || lia || apply H7 || apply H8.
Qed.

(** The descriptor that build_range makes. *)
Definition built (s : rvm) (r : range) (rgn dest len : Z) : Prop :=
  region r = rgn /\ nv_vmaddr r = dest /\ nv_length r = len /\ data r = None /\ range_at s r.
Definition with_new (s : rvm) (r : range) : rvm := with_ranges (bump s) (<[next s := r]> (ranges s)).

Lemma build_range_spec s rgn dest len : mapped s -> in_region s rgn dest len -> exists r, built s r rgn dest len /\ build_range rgn dest len s = Ret (next s, with_new s r).
Proof.
  intros Hm Hin. destruct (region_place s rgn dest len Hm Hin) as (g & k & Eg & _ & Hv & He & Hk & Hof & Hov & Hn).
  pose proof (oval_bounds _ Hof) as Hob. destruct (oval_add_length (rgn_offset g) (dest - rgn_vmaddr g) Hof) as [H1 H2]; [unfold word; lia|]. rewrite uwrap_small in H2 by lia.
  destruct (oval_add_length _ len H1) as [H3 H4]; [unfold word; lia|]. rewrite uwrap_small in H4 by lia.
  eexists. split; [|unfold build_range, make_range; rewrite !run_bind; unfold alloc_list_entry; unfold mbnd at 1; rewrite run_bind, run_put_range, run_ret; rewrite (run_get_region rgn g) by done;
    rewrite run_put_range, (uwrap_small 64) by lia; unfold ret, with_new; do 2 f_equal; unfold with_ranges; cbn; by rewrite insert_insert_eq].
  split; [done|]. split; [done|]. split; [done|]. split; [done|]. split; [done|]. exists g. cbn [region nv_offset end_offset nv_vmaddr nv_length]. split; [done|]. split; [exact H1|]. split; [exact H3|]. split; [exact H2|exact H4].
Qed.

Lemma set_range_front s u tid t dest len : lib s -> tid_handle u tid t -> tids s !! tid = Some t -> (rvm_optimizations s = 0 \/ 0 < len) ->
  0 <= dest -> 0 <= len -> dest + len <= 2 ^ 64 ->
  (rvm_set_range (Some u) dest len s = Ret (RVM_ENOT_MAPPED, s) /\ (0 < len -> forall rgn, ~ in_region s rgn dest len)) \/
  exists rgn r, in_region s rgn dest len /\ built s r rgn dest len /\ rvm_set_range (Some u) dest len s = merge_range tid rgn (next s) (with_new s r).
Proof.
  intros [Hi Hma Hm] Hh Ht Ho Hd Hn Hl. unfold rvm_set_range. rewrite run_get, Hi. cbn [negb]. rewrite run_get.
  assert (negb (rvm_optimizations s =? 0) && (len =? 0) = false) as -> by (destruct Ho as [-> |]; [done|]; apply andb_false_intro2, Z.eqb_neq; lia).
  rewrite (run_get_tid u tid t) by done. destruct (Z.eqb_spec tid 0) as [E|_]; [by apply (h_null _ _ _ Hh) in E|].
  destruct (find_whole_range_spec s Hm dest len Hd Hn Hl) as (rgn & Ef & Hf1 & Hf2). rewrite (run_eq _ _ _ _ _ Ef). destruct (Z.eqb_spec rgn 0) as [->|Hz].
  - left. split; [done|]. intros Hp rgn Hin. specialize (Hf2 Hp rgn Hin). subst rgn. by destruct (region_place s 0 dest len Hm Hin) as (g & k & _ & ? & _).
  - right. specialize (Hf1 Hz). destruct (build_range_spec s rgn dest len Hm Hf1) as (r & Hb & Eb). exists rgn, r. split; [done|]. split; [done|]. by rewrite (run_eq _ _ _ _ _ Eb).
Qed.

(** ** What a transaction has announced and saved *)
Definition covered (rs : gmap Z range) (xs : list Z) (x : Z) : Prop :=
  exists a r, a ∈ xs /\ rs !! a = Some r /\ nv_vmaddr r <= x < nv_vmaddr r + nv_length r.
Definition agree (rs : gmap Z range) (xs : list Z) (m0 m : memory) : Prop := forall x, ~ covered rs xs x -> m0 !! x = m !! x.
(** Undoing brings back [m0] from every memory that differs only where announced. *)
Definition saved (rs : gmap Z range) (xs : list Z) (m0 : memory) : Prop := forall m, agree rs xs m0 m -> undo rs xs m = m0.
(** The regions without the transaction's share of the counts. *)
Definition base (s : rvm) (xs : list Z) : gmap Z region_t := uncount (regions s) (uncommitted (ranges s) xs).

(** What a successful rvm_set_range does for the transaction, in both modes. *)
Record set_step (s : rvm) (tid : Z) (t : int_tid) (xs : list Z) (dest len : Z) (s' : rvm) (t' : int_tid) (xs' : list Z) : Prop := {
  s_open : open_tx s' tid t' xs';
  s_tid : uname t' = uname t /\ commit_stamp t' = commit_stamp t /\ flags t' = flags t;
  s_tids : tids s' = <[tid := t']> (tids s);
  s_same : inited s' = inited s /\ rvm_optimizations s' = rvm_optimizations s /\ unames s' = unames s /\ log s' = log s /\ mallocs s' = [] /\ mem s' = mem s;
  s_like : like s s';
  s_cover x : covered (ranges s') xs' x <-> covered (ranges s) xs x \/ dest <= x < dest + len;
  s_base : base s' xs' = base s xs
}.

Definition same_on (rs rs' : gmap Z range) (xs : list Z) : Prop := forall a, a ∈ xs -> rs' !! a = rs !! a.
Lemma undo_same rs rs' xs m : same_on rs rs' xs -> undo rs' xs m = undo rs xs m.
Proof. induction xs as [|a xs IH]; intros H; [done|]. change (undo_range rs' a (undo rs' xs m) = undo_range rs a (undo rs xs m)). rewrite IH by (intros b Hb; apply H; set_solver). unfold undo_range. rewrite (H a) by set_solver. done. Qed.
Lemma covered_same rs rs' xs x : same_on rs rs' xs -> covered rs' xs x <-> covered rs xs x.
Proof. intros H. split; intros (a & r & Ha & Er & Hx); exists a, r; (split; [done|]); (split; [|done]); [by rewrite <- H|by rewrite H]. Qed.
Lemma uncommitted_same rs rs' xs g : same_on rs rs' xs -> uncommitted rs' xs g = uncommitted rs xs g.
Proof. induction xs as [|a xs IH]; intros H; [done|]. rewrite !uncommitted_cons, IH by (intros b Hb; apply H; set_solver). unfold counts. rewrite (H a) by set_solver. done. Qed.
Lemma uncommitted_app rs xs ys g : uncommitted rs (xs ++ ys) g = uncommitted rs xs g + uncommitted rs ys g.
Proof. unfold uncommitted. by rewrite filter_app, zlen_app. Qed.
Lemma covered_app rs xs ys x : covered rs (xs ++ ys) x <-> covered rs xs x \/ covered rs ys x.
Proof. unfold covered. split; [intros (a & r & [Ha|Ha]%elem_of_app & H); [left|right]; eauto|intros [(a & r & Ha & H)|(a & r & Ha & H)]; exists a, r; (split; [set_solver|done])]. Qed.
Lemma covered_perm rs xs ys x : xs ≡ₚ ys -> covered rs xs x <-> covered rs ys x.
Proof. intros H. unfold covered. by setoid_rewrite H. Qed.
Lemma range_ok_same s s' t t' a : like s s' -> flags t' = flags t -> ranges s' !! a = ranges s !! a -> range_ok s t a -> range_ok s' t' a.
Proof. intros Hl Hf E (r & Er & Hr & Hov). exists r. rewrite E. split; [done|]. split; [by eapply range_at_like|]. unfold TID in *. by rewrite Hf. Qed.

(** ** Without coalescing *)
Definition numbered (s : rvm) (xs : list Z) : Prop := forall i a, xs !! i = Some a -> exists r, ranges s !! a = Some r /\ range_num r = Z.of_nat i + 1.

Lemma save_ov_spec s a r m : mallocs s = [] -> ranges s !! a = Some r -> range_at s r -> mapped s -> m = mem s ->
  exists b, save_ov a s = Ret (true, with_ranges s (<[a := with_data r (Some b) (RANGE_LEN r)]> (ranges s))) /\ holds b m (nv_vmaddr r) (nv_length r).
Proof.
  intros Hma Er [Hin _] Hm ->. destruct (region_place s _ _ _ Hm Hin) as (g & k & _ & _ & Hv & He & Hk & _ & _ & Hn).
  pose proof (ALIGNED_LEN_room (nv_vmaddr r) (nv_length r) ltac:(lia) ltac:(lia) ltac:(lia)) as Hroom. fold (RANGE_LEN r) in Hroom.
  assert (zlen (new_buffer (RANGE_LEN r)) = RANGE_LEN r) as Hz by (unfold zlen, new_buffer; rewrite length_replicate; lia).
  unfold save_ov. rewrite (run_get_range a r), run_malloc_ok by done. rewrite run_get, run_bcopy_to by (rewrite ?zlen_cells; lia). rewrite run_put_range. eexists. split; [done|].
  assert (holds (new_buffer (RANGE_LEN r)) (mem s) (nv_vmaddr r) 0) as H0 by (split; [lia|done]).
  destruct (holds_extend _ _ _ 0 (nv_length r) H0) as [H _]; [lia|lia|]. rewrite Z.add_0_r in H. exact H.
Qed.

(** The transaction with the range [r'] at the new address. *)
Definition with_range (s : rvm) (tid : Z) (t : int_tid) (tr : tree_root) (rgn len : Z) (r' : range) : rvm :=
  with_tids (with_ranges (with_regions (bump s) (if len =? 0 then regions s else recount (regions s) rgn 1)) (<[next s := r']> (ranges s))) (<[tid := with_tree t tr]> (tids s)).

Lemma number_cut s xs r' n : numbered s xs -> next s ∉ xs -> range_num r' = zlen xs + 1 -> ranges n = <[next s := r']> (ranges s) -> cut (cmp_range_num n) (next s) xs [] [].
Proof.
  intros Hnum Hnew Hr' En. split; [|by split]. apply Forall_forall. intros a Ha. unfold cmp_range_num. rewrite En, lookup_insert_eq, lookup_insert_ne by set_solver.
  apply list_elem_of_lookup in Ha as [i Hi]. destruct (Hnum i a Hi) as (r & -> & Ei). apply lookup_lt_Some in Hi. cbn [compare_with]. rewrite Hr', Ei. unfold zlen. rewrite Z.gtb_ltb.
  destruct (Z.ltb_spec (Z.of_nat i + 1) (Z.of_nat (length xs) + 1)); [done|lia].
Qed.

Lemma open_new s tid t xs : open_tx s tid t xs -> next s ∉ xs.
Proof. intros H Hin. pose proof (x_fresh _ _ _ _ H) as Hf. rewrite Forall_forall in Hf. specialize (Hf _ Hin). lia. Qed.

Lemma add_new_range_spec s tid t xs rgn dest len r : lib s -> open_tx s tid t xs -> numbered s xs -> deep (range_tree t) -> zlen xs < 2 ^ 62 ->
  TID t RESTORE_FLAG = true -> built s r rgn dest len ->
  exists tr' d n, add_new_range tid (next s) (with_new s r) = Ret (RVM_SUCCESS, with_range s tid t tr' rgn len (with_num (with_data r d n) (zlen xs + 1))) /\
    tree_ok tr' (xs ++ [next s]) /\ room tr' /\ deep tr' /\ (len <> 0 -> exists b, d = Some b /\ holds b (mem s) dest len).
Proof.
  intros [Hi Hma Hm] Hx Hnum Hdeep Hbig Hres Hb. pose proof (open_new _ _ _ _ Hx) as Hnew. destruct Hx as [Ht Htree Hroom Haddr Hnext Hfresh Hok]. destruct Hb as (Hrg & Hv & Hlen & Hdata & Hat).
  set (new := next s) in *. unfold add_new_range. rewrite (run_get_int_tid tid t) by done. rewrite (run_get_range new r) by apply lookup_insert_eq.
  pose proof (t_nodes _ _ Htree) as Hn. pose proof Hat as [_ (g & Eg & _)]. rewrite Hrg in Eg.
  (* the state before the insertion *)
  assert (exists d n, (len <> 0 -> exists b, d = Some b /\ holds b (mem s) dest len) /\ forall (k : bool -> M Z),
    (let! ok := if negb (nv_length r =? 0) then let! ok := if TID t RESTORE_FLAG then save_ov new else ret true in if negb ok then free_range new ;;! ret false else count_uncommit (region r) 1 ;;! ret true else ret true in k ok) (with_new s r) =
    k true (with_ranges (with_regions (bump s) (if len =? 0 then regions s else recount (regions s) rgn 1)) (<[new := with_data r d n]> (ranges s)))) as (d & n & Hd & Hrun).
  { rewrite Hres, Hlen. destruct (Z.eqb_spec len 0) as [E|E]; cbn [negb].
    - exists None, (data_len r). split; [done|]. intros k. rewrite run_ret. f_equal. unfold with_new. rewrite <- Hdata. by destruct r.
    - destruct (save_ov_spec (with_new s r) new r (mem s)) as (b & Es & Hh); [done|apply lookup_insert_eq|exact Hat|by apply (mapped_like s)|done|]. rewrite Hv, Hlen in Hh.
      exists (Some b), (RANGE_LEN r). split; [eauto|]. intros k. rewrite !run_bind, (run_eq _ _ _ _ _ Es). cbn [negb]. rewrite run_bind, (run_count _ _ g) by (rewrite Hrg; exact Eg). rewrite run_ret, Hrg.
      f_equal. unfold with_regions, with_ranges, with_new. cbn. by rewrite insert_insert_eq. }
  rewrite Hrun. cbn [negb]. rewrite (run_get_range new (with_data r d n)) by apply lookup_insert_eq. rewrite run_put_range, run_get. cbn [ranges with_ranges]. rewrite insert_insert_eq, Hn.
  set (s4 := with_ranges _ _).
  destruct (tree_insert_spec (cmp_range_num s4) new (range_tree t) xs [] [] Hroom) as [Hins _]; [by rewrite !app_nil_r|by apply (number_cut s xs (with_num (with_data r d n) (zlen xs + 1)))|].
  destruct (Hins eq_refl) as (tr' & -> & Htree' & _ & _ & Hdeep'). rewrite app_nil_r in Hdeep'. destruct (Hdeep' Hdeep Hbig) as [Hr' Hd'].
  rewrite (run_lift _ (true, tr')) by done. rewrite run_put_int_tid, run_massert by done. exists tr', d, n. split; [done|]. split; [done|]. split; [done|]. by split.
Qed.

Lemma covered_one rs a r x : rs !! a = Some r -> covered rs [a] x <-> nv_vmaddr r <= x < nv_vmaddr r + nv_length r.
Proof. intros E. split; [intros (b & r' & ->%list_elem_of_singleton & Er & H); congruence|]. intros H. exists a, r. split; [set_solver|done]. Qed.

(** A range that holds the memory of now is undone after the others. *)
Lemma saved_snoc rs rs' xs new r m m0 b : same_on rs rs' xs -> rs' !! new = Some r -> (nv_length r <> 0 -> data r = Some b /\ holds b m (nv_vmaddr r) (nv_length r)) -> 0 <= nv_length r ->
  saved rs xs m0 -> agree rs xs m0 m -> saved rs' (xs ++ [new]) m0.
Proof.
  intros Hs Er Hd Hlen Hsv Ha m' Ha'. unfold undo. rewrite foldr_app. fold (undo rs' xs (foldr (undo_range rs') m' [new])). rewrite (undo_same rs) by done. apply Hsv. intros x Hx.
  cbn [foldr]. unfold undo_range. rewrite Er. assert (nv_vmaddr r <= x < nv_vmaddr r + nv_length r \/ m0 !! x = m' !! x) as Hcase.
  { destruct (decide (nv_vmaddr r <= x < nv_vmaddr r + nv_length r)) as [|Hn]; [by left|right]. apply Ha'. rewrite covered_app, (covered_one _ _ r), covered_same by done. tauto. }
  destruct (Z.eqb_spec (nv_length r) 0) as [E|E]; [destruct Hcase; [lia|done]|]. destruct (Hd E) as [-> [_ ->]]. rewrite put_cells by done. destruct (decide _); [by apply Ha|]. destruct Hcase; done.
Qed.

Lemma recount_like s rgn d : like s (with_regions s (recount (regions s) rgn d)).
Proof. split; [done|]. split; [done|]. intros a. cbn. unfold recount. destruct (decide (a = rgn)) as [->|Hn]; [rewrite lookup_alter_eq; by destruct (regions s !! rgn)|by rewrite lookup_alter_ne]. Qed.

Lemma uncount_recount gs rgn d f : uncount (recount gs rgn d) f = uncount gs (fun a => f a - if a =? rgn then d else 0).
Proof.
  apply map_eq. intros a. unfold uncount, recount. rewrite !map_lookup_imap. destruct (Z.eqb_spec a rgn) as [->|Hn]; [rewrite lookup_alter_eq|rewrite lookup_alter_ne by done];
    destruct (gs !! _) as [[]|]; cbn; try done; do 2 f_equal; lia.
Qed.

(** A transaction that got one more range. *)
Lemma open_add s tid t xs s' t' r' ys : open_tx s tid t xs -> like s s' -> ys ≡ₚ next s :: xs -> tids s' !! tid = Some t' -> flags t' = flags t ->
  tree_ok (range_tree t') ys -> room (range_tree t') -> next s' = next s + 8 -> same_on (ranges s) (ranges s') xs -> ranges s' !! next s = Some r' -> range_at s r' -> has_old_values r' ->
  open_tx s' tid t' ys.
Proof.
  intros Hx Hl Hp Ht' Hf Htree Hroom Hnx Hs Er Hat Hov. pose proof (open_new _ _ _ _ Hx) as Hnew. destruct Hx as [Ht _ _ [Hnd H0] Hnext Hfresh Hok].
  split; try done; [split; [rewrite Hp; by constructor|rewrite Hp, not_elem_of_cons; split; [lia|done]]|lia|..]; rewrite Hp.
  - constructor; [lia|]. eapply Forall_impl; [exact Hfresh|]. intros a; cbn; lia.
  - constructor; [exists r'; split; [done|]; split; [by eapply range_at_like|done]|]. rewrite Forall_forall in Hok |- *. intros a Ha. eapply (range_ok_same s); try done; [by apply Hs|by apply Hok].
Qed.

Lemma new_base s rgn len r' ys xs s' : regions s' = (if len =? 0 then regions s else recount (regions s) rgn 1) ->
  ys ≡ₚ next s :: xs -> same_on (ranges s) (ranges s') xs -> ranges s' !! next s = Some r' -> region r' = rgn -> nv_length r' = len -> base s' ys = base s xs.
Proof.
  intros Eg Hp Hs Er Hrg Hlen. unfold base. assert (forall a, uncommitted (ranges s') ys a = (if (rgn =? a) && negb (len =? 0) then 1 else 0) + uncommitted (ranges s) xs a) as Hu.
  { intros a. rewrite (uncommitted_perm _ _ _ _ Hp), uncommitted_cons, (uncommitted_same (ranges s)) by done. unfold counts. by rewrite Er, Hrg, Hlen. }
  rewrite Eg, (uncount_ext _ _ _ Hu). destruct (len =? 0); cbn [negb]; [|rewrite uncount_recount]; apply uncount_ext; intros a; rewrite ?andb_false_r, ?andb_true_r; [lia|].
  rewrite (Z.eqb_sym a). destruct (rgn =? a); lia.
Qed.

Record plain_tx (s : rvm) (t : int_tid) (xs : list Z) : Prop := {
  p_numbered : numbered s xs;
  p_deep : deep (range_tree t)
}.

Lemma set_range_plain s u tid t xs dest len : lib s -> tid_handle u tid t -> open_tx s tid t xs -> plain_tx s t xs -> zlen xs < 2 ^ 62 ->
  TID t RESTORE_FLAG = true -> TID t RVM_COALESCE_RANGES = false -> (rvm_optimizations s = 0 \/ 0 < len) -> 0 <= dest -> 0 <= len -> dest + len <= 2 ^ 64 ->
  (rvm_set_range (Some u) dest len s = Ret (RVM_ENOT_MAPPED, s) /\ (0 < len -> forall rgn, ~ in_region s rgn dest len)) \/
  exists s' t', rvm_set_range (Some u) dest len s = Ret (RVM_SUCCESS, s') /\ set_step s tid t xs dest len s' t' (xs ++ [next s]) /\ plain_tx s' t' (xs ++ [next s]) /\
    (forall m0, saved (ranges s) xs m0 -> agree (ranges s) xs m0 (mem s) -> saved (ranges s') (xs ++ [next s]) m0).
Proof.
  intros Hlib Hh Hx [Hnum Hdeep] Hbig Hres Hco Hopt Hd Hn Hl. pose proof (open_new _ _ _ _ Hx) as Hnew.
  destruct (set_range_front s u tid t dest len Hlib Hh (x_tid _ _ _ _ Hx) Hopt Hd Hn Hl) as [Hleft|(rgn & r & Hin & Hb & E)]; [by left|right].
  destruct (add_new_range_spec s tid t xs rgn dest len r Hlib Hx Hnum Hdeep Hbig Hres Hb) as (tr' & d & n & Ea & Htree' & Hroom' & Hdeep' & Hd').
  set (r' := with_num (with_data r d n) (zlen xs + 1)) in *. set (s' := with_range s tid t tr' rgn len r') in *. exists s', (with_tree t tr').
  assert (merge_range tid rgn (next s) (with_new s r) = add_new_range tid (next s) (with_new s r)) as Em by (unfold merge_range; rewrite (run_get_int_tid tid t), Hco by apply Hx; done).
  split; [by rewrite E, Em|]. assert (same_on (ranges s) (ranges s') xs) as Hsame by (intros a Ha; cbn; apply lookup_insert_ne; set_solver).
  assert (ranges s' !! next s = Some r') as Er' by apply lookup_insert_eq. destruct Hb as (Hrg & Hv & Hlen & Hdata & Hat).
  assert (like s s') as Hlike by (unfold s', with_range; destruct (len =? 0); [done|apply (recount_like s)]).
  split; [split|split; [split|]]; try done.
  - apply (open_add s tid t xs s' _ r'); try done; [by rewrite Permutation_app_comm|cbn; apply lookup_insert_eq|]. intros Hz. change (nv_length r') with (nv_length r) in *. rewrite Hlen in *.
    destruct (Hd' Hz) as (b & Eb & [Hb _]). exists b. by split.
  - repeat split; try done. apply Hlib.
  - intros x. rewrite covered_app, (covered_one _ _ r'), covered_same by done. change (nv_vmaddr r') with (nv_vmaddr r). change (nv_length r') with (nv_length r). by rewrite Hv, Hlen.
  - apply (new_base s rgn len r'); try done. by rewrite Permutation_app_comm.
  - intros i a Hi. apply lookup_app_Some in Hi as [Hi|[Hge Hi]].
    + destruct (Hnum i a Hi) as (q & Eq & Hq). exists q. split; [|done]. rewrite Hsame; [done|]. by eapply list_elem_of_lookup_2.
    + apply list_lookup_singleton_Some in Hi as [Hi <-]. exists r'. split; [done|]. cbn. unfold zlen. lia.
  - intros m0 Hsv Hag. destruct (decide (len = 0)) as [Hz|Hz].
    + apply (saved_snoc (ranges s) _ _ _ r' (mem s) _ []); try done; [intros Hz'; change (nv_length r') with (nv_length r) in Hz'; lia|cbn; lia].
    + destruct (Hd' Hz) as (b & Eb & Hb). apply (saved_snoc (ranges s) _ _ _ r' (mem s) _ b); try done; [|cbn; lia]. intros _. split; [done|].
      change (nv_vmaddr r') with (nv_vmaddr r). change (nv_length r') with (nv_length r). by rewrite Hv, Hlen.
Qed.

End RvmSet.
