(* ===== verification/RvmMerge.v ===== *)
(** * Transactions of the recoverable memory: coalesced ranges

    With the coalescing of ranges the ranges of a transaction are disjoint and not
    even adjacent, in the order of their regions and addresses.  rvm_set_range finds
    the ranges that the new one touches, and merges them with it into the first of
    them: its buffer gets the old values of the merged ranges, and what the memory
    holds between them. *)
From Stdlib Require Import ZArith Lia Bool.
From stdpp Require Import base list numbers gmap sorting.
From S2P Require Import Prelude.
From S2P Require Import RvmOffset.
From S2P Require Import RvmTree.
From S2P Require Import RvmAvl.
From S2P Require Import RvmIter.
From S2P Require Import RvmLoops.
From S2P Require Import RvmTrans.
From S2P Require Import RvmCells.
From S2P Require Import RvmTx.
From S2P Require Import RvmSet.
Import RvmOffset RvmTree RvmAvl RvmIter RvmLoops RvmTrans RvmCells RvmTx RvmSet.
Open Scope Z_scope.

Module RvmMerge.

Open Scope rvm_scope.

(** The offsets of a range stand for the addresses from [a] to [e]. *)
Definition spans (s : rvm) (r : range) (a e : Z) : Prop :=
  exists g, regions s !! region r = Some g /\ offset_ok (nv_offset r) /\ offset_ok (end_offset r) /\
    oval (nv_offset r) = oval (rgn_offset g) + (a - rgn_vmaddr g) /\ oval (end_offset r) = oval (rgn_offset g) + (e - rgn_vmaddr g).

Lemma range_at_spans s r : range_at s r -> spans s r (nv_vmaddr r) (nv_vmaddr r + nv_length r).
Proof. intros (_ & g & Eg & H1 & H2 & H3 & H4). exists g. repeat split; try apply H1; try apply H2; [done|lia|lia]. Qed.

Definition compare_spans (g1 a1 e1 g2 a2 e2 : Z) : Z :=
  if g1 =? g2 then if e2 <? a1 then 1 else if e1 <? a2 then -1 else 0 else if g1 >? g2 then 1 else -1.

Lemma region_partial_include_spec s a b r1 r2 a1 e1 a2 e2 : ranges s !! a = Some r1 -> ranges s !! b = Some r2 -> spans s r1 a1 e1 -> spans s r2 a2 e2 ->
  region_partial_include s a b = compare_spans (region r1) a1 e1 (region r2) a2 e2.
Proof.
  intros E1 E2 (g1 & G1 & H1 & H2 & H3 & H4) (g2 & G2 & H5 & H6 & H7 & H8). unfold region_partial_include, compare_spans. rewrite E1, E2. cbn [compare_with].
  destruct (Z.eqb_spec (region r1) (region r2)) as [E|E]; [|done]. rewrite E in G1. assert (g1 = g2) as -> by congruence. rewrite oval_gtr, oval_lss by done. rewrite H3, H4, H7, H8.
  destruct (Z.ltb_spec e2 a1), (Z.ltb_spec (oval (rgn_offset g2) + (e2 - rgn_vmaddr g2)) (oval (rgn_offset g2) + (a1 - rgn_vmaddr g2))); try lia.
  destruct (Z.ltb_spec e1 a2), (Z.ltb_spec (oval (rgn_offset g2) + (e1 - rgn_vmaddr g2)) (oval (rgn_offset g2) + (a2 - rgn_vmaddr g2))); lia.
Qed.

Lemma contained_spec s n r a1 e1 a2 e2 : spans s n a1 e1 -> spans s r a2 e2 -> region n = region r -> contained n r = (a2 <=? a1) && (e1 <=? e2).
Proof.
  intros (g1 & G1 & H1 & H2 & H3 & H4) (g2 & G2 & H5 & H6 & H7 & H8) E. rewrite E in G1. assert (g1 = g2) as -> by congruence. unfold contained. rewrite oval_geq, oval_leq by done. rewrite H3, H4, H7, H8.
  f_equal; apply Bool.eq_iff_eq_true; rewrite !Z.leb_le; lia.
Qed.

(** The composite range; [k] bounds the length of the region. *)
Lemma extend_spec s n r a1 e1 a2 e2 : spans s n a1 e1 -> spans s r a2 e2 -> region n = region r -> (a2 < a1 -> e2 <= e1) -> 0 <= Z.max e1 e2 - Z.min a1 a2 < 2 ^ 64 ->
  let n' := (extend n r).1 in
  spans s n' (Z.min a1 a2) (Z.max e1 e2) /\ nv_length n' = Z.max e1 e2 - Z.min a1 a2 /\ region n' = region n /\ nv_vmaddr n' = nv_vmaddr n /\ data n' = data n.
Proof.
  intros (g1 & G1 & H1 & H2 & H3 & H4) (g2 & G2 & H5 & H6 & H7 & H8) E Hs Hlen. rewrite E in G1. assert (g1 = g2) as -> by congruence.
  unfold extend. rewrite oval_lss, oval_gtr by done.
  assert (forall o e, offset_ok o -> offset_ok e -> oval o = oval (rgn_offset g2) + (Z.min a1 a2 - rgn_vmaddr g2) -> oval e = oval (rgn_offset g2) + (Z.max e1 e2 - rgn_vmaddr g2) ->
    forall f : rvm_offset -> rvm_offset, let n' := (with_extent n (RVM_OFFSET_TO_LENGTH (rvm_sub_offsets e o)) o e, f).1 in
    spans s n' (Z.min a1 a2) (Z.max e1 e2) /\ nv_length n' = Z.max e1 e2 - Z.min a1 a2 /\ region n' = region n /\ nv_vmaddr n' = nv_vmaddr n /\ data n' = data n) as Hgoal.
  { intros o e Ho He Eo Ee f. cbn [fst with_extent nv_length region nv_vmaddr data]. split; [exists g2; cbn [region nv_offset end_offset with_extent]; rewrite E; repeat split; done || apply Ho || apply He|]. split; [|done]. destruct (oval_sub_offsets e o He Ho) as [Hk1 Hk2].
    unfold RVM_OFFSET_TO_LENGTH. assert (oval (rvm_sub_offsets e o) = Z.max e1 e2 - Z.min a1 a2) as Hv by (rewrite Hk2; rewrite uwrap_small; lia). rewrite oval_low; [exact Hv|exact Hk1|lia]. }
  destruct (Z.ltb_spec (oval (nv_offset r)) (oval (nv_offset n))); [apply Hgoal; try done; lia|]. destruct (Z.ltb_spec (oval (end_offset n)) (oval (end_offset r))); apply Hgoal; try done; lia.
Qed.

(** ** Ranges in order *)
Definition rg (rs : gmap Z range) (x : Z) : Z := match rs !! x with Some r => region r | None => 0 end.
Definition vm (rs : gmap Z range) (x : Z) : Z := match rs !! x with Some r => nv_vmaddr r | None => 0 end.
Definition en (rs : gmap Z range) (x : Z) : Z := match rs !! x with Some r => nv_vmaddr r + nv_length r | None => 0 end.

Definition before_range (rs : gmap Z range) (x y : Z) : Prop := rg rs x < rg rs y \/ (rg rs x = rg rs y /\ en rs x < vm rs y).

Record ordered (s : rvm) (xs : list Z) : Prop := {
  o_sorted : StronglySorted (before_range (ranges s)) xs;
  o_ranges : Forall (fun x => exists r, ranges s !! x = Some r /\ range_at s r /\ 0 < nv_length r) xs
}.

Lemma ordered_at s xs x : ordered s xs -> x ∈ xs -> exists r, ranges s !! x = Some r /\ range_at s r /\ 0 < nv_length r /\ rg (ranges s) x = region r /\ vm (ranges s) x = nv_vmaddr r /\ en (ranges s) x = nv_vmaddr r + nv_length r /\
  vm (ranges s) x < en (ranges s) x.
Proof.
  intros Ho Hx. pose proof (o_ranges _ _ Ho) as H. rewrite Forall_forall in H. destruct (H x Hx) as (r & Er & Hr & Hl). exists r. unfold rg, vm, en. rewrite Er. repeat split; done || lia || apply Hr.
Qed.

(** How the new range compares with the others, when it spans [a] to [e]. *)
Definition against (s : rvm) (n : range) (a e x : Z) : Z := compare_spans (region n) a e (rg (ranges s) x) (vm (ranges s) x) (en (ranges s) x).

Lemma against_spec s xs new n a e x : ordered s xs -> x ∈ xs -> ranges s !! new = Some n -> spans s n a e ->
  region_partial_include s new x = against s n a e x /\ region_partial_include s x new = compare_spans (rg (ranges s) x) (vm (ranges s) x) (en (ranges s) x) (region n) a e.
Proof.
  intros Ho Hx En Hn. destruct (ordered_at s xs x Ho Hx) as (r & Er & Hr & _ & E1 & E2 & E3 & _). unfold against. rewrite E1, E2, E3. apply range_at_spans in Hr.
  split; by apply region_partial_include_spec.
Qed.

Ltac compare_cases :=
  unfold against, compare_spans in *; rewrite ?Z.gtb_ltb in *;
  repeat match goal with
  | |- context [?x =? ?y] => destruct (Z.eqb_spec x y)
  | |- context [?x <? ?y] => destruct (Z.ltb_spec x y)
  | H : context [?x =? ?y] |- _ => destruct (Z.eqb_spec x y)
  | H : context [?x <? ?y] |- _ => destruct (Z.ltb_spec x y)
  end; try lia.

Lemma overlap_cut s xs new n a e : ordered s xs -> ranges s !! new = Some n -> spans s n a e -> a <= e ->
  exists l1 mid l2, xs = l1 ++ mid ++ l2 /\ cut (region_partial_include s) new l1 mid l2 /\
    Forall (fun x => region_partial_include s x new = -1) l1 /\ Forall (fun x => region_partial_include s x new = 0) mid /\
    Forall (fun x => rg (ranges s) x = region n /\ vm (ranges s) x <= e /\ a <= en (ranges s) x) mid /\
    Forall (fun x => region n < rg (ranges s) x \/ (region n = rg (ranges s) x /\ e < vm (ranges s) x)) l2 /\
    Forall (fun x => rg (ranges s) x < region n \/ (rg (ranges s) x = region n /\ en (ranges s) x < a)) l1.
Proof.
  intros Ho En Hn Hae. assert (forall x, x ∈ xs -> region_partial_include s new x = against s n a e x) as Hag by (intros x Hx; by apply (against_spec s xs)).
  assert (forall x, x ∈ xs -> vm (ranges s) x < en (ranges s) x) as Hlt by (intros x Hx; by destruct (ordered_at s xs x Ho Hx) as (r & _ & _ & _ & _ & _ & _ & H)).
  destruct (cut_exists (region_partial_include s) new xs) as (l1 & mid & l2 & -> & Hc).
  - eapply sorted_impl; [apply (o_sorted _ _ Ho)|]. intros x y Hx Hy Hb. rewrite !Hag by done. specialize (Hlt x Hx) as Hx'. specialize (Hlt y Hy). unfold before_range in Hb. split; intros H; compare_cases.
  - apply Forall_forall. intros x Hx. rewrite Hag by done. compare_cases.
  - exists l1, mid, l2. split; [done|]. split; [done|]. destruct Hc as (H1 & H2 & H3). rewrite Forall_forall in H1, H2, H3.
    assert (forall x, x ∈ l1 ++ mid ++ l2 -> region_partial_include s x new = compare_spans (rg (ranges s) x) (vm (ranges s) x) (en (ranges s) x) (region n) a e) as Hrev by (intros x Hx; by eapply against_spec).
    assert (forall x, x ∈ l1 -> x ∈ l1 ++ mid ++ l2) as I1 by set_solver. assert (forall x, x ∈ mid -> x ∈ l1 ++ mid ++ l2) as I2 by set_solver. assert (forall x, x ∈ l2 -> x ∈ l1 ++ mid ++ l2) as I3 by set_solver.
    repeat apply conj; apply Forall_forall; intros x Hx; [rewrite Hrev by auto; specialize (H1 x Hx)|rewrite Hrev by auto; specialize (H2 x Hx)|specialize (H2 x Hx)|specialize (H3 x Hx)|specialize (H1 x Hx)];
      cbv beta in *; rewrite Hag in * by auto; pose proof (Hlt x ltac:(auto)); compare_cases.
Qed.

(** ** The search for overlaps *)
Definition x_ok (t : int_tid) : Prop := match x_ranges t with None => x_ranges_alloc t = 0 | Some l => zlen l <= x_ranges_alloc t end.
(** Only the search vector and the savings have changed. *)
Definition same_tid (t t' : int_tid) : Prop := uname t' = uname t /\ commit_stamp t' = commit_stamp t /\ flags t' = flags t /\ range_tree t' = range_tree t.
Definition found (t : int_tid) : list Z := match x_ranges t with Some l => l | None => [] end.

Lemma same_tid_trans t1 t2 t3 : same_tid t1 t2 -> same_tid t2 t3 -> same_tid t1 t3.
Proof. intros (? & ? & ? & ?) (? & ? & ? & ?). repeat split; congruence. Qed.

Lemma with_tids_id s tid t : tids s !! tid = Some t -> with_tids s (<[tid := t]> (tids s)) = s.
Proof. intros H. rewrite insert_id by done. by destruct s. Qed.

Lemma alloc_x_ranges_spec s tid t : mallocs s = [] -> tids s !! tid = Some t -> x_ok t ->
  exists t1, same_tid t t1 /\ x_ranges t1 = Some (found t) /\ zlen (found t) + 1 <= x_ranges_alloc t1 /\ alloc_x_ranges tid 1 s = Ret (true, with_tids s (<[tid := t1]> (tids s))).
Proof.
  intros Hma Ht Hx. unfold alloc_x_ranges. rewrite (run_get_int_tid tid t) by done. unfold x_ranges_len, x_ok, found in *. rewrite Z.gtb_ltb. change (1 <=? X_RANGES_INCR) with true. cbv iota.
  destruct (x_ranges t) as [l|] eqn:El.
  - destruct (Z.ltb_spec (x_ranges_alloc t) (zlen l + 1)) as [Hlt|Hge].
    + rewrite run_malloc_ok, run_put_int_tid by done. eexists. split; [|split; [|split; [|done]]]; [by repeat split|done|cbn; unfold X_RANGES_INCR; lia].
    + exists t. split; [by repeat split|]. split; [done|]. split; [lia|]. by rewrite with_tids_id.
  - rewrite Hx. change (0 <? 0 + 1) with true. cbv iota. rewrite run_malloc_ok, run_put_int_tid by done. eexists. split; [|split; [|split; [|done]]]; [by repeat split|done|cbn [with_x_ranges x_ranges_alloc]; rewrite zlen_nil; unfold X_RANGES_INCR; lia].
Qed.

(** The range [x] goes to the search vector. *)
Lemma run_note {B} s tid t x (k1 k : M B) : mallocs s = [] -> tids s !! tid = Some t -> x_ok t ->
  exists t', same_tid t t' /\ x_ok t' /\ x_ranges t' = Some (found t ++ [x]) /\
    (let! ok := alloc_x_ranges tid 1 in if negb ok then k1 else push_x_range tid x ;;! count_elim tid ;;! k) s = k (with_tids s (<[tid := t']> (tids s))).
Proof.
  intros Hma Ht Hx. destruct (alloc_x_ranges_spec s tid t Hma Ht Hx) as (t1 & (S1 & S2 & S3 & S4) & H2 & H3 & E). rewrite (run_eq _ _ _ _ _ E). cbn [negb].
  exists (with_savings (with_x_ranges t1 (Some (found t ++ [x])) (x_ranges_alloc t1)) (u64 (range_elim t1 + 1)) (range_overlap t1)). split; [by repeat split|].
  split; [unfold x_ok; cbn; rewrite zlen_app; change (zlen [x]) with 1; lia|]. split; [done|].
  unfold push_x_range. rewrite run_bind, (run_get_int_tid tid t1) by apply lookup_insert_eq. rewrite run_bind, (run_fetch _ (found t)) by done. rewrite run_put_int_tid. unfold count_elim. rewrite run_bind.
  erewrite run_get_int_tid by (cbn; apply lookup_insert_eq). rewrite run_put_int_tid. cbn [tids with_tids]. unfold with_tids. cbn. by rewrite !insert_insert_eq.
Qed.

Lemma run_count_overlap {B} s tid t f (k : unit -> M B) : tids s !! tid = Some t -> mbnd (count_overlap tid f) k s = k tt (with_tids s (<[tid := with_savings t (range_elim t) (f (range_overlap t))]> (tids s))).
Proof. intros Ht. unfold count_overlap. rewrite run_bind, (run_get_int_tid tid t) by done. by rewrite run_put_int_tid. Qed.

(** The state of the search: [t] at [tid] and [n] as the new range. *)
Definition searching (s : rvm) (tid : Z) (t : int_tid) (new : Z) (n : range) : rvm :=
  with_ranges (with_tids s (<[tid := t]> (tids s))) (<[new := n]> (ranges s)).
Lemma searching_id s tid t new n : tids s !! tid = Some t -> ranges s !! new = Some n -> searching s tid t new n = s.
Proof. intros H1 H2. unfold searching. rewrite with_tids_id by done. rewrite insert_id by done. by destruct s. Qed.
Lemma searching_searching s tid t new n t' n' : searching (searching s tid t new n) tid t' new n' = searching s tid t' new n'.
Proof. unfold searching, with_ranges, with_tids. cbn. by rewrite !insert_insert_eq. Qed.

Lemma searching_tids s tid t new n : ranges s !! new = Some n -> searching s tid t new n = with_tids s (<[tid := t]> (tids s)).
Proof. intros H. unfold searching, with_ranges, with_tids. cbn. by rewrite insert_id. Qed.
Lemma with_tids_tids s tid t t' : with_tids (with_tids s (<[tid := t]> (tids s))) (<[tid := t']> (tids (with_tids s (<[tid := t]> (tids s))))) = with_tids s (<[tid := t']> (tids s)).
Proof. unfold with_tids. cbn. by rewrite insert_insert_eq. Qed.

(** One round: the range [x] touches the new one. *)
Lemma overlap_body_touch s tid t new n x r : mallocs s = [] -> tids s !! tid = Some t -> x_ok t -> ranges s !! new = Some n -> ranges s !! x = Some r -> region_partial_include s new x = 0 ->
  exists t', same_tid t t' /\ x_ok t' /\ x_ranges t' = Some (found t ++ [x]) /\
    run (overlap_body tid new region_partial_include) x s =
      if bool_decide (found t = []) && contained n r then Ret (inr ((true, RVM_SUCCESS), searching s tid t' new n)) else Ret (inl (searching s tid t' new (extend n r).1)).
Proof.
  intros Hma Ht Hx En Er Hc. unfold run, overlap_body. rewrite run_get, Hc. cbn [negb Z.eqb].
  match goal with |- context [let! ok := alloc_x_ranges tid 1 in if negb ok then ?k1 else push_x_range tid x ;;! count_elim tid ;;! ?k] =>
    destruct (run_note s tid t x k1 k Hma Ht Hx) as (t1 & S1 & H2 & H3 & ->) end.
  rewrite (run_get_range new n), (run_get_range x r) by done. rewrite (run_get_int_tid tid t1) by apply lookup_insert_eq.
  assert ((x_ranges_len t1 =? 1) = bool_decide (found t = [])) as ->.
  { unfold x_ranges_len. rewrite H3, zlen_app. change (zlen [x]) with 1. destruct (found t) as [|y l]; [done|]. rewrite zlen_cons. pose proof (zlen_nonneg l). cbn [bool_decide]. rewrite bool_decide_false by done. apply Z.eqb_neq. lia. }
  destruct (bool_decide (found t = []) && contained n r).
  - rewrite (run_count_overlap _ tid t1), with_tids_tids by apply lookup_insert_eq. eexists. split; [|split; [|split; [|by rewrite searching_tids]]]; done.
  - destruct (extend n r) as [n' f]. rewrite (run_count_overlap _ tid t1), with_tids_tids by apply lookup_insert_eq. rewrite run_put_range.
    eexists. split; [|split; [|split; [|done]]]; done.
Qed.

Lemma overlap_body_past s tid new x : region_partial_include s new x <> 0 -> run (overlap_body tid new region_partial_include) x s = Ret (inr ((false, RVM_SUCCESS), s)).
Proof. intros Hc. unfold run, overlap_body. rewrite run_get. by destruct (Z.eqb_spec (region_partial_include s new x) 0). Qed.

(** The bounds of the composite range. *)
Definition hull_a (rs : gmap Z range) (xs : list Z) (a : Z) : Z := foldl (fun a x => Z.min a (vm rs x)) a xs.
Definition hull_e (rs : gmap Z range) (xs : list Z) (e : Z) : Z := foldl (fun e x => Z.max e (en rs x)) e xs.

Lemma hull_a_spec rs xs : forall a, hull_a rs xs a <= a /\ Forall (fun x => hull_a rs xs a <= vm rs x) xs /\ (hull_a rs xs a = a \/ exists x, x ∈ xs /\ hull_a rs xs a = vm rs x).
Proof.
  induction xs as [|x xs IH]; intros a; [cbn; split; [lia|]; split; [constructor|by left]|]. change (hull_a rs (x :: xs) a) with (hull_a rs xs (Z.min a (vm rs x))).
  destruct (IH (Z.min a (vm rs x))) as (H1 & H2 & H3). split; [lia|]. split; [constructor; [lia|done]|]. destruct H3 as [H3|(y & Hy & H3)]; [|right; exists y; split; [set_solver|done]].
  destruct (Z.min_spec a (vm rs x)) as [[_ E]|[_ E]]; [left; lia|right; exists x; split; [set_solver|lia]].
Qed.
Lemma hull_e_spec rs xs : forall e, e <= hull_e rs xs e /\ Forall (fun x => en rs x <= hull_e rs xs e) xs /\ (hull_e rs xs e = e \/ exists x, x ∈ xs /\ hull_e rs xs e = en rs x).
Proof.
  induction xs as [|x xs IH]; intros e; [cbn; split; [lia|]; split; [constructor|by left]|]. change (hull_e rs (x :: xs) e) with (hull_e rs xs (Z.max e (en rs x))).
  destruct (IH (Z.max e (en rs x))) as (H1 & H2 & H3). split; [lia|]. split; [constructor; [lia|done]|]. destruct H3 as [H3|(y & Hy & H3)]; [|right; exists y; split; [set_solver|done]].
  destruct (Z.max_spec e (en rs x)) as [[_ E]|[_ E]]; [right; exists x; split; [set_solver|lia]|left; lia].
Qed.

Section Overlap.
Context (s0 : rvm) (tid new lo hi : Z) (Hma : mallocs s0 = []) (Hsize : hi - lo < 2 ^ 64).
Abbreviation rs := (ranges s0).
Abbreviation body := (run (overlap_body tid new region_partial_include)).

(** The new range as the search has extended it. *)
Definition extended (n n' : range) (a e : Z) : Prop :=
  region n' = region n /\ nv_vmaddr n' = nv_vmaddr n /\ data n' = data n /\ spans s0 n' a e /\ nv_length n' = e - a.

Lemma overlap_loop l2 mid : forall t n a e, x_ok t -> spans s0 n a e -> nv_length n = e - a -> lo <= a -> a <= e -> e <= hi -> new ∉ mid ++ l2 -> ordered s0 (mid ++ l2) ->
  Forall (fun x => rg rs x = region n /\ vm rs x <= e /\ a <= en rs x /\ lo <= vm rs x /\ en rs x <= hi) mid ->
  Forall (fun x => rg rs x <> region n \/ e < vm rs x) l2 ->
  (found t = [] -> match mid with x :: _ => ~ (vm rs x <= a /\ e <= en rs x) | [] => True end) -> (found t <> [] -> Forall (fun x => a <= vm rs x) mid) ->
  exists t' n', same_tid t t' /\ x_ok t' /\ found t' = found t ++ mid /\ extended n n' (hull_a rs mid a) (hull_e rs mid e) /\
    (each body (mid ++ l2) (searching s0 tid t new n) = Ret (inl (searching s0 tid t' new n')) \/
     each body (mid ++ l2) (searching s0 tid t new n) = Ret (inr ((false, RVM_SUCCESS), searching s0 tid t' new n'))).
Proof using Hma Hsize.
  induction mid as [|x mid IH]; intros t n a e Hx Hn Hnl Hlo Hae Hhi Hnew Ho Hmid Hl2 Hfirst Hnext.
  - exists t, n. rewrite app_nil_r. split; [by repeat split|]. split; [done|]. split; [done|]. split; [by repeat split|]. destruct l2 as [|y l2]; [by left|right]. cbn [app each].
    apply Forall_cons in Hl2 as [Hy _]. destruct (ordered_at s0 _ y Ho) as (r & Er & Hr & Hl & E1 & E2 & E3 & Hlt); [set_solver|]. rewrite overlap_body_past; [done|].
    rewrite (region_partial_include_spec _ new y n r a e (nv_vmaddr r) (nv_vmaddr r + nv_length r)); [|apply lookup_insert_eq|cbn; rewrite lookup_insert_ne by set_solver; done|done|by apply range_at_spans].
    rewrite E1, E2, E3 in *. compare_cases.
  - apply Forall_cons in Hmid as [(Hx1 & Hx2 & Hx3 & Hx4 & Hx5) Hmid]. destruct (ordered_at s0 _ x Ho) as (r & Er & Hr & Hl & E1 & E2 & E3 & Hlt); [set_solver|].
    assert (x <> new) as Hxn by set_solver. set (s := searching s0 tid t new n).
    destruct (overlap_body_touch s tid t new n x r) as (t1 & S1 & Hx' & Hfx & Eb); [done|apply lookup_insert_eq|done|apply lookup_insert_eq|cbn; rewrite lookup_insert_ne by done; done|..].
    { rewrite (region_partial_include_spec _ new x n r a e (nv_vmaddr r) (nv_vmaddr r + nv_length r)); [|apply lookup_insert_eq|cbn; rewrite lookup_insert_ne by done; done|done|by apply range_at_spans].
      rewrite E1, E2, E3 in *. compare_cases. }
    assert (bool_decide (found t = []) && contained n r = false) as Hnc.
    { destruct (decide (found t = [])) as [E|E]; [|by rewrite bool_decide_false]. rewrite bool_decide_true by done. cbn [andb].
      rewrite (contained_spec s0 n r a e (nv_vmaddr r) (nv_vmaddr r + nv_length r)) by (done || by apply range_at_spans || congruence). specialize (Hfirst E). rewrite E2, E3 in Hfirst.
      apply andb_false_iff. rewrite !Z.leb_gt. lia. }
    rewrite Hnc in Eb. cbn [app each]. fold s. rewrite Eb. cbn [rbind]. unfold s. rewrite searching_searching.
    assert (vm rs x < a -> en rs x <= e) as Hside by (intros Hva; destruct (decide (found t = [])) as [E|E]; [specialize (Hfirst E); lia|specialize (Hnext E); apply Forall_cons in Hnext as [? _]; lia]).
    destruct (extend_spec s0 n r a e (vm rs x) (en rs x)) as (F1 & F2 & F3 & F4 & F5); [done|rewrite E2, E3; by apply range_at_spans|congruence|done|lia|].
    set (n1 := (extend n r).1) in *. assert (found t1 = found t ++ [x]) as Hf1 by (unfold found at 1; by rewrite Hfx).
    assert (forall y, y ∈ mid ++ l2 -> before_range rs x y) as Hbef by (intros y Hy; pose proof (o_sorted _ _ Ho) as H; cbn [app] in H; apply StronglySorted_inv in H as [_ H]; rewrite Forall_forall in H; by apply H).
    assert (ordered s0 (mid ++ l2)) as Ho' by (destruct Ho as [O1 O2]; cbn [app] in *; apply StronglySorted_inv in O1 as [O1 _]; apply Forall_cons in O2 as [_ O2]; by split).
    destruct (IH t1 n1 (Z.min a (vm rs x)) (Z.max e (en rs x))) as (t' & n' & S' & Hx'' & Hf' & (G1 & G2 & G3 & G4) & Hres); try done; try lia.
    + set_solver.
    + rewrite F3. eapply Forall_impl; [exact Hmid|]. cbn. intros y. lia.
    + rewrite F3. rewrite Forall_forall in Hl2 |- *. intros y Hy. specialize (Hl2 y Hy). specialize (Hbef y ltac:(set_solver)). unfold before_range in Hbef. lia.
    + rewrite Hf1. by destruct (found t).
    + intros _. rewrite Forall_forall in Hmid |- *. intros y Hy. specialize (Hmid y Hy). specialize (Hbef y ltac:(set_solver)). unfold before_range in Hbef. lia.
    + exists t', n'. split; [by eapply same_tid_trans|]. split; [done|]. split; [by rewrite Hf', Hf1, <- app_assoc|]. split; [|done]. repeat split; try congruence; [exact (proj1 G4)|exact (proj2 G4)].
Qed.
End Overlap.

Lemma over_tree_out {R} loop tid t t' (body : Z -> M (option R)) s r tr : tids s !! tid = Some t -> loop (range_tree t) (run body) s = Ret (tr, r) ->
  let s' := match r with inl s' => s' | inr (_, s') => s' end in
  tids s' !! tid = Some t' -> over_tree loop tid body s = Ret (match r with inl _ => None | inr (v, _) => Some v end, with_tids s' (<[tid := with_tree t' tr]> (tids s'))).
Proof.
  intros Ht El s' Ht'. unfold over_tree. rewrite (run_get_int_tid tid t) by done. rewrite El. cbn [rbind]. destruct r as [s1|[v s1]]; cbn in s'; subst s'; by rewrite (run_get_int_tid tid t').
Qed.

(** The outcome of the search, for a new range that spans [a] to [e]. *)
Definition same_but_tree (t t' : int_tid) : Prop := uname t' = uname t /\ commit_stamp t' = commit_stamp t /\ flags t' = flags t.

Section FindOverlap.
Context (s : rvm) (tid : Z) (t : int_tid) (xs : list Z) (new : Z) (n : range) (a e : Z).
Context (Hma : mallocs s = []) (Ht : tids s !! tid = Some t) (Hx : x_ok t) (Htree : tree_ok (range_tree t) xs) (Hroom : room (range_tree t)) (Haddr : addrs_ok xs)
  (Hfew : few (new :: xs)) (Ho : ordered s xs) (Hnew : new ∉ xs) (En : ranges s !! new = Some n) (Hn : spans s n a e) (Hlen : nv_length n = e - a) (Hae : 0 <= a < e) (Hhi : e <= 2 ^ 64 - 8) (Hm : mapped s).
Abbreviation rs := (ranges s).

Definition touched (l1 mid l2 : list Z) : Prop :=
  xs = l1 ++ mid ++ l2 /\ Forall (fun x => rg rs x = region n /\ vm rs x <= e /\ a <= en rs x) mid /\
  Forall (fun x => region n < rg rs x \/ (region n = rg rs x /\ e < vm rs x)) l2 /\ Forall (fun x => rg rs x < region n \/ (rg rs x = region n /\ en rs x < a)) l1.

Lemma find_overlap_spec : exists l1 mid l2 t' n' out, touched l1 mid l2 /\ find_overlap tid new region_partial_include s = Ret (out, searching s tid t' new n') /\
  same_but_tree t t' /\ x_ok t' /\ room (range_tree t') /\
  match mid with
  | [] => out = (false, RVM_SUCCESS) /\ n' = n /\ found t' = [] /\ tree_ok (range_tree t') (l1 ++ new :: l2)
  | x :: _ => tree_ok (range_tree t') xs /\
      ((vm rs x <= a /\ e <= en rs x /\ out = (true, RVM_SUCCESS) /\ n' = n) \/
       (~ (vm rs x <= a /\ e <= en rs x) /\ out = (false, RVM_SUCCESS) /\ found t' = mid /\ extended s n n' (hull_a rs mid a) (hull_e rs mid e)))
  end.
Proof using Hma Ht Hx Htree Hroom Haddr Hfew Ho Hnew En Hn Hlen Hae Hhi Hm.
  destruct (overlap_cut s xs new n a e Ho En Hn ltac:(lia)) as (l1 & mid & l2 & Exs & Hc & Hr1 & Hr2 & Hmid & Hl2 & Hl1).
  unfold find_overlap. rewrite (run_get_int_tid tid t), run_put_int_tid, run_get by done. set (t0 := with_x_ranges t _ _). set (s1 := with_tids s _).
  assert (tids s1 !! tid = Some t0) as Ht1 by apply lookup_insert_eq. assert (found t0 = []) as Hf0 by (unfold found; cbn; by destruct (x_ranges t)).
  assert (x_ok t0) as Hx0 by (unfold x_ok in *; cbn; destruct (x_ranges t) as [l|]; cbn; [rewrite zlen_nil; pose proof (zlen_nonneg l); lia|done]).
  assert (s1 = searching s tid t0 new n) as Es1 by by rewrite searching_tids.
  pose proof (FROM_EXISTING_NODE_OF_spec (region_partial_include s1) new (range_tree t0) l1 mid l2 (run (overlap_body tid new region_partial_include)) s1) as Hloop.
  rewrite <- Exs in Hloop. destruct (Hloop Hroom Htree Haddr Hc Hr1 Hr2) as [Hnone Hsome]. clear Hloop. exists l1, mid, l2. destruct mid as [|x mid].
  - destruct (Hnone eq_refl) as (tr' & El & Htr' & Hroom'). exists (with_tree t0 tr'), n, (false, RVM_SUCCESS). split; [by repeat split|].
    rewrite (run_eq _ _ _ _ _ (over_tree_out (fun tr body s => FROM_EXISTING_NODE_OF (region_partial_include s1) tr new body s) tid t0 t0 _ s1 (inl s1) tr' Ht1 El Ht1)). cbn [default]. unfold s1 at 1 2. rewrite with_tids_tids, <- (searching_tids s tid _ new n) by done.
    split; [done|]. split; [done|]. split; [done|]. split; [|done]. apply Hroom'. unfold few in *. rewrite zlen_app, zlen_cons in *. rewrite Exs in Hfew. cbn [app] in Hfew. rewrite zlen_app in Hfew. lia.
  - specialize (Hsome ltac:(done)). destruct (decide (vm rs x <= a /\ e <= en rs x)) as [Hin|Hout].
    + apply Forall_cons in Hmid as [(M1 & M2 & M3) Hmid]. destruct (ordered_at s xs x Ho) as (r & Er & Hr & Hl & E1 & E2 & E3 & Hlt); [set_solver|].
      destruct (overlap_body_touch s1 tid t0 new n x r) as (t1 & S1 & Hx' & Hfx & Eb); try done.
      { apply Forall_cons in Hr2 as [_ _]. destruct Hc as (_ & Hc & _). by apply Forall_cons in Hc as [Hc _]. }
      assert (bool_decide (found t0 = []) && contained n r = true) as Hcon.
      { rewrite Hf0, bool_decide_true by done. cbn [andb]. rewrite (contained_spec s n r a e (vm rs x) (en rs x)) by (done || (rewrite E2, E3; by apply range_at_spans) || congruence). apply andb_true_iff. rewrite !Z.leb_le. lia. }
      rewrite Hcon in Eb. cbn [app each] in Hsome. rewrite Eb in Hsome. cbn [rbind] in Hsome. destruct Hsome as (tr' & El & Hsn). destruct (same_nodes_ok _ _ _ Hsn Hroom Htree) as [Hroom' Htree'].
      exists (with_tree t1 tr'), n, (true, RVM_SUCCESS). split; [by repeat split; try constructor|]. destruct S1 as (U1 & U2 & U3 & U4).
      assert (tids (searching s1 tid t1 new n) !! tid = Some t1) as Ht2 by apply lookup_insert_eq.
      rewrite (run_eq _ _ _ _ _ (over_tree_out (fun tr body s => FROM_EXISTING_NODE_OF (region_partial_include s1) tr new body s) tid t0 t1 _ s1 (inr ((true, RVM_SUCCESS), searching s1 tid t1 new n)) tr' Ht1 El Ht2)).
      cbn [default]. split; [|split; [done|split; [done|split; [done|split; [done|left; repeat split; lia || done]]]]]. unfold ret. do 2 f_equal. rewrite Es1, searching_searching. unfold searching, with_tids, with_ranges. cbn. by rewrite insert_insert_eq.
    + destruct (overlap_loop s tid new 0 (2 ^ 64 - 8) Hma ltac:(lia) l2 (x :: mid) t0 n a e) as (t1 & n' & (U1 & U2 & U3 & U4) & Hx' & Hf' & Hext & Heach); try done; try lia.
      { rewrite Exs in Hnew. set_solver. } { destruct Ho as [O1 O2]. rewrite Exs in O1, O2. apply StronglySorted_app in O1 as (_ & _ & O1). apply Forall_app in O2 as [_ O2]. by split. }
      { rewrite Forall_forall in Hmid |- *. intros y Hy. destruct (Hmid y Hy) as (? & ? & ?). destruct (ordered_at s xs y Ho) as (r & Er & [Hr _] & Hl & E1 & E2 & E3 & Hlt); [set_solver|].
        destruct (region_place s _ _ _ Hm Hr) as (g & k & _ & _ & ? & ? & ? & _). lia. }
      { eapply Forall_impl; [exact Hl2|]. cbn. intros y. lia. }
      rewrite Hf0 in Hf'. cbn [app] in Hf'. rewrite <- Es1 in Heach.
      assert (exists r tr', (r = inl (searching s tid t1 new n') \/ r = inr ((false, RVM_SUCCESS), searching s tid t1 new n')) /\ FROM_EXISTING_NODE_OF (region_partial_include s1) (range_tree t0) new (run (overlap_body tid new region_partial_include)) s1 = Ret (tr', r) /\ same_nodes (range_tree t0) tr') as (r & tr' & Hr & El & Hsn).
      { destruct Heach as [Heach|Heach]; rewrite Heach in Hsome; destruct Hsome as (tr' & El & Hsn); eauto 10. }
      destruct (same_nodes_ok _ _ _ Hsn Hroom Htree) as [Hroom' Htree']. exists (with_tree t1 tr'), n', (false, RVM_SUCCESS). split; [exact (conj Exs (conj Hmid (conj Hl2 Hl1)))|].
      assert (tids (searching s tid t1 new n') !! tid = Some t1) as Ht2 by apply lookup_insert_eq.
      assert (tids (match r with inl s' => s' | inr (_, s') => s' end) !! tid = Some t1) as Ht3 by by destruct Hr as [-> | ->].
      rewrite (run_eq _ _ _ _ _ (over_tree_out (fun tr body s => FROM_EXISTING_NODE_OF (region_partial_include s1) tr new body s) tid t0 t1 _ s1 r tr' Ht1 El Ht3)).
      split; [|split; [done|split; [done|split; [done|split; [done|right; by split; [|split; [|split]]]]]]].
      destruct Hr as [-> | ->]; cbn [default]; unfold ret; do 2 f_equal; unfold searching, with_tids, with_ranges; cbn; by rewrite insert_insert_eq.
Qed.
End FindOverlap.

(** ** The merge *)

Lemma copy_old_spec s new n r b br m0 A v i E last : ranges s !! new = Some n -> nv_vmaddr n = A -> data n = Some b -> 0 <= A -> 0 <= v -> v = A + i -> holds b m0 A i ->
  v <= nv_vmaddr r -> 0 <= nv_length r -> data r = Some br -> holds br m0 (nv_vmaddr r) (nv_length r) -> nv_length n = E - A -> E <= 2 ^ 64 - 8 -> nv_vmaddr r + nv_length r <= E -> E - A <= zlen b ->
  (forall x, v <= x < nv_vmaddr r -> m0 !! x = mem s !! x) -> (last = true -> forall x, nv_vmaddr r + nv_length r <= x < E -> m0 !! x = mem s !! x) ->
  exists b', copy_old new last r v i s = Ret ((nv_vmaddr r + nv_length r, nv_vmaddr r + nv_length r - A), with_ranges s (<[new := with_data n (Some b') (data_len n)]> (ranges s))) /\
    zlen b' = zlen b /\ holds b' m0 A (if last then E - A else nv_vmaddr r + nv_length r - A).
Proof.
  intros En EA Eb HA Hv Ev Hh Hvr Hrl Er Hhr Enl HE HrE HL Hg1 Hg2. unfold copy_old. rewrite run_get, (run_get_range new n), Eb by done. pose proof Hh as [Hi _].
  set (len := if v <? nv_vmaddr r then u64 (nv_vmaddr r - v) else 0). assert (len = nv_vmaddr r - v) as El by (unfold len; destruct (Z.ltb_spec v (nv_vmaddr r)); [apply uwrap_small; lia|lia]). clearbody len. subst len.
  (* before the range *)
  rewrite (cells_eq (mem s) m0 v) by (intros x Hx; symmetry; apply Hg1; lia).
  destruct (holds_extend b m0 A i (nv_vmaddr r - v) Hh) as [Hh1 Hz1]; [lia|lia|]. rewrite run_bcopy_to by (rewrite ?zlen_cells; lia). rewrite Ev in *. set (b1 := take (Z.to_nat i) b ++ _) in *. clearbody b1.
  rewrite Er. pose proof Hhr as [Hrb Ebr]. rewrite run_bcopy_from by lia. rewrite Ebr. rewrite (uwrap_small 64 (A + i + _)) by lia. replace (A + i + (nv_vmaddr r - (A + i))) with (nv_vmaddr r) by lia.
  (* the range itself *)
  set (i1 := i + (nv_vmaddr r - (A + i))) in *. assert (nv_vmaddr r = A + i1) as Ei1 by (unfold i1; lia). clearbody i1. rewrite Ei1 in *.
  destruct (holds_extend b1 m0 A i1 (nv_length r) Hh1) as [Hh2 Hz2]; [lia|lia|]. rewrite run_bcopy_to by (rewrite ?zlen_cells; lia). set (b2 := take (Z.to_nat i1) b1 ++ _) in *. clearbody b2.
  rewrite EA, Enl, (uwrap_small 64 (A + i1 + _)), (uwrap_small 64 (A + (E - A))) by lia. replace (A + (E - A)) with E by lia. rewrite Z.gtb_ltb.
  (* after it *)
  set (i2 := i1 + nv_length r) in *. assert (A + i1 + nv_length r = A + i2) as E2 by (unfold i2; lia). clearbody i2. rewrite E2 in *. replace (A + i2 - A) with i2 by lia.
  destruct last; cbn [andb]; [destruct (Z.ltb_spec (A + i2) E) as [Hlt|Hge]|].
  - rewrite uwrap_small by lia. rewrite (cells_eq (mem s) m0) by (intros x Hx; symmetry; apply Hg2; [done|lia]). destruct (holds_extend b2 m0 A i2 (E - (A + i2)) Hh2) as [Hh3 Hz3]; [lia|lia|].
    rewrite run_bcopy_to by (rewrite ?zlen_cells; lia). rewrite run_put_range. eexists. split; [done|]. split; [lia|]. replace (E - A) with (i2 + (E - (A + i2))) by lia. exact Hh3.
  - rewrite run_ret, run_put_range. eexists. split; [done|]. split; [lia|]. replace (E - A) with i2 by lia. exact Hh2.
  - rewrite run_ret, run_put_range. eexists. split; [done|]. split; [lia|]. exact Hh2.
Qed.

End RvmMerge.
