(* ===== verification/RvmCoalesce.v ===== *)
(** * Transactions of the recoverable memory: merging ranges

    The merge of the ranges that a new one touches: the first of them gets the bounds
    and the old values of all, the others leave the tree. *)
From Stdlib Require Import ZArith Lia Bool.
From stdpp Require Import base list numbers gmap sorting.
From S2P Require Import Prelude.
From S2P Require Import RvmOffset.
From S2P Require Import RvmTree.
From S2P Require Import RvmAvl.
From S2P Require Import RvmIter.
From S2P Require Import RvmLoops.
From S2P Require Import RvmTrans.
From S2P Require Import RvmCells.
From S2P Require Import RvmTx.
From S2P Require Import RvmSet.
From S2P Require Import RvmMerge.
Import RvmOffset RvmTree RvmAvl RvmIter RvmLoops RvmTrans RvmCells RvmTx RvmSet RvmMerge.
Open Scope Z_scope.

Module RvmCoalesce.

Open Scope rvm_scope.

(** ** Ordered lists of ranges *)
Lemma sorted_mid {A} (R : A -> A -> Prop) l1 x l2 : StronglySorted R (l1 ++ x :: l2) -> Forall (fun y => R y x) l1 /\ Forall (R x) l2.
Proof.
  intros H. apply StronglySorted_app in H as (H12 & _ & H2). apply StronglySorted_inv in H2 as [_ H2]. split; [|done].
  apply Forall_forall. intros y Hy. apply H12; [done|apply list_elem_of_here].
Qed.

Lemma sorted_put {A} (R : A -> A -> Prop) l1 x l2 : StronglySorted R (l1 ++ l2) -> Forall (fun y => R y x) l1 -> Forall (R x) l2 -> StronglySorted R (l1 ++ x :: l2).
Proof.
  intros H H1 H2. apply StronglySorted_app in H as (H12 & Hl1 & Hl2). apply StronglySorted_app. split; [|split; [done|by constructor]].
  intros y z Hy [-> | Hz]%elem_of_cons; [rewrite Forall_forall in H1; by apply H1|by apply H12].
Qed.
Lemma forall_sublist {A} (P : A -> Prop) l k : sublist l k -> Forall P k -> Forall P l.
Proof. induction 1 as [|x l k Hs IH|x l k Hs IH]; intros H; [done|..]; apply Forall_cons in H as [H1 H2]; [constructor; auto|auto]. Qed.
Lemma sorted_sublist {A} (R : A -> A -> Prop) l k : sublist l k -> StronglySorted R k -> StronglySorted R l.
Proof.
  induction 1 as [|x l k Hs IH|x l k Hs IH]; intros H; [done|..]; apply StronglySorted_inv in H as [H1 H2]; [|by apply IH].
  constructor; [by apply IH|]. by eapply forall_sublist.
Qed.
Lemma ordered_sublist s l k : sublist l k -> ordered s k -> ordered s l.
Proof. intros Hs [H1 H2]. split; [by eapply sorted_sublist|by eapply forall_sublist]. Qed.

Lemma same_on_fields rs rs' xs x : same_on rs rs' xs -> x ∈ xs -> rg rs' x = rg rs x /\ vm rs' x = vm rs x /\ en rs' x = en rs x.
Proof. intros H Hx. unfold rg, vm, en. by rewrite (H x Hx). Qed.

Lemma ordered_same s s' xs : like s s' -> same_on (ranges s) (ranges s') xs -> ordered s xs -> ordered s' xs.
Proof.
  intros Hl Hs [H1 H2]. split.
  - eapply sorted_impl; [exact H1|]. intros x y Hx Hy. unfold before_range. destruct (same_on_fields _ _ _ _ Hs Hx) as (-> & _ & ->). by destruct (same_on_fields _ _ _ _ Hs Hy) as (-> & -> & _).
  - rewrite Forall_forall in H2 |- *. intros x Hx. destruct (H2 x Hx) as (r & Er & Hr & Hlen). exists r. rewrite (Hs x Hx). split; [done|]. split; [by eapply range_at_like|done].
Qed.

Lemma self_cut s l1 x l2 : ordered s (l1 ++ x :: l2) -> cut (region_partial_include s) x l1 [x] l2.
Proof.
  intros Ho. destruct (sorted_mid _ _ _ _ (o_sorted _ _ Ho)) as [H1 H2].
  assert (forall y, y ∈ l1 ++ x :: l2 -> region_partial_include s x y = compare_spans (rg (ranges s) x) (vm (ranges s) x) (en (ranges s) x) (rg (ranges s) y) (vm (ranges s) y) (en (ranges s) y) /\ vm (ranges s) y < en (ranges s) y) as Hc.
  { intros y Hy. destruct (ordered_at s _ x Ho) as (r & Er & Hr & _ & E1 & E2 & E3 & _); [set_solver|]. destruct (ordered_at s _ y Ho Hy) as (q & Eq & Hq & _ & F1 & F2 & F3 & F4). split; [|done].
    rewrite E1, E2, E3, F1, F2, F3. apply region_partial_include_spec; [done|done|by apply range_at_spans|by apply range_at_spans]. }
  destruct (Hc x ltac:(set_solver)) as [Hx Hxl]. split; [|split]; [apply Forall_forall; intros y Hy|apply Forall_singleton|apply Forall_forall; intros y Hy].
  - rewrite Forall_forall in H1. specialize (H1 y Hy). destruct (Hc y ltac:(set_solver)) as [-> Hyl]. unfold before_range in H1. compare_cases.
  - rewrite Hx. compare_cases.
  - rewrite Forall_forall in H2. specialize (H2 y Hy). destruct (Hc y ltac:(set_solver)) as [-> Hyl]. unfold before_range in H2. compare_cases.
Qed.

Lemma delete_node_spec {B} s tid t l1 x l2 (k : unit -> M B) : tids s !! tid = Some t -> tree_ok (range_tree t) (l1 ++ x :: l2) -> room (range_tree t) -> few (l1 ++ l2) -> ordered s (l1 ++ x :: l2) ->
  exists tr', tree_ok tr' (l1 ++ l2) /\ room tr' /\ mbnd (delete_node tid x) k s = k tt (with_tids s (<[tid := with_tree t tr']> (tids s))).
Proof.
  intros Ht Htree Hroom Hfew Ho. destruct (tree_delete_spec (region_partial_include s) x (range_tree t) l1 l2 Hroom Htree (self_cut _ _ _ _ Ho)) as (tr' & E & Htree' & _ & Hroom').
  exists tr'. split; [done|]. split; [by apply Hroom'|]. unfold delete_node. rewrite run_bind, (run_get_int_tid tid t) by done. rewrite run_bind, run_get, run_bind, (run_lift _ _ _ _ E), run_bind, run_put_int_tid. by rewrite run_massert.
Qed.

(** ** The loop *)
Section Merge.
Context (s : rvm) (tid new : Z) (n : range) (l1 rest l2 : list Z) (x1 : Z) (A E : Z) (m0 : memory).
Abbreviation rs := (ranges s).
Abbreviation mid := (x1 :: rest).
Context (Ho : ordered s (l1 ++ mid ++ l2)) (Hnew : new ∉ l1 ++ mid ++ l2) (Hnd : NoDup (l1 ++ mid ++ l2)) (Hfew : few (l1 ++ mid ++ l2))
  (Hold : forall x, x ∈ mid -> exists r b, rs !! x = Some r /\ data r = Some b /\ holds b m0 (nv_vmaddr r) (nv_length r))
  (HA : 0 <= A) (HE : E <= 2 ^ 64 - 8) (Hin : Forall (fun x => A <= vm rs x /\ en rs x <= E) mid) (Hrg : forall x y, x ∈ mid -> y ∈ mid -> rg rs x = rg rs y)
  (Hgap : forall x, A <= x < E -> Forall (fun y => ~ (vm rs y <= x < en rs y)) mid -> m0 !! x = mem s !! x)
  (HnA : nv_vmaddr n = A) (HnE : nv_length n = E - A).

(** The state during the merge. *)
Definition merging (t : int_tid) (R : gmap Z range) : rvm := with_ranges (with_tids s (<[tid := t]> (tids s))) R.

Lemma merging_like t R : like s (merging t R).
Proof. done. Qed.

(** One range: its old values are copied. *)
Lemma merge_copy pre y ys t R b i : mid = pre ++ y :: ys -> same_on rs R [y] -> R !! new = Some (with_data n (Some b) (data_len n)) -> E - A <= zlen b -> holds b m0 A i ->
  Forall (fun z => en rs z <= A + i) pre -> A + i <= vm rs y ->
  exists r b', rs !! y = Some r /\ copy_old new (match ys with [] => true | _ => false end) r (A + i) i (merging t R) = Ret ((en rs y, en rs y - A), merging t (<[new := with_data n (Some b') (data_len n)]> R)) /\
    zlen b' = zlen b /\ holds b' m0 A (match ys with [] => E - A | _ => en rs y - A end) /\ Forall (fun z => en rs z <= en rs y) (pre ++ [y]) /\ Forall (fun z => en rs y <= vm rs z) ys.
Proof using Ho Hnew Hnd Hfew Hold HA HE Hin Hrg Hgap HnA HnE.
  intros Emid Hs Enew HL Hh Hpre Hv. assert (y ∈ mid) as Hy by (rewrite Emid; set_solver).
  assert (forall z, z ∈ ys -> en rs y < vm rs z /\ vm rs z < en rs z) as Hafter.
  { intros z Hz. assert (z ∈ mid) as Hzm by (rewrite Emid; set_solver). pose proof (o_sorted _ _ Ho) as H. rewrite Emid, <- app_assoc in H. cbn [app] in H. rewrite app_assoc in H. apply sorted_mid in H as [_ H]. rewrite Forall_forall in H.
    specialize (H z ltac:(set_solver)). unfold before_range in H. rewrite (Hrg y z) in H by done. destruct (ordered_at s _ z Ho) as (? & _ & _ & _ & _ & _ & _ & ?); [set_solver|]. lia. }
  destruct (Hold y Hy) as (r & br & Er & Ebr & Hbr). destruct (ordered_at s _ y Ho) as (r' & Er' & Hr & Hlen & _ & E2 & E3 & Hlt); [set_solver|]. assert (r' = r) as -> by congruence.
  rewrite Forall_forall in Hin. destruct (Hin y Hy) as [Hin1 Hin2]. pose proof Hh as [Hi _].
  assert (Forall (fun z => en rs z <= en rs y) (pre ++ [y])) as Hpre' by (apply Forall_app; split; [eapply Forall_impl; [exact Hpre|]; cbn; intros z; lia|apply Forall_singleton; lia]).
  assert (forall x, A <= x < E -> Forall (fun z => en rs z <= x) pre -> (en rs y <= x \/ x < vm rs y) -> Forall (fun z => x < vm rs z \/ en rs z <= x) ys -> m0 !! x = mem s !! x) as Hg.
  { intros x Hx Hp Hxy Hys. apply Hgap; [done|]. rewrite Emid, Forall_app, Forall_cons. split; [eapply Forall_impl; [exact Hp|]; cbn; intros; lia|]. split; [lia|eapply Forall_impl; [exact Hys|]; cbn; intros; lia]. }
  rewrite E2, E3 in *. destruct (copy_old_spec (merging t R) new (with_data n (Some b) (data_len n)) r b br m0 A (A + i) i E (match ys with [] => true | _ => false end)) as (b' & Ec & Hzl & Hh'); try done; try lia.
  - intros x Hx. apply Hg; [lia|eapply Forall_impl; [exact Hpre|]; cbn; intros; lia|lia|]. apply Forall_forall. intros z Hz. destruct (Hafter z Hz). left. lia.
  - destruct ys as [|z ys]; [|done]. intros _ x Hx. apply Hg; [lia|eapply Forall_impl; [exact Hpre|]; cbn; intros; lia|lia|constructor].
  - exists r, b'. split; [done|]. split; [rewrite Ec; cbn; by destruct n|]. split; [done|]. split; [by destruct ys|]. split; [done|]. apply Forall_forall. intros z Hz. destruct (Hafter z Hz). lia.
Qed.

(** What the merge leaves: the transaction with the first range only, and the new
    range with all old values in its buffer. *)
Definition merged (t t' : int_tid) (R' : gmap Z range) (L : Z) : Prop :=
  same_but_tree t t' /\ x_ranges t' = x_ranges t /\ x_ranges_alloc t' = x_ranges_alloc t /\ tree_ok (range_tree t') (l1 ++ x1 :: l2) /\ room (range_tree t') /\
  same_on rs R' (l1 ++ x1 :: l2) /\ exists b, R' !! new = Some (with_data n (Some b) (data_len n)) /\ holds b m0 A (E - A) /\ zlen b = L.

Lemma merge_rest ys : forall pre t R b i, mid = pre ++ ys -> pre <> [] -> tree_ok (range_tree t) (l1 ++ x1 :: ys ++ l2) -> room (range_tree t) -> same_on rs R (l1 ++ x1 :: ys ++ l2) ->
  R !! new = Some (with_data n (Some b) (data_len n)) -> E - A <= zlen b -> holds b m0 A (match ys with [] => E - A | _ => i end) ->
  Forall (fun z => en rs z <= A + i) pre -> Forall (fun z => A + i <= vm rs z) ys ->
  exists t' R', merge_loop tid new true false ys (A + i) i (merging t R) = Ret (tt, merging t' R') /\ merged t t' R' (zlen b).
Proof using Ho Hnew Hnd Hfew Hold HA HE Hin Hrg Hgap HnA HnE.
  induction ys as [|y ys IH]; intros pre t R b i Emid Hpre Htree Hroom Hs Enew HL Hh Hp Hv.
  { exists t, R. split; [done|]. split; [done|]. split; [done|]. split; [done|]. split; [done|]. split; [done|]. split; [done|]. by exists b. }
  apply Forall_cons in Hv as [Hv _]. destruct pre as [|p pre]; [done|]. assert (p = x1) as -> by (by injection Emid). clear Hpre.
  assert (NoDup (x1 :: y :: ys ++ l2) /\ y ∉ l1) as [Hnd1 Hy1].
  { clear - Hnd Emid. rewrite Emid in Hnd. rewrite !NoDup_app in Hnd. destruct Hnd as (_ & H1 & (H2 & H3 & H4) & H5 & H6).
    split; [|intros H; apply (H1 y H); set_solver]. apply NoDup_cons in H2 as [H2 _]. apply NoDup_cons. split.
    - rewrite elem_of_cons, elem_of_app. intros [-> |[H|H]]; [apply (H3 y); set_solver|apply (H3 x1); set_solver|apply (H5 x1); set_solver].
    - change (y :: ys ++ l2) with ((y :: ys) ++ l2). apply NoDup_app. split; [done|]. split; [|done]. intros z Hz. apply H5. set_solver. }
  destruct (merge_copy (x1 :: pre) y ys t R b i Emid) as (r & b' & Er & Ec & Hz & Hh' & Hp' & Hv'); try done; [intros z Hz; apply Hs; set_solver|].
  assert (y ∉ l1 ++ x1 :: ys ++ l2) as Hyn by (apply NoDup_cons in Hnd1 as [G1 G2]; apply NoDup_cons in G2 as [G2 _]; rewrite elem_of_app, elem_of_cons; set_solver).
  assert (new ∉ l1 ++ x1 :: ys ++ l2) as Hnn by (rewrite Emid in Hnew; set_solver). assert (new <> y) as Hny by (rewrite Emid in Hnew; set_solver).
  cbn [merge_loop]. rewrite (run_get_range y r) by (cbn; rewrite Hs by set_solver; done). rewrite (run_eq _ _ _ _ _ Ec). cbn [fst snd]. rewrite run_bind.
  set (R1 := <[new := with_data n (Some b') (data_len n)]> R). set (s1 := merging t R1).
  assert (same_on rs R1 (l1 ++ x1 :: y :: ys ++ l2)) as Hs1 by (intros z Hz'; unfold R1; rewrite lookup_insert_ne; [by apply Hs|set_solver]).
  destruct (delete_node_spec s1 tid t (l1 ++ [x1]) y (ys ++ l2) (fun _ => mbnd (free_range y) (fun _ => merge_loop tid new true false ys (en rs y) (en rs y - A)))) as (tr' & Htree' & Hroom' & Ed).
  { apply lookup_insert_eq. } { by rewrite <- app_assoc. } { done. }
  { rewrite <- app_assoc. cbn [app]. unfold few in *. rewrite Emid in Hfew. rewrite !zlen_app, !zlen_cons, ?zlen_app in *. pose proof (zlen_nonneg pre). lia. }
  { apply (ordered_same s); [done|by rewrite <- app_assoc|]. rewrite <- app_assoc. cbn [app]. apply (ordered_sublist s _ (l1 ++ mid ++ l2)); [|done]. rewrite Emid, <- app_assoc. cbn [app]. apply sublist_app; [done|]. apply sublist_skip. by apply sublist_inserts_l. }
  rewrite Ed. rewrite (run_free_range y r) by (cbn; unfold R1; rewrite lookup_insert_ne, Hs by set_solver; done).
  assert (with_ranges (with_tids s1 (<[tid := with_tree t tr']> (tids s1))) (delete y (ranges (with_tids s1 (<[tid := with_tree t tr']> (tids s1))))) = merging (with_tree t tr') (delete y R1)) as -> by
    (unfold s1, merging, with_ranges, with_tids; cbn; by rewrite insert_insert_eq).
  destruct (IH ((x1 :: pre) ++ [y]) (with_tree t tr') (delete y R1) b' (en rs y - A)) as (t' & R' & Em & Hm); try done.
  - by rewrite <- app_assoc. - by rewrite <- app_assoc in Htree'.
  - intros z Hz'. rewrite lookup_delete_ne by set_solver. apply Hs1. set_solver.
  - rewrite lookup_delete_ne by done. apply lookup_insert_eq. - lia.
  - replace (A + (en rs y - A)) with (en rs y) by lia. done. - replace (A + (en rs y - A)) with (en rs y) by lia. done.
  - exists t', R'. replace (A + (en rs y - A)) with (en rs y) in Em by lia. split; [exact Em|]. rewrite <- Hz. exact Hm.
Qed.

Lemma merge_spec t R b : tree_ok (range_tree t) (l1 ++ mid ++ l2) -> room (range_tree t) -> same_on rs R (l1 ++ mid ++ l2) -> R !! new = Some (with_data n (Some b) (data_len n)) -> E - A <= zlen b ->
  exists t' R', merge_loop tid new true true mid A 0 (merging t R) = Ret (tt, merging t' R') /\ merged t t' R' (zlen b).
Proof using Ho Hnew Hnd Hfew Hold HA HE Hin Hrg Hgap HnA HnE.
  intros Htree Hroom Hs Enew HL. assert (A <= vm rs x1 /\ en rs x1 <= E) as [HA1 HE1] by by apply Forall_cons in Hin as [? _].
  destruct (merge_copy [] x1 rest t R b 0) as (r & b' & Er & Ec & Hz & Hh & Hp & Hv); try done; [intros z Hz; apply Hs; set_solver|split; [pose proof (zlen_nonneg b); lia|done]|lia|].
  cbn [merge_loop]. rewrite (run_get_range x1 r) by (cbn; rewrite Hs by set_solver; done). rewrite Z.add_0_r in Ec. rewrite (run_eq _ _ _ _ _ Ec), run_ret. cbn [fst snd].
  destruct (merge_rest rest [x1] t (<[new := with_data n (Some b') (data_len n)]> R) b' (en rs x1 - A)) as (t' & R' & Em & Hm); try done.
  - intros z Hz'. rewrite lookup_insert_ne; [by apply Hs|]. intros <-. apply Hnew. exact Hz'.
  - apply lookup_insert_eq. - lia.
  - replace (A + (en rs x1 - A)) with (en rs x1) by lia. done. - replace (A + (en rs x1 - A)) with (en rs x1) by lia. done.
  - exists t', R'. replace (A + (en rs x1 - A)) with (en rs x1) in Em by lia. split; [exact Em|]. rewrite <- Hz. exact Hm.
Qed.
End Merge.

(** ** Coalesced transactions *)

(** Each range holds what the memory [m0] had there. *)
Definition old_values (rs : gmap Z range) (xs : list Z) (m0 : memory) : Prop :=
  forall x, x ∈ xs -> exists r b, rs !! x = Some r /\ data r = Some b /\ holds b m0 (nv_vmaddr r) (nv_length r).

Record co_tx (s : rvm) (t : int_tid) (xs : list Z) : Prop := {
  c_ordered : ordered s xs;
  c_vector : x_ok t
}.

(** Two pieces of a region lie in one mapping. *)
Lemma in_region_same s rgn a n a' n' : mapped s -> in_region s rgn a n -> in_region s rgn a' n' -> forall b k, (a <= b \/ a' <= b) -> (b + k <= a + n \/ b + k <= a' + n') -> 0 <= k -> in_region s rgn b k.
Proof.
  intros Hm (p & m & Hp & Em & Er & H1 & H2 & H3) (q & m' & Hq & Em' & Er' & H4 & H5 & H6) b k Hb Hk Hk0.
  pose proof (m_ok _ Hm) as H. rewrite Forall_forall in H. destruct (H p Hp) as (m1 & g & F1 & F2 & F3 & F4 & F5 & _). destruct (H q Hq) as (m2 & g' & G1 & G2 & G3 & G4 & G5 & _).
  simplify_eq. rewrite Er' in G2. simplify_eq. assert (p = q) as <- by (apply (region_unique s p q m m' (mr_vmaddr m)); try done; lia). simplify_eq.
  exists p, m. repeat split; try done; destruct Hb, Hk; lia.
Qed.

(** An address belongs to one region only. *)
Lemma in_region_unique s g g' a n a' n' x : mapped s -> in_region s g a n -> in_region s g' a' n' -> a <= x < a + n -> a' <= x < a' + n' -> g = g'.
Proof.
  intros Hm (p & m & Hp & Em & <- & H1 & H2 & H3) (q & m' & Hq & Em' & <- & H4 & H5 & H6) Hx Hx'.
  assert (p = q) as <- by (apply (region_unique s p q m m' x); try done; lia). congruence.
Qed.

End RvmCoalesce.
