(* ===== verification/RvmCoSet.v ===== *)
(** * Transactions of the recoverable memory: rvm_set_range with coalescing

    The three outcomes of rvm_set_range for a transaction that coalesces its ranges:
    the new range is inserted, it lies within an existing one, or it is merged with
    those it touches. *)
From Stdlib Require Import ZArith Lia Bool.
From stdpp Require Import base list numbers gmap sorting.
From S2P Require Import Prelude.
From S2P Require Import RvmOffset.
From S2P Require Import RvmTree.
From S2P Require Import RvmAvl.
From S2P Require Import RvmIter.
From S2P Require Import RvmLoops.
From S2P Require Import RvmTrans.
From S2P Require Import RvmCells.
From S2P Require Import RvmTx.
From S2P Require Import RvmSet.
From S2P Require Import RvmMerge.
From S2P Require Import RvmCoalesce.
Import RvmOffset RvmTree RvmAvl RvmIter RvmLoops RvmTrans RvmCells RvmTx RvmSet RvmMerge RvmCoalesce.
Open Scope Z_scope.

Module RvmCoSet.

Open Scope rvm_scope.

(** ** The memory that the old values come from *)
Lemma ordered_disjoint s l1 x l2 y a : mapped s -> ordered s (l1 ++ x :: l2) -> y ∈ l2 -> vm (ranges s) x <= a < en (ranges s) x -> vm (ranges s) y <= a < en (ranges s) y -> False.
Proof.
  intros Hm Ho Hy Hx Hy'. destruct (ordered_at s _ x Ho) as (q & _ & [Hq _] & _ & E1 & E2 & E3 & _); [set_solver|]. destruct (ordered_at s _ y Ho) as (p & _ & [Hp _] & _ & F1 & F2 & F3 & _); [set_solver|].
  destruct (sorted_mid _ _ _ _ (o_sorted _ _ Ho)) as [_ H]. rewrite Forall_forall in H. specialize (H y Hy). unfold before_range in H.
  assert (region q = region p) as Er by (rewrite E2, E3 in Hx; rewrite F2, F3 in Hy'; eapply (in_region_unique s); eauto). lia.
Qed.

Lemma undo_range_lookup rs x r b m a : rs !! x = Some r -> data r = Some b -> 0 < nv_length r <= zlen b ->
  undo_range rs x m !! a = if decide (vm rs x <= a < en rs x) then default None (b !! Z.to_nat (a - nv_vmaddr r)) else m !! a.
Proof.
  intros Er Hb Hl. unfold undo_range, vm, en. rewrite Er, Hb. destruct (Z.eqb_spec (nv_length r) 0); [lia|]. rewrite put_lookup. assert (zlen (take (Z.to_nat (nv_length r)) b) = nv_length r) as -> by (unfold zlen in *; rewrite length_take; lia).
  destruct (decide _); [|done]. by rewrite lookup_take_lt by lia.
Qed.

Lemma old_values_undo s xs m : mapped s -> ordered s xs -> Forall (fun x => exists r, ranges s !! x = Some r /\ has_old_values r) xs ->
  old_values (ranges s) xs (undo (ranges s) xs m) /\ agree (ranges s) xs (undo (ranges s) xs m) m.
Proof.
  intros Hm. set (rs := ranges s). induction xs as [|x xs IH]; intros Ho Hov; [split; [intros x Hx; set_solver|done]|].
  apply Forall_cons in Hov as [(r & Er & Hr) Hov]. destruct IH as [I1 I2]; [eapply ordered_sublist; [|exact Ho]; by apply sublist_cons|done|].
  destruct (ordered_at s _ x Ho ltac:(set_solver)) as (r' & Er' & _ & Hl & _ & E2 & E3 & _). assert (r' = r) as -> by (unfold rs in *; congruence). clear Er'. destruct (Hr ltac:(lia)) as (b & Hb & Hlb).
  change (undo rs (x :: xs) m) with (undo_range rs x (undo rs xs m)). set (m1 := undo rs xs m) in *. assert (forall a, undo_range rs x m1 !! a = if decide (vm rs x <= a < en rs x) then default None (b !! Z.to_nat (a - nv_vmaddr r)) else m1 !! a) as Hu by (intros a; apply undo_range_lookup; [done|done|lia]).
  fold rs in E2, E3. split.
  - intros y [-> | Hy]%elem_of_cons.
    + exists r, b. split; [done|]. split; [done|]. split; [lia|]. apply list_eq. intros i. destruct (decide (i < Z.to_nat (nv_length r))%nat) as [Hi|Hi].
      * rewrite lookup_take_lt by done. pose proof (cells_lookup (undo_range rs x m1) (nv_vmaddr r) (nv_length r) (Z.of_nat i) ltac:(lia)) as H. rewrite Nat2Z.id in H. rewrite H, Hu, E2, E3, decide_True by lia.
        replace (nv_vmaddr r + Z.of_nat i - nv_vmaddr r) with (Z.of_nat i) by lia. rewrite Nat2Z.id. destruct (b !! i) as [c|] eqn:Ec; [done|]. apply lookup_ge_None in Ec. unfold zlen in Hlb. lia.
      * rewrite lookup_take_ge by lia. symmetry. apply lookup_ge_None. rewrite length_cells. lia.
    + destruct (I1 y Hy) as (p & bp & Ep & Hbp & [Hz Hc]). exists p, bp. split; [done|]. split; [done|]. split; [done|]. rewrite Hc. apply cells_eq. intros a Ha. rewrite Hu, decide_False; [done|]. intros Hax.
      apply (ordered_disjoint s [] x xs y a); try done. unfold vm, en. fold rs. by rewrite Ep.
  - intros a Ha. rewrite Hu. rewrite decide_False; [apply I2; intros (z & p & Hz & H); apply Ha; exists z, p; split; [set_solver|done]|]. intros H. apply Ha. exists x, r. rewrite E2, E3 in H. split; [set_solver|done].
Qed.

(** Disjoint ranges that hold the old values restore them. *)
Lemma old_values_saved s xs m0 : mapped s -> ordered s xs -> old_values (ranges s) xs m0 -> saved (ranges s) xs m0.
Proof.
  intros Hm Ho Hold m Hag. assert (Forall (fun x => exists r, ranges s !! x = Some r /\ has_old_values r) xs) as Hov.
  { apply Forall_forall. intros x Hx. destruct (Hold x Hx) as (r & b & Er & Hb & [Hh _]). exists r. split; [done|]. intros _. by exists b. }
  destruct (old_values_undo s xs m Hm Ho Hov) as [H1 H2]. set (rs := ranges s) in *. apply map_eq. intros a. destruct (decide (Exists (fun x => vm rs x <= a < en rs x) xs)) as [Hc|Hc].
  - apply Exists_exists in Hc as (x & Hx & Ha). destruct (Hold x Hx) as (r & b & Er & Hb & [Hz Hh]). destruct (H1 x Hx) as (r' & b' & Er' & Hb' & [_ Hh']). assert (r' = r) as -> by congruence. assert (b' = b) as -> by congruence.
    unfold vm, en in Ha. rewrite Er in Ha. rewrite Hh' in Hh. pose proof (cells_lookup m0 (nv_vmaddr r) (nv_length r) (a - nv_vmaddr r) ltac:(lia)) as C. rewrite <- Hh, cells_lookup in C by lia. replace (nv_vmaddr r + (a - nv_vmaddr r)) with a in C by lia. congruence.
  - assert (~ covered rs xs a) as Hn by (intros (x & r & Hx & Er & H); apply Hc; apply Exists_exists; exists x; split; [done|]; unfold vm, en; by rewrite Er). rewrite (H2 a Hn). symmetry. by apply Hag.
Qed.

(** The outcome for the transaction. *)
Definition co_step (s : rvm) (tid : Z) (t : int_tid) (xs : list Z) (dest len : Z) (s' : rvm) : Prop :=
  exists t' xs', set_step s tid t xs dest len s' t' xs' /\ co_tx s' t' xs' /\ zlen xs' <= zlen xs + 1 /\
    (forall m0, old_values (ranges s) xs m0 -> agree (ranges s) xs m0 (mem s) -> old_values (ranges s') xs' m0).

Section CoSet.
Context (s : rvm) (tid : Z) (t : int_tid) (xs : list Z) (rgn dest len : Z) (r : range).
Context (Hlib : lib s) (Hx : open_tx s tid t xs) (Hco : co_tx s t xs) (Hfew : few (next s :: xs))
  (Hres : TID t RESTORE_FLAG = true) (Hd : 0 <= dest) (Hlen : 0 < len) (Hin : in_region s rgn dest len) (Hb : built s r rgn dest len).
Abbreviation new := (next s).
Abbreviation s1 := (with_new s r).

Lemma co_new : new ∉ xs.
Proof using Hx. by eapply open_new. Qed.
Lemma co_same : same_on (ranges s) (ranges s1) xs.
Proof using Hx. intros x Hxx. cbn. apply lookup_insert_ne. intros <-. by apply co_new. Qed.
Lemma co_like : like s s1.
Proof. done. Qed.
Lemma co_ordered : ordered s1 xs.
Proof using Hx Hco. apply (ordered_same s); [done|apply co_same|apply Hco]. Qed.
Lemma co_spans : spans s1 r dest (dest + len).
Proof using Hb. destruct Hb as (_ & E1 & E2 & _ & Hr). rewrite <- E1, <- E2. exact (range_at_spans s r Hr). Qed.
Lemma co_end : dest + len <= 2 ^ 64 - 8.
Proof using Hlib Hin. destruct (region_place s rgn dest len (l_mapped _ Hlib) Hin) as (g & k & _ & _ & ? & ? & ? & _). lia. Qed.

Lemma covered_fields rs ys y : covered rs ys y -> exists z, z ∈ ys /\ vm rs z <= y < en rs z.
Proof. intros (z & q & Hz & Eq & H). exists z. unfold vm, en. by rewrite Eq. Qed.

(** A range in another region, or beside the new one, shares no address with it. *)
Lemma untouched z y : z ∈ xs -> dest <= y < dest + len -> (rg (ranges s1) z <> region r \/ en (ranges s1) z <= dest \/ dest + len <= vm (ranges s1) z) -> ~ (vm (ranges s) z <= y < en (ranges s) z).
Proof using Hlib Hx Hco Hin Hb.
  intros Hz Hy Hcase Hcov. destruct (same_on_fields _ _ _ z co_same Hz) as (F1 & F2 & F3). rewrite F1, F2, F3 in Hcase.
  destruct (ordered_at s xs z (c_ordered _ _ _ Hco) Hz) as (q & Eq & [Hq _] & Hql & E1 & E2 & E3 & _). destruct Hb as (Hrg & _).
  assert (region q = rgn) as Er by (rewrite E2, E3 in Hcov; eapply (in_region_unique s); [apply Hlib|exact Hq|exact Hin|exact Hcov|exact Hy]). rewrite E1, Er, Hrg in Hcase. lia.
Qed.

(** Nothing touches it: it is inserted. *)
Lemma co_insert l1 l2 t' : xs = l1 ++ l2 -> same_but_tree t t' -> x_ok t' -> room (range_tree t') -> tree_ok (range_tree t') (l1 ++ new :: l2) ->
  Forall (fun x => region r < rg (ranges s1) x \/ (region r = rg (ranges s1) x /\ dest + len < vm (ranges s1) x)) l2 ->
  Forall (fun x => rg (ranges s1) x < region r \/ (rg (ranges s1) x = region r /\ en (ranges s1) x < dest)) l1 ->
  exists s', keep_range tid rgn new t' (searching s1 tid t' new r) = Ret (RVM_SUCCESS, s') /\ co_step s tid t xs dest len s'.
Proof using Hlib Hx Hco Hfew Hres Hd Hlen Hin Hb.
  intros Exs (S1 & S2 & S3) Hxo Hroom Htree Hl2 Hl1. pose proof co_new as Hnew. pose proof Hb as (Hrg & Hv & Hl & Hdata & Hat).
  set (s2 := searching s1 tid t' new r). assert (ranges s2 = <[new := r]> (ranges s)) as Er2 by (cbn; by rewrite insert_insert_eq).
  unfold keep_range. assert (TID t' RESTORE_FLAG = true) as -> by (unfold TID in *; by rewrite S3).
  destruct (save_ov_spec s2 new r (mem s)) as (b & Es & Hh); [apply Hlib|rewrite Er2; apply lookup_insert_eq|exact Hat|apply (mapped_like s); [done|apply Hlib]|done|].
  rewrite (run_eq _ _ _ _ _ Es). cbn [negb]. pose proof Hat as [_ (g & Eg & _)]. rewrite Hrg in Eg. rewrite (run_count rgn 1 g) by done. rewrite Er2, insert_insert_eq. rewrite Hv, Hl in Hh.
  set (r' := with_data r (Some b) (RANGE_LEN r)). eexists. split; [done|]. set (s' := with_regions _ _).
  assert (ranges s' = <[new := r']> (ranges s)) as Ers by done. assert (same_on (ranges s) (ranges s') xs) as Hsame by (intros x Hxx; rewrite Ers; apply lookup_insert_ne; intros <-; by apply Hnew).
  assert (ranges s' !! new = Some r') as Er' by (rewrite Ers; apply lookup_insert_eq). assert (like s s') as Hlike by apply (recount_like s).
  assert (l1 ++ new :: l2 ≡ₚ new :: xs) as Hperm by (rewrite Exs; by rewrite Permutation_middle).
  exists t', (l1 ++ new :: l2). split; [split|split; [split|split]]; try done.
  - apply (open_add s tid t xs s' t' r'); try done; [cbn; apply lookup_insert_eq|]. intros _. exists b. split; [done|]. cbn. rewrite Hl. apply Hh.
  - repeat split; try done. apply Hlib.
  - intros x. rewrite (covered_perm _ _ _ _ Hperm). change (new :: xs) with ([new] ++ xs). rewrite covered_app, (covered_one _ _ r'), covered_same by done. cbn. rewrite Hv, Hl. tauto.
  - apply (new_base s rgn len r'); try done. cbn. destruct (Z.eqb_spec len 0); [lia|done].
  - pose proof (c_ordered _ _ _ Hco) as [Ho1 Ho2]. assert (forall x, x ∈ xs -> rg (ranges s') x = rg (ranges s1) x /\ vm (ranges s') x = vm (ranges s1) x /\ en (ranges s') x = en (ranges s1) x) as Hf'.
    { intros x Hxx. destruct (same_on_fields _ _ _ x Hsame Hxx) as (-> & -> & ->). by destruct (same_on_fields _ _ _ x co_same Hxx) as (-> & -> & ->). }
    assert (rg (ranges s') new = region r /\ vm (ranges s') new = dest /\ en (ranges s') new = dest + len) as (N1 & N2 & N3) by (unfold rg, vm, en; rewrite Er'; cbn; by rewrite Hv, Hl).
    split.
    + rewrite Exs in Ho1. apply sorted_put; [destruct (ordered_same s s' xs) as [G _]; [done|done|apply Hco|by rewrite Exs in G]|..].
      * rewrite Forall_forall in Hl1 |- *. intros y Hy. destruct (Hf' y) as (F1 & F2 & F3); [rewrite Exs; set_solver|]. specialize (Hl1 y Hy). unfold before_range. rewrite F1, F3, N1, N2. lia.
      * rewrite Forall_forall in Hl2 |- *. intros y Hy. destruct (Hf' y) as (F1 & F2 & F3); [rewrite Exs; set_solver|]. specialize (Hl2 y Hy). unfold before_range. rewrite F1, F2, N1, N3. lia.
    + rewrite Hperm. constructor; [exists r'; split; [done|]; split; [by apply (range_at_like s)|cbn; lia]|]. destruct (ordered_same s s' xs) as [_ G]; [done|done|apply Hco|done].
  - apply Permutation_length in Hperm. unfold zlen. rewrite Hperm. cbn. lia.
  - intros m0 Hold Hag x Hxx. rewrite Hperm in Hxx. apply elem_of_cons in Hxx as [-> | Hxx].
    + exists r', b. split; [done|]. split; [done|]. cbn. rewrite Hv, Hl. destruct Hh as [Hh1 Hh2]. split; [done|]. rewrite Hh2. apply cells_eq. intros y Hy. symmetry. apply Hag. intros (z & Hz & Hzy)%covered_fields. revert Hzy. apply untouched; [done|done|].
      rewrite Exs in Hz. apply elem_of_app in Hz as [Hz|Hz]; [rewrite Forall_forall in Hl1; specialize (Hl1 z Hz)|rewrite Forall_forall in Hl2; specialize (Hl2 z Hz)]; cbv beta in *; lia.
    + destruct (Hold x Hxx) as (q & bq & Eq & H). exists q, bq. by rewrite Hsame.
Qed.

(** It lies within a range: nothing is to do. *)
Lemma co_inside x t' : x ∈ xs -> vm (ranges s1) x <= dest -> dest + len <= en (ranges s1) x -> same_but_tree t t' -> x_ok t' -> room (range_tree t') -> tree_ok (range_tree t') xs ->
  exists s', (free_range new ;;! ret RVM_SUCCESS) (searching s1 tid t' new r) = Ret (RVM_SUCCESS, s') /\ co_step s tid t xs dest len s'.
Proof using Hlib Hx Hco Hfew Hres Hd Hlen Hin Hb.
  intros Hxx Hv He (S1 & S2 & S3) Hxo Hroom Htree. rewrite (run_free_range new r) by apply lookup_insert_eq. eexists. split; [done|]. set (s' := with_ranges _ _).
  assert (same_on (ranges s) (ranges s') xs) as Hsame by (intros y Hy; cbn; assert (y <> new) by (intros ->; by apply co_new); rewrite lookup_delete_ne, !lookup_insert_ne by done; done).
  destruct (same_on_fields _ _ _ x co_same Hxx) as (_ & F2 & F3). rewrite F2, F3 in *. exists t', xs. split; [split|split; [split|split]]; try done.
  - destruct Hx as [Ht H1 H2 H3 H4 H5 H6]. split; try done; [apply lookup_insert_eq|cbn; lia|eapply Forall_impl; [exact H5|]; cbn; intros; lia|].
    rewrite Forall_forall in H6 |- *. intros y Hy. eapply (range_ok_same s); [done|done|by apply Hsame|by apply H6].
  - repeat split; try done. apply Hlib.
  - intros y. rewrite covered_same by done. split; [tauto|]. intros [H|H]; [done|]. destruct (ordered_at s xs x (c_ordered _ _ _ Hco) Hxx) as (q & Eq & _ & _ & _ & E2 & E3 & _). exists x, q. rewrite E2, E3 in *. split; [done|]. split; [done|lia].
  - unfold base. apply uncount_ext. intros g. by apply uncommitted_same.
  - apply (ordered_same s); [done|done|apply Hco].
  - lia.
  - intros m0 Hold _ y Hy. destruct (Hold y Hy) as (q & bq & Eq & H). exists q, bq. by rewrite Hsame.
Qed.

(** *** It touches some *)
Section Touch.
Context (l1 rest l2 : list Z) (x1 : Z).
Abbreviation mid := (x1 :: rest).
Abbreviation rs := (ranges s).
Context (Exs : xs = l1 ++ mid ++ l2)
  (Hmid : Forall (fun x => rg rs x = region r /\ vm rs x <= dest + len /\ dest <= en rs x) mid)
  (Hl2 : Forall (fun x => region r < rg rs x \/ (region r = rg rs x /\ dest + len < vm rs x)) l2)
  (Hl1 : Forall (fun x => rg rs x < region r \/ (rg rs x = region r /\ en rs x < dest)) l1).
Abbreviation A := (hull_a rs mid dest).
Abbreviation E := (hull_e rs mid (dest + len)).

Lemma mid_in x : x ∈ mid -> x ∈ xs.
Proof using Exs. intros H. rewrite Exs. apply elem_of_app. right. apply elem_of_app. by left. Qed.

(** A range found: where it lies. *)
Lemma mid_at x : x ∈ mid -> exists q, rs !! x = Some q /\ region q = rgn /\ in_region s rgn (vm rs x) (en rs x - vm rs x) /\ vm rs x < en rs x /\ vm rs x = nv_vmaddr q /\ en rs x = nv_vmaddr q + nv_length q /\
  vm rs x <= dest + len /\ dest <= en rs x /\ rg rs x = rgn.
Proof using Exs Hmid Hco Hb.
  intros Hxx. destruct (ordered_at s xs x (c_ordered _ _ _ Hco) (mid_in x Hxx)) as (q & Eq & [Hq _] & Hql & E1 & E2 & E3 & E4). pose proof Hmid as H. rewrite Forall_forall in H. destruct (H x Hxx) as (M1 & M2 & M3). destruct Hb as (Hrg & _).
  exists q. assert (region q = rgn) as Hr by congruence. split; [done|]. split; [done|]. rewrite E2, E3. replace (nv_vmaddr q + nv_length q - nv_vmaddr q) with (nv_length q) by lia. rewrite <- Hr at 1. repeat split; try done; try lia; congruence.
Qed.

Lemma mid_order x y l k : mid = l ++ x :: k -> y ∈ k -> en rs x < vm rs y.
Proof using Exs Hb Hco Hd Hfew Hin Hl1 Hl2 Hlen Hlib Hmid Hres Hx.
  intros Em Hy. assert (x ∈ mid) as Hxm by (rewrite Em; set_solver). assert (y ∈ mid) as Hym by (rewrite Em; set_solver). pose proof (o_sorted _ _ (c_ordered _ _ _ Hco)) as Hs. rewrite Exs, Em, <- app_assoc in Hs. cbn [app] in Hs.
  rewrite app_assoc in Hs. apply sorted_mid in Hs as [_ Hs]. rewrite Forall_forall in Hs. specialize (Hs y ltac:(set_solver)). unfold before_range in Hs.
  destruct (mid_at x Hxm) as (? & _ & _ & _ & _ & _ & _ & _ & _ & Ex). destruct (mid_at y Hym) as (? & _ & _ & _ & _ & _ & _ & _ & _ & Ey). lia.
Qed.

Lemma hull_bounds : A = Z.min dest (vm rs x1) /\ 0 <= A /\ A <= dest /\ dest + len <= E /\ E <= 2 ^ 64 - 8 /\ in_region s rgn A (E - A) /\ Forall (fun x => A <= vm rs x /\ en rs x <= E) mid /\
  forall x, A <= x < E <-> dest <= x < dest + len \/ exists y, y ∈ mid /\ vm rs y <= x < en rs y.
Proof using Exs Hb Hco Hd Hfew Hin Hl1 Hl2 Hlen Hlib Hmid Hres Hx.
  destruct (hull_a_spec rs mid dest) as (A1 & A2 & A3). destruct (hull_e_spec rs mid (dest + len)) as (E1 & E2 & E3). pose proof (l_mapped _ Hlib) as Hm.
  rewrite Forall_forall in A2, E2. assert (A <= vm rs x1) as A4 by (apply A2; apply list_elem_of_here).
  assert (in_region s rgn A (E - A)) as Hreg.
  { assert (exists a n, in_region s rgn a n /\ a = A) as (a & n & Ha & Ea) by (destruct A3 as [A3|(y & Hy & A3)]; [eauto|destruct (mid_at y Hy) as (q & _ & _ & H & _); eauto]).
    assert (exists a n, in_region s rgn a n /\ a + n = E) as (a' & n' & Ha' & Ea') by (destruct E3 as [E3|(y & Hy & E3)]; [eauto|destruct (mid_at y Hy) as (q & _ & _ & H & _); exists (vm rs y), (en rs y - vm rs y); split; [done|lia]]).
    eapply (in_region_same s rgn a n a' n'); [done|done|done|left; lia|right; lia|lia]. }
  destruct (region_place s rgn A (E - A) Hm Hreg) as (g & k & _ & _ & P1 & P2 & P3 & _). split; [|split; [lia|split; [lia|split; [lia|split; [lia|split; [done|split]]]]]].
  - destruct A3 as [A3|(y & Hy & Ey)]; [lia|]. apply elem_of_cons in Hy as [-> | Hy]; [lia|]. pose proof (mid_order x1 y [] rest eq_refl Hy). destruct (mid_at x1) as (q & _ & _ & _ & ? & _); [apply list_elem_of_here|]. lia.
  - apply Forall_forall. intros y Hy. split; [by apply A2|by apply E2].
  - intros x. split; [|intros [H|(y & Hy & H)]; [lia|specialize (A2 y Hy); specialize (E2 y Hy); cbv beta in *; lia]]. intros Hx'.
    destruct (decide (x < dest)); [destruct A3 as [A3|(y & Hy & Ey)]; [lia|right; exists y; split; [done|]; destruct (mid_at y Hy) as (q & _ & _ & _ & _ & _ & _ & _ & ? & _); lia]|].
    destruct (decide (dest + len <= x)); [destruct E3 as [E3|(y & Hy & Ey)]; [lia|right; exists y; split; [done|]; destruct (mid_at y Hy) as (q & _ & _ & _ & _ & _ & _ & ? & _); lia]|]. left. lia.
Qed.

(** Between the ranges found the memory is still the old one. *)
Lemma hull_gap m0 : agree rs xs m0 (mem s) -> forall x, A <= x < E -> Forall (fun y => ~ (vm rs y <= x < en rs y)) mid -> m0 !! x = mem s !! x.
Proof using Exs Hb Hco Hd Hfew Hin Hl1 Hl2 Hlen Hlib Hmid Hres Hx.
  intros Hag x Hx' Hno. destruct hull_bounds as (_ & _ & _ & _ & _ & _ & _ & Hcov). apply Hcov in Hx'. rewrite Forall_forall in Hno. destruct Hx' as [Hx'|(y & Hy & Hyx)]; [|by destruct (Hno y Hy)].
  apply Hag. intros (z & Hz & Hzx)%covered_fields. destruct (same_on_fields _ _ _ z co_same Hz) as (F1 & F2 & F3).
  assert (z ∈ l1 \/ z ∈ mid \/ z ∈ l2) as [Hz'|[Hz'|Hz']] by (rewrite Exs in Hz; apply elem_of_app in Hz as [?|[?|?]%elem_of_app]; auto); [|by destruct (Hno z Hz')|].
  - revert Hzx. apply untouched; [done|done|]. rewrite F1, F2, F3. rewrite Forall_forall in Hl1. specialize (Hl1 z Hz'). cbv beta in *. lia.
  - revert Hzx. apply untouched; [done|done|]. rewrite F1, F2, F3. rewrite Forall_forall in Hl2. specialize (Hl2 z Hz'). cbv beta in *. lia.
Qed.

(** *** The merge *)
Context (t1 : int_tid) (n1 : range) (Hst : same_but_tree t t1) (Hxo : x_ok t1) (Hroom : room (range_tree t1)) (Htree : tree_ok (range_tree t1) xs) (Hfound : found t1 = mid)
  (Hext : extended s1 r n1 A E).
Definition filled (b : buffer) : range := with_data (with_vmaddr n1 A) (Some b) (ALIGNED_LEN A (E - A)).
(** The first range, as the merge leaves it. *)
Definition grown (q : range) (b : buffer) : range := with_extent (with_vmaddr (with_data q (Some b) (ALIGNED_LEN A (E - A))) A) (E - A) (nv_offset n1) (end_offset n1).
Definition after_merge (t2 : int_tid) (R : gmap Z range) (q : range) (b : buffer) : rvm :=
  with_regions (with_ranges (with_tids s1 (<[tid := t2]> (tids s))) (delete new (<[x1 := grown q b]> R))) (recount (regions s) rgn (- (zlen mid - 1))).

Lemma merge_run m0 q : rs !! x1 = Some q -> old_values rs xs m0 -> agree rs xs m0 (mem s) ->
  exists t2 R b, merge_found tid rgn new t1 (searching s1 tid t1 new n1) = Ret (RVM_SUCCESS, after_merge t2 R q b) /\
    same_but_tree t1 t2 /\ x_ok t2 /\ tree_ok (range_tree t2) (l1 ++ x1 :: l2) /\ room (range_tree t2) /\ same_on rs R (l1 ++ x1 :: l2) /\ holds b m0 A (E - A).
Proof using Exs Hb Hco Hd Hfew Hin Hl1 Hl2 Hlen Hlib Hmid Hres Hx Hst Hxo Hroom Htree Hfound Hext.
  intros Eq Hold Hag. destruct Hext as (X1 & X2 & X3 & X4 & X5). destruct hull_bounds as (B1 & B2 & B3 & B4 & B5 & B6 & B7 & _). pose proof Hb as (Hrg & Hv & Hl & _).
  assert (x_ranges t1 = Some mid) as Ex by (unfold found in Hfound; destruct (x_ranges t1); [by rewrite Hfound|done]). assert (TID t1 RESTORE_FLAG = true) as Hres1 by (destruct Hst as (_ & _ & H3); unfold TID in *; by rewrite H3).
  assert (x1 ∈ mid) as Hx1 by apply list_elem_of_here. assert (new <> x1) as Hne by (intros H; apply co_new; rewrite H; by apply mid_in). assert (vm rs x1 = nv_vmaddr q) as Evm by (unfold vm; by rewrite Eq).
  destruct (mid_at x1 Hx1) as (q' & Eq' & Hqr & _). assert (q' = q) as -> by congruence. clear Eq'. destruct (Hold x1 (mid_in x1 Hx1)) as (q' & bq & Eq' & Hdq & _). assert (q' = q) as -> by congruence. clear Eq'.
  unfold merge_found. rewrite (run_fetch _ mid) by done. rewrite (run_fetch _ x1) by done. rewrite (run_get_range x1 q) by (cbn; rewrite !lookup_insert_ne by done; done). rewrite (run_get_range new n1) by apply lookup_insert_eq.
  assert ((if nv_vmaddr q <? nv_vmaddr n1 then with_vmaddr n1 (nv_vmaddr q) else n1) = with_vmaddr n1 A) as ->.
  { rewrite B1, X2, Hv, Evm. destruct (Z.ltb_spec (nv_vmaddr q) dest); [by rewrite Z.min_r by lia|rewrite Z.min_l by lia; rewrite <- Hv, <- X2; by destruct n1]. }
  rewrite run_put_range, Hres1, run_bind, run_malloc_ok by apply Hlib. rewrite run_bind, run_put_range, run_ret, Hdq. cbn [nv_vmaddr with_vmaddr].
  assert (RANGE_LEN (with_vmaddr n1 A) = ALIGNED_LEN A (E - A)) as -> by (unfold RANGE_LEN; cbn; by rewrite X5). set (buf := new_buffer (ALIGNED_LEN A (E - A))). fold (filled buf).
  assert (E - A <= zlen buf) as Hbuf by (pose proof (ALIGNED_LEN_room A (E - A) ltac:(lia) ltac:(lia) ltac:(lia)); unfold buf, zlen, new_buffer; rewrite length_replicate; lia).
  set (R0 := <[new := filled buf]> (ranges s1)).
  match goal with |- context [mbnd (merge_loop tid new true true mid A 0) _ ?st] => assert (st = merging s1 tid t1 R0) as -> by (unfold merging, with_ranges, with_tids, searching, R0; cbn; by rewrite !insert_insert_eq) end.
  assert (forall x, x ∈ mid -> rg (ranges s1) x = rg rs x /\ vm (ranges s1) x = vm rs x /\ en (ranges s1) x = en rs x) as Hfs by (intros x Hxx; apply (same_on_fields _ _ xs); [apply co_same|by apply mid_in]).
  destruct (merge_spec s1 tid new (filled buf) l1 rest l2 x1 A E m0) with (t := t1) (R := R0) (b := buf) as (t2 & R & Em & Hm).
  - rewrite <- Exs. apply co_ordered. - rewrite <- Exs. apply co_new. - rewrite <- Exs. apply Hx. - rewrite <- Exs. unfold few in *. rewrite zlen_cons in Hfew. lia.
  - intros x Hxx. destruct (Hold x (mid_in x Hxx)) as (p & bp & Ep & H). exists p, bp. rewrite co_same by by apply mid_in. done.
  - done. - done.
  - rewrite Forall_forall in B7 |- *. intros x Hxx. destruct (Hfs x Hxx) as (_ & -> & ->). by apply B7.
  - intros x y Hxx Hyy. destruct (Hfs x Hxx) as (-> & _). destruct (Hfs y Hyy) as (-> & _). destruct (mid_at x Hxx) as (? & _ & _ & _ & _ & _ & _ & _ & _ & ->). by destruct (mid_at y Hyy) as (? & _ & _ & _ & _ & _ & _ & _ & _ & ->).
  - intros x Hxx Hno. apply (hull_gap m0 Hag x Hxx). rewrite Forall_forall in Hno |- *. intros y Hy. destruct (Hfs y Hy) as (_ & F2 & F3). rewrite <- F2, <- F3. by apply Hno.
  - done. - done. - by rewrite <- Exs. - done. - intros x Hxx. unfold R0. rewrite lookup_insert_ne; [done|]. intros <-. apply co_new. by rewrite Exs. - apply lookup_insert_eq. - done.
  - rewrite (run_eq _ _ _ _ _ Em). destruct Hm as (M1 & M2 & M3 & M4 & M5 & M6 & b & M7 & M8 & M9).
    rewrite (run_get_range new (filled b)) by exact M7. assert (same_on rs R (l1 ++ x1 :: l2)) as Hs by (intros x Hxx; rewrite M6 by done; apply co_same; rewrite Exs; set_solver).
    rewrite (run_get_range x1 q) by (cbn; rewrite Hs by set_solver; done). rewrite run_put_range, (run_free_range new (filled b)) by (cbn; by rewrite lookup_insert_ne).
    destruct (region_place s rgn A (E - A) (l_mapped _ Hlib) B6) as (g & _ & Eg & _). rewrite (run_count rgn _ g) by exact Eg. exists t2, R, b. split; [unfold ret, after_merge; do 2 f_equal; unfold grown; cbn; by rewrite X5|].
    split; [done|]. split; [unfold x_ok in *; by rewrite M2, M3|]. split; [done|]. split; [done|]. split; [done|]. exact M8.
Qed.

Lemma mid_uncommitted g : uncommitted rs mid g = if g =? rgn then zlen mid else 0.
Proof using Exs Hb Hco Hd Hfew Hin Hl1 Hl2 Hlen Hlib Hmid Hres Hx Hst Hxo Hroom Htree Hfound Hext.
  assert (forall l, (forall x, x ∈ l -> x ∈ mid) -> uncommitted rs l g = if g =? rgn then zlen l else 0) as H; [|by apply H].
  induction l as [|x l IH]; intros Hl; [by destruct (g =? rgn)|]. rewrite uncommitted_cons, zlen_cons, IH by (intros; apply Hl; set_solver). destruct (mid_at x) as (q & Eq & Er & _ & Hlt & E1 & E2 & _); [apply Hl; set_solver|].
  unfold counts. rewrite Eq, Er, (Z.eqb_sym rgn). destruct (g =? rgn), (Z.eqb_spec (nv_length q) 0); cbn; lia.
Qed.

Lemma covered_mid x : covered rs mid x <-> exists y, y ∈ mid /\ vm rs y <= x < en rs y.
Proof using Exs Hb Hco Hd Hfew Hin Hl1 Hl2 Hlen Hlib Hmid Hres Hx Hst Hxo Hroom Htree Hfound Hext.
  split; [apply covered_fields|]. intros (y & Hy & H). destruct (mid_at y Hy) as (q & Eq & _ & _ & _ & E1 & E2 & _). exists y, q. rewrite E1, E2 in H. done.
Qed.

(** What the merge leaves is a transaction with the merged range in place of those found. *)
Lemma co_merged m0 q t2 R b : rs !! x1 = Some q -> same_but_tree t1 t2 -> x_ok t2 -> tree_ok (range_tree t2) (l1 ++ x1 :: l2) -> room (range_tree t2) -> same_on rs R (l1 ++ x1 :: l2) -> holds b m0 A (E - A) ->
  let s' := after_merge t2 R q b in let xs' := l1 ++ x1 :: l2 in
  set_step s tid t xs dest len s' t2 xs' /\ co_tx s' t2 xs' /\ zlen xs' <= zlen xs + 1.
Proof using Exs Hb Hco Hd Hfew Hin Hl1 Hl2 Hlen Hlib Hmid Hres Hx Hst Hxo Hroom Htree Hfound Hext.
  intros Eq (T1 & T2 & T3) Hxo2 Htree2 Hroom2 Hs Hh s' xs'. destruct Hst as (U1 & U2 & U3). destruct Hext as (X1 & X2 & X3 & X4 & X5). destruct hull_bounds as (B1 & B2 & B3 & B4 & B5 & B6 & B7 & B8). pose proof Hb as (Hrg & _).
  assert (x1 ∈ mid) as Hx1 by apply list_elem_of_here. destruct (mid_at x1 Hx1) as (q' & Eq' & Hqr & _ & Hlt1 & Ev1 & Ee1 & _). assert (q' = q) as -> by congruence. clear Eq'.
  pose proof co_new as Hnew. assert (sublist xs' xs) as Hsub by (unfold xs'; rewrite Exs; apply sublist_app; [done|]; cbn; apply sublist_skip; by apply sublist_inserts_l).
  assert (new ∉ xs') as Hnew' by (intros H; apply Hnew; by eapply elem_of_sublist).
  assert (ranges s' !! x1 = Some (grown q b)) as Ex1 by (cbn; rewrite lookup_delete_ne by (intros H; apply Hnew'; unfold xs'; set_solver); apply lookup_insert_eq).
  assert (NoDup xs') as Hnd by (eapply sublist_NoDup; [apply Hx|exact Hsub]).
  assert (same_on rs (ranges s') (l1 ++ l2)) as Hsame.
  { intros x Hxx. cbn. unfold xs' in *. rewrite lookup_delete_ne by set_solver. rewrite lookup_insert_ne; [apply Hs; set_solver|]. intros <-. apply NoDup_app in Hnd as (_ & N1 & N2). apply NoDup_cons in N2 as [N2 _]. set_solver. }
  assert (like s s') as Hlike by apply (recount_like s). assert (xs' ≡ₚ x1 :: l1 ++ l2) as Hperm by (unfold xs'; by rewrite Permutation_middle).
  assert (range_at s (grown q b)) as Hat by (split; [cbn; by rewrite Hqr|]; destruct X4 as (g & G1 & G2 & G3 & G4 & G5); exists g; cbn [grown region nv_offset end_offset nv_vmaddr nv_length with_extent with_vmaddr with_data]; rewrite Hqr; rewrite X1, Hrg in G1; repeat split; try apply G2; try apply G3; [done|lia|lia]).
  split; [split|split; [split|]]; try done.
  - pose proof Hx as [H1 H2 H3 [H4 H4'] H5 H6 H7]. split; try done; [apply lookup_insert_eq|split; [done|intros H; apply H4'; by eapply elem_of_sublist]|cbn; lia|..].
    + eapply forall_sublist; [exact Hsub|]. eapply Forall_impl; [exact H6|]. cbn. intros. lia.
    + rewrite Hperm. constructor; [exists (grown q b); split; [done|]; split; [by apply (range_at_like s)|]; intros _ _; exists b; split; [done|apply Hh]|].
      rewrite Forall_forall in H7 |- *. intros x Hxx. apply (range_ok_same s s' t); [done|congruence|by apply Hsame|]. apply H7. rewrite Exs. set_solver.
  - split; [congruence|]. split; congruence.
  - repeat split; try done. apply Hlib.
  - intros x. rewrite (covered_perm _ _ _ _ Hperm). change (x1 :: l1 ++ l2) with ([x1] ++ (l1 ++ l2)). rewrite covered_app, (covered_one _ _ (grown q b)), covered_same by done. cbn [nv_vmaddr nv_length grown with_extent with_vmaddr].
    replace (A + (E - A)) with E by lia. rewrite B8, Exs, !covered_app, covered_mid. tauto.
  - unfold base. cbn [regions s' after_merge with_regions]. rewrite uncount_recount. apply uncount_ext. intros g. rewrite (uncommitted_perm _ _ _ _ Hperm), uncommitted_cons, (uncommitted_same rs), Exs, !uncommitted_app, mid_uncommitted by done.
    unfold counts. rewrite Ex1. cbn [region grown with_extent with_vmaddr with_data nv_length]. rewrite Hqr, (Z.eqb_sym rgn). destruct (g =? rgn), (Z.eqb_spec (E - A) 0); cbn; lia.
  - pose proof (ordered_sublist s _ _ Hsub (c_ordered _ _ _ Hco)) as Ho. split.
    + destruct (ordered_same s s' (l1 ++ l2) Hlike Hsame) as [G _]; [eapply ordered_sublist; [|exact Ho]; unfold xs'; apply sublist_app; [done|by apply sublist_cons]|]. 
      assert (rg (ranges s') x1 = rgn /\ vm (ranges s') x1 = A /\ en (ranges s') x1 = E) as (N1 & N2 & N3) by (unfold rg, vm, en; rewrite Ex1; cbn [grown region nv_vmaddr nv_length with_extent with_vmaddr with_data]; lia).
      destruct (hull_a_spec rs mid dest) as (_ & _ & HA). destruct (hull_e_spec rs mid (dest + len)) as (_ & _ & HE). pose proof (o_sorted _ _ (c_ordered _ _ _ Hco)) as Hso. rewrite Exs in Hso. apply StronglySorted_app in Hso as (S1 & _ & Hso). apply StronglySorted_app in Hso as (S2 & _ & _).
      apply sorted_put; [done|apply Forall_forall; intros y Hy..]; destruct (same_on_fields _ _ _ y Hsame ltac:(set_solver)) as (F1 & F2 & F3); unfold before_range; rewrite ?F1, ?F2, ?F3, N1, ?N2, ?N3.
      * rewrite Forall_forall in Hl1. specialize (Hl1 y Hy). cbv beta in Hl1. rewrite Hrg in Hl1. destruct HA as [HA|(z & Hz & HA)]; [lia|]. specialize (S1 y z Hy ltac:(set_solver)). unfold before_range in S1. destruct (mid_at z Hz) as (? & _ & _ & _ & _ & _ & _ & _ & _ & Ez). lia.
      * rewrite Forall_forall in Hl2. specialize (Hl2 y Hy). cbv beta in Hl2. rewrite Hrg in Hl2. destruct HE as [HE|(z & Hz & HE)]; [lia|]. specialize (S2 z y Hz Hy). unfold before_range in S2. destruct (mid_at z Hz) as (? & _ & _ & _ & _ & _ & _ & _ & _ & Ez). lia.
    + rewrite Hperm. constructor; [exists (grown q b); split; [done|]; split; [by apply (range_at_like s)|cbn [grown nv_length with_extent]; lia]|]. pose proof (o_ranges _ _ Ho) as Hor. rewrite Hperm in Hor. apply Forall_cons in Hor as [_ Hor].
      rewrite Forall_forall in Hor |- *. intros x Hxx. destruct (Hor x Hxx) as (p & Ep & Hp & Hpl). exists p. rewrite Hsame by done. split; [done|]. split; [by apply (range_at_like s)|done].
  - apply sublist_length in Hsub. unfold zlen. lia.
Qed.

Lemma co_merge : exists s', merge_found tid rgn new t1 (searching s1 tid t1 new n1) = Ret (RVM_SUCCESS, s') /\ co_step s tid t xs dest len s'.
Proof using Exs Hb Hco Hd Hfew Hin Hl1 Hl2 Hlen Hlib Hmid Hres Hx Hst Hxo Hroom Htree Hfound Hext.
  pose proof (c_ordered _ _ _ Hco) as Ho. destruct (mid_at x1 (list_elem_of_here _ _)) as (q & Eq & _).
  destruct (old_values_undo s xs (mem s) (l_mapped _ Hlib) Ho) as [Hold Hag].
  { pose proof (x_ranges_ok _ _ _ _ Hx) as H. eapply Forall_impl; [exact H|]. intros x (p & Ep & _ & Hp). exists p. auto. }
  destruct (merge_run _ q Eq Hold Hag) as (t2 & R & b & Erun & Ht & Hxo2 & Htr & Hr & Hs & Hh). exists (after_merge t2 R q b). split; [done|].
  destruct (co_merged _ q t2 R b Eq Ht Hxo2 Htr Hr Hs Hh) as (C1 & C2 & C3). exists t2, (l1 ++ x1 :: l2). split; [done|]. split; [done|]. split; [done|].
  intros m0 Hold0 Hag0. destruct (merge_run m0 q Eq Hold0 Hag0) as (t3 & R' & b' & Erun' & _ & _ & _ & _ & Hs' & Hh'). rewrite Erun in Erun'. assert (ranges (after_merge t2 R q b) = ranges (after_merge t3 R' q b')) as Er by congruence. rewrite Er.
  assert (new ∉ l1 ++ x1 :: l2) as Hnew by (intros H; apply co_new; rewrite Exs; set_solver). intros x Hxx. cbn [ranges after_merge with_regions with_ranges]. rewrite lookup_delete_ne by (intros <-; done).
  destruct (decide (x = x1)) as [-> | Hne]; [rewrite lookup_insert_eq; by exists (grown q b'), b'|]. rewrite lookup_insert_ne, Hs' by done. apply Hold0. rewrite Exs. set_solver.
Qed.
End Touch.

(** The three cases together. *)
Lemma merge_range_coalesced u : tid_handle u tid t -> TID t RVM_COALESCE_RANGES = true -> exists s', merge_range tid rgn new s1 = Ret (RVM_SUCCESS, s') /\ co_step s tid t xs dest len s'.
Proof using Hlib Hx Hco Hfew Hres Hd Hlen Hin Hb.
  intros Hh Hflag. pose proof Hx as [Ht Htree Hroom Haddr Hnext Hfresh Hok]. pose proof Hb as (Hrg & Hv & Hl & _).
  destruct (find_overlap_spec s1 tid t xs new r dest (dest + len)) as (l1 & mid & l2 & t1 & n1 & out & (Exs & Hmid & Hl2 & Hl1) & Ef & Hst & Hxo & Hroom1 & Hcase); try done; try lia.
  { apply Hlib. } { apply Hco. } { apply co_ordered. } { apply co_new. } { apply lookup_insert_eq. } { apply co_spans. } { pose proof co_end. lia. } { apply (mapped_like s); [done|apply Hlib]. }
  unfold merge_range. rewrite (run_get_int_tid tid t), Hflag by done. cbn [negb]. rewrite (run_eq _ _ _ _ _ Ef). destruct mid as [|x1 rest].
  - destruct Hcase as (-> & -> & Hf & Htr). cbn [fst]. rewrite (run_get_int_tid tid t1) by apply lookup_insert_eq. assert ((x_ranges_len t1 =? 0) = true) as -> by (unfold x_ranges_len, found in *; destruct (x_ranges t1) as [[|]|]; done).
    apply (co_insert l1 l2 t1); done.
  - destruct Hcase as [Htr [(C1 & C2 & -> & ->)|(C1 & -> & Hf & Hext)]]; cbn [fst snd].
    + apply (co_inside x1 t1); try done. rewrite Exs. set_solver.
    + rewrite (run_get_int_tid tid t1) by apply lookup_insert_eq. assert ((x_ranges_len t1 =? 0) = false) as -> by (unfold x_ranges_len, found in *; destruct (x_ranges t1) as [l|]; [rewrite Hf, zlen_cons; pose proof (zlen_nonneg rest); apply Z.eqb_neq; lia|done]).
      assert (forall P : Z -> Z -> Z -> Prop, forall l, (forall x, x ∈ l -> x ∈ xs) -> Forall (fun x => P (rg (ranges s1) x) (vm (ranges s1) x) (en (ranges s1) x)) l -> Forall (fun x => P (rg (ranges s) x) (vm (ranges s) x) (en (ranges s) x)) l) as Htrans.
      { intros P l Hin' H. rewrite Forall_forall in H |- *. intros x Hxx. specialize (H x Hxx). cbv beta in *. by destruct (same_on_fields _ _ _ x co_same (Hin' x Hxx)) as (<- & <- & <-). }
      apply (co_merge l1 rest l2 x1); try done.
      * apply (Htrans (fun g v e => g = region r /\ v <= dest + len /\ dest <= e)); [rewrite Exs; set_solver|done].
      * apply (Htrans (fun g v e => region r < g \/ (region r = g /\ dest + len < v))); [rewrite Exs; set_solver|done].
      * apply (Htrans (fun g v e => g < region r \/ (g = region r /\ e < dest))); [rewrite Exs; set_solver|done].
      * assert (forall l a, (forall x, x ∈ l -> x ∈ xs) -> hull_a (ranges s1) l a = hull_a (ranges s) l a /\ hull_e (ranges s1) l a = hull_e (ranges s) l a) as Hhull.
        { induction l as [|x l IH]; intros a Hi; [done|]. cbn [hull_a hull_e foldl]. destruct (same_on_fields _ _ _ x co_same ltac:(set_solver)) as (_ & F2 & F3). unfold hull_a, hull_e. cbn [foldl]. rewrite F2, F3. split; [apply (IH (Z.min a (vm (ranges s) x)))|apply (IH (Z.max a (en (ranges s) x)))]; set_solver. }
        destruct (Hhull (x1 :: rest) dest) as [<- _]; [rewrite Exs; set_solver|]. destruct (Hhull (x1 :: rest) (dest + len)) as [_ <-]; [rewrite Exs; set_solver|]. done.
Qed.
End CoSet.

(** rvm_set_range of a transaction that coalesces. *)
Lemma set_range_coalesced s u tid t xs dest len : lib s -> tid_handle u tid t -> open_tx s tid t xs -> co_tx s t xs -> few (next s :: xs) ->
  TID t RESTORE_FLAG = true -> TID t RVM_COALESCE_RANGES = true -> 0 <= dest -> 0 < len -> dest + len <= 2 ^ 64 ->
  (rvm_set_range (Some u) dest len s = Ret (RVM_ENOT_MAPPED, s) /\ forall rgn, ~ in_region s rgn dest len) \/
  exists s', rvm_set_range (Some u) dest len s = Ret (RVM_SUCCESS, s') /\ co_step s tid t xs dest len s'.
Proof.
  intros Hlib Hh Hx Hco Hfew Hres Hflag Hd Hlen Hl. destruct (set_range_front s u tid t dest len Hlib Hh (x_tid _ _ _ _ Hx) ltac:(by right) Hd ltac:(lia) Hl) as [[E H]|(rgn & r & Hin & Hb & E)]; [left; auto|right].
  rewrite E. by apply (merge_range_coalesced s tid t xs rgn dest len r) with (u := u).
Qed.
End RvmCoSet.
