(* ===== verification/RvmSession.v ===== *)
(** * Transactions of the recoverable memory: sessions

    A client of the library begins a transaction, announces and modifies ranges,
    stores to what it has announced, and aborts.  The invariant of such a session, in
    both modes: the transaction's ranges cover what was announced, and hold what is
    needed to bring back the memory and the counts of the start. *)
From Stdlib Require Import ZArith Lia Bool.
From stdpp Require Import base list numbers gmap sorting.
From S2P Require Import Prelude.
From S2P Require Import RvmOffset.
From S2P Require Import RvmTree.
From S2P Require Import RvmAvl.
From S2P Require Import RvmIter.
From S2P Require Import RvmLoops.
From S2P Require Import RvmTrans.
From S2P Require Import RvmCells.
From S2P Require Import RvmTx.
From S2P Require Import RvmSet.
From S2P Require Import RvmMerge.
From S2P Require Import RvmCoalesce.
From S2P Require Import RvmCoSet.
Import RvmOffset RvmTree RvmAvl RvmIter RvmLoops RvmTrans RvmCells RvmTx RvmSet RvmMerge RvmCoalesce RvmCoSet.
Open Scope Z_scope.

Module RvmSession.

Open Scope rvm_scope.

(** ** Clients *)
Inductive action := Announce (dest len : Z) | Modify (dest : Z) (src : buffer) | Write (addr : Z) (c : option Z).

Definition said (anns : list (Z * Z)) (x : Z) : bool := existsb (fun r => (r.1 <=? x) && (x <? r.1 + r.2)) anns.

(** One action; [anns] are the ranges announced so far.  Stores to other addresses
    are not made. *)
Definition act (u : rvm_tid) (anns : list (Z * Z)) (x : action) : M (list (Z * Z)) :=
  match x with
  | Announce dest len => let! rc := rvm_set_range (Some u) dest len in ret (if rc =? RVM_SUCCESS then (dest, len) :: anns else anns)
  | Modify dest src => let! rc := rvm_modify_bytes (Some u) dest src in ret (if rc =? RVM_SUCCESS then (dest, zlen src) :: anns else anns)
  | Write a c => if said anns a then (let! m := get mem in set_mem (put a [c] m)) ;;! ret anns else ret anns
  end.
Fixpoint session (u : rvm_tid) (anns : list (Z * Z)) (xs : list action) : M (list (Z * Z)) :=
  match xs with [] => ret anns | x :: xs => let! anns := act u anns x in session u anns xs end.

Definition act_ok (x : action) : Prop :=
  match x with Announce d n => 0 <= d /\ 0 <= n /\ d + n <= 2 ^ 64 | Modify d src => 0 <= d /\ d + zlen src <= 2 ^ 64 /\ zlen src < 2 ^ 31 | Write _ _ => True end.

(** ** The invariant *)

(** What each mode keeps of the memory [m0] of the start. *)
Definition tracked (s : rvm) (t : int_tid) (xs : list Z) (m0 : memory) : Prop :=
  if TID t RVM_COALESCE_RANGES then co_tx s t xs /\ old_values (ranges s) xs m0 else plain_tx s t xs /\ saved (ranges s) xs m0.

(** How many ranges a transaction may have: with coalescing those of a tree that the
    first traversal vector is long enough for. *)
Definition limit (t : int_tid) : Z := if TID t RVM_COALESCE_RANGES then 2582 else 2 ^ 62.

(** What a session leaves as it was: the memory [w_mem] to bring back, the regions
    without the transaction's counts, the other transactions and the log. *)
Record world := World { w_mem : memory; w_regions : gmap Z region_t; w_tids : gmap Z int_tid; w_log : log_t }.

Record tx_inv (u : rvm_tid) (w : world) (anns : list (Z * Z)) (s : rvm) (tid : Z) (t : int_tid) (xs : list Z) : Prop := {
  i_lib : lib s;
  i_handle : tid_handle u tid t;
  i_open : open_tx s tid t xs;
  i_restore : TID t RESTORE_FLAG = true;
  i_opts : TID t RVM_COALESCE_RANGES = true -> rvm_optimizations s <> 0;
  i_tracked : tracked s t xs (w_mem w);
  i_agree : agree (ranges s) xs (w_mem w) (mem s);
  i_base : base s xs = w_regions w;
  i_tids : delete tid (tids s) = w_tids w;
  i_log : log s = w_log w;
  i_cover x : covered (ranges s) xs x <-> said anns x = true
}.

Lemma said_cons d n anns x : said ((d, n) :: anns) x = true <-> d <= x < d + n \/ said anns x = true.
Proof. unfold said. cbn [existsb fst snd]. rewrite orb_true_iff, andb_true_iff, Z.leb_le, Z.ltb_lt. done. Qed.

(** ** Announcing *)
Lemma set_range_empty s u d : lib s -> rvm_optimizations s <> 0 -> rvm_set_range (Some u) d 0 s = Ret (RVM_SUCCESS, s).
Proof. intros Hl Ho. unfold rvm_set_range. rewrite run_get, (l_inited _ Hl). cbn [negb]. rewrite run_get. by destruct (Z.eqb_spec (rvm_optimizations s) 0). Qed.

Lemma inv_step u w anns s tid t xs d n s' t' xs' : tx_inv u w anns s tid t xs -> set_step s tid t xs d n s' t' xs' -> tracked s' t' xs' (w_mem w) -> tx_inv u w ((d, n) :: anns) s' tid t' xs'.
Proof.
  intros [Hlib [H1 H2 H3 H4 H5 H6] Hx Hres Hopt Htr Hag Hba Hti Hlo Hcov] [S1 (S2 & S3 & S4) S5 (S6 & S7 & S8 & S9 & S10 & S11) S12 S13 S14] Htr'.
  assert (forall f, TID t' f = TID t f) as Hf by (intros f; unfold TID; by rewrite S4). split; try done.
  - split; [by rewrite S6, (l_inited _ Hlib)|done|by apply (mapped_like s); [|apply Hlib]].
  - split; congruence.
  - by rewrite Hf.
  - rewrite Hf, S7. done.
  - intros x Hx'. rewrite S11. apply Hag. intros Hc. apply Hx'. apply S13. by left.
  - congruence.
  - by rewrite S5, delete_insert_eq.
  - congruence.
  - intros x. rewrite S13, Hcov, said_cons. tauto.
Qed.

Lemma announce_spec u w anns s tid t xs d n : tx_inv u w anns s tid t xs -> zlen xs < limit t -> 0 <= d -> 0 <= n -> d + n <= 2 ^ 64 ->
  (rvm_set_range (Some u) d n s = Ret (RVM_ENOT_MAPPED, s) /\ (0 < n -> forall rgn, ~ in_region s rgn d n)) \/
  exists s' t' xs', rvm_set_range (Some u) d n s = Ret (RVM_SUCCESS, s') /\ tx_inv u w ((d, n) :: anns) s' tid t' xs' /\ zlen xs' <= zlen xs + 1 /\ flags t' = flags t /\ mem s' = mem s /\ like s s'.
Proof.
  intros Hi Hlim Hd Hn Hdn. pose proof Hi as [Hlib Hh Hx Hres Hopt Htr Hag Hba Hti Hlo Hcov]. unfold tracked, limit in *.
  destruct (decide (n = 0 /\ rvm_optimizations s <> 0)) as [[-> Ho]|Hne].
  { right. exists s, t, xs. rewrite set_range_empty by done. split; [done|]. split; [|repeat split; lia || done]. destruct Hi. split; try done. intros x. rewrite said_cons. rewrite Hcov. intuition lia. }
  destruct (TID t RVM_COALESCE_RANGES) eqn:Ef; destruct Htr as [Ht1 Ht2].
  - destruct (set_range_coalesced s u tid t xs d n) as [[E H]|(s' & E & t' & xs' & Hs & Hco & Hz & Ho)]; try done; [unfold few; rewrite zlen_cons; lia|specialize (Hopt eq_refl); lia|left; auto|right].
    exists s', t', xs'. pose proof Hs as [_ (_ & _ & S4) _ (_ & _ & _ & _ & _ & S11) S12 _ _]. split; [done|]. split; [|done]. apply (inv_step u w anns s tid t xs d n); [done|done|]. unfold tracked. assert (TID t' RVM_COALESCE_RANGES = true) as -> by (unfold TID in *; by rewrite S4).
    split; [done|]. by apply Ho.
  - destruct (set_range_plain s u tid t xs d n) as [[E H]|(s' & t' & E & Hs & Hp & Ho)]; try done; [destruct (decide (rvm_optimizations s = 0)); [by left|right; lia]|left; auto|right].
    exists s', t', (xs ++ [next s]). pose proof Hs as [_ (_ & _ & S4) _ (_ & _ & _ & _ & _ & S11) S12 _ _]. split; [done|]. split; [|split; [by rewrite zlen_app|done]]. apply (inv_step u w anns s tid t xs d n); [done|done|]. unfold tracked. assert (TID t' RVM_COALESCE_RANGES = false) as -> by (unfold TID in *; by rewrite S4).
    split; [done|]. by apply Ho.
Qed.

(** Stores to announced addresses. *)
Lemma inv_store u w anns s tid t xs m : tx_inv u w anns s tid t xs -> (forall x, said anns x = false -> m !! x = mem s !! x) -> tx_inv u w anns (with_mem s m) tid t xs.
Proof.
  intros [[L1 L2 L3] Hh [X1 X2 X3 X4 X5 X6 X7] Hres Hopt Htr Hag Hba Hti Hlo Hcov] Hm. split; try done.
  - split; [done|done|by apply (mapped_like s)].
  - unfold tracked in *. destruct (TID t RVM_COALESCE_RANGES); [|destruct Htr as [[P1 P2] P3]; split; [by split|done]]. destruct Htr as [[C1 C2] Ho]. split; [|done]. split; [|done]. apply (ordered_same s); [done|by intros x|done].
  - intros x Hx. cbn [mem with_mem]. rewrite Hm; [by apply Hag|]. destruct (said anns x) eqn:E; [|done]. destruct Hx. by apply Hcov.
Qed.

Lemma act_spec u w anns s tid t xs x : tx_inv u w anns s tid t xs -> zlen xs < limit t -> act_ok x ->
  exists anns' s' t' xs', act u anns x s = Ret (anns', s') /\ tx_inv u w anns' s' tid t' xs' /\ zlen xs' <= zlen xs + 1 /\ flags t' = flags t.
Proof.
  intros Hi Hlim Hok. destruct x as [d n|d src|a c]; cbn [act].
  - destruct Hok as (Hd & Hn & Hl). destruct (announce_spec u w anns s tid t xs d n) as [[E _]|(s' & t' & xs' & E & Hi' & Hz & Hf & _)]; try done; rewrite (run_eq _ _ _ _ _ E).
    + exists anns, s, t, xs. repeat split; try done; try apply Hi. lia.
    + exists ((d, n) :: anns), s', t', xs'. done.
  - destruct Hok as (Hd & Hl & Hs). pose proof (zlen_nonneg src) as Hn. unfold rvm_modify_bytes.
    destruct (announce_spec u w anns s tid t xs d (zlen src)) as [[E _]|(s' & t' & xs' & E & Hi' & Hz & Hf & Hm & _)]; try done; rewrite run_bind, (run_eq _ _ _ _ _ E).
    + exists anns, s, t, xs. repeat split; try done; try apply Hi. lia.
    + exists ((d, zlen src) :: anns), (with_mem s' (put d src (mem s'))), t', xs'. cbn [negb Z.eqb RVM_SUCCESS]. rewrite swrap_small by lia. destruct (Z.ltb_spec (zlen src) 0) as [Hneg|_]; [lia|]. rewrite take_ge by (unfold zlen; lia). split; [done|]. split; [|done]. apply inv_store; [done|]. intros x Hx. rewrite put_lookup, decide_False; [done|]. intros H.
      assert (said ((d, zlen src) :: anns) x = true) by (apply said_cons; by left). congruence.
  - destruct (said anns a) eqn:Ea.
    + exists anns, (with_mem s (put a [c] (mem s))), t, xs. split; [done|]. split; [|split; [lia|done]]. apply inv_store; [done|]. intros x Hx. rewrite put_lookup, decide_False; [done|]. change (zlen [c]) with 1. intros H. assert (x = a) as -> by lia. congruence.
    + exists anns, s, t, xs. split; [done|]. split; [done|]. split; [lia|done].
Qed.

Lemma session_spec u w acts : forall anns s tid t xs, tx_inv u w anns s tid t xs -> zlen xs + zlen acts <= limit t -> Forall act_ok acts ->
  exists anns' s' t' xs', session u anns acts s = Ret (anns', s') /\ tx_inv u w anns' s' tid t' xs' /\ flags t' = flags t /\ zlen xs' <= zlen xs + zlen acts.
Proof.
  induction acts as [|x acts IH]; intros anns s tid t xs Hi Hlim Hok; cbn [session].
  - exists anns, s, t, xs. split; [done|]. split; [done|]. split; [done|]. rewrite zlen_nil. lia.
  - apply Forall_cons in Hok as [Hx Hok]. rewrite zlen_cons in *. pose proof (zlen_nonneg acts). destruct (act_spec u w anns s tid t xs x) as (a1 & s1 & t1 & xs1 & E & Hi1 & Hz & Hf); [done|lia|done|]. rewrite (run_eq _ _ _ _ _ E).
    destruct (IH a1 s1 tid t1 xs1) as (a2 & s2 & t2 & xs2 & E2 & Hi2 & Hf2 & Hz2); [done|unfold limit, TID in *; rewrite Hf; lia|done|]. exists a2, s2, t2, xs2. split; [done|]. split; [done|]. split; [congruence|lia].
Qed.

(** ** Beginning and aborting *)

(** The library before a transaction. *)
Record idle (s : rvm) : Prop := {
  d_lib : lib s;
  d_log : log_open (log s) = true;
  d_next : 0 < next s;
  d_uname : (unames s).1 <> 0;
  d_tid : tids s !! next s = None;
  d_list : next s ∉ tid_list (log s)
}.

Definition listed (l : log_t) (tid : Z) : log_t := Log (log_open l) (dev_log_size l) (tid_list l ++ [tid]) (flush_list l) (n_abort l) (n_flush_commit l) (n_no_flush_commit l).
Definition coalesces (s : rvm) : bool := negb (Z.land (Z.lor (Z.land (rvm_optimizations s) RVM_ALL_OPTIMIZATIONS) RESTORE_FLAG) RVM_COALESCE_RANGES =? 0).

Lemma begin_spec s rt : idle s -> struct_id_ok rt = true ->
  exists s1 t, rvm_begin_transaction (Some rt) restore s = Ret ((RVM_SUCCESS, Some (RvmTid true (unames s) (next s))), s1) /\
    tx_inv (RvmTid true (unames s) (next s)) (World (mem s) (regions s) (tids s) (listed (log s) (next s))) [] s1 (next s) t [] /\ TID t RVM_COALESCE_RANGES = coalesces s /\ like s s1.
Proof.
  intros [[L1 L2 L3] H1 H2 H3 H4 H5] Hrt. unfold rvm_begin_transaction. rewrite run_get, L1. cbn [negb]. unfold bad_tid. rewrite Hrt. cbn [negb Z.eqb RVM_SUCCESS]. rewrite run_get, H1. cbn [negb].
  unfold make_tid, alloc_list_entry. rewrite run_bind. unfold mbnd at 1. rewrite run_bind. unfold make_uname. rewrite run_bind, run_get.
  assert (forall B (k : Z * Z -> M B) st, unames st = unames s -> mbnd ((if (unames st).2 + 1 >=? 1000000 then set_unames ((unames st).1 + 1, 0) else set_unames ((unames st).1, (unames st).2 + 1)) ;;! ret (unames st)) k st =
    k (unames s) (with_unames st (if (unames s).2 + 1 >=? 1000000 then ((unames s).1 + 1, 0) else ((unames s).1, (unames s).2 + 1)))) as Hu.
  { intros B k st Est. rewrite Est. by destruct ((unames s).2 + 1 >=? 1000000). }
  rewrite Hu by done. rewrite run_bind, run_get, run_bind, run_put_int_tid, run_ret. set (t := IntTid _ _ _ _ _ _ _ _ _). rewrite (run_get_int_tid (next s) t) by apply lookup_insert_eq.
  unfold enlist. rewrite run_bind, run_get. unfold mbnd, set_log. eexists. exists t. split; [done|]. set (s1 := with_log _ _).
  assert (TID t RVM_COALESCE_RANGES = coalesces s) as Hc by done. assert (Z.testbit (rvm_optimizations s) 0 = coalesces s) as Hbit.
  { assert (forall x, negb (Z.land x 1 =? 0) = Z.testbit x 0) as Ho by (intros x; change 1 with (Z.ones 1); rewrite Z.land_ones by lia; change (2 ^ 1) with 2; rewrite Zmod_odd, Z.bit0_odd; by destruct (Z.odd x)).
    unfold coalesces. change RVM_COALESCE_RANGES with 1. rewrite Ho, Z.lor_spec, Z.land_spec. change (Z.testbit RVM_ALL_OPTIMIZATIONS 0) with true. change (Z.testbit RESTORE_FLAG 0) with false. by rewrite andb_true_r, orb_false_r. }
  split; [|split; [done|done]]. split; try done.
  - split; [done|done|by apply (mapped_like s)].
  - split; try done. cbn. lia.
  - split; try done; [apply lookup_insert_eq|unfold room, deep; cbn; lia|split; [constructor|set_solver]|cbn; lia].
  - unfold TID. change (flags t) with (Z.lor (Z.land (rvm_optimizations s) RVM_ALL_OPTIMIZATIONS) RESTORE_FLAG). assert (Z.land (Z.lor (Z.land (rvm_optimizations s) RVM_ALL_OPTIMIZATIONS) RESTORE_FLAG) RESTORE_FLAG = RESTORE_FLAG) as ->; [|done].
    apply Z.bits_inj'. intros n Hn. rewrite Z.land_spec, Z.lor_spec. by destruct (Z.testbit RESTORE_FLAG n); rewrite ?orb_true_r, ?andb_false_r.
  - rewrite Hc, <- Hbit. intros Hb H. cbn in H. by rewrite H in Hb.
  - unfold tracked. rewrite Hc. destruct (coalesces s); split; try (by intros x Hx; set_solver).
    + split; [split; constructor|done].
    + split; [done|unfold deep; cbn; lia].
    + intros m Hm. symmetry. apply map_eq. intros x. apply Hm. intros (y & r & Hy & _). set_solver.
  - unfold base. rewrite (uncount_ext _ _ (fun _ => 0)) by done. apply uncount_zero.
  - cbn. rewrite delete_insert_id; done.
  - intros x. split; [intros (y & r & Hy & _); set_solver|done].
Qed.

Lemma inv_saved u w anns s tid t xs : tx_inv u w anns s tid t xs -> saved (ranges s) xs (w_mem w).
Proof.
  intros Hi. pose proof (i_tracked _ _ _ _ _ _ _ Hi) as H. unfold tracked in H. destruct (TID t RVM_COALESCE_RANGES); destruct H as [H1 H2]; [|done].
  apply (old_values_saved s); [apply (i_lib _ _ _ _ _ _ _ Hi)|apply H1|done].
Qed.

(** Aborting brings the world back. *)
Lemma inv_abort u w anns s tid t xs : tx_inv u w anns s tid t xs -> tid ∈ tid_list (w_log w) ->
  rvm_abort_transaction (Some u) s = Ret (RVM_SUCCESS, Some (RvmTid (struct_id_ok u) (t_uname u) 0), aborted s tid xs) /\
  mem (aborted s tid xs) = w_mem w /\ regions (aborted s tid xs) = w_regions w /\ tids (aborted s tid xs) = w_tids w.
Proof.
  intros Hi Hin. split; [|split; [|split]].
  - apply (abort_spec s u tid t xs); [apply (i_lib _ _ _ _ _ _ _ Hi)|apply Hi|by rewrite (i_log _ _ _ _ _ _ _ Hi)|apply Hi|apply Hi].
  - cbn. apply (inv_saved _ _ _ _ _ _ _ Hi). apply Hi.
  - cbn. apply Hi.
  - cbn. apply Hi.
Qed.

End RvmSession.
