(* ===== verification/RvmSpec.v ===== *)
(** * Recoverable memory: theorems

    The properties of the balanced trees of rvm_utils.c and of the transactions of
    rvm_trans.c, each with a run at concrete values. *)
From Stdlib Require Import ZArith Lia Bool.
From stdpp Require Import base list numbers gmap sets sorting.
From S2P Require Import Prelude.
From S2P Require Import RvmOffset.
From S2P Require Import RvmTree.
From S2P Require Import RvmAvl.
From S2P Require Import RvmIter.
From S2P Require Import RvmLoops.
From S2P Require Import RvmTrans.
From S2P Require Import RvmCells.
From S2P Require Import RvmTx.
From S2P Require Import RvmSet.
From S2P Require Import RvmMerge.
From S2P Require Import RvmCoalesce.
From S2P Require Import RvmCoSet.
From S2P Require Import RvmSession.
Import RvmOffset RvmTree RvmAvl RvmIter RvmLoops RvmTrans RvmCells RvmTx RvmSet RvmMerge RvmCoalesce RvmCoSet RvmSession.
Open Scope Z_scope.

Module RvmSpec.

(** ** Trees as sets *)
Inductive tree_op := Insert (p : Z) | Delete (p : Z).

(** The nodes compare by a key. *)
Section Keys.
Context (key : Z -> Z).
Definition key_cmp (p q : Z) : Z := if key p =? key q then 0 else if key p >? key q then 1 else -1.

Definition tree_do (o : tree_op) (tr : tree_root) : res (bool * tree_root) :=
  match o with Insert p => tree_insert key_cmp p tr | Delete p => tree_delete key_cmp p tr end.
Fixpoint tree_run (os : list tree_op) (tr : tree_root) : res (list bool * tree_root) :=
  match os with
  | [] => Ret ([], tr)
  | o :: os => let* r := tree_do o tr in let* rs := tree_run os r.2 in Ret (r.1 :: rs.1, rs.2)
  end.

(** What they do to the set of the nodes; only a node of the tree may be deleted. *)
Definition set_do (o : tree_op) (X : gset Z) : option (bool * gset Z) :=
  match o with
  | Insert p => Some (if bool_decide (set_Exists (fun q => key q = key p) X) then (false, X) else (true, {[p]} ∪ X))
  | Delete p => if bool_decide (p ∈ X) then Some (true, X ∖ {[p]}) else None
  end.
Fixpoint set_run (os : list tree_op) (X : gset Z) : option (list bool * gset Z) :=
  match os with
  | [] => Some ([], X)
  | o :: os => r ← set_do o X; rs ← set_run os r.2; Some (r.1 :: rs.1, rs.2)
  end.

(** The tree has the nodes of [X] in the order of their keys, and is balanced. *)
Definition tree_of (tr : tree_root) (X : gset Z) : Prop :=
  exists xs, tree_ok tr xs /\ StronglySorted (fun p q => key p < key q) xs /\ X = list_to_set xs /\ room tr.

Lemma key_cut p xs : StronglySorted (fun p q => key p < key q) xs -> exists l1 mid l2, xs = l1 ++ mid ++ l2 /\ cut key_cmp p l1 mid l2 /\ zlen mid <= 1.
Proof.
  intros Hs. destruct (cut_exists key_cmp p xs) as (l1 & mid & l2 & -> & Hc).
  - eapply sorted_impl; [exact Hs|]. intros x y _ _ H. cbv beta in H. unfold key_cmp. rewrite !Z.gtb_ltb. destruct (Z.eqb_spec (key p) (key y)), (Z.eqb_spec (key p) (key x)), (Z.ltb_spec (key y) (key p)), (Z.ltb_spec (key x) (key p)); split; intros; lia.
  - apply Forall_forall. intros x _. unfold key_cmp. destruct (key p =? key x), (key p >? key x); auto.
  - exists l1, mid, l2. split; [done|]. split; [done|]. destruct Hc as (_ & H & _). destruct mid as [|x [|y mid]]; [done|done|exfalso]. apply StronglySorted_app in Hs as (_ & _ & Hs). apply StronglySorted_app in Hs as (_ & Hs & _).
    apply StronglySorted_inv in Hs as [_ Hs]. apply Forall_cons in Hs as [Hxy _]. apply Forall_cons in H as [H1 H]. apply Forall_cons in H as [H2 _]. revert H1 H2. unfold key_cmp.
    destruct (Z.eqb_spec (key p) (key x)), (Z.eqb_spec (key p) (key y)); try lia; destruct (key p >? key x), (key p >? key y); lia.
Qed.

Lemma key_cut_keys p l1 mid l2 : cut key_cmp p l1 mid l2 -> Forall (fun x => key x < key p) l1 /\ Forall (fun x => key x = key p) mid /\ Forall (fun x => key p < key x) l2.
Proof.
  intros (H1 & H2 & H3). unfold key_cmp in *. repeat split; [eapply Forall_impl; [exact H1|]|eapply Forall_impl; [exact H2|]|eapply Forall_impl; [exact H3|]]; intros x; cbv beta; rewrite Z.gtb_ltb;
    destruct (Z.eqb_spec (key p) (key x)), (Z.ltb_spec (key x) (key p)); lia.
Qed.

Lemma sorted_NoDup xs : StronglySorted (fun p q => key p < key q) xs -> NoDup xs.
Proof. induction 1 as [|x xs _ IH Hx]; constructor; [|done]. intros H. rewrite Forall_forall in Hx. specialize (Hx x H). cbv beta in Hx. lia. Qed.

Lemma set_zlen xs : StronglySorted (fun p q => key p < key q) xs -> Z.of_nat (size (list_to_set xs : gset Z)) = zlen xs.
Proof. intros H. unfold zlen. by rewrite size_list_to_set by by apply sorted_NoDup. Qed.

Lemma tree_insert_set p tr X : tree_of tr X -> Z.of_nat (size X) < 2582 ->
  exists b tr' X', tree_do (Insert p) tr = Ret (b, tr') /\ set_do (Insert p) X = Some (b, X') /\ tree_of tr' X' /\ Z.of_nat (size X') <= Z.of_nat (size X) + 1.
Proof.
  intros (xs & Hok & Hs & -> & Hroom) Hfew. rewrite set_zlen in * by done. destruct (key_cut p xs Hs) as (l1 & mid & l2 & -> & Hc & Hm). destruct (key_cut_keys _ _ _ _ Hc) as (K1 & K2 & K3). rewrite Forall_forall in K1, K2, K3.
  destruct (tree_insert_spec key_cmp p tr l1 mid l2 Hroom Hok Hc) as [Hnew Hold]. cbn [tree_do set_do]. destruct mid as [|q mid].
  - destruct (Hnew eq_refl) as (tr' & -> & Hok' & _ & Hfew' & _). assert (StronglySorted (fun p q => key p < key q) (l1 ++ p :: l2)) as Hs' by (apply sorted_put; [done|by apply Forall_forall|by apply Forall_forall]).
    assert ({[p]} ∪ list_to_set (l1 ++ [] ++ l2) = (list_to_set (l1 ++ p :: l2) : gset Z)) as EX by (cbn [app]; rewrite !list_to_set_app_L, list_to_set_cons; set_solver).
    exists true, tr', ({[p]} ∪ list_to_set (l1 ++ [] ++ l2)). split; [done|]. split; [|split].
    + rewrite bool_decide_false; [done|]. intros (q & Hq & Ekey). cbn [app] in Hq. rewrite list_to_set_app, elem_of_union, !elem_of_list_to_set in Hq. destruct Hq as [Hq|Hq]; [specialize (K1 q Hq)|specialize (K3 q Hq)]; cbv beta in *; lia.
    + rewrite EX. exists (l1 ++ p :: l2). split; [done|]. split; [done|]. split; [done|]. apply Hfew'. unfold few. cbn [app] in Hfew. rewrite zlen_app in *. rewrite zlen_cons. lia.
    + rewrite EX, set_zlen by done. cbn [app]. rewrite !zlen_app, zlen_cons. lia.
  - destruct (Hold ltac:(done)) as (tr' & -> & C1 & C2 & C3 & _ & C4 & _). exists false, tr', (list_to_set (l1 ++ (q :: mid) ++ l2)). split; [done|]. split; [|split; [|rewrite set_zlen by done; lia]].
    + rewrite bool_decide_true; [done|]. exists q. split; [|apply K2; apply list_elem_of_here]. rewrite elem_of_list_to_set. set_solver.
    + exists (l1 ++ (q :: mid) ++ l2). destruct (same_nodes_ok tr tr' (l1 ++ (q :: mid) ++ l2)) as [Hr Ho]; [by repeat split; auto|done|done|]. done.
Qed.

Lemma tree_delete_set p tr X : tree_of tr X -> Z.of_nat (size X) < 2582 -> p ∈ X ->
  exists tr', tree_do (Delete p) tr = Ret (true, tr') /\ tree_of tr' (X ∖ {[p]}).
Proof.
  intros (xs & Hok & Hs & -> & Hroom) Hfew Hp. rewrite set_zlen in * by done. rewrite elem_of_list_to_set in Hp. destruct (key_cut p xs Hs) as (l1 & mid & l2 & -> & Hc & Hm). destruct (key_cut_keys _ _ _ _ Hc) as (K1 & K2 & K3). rewrite Forall_forall in K1, K2, K3.
  assert (p ∈ mid) as Hpm by (apply elem_of_app in Hp as [Hp|[Hp|Hp]%elem_of_app]; [specialize (K1 p Hp)|done|specialize (K3 p Hp)]; cbv beta in *; lia).
  destruct mid as [|q [|q' mid]]; [set_solver| |rewrite !zlen_cons in Hm; pose proof (zlen_nonneg mid); lia]. apply list_elem_of_singleton in Hpm as <-.
  destruct (tree_delete_spec key_cmp p tr l1 l2 Hroom Hok Hc) as (tr' & E & Hok' & _ & Hfew'). exists tr'. split; [done|]. exists (l1 ++ l2). split; [done|].
  pose proof (sorted_NoDup _ Hs) as Hnd. split; [eapply sorted_sublist; [|exact Hs]; apply sublist_app; [done|by apply sublist_cons]|]. split.
  - cbn [app] in Hnd. rewrite NoDup_app, NoDup_cons in Hnd. destruct Hnd as (_ & N1 & N2 & _). cbn [app]. apply set_eq. intros x. rewrite elem_of_difference, elem_of_singleton, !elem_of_list_to_set, !elem_of_app, elem_of_cons. split; [intros [[H|[->|H]] Hne]; auto; done|].
    intros [H|H]; (split; [by auto|]); intros ->; [by apply (N1 p H), list_elem_of_here|done].
  - apply Hfew'. unfold few. rewrite !zlen_app in *. change (zlen [p]) with 1 in *. lia.
Qed.

(** The tree answers lookups by key. *)
Definition answers (tr : tree_root) (X : gset Z) : Prop :=
  forall p, exists q, tree_lookup key_cmp p (root tr) = Ret q /\ (set_Exists (fun x => key x = key p) X -> q ∈ X /\ key q = key p) /\ (~ set_Exists (fun x => key x = key p) X -> q = 0).

Lemma tree_of_answers tr X : tree_of tr X -> answers tr X.
Proof.
  intros (xs & Hok & Hs & -> & _) p. destruct (key_cut p xs Hs) as (l1 & mid & l2 & Exs & Hc & _). destruct (key_cut_keys _ _ _ _ Hc) as (K1 & K2 & K3). rewrite Forall_forall in K1, K2, K3.
  destruct (tree_lookup_spec key_cmp p (root tr) l1 mid l2 Hc) as (q & E & H0 & H1); [rewrite <- Exs; apply Hok|]. exists q. split; [done|]. destruct mid as [|m mid].
  - split; [|auto]. intros (x & Hx & Ek). exfalso. rewrite elem_of_list_to_set, Exs in Hx. cbn [app] in Hx. apply elem_of_app in Hx as [Hx|Hx]; [specialize (K1 x Hx)|specialize (K3 x Hx)]; cbv beta in *; lia.
  - specialize (H1 ltac:(done)). split; [intros _; split; [rewrite elem_of_list_to_set, Exs; set_solver|by apply K2]|]. intros H. exfalso. apply H. exists m. split; [rewrite elem_of_list_to_set, Exs; set_solver|apply K2; apply list_elem_of_here].
Qed.

Lemma tree_run_set os : forall tr X rs Y, tree_of tr X -> Z.of_nat (size X) + zlen os <= 2582 -> set_run os X = Some (rs, Y) -> exists tr', tree_run os tr = Ret (rs, tr') /\ tree_of tr' Y /\ Z.of_nat (size Y) <= Z.of_nat (size X) + zlen os.
Proof.
  induction os as [|o os IH]; intros tr X rs Y Ht Hn E; cbn [set_run] in E; [simplify_eq; exists tr; rewrite zlen_nil; split; [done|]; split; [done|lia]|]. rewrite zlen_cons in *. pose proof (zlen_nonneg os).
  destruct (set_do o X) as [[b X1]|] eqn:Ed; [|done]. cbn [mbind option_bind fst snd] in E. destruct (set_run os X1) as [[rs1 Y1]|] eqn:Er; [|done]. cbn in E. simplify_eq.
  assert (exists tr1, tree_do o tr = Ret (b, tr1) /\ tree_of tr1 X1 /\ Z.of_nat (size X1) <= Z.of_nat (size X) + 1) as (tr1 & E1 & Ht1 & Hn1).
  { destruct o as [p|p].
    - destruct (tree_insert_set p tr X Ht ltac:(lia)) as (b' & tr1 & X' & E1 & E2 & H1 & H2). rewrite E2 in Ed. simplify_eq. by exists tr1.
    - cbn [set_do] in Ed. case_bool_decide as Hp; [|done]. simplify_eq. destruct (tree_delete_set p tr X Ht ltac:(lia) Hp) as (tr1 & E1 & H1). exists tr1. split; [done|]. split; [done|]. pose proof (subseteq_size (X ∖ {[p]}) X ltac:(set_solver)). lia. }
  cbn [tree_run]. rewrite E1. cbn [rbind fst snd]. destruct (IH tr1 X1 rs1 Y) as (tr' & E' & H' & Hn'); [done|lia|done|]. rewrite E'. cbn [rbind fst snd]. exists tr'. split; [done|]. split; [done|lia].
Qed.
End Keys.

(** C8 The balanced trees of rvm_utils.c implement finite sets of nodes ordered by a
    key.  A sequence of tree_insert and tree_delete on an empty tree (at most 2582
    calls, each delete of a node that is in the tree) always returns, with the answers
    of the set: an insertion is refused exactly when a node has the same key.  The
    resulting tree has exactly the nodes of the set, in the order of the keys, with
    balance factors that are the height differences (-1, 0 or 1), a right node count and
    at most 15 levels, so that the traversal vector is never overrun; tree_lookup finds
    the node with a given key. *)
Theorem rvm_tree_refines_set (key : Z -> Z) (os : list tree_op) (rs : list bool) (X : gset Z) :
  zlen os <= 2582 -> set_run key os ∅ = Some (rs, X) ->
  exists tr, tree_run key os init_tree_root = Ret (rs, tr) /\ tree_of key tr X /\ answers key tr X /\ balanced (root tr) /\ ht (root tr) <= 15.
Proof.
  intros Hn E. destruct (tree_run_set key os init_tree_root ∅ rs X) as (tr & Er & Ht & Hsz); [|rewrite size_empty; lia|done|]. all: rewrite ?size_empty in *.
  { exists []. split; [done|]. split; [constructor|]. split; [done|]. unfold room, deep. cbn. lia. }
  exists tr. split; [done|]. split; [done|]. split; [by apply tree_of_answers|]. destruct Ht as (xs & [Ho Hb _] & Hs & -> & Hroom). split; [done|]. apply few_ht; [done|]. rewrite Ho. unfold few. rewrite <- (set_zlen key) by done. lia.
Qed.

(** C17 FOR_NODES_OF visits the nodes of a tree once each in the order of their keys, and
    leaves the tree as it was; UNLINK_NODES_OF takes them out in this order and
    UNLINK_REVERSE_NODES_OF in the opposite one, and both leave an empty tree that can be
    used again.  For each macro the loop with a body that may leave it early, stop the
    program or go on is the plain loop over the list. *)
Theorem rvm_tree_loops (key : Z -> Z) (tr : tree_root) (X : gset Z) : tree_of key tr X -> 0 ∉ X ->
  exists xs, StronglySorted (fun p q => key p < key q) xs /\ X = list_to_set xs /\
    forall St R (body : Z -> St -> res (St + R)) (s : St),
      match each body xs s with
      | Ret (inl s') => (exists tr', FOR_NODES_OF tr body s = Ret (tr', inl s') /\ same_nodes tr tr') /\ exists tr', UNLINK_NODES_OF tr body s = Ret (tr', inl s') /\ cleared tr'
      | Ret (inr r) => (exists tr', FOR_NODES_OF tr body s = Ret (tr', inr r) /\ same_nodes tr tr') /\ exists tr', UNLINK_NODES_OF tr body s = Ret (tr', inr r)
      | Stop e => FOR_NODES_OF tr body s = Stop e /\ UNLINK_NODES_OF tr body s = Stop e
      end /\
      match each body (reverse xs) s with
      | Ret (inl s') => exists tr', UNLINK_REVERSE_NODES_OF tr body s = Ret (tr', inl s') /\ cleared tr'
      | Ret (inr r) => exists tr', UNLINK_REVERSE_NODES_OF tr body s = Ret (tr', inr r)
      | Stop e => UNLINK_REVERSE_NODES_OF tr body s = Stop e
      end.
Proof.
  intros (xs & Hok & Hs & -> & Hroom) H0. exists xs. split; [done|]. split; [done|]. intros St R body s.
  assert (addrs_ok xs) as Ha by (split; [by eapply sorted_NoDup|by rewrite elem_of_list_to_set in H0]).
  split; [|by apply UNLINK_REVERSE_NODES_OF_spec]. pose proof (FOR_NODES_OF_spec tr xs body s Hroom Hok Ha) as H1. pose proof (UNLINK_NODES_OF_spec tr xs body s Hroom Hok Ha) as H2.
  destruct (each body xs s) as [[s'|r]|e]; done.
Qed.

(** ** The traversal vector *)

(** The addresses of a perfect tree, level by level. *)
Fixpoint row (n : nat) (lo step : Z) : list Z := match n with O => [] | S n => lo :: row n (lo + step) step end.
Fixpoint perfect (h : nat) (step : Z) : list Z := match h with O => [] | S h => perfect h (2 * step) ++ row (2 ^ h) step (2 * step) end.
(** Addresses that extend [t] to a sparse tree of height [h], level by level. *)
Fixpoint join (x y : list (list Z)) : list (list Z) := match x, y with a :: x, b :: y => (a ++ b) :: join x y | [], y => y | x, [] => x end.
Fixpoint extend_to (h : nat) (t : tree) (lo hi : Z) {struct h} : list (list Z) :=
  match h with
  | O => []
  | S h1 =>
      let '(l, p, r, new) := match t with Node l p _ r => (l, p, r, []) | Leaf => (Leaf, (lo + hi) / 2, Leaf, [(lo + hi) / 2]) end in
      new :: join (extend_to h1 l lo p) (match h1 with O => [] | S h2 => extend_to h2 r p hi end)
  end.
(** The deletion of the root, [n] times. *)
Fixpoint roots (n : nat) (tr : tree_root) : list tree_op :=
  match n with
  | O => []
  | S n => match tree_do (fun p => p) (Delete (addr (root tr))) tr with Ret (_, tr') => Delete (addr (root tr)) :: roots n tr' | Stop _ => [] end
  end.
Definition tree_after (os : list tree_op) : tree_root := match tree_run (fun p => p) os init_tree_root with Ret (_, tr) => tr | Stop _ => init_tree_root end.
Definition wearing : list tree_op := let os := Insert <$> perfect 5 (2 ^ 30) in os ++ roots 6 (tree_after os).
Definition overrun : list tree_op := wearing ++ (Insert <$> concat (extend_to 17 (root (tree_after wearing)) 0 (2 ^ 36))).

(** With the address as the key: whether the operations are all of new nodes and of
    nodes that are there. *)
Fixpoint fresh_run (os : list tree_op) (m : gmap Z unit) : bool :=
  match os with
  | [] => true
  | Insert p :: os => match m !! p with Some _ => false | None => fresh_run os (<[p := tt]> m) end
  | Delete p :: os => match m !! p with Some _ => fresh_run os (delete p m) | None => false end
  end.

Lemma fresh_run_set os : forall m, fresh_run os m = true -> exists rs X, set_run (fun p => p) os (dom m) = Some (rs, X) /\ forallb id rs = true.
Proof.
  induction os as [|[p|p] os IH]; intros m H; cbn [fresh_run set_run] in *; [by exists [], (dom m)|..].
  - destruct (m !! p) eqn:E; [done|]. destruct (IH _ H) as (rs & X & Er & Hr). exists (true :: rs), X. cbn [set_do]. rewrite bool_decide_false; [|intros (q & Hq & ->); apply elem_of_dom in Hq as [? Hq]; congruence].
    cbn [mbind option_bind fst snd]. rewrite <- dom_insert_L with (x := tt), Er. done.
  - destruct (m !! p) eqn:E; [|done]. destruct (IH _ H) as (rs & X & Er & Hr). exists (true :: rs), X. cbn [set_do]. rewrite bool_decide_true by (apply elem_of_dom; eauto). cbn [mbind option_bind fst snd]. rewrite <- dom_delete_L, Er. done.
Qed.

(** Tree_delete takes one off max_depth whenever the root was replaced and has a balance
    factor of 0, also when the height of the tree is the same as before: after 31
    insertions and 6 deletions max_depth is 2^64-1 for a tree of height 5.  From then on
    chk_traverse does not enlarge the traversal vector, and there are insertions, each of a
    new node, of which one stores past its end: the behaviour is undefined, although the
    set of nodes is well defined. *)
Theorem rvm_tree_vector_overrun :
  (max_depth (tree_after wearing) = 2 ^ 64 - 1 /\ ht (root (tree_after wearing)) = 5) /\
  (exists rs X, set_run (fun p => p) overrun ∅ = Some (rs, X) /\ forallb id rs = true) /\ tree_run (fun p => p) overrun init_tree_root = Stop CUndef.
Proof.
  split; [vm_compute; done|]. split; [|vm_compute; done]. change (∅ : gset Z) with (dom (∅ : gmap Z unit)). apply fresh_run_set. vm_compute. done.
Qed.

(** ** Offsets *)

(** C30 The offsets of rvm are 128-bit numbers in two words: the sums and differences of
    offsets, and of an offset and a length, are those of the numbers modulo 2^128 with the
    carry and borrow between the words, and the comparison macros compare the numbers. *)
Theorem rvm_offset_arithmetic (x y : rvm_offset) (n : Z) : offset_ok x -> offset_ok y -> word n ->
  oval (rvm_add_offsets x y) = (oval x + oval y) mod 2 ^ 128 /\ oval (rvm_sub_offsets x y) = (oval x - oval y) mod 2 ^ 128 /\
  oval (rvm_add_length_to_offset x n) = (oval x + n) mod 2 ^ 128 /\ oval (rvm_sub_length_from_offset x n) = (oval x - n) mod 2 ^ 128 /\
  RVM_OFFSET_LSS x y = (oval x <? oval y) /\ RVM_OFFSET_GTR x y = (oval y <? oval x) /\ RVM_OFFSET_LEQ x y = (oval x <=? oval y) /\ RVM_OFFSET_GEQ x y = (oval y <=? oval x).
Proof.
  intros Hx Hy Hn. split; [by apply oval_add_offsets|]. split; [by apply oval_sub_offsets|]. split; [by apply oval_add_length|]. split; [by apply oval_sub_length|].
  split; [by apply oval_lss|]. split; [by apply oval_gtr|]. split; [by apply oval_leq|by apply oval_geq].
Qed.

(** ** Transactions *)
Lemma filter_others (x : Z) (l : list Z) : x ∉ l -> filter (fun t => t <> x) l = l.
Proof. induction l as [|y l IH]; intros H; [done|]. rewrite filter_cons_True by (intros ->; apply H; apply list_elem_of_here). f_equal. apply IH. set_solver. Qed.

(** C6 Aborting undoes a transaction.  A client begins a transaction in
    restore mode, announces ranges with rvm_set_range, modifies some with
    rvm_modify_bytes and stores to addresses it has announced (a store elsewhere is not
    made), in any order and with ranges that may overlap, repeat or be unmapped; then it
    aborts.  With range coalescing (at most 2582 actions) and without, as long as malloc
    does not fail, all calls return and rvm_abort_transaction returns
    RVM_SUCCESS; the memory is that of the start, bit by bit, the regions have their old
    counts of uncommitted changes, the transaction is gone from the library's tables and
    the log's list, and the log has counted one abort. *)
Theorem rvm_abort_undoes (s : rvm) (rt : rvm_tid) (acts : list action) : idle s -> struct_id_ok rt = true ->
  Forall act_ok acts -> zlen acts <= (if coalesces s then 2582 else 2 ^ 62) ->
  exists s1 u anns s2 s3, rvm_begin_transaction (Some rt) restore s = Ret ((RVM_SUCCESS, Some u), s1) /\ session u [] acts s1 = Ret (anns, s2) /\
    rvm_abort_transaction (Some u) s2 = Ret ((RVM_SUCCESS, Some (RvmTid true (unames s) 0)), s3) /\
    mem s3 = mem s /\ regions s3 = regions s /\ tids s3 = tids s /\ tid_list (log s3) = tid_list (log s) /\ n_abort (log s3) = n_abort (log s) + 1.
Proof.
  intros Hi Hrt Hok Hn. destruct (begin_spec s rt Hi Hrt) as (s1 & t & Eb & Hinv & Hco & _). set (u := RvmTid true (unames s) (next s)) in *.
  destruct (session_spec u _ acts [] s1 (next s) t [] Hinv) as (anns & s2 & t2 & xs & Es & Hinv2 & _ & _); [unfold limit; rewrite Hco, zlen_nil; done|done|].
  destruct (inv_abort u _ anns s2 (next s) t2 xs Hinv2) as (Ea & Em & Eg & Et); [cbn; set_solver|]. exists s1, u, anns, s2, (aborted s2 (next s) xs). split; [done|]. split; [done|]. split; [exact Ea|].
  split; [done|]. split; [done|]. split; [done|]. pose proof (i_log _ _ _ _ _ _ _ Hinv2) as El. cbn [aborted log tid_list n_abort]. rewrite El. cbn [listed tid_list n_abort w_log]. split; [|done].
  rewrite filter_app, filter_cons_False by (intros H; by apply H). rewrite filter_nil, app_nil_r. apply filter_others. apply (d_list _ Hi).
Qed.

(** C7 With range coalescing the ranges of a transaction are a minimal description of what
    was announced.  After at most 2582 actions of a client, as long as malloc does not
    fail, the nodes of the transaction's tree are
    in the order of regions and addresses, no two overlap or touch, each lies in its
    region with offsets that fit its addresses, an address is in one of them exactly when
    it was announced, and each holds in its buffer what the memory was at the beginning of
    the transaction. *)
Theorem rvm_ranges_coalesced (s : rvm) (rt : rvm_tid) (acts : list action) : idle s -> struct_id_ok rt = true -> coalesces s = true ->
  Forall act_ok acts -> zlen acts <= 2582 ->
  exists s1 u anns s2 t xs, rvm_begin_transaction (Some rt) restore s = Ret ((RVM_SUCCESS, Some u), s1) /\ session u [] acts s1 = Ret (anns, s2) /\
    tids s2 !! t_tid u = Some t /\ tree_ok (range_tree t) xs /\ ordered s2 xs /\
    (forall x, covered (ranges s2) xs x <-> said anns x = true) /\ old_values (ranges s2) xs (mem s).
Proof.
  intros Hi Hrt Hc Hok Hn. destruct (begin_spec s rt Hi Hrt) as (s1 & t & Eb & Hinv & Hco & _). set (u := RvmTid true (unames s) (next s)) in *.
  destruct (session_spec u _ acts [] s1 (next s) t [] Hinv) as (anns & s2 & t2 & xs & Es & Hinv2 & Hf & _); [unfold limit; rewrite Hco, Hc, zlen_nil; done|done|].
  exists s1, u, anns, s2, t2, xs. split; [done|]. split; [done|]. pose proof (i_open _ _ _ _ _ _ _ Hinv2) as Hx. split; [apply Hx|]. split; [apply Hx|]. pose proof (i_tracked _ _ _ _ _ _ _ Hinv2) as Ht.
  unfold tracked in Ht. assert (TID t2 RVM_COALESCE_RANGES = true) as E by (unfold TID in *; rewrite Hf; by rewrite Hco). rewrite E in Ht. destruct Ht as [[Ho _] Hold]. split; [done|]. split; [apply Hinv2|done].
Qed.

(** C18 Find_whole_range returns the region of a non-empty range of addresses when it lies in
    one mapped region, and NULL when there is no such region: the binary search with
    mem_total_include finds it in a tree of disjoint regions ordered by address. *)
Theorem rvm_find_whole_range (s : rvm) (dest len : Z) : mapped s -> 0 <= dest -> 0 < len -> dest + len <= 2 ^ 64 ->
  exists rgn, find_whole_range dest len s = Ret (rgn, s) /\ (rgn <> 0 -> in_region s rgn dest len) /\ (rgn = 0 -> forall g, ~ in_region s g dest len).
Proof.
  intros Hm Hd Hl He. destruct (find_whole_range_spec s Hm dest len Hd ltac:(lia) He) as (rgn & E & H1 & H2). exists rgn. split; [done|]. split; [done|]. intros -> g Hg. specialize (H2 Hl g Hg). subst g.
  by destruct (region_place s 0 dest len Hm Hg) as (? & ? & _ & ? & _).
Qed.

(** ** A library with one region of 64 bytes *)
Definition bytes : memory := list_to_map ((fun i => (1000 + Z.of_nat i, Z.of_nat i)) <$> seq 0 64).
Definition small (opts : Z) (answers : list bool) : rvm :=
  Rvm true opts (77, 5) (Log true (Off 0 100000) [] [] 0 0 0) {[ 500 := Region (Off 0 4096) 1000 1 0 ]} {[ 400 := MemRegion 1000 64 500 ]}
    {| root := Node Leaf 400 0 Leaf; traverse := []; traverse_len := 15; n_nodes := 1; max_depth := 1; unlink := false |} ∅ ∅ 8 answers bytes.
Definition user : rvm_tid := RvmTid true (0, 0) 0.
Definition busy_actions : list action :=
  [Announce 1000 4; Write 1002 (Some 99); Modify 1010 [Some 1; Some 2]; Announce 1060 8; Announce 1020 0; Modify 1003 [Some 7; Some 8; Some 9; Some 6; Some 5; Some 4; Some 3; Some 2]; Write 1011 None; Announce 1001 2; Write 1040 (Some 1)].

Lemma small_idle opts : idle (small opts []).
Proof.
  split; try done; [|cbn; set_solver]. split; [done|done|]. split; cbn [small region_tree root inorder app].
  - apply Forall_singleton. exists (MemRegion 1000 64 500), (Region (Off 0 4096) 1000 1 0). split; [done|]. split; [done|]. cbn. unfold offset_ok, oval, word. cbn. lia.
  - constructor; constructor.
  - intros H. apply list_elem_of_singleton in H. lia.
Qed.
Lemma busy_actions_ok : Forall act_ok busy_actions.
Proof. unfold busy_actions. repeat (apply Forall_cons; split; [vm_compute; repeat split; congruence|]). apply Forall_nil. done. Qed.

(** The codes of the calls of a client that announces ranges one after the other. *)
Fixpoint announce_all (u : option rvm_tid) (rs : list (Z * Z)) : M (list Z) :=
  match rs with
  | [] => ret []
  | (d, n) :: rs => mbnd (rvm_set_range u d n) (fun rc => mbnd (announce_all u rs) (fun rcs => ret (rc :: rcs)))
  end.
Definition announcing (rs : list (Z * Z)) (s : rvm) : res (list Z) :=
  match rvm_begin_transaction (Some user) restore s with
  | Ret ((_, u), s) => match announce_all u rs s with Ret (rcs, _) => Ret rcs | Stop e => Stop e end
  | Stop e => Stop e
  end.

(** When memory is short rvm_set_range with coalescing may write through NULL.
    merge_range looks for a failed malloc in the range that it found, not in the new one
    whose buffer malloc did not give: a client that announces 8 bytes and then 4 bytes
    next to them gets no RVM_ENO_MEMORY for the second call, its behaviour is undefined.
    When realloc fails in alloc_x_ranges the call does return RVM_ENO_MEMORY, but the
    vector is gone while its allocated length has grown, so that the next call that finds
    a range stores through NULL.  With enough memory all calls succeed. *)
Theorem rvm_merge_no_memory :
  announcing [(1000, 8); (1008, 4)] (small 1 [true; true; false]) = Stop CUndef /\
  announcing [(1000, 8); (1008, 4)] (small 1 [true; false]) = Ret [RVM_SUCCESS; RVM_ENO_MEMORY] /\
  announcing [(1000, 8); (1008, 4); (1008, 4)] (small 1 [true; false]) = Stop CUndef /\
  announcing [(1000, 8); (1008, 4); (1008, 4)] (small 1 []) = Ret [RVM_SUCCESS; RVM_SUCCESS; RVM_SUCCESS].
Proof. vm_compute. done. Qed.

(** ** Witnesses *)
Definition some_ops : list tree_op := [Insert 5; Insert 9; Insert 7; Insert 9; Delete 5; Insert 1].

Lemma rvm_tree_refines_set_witness : exists tr, tree_run (fun p => p) some_ops init_tree_root = Ret ([true; true; true; false; true; true], tr) /\ tree_of (fun p => p) tr {[1; 7; 9]}.
Proof.
  destruct (rvm_tree_refines_set (fun p => p) some_ops [true; true; true; false; true; true] {[1; 7; 9]} ltac:(vm_compute; discriminate)) as (tr & E & Ht & _); [|exists tr; split; [exact E|exact Ht]].
  vm_compute. reflexivity.
Defined.

Lemma small_tree : tree_of (fun p => p) (region_tree (small 0 [])) {[400]}.
Proof. exists [400]. split; [split; [done|cbn; lia|done]|]. split; [repeat constructor|]. split; [set_solver|]. unfold room, deep. cbn. lia. Qed.

Lemma rvm_tree_loops_witness : exists tr, FOR_NODES_OF (region_tree (small 0 [])) (fun p l => Ret (inl (l ++ [p]) : list Z + unit)) [] = Ret (tr, inl [400]) /\ same_nodes (region_tree (small 0 [])) tr.
Proof.
  destruct (rvm_tree_loops (fun p => p) (region_tree (small 0 [])) {[400]} small_tree ltac:(set_solver)) as (xs & _ & HX & H).
  assert (FOR_NODES_OF (region_tree (small 0 [])) (fun p l => Ret (inl (l ++ [p]) : list Z + unit)) [] = Ret ({| root := Node Leaf 400 0 Leaf; traverse := []; traverse_len := 15; n_nodes := 1; max_depth := 1; unlink := false |}, inl [400])) as E by (vm_compute; reflexivity).
  destruct (H (list Z) unit (fun p l => Ret (inl (l ++ [p]))) []) as [H1 _]. destruct (each _ xs []) as [[l|[]]|e]; [|rewrite E in H1; destruct H1 as [(? & ? & _) _]; discriminate|rewrite E in H1; destruct H1; discriminate].
  destruct H1 as [(tr & E1 & Hs) _]. exists tr. rewrite E1 in E. injection E as -> ->. split; [exact E1|exact Hs].
Defined.

Lemma rvm_offset_arithmetic_witness : rvm_add_offsets (Off 1 (2 ^ 64 - 1)) (Off 2 3) = Off 4 2 /\ oval (Off 4 2) = (oval (Off 1 (2 ^ 64 - 1)) + oval (Off 2 3)) mod 2 ^ 128.
Proof.
  split; [vm_compute; reflexivity|]. destruct (rvm_offset_arithmetic (Off 1 (2 ^ 64 - 1)) (Off 2 3) 0) as (H & _); [unfold offset_ok, word; cbn; lia|unfold offset_ok, word; cbn; lia|unfold word; lia|]. exact H.
Defined.

Lemma rvm_abort_undoes_witness : exists s1 u anns s2 s3, rvm_begin_transaction (Some user) restore (small 3 []) = Ret ((RVM_SUCCESS, Some u), s1) /\ session u [] busy_actions s1 = Ret (anns, s2) /\
  rvm_abort_transaction (Some u) s2 = Ret ((RVM_SUCCESS, Some (RvmTid true (77, 5) 0)), s3) /\ mem s3 = bytes.
Proof.
  destruct (rvm_abort_undoes (small 3 []) user busy_actions (small_idle 3) eq_refl busy_actions_ok ltac:(vm_compute; discriminate)) as (s1 & u & anns & s2 & s3 & E1 & E2 & E3 & Em & _).
  exists s1, u, anns, s2, s3. split; [exact E1|]. split; [exact E2|]. split; [exact E3|exact Em].
Defined.

Lemma rvm_ranges_coalesced_witness : exists s1 u anns s2 t xs, rvm_begin_transaction (Some user) restore (small 3 []) = Ret ((RVM_SUCCESS, Some u), s1) /\ session u [] busy_actions s1 = Ret (anns, s2) /\
  tids s2 !! t_tid u = Some t /\ tree_ok (range_tree t) xs /\ ordered s2 xs.
Proof.
  destruct (rvm_ranges_coalesced (small 3 []) user busy_actions (small_idle 3) eq_refl eq_refl busy_actions_ok ltac:(vm_compute; discriminate)) as (s1 & u & anns & s2 & t & xs & E1 & E2 & E3 & E4 & E5 & _).
  exists s1, u, anns, s2, t, xs. split; [exact E1|]. split; [exact E2|]. split; [exact E3|]. split; [exact E4|exact E5].
Defined.

Lemma rvm_find_whole_range_witness : find_whole_range 1010 54 (small 0 []) = Ret (500, small 0 []) /\ in_region (small 0 []) 500 1010 54 /\ find_whole_range 1010 55 (small 0 []) = Ret (0, small 0 []).
Proof.
  destruct (rvm_find_whole_range (small 0 []) 1010 54 (l_mapped _ (d_lib _ (small_idle 0))) ltac:(lia) ltac:(lia) ltac:(lia)) as (g & E & H & _).
  assert (find_whole_range 1010 54 (small 0 []) = Ret (500, small 0 [])) as E' by (vm_compute; reflexivity). rewrite E in E'. injection E' as ->. split; [exact E|]. split; [apply H; lia|vm_compute; reflexivity].
Defined.

End RvmSpec.
