(* ===== verification/SftpMask.v ===== *)
(** * Bit masks of the file transfer side effect

    The masks of src/subprojects/rpc2/rpc2-src/sftp5.c and of sftp.h: MAXOPACKETS
    bits in words of 32, the leftmost bit is position 1.  Each operation is the loop
    or the macro of the code on the array of words, where an index outside of the
    array is undefined; each is then shown to be the operation on the set of positions
    that its comment promises. *)
From Stdlib Require Import ZArith Lia Bool.
From stdpp Require Import base list numbers.
From S2P Require Import Prelude.
Open Scope Z_scope.

Module SftpMask.

Definition MAXOPACKETS : Z := 64.
Definition BITMASKWIDTH : Z := MAXOPACKETS / 32.

Definition WORDOFFSET (pos : Z) : Z := Z.shiftr (pos - 1) 5.
Definition BITOFFSET (pos : Z) : Z := Z.land (pos - 1) 31 + 1.
Definition PM (pos : Z) : Z := Z.shiftl 1 (32 - BITOFFSET pos).
Definition PBUFF (x : Z) : Z := Z.land x (MAXOPACKETS - 1).

Definition TESTBIT (mask : list Z) (pos : Z) : res bool :=
  let* w := aget mask (WORDOFFSET pos) in Ret (negb (Z.land w (PM pos) =? 0)).
Definition SETBIT (mask : list Z) (pos : Z) : res (list Z) :=
  let* w := aget mask (WORDOFFSET pos) in aset mask (WORDOFFSET pos) (u32 (Z.lor w (PM pos))).

(** [memset(mask, 0, ...)]. *)
Definition B_Zero : list Z := repeat 0 (Z.to_nat BITMASKWIDTH).

(** The three loops of B_ShiftLeft; [current] and [first] are indices of words. *)
Definition B_ShiftLeft (bMask : list Z) (bShift : Z) : res (list Z) :=
  let shift := Z.land bShift 31 in
  let last := BITMASKWIDTH - 1 in
  let first0 := Z.shiftr bShift 5 in
  let* m := forZ first0 last (fun first m =>
    let current := first - first0 in
    let* f := aget m first in
    if shift =? 0 then aset m current f
    else let* g := aget m (first + 1) in
         aset m current (Z.lor (u32 (Z.shiftl f shift)) (Z.shiftr g (32 - shift)))) bMask in
  let current := Z.max 0 (last - first0) in
  let* (m, current) :=
    if first0 <=? last
    then let* f := aget m last in
         let* m := aset m current (u32 (Z.shiftl f shift)) in Ret (m, current + 1)
    else Ret (m, current) in
  forZ current (last + 1) (fun c m => aset m c 0) m.

(** ** Meaning *)
Definition mask_ok (m : list Z) : Prop := exists a b, m = [a; b] /\ 0 <= a < 2 ^ 32 /\ 0 <= b < 2 ^ 32.

(** Position [p] of the mask, false outside of it. *)
Definition mbit (m : list Z) (p : Z) : bool :=
  (1 <=? p) && (p <=? MAXOPACKETS) && Z.testbit (getb m (WORDOFFSET p)) (32 - BITOFFSET p).

Lemma wordoffset_lo p : 1 <= p <= 32 -> WORDOFFSET p = 0 /\ 32 - BITOFFSET p = 32 - p.
Proof.
  intros Hp. unfold WORDOFFSET, BITOFFSET. rewrite Z.shiftr_div_pow2 by lia. change 31 with (Z.ones 5).
  rewrite Z.land_ones by lia. change (2 ^ 5) with 32. rewrite Z.div_small, Z.mod_small by lia. lia.
Qed.

Lemma wordoffset_hi p : 33 <= p <= 64 -> WORDOFFSET p = 1 /\ 32 - BITOFFSET p = 64 - p.
Proof.
  intros Hp. unfold WORDOFFSET, BITOFFSET. rewrite Z.shiftr_div_pow2 by lia. change 31 with (Z.ones 5).
  rewrite Z.land_ones by lia. change (2 ^ 5) with 32.
  assert ((p - 1) / 32 = 1) as E by (symmetry; apply (Z.div_unique _ _ _ (p - 33)); lia).
  rewrite Z.mod_eq, E by lia. lia.
Qed.

(** The bit of a mask of two words, as a bit of one of them. *)
Lemma mbit_words a b p : 1 <= p <= 64 ->
  mbit [a; b] p = if p <=? 32 then Z.testbit a (32 - p) else Z.testbit b (64 - p).
Proof.
  intros Hp. unfold mbit, MAXOPACKETS.
  destruct (Z.leb_spec 1 p), (Z.leb_spec p 64); try lia. cbn [andb].
  destruct (Z.leb_spec p 32).
  - destruct (wordoffset_lo p) as [-> ->]; [lia|]. done.
  - destruct (wordoffset_hi p) as [-> ->]; [lia|]. done.
Qed.

Lemma mbit_out m p : ~ 1 <= p <= 64 -> mbit m p = false.
Proof. intros Hp. unfold mbit, MAXOPACKETS. destruct (Z.leb_spec 1 p), (Z.leb_spec p 64); done || lia. Qed.

Lemma mbit_range m p : mbit m p = true -> 1 <= p <= 64.
Proof. intros H. destruct (decide (1 <= p <= 64)) as [|N]; [done|]. now rewrite mbit_out in H. Qed.

Lemma B_Zero_ok : mask_ok B_Zero.
Proof. exists 0, 0. split; [reflexivity|lia]. Qed.

Lemma mbit_zero p : mbit B_Zero p = false.
Proof.
  destruct (decide (1 <= p <= 64)) as [H|N]; [|by apply mbit_out].
  change B_Zero with [0; 0]. rewrite mbit_words by done. destruct (p <=? 32); apply Z.testbit_0_l.
Qed.

Lemma land_pm w k : 0 <= k -> negb (Z.land w (Z.shiftl 1 k) =? 0) = Z.testbit w k.
Proof.
  intros Hk. rewrite Z.shiftl_1_l. destruct (Z.testbit w k) eqn:E.
  - apply negb_true_iff, Z.eqb_neq. intros H.
    assert (Z.testbit (Z.land w (2 ^ k)) k = true) as H' by (rewrite Z.land_spec, E, Z.pow2_bits_true by lia; done).
    rewrite H, Z.testbit_0_l in H'. done.
  - apply negb_false_iff, Z.eqb_eq, Z.bits_inj'. intros n Hn. rewrite Z.land_spec, Z.testbit_0_l.
    destruct (decide (n = k)) as [-> | N]; [now rewrite E|]. rewrite Z.pow2_bits_false by lia. apply andb_false_r.
Qed.

Lemma TESTBIT_ok m p : mask_ok m -> 1 <= p <= 64 -> TESTBIT m p = Ret (mbit m p).
Proof.
  intros (a & b & -> & Ha & Hb) Hp. unfold TESTBIT, PM. rewrite mbit_words by done.
  destruct (Z.leb_spec p 32).
  - destruct (wordoffset_lo p) as [-> ->]; [lia|]. change (aget [a; b] 0) with (Ret a). cbn [rbind].
    rewrite land_pm by lia. done.
  - destruct (wordoffset_hi p) as [-> ->]; [lia|]. change (aget [a; b] 1) with (Ret b). cbn [rbind].
    rewrite land_pm by lia. done.
Qed.

Lemma testbit_or_pm w k n : 0 <= k < 32 -> 0 <= n < 32 ->
  Z.testbit (u32 (Z.lor w (Z.shiftl 1 k))) n = (k =? n) || Z.testbit w n.
Proof.
  intros. rewrite testbit_uwrap, Z.lor_spec, Z.shiftl_1_l, Z.pow2_bits_eqb by lia. apply orb_comm.
Qed.

(** SETBIT adds a position, and changes no other. *)
Lemma SETBIT_ok m p : mask_ok m -> 1 <= p <= 64 ->
  exists m', SETBIT m p = Ret m' /\ mask_ok m' /\ forall q, mbit m' q = (p =? q) || mbit m q.
Proof.
  intros (a & b & -> & Ha & Hb) Hp. unfold SETBIT, PM. destruct (Z.leb_spec p 32).
  - destruct (wordoffset_lo p) as [-> ->]; [lia|]. change (aget [a; b] 0) with (Ret a). cbn [rbind].
    eexists. split; [reflexivity|]. split; [eexists _, b; split; [reflexivity|]; split; [apply uwrap_bound; lia|done]|].
    intros q. destruct (decide (1 <= q <= 64)) as [Hq|Hq].
    + change (<[Z.to_nat 0 := ?x]> [a; b]) with [x; b]. rewrite !mbit_words by done. destruct (Z.leb_spec q 32).
      * rewrite testbit_or_pm by lia. f_equal. apply eq_true_iff_eq. rewrite !Z.eqb_eq. lia.
      * destruct (Z.eqb_spec p q); [lia|done].
    + rewrite !mbit_out by done. destruct (Z.eqb_spec p q); [lia|done].
  - destruct (wordoffset_hi p) as [-> ->]; [lia|]. change (aget [a; b] 1) with (Ret b). cbn [rbind].
    eexists. split; [reflexivity|]. split; [eexists a, _; split; [reflexivity|]; split; [done|apply uwrap_bound; lia]|].
    intros q. destruct (decide (1 <= q <= 64)) as [Hq|Hq].
    + change (<[Z.to_nat 1 := ?x]> [a; b]) with [a; x]. rewrite !mbit_words by done. destruct (Z.leb_spec q 32).
      * destruct (Z.eqb_spec p q); [lia|done].
      * rewrite testbit_or_pm by lia. f_equal. apply eq_true_iff_eq. rewrite !Z.eqb_eq. lia.
    + rewrite !mbit_out by done. destruct (Z.eqb_spec p q); [lia|done].
Qed.

Lemma lor_word x y : 0 <= x < 2 ^ 32 -> 0 <= y < 2 ^ 32 -> 0 <= Z.lor x y < 2 ^ 32.
Proof.
  intros Hx Hy. assert (Z.lor x y = u32 (Z.lor x y)) as ->; [|apply uwrap_bound; lia].
  apply Z.bits_inj'. intros n Hn. destruct (decide (n < 32)); [by rewrite testbit_uwrap by lia|].
  rewrite testbit_uwrap_high, Z.lor_spec by lia. rewrite <- (uwrap_small 32 x), <- (uwrap_small 32 y) by done.
  now rewrite !testbit_uwrap_high by lia.
Qed.

Lemma forZ_one {St} lo (body : Z -> St -> res St) s : forZ lo (lo + 1) body s = body lo s.
Proof.
  unfold forZ, for_range. replace (lo + 1 - lo) with 1 by lia. change (Z.to_nat 1) with 1%nat. cbn [loop].
  destruct (body lo s); cbn; reflexivity.
Qed.

(** What the loops of B_ShiftLeft leave in the two words. *)
Definition shifted (a b s : Z) : list Z :=
  if s <? 32 then [Z.lor (u32 (Z.shiftl a s)) (Z.shiftr b (32 - s)); u32 (Z.shiftl b s)]
  else if s <? 64 then [u32 (Z.shiftl b (s - 32)); 0] else [0; 0].

Lemma B_ShiftLeft_words a b s : 0 <= a < 2 ^ 32 -> 0 <= b < 2 ^ 32 -> 0 <= s <= 64 ->
  B_ShiftLeft [a; b] s = Ret (shifted a b s).
Proof.
  intros Ha Hb Hs. unfold B_ShiftLeft, shifted. change (BITMASKWIDTH - 1) with 1.
  change 31 with (Z.ones 5). rewrite Z.land_ones, Z.shiftr_div_pow2 by lia. change (2 ^ 5) with 32.
  destruct (Z.ltb_spec s 32); [|destruct (Z.ltb_spec s 64)].
  - rewrite Z.div_small, Z.mod_small by lia. rewrite (forZ_one 0).
    cbv zeta beta. change (aget [a; b] 0) with (Ret a). change (aget [a; b] (0 + 1)) with (Ret b).
    cbn [rbind]. change (0 <=? 1) with true. destruct (Z.eqb_spec s 0) as [-> | N]; cbn [rbind].
    + change (Z.shiftl a 0) with a. change (Z.shiftl b 0) with b. rewrite !uwrap_small by done.
      replace (Z.shiftr b (32 - 0)) with 0; [rewrite Z.lor_0_r; transitivity (Ret [a; u32 b]); [reflexivity|now rewrite uwrap_small]|].
      symmetry. apply Z.shiftr_eq_0_iff. destruct (decide (b = 0)) as [-> |]; [left; done|].
      right. split; [lia|]. apply Z.log2_lt_pow2; lia.
    + reflexivity.
  - assert (s / 32 = 1) as E1 by (symmetry; apply (Z.div_unique _ _ _ (s - 32)); lia).
    assert (s mod 32 = s - 32) as E2 by (rewrite Z.mod_eq, E1; lia). rewrite E1, E2. reflexivity.
  - assert (s = 64) as -> by lia. reflexivity.
Qed.

(** B_ShiftLeft moves every position down and fills with zeros. *)
Lemma B_ShiftLeft_ok m s : mask_ok m -> 0 <= s <= 64 ->
  exists m', B_ShiftLeft m s = Ret m' /\ mask_ok m' /\ forall q, 1 <= q -> mbit m' q = mbit m (q + s).
Proof.
  intros (a & b & -> & Ha & Hb) Hs. rewrite B_ShiftLeft_words by done. eexists. split; [reflexivity|].
  assert (forall x k, 0 <= x < 2 ^ 32 -> 0 <= k -> 32 <= k -> Z.testbit x k = false) as Hhi.
  { intros x k Hx H0 H32. rewrite <- (uwrap_small 32 x) by done. apply testbit_uwrap_high. lia. }
  split.
  - unfold shifted. destruct (s <? 32) eqn:E1; [|destruct (s <? 64)]; eexists _, _; (split; [reflexivity|]); split;
      try (apply uwrap_bound; lia); try lia.
    apply Z.ltb_lt in E1. apply lor_word; [apply uwrap_bound; lia|]. split; [apply Z.shiftr_nonneg; lia|].
    rewrite Z.shiftr_div_pow2 by lia. apply Z.div_lt_upper_bound; [lia|].
    assert (1 <= 2 ^ (32 - s)) by (apply (Z.pow_le_mono_r 2 0); lia). nia.
  - intros q Hq. destruct (decide (q <= 64)) as [Hq64|]; [|rewrite !mbit_out by lia; done].
    unfold shifted. destruct (Z.ltb_spec s 32); [|destruct (Z.ltb_spec s 64)].
    + rewrite mbit_words by lia. destruct (decide (q + s <= 64)) as [|].
      * rewrite mbit_words by lia. destruct (Z.leb_spec q 32), (Z.leb_spec (q + s) 32); try lia.
        -- rewrite Z.lor_spec, testbit_uwrap, Z.shiftl_spec, Z.shiftr_spec by lia.
           rewrite (Hhi b) by lia. rewrite orb_false_r. f_equal. lia.
        -- rewrite Z.lor_spec, testbit_uwrap, Z.shiftl_spec, Z.shiftr_spec by lia.
           rewrite (Z.testbit_neg_r a) by lia. cbn. f_equal. lia.
        -- rewrite testbit_uwrap, Z.shiftl_spec by lia. f_equal. lia.
      * rewrite (mbit_out _ (q + s)) by lia. destruct (Z.leb_spec q 32); [lia|].
        rewrite testbit_uwrap, Z.shiftl_spec by lia. apply Z.testbit_neg_r. lia.
    + rewrite mbit_words by lia. destruct (decide (q + s <= 64)) as [|].
      * rewrite mbit_words by lia. destruct (Z.leb_spec q 32), (Z.leb_spec (q + s) 32); try lia.
        rewrite testbit_uwrap, Z.shiftl_spec by lia. f_equal. lia.
      * rewrite (mbit_out _ (q + s)) by lia. destruct (Z.leb_spec q 32); [|apply Z.testbit_0_l].
        rewrite testbit_uwrap, Z.shiftl_spec by lia. apply Z.testbit_neg_r. lia.
    + rewrite mbit_words, (mbit_out _ (q + s)) by lia. destruct (q <=? 32); apply Z.testbit_0_l.
Qed.

(** ** Buffer slots *)
Lemma PBUFF_mod x : PBUFF x = x mod 64.
Proof. unfold PBUFF, MAXOPACKETS. change (64 - 1) with (Z.ones 6). now rewrite Z.land_ones by lia. Qed.

(** Two packets less than MAXOPACKETS apart have different slots. *)
Lemma PBUFF_inj x y : PBUFF x = PBUFF y -> - 64 < x - y < 64 -> x = y.
Proof. rewrite !PBUFF_mod. intros E H. pose proof (Z.div_mod x 64). pose proof (Z.div_mod y 64). nia. Qed.

End SftpMask.
