(* ===== verification/SftpEntry.v ===== *)
(** * State of a file transfer

    The data of the SFTP side effect of RPC2: packets, the connection entry
    (struct SFTP_Entry of src/subprojects/rpc2/include/rpc2/sftp.h), the file at this
    end and the surroundings.  A packet is kept in host order (the code converts the
    packets it keeps on the sending side back and forth); its handles and its security
    association are left out, except for the call number.  What the code asks of the
    clock, of the retry timer, of the socket and of malloc comes from [SftpEnv]: a
    counter in the entry numbers the questions, so that each gets its own answer. *)
From Stdlib Require Import ZArith Lia Bool.
From stdpp Require Import base list numbers gmap.
From S2P Require Import Prelude.
From S2P Require Import SftpMask.
Import SftpMask.
Open Scope Z_scope.

Module SftpEntry.

(** ** Constants of sftp.h and rpc2.h *)
Definition SFTP_ACKME : Z := 0x80000000.
Definition RPC2_RETRY : Z := 1.
Definition SFTP_MOREDATA : Z := 1.
Definition SFTP_TRIGGER : Z := 8.
Definition SFTP_FIRST : Z := 0x10.
Definition SFTP_COUNTED : Z := 0x20.
Definition SFTP_ACK : Z := 2.
Definition SFTP_DATA : Z := 3.
Definition RPC2_MAXPACKETSIZE : Z := 4500.
(** [sizeof(struct RPC2_PacketHeader)]. *)
Definition HDR : Z := 60.

Inductive SFState := SFSERVER | SFCLIENT | ERROR | DISKERROR.
Inductive xfer_state := XferNotStarted | XferInProgress | XferCompleted.
Inductive direction := CLIENTTOSERVER | SERVERTOCLIENT.

#[global] Instance SFState_eq_dec : EqDecision SFState.
Proof. solve_decision. Defined.
#[global] Instance xfer_state_eq_dec : EqDecision xfer_state.
Proof. solve_decision. Defined.

(** ** Packets *)
Record packet := Packet {
  Opcode : Z;
  SeqNumber : Z;
  Flags : Z;
  SEFlags : Z;
  BodyLength : Z;
  GotEmAll : Z;
  BitMask : list Z;
  TimeStamp : Z;
  PTimeEcho : Z;
  ThisRPCCall : Z;
  LengthOfPacket : Z;
  Body : list Z
}.

Definition set_Flags (v : Z) (p : packet) : packet :=
  Packet (Opcode p) (SeqNumber p) v (SEFlags p) (BodyLength p) (GotEmAll p) (BitMask p) (TimeStamp p) (PTimeEcho p) (ThisRPCCall p) (LengthOfPacket p) (Body p).
Definition set_SEFlags (v : Z) (p : packet) : packet :=
  Packet (Opcode p) (SeqNumber p) (Flags p) v (BodyLength p) (GotEmAll p) (BitMask p) (TimeStamp p) (PTimeEcho p) (ThisRPCCall p) (LengthOfPacket p) (Body p).
Definition set_times (t echo : Z) (p : packet) : packet :=
  Packet (Opcode p) (SeqNumber p) (Flags p) (SEFlags p) (BodyLength p) (GotEmAll p) (BitMask p) t echo (ThisRPCCall p) (LengthOfPacket p) (Body p).
Definition set_Body (v : list Z) (p : packet) : packet :=
  Packet (Opcode p) (SeqNumber p) (Flags p) (SEFlags p) (BodyLength p) (GotEmAll p) (BitMask p) (TimeStamp p) (PTimeEcho p) (ThisRPCCall p) (LengthOfPacket p) v.
Definition set_BodyLength (v : Z) (p : packet) : packet :=
  Packet (Opcode p) (SeqNumber p) (Flags p) (SEFlags p) v (GotEmAll p) (BitMask p) (TimeStamp p) (PTimeEcho p) (ThisRPCCall p) (HDR + v) (Body p).
Definition set_ack (got : Z) (mask : list Z) (p : packet) : packet :=
  Packet (Opcode p) (SeqNumber p) (Flags p) (SEFlags p) (BodyLength p) got mask (TimeStamp p) (PTimeEcho p) (ThisRPCCall p) (LengthOfPacket p) (Body p).
Definition set_op (op seq : Z) (p : packet) : packet :=
  Packet op seq (Flags p) (SEFlags p) (BodyLength p) (GotEmAll p) (BitMask p) (TimeStamp p) (PTimeEcho p) (ThisRPCCall p) (LengthOfPacket p) (Body p).
Definition set_GotEmAll (v : Z) (p : packet) : packet :=
  Packet (Opcode p) (SeqNumber p) (Flags p) (SEFlags p) (BodyLength p) v (BitMask p) (TimeStamp p) (PTimeEcho p) (ThisRPCCall p) (LengthOfPacket p) (Body p).

(** ** The entry *)
Record parms := Parms { WindowSize : Z; SendAhead : Z; AckPoint : Z; PacketSize : Z; DupThreshold : Z }.

Record status := Status {
  WhoAmI : SFState;
  XferState : xfer_state;
  HitEOF : bool;
  Retransmitting : bool;
  TimeEcho : Z;
  CtrlSeqNumber : Z;
  SentParms : bool;
  GotParms : bool;
  LastSS : Z;
  CallNumber : Z;
  Direction : direction
}.

Record source := Source {
  SendLastContig : Z;
  SendMostRecent : Z;
  SendTheseBits : list Z;
  SendAckLimit : Z;
  SendWorriedLimit : Z;
  ReadAheadCount : Z
}.

Record sink := Sink {
  RecvLastContig : Z;
  RecvMostRecent : Z;
  RecvTheseBits : list Z;
  DupsSinceAck : Z;
  RecvSinceAck : Z
}.

(** The file: in memory, or behind a descriptor that may be closed or broken for
    reading.  [vf_pos] is vmfilep or the file offset; [vf_max] is MaxSeqLen, or the
    length at which the device is full.  The last three are the fields of the
    descriptor that the transfer keeps. *)
Record vfile := VFile {
  vf_mem : bool;
  vf_open : bool;
  vf_rderr : bool;
  vf_data : list Z;
  vf_pos : Z;
  vf_max : Z;
  BytesTransferred : Z;
  ByteQuota : Z;
  QuotaExceeded : bool
}.

(** What was sent, the questions asked so far, sftp_PacketsInUse and the bandwidth
    observations (bytes in, bytes out) handed to sftp_UpdateBW. *)
Record world := World { outs : list packet; tick : nat; PacketsInUse : Z; observed : list (Z * Z) }.

Record entry := Entry {
  e_parms :> parms;
  e_status :> status;
  e_source :> source;
  e_sink :> sink;
  e_file :> vfile;
  e_world :> world;
  RecvQueue : list packet;
  ThesePackets : gmap Z packet
}.

Definition upd_parms (f : parms -> parms) (e : entry) : entry :=
  Entry (f e) e e e e e (RecvQueue e) (ThesePackets e).
Definition upd_status (f : status -> status) (e : entry) : entry :=
  Entry e (f e) e e e e (RecvQueue e) (ThesePackets e).
Definition upd_source (f : source -> source) (e : entry) : entry :=
  Entry e e (f e) e e e (RecvQueue e) (ThesePackets e).
Definition upd_sink (f : sink -> sink) (e : entry) : entry :=
  Entry e e e (f e) e e (RecvQueue e) (ThesePackets e).
Definition upd_file (f : vfile -> vfile) (e : entry) : entry :=
  Entry e e e e (f e) e (RecvQueue e) (ThesePackets e).
Definition upd_world (f : world -> world) (e : entry) : entry :=
  Entry e e e e e (f e) (RecvQueue e) (ThesePackets e).
Definition set_RecvQueue (q : list packet) (e : entry) : entry :=
  Entry e e e e e e q (ThesePackets e).
Definition set_ThesePackets (m : gmap Z packet) (e : entry) : entry :=
  Entry e e e e e e (RecvQueue e) m.

Definition set_WhoAmI v := upd_status (fun s => Status v (XferState s) (HitEOF s) (Retransmitting s) (TimeEcho s) (CtrlSeqNumber s) (SentParms s) (GotParms s) (LastSS s) (CallNumber s) (Direction s)).
Definition set_XferState v := upd_status (fun s => Status (WhoAmI s) v (HitEOF s) (Retransmitting s) (TimeEcho s) (CtrlSeqNumber s) (SentParms s) (GotParms s) (LastSS s) (CallNumber s) (Direction s)).
Definition set_HitEOF v := upd_status (fun s => Status (WhoAmI s) (XferState s) v (Retransmitting s) (TimeEcho s) (CtrlSeqNumber s) (SentParms s) (GotParms s) (LastSS s) (CallNumber s) (Direction s)).
Definition set_Retransmitting v := upd_status (fun s => Status (WhoAmI s) (XferState s) (HitEOF s) v (TimeEcho s) (CtrlSeqNumber s) (SentParms s) (GotParms s) (LastSS s) (CallNumber s) (Direction s)).
Definition set_TimeEcho v := upd_status (fun s => Status (WhoAmI s) (XferState s) (HitEOF s) (Retransmitting s) v (CtrlSeqNumber s) (SentParms s) (GotParms s) (LastSS s) (CallNumber s) (Direction s)).
Definition set_CtrlSeqNumber v := upd_status (fun s => Status (WhoAmI s) (XferState s) (HitEOF s) (Retransmitting s) (TimeEcho s) v (SentParms s) (GotParms s) (LastSS s) (CallNumber s) (Direction s)).
Definition set_SentParms v := upd_status (fun s => Status (WhoAmI s) (XferState s) (HitEOF s) (Retransmitting s) (TimeEcho s) (CtrlSeqNumber s) v (GotParms s) (LastSS s) (CallNumber s) (Direction s)).
Definition set_GotParms v := upd_status (fun s => Status (WhoAmI s) (XferState s) (HitEOF s) (Retransmitting s) (TimeEcho s) (CtrlSeqNumber s) (SentParms s) v (LastSS s) (CallNumber s) (Direction s)).
Definition set_LastSS v := upd_status (fun s => Status (WhoAmI s) (XferState s) (HitEOF s) (Retransmitting s) (TimeEcho s) (CtrlSeqNumber s) (SentParms s) (GotParms s) v (CallNumber s) (Direction s)).

Definition set_SendLastContig v := upd_source (fun s => Source v (SendMostRecent s) (SendTheseBits s) (SendAckLimit s) (SendWorriedLimit s) (ReadAheadCount s)).
Definition set_SendMostRecent v := upd_source (fun s => Source (SendLastContig s) v (SendTheseBits s) (SendAckLimit s) (SendWorriedLimit s) (ReadAheadCount s)).
Definition set_SendTheseBits v := upd_source (fun s => Source (SendLastContig s) (SendMostRecent s) v (SendAckLimit s) (SendWorriedLimit s) (ReadAheadCount s)).
Definition set_SendAckLimit v := upd_source (fun s => Source (SendLastContig s) (SendMostRecent s) (SendTheseBits s) v (SendWorriedLimit s) (ReadAheadCount s)).
Definition set_SendWorriedLimit v := upd_source (fun s => Source (SendLastContig s) (SendMostRecent s) (SendTheseBits s) (SendAckLimit s) v (ReadAheadCount s)).
Definition set_ReadAheadCount v := upd_source (fun s => Source (SendLastContig s) (SendMostRecent s) (SendTheseBits s) (SendAckLimit s) (SendWorriedLimit s) v).

Definition set_RecvLastContig v := upd_sink (fun s => Sink v (RecvMostRecent s) (RecvTheseBits s) (DupsSinceAck s) (RecvSinceAck s)).
Definition set_RecvMostRecent v := upd_sink (fun s => Sink (RecvLastContig s) v (RecvTheseBits s) (DupsSinceAck s) (RecvSinceAck s)).
Definition set_RecvTheseBits v := upd_sink (fun s => Sink (RecvLastContig s) (RecvMostRecent s) v (DupsSinceAck s) (RecvSinceAck s)).
Definition set_DupsSinceAck v := upd_sink (fun s => Sink (RecvLastContig s) (RecvMostRecent s) (RecvTheseBits s) v (RecvSinceAck s)).
Definition set_RecvSinceAck v := upd_sink (fun s => Sink (RecvLastContig s) (RecvMostRecent s) (RecvTheseBits s) (DupsSinceAck s) v).

Definition set_contents (d : list Z) (pos : Z) (f : vfile) : vfile :=
  VFile (vf_mem f) (vf_open f) (vf_rderr f) d pos (vf_max f) (BytesTransferred f) (ByteQuota f) (QuotaExceeded f).
Definition set_BytesTransferred (v : Z) (f : vfile) : vfile :=
  VFile (vf_mem f) (vf_open f) (vf_rderr f) (vf_data f) (vf_pos f) (vf_max f) v (ByteQuota f) (QuotaExceeded f).
Definition set_QuotaExceeded (v : bool) (f : vfile) : vfile :=
  VFile (vf_mem f) (vf_open f) (vf_rderr f) (vf_data f) (vf_pos f) (vf_max f) (BytesTransferred f) (ByteQuota f) v.

Definition emit (p : packet) := upd_world (fun w => World (outs w ++ [p]) (tick w) (PacketsInUse w) (observed w)).
Definition ticked := upd_world (fun w => World (outs w) (S (tick w)) (PacketsInUse w) (observed w)).
Definition add_in_use (n : Z) := upd_world (fun w => World (outs w) (tick w) (PacketsInUse w + n) (observed w)).
Definition sftp_UpdateBW (inbytes outbytes : Z) := upd_world (fun w => World (outs w) (tick w) (PacketsInUse w) (observed w ++ [(inbytes, outbytes)])).

(** ** The surroundings

    [clock n] is the time in microseconds at question [n]; [RetryInterval n queued] the
    timeout that rpc2_RetryInterval computes; [MorePackets n] what rpc2_MorePackets
    returns, -1 when no packet waits on a socket; [GetConn] whether rpc2_GetConn finds
    the connection. *)
Class SftpEnv := {
  clock : nat -> Z;
  RetryInterval : nat -> Z -> Z;
  MorePackets : nat -> Z;
  GetConn : bool;
  SFTP_MaxPackets : Z;
  SFTP_EnforceQuota : bool
}.

(** ** The file *)

(** [d[pos .. pos+n-1]]. *)
Definition bytes_at (d : list Z) (pos n : Z) : list Z := take (Z.to_nat n) (drop (Z.to_nat pos) d).

(** sftp_vfreadv: the bytes put into each buffer of the array, and their number.  readv
    on a regular file does the same. *)
Fixpoint readv (d : list Z) (pos : Z) (lens : list Z) : Z * list (list Z) :=
  match lens with
  | [] => (0, [])
  | n :: ls =>
      let bytesleft := zlen d - pos in
      if bytesleft <? n then (bytesleft, [bytes_at d pos bytesleft])
      else let '(rc, cs) := readv d (pos + n) ls in (n + rc, bytes_at d pos n :: cs)
  end.

Definition sftp_vfreadv (f : vfile) (lens : list Z) : vfile * Z * list (list Z) :=
  if negb (vf_mem f) && (vf_rderr f || negb (vf_open f)) then (f, -1, [])
  else let '(rc, cs) := readv (vf_data f) (vf_pos f) lens in
       (set_contents (vf_data f) (vf_pos f + rc) f, rc, cs).

(** One transfer to the device, or one memcpy into the user's buffer, after which SeqLen
    is where the copy ended. *)
Definition put_bytes (bs : list Z) (f : vfile) : vfile :=
  set_contents (putbs (vf_data f) (vf_pos f) bs) (vf_pos f + zlen bs) f.

Definition mem_put (bs : list Z) (f : vfile) : vfile :=
  let pos := vf_pos f + zlen bs in set_contents (take (Z.to_nat pos) (putbs (vf_data f) (vf_pos f) bs)) pos f.

Fixpoint mem_writev (f : vfile) (iovs : list (list Z)) : vfile * Z :=
  match iovs with
  | [] => (f, 0)
  | v :: r =>
      if zlen v >? vf_max f - vf_pos f then (f, -1)
      else let '(f', rc) := mem_writev (mem_put v f) r in (f', if rc <? 0 then rc else zlen v + rc)
  end.

(** writev: a full device takes what fits, and none of it is an error. *)
Definition disk_writev (f : vfile) (iovs : list (list Z)) : vfile * Z :=
  let bs := concat iovs in
  let n := Z.min (zlen bs) (vf_max f - vf_pos f) in
  if negb (vf_open f) || ((0 <? zlen bs) && (n <=? 0)) then (f, -1)
  else (put_bytes (take (Z.to_nat n) bs) f, Z.max 0 n).

(** The loop of sftp_vfwritev, 16 buffers at a time; [fuel] bounds its rounds. *)
Fixpoint vfwritev_loop (fuel : nat) (f : vfile) (iovs : list (list Z)) (result : Z) : vfile * Z :=
  match fuel, iovs with
  | _, [] | O, _ => (f, result)
  | S fuel, _ =>
      let now := take 16 iovs in
      let '(f, rc) := if vf_mem f then mem_writev f now else disk_writev f now in
      if rc <? 0 then (f, rc) else vfwritev_loop fuel f (drop 16 iovs) (result + rc)
  end.

Definition sftp_vfwritev (f : vfile) (iovs : list (list Z)) : vfile * Z := vfwritev_loop (length iovs) f iovs 0.

Definition sftp_vfclose (e : entry) : entry :=
  upd_file (fun f => if vf_mem f || negb (vf_open f) then f
    else VFile (vf_mem f) false (vf_rderr f) (vf_data f) 0 (vf_max f) (BytesTransferred f) (ByteQuota f) (QuotaExceeded f)) e.

Definition sftp_Progress (v : Z) : entry -> entry := upd_file (set_BytesTransferred v).

(** ** Packet buffers *)
Definition SFTP_FreeBuffer (e : entry) : entry := add_in_use (-1) e.
Definition SFTP_AllocBuffer (e : entry) : entry := add_in_use 1 e.

(** [sEntry->ThesePackets[PBUFF(i)]], dereferenced. *)
Definition getp (e : entry) (i : Z) : res packet :=
  match ThesePackets e !! PBUFF i with Some p => Ret p | None => Stop CUndef end.
Definition putp (i : Z) (p : packet) (e : entry) : entry := set_ThesePackets (<[PBUFF i := p]> (ThesePackets e)) e.
Definition drop_packet (i : Z) (e : entry) : entry :=
  SFTP_FreeBuffer (set_ThesePackets (delete (PBUFF i) (ThesePackets e)) e).

Definition sftp_InitPacket (e : entry) (bodylen : Z) : packet :=
  Packet 0 0 0 0 bodylen 0 B_Zero 0 0 (CallNumber e) (HDR + bodylen) [].

Definition VALID_TIMEECHO (e : entry) : bool := negb (Retransmitting e) && negb (TimeEcho e =? 0).

(** [(int)a - (int)b]. *)
Definition TSDELTA (a b : Z) : Z := s32 (s32 a - s32 b).

(** Reduces a field of an updated entry or packet. *)
Ltac esimpl := cbn [e_parms e_status e_source e_sink e_file e_world RecvQueue ThesePackets
  WindowSize SendAhead AckPoint PacketSize DupThreshold
  WhoAmI XferState HitEOF Retransmitting TimeEcho CtrlSeqNumber SentParms GotParms LastSS CallNumber Direction
  SendLastContig SendMostRecent SendTheseBits SendAckLimit SendWorriedLimit ReadAheadCount
  RecvLastContig RecvMostRecent RecvTheseBits DupsSinceAck RecvSinceAck
  vf_mem vf_open vf_rderr vf_data vf_pos vf_max BytesTransferred ByteQuota QuotaExceeded
  outs tick PacketsInUse observed
  Opcode SeqNumber Flags SEFlags BodyLength GotEmAll BitMask TimeStamp PTimeEcho ThisRPCCall LengthOfPacket Body
  upd_parms upd_status upd_source upd_sink upd_file upd_world set_RecvQueue set_ThesePackets
  set_WhoAmI set_XferState set_HitEOF set_Retransmitting set_TimeEcho set_CtrlSeqNumber set_SentParms set_GotParms set_LastSS
  set_SendLastContig set_SendMostRecent set_SendTheseBits set_SendAckLimit set_SendWorriedLimit set_ReadAheadCount
  set_RecvLastContig set_RecvMostRecent set_RecvTheseBits set_DupsSinceAck set_RecvSinceAck
  set_contents set_BytesTransferred set_QuotaExceeded emit ticked add_in_use sftp_UpdateBW
  set_Flags set_SEFlags set_times set_Body set_BodyLength set_ack set_op set_GotEmAll
  SFTP_FreeBuffer SFTP_AllocBuffer putp drop_packet sftp_Progress sftp_InitPacket
  rbind fst snd andb orb negb] in *.

End SftpEntry.
