(* ===== verification/SftpCode.v ===== *)
(** * The windowed transfer: code

    Model of src/subprojects/rpc2/rpc2-src/sftp3.c, the strategy routines of the source
    and of the sink, without the exchange of parameters at the start.  A routine takes the
    entry and returns it with the routine's return code; a NULL slot that is
    dereferenced, an index outside of a mask or of the array of buffers and a failed
    assert stop it.  Statistics counters, round trip estimates and the debugging output
    are left out, as is the encryption of packets one by one that connections without a
    security association use (the branches of sftp_ReadStrategy under [!sa->encrypt]). *)
From Stdlib Require Import ZArith Lia Bool.
From stdpp Require Import base list numbers gmap.
From S2P Require Import Prelude.
From S2P Require Import Text.
From S2P Require Import SftpMask.
From S2P Require Import SftpEntry.
Import SftpMask SftpEntry.
Open Scope Z_scope.

Module SftpCode.
Section Code.
Context {env : SftpEnv}.

(** The time stamp and the echo that every packet gets before it is sent. *)
Definition stamped (e : entry) (pb : packet) : entry * packet :=
  (ticked e, set_times (u32 (clock (tick e))) (if VALID_TIMEECHO e then TimeEcho e else 0) pb).

Definition htonl (v : Z) : Z := u32 (bswap32 v).

Definition has (flags bit : Z) : bool := negb (Z.land flags bit =? 0).

(** ** The sink *)

(** One round of sftp_WriteStrategy's loop: the buffers so far, their bytes, the file. *)
Definition collect (e : entry) (i : Z) (st : list (list Z) * Z * vfile) :
    res ((list (list Z) * Z * vfile) + (list (list Z) * Z * vfile)) :=
  let '(iovs, bytesnow, f) := st in
  let* b := TESTBIT (RecvTheseBits e) i in
  if negb b then Ret (inr st)
  else
    let* pb := getp e (RecvLastContig e + i) in
    let x := BytesTransferred f + bytesnow in
    let over := SFTP_EnforceQuota && (0 <? ByteQuota f) && (x + BodyLength pb >? ByteQuota f) in
    let f := if over then set_QuotaExceeded true f else f in
    let len := if over then ByteQuota f - x else BodyLength pb in
    if (0 <=? len) && (len <=? zlen (Body pb))
    then Ret (inl (iovs ++ [take (Z.to_nat len) (Body pb)], bytesnow + len, f))
    else Stop CUndef.

Definition sftp_WriteStrategy (e : entry) : res (entry * Z) :=
  let* r := for_range 1 (MAXOPACKETS + 1) (collect e) ([], 0, e_file e) in
  let '(iovs, bytesnow, f) := match r with inl s | inr s => s end in
  let e := upd_file (fun _ => f) e in
  let iovlen := zlen iovs in
  if iovlen =? 0 then Ret (e, 0)
  else
    let '(f, rc) := sftp_vfwritev f iovs in
    let e := upd_file (fun _ => f) e in
    if negb (bytesnow =? rc) then Ret (set_WhoAmI DISKERROR e, -1)
    else
      let* e := forZ (RecvLastContig e + 1) (RecvLastContig e + iovlen + 1) (fun i e => Ret (drop_packet i e)) e in
      let e := set_RecvLastContig (u32 (RecvLastContig e + iovlen)) e in
      let* m := B_ShiftLeft (RecvTheseBits e) iovlen in
      let e := set_RecvTheseBits m e in
      Ret (sftp_Progress (BytesTransferred f + bytesnow) e, 0).

(** The leading run of ones of the mask, within the window. *)
Definition leading (m : list Z) (w : Z) : res Z :=
  let* r := for_range 1 (w + 1) (fun i n =>
    let* b := TESTBIT m i in if b then Ret (inl (n + 1)) else Ret (inr n)) 0 in
  Ret (match r with inl n | inr n => n end).

Definition sftp_SendAck (e : entry) : res entry :=
  let pb := sftp_InitPacket e 0 in
  let e := set_CtrlSeqNumber (u32 (CtrlSeqNumber e + 1)) e in
  let pb := set_op SFTP_ACK (CtrlSeqNumber e) pb in
  let (e, pb) := stamped e pb in
  let e := if Retransmitting e then set_Retransmitting false e else e in
  let* shiftlen := leading (RecvTheseBits e) (WindowSize e) in
  let* btemp := if 0 <? shiftlen then B_ShiftLeft (RecvTheseBits e) shiftlen else Ret (RecvTheseBits e) in
  let pb := set_ack (u32 (RecvLastContig e + shiftlen)) btemp pb in
  Ret (set_RecvSinceAck 0 (emit pb e)).

(** The bandwidth observation of sftp_DataArrived: the bytes of the packets seen since
    the echoed ack that were not counted before. *)
Definition count_round (pBuff : packet) (e : entry) : res (entry * Z) :=
  forZ 1 (RecvMostRecent e - RecvLastContig e + 1) (fun i (st : entry * Z) =>
    let (e, n) := st in
    let* b := TESTBIT (RecvTheseBits e) i in
    if negb b then Ret (e, n)
    else
      let* pb := getp e (RecvLastContig e + i) in
      if (PTimeEcho pBuff <=? PTimeEcho pb) && negb (has (SEFlags pb) SFTP_COUNTED)
      then Ret (putp (RecvLastContig e + i) (set_SEFlags (Z.lor (SEFlags pb) SFTP_COUNTED) pb) e, n + LengthOfPacket pb)
      else Ret (e, n)) (e, 0).

(** Are all packets up to RecvMostRecent in? *)
Definition all_in (e : entry) : res bool :=
  let* r := for_range 1 (RecvMostRecent e - RecvLastContig e + 1) (fun i (_ : unit) =>
    let* b := TESTBIT (RecvTheseBits e) i in if b then Ret (inl tt) else Ret (inr tt)) tt in
  Ret (match r with inl _ => true | inr _ => false end).

(** The part of sftp_DataArrived that stores a packet. *)
Definition store_packet (p : packet) (e : entry) : res entry :=
  let e := set_RecvSinceAck (u32 (RecvSinceAck e + 1)) e in
  let e := if TimeEcho e <? TimeStamp p then set_TimeEcho (TimeStamp p) e else e in
  let e := set_XferState XferInProgress e in
  let* m := SETBIT (RecvTheseBits e) (SeqNumber p - RecvLastContig e) in
  let e := set_RecvTheseBits m e in
  let p := set_SEFlags (Z.ldiff (SEFlags p) SFTP_COUNTED) p in
  let e := if SeqNumber p >? RecvMostRecent e then set_RecvMostRecent (SeqNumber p) e else e in
  let e := putp (SeqNumber p) p e in
  if has (Flags p) SFTP_ACKME && negb (PTimeEcho p =? 0)
  then let* (e, n) := count_round p e in Ret (if n =? 0 then e else sftp_UpdateBW n HDR e)
  else Ret e.

(** The end of sftp_DataArrived.  It reads the flags of the packet again, which a write
    may have put back on a list of free buffers: the header is still there. *)
Definition finish_arrival (p : packet) (e : entry) : res (entry * Z) :=
  if has (SEFlags p) SFTP_MOREDATA && negb (HitEOF e) then Ret (e, 0) else
  let e := if has (SEFlags p) SFTP_MOREDATA then e else set_HitEOF true e in
  let* all := all_in e in
  if negb all then Ret (e, 0) else
  let* (e, rc) := sftp_WriteStrategy e in
  if rc <? 0 then Ret (e, -1) else
  Ret (sftp_vfclose (set_XferState XferCompleted e), 0).

Definition sftp_DataArrived (pBuff : packet) (e : entry) : res (entry * Z) :=
  let e := if decide (WhoAmI e = SFSERVER) then set_SentParms true e else e in
  if (0 <? SFTP_MaxPackets) && (PacketsInUse e >? SFTP_MaxPackets) then Ret (SFTP_FreeBuffer e, 0) else
  let moffset := SeqNumber pBuff - RecvLastContig e in
  if moffset >? WindowSize e then Ret (e, -1) else
  let* seen := if moffset <=? 0 then Ret true else TESTBIT (RecvTheseBits e) moffset in
  if (seen : bool) then
    let e := set_DupsSinceAck (u32 (DupsSinceAck e + 1)) e in
    if bool_decide (WhoAmI e = SFSERVER) && (has (Flags pBuff) SFTP_ACKME || (DupsSinceAck e >? DupThreshold e))
    then
      let* e := sftp_SendAck e in
      let* (e, rc) := sftp_WriteStrategy e in
      if rc <? 0 then Ret (e, -1) else Ret (SFTP_FreeBuffer (set_DupsSinceAck 0 e), 0)
    else Ret (SFTP_FreeBuffer e, 0)
  else
  let* e := store_packet pBuff e in
  let* (e, rc) :=
    if has (Flags pBuff) SFTP_ACKME || (bool_decide (WhoAmI e = SFSERVER) && (WindowSize e <=? RecvSinceAck e))
    then let* e := sftp_SendAck e in sftp_WriteStrategy e
    else Ret (e, 0) in
  if rc <? 0 then Ret (e, -1) else finish_arrival pBuff e.

Definition sftp_SendTrigger (e : entry) : res (entry * Z) :=
  let* e := sftp_SendAck e in
  let* (e, rc) := sftp_WriteStrategy e in
  if rc <? 0 then Ret (e, -1) else Ret (e, 0).

(** ** The source *)
Definition WinIsOpen (e : entry) : bool :=
  if u32 (SendAhead e + SendMostRecent e - SendLastContig e) >? WindowSize e then false
  else negb ((0 <? SFTP_MaxPackets) && (PacketsInUse e + SendAhead e >? SFTP_MaxPackets)).

(** The packets that sftp_ReadStrategy prepares before it reads. *)
Definition fresh_packet (e : entry) (bodylength i : Z) : packet :=
  set_SEFlags SFTP_MOREDATA (set_op SFTP_DATA (u32 (SendMostRecent e + i)) (sftp_InitPacket e bodylength)).

Definition prepare (bodylength i : Z) (e : entry) : res entry :=
  if i <=? MAXOPACKETS
  then Ret (putp (SendMostRecent e + i) (fresh_packet e bodylength i) (SFTP_AllocBuffer e))
  else Stop CUndef.

(** What readv put into the buffers. *)
Definition fill (base : Z) (cs : list (list Z)) (e : entry) : res entry :=
  forZ 0 (zlen cs) (fun i e =>
    let* pb := getp e (base + 1 + i) in
    let* c := aget cs i in
    Ret (putp (base + 1 + i) (set_Body c pb) e)) e.

(** The packet with the last byte: its length, its flags. *)
Definition last_packet (bytesread : Z) (pb : packet) : packet :=
  set_Flags (Z.lor (Flags pb) SFTP_ACKME) (set_SEFlags 0 (set_BodyLength bytesread pb)).

(** What the quota leaves of the bytes read, and the progress. *)
Definition quota_read (bytesread : Z) (e : entry) : entry * Z :=
  let over := SFTP_EnforceQuota && (0 <? ByteQuota e) && (BytesTransferred e + bytesread >? ByteQuota e) in
  let e := if over then upd_file (set_QuotaExceeded true) e else e in
  let bytesread := if over then ByteQuota e - BytesTransferred e else bytesread in
  (sftp_Progress (BytesTransferred e + bytesread) e, bytesread).

(** Did the file end?  Then its last packet is marked and the others are released. *)
Definition finish_read (bodylength byteswanted base bytesread : Z) (e : entry) : res (entry * Z) :=
  if bytesread =? byteswanted then Ret (set_ReadAheadCount (SendAhead e) e, 0) else
  let e := set_HitEOF true e in
  let* r := for_range 1 (SendAhead e + 1) (fun i left =>
    if left >? bodylength then Ret (inl (left - bodylength))
    else
      let* pb := getp e (base + i) in
      Ret (inr (i, putp (base + i) (last_packet left pb) e))) bytesread in
  let (i, e) := match r with inl _ => (SendAhead e + 1, e) | inr ie => ie end in
  let e := set_ReadAheadCount i e in
  let* e := forZ (i + 1) (SendAhead e + 1) (fun i e => Ret (drop_packet (base + i) e)) e in
  Ret (e, 0).

Definition sftp_ReadStrategy (e : entry) : res (entry * Z) :=
  if HitEOF e then Ret (e, 0) else
  if negb (WinIsOpen e) then Ret (e, 0) else
  let bodylength := s32 (PacketSize e - HDR) in
  let byteswanted := u32 (SendAhead e * bodylength) in
  let base := SendMostRecent e in
  let* e := forZ 1 (1 + SendAhead e) (prepare bodylength) e in
  let '(f, bytesread, cs) := sftp_vfreadv e (repeat bodylength (Z.to_nat (SendAhead e))) in
  let e := upd_file (fun _ => f) e in
  if bytesread <? 0 then Ret (e, -1) else
  let* e := fill base cs e in
  let (e, bytesread) := quota_read bytesread e in
  finish_read bodylength byteswanted base bytesread e.

(** The loop of CheckWorried, from SendAckLimit down to SendWorriedLimit; the value
    of [i] when it ends. *)
Fixpoint worried_scan (n : nat) (i queued : Z) (e : entry) : res (entry * Z) :=
  match n with
  | O => Ret (e, i)
  | S n =>
      let queued := u32 (queued - (PacketSize e + HDR)) in
      let* b := TESTBIT (SendTheseBits e) (i - SendLastContig e) in
      if b then worried_scan n (i - 1) queued e
      else
        let rto := u32 (RetryInterval (tick e) queued) in
        let e := ticked e in
        match ThesePackets e !! PBUFF i with
        | None => worried_scan n (i - 1) queued e
        | Some p =>
            if TSDELTA (LastSS e) (TimeStamp p) >? rto then Ret (e, i)
            else worried_scan n (i - 1) queued e
        end
  end.

Definition CheckWorried (e : entry) : res (entry * bool) :=
  if negb GetConn || HitEOF e then Ret (set_SendWorriedLimit (SendAckLimit e) e, true)
  else
    let e := if SendWorriedLimit e <? SendLastContig e then set_SendWorriedLimit (SendLastContig e) e else e in
    let queued := u32 ((PacketSize e + HDR) * u32 (SendAckLimit e - SendLastContig e)) in
    let* (e, i) := worried_scan (Z.to_nat (SendAckLimit e - SendWorriedLimit e)) (SendAckLimit e) queued e in
    let e := set_SendWorriedLimit i e in
    Ret (e, SendWorriedLimit e >? SendLastContig e).

Definition ResendWorried (e : entry) : res (entry * Z) :=
  let first := SendLastContig e + 1 in
  let* (e, _) := forZ first (SendWorriedLimit e + 1) (fun i (st : entry * bool) =>
    let (e, acked) := st in
    let* b := TESTBIT (SendTheseBits e) (i - SendLastContig e) in
    if b then Ret (e, acked)
    else
      let* pb := getp e i in
      let pb := set_Flags (if acked then Z.ldiff (Flags pb) SFTP_ACKME else Z.lor (Flags pb) SFTP_ACKME) pb in
      let pb := if i =? first then set_SEFlags (Z.lor (SEFlags pb) SFTP_FIRST) pb else pb in
      let pb := set_Flags (Z.lor (Flags pb) RPC2_RETRY) pb in
      let (e, pb) := stamped e pb in
      Ret (emit pb (putp i pb e), true)) (e, false) in
  Ret (e, 0).

Definition SendFirstUnacked (e : entry) (winopen : bool) : res (entry * Z) :=
  let i := SendLastContig e + 1 in
  let* pb := getp e i in
  let pb := set_Flags (if winopen then Z.ldiff (Flags pb) SFTP_ACKME else Z.lor (Flags pb) SFTP_ACKME) pb in
  let pb := set_Flags (Z.lor (Flags pb) RPC2_RETRY) pb in
  let pb := set_SEFlags (Z.lor (SEFlags pb) SFTP_FIRST) pb in
  let (e, pb) := stamped e pb in
  Ret (emit pb (putp i pb e), 1).

(** One packet of SendSendAhead. *)
Definition send_one (dont_ackme : bool) (j i : Z) (e : entry) : res entry :=
  let e := set_SendMostRecent (u32 (SendMostRecent e + 1)) e in
  let* pb := getp e (SendMostRecent e) in
  let ack := negb dont_ackme && (SendMostRecent e =? j) in
  let e := if ack then set_SendAckLimit (SendMostRecent e) e else e in
  let pb := if ack then set_Flags (Z.lor (Flags pb) SFTP_ACKME) pb else pb in
  let pb := if (i =? 0) && (SendLastContig e =? SendWorriedLimit e)
            then set_SEFlags (Z.lor (SEFlags pb) SFTP_FIRST) pb else pb in
  let (e, pb) := stamped e pb in
  Ret (emit pb (putp (SendMostRecent e) pb e)).

Definition SendSendAhead (e : entry) : res (entry * Z) :=
  if ReadAheadCount e =? 0 then Ret (set_SendAckLimit (SendMostRecent e) e, 0)
  else
    let short := ReadAheadCount e <? SendAhead e in
    let dont_ackme := short && negb (MorePackets (tick e) =? -1) in
    let e := if short then ticked e else e in
    let j := u32 (SendMostRecent e + (if AckPoint e >? ReadAheadCount e then ReadAheadCount e else AckPoint e)) in
    let* e := forZ 0 (ReadAheadCount e) (send_one dont_ackme j) e in
    Ret (set_ReadAheadCount 0 e, 0).

Definition sftp_SendStrategy (e : entry) : res (entry * Z) :=
  let e := ticked (set_LastSS (clock (tick e)) e) in
  let* (e, rc) := if ReadAheadCount e =? 0 then sftp_ReadStrategy e else Ret (e, 0) in
  if rc <? 0 then Ret (e, -1) else
  let winopen := WinIsOpen e in
  cassert ((0 <? ReadAheadCount e) || HitEOF e || negb winopen) ;;;
  let* (e, worried) :=
    if bool_decide (WhoAmI e = SFCLIENT) || Retransmitting e then CheckWorried e else Ret (e, false) in
  if negb winopen then SendFirstUnacked e false else
  if 0 <? ReadAheadCount e then
    let* (e, rc) := if (worried : bool) then SendFirstUnacked e true else Ret (e, 0) in
    if rc <? 0 then Ret (e, -1) else SendSendAhead e
  else ResendWorried e.

(** The acked packets' bytes: those up to GotEmAll, then those of the mask.  The loop
    over the mask stops at [sizeof(int) * BITMASKWIDTH], and marks the packet in the
    wrong byte order. *)
Definition acked_prefix (pBuff : packet) (e : entry) : res Z :=
  forZ (u32 (SendLastContig e + 1)) (GotEmAll pBuff + 1) (fun i n =>
    let* pb := getp e i in
    Ret (if has (SEFlags pb) SFTP_COUNTED then n else n + LengthOfPacket pb)) 0.

Definition acked_mask (pBuff : packet) (e : entry) (n : Z) : res (entry * Z) :=
  forZ 1 (4 * BITMASKWIDTH + 1) (fun i (st : entry * Z) =>
    let (e, n) := st in
    let* b := TESTBIT (BitMask pBuff) i in
    if negb b then Ret (e, n)
    else
      let* pb := getp e (GotEmAll pBuff + i) in
      if negb (has (SEFlags pb) SFTP_COUNTED) && (PTimeEcho pBuff <=? TimeStamp pb)
      then Ret (putp (GotEmAll pBuff + i) (set_SEFlags (htonl (Z.lor (htonl (SEFlags pb)) SFTP_COUNTED)) pb) e,
                n + LengthOfPacket pb)
      else Ret (e, n)) (e, n).

Definition sftp_AckArrived (pBuff : packet) (e : entry) : res (entry * Z) :=
  let prun := u32 (GotEmAll pBuff - SendLastContig e) in
  if prun <? 0 then Ret (e, 0) else
  if (prun =? 0) && bool_decide (WhoAmI e = SFCLIENT) then Ret (e, 0) else
  if prun >? u32 (SendMostRecent e - SendLastContig e) then Ret (e, -1) else
  let* e :=
    if negb (PTimeEcho pBuff =? 0) && (negb (bool_decide (WhoAmI e = SFCLIENT)) || negb (has (SEFlags pBuff) SFTP_TRIGGER))
    then
      let* n := acked_prefix pBuff e in
      let* (e, n) := acked_mask pBuff e n in
      Ret (if n =? 0 then e else sftp_UpdateBW HDR n e)
    else Ret e in
  let e := set_TimeEcho (TimeStamp pBuff) e in
  let e := set_SendLastContig (GotEmAll pBuff) e in
  let e := set_SendTheseBits (BitMask pBuff) e in
  let* e := forZ 0 prun (fun i (e : entry) => Ret (drop_packet (SendLastContig e - i) e)) e in
  if HitEOF e && (ReadAheadCount e =? 0) && (SendMostRecent e =? SendLastContig e)
  then Ret (set_XferState XferCompleted e, 0)
  else
    let e := set_XferState XferInProgress e in
    let* (e, rc) := sftp_SendStrategy e in
    if rc <? 0 then Ret (e, -1) else
    cassert (SendMostRecent e >? SendLastContig e) ;;; Ret (e, 0).

End Code.
End SftpCode.
