(* ===== verification/SftpFile.v ===== *)
(** * The file at the receiving end: writing

    What sftp_vfwritev and the quota of sftp_WriteStrategy leave in the file: bytes are
    only appended, they are the first bytes of what was to be written, and all of them
    when the count says so. *)
From Stdlib Require Import ZArith Lia Bool.
From stdpp Require Import base list numbers gmap.
From S2P Require Import Prelude.
From S2P Require Import SftpMask.
From S2P Require Import SftpEntry.
From S2P Require Import SftpCode.
Import SftpMask SftpEntry SftpCode.
Open Scope Z_scope.

Module SftpFile.

(** Every write goes to the end of the file. *)
Definition appending (f : vfile) : Prop := vf_pos f = zlen (vf_data f).

(** Everything but the contents. *)
Record same_desc (f f' : vfile) : Prop := SameDesc {
  sd_mem : vf_mem f' = vf_mem f;
  sd_open : vf_open f' = vf_open f;
  sd_max : vf_max f' = vf_max f;
  sd_bt : BytesTransferred f' = BytesTransferred f;
  sd_quota : ByteQuota f' = ByteQuota f
}.

#[global] Instance same_desc_preorder : PreOrder same_desc.
Proof. split; [by intros f|]. intros f g h [] []. split; congruence. Qed.

Lemma zlen_0 {A} (l : list A) : zlen l <= 0 -> l = [].
Proof. unfold zlen. destruct l; cbn; [done|lia]. Qed.

Lemma putbs_append d bs : putbs d (zlen d) bs = d ++ bs.
Proof.
  unfold putbs, zlen. rewrite Nat2Z.id, firstn_all, drop_ge by lia. by rewrite app_nil_r.
Qed.

Lemma put_bytes_ok bs f : appending f ->
  vf_data (put_bytes bs f) = vf_data f ++ bs /\ appending (put_bytes bs f) /\ same_desc f (put_bytes bs f).
Proof.
  intros Ha. unfold put_bytes, appending. cbn. rewrite Ha, putbs_append, zlen_app. done.
Qed.

Lemma mem_put_ok bs f : appending f ->
  vf_data (mem_put bs f) = vf_data f ++ bs /\ appending (mem_put bs f) /\ same_desc f (mem_put bs f).
Proof.
  intros Ha. unfold mem_put, appending. cbn. rewrite Ha, putbs_append, take_ge; [by rewrite zlen_app|].
  rewrite length_app. unfold zlen. lia.
Qed.

(** The outcome of a write of [bs]: [l] is what reached the file. *)
Definition wrote (f f' : vfile) (rc : Z) (bs l : list Z) : Prop :=
  vf_data f' = vf_data f ++ l /\ appending f' /\ same_desc f f' /\ l `prefix_of` bs /\
  (rc < 0 \/ (rc = zlen l /\ (l = bs \/ (vf_mem f = false /\ vf_max f' - vf_pos f' <= 0)))).

Lemma mem_writev_ok f iovs : vf_mem f = true -> appending f ->
  exists l, wrote f (mem_writev f iovs).1 (mem_writev f iovs).2 (concat iovs) l.
Proof.
  intros Hm. revert f Hm. induction iovs as [|v iovs IH]; intros f Hm Ha; cbn [mem_writev concat].
  - exists []. unfold wrote. cbn. rewrite app_nil_r. split_and!; try done. right. by split; [|left].
  - destruct (zlen v >? vf_max f - vf_pos f).
    + exists []. unfold wrote. cbn. rewrite app_nil_r. split_and!; try done; [apply prefix_nil|left; lia].
    + destruct (mem_put_ok v f Ha) as (Hd & Ha' & Hs). destruct (IH (mem_put v f)) as (l & Hw); [by rewrite (sd_mem _ _ Hs)|done|].
      destruct (mem_writev (mem_put v f) iovs) as [f' rc]. cbn in Hw. cbn. exists (v ++ l).
      destruct Hw as (H1 & H2 & H3 & H4 & H5). unfold wrote. rewrite H1, Hd, <- app_assoc.
      split_and!; try done; [by etrans|by apply prefix_app|].
      destruct (Z.ltb_spec rc 0); [left; lia|]. right. destruct H5 as [|[-> [-> | [H5 _]]]]; [lia| |rewrite (sd_mem _ _ Hs) in H5; congruence].
      rewrite zlen_app. split; [done|by left].
Qed.

Lemma disk_writev_ok f iovs : vf_mem f = false -> appending f ->
  exists l, wrote f (disk_writev f iovs).1 (disk_writev f iovs).2 (concat iovs) l /\ (vf_max f - vf_pos f <= 0 -> l = []).
Proof.
  intros Hm Ha. unfold disk_writev. cbv zeta. set (bs := concat iovs). set (n := Z.min (zlen bs) (vf_max f - vf_pos f)).
  destruct (negb (vf_open f) || (0 <? zlen bs) && (n <=? 0)) eqn:E.
  - exists []. unfold wrote. cbn. rewrite app_nil_r. split; [|done]. split_and!; try done; [apply prefix_nil|left; lia].
  - destruct (put_bytes_ok (take (Z.to_nat n) bs) f Ha) as (Hd & Ha' & Hs). exists (take (Z.to_nat n) bs). unfold wrote. cbn [fst snd].
    pose proof (zlen_nonneg bs). assert (zlen (take (Z.to_nat n) bs) = Z.max 0 n) as Hl.
    { unfold zlen. rewrite length_take. unfold zlen in *. lia. }
    split; [|intros ?; replace (Z.to_nat n) with 0%nat by lia; done].
    split_and!; try done; [apply prefix_take|]. right. split; [done|].
    destruct (decide (zlen bs <= vf_max f - vf_pos f)).
    + left. replace (Z.to_nat n) with (length bs) by (unfold n, zlen in *; lia). apply firstn_all.
    + right. split; [done|]. rewrite (sd_max _ _ Hs). unfold put_bytes. cbn. rewrite Hl. lia.
Qed.

Lemma vfwritev_loop_ok fuel f iovs result : (length iovs <= fuel)%nat -> appending f ->
  exists f' rc l, vfwritev_loop fuel f iovs result = (f', rc) /\ vf_data f' = vf_data f ++ l /\ appending f' /\
    same_desc f f' /\ l `prefix_of` concat iovs /\ (rc < 0 \/ rc = result + zlen l) /\
    (vf_mem f = false -> vf_max f - vf_pos f <= 0 -> l = []).
Proof.
  revert f iovs result. induction fuel as [|fuel IH]; intros f iovs result Hl Ha; destruct iovs as [|v iovs];
    cbn [length] in Hl; try lia; cbn [vfwritev_loop].
  1,2: exists f, result, []; rewrite app_nil_r; split_and!; try done; right; rewrite zlen_nil; lia.
  set (now := take 16 (v :: iovs)). set (rest := drop 16 (v :: iovs)).
  assert (concat (v :: iovs) = concat now ++ concat rest) as Ec by (unfold now, rest; rewrite <- concat_app, take_drop; done).
  assert (exists l, wrote f (if vf_mem f then mem_writev f now else disk_writev f now).1
     (if vf_mem f then mem_writev f now else disk_writev f now).2 (concat now) l /\ (vf_mem f = false -> vf_max f - vf_pos f <= 0 -> l = [])) as (l & Hw & Hfull).
  { destruct (vf_mem f) eqn:Em; [destruct (mem_writev_ok f now Em Ha) as (l & ?); by exists l|].
    destruct (disk_writev_ok f now Em Ha) as (l & ? & ?); exists l; auto. }
  destruct (if vf_mem f then mem_writev f now else disk_writev f now) as [f1 rc]. cbn in Hw.
  destruct Hw as (H1 & H2 & H3 & H4 & H5). destruct (Z.ltb_spec rc 0).
  - exists f1, rc, l. split_and!; try done; [rewrite Ec; by apply prefix_app_r|by left].
  - destruct H5 as [|[-> H5]]; [lia|]. destruct (IH f1 rest (result + zlen l)) as (f2 & rc2 & l2 & E & G1 & G2 & G3 & G4 & G5 & G6);
      [unfold rest; rewrite length_drop; cbn; lia|done|].
    exists f2, rc2, (l ++ l2). rewrite G1, H1, <- app_assoc. split_and!; try done; [by etrans| | |].
    + rewrite Ec. destruct H5 as [-> | [Hm Hroom]]; [by apply prefix_app|].
      rewrite G6, app_nil_r; [by apply prefix_app_r| |done]. by rewrite (sd_mem _ _ H3).
    + rewrite zlen_app. lia.
    + intros Hm Hr. rewrite Hfull by done. rewrite G6; [done|by rewrite (sd_mem _ _ H3)|].
      unfold appending in *. rewrite (sd_max _ _ H3). rewrite H2, H1, Hfull, app_nil_r by done. lia.
Qed.

(** sftp_vfwritev appends a part of the buffers, all of them if it says so. *)
Lemma sftp_vfwritev_ok f iovs : appending f ->
  exists f' rc l, sftp_vfwritev f iovs = (f', rc) /\ vf_data f' = vf_data f ++ l /\ appending f' /\ same_desc f f' /\
    l `prefix_of` concat iovs /\ (rc = zlen (concat iovs) -> l = concat iovs).
Proof.
  intros Ha. destruct (vfwritev_loop_ok (length iovs) f iovs 0) as (f' & rc & l & E & H1 & H2 & H3 & H4 & H5 & _); [lia|done|].
  exists f', rc, l. split_and!; try done. intros Erc. destruct H5 as [|H5]; [pose proof (zlen_nonneg (concat iovs)); lia|].
  destruct H4 as [k Hk]. rewrite Hk in *. rewrite zlen_app in Erc. rewrite (zlen_0 k); [by rewrite app_nil_r|lia].
Qed.

(** Nothing can be written once the descriptor is closed. *)
Lemma vfwritev_closed f iovs : vf_mem f = false -> vf_open f = false -> iovs <> [] -> sftp_vfwritev f iovs = (f, -1).
Proof.
  intros Hm Ho Hne. unfold sftp_vfwritev. destruct iovs as [|v iovs]; [done|]. cbn [length vfwritev_loop].
  rewrite Hm. unfold disk_writev. rewrite Ho. done.
Qed.

(** ** The quota *)
Section Quota.
Context {env : SftpEnv}.

Definition limited (f : vfile) : bool := SFTP_EnforceQuota && (0 <? ByteQuota f).
Definition qcut (f : vfile) (l : list Z) : list Z :=
  if limited f then take (Z.to_nat (ByteQuota f - BytesTransferred f)) l else l.
Definition quota_ok (f : vfile) : Prop := limited f = true -> BytesTransferred f <= ByteQuota f.

Definition payload (p : packet) : list Z := take (Z.to_nat (BodyLength p)) (Body p).
Definition len_ok (p : packet) : Prop := 0 <= BodyLength p <= zlen (Body p).

Lemma zlen_payload p : len_ok p -> zlen (payload p) = BodyLength p.
Proof. intros [H1 H2]. unfold payload, zlen in *. rewrite length_take. lia. Qed.

Lemma zlen_qcut f l : zlen (qcut f l) = if limited f then Z.min (Z.max 0 (ByteQuota f - BytesTransferred f)) (zlen l) else zlen l.
Proof. unfold qcut, zlen. destruct (limited f); [|done]. rewrite length_take. lia. Qed.

(** The packets of the first [n] slots after RecvLastContig. *)
Definition slots (e : entry) (n : Z) (ps : list packet) : Prop :=
  zlen ps = n /\ forall i p, ps !! i = Some p -> ThesePackets e !! PBUFF (RecvLastContig e + 1 + Z.of_nat i) = Some p.

(** What the collecting loop has gathered from [ps]. *)
Definition gathered (f : vfile) (ps : list packet) (st : list (list Z) * Z * vfile) : Prop :=
  let '(iovs, n, f') := st in
  length iovs = length ps /\ n = zlen (concat iovs) /\ concat iovs = qcut f (concat (payload <$> ps)) /\
  vf_data f' = vf_data f /\ vf_pos f' = vf_pos f /\ same_desc f f'.

Lemma collect_step (e : entry) i f ps p st : quota_ok f -> mbit (RecvTheseBits e) i = true -> mask_ok (RecvTheseBits e) ->
  ThesePackets e !! PBUFF (RecvLastContig e + i) = Some p -> len_ok p -> gathered f ps st ->
  exists st', collect e i st = Ret (inl st') /\ gathered f (ps ++ [p]) st'.
Proof.
  intros Hq Hb Hm Hp Hl. destruct st as [[iovs n] f']. intros (G1 & G2 & G3 & G4 & G5 & Hs).
  pose proof (mbit_range _ _ Hb). unfold collect. rewrite TESTBIT_ok, Hb by done. cbn [rbind negb]. unfold getp. rewrite Hp. cbn [rbind].
  pose proof Hs as [S1 S2 S3 S4 S5]. rewrite S4, S5. change (SFTP_EnforceQuota && (0 <? ByteQuota f)) with (limited f).
  pose proof (zlen_payload p Hl) as Epl. destruct Hl as [Hl0 Hl1].
  set (x := BytesTransferred f + n). set (B := concat (payload <$> ps)) in *.
  assert (zlen B = zlen B) as _ by done. pose proof (zlen_nonneg B).
  assert (n = if limited f then Z.min (ByteQuota f - BytesTransferred f) (zlen B) else zlen B) as En.
  { rewrite G2, G3, zlen_qcut. destruct (limited f) eqn:El; [|done]. specialize (Hq El). lia. }
  assert (concat (payload <$> (ps ++ [p])) = B ++ payload p) as EB.
  { rewrite fmap_app, concat_app. cbn. by rewrite app_nil_r. }
  destruct (limited f && (x + BodyLength p >? ByteQuota f)) eqn:Eo.
  - apply andb_true_iff in Eo as [Elim Eo]. specialize (Hq Elim). rewrite Elim in En. apply Z.gtb_lt in Eo.
    cbn [ByteQuota set_QuotaExceeded]. rewrite S5. subst x.
    destruct (Z.leb_spec 0 (ByteQuota f - (BytesTransferred f + n))); [|lia].
    destruct (Z.leb_spec (ByteQuota f - (BytesTransferred f + n)) (zlen (Body p))); [|lia]. cbn [andb].
    eexists. split; [reflexivity|]. unfold gathered. rewrite !length_app, concat_app, zlen_app. cbn [concat length].
    rewrite app_nil_r. split_and!; try done; [lia| | ].
    + rewrite <- G2. f_equal. unfold zlen. rewrite length_take. unfold zlen in *. lia.
    + rewrite EB, G3. unfold qcut. rewrite Elim, take_app. f_equal.
      unfold payload. rewrite take_take. f_equal. unfold zlen in *. lia.
  - assert (~ (limited f = true /\ ByteQuota f < x + BodyLength p)) as Eo'.
    { intros [E1 E2]. rewrite E1 in Eo. cbn in Eo. rewrite Z.gtb_ltb in Eo. apply Z.ltb_ge in Eo. lia. }
    destruct (Z.leb_spec 0 (BodyLength p)); [|lia]. destruct (Z.leb_spec (BodyLength p) (zlen (Body p))); [|lia]. cbn [andb].
    eexists. split; [reflexivity|]. unfold gathered. rewrite !length_app, concat_app, zlen_app. cbn [concat length].
    rewrite app_nil_r. split_and!; try done; [lia| | ].
    + rewrite <- G2. fold (payload p). lia.
    + rewrite EB, G3. unfold qcut. destruct (limited f) eqn:El; [|done]. specialize (Hq El). subst x.
      assert (ByteQuota f >= BytesTransferred f + n + BodyLength p) by (destruct (decide (ByteQuota f < BytesTransferred f + n + BodyLength p)); [exfalso; auto|lia]).
      assert (zlen B <= ByteQuota f - BytesTransferred f - BodyLength p \/ BodyLength p = 0) as Hcase by lia.
      fold (payload p). rewrite take_app. f_equal.
      rewrite take_ge; [done|]. unfold payload. rewrite length_take. unfold zlen in *. lia.
Qed.

Lemma collect_stop (e : entry) i st : mbit (RecvTheseBits e) i = false -> 1 <= i <= 64 -> mask_ok (RecvTheseBits e) ->
  collect e i st = Ret (inr st).
Proof. intros Hb Hi Hm. destruct st as [[iovs n] f]. unfold collect. by rewrite TESTBIT_ok, Hb. Qed.

(** The whole loop: it gathers the longest run of packets that are in. *)
Lemma collect_loop (e : entry) : quota_ok e -> mask_ok (RecvTheseBits e) ->
  (forall i, mbit (RecvTheseBits e) i = true -> exists p, ThesePackets e !! PBUFF (RecvLastContig e + i) = Some p /\ len_ok p) ->
  exists r ps st, (for_range 1 (MAXOPACKETS + 1) (collect e) ([], 0, e_file e) = Ret (inl st) \/
      for_range 1 (MAXOPACKETS + 1) (collect e) ([], 0, e_file e) = Ret (inr st)) /\
    0 <= r <= 64 /\ (forall i, 1 <= i <= r -> mbit (RecvTheseBits e) i = true) /\ mbit (RecvTheseBits e) (r + 1) = false /\
    slots e r ps /\ Forall len_ok ps /\ gathered e ps st.
Proof.
  intros Hq Hm Hin.
  pose (P := fun (k : Z) (st : list (list Z) * Z * vfile) => exists ps, slots e (k - 1) ps /\ Forall len_ok ps /\ gathered e ps st /\
     (forall i, 1 <= i <= k - 1 -> mbit (RecvTheseBits e) i = true)).
  destruct (for_range_rule P (fun k st => P k st /\ mbit (RecvTheseBits e) k = false) 1 (MAXOPACKETS + 1) (collect e) ([], 0, e_file e))
    as [(st & E & ps & H1 & H2 & H3 & H4)|(k & st & Hk & E & (ps & H1 & H2 & H3 & H4) & H5)]; [unfold MAXOPACKETS; lia| | | | ].
  - exists []. split_and!; try done; try lia. unfold gathered, qcut. split_and!; try done. change (concat (payload <$> [])) with (@nil Z). destruct (limited _); [by rewrite take_nil|done].
  - intros k st Hk (ps & H1 & H2 & H3 & H4). destruct (mbit (RecvTheseBits e) k) eqn:Eb.
    + left. destruct (Hin k Eb) as (p & Hp & Hl). destruct (collect_step e k e ps p st Hq Eb Hm Hp Hl H3) as (st' & E & G).
      exists st'. split; [done|]. exists (ps ++ [p]). destruct H1 as [L1 L2]. split_and!.
      * split; [rewrite zlen_app, zlen_cons, zlen_nil; lia|]. intros i q. rewrite lookup_app_Some. intros [Hq'|[Hge Hq']]; [by apply L2|].
        assert (i = length ps) as -> by (apply lookup_lt_Some in Hq' as Hlt; cbn in Hlt; lia).
        rewrite Nat.sub_diag in Hq'. cbn in Hq'. injection Hq' as <-. rewrite <- Hp. do 2 f_equal. unfold zlen in L1. lia.
      * apply Forall_app; split; [done|by constructor].
      * done.
      * intros i Hi. destruct (decide (i = k)) as [-> |]; [done|apply H4; lia].
    + right. exists st. split; [apply collect_stop; [done|unfold MAXOPACKETS in *; lia|done]|]. split; [by exists ps|done].
  - exists 64, ps, st. change (MAXOPACKETS + 1 - 1) with 64 in *. split_and!; try done; by left.
  - exists (k - 1), ps, st. unfold MAXOPACKETS in *. split_and!; try done; try lia; [by right|]. by replace (k - 1 + 1) with k by lia.
Qed.

End Quota.
End SftpFile.
