(* ===== verification/SftpSink.v ===== *)
(** * The sink of a transfer

    What sftp_DataArrived does for any packet whose body is as long as it says: the
    invariant of the receiving half of the entry, the acks it sends and the bytes it
    writes.  Nothing here depends on what the peer sends, so a peer that does not
    follow the protocol is covered. *)
From Stdlib Require Import ZArith Lia Bool.
From stdpp Require Import base list numbers gmap.
From S2P Require Import Prelude.
From S2P Require Import SftpMask.
From S2P Require Import SftpEntry.
From S2P Require Import SftpCode.
From S2P Require Import SftpFile.
Import SftpMask SftpEntry SftpCode SftpFile.
Open Scope Z_scope.

Module SftpSink.

(** The packets that are in: those written, and those of the mask. *)
Definition got (e : entry) (s : Z) : Prop := s <= RecvLastContig e \/ mbit (RecvTheseBits e) (s - RecvLastContig e) = true.

(** The file takes bytes at its end, or its descriptor is closed. *)
Definition file_ok (f : vfile) : Prop := appending f \/ (vf_mem f = false /\ vf_open f = false).

(** A property of packets that does not depend on the flags sftp changes. *)
Definition stable (Q : packet -> Prop) : Prop :=
  forall p v, Q p -> has v SFTP_MOREDATA = has (SEFlags p) SFTP_MOREDATA -> Q (set_SEFlags v p).

Section Sink.
Context {env : SftpEnv}.
Context (Q : packet -> Prop) (HQ : forall p, Q p -> len_ok p /\ 0 <= SeqNumber p < 2 ^ 32) (HQs : stable Q).

Record sink_ok (e : entry) : Prop := SinkOk {
  sk_mask : mask_ok (RecvTheseBits e);
  sk_ws : 0 <= WindowSize e <= 64;
  sk_lo : 0 <= RecvLastContig e <= RecvMostRecent e;
  sk_hi : RecvMostRecent e < 2 ^ 32;
  sk_window : RecvMostRecent e - RecvLastContig e <= WindowSize e;
  sk_bits : forall i, mbit (RecvTheseBits e) i = true -> RecvLastContig e + i <= RecvMostRecent e /\
    exists p, ThesePackets e !! PBUFF (RecvLastContig e + i) = Some p /\ Q p /\ SeqNumber p = RecvLastContig e + i;
  sk_file : file_ok e;
  sk_quota : quota_ok e
}.

(** ** Acks *)
Definition describes (e : entry) (p : packet) : Prop :=
  Opcode p = SFTP_ACK /\ mask_ok (BitMask p) /\ RecvLastContig e <= GotEmAll p < 2 ^ 32 /\ ThisRPCCall p = CallNumber e /\
  (forall s, s <= GotEmAll p -> got e s) /\
  (forall q, 1 <= q -> mbit (BitMask p) q = true <-> got e (GotEmAll p + q)).

Lemma leading_ok m w : mask_ok m -> 0 <= w <= 64 ->
  exists r, leading m w = Ret r /\ 0 <= r <= w /\ (forall i, 1 <= i <= r -> mbit m i = true).
Proof.
  intros Hm Hw. unfold leading.
  destruct (for_range_rule (fun k n => n = k - 1 /\ forall i, 1 <= i <= n -> mbit m i = true)
    (fun k n => 0 <= n <= w /\ forall i, 1 <= i <= n -> mbit m i = true) 1 (w + 1)
    (fun i n => let* b := TESTBIT m i in if b then Ret (inl (n + 1)) else Ret (inr n)) 0)
    as [(n & -> & -> & H)|(k & n & Hk & -> & H)]; [lia|split; [done|lia]| | |].
  - intros k n Hk [-> H]. rewrite TESTBIT_ok by (done || lia). cbn [rbind]. destruct (mbit m k) eqn:E.
    + left. eexists. split; [reflexivity|]. split; [lia|]. intros i Hi. destruct (decide (i = k)) as [-> |]; [done|apply H; lia].
    + right. eexists. split; [reflexivity|]. split; [lia|done].
  - eexists. split; [reflexivity|]. split; [lia|]. done.
  - eexists. split; [reflexivity|]. done.
Qed.

(** The parts of the entry that acks and writes leave alone. *)
Record frame (e e' : entry) : Prop := Frame {
  fr_parms : e_parms e' = e_parms e;
  fr_call : CallNumber e' = CallNumber e;
  fr_dir : Direction e' = Direction e;
  fr_queue : RecvQueue e' = RecvQueue e
}.

#[global] Instance frame_preorder : PreOrder frame.
Proof. split; [by intros e|]. intros e f g [] []. split; congruence. Qed.

(** The progress of the transfer. *)
Definition phase (e : entry) : SFState * xfer_state * bool := (WhoAmI e, XferState e, HitEOF e).

Lemma sftp_SendAck_ok e : sink_ok e -> exists e' p, sftp_SendAck e = Ret e' /\ describes e p /\
  outs e' = outs e ++ [p] /\ frame e e' /\ phase e' = phase e /\ e_file e' = e_file e /\ ThesePackets e' = ThesePackets e /\
  e_sink e' = Sink (RecvLastContig e) (RecvMostRecent e) (RecvTheseBits e) (DupsSinceAck e) 0.
Proof using HQ.
  intros [Hm Hws Hlo Hhi Hwin Hb _ _]. destruct (leading_ok _ _ Hm Hws) as (r & El & Hr & Hones).
  assert (exists bt, (if 0 <? r then B_ShiftLeft (RecvTheseBits e) r else Ret (RecvTheseBits e)) = Ret bt /\ mask_ok bt /\
    forall q, 1 <= q -> mbit bt q = mbit (RecvTheseBits e) (q + r)) as (bt & Ebt & Hbt & Hq).
  { destruct (Z.ltb_spec 0 r).
    - destruct (B_ShiftLeft_ok (RecvTheseBits e) r Hm ltac:(lia)) as (bt & -> & H1 & H2). by exists bt.
    - assert (r = 0) as -> by lia. eexists. split_and!; [reflexivity|done|]. intros q _. by rewrite Z.add_0_r. }
  assert (RecvLastContig e + r <= RecvMostRecent e) as Hr'.
  { destruct (decide (r = 0)) as [-> |]; [lia|]. destruct (Hb r) as [? _]; [apply Hones; lia|]. done. }
  unfold sftp_SendAck, stamped. cbv zeta. esimpl.
  set (e1 := ticked (set_CtrlSeqNumber _ e)).
  assert (exists e2, (if Retransmitting e then set_Retransmitting false e1 else e1) = e2 /\ frame e e2 /\ phase e2 = phase e /\
    e_sink e2 = e_sink e /\ e_file e2 = e_file e /\ ThesePackets e2 = ThesePackets e /\ outs e2 = outs e) as (e2 & -> & Hf & Hwho & Hs & Hfile & Hp & Ho).
  { destruct (Retransmitting e); (eexists; split; [reflexivity|]); split_and!; try done; by split. }
  rewrite Hs. rewrite (fr_parms _ _ Hf), El. cbn [rbind]. rewrite Ebt. cbn [rbind].
  eexists _, _. split; [reflexivity|]. rewrite uwrap_small by lia. esimpl. rewrite Hs, Ho. split; cycle 1.
  - split_and!; try done. by destruct Hf; split.
  - unfold describes. esimpl. split_and!; try done; try lia.
    + intros s Hle. unfold got. destruct (decide (s <= RecvLastContig e)); [by left|right]. apply Hones. lia.
    + intros q Hq1. rewrite Hq by done. unfold got. replace (RecvLastContig e + r + q - RecvLastContig e) with (q + r) by lia.
      split; [by right|]. intros [?|?]; [lia|done].
Qed.

(** ** Writes *)

(** [ps] are the packets of the next [r] sequence numbers. *)
Record run (e : entry) (r : Z) (ps : list packet) : Prop := Run {
  run_slots : slots e r ps;
  run_end : 0 <= r /\ RecvLastContig e + r <= RecvMostRecent e;
  run_ones : forall i, 1 <= i <= r -> mbit (RecvTheseBits e) i = true;
  run_good : forall i p, ps !! i = Some p -> Q p /\ SeqNumber p = RecvLastContig e + 1 + Z.of_nat i
}.

(** A run was written and forgotten. *)
Record flushed (e e' : entry) (r : Z) (ps : list packet) : Prop := Flushed {
  fl_run : run e r ps;
  fl_last : RecvLastContig e' = RecvLastContig e + r;
  fl_most : RecvMostRecent e' = RecvMostRecent e;
  fl_mask : mask_ok (RecvTheseBits e') /\ forall q, 1 <= q -> mbit (RecvTheseBits e') q = mbit (RecvTheseBits e) (q + r);
  fl_keep : forall s, RecvLastContig e + r < s <= RecvLastContig e + 64 ->
    ThesePackets e' !! PBUFF s = ThesePackets e !! PBUFF s;
  fl_data : vf_data e' = vf_data e ++ qcut e (concat (payload <$> ps));
  fl_bt : BytesTransferred e' = BytesTransferred e + zlen (qcut e (concat (payload <$> ps)));
  fl_file : file_ok e' /\ vf_mem e' = vf_mem e /\ ByteQuota e' = ByteQuota e;
  fl_frame : frame e e'
}.

(** The write failed: some bytes of a run may have reached the file. *)
Record failed (e e' : entry) : Prop := Failed {
  fa_last : RecvLastContig e' = RecvLastContig e;
  fa_most : RecvMostRecent e' = RecvMostRecent e;
  fa_mask : RecvTheseBits e' = RecvTheseBits e;
  fa_slots : ThesePackets e' = ThesePackets e;
  fa_some : mbit (RecvTheseBits e) 1 = true;
  fa_data : exists r ps l, run e r ps /\ vf_data e' = vf_data e ++ l /\ l `prefix_of` qcut e (concat (payload <$> ps));
  fa_file : file_ok e' /\ quota_ok e';
  fa_frame : frame e e'
}.

Lemma quota_ok_desc f f' : same_desc f f' -> quota_ok f -> quota_ok f'.
Proof using. intros [] H. unfold quota_ok, limited in *. by rewrite sd_quota0, sd_bt0. Qed.

Lemma free_slots_ok e lo n : 0 <= n -> exists e', forZ lo (lo + n) (fun i e => Ret (drop_packet i e)) e = Ret e' /\
  e_sink e' = e_sink e /\ e_file e' = e_file e /\ frame e e' /\ phase e' = phase e /\ outs e' = outs e /\
  forall s, (forall i, lo <= i < lo + n -> PBUFF i <> PBUFF s) -> ThesePackets e' !! PBUFF s = ThesePackets e !! PBUFF s.
Proof using.
  intros Hn. destruct (forZ_total (fun k e' => e_sink e' = e_sink e /\ e_file e' = e_file e /\ frame e e' /\ phase e' = phase e /\
    outs e' = outs e /\ forall s, (forall i, lo <= i < k -> PBUFF i <> PBUFF s) -> ThesePackets e' !! PBUFF s = ThesePackets e !! PBUFF s)
    lo (lo + n) (fun i e => Ret (drop_packet i e)) e) as (e' & -> & H); [lia|by split_and!| |by exists e'].
  intros k e1 Hk (H1 & H2 & H3 & H4 & H5 & H6). eexists. split; [reflexivity|]. esimpl. split_and!; try done; [by destruct H3; split|].
  intros s Hs. rewrite lookup_delete_ne; [apply H6; intros i Hi; apply Hs; lia|apply Hs; lia].
Qed.

Lemma collected e : sink_ok e -> exists r ps st, (for_range 1 (MAXOPACKETS + 1) (collect e) ([], 0, e_file e) = Ret (inl st) \/
      for_range 1 (MAXOPACKETS + 1) (collect e) ([], 0, e_file e) = Ret (inr st)) /\
    r <= 64 /\ mbit (RecvTheseBits e) (r + 1) = false /\ run e r ps /\ gathered e ps st.
Proof using HQ.
  intros H. destruct (collect_loop e (sk_quota _ H) (sk_mask _ H)) as (r & ps & st & E & Hr & H1 & H2 & H3 & H4 & H5).
  { intros i Hi. destruct (sk_bits _ H i Hi) as (_ & p & Hp & Hq & _). exists p. split; [done|]. by apply HQ. }
  exists r, ps, st. split_and!; try done; try lia. split; try done.
  - split; [lia|]. destruct (decide (r = 0)) as [-> |]; [pose proof (sk_lo _ H); lia|].
    apply (sk_bits _ H). apply H1. lia.
  - intros i p Hp. destruct H3 as [L1 L2]. pose proof (L2 i p Hp) as Hs. pose proof (lookup_lt_Some _ _ _ Hp).
    destruct (sk_bits _ H (1 + Z.of_nat i)) as (_ & p' & Hp' & Hq & Hseq); [apply H1; unfold zlen in L1; lia|].
    replace (RecvLastContig e + (1 + Z.of_nat i)) with (RecvLastContig e + 1 + Z.of_nat i) in * by lia.
    rewrite Hs in Hp'. injection Hp' as <-. done.
Qed.

Lemma sftp_WriteStrategy_ok e : sink_ok e -> exists e' rc, sftp_WriteStrategy e = Ret (e', rc) /\ outs e' = outs e /\
  ((rc = 0 /\ phase e' = phase e /\ exists r ps, flushed e e' r ps /\ mbit (RecvTheseBits e) (r + 1) = false) \/
   (rc = -1 /\ phase e' = (DISKERROR, XferState e, HitEOF e) /\ failed e e')).
Proof using HQ.
  intros H. destruct (collected e H) as (r & ps & [[iovs n] f] & E & Hr64 & Hstop & Hrun & G).
  pose proof Hrun as [[L1 L2] [Hr0 Hrm] Hones Hgood]. destruct G as (G1 & G2 & G3 & G4 & G5 & Hs).
  unfold sftp_WriteStrategy. assert (exists x, for_range 1 (MAXOPACKETS + 1) (collect e) ([], 0, e_file e) = Ret x /\
    match x with inl s | inr s => s end = (iovs, n, f)) as (x & -> & Ex) by (destruct E as [-> | ->]; by eexists).
  cbn [rbind]. rewrite Ex. cbv zeta. clear E Ex x. assert (zlen iovs = r) as Hlen by (unfold zlen in *; lia). rewrite Hlen. esimpl.
  assert (same_desc e f) as Hs' by done. pose proof (quota_ok_desc _ _ Hs (sk_quota _ H)) as Hqf.
  destruct (Z.eqb_spec r 0) as [-> | Hr].
  - eexists _, 0. split; [reflexivity|]. split; [done|]. left. split; [done|]. split; [done|]. exists 0, ps. split; [|done].
    assert (ps = []) as -> by (apply zlen_0; lia).
    assert (qcut e (concat (payload <$> [])) = []) as Eq by (unfold qcut; destruct (limited e); [apply take_nil|done]).
    destruct Hs as [D1 D2 D3 D4 D5]. split; esimpl; rewrite ?Eq, ?app_nil_r, ?zlen_nil; try done; try lia.
    + split; [apply (sk_mask _ H)|]. intros q _. by rewrite Z.add_0_r.
    + split_and!; try done. destruct (sk_file _ H) as [Ha|[Ha1 Ha2]]; [left; unfold appending in *; congruence|right; split; congruence].
  - destruct (sk_file _ H) as [Ha|[Hm Ho]].
    + assert (appending f) as Haf by (unfold appending in *; congruence).
      destruct (sftp_vfwritev_ok f iovs Haf) as (f' & rc & l & -> & W1 & W2 & W3 & W4 & W5). esimpl.
      destruct (Z.eqb_spec n rc) as [<- | Hn]; cbn [negb].
      * rewrite (W5 G2) in *. replace (RecvLastContig e + r + 1) with (RecvLastContig e + 1 + r) by lia.
        destruct (free_slots_ok (upd_file (fun _ => f') (upd_file (fun _ => f) e)) (RecvLastContig e + 1) r Hr0)
          as (e1 & -> & F1 & F2 & F3 & F4 & F5 & F6). esimpl. rewrite F1.
        destruct (B_ShiftLeft_ok (RecvTheseBits e) r (sk_mask _ H) ltac:(lia)) as (m & -> & M1 & M2). cbn [rbind].
        eexists _, 0. split; [reflexivity|]. split; [done|]. left. split; [done|]. split; [done|]. exists r, ps. split; [|done].
        pose proof (sk_lo _ H). pose proof (sk_hi _ H). rewrite uwrap_small by lia.
        destruct W3 as [W31 W32 W33 W34 W35], Hs as [D1 D2 D3 D4 D5], F3 as [].
        split; esimpl; rewrite ?F1, ?F2; esimpl; try done; try congruence.
        -- intros s Hsr. apply F6. intros i Hi Heq. apply PBUFF_inj in Heq; lia.
        -- split_and!; [|congruence|congruence]. left. unfold appending in *. esimpl. congruence.
      * eexists _, (-1). split; [reflexivity|]. split; [done|]. right. split; [done|]. split; [done|]. split; esimpl; try done.
        -- apply Hones; lia.
        -- exists r, ps, l. split_and!; [done|congruence|by rewrite <- G3].
        -- split; [left; exact W2|]. eapply quota_ok_desc; done.
    + rewrite (vfwritev_closed f iovs); [|by rewrite (sd_mem _ _ Hs)|by rewrite (sd_open _ _ Hs)|by intros ->; apply Hr; rewrite <- Hlen].
      pose proof (zlen_nonneg (concat iovs)). destruct (Z.eqb_spec n (-1)); [lia|]. cbn [negb].
      eexists _, (-1). split; [reflexivity|]. split; [done|]. right. split; [done|]. split; [done|]. split; esimpl; try done.
      * apply Hones; lia.
      * exists r, ps, []. split_and!; [done|by rewrite app_nil_r|apply prefix_nil].
      * split; [right|done]. by rewrite (sd_mem _ _ Hs), (sd_open _ _ Hs).
Qed.

End Sink.
End SftpSink.
