(* ===== verification/SftpArrive.v ===== *)
(** * The sink of a transfer: an arriving packet

    The cases of sftp_DataArrived, each with the state it leaves, and that every one
    keeps the invariant of the sink. *)
From Stdlib Require Import ZArith Lia Bool.
From stdpp Require Import base list numbers gmap.
From S2P Require Import Prelude.
From S2P Require Import SftpMask.
From S2P Require Import SftpEntry.
From S2P Require Import SftpCode.
From S2P Require Import SftpFile.
From S2P Require Import SftpSink.
Import SftpMask SftpEntry SftpCode SftpFile SftpSink.
Open Scope Z_scope.

Module SftpArrive.
Section Arrive.
Context {env : SftpEnv}.
Context (Q : packet -> Prop) (HQ : forall p, Q p -> len_ok p /\ 0 <= SeqNumber p < 2 ^ 32) (HQs : stable Q).
Abbreviation sink_ok := (sink_ok Q).
Abbreviation run := (run Q).
Abbreviation flushed := (flushed Q).
Abbreviation failed := (failed Q).

(** ** Writes keep the invariant and what is in *)
Lemma flushed_sink_ok e e' r ps : sink_ok e -> flushed e e' r ps -> sink_ok e'.
Proof using.
  intros [Hm Hws Hlo Hhi Hwin Hb Hf Hq] [[_ [Hr0 Hr] _ _] H1 H2 [H3 H4] H5 H6 H7 (H8 & H9 & H10) [Hp _ _ _]].
  split; rewrite ?H1, ?H2, ?Hp; try done; try lia.
  - intros i Hi. pose proof (mbit_range _ _ Hi). rewrite H4 in Hi by lia. destruct (Hb _ Hi) as (L & p & P1 & P2 & P3).
    pose proof (mbit_range _ _ Hi). replace (RecvLastContig e + r + i) with (RecvLastContig e + (i + r)) by lia.
    split; [lia|]. exists p. rewrite H5 by lia. done.
  - unfold quota_ok, limited in *. rewrite H7, H10. intros El. specialize (Hq El).
    rewrite zlen_qcut. unfold limited. rewrite El. lia.
Qed.

Lemma flushed_got e e' r ps s : flushed e e' r ps -> got e' s <-> got e s.
Proof using.
  intros [[_ [Hr0 Hr] Hones _] H1 H2 [H3 H4] _ _ _ _ _]. unfold got. rewrite H1.
  destruct (decide (s <= RecvLastContig e)); [split; left; lia|].
  destruct (decide (s <= RecvLastContig e + r)).
  - split; [right; apply Hones; lia|left; lia].
  - rewrite H4 by lia. replace (s - (RecvLastContig e + r) + r) with (s - RecvLastContig e) by lia.
    split; (intros [?|?]; [lia|by right]).
Qed.

Lemma failed_sink_ok e e' : sink_ok e -> failed e e' -> sink_ok e'.
Proof using.
  intros [Hm Hws Hlo Hhi Hwin Hb Hf Hq] [H1 H1' H1'' H2 _ _ [H3 H4] [Hp _ _ _]].
  split; rewrite ?H1, ?H1', ?H1'', ?H2, ?Hp; done.
Qed.

Lemma qcut_app f f' a b : quota_ok f -> ByteQuota f' = ByteQuota f -> BytesTransferred f' = BytesTransferred f + zlen (qcut f a) ->
  qcut f a ++ qcut f' b = qcut f (a ++ b).
Proof using.
  intros Hq E1 E2. unfold qcut at 2 3. unfold qcut in E2 |- *. unfold limited in *. rewrite E1 in *.
  destruct (SFTP_EnforceQuota && (0 <? ByteQuota f)) eqn:El; [|done]. specialize (Hq El). rewrite take_app. f_equal. f_equal.
  rewrite E2. unfold zlen. rewrite length_take. unfold zlen. lia.
Qed.

(** Two writes are one. *)
Lemma flushed_trans e e1 e2 r1 r2 ps1 ps2 : sink_ok e -> flushed e e1 r1 ps1 -> flushed e1 e2 r2 ps2 -> flushed e e2 (r1 + r2) (ps1 ++ ps2).
Proof using.
  intros Hok [[[S1 S2] [Hr0 Hr] Hones Hg] H1 H2 [H3 H4] H5 H6 H7 (H8 & H9 & H10) Hf]
    [[[S1' S2'] [Hr0' Hr'] Hones' Hg'] H1' H2' [H3' H4'] H5' H6' H7' (H8' & H9' & H10') Hf'].
  assert (r1 + r2 <= 64) as H64 by (pose proof (sk_window _ _ Hok); pose proof (sk_ws _ _ Hok); lia).
  pose proof (qcut_app e e1 (concat (payload <$> ps1)) (concat (payload <$> ps2)) (sk_quota _ _ Hok) H10 H7) as Hq.
  split; [split|..]; rewrite ?H1', ?H2', ?H1, ?H2, ?fmap_app, ?concat_app; try lia; try done.
  - split; [rewrite zlen_app; lia|]. intros i p. rewrite lookup_app_Some. intros [Hp|[Hge Hp]]; [by apply S2|].
    pose proof (lookup_lt_Some _ _ _ Hp). unfold zlen in *. rewrite <- H5 by lia. rewrite <- (S2' _ _ Hp), H1. do 2 f_equal. lia.
  - intros i Hi. destruct (decide (i <= r1)); [apply Hones; lia|].
    pose proof (Hones' (i - r1) ltac:(lia)) as Hb. rewrite H4 in Hb by lia. by replace (i - r1 + r1) with i in Hb by lia.
  - intros i p. rewrite lookup_app_Some. intros [Hp|[Hge Hp]]; [by apply Hg|]. destruct (Hg' _ _ Hp) as [? ->].
    split; [done|]. unfold zlen in *. lia.
  - split; [done|]. intros q Hq1. rewrite H4', H4 by lia. f_equal. lia.
  - intros s Hs. rewrite H5', H5 by lia. done.
  - rewrite H6', H6, <- app_assoc, Hq. done.
  - rewrite H7', H7, <- Hq, zlen_app. lia.
  - split_and!; [done|congruence|congruence].
  - by etrans.
Qed.

Lemma flushed_refl e : sink_ok e -> flushed e e 0 [].
Proof using.
  intros [Hm Hws Hlo Hhi Hwin Hb Hf Hq].
  assert (qcut e (concat (payload <$> [])) = []) as Eq by (unfold qcut; destruct (limited e); [apply take_nil|done]).
  split; [split|..]; rewrite ?Eq, ?app_nil_r, ?zlen_nil; try done; try lia.
  split; [done|]. intros q _. by rewrite Z.add_0_r.
Qed.

(** ** Flags of stored packets *)
Definition reflagged (p p' : packet) : Prop :=
  exists v, p' = set_SEFlags v p /\ has v SFTP_MOREDATA = has (SEFlags p) SFTP_MOREDATA.
Definition recounted (m m' : gmap Z packet) : Prop := forall k, option_Forall2 reflagged (m !! k) (m' !! k).

#[local] Instance reflagged_refl : Reflexive reflagged.
Proof. intros p. exists (SEFlags p). split; [by destruct p|done]. Qed.
#[local] Instance recounted_refl : Reflexive recounted.
Proof. intros m k. by apply option_Forall2_refl, _. Qed.

Lemma reflagged_Q p p' : reflagged p p' -> Q p -> Q p'.
Proof using HQs. intros (v & -> & E) H. by apply HQs. Qed.

Lemma has_counted v : has (Z.lor v SFTP_COUNTED) SFTP_MOREDATA = has v SFTP_MOREDATA /\
  has (Z.ldiff v SFTP_COUNTED) SFTP_MOREDATA = has v SFTP_MOREDATA.
Proof using.
  unfold has, SFTP_COUNTED, SFTP_MOREDATA. change 1 with (Z.shiftl 1 0). rewrite !land_pm by lia.
  rewrite Z.lor_spec, Z.ldiff_spec. change (Z.testbit 32 0) with false. by rewrite orb_false_r, andb_true_r.
Qed.

Lemma recounted_put m m' i p p' : recounted m m' -> m' !! i = Some p -> reflagged p p' -> recounted m (<[i := p']> m').
Proof using.
  intros H Hp (v & -> & Hv) k. destruct (decide (k = i)) as [-> | N]; [|rewrite lookup_insert_ne by done; apply H].
  rewrite lookup_insert_eq. specialize (H i). rewrite Hp in H. inversion H as [q ? (w & -> & Hw)|]; subst.
  constructor. exists v. split; [done|]. by rewrite Hv.
Qed.

Lemma count_round_ok p e : sink_ok e -> exists m n, count_round p e = Ret (set_ThesePackets m e, n) /\ recounted (ThesePackets e) m.
Proof using HQ.
  intros Hok. unfold count_round. pose proof (sk_lo _ _ Hok). pose proof (sk_window _ _ Hok). pose proof (sk_ws _ _ Hok).
  destruct (forZ_total (fun k (st : entry * Z) => exists m, st.1 = set_ThesePackets m e /\ recounted (ThesePackets e) m)
    1 (RecvMostRecent e - RecvLastContig e + 1) (fun i (st : entry * Z) =>
    let (e, n) := st in
    let* b := TESTBIT (RecvTheseBits e) i in
    if negb b then Ret (e, n)
    else
      let* pb := getp e (RecvLastContig e + i) in
      if (PTimeEcho p <=? PTimeEcho pb) && negb (has (SEFlags pb) SFTP_COUNTED)
      then Ret (putp (RecvLastContig e + i) (set_SEFlags (Z.lor (SEFlags pb) SFTP_COUNTED) pb) e, n + LengthOfPacket pb)
      else Ret (e, n)) (e, 0)) as ([e' n] & -> & m & Hm & Hc); [lia| | |cbn in Hm; subst e'; by exists m, n].
  - exists (ThesePackets e). split; [by destruct e|done].
  - intros k [e1 n] Hk (m & Hm & Hc). cbn in Hm. subst e1. esimpl. rewrite TESTBIT_ok; [|apply (sk_mask _ _ Hok)|lia]. cbn [rbind].
    destruct (mbit (RecvTheseBits e) k) eqn:Eb; cbn [negb]; [|eexists; split; [reflexivity|]; by exists m].
    destruct (sk_bits _ _ Hok k Eb) as (_ & q & Hq & _). specialize (Hc (PBUFF (RecvLastContig e + k))) as Hck. rewrite Hq in Hck.
    inversion Hck as [? q' Hqq E1 E2|]; subst. unfold getp. esimpl. rewrite <- E2. cbn [rbind].
    destruct ((PTimeEcho p <=? PTimeEcho q') && negb (has (SEFlags q') SFTP_COUNTED)); (eexists; split; [reflexivity|]); [|by exists m].
    exists (<[PBUFF (RecvLastContig e + k) := set_SEFlags (Z.lor (SEFlags q') SFTP_COUNTED) q']> m). split; [reflexivity|].
    eapply recounted_put; [done|by rewrite <- E2|].
    eexists. split; [reflexivity|]. apply has_counted.
Qed.

(** ** Acceptance *)
Record accepted (p : packet) (e e1 : entry) : Prop := Accepted {
  ac_seq : RecvLastContig e < SeqNumber p <= RecvLastContig e + WindowSize e;
  ac_new : ~ got e (SeqNumber p);
  ac_last : RecvLastContig e1 = RecvLastContig e;
  ac_most : RecvMostRecent e1 = Z.max (RecvMostRecent e) (SeqNumber p);
  ac_mask : mask_ok (RecvTheseBits e1) /\ forall q, mbit (RecvTheseBits e1) q = (SeqNumber p - RecvLastContig e =? q) || mbit (RecvTheseBits e) q;
  ac_slots : recounted (<[PBUFF (SeqNumber p) := p]> (ThesePackets e)) (ThesePackets e1);
  ac_file : e_file e1 = e_file e;
  ac_frame : frame e e1
}.

Lemma accepted_sink_ok p e e1 : Q p -> sink_ok e -> accepted p e e1 -> sink_ok e1.
Proof using HQ HQs.
  intros Hp [Hm Hws Hlo Hhi Hwin Hb Hf Hq] [H1 H2 H3 H4 [H5 H6] H7 H8 [Hpar _ _ _]]. destruct (HQ p Hp) as [_ Hrange].
  split; rewrite ?H3, ?H4, ?H8, ?Hpar; try done; try lia.
  intros i. rewrite H6. intros Hi.
  assert (exists q, <[PBUFF (SeqNumber p):=p]> (ThesePackets e) !! PBUFF (RecvLastContig e + i) = Some q /\ Q q /\ SeqNumber q = RecvLastContig e + i /\
    RecvLastContig e + i <= RecvMostRecent e `max` SeqNumber p) as (q & Q1 & Q2 & Q3 & Q4).
  { destruct (Z.eqb_spec (SeqNumber p - RecvLastContig e) i) as [Ei|N].
    - exists p. replace (RecvLastContig e + i) with (SeqNumber p) by lia. rewrite lookup_insert_eq.
      split_and!; try done; lia.
    - cbn in Hi. destruct (Hb i Hi) as (L & q & Q1 & Q2 & Q3). exists q. pose proof (mbit_range _ _ Hi).
      rewrite lookup_insert_ne; [split_and!; try done; lia|]. intros E. apply PBUFF_inj in E; lia. }
  split; [done|]. specialize (H7 (PBUFF (RecvLastContig e + i))). rewrite Q1 in H7. inversion H7 as [? q' Hqq E1 E2|]; subst.
  exists q'. split; [done|]. split; [eapply reflagged_Q; done|]. destruct Hqq as (v & -> & _). done.
Qed.

Lemma accepted_got p e e1 s : accepted p e e1 -> got e1 s <-> s = SeqNumber p \/ got e s.
Proof using.
  intros [H1 _ H3 _ [_ H6] _ _ _]. unfold got. rewrite H3, H6. destruct (Z.eqb_spec (SeqNumber p - RecvLastContig e) (s - RecvLastContig e)).
  - assert (s = SeqNumber p) by lia. cbn. tauto.
  - cbn. split; [intros [?|?]; right; tauto|]. intros [-> | ?]; [lia|done].
Qed.

(** Are all packets that we know of in? *)
Definition complete (e : entry) : Prop := forall s, s <= RecvMostRecent e -> got e s.

Lemma all_in_ok e : sink_ok e -> exists b, all_in e = Ret b /\ (b = true <-> complete e).
Proof using.
  intros Hok. unfold all_in. pose proof (sk_lo _ _ Hok). pose proof (sk_window _ _ Hok). pose proof (sk_ws _ _ Hok).
  destruct (for_range_rule (fun k (_ : unit) => forall i, 1 <= i < k -> mbit (RecvTheseBits e) i = true)
     (fun k (_ : unit) => mbit (RecvTheseBits e) k = false) 1 (RecvMostRecent e - RecvLastContig e + 1) (fun i (_ : unit) =>
    let* b := TESTBIT (RecvTheseBits e) i in if b then Ret (inl tt) else Ret (inr tt)) tt)
    as [([] & -> & H2)|(k & [] & Hk & -> & H2)]; [lia|lia| | |].
  - intros k [] Hk H2. rewrite TESTBIT_ok; [|apply (sk_mask _ _ Hok)|lia]. cbn [rbind]. destruct (mbit _ k) eqn:E; [left|right]; eexists; (split; [reflexivity|]); [|done].
    intros i Hi. destruct (decide (i = k)) as [-> |]; [done|apply H2; lia].
  - exists true. split; [done|]. split; [intros _|done]. intros s Hs. unfold got. destruct (decide (s <= RecvLastContig e)); [by left|right]. apply H2. lia.
  - exists false. split; [done|]. split; [done|]. intros Hc. destruct (Hc (RecvLastContig e + k)) as [?|Hb]; [lia|lia|].
    replace (RecvLastContig e + k - RecvLastContig e) with k in Hb by lia. congruence.
Qed.

(** ** Entries with the same receiving half *)
Record core (e e' : entry) : Prop := Core {
  co_last : RecvLastContig e' = RecvLastContig e;
  co_most : RecvMostRecent e' = RecvMostRecent e;
  co_mask : RecvTheseBits e' = RecvTheseBits e;
  co_slots : ThesePackets e' = ThesePackets e;
  co_file : e_file e' = e_file e;
  co_frame : frame e e'
}.

Lemma core_sink_ok e e' : core e e' -> sink_ok e -> sink_ok e'.
Proof using. intros [C1 C2 C3 C4 C5 [C6 _ _ _]] []. split; rewrite ?C1, ?C2, ?C3, ?C4, ?C5, ?C6; done. Qed.

Lemma core_run e e' r ps : core e e' -> run e' r ps -> run e r ps.
Proof using.
  intros [C1 C2 C3 C4 C5 _] [[H1 H2] H3 H4 H5]. rewrite C1, C4 in H2. rewrite C1, C2 in H3. rewrite C3 in H4. rewrite C1 in H5. by split; [split|..].
Qed.

Lemma core_flushed e e' e'' r ps : core e e' -> flushed e' e'' r ps -> flushed e e'' r ps.
Proof using.
  intros C [H1 H2 H3 H4 H5 H6 H7 H8 H9]. pose proof (core_run _ _ _ _ C H1) as H1'. destruct C as [C1 C2 C3 C4 C5 C6].
  rewrite C1 in H2. rewrite C2 in H3. rewrite C3 in H4. rewrite C1, C4 in H5. rewrite C5 in H6, H7, H8.
  split; try done. by etrans.
Qed.

Lemma core_failed e e' e'' : core e e' -> failed e' e'' -> failed e e''.
Proof using.
  intros C [H1 H1' H1'' H2 H3 (r & ps & l & Hr & Hd & Hl) H5 H6]. pose proof (core_run _ _ _ _ C Hr) as Hr'. destruct C as [C1 C2 C3 C4 C5 C6].
  rewrite C3 in H3. rewrite C5 in Hd, Hl. split; try congruence; [by exists r, ps, l|by etrans].
Qed.

Lemma core_describes e e' p : core e e' -> describes e' p -> describes e p.
Proof using. intros [C1 C2 C3 C4 C5 [_ C6 _ _]]. unfold describes, got. by rewrite C1, C3, C6. Qed.

Lemma core_got e e' s : core e e' -> got e' s <-> got e s.
Proof using. intros [C1 C2 C3 _ _ _]. unfold got. by rewrite C1, C3. Qed.

(** ** The cases of sftp_DataArrived *)

(** What an ack followed by a write comes to. *)
Inductive written (e e' : entry) (rc : Z) : Prop :=
| wr_ok r ps : rc = 0 -> flushed e e' r ps -> mbit (RecvTheseBits e) (r + 1) = false -> phase e' = phase e -> written e e' rc
| wr_failed : rc = -1 -> failed e e' -> phase e' = (DISKERROR, XferState e, HitEOF e) -> written e e' rc.

Lemma ack_write e : sink_ok e -> exists e' rc p, (let* e := sftp_SendAck e in sftp_WriteStrategy e) = Ret (e', rc) /\
  describes e p /\ outs e' = outs e ++ [p] /\ written e e' rc /\ (rc = 0 -> GotEmAll p <= RecvLastContig e').
Proof using HQ.
  intros Hok. destruct (sftp_SendAck_ok Q HQ e Hok) as (e1 & p & -> & Hd & Ho & Hf & Hph & Hfile & Hsl & Hsk). cbn [rbind].
  assert (core e e1) as C by (split; rewrite ?Hsk; done).
  destruct (sftp_WriteStrategy_ok Q HQ e1 (core_sink_ok _ _ C Hok)) as (e2 & rc & E & Ho2 & Hw).
  exists e2, rc, p. split; [done|]. split; [done|]. split; [congruence|]. injection Hph as P1 P2 P3.
  destruct Hw as [(-> & Hp & r & ps & Hfl & Hb)|(-> & Hp & Hfa)].
  - rewrite (co_mask _ _ C) in Hb. split.
    + eapply wr_ok; [done|by eapply core_flushed|done|rewrite Hp; unfold phase; congruence].
    + intros _. rewrite (fl_last _ _ _ _ _ Hfl), (co_last _ _ C). destruct Hd as (_ & _ & _ & _ & Hd & _).
      destruct (run_end _ _ _ _ (fl_run _ _ _ _ _ Hfl)) as [Hr _].
      destruct (decide (GotEmAll p <= RecvLastContig e + r)); [done|]. destruct (Hd (RecvLastContig e + (r + 1))) as [?|Hbit]; [lia|lia|].
      replace (RecvLastContig e + (r + 1) - RecvLastContig e) with (r + 1) in Hbit by lia. congruence.
  - split; [|done]. eapply wr_failed; [done|by eapply core_failed|rewrite Hp; congruence].
Qed.

(** Nothing happened. *)
Record idle (e e' : entry) : Prop := Idle { id_core : core e e'; id_phase : phase e' = phase e; id_outs : outs e' = outs e }.

(** Acks that name no packet as written before it is. *)
Definition behind (e : entry) (acks : list packet) : Prop := Forall (fun p => GotEmAll p <= RecvLastContig e) acks.

Lemma behind_mono (e e' : entry) acks : RecvLastContig e <= RecvLastContig e' -> behind e acks -> behind e' acks.
Proof using. intros Hle H. eapply Forall_impl; [exact H|]. cbn. lia. Qed.

Inductive arrival (p : packet) (e e' : entry) : Z -> Prop :=
| arr_dropped : 0 < SFTP_MaxPackets -> idle e e' -> arrival p e e' 0
| arr_rejected : RecvLastContig e + WindowSize e < SeqNumber p -> idle e e' -> arrival p e e' (-1)
| arr_dup acks r ps : got e (SeqNumber p) -> flushed e e' r ps -> phase e' = phase e ->
    outs e' = outs e ++ acks -> Forall (describes e) acks -> behind e' acks -> arrival p e e' 0
| arr_dup_failed acks : got e (SeqNumber p) -> failed e e' -> phase e' = (DISKERROR, XferState e, HitEOF e) ->
    outs e' = outs e ++ acks -> Forall (describes e) acks -> arrival p e e' (-1)
| arr_more e1 acks r ps : accepted p e e1 -> flushed e1 e' r ps ->
    ~ (HitEOF e || negb (has (SEFlags p) SFTP_MOREDATA) = true /\ complete e1) ->
    phase e' = (WhoAmI e, XferInProgress, HitEOF e || negb (has (SEFlags p) SFTP_MOREDATA)) ->
    outs e' = outs e ++ acks -> Forall (describes e1) acks -> behind e' acks -> arrival p e e' 0
| arr_done e1 acks r ps : accepted p e e1 -> flushed e1 e' r ps ->
    HitEOF e || negb (has (SEFlags p) SFTP_MOREDATA) = true -> complete e1 -> RecvLastContig e' = RecvMostRecent e' ->
    phase e' = (WhoAmI e, XferCompleted, true) ->
    outs e' = outs e ++ acks -> Forall (describes e1) acks -> behind e' acks -> arrival p e e' 0
| arr_failed e1 acks : accepted p e e1 -> failed e1 e' -> WhoAmI e' = DISKERROR -> XferState e' = XferInProgress ->
    outs e' = outs e ++ acks -> Forall (describes e1) acks -> arrival p e e' (-1).

Lemma recounted_trans m1 m2 m3 : recounted m1 m2 -> recounted m2 m3 -> recounted m1 m3.
Proof using.
  intros H1 H2 k. specialize (H1 k). specialize (H2 k). inversion H1 as [p p' (v & -> & Hv) E1 E2|E1 E2]; rewrite <- E2 in H2;
    inversion H2 as [? p'' (w & -> & Hw)|]; subst; constructor. exists w. split; [done|]. by rewrite Hw, <- Hv.
Qed.

Lemma store_packet_ok p e : Q p -> sink_ok e -> RecvLastContig e < SeqNumber p <= RecvLastContig e + WindowSize e -> ~ got e (SeqNumber p) ->
  exists e1, store_packet p e = Ret e1 /\ accepted p e e1 /\ phase e1 = (WhoAmI e, XferInProgress, HitEOF e) /\ outs e1 = outs e.
Proof using HQ HQs.
  intros Hp Hok Hseq Hnew. unfold store_packet. cbv zeta. pose proof (sk_ws _ _ Hok). pose proof Hok as [Hm _ _ _ _ _ _ _].
  set (eb := set_XferState XferInProgress _).
  assert (exists e1, eb = e1 /\ core e e1 /\ phase e1 = (WhoAmI e, XferInProgress, HitEOF e) /\ outs e1 = outs e) as (e1 & -> & C & Hph & Ho).
  { eexists. split; [reflexivity|]. unfold eb. destruct (TimeEcho _ <? TimeStamp p); (split; [by split|done]). }
  rewrite (co_last _ _ C), (co_mask _ _ C).
  destruct (SETBIT_ok (RecvTheseBits e) (SeqNumber p - RecvLastContig e) Hm ltac:(lia)) as (m & -> & M1 & M2). cbn [rbind].
  set (p' := set_SEFlags (Z.ldiff (SEFlags p) SFTP_COUNTED) p). set (e2 := putp _ _ _).
  assert (accepted p e e2 /\ phase e2 = (WhoAmI e, XferInProgress, HitEOF e) /\ outs e2 = outs e) as (A & Hph2 & Ho2).
  { destruct C as [C1 C2 C3 C4 C5 C6]. unfold e2, p'. esimpl. rewrite C2.
    assert (recounted (<[PBUFF (SeqNumber p):=p]> (ThesePackets e)) (<[PBUFF (SeqNumber p):=set_SEFlags (Z.ldiff (SEFlags p) SFTP_COUNTED) p]> (ThesePackets e))) as Hr.
    { intros k. destruct (decide (k = PBUFF (SeqNumber p))) as [-> | N]; [|rewrite !lookup_insert_ne by done; apply recounted_refl].
      rewrite !lookup_insert_eq. constructor. eexists. split; [reflexivity|]. apply has_counted. }
    rewrite Z.gtb_ltb. destruct (Z.ltb_spec (RecvMostRecent e) (SeqNumber p)); esimpl; (split; [|done]);
      split; esimpl; rewrite ?C1, ?C2, ?C4; try done; try lia; by destruct C6; split. }
  clearbody e2. change (Flags p') with (Flags p). change (PTimeEcho p') with (PTimeEcho p).
  destruct (has (Flags p) SFTP_ACKME && negb (PTimeEcho p =? 0)); [|by exists e2].
  destruct (count_round_ok p' e2) as (m' & n & -> & Hm'); [by eapply accepted_sink_ok|]. cbn [rbind].
  assert (accepted p e (set_ThesePackets m' e2)) as A'.
  { destruct A as [A1 A2 A3 A4 A5 A6 A7 A8]. split; esimpl; try done; [by eapply recounted_trans|by destruct A8; split]. }
  destruct (n =? 0); (eexists; split; [reflexivity|]); split_and!; try done.
  destruct A' as [A1 A2 A3 A4 A5 A6 A7 []]. split; try done.
Qed.

(** A write leaves its outcome in any entry with the same receiving half. *)
Lemma flushed_core e e' e'' r ps : flushed e e' r ps -> core e' e'' -> flushed e e'' r ps.
Proof using.
  intros [F1 F2 F3 F4 F5 F6 F7 F8 F9] [D1 D2 D3 D4 D5 D6]. split; rewrite ?D1, ?D2, ?D3, ?D4, ?D5; try done. by etrans.
Qed.

Lemma finish_arrival_ok p e1 e3 e r ps acks : accepted p e e1 -> sink_ok e1 -> flushed e1 e3 r ps ->
  (core e1 e3 \/ mbit (RecvTheseBits e3) 1 = false) -> WhoAmI e3 = WhoAmI e -> XferState e3 = XferInProgress -> HitEOF e3 = HitEOF e ->
  outs e3 = outs e ++ acks -> Forall (describes e1) acks -> behind e3 acks ->
  exists e' rc, finish_arrival p e3 = Ret (e', rc) /\ arrival p e e' rc.
Proof using HQ HQs.
  intros A Hok1 Hfl Hr Hw Hx He Ho Ha Hbe. unfold finish_arrival. rewrite He.
  pose proof (flushed_sink_ok _ _ _ _ Hok1 Hfl) as Hok3.
  assert (complete e3 <-> complete e1) as Hcompl.
  { unfold complete. rewrite (fl_most _ _ _ _ _ Hfl). by setoid_rewrite (flushed_got _ _ _ _ _ Hfl). }
  destruct (has (SEFlags p) SFTP_MOREDATA && negb (HitEOF e)) eqn:Emore.
  { eexists _, 0. split; [reflexivity|]. apply andb_true_iff in Emore as [Em Ee]. apply negb_true_iff in Ee.
    eapply arr_more; [done|done| | |done|done|done]; rewrite Em, Ee; [by intros [? _]|]. unfold phase. by rewrite Hw, Hx, He, Ee. }
  assert (HitEOF e || negb (has (SEFlags p) SFTP_MOREDATA) = true) as Heof.
  { destruct (has (SEFlags p) SFTP_MOREDATA), (HitEOF e); done. }
  set (e4 := if has (SEFlags p) SFTP_MOREDATA then e3 else set_HitEOF true e3).
  assert (core e3 e4 /\ phase e4 = (WhoAmI e, XferInProgress, true) /\ outs e4 = outs e3) as (C4 & Hph4 & Ho4).
  { unfold e4, phase. destruct (has (SEFlags p) SFTP_MOREDATA) eqn:Em; esimpl; rewrite Hw, Hx; [|split_and!; [by split|done..]].
    split_and!; [by split| |done]. rewrite He. rewrite orb_false_r in Heof. by rewrite Heof. }
  clearbody e4. pose proof (core_sink_ok _ _ C4 Hok3) as Hok4. destruct (all_in_ok e4 Hok4) as (b & -> & Hb). cbn [rbind].
  assert (complete e4 <-> complete e1) as Hcompl4.
  { rewrite <- Hcompl. unfold complete. rewrite (co_most _ _ C4). setoid_rewrite (core_got _ _ _ C4). done. }
  destruct b; cbn [negb].
  2:{ eexists _, 0. split; [reflexivity|]. eapply arr_more; [done|by eapply flushed_core| |by rewrite Heof|by rewrite Ho4|done|eapply behind_mono; [|exact Hbe]; by rewrite (co_last _ _ C4)].
      intros [_ Hc]. apply Hcompl4, Hb in Hc. done. }
  assert (complete e4) as Hc4 by (by apply Hb). destruct (sftp_WriteStrategy_ok Q HQ e4 Hok4) as (e5 & rc & -> & Ho5 & Hwr). cbn [rbind].
  destruct Hwr as [(-> & Hph5 & r2 & ps2 & Hfl2 & Hstop)|(-> & Hph5 & Hfa)]; cbn.
  - eexists _, 0. split; [reflexivity|]. pose proof (flushed_trans _ _ _ _ _ _ _ Hok1 (flushed_core _ _ _ _ _ Hfl C4) Hfl2) as Hfl'.
    set (e6 := set_XferState XferCompleted e5).
    assert (flushed e1 (sftp_vfclose e6) (r + r2) (ps ++ ps2)) as Hfl6.
    { destruct Hfl' as [F1 F2 F3 F4 F5 F6 F7 F8 F9]. unfold sftp_vfclose, e6. split; esimpl; try done.
      - destruct (vf_mem e5 || negb (vf_open e5)); done.
      - destruct (vf_mem e5 || negb (vf_open e5)); done.
      - destruct (vf_mem e5 || negb (vf_open e5)) eqn:Ec; [done|]. apply orb_false_iff in Ec as [Ec _].
        destruct F8 as (_ & F82 & F83). split_and!; [by right|done|done].
      - by destruct F9; split. }
    eapply arr_done; [done|done|done|by apply Hcompl4| | |unfold e6, sftp_vfclose; esimpl; rewrite Ho5, Ho4; exact Ho|done|].
    + unfold e6, sftp_vfclose. esimpl. rewrite (fl_last _ _ _ _ _ Hfl2), (fl_most _ _ _ _ _ Hfl2).
      pose proof (run_end _ _ _ _ (fl_run _ _ _ _ _ Hfl2)). destruct (decide (RecvLastContig e4 + r2 = RecvMostRecent e4)); [done|].
      destruct (Hc4 (RecvLastContig e4 + r2 + 1)) as [?|Hbit]; [lia|lia|].
      replace (RecvLastContig e4 + r2 + 1 - RecvLastContig e4) with (r2 + 1) in Hbit by lia. congruence.
    + unfold phase, e6, sftp_vfclose in *. esimpl. congruence.
    + eapply behind_mono; [|exact Hbe]. unfold e6, sftp_vfclose. esimpl. rewrite (fl_last _ _ _ _ _ Hfl2), (co_last _ _ C4).
      destruct (run_end _ _ _ _ (fl_run _ _ _ _ _ Hfl2)). lia.
  - eexists _, (-1). split; [reflexivity|]. destruct Hr as [C|Hr].
    + injection Hph5 as P1 P2 P3. injection Hph4 as P4 P5 P6.
      eapply arr_failed; [done|eapply core_failed; [|exact Hfa]|done|congruence|rewrite Ho5, Ho4; exact Ho|done].
      destruct C as [C1 C2 C3 C5 C6 C7], C4 as [D1 D2 D3 D5 D6 D7]. split; try congruence. by etrans.
    + pose proof (fa_some _ _ _ Hfa) as Hs. rewrite (co_mask _ _ C4), Hr in Hs. done.
Qed.

Lemma sftp_DataArrived_ok p e : Q p -> sink_ok e -> exists e' rc, sftp_DataArrived p e = Ret (e', rc) /\ arrival p e e' rc.
Proof using HQ HQs.
  intros Hp Hok0. unfold sftp_DataArrived. cbv zeta.
  set (e0 := if decide (WhoAmI e = SFSERVER) then set_SentParms true e else e).
  assert (core e e0 /\ phase e0 = phase e /\ outs e0 = outs e) as (C0 & Hph0 & Ho0).
  { unfold e0. destruct (decide (WhoAmI e = SFSERVER)); (split; [by split|done]). }
  clearbody e0. pose proof (core_sink_ok _ _ C0 Hok0) as Hok. pose proof Hph0 as Hph. injection Hph as W0 X0 E0.
  assert (forall x, core e0 x -> core e x) as Cx by (intros x [D1 D2 D3 D4 D5 D6]; destruct C0 as [C1 C2 C3 C4 C5 C6]; split; try congruence; by etrans).
  destruct ((0 <? SFTP_MaxPackets) && (PacketsInUse e0 >? SFTP_MaxPackets)) eqn:Emax.
  { eexists _, 0. split; [reflexivity|]. apply andb_true_iff in Emax as [Emax _]. apply Z.ltb_lt in Emax. apply arr_dropped; [done|].
    split; [apply Cx; by split|done|done]. }
  rewrite Z.gtb_ltb. destruct (Z.ltb_spec (WindowSize e0) (SeqNumber p - RecvLastContig e0)) as [Hlt|Hle].
  { eexists _, (-1). split; [reflexivity|]. apply arr_rejected; [|by split; [apply Cx; by split|..]].
    rewrite <- (co_last _ _ C0), <- (fr_parms _ _ (co_frame _ _ C0)). lia. }
  assert (exists seen, (if SeqNumber p - RecvLastContig e0 <=? 0 then Ret true else TESTBIT (RecvTheseBits e0) (SeqNumber p - RecvLastContig e0)) = Ret seen /\
    (seen = true <-> got e0 (SeqNumber p)) /\ (seen = false -> RecvLastContig e0 < SeqNumber p)) as (seen & -> & Hseen & Hnew).
  { unfold got. destruct (Z.leb_spec (SeqNumber p - RecvLastContig e0) 0).
    - eexists. split; [reflexivity|]. split; [|done]. split; [left; lia|done].
    - rewrite TESTBIT_ok; [|apply (sk_mask _ _ Hok)|pose proof (sk_ws _ _ Hok); lia]. eexists. split; [reflexivity|]. split; [|lia].
      split; [by right|]. intros [?|?]; [lia|done]. }
  cbn [rbind]. destruct seen.
  - assert (got e (SeqNumber p)) as Hg by (apply (core_got _ _ _ C0), Hseen; done). esimpl.
    set (e1 := set_DupsSinceAck _ e0). assert (core e0 e1) as C1 by by split. pose proof (Cx _ C1) as C2.
    destruct (bool_decide (WhoAmI e0 = SFSERVER) && (has (Flags p) SFTP_ACKME || (u32 (DupsSinceAck e0 + 1) >? DupThreshold e0))).
    + destruct (ack_write e1 (core_sink_ok _ _ C1 Hok)) as (e2 & rc & q & E & Hd & Ho & Hw & Hgq).
      destruct (sftp_SendAck e1) as [e1'|] eqn:Esa; cbn [rbind] in E |- *; [|done]. rewrite E. cbn [rbind].
      assert (Forall (describes e) [q]) as Hda by (constructor; [by eapply core_describes|done]).
      assert (phase e1 = phase e) as Hph1 by done. injection Hph1 as W1 X1 E1.
      destruct Hw as [r ps -> Hfl _ Hph2| -> Hfa Hph2]; cbn.
      * eexists _, 0. split; [reflexivity|]. eapply arr_dup; [done|eapply flushed_core; [by eapply core_flushed|by split]|by rewrite <- Hph0|by rewrite <- Ho0|done|constructor; [by apply Hgq|done]].
      * eexists _, (-1). split; [reflexivity|]. eapply arr_dup_failed; [done|by eapply core_failed|rewrite Hph2; unfold e1; esimpl; congruence|by rewrite <- Ho0|done].
    + eexists _, 0. split; [reflexivity|]. eapply (arr_dup _ _ _ []); [done|eapply core_flushed; [exact C2|apply flushed_core with e1; [by apply flushed_refl, (core_sink_ok _ _ C2)|by split]]|done|by rewrite app_nil_r|done|constructor].
  - assert (~ got e0 (SeqNumber p)) as Hng by (intros ?%Hseen; done).
    destruct (store_packet_ok p e0 Hp Hok) as (e1 & -> & A & Hph1 & Ho1); [specialize (Hnew eq_refl); lia|done|]. cbn [rbind].
    assert (accepted p e e1) as A'.
    { destruct A as [A1 A2 A3 A4 A5 A6 A7 A8], C0 as [C1 C2 C3 C4 C5 C6].
      rewrite C1, (fr_parms _ _ C6) in A1. split; try congruence; [|rewrite <- C1, <- C3; done|by rewrite <- C4|by etrans].
      intros Hg. apply A2. unfold got in *. by rewrite C1, C3. }
    pose proof (accepted_sink_ok _ _ _ Hp Hok A) as Hok1. injection Hph1 as W1 X1 E1.
    destruct (has (Flags p) SFTP_ACKME || _).
    + destruct (ack_write e1 Hok1) as (e2 & rc & q & -> & Hd & Ho & Hw & Hgq). cbn [rbind].
      assert (Forall (describes e1) [q]) as Hda by by constructor.
      destruct Hw as [r ps -> Hfl Hstop Hph2| -> Hfa Hph2]; cbn.
      * injection Hph2 as W2 X2 E2. eapply (finish_arrival_ok p e1 e2 e r ps [q]); try done; try congruence.
        { right. rewrite (proj2 (fl_mask _ _ _ _ _ Hfl)) by lia. rewrite Z.add_comm. done. }
        constructor; [by apply Hgq|done].
      * injection Hph2 as W2 X2 E2. eexists _, (-1). split; [reflexivity|]. eapply arr_failed; [done|done|done|congruence|rewrite Ho, Ho1, Ho0; done|done].
    + cbn. eapply (finish_arrival_ok p e1 e1 e 0 [] []); try done; try congruence; [by apply flushed_refl|by left|rewrite app_nil_r; congruence|constructor].
Qed.

(** Every case keeps the invariant; nothing that was in is lost, nothing but the packet comes in. *)
Lemma arrival_sink_ok p e e' rc : Q p -> sink_ok e -> arrival p e e' rc -> sink_ok e' /\
  (forall s, got e s -> got e' s) /\ (forall s, got e' s -> got e s \/ s = SeqNumber p) /\ frame e e'.
Proof using HQ HQs.
  intros Hp Hok. assert (forall e2, failed e e2 -> forall s, got e2 s <-> got e s) as Hf.
  { intros e2 [H1 _ H2 _ _ _ _ _] s. unfold got. by rewrite H1, H2. }
  assert (forall e1 e2, failed e1 e2 -> forall s, got e2 s <-> got e1 s) as Hf'.
  { intros e1 e2 [H1 _ H2 _ _ _ _ _] s. unfold got. by rewrite H1, H2. }
  intros [H1 [C _ _]|H1 [C _ _]|acks r ps Hg Hfl _ _ _ _|acks Hg Hfa _ _ _|e1 acks r ps A Hfl _ _ _ _ _|e1 acks r ps A Hfl _ _ _ _ _ _ _|e1 acks A Hfa _ _ _ _].
  1,2: split; [by eapply core_sink_ok|]; split_and!; [intros s; by rewrite (core_got _ _ _ C)|intros s; rewrite (core_got _ _ _ C); by left|apply C].
  - split; [by eapply flushed_sink_ok|]. split_and!; [intros s; by rewrite (flushed_got _ _ _ _ _ Hfl)|intros s; rewrite (flushed_got _ _ _ _ _ Hfl); by left|apply Hfl].
  - split; [by eapply failed_sink_ok|]. split_and!; [intros s; by rewrite (Hf _ Hfa)|intros s; rewrite (Hf _ Hfa); by left|apply Hfa].
  - pose proof (accepted_sink_ok _ _ _ Hp Hok A) as Hok1. split; [by eapply flushed_sink_ok|].
    split_and!; [intros s|intros s|etrans; [apply A|apply Hfl]]; rewrite (flushed_got _ _ _ _ _ Hfl), (accepted_got _ _ _ _ A); tauto.
  - pose proof (accepted_sink_ok _ _ _ Hp Hok A) as Hok1. split; [by eapply flushed_sink_ok|].
    split_and!; [intros s|intros s|etrans; [apply A|apply Hfl]]; rewrite (flushed_got _ _ _ _ _ Hfl), (accepted_got _ _ _ _ A); tauto.
  - pose proof (accepted_sink_ok _ _ _ Hp Hok A) as Hok1. split; [by eapply failed_sink_ok|].
    split_and!; [intros s|intros s|etrans; [apply A|apply Hfa]]; rewrite (Hf' _ _ Hfa), (accepted_got _ _ _ _ A); tauto.
Qed.

Lemma sftp_SendTrigger_ok e : sink_ok e -> exists e' rc p, sftp_SendTrigger e = Ret (e', rc) /\ describes e p /\ outs e' = outs e ++ [p] /\ written e e' rc /\
  (rc = 0 -> GotEmAll p <= RecvLastContig e').
Proof using HQ.
  intros Hok. destruct (ack_write e Hok) as (e2 & rc & q & E & Hd & Ho & Hw & Hgq). unfold sftp_SendTrigger.
  destruct (sftp_SendAck e) as [e1|]; cbn [rbind] in E |- *; [|done]. rewrite E. cbn [rbind].
  exists e2, rc, q. split; [destruct Hw as [? ? -> _ _ _| -> _ _]; done|done].
Qed.

End Arrive.
End SftpArrive.
