(* ===== verification/SftpSource.v ===== *)
(** * The source of a transfer

    A file cut into packets, the invariant of the sending half of the entry, and that
    the routines of the source keep it: every packet that is sent is the piece of the
    file that its number says, and the routines neither read a missing packet nor fail
    an assert. *)
From Stdlib Require Import ZArith Lia Bool.
From stdpp Require Import base list numbers gmap.
From S2P Require Import Prelude.
From S2P Require Import SftpMask.
From S2P Require Import SftpEntry.
From S2P Require Import SftpCode.
From S2P Require Import SftpFile.
Import SftpMask SftpEntry SftpCode SftpFile.
Open Scope Z_scope.

Module SftpSource.

(** ** A file as packets *)
Section Pieces.
Context (F : list Z) (P : parms) (S0 call : Z).

Definition piece_len : Z := PacketSize P - HDR.
Definition batch : Z := SendAhead P * piece_len.

(** How many packets the file takes: a last batch that is empty still has one. *)
Definition npackets : Z :=
  zlen F / batch * SendAhead P +
  (if zlen F mod batch =? 0 then 1 else (zlen F mod batch + piece_len - 1) / piece_len).

Definition piece (k : Z) : list Z := bytes_at F ((k - 1) * piece_len) piece_len.

(** Packet [SeqNumber p] of the transfer. *)
Record data_packet (p : packet) : Prop := DataPacket {
  dp_op : Opcode p = SFTP_DATA;
  dp_seq : S0 < SeqNumber p <= S0 + npackets;
  dp_len : len_ok p;
  dp_body : payload p = piece (SeqNumber p - S0);
  dp_more : has (SEFlags p) SFTP_MOREDATA = (SeqNumber p <? S0 + npackets);
  dp_call : ThisRPCCall p = call
}.

(** The parameters the two ends agree on. *)
Record geometry : Prop := Geometry {
  ge_ahead : 1 <= SendAhead P <= WindowSize P;
  ge_window : WindowSize P <= 64;
  ge_size : HDR < PacketSize P <= RPC2_MAXPACKETSIZE;
  ge_seq : 0 <= S0 /\ S0 + npackets + 64 < 2 ^ 32
}.

Lemma piece_len_pos : geometry -> 1 <= piece_len <= 4440.
Proof using. intros []. unfold piece_len, HDR, RPC2_MAXPACKETSIZE in *. lia. Qed.

Lemma batch_pos : geometry -> piece_len <= batch <= 64 * 4440.
Proof using. intros G. pose proof (piece_len_pos G). destruct G. unfold batch. nia. Qed.

(** The packets up to the one that ends the file. *)
Lemma npackets_at q : geometry -> 0 <= q -> q * batch <= zlen F < (q + 1) * batch ->
  npackets = q * SendAhead P + (if zlen F - q * batch =? 0 then 1 else (zlen F - q * batch + piece_len - 1) / piece_len).
Proof using.
  intros G Hq Hr. pose proof (batch_pos G). pose proof (piece_len_pos G). unfold npackets.
  assert (zlen F / batch = q) as -> by (symmetry; apply (Z.div_unique _ _ _ (zlen F - q * batch)); lia).
  assert (zlen F mod batch = zlen F - q * batch) as -> by (symmetry; apply (Z.mod_unique _ _ q); lia). done.
Qed.

Lemma npackets_bounds : geometry -> 1 <= npackets /\ (npackets - 1) * piece_len <= zlen F <= npackets * piece_len.
Proof using.
  intros G. pose proof (batch_pos G). pose proof (piece_len_pos G). pose proof (zlen_nonneg F).
  pose proof (Z.div_mod (zlen F) batch ltac:(lia)) as E. pose proof (Z.mod_pos_bound (zlen F) batch ltac:(lia)).
  set (q := zlen F / batch) in *. set (m := zlen F mod batch) in *. assert (0 <= q) by (apply Z.div_pos; lia).
  unfold npackets. fold q m. destruct G. unfold batch in *. destruct (Z.eqb_spec m 0) as [E0|].
  - rewrite E0 in *. nia.
  - pose proof (Z.div_mod (m + piece_len - 1) piece_len ltac:(lia)) as E'. pose proof (Z.mod_pos_bound (m + piece_len - 1) piece_len ltac:(lia)).
    set (c := (m + piece_len - 1) / piece_len) in *. nia.
Qed.

Lemma zlen_bytes_at d pos n : 0 <= pos -> 0 <= n -> zlen (bytes_at d pos n) = Z.max 0 (Z.min n (zlen d - pos)).
Proof using. intros. unfold bytes_at, zlen. rewrite length_take, length_drop. lia. Qed.

Lemma data_packet_keep p p' : data_packet p -> Opcode p' = Opcode p -> SeqNumber p' = SeqNumber p -> BodyLength p' = BodyLength p ->
  Body p' = Body p -> ThisRPCCall p' = ThisRPCCall p -> has (SEFlags p') SFTP_MOREDATA = has (SEFlags p) SFTP_MOREDATA -> data_packet p'.
Proof using.
  intros [] E1 E2 E3 E4 E5 E6. split; try congruence; try (rewrite E2; done).
  - unfold len_ok in *. congruence.
  - unfold payload in *. rewrite E2, E3, E4. done.
Qed.
End Pieces.

Section Source.
Context {env : SftpEnv}.
Context (F : list Z) (P : parms) (S0 call : Z) (G : geometry F P S0) (Hmax : SFTP_MaxPackets <= 0).
Abbreviation data_packet := (data_packet F P S0 call).
Abbreviation npackets := (npackets F P).
Abbreviation b := (piece_len P).
Abbreviation batch := (batch P).

(** What the source sends of its file: all of it, or what the quota allows. *)
Definition sent_file (f : vfile) : list Z := if limited f then take (Z.to_nat (ByteQuota f)) (vf_data f) else vf_data f.

(** The invariant; packets up to [top] have been read. *)
Record source_at (e : entry) (top : Z) : Prop := SourceAt {
  so_parms : e_parms e = P;
  so_last : S0 <= SendLastContig e <= SendMostRecent e;
  so_top : SendMostRecent e <= top <= S0 + npackets;
  so_window : top - SendLastContig e <= WindowSize P;
  so_read : if HitEOF e then top = S0 + npackets
            else exists q, 0 <= q /\ top - S0 = q * SendAhead P /\ vf_pos e = q * batch /\ BytesTransferred e = q * batch /\ q * batch <= zlen F;
  so_slots : forall s, SendLastContig e < s <= top -> exists p, ThesePackets e !! PBUFF s = Some p /\ data_packet p /\ SeqNumber p = s;
  so_mask : mask_ok (SendTheseBits e);
  so_limits : SendAckLimit e <= SendMostRecent e /\ SendWorriedLimit e <= SendMostRecent e;
  so_file : F = sent_file e;
  so_outs : Forall (fun p => data_packet p /\ SeqNumber p <= top) (outs e);
  so_call : CallNumber e = call
}.

(** What the routines of the source leave alone. *)
Record sframe (e e' : entry) : Prop := SFrame {
  sf_last : SendLastContig e' = SendLastContig e;
  sf_who : WhoAmI e' = WhoAmI e;
  sf_xfer : XferState e' = XferState e;
  sf_dir : Direction e' = Direction e;
  sf_queue : RecvQueue e' = RecvQueue e
}.

#[global] Instance sframe_preorder : PreOrder sframe.
Proof. split; [by intros e|]. intros e f g [] []. split; congruence. Qed.

(** Two packets of a window have different slots. *)
Lemma window_slots e top s t : source_at e top -> SendLastContig e < s <= top -> SendLastContig e < t <= SendLastContig e + 64 ->
  PBUFF s = PBUFF t -> s = t.
Proof using G. intros H Hs Ht E. pose proof (so_window _ _ H). destruct G. apply PBUFF_inj in E; lia. Qed.

Lemma WinIsOpen_ok e top : source_at e top ->
  WinIsOpen e = (SendAhead P + SendMostRecent e - SendLastContig e <=? WindowSize P).
Proof using G Hmax.
  intros H. unfold WinIsOpen. rewrite (so_parms _ _ H). pose proof (so_last _ _ H). pose proof (so_top _ _ H). pose proof (so_window _ _ H).
  destruct G. rewrite uwrap_small, Z.gtb_ltb by lia.
  destruct (Z.ltb_spec 0 SFTP_MaxPackets); [lia|]. cbn [andb negb].
  destruct (Z.ltb_spec (WindowSize P) (SendAhead P + SendMostRecent e - SendLastContig e)), (Z.leb_spec (SendAhead P + SendMostRecent e - SendLastContig e) (WindowSize P)); done || lia.
Qed.

(** ** Sending *)
Lemma has_other v k : 0 < k -> has (Z.lor v (2 ^ k)) SFTP_MOREDATA = has v SFTP_MOREDATA.
Proof using.
  intros Hk. unfold has, SFTP_MOREDATA. change 1 with (Z.shiftl 1 0). rewrite !land_pm by lia.
  rewrite Z.lor_spec, Z.pow2_bits_false by lia. apply orb_false_r.
Qed.

(** A packet sent again: only its flags and its times differ. *)
Record resent (p p' : packet) : Prop := Resent {
  rs_op : Opcode p' = Opcode p;
  rs_seq : SeqNumber p' = SeqNumber p;
  rs_len : BodyLength p' = BodyLength p;
  rs_body : Body p' = Body p;
  rs_call : ThisRPCCall p' = ThisRPCCall p;
  rs_more : has (SEFlags p') SFTP_MOREDATA = has (SEFlags p) SFTP_MOREDATA
}.

Lemma resent_data p p' : resent p p' -> data_packet p -> data_packet p'.
Proof using. intros [] H. by eapply data_packet_keep. Qed.

Lemma send_ok e e1 top i p p' : source_at e top -> SendLastContig e < i <= top -> ThesePackets e !! PBUFF i = Some p -> resent p p' ->
  e1 = ticked e -> source_at (emit p' (putp i p' e1)) top /\ sframe e (emit p' (putp i p' e1)).
Proof using G.
  intros H Hi Hp Hr ->. pose proof H as [H1 H2 H3 H4 H5 H6 H7 H8 H9 H10 H11]. split; [|by split].
  destruct (H6 i Hi) as (q & Hq & Hd & Hseq). rewrite Hp in Hq. injection Hq as <-.
  assert (data_packet p') as Hd' by (by eapply resent_data). pose proof (rs_seq _ _ Hr) as Hs'.
  split; esimpl; try done.
  - intros s Hs. destruct (decide (s = i)) as [-> | N]; [rewrite lookup_insert_eq; exists p'; split_and!; try done; lia|].
    rewrite lookup_insert_ne; [by apply H6|]. intros E. apply N. symmetry. eapply (window_slots _ _ i s H); [done|pose proof (ge_window _ _ _ G); lia|done].
  - apply Forall_app. split; [done|]. constructor; [|done]. split; [done|lia].
Qed.

End Source.
End SftpSource.
