(* ===== verification/SftpRead.v ===== *)
(** * The source of a transfer: reading the file

    sftp_ReadStrategy puts the next pieces of the file into fresh packets, and marks the
    one that ends it. *)
From Stdlib Require Import ZArith Lia Bool.
From stdpp Require Import base list numbers gmap.
From S2P Require Import Prelude.
From S2P Require Import SftpMask.
From S2P Require Import SftpEntry.
From S2P Require Import SftpCode.
From S2P Require Import SftpFile.
From S2P Require Import SftpSource.
Import SftpMask SftpEntry SftpCode SftpFile SftpSource.
Open Scope Z_scope.

Module SftpRead.

(** readv with [n] buffers of [b] bytes. *)
Lemma readv_ok d n pos b : 0 <= pos <= zlen d -> 0 < b ->
  (readv d pos (repeat b n)).1 = Z.min (Z.of_nat n * b) (zlen d - pos) /\
  (length (readv d pos (repeat b n)).2 <= n)%nat /\
  forall i, (i < n)%nat -> Z.of_nat i * b <= zlen d - pos ->
    (readv d pos (repeat b n)).2 !! i = Some (bytes_at d (pos + Z.of_nat i * b) b).
Proof.
  intros Hpos Hb. revert pos Hpos. induction n as [|n IH]; intros pos Hpos; cbn [repeat readv].
  - cbn. split_and!; [lia|lia|lia].
  - destruct (Z.ltb_spec (zlen d - pos) b).
    + cbn [fst snd length]. split_and!; [nia|lia|]. intros i Hi Hle. assert (i = 0%nat) as -> by nia. cbn.
      rewrite Z.add_0_r. f_equal. unfold bytes_at. rewrite !take_ge; [done|rewrite length_drop; unfold zlen in *; lia..].
    + destruct (IH (pos + b)) as (I1 & I2 & I3); [lia|]. destruct (readv d (pos + b) (repeat b n)) as [rc cs]. cbn [fst snd length] in *.
      split_and!; [nia|lia|]. intros [|i] Hi Hle; cbn [lookup list_lookup].
      * do 2 f_equal. lia.
      * replace (pos + Z.of_nat (S i) * b) with (pos + b + Z.of_nat i * b) by lia. apply I3; lia.
Qed.

Section Read.
Context {env : SftpEnv}.
Context (F : list Z) (P : parms) (S0 call : Z) (G : geometry F P S0) (Hmax : SFTP_MaxPackets <= 0).
Abbreviation data_packet := (data_packet F P S0 call).
Abbreviation npackets := (npackets F P).
Abbreviation b := (piece_len P).
Abbreviation batch := (batch P).
Abbreviation source_at := (source_at F P S0 call).

(** Everything but the slots, the file and the buffer count. *)
Record reading (e e' : entry) : Prop := Reading {
  rd_parms : e_parms e' = e_parms e;
  rd_status : e_status e' = e_status e;
  rd_source : e_source e' = e_source e;
  rd_queue : RecvQueue e' = RecvQueue e;
  rd_outs : outs e' = outs e
}.

#[local] Instance reading_preorder : PreOrder reading.
Proof. split; [by intros e|]. intros e f g [] []. split; congruence. Qed.

Lemma prepare_ok e : e_parms e = P -> exists e', forZ 1 (1 + SendAhead P) (prepare b) e = Ret e' /\ reading e e' /\ e_file e' = e_file e /\
  (forall i, 1 <= i <= SendAhead P -> ThesePackets e' !! PBUFF (SendMostRecent e + i) = Some (fresh_packet e b i)) /\
  (forall j, (forall i, 1 <= i <= SendAhead P -> PBUFF (SendMostRecent e + i) <> j) -> ThesePackets e' !! j = ThesePackets e !! j).
Proof using G.
  intros HP. pose proof G as [Ga Gw _ _].
  destruct (forZ_total (fun k e' => reading e e' /\ e_file e' = e_file e /\
    (forall i, 1 <= i < k -> ThesePackets e' !! PBUFF (SendMostRecent e + i) = Some (fresh_packet e b i)) /\
    (forall j, (forall i, 1 <= i < k -> PBUFF (SendMostRecent e + i) <> j) -> ThesePackets e' !! j = ThesePackets e !! j))
    1 (1 + SendAhead P) (prepare b) e) as (e' & E & H1 & H2 & H3 & H4); [lia|split_and!; try done; lia| |].
  - intros k e1 Hk (R & Hf & H3 & H4). unfold prepare, MAXOPACKETS. destruct (Z.leb_spec k 64); [|lia].
    pose proof R as [R1 R2 R3 R4 R5]. eexists. split; [reflexivity|]. esimpl. rewrite R3.
    assert (fresh_packet e1 b k = fresh_packet e b k) as Ef by (unfold fresh_packet, sftp_InitPacket; rewrite R2, R3; done).
    rewrite Ef. split_and!; [by split|done| |].
    + intros i Hi. destruct (decide (i = k)) as [-> | N]; [by rewrite lookup_insert_eq|]. rewrite lookup_insert_ne; [apply H3; lia|].
      intros E. apply PBUFF_inj in E; lia.
    + intros j Hj. rewrite lookup_insert_ne; [apply H4; intros i Hi; apply Hj; lia|apply Hj; lia].
  - exists e'. split_and!; try done; [intros i Hi; apply H3; lia|]. intros j Hj. apply H4. intros i Hi. apply Hj. lia.
Qed.

Lemma fill_ok e base cs : (length cs <= 64)%nat ->
  (forall i, (i < length cs)%nat -> is_Some (ThesePackets e !! PBUFF (base + 1 + Z.of_nat i))) ->
  exists e', fill base cs e = Ret e' /\ reading e e' /\ e_file e' = e_file e /\
  (forall i p c, cs !! i = Some c -> ThesePackets e !! PBUFF (base + 1 + Z.of_nat i) = Some p ->
     ThesePackets e' !! PBUFF (base + 1 + Z.of_nat i) = Some (set_Body c p)) /\
  (forall j, (forall i, (i < length cs)%nat -> PBUFF (base + 1 + Z.of_nat i) <> j) -> ThesePackets e' !! j = ThesePackets e !! j).
Proof using.
  intros Hl Hin. unfold fill.
  destruct (forZ_total (fun k e' => reading e e' /\ e_file e' = e_file e /\
    (forall i p c, Z.of_nat i < k -> cs !! i = Some c -> ThesePackets e !! PBUFF (base + 1 + Z.of_nat i) = Some p ->
     ThesePackets e' !! PBUFF (base + 1 + Z.of_nat i) = Some (set_Body c p)) /\
    (forall j, (forall i, Z.of_nat i < k -> PBUFF (base + 1 + Z.of_nat i) <> j) -> ThesePackets e' !! j = ThesePackets e !! j))
    0 (zlen cs) (fun i e => let* pb := getp e (base + 1 + i) in let* c := aget cs i in Ret (putp (base + 1 + i) (set_Body c pb) e)) e)
    as (e' & E & H1 & H2 & H3 & H4); [apply zlen_nonneg|split_and!; try done; lia| |].
  - intros k e1 Hk (R & Hf & H3 & H4). unfold zlen in Hk. destruct (Hin (Z.to_nat k) ltac:(lia)) as [p Hp]. rewrite Z2Nat.id in Hp by lia.
    assert (ThesePackets e1 !! PBUFF (base + 1 + k) = Some p) as Hp1.
    { rewrite H4; [done|]. intros i Hi E. apply PBUFF_inj in E; lia. }
    unfold getp. rewrite Hp1. cbn [rbind]. destruct (aget_total cs k Hk) as (c & Hc & ->). cbn [rbind].
    eexists. split; [reflexivity|]. esimpl. pose proof R as []. split_and!; [by split|done| |].
    + intros i q c' Hi Hc' Hq. destruct (decide (Z.of_nat i = k)) as [E|N].
      * rewrite <- E in *. rewrite Nat2Z.id in Hc. rewrite Hc in Hc'. rewrite Hp in Hq. rewrite lookup_insert_eq. congruence.
      * rewrite lookup_insert_ne; [apply H3; try done; lia|]. intros E. apply PBUFF_inj in E; [lia|]. apply lookup_lt_Some in Hc'. lia.
    + intros j Hj. rewrite lookup_insert_ne; [apply H4; intros i Hi; apply Hj; lia|]. specialize (Hj (Z.to_nat k) ltac:(lia)). by rewrite Z2Nat.id in Hj by lia.
  - exists e'. split_and!; try done.
    + intros i p c Hc. apply H3; [|done]. apply lookup_lt_Some in Hc. unfold zlen. lia.
    + intros j Hj. apply H4. intros i Hi. apply Hj. unfold zlen in Hi. lia.
Qed.

(** ** Pieces of the file in packets *)
Lemma sent_prefix f : exists n : nat, sent_file f = take n (vf_data f).
Proof using. unfold sent_file. destruct (limited f); [by eexists|]. exists (length (vf_data f)). by rewrite firstn_all. Qed.

(** The bytes of a buffer that belong to the part of the file that is sent. *)
Lemma cut_piece d n x k left : 0 <= x -> 0 <= left -> left = Z.min k (zlen (take n d) - x) ->
  take (Z.to_nat left) (bytes_at d x k) = bytes_at (take n d) x k /\ left <= zlen (bytes_at d x k).
Proof using.
  intros Hx Hl E. unfold bytes_at, zlen in *. rewrite length_take in E. rewrite length_take, length_drop. split; [|lia].
  rewrite skipn_firstn_comm, !take_take. destruct (decide (n <= length d)%nat); [f_equal; lia|].
  destruct (decide (k <= Z.of_nat (length d) - x)); [f_equal; lia|]. rewrite !take_ge; [done|rewrite length_drop; lia..].
Qed.

(** Packet [i] of the batch at position [pos] of the file. *)
Definition filled (e : entry) (pos i : Z) : packet := set_Body (bytes_at (vf_data e) (pos + (i - 1) * b) b) (fresh_packet e b i).

Lemma piece_at e t q i : source_at e t -> SendMostRecent e - S0 = q * SendAhead P -> (SendMostRecent e + i - S0 - 1) * b = q * batch + (i - 1) * b.
Proof using. intros H E. unfold SftpSource.batch. replace (SendMostRecent e + i - S0 - 1) with (q * SendAhead P + (i - 1)) by lia. lia. Qed.

Lemma filled_data e t q i left p : source_at e t -> SendMostRecent e - S0 = q * SendAhead P -> 0 <= q ->
  1 <= i <= SendAhead P -> SendMostRecent e + i <= S0 + npackets ->
  0 <= left -> left = Z.min b (zlen F - (q * batch + (i - 1) * b)) ->
  p = filled e (q * batch) i /\ left = b /\ SendMostRecent e + i < S0 + npackets \/
  p = last_packet left (filled e (q * batch) i) /\ SendMostRecent e + i = S0 + npackets ->
  data_packet p /\ SeqNumber p = SendMostRecent e + i.
Proof using G.
  intros H Eq Hq Hi Htop Hl0 El Hp. pose proof (piece_len_pos _ _ _ G). pose proof (batch_pos _ _ _ G). pose proof (so_last _ _ _ _ _ _ H). destruct G as [G1 G2 G3 G4].
  pose proof (piece_at _ _ _ i H Eq) as Ep. destruct (sent_prefix e) as [n En]. rewrite <- (so_file _ _ _ _ _ _ H) in En.
  destruct (cut_piece (vf_data e) n (q * batch + (i - 1) * b) b left) as [Hc Hz]; [nia|done|congruence|]. rewrite <- En in Hc.
  destruct Hp as [(-> & -> & Hlt)|(-> & Hlast)]; (split; [|esimpl; unfold filled, fresh_packet; esimpl; apply uwrap_small; lia]).
  - split; unfold filled, fresh_packet; esimpl; rewrite ?uwrap_small by lia; try done; try lia.
    + unfold payload, piece. esimpl. rewrite Hc, Ep. done.
    + unfold has. cbn. symmetry. apply Z.ltb_lt. lia.
    + apply (so_call _ _ _ _ _ _ H).
  - split; unfold filled, fresh_packet, last_packet; esimpl; rewrite ?uwrap_small by lia; try done; try lia.
    + unfold payload, piece. esimpl. rewrite Hc, Ep. done.
    + unfold has. cbn. symmetry. apply Z.ltb_ge. lia.
    + apply (so_call _ _ _ _ _ _ H).
Qed.

(** ** The steps of sftp_ReadStrategy *)
Lemma load_ok e q : source_at e (SendMostRecent e) -> vf_pos e = q * batch -> 0 <= q -> q * batch <= zlen (vf_data e) ->
  exists e1, forZ 1 (1 + SendAhead P) (prepare b) e = Ret e1 /\ reading e e1 /\
    ((sftp_vfreadv e1 (repeat b (Z.to_nat (SendAhead P))) = (e_file e, -1, []) /\ negb (vf_mem e) && (vf_rderr e || negb (vf_open e)) = true) \/
     exists rc cs e2, let f := set_contents (vf_data e) (q * batch + rc) e in
       sftp_vfreadv e1 (repeat b (Z.to_nat (SendAhead P))) = (f, rc, cs) /\
       rc = Z.min batch (zlen (vf_data e) - q * batch) /\
       fill (SendMostRecent e) cs (upd_file (fun _ => f) e1) = Ret e2 /\ reading e e2 /\ e_file e2 = f /\
       (forall i, 1 <= i <= SendAhead P -> (i - 1) * b <= zlen (vf_data e) - q * batch ->
          ThesePackets e2 !! PBUFF (SendMostRecent e + i) = Some (filled e (q * batch) i)) /\
       (forall j, (forall i, 1 <= i <= SendAhead P -> PBUFF (SendMostRecent e + i) <> j) -> ThesePackets e2 !! j = ThesePackets e !! j)).
Proof using G.
  intros H Hpos Hq Hle. pose proof (piece_len_pos _ _ _ G). pose proof (batch_pos _ _ _ G). pose proof (ge_ahead _ _ _ G) as Ga. pose proof (ge_window _ _ _ G) as Gw.
  destruct (prepare_ok e (so_parms _ _ _ _ _ _ H)) as (e1 & E1 & R1 & Hf1 & Hs1 & Ho1). exists e1. split; [done|]. split; [done|].
  unfold sftp_vfreadv. rewrite Hf1. destruct (negb (vf_mem e) && (vf_rderr e || negb (vf_open e))) eqn:Eu; [by left|right].
  destruct (readv_ok (vf_data e) (Z.to_nat (SendAhead P)) (q * batch) b) as (I1 & I2 & I3); [nia|lia|]. rewrite Hpos.
  destruct (readv (vf_data e) (q * batch) (repeat b (Z.to_nat (SendAhead P)))) as [rc cs]. cbn [fst snd] in *.
  rewrite Z2Nat.id in I1 by lia. set (f := set_contents _ _ _).
  destruct (fill_ok (upd_file (fun _ => f) e1) (SendMostRecent e) cs) as (e2 & E2 & R2 & Hf2 & Hs2 & Ho2); [lia| |].
  { intros i Hi. esimpl. replace (SendMostRecent e + 1 + Z.of_nat i) with (SendMostRecent e + (1 + Z.of_nat i)) by lia. rewrite Hs1 by lia. done. }
  exists rc, cs, e2. cbn zeta. split_and!; [done|done|done| |done| |].
  - destruct R1, R2. esimpl. split; congruence.
  - intros i Hi Hle'. assert (cs !! Z.to_nat (i - 1) = Some (bytes_at (vf_data e) (q * batch + (i - 1) * b) b)) as Hc.
    { rewrite I3 by (try lia; rewrite Z2Nat.id by lia; lia). rewrite Z2Nat.id by lia. done. }
    specialize (Hs2 (Z.to_nat (i - 1)) (fresh_packet e b i) _ Hc). rewrite Z2Nat.id in Hs2 by lia.
    replace (SendMostRecent e + 1 + (i - 1)) with (SendMostRecent e + i) in Hs2 by lia. apply Hs2. esimpl. by apply Hs1.
  - intros j Hj. rewrite Ho2.
    + esimpl. apply Ho1. done.
    + intros i Hi. replace (SendMostRecent e + 1 + Z.of_nat i) with (SendMostRecent e + (1 + Z.of_nat i)) by lia. apply Hj. lia.
Qed.

(** The packet with the last byte. *)
Lemma last_scan (e : entry) base left0 : 0 <= left0 <= SendAhead P * b -> (forall i, 1 <= i <= SendAhead P -> (i - 1) * b <= left0 -> is_Some (ThesePackets e !! PBUFF (base + i))) ->
  exists i left pb, for_range 1 (SendAhead P + 1) (fun i left =>
    if left >? b then Ret (inl (left - b))
    else let* pb := getp e (base + i) in Ret (inr (i, putp (base + i) (last_packet left pb) e))) left0
    = Ret (inr (i, putp (base + i) (last_packet left pb) e)) /\
  1 <= i <= SendAhead P /\ left = left0 - (i - 1) * b /\ 0 <= left <= b /\ (1 < i -> 0 < left) /\ ThesePackets e !! PBUFF (base + i) = Some pb.
Proof using G.
  intros H0 Hin. pose proof (piece_len_pos _ _ _ G) as Hb. pose proof (ge_ahead _ _ _ G) as Ga.
  destruct (for_range_rule (fun k left => left = left0 - (k - 1) * b /\ 0 <= left /\ (1 < k -> 0 < left))
    (fun k r => exists left pb, r = (k, putp (base + k) (last_packet left pb) e) /\ left = left0 - (k - 1) * b /\ 0 <= left <= b /\ (1 < k -> 0 < left) /\
       ThesePackets e !! PBUFF (base + k) = Some pb) 1 (SendAhead P + 1) (fun i left =>
    if left >? b then Ret (inl (left - b))
    else let* pb := getp e (base + i) in Ret (inr (i, putp (base + i) (last_packet left pb) e))) left0)
    as [(left & E & -> & H1 & H2)|(k & r & Hk & E & left & pb & -> & H1)]; [lia|lia| | |].
  - intros k left Hk (-> & Hl & Hl'). rewrite Z.gtb_ltb. destruct (Z.ltb_spec b (left0 - (k - 1) * b)).
    + left. eexists. split; [reflexivity|]. lia.
    + right. destruct (Hin k) as [pb Hpb]; [lia|lia|]. unfold getp. rewrite Hpb. cbn [rbind]. eexists. split; [reflexivity|].
      eexists _, pb. split; [reflexivity|]. split_and!; try done.
  - exfalso. specialize (H2 ltac:(lia)). nia.
  - exists k, left, pb. destruct H1 as (H2 & H3 & H4 & H5). split_and!; try done; lia.
Qed.

Lemma excess_ok e base lo hi : lo <= hi -> exists e', forZ lo hi (fun i e => Ret (drop_packet (base + i) e)) e = Ret e' /\ reading e e' /\ e_file e' = e_file e /\
  forall j, (forall i, lo <= i < hi -> PBUFF (base + i) <> j) -> ThesePackets e' !! j = ThesePackets e !! j.
Proof using.
  intros Hlo. destruct (forZ_total (fun k e' => reading e e' /\ e_file e' = e_file e /\
    forall j, (forall i, lo <= i < k -> PBUFF (base + i) <> j) -> ThesePackets e' !! j = ThesePackets e !! j)
    lo hi (fun i e => Ret (drop_packet (base + i) e)) e) as (e' & -> & H); [done|by split_and!| |by exists e'].
  intros k e1 Hk ([] & H2 & H3). eexists. split; [reflexivity|]. esimpl. split_and!; try done.
  intros j Hj. rewrite lookup_delete_ne; [apply H3; intros i Hi; apply Hj; lia|apply Hj; lia].
Qed.

(** The quota makes the file end. *)
Lemma quota_cut f pos rc : 0 <= pos <= zlen (sent_file f) -> rc = Z.min batch (zlen (vf_data f) - pos) ->
  (if SFTP_EnforceQuota && (0 <? ByteQuota f) && (pos + rc >? ByteQuota f) then ByteQuota f - pos else rc) =
  Z.min batch (zlen (sent_file f) - pos).
Proof using.
  intros Hp ->. unfold sent_file, limited in *. rewrite Z.gtb_ltb. destruct (SFTP_EnforceQuota && (0 <? ByteQuota f)) eqn:El; cbn [andb]; [|done].
  apply andb_true_iff in El as [_ El%Z.ltb_lt]. unfold zlen in *. rewrite length_take in *.
  destruct (Z.ltb_spec (ByteQuota f) (pos + Z.min batch (Z.of_nat (length (vf_data f)) - pos))); lia.
Qed.

Lemma sent_file_len f : zlen (sent_file f) <= zlen (vf_data f).
Proof using. destruct (sent_prefix f) as [n ->]. unfold zlen. rewrite length_take. lia. Qed.

(** [n] packets were read. *)
Record has_read (e e' : entry) (n : Z) : Prop := HasRead {
  hr_count : ReadAheadCount e' = n /\ 1 <= n <= SendAhead P;
  hr_most : SendMostRecent e' = SendMostRecent e;
  hr_source : source_at e' (SendMostRecent e + n);
  hr_frame : sframe e e';
  hr_retr : Retransmitting e' = Retransmitting e
}.

(** Fresh packets leave the window's packets alone. *)
Lemma fresh_slots e s i : source_at e (SendMostRecent e) -> SendLastContig e < s <= SendMostRecent e -> 1 <= i <= SendAhead P ->
  SendAhead P + SendMostRecent e - SendLastContig e <= WindowSize P -> PBUFF (SendMostRecent e + i) <> PBUFF s.
Proof using G. intros H Hs Hi Hw E. pose proof (ge_window _ _ _ G). apply PBUFF_inj in E; lia. Qed.

(** A full batch. *)
Lemma read_full e e' q : source_at e (SendMostRecent e) -> SendMostRecent e - S0 = q * SendAhead P -> 0 <= q -> (q + 1) * batch <= zlen F ->
  SendAhead P + SendMostRecent e - SendLastContig e <= WindowSize P ->
  reading e e' -> vf_data e' = vf_data e -> ByteQuota e' = ByteQuota e -> vf_pos e' = (q + 1) * batch -> BytesTransferred e' = (q + 1) * batch -> HitEOF e = false ->
  (forall i, 1 <= i <= SendAhead P -> ThesePackets e' !! PBUFF (SendMostRecent e + i) = Some (filled e (q * batch) i)) ->
  (forall j, (forall i, 1 <= i <= SendAhead P -> PBUFF (SendMostRecent e + i) <> j) -> ThesePackets e' !! j = ThesePackets e !! j) ->
  has_read e (set_ReadAheadCount (SendAhead P) e') (SendAhead P).
Proof using G.
  intros H Eq Hq Hle Hw [R1 R2 R3 R4 R5] Hd Hqu Hpos Hbt He Hs Ho. pose proof (piece_len_pos _ _ _ G) as Hb. pose proof (batch_pos _ _ _ G) as Hba. pose proof (ge_ahead _ _ _ G) as Ga.
  assert (SendMostRecent e + SendAhead P < S0 + npackets) as Hn.
  { pose proof (npackets_at F P S0 (zlen F / batch) G) as En. pose proof (Z.div_mod (zlen F) batch ltac:(lia)). pose proof (Z.mod_pos_bound (zlen F) batch ltac:(lia)).
    assert (q + 1 <= zlen F / batch) by (apply Z.div_le_lower_bound; lia). rewrite En by lia.
    assert (0 < if zlen F - zlen F / batch * batch =? 0 then 1 else (zlen F - zlen F / batch * batch + b - 1) / b).
    { destruct (Z.eqb_spec (zlen F - zlen F / batch * batch) 0); [lia|]. apply Z.div_str_pos. lia. }
    nia. }
  pose proof H as [H1 H2 H3 H4 H5 H6 H7 H8 H9 H10 H11].
  split; esimpl; rewrite ?R3; try done; try lia; [|by split; esimpl; rewrite ?R2, ?R3|by rewrite R2].
  split; esimpl; rewrite ?R1, ?R2, ?R3, ?R5; try done; try lia.
  - rewrite He. exists (q + 1). split_and!; try done; lia.
  - intros s Hs'. destruct (decide (s <= SendMostRecent e)).
    + destruct (H6 s ltac:(lia)) as (p & Hp & Hdp). exists p. split; [|done]. rewrite Ho; [done|]. intros i Hi. apply fresh_slots; try done; lia.
    + replace s with (SendMostRecent e + (s - SendMostRecent e)) by lia. exists (filled e (q * batch) (s - SendMostRecent e)).
      split; [apply Hs; lia|]. eapply (filled_data e _ q (s - SendMostRecent e) b); try done; try lia; [unfold SftpSource.batch in *; nia|].
      left. split_and!; [done|done|lia].
  - rewrite H9. unfold sent_file, limited. by rewrite Hd, Hqu.
  - eapply Forall_impl; [exact H10|]. cbn. intros p [Hp1 Hp2]. split; [done|lia].
Qed.

(** The batch that ends the file. *)
Lemma npackets_last q i left : 0 <= q -> q * batch <= zlen F < (q + 1) * batch -> left = zlen F - q * batch - (i - 1) * b -> 0 <= left <= b -> 1 <= i -> (1 < i -> 0 < left) ->
  npackets = q * SendAhead P + i.
Proof using G.
  intros Hq Hr -> Hl Hi Hi1. pose proof (piece_len_pos _ _ _ G). rewrite (npackets_at F P S0 q G Hq Hr). f_equal.
  destruct (Z.eqb_spec (zlen F - q * batch) 0); [nia|].
  symmetry. apply (Z.div_unique _ _ _ (zlen F - q * batch + b - 1 - i * b)); [|lia]. left. nia.
Qed.

Lemma read_last e e' q i left : source_at e (SendMostRecent e) -> SendMostRecent e - S0 = q * SendAhead P -> 0 <= q -> q * batch <= zlen F < (q + 1) * batch ->
  SendAhead P + SendMostRecent e - SendLastContig e <= WindowSize P ->
  e_parms e' = e_parms e -> e_status e' = e_status (set_HitEOF true e) -> e_source e' = e_source (set_ReadAheadCount i e) -> RecvQueue e' = RecvQueue e -> outs e' = outs e ->
  vf_data e' = vf_data e -> ByteQuota e' = ByteQuota e ->
  1 <= i <= SendAhead P -> left = zlen F - q * batch - (i - 1) * b -> 0 <= left <= b -> (1 < i -> 0 < left) ->
  (forall k, 1 <= k < i -> ThesePackets e' !! PBUFF (SendMostRecent e + k) = Some (filled e (q * batch) k)) ->
  ThesePackets e' !! PBUFF (SendMostRecent e + i) = Some (last_packet left (filled e (q * batch) i)) ->
  (forall j, (forall i, 1 <= i <= SendAhead P -> PBUFF (SendMostRecent e + i) <> j) -> ThesePackets e' !! j = ThesePackets e !! j) ->
  has_read e e' i.
Proof using G.
  intros H Eq Hq Hr Hw R1 R2 R3 R4 R5 Hd Hqu Hi El Hl Hi1 Hs Hs' Ho. pose proof (piece_len_pos _ _ _ G) as Hb.
  pose proof (npackets_last q i left Hq Hr El Hl ltac:(lia) Hi1) as Hn. pose proof (ge_ahead _ _ _ G) as Ga.
  pose proof H as [H1 H2 H3 H4 H5 H6 H7 H8 H9 H10 H11].
  split; rewrite ?R2, ?R3; esimpl; try done; [|by split; rewrite ?R2, ?R3].
  split; rewrite ?R1, ?R2, ?R3, ?R5; esimpl; try done; try lia.
  - intros s Hss. destruct (decide (s <= SendMostRecent e)).
    + destruct (H6 s ltac:(lia)) as (p & Hp & Hdp). exists p. split; [|done]. rewrite Ho; [done|]. intros k Hk. apply fresh_slots; try done; lia.
    + replace s with (SendMostRecent e + (s - SendMostRecent e)) by lia. set (k := s - SendMostRecent e).
      destruct (decide (k = i)) as [-> | Nk].
      * eexists. split; [exact Hs'|]. eapply (filled_data e _ q i left); try done; try lia. right. split; [done|lia].
      * exists (filled e (q * batch) k). split; [apply Hs; lia|]. eapply (filled_data e _ q k b); try done; try lia; [nia|].
        left. split_and!; [done|done|lia].
  - rewrite H9. unfold sent_file, limited. by rewrite Hd, Hqu.
  - eapply Forall_impl; [exact H10|]. cbn. intros p [Hp1 Hp2]. split; [done|lia].
Qed.

Lemma quota_read_ok e e2 q rc : source_at e (SendMostRecent e) -> vf_pos e = q * batch -> BytesTransferred e = q * batch -> 0 <= q * batch <= zlen F ->
  e_file e2 = set_contents (vf_data e) (q * batch + rc) e -> rc = Z.min batch (zlen (vf_data e) - q * batch) ->
  exists e3, quota_read rc e2 = (e3, Z.min batch (zlen F - q * batch)) /\ reading e2 e3 /\ ThesePackets e3 = ThesePackets e2 /\
    vf_data e3 = vf_data e /\ ByteQuota e3 = ByteQuota e /\ vf_pos e3 = q * batch + rc /\ BytesTransferred e3 = q * batch + Z.min batch (zlen F - q * batch).
Proof using.
  intros H Epos Ebt Hle Hf2 Erc. pose proof (quota_cut e (q * batch) rc) as Hcut. rewrite <- (so_file _ _ _ _ _ _ H) in Hcut. specialize (Hcut Hle Erc).
  unfold quota_read. rewrite Hf2. esimpl. rewrite Ebt.
  destruct (SFTP_EnforceQuota && (0 <? ByteQuota e) && (q * batch + rc >? ByteQuota e)); esimpl; rewrite Hf2; esimpl; rewrite ?Ebt, Hcut;
    eexists; (split; [reflexivity|]); esimpl; rewrite ?Hf2; esimpl; split_and!; try done; try lia; by split.
Qed.

Lemma finish_read_ok e e3 q rc : source_at e (SendMostRecent e) -> 0 <= q -> SendMostRecent e - S0 = q * SendAhead P -> q * batch <= zlen F -> HitEOF e = false ->
  SendAhead P + SendMostRecent e - SendLastContig e <= WindowSize P -> reading e e3 ->
  vf_data e3 = vf_data e -> ByteQuota e3 = ByteQuota e -> vf_pos e3 = q * batch + rc -> rc = Z.min batch (zlen (vf_data e) - q * batch) ->
  BytesTransferred e3 = q * batch + Z.min batch (zlen F - q * batch) ->
  (forall i, 1 <= i <= SendAhead P -> (i - 1) * b <= zlen (vf_data e) - q * batch ->
     ThesePackets e3 !! PBUFF (SendMostRecent e + i) = Some (filled e (q * batch) i)) ->
  (forall j, (forall i, 1 <= i <= SendAhead P -> PBUFF (SendMostRecent e + i) <> j) -> ThesePackets e3 !! j = ThesePackets e !! j) ->
  exists e', finish_read b batch (SendMostRecent e) (Z.min batch (zlen F - q * batch)) e3 = Ret (e', 0) /\ exists n, has_read e e' n.
Proof using G.
  intros H Hq Eq Hle He Hw R Q2 Q3 Q4 Erc Q5 Hsl Hot. pose proof (piece_len_pos _ _ _ G) as Hb. pose proof (batch_pos _ _ _ G) as Hba.
  pose proof (ge_ahead _ _ _ G) as Ga. pose proof (ge_window _ _ _ G) as Gw. pose proof (so_parms _ _ _ _ _ _ H) as HP.
  pose proof (sent_file_len e) as HFd. rewrite <- (so_file _ _ _ _ _ _ H) in HFd. unfold finish_read. rewrite (rd_parms _ _ R), HP.
  destruct (Z.eqb_spec (Z.min batch (zlen F - q * batch)) batch) as [E|E].
  - eexists. split; [reflexivity|]. exists (SendAhead P). apply (read_full e e3 q); try done; try lia.
    intros i Hi. apply Hsl; [done|]. unfold SftpSource.batch in *. nia.
  - assert (Z.min batch (zlen F - q * batch) = zlen F - q * batch) as -> by lia. esimpl. rewrite (rd_parms _ _ R), HP.
    destruct (last_scan (set_HitEOF true e3) (SendMostRecent e) (zlen F - q * batch)) as (i & left & pb & -> & Hi & El & Hl & Hi1 & Hpb).
    { unfold SftpSource.batch in *. lia. }
    { intros i Hi Hle'. esimpl. rewrite Hsl by lia. done. }
    cbn [rbind]. esimpl. rewrite (rd_parms _ _ R), HP. set (e4 := set_ReadAheadCount i _).
    rewrite Hsl in Hpb by lia. injection Hpb as <-.
    destruct (excess_ok e4 (SendMostRecent e) (i + 1) (SendAhead P + 1)) as (e' & -> & R4 & Hf4 & Ho4); [lia|]. cbn [rbind].
    exists e'. split; [done|]. exists i. destruct R as [A1 A2 A3 A4 A5], R4 as [B1 B2 B3 B4 B5].
    assert (forall j, (forall k, i < k <= SendAhead P -> PBUFF (SendMostRecent e + k) <> j) -> ThesePackets e' !! j = ThesePackets e4 !! j) as Ho5.
    { intros j Hj. apply Ho4. intros k Hk. apply Hj. lia. }
    assert (forall k l, 1 <= k <= SendAhead P -> 1 <= l <= SendAhead P -> k <> l -> PBUFF (SendMostRecent e + k) <> PBUFF (SendMostRecent e + l)) as Hne.
    { intros k l Hk Hl' N E'. apply PBUFF_inj in E'; lia. }
    apply (read_last e e' q i left); unfold e4 in *; esimpl; try done; try congruence; try lia.
    + intros k Hk. rewrite Ho5 by (intros; apply Hne; lia). rewrite lookup_insert_ne by (apply Hne; lia). apply Hsl; [lia|nia].
    + rewrite Ho5 by (intros; apply Hne; lia). by rewrite lookup_insert_eq.
    + intros j Hj. rewrite Ho5 by (intros; apply Hj; lia). rewrite lookup_insert_ne by (apply Hj; lia). by apply Hot.
Qed.

(** The file cannot be read. *)
Definition unreadable (f : vfile) : Prop := vf_mem f = false /\ (vf_rderr f = true \/ vf_open f = false).

Lemma sftp_ReadStrategy_ok e : source_at e (SendMostRecent e) -> HitEOF e = false -> SendAhead P + SendMostRecent e - SendLastContig e <= WindowSize P ->
  exists e' rc, sftp_ReadStrategy e = Ret (e', rc) /\ ((rc = -1 /\ outs e' = outs e /\ sframe e e' /\ unreadable e') \/ (rc = 0 /\ exists n, has_read e e' n)).
Proof using G Hmax.
  intros H He Hw. unfold sftp_ReadStrategy. rewrite He, (WinIsOpen_ok _ _ _ _ G Hmax _ _ H).
  destruct (Z.leb_spec (SendAhead P + SendMostRecent e - SendLastContig e) (WindowSize P)); [|lia]. cbn [negb].
  pose proof (piece_len_pos _ _ _ G) as Hb. pose proof (batch_pos _ _ _ G) as Hba. pose proof (ge_ahead _ _ _ G) as Ga. pose proof (ge_window _ _ _ G) as Gw. pose proof (ge_size _ _ _ G) as Gs.
  pose proof (so_read _ _ _ _ _ _ H) as Hr. rewrite He in Hr. destruct Hr as (q & Hq & Eq & Epos & Ebt & Hle).
  pose proof (so_parms _ _ _ _ _ _ H) as HP. pose proof (so_file _ _ _ _ _ _ H) as HF. pose proof (sent_file_len e) as HFd. rewrite <- HF in HFd.
  rewrite HP. assert (s32 (PacketSize P - HDR) = b) as -> by (apply swrap_small; [lia|unfold HDR, RPC2_MAXPACKETSIZE in *; lia]).
  assert (u32 (SendAhead P * b) = batch) as -> by (apply uwrap_small; unfold SftpSource.batch in *; lia). cbv zeta.
  destruct (load_ok e q H Epos Hq ltac:(lia)) as (e1 & -> & R1 & Hld). cbn [rbind]. rewrite (rd_parms _ _ R1), HP.
  destruct Hld as [[-> Eu] | (rc & cs & e2 & Hv & Erc & Hfill & R2 & Hf2 & Hsl & Hot)].
  { cbn. eexists _, (-1). split; [reflexivity|]. left. destruct R1 as [A1 A2 A3 A4 A5]. split; [done|]. split; [done|]. split; [split; esimpl; congruence|].
    esimpl. apply andb_true_iff in Eu as [Eu1%negb_true_iff Eu2%orb_true_iff]. split; [done|]. destruct Eu2 as [?|?%negb_true_iff]; [by left|by right]. }
  rewrite Hv. destruct (Z.ltb_spec rc 0); [lia|]. rewrite Hfill. cbn [rbind].
  destruct (quota_read_ok e e2 q rc H Epos Ebt ltac:(nia) Hf2 Erc) as (e3 & -> & R3 & Q1 & Q2 & Q3 & Q4 & Q5).
  rewrite <- Q1 in Hsl, Hot. destruct (finish_read_ok e e3 q rc H Hq Eq Hle He Hw) as (e' & -> & n & Hn); try done; [by etrans|].
  exists e', 0. split; [done|]. right. split; [done|]. by exists n.
Qed.

End Read.
End SftpRead.
