(* ===== verification/SftpSend.v ===== *)
(** * The source of a transfer: sending

    The strategy of the source (sftp_SendStrategy and the routines it chooses from) and
    the arrival of an ack: every packet sent is a packet of the file, no buffer is
    missing, and no assertion fails. *)
From Stdlib Require Import ZArith Lia Bool.
From stdpp Require Import base list numbers gmap.
From S2P Require Import Prelude.
From S2P Require Import Text.
From S2P Require Import SftpMask.
From S2P Require Import SftpEntry.
From S2P Require Import SftpCode.
From S2P Require Import SftpFile.
From S2P Require Import SftpSource.
From S2P Require Import SftpRead.
Import SftpMask SftpEntry SftpCode SftpFile SftpSource SftpRead.
Open Scope Z_scope.

Module SftpSend.

Lemma forZ_none {St} lo hi (body : Z -> St -> res St) s : hi <= lo -> forZ lo hi body s = Ret s.
Proof. intros H. unfold forZ, for_range. replace (Z.to_nat (hi - lo)) with 0%nat by lia. done. Qed.

Section Send.
Context {env : SftpEnv}.
Context (F : list Z) (P : parms) (S0 call : Z) (G : geometry F P S0) (Hmax : SFTP_MaxPackets <= 0).
Abbreviation data_packet := (data_packet F P S0 call).
Abbreviation npackets := (npackets F P).
Abbreviation source_at := (source_at F P S0 call).

(** What the routines that send keep. *)
Record kept (e e' : entry) : Prop := Kept {
  kp_frame : sframe e e';
  kp_most : SendMostRecent e' = SendMostRecent e;
  kp_count : ReadAheadCount e' = ReadAheadCount e;
  kp_eof : HitEOF e' = HitEOF e
}.

#[global] Instance kept_preorder : PreOrder kept.
Proof. split; [by intros e; split|]. intros e f g [A1 A2 A3 A4] [B1 B2 B3 B4]. split; [by etrans|congruence..]. Qed.

(** Time passes. *)
Record waited (e e' : entry) : Prop := Waited {
  wa_parms : e_parms e' = e_parms e;
  wa_status : e_status e' = e_status e;
  wa_source : e_source e' = e_source e;
  wa_file : e_file e' = e_file e;
  wa_queue : RecvQueue e' = RecvQueue e;
  wa_slots : ThesePackets e' = ThesePackets e;
  wa_outs : outs e' = outs e
}.

#[local] Instance waited_preorder : PreOrder waited.
Proof. split; [by intros e|]. intros e f g [] []. split; congruence. Qed.

Lemma waited_source e e' top : waited e e' -> source_at e top -> source_at e' top.
Proof using. intros [W1 W2 W3 W4 W5 W6 W7] []. split; rewrite ?W1, ?W2, ?W3, ?W4, ?W6, ?W7; done. Qed.

(** ** CheckWorried *)
Lemma worried_scan_ok n i queued (e : entry) : mask_ok (SendTheseBits e) -> Z.of_nat n <= Z.max 0 (i - SendLastContig e) -> i <= SendLastContig e + 64 ->
  exists e' j, worried_scan n i queued e = Ret (e', j) /\ j <= i /\ waited e e'.
Proof using.
  revert i queued e. induction n as [|n IH]; intros i queued e Hm Hlo Hhi; cbn [worried_scan].
  { by exists e, i. }
  rewrite TESTBIT_ok by (done || lia). cbn [rbind]. set (q' := u32 _).
  destruct (mbit (SendTheseBits e) (i - SendLastContig e)).
  { destruct (IH (i - 1) q' e Hm ltac:(lia) ltac:(lia)) as (e' & j & -> & Hj & Hw). exists e', j. split_and!; [done|lia|done]. }
  assert (waited e (ticked e)) as Ht by by split.
  destruct (IH (i - 1) q' (ticked e) Hm) as (e' & j & E & Hj & Hw); [esimpl; lia..|].
  destruct (ThesePackets (ticked e) !! PBUFF i) as [p|].
  - destruct (_ >? _); [by exists (ticked e), i|]. exists e', j. split_and!; [done|lia|by etrans].
  - exists e', j. split_and!; [done|lia|by etrans].
Qed.

Lemma CheckWorried_ok e top : source_at e top -> exists e' w, CheckWorried e = Ret (e', w) /\ source_at e' top /\ kept e e'.
Proof using G.
  intros H. pose proof H as [H1 H2 H3 H4 H5 H6 H7 [H8 H8'] H9 H10 H11]. pose proof (ge_window _ _ _ G) as Gw. unfold CheckWorried.
  destruct (negb GetConn || HitEOF e).
  { eexists _, true. split; [reflexivity|]. split; [split; esimpl; done|by repeat split]. }
  set (e1 := if SendWorriedLimit e <? SendLastContig e then _ else e).
  assert (source_at e1 top /\ kept e e1 /\ SendLastContig e <= SendWorriedLimit e1 /\ SendAckLimit e1 = SendAckLimit e) as (Hs1 & Hk1 & Hw1 & Ha1).
  { unfold e1. destruct (Z.ltb_spec (SendWorriedLimit e) (SendLastContig e)); [|split_and!; done].
    split_and!; [split; esimpl; try done; split; [done|lia]|by repeat split|esimpl; lia|done]. }
  clearbody e1. pose proof (sf_last _ _ (kp_frame _ _ Hk1)) as Hl1.
  destruct (worried_scan_ok (Z.to_nat (SendAckLimit e1 - SendWorriedLimit e1)) (SendAckLimit e1)
    (u32 ((PacketSize e1 + HDR) * u32 (SendAckLimit e1 - SendLastContig e1))) e1) as (e2 & j & E & Hj & Hw).
  { apply (so_mask _ _ _ _ _ _ Hs1). }
  { rewrite Hl1. lia. }
  { rewrite Hl1, Ha1. lia. }
  rewrite E. cbn [rbind]. eexists _, _. split; [reflexivity|].
  pose proof (waited_source _ _ _ Hw Hs1) as [A1 A2 A3 A4 A5 A6 A7 [A8 A8'] A9 A10 A11].
  assert (kept e1 e2) as Hk2 by (destruct Hw as [W1 W2 W3 _ W5 _ _]; split; rewrite ?W2, ?W3; try done; split; by rewrite ?W2, ?W3).
  split; [|etrans; [exact Hk1|]; etrans; [exact Hk2|by repeat split]].
  split; esimpl; try done. split; [done|]. rewrite (wa_source _ _ Hw) in *. lia.
Qed.

(** ** Sending *)
Lemma send_kept e e1 top i p p' : source_at e top -> SendLastContig e < i <= top -> ThesePackets e !! PBUFF i = Some p -> resent p p' ->
  e1 = ticked e -> source_at (emit p' (putp i p' e1)) top /\ kept e (emit p' (putp i p' e1)).
Proof using G. intros H Hi Hp Hr He. destruct (send_ok _ _ _ _ G e e1 top i p p' H Hi Hp Hr He) as [Hs Hf]. split; [done|]. subst e1. by split. Qed.

Lemma resent_first p : has (Z.lor (SEFlags p) SFTP_FIRST) SFTP_MOREDATA = has (SEFlags p) SFTP_MOREDATA.
Proof using. change SFTP_FIRST with (2 ^ 4). apply has_other. lia. Qed.

Lemma SendFirstUnacked_ok e top winopen : source_at e top -> SendLastContig e < top ->
  exists e', SendFirstUnacked e winopen = Ret (e', 1) /\ source_at e' top /\ kept e e'.
Proof using G.
  intros H Hlt. destruct (so_slots _ _ _ _ _ _ H (SendLastContig e + 1) ltac:(lia)) as (p & Hp & _ & _).
  unfold SendFirstUnacked, getp. rewrite Hp. cbn [rbind]. unfold stamped. cbv zeta. eexists. split; [reflexivity|].
  eapply send_kept; [done|lia|exact Hp| |done]. split; esimpl; try done; try (by destruct winopen). apply resent_first.
Qed.

Lemma ResendWorried_ok e top : source_at e top -> exists e', ResendWorried e = Ret (e', 0) /\ source_at e' top /\ kept e e'.
Proof using G.
  intros H. unfold ResendWorried. destruct (decide (SendWorriedLimit e < SendLastContig e)).
  { rewrite forZ_none by lia. cbn. exists e. split_and!; done. }
  destruct (forZ_total (fun k (st : entry * bool) => source_at st.1 top /\ kept e st.1)
    (SendLastContig e + 1) (SendWorriedLimit e + 1) (fun i (st : entry * bool) =>
    let (e', acked) := st in
    let* b := TESTBIT (SendTheseBits e') (i - SendLastContig e') in
    if b then Ret (e', acked)
    else
      let* pb := getp e' i in
      let pb := set_Flags (if acked then Z.ldiff (Flags pb) SFTP_ACKME else Z.lor (Flags pb) SFTP_ACKME) pb in
      let pb := if i =? SendLastContig e + 1 then set_SEFlags (Z.lor (SEFlags pb) SFTP_FIRST) pb else pb in
      let pb := set_Flags (Z.lor (Flags pb) RPC2_RETRY) pb in
      let (e', pb) := stamped e' pb in
      Ret (emit pb (putp i pb e'), true)) (e, false)) as ([e' w] & E & Hs & Hk); [lia|done| |].
  - intros k [e1 w] Hk [Hs1 Hk1]. cbn in Hs1, Hk1. pose proof (sf_last _ _ (kp_frame _ _ Hk1)) as Hl1. pose proof (kp_most _ _ Hk1) as Hm1.
    pose proof (so_window _ _ _ _ _ _ Hs1) as W1. pose proof (so_limits _ _ _ _ _ _ H) as [_ W2]. pose proof (so_top _ _ _ _ _ _ Hs1) as W3. pose proof (ge_window _ _ _ G) as Gw.
    rewrite TESTBIT_ok by (apply (so_mask _ _ _ _ _ _ Hs1) || lia). cbn [rbind].
    destruct (mbit _ _); [eexists; split; [reflexivity|done]|].
    destruct (so_slots _ _ _ _ _ _ Hs1 k ltac:(lia)) as (p & Hp & _ & _). unfold getp. rewrite Hp. cbn [rbind]. unfold stamped. cbv zeta.
    eexists. split; [reflexivity|]. cbn [fst].
    set (p1 := if k =? _ then _ else _).
    assert (resent p p1) as [B1 B2 B3 B4 B5 B6].
    { unfold p1. destruct (k =? SendLastContig e + 1), w; split; esimpl; try done; apply resent_first. }
    destruct (send_kept e1 (ticked e1) top k p (set_times (u32 (clock (tick e1))) (if VALID_TIMEECHO e1 then TimeEcho e1 else 0) (set_Flags (Z.lor (Flags p1) RPC2_RETRY) p1)))
      as [Hs2 Hk2]; [done|lia|done|split; esimpl; done|done|]. split; [done|by etrans].
  - cbv zeta in E. rewrite E. cbn. by exists e'.
Qed.

(** SendSendAhead sends what was read. *)
Lemma send_one_ok e top dont j i : source_at e top -> SendMostRecent e < top ->
  exists e', send_one dont j i e = Ret e' /\ source_at e' top /\ sframe e e' /\ SendMostRecent e' = SendMostRecent e + 1 /\
    ReadAheadCount e' = ReadAheadCount e /\ HitEOF e' = HitEOF e.
Proof using G.
  intros H Hlt. pose proof H as [H1 H2 H3 H4 H5 H6 H7 [H8 H8'] H9 H10 H11]. pose proof (ge_seq _ _ _ G) as Gq.
  unfold send_one. cbv zeta. esimpl. rewrite uwrap_small by lia. destruct (H6 (SendMostRecent e + 1) ltac:(lia)) as (p & Hp & _ & _).
  unfold getp. esimpl. rewrite Hp. cbn [rbind]. set (ack := negb dont && _).
  set (e1 := if ack then _ else _). set (p1 := if ack then set_Flags _ p else p).
  assert (source_at e1 top /\ sframe e e1 /\ SendMostRecent e1 = SendMostRecent e + 1 /\ ReadAheadCount e1 = ReadAheadCount e /\ HitEOF e1 = HitEOF e /\
    SendLastContig e1 = SendLastContig e /\ ThesePackets e1 = ThesePackets e) as (Hs1 & Hf1 & Hm1 & Hr1 & He1 & Hl1 & Ht1).
  { unfold e1. destruct ack; split_and!; try done; split; esimpl; try done; lia. }
  clearbody e1. set (p2 := if (i =? 0) && _ then _ else p1). unfold stamped. eexists. split; [reflexivity|].
  assert (resent p p2) as [B1 B2 B3 B4 B5 B6].
  { unfold p2, p1. destruct ((i =? 0) && _), ack; split; esimpl; try done; apply resent_first. }
  rewrite <- Hm1 in Hp. esimpl. change (e_source (ticked e1)) with (e_source e1).
  destruct (send_kept e1 (ticked e1) top (SendMostRecent e1) p (set_times (u32 (clock (tick e1))) (if VALID_TIMEECHO e1 then TimeEcho e1 else 0) p2))
    as [Hs2 [Hf2 Hm2 Hr2 He2]]; [done|lia|by rewrite Ht1|split; esimpl; done|done|].
  split_and!; [done|by etrans|congruence..].
Qed.

Lemma SendSendAhead_ok (e : entry) n : ReadAheadCount e = n -> 1 <= n -> source_at e (SendMostRecent e + n) ->
  exists e', SendSendAhead e = Ret (e', 0) /\ source_at e' (SendMostRecent e') /\ sframe e e' /\ SendMostRecent e' = SendMostRecent e + n /\
    ReadAheadCount e' = 0 /\ HitEOF e' = HitEOF e.
Proof using G.
  intros Hn Hn1 H. unfold SendSendAhead. rewrite Hn. destruct (Z.eqb_spec n 0); [lia|]. cbv zeta.
  set (e1 := if n <? SendAhead e then ticked e else e).
  assert (source_at e1 (SendMostRecent e + n) /\ sframe e e1 /\ e_source e1 = e_source e /\ HitEOF e1 = HitEOF e) as (Hs1 & Hf1 & Hm1 & He1).
  { unfold e1. destruct (n <? SendAhead e); split_and!; try done. by destruct H; split. }
  clearbody e1. rewrite Hm1, Hn.
  set (dont := _ && _). set (j := u32 _).
  destruct (forZ_total (fun k e' => source_at e' (SendMostRecent e + n) /\ sframe e e' /\ SendMostRecent e' = SendMostRecent e + k /\ ReadAheadCount e' = n /\ HitEOF e' = HitEOF e)
    0 n (send_one dont j) e1) as (e' & -> & Hs & Hf & Hm & Hr & He); [lia|rewrite Hm1; split_and!; try done; lia| |].
  - intros k e2 Hk (Hs2 & Hf2 & Hm2 & Hr2 & He2). destruct (send_one_ok e2 _ dont j k Hs2) as (e3 & E & Hs3 & Hf3 & Hm3 & Hr3 & He3); [lia|].
    exists e3. split_and!; try done; [by etrans|lia|congruence|congruence].
  - cbn [rbind]. eexists. split; [reflexivity|]. esimpl. split_and!; try done; [|by destruct Hf; split].
    rewrite Hm. destruct Hs. split; esimpl; done.
Qed.

(** ** The strategy *)

(** The source between two events: everything read has been sent. *)
Record settled (e : entry) : Prop := Settled { se_source : source_at e (SendMostRecent e); se_count : ReadAheadCount e = 0 }.

Definition sent_ok (e : entry) : Prop := Forall data_packet (outs e).

Lemma source_sent e top : source_at e top -> sent_ok e.
Proof using. intros H. eapply Forall_impl; [apply (so_outs _ _ _ _ _ _ H)|]. cbn. by intros p []. Qed.

Lemma kept_settled e e' : settled e -> source_at e' (SendMostRecent e) -> kept e e' -> settled e'.
Proof using. intros [H1 H2] H [K1 K2 K3 K4]. split; [by rewrite K2|congruence]. Qed.

Definition open (e : entry) : Prop := SendAhead P + SendMostRecent e - SendLastContig e <= WindowSize P.

Lemma read_step e : source_at e (SendMostRecent e) -> ReadAheadCount e = 0 -> exists e' rc, sftp_ReadStrategy e = Ret (e', rc) /\ sframe e e' /\
  ((rc = -1 /\ outs e' = outs e /\ unreadable e') \/
   (rc = 0 /\ SendMostRecent e' = SendMostRecent e /\ exists n, ReadAheadCount e' = n /\ source_at e' (SendMostRecent e + n) /\
      ((n = 0 /\ HitEOF e' = HitEOF e /\ (HitEOF e = true \/ ~ open e)) \/ (1 <= n /\ open e)))).
Proof using G Hmax.
  intros H Hc. destruct (HitEOF e) eqn:He; [|destruct (decide (open e)) as [Ho|Ho]].
  - exists e, 0. unfold sftp_ReadStrategy. rewrite He. split_and!; try done. right. split_and!; try done. exists 0. rewrite Z.add_0_r. split_and!; try done. left. split_and!; try done. by left.
  - destruct (sftp_ReadStrategy_ok F P S0 call G Hmax e H He Ho) as (e' & rc & E & [(-> & Ho' & Hf & Hu)|(-> & n & [[N1 N2] N3 N4 N5 _])]); exists e'.
    + exists (-1). split_and!; try done. by left.
    + exists 0. split_and!; try done. right. split_and!; try done. exists n. split_and!; try done. right. split; [lia|done].
  - exists e, 0. unfold sftp_ReadStrategy. rewrite He, (WinIsOpen_ok _ _ _ _ G Hmax _ _ H). unfold open in Ho.
    destruct (Z.leb_spec (SendAhead P + SendMostRecent e - SendLastContig e) (WindowSize P)); [lia|]. cbn [negb].
    split_and!; try done. right. split_and!; try done. exists 0. rewrite Z.add_0_r. split_and!; try done. left. split_and!; try done. right. unfold open. lia.
Qed.

Lemma sftp_SendStrategy_ok e : settled e -> exists e' rc, sftp_SendStrategy e = Ret (e', rc) /\ sframe e e' /\
  ((rc = -1 /\ outs e' = outs e /\ unreadable e') \/
   (0 <= rc /\ settled e' /\ SendMostRecent e <= SendMostRecent e' /\ (SendLastContig e < SendMostRecent e \/ HitEOF e = false -> SendLastContig e' < SendMostRecent e'))).
Proof using G Hmax.
  intros [H Hc]. unfold sftp_SendStrategy. cbv zeta. set (e1 := ticked _).
  assert (source_at e1 (SendMostRecent e1) /\ kept e e1 /\ outs e1 = outs e) as (Hs1 & Hk1 & Ho1) by (split_and!; [by destruct H; split|by repeat split|done]).
  clearbody e1. pose proof Hk1 as [Hf1 Hm1 Hr1 He1]. rewrite Hr1, Hc. cbn [Z.eqb].
  pose proof (so_last _ _ _ _ _ _ H) as Hlast. pose proof (ge_ahead _ _ _ G) as Ga. pose proof (sf_last _ _ Hf1) as Hl1.
  destruct (read_step e1 Hs1) as (e2 & rc & -> & Hf2 & Hr); [congruence|]. cbn [rbind].
  assert (sframe e e2) as Hf02 by by etrans. destruct Hr as [(-> & Ho2 & Hu2)|(-> & Hm2 & n & Hn & Hs2 & Hcase)]; cbn [Z.ltb Z.compare].
  { eexists _, (-1). split_and!; try done. left. split; [done|]. split; [congruence|done]. }
  pose proof (sf_last _ _ Hf2) as Hl2. rewrite (WinIsOpen_ok _ _ _ _ G Hmax _ _ Hs2), Hn.
  assert (((0 <? n) || HitEOF e2 || negb (SendAhead P + SendMostRecent e2 - SendLastContig e2 <=? WindowSize P)) = true) as ->.
  { destruct Hcase as [(-> & -> & [-> | Ho])|[Hn1 _]]; [done| |destruct (Z.ltb_spec 0 n); [done|lia]].
    unfold open in Ho. rewrite Hm2, Hl2. destruct (Z.leb_spec (SendAhead P + SendMostRecent e1 - SendLastContig e1) (WindowSize P)); [lia|]. by rewrite orb_true_r. }
  cbn [cassert rbind].
  assert (exists e3 w, (if bool_decide (WhoAmI e2 = SFCLIENT) || Retransmitting e2 then CheckWorried e2 else Ret (e2, false)) = Ret (e3, w) /\
    source_at e3 (SendMostRecent e1 + n) /\ kept e2 e3) as (e3 & w & -> & Hs3 & Hk3).
  { destruct (_ || _); [by apply CheckWorried_ok|]. by exists e2, false. }
  cbn [rbind]. pose proof Hk3 as [Hf3 Hm3 Hr3 He3]. pose proof (sf_last _ _ Hf3) as Hl3. assert (sframe e e3) as Hf03 by by etrans.
  destruct (Z.leb_spec (SendAhead P + SendMostRecent e2 - SendLastContig e2) (WindowSize P)) as [Hop|Hop]; cbn [negb].
  - destruct (Z.ltb_spec 0 (ReadAheadCount e3)) as [Hpos|Hpos].
    + assert (exists e4 rc, (if w then SendFirstUnacked e3 true else Ret (e3, 0)) = Ret (e4, rc) /\ 0 <= rc /\ source_at e4 (SendMostRecent e1 + n) /\ kept e3 e4)
        as (e4 & rc & -> & Hrc & Hs4 & Hk4).
      { destruct w; [|by exists e3, 0]. destruct (SendFirstUnacked_ok e3 _ true Hs3) as (e4 & -> & Hs4 & Hk4); [lia|]. exists e4, 1. split_and!; done || lia. }
      cbn [rbind]. destruct (Z.ltb_spec rc 0); [lia|]. pose proof Hk4 as [Hf4 Hm4 Hr4 He4]. pose proof (sf_last _ _ Hf4) as Hl4.
      destruct (SendSendAhead_ok e4 n) as (e5 & -> & Hs5 & Hf5 & Hm5 & Hr5 & He5); [congruence|lia|by rewrite Hm4, Hm3, Hm2|].
      pose proof (sf_last _ _ Hf5). exists e5, 0. split_and!; [done|by repeat (etrans; [done|])|]. right. split_and!; [lia|by split|lia|lia].
    + destruct (ResendWorried_ok e3 _ Hs3) as (e4 & -> & Hs4 & Hk4). pose proof Hk4 as [Hf4 Hm4 Hr4 He4]. pose proof (sf_last _ _ Hf4) as Hl4.
      destruct Hcase as [(-> & He2 & [He|Ho])|[? _]]; [|unfold open in Ho; lia|lia]. rewrite Z.add_0_r in *.
      exists e4, 0. split_and!; [done|by etrans|]. right. split_and!; [lia|split; [|congruence]|lia|].
      * by rewrite Hm4, Hm3, Hm2.
      * intros [?|?]; [lia|]. congruence.
  - destruct Hcase as [(-> & He2 & _)|[_ Ho]]; [|unfold open in Ho; lia]. rewrite Z.add_0_r in *.
    destruct (SendFirstUnacked_ok e3 _ false Hs3) as (e4 & -> & Hs4 & Hk4); [lia|]. pose proof Hk4 as [Hf4 Hm4 Hr4 He4]. pose proof (sf_last _ _ Hf4) as Hl4.
    exists e4, 1. split_and!; [done|by etrans|]. right. split_and!; [lia|split; [|congruence]|lia|lia]. by rewrite Hm4, Hm3, Hm2.
Qed.

End Send.
End SftpSend.
