(* ===== verification/SftpAck.v ===== *)
(** * The source of a transfer: an arriving ack

    sftp_AckArrived for any ack that names no packet that was not sent. *)
From Stdlib Require Import ZArith Lia Bool.
From stdpp Require Import base list numbers gmap.
From S2P Require Import Prelude.
From S2P Require Import Text.
From S2P Require Import SftpMask.
From S2P Require Import SftpEntry.
From S2P Require Import SftpCode.
From S2P Require Import SftpFile.
From S2P Require Import SftpSource.
From S2P Require Import SftpRead.
From S2P Require Import SftpSend.
Import SftpMask SftpEntry SftpCode SftpFile SftpSource SftpRead SftpSend.
Open Scope Z_scope.

Module SftpAck.

(** ** The flag set in the wrong byte order *)
Definition bytes_rev (u : Z) : Z := u mod 256 * 2 ^ 24 + u / 256 mod 256 * 2 ^ 16 + u / 65536 mod 256 * 2 ^ 8 + u / 16777216 mod 256.

Lemma htonl_rev w : htonl w = bytes_rev (u32 w) /\ 0 <= bytes_rev (u32 w) < 2 ^ 32.
Proof.
  unfold htonl, bswap32. fold (bytes_rev (u32 w)). assert (0 <= bytes_rev (u32 w) < 2 ^ 32) as Hb by (unfold bytes_rev; zdm).
  split; [|done]. rewrite uwrap_swrap by lia. by apply uwrap_small.
Qed.

Lemma htonl_bit0 w : Z.testbit (htonl w) 0 = Z.testbit w 24.
Proof.
  rewrite (proj1 (htonl_rev w)). apply Z.b2z_inj. rewrite !Z.testbit_spec' by lia. unfold bytes_rev, uwrap. zdm.
Qed.

Lemma htonl_bit24 w : Z.testbit (htonl w) 24 = Z.testbit w 0.
Proof.
  rewrite (proj1 (htonl_rev w)). apply Z.b2z_inj. rewrite !Z.testbit_spec' by lia. unfold bytes_rev, uwrap. zdm.
Qed.

Lemma has_marked v : has (htonl (Z.lor (htonl v) SFTP_COUNTED)) SFTP_MOREDATA = has v SFTP_MOREDATA.
Proof.
  unfold has, SFTP_MOREDATA. change 1 with (Z.shiftl 1 0). rewrite !land_pm by lia.
  rewrite htonl_bit0, Z.lor_spec, htonl_bit24. change (Z.testbit SFTP_COUNTED 24) with false. apply orb_false_r.
Qed.

Section Ack.
Context {env : SftpEnv}.
Context (F : list Z) (P : parms) (S0 call : Z) (G : geometry F P S0) (Hmax : SFTP_MaxPackets <= 0).
Abbreviation data_packet := (data_packet F P S0 call).
Abbreviation npackets := (npackets F P).
Abbreviation source_at := (source_at F P S0 call).
Abbreviation settled := (settled F P S0 call).

(** An ack that says of no packet beyond the last one sent that it has arrived. *)
Record plausible (e : entry) (p : packet) : Prop := Plausible {
  pl_got : 0 <= GotEmAll p < 2 ^ 32;
  pl_mask : mask_ok (BitMask p);
  pl_bits : forall i, mbit (BitMask p) i = true -> GotEmAll p + i <= SendMostRecent e
}.

Lemma acked_prefix_ok p e : source_at e (SendMostRecent e) -> SendLastContig e <= GotEmAll p <= SendMostRecent e -> exists n, acked_prefix p e = Ret n.
Proof using G.
  intros H Hg. pose proof (so_last _ _ _ _ _ _ H). pose proof (so_top _ _ _ _ _ _ H). pose proof (ge_seq _ _ _ G).
  unfold acked_prefix. rewrite uwrap_small by lia.
  destruct (forZ_total (fun _ (_ : Z) => True) (SendLastContig e + 1) (GotEmAll p + 1) (fun i n =>
    let* pb := getp e i in Ret (if has (SEFlags pb) SFTP_COUNTED then n else n + LengthOfPacket pb)) 0) as (n & E & _); [lia|done| |by exists n].
  intros k n Hk _. destruct (so_slots _ _ _ _ _ _ H k ltac:(lia)) as (q & Hq & _). unfold getp. rewrite Hq. cbn [rbind]. by eexists.
Qed.

Lemma acked_mask_ok p e n : source_at e (SendMostRecent e) -> SendLastContig e <= GotEmAll p <= SendMostRecent e -> plausible e p ->
  exists e' n', acked_mask p e n = Ret (e', n') /\ source_at e' (SendMostRecent e) /\ kept e e' /\ outs e' = outs e.
Proof using G.
  intros H Hg [P1 P2 P3]. unfold acked_mask.
  destruct (forZ_total (fun _ (st : entry * Z) => source_at st.1 (SendMostRecent e) /\ kept e st.1 /\ outs st.1 = outs e) 1 (4 * BITMASKWIDTH + 1) (fun i (st : entry * Z) =>
    let (e, n) := st in
    let* b := TESTBIT (BitMask p) i in
    if negb b then Ret (e, n)
    else
      let* pb := getp e (GotEmAll p + i) in
      if negb (has (SEFlags pb) SFTP_COUNTED) && (PTimeEcho p <=? TimeStamp pb)
      then Ret (putp (GotEmAll p + i) (set_SEFlags (htonl (Z.lor (htonl (SEFlags pb)) SFTP_COUNTED)) pb) e,
                n + LengthOfPacket pb)
      else Ret (e, n)) (e, n)) as ([e' n'] & -> & Hs & Hk & Ho); [change BITMASKWIDTH with 2; lia|done| |by exists e', n'].
  intros k [e1 n1] Hk (Hs1 & Hk1 & Ho1). cbn [fst] in Hs1, Hk1, Ho1. change BITMASKWIDTH with 2 in Hk.
  rewrite TESTBIT_ok by (done || lia). cbn [rbind]. destruct (mbit (BitMask p) k) eqn:Eb; cbn [negb]; [|by eexists].
  specialize (P3 k Eb). pose proof (sf_last _ _ (kp_frame _ _ Hk1)) as Hl1.
  destruct (so_slots _ _ _ _ _ _ Hs1 (GotEmAll p + k) ltac:(lia)) as (q & Hq & Hd & Hseq). unfold getp. rewrite Hq. cbn [rbind].
  destruct (_ && _); (eexists; split; [reflexivity|]); [|done]. cbn [fst]. split_and!; [|destruct Hk1 as [[] ? ? ?]; by repeat split|done].
  pose proof Hs1 as [H1 H2 H3 H4 H5 H6 H7 H8 H9 H10 H11]. split; esimpl; try done.
  intros s Hs. destruct (decide (s = GotEmAll p + k)) as [-> | N].
  - rewrite lookup_insert_eq. eexists. split; [reflexivity|]. split; [|done]. eapply data_packet_keep; [exact Hd|done..|]. apply has_marked.
  - rewrite lookup_insert_ne; [by apply H6|]. intros E. apply N. symmetry.
    apply (window_slots F P S0 call G e1 (SendMostRecent e) (GotEmAll p + k) s Hs1); [lia|pose proof (ge_window _ _ _ G); lia|done].
Qed.

(** The window moves on to [g]. *)
Lemma release_ok e g p : source_at e (SendMostRecent e) -> SendLastContig e <= g <= SendMostRecent e -> mask_ok (BitMask p) ->
  exists e', forZ 0 (g - SendLastContig e) (fun i (e : entry) => Ret (drop_packet (SendLastContig e - i) e)) (set_SendTheseBits (BitMask p) (set_SendLastContig g e)) = Ret e' /\
    source_at e' (SendMostRecent e) /\ SendLastContig e' = g /\ SendMostRecent e' = SendMostRecent e /\ ReadAheadCount e' = ReadAheadCount e /\
    e_status e' = e_status e /\ outs e' = outs e.
Proof using G.
  intros H Hg Hm. pose proof (ge_window _ _ _ G) as Gw. pose proof (so_window _ _ _ _ _ _ H) as Hw. set (e1 := set_SendTheseBits _ _).
  destruct (forZ_total (fun k e' => e_parms e' = e_parms e1 /\ e_status e' = e_status e1 /\ e_source e' = e_source e1 /\ e_file e' = e_file e1 /\ outs e' = outs e1 /\
    forall s, g < s <= SendMostRecent e -> ThesePackets e' !! PBUFF s = ThesePackets e !! PBUFF s)
    0 (g - SendLastContig e) (fun i (e : entry) => Ret (drop_packet (SendLastContig e - i) e)) e1) as (e' & E & R1 & R2 & R3 & R4 & R5 & R6); [lia|done| |].
  - intros k e2 Hk (R1 & R2 & R3 & R4 & R5 & R6). eexists. split; [reflexivity|]. esimpl. split_and!; try done.
    intros s Hs. rewrite lookup_delete_ne; [by apply R6|]. rewrite R3. unfold e1. esimpl. intros E. apply PBUFF_inj in E; lia.
  - exists e'. split; [done|]. unfold e1 in *. rewrite R2, R3, R5. esimpl. split_and!; try done.
    pose proof H as [H1 H2 H3 H4 H5 H6 H7 H8 H9 H10 H11]. split; rewrite ?R1, ?R2, ?R3, ?R4, ?R5; esimpl; try done; try lia.
    intros s Hs. rewrite R6 by lia. apply H6. lia.
Qed.

Lemma source_status e e' top : source_at e top -> e_parms e' = e_parms e -> e_source e' = e_source e -> e_file e' = e_file e -> outs e' = outs e ->
  ThesePackets e' = ThesePackets e -> HitEOF e' = HitEOF e -> CallNumber e' = CallNumber e -> source_at e' top.
Proof using. intros [] E1 E2 E3 E4 E5 E6 E7. split; rewrite ?E1, ?E2, ?E3, ?E4, ?E5, ?E6, ?E7; done. Qed.

(** The cases of sftp_AckArrived: an ack of the past is ignored by a client, an ack
    outside of the window is an error; otherwise the window moves. *)
Inductive ack_case (p : packet) (e e' : entry) : Z -> Prop :=
| ack_again : GotEmAll p = SendLastContig e -> e' = e -> ack_case p e e' 0
| ack_outside : ~ SendLastContig e <= GotEmAll p <= SendMostRecent e -> e' = e -> ack_case p e e' (-1)
| ack_finished : GotEmAll p = S0 + npackets -> GotEmAll p = SendMostRecent e -> settled e' -> SendLastContig e' = GotEmAll p -> SendMostRecent e' = SendMostRecent e ->
    XferState e' = XferCompleted -> ack_case p e e' 0
| ack_more : SendLastContig e <= GotEmAll p <= SendMostRecent e -> settled e' -> SendLastContig e' = GotEmAll p ->
    SendMostRecent e <= SendMostRecent e' -> XferState e' = XferInProgress -> ack_case p e e' 0
| ack_unread : SendLastContig e <= GotEmAll p <= SendMostRecent e -> SendLastContig e' = GotEmAll p -> outs e' = outs e ->
    XferState e' = XferInProgress -> unreadable e' -> ack_case p e e' (-1).

Lemma sftp_AckArrived_ok p e : settled e -> plausible e p -> exists e' rc, sftp_AckArrived p e = Ret (e', rc) /\ ack_case p e e' rc.
Proof using G Hmax.
  intros [H Hc] Hp. pose proof Hp as [P1 P2 P3]. pose proof (so_last _ _ _ _ _ _ H) as Hl. pose proof (so_top _ _ _ _ _ _ H) as Ht.
  pose proof (so_window _ _ _ _ _ _ H) as Hw. pose proof (ge_window _ _ _ G) as Gw. pose proof (ge_seq _ _ _ G) as Gq.
  unfold sftp_AckArrived. cbv zeta. set (prun := u32 (GotEmAll p - SendLastContig e)).
  assert (0 <= prun < 2 ^ 32) as Hpr by (apply uwrap_bound; lia). destruct (Z.ltb_spec prun 0); [lia|].
  assert (prun = 0 <-> GotEmAll p = SendLastContig e) as Hz.
  { split; [|intros E; unfold prun; rewrite E, Z.sub_diag; done]. intros E. unfold prun, uwrap in E. zdm. }
  destruct ((prun =? 0) && bool_decide (WhoAmI e = SFCLIENT)) eqn:Ed.
  { apply andb_true_iff in Ed as [Ed%Z.eqb_eq _]. exists e, 0. split; [done|]. apply ack_again; [by apply Hz|done]. }
  rewrite (uwrap_small 32 (SendMostRecent e - SendLastContig e)) by lia. rewrite Z.gtb_ltb.
  destruct (Z.ltb_spec (SendMostRecent e - SendLastContig e) prun) as [Hb|Hb].
  { exists e, (-1). split; [done|]. apply ack_outside; [|done]. intros [? ?]. unfold prun in Hb. rewrite uwrap_small in Hb by lia. lia. }
  assert (prun = GotEmAll p - SendLastContig e) as Ep.
  { unfold prun in *. destruct (decide (SendLastContig e <= GotEmAll p)); [apply uwrap_small; lia|]. unfold uwrap in *. zdm. }
  assert (SendLastContig e <= GotEmAll p <= SendMostRecent e) as Hg by lia.
  set (cnt := if _ && _ then _ else Ret e). assert (exists e1, cnt = Ret e1 /\ source_at e1 (SendMostRecent e) /\ kept e e1 /\ outs e1 = outs e) as (e1 & -> & Hs1 & Hk1 & Ho1).
  { unfold cnt. clear Ed. destruct (_ && _); [|by exists e]. destruct (acked_prefix_ok p e H Hg) as [n ->]. cbn [rbind].
    destruct (acked_mask_ok p e n H Hg Hp) as (e1 & n' & -> & Hs & Hk & Ho). cbn [rbind].
    destruct (n' =? 0); (eexists; split; [reflexivity|]); [done|]. split_and!; [by eapply source_status|destruct Hk as [[] ? ? ?]; by repeat split|done]. }
  cbn [rbind]. pose proof Hk1 as [Hf1 Hm1 Hr1 He1]. pose proof (sf_last _ _ Hf1) as Hl1.
  set (e2 := set_TimeEcho (TimeStamp p) e1).
  assert (SendMostRecent e2 = SendMostRecent e /\ SendLastContig e2 = SendLastContig e /\ ReadAheadCount e2 = 0 /\ HitEOF e2 = HitEOF e /\ outs e2 = outs e)
    as (Hm2 & Hl2 & Hr2 & He2 & Ho2) by (unfold e2; esimpl; split_and!; congruence).
  assert (source_at e2 (SendMostRecent e2)) as Hs2 by (rewrite Hm2; by eapply source_status). clearbody e2.
  destruct (release_ok e2 (GotEmAll p) p Hs2) as (e3 & E3 & Hs3 & Hl3 & Hm3 & Hr3 & Hst3 & Ho3); [lia|done|].
  rewrite Ep, <- Hl2, E3. cbn [rbind]. clear E3. rewrite Hst3, He2, Hr3, Hr2, Hl3, Hm3, Hm2. cbn [Z.eqb].
  destruct (HitEOF e && true && (SendMostRecent e =? GotEmAll p)) eqn:Efin.
  - apply andb_true_iff in Efin as [[Ee _]%andb_true_iff Eg%Z.eqb_eq]. eexists _, 0. split; [reflexivity|].
    assert (source_at (set_XferState XferCompleted e3) (SendMostRecent e3)) as Hs4 by (rewrite Hm3; eapply source_status; done).
    pose proof (so_read _ _ _ _ _ _ H) as Hrd. rewrite Ee in Hrd. apply ack_finished; [lia|lia|split; [exact Hs4|esimpl; congruence]|esimpl; done|esimpl; congruence|done].
  - assert (settled (set_XferState XferInProgress e3)) as Hs4 by (split; [esimpl; rewrite Hm3; eapply source_status; done|esimpl; congruence]).
    destruct (sftp_SendStrategy_ok F P S0 call G Hmax _ Hs4) as (e4 & rc & -> & Hf4 & Hcase). cbn [rbind].
    pose proof (sf_last _ _ Hf4) as Hl4. pose proof (sf_xfer _ _ Hf4) as Hx4. esimpl.
    destruct Hcase as [(-> & Ho4 & Hu4)|(Hrc & Hs5 & Hm5 & Hlt)]; cbn [Z.ltb Z.compare].
    + exists e4, (-1). split; [done|]. apply ack_unread; try done; [congruence|]. esimpl. congruence.
    + destruct (Z.ltb_spec rc 0); [lia|]. esimpl. rewrite Hm3, Hm2 in *.
      assert (SendLastContig e4 < SendMostRecent e4) as Hlt4.
      { apply Hlt. rewrite Hl3. destruct (HitEOF e) eqn:Ee; [|right; by rewrite Hst3, He2]. cbn [andb] in Efin. apply Z.eqb_neq in Efin. left. lia. }
      rewrite Z.gtb_ltb. destruct (Z.ltb_spec (SendLastContig e4) (SendMostRecent e4)); [|lia]. cbn [cassert rbind].
      exists e4, 0. split; [done|]. apply ack_more; try done. congruence.
Qed.

End Ack.
End SftpAck.
