(* ===== verification/SftpDeliver.v ===== *)
(** * What the sink delivers

    A file is cut into the packets of a transfer (SftpSource) and these arrive in any
    order, any number of times, or not at all, while the sink asks for more with
    sftp_SendTrigger: what it writes is always a beginning of the file, it completes
    exactly when every packet is in, and it acknowledges only what has arrived. *)
From Stdlib Require Import ZArith Lia Bool.
From stdpp Require Import base list numbers gmap.
From S2P Require Import Prelude.
From S2P Require Import SftpMask.
From S2P Require Import SftpEntry.
From S2P Require Import SftpCode.
From S2P Require Import SftpFile.
From S2P Require Import SftpSink.
From S2P Require Import SftpArrive.
From S2P Require Import SftpSource.
Import SftpMask SftpEntry SftpCode SftpFile SftpSink SftpArrive SftpSource.
Open Scope Z_scope.

Module SftpDeliver.

(** What happens at the sink: a data packet comes in, or a timeout makes it ask again. *)
Inductive event := Arrives (p : packet) | Asks.

Section Deliver.
Context {env : SftpEnv}.

Definition handle_event (x : event) (e : entry) : res (entry * Z) :=
  match x with Arrives p => sftp_DataArrived p e | Asks => sftp_SendTrigger e end.

(** The transfer is given up at the first error. *)
Fixpoint receive (xs : list event) (e : entry) : res (entry * Z) :=
  match xs with
  | [] => Ret (e, 0)
  | x :: xs => let* (e, rc) := handle_event x e in if rc <? 0 then Ret (e, rc) else receive xs e
  end.

(** What a quota of [q] bytes leaves. *)
Definition cap (q : Z) (l : list Z) : list Z := if SFTP_EnforceQuota && (0 <? q) then take (Z.to_nat q) l else l.

(** The packets that an ack says have arrived. *)
Definition acked (p : packet) (s : Z) : Prop :=
  Opcode p = SFTP_ACK /\ (s <= GotEmAll p \/ mbit (BitMask p) (s - GotEmAll p) = true).

Context (F : list Z) (P : parms) (S0 call : Z).
Abbreviation data_packet := (data_packet F P S0 call).
Abbreviation last := (S0 + npackets F P).
Abbreviation b := (piece_len P).

Definition genuine (x : event) : Prop := match x with Arrives p => data_packet p | Asks => True end.
Definition numbers (xs : list event) : list Z := omap (fun x => match x with Arrives p => Some (SeqNumber p) | Asks => None end) xs.

(** A sink at the start of the transfer. *)
Record starts (e : entry) : Prop := {
  st_parms : e_parms e = P;
  st_last : RecvLastContig e = S0;
  st_most : RecvMostRecent e = S0;
  st_mask : RecvTheseBits e = B_Zero;
  st_eof : HitEOF e = false;
  st_state : XferState e <> XferCompleted;
  st_data : vf_data e = [];
  st_pos : vf_pos e = 0;
  st_bytes : BytesTransferred e = 0;
  st_outs : outs e = []
}.

Context (G : geometry F P S0) (q : Z).

(** The invariant, without the phase; [seen] are the numbers of the packets so far. *)
Record recv_at (seen : list Z) (e : entry) : Prop := RecvAt {
  ra_ok : sink_ok data_packet e;
  ra_parms : e_parms e = P;
  ra_lo : S0 <= RecvLastContig e;
  ra_hi : RecvMostRecent e <= last;
  ra_quota : ByteQuota e = q;
  ra_data : vf_data e = cap q (take (Z.to_nat ((RecvLastContig e - S0) * b)) F);
  ra_bytes : BytesTransferred e = zlen (vf_data e);
  ra_seen : forall s, got e s -> s <= S0 \/ s ∈ seen
}.

(** The phase. *)
Record phase_at (e : entry) : Prop := PhaseAt {
  pa_eof : HitEOF e = true <-> got e last;
  pa_done : XferState e = XferCompleted <-> HitEOF e = true /\ complete e;
  pa_all : XferState e = XferCompleted -> RecvLastContig e = RecvMostRecent e
}.

(** What holds whatever the outcome. *)
Record outcome (seen : list Z) (e : entry) : Prop := Outcome {
  oc_data : vf_data e `prefix_of` cap q F;
  oc_done : XferState e = XferCompleted -> vf_data e = cap q F;
  oc_acks : Forall (fun p => forall s, acked p s -> s <= S0 \/ s ∈ seen) (outs e)
}.

Lemma data_packet_Q p : data_packet p -> len_ok p /\ 0 <= SeqNumber p < 2 ^ 32.
Proof using G. intros []. destruct G. split; [done|lia]. Qed.
Lemma data_packet_stable : stable data_packet.
Proof using. intros p v Hp Hv. by eapply data_packet_keep. Qed.

(** ** Pieces *)
Lemma pieces_concat ps n : 0 <= n -> (forall i p, ps !! i = Some p -> data_packet p /\ SeqNumber p = S0 + n + 1 + Z.of_nat i) ->
  concat (payload <$> ps) = take (Z.to_nat (zlen ps * b)) (drop (Z.to_nat (n * b)) F).
Proof using G.
  pose proof (piece_len_pos _ _ _ G) as Hb. revert n. induction ps as [|p ps IH]; intros n Hn Hps; [done|].
  destruct (Hps 0%nat p eq_refl) as [Hp Hs]. cbn [fmap list_fmap concat]. rewrite (IH (n + 1)).
  - rewrite (dp_body _ _ _ _ _ Hp), Hs. unfold piece, bytes_at. rewrite zlen_cons.
    replace (S0 + n + 1 + Z.of_nat 0 - S0 - 1) with n by lia. pose proof (zlen_nonneg ps).
    replace (Z.to_nat ((1 + zlen ps) * b)) with (Z.to_nat b + Z.to_nat (zlen ps * b))%nat by nia.
    replace (Z.to_nat ((n + 1) * b)) with (Z.to_nat (n * b) + Z.to_nat b)%nat by nia.
    rewrite <- drop_drop. apply take_take_drop.
  - lia.
  - intros i p' Hq. destruct (Hps (S i) p' Hq) as [? ->]. split; [done|lia].
Qed.

Lemma cap_app f l k : ByteQuota f = q -> BytesTransferred f = zlen (cap q l) -> cap q l ++ qcut f k = cap q (l ++ k).
Proof using.
  intros Eq E. unfold cap, qcut, limited in *. rewrite Eq. destruct (SFTP_EnforceQuota && (0 <? q)) eqn:El; [|done].
  rewrite take_app. f_equal. f_equal. rewrite E. unfold zlen. rewrite length_take. lia.
Qed.

Lemma cap_prefix l k : l `prefix_of` k -> cap q l `prefix_of` cap q k.
Proof using.
  intros [m ->]. unfold cap. destruct (SFTP_EnforceQuota && (0 <? q)); [|by apply prefix_app_r].
  rewrite take_app. by apply prefix_app_r.
Qed.

(** ** The invariant *)
Lemma run_data seen e r ps : recv_at seen e -> run data_packet e r ps ->
  vf_data e ++ qcut e (concat (payload <$> ps)) = cap q (take (Z.to_nat ((RecvLastContig e + r - S0) * b)) F).
Proof using G.
  intros H [[Hl _] [Hr _] _ Hg]. pose proof (piece_len_pos _ _ _ G) as Hb. pose proof (ra_lo _ _ H).
  rewrite (pieces_concat ps (RecvLastContig e - S0)); [|lia|intros i p Hp; destruct (Hg i p Hp) as [? ->]; split; [done|lia]].
  rewrite (ra_data _ _ H), cap_app; [|apply H|rewrite (ra_bytes _ _ H), (ra_data _ _ H); done].
  f_equal. rewrite Hl, take_take_drop. f_equal. nia.
Qed.

Lemma recv_prefix seen e : recv_at seen e -> vf_data e `prefix_of` cap q F.
Proof using. intros H. rewrite (ra_data _ _ H). apply cap_prefix, prefix_take. Qed.

Lemma recv_core seen e e' : core e e' -> recv_at seen e -> recv_at seen e'.
Proof using.
  intros C [H1 H2 H3 H4 H5 H6 H7 H8]. pose proof C as [C1 C2 C3 C4 C5 [C6 _ _ _]].
  split; rewrite ?C1, ?C2, ?C5, ?C6; try done; [by eapply core_sink_ok|]. intros s. rewrite (core_got _ _ _ C). apply H8.
Qed.

Lemma recv_flushed seen e e' r ps : recv_at seen e -> flushed data_packet e e' r ps -> recv_at seen e'.
Proof using G.
  intros H Hf. pose proof (run_data _ _ _ _ H (fl_run _ _ _ _ _ Hf)) as Hd. pose proof H as [H1 H2 H3 H4 H5 H6 H7 H8].
  pose proof Hf as [[_ [Hr _] _ _] F1 F2 _ _ F5 F6 (_ & _ & F7) [F8 _ _ _]].
  split; rewrite ?F1, ?F2, ?F7, ?F8; try done; try lia.
  - by eapply flushed_sink_ok.
  - by rewrite F5.
  - by rewrite F5, F6, zlen_app, H7.
  - intros s. rewrite (flushed_got _ _ _ _ _ _ Hf). apply H8.
Qed.

Lemma recv_accepted seen p e e1 : data_packet p -> recv_at seen e -> accepted p e e1 -> recv_at (seen ++ [SeqNumber p]) e1.
Proof using G.
  intros Hp [H1 H2 H3 H4 H5 H6 H7 H8] A. pose proof A as [A1 _ A3 A4 _ _ A7 [A8 _ _ _]]. pose proof (dp_seq _ _ _ _ _ Hp).
  split; rewrite ?A3, ?A4, ?A7, ?A8; try done; try lia.
  - eapply accepted_sink_ok; [exact data_packet_Q|exact data_packet_stable|done..].
  - intros s. rewrite (accepted_got _ _ _ _ A), elem_of_app, list_elem_of_singleton. intros [-> | Hs]; [by right; right|].
    destruct (H8 s Hs); tauto.
Qed.

Lemma recv_more seen k e : recv_at seen e -> recv_at (seen ++ k) e.
Proof using. intros []. split; try done. intros s Hs. rewrite elem_of_app. destruct (ra_seen0 s Hs); tauto. Qed.

(** ** Acks *)
Definition acks_got (e : entry) : Prop := Forall (fun p => forall s, acked p s -> got e s) (outs e).

Lemma acks_step e e1 e' acks : acks_got e -> (forall s, got e s -> got e' s) -> (forall s, got e1 s -> got e' s) ->
  outs e' = outs e ++ acks -> Forall (describes e1) acks -> acks_got e'.
Proof using.
  intros Ha Hm Hm1 Ho Hd. unfold acks_got. rewrite Ho. apply Forall_app. split.
  - eapply Forall_impl; [exact Ha|]. cbn. auto.
  - eapply Forall_impl; [exact Hd|]. cbn. intros p (D1 & _ & _ & _ & D5 & D6) s [_ [Hs|Hs]]; [by apply Hm1, D5|].
    pose proof (mbit_range _ _ Hs). apply D6 in Hs; [|lia]. replace (GotEmAll p + (s - GotEmAll p)) with s in Hs by lia. auto.
Qed.

(** Acks are acks, and never ahead of what is written. *)
Definition acks_in (e : entry) : Prop :=
  Forall (fun p => Opcode p = SFTP_ACK /\ mask_ok (BitMask p) /\ 0 <= GotEmAll p <= RecvLastContig e) (outs e).

Lemma acks_in_step (e e1 e' : entry) acks : acks_in e -> RecvLastContig e <= RecvLastContig e' -> 0 <= RecvLastContig e1 ->
  outs e' = outs e ++ acks -> Forall (describes e1) acks -> behind e' acks -> acks_in e'.
Proof using.
  intros Ha Hle H1 Ho Hd Hb. unfold acks_in. rewrite Ho. apply Forall_app. split.
  - eapply Forall_impl; [exact Ha|]. cbn. intros p (A1 & A2 & A3). split_and!; try done; lia.
  - apply Forall_forall. intros p Hp. rewrite Forall_forall in Hd. unfold behind in Hb. rewrite Forall_forall in Hb. destruct (Hd p Hp) as (D1 & D2 & D3 & _).
    specialize (Hb p Hp). split_and!; try done; lia.
Qed.

Lemma flushed_last (e e' : entry) r ps : flushed data_packet e e' r ps -> RecvLastContig e <= RecvLastContig e'.
Proof using. intros Hf. rewrite (fl_last _ _ _ _ _ Hf). destruct (run_end _ _ _ _ (fl_run _ _ _ _ _ Hf)). lia. Qed.

Lemma recv_nonneg seen e : recv_at seen e -> 0 <= RecvLastContig e.
Proof using. intros H. apply (sk_lo _ _ (ra_ok _ _ H)). Qed.

(** ** The phase *)
Lemma complete_flushed e e' r ps : flushed data_packet e e' r ps -> complete e' <-> complete e.
Proof using. intros Hf. unfold complete. rewrite (fl_most _ _ _ _ _ Hf). by setoid_rewrite (flushed_got _ _ _ _ _ _ Hf). Qed.

Lemma phase_flushed e e' r ps : sink_ok data_packet e -> phase_at e -> flushed data_packet e e' r ps -> phase e' = phase e -> phase_at e'.
Proof using.
  intros Hok [H1 H2 H3] Hf [= Ew Ex Ee]. split; rewrite ?Ex, ?Ee.
  - by rewrite (flushed_got _ _ _ _ _ _ Hf).
  - by rewrite (complete_flushed _ _ _ _ Hf).
  - intros Hd. specialize (H3 Hd). rewrite (fl_last _ _ _ _ _ Hf), (fl_most _ _ _ _ _ Hf).
    destruct (run_end _ _ _ _ (fl_run _ _ _ _ _ Hf)). lia.
Qed.

Lemma phase_core e e' : phase_at e -> core e e' -> phase e' = phase e -> phase_at e'.
Proof using.
  intros [H1 H2 H3] C [= Ew Ex Ee]. split; rewrite ?Ex, ?Ee, ?(co_last _ _ C), ?(co_most _ _ C), ?(core_got _ _ _ C); try done.
  rewrite H2. unfold complete. rewrite (co_most _ _ C). by setoid_rewrite (core_got _ _ _ C).
Qed.

(** The last packet is the one without more data. *)
Lemma eof_accepted p e e1 : data_packet p -> phase_at e -> accepted p e e1 ->
  HitEOF e || negb (has (SEFlags p) SFTP_MOREDATA) = true <-> got e1 last.
Proof using.
  intros Hp [H1 _ _] A. rewrite orb_true_iff, H1, (accepted_got _ _ _ _ A), (dp_more _ _ _ _ _ Hp). pose proof (dp_seq _ _ _ _ _ Hp).
  destruct (Z.ltb_spec (SeqNumber p) last); cbn; split; (intros [?|?]); try (by left); try (by right); try done; try lia; left; lia.
Qed.

Lemma recv_done seen e : recv_at seen e -> phase_at e -> XferState e = XferCompleted -> vf_data e = cap q F.
Proof using G.
  intros H [H1 H2 H3] Hd. destruct (npackets_bounds _ _ _ G) as (_ & _ & Hn). apply H3 in Hd as El. apply H2 in Hd as [He _]. apply H1 in He.
  assert (RecvLastContig e = last) as E.
  { pose proof (ra_hi _ _ H). destruct He as [?|Hb]; [lia|]. destruct (sk_bits _ _ (ra_ok _ _ H) _ Hb) as [? _]. lia. }
  rewrite (ra_data _ _ H), E. f_equal. apply take_ge. unfold zlen in Hn. replace (last - S0) with (npackets F P) by lia. lia.
Qed.

Lemma recv_outcome seen e : recv_at seen e -> phase_at e -> acks_got e -> outcome seen e.
Proof using G.
  intros H Hp Ha. split; [by eapply recv_prefix|by eapply recv_done|].
  eapply Forall_impl; [exact Ha|]. cbn. intros p Hs s Hk. by apply (ra_seen _ _ H), Hs.
Qed.

(** After a failed write the transfer is not complete. *)
Lemma failed_outcome seen e e' : recv_at seen e -> failed data_packet e e' -> acks_got e' -> XferState e' <> XferCompleted -> outcome seen e'.
Proof using G.
  intros H Hf Ha Hx. destruct (fa_data _ _ _ Hf) as (r & ps & l & Hr & Hd & Hl). split.
  - rewrite Hd. etrans; [by apply prefix_app|]. rewrite (run_data _ _ _ _ H Hr). apply cap_prefix, prefix_take.
  - done.
  - eapply Forall_impl; [exact Ha|]. cbn. intros p Hs s Hk. apply (ra_seen _ _ H). specialize (Hs s Hk).
    unfold got in *. by rewrite <- (fa_last _ _ _ Hf), <- (fa_mask _ _ _ Hf).
Qed.

Lemma failed_running seen e e' : recv_at seen e -> phase_at e -> failed data_packet e e' -> XferState e <> XferCompleted.
Proof using.
  intros H [_ _ H3] Hf Hx. specialize (H3 Hx). destruct (sk_bits _ _ (ra_ok _ _ H) _ (fa_some _ _ _ Hf)) as [? _]. lia.
Qed.

Lemma failed_got e e' s : failed data_packet e e' -> got e' s <-> got e s.
Proof using. intros Hf. unfold got. by rewrite (fa_last _ _ _ Hf), (fa_mask _ _ _ Hf). Qed.

(** ** A step *)

(** Where the sink stands between two events. *)
Record standing (seen : list Z) (e : entry) : Prop := Standing {
  sg_recv : recv_at seen e;
  sg_phase : phase_at e;
  sg_got : acks_got e;
  sg_acks : acks_in e
}.

(** Why it gave up: the file could not be written, or a packet was beyond the window. *)
Definition gave_up (xs : list event) (e : entry) : Prop :=
  WhoAmI e = DISKERROR \/ exists p, Arrives p ∈ xs /\ RecvLastContig e + WindowSize P < SeqNumber p.

Definition stepped (x : event) (seen : list Z) (e e' : entry) (rc : Z) : Prop :=
  RecvLastContig e <= RecvLastContig e' /\ ((rc = 0 /\ standing seen e' /\ (forall s, got e s -> got e' s) /\ (SFTP_MaxPackets <= 0 -> forall s, s ∈ numbers [x] -> got e' s)) \/
  (rc = -1 /\ outcome seen e' /\ gave_up [x] e' /\ (XferState e = XferCompleted -> XferState e' = XferCompleted))).

Lemma asks_step seen e : standing seen e -> exists e' rc, handle_event Asks e = Ret (e', rc) /\ stepped Asks seen e e' rc.
Proof using G.
  intros [H Hph Ha Hi]. destruct (sftp_SendTrigger_ok data_packet data_packet_Q e (ra_ok _ _ H)) as (e' & rc & p & E & Hd & Ho & Hw & Hgq).
  exists e', rc. split; [done|]. destruct Hw as [r ps -> Hf _ Hp| -> Hf Hp].
  1: split; [by eapply flushed_last|left]. 2: split; [by rewrite (fa_last _ _ _ Hf)|right]. all: split; [done|].
  - assert (forall s, got e s -> got e' s) as Hg by (intros s; by rewrite (flushed_got _ _ _ _ _ _ Hf)).
    split_and!; [|done|by intros _ s ?%elem_of_nil]. split; [by eapply recv_flushed|by eapply phase_flushed; first apply H|..].
    + eapply acks_step; [done|done|done|exact Ho|by constructor].
    + eapply acks_in_step; [done|by eapply flushed_last|by eapply recv_nonneg|exact Ho|by constructor|constructor; [by apply Hgq|done]].
  - injection Hp as P1 P2 P3. assert (forall s, got e s -> got e' s) as Hg by (intros s; by rewrite (failed_got _ _ _ Hf)).
    pose proof (failed_running _ _ _ H Hph Hf) as Hrun.
    split_and!; [|by left|done]. eapply failed_outcome; [done|done|eapply acks_step; [done|done|done|exact Ho|by constructor]|by rewrite P2].
Qed.

Lemma arrives_step p seen e : data_packet p -> standing seen e ->
  exists e' rc, handle_event (Arrives p) e = Ret (e', rc) /\ stepped (Arrives p) (seen ++ [SeqNumber p]) e e' rc.
Proof using G.
  intros Hp [H Hph Ha Hi]. pose proof (ra_ok _ _ H) as Hok. pose proof (recv_nonneg _ _ H) as Hnn.
  destruct (sftp_DataArrived_ok data_packet data_packet_Q data_packet_stable p e Hp Hok) as (e' & rc & E & Harr).
  exists e', rc. split; [done|].
  destruct (arrival_sink_ok data_packet data_packet_Q data_packet_stable p e e' rc Hp Hok Harr) as (Hok' & Hm & _ & _).
  assert (forall k, k ∈ numbers [Arrives p] <-> k = SeqNumber p) as Hn by (intros k; unfold numbers; cbn; apply list_elem_of_singleton).
  destruct Harr as [Hmax [C Hid Ho]|Hwin [C Hid Ho]|acks r ps Hg Hf Hid Ho Hd Hbe|acks Hg Hf Hid Ho Hd|e1 acks r ps A Hf Hnot Hid Ho Hd Hbe|e1 acks r ps A Hf Heof Hc Hall Hid Ho Hd Hbe|e1 acks A Hf Hw Hx Ho Hd].
  - split; [by rewrite (co_last _ _ C)|]. left. split_and!; [done| |done|lia]. split; [by eapply recv_more, recv_core|by eapply phase_core|..].
    + eapply (acks_step e e e' []); [done|done|done|by rewrite app_nil_r|done].
    + eapply (acks_in_step e e e' []); [done|by rewrite (co_last _ _ C)|done|by rewrite app_nil_r|done|constructor].
  - split; [by rewrite (co_last _ _ C)|]. right. split_and!; [done| | |injection Hid as _ X _; by rewrite X].
    + apply recv_outcome; [by eapply recv_more, recv_core|by eapply phase_core|].
      eapply (acks_step e e e' []); [done|done|done|by rewrite app_nil_r|done].
    + right. exists p. rewrite (co_last _ _ C), <- (ra_parms _ _ H). split; [by apply list_elem_of_singleton|done].
  - split; [by eapply flushed_last|]. left. split_and!; [done| |done|intros _ s ->%Hn; by apply Hm].
    split; [by eapply recv_more, recv_flushed|by eapply (phase_flushed e)|by eapply acks_step|by eapply acks_in_step; [..|eapply flushed_last; exact Hf|exact Hnn|exact Ho|exact Hd|]].
  - split; [by rewrite (fa_last _ _ _ Hf)|]. right. injection Hid as W X _. pose proof (failed_running _ _ _ H Hph Hf) as Hrun.
    split_and!; [done| |by left|done]. eapply failed_outcome; [by eapply recv_more|done|by eapply acks_step|by rewrite X].
  - pose proof (recv_accepted _ _ _ _ Hp H A) as H1. pose proof (eof_accepted _ _ _ Hp Hph A) as Heof. injection Hid as W X Y.
    assert (forall s, got e1 s -> got e' s) as Hm1 by (intros s; by rewrite (flushed_got _ _ _ _ _ _ Hf)).
    split; [rewrite <- (ac_last _ _ _ A); by eapply flushed_last|]. left. split_and!; [done| |done|intros _ s ->%Hn; apply Hm1, (accepted_got _ _ _ _ A); by left].
    split; [by eapply recv_flushed| |by eapply acks_step|eapply acks_in_step; [done|rewrite <- (ac_last _ _ _ A); by eapply flushed_last|by eapply recv_nonneg|done|done|done]]. split; rewrite ?X, ?Y; [| |done].
    + by rewrite (flushed_got _ _ _ _ _ _ Hf).
    + rewrite (complete_flushed _ _ _ _ Hf). split; [done|]. intros ?. by destruct Hnot.
  - pose proof (recv_accepted _ _ _ _ Hp H A) as H1. pose proof (eof_accepted _ _ _ Hp Hph A) as He. injection Hid as W X Y.
    assert (forall s, got e1 s -> got e' s) as Hm1 by (intros s; by rewrite (flushed_got _ _ _ _ _ _ Hf)).
    split; [rewrite <- (ac_last _ _ _ A); by eapply flushed_last|]. left. split_and!; [done| |done|intros _ s ->%Hn; apply Hm1, (accepted_got _ _ _ _ A); by left].
    split; [by eapply recv_flushed| |by eapply acks_step|eapply acks_in_step; [done|rewrite <- (ac_last _ _ _ A); by eapply flushed_last|by eapply recv_nonneg|done|done|done]]. split; rewrite ?X, ?Y; [| |done].
    + rewrite (flushed_got _ _ _ _ _ _ Hf), <- He, Heof. done.
    + rewrite (complete_flushed _ _ _ _ Hf). done.
  - pose proof (recv_accepted _ _ _ _ Hp H A) as H1.
    assert (forall s, got e1 s -> got e' s) as Hm1 by (intros s; by rewrite (failed_got _ _ _ Hf)).
    split; [by rewrite (fa_last _ _ _ Hf), (ac_last _ _ _ A)|]. right. split_and!; [done| |by left|].
    + eapply failed_outcome; [exact H1|done|by eapply acks_step|congruence].
    + intros Hx'. exfalso. apply (ac_new _ _ _ A). destruct Hph as [Hp1 Hp2 Hp3]. apply Hp2 in Hx' as [He Hc]. apply Hc.
      apply Hp1 in He as [?|Hb]; pose proof (dp_seq _ _ _ _ _ Hp); pose proof (sk_lo _ _ Hok); [lia|].
      destruct (sk_bits _ _ Hok _ Hb) as [? _]. lia.
Qed.

Lemma event_step x seen e : genuine x -> standing seen e ->
  exists e' rc, handle_event x e = Ret (e', rc) /\ stepped x (seen ++ numbers [x]) e e' rc.
Proof using G. destruct x as [p|]; intros Hx H; [by apply arrives_step|rewrite app_nil_r; by apply asks_step]. Qed.

Lemma numbers_cons x xs : numbers (x :: xs) = numbers [x] ++ numbers xs.
Proof using. destruct x; done. Qed.

Lemma outcome_more seen k e : outcome seen e -> outcome (seen ++ k) e.
Proof using.
  intros []. split; try done. eapply Forall_impl; [done|]. cbn. intros p Hs s Hk. rewrite elem_of_app. destruct (Hs s Hk); tauto.
Qed.

Lemma receive_ok xs seen e : standing seen e -> Forall genuine xs -> exists e' rc, receive xs e = Ret (e', rc) /\
  outcome (seen ++ numbers xs) e' /\
  ((rc = 0 /\ standing (seen ++ numbers xs) e' /\ (forall s, got e s -> got e' s) /\ (SFTP_MaxPackets <= 0 -> forall s, s ∈ numbers xs -> got e' s)) \/
   (rc = -1 /\ gave_up xs e')).
Proof using G.
  revert seen e. induction xs as [|x xs IH]; intros seen e H Hxs.
  { exists e, 0. cbn. rewrite app_nil_r. split_and!; [done|apply recv_outcome; apply H|left; split_and!; try done]. by intros _ s ?%elem_of_nil. }
  apply Forall_cons in Hxs as [Hx Hxs]. destruct (event_step x seen e Hx H) as (e1 & rc & E & _ & [(-> & H1 & Hm & Hn)|(-> & Ho & Hg & _)]);
    cbn [receive]; rewrite E, numbers_cons, app_assoc; cbn.
  - destruct (IH _ _ H1 Hxs) as (e' & rc & -> & Ho & Hc). exists e', rc. split_and!; [done|done|].
    destruct Hc as [(-> & H2 & Hm2 & Hn2)|(-> & Hg)]; [left|right]; split_and!; try done; [auto|..].
    + intros Hmax s [Hs|Hs]%elem_of_app; [by apply Hm2, Hn|by apply Hn2].
    + destruct Hg as [?|(p & Hp & ?)]; [by left|right; exists p; split; [by right|done]].
  - exists e1, (-1). split_and!; [done|by apply outcome_more|right; split; [done|]].
    destruct Hg as [?|(p & Hp%list_elem_of_singleton & ?)]; [by left|right; exists p; split; [subst x; by left|done]].
Qed.

Lemma starts_standing e : starts e -> ByteQuota e = q -> standing [] e.
Proof using G.
  intros [H1 H2 H3 H4 H5 H6 H7 H8 H9 H10] Hq. pose proof (npackets_bounds _ _ _ G) as [Hn _].
  assert (forall s, got e s <-> s <= S0) as Hg.
  { intros s. unfold got. rewrite H2, H4, mbit_zero. split; [by intros [?|?]|by left]. }
  destruct G as [G1 G2 G3 G4]. split; [|split| |].
  - split; try (rewrite ?H2, ?H3; lia); try done.
    + split; rewrite ?H1, ?H2, ?H3, ?H4; try lia; try done; [apply B_Zero_ok|by intros i; rewrite mbit_zero| |].
      * left. unfold appending. by rewrite H7, H8.
      * unfold quota_ok, limited. rewrite H9. intros ?%andb_true_iff. lia.
    + rewrite H7, H2, Z.sub_diag, Z.mul_0_l. unfold cap. rewrite take_0. destruct (_ && _); [by rewrite take_nil|done].
    + by rewrite H9, H7.
    + intros s Hs. left. by apply Hg.
  - rewrite H5, Hg. split; [done|lia].
  - rewrite H5. split; [done|by intros [? _]].
  - done.
  - unfold acks_got. by rewrite H10.
  - unfold acks_in. by rewrite H10.
Qed.

End Deliver.

(** ** The theorem *)
Section Receive.
Context {env : SftpEnv}.

(** C38 An entry that starts to receive file [F], cut into packets numbered from [S0 + 1],
    gets any of these packets in any order and any number of times and asks for more at
    any time.  The handling of the events returns.  What is in the file is a beginning
    of [F] (of the part that the quota allows), and all of it when the transfer counts
    as completed; no ack names a packet that has not arrived.  When no event failed and
    every packet arrived, in a process that does not limit its packet buffers, the
    transfer is completed.  An event fails only for an error of the file or for a
    packet beyond the window. *)
Theorem sftp_receive_correct F P S0 call xs e : geometry F P S0 -> starts P S0 e -> Forall (genuine F P S0 call) xs ->
  exists e' rc, receive xs e = Ret (e', rc) /\
    vf_data e' `prefix_of` cap (ByteQuota e) F /\
    (XferState e' = XferCompleted -> vf_data e' = cap (ByteQuota e) F) /\
    Forall (fun p => forall s, acked p s -> s <= S0 \/ s ∈ numbers xs) (outs e') /\
    ((rc = 0 /\ (SFTP_MaxPackets <= 0 -> (forall s, S0 < s <= S0 + npackets F P -> s ∈ numbers xs) -> XferState e' = XferCompleted)) \/
     (rc = -1 /\ gave_up P xs e')).
Proof using.
  intros G Hs Hxs. destruct (receive_ok F P S0 call G (ByteQuota e) xs [] e (starts_standing _ _ _ _ G _ _ Hs eq_refl) Hxs) as (e' & rc & E & [O1 O2 O3] & Hc).
  exists e', rc. split_and!; try done. destruct Hc as [(-> & [H [Hp1 Hp2 _] _ _] & _ & Hn)|?]; [left; split; [done|]|by right].
  intros Hmax Hall. pose proof (npackets_bounds _ _ _ G) as [Hnp _]. apply Hp2. split; [apply Hp1, (Hn Hmax), Hall; lia|].
  intros s Hle. destruct (decide (s <= S0)); [left; pose proof (ra_lo _ _ _ _ _ _ _ H); lia|].
  apply (Hn Hmax), Hall. pose proof (ra_hi _ _ _ _ _ _ _ H). lia.
Qed.
End Receive.

(** A transfer of five bytes in three packets, two of them out of order, one twice. *)
Module Sample.
#[export] Instance sample_env : SftpEnv := {|
  clock := fun n => Z.of_nat n; RetryInterval := fun _ _ => 0; MorePackets := fun _ => -1; GetConn := true;
  SFTP_MaxPackets := 0; SFTP_EnforceQuota := false |}.

Definition file : list Z := [10; 11; 12; 13; 14].
Definition sizes : parms := Parms 4 1 1 62 2.
Definition part (n : Z) (more : bool) (body : list Z) : packet :=
  Packet SFTP_DATA n SFTP_ACKME (if more then SFTP_MOREDATA else 0) (zlen body) 0 B_Zero 7 0 1 (HDR + zlen body) body.
Definition start : entry :=
  Entry sizes (Status SFSERVER XferInProgress false false 0 0 false true 0 1 CLIENTTOSERVER)
    (Source 0 0 B_Zero 0 0 0) (Sink 0 0 B_Zero 0 0) (VFile true true false [] 0 100 0 0 false) (World [] 0 0 []) [] ∅.
Definition history : list event :=
  [Arrives (part 2 true [12; 13]); Asks; Arrives (part 1 true [10; 11]); Arrives (part 2 true [12; 13]); Arrives (part 3 false [14])].

Lemma sample_complete : exists e', receive history start = Ret (e', 0) /\ XferState e' = XferCompleted /\ vf_data e' = file.
Proof. eexists. split; [vm_compute; reflexivity|]. split; reflexivity. Qed.

End Sample.
Import Sample.

Lemma sftp_receive_witness : exists e' rc, receive history start = Ret (e', rc) /\ vf_data e' `prefix_of` cap 0 file.
Proof.
  destruct (sftp_receive_correct file sizes 0 1 history start) as (e' & rc & E & Hp & _).
  - split; vm_compute; repeat split; intros H; discriminate H.
  - split; try reflexivity. intros H. discriminate H.
  - repeat constructor; try (vm_compute; reflexivity); vm_compute; intros H; discriminate H.
  - exists e', rc. split; [exact E|exact Hp].
Defined.

End SftpDeliver.
