(* ===== verification/SftpSystem.v ===== *)
(** * A file transfer

    The source and the sink of a transfer, each in its own process, with a network in
    between that may lose, duplicate and reorder what they send.  Whatever it does, the
    file at the sink is a beginning of the file at the source, the source considers the
    transfer complete only when the sink has all of it, and no handler fails an
    assertion or uses a missing buffer. *)
From Stdlib Require Import ZArith Lia Bool.
From stdpp Require Import base list numbers gmap.
From S2P Require Import Prelude.
From S2P Require Import SftpMask.
From S2P Require Import SftpEntry.
From S2P Require Import SftpCode.
From S2P Require Import SftpFile.
From S2P Require Import SftpSink.
From S2P Require Import SftpArrive.
From S2P Require Import SftpSource.
From S2P Require Import SftpRead.
From S2P Require Import SftpSend.
From S2P Require Import SftpAck.
From S2P Require Import SftpDeliver.
Import SftpMask SftpEntry SftpCode SftpFile SftpSink SftpArrive SftpSource SftpRead SftpSend SftpAck SftpDeliver.
Open Scope Z_scope.

Module SftpSystem.

Record system := System { src : entry; snk : entry }.

(** Packet [n] of those that the source ever sent arrives at the sink, an ack of the sink
    at the source; a timer expires.  A packet that never arrives is lost. *)
Inductive happening := ToSink (n : nat) | ToSource (n : nat) | SourceTimer | SinkTimer.

Section System.
Context (E1 E2 : SftpEnv).

(** The server's routines PutFile and GetFile note timeouts in Retransmitting; they run
    while the transfer is in progress. *)
Definition step (x : happening) (s : system) : res (system * Z) :=
  match x with
  | ToSink n =>
      match outs (src s) !! n with
      | None => Ret (s, 0)
      | Some p => let* (e, rc) := @sftp_DataArrived E2 p (snk s) in Ret (System (src s) e, rc)
      end
  | ToSource n =>
      match outs (snk s) !! n with
      | None => Ret (s, 0)
      | Some p =>
          let e := if decide (WhoAmI (src s) = SFSERVER) then set_Retransmitting false (src s) else src s in
          let* (e, rc) := @sftp_AckArrived E1 p e in Ret (System e (snk s), rc)
      end
  | SourceTimer =>
      if decide (XferState (src s) = XferInProgress)
      then let* (e, rc) := @sftp_SendStrategy E1 (set_Retransmitting true (src s)) in Ret (System e (snk s), rc)
      else Ret (s, 0)
  | SinkTimer =>
      if decide (XferState (snk s) = XferInProgress)
      then let* (e, rc) := @sftp_SendTrigger E2 (set_Retransmitting true (snk s)) in Ret (System (src s) e, rc)
      else Ret (s, 0)
  end.

Fixpoint transfer (xs : list happening) (s : system) : res (system * Z) :=
  match xs with
  | [] => Ret (s, 0)
  | x :: xs => let* (s, rc) := step x s in if rc <? 0 then Ret (s, rc) else transfer xs s
  end.



Section Invariant.
Context (F : list Z) (P : parms) (S0 call q : Z) (G : geometry F P S0) (Hmax : @SFTP_MaxPackets E1 <= 0).
Abbreviation last := (S0 + npackets F P).
Abbreviation settled := (@settled E1 F P S0 call).
Abbreviation standing := (@standing E2 F P S0 call q).
















End Invariant.

End System.

(** C40 An ack that is older than one before it is not ignored, as the code means to: the
    difference is computed in unsigned arithmetic, the test for a negative one never
    holds, and the handler reports an error, which makes its callers give up the
    transfer. *)
Theorem sftp_old_ack_aborts {env : SftpEnv} (p : packet) (e : entry) : 0 <= GotEmAll p < SendLastContig e -> SendLastContig e <= SendMostRecent e < 2 ^ 31 ->
  sftp_AckArrived p e = Ret (e, -1).
Proof.
  intros Hg Hl. unfold sftp_AckArrived. cbv zeta.
  assert (u32 (GotEmAll p - SendLastContig e) = GotEmAll p - SendLastContig e + 2 ^ 32) as -> by (unfold uwrap; zdm).
  rewrite (uwrap_small 32 (SendMostRecent e - SendLastContig e)) by lia. rewrite Z.gtb_ltb.
  destruct (Z.ltb_spec (GotEmAll p - SendLastContig e + 2 ^ 32) 0); [lia|].
  destruct (Z.eqb_spec (GotEmAll p - SendLastContig e + 2 ^ 32) 0); [lia|]. cbn [andb].
  destruct (Z.ltb_spec (SendMostRecent e - SendLastContig e) (GotEmAll p - SendLastContig e + 2 ^ 32)); [done|lia].
Qed.
(** ** A transfer that completes

    Packet 2 overtakes packet 1, which is sent twice. *)
Import Sample.

Definition source_start : entry :=
  Entry sizes (Status SFCLIENT XferInProgress false false 0 0 false true 0 1 CLIENTTOSERVER)
    (Source 0 0 B_Zero 0 0 0) (Sink 0 0 B_Zero 0 0) (VFile true true false file 0 100 0 0 false) (World [] 0 0 []) [] ∅.
Definition sample_run : list happening :=
  [SourceTimer; SourceTimer; ToSink 2; SinkTimer; ToSink 0; ToSink 1; ToSource 2; ToSink 4; ToSource 3].

Lemma sample_transfer : exists s, transfer sample_env sample_env sample_run (System source_start start) = Ret (s, 0) /\
  XferState (src s) = XferCompleted /\ XferState (snk s) = XferCompleted /\ vf_data (snk s) = file.
Proof. eexists. split; [vm_compute; reflexivity|]. split_and!; reflexivity. Qed.


Definition later : entry := set_SendMostRecent 3 (set_SendLastContig 2 source_start).
Definition old_ack : packet := Packet SFTP_ACK 1 0 0 0 1 B_Zero 7 0 1 HDR [].

Lemma sftp_old_ack_witness : sftp_AckArrived old_ack later = Ret (later, -1).
Proof. apply sftp_old_ack_aborts; vm_compute; split; try reflexivity; intros H; discriminate H. Defined.

End SftpSystem.
